(* ===== verification/_CoqProject ===== *)
-Q . S2P
Prelude.v
RvBits.v
SbiString.v
SbiFifo.v
SbiList.v
SbiHeap.v
SbiBitops.v
SbiScratch.v
SbiHartmask.v
SbiMemregion.v
SbiDomain.v
SbiRootRegions.v
SbiHsm.v
SbiHsmProto.v
SbiIpi.v
SbiTlb.v
SbiTlbSync.v
SbiRfence.v
SbiLock.v
SbiHart.v
SbiPmp.v
SbiPmpRoot.v
SbiSse.v
SbiSseInv.v
SbiSseCtx.v
SbiSseRun.v
SbiTrap.v
SbiTrapLdst.v
SbiTrapLdstSpec.v
SbiEcall.v
SbiTimer.v
SbiIllegal.v
SbiPmu.v
SbiPmuSpec.v
SbiPmuCount.v
SbiPmuEcall.v
SbiTrapHandler.v
SbiDomainData.v
SbiDomainContext.v
SbiFwft.v
SbiDbtr.v
SbiMpxy.v
SbiConsole.v
SbiFormat.v
SbiConsoleOut.v
SbiDbcn.v
SbiHartInit.v
SbiSystem.v
SbiInit.v
AclintMtimer.v
Plic.v
RpmiQueue.v
RpmiMailbox.v
Hanoi.v
Rv32ima.v
Rv32imaSafe.v
Rv32imaIsa.v
CrazyOs.v
Rv32imaMain.v
