(* ===== verification/Prelude.v ===== *)
(** * A verification library for the OpenSBI firmware and the course programs

    This library models the parts of the repository that carry logic of their
    own: the machine-mode firmware in [course_3/opensbi] ([lib/sbi] and
    [include/sbi]), the RV32IMA emulator and the Hanoi programs of [course_2],
    and the operating system on emulated processors of [course_5/crazy-os]; and
    it proves what makes them correct.  Paths below are relative to
    [src/OS_Spring_2026/course_3/opensbi] unless they start with [course_], and
    then to [src/OS_Spring_2026].

    ** The program

    The firmware runs in machine mode below an operating system.  At boot it
    builds the tables of harts and their scratch areas, the heap, the root domain
    with the memory regions that protect its own image, and programs the physical
    memory protection of every hart from them.  Afterwards it serves supervisor
    calls: harts are started, stopped and suspended, interrupts and TLB fences are
    sent to other harts, and software events are delivered to the supervisor.
    Harts run concurrently; they share state under spin locks, through per-hart
    ring buffers, and through atomic counters and tickets.  Traps the hardware
    does not give to the supervisor are emulated (misaligned accesses, missing
    counters) or redirected to it.

    The emulator [rv32ima_step] executes one instruction of a RISC-V processor
    in memory; its host program loads an image and runs it, and crazy-os runs
    several processes on one such processor each, in turns.

    ** The files

    - [Prelude]: machine integers of [w] bits as [Z] with explicit [wrap], the
      flat byte memory, tactics ([zcases], ...), the hint database [sbi], generic
      lemmas.
    - [SbiString] ([lib/sbi/sbi_string.c]), [SbiBitops] ([sbi_bitops.c/h],
      [sbi_bitmap.c/h]), [SbiList] ([sbi_list.h]): the base routines on memory,
      on bitmaps as lists of words, and on linked nodes in a store of pointers.
    - [SbiFifo] ([sbi_fifo.c]): the ring buffer and the class [BoundedQueue],
      the contract its clients are proved against; the ring buffer is its
      instance [ring_queue] for every entry type with a memory layout
      ([EntryCodec]).
    - [SbiHeap] ([sbi_heap.c]), [SbiScratch] ([sbi_scratch.c], [sbi_math.c]),
      [SbiHartmask] ([sbi_hartmask.h]): allocation, hart tables, sets of harts.
    - [SbiMemregion], [SbiDomain], [SbiRootRegions] ([sbi_domain.c]): memory
      regions and access checks, registration of domains and assignment of harts,
      the region table of the root domain.
    - [SbiHsm], [SbiHsmProto] ([sbi_hsm.c], [sbi_ecall_hsm.c]): hart states as
      functions, and the interleaving of start requests with the life of a hart.
    - [SbiIpi] ([sbi_ipi.c]), [SbiTlb], [SbiTlbSync], [SbiRfence] ([sbi_tlb.c],
      [sbi_ecall_rfence.c], [riscv_atomic.c]): interrupts between harts, fence
      requests with their merging, the protocol that waits for remote fences.
    - [SbiLock] ([riscv_locks.c]): the ticket lock at the level of its assembly.
    - [SbiHart], [SbiPmp], [SbiPmpRoot] ([sbi_hart.c], [riscv_asm.c]): features
      of a hart, the PMP registers and their set-up; Module [SbiPmp.Hw] states
      the rules of the privileged architecture for PMP and Smepmp.
    - [SbiSse], [SbiSseInv], [SbiSseCtx], [SbiSseRun] ([sbi_sse.c],
      [sbi_ecall_sse.c]): supervisor software events, their invariant, the
      interrupted context, the queue of injected events and a concrete machine.
    - [SbiTrap] ([sbi_trap.c]): redirection of traps to the supervisor; Module
      [SbiTrap.Hw] states the trap rules of the privileged architecture.
      [SbiTrapLdst], [SbiTrapLdstSpec] ([sbi_trap_ldst.c], [sbi_unpriv.c]): the
      emulation of loads and stores and the instructions it has to emulate.
    - [SbiEcall] ([sbi_ecall.c]), [SbiTimer] ([sbi_timer.c],
      [sbi_ecall_time.c]), [SbiIllegal] ([sbi_illegal_insn.c],
      [sbi_emulate_csr.c]): supervisor calls, the timer over the class
      [TimerDevice], emulated CSR instructions.
    - [RvBits]: the fields of instruction words, shared with the emulator.
    - [Rv32ima], [Rv32imaSafe], [Rv32imaIsa] ([course_2/mini-rv32ima/mini-rv32ima.h]):
      the emulator, its memory safety, and an independent definition of the
      machine: instruction set, encoding, timer, traps; [Rv32imaMain] ([main.c]).
    - [CrazyOs] ([course_5/crazy-os/crazy-os.c]), [Hanoi] ([course_2/hanoi-nr]).
    - [SbiPmu], [SbiPmuSpec], [SbiPmuCount], [SbiPmuEcall] ([sbi_pmu.c],
      [sbi_ecall_pmu.c]): performance counters in a monad of state and failure,
      with a weakest-precondition logic for it.
    - [SbiTrapHandler] ([sbi_trap.c], [sbi_double_trap.c]): the dispatch of traps
      over the models of emulation, calls, timer, counters, interprocessor
      interrupts and software events.
    - [SbiDomainData], [SbiDomainContext] ([sbi_domain_data.c],
      [sbi_domain_context.c]): the data components attach to domains, and the
      switch of a hart between domains.
    - [SbiFwft] ([sbi_fwft.c], [sbi_ecall_fwft.c]): features the supervisor sets
      and locks, as an abstract table and as fields of registers.
    - [SbiDbtr] ([sbi_dbtr.c], [sbi_ecall_dbtr.c]): debug triggers, shared memory
      entries, and the trigger registers of a hart.
    - [SbiMpxy] ([sbi_mpxy.c], [sbi_ecall_mpxy.c]): the message proxy over drivers
      as records of callbacks.
    - [SbiConsole], [SbiFormat], [SbiConsoleOut] ([sbi_console.c]): the console and
      formatted output, the grammar of formats and the texts they stand for, and
      what arrives at a device; [SbiDbcn] ([sbi_ecall_dbcn.c]): the calls for it.
    - [SbiSystem] ([sbi_system.c], [sbi_cppc.c], [sbi_irqchip.c] and their calls):
      reset, suspend, performance control and interrupt controllers over devices as
      records of callbacks.
    - [SbiInit] ([sbi_init.c]): the boot as a step relation, in which every hart makes
      the calls of its path one at a time.
    - [SbiHartInit] ([sbi_hart.c], [sbi_csr_detect.h]): the detection of features, the
      set-up of the registers and the way into the next stage.
    - [AclintMtimer] ([lib/utils/timer/aclint_mtimer.c], [lib/utils/ipi/aclint_mswi.c]):
      the timer device whose registers are read and written in halves, an instance of
      the class of [SbiTimer], and its software interrupts.
    - [Plic] ([lib/utils/irqchip/plic.c]): the interrupt controller, its set-up, and
      its state around a system suspend.
    - [RpmiQueue], [RpmiMailbox] ([lib/utils/mailbox]): message queues in memory shared
      with the platform's microcontroller, the framework of mailboxes, and requests
      that wait for an answer while the other side moves.

    ** Conventions

    Definitions keep the names of the C functions.  A C function that reads or
    writes shared state takes it as an argument and returns it; an operation that
    the code brackets with a lock is one step.  Error codes are the integers of
    [sbi_error.h].  [option] marks undefined behaviour (an array read out of
    bounds, a NULL dereference) and loops that need not end.  A concurrent
    protocol is an inductive step relation with one step per shared access, and a
    theorem says that the functions are runs of it.  Hardware, the platform
    drivers and callbacks are parameters or logs of calls.

    ** The theorems

    - Data structures refine their abstract counterparts: the ring buffer a
      bounded queue, the linked list a list, hartmasks sets, the ticket lock a
      FIFO queue of harts.
    - Invariants hold in all reachable states: heap blocks tile the heap, domains
      partition the harts, hart states move along the documented edges, the lists
      of enabled events are exact and sorted.
    - Isolation: the root domain denies the supervisor every byte of the firmware
      image, and the programmed PMP decides accesses as the domain does (with Smepmp, for
      permissions it can encode); together,
      from boot on, no supervisor access to the image succeeds.
    - Protocols are safe under all interleavings: start tickets are exclusive as long
      as no hart suspends and no target sees a launch that fails; when the sender of a
      remote fence continues all its requests have been answered, and for ranges of whole
      pages the fence has happened; waiting for a lock is bounded.
    - Round trips: allocate and free, suspend and resume, set and get of a PMP
      entry, inject and complete of an event.
    - Emulation is invisible: a redirected trap leaves the hart as a delegated one
      would, a misaligned access has the effect of the instruction, a trapped CSR
      instruction that of the register.
    - The emulator does in every step what the definition of its machine says, for
      every instruction of RV32IMA with Zicsr and Zifencei, and never leaves its memory; crazy-os gives every process the run it would
      have alone; the three Hanoi programs agree and solve the puzzle.
    - The trap handler ends for every exception from below machine mode, is
      invisible for the exceptions it redirects, and enters the operating system's
      handler for the software event a trap brings; counters count their events.
    - A hart without Smepmp that enters another domain gets exactly that domain's
      memory protection, and a call into a domain and back restores the caller;
      features stay locked until a reset; no call makes a debug trigger match in
      machine mode while other harts leave the shared memory alone; the message proxy
      of a domain without a region that ends the address space writes nothing but
      memory the supervisor may write itself.
    - Formatted output is the text its format stands for, in a buffer up to its
      size, on a device whatever it takes at a time, and across the early buffer;
      printed numbers read back.
    - The harts boot in order under every interleaving: one hart sets up, the others
      initialise when they are started, which is after the set-up; the system is
      suspended by the last running hart only.
    - Detection finds what a hart has, set-up touches no register it lacks, and the
      next stage starts with interrupts and paging off and without the firmware's
      traps delegated to it.
    - The timer driver reads and sets times exactly while the counter runs; the
      interrupt controller loses no configuration in a system suspend.
    - The comment before each theorem names its conditions.  Where one excludes a case
      in which the code does not do what it means to, a lemma states what it does then
      (for example [flush_all_request_lost], [rollback_hangs_target],
      [install_double_fetch], [refused_start_redirects_resume],
      [smepmp_write_only_misencoded], [sse_resume_stale_spv]).

    ** Fuel and bounds

    Loops over a data structure recurse on it.  The other loops carry fuel, and a
    theorem shows that the fuel given by the callers is enough: region checks use
    [range_fuel] (every round but the last passes a boundary of a region), the
    alignment and order searches run at most 65 rounds (one per bit of an
    address), queues are drained in one round more than they have entries.  Where
    the C loop can run for ever the model returns [None] and a theorem exhibits
    it.
    The emulation loop counts down the limit the code has, and the scheduler runs
    for any given number of steps.  The Hanoi programs take the number of their
    own steps as fuel, computed from the number of discs.

    ** Not modelled

    The 32-bit variants; the drivers (but for the timer, the interrupt
    controller and the mailboxes above) and device tree
    code under [lib/utils] and [platform], which talk to devices; [libfdt], a
    third-party library; what [sbi_init.c] prints; the firmware's assembly,
    which is machine code (a CSR access that may trap is modelled by its
    outcome, the instructions under MPRV in [sbi_unpriv.c] by
    their effect on a parameter, the memory the interrupted program sees); the
    vector instructions of [sbi_trap_v_ldst.c], a parameter of the emulation; the
    firmware events that other components than the trap handler count; weak memory
    behaviour (the models interleave atomic accesses, relying on the fences the
    code has).  The other programs of the courses are system calls and text
    output.
    ** What is left

    The calls of the legacy and vendor extensions, the emulation of vector loads and
    stores, the drivers that implement the device records (timers, interrupt
    controllers, serial ports, the clients of the mailboxes) and the device tree code that finds them.
*)

From Stdlib Require Export ZArith Lia Bool.
From stdpp Require Export base tactics option list gmap sorting.

#[global] Open Scope Z_scope.

(** ** Machine integers

    A C unsigned integer of [w] bits is a [Z] in [[0, 2^w)].  Every C operation
    that can wrap is written with [wrap]; the notations below name the widths
    the sources use ([__riscv_xlen = 64], so [unsigned long] is 64 bits). *)

Definition wrap (w z : Z) : Z := z mod 2 ^ w.

Abbreviation u8 := (wrap 8).
Abbreviation u16 := (wrap 16).
Abbreviation u32 := (wrap 32).
Abbreviation u64 := (wrap 64).

Declare Scope mach_scope.
Delimit Scope mach_scope with mach.

(** Wrapping [unsigned long] arithmetic. *)
Notation "a ⊕ b" := (u64 (a + b)) (at level 50, left associativity) : mach_scope.
Notation "a ⊖ b" := (u64 (a - b)) (at level 50, left associativity) : mach_scope.
Notation "a ⊗ b" := (u64 (a * b)) (at level 40, left associativity) : mach_scope.

(** The value of a [w]-bit pattern read as a two's complement integer. *)
Definition signed (w z : Z) : Z := if z <? 2 ^ (w - 1) then z else z - 2 ^ w.

(** C's [~x] on an [unsigned long]. *)
Definition not64 (x : Z) : Z := u64 (Z.lnot x).

Definition BITS_PER_LONG : Z := 64.
Definition ULONG_MAX : Z := 2 ^ 64 - 1.

(** ** Error codes ([sbi_error.h], [sbi_ecall_interface.h]) *)

Definition SBI_OK : Z := 0.
Definition SBI_EFAIL : Z := -1.
Definition SBI_ENOTSUPP : Z := -2.
Definition SBI_EINVAL : Z := -3.
Definition SBI_EDENIED : Z := -4.
Definition SBI_EINVALID_ADDR : Z := -5.
Definition SBI_EALREADY : Z := -6.
Definition SBI_EALREADY_STARTED : Z := -7.
Definition SBI_EALREADY_STOPPED : Z := -8.
Definition SBI_ENO_SHMEM : Z := -9.
Definition SBI_EINVALID_STATE : Z := -10.
Definition SBI_EBAD_RANGE : Z := -11.
Definition SBI_ETIMEOUT : Z := -12.
Definition SBI_EIO : Z := -13.
Definition SBI_EDENIED_LOCKED : Z := -14.
Definition SBI_ENODEV : Z := -1000.
Definition SBI_ENOSYS : Z := -1001.
Definition SBI_EILL : Z := -1002.
Definition SBI_ENOSPC : Z := -1003.
Definition SBI_ENOMEM : Z := -1004.
Definition SBI_EUNKNOWN : Z := -1005.
Definition SBI_ENOENT : Z := -1006.

(** ** Automation *)

Create HintDb sbi discriminated.
Create Rewrite HintDb zbits.

(** Case analysis on every integer comparison of the goal, then [lia]. *)
Ltac zcases :=
  repeat match goal with
  | |- context [Z.ltb ?a ?b] => destruct (Z.ltb_spec a b)
  | |- context [Z.leb ?a ?b] => destruct (Z.leb_spec a b)
  | |- context [Z.eqb ?a ?b] => destruct (Z.eqb_spec a b)
  end.

Ltac zcases_in H :=
  repeat match type of H with
  | context [Z.ltb ?a ?b] => destruct (Z.ltb_spec a b)
  | context [Z.leb ?a ?b] => destruct (Z.leb_spec a b)
  | context [Z.eqb ?a ?b] => destruct (Z.eqb_spec a b)
  end.

(** Bring every boolean hypothesis into propositional form. *)
Ltac prop_bool :=
  repeat match goal with
  | H : _ && _ = true |- _ => apply andb_true_iff in H; destruct H
  | H : _ || _ = false |- _ => apply orb_false_iff in H; destruct H
  | H : negb _ = true |- _ => apply negb_true_iff in H
  | H : negb _ = false |- _ => apply negb_false_iff in H
  | H : (_ <? _) = true |- _ => apply Z.ltb_lt in H
  | H : (_ <? _) = false |- _ => apply Z.ltb_ge in H
  | H : (_ <=? _) = true |- _ => apply Z.leb_le in H
  | H : (_ <=? _) = false |- _ => apply Z.leb_gt in H
  | H : (_ =? _) = true |- _ => apply Z.eqb_eq in H
  | H : (_ =? _) = false |- _ => apply Z.eqb_neq in H
  end.

(** ** Lemmas on machine integers *)

Lemma wrap_range w z : 0 <= w -> 0 <= wrap w z < 2 ^ w.
Proof. intros. apply Z.mod_pos_bound. lia. Qed.

Lemma wrap_small w z : 0 <= z < 2 ^ w -> wrap w z = z.
Proof. apply Z.mod_small. Qed.

Lemma wrap_wrap w z : 0 <= w -> wrap w (wrap w z) = wrap w z.
Proof. intros. apply wrap_small. by apply wrap_range. Qed.

Lemma wrap_add_l w a b : wrap w (wrap w a + b) = wrap w (a + b).
Proof. apply Zplus_mod_idemp_l. Qed.

Lemma wrap_add_r w a b : wrap w (a + wrap w b) = wrap w (a + b).
Proof. apply Zplus_mod_idemp_r. Qed.

Lemma wrap_sub_l w a b : wrap w (wrap w a - b) = wrap w (a - b).
Proof. apply Zminus_mod_idemp_l. Qed.

Lemma wrap_bits w z i :
  0 <= w -> Z.testbit (wrap w z) i = (i <? w) && Z.testbit z i.
Proof.
  intros. unfold wrap. destruct (Z.ltb_spec i w).
  - by rewrite Z.mod_pow2_bits_low.
  - by rewrite Z.mod_pow2_bits_high.
Qed.

Lemma bits_above w z i : 0 <= z < 2 ^ w -> w <= i -> Z.testbit z i = false.
Proof.
  intros Hz Hi. destruct (Z.ltb_spec i 0); [by rewrite Z.testbit_neg_r|].
  rewrite <- (wrap_small w z) by done.
  destruct (Z.ltb_spec w 0).
  { rewrite Z.pow_neg_r in Hz by lia. lia. }
  rewrite wrap_bits by lia. by destruct (Z.ltb_spec i w); [lia|].
Qed.

Lemma not64_bits x i :
  Z.testbit (not64 x) i = (0 <=? i) && (i <? 64) && negb (Z.testbit x i).
Proof.
  unfold not64. rewrite wrap_bits by lia.
  destruct (Z.leb_spec 0 i); simpl.
  - by rewrite Z.lnot_spec.
  - rewrite (Z.testbit_neg_r _ i) by lia. by rewrite andb_false_r.
Qed.

Lemma shiftl_bits x n i :
  0 <= n -> Z.testbit (Z.shiftl x n) i = (n <=? i) && Z.testbit x (i - n).
Proof.
  intros. destruct (Z.leb_spec n i); simpl.
  - by rewrite Z.shiftl_spec by lia.
  - destruct (Z.ltb_spec i 0).
    + by rewrite Z.testbit_neg_r.
    + rewrite Z.shiftl_spec by lia. by rewrite Z.testbit_neg_r by lia.
Qed.

Lemma shiftr_bits x n i :
  0 <= i -> Z.testbit (Z.shiftr x n) i = Z.testbit x (i + n).
Proof. intros. by apply Z.shiftr_spec. Qed.

Lemma ones_bits n i :
  0 <= n -> Z.testbit (Z.ones n) i = (0 <=? i) && (i <? n).
Proof.
  intros. destruct (Z.leb_spec 0 i); simpl.
  - destruct (Z.ltb_spec i n).
    + by rewrite Z.ones_spec_low by lia.
    + by rewrite Z.ones_spec_high by lia.
  - by rewrite Z.testbit_neg_r by lia.
Qed.

Lemma bit1_bits n i : 0 <= n -> Z.testbit (Z.shiftl 1 n) i = (i =? n).
Proof.
  intros. rewrite shiftl_bits by done.
  destruct (Z.leb_spec n i); simpl.
  - destruct (Z.eqb_spec i n).
    + subst. by rewrite Z.sub_diag.
    + change 1 with (2 ^ 0). rewrite Z.pow2_bits_false by lia. done.
  - by destruct (Z.eqb_spec i n); [lia|].
Qed.

#[export] Hint Rewrite Z.lor_spec Z.land_spec Z.lxor_spec not64_bits : zbits.
#[export] Hint Rewrite wrap_bits shiftl_bits shiftr_bits ones_bits bit1_bits
  using lia : zbits.

(** Equality of integers by bits: [zbits] leaves the goal at bit [i >= 0]. *)
Ltac zbits_eq i :=
  apply Z.bits_inj_iff'; intros i ?; autorewrite with zbits.

(** Rounding down to a multiple of a power of two by masking. *)
Lemma land_not_mask x k :
  0 <= x < 2 ^ 64 -> 0 <= k <= 64 ->
  Z.land x (not64 (2 ^ k - 1)) = x - x mod 2 ^ k.
Proof.
  intros Hx Hk.
  assert (Z.land x (not64 (2 ^ k - 1)) = Z.ldiff x (Z.ones k)) as ->.
  { apply Z.bits_inj_iff'; intros i Hi.
    rewrite Z.ldiff_spec, Z.land_spec, not64_bits, ones_bits by lia.
    replace (2 ^ k - 1) with (Z.ones k) by (rewrite Z.ones_equiv; lia).
    rewrite ones_bits by lia.
    destruct (Z.ltb_spec i 64).
    - zcases; simpl; try lia; by destruct (Z.testbit x i).
    - rewrite (bits_above 64 x i) by lia. done. }
  rewrite Z.ldiff_ones_r by lia.
  rewrite Z.shiftr_div_pow2, Z.shiftl_mul_pow2 by lia.
  pose proof (Z.div_mod x (2 ^ k)). lia.
Qed.

(** Rewriting with this lemma, where [cbn] would make the kernel compare the
    unfolded loops on both sides. *)
Lemma some_bind {A B} (f : A -> option B) x : (Some x ≫= f) = f x.
Proof. reflexivity. Qed.

(** ** Flat memory

    M-mode sees one byte-addressed memory.  Pointer arithmetic that leaves an
    object is undefined in C, so an address is an unbounded [Z]; a byte is a
    [Z] in [[0, 256)], and stores truncate to a byte. *)

Definition mem : Type := Z -> Z.

Definition store8 (m : mem) (a v : Z) : mem :=
  fun x => if x =? a then u8 v else m x.

Definition mem_ok (m : mem) : Prop := forall a, 0 <= m a < 2 ^ 8.

Lemma store8_same m a v : store8 m a v a = u8 v.
Proof. unfold store8. by rewrite Z.eqb_refl. Qed.

Lemma store8_other m a v x : x <> a -> store8 m a v x = m x.
Proof. intros. unfold store8. by destruct (Z.eqb_spec x a). Qed.

Lemma store8_ok m a v : mem_ok m -> mem_ok (store8 m a v).
Proof.
  intros H x. unfold store8. destruct (x =? a); [|apply H].
  by apply wrap_range.
Qed.

#[export] Hint Resolve store8_ok wrap_range : sbi.

(** A memory holding the given bytes from address [a] on, zero elsewhere. *)
Definition mem_of (a : Z) (l : list Z) : mem :=
  fun x => if a <=? x then default 0 (l !! Z.to_nat (x - a)) else 0.

Lemma mem_of_small_ok a l :
  forallb (fun b => (0 <=? b) && (b <? 2 ^ 8)) l = true -> mem_ok (mem_of a l).
Proof.
  intros H x. unfold mem_of. destruct (a <=? x); [|lia].
  destruct (l !! Z.to_nat (x - a)) as [b|] eqn:E; simpl; [|lia].
  rewrite forallb_forall in H. apply list_elem_of_lookup_2, list_elem_of_In, H in E.
  prop_bool. lia.
Qed.

(** The bytes [[a, a + n)] of memory. *)
Definition bytes (m : mem) (a : Z) (n : nat) : list Z :=
  (fun i => m (a + Z.of_nat i)) <$> seq 0 n.

Lemma bytes_length m a n : length (bytes m a n) = n.
Proof. unfold bytes. by rewrite length_fmap, length_seq. Qed.

Lemma bytes_ext m m' a a' n :
  (forall i, 0 <= i < Z.of_nat n -> m (a + i) = m' (a' + i)) ->
  bytes m a n = bytes m' a' n.
Proof.
  intros H. unfold bytes. apply list_fmap_ext.
  intros i x Hx. apply lookup_seq in Hx as [-> ?]. apply H. lia.
Qed.

Lemma bytes_lookup m a n i :
  (i < n)%nat -> bytes m a n !! i = Some (m (a + Z.of_nat i)).
Proof.
  intros. unfold bytes. rewrite list_lookup_fmap, lookup_seq_lt by done. done.
Qed.

(** Little-endian loads and stores of [n] bytes. *)
Fixpoint load_le (m : mem) (a : Z) (n : nat) : Z :=
  match n with
  | O => 0
  | S n' => m a + 2 ^ 8 * load_le m (a + 1) n'
  end.

Fixpoint store_le (m : mem) (a : Z) (n : nat) (v : Z) : mem :=
  match n with
  | O => m
  | S n' => store_le (store8 m a v) (a + 1) n' (v / 2 ^ 8)
  end.

Lemma store_le_other m a n v x :
  x < a \/ a + Z.of_nat n <= x -> store_le m a n v x = m x.
Proof.
  revert m a v. induction n as [|n IH]; intros m a v Hx; simpl; [done|].
  rewrite IH by lia. apply store8_other. lia.
Qed.

Lemma load_le_ext m m' a a' n :
  (forall i, 0 <= i < Z.of_nat n -> m (a + i) = m' (a' + i)) ->
  load_le m a n = load_le m' a' n.
Proof.
  revert a a'. induction n as [|n IH]; intros a a' H; simpl; [done|].
  rewrite (IH (a + 1) (a' + 1)).
  - pose proof (H 0 ltac:(lia)) as H0. rewrite !Z.add_0_r in H0. by rewrite H0.
  - intros i Hi. rewrite <- !Z.add_assoc. apply H. lia.
Qed.

Lemma load_store_le m a n v : 0 <= v < 2 ^ (8 * Z.of_nat n) -> load_le (store_le m a n v) a n = v.
Proof.
  revert m a v. induction n as [|n IH]; intros m a v Hv; [cbn in *; lia|]. cbn [store_le load_le].
  rewrite store_le_other, store8_same by lia. unfold wrap.
  replace (8 * Z.of_nat (S n)) with (8 + 8 * Z.of_nat n) in Hv by lia. rewrite Z.pow_add_r in Hv by lia.
  rewrite IH; [pose proof (Z.div_mod v (2 ^ 8)); lia|]. split; [apply Z.div_pos; lia|].
  apply Z.div_lt_upper_bound; lia.
Qed.

Lemma store_le_ok m a n v : mem_ok m -> mem_ok (store_le m a n v).
Proof. revert m a v. induction n as [|n IH]; intros m a v H; cbn [store_le]; auto with sbi. Qed.

Lemma load_le_range m a n : mem_ok m -> 0 <= load_le m a n < 2 ^ (8 * Z.of_nat n).
Proof.
  intros H. revert a. induction n as [|n IH]; intros a; cbn [load_le]; [lia|]. specialize (IH (a + 1)). pose proof (H a).
  replace (8 * Z.of_nat (S n)) with (8 + 8 * Z.of_nat n) by lia. rewrite Z.pow_add_r by lia. lia.
Qed.

(** Storing the value loaded from [s] copies the [n] bytes at [s]. *)
Lemma store_load_le m0 m a s n x :
  mem_ok m0 -> a <= x < a + Z.of_nat n ->
  store_le m a n (load_le m0 s n) x = m0 (s + (x - a)).
Proof.
  intros Hok. revert m a s. induction n as [|n IH]; intros m a s Hx; [lia|].
  simpl. set (l := load_le m0 (s + 1) n).
  assert ((m0 s + 2 ^ 8 * l) / 2 ^ 8 = l) as ->.
  { rewrite Z.mul_comm, Z.div_add by lia.
    rewrite Z.div_small by apply Hok. lia. }
  destruct (Z.eq_dec x a) as [->|Hne].
  - rewrite store_le_other, store8_same by lia.
    rewrite Z.sub_diag, Z.add_0_r. unfold wrap.
    rewrite Z.mul_comm, Z.mod_add by lia. apply Z.mod_small, Hok.
  - unfold l. rewrite IH by lia. f_equal. lia.
Qed.
