(* ===== verification/RvBits.v ===== *)
(** * RISC-V instruction words

    The layout of 32-bit instructions, and arithmetic with bit fields, shared by
    the emulator and the firmware's instruction decoding. *)

From S2P Require Import Prelude.

(** ** Layout *)

(** Every format cuts the word at the same places. *)
Definition pack (opcode rd funct3 rs1 rs2 funct7 : Z) : Z :=
  opcode + 2 ^ 7 * rd + 2 ^ 12 * funct3 + 2 ^ 15 * rs1 + 2 ^ 20 * rs2 + 2 ^ 25 * funct7.

Definition enc_i (opcode rd funct3 rs1 imm : Z) : Z :=
  let u := imm mod 2 ^ 12 in pack opcode rd funct3 rs1 (u mod 32) (u / 32).

(** imm[11:5] and imm[4:0] *)
Definition enc_s (opcode funct3 rs1 rs2 imm : Z) : Z :=
  let u := imm mod 2 ^ 12 in pack opcode (u mod 32) funct3 rs1 rs2 (u / 32).

(** ** Bit fields *)

(** Linear arithmetic with division by powers of two. *)
Ltac divlia :=
  repeat match goal with
    | H : context [Z.pow (Zpos ?a) (Zpos ?b)] |- _ =>
        let v := eval vm_compute in (Z.pow (Zpos a) (Zpos b)) in change (Z.pow (Zpos a) (Zpos b)) with v in H
    | |- context [Z.pow (Zpos ?a) (Zpos ?b)] =>
        let v := eval vm_compute in (Z.pow (Zpos a) (Zpos b)) in change (Z.pow (Zpos a) (Zpos b)) with v
    end;
  Z.to_euclidean_division_equations; lia.

Lemma land_ones_mod x w : 0 <= w -> Z.land x (2 ^ w - 1) = x mod 2 ^ w.
Proof. intros Hw. rewrite <- Z.land_ones by done. by rewrite Z.ones_equiv, Z.sub_1_r. Qed.

Lemma field_mod x k w : 0 <= k -> 0 <= w -> Z.land (Z.shiftr x k) (2 ^ w - 1) = x / 2 ^ k mod 2 ^ w.
Proof. intros. rewrite land_ones_mod, Z.shiftr_div_pow2 by done. done. Qed.

Lemma mask_mod x k w : 0 <= k -> 0 <= w -> Z.land x ((2 ^ w - 1) * 2 ^ k) = x / 2 ^ k mod 2 ^ w * 2 ^ k.
Proof.
  intros Hk Hw. rewrite <- field_mod, <- !Z.shiftl_mul_pow2 by done.
  apply Z.bits_inj'. intros i Hi. rewrite !Z.land_spec, !Z.shiftl_spec, Z.land_spec by done.
  destruct (Z_lt_le_dec i k).
  - rewrite !(Z.testbit_neg_r _ (i - k)) by lia. by rewrite andb_false_r.
  - rewrite Z.shiftr_spec by lia. by replace (i - k + k) with i by lia.
Qed.

Lemma lor_add a b k : 0 <= k -> 0 <= a < 2 ^ k -> b mod 2 ^ k = 0 -> Z.lor a b = a + b.
Proof.
  intros Hk Ha Hb. assert (Z.land a b = 0) as Hl.
  { apply Z.bits_inj'. intros i Hi. rewrite Z.land_spec, Z.bits_0. destruct (Z_lt_le_dec i k).
    - rewrite <- (Z.mod_pow2_bits_low b k i), Hb, Z.bits_0 by done. apply andb_false_r.
    - by rewrite (bits_above k). }
  by rewrite Z.add_nocarry_lxor, Z.lxor_lor.
Qed.

Lemma signed_mod w z : 0 < w -> - 2 ^ (w - 1) <= z < 2 ^ (w - 1) -> signed w (z mod 2 ^ w) = z.
Proof.
  intros Hw Hz. unfold signed.
  assert (2 ^ w = 2 * 2 ^ (w - 1)) as E by (rewrite <- Z.pow_succ_r by lia; f_equal; lia).
  destruct (Z_lt_le_dec z 0).
  - assert (z mod 2 ^ w = z + 2 ^ w) as -> by (symmetry; apply Z.mod_unique with (-1); lia).
    zcases; lia.
  - rewrite Z.mod_small by lia. zcases; lia.
Qed.

Lemma mod_range z w : 0 <= w -> 0 <= z mod 2 ^ w < 2 ^ w.
Proof. intros. apply Z.mod_pos_bound. lia. Qed.

Lemma split5 u : 0 <= u < 2 ^ 12 -> u mod 32 + 32 * (u / 32) = u /\ 0 <= u mod 32 < 32 /\ 0 <= u / 32 < 128.
Proof.
  intros Hu. pose proof (Z.div_mod u 32). pose proof (Z.mod_pos_bound u 32).
  assert (0 <= u / 32 < 128) by (split; [apply Z.div_pos; lia|apply Z.div_lt_upper_bound; lia]). lia.
Qed.

(** ** The fields of a word *)

Section PackFields.
Variables (opc rd f3 rs1 rs2 f7 : Z).
Hypothesis Hopc : 0 <= opc < 128.
Hypothesis Hrd : 0 <= rd < 32.
Hypothesis Hf3 : 0 <= f3 < 8.
Hypothesis Hrs1 : 0 <= rs1 < 32.
Hypothesis Hrs2 : 0 <= rs2 < 32.
Hypothesis Hf7 : 0 <= f7 < 128.
Let ir := pack opc rd f3 rs1 rs2 f7.

Lemma pack_opcode : Z.land ir 0x7f = opc.
Proof.
  change 0x7f with (2 ^ 7 - 1). rewrite land_ones_mod by lia. unfold ir, pack.
  symmetry. apply Z.mod_unique with (rd + 2 ^ 5 * f3 + 2 ^ 8 * rs1 + 2 ^ 13 * rs2 + 2 ^ 18 * f7); lia.
Qed.

Lemma pack_div7 : ir / 2 ^ 7 = rd + 2 ^ 5 * f3 + 2 ^ 8 * rs1 + 2 ^ 13 * rs2 + 2 ^ 18 * f7.
Proof. symmetry. apply Z.div_unique with opc; unfold ir, pack; lia. Qed.

Lemma pack_div12 : ir / 2 ^ 12 = f3 + 2 ^ 3 * rs1 + 2 ^ 8 * rs2 + 2 ^ 13 * f7.
Proof. symmetry. apply Z.div_unique with (opc + 2 ^ 7 * rd); unfold ir, pack; lia. Qed.

Lemma pack_div15 : ir / 2 ^ 15 = rs1 + 2 ^ 5 * rs2 + 2 ^ 10 * f7.
Proof. symmetry. apply Z.div_unique with (opc + 2 ^ 7 * rd + 2 ^ 12 * f3); unfold ir, pack; lia. Qed.

Lemma pack_div20 : ir / 2 ^ 20 = rs2 + 2 ^ 5 * f7.
Proof. symmetry. apply Z.div_unique with (opc + 2 ^ 7 * rd + 2 ^ 12 * f3 + 2 ^ 15 * rs1); unfold ir, pack; lia. Qed.

Lemma pack_div25 : ir / 2 ^ 25 = f7.
Proof.
  symmetry. apply Z.div_unique with (opc + 2 ^ 7 * rd + 2 ^ 12 * f3 + 2 ^ 15 * rs1 + 2 ^ 20 * rs2);
    unfold ir, pack; lia.
Qed.

End PackFields.
