(* ===== verification/SbiString.v ===== *)
(** * [lib/sbi/sbi_string.c]: string and memory routines

    Each routine is a function on the flat memory of [Prelude].  Loops that
    count down [size_t count] recurse on [Z.to_nat count]; loops that run to a
    NUL take fuel and return [None] when it runs out, and the theorems show
    how much fuel is enough.  A [char *] result that may be [NULL] is an
    [option Z].  Plain [char] is unsigned on RISC-V, so [*a - *b] is the
    difference of two bytes in [[0, 256)]. *)

From S2P Require Import Prelude.

(** ** Definitions *)

Fixpoint strcmp_loop (fuel : nat) (m : mem) (a b : Z) : option Z :=
  match fuel with
  | O => None
  | S fuel' =>
      if (m a =? m b) && negb (m a =? 0)
      then strcmp_loop fuel' m (a + 1) (b + 1)
      else Some (m a - m b)
  end.

Definition sbi_strcmp (fuel : nat) (m : mem) (a b : Z) : option Z :=
  strcmp_loop fuel m a b.

Fixpoint strncmp_loop (m : mem) (a b : Z) (count : nat) : Z :=
  match count with
  | O => 0
  | S count' =>
      if (m a =? m b) && negb (m a =? 0)
      then strncmp_loop m (a + 1) (b + 1) count'
      else m a - m b
  end.

Definition sbi_strncmp (m : mem) (a b count : Z) : Z :=
  strncmp_loop m a b (Z.to_nat count).

Fixpoint strlen_loop (fuel : nat) (m : mem) (str ret : Z) : option Z :=
  match fuel with
  | O => None
  | S fuel' =>
      if negb (m str =? 0) then strlen_loop fuel' m (str + 1) (u64 (ret + 1))
      else Some ret
  end.

Definition sbi_strlen (fuel : nat) (m : mem) (str : Z) : option Z :=
  strlen_loop fuel m str 0.

(** [while ( *str != 0 && ret < count)], with [left = count - ret]. *)
Fixpoint strnlen_loop (m : mem) (str ret : Z) (left : nat) : Z :=
  if negb (m str =? 0) then
    match left with
    | O => ret
    | S left' => strnlen_loop m (str + 1) (ret + 1) left'
    end
  else ret.

Definition sbi_strnlen (m : mem) (str count : Z) : Z :=
  strnlen_loop m str 0 (Z.to_nat count).

Fixpoint strcpy_loop (fuel : nat) (m : mem) (dest src : Z) : option mem :=
  match fuel with
  | O => None
  | S fuel' =>
      if negb (m src =? 0)
      then strcpy_loop fuel' (store8 m dest (m src)) (dest + 1) (src + 1)
      else Some m
  end.

Definition sbi_strcpy (fuel : nat) (m : mem) (dest src : Z) : option (mem * Z) :=
  (fun m' => (m', dest)) <$> strcpy_loop fuel m dest src.

Fixpoint strncpy_loop (m : mem) (dest src : Z) (count : nat) : mem :=
  match count with
  | O => m
  | S count' =>
      if negb (m src =? 0)
      then strncpy_loop (store8 m dest (m src)) (dest + 1) (src + 1) count'
      else m
  end.

Definition sbi_strncpy (m : mem) (dest src count : Z) : mem * Z :=
  (strncpy_loop m dest src (Z.to_nat count), dest).

Fixpoint strchr_loop (fuel : nat) (m : mem) (s c : Z) : option Z :=
  match fuel with
  | O => None
  | S fuel' =>
      if negb (m s =? 0) && negb (m s =? u8 c)
      then strchr_loop fuel' m (s + 1) c
      else Some s
  end.

(** The outer option is the fuel; the inner one is the pointer or [NULL]. *)
Definition sbi_strchr (fuel : nat) (m : mem) (s c : Z) : option (option Z) :=
  match strchr_loop fuel m s c with
  | None => None
  | Some s' => Some (if m s' =? 0 then None else Some s')
  end.

(** [while (last > s && *last != (char)c)], with [k = last - s]. *)
Fixpoint strrchr_loop (m : mem) (s c : Z) (k : nat) : Z :=
  match k with
  | O => s
  | S k' =>
      if negb (m (s + Z.of_nat k) =? u8 c) then strrchr_loop m s c k'
      else s + Z.of_nat k
  end.

Definition sbi_strrchr (fuel : nat) (m : mem) (s c : Z) : option (option Z) :=
  match sbi_strlen fuel m s with
  | None => None
  | Some n =>
      let last := strrchr_loop m s c (Z.to_nat n) in
      Some (if negb (m last =? u8 c) then None else Some last)
  end.

Fixpoint memset_loop (m : mem) (temp c : Z) (count : nat) : mem :=
  match count with
  | O => m
  | S count' => memset_loop (store8 m temp c) (temp + 1) c count'
  end.

Definition sbi_memset (m : mem) (s c count : Z) : mem * Z :=
  (memset_loop m s c (Z.to_nat count), s).

(** [*temp1++ = *temp2++], [count] times. *)
Fixpoint copy_up (m : mem) (temp1 temp2 : Z) (count : nat) : mem :=
  match count with
  | O => m
  | S count' => copy_up (store8 m temp1 (m temp2)) (temp1 + 1) (temp2 + 1) count'
  end.

(** [*temp1-- = *temp2--], [count] times. *)
Fixpoint copy_down (m : mem) (temp1 temp2 : Z) (count : nat) : mem :=
  match count with
  | O => m
  | S count' => copy_down (store8 m temp1 (m temp2)) (temp1 - 1) (temp2 - 1) count'
  end.

Definition sbi_memcpy (m : mem) (dest src count : Z) : mem * Z :=
  (copy_up m dest src (Z.to_nat count), dest).

Definition sbi_memmove (m : mem) (dest src count : Z) : mem * Z :=
  if src =? dest then (m, dest)
  else if dest <? src then (copy_up m dest src (Z.to_nat count), dest)
  else (copy_down m (dest + count - 1) (src + count - 1) (Z.to_nat count), dest).

Fixpoint memcmp_loop (m : mem) (temp1 temp2 : Z) (count : nat) : Z :=
  match count with
  | O => 0
  | S count' =>
      if m temp1 =? m temp2 then memcmp_loop m (temp1 + 1) (temp2 + 1) count'
      else m temp1 - m temp2
  end.

Definition sbi_memcmp (m : mem) (s1 s2 count : Z) : Z :=
  memcmp_loop m s1 s2 (Z.to_nat count).

Fixpoint memchr_loop (m : mem) (temp c : Z) (count : nat) : option Z :=
  match count with
  | O => None
  | S count' => if u8 c =? m temp then Some temp else memchr_loop m (temp + 1) c count'
  end.

Definition sbi_memchr (m : mem) (s c count : Z) : option Z :=
  memchr_loop m s c (Z.to_nat count).

(** ** Specifications *)

(** [s] points to a C string of length [n]. *)
Definition cstr (m : mem) (s n : Z) : Prop :=
  0 <= n /\ m (s + n) = 0 /\ forall i, 0 <= i < n -> m (s + i) <> 0.

(** The memory that results from copying [n] bytes of [m] from [src] to [dest]. *)
Definition copied (m : mem) (dest src n : Z) : mem :=
  fun x => if (dest <=? x) && (x <? dest + n) then m (src + (x - dest)) else m x.

(** [differ_at m a b k]: the byte sequences at [a] and [b] agree below [k] and
    differ at [k]. *)
Definition differ_at (m : mem) (a b k : Z) : Prop :=
  (forall i, 0 <= i < k -> m (a + i) = m (b + i)) /\ m (a + k) <> m (b + k).

(** ** Lemmas *)

Lemma u8_byte m a : mem_ok m -> u8 (m a) = m a.
Proof. intros H. apply wrap_small, H. Qed.

Lemma copied_in m dest src n x :
  dest <= x < dest + n -> copied m dest src n x = m (src + (x - dest)).
Proof. intros. unfold copied. zcases; simpl; lia || done. Qed.

Lemma copied_out m dest src n x :
  x < dest \/ dest + n <= x -> copied m dest src n x = m x.
Proof. intros. unfold copied. zcases; simpl; lia || done. Qed.

Lemma copy_up_spec m d s n x :
  mem_ok m -> d <= s \/ s + Z.of_nat n <= d ->
  copy_up m d s n x = copied m d s (Z.of_nat n) x.
Proof.
  revert m d s. induction n as [|n IH]; intros m d s Hm Hds.
  { rewrite copied_out by lia. done. }
  cbn [copy_up]. rewrite IH by (auto using store8_ok || lia).
  destruct (Z.eq_dec x d) as [->|Hne].
  { rewrite copied_out, copied_in, store8_same, u8_byte by (done || lia).
    f_equal. lia. }
  destruct (decide (d + 1 <= x < d + 1 + Z.of_nat n)).
  - rewrite !copied_in, store8_other by lia. f_equal. lia.
  - rewrite !copied_out, store8_other by lia. done.
Qed.

Lemma copy_down_spec m d s n x :
  mem_ok m -> s <= d ->
  copy_down m (d + Z.of_nat n - 1) (s + Z.of_nat n - 1) n x
  = copied m d s (Z.of_nat n) x.
Proof.
  revert m. induction n as [|n IH]; intros m Hm Hds.
  { rewrite copied_out by lia. done. }
  cbn [copy_down].
  replace (d + Z.of_nat (S n) - 1 - 1) with (d + Z.of_nat n - 1) by lia.
  replace (s + Z.of_nat (S n) - 1 - 1) with (s + Z.of_nat n - 1) by lia.
  rewrite IH by auto using store8_ok.
  destruct (Z.eq_dec x (d + Z.of_nat n)) as [->|Hne].
  { rewrite copied_out, copied_in by lia.
    replace (d + Z.of_nat (S n) - 1) with (d + Z.of_nat n) by lia.
    rewrite store8_same, u8_byte by done. f_equal. lia. }
  destruct (decide (d <= x < d + Z.of_nat n)).
  - rewrite !copied_in, store8_other by lia. done.
  - rewrite !copied_out, store8_other by lia. done.
Qed.

Lemma memcpy_spec m d s n x :
  mem_ok m -> d <= s \/ s + n <= d ->
  (sbi_memcpy m d s n).1 x = copied m d s n x.
Proof.
  intros. unfold sbi_memcpy. simpl. destruct (Z.leb_spec 0 n).
  - rewrite copy_up_spec by (done || lia). by rewrite Z2Nat.id.
  - replace (Z.to_nat n) with O by lia. rewrite copied_out by lia. done.
Qed.

Lemma memset_loop_spec m s c n x :
  memset_loop m s c n x
  = if (s <=? x) && (x <? s + Z.of_nat n) then u8 c else m x.
Proof.
  revert m s. induction n as [|n IH]; intros m s.
  { simpl. zcases; simpl; lia || done. }
  cbn [memset_loop]. rewrite IH. unfold store8. zcases; simpl; lia || done.
Qed.

Lemma memset_spec m s c n x :
  (sbi_memset m s c n).1 x = if (s <=? x) && (x <? s + n) then u8 c else m x.
Proof.
  unfold sbi_memset. cbn [fst]. rewrite memset_loop_spec.
  zcases; simpl; lia || done.
Qed.

Lemma memset_ok m s c n : mem_ok m -> mem_ok (sbi_memset m s c n).1.
Proof.
  intros H x. rewrite memset_spec. destruct (_ && _); [by apply wrap_range|apply H].
Qed.

Lemma memcpy_ok m d s n : mem_ok m -> mem_ok (sbi_memcpy m d s n).1.
Proof.
  unfold sbi_memcpy. simpl. generalize (Z.to_nat n) as k. intros k.
  revert m d s. induction k as [|k IH]; intros m d s H; simpl; [done|].
  auto using store8_ok.
Qed.

#[export] Hint Resolve memset_ok memcpy_ok : sbi.

Lemma strlen_loop_spec fuel m s r n :
  cstr m s n -> 0 <= r -> r + n < 2 ^ 64 -> n < Z.of_nat fuel ->
  strlen_loop fuel m s r = Some (r + n).
Proof.
  revert s r n. induction fuel as [|fuel IH]; intros s r n (Hn & H0 & Hne) Hr Hb Hf;
    [lia|].
  simpl. destruct (Z.eqb_spec (m s) 0) as [Hz|Hz]; simpl.
  - destruct (Z.eq_dec n 0) as [->|]; [by rewrite Z.add_0_r|].
    destruct (Hne 0); [lia|]. by rewrite Z.add_0_r.
  - assert (n <> 0) by (intros ->; rewrite Z.add_0_r in H0; done).
    rewrite wrap_small by lia. rewrite (IH _ _ (n - 1)); try lia.
    + f_equal. lia.
    + split_and!; [lia| |intros i Hi].
      * replace (s + 1 + (n - 1)) with (s + n) by lia. done.
      * replace (s + 1 + i) with (s + (i + 1)) by lia. apply Hne. lia.
Qed.

Lemma strlen_spec fuel m s n :
  cstr m s n -> n < 2 ^ 64 -> n < Z.of_nat fuel -> sbi_strlen fuel m s = Some n.
Proof. intros. unfold sbi_strlen. by rewrite (strlen_loop_spec _ _ _ 0 n). Qed.

Lemma strnlen_loop_spec m s r n k :
  cstr m s n -> strnlen_loop m s r k = r + Z.min n (Z.of_nat k).
Proof.
  revert s r n. induction k as [|k IH]; intros s r n (Hn & H0 & Hne); simpl.
  { destruct (negb _); lia. }
  destruct (Z.eqb_spec (m s) 0) as [Hz|Hz]; simpl.
  - destruct (Z.eq_dec n 0); [lia|].
    destruct (Hne 0); [lia|]. by rewrite Z.add_0_r.
  - assert (n <> 0) by (intros ->; rewrite Z.add_0_r in H0; done).
    rewrite (IH _ _ (n - 1)); [lia|].
    split_and!; [lia| |intros i Hi].
    + replace (s + 1 + (n - 1)) with (s + n) by lia. done.
    + replace (s + 1 + i) with (s + (i + 1)) by lia. apply Hne. lia.
Qed.

(** [sbi_strnlen] is the string length capped at [count]. *)
Lemma strnlen_spec m s n count :
  cstr m s n -> 0 <= count -> sbi_strnlen m s count = Z.min n count.
Proof.
  intros. unfold sbi_strnlen. rewrite (strnlen_loop_spec _ _ _ n) by done. lia.
Qed.

Lemma differ_at_cons m a b k :
  0 <= k -> m a = m b -> differ_at m (a + 1) (b + 1) k -> differ_at m a b (k + 1).
Proof.
  intros Hk He [Hp Hd]. split.
  - intros i Hi. destruct (Z.eq_dec i 0) as [->|]; [by rewrite !Z.add_0_r|].
    replace (a + i) with (a + 1 + (i - 1)) by lia.
    replace (b + i) with (b + 1 + (i - 1)) by lia. apply Hp. lia.
  - replace (a + (k + 1)) with (a + 1 + k) by lia.
    by replace (b + (k + 1)) with (b + 1 + k) by lia.
Qed.

(** [sbi_memcmp] returns 0 exactly on equal ranges, else the difference of the
    first two bytes that differ. *)
Lemma memcmp_spec m s1 s2 count :
  0 <= count ->
  (sbi_memcmp m s1 s2 count = 0 /\
   forall i, 0 <= i < count -> m (s1 + i) = m (s2 + i)) \/
  (exists k, 0 <= k < count /\ differ_at m s1 s2 k /\
   sbi_memcmp m s1 s2 count = m (s1 + k) - m (s2 + k)).
Proof.
  intros Hc. unfold sbi_memcmp. remember (Z.to_nat count) as n eqn:Hn.
  assert (count = Z.of_nat n) as -> by lia. clear Hc Hn. revert s1 s2.
  induction n as [|n IH]; intros s1 s2; simpl; [left; split; [done|lia]|].
  destruct (Z.eqb_spec (m s1) (m s2)) as [He|Hne].
  - destruct (IH (s1 + 1) (s2 + 1)) as [[Hr Heq]|(k & Hk & Hd & Hr)].
    + left. split; [done|]. intros i Hi.
      destruct (Z.eq_dec i 0) as [->|]; [by rewrite !Z.add_0_r|].
      replace (s1 + i) with (s1 + 1 + (i - 1)) by lia.
      replace (s2 + i) with (s2 + 1 + (i - 1)) by lia. apply Heq. lia.
    + right. exists (k + 1). split_and!; [lia|lia|by apply differ_at_cons; [lia|..]|].
      rewrite Hr. f_equal; f_equal; lia.
  - right. exists 0. rewrite !Z.add_0_r. split_and!; try lia.
    split; [lia|by rewrite !Z.add_0_r].
Qed.

(** [sbi_memchr] finds the first byte equal to [(unsigned char)c]. *)
Lemma memchr_spec m s c count :
  0 <= count ->
  match sbi_memchr m s c count with
  | Some p => s <= p < s + count /\ m p = u8 c /\ forall q, s <= q < p -> m q <> u8 c
  | None => forall q, s <= q < s + count -> m q <> u8 c
  end.
Proof.
  intros Hc. unfold sbi_memchr. remember (Z.to_nat count) as n eqn:Hn.
  assert (count = Z.of_nat n) as -> by lia. clear Hc Hn. revert s.
  induction n as [|n IH]; intros s; simpl; [lia|].
  destruct (Z.eqb_spec (u8 c) (m s)) as [He|Hne]; [split_and!; lia|].
  specialize (IH (s + 1)). destruct (memchr_loop m (s + 1) c n) as [p|].
  - destruct IH as (? & ? & Hq). split_and!; [lia|lia|done|].
    intros q Hqr. destruct (Z.eq_dec q s) as [->|]; [congruence|]. apply Hq. lia.
  - intros q Hqr. destruct (Z.eq_dec q s) as [->|]; [congruence|]. apply IH. lia.
Qed.

Lemma strrchr_loop_spec m s c k :
  let p := strrchr_loop m s c k in
  s <= p <= s + Z.of_nat k /\ (forall q, p < q <= s + Z.of_nat k -> m q <> u8 c) /\
  (m p = u8 c \/ p = s).
Proof.
  induction k as [|k IH]; cbn [strrchr_loop]; [split_and!; try lia; by right|].
  destruct (Z.eqb_spec (m (s + Z.of_nat (S k))) (u8 c)) as [He|Hne]; simpl negb; cbv iota.
  - split_and!; try lia.
  - destruct IH as (Hr & Hq & Hm). split_and!; try lia.
    intros q Hqr. destruct (Z.eq_dec q (s + Z.of_nat (S k))) as [->|]; [done|].
    apply Hq. lia.
Qed.

(** [sbi_strrchr] finds the last byte equal to [(char)c], the NUL included. *)
Lemma strrchr_spec fuel m s c n :
  cstr m s n -> n < 2 ^ 64 -> n < Z.of_nat fuel ->
  match sbi_strrchr fuel m s c with
  | Some (Some p) => s <= p <= s + n /\ m p = u8 c /\ forall q, p < q <= s + n -> m q <> u8 c
  | Some None => forall q, s <= q <= s + n -> m q <> u8 c
  | None => False
  end.
Proof.
  intros Hs Hn Hf. unfold sbi_strrchr. rewrite (strlen_spec _ _ _ n) by done.
  destruct (strrchr_loop_spec m s c (Z.to_nat n)) as (Hr & Hq & Hm).
  rewrite Z2Nat.id in * by (destruct Hs; lia).
  destruct (Z.eqb_spec (m (strrchr_loop m s c (Z.to_nat n))) (u8 c)); simpl.
  - split_and!; try lia. done.
  - destruct Hm as [|Hm]; [done|]. intros q Hqr.
    destruct (Z.eq_dec q s) as [->|]; [by rewrite <- Hm|]. apply Hq. lia.
Qed.

Lemma strcmp_loop_spec fuel m a b na nb :
  cstr m a na -> cstr m b nb -> na < Z.of_nat fuel ->
  (strcmp_loop fuel m a b = Some 0 /\ na = nb /\
   forall i, 0 <= i < na -> m (a + i) = m (b + i)) \/
  (exists k, 0 <= k <= Z.min na nb /\ differ_at m a b k /\
   strcmp_loop fuel m a b = Some (m (a + k) - m (b + k))).
Proof.
  revert a b na nb. induction fuel as [|fuel IH]; intros a b na nb
    (Hna & Ha0 & Hane) (Hnb & Hb0 & Hbne) Hf; [lia|]. cbn [strcmp_loop].
  destruct (Z.eqb_spec (m a) (m b)) as [He|Hne]; simpl andb.
  2:{ right. exists 0. rewrite !Z.add_0_r. split_and!; try lia; [|done].
      split; [lia|by rewrite !Z.add_0_r]. }
  destruct (Z.eqb_spec (m a) 0) as [Hz|Hz]; simpl negb; cbv iota.
  { left. assert (na = 0).
    { destruct (Z.eq_dec na 0); [done|]. destruct (Hane 0); [lia|by rewrite Z.add_0_r]. }
    assert (nb = 0).
    { destruct (Z.eq_dec nb 0); [done|]. destruct (Hbne 0); [lia|]. rewrite Z.add_0_r. congruence. }
    rewrite He, Z.sub_diag. split_and!; [done|lia|lia]. }
  assert (na <> 0) by (intros ->; rewrite Z.add_0_r in Ha0; done).
  assert (nb <> 0) by (intros ->; rewrite Z.add_0_r in Hb0; congruence).
  destruct (IH (a + 1) (b + 1) (na - 1) (nb - 1)) as [(Hr & Hn & Heq)|(k & Hk & Hd & Hr)].
  - split_and!; [lia| |intros i Hi].
    + by replace (a + 1 + (na - 1)) with (a + na) by lia.
    + replace (a + 1 + i) with (a + (i + 1)) by lia. apply Hane. lia.
  - split_and!; [lia| |intros i Hi].
    + by replace (b + 1 + (nb - 1)) with (b + nb) by lia.
    + replace (b + 1 + i) with (b + (i + 1)) by lia. apply Hbne. lia.
  - lia.
  - left. split_and!; [done|lia|]. intros i Hi.
    destruct (Z.eq_dec i 0) as [->|]; [by rewrite !Z.add_0_r|].
    replace (a + i) with (a + 1 + (i - 1)) by lia.
    replace (b + i) with (b + 1 + (i - 1)) by lia. apply Heq. lia.
  - right. exists (k + 1). split_and!; [lia|lia|by apply differ_at_cons; [lia|..]|].
    rewrite Hr. do 2 f_equal; f_equal; lia.
Qed.

Lemma strcpy_loop_spec fuel m d s n :
  mem_ok m -> cstr m s n -> (d + n <= s \/ s + n < d) -> n < Z.of_nat fuel ->
  exists m', strcpy_loop fuel m d s = Some m' /\
  forall x, m' x = copied m d s n x.
Proof.
  revert m d s n. induction fuel as [|fuel IH]; intros m d s n Hm (Hn & H0 & Hne) Hd Hf;
    [lia|]. cbn [strcpy_loop].
  destruct (Z.eqb_spec (m s) 0) as [Hz|Hz]; simpl negb; cbv iota.
  - assert (n = 0) as ->.
    { destruct (Z.eq_dec n 0); [done|]. destruct (Hne 0); [lia|by rewrite Z.add_0_r]. }
    exists m. split; [done|]. intros x. rewrite copied_out by lia. done.
  - assert (n <> 0) by (intros ->; rewrite Z.add_0_r in H0; done).
    destruct (IH (store8 m d (m s)) (d + 1) (s + 1) (n - 1)) as (m' & Hm' & Hx);
      [by apply store8_ok| |lia|lia|].
    { split_and!; [lia| |intros i Hi].
      - rewrite store8_other by lia.
        by replace (s + 1 + (n - 1)) with (s + n) by lia.
      - rewrite store8_other by lia.
        replace (s + 1 + i) with (s + (i + 1)) by lia. apply Hne. lia. }
    exists m'. split; [done|]. intros x. rewrite Hx.
    destruct (Z.eq_dec x d) as [->|].
    + rewrite copied_out, copied_in, store8_same, u8_byte by (done || lia). f_equal. lia.
    + destruct (decide (d + 1 <= x < d + n)).
      * rewrite !copied_in, store8_other by lia. f_equal. lia.
      * rewrite !copied_out, store8_other by lia. done.
Qed.

(** ** Properties *)

(** [sbi_memmove] copies correctly for every overlap of source and
    destination: afterwards the [count] bytes at [dest] are the bytes that were
    at [src], and every other byte is unchanged. *)
Lemma memmove_correct m dest src count x :
  mem_ok m -> 0 <= count ->
  (sbi_memmove m dest src count).1 x = copied m dest src count x.
Proof.
  intros Hm Hc. unfold sbi_memmove.
  destruct (Z.eqb_spec src dest) as [->|Hne]; cbn [fst].
  { unfold copied. destruct (_ && _); f_equal. lia. }
  destruct (Z.ltb_spec dest src); cbn [fst].
  - rewrite copy_up_spec, Z2Nat.id by (done || lia). done.
  - rewrite <- (Z2Nat.id count) at 1 2 by done.
    rewrite copy_down_spec, Z2Nat.id by (done || lia). done.
Qed.

Lemma memmove_correct_witness :
  (sbi_memmove (mem_of 100 [1; 2; 3; 4; 5]) 102 100 3).1 103 = 2.
Proof.
  rewrite memmove_correct; [reflexivity|apply mem_of_small_ok; reflexivity|lia].
Defined.

(** [sbi_strcmp] terminates on two C strings once the fuel exceeds the
    length of the first one; it returns 0 exactly when the strings are equal
    (same length, same bytes), and otherwise the difference of the first two
    bytes that differ, which is never past the end of either string. *)
Lemma strcmp_correct fuel m a b na nb :
  cstr m a na -> cstr m b nb -> na < Z.of_nat fuel ->
  exists r, sbi_strcmp fuel m a b = Some r /\
  (r = 0 <-> na = nb /\ forall i, 0 <= i < na -> m (a + i) = m (b + i)) /\
  (r <> 0 -> exists k, 0 <= k <= Z.min na nb /\ differ_at m a b k /\
                       r = m (a + k) - m (b + k)).
Proof.
  intros Ha Hb Hf. unfold sbi_strcmp.
  destruct (strcmp_loop_spec fuel m a b na nb Ha Hb Hf)
    as [(Hr & Hn & Heq)|(k & Hk & [Hp Hd] & Hr)]; rewrite Hr; eexists; (split; [done|]).
  - split; [done|]. intros []; done.
  - split; [|intros _; by exists k]. split; [lia|].
    intros [<- Heq]. destruct Hd. destruct (Z.eq_dec k na) as [->|].
    + destruct Ha as (_ & -> & _), Hb as (_ & -> & _). done.
    + apply Heq. lia.
Qed.

Lemma strcmp_correct_witness :
  exists r, sbi_strcmp 3 (mem_of 8 [97; 98; 0; 97; 99; 0]) 8 11 = Some r /\ r <> 0.
Proof.
  destruct (strcmp_correct 3 (mem_of 8 [97; 98; 0; 97; 99; 0]) 8 11 2 2)
    as (r & Hr & _); [| |lia|].
  1-2: split_and!; [lia|reflexivity|].
  1-2: intros i Hi; assert (i = 0 \/ i = 1) as [-> | ->] by lia; vm_compute; discriminate.
  exists r. split; [exact Hr|]. vm_compute in Hr. congruence.
Defined.

(** [sbi_strcpy] copies the [n] bytes of the source string and stops: it
    terminates with enough fuel and returns [dest], but the byte at [dest + n],
    where the C library's [strcpy] writes the terminating NUL, keeps its old
    value, as does every byte outside [[dest, dest + n)]. *)
Lemma strcpy_leaves_terminator fuel m dest src n :
  mem_ok m -> cstr m src n -> (dest + n <= src \/ src + n < dest) ->
  n < Z.of_nat fuel ->
  exists m', sbi_strcpy fuel m dest src = Some (m', dest) /\
  (forall i, 0 <= i < n -> m' (dest + i) = m (src + i)) /\
  m' (dest + n) = m (dest + n).
Proof.
  intros Hm Hs Hd Hf.
  destruct (strcpy_loop_spec fuel m dest src n Hm Hs Hd Hf) as (m' & Hr & Hx).
  exists m'. unfold sbi_strcpy. rewrite Hr. split_and!; [done| |].
  - intros i Hi. rewrite Hx, copied_in by lia. f_equal. lia.
  - rewrite Hx, copied_out by lia. done.
Qed.

Lemma strcpy_leaves_terminator_witness :
  exists m', sbi_strcpy 9 (mem_of 8 [97; 98; 0; 255; 255; 255]) 11 8 = Some (m', 11) /\
             m' 13 = 255.
Proof.
  destruct (strcpy_leaves_terminator 9 (mem_of 8 [97; 98; 0; 255; 255; 255]) 11 8 2)
    as (m' & Hr & _ & Ht).
  - apply mem_of_small_ok. reflexivity.
  - split_and!; [lia|reflexivity|].
    intros i Hi. assert (i = 0 \/ i = 1) as [-> | ->] by lia; vm_compute; discriminate.
  - lia.
  - lia.
  - exists m'. split; [exact Hr|exact Ht].
Defined.
