(* ===== verification/SbiFifo.v ===== *)
(** * [lib/sbi/sbi_fifo.c]: the bounded ring buffer

    The control block [struct sbi_fifo] is a record; the entries live in the
    flat memory at [queue].  Every operation holds [qlock] from entry to exit,
    so it is one atomic step on the pair (control block, memory).  A
    [struct sbi_fifo *] that may be [NULL] is an [option]; a [void *] that may
    be [NULL] is an address with [0] for [NULL].

    [Queue] is the contract the callers rely on (a list of entries with a
    capacity); the theorems at the end show that the ring buffer refines it. *)

From S2P Require Import Prelude SbiString.

(** ** The implementation *)

Record sbi_fifo : Type := mk_fifo {
  queue : Z;
  entry_size : Z;
  num_entries : Z;
  avail : Z;
  tail : Z;
}.

Definition SBI_FIFO_SKIP : Z := 0.
Definition SBI_FIFO_UPDATED : Z := 1.
Definition SBI_FIFO_UNCHANGED : Z := 2.

Definition sbi_fifo_init (m : mem) (queue_mem entries entry_size : Z) : sbi_fifo * mem :=
  (mk_fifo queue_mem entry_size entries 0 0,
   (sbi_memset m queue_mem 0 (u64 (entries * entry_size))).1).

Definition fifo_is_full (f : sbi_fifo) : bool := avail f =? num_entries f.

Definition fifo_is_empty (f : sbi_fifo) : bool := avail f =? 0.

Definition sbi_fifo_avail (f : option sbi_fifo) : Z :=
  match f with None => 0 | Some f => avail f end.

Definition sbi_fifo_is_full (f : option sbi_fifo) : Z :=
  match f with None => SBI_EINVAL | Some f => Z.b2z (fifo_is_full f) end.

Definition sbi_fifo_is_empty (f : option sbi_fifo) : Z :=
  match f with None => SBI_EINVAL | Some f => Z.b2z (fifo_is_empty f) end.

(** The [switch (fifo->entry_size)] both copy loops use: a typed load and
    store for 1, 2, 4 and 8 bytes, [sbi_memcpy] otherwise. *)
Definition entry_copy (m : mem) (dst src size : Z) : mem :=
  if size =? 1 then store_le m dst 1 (load_le m src 1)
  else if size =? 2 then store_le m dst 2 (load_le m src 2)
  else if size =? 4 then store_le m dst 4 (load_le m src 4)
  else if size =? 8 then store_le m dst 8 (load_le m src 8)
  else (sbi_memcpy m dst src size).1.

Definition fifo_enqueue (f : sbi_fifo) (m : mem) (data : Z) : sbi_fifo * mem :=
  let head := u32 (tail f + avail f) in
  let head := if num_entries f <=? head then u32 (head - num_entries f) else head in
  let m := entry_copy m (queue f + u32 (head * entry_size f)) data (entry_size f) in
  (mk_fifo (queue f) (entry_size f) (num_entries f) (u16 (avail f + 1)) (tail f), m).

Definition fifo_dequeue (f : sbi_fifo) (m : mem) (data : Z) : sbi_fifo * mem :=
  let m :=
    if data =? 0 then m
    else entry_copy m data (queue f + u32 (tail f * entry_size f)) (entry_size f) in
  let t := u16 (tail f + 1) in
  let t := if num_entries f <=? t then 0 else t in
  (mk_fifo (queue f) (entry_size f) (num_entries f) (u16 (avail f - 1)) t, m).

Definition fifo_reset (f : sbi_fifo) (m : mem) : sbi_fifo * mem :=
  let size := u64 (num_entries f * entry_size f) in
  (mk_fifo (queue f) (entry_size f) (num_entries f) 0 0,
   (sbi_memset m (queue f) 0 size).1).

Definition sbi_fifo_reset (f : option sbi_fifo) (m : mem) : bool * option sbi_fifo * mem :=
  match f with
  | None => (false, None, m)
  | Some f => let '(f', m') := fifo_reset f m in (true, Some f', m')
  end.

(** The [for] loop of [sbi_fifo_inplace_update], from index [i] with [k]
    entries left; [fptr] is the caller's callback on the entry's address. *)
Fixpoint inplace_loop (f : sbi_fifo) (fptr : Z -> mem -> Z * mem)
    (m : mem) (i : Z) (k : nat) (ret : Z) : Z * mem :=
  match k with
  | O => (ret, m)
  | S k' =>
      let index := tail f + i in
      let index := if num_entries f <=? index then index - num_entries f else index in
      let entry := queue f + u32 (u32 index * entry_size f) in
      let '(ret', m') := fptr entry m in
      if (ret' =? SBI_FIFO_SKIP) || (ret' =? SBI_FIFO_UPDATED) then (ret', m')
      else inplace_loop f fptr m' (i + 1) k' ret'
  end.

Definition sbi_fifo_inplace_update (f : option sbi_fifo) (m : mem) (in_ : Z)
    (fptr : Z -> Z -> mem -> Z * mem) : Z * mem :=
  match f with
  | None => (SBI_FIFO_UNCHANGED, m)
  | Some f =>
      if in_ =? 0 then (SBI_FIFO_UNCHANGED, m)
      else if fifo_is_empty f then (SBI_FIFO_UNCHANGED, m)
      else inplace_loop f (fptr in_) m 0 (Z.to_nat (avail f)) SBI_FIFO_UNCHANGED
  end.

Definition sbi_fifo_enqueue (f : option sbi_fifo) (m : mem) (data : Z) (force : bool)
    : Z * option sbi_fifo * mem :=
  match f with
  | None => (SBI_EINVAL, None, m)
  | Some f =>
      if data =? 0 then (SBI_EINVAL, Some f, m)
      else if fifo_is_full f then
        if negb force then (SBI_ENOSPC, Some f, m)
        else
          let '(f, m) := fifo_dequeue f m 0 in
          let '(f, m) := fifo_enqueue f m data in (0, Some f, m)
      else let '(f, m) := fifo_enqueue f m data in (0, Some f, m)
  end.

Definition sbi_fifo_dequeue (f : option sbi_fifo) (m : mem) (data : Z)
    : Z * option sbi_fifo * mem :=
  match f with
  | None => (SBI_EINVAL, None, m)
  | Some f =>
      if data =? 0 then (SBI_EINVAL, Some f, m)
      else if fifo_is_empty f then (SBI_ENOENT, Some f, m)
      else let '(f, m) := fifo_dequeue f m data in (0, Some f, m)
  end.

(** ** The contract: a bounded queue of entries *)

Module Queue.

(** Oldest entry first. *)
Definition enqueue {E} (cap : nat) (q : list E) (x : E) (force : bool) : Z * list E :=
  if (length q <? cap)%nat then (0, q ++ [x])
  else if force then (0, list.tail q ++ [x])
  else (SBI_ENOSPC, q).

Definition dequeue {E} (q : list E) : Z * option E * list E :=
  match q with
  | [] => (SBI_ENOENT, None, [])
  | x :: q' => (0, Some x, q')
  end.

(** Offer the entries oldest first to [g], which returns a verdict and the new
    entry, until it answers [SKIP] or [UPDATED]. *)
Fixpoint update {E} (g : E -> Z * E) (q : list E) (ret : Z) : Z * list E :=
  match q with
  | [] => (ret, [])
  | x :: q' =>
      let '(ret', x') := g x in
      if (ret' =? SBI_FIFO_SKIP) || (ret' =? SBI_FIFO_UPDATED) then (ret', x' :: q')
      else let '(r, q'') := update g q' ret' in (r, x' :: q'')
  end.

End Queue.

(** ** The abstraction *)

(** Well-formed control block: a non-empty ring with its counters in range. *)
Record fifo_wf (f : sbi_fifo) : Prop := {
  wf_num : 0 < num_entries f < 2 ^ 16;
  wf_size : 0 <= entry_size f < 2 ^ 16;
  wf_avail : 0 <= avail f <= num_entries f;
  wf_tail : 0 <= tail f < num_entries f;
}.

(** The address of the [i]-th oldest entry. *)
Definition slot (f : sbi_fifo) (i : Z) : Z :=
  let j := tail f + i in if num_entries f <=? j then j - num_entries f else j.

Definition slot_addr (f : sbi_fifo) (i : Z) : Z := queue f + slot f i * entry_size f.

Definition entry_at (f : sbi_fifo) (m : mem) (i : Z) : list Z :=
  bytes m (slot_addr f i) (Z.to_nat (entry_size f)).

Definition fifo_abs (f : sbi_fifo) (m : mem) : list (list Z) :=
  (fun i => entry_at f m (Z.of_nat i)) <$> seq 0 (Z.to_nat (avail f)).

Definition queue_bytes (f : sbi_fifo) : Z := num_entries f * entry_size f.

(** [[a, a + n)] does not meet the queue's memory. *)
Definition outside (f : sbi_fifo) (a n : Z) : Prop :=
  a + n <= queue f \/ queue f + queue_bytes f <= a.

(** ** Lemmas *)

Lemma entry_copy_spec m d s n x :
  mem_ok m -> 0 <= n -> d + n <= s \/ s + n <= d ->
  entry_copy m d s n x = copied m d s n x.
Proof.
  intros Hm Hn Hd.
  assert (forall k, n = Z.of_nat k ->
    store_le m d k (load_le m s k) x = copied m d s n x) as Hk.
  { intros k ->. destruct (decide (d <= x < d + Z.of_nat k)).
    - by rewrite store_load_le, copied_in.
    - by rewrite store_le_other, copied_out by lia. }
  unfold entry_copy.
  destruct (Z.eqb_spec n 1); [by apply Hk|].
  destruct (Z.eqb_spec n 2); [by apply Hk|].
  destruct (Z.eqb_spec n 4); [by apply Hk|].
  destruct (Z.eqb_spec n 8); [by apply Hk|].
  apply memcpy_spec; [done|lia].
Qed.

Lemma copied_ok m d s n : mem_ok m -> mem_ok (copied m d s n).
Proof. intros H x. unfold copied. destruct (_ && _); apply H. Qed.

Lemma entry_copy_ok m d s n :
  mem_ok m -> 0 <= n -> d + n <= s \/ s + n <= d -> mem_ok (entry_copy m d s n).
Proof. intros ? ? ? x. rewrite entry_copy_spec by done. by apply copied_ok. Qed.

Lemma slot_range f i : fifo_wf f -> 0 <= i < num_entries f -> 0 <= slot f i < num_entries f.
Proof. intros [] Hi. unfold slot. zcases; lia. Qed.

Lemma slot_inj f i j :
  fifo_wf f -> 0 <= i < num_entries f -> 0 <= j < num_entries f ->
  slot f i = slot f j -> i = j.
Proof. intros [] Hi Hj. unfold slot. zcases; lia. Qed.

(** Distinct slots occupy disjoint ranges inside the queue's memory. *)
Lemma slot_addr_inside f i :
  fifo_wf f -> 0 <= i < num_entries f ->
  queue f <= slot_addr f i /\ slot_addr f i + entry_size f <= queue f + queue_bytes f.
Proof.
  intros Hwf Hi. pose proof (slot_range f i Hwf Hi). destruct Hwf.
  unfold slot_addr, queue_bytes. nia.
Qed.

Lemma slot_addr_disjoint f i j :
  fifo_wf f -> 0 <= i < num_entries f -> 0 <= j < num_entries f -> i <> j ->
  slot_addr f i + entry_size f <= slot_addr f j \/
  slot_addr f j + entry_size f <= slot_addr f i.
Proof.
  intros Hwf Hi Hj Hne.
  assert (slot f i <> slot f j) by (intros E; by apply slot_inj in E).
  destruct Hwf. unfold slot_addr. nia.
Qed.

(** The machine arithmetic of the implementation computes [slot_addr]. *)
Lemma slot_addr_u32 f i :
  fifo_wf f -> 0 <= i < num_entries f ->
  queue f + u32 (u32 (slot f i) * entry_size f) = slot_addr f i.
Proof.
  intros Hwf Hi. pose proof (slot_range f i Hwf Hi). destruct Hwf.
  rewrite (wrap_small 32 (slot f i)) by lia.
  rewrite wrap_small by nia. done.
Qed.

Lemma entry_at_ext f f' m m' i i' :
  entry_size f = entry_size f' ->
  slot_addr f i = slot_addr f' i' -> 0 <= entry_size f ->
  (forall x, slot_addr f i <= x < slot_addr f i + entry_size f -> m x = m' x) ->
  entry_at f m i = entry_at f' m' i'.
Proof.
  intros He Ha Hs Hx. unfold entry_at. rewrite <- He, <- Ha.
  apply bytes_ext. intros k Hk. apply Hx. lia.
Qed.

Lemma fifo_abs_length f m : length (fifo_abs f m) = Z.to_nat (avail f).
Proof. unfold fifo_abs. by rewrite length_fmap, length_seq. Qed.

Lemma fifo_abs_lookup f m i :
  (i < Z.to_nat (avail f))%nat -> fifo_abs f m !! i = Some (entry_at f m (Z.of_nat i)).
Proof. intros. unfold fifo_abs. by rewrite list_lookup_fmap, lookup_seq_lt. Qed.

Lemma fifo_abs_ext f m l :
  length l = Z.to_nat (avail f) ->
  (forall i x, l !! i = Some x -> entry_at f m (Z.of_nat i) = x) ->
  fifo_abs f m = l.
Proof.
  intros Hl Hx. apply list_eq_same_length with (length l); [done|by rewrite fifo_abs_length|].
  intros i x y Hi. rewrite fifo_abs_lookup by lia. intros [= <-] Hy. by apply Hx.
Qed.

(** Memory changes outside the queue do not change its contents. *)
Lemma fifo_abs_frame f m m' :
  fifo_wf f ->
  (forall x, queue f <= x < queue f + queue_bytes f -> m' x = m x) ->
  fifo_abs f m' = fifo_abs f m.
Proof.
  intros Hwf Hx. apply fifo_abs_ext; [apply fifo_abs_length|].
  intros i e Hi. pose proof (lookup_lt_Some _ _ _ Hi) as Hl.
  rewrite fifo_abs_length in Hl. rewrite fifo_abs_lookup in Hi by done.
  injection Hi as <-. pose proof Hwf as [].
  apply entry_at_ext; [done|done|lia|].
  pose proof (slot_addr_inside f (Z.of_nat i) Hwf ltac:(lia)).
  intros x Hr. apply Hx. lia.
Qed.

Lemma fifo_enqueue_spec f m data :
  fifo_wf f -> mem_ok m -> avail f < num_entries f -> outside f data (entry_size f) ->
  let '(f', m') := fifo_enqueue f m data in
  fifo_wf f' /\ mem_ok m' /\ queue f' = queue f /\ queue_bytes f' = queue_bytes f /\
  entry_size f' = entry_size f /\ num_entries f' = num_entries f /\
  fifo_abs f' m' = fifo_abs f m ++ [bytes m data (Z.to_nat (entry_size f))] /\
  (forall a, outside f a 1 -> m' a = m a).
Proof.
  intros Hwf Hm Hav Hout. pose proof Hwf as [Hn Hs Ha Ht].
  pose proof (slot_addr_inside f (avail f) Hwf ltac:(lia)) as Hin.
  unfold fifo_enqueue.
  replace (u32 ((if num_entries f <=? u32 (tail f + avail f)
                 then u32 (u32 (tail f + avail f) - num_entries f)
                 else u32 (tail f + avail f)) * entry_size f))
    with (slot_addr f (avail f) - queue f).
  2:{ rewrite <- slot_addr_u32 by (done || lia). unfold slot.
      rewrite (wrap_small 32 (tail f + avail f)) by lia.
      destruct (Z.leb_spec (num_entries f) (tail f + avail f));
        rewrite ?(wrap_small 32 (tail f + avail f)) by lia; lia. }
  rewrite Zplus_minus.
  set (d := slot_addr f (avail f)) in *.
  unfold outside in Hout. set (es := entry_size f) in *.
  assert (d + es <= data \/ data + es <= d) as Hdd by lia.
  assert (u16 (avail f + 1) = avail f + 1) as -> by (apply wrap_small; lia).
  split_and!; try done.
  - by constructor; simpl; try lia.
  - apply entry_copy_ok; [done|lia|lia].
  - apply fifo_abs_ext.
    { simpl. rewrite length_app, fifo_abs_length. simpl. lia. }
    intros i x. rewrite lookup_app_Some.
    intros [Hi|[Hge Hi]].
    + pose proof (lookup_lt_Some _ _ _ Hi) as Hl. rewrite fifo_abs_length in Hl.
      rewrite fifo_abs_lookup in Hi by done. injection Hi as <-.
      apply entry_at_ext; [done|done|simpl; lia|simpl].
      intros y Hy. rewrite entry_copy_spec by (done || lia). apply copied_out.
      pose proof (slot_addr_disjoint f (Z.of_nat i) (avail f) Hwf) as Hdis.
      change (slot_addr _ (Z.of_nat i)) with (slot_addr f (Z.of_nat i)) in Hy.
      fold d es in Hdis. lia.
    + rewrite fifo_abs_length in Hge, Hi.
      apply list_lookup_singleton_Some in Hi as [Hi <-].
      replace (Z.of_nat i) with (avail f) by lia.
      unfold entry_at. simpl. fold es.
      change (slot_addr _ (avail f)) with d.
      apply bytes_ext. intros k Hk.
      rewrite entry_copy_spec, copied_in by (done || lia). f_equal. lia.
  - intros a Ho. rewrite entry_copy_spec by (done || lia).
    apply copied_out. unfold outside in Ho. lia.
Qed.

Lemma fifo_dequeue_spec f m data :
  fifo_wf f -> mem_ok m -> 0 < avail f ->
  data = 0 \/ outside f data (entry_size f) ->
  let '(f', m') := fifo_dequeue f m data in
  fifo_wf f' /\ mem_ok m' /\ queue f' = queue f /\ queue_bytes f' = queue_bytes f /\
  entry_size f' = entry_size f /\ num_entries f' = num_entries f /\
  avail f' = avail f - 1 /\
  fifo_abs f m = entry_at f m 0 :: fifo_abs f' m' /\
  (data <> 0 -> bytes m' data (Z.to_nat (entry_size f)) = entry_at f m 0) /\
  (forall a, data = 0 \/ a < data \/ data + entry_size f <= a -> m' a = m a).
Proof.
  intros Hwf Hm Hav Hout. pose proof Hwf as [Hn Hs Ha Ht].
  pose proof (slot_addr_inside f 0 Hwf ltac:(lia)) as Hin.
  assert (queue f + u32 (tail f * entry_size f) = slot_addr f 0) as Hsrc.
  { rewrite <- slot_addr_u32 by (done || lia). unfold slot. rewrite Z.add_0_r.
    destruct (Z.leb_spec (num_entries f) (tail f)); [lia|].
    by rewrite (wrap_small 32 (tail f)) by lia. }
  unfold fifo_dequeue. rewrite Hsrc. set (es := entry_size f) in *.
  set (m' := if data =? 0 then m else _).
  set (f' := mk_fifo _ _ _ _ _).
  assert (avail f' = avail f - 1) as Hav' by (apply wrap_small; lia).
  assert (forall a, data = 0 \/ a < data \/ data + es <= a -> m' a = m a) as Hfr.
  { intros a Ho. unfold m'. destruct (Z.eqb_spec data 0); [done|].
    unfold outside in Hout. fold es in Hout.
    rewrite entry_copy_spec, copied_out by (done || lia). done. }
  assert (forall i, 0 <= i < num_entries f - 1 ->
    slot_addr f' i = slot_addr f (i + 1)) as Hslot.
  { intros i Hi. unfold slot_addr, slot. unfold f'. simpl.
    assert (u16 (tail f + 1) = tail f + 1) as -> by (apply wrap_small; lia).
    f_equal. f_equal. zcases; lia. }
  split_and!; try done.
  - constructor; rewrite ?Hav'; simpl; try lia.
    assert (u16 (tail f + 1) = tail f + 1) as -> by (apply wrap_small; lia).
    zcases; lia.
  - unfold m'. destruct (Z.eqb_spec data 0); [done|].
    unfold outside in Hout. fold es in Hout. apply entry_copy_ok; [done|lia|lia].
  - apply fifo_abs_ext.
    { cbn [length]. rewrite fifo_abs_length, Hav'. lia. }
    intros [|i] x; simpl; [by intros [= <-]|].
    intros Hi. pose proof (lookup_lt_Some _ _ _ Hi) as Hl. rewrite fifo_abs_length, Hav' in Hl.
    rewrite fifo_abs_lookup in Hi by lia. injection Hi as <-.
    pose proof (slot_addr_inside f (Z.of_nat i + 1) Hwf ltac:(lia)).
    apply entry_at_ext; [done|rewrite Hslot by lia; f_equal; lia|lia|].
    intros y Hy. symmetry. apply Hfr. unfold outside in Hout. fold es in Hout, Hy.
    replace (Z.of_nat (S i)) with (Z.of_nat i + 1) in Hy by lia. lia.
  - intros Hd. unfold entry_at. fold es. apply bytes_ext. intros k Hk. unfold m'.
    destruct (Z.eqb_spec data 0); [done|].
    unfold outside in Hout. fold es in Hout.
    rewrite entry_copy_spec, copied_in by (done || lia). f_equal. lia.
Qed.

(** What the callback of an in-place update may do: its verdict and the new
    contents are a function [g] of the entry, and it touches nothing else. *)
Definition callback_ok (f : sbi_fifo) (fptr : Z -> mem -> Z * mem)
    (g : list Z -> Z * list Z) : Prop :=
  forall e m, mem_ok m -> (exists i, 0 <= i < avail f /\ e = slot_addr f i) ->
  let '(r, bs) := g (bytes m e (Z.to_nat (entry_size f))) in
  let '(r', m') := fptr e m in
  r' = r /\ mem_ok m' /\ bytes m' e (Z.to_nat (entry_size f)) = bs /\
  forall x, x < e \/ e + entry_size f <= x -> m' x = m x.

Lemma fifo_abs_set f m m' i bs :
  fifo_wf f -> (i < Z.to_nat (avail f))%nat ->
  bytes m' (slot_addr f (Z.of_nat i)) (Z.to_nat (entry_size f)) = bs ->
  (forall x, x < slot_addr f (Z.of_nat i) \/
             slot_addr f (Z.of_nat i) + entry_size f <= x -> m' x = m x) ->
  fifo_abs f m' = <[i := bs]> (fifo_abs f m).
Proof.
  intros Hwf Hi Hbs Hx. pose proof Hwf as [Hn Hs Ha Ht].
  apply fifo_abs_ext; [by rewrite length_insert, fifo_abs_length|].
  intros j e Hj. apply list_lookup_insert_Some in Hj as [(-> & <- & _)|[Hne Hj]]; [done|].
  pose proof (lookup_lt_Some _ _ _ Hj) as Hl. rewrite fifo_abs_length in Hl.
  rewrite fifo_abs_lookup in Hj by done. injection Hj as <-.
  apply entry_at_ext; [done|done|lia|].
  pose proof (slot_addr_disjoint f (Z.of_nat i) (Z.of_nat j) Hwf) as Hd.
  intros x Hr. apply Hx. lia.
Qed.

Lemma inplace_loop_spec f fptr g m i k ret :
  fifo_wf f -> mem_ok m -> callback_ok f fptr g ->
  (i + k = Z.to_nat (avail f))%nat ->
  let '(r, m') := inplace_loop f fptr m (Z.of_nat i) k ret in
  let '(r', q') := Queue.update g (drop i (fifo_abs f m)) ret in
  r = r' /\ mem_ok m' /\ fifo_abs f m' = take i (fifo_abs f m) ++ q' /\
  forall x, outside f x 1 -> m' x = m x.
Proof.
  intros Hwf Hm Hcb. revert m i ret Hm.
  induction k as [|k IH]; intros m i ret Hm Hik; pose proof Hwf as [Hn Hs Ha Ht].
  { simpl. rewrite drop_ge by (rewrite fifo_abs_length; lia). simpl.
    rewrite app_nil_r, take_ge by (rewrite fifo_abs_length; lia). done. }
  cbn [inplace_loop].
  rewrite (drop_S (fifo_abs f m) (entry_at f m (Z.of_nat i)) i)
    by (apply fifo_abs_lookup; lia).
  change (if num_entries f <=? tail f + Z.of_nat i then _ else _)
    with (slot f (Z.of_nat i)).
  rewrite slot_addr_u32 by (done || lia).
  assert (exists j, 0 <= j < avail f /\ slot_addr f (Z.of_nat i) = slot_addr f j) as Hex
    by (exists (Z.of_nat i); split; [lia|done]).
  pose proof (Hcb (slot_addr f (Z.of_nat i)) m Hm Hex) as Hc'.
  cbn [Queue.update].
  change (bytes m (slot_addr f (Z.of_nat i)) (Z.to_nat (entry_size f)))
    with (entry_at f m (Z.of_nat i)) in Hc'.
  destruct (g (entry_at f m (Z.of_nat i))) as [r bs].
  destruct (fptr (slot_addr f (Z.of_nat i)) m) as [r' m1].
  destruct Hc' as (-> & Hm1 & Hbs & Hfr).
  pose proof (slot_addr_inside f (Z.of_nat i) Hwf ltac:(lia)) as Hin.
  pose proof (fifo_abs_set f m m1 i bs Hwf ltac:(lia) Hbs Hfr) as Habs.
  assert (forall x, outside f x 1 -> m1 x = m x) as Hfr1.
  { intros x Ho. apply Hfr. unfold outside in Ho. lia. }
  destruct (_ || _).
  { split_and!; try done. rewrite Habs, insert_take_drop by (rewrite fifo_abs_length; lia).
    done. }
  specialize (IH m1 (S i) r Hm1 ltac:(lia)).
  replace (Z.of_nat i + 1) with (Z.of_nat (S i)) by lia.
  rewrite Habs in IH. rewrite drop_insert_lt in IH by lia.
  destruct (inplace_loop _ _ _ _ _ _) as [r2 m2].
  destruct (Queue.update g _ r) as [r2' q2]. destruct IH as (-> & Hm2 & Ha2 & Hf2).
  split_and!; try done.
  - rewrite Ha2. rewrite (take_S_r _ i bs).
    + rewrite take_insert_ge by lia. by rewrite <- app_assoc.
    + apply list_lookup_insert_eq. rewrite fifo_abs_length. lia.
  - intros x Hx. by rewrite Hf2, Hfr1.
Qed.

Lemma fifo_reset_spec f m :
  0 < num_entries f < 2 ^ 16 -> 0 <= entry_size f < 2 ^ 16 -> mem_ok m ->
  let '(f', m') := fifo_reset f m in
  fifo_wf f' /\ mem_ok m' /\ fifo_abs f' m' = [] /\
  num_entries f' = num_entries f /\ entry_size f' = entry_size f /\
  (forall x, outside f x 1 -> m' x = m x) /\
  (forall x, queue f <= x < queue f + queue_bytes f -> m' x = 0).
Proof.
  intros Hn Hs Hm. unfold fifo_reset.
  rewrite wrap_small by nia.
  split_and!; try done.
  - by constructor; simpl; try lia.
  - by apply memset_ok.
  - intros x Ho. rewrite memset_spec. unfold outside, queue_bytes in Ho.
    zcases; simpl; lia || done.
  - intros x Hx. rewrite memset_spec. unfold queue_bytes in Hx.
    zcases; simpl; lia || done.
Qed.

(** ** Refinement of the queue, operation by operation *)

Lemma fifo_enqueue_abs f m data force :
  fifo_wf f -> mem_ok m -> data <> 0 -> outside f data (entry_size f) ->
  exists rc f' m',
    sbi_fifo_enqueue (Some f) m data force = (rc, Some f', m') /\
    (rc, fifo_abs f' m')
    = Queue.enqueue (Z.to_nat (num_entries f)) (fifo_abs f m)
        (bytes m data (Z.to_nat (entry_size f))) force /\
    fifo_wf f' /\ mem_ok m' /\ num_entries f' = num_entries f /\
    queue f' = queue f /\ entry_size f' = entry_size f /\
    (forall a, outside f a 1 -> m' a = m a).
Proof.
  intros Hwf Hm Hd Hout. unfold sbi_fifo_enqueue, Queue.enqueue.
  destruct (Z.eqb_spec data 0); [done|]. rewrite fifo_abs_length. unfold fifo_is_full.
  pose proof Hwf as [Hn Hs Ha Ht].
  destruct (Z.eqb_spec (avail f) (num_entries f)) as [Hfull|Hfull].
  - replace (_ <? _)%nat with false by (symmetry; apply Nat.ltb_ge; lia).
    destruct force; simpl negb; cbv iota; [|eexists _, _, _; split_and!; done].
    pose proof (fifo_dequeue_spec f m 0 Hwf Hm ltac:(lia) ltac:(by left)) as Hdq.
    destruct (fifo_dequeue f m 0) as [f1 m1].
    destruct Hdq as (Hwf1 & Hm1 & Hq1 & Hqb1 & He1 & Hn1 & Hav1 & Habs1 & _ & Hfr1).
    pose proof (fifo_enqueue_spec f1 m1 data Hwf1 Hm1 ltac:(lia)) as Heq.
    unfold outside in *. rewrite Hq1, Hqb1, He1 in Heq.
    destruct (fifo_enqueue f1 m1 data) as [f2 m2].
    destruct (Heq Hout) as (Hwf2 & Hm2 & Hq2 & Hqb2 & He2 & Hn2 & Habs2 & Hfr2).
    eexists _, _, _. split; [done|]. rewrite Habs2, Habs1. simpl.
    split_and!; try done; try congruence.
    + do 3 f_equal. apply bytes_ext. intros i Hi. apply Hfr1. by left.
    + intros a Hoa. rewrite Hfr2 by done. apply Hfr1. by left.
  - replace (_ <? _)%nat with true by (symmetry; apply Nat.ltb_lt; lia).
    pose proof (fifo_enqueue_spec f m data Hwf Hm ltac:(lia) Hout) as Heq.
    destruct (fifo_enqueue f m data) as [f2 m2].
    destruct Heq as (Hwf2 & Hm2 & Hq2 & Hqb2 & He2 & Hn2 & Habs2 & Hfr2).
    eexists _, _, _. split; [done|]. by rewrite Habs2.
Qed.

Lemma fifo_dequeue_abs f m data :
  fifo_wf f -> mem_ok m -> data <> 0 -> outside f data (entry_size f) ->
  exists rc f' m',
    sbi_fifo_dequeue (Some f) m data = (rc, Some f', m') /\
    (rc, if rc =? 0 then Some (bytes m' data (Z.to_nat (entry_size f))) else None,
     fifo_abs f' m') = Queue.dequeue (fifo_abs f m) /\
    fifo_wf f' /\ mem_ok m' /\ num_entries f' = num_entries f /\
    queue f' = queue f /\ entry_size f' = entry_size f /\
    (forall a, a < data \/ data + entry_size f <= a -> m' a = m a).
Proof.
  intros Hwf Hm Hd Hout. unfold sbi_fifo_dequeue.
  destruct (Z.eqb_spec data 0); [done|]. unfold fifo_is_empty.
  pose proof Hwf as [Hn Hs Ha Ht].
  destruct (Z.eqb_spec (avail f) 0) as [He|He].
  - eexists _, _, _. split; [done|]. split_and!; try done.
    assert (fifo_abs f m = []) as ->; [|done].
    apply length_zero_iff_nil. rewrite fifo_abs_length. lia.
  - pose proof (fifo_dequeue_spec f m data Hwf Hm ltac:(lia) ltac:(by right)) as Hdq.
    destruct (fifo_dequeue f m data) as [f1 m1].
    destruct Hdq as (Hwf1 & Hm1 & Hq1 & Hqb1 & He1 & Hn1 & Hav1 & -> & Hdat & Hfr1).
    eexists _, _, _. split; [done|]. simpl. rewrite Hdat by done.
    split_and!; try done. intros a Hoa. apply Hfr1. lia.
Qed.

Lemma fifo_update_abs f m in_ fptr g :
  fifo_wf f -> mem_ok m -> in_ <> 0 -> callback_ok f (fptr in_) g ->
  let '(r, m') := sbi_fifo_inplace_update (Some f) m in_ fptr in
  (r, fifo_abs f m') = Queue.update g (fifo_abs f m) SBI_FIFO_UNCHANGED /\
  mem_ok m' /\ (forall x, outside f x 1 -> m' x = m x).
Proof.
  intros Hwf Hm Hin Hcb. unfold sbi_fifo_inplace_update, fifo_is_empty.
  destruct (Z.eqb_spec in_ 0); [done|]. pose proof Hwf as [Hn Hs Ha Ht].
  destruct (Z.eqb_spec (avail f) 0) as [He|He].
  { assert (fifo_abs f m = []) as ->; [|done].
    apply length_zero_iff_nil. rewrite fifo_abs_length. lia. }
  pose proof (inplace_loop_spec f (fptr in_) g m 0 (Z.to_nat (avail f))
    SBI_FIFO_UNCHANGED Hwf Hm Hcb ltac:(lia)) as Hl.
  change (Z.of_nat 0) with 0 in Hl. rewrite drop_0, take_0 in Hl.
  destruct (inplace_loop _ _ _ _ _ _) as [r m'].
  destruct (Queue.update g _ _) as [r' q']. destruct Hl as (-> & Hm' & -> & Hfr). done.
Qed.

(** ** The interface the clients use

    [BoundedQueue] is the promise of a FIFO to its callers, stated with values:
    the memory and the caller's buffer are part of the implementation state. *)

Class BoundedQueue (F E : Type) := {
  bq_inv : F -> Prop;
  bq_cap : F -> nat;
  bq_abs : F -> list E;
  bq_valid : E -> Prop;
  bq_enqueue : F -> E -> bool -> Z * F;
  bq_dequeue : F -> Z * option E * F;
  bq_update : F -> (E -> Z * E) -> Z * F;
  bq_abs_valid s : bq_inv s -> Forall bq_valid (bq_abs s);
  bq_enqueue_ok s x force : bq_inv s -> bq_valid x ->
    let '(rc, s') := bq_enqueue s x force in
    bq_inv s' /\ bq_cap s' = bq_cap s /\
    (rc, bq_abs s') = Queue.enqueue (bq_cap s) (bq_abs s) x force;
  bq_dequeue_ok s : bq_inv s ->
    let '(rc, x, s') := bq_dequeue s in
    bq_inv s' /\ bq_cap s' = bq_cap s /\
    (rc, x, bq_abs s') = Queue.dequeue (bq_abs s);
  bq_update_ok s g : bq_inv s -> (forall x, bq_valid x -> bq_valid (g x).2) ->
    let '(r, s') := bq_update s g in
    bq_inv s' /\ bq_cap s' = bq_cap s /\
    (r, bq_abs s') = Queue.update g (bq_abs s) SBI_FIFO_UNCHANGED;
}.

(** How the values of an entry type lie in memory. *)
Class EntryCodec (E : Type) := {
  enc : E -> list Z;
  dec : list Z -> E;
  esize : nat;
  evalid : E -> Prop;
  enc_length x : length (enc x) = esize;
  enc_byte x : evalid x -> Forall (fun b => 0 <= b < 2 ^ 8) (enc x);
  dec_enc x : evalid x -> dec (enc x) = x;
  dec_valid bs : length bs = esize -> Forall (fun b => 0 <= b < 2 ^ 8) bs -> evalid (dec bs);
}.

Fixpoint store_bytes (m : mem) (a : Z) (bs : list Z) : mem :=
  match bs with
  | [] => m
  | b :: bs' => store_bytes (store8 m a b) (a + 1) bs'
  end.

Lemma store_bytes_other m a bs x :
  x < a \/ a + Z.of_nat (length bs) <= x -> store_bytes m a bs x = m x.
Proof.
  revert m a. induction bs as [|b bs IH]; intros m a Hx; cbn in *; [done|].
  rewrite IH by lia. apply store8_other. lia.
Qed.

Lemma store_bytes_in m a bs i b :
  Forall (fun b => 0 <= b < 2 ^ 8) bs -> bs !! i = Some b ->
  store_bytes m a bs (a + Z.of_nat i) = b.
Proof.
  revert m a i. induction bs as [|c bs IH]; intros m a i Hb Hi; [done|].
  apply Forall_cons in Hb as [Hc Hb]. destruct i as [|i]; cbn in Hi.
  - simplify_eq. cbn [store_bytes]. rewrite store_bytes_other by lia.
    replace (a + Z.of_nat 0) with a by lia. rewrite store8_same. by apply wrap_small.
  - cbn [store_bytes]. replace (a + Z.of_nat (S i)) with (a + 1 + Z.of_nat i) by lia. by apply IH.
Qed.

Lemma store_bytes_bytes m a bs :
  Forall (fun b => 0 <= b < 2 ^ 8) bs -> bytes (store_bytes m a bs) a (length bs) = bs.
Proof.
  intros Hb. apply (list_eq_same_length _ _ (length bs)); [done|by rewrite bytes_length|].
  intros i x y Hi Hx Hy. rewrite bytes_lookup in Hx by done.
  erewrite store_bytes_in in Hx by done. congruence.
Qed.

Lemma store_bytes_ok m a bs : mem_ok m -> mem_ok (store_bytes m a bs).
Proof.
  revert m a. induction bs as [|b bs IH]; intros m a Hm; cbn; [done|]. auto with sbi.
Qed.

(** The ring buffer with a caller's buffer, as a queue of values. *)
Record ring := mkRing { r_fifo : sbi_fifo; r_mem : mem; r_buf : Z }.

Section Ring.
Context {E : Type} `{EntryCodec E}.

Definition ring_inv (s : ring) : Prop :=
  fifo_wf (r_fifo s) /\ mem_ok (r_mem s) /\ r_buf s <> 0 /\
  entry_size (r_fifo s) = Z.of_nat esize /\ outside (r_fifo s) (r_buf s) (Z.of_nat esize) /\
  exists q, Forall evalid q /\ fifo_abs (r_fifo s) (r_mem s) = enc <$> q.

Definition ring_enqueue (s : ring) (x : E) (force : bool) : Z * ring :=
  let '(rc, f, m) := sbi_fifo_enqueue (Some (r_fifo s))
                       (store_bytes (r_mem s) (r_buf s) (enc x)) (r_buf s) force in
  (rc, mkRing (default (r_fifo s) f) m (r_buf s)).

Definition ring_dequeue (s : ring) : Z * option E * ring :=
  let '(rc, f, m) := sbi_fifo_dequeue (Some (r_fifo s)) (r_mem s) (r_buf s) in
  (rc, if rc =? 0 then Some (dec (bytes m (r_buf s) esize)) else None,
   mkRing (default (r_fifo s) f) m (r_buf s)).

(** The callback decodes the entry in place, applies [g] and writes it back. *)
Definition ring_callback (g : E -> Z * E) (in_ e : Z) (m : mem) : Z * mem :=
  let '(r, x) := g (dec (bytes m e esize)) in (r, store_bytes m e (enc x)).

Definition ring_update (s : ring) (g : E -> Z * E) : Z * ring :=
  let '(r, m) := sbi_fifo_inplace_update (Some (r_fifo s)) (r_mem s) (r_buf s) (ring_callback g) in
  (r, mkRing (r_fifo s) m (r_buf s)).

Definition ring_abs (s : ring) : list E := dec <$> fifo_abs (r_fifo s) (r_mem s).

Lemma dec_enc_list q : Forall evalid q -> dec <$> (enc <$> q) = q.
Proof.
  induction 1 as [|x q Hx Hq IH]; cbn; [done|]. rewrite dec_enc by done. f_equal. exact IH.
Qed.

Lemma ring_abs_spec s q :
  Forall evalid q -> fifo_abs (r_fifo s) (r_mem s) = enc <$> q -> ring_abs s = q.
Proof. intros Hq E'. unfold ring_abs. rewrite E'. by apply dec_enc_list. Qed.

Lemma buffer_outside f a n m m' :
  fifo_wf f -> outside f a n -> (forall x, x < a \/ a + n <= x -> m' x = m x) ->
  fifo_abs f m' = fifo_abs f m.
Proof.
  intros Hwf Ho Hm. unfold fifo_abs. apply list_fmap_ext. intros i x Hx.
  apply lookup_seq in Hx as [-> Hi]. unfold entry_at. apply bytes_ext. intros k Hk. apply Hm.
  destruct Hwf as [Hn Hs Ha Ht]. rewrite Z2Nat.id in Hk by lia.
  unfold outside, queue_bytes, slot_addr in *.
  assert (0 <= slot f (Z.of_nat (0 + i)) < num_entries f) by (unfold slot; zcases; lia).
  destruct Ho; [right|left]; nia.
Qed.

Lemma ring_enqueue_ok s x force :
  ring_inv s -> evalid x ->
  let '(rc, s') := ring_enqueue s x force in
  ring_inv s' /\ num_entries (r_fifo s') = num_entries (r_fifo s) /\
  (rc, ring_abs s') = Queue.enqueue (Z.to_nat (num_entries (r_fifo s))) (ring_abs s) x force.
Proof.
  intros (Hwf & Hm & Hb & He & Ho & q & Hq & Habs) Hx. unfold ring_enqueue.
  set (m1 := store_bytes (r_mem s) (r_buf s) (enc x)).
  assert (Hm1 : mem_ok m1) by (by apply store_bytes_ok).
  assert (Habs1 : fifo_abs (r_fifo s) m1 = enc <$> q).
  { rewrite <- Habs. apply (buffer_outside _ (r_buf s) (Z.of_nat esize)); try done.
    intros y Hy. apply store_bytes_other. by rewrite enc_length. }
  assert (Hbytes : bytes m1 (r_buf s) (Z.to_nat (entry_size (r_fifo s))) = enc x).
  { rewrite He, Nat2Z.id, <- (enc_length x). apply store_bytes_bytes. by apply enc_byte. }
  destruct (fifo_enqueue_abs (r_fifo s) m1 (r_buf s) force Hwf Hm1 Hb) as
    (rc & f' & m' & -> & Hr & Hwf' & Hm' & Hn' & Hq' & He' & Hfr); [by rewrite He|].
  rewrite Hbytes, Habs1 in Hr. cbn [default from_option id].
  assert (Hex : exists q', Forall evalid q' /\ fifo_abs f' m' = enc <$> q' /\
    (rc, q') = Queue.enqueue (Z.to_nat (num_entries (r_fifo s))) q x force).
  { unfold Queue.enqueue in *. rewrite length_fmap in Hr.
    destruct (length q <? _)%nat; [|destruct force]; injection Hr as -> ->.
    - exists (q ++ [x]). rewrite fmap_app. split_and!; try done.
      apply Forall_app. split; [done|by apply Forall_singleton].
    - exists (list.tail q ++ [x]). rewrite fmap_app. split_and!; try done.
      + apply Forall_app. split; [by apply Forall_tail|by apply Forall_singleton].
      + by destruct q.
    - exists q. done. }
  destruct Hex as (q' & Hvq & Ha' & Hqq).
  split; [|split; [done|]].
  - unfold ring_inv. cbn [r_fifo r_mem r_buf]. rewrite He'. split_and!; try done.
    + unfold outside, queue_bytes in *. by rewrite Hq', Hn', He'.
    + by exists q'.
  - rewrite (ring_abs_spec s q Hq Habs), (ring_abs_spec (mkRing f' m' (r_buf s)) q' Hvq Ha'). done.
Qed.

Lemma ring_inv_intro f m b q :
  fifo_wf f -> mem_ok m -> b <> 0 -> entry_size f = Z.of_nat esize ->
  outside f b (Z.of_nat esize) -> Forall evalid q -> fifo_abs f m = enc <$> q ->
  ring_inv (mkRing f m b).
Proof. intros. split_and!; try done. by exists q. Qed.

Lemma ring_dequeue_ok s :
  ring_inv s ->
  let '(rc, x, s') := ring_dequeue s in
  ring_inv s' /\ num_entries (r_fifo s') = num_entries (r_fifo s) /\
  (rc, x, ring_abs s') = Queue.dequeue (ring_abs s).
Proof.
  intros (Hwf & Hm & Hb & He & Ho & q & Hq & Habs). unfold ring_dequeue.
  destruct (fifo_dequeue_abs (r_fifo s) (r_mem s) (r_buf s) Hwf Hm Hb) as
    (rc & f' & m' & -> & Hr & Hwf' & Hm' & Hn' & Hq' & He' & Hfr); [by rewrite He|].
  rewrite Habs, He, Nat2Z.id in Hr. cbn [default from_option id].
  assert (Ho' : outside f' (r_buf s) (Z.of_nat esize))
    by (unfold outside, queue_bytes in *; by rewrite Hq', Hn', He').
  rewrite (ring_abs_spec s q Hq Habs).
  destruct q as [|x q]; cbn in Hr; injection Hr as -> Hx Ha'; cbn [Queue.dequeue].
  - rewrite (ring_abs_spec (mkRing f' m' (r_buf s)) [] Hq Ha').
    split_and!; try done. apply (ring_inv_intro _ _ _ []); try done. congruence.
  - apply Forall_cons in Hq as [Hvx Hq]. injection Hx as ->.
    rewrite (ring_abs_spec (mkRing f' m' (r_buf s)) q Hq Ha'), dec_enc by done.
    split_and!; try done. apply (ring_inv_intro _ _ _ q); try done. congruence.
Qed.

(** The update on the encoded entries is the encoding of the update. *)
Definition enc_update (g : E -> Z * E) (bs : list Z) : Z * list Z :=
  let '(r, x) := g (dec bs) in (r, enc x).

Lemma enc_update_spec g q ret :
  Forall evalid q ->
  Queue.update (enc_update g) (enc <$> q) ret
  = ((Queue.update g q ret).1, enc <$> (Queue.update g q ret).2).
Proof.
  intros Hq. revert ret. induction Hq as [|x q Hx Hq IH]; intros ret; [done|].
  cbn [fmap list_fmap Queue.update]. unfold enc_update at 1. rewrite dec_enc by done.
  destruct (g x) as [r x']. destruct (_ || _); [done|].
  change (list_fmap _ _ enc q) with (enc <$> q). rewrite IH.
  by destruct (Queue.update g q r).
Qed.

Lemma update_valid g q ret :
  Forall evalid q -> (forall x, evalid x -> evalid (g x).2) ->
  Forall evalid (Queue.update g q ret).2.
Proof.
  intros Hq Hg. revert ret. induction Hq as [|x q Hx Hq IH]; intros ret; [done|].
  cbn [Queue.update]. specialize (Hg x Hx). destruct (g x) as [r x'].
  destruct (_ || _); [by constructor|]. specialize (IH r).
  destruct (Queue.update g q r). by constructor.
Qed.

Lemma ring_callback_ok s g in_ :
  ring_inv s -> (forall x, evalid x -> evalid (g x).2) ->
  callback_ok (r_fifo s) (ring_callback g in_) (enc_update g).
Proof.
  intros (_ & _ & _ & He & _) Hg e m Hm _. rewrite He, Nat2Z.id.
  unfold enc_update, ring_callback.
  assert (Hv : evalid (g (dec (bytes m e esize))).2).
  { apply Hg, dec_valid; [by rewrite bytes_length|]. apply Forall_forall.
    intros b Hb. apply list_elem_of_fmap in Hb as (i & -> & _). apply Hm. }
  destruct (g _) as [r x]. split_and!; try done.
  - by apply store_bytes_ok.
  - rewrite <- (enc_length x) at 1. by apply store_bytes_bytes, enc_byte.
  - intros y Hy. apply store_bytes_other. by rewrite enc_length.
Qed.

Lemma ring_update_ok s g :
  ring_inv s -> (forall x, evalid x -> evalid (g x).2) ->
  let '(r, s') := ring_update s g in
  ring_inv s' /\ num_entries (r_fifo s') = num_entries (r_fifo s) /\
  (r, ring_abs s') = Queue.update g (ring_abs s) SBI_FIFO_UNCHANGED.
Proof.
  intros Hs Hg. pose proof Hs as (Hwf & Hm & Hb & He & Ho & q & Hq & Habs).
  pose proof (fifo_update_abs (r_fifo s) (r_mem s) (r_buf s) (ring_callback g) (enc_update g)
    Hwf Hm Hb (ring_callback_ok s g _ Hs Hg)) as Hu.
  unfold ring_update. destruct (sbi_fifo_inplace_update _ _ _ _) as [r m'].
  destruct Hu as (Hr & Hm' & Hfr).
  rewrite Habs, enc_update_spec in Hr by done. injection Hr as -> Ha'.
  pose proof (update_valid g q SBI_FIFO_UNCHANGED Hq Hg) as Hv.
  rewrite (ring_abs_spec s q Hq Habs), (ring_abs_spec (mkRing (r_fifo s) m' (r_buf s)) _ Hv Ha').
  split_and!; try done; [|by destruct (Queue.update g q _)].
  by apply (ring_inv_intro _ _ _ (Queue.update g q SBI_FIFO_UNCHANGED).2).
Qed.

(** The ring buffer discharges the interface for every entry type that has a
    memory layout. *)
#[export] Instance ring_queue : BoundedQueue ring E.
Proof.
  refine {| bq_inv := ring_inv; bq_cap := fun s => Z.to_nat (num_entries (r_fifo s));
            bq_abs := ring_abs; bq_valid := evalid; bq_enqueue := ring_enqueue;
            bq_dequeue := ring_dequeue; bq_update := ring_update |}.
  - intros s (_ & _ & _ & _ & _ & q & Hq & Ha). by rewrite (ring_abs_spec s q Hq Ha).
  - intros s x force Hs Hx. pose proof (ring_enqueue_ok s x force Hs Hx) as H'.
    destruct (ring_enqueue s x force) as [rc s']. destruct H' as (? & -> & ?). done.
  - intros s Hs. pose proof (ring_dequeue_ok s Hs) as H'.
    destruct (ring_dequeue s) as [[rc x] s']. destruct H' as (? & -> & ?). done.
  - intros s g Hs Hg. pose proof (ring_update_ok s g Hs Hg) as H'.
    destruct (ring_update s g) as [r s']. destruct H' as (? & -> & ?). done.
Defined.

End Ring.

(** ** Properties *)

(** Enqueueing into the ring buffer refines enqueueing into a bounded
    queue, on every branch: with space left the entry is appended and 0 is
    returned; on a full ring the call fails with [SBI_ENOSPC] and changes
    nothing, or, when forced, drops the oldest entry and appends.  The
    invariant of the control block is preserved and no byte outside the
    queue's memory changes. *)
Lemma fifo_enqueue_refines f m data force :
  fifo_wf f -> mem_ok m -> data <> 0 -> outside f data (entry_size f) ->
  exists rc f' m',
    sbi_fifo_enqueue (Some f) m data force = (rc, Some f', m') /\
    (rc, fifo_abs f' m')
    = Queue.enqueue (Z.to_nat (num_entries f)) (fifo_abs f m)
        (bytes m data (Z.to_nat (entry_size f))) force /\
    fifo_wf f' /\ mem_ok m' /\ num_entries f' = num_entries f /\
    queue f' = queue f /\ entry_size f' = entry_size f /\
    (forall a, outside f a 1 -> m' a = m a).
Proof. apply fifo_enqueue_abs. Qed.

Definition demo_fifo : sbi_fifo := mk_fifo 1000 4 2 2 1.
Definition demo_mem : mem := mem_of 1000 [1; 1; 1; 1; 2; 2; 2; 2; 7; 8; 9; 10].

Lemma demo_mem_ok : mem_ok demo_mem.
Proof. apply mem_of_small_ok. reflexivity. Qed.

Lemma demo_fifo_wf : fifo_wf demo_fifo.
Proof. by constructor; simpl; lia. Qed.

Lemma fifo_enqueue_refines_witness :
  exists rc f' m',
    sbi_fifo_enqueue (Some demo_fifo) demo_mem 1008 true = (rc, Some f', m') /\
    (rc, fifo_abs f' m') = (0, [[1; 1; 1; 1]; [7; 8; 9; 10]]).
Proof.
  destruct (fifo_enqueue_refines demo_fifo demo_mem 1008 true)
    as (rc & f' & m' & Heq & Habs & _).
  - exact demo_fifo_wf.
  - exact demo_mem_ok.
  - lia.
  - right. vm_compute. discriminate.
  - exists rc, f', m'. split; [exact Heq|]. rewrite Habs. reflexivity.
Defined.

(** Dequeueing from the ring buffer refines dequeueing from the queue: an
    empty ring gives [SBI_ENOENT] and changes nothing; otherwise the oldest
    entry is copied to the caller's buffer, the rest of the queue is kept in
    order, the invariant is preserved and no byte outside the buffer changes. *)
Lemma fifo_dequeue_refines f m data :
  fifo_wf f -> mem_ok m -> data <> 0 -> outside f data (entry_size f) ->
  exists rc f' m',
    sbi_fifo_dequeue (Some f) m data = (rc, Some f', m') /\
    (rc, if rc =? 0 then Some (bytes m' data (Z.to_nat (entry_size f))) else None,
     fifo_abs f' m') = Queue.dequeue (fifo_abs f m) /\
    fifo_wf f' /\ mem_ok m' /\ num_entries f' = num_entries f /\
    queue f' = queue f /\ entry_size f' = entry_size f /\
    (forall a, a < data \/ data + entry_size f <= a -> m' a = m a).
Proof. apply fifo_dequeue_abs. Qed.

Lemma fifo_dequeue_refines_witness :
  exists rc f' m',
    sbi_fifo_dequeue (Some demo_fifo) demo_mem 1008 = (rc, Some f', m') /\
    (rc, if rc =? 0 then Some (bytes m' 1008 4) else None, fifo_abs f' m')
    = (0, Some [2; 2; 2; 2], [[1; 1; 1; 1]]).
Proof.
  destruct (fifo_dequeue_refines demo_fifo demo_mem 1008)
    as (rc & f' & m' & Heq & Habs & _).
  - exact demo_fifo_wf.
  - exact demo_mem_ok.
  - lia.
  - right. vm_compute. discriminate.
  - exists rc, f', m'. split; [exact Heq|]. etransitivity; [exact Habs|]. reflexivity.
Defined.

(** An in-place update walks the pending entries oldest first, offers each
    to the callback and stops at the first [SKIP] or [UPDATED], exactly as the
    queue-level update does; the number and order of the entries and the
    memory outside the queue are unchanged. *)
Lemma fifo_inplace_update_refines f m in_ fptr g :
  fifo_wf f -> mem_ok m -> in_ <> 0 -> callback_ok f (fptr in_) g ->
  let '(r, m') := sbi_fifo_inplace_update (Some f) m in_ fptr in
  (r, fifo_abs f m') = Queue.update g (fifo_abs f m) SBI_FIFO_UNCHANGED /\
  mem_ok m' /\ (forall x, outside f x 1 -> m' x = m x).
Proof. apply fifo_update_abs. Qed.

(** A callback that marks the first entry whose first byte is 1. *)
Definition demo_callback (in_ e : Z) (m : mem) : Z * mem :=
  if m e =? 1 then (SBI_FIFO_UPDATED, store8 m e 5) else (SBI_FIFO_UNCHANGED, m).

Definition demo_edit (bs : list Z) : Z * list Z :=
  match bs with
  | 1 :: bs' => (SBI_FIFO_UPDATED, 5 :: bs')
  | _ => (SBI_FIFO_UNCHANGED, bs)
  end.

Lemma demo_callback_ok : callback_ok demo_fifo (demo_callback 1) demo_edit.
Proof.
  assert (forall m e, bytes m e 4 = [m e; m (e + 1); m (e + 2); m (e + 3)]) as Hb
    by (intros; unfold bytes; simpl; by rewrite Z.add_0_r).
  intros e m Hm _. unfold demo_callback, demo_edit.
  change (Z.to_nat (entry_size demo_fifo)) with 4%nat.
  change (entry_size demo_fifo) with 4. rewrite Hb. destruct (Z.eqb_spec (m e) 1) as [->|Hne].
  - split_and!; try done.
    + by apply store8_ok.
    + rewrite Hb, store8_same, !store8_other by lia. done.
    + intros x Hx. apply store8_other. lia.
  - destruct (m e) as [|[p|p|]|p] eqn:E; rewrite ?Hb, ?E; done.
Qed.

Lemma fifo_inplace_update_refines_witness :
  let '(r, m') := sbi_fifo_inplace_update (Some demo_fifo) demo_mem 1 demo_callback in
  (r, fifo_abs demo_fifo m') = (SBI_FIFO_UPDATED, [[2; 2; 2; 2]; [5; 1; 1; 1]]).
Proof.
  pose proof (fifo_inplace_update_refines demo_fifo demo_mem 1 demo_callback demo_edit
    demo_fifo_wf demo_mem_ok ltac:(lia) demo_callback_ok) as H.
  destruct (sbi_fifo_inplace_update (Some demo_fifo) demo_mem 1 demo_callback) as [r m'].
  destruct H as [H _]. rewrite H. reflexivity.
Defined.
