(* ===== verification/SbiList.v ===== *)
(** * [include/sbi/sbi_list.h]: intrusive circular doubly linked lists

    A store maps the address of every [struct sbi_dlist] to its two pointers;
    each operation is the sequence of pointer writes of the source.  The
    predicate [dlist st h l] says that the circular list headed by [h] holds
    the nodes [l] in order; the theorem at the end shows that the pointer
    operations refine insertion and deletion on Rocq lists, which is how the
    heap allocator's model uses them. *)

From S2P Require Import Prelude.

(** ** Definitions *)

Record sbi_dlist : Type := mk_dlist { next : Z; prev : Z }.

Definition dstore : Type := Z -> sbi_dlist.

Definition set_next (st : dstore) (a v : Z) : dstore :=
  fun x => if x =? a then mk_dlist v (prev (st a)) else st x.

Definition set_prev (st : dstore) (a v : Z) : dstore :=
  fun x => if x =? a then mk_dlist (next (st a)) v else st x.

Definition SBI_LIST_POISON_PREV : Z := 3735928559.
Definition SBI_LIST_POISON_NEXT : Z := 4208900798.

Definition SBI_INIT_LIST_HEAD (st : dstore) (ptr : Z) : dstore :=
  set_prev (set_next st ptr ptr) ptr ptr.

(** [__sbi_list_add(new, prev, next)]. *)
Definition list_add_between (st : dstore) (new p n : Z) : dstore :=
  let st := set_prev st new p in
  let st := set_next st new n in
  let st := set_next st p new in
  set_prev st n new.

Definition sbi_list_empty (st : dstore) (head : Z) : bool := next (st head) =? head.

Definition sbi_list_add (st : dstore) (new head : Z) : dstore :=
  list_add_between st new head (next (st head)).

Definition sbi_list_add_tail (st : dstore) (new tnode : Z) : dstore :=
  list_add_between st new (prev (st tnode)) tnode.

(** [__sbi_list_del(prev, next)]. *)
Definition list_unlink (st : dstore) (p n : Z) : dstore :=
  set_prev (set_next st p n) n p.

Definition sbi_list_del (st : dstore) (entry : Z) : dstore :=
  let st := list_unlink st (prev (st entry)) (next (st entry)) in
  set_prev (set_next st entry SBI_LIST_POISON_NEXT) entry SBI_LIST_POISON_PREV.

Definition sbi_list_del_init (st : dstore) (entry : Z) : dstore :=
  SBI_INIT_LIST_HEAD (list_unlink st (prev (st entry)) (next (st entry))) entry.

(** The nodes [sbi_list_for_each] visits, in order; [None] when the walk has
    not come back to the head within the fuel. *)
Fixpoint for_each (fuel : nat) (st : dstore) (head pos : Z) : option (list Z) :=
  if pos =? head then Some []
  else match fuel with
       | O => None
       | S fuel' => cons pos <$> for_each fuel' st head (next (st pos))
       end.

Definition sbi_list_for_each (fuel : nat) (st : dstore) (head : Z) : option (list Z) :=
  for_each fuel st head (next (st head)).

(** ** The representation predicate *)

(** [a] is followed by the nodes [l], then by [b], with matching back links. *)
Fixpoint chain (st : dstore) (a : Z) (l : list Z) (b : Z) : Prop :=
  match l with
  | [] => next (st a) = b /\ prev (st b) = a
  | x :: l' => next (st a) = x /\ prev (st x) = a /\ chain st x l' b
  end.

Definition dlist (st : dstore) (h : Z) (l : list Z) : Prop :=
  NoDup (h :: l) /\ chain st h l h.

(** ** Lemmas *)

Lemma next_set_next st a v x :
  next (set_next st a v x) = if x =? a then v else next (st x).
Proof. unfold set_next. by destruct (Z.eqb_spec x a). Qed.

Lemma prev_set_next st a v x : prev (set_next st a v x) = prev (st x).
Proof. unfold set_next. by destruct (Z.eqb_spec x a) as [->|]. Qed.

Lemma prev_set_prev st a v x :
  prev (set_prev st a v x) = if x =? a then v else prev (st x).
Proof. unfold set_prev. by destruct (Z.eqb_spec x a). Qed.

Lemma next_set_prev st a v x : next (set_prev st a v x) = next (st x).
Proof. unfold set_prev. by destruct (Z.eqb_spec x a) as [->|]. Qed.

Create Rewrite HintDb dlist.
#[export] Hint Rewrite next_set_next prev_set_next prev_set_prev next_set_prev : dlist.

(** Evaluate the pointers of an updated store. *)
Ltac dcases :=
  autorewrite with dlist; zcases; subst; try (done || congruence).

Lemma chain_app st a l1 x l2 b :
  chain st a (l1 ++ x :: l2) b <-> chain st a l1 x /\ chain st x l2 b.
Proof.
  revert a. induction l1 as [|y l1 IH]; intros a; simpl; [|rewrite IH]; tauto.
Qed.

(** A chain depends on the forward links of [a :: l] and the back links of
    [l ++ [b]] only. *)
Lemma chain_ext st st' a l b :
  (forall x, x ∈ a :: l -> next (st' x) = next (st x)) ->
  (forall x, x ∈ l ++ [b] -> prev (st' x) = prev (st x)) ->
  chain st a l b -> chain st' a l b.
Proof.
  revert a. induction l as [|y l IH]; intros a Hn Hp; simpl.
  - intros [H1 H2]. rewrite Hn, Hp by set_solver. done.
  - intros (H1 & H2 & H3). rewrite Hn, Hp by set_solver. split_and!; [done|done|].
    apply IH; [| |done]; intros x Hx; [apply Hn|apply Hp]; set_solver.
Qed.

Lemma dlist_next_in st h l x : dlist st h l -> x ∈ h :: l -> next (st x) ∈ h :: l.
Proof.
  intros [_ Hc]. assert (forall a b, chain st a l b -> x ∈ a :: l ->
    next (st x) ∈ b :: l) as H; [|by intros; eapply H].
  clear Hc. induction l as [|y l IH]; intros a b; simpl.
  - intros [? _] ?%list_elem_of_singleton. subst. set_solver.
  - intros (? & _ & Hc) [->|Hx]%elem_of_cons; [set_solver|].
    apply (IH y b) in Hc; set_solver.
Qed.

(** Insertion of [new] between the adjacent nodes that end [h :: l1] and start
    [l2 ++ [h]]. *)
Lemma list_add_between_spec st h l1 l2 new p n :
  dlist st h (l1 ++ l2) -> new ∉ h :: l1 ++ l2 ->
  p = default h (last l1) -> n = default h (head l2) ->
  dlist (list_add_between st new p n) h (l1 ++ new :: l2).
Proof.
  intros [Hnd Hc] Hnew Hp Hn. split.
  { assert (h :: l1 ++ new :: l2 ≡ₚ new :: h :: l1 ++ l2) as -> by solve_Permutation.
    by apply NoDup_cons. }
  apply NoDup_cons in Hnd as [Hh Hnd]. apply NoDup_app in Hnd as (Hnd1 & Hdis & Hnd2).
  assert (new <> h /\ new ∉ l1 /\ new ∉ l2 /\ h ∉ l1 /\ h ∉ l2) as (? & ? & ? & ? & ?)
    by set_solver.
  assert (p ∈ h :: l1) as Hpin.
  { subst p. destruct l1 as [|y l1 _] using rev_ind; [set_solver|].
    rewrite last_snoc. set_solver. }
  assert (n ∈ l2 ++ [h]) as Hnin by (subst n; destruct l2; set_solver).
  assert (p <> new /\ n <> new) as [? ?] by (split; set_solver).
  set (st' := list_add_between st new p n).
  assert (forall x, next (st' x) = if x =? new then n else if x =? p then new else next (st x)) as Hnx.
  { intros x. unfold st', list_add_between. dcases. }
  assert (forall x, prev (st' x) = if x =? new then p else if x =? n then new else prev (st x)) as Hpx.
  { intros x. unfold st', list_add_between. dcases. }
  apply chain_app. split.
  - destruct l1 as [|y l1 _] using rev_ind; simpl in Hp.
    + subst p. simpl. rewrite Hnx, Hpx. by zcases.
    + rewrite last_snoc in Hp. simpl in Hp. subst p.
      rewrite <- app_assoc in Hc. apply chain_app in Hc as [Hc _].
      apply NoDup_app in Hnd1 as (_ & Hy & _).
      apply chain_app. split; [|simpl; rewrite Hnx, Hpx; by zcases].
      eapply chain_ext, Hc; intros x Hx.
      * rewrite Hnx. zcases; subst; [set_solver|set_solver|done].
      * rewrite Hpx. zcases; subst; [set_solver| |done].
        subst. destruct l2; set_solver.
  - destruct l2 as [|y l2]; simpl in Hn; subst n; simpl.
    + rewrite Hnx, Hpx. by zcases.
    + apply chain_app in Hc as [_ Hc]. rewrite Hnx, Hpx.
      zcases; try done. split_and!; [done..|].
      apply NoDup_cons in Hnd2 as [Hy Hnd2].
      eapply chain_ext, Hc; intros x Hx.
      * rewrite Hnx. zcases; subst; [set_solver| |done].
        destruct l1 as [|z l1 _] using rev_ind; [simpl in *; set_solver|].
        rewrite last_snoc in *. simpl in *. set_solver.
      * rewrite Hpx. zcases; subst; [set_solver|set_solver|done].
Qed.

Lemma dlist_first st h l : dlist st h l -> next (st h) = default h (head l).
Proof. intros [_ Hc]. by destruct l; destruct Hc. Qed.

Lemma chain_last st a l b : chain st a l b -> prev (st b) = default a (last l).
Proof.
  destruct l as [|y l _] using rev_ind; simpl; [by intros []|].
  intros [_ [_ Hp]]%chain_app. by rewrite last_snoc.
Qed.

Lemma dlist_last st h l : dlist st h l -> prev (st h) = default h (last l).
Proof. intros [_ Hc]. by apply chain_last in Hc. Qed.

Lemma dlist_empty st h l : dlist st h l -> sbi_list_empty st h = bool_decide (l = []).
Proof.
  intros H. unfold sbi_list_empty. rewrite (dlist_first _ _ _ H).
  destruct H as [Hnd _]. destruct l as [|y l]; simpl; [apply Z.eqb_refl|].
  apply Z.eqb_neq. intros ->. apply NoDup_cons in Hnd as [Hh _]. set_solver.
Qed.

Lemma list_add_spec st h l1 l2 new pos :
  dlist st h (l1 ++ l2) -> new ∉ h :: l1 ++ l2 -> pos = default h (last l1) ->
  dlist (sbi_list_add st new pos) h (l1 ++ new :: l2).
Proof.
  intros Hd Hnew Hpos. unfold sbi_list_add.
  apply list_add_between_spec; [done..|]. destruct Hd as [_ Hc].
  destruct l1 as [|y l1 _] using rev_ind; simpl in Hpos.
  - subst. by destruct l2; destruct Hc.
  - rewrite last_snoc in Hpos. simpl in Hpos. subst.
    rewrite <- app_assoc in Hc. apply chain_app in Hc as [_ Hc].
    by destruct l2; destruct Hc.
Qed.

Lemma list_add_tail_spec st h l new :
  dlist st h l -> new ∉ h :: l -> dlist (sbi_list_add_tail st new h) h (l ++ [new]).
Proof.
  intros Hd Hnew. unfold sbi_list_add_tail. apply list_add_between_spec.
  - by rewrite app_nil_r.
  - by rewrite app_nil_r.
  - by apply dlist_last.
  - done.
Qed.

Lemma list_del_spec st h l1 e l2 :
  dlist st h (l1 ++ e :: l2) -> dlist (sbi_list_del st e) h (l1 ++ l2).
Proof.
  intros [Hnd Hc].
  assert (NoDup (e :: h :: l1 ++ l2)) as Hnd'.
  { by assert (h :: l1 ++ e :: l2 ≡ₚ e :: h :: l1 ++ l2) as <- by solve_Permutation. }
  apply NoDup_cons in Hnd' as [He Hnd']. split; [done|].
  apply chain_app in Hc as [Hc1 Hc2].
  pose proof (chain_last _ _ _ _ Hc1) as Hp.
  assert (next (st e) = default h (head l2)) as Hn by (by destruct l2; destruct Hc2).
  assert (forall x, x <> e -> next (sbi_list_del st e x)
    = if x =? prev (st e) then next (st e) else next (st x)) as Hnx.
  { intros x Hx. unfold sbi_list_del, list_unlink. dcases. }
  assert (forall x, x <> e -> prev (sbi_list_del st e x)
    = if x =? next (st e) then prev (st e) else prev (st x)) as Hpx.
  { intros x Hx. unfold sbi_list_del, list_unlink. dcases. }
  apply NoDup_cons in Hnd' as [Hh Hnd'].
  apply NoDup_app in Hnd' as (Hnd1 & Hdis & Hnd2).
  destruct l1 as [|y l1 _] using rev_ind; simpl in Hp.
  - destruct l2 as [|z l2]; simpl in *.
    + rewrite Hnx, Hpx by set_solver. rewrite Hp, Hn. by rewrite Z.eqb_refl.
    + rewrite Hnx, Hpx by set_solver. rewrite Hp, Hn, !Z.eqb_refl.
      split_and!; [done..|]. destruct Hc2 as (_ & _ & Hc2).
      apply NoDup_cons in Hnd2 as [Hz _].
      eapply chain_ext, Hc2; intros x Hx.
      * rewrite Hnx, Hp by set_solver. zcases; [set_solver|done].
      * rewrite Hpx, Hn by set_solver. zcases; [set_solver|done].
  - rewrite last_snoc in Hp. simpl in Hp.
    apply chain_app in Hc1 as [Hc1 _]. rewrite <- app_assoc. apply chain_app.
    apply NoDup_app in Hnd1 as (Hnd1 & Hy & _). split.
    + eapply chain_ext, Hc1; intros x Hx.
      * rewrite Hnx, Hp by set_solver. zcases; [set_solver|done].
      * rewrite Hpx, Hn by set_solver. zcases; [|done].
        destruct l2; simpl in *; set_solver.
    + destruct l2 as [|z l2]; simpl in *.
      * rewrite Hnx, Hpx by set_solver. rewrite Hp, Hn. by rewrite !Z.eqb_refl.
      * rewrite Hnx, Hpx by set_solver. rewrite Hp, Hn, !Z.eqb_refl.
        split_and!; [done..|]. destruct Hc2 as (_ & _ & Hc2).
        apply NoDup_cons in Hnd2 as [Hz _].
        eapply chain_ext, Hc2; intros x Hx.
        -- rewrite Hnx, Hp by set_solver. zcases; [set_solver|done].
        -- rewrite Hpx, Hn by set_solver. zcases; [set_solver|done].
Qed.

(** A list none of whose nodes is written stays as it is. *)
Lemma dlist_frame st st' h l :
  (forall x, x ∈ h :: l -> st' x = st x) -> dlist st h l -> dlist st' h l.
Proof.
  intros Hx [Hnd Hc]. split; [done|].
  eapply chain_ext, Hc; intros x Hin; rewrite Hx; set_solver.
Qed.

Lemma dlist_prev_in st h l x : dlist st h l -> x ∈ h :: l -> prev (st x) ∈ h :: l.
Proof.
  intros Hd [->|(l1 & l2 & ->)%list_elem_of_split]%elem_of_cons.
  - rewrite (dlist_last _ _ _ Hd). destruct l as [|y l _] using rev_ind; [set_solver|].
    rewrite last_snoc. set_solver.
  - destruct Hd as [_ Hc]. apply chain_app in Hc as [Hc _].
    rewrite (chain_last _ _ _ _ Hc).
    destruct l1 as [|y l1 _] using rev_ind; [set_solver|]. rewrite last_snoc. set_solver.
Qed.

Lemma list_add_tail_frame st h l h' l' new :
  dlist st h l -> dlist st h' l' -> (forall x, x ∈ h :: l -> x ∉ h' :: l') ->
  new ∉ h' :: l' -> dlist (sbi_list_add_tail st new h) h' l'.
Proof.
  intros Hd Hd' Hdis Hnew. eapply dlist_frame, Hd'. intros x Hx.
  assert (x <> h) by (intros ->; eapply Hdis; [|done]; set_solver).
  assert (x <> prev (st h)).
  { intros ->. eapply Hdis; [|done]. eapply dlist_prev_in; [done|set_solver]. }
  assert (x <> new) by (by intros ->).
  unfold sbi_list_add_tail, list_add_between, set_prev, set_next.
  by zcases.
Qed.

Lemma list_del_frame st h l h' l' e :
  dlist st h l -> dlist st h' l' -> (forall x, x ∈ h :: l -> x ∉ h' :: l') ->
  e ∈ l -> dlist (sbi_list_del st e) h' l'.
Proof.
  intros Hd Hd' Hdis He. eapply dlist_frame, Hd'. intros x Hx.
  assert (forall y, y ∈ h :: l -> x <> y) as Hne by (intros y Hy ->; by eapply Hdis).
  assert (x <> e) by (apply Hne; set_solver).
  assert (x <> prev (st e)) by (apply Hne; eapply dlist_prev_in; [done|set_solver]).
  assert (x <> next (st e)) by (apply Hne; eapply dlist_next_in; [done|set_solver]).
  unfold sbi_list_del, list_unlink, set_prev, set_next. by zcases.
Qed.

Lemma for_each_spec st h a l :
  chain st a l h -> h ∉ l -> for_each (length l) st h (next (st a)) = Some l.
Proof.
  revert a. induction l as [|x l IH]; intros a Hc Hh; simpl.
  - destruct Hc as [-> _]. by rewrite Z.eqb_refl.
  - destruct Hc as (-> & _ & Hc).
    destruct (Z.eqb_spec x h) as [->|]; [set_solver|].
    rewrite IH; [done|done|set_solver].
Qed.

(** ** Properties *)

(** The pointer operations implement list operations.  On a well-formed
    circular list, [sbi_list_add] inserts after the given node,
    [sbi_list_add_tail] appends at the end, [sbi_list_del] removes exactly the
    given node, [sbi_list_empty] tests for the empty list, and
    [sbi_list_for_each] terminates after [length l] nodes, visiting them in
    order. *)
Lemma dlist_refines_list st h l1 l2 new :
  dlist st h (l1 ++ l2) -> new ∉ h :: l1 ++ l2 ->
  let st1 := sbi_list_add st new (default h (last l1)) in
  dlist st1 h (l1 ++ new :: l2) /\
  dlist (sbi_list_del st1 new) h (l1 ++ l2) /\
  dlist (sbi_list_add_tail st new h) h (l1 ++ l2 ++ [new]) /\
  sbi_list_empty st h = bool_decide (l1 ++ l2 = []) /\
  sbi_list_for_each (length (l1 ++ l2)) st h = Some (l1 ++ l2).
Proof.
  intros Hd Hnew st1.
  assert (dlist st1 h (l1 ++ new :: l2)) as H1 by (by apply list_add_spec).
  split_and!; [done|by apply list_del_spec| |by apply dlist_empty|].
  - rewrite app_assoc. by apply list_add_tail_spec.
  - destruct Hd as [Hnd Hc]. apply for_each_spec; [done|].
    by apply NoDup_cons in Hnd as [? _].
Qed.

Lemma init_list_head_spec st h : dlist (SBI_INIT_LIST_HEAD st h) h [].
Proof.
  split; [apply NoDup_singleton|]. unfold SBI_INIT_LIST_HEAD. simpl.
  split; dcases.
Qed.

Lemma dlist_refines_list_witness :
  dlist (sbi_list_del
           (sbi_list_add (sbi_list_add_tail
              (SBI_INIT_LIST_HEAD (fun _ => mk_dlist 0 0) 8) 16 8) 24 16) 24) 8 [16].
Proof.
  pose proof (list_add_tail_spec _ 8 [] 16
    (init_list_head_spec (fun _ => mk_dlist 0 0) 8) ltac:(set_solver)) as H.
  refine (proj1 (proj2 (dlist_refines_list _ 8 [16] [] 24 H _))).
  set_solver.
Defined.
