(* ===== verification/SbiHeap.v ===== *)
(** * [lib/sbi/sbi_heap.c]: the firmware heap

    The three intrusive lists of [struct sbi_heap_control] are Rocq lists of
    [heap_node] records ([SbiList] shows that the pointer operations implement
    the list operations used here).  Every operation runs under the heap's
    lock, so it is one atomic step.  A [void *] result is an address with [0]
    for [NULL].

    The invariant [heap_wf] states that the free and the used blocks tile the
    heap's data area: every byte of it belongs to exactly one block. *)

From S2P Require Import Prelude SbiString.
Local Open Scope mach_scope.

(** ** Definitions *)

Record heap_node : Type := mk_node { addr : Z; size : Z }.

Record sbi_heap_control : Type := mk_heap {
  hbase : Z;
  hsize : Z;
  hkbase : Z;
  hksize : Z;
  free_node_list : list heap_node;
  free_space_list : list heap_node;
  used_space_list : list heap_node;
}.

Definition HEAP_ALLOC_ALIGN : Z := 64.
Definition HEAP_HOUSEKEEPING_FACTOR : Z := 16.
Definition HEAP_BASE_ALIGN : Z := 1024.
Definition sizeof_heap_node : Z := 32.

(** [ROUNDUP(a, b)] of [sbi_types.h], on [unsigned long]. *)
Definition ROUNDUP (a b : Z) : Z := ((a ⊖ 1) / b ⊕ 1) ⊗ b.

Definition with_lists (hp : sbi_heap_control) (fn fs us : list heap_node) : sbi_heap_control :=
  mk_heap (hbase hp) (hsize hp) (hkbase hp) (hksize hp) fn fs us.

(** The search loop of [alloc_with_align]: the nodes before the first one that
    fits, that node, the nodes after it. *)
Fixpoint find_fit (align sz : Z) (pre l : list heap_node)
    : option (list heap_node * heap_node * list heap_node) :=
  match l with
  | [] => None
  | n :: l' =>
      let pad := ROUNDUP (addr n) align ⊖ addr n in
      if sz ⊕ pad <=? size n then Some (pre, n, l')
      else find_fit align sz (pre ++ [n]) l'
  end.

Definition alloc_with_align (hp : sbi_heap_control) (align sz : Z) : Z * sbi_heap_control :=
  if sz =? 0 then (0, hp) else
  let sz := Z.land (sz ⊕ (align - 1)) (not64 (align - 1)) in
  match find_fit align sz [] (free_space_list hp) with
  | None => (0, hp)
  | Some (pre, np, post) =>
      let lowest_aligned := ROUNDUP (addr np) align in
      let pad := lowest_aligned ⊖ addr np in
      if negb (pad =? 0) then
        match free_node_list hp with
        | [] => (0, hp)
        | n :: fn =>
            let used := used_space_list hp ++ [mk_node lowest_aligned sz] in
            let np' := mk_node (addr np) pad in
            match fn with
            | rem :: fn' =>
                if sz ⊕ pad <? size np then
                  let rem' := mk_node (addr np ⊕ (sz ⊕ pad)) (size np ⊖ (sz ⊕ pad)) in
                  (lowest_aligned,
                   with_lists hp fn' (pre ++ np' :: post ++ [rem']) used)
                else if negb (sz ⊕ pad =? size np) then
                  (0, with_lists hp (n :: fn) (free_space_list hp) (used_space_list hp))
                else (lowest_aligned, with_lists hp fn (pre ++ np' :: post) used)
            | [] =>
                if negb (sz ⊕ pad =? size np) then
                  (0, with_lists hp (n :: fn) (free_space_list hp) (used_space_list hp))
                else (lowest_aligned, with_lists hp fn (pre ++ np' :: post) used)
            end
        end
      else
        match free_node_list hp with
        | n :: fn =>
            if sz <? size np then
              (addr np,
               with_lists hp fn (pre ++ mk_node (addr np ⊕ sz) (size np ⊖ sz) :: post)
                 (used_space_list hp ++ [mk_node (addr np) sz]))
            else if sz =? size np then
              (addr np,
               with_lists hp (free_node_list hp) (pre ++ post) (used_space_list hp ++ [np]))
            else (0, hp)
        | [] =>
            if sz =? size np then
              (addr np, with_lists hp [] (pre ++ post) (used_space_list hp ++ [np]))
            else (0, hp)
        end
  end.

Definition sbi_malloc_from (hp : sbi_heap_control) (sz : Z) : Z * sbi_heap_control :=
  alloc_with_align hp HEAP_ALLOC_ALIGN sz.

Definition sbi_aligned_alloc_from (hp : sbi_heap_control) (alignment sz : Z)
    : Z * sbi_heap_control :=
  let alignment := if alignment <? HEAP_ALLOC_ALIGN then HEAP_ALLOC_ALIGN else alignment in
  if negb (Z.land alignment (alignment - 1) =? 0) then (0, hp)
  else if negb (sz mod alignment =? 0) then (0, hp)
  else alloc_with_align hp alignment sz.

Definition sbi_zalloc_from (hp : sbi_heap_control) (m : mem) (sz : Z)
    : Z * sbi_heap_control * mem :=
  let '(ret, hp') := sbi_malloc_from hp sz in
  (ret, hp', if ret =? 0 then m else (sbi_memset m ret 0 sz).1).

Definition sbi_calloc_from (hp : sbi_heap_control) (m : mem) (nitems sz : Z)
    : Z * sbi_heap_control * mem :=
  sbi_zalloc_from hp m (nitems ⊗ sz).

(** The search loop of [sbi_free_from]. *)
Fixpoint find_used (ptr : Z) (pre l : list heap_node)
    : option (list heap_node * heap_node * list heap_node) :=
  match l with
  | [] => None
  | n :: l' =>
      if (addr n <=? ptr) && (ptr <? addr n ⊕ size n) then Some (pre, n, l')
      else find_used ptr (pre ++ [n]) l'
  end.

(** The coalescing loop of [sbi_free_from]: the new free-space list, and
    whether the node [np] goes back to the free-node list. *)
Fixpoint free_insert (np : heap_node) (l : list heap_node) : list heap_node * bool :=
  match l with
  | [] => ([np], false)
  | n :: l' =>
      if addr np ⊕ size np =? addr n then
        (mk_node (addr np) (size n ⊕ size np) :: l', true)
      else if addr np =? addr n ⊕ size n then
        (mk_node (addr n) (size n ⊕ size np) :: l', true)
      else if addr n ⊕ size n <? addr np then (n :: np :: l', false)
      else let '(l'', r) := free_insert np l' in (n :: l'', r)
  end.

Definition sbi_free_from (hp : sbi_heap_control) (ptr : Z) : sbi_heap_control :=
  if ptr =? 0 then hp
  else match find_used ptr [] (used_space_list hp) with
       | None => hp
       | Some (pre, np, post) =>
           let '(fs, merged) := free_insert np (free_space_list hp) in
           let fn := if merged then free_node_list hp ++ [np] else free_node_list hp in
           with_lists hp fn fs (pre ++ post)
       end.

Fixpoint free_sum (l : list heap_node) (ret : Z) : Z :=
  match l with [] => ret | n :: l' => free_sum l' (ret ⊕ size n) end.

Definition sbi_heap_free_space_from (hp : sbi_heap_control) : Z :=
  free_sum (free_space_list hp) 0.

(** The source calls [sbi_heap_free_space()], which reads [global_hpctrl]. *)
Definition sbi_heap_used_space_from (global_hpctrl hp : sbi_heap_control) : Z :=
  hsize hp ⊖ hksize hp ⊖ sbi_heap_free_space_from global_hpctrl.

Definition sbi_heap_reserved_space_from (hp : sbi_heap_control) : Z := hksize hp.

(** [None] is the case where [sbi_list_first_entry] is applied to the empty
    free-node list, which the source does not check for. *)
Definition sbi_heap_init_new (base sz : Z) : option (Z * sbi_heap_control) :=
  let hk := Z.land (sz / HEAP_HOUSEKEEPING_FACTOR) (not64 (HEAP_BASE_ALIGN - 1)) in
  match repeat (mk_node 0 0) (Z.to_nat (hk / sizeof_heap_node)) with
  | [] => None
  | n :: fn => Some (0, mk_heap base sz base hk fn [mk_node (base ⊕ hk) (sz ⊖ hk)] [])
  end.

(** The fields of [struct sbi_scratch] the heap reads. *)
Record fw_layout : Type := mk_layout {
  fw_start : Z; fw_size : Z; fw_rw_offset : Z; fw_heap_offset : Z; fw_heap_size : Z;
}.

Definition sbi_heap_init (s : fw_layout) : option (Z * option sbi_heap_control) :=
  if (fw_heap_size s =? 0)
     || negb (Z.land (fw_heap_size s) (HEAP_BASE_ALIGN - 1) =? 0)
     || (fw_heap_offset s <? fw_rw_offset s)
     || (fw_size s <? fw_heap_offset s ⊕ fw_heap_size s)
     || negb (Z.land (fw_heap_offset s) (HEAP_BASE_ALIGN - 1) =? 0)
  then Some (SBI_EINVAL, None)
  else match sbi_heap_init_new (fw_start s ⊕ fw_heap_offset s) (fw_heap_size s) with
       | None => None
       | Some (rc, hp) => Some (rc, Some hp)
       end.

(** ** The invariant *)

(** How many blocks of [l] contain the byte [a]. *)
Definition cov (n : heap_node) (a : Z) : Z :=
  if (addr n <=? a) && (a <? addr n + size n) then 1 else 0.

Fixpoint cover (l : list heap_node) (a : Z) : Z :=
  match l with [] => 0 | n :: l' => cov n a + cover l' a end.

Fixpoint sizes (l : list heap_node) : Z :=
  match l with [] => 0 | n :: l' => size n + sizes l' end.

Definition data_lo (hp : sbi_heap_control) : Z := hkbase hp + hksize hp.
Definition data_hi (hp : sbi_heap_control) : Z := hbase hp + hsize hp.

Definition node_in (lo hi : Z) (n : heap_node) : Prop :=
  lo <= addr n /\ 0 <= size n /\ addr n + size n <= hi.

Definition blocks (hp : sbi_heap_control) : list heap_node :=
  free_space_list hp ++ used_space_list hp.

Record heap_wf (hp : sbi_heap_control) : Prop := {
  hw_lo : 0 < data_lo hp;
  hw_hi : data_hi hp < 2 ^ 64;
  hw_le : data_lo hp <= data_hi hp;
  hw_hk : 0 <= hksize hp;
  hw_base : hkbase hp = hbase hp;
  hw_in : Forall (node_in (data_lo hp) (data_hi hp)) (blocks hp);
  hw_tile : forall a, cover (blocks hp) a
            = if (data_lo hp <=? a) && (a <? data_hi hp) then 1 else 0;
  hw_sum : sizes (blocks hp) = data_hi hp - data_lo hp;
}.

(** The three node lists share a fixed pool of [hksize / sizeof(node)] nodes. *)
Definition node_count (hp : sbi_heap_control) : nat :=
  (length (free_node_list hp) + length (free_space_list hp)
   + length (used_space_list hp))%nat.

(** A byte is free when a free block holds it. *)
Definition free_at (hp : sbi_heap_control) (a : Z) : Prop := cover (free_space_list hp) a = 1.

Definition pow2_align (align : Z) : Prop := exists k, 0 <= k < 64 /\ align = 2 ^ k.

(** The size [alloc_with_align] really reserves. *)
Definition rounded (align sz : Z) : Z := (sz + align - 1) / align * align.

(** ** Lemmas *)

Lemma cover_app l1 l2 a : cover (l1 ++ l2) a = cover l1 a + cover l2 a.
Proof. induction l1 as [|n l1 IH]; simpl; [done|]. rewrite IH. lia. Qed.

Lemma sizes_app l1 l2 : sizes (l1 ++ l2) = sizes l1 + sizes l2.
Proof. induction l1 as [|n l1 IH]; simpl; [done|]. rewrite IH. lia. Qed.

Lemma cov_range n a : 0 <= cov n a <= 1.
Proof. unfold cov. destruct (_ && _); lia. Qed.

Lemma cover_nonneg l a : 0 <= cover l a.
Proof.
  induction l as [|n l IH]; simpl; [lia|]. pose proof (cov_range n a). lia.
Qed.

Lemma sizes_nonneg lo hi l : Forall (node_in lo hi) l -> 0 <= sizes l.
Proof. induction 1 as [|n l [? []] ? IH]; simpl; lia. Qed.

(** Splitting and joining adjacent blocks does not change the bytes covered. *)
Lemma cov_split a x y b :
  0 <= x -> 0 <= y ->
  cov (mk_node a (x + y)) b = cov (mk_node a x) b + cov (mk_node (a + x) y) b.
Proof. intros. unfold cov. simpl. zcases; simpl; lia. Qed.

Lemma cov_zero r a : cov (mk_node r 0) a = 0.
Proof. unfold cov. simpl. zcases; simpl; lia. Qed.

Create Rewrite HintDb heap.
#[export] Hint Rewrite cover_app sizes_app : heap.

Lemma rounded_spec align sz :
  pow2_align align -> 0 < sz -> sz + align - 1 < 2 ^ 64 ->
  Z.land (sz ⊕ (align - 1)) (not64 (align - 1)) = rounded align sz /\
  sz <= rounded align sz < sz + align /\ rounded align sz mod align = 0 /\
  rounded align sz + align <= 2 ^ 64.
Proof.
  intros (k & Hk & ->) Hs Hb. unfold rounded.
  assert (0 < 2 ^ k) as Hp by lia.
  rewrite wrap_small by lia. rewrite land_not_mask by lia.
  replace (sz + (2 ^ k - 1)) with (sz + 2 ^ k - 1) by lia.
  pose proof (Z.div_mod (sz + 2 ^ k - 1) (2 ^ k) ltac:(lia)) as Hd.
  pose proof (Z.mod_pos_bound (sz + 2 ^ k - 1) (2 ^ k) Hp) as Hm.
  split_and!; [lia|lia|lia|apply Z_mod_mult|].
  assert (2 ^ 64 = 2 ^ (64 - k) * 2 ^ k) as H64.
  { rewrite <- Z.pow_add_r by lia. f_equal. lia. }
  assert ((sz + 2 ^ k - 1) / 2 ^ k < 2 ^ (64 - k)).
  { apply Z.div_lt_upper_bound; lia. }
  rewrite H64, <- Z.mul_succ_l. apply Z.mul_le_mono_nonneg_r; lia.
Qed.

(** [ROUNDUP] and the padding, without the wrap-around. *)
Lemma ROUNDUP_spec align a :
  pow2_align align -> 0 < a < 2 ^ 64 ->
  exists r, a <= r < a + align /\ r mod align = 0 /\ r <= 2 ^ 64 /\
  ROUNDUP a align = u64 r /\ ROUNDUP a align ⊖ a = r - a.
Proof.
  intros (k & Hk & ->) Ha. assert (0 < 2 ^ k) as Hp by lia.
  assert (2 ^ 64 = 2 ^ (64 - k) * 2 ^ k) as H64.
  { rewrite <- Z.pow_add_r by lia. f_equal. lia. }
  pose proof (Z.div_mod (a - 1) (2 ^ k) ltac:(lia)) as Hd.
  pose proof (Z.mod_pos_bound (a - 1) (2 ^ k) Hp) as Hm.
  assert (0 <= (a - 1) / 2 ^ k) by (apply Z.div_pos; lia).
  assert ((a - 1) / 2 ^ k < 2 ^ (64 - k)) by (apply Z.div_lt_upper_bound; lia).
  assert (2 ^ (64 - k) <= 2 ^ 64) by (apply Z.pow_le_mono_r; lia).
  assert (2 ^ k < 2 ^ 64) by (apply Z.pow_lt_mono_r; lia).
  exists (((a - 1) / 2 ^ k + 1) * 2 ^ k).
  assert (ROUNDUP a (2 ^ k) = u64 (((a - 1) / 2 ^ k + 1) * 2 ^ k)) as Hr.
  { unfold ROUNDUP. rewrite (wrap_small 64 (a - 1)) by lia.
    unfold wrap at 2. unfold wrap. by rewrite Zmult_mod_idemp_l. }
  assert (((a - 1) / 2 ^ k + 1) * 2 ^ k <= 2 ^ 64).
  { rewrite H64. apply Z.mul_le_mono_nonneg_r; lia. }
  split_and!; [lia|lia|apply Z_mod_mult|done|done|].
  rewrite Hr, wrap_sub_l. apply wrap_small. lia.
Qed.

Lemma find_fit_spec align sz pre l pre' np post :
  find_fit align sz pre l = Some (pre', np, post) ->
  pre ++ l = pre' ++ np :: post /\ sz ⊕ (ROUNDUP (addr np) align ⊖ addr np) <= size np.
Proof.
  revert pre. induction l as [|n l IH]; intros pre; simpl; [done|].
  destruct (Z.leb_spec (sz ⊕ (ROUNDUP (addr n) align ⊖ addr n)) (size n)).
  - by intros [= <- <- <-].
  - intros [H1 H2]%IH. by rewrite <- app_assoc in H1.
Qed.

Lemma find_used_spec ptr pre l pre' np post :
  find_used ptr pre l = Some (pre', np, post) ->
  pre ++ l = pre' ++ np :: post /\ addr np <= ptr < addr np ⊕ size np.
Proof.
  revert pre. induction l as [|n l IH]; intros pre; simpl; [done|].
  destruct (_ && _) eqn:E.
  - intros [= <- <- <-]. prop_bool. done.
  - intros [H1 H2]%IH. by rewrite <- app_assoc in H1.
Qed.

(** Replacing the lists by others that cover the same bytes. *)
Lemma with_lists_wf hp fn fs us :
  heap_wf hp -> Forall (node_in (data_lo hp) (data_hi hp)) (fs ++ us) ->
  (forall a, cover (fs ++ us) a = cover (blocks hp) a) ->
  sizes (fs ++ us) = sizes (blocks hp) ->
  heap_wf (with_lists hp fn fs us).
Proof.
  intros [] Hin Hcov Hsum. constructor; try done.
  - intros a. unfold blocks. simpl. by rewrite Hcov.
  - unfold blocks. simpl. by rewrite Hsum.
Qed.

(** What a successful search and its arithmetic give. *)
Lemma fit_facts hp align sz pre np post :
  heap_wf hp -> pow2_align align -> 0 < sz -> sz + align - 1 < 2 ^ 64 ->
  find_fit align (rounded align sz) [] (free_space_list hp) = Some (pre, np, post) ->
  exists pad, 0 <= pad /\ free_space_list hp = pre ++ np :: post /\
  ROUNDUP (addr np) align ⊖ addr np = pad /\ ROUNDUP (addr np) align = addr np + pad /\
  (addr np + pad) mod align = 0 /\ rounded align sz ⊕ pad = rounded align sz + pad /\
  rounded align sz + pad <= size np /\ node_in (data_lo hp) (data_hi hp) np.
Proof.
  intros Hwf Hal Hs Hb Hfit. pose proof Hwf as [Hlo Hhi _ _ _ Hin _ _].
  apply find_fit_spec in Hfit as [Heq Hle]. simpl in Heq.
  assert (node_in (data_lo hp) (data_hi hp) np) as Hnp.
  { unfold blocks in Hin. rewrite Heq, <- app_assoc in Hin.
    apply Forall_app in Hin as [_ Hin]. by apply Forall_cons in Hin as [? _]. }
  pose proof Hnp as (H1 & H2 & H3).
  destruct (ROUNDUP_spec align (addr np) Hal) as (r & Hr & Hmod & Hr64 & Hru & Hpad); [lia|].
  destruct (rounded_spec align sz Hal Hs Hb) as (_ & Hrs & _ & Hra).
  rewrite Hpad in Hle. rewrite wrap_small in Hle by lia.
  exists (r - addr np). split_and!; try done; try lia.
  - rewrite Hru. rewrite wrap_small; lia.
  - by replace (addr np + (r - addr np)) with r by lia.
  - apply wrap_small. lia.
Qed.

(** The outcome of an allocation. *)
Record alloc_ok (hp hp' : sbi_heap_control) (align sz p : Z) : Prop := {
  ao_nonnull : p <> 0;
  ao_aligned : p mod align = 0;
  ao_used : used_space_list hp' = used_space_list hp ++ [mk_node p (rounded align sz)];
  ao_wf : heap_wf hp';
  ao_count : node_count hp' = node_count hp;
  ao_area : data_lo hp' = data_lo hp /\ data_hi hp' = data_hi hp;
  ao_free : forall a, p <= a < p + rounded align sz -> free_at hp a;
  ao_space : sizes (free_space_list hp') = sizes (free_space_list hp) - rounded align sz;
}.

(** The four ways an allocation succeeds are instances of one step: the free
    block [np] is replaced by a front part of [pad] bytes and a back part of
    [rest] bytes (absent when empty, wherever it is put in the list). *)
Lemma alloc_step hp fn fs align sz pre np post pad rest p hp' :
  heap_wf hp -> pow2_align align -> 0 < rounded align sz ->
  node_in (data_lo hp) (data_hi hp) np ->
  free_space_list hp = pre ++ np :: post ->
  0 <= pad -> 0 <= rest -> size np = pad + (rounded align sz + rest) ->
  p = addr np + pad -> p mod align = 0 ->
  hp' = with_lists hp fn fs (used_space_list hp ++ [mk_node p (rounded align sz)]) ->
  node_count hp' = node_count hp ->
  Forall (node_in (data_lo hp) (data_hi hp)) fs ->
  (forall a, cover fs a = cover pre a + cover post a + cov (mk_node (addr np) pad) a
                          + cov (mk_node (p + rounded align sz) rest) a) ->
  sizes fs = sizes pre + sizes post + pad + rest ->
  alloc_ok hp hp' align sz p.
Proof.
  intros Hwf Hal Hrs Hnp Hfs Hpad Hrest Hsz Hp Hmod Hhp' Hcnt Hin Hcov Hsum.
  pose proof Hwf as [Hlo Hhi _ _ _ Hin0 Htile _].
  destruct Hnp as (Hn1 & Hn2 & Hn3).
  assert (forall a, cov np a = cov (mk_node (addr np) pad) a
    + (cov (mk_node p (rounded align sz)) a + cov (mk_node (p + rounded align sz) rest) a)) as Hcnp.
  { intros a. destruct np as [an sn]. simpl in *. subst sn p.
    rewrite cov_split by lia. by rewrite cov_split by lia. }
  unfold blocks in *.
  constructor.
  - lia.
  - done.
  - by subst.
  - subst hp'. apply with_lists_wf; [done|..].
    + apply Forall_app in Hin0 as [_ Hin0].
      repeat (apply Forall_app; split); try done.
      apply Forall_singleton. unfold node_in. simpl. lia.
    + intros a. unfold blocks. rewrite Hfs. autorewrite with heap. simpl.
      rewrite Hcov, Hcnp. lia.
    + unfold blocks. rewrite Hfs. autorewrite with heap. simpl. rewrite Hsum. lia.
  - done.
  - by subst.
  - intros a Ha. unfold free_at. specialize (Htile a). rewrite Hfs in *.
    autorewrite with heap in *. simpl in *.
    pose proof (cover_nonneg pre a). pose proof (cover_nonneg post a).
    pose proof (cover_nonneg (used_space_list hp) a). pose proof (cov_range np a).
    assert (cov np a = 1) by (unfold cov; zcases; simpl; lia).
    destruct (_ && _); lia.
  - subst hp'. simpl. rewrite Hfs, Hsum. autorewrite with heap. simpl. lia.
Qed.

(** Side conditions of [alloc_step]: node counts, block ranges, covers. *)
Ltac alloc_counts :=
  unfold node_count; simpl;
  repeat match goal with
  | H : free_space_list _ = _ |- _ => rewrite H
  | H : free_node_list _ = _ |- _ => rewrite H
  end;
  repeat (simpl; rewrite ?length_app); simpl; lia.

Ltac alloc_nodes :=
  repeat (apply Forall_app_2 || apply Forall_cons_2 || apply Forall_nil_2 || done);
  unfold node_in; simpl; lia.

Ltac alloc_covers :=
  intros; repeat (autorewrite with heap; simpl); rewrite ?cov_zero; lia.

Section Alloc.
Context (hp : sbi_heap_control) (align sz : Z) (pre post : list heap_node) (np : heap_node).
Hypothesis Hwf : heap_wf hp.
Hypothesis Hal : pow2_align align.
Hypothesis Hfs : free_space_list hp = pre ++ np :: post.
Hypothesis Hnp : node_in (data_lo hp) (data_hi hp) np.
Hypothesis Hrs : 0 < rounded align sz.

Let rs := rounded align sz.

Lemma alloc_others :
  Forall (node_in (data_lo hp) (data_hi hp)) pre /\
  Forall (node_in (data_lo hp) (data_hi hp)) post.
Proof.
  pose proof (hw_in _ Hwf) as Hin0. unfold blocks in Hin0. rewrite Hfs in Hin0.
  apply Forall_app in Hin0 as [Hin0 _].
  apply Forall_app in Hin0 as [? Hin0]. by apply Forall_cons in Hin0 as [_ ?].
Qed.

(** The block fits exactly and needs no padding: it changes lists. *)
Lemma alloc_whole fn :
  free_node_list hp = fn -> rs = size np -> addr np mod align = 0 ->
  alloc_ok hp (with_lists hp fn (pre ++ post) (used_space_list hp ++ [np]))
    align sz (addr np).
Proof.
  intros Hfn He Hmod. destruct alloc_others as [Hpre Hpost].
  pose proof Hwf as [Hlo _ _ _ _ _ _ _]. pose proof Hnp as (? & ? & ?).
  apply (alloc_step hp fn (pre ++ post) align sz pre np post 0 0);
    try done; try lia.
  - do 2 f_equal. fold rs. rewrite He. by destruct np.
  - alloc_counts.
  - alloc_nodes.
  - alloc_covers.
  - alloc_covers.
Qed.

(** The front of the block is cut off. *)
Lemma alloc_front n fn :
  free_node_list hp = n :: fn -> rs < size np -> addr np mod align = 0 ->
  alloc_ok hp
    (with_lists hp fn (pre ++ mk_node (addr np + rs) (size np - rs) :: post)
       (used_space_list hp ++ [mk_node (addr np) rs])) align sz (addr np).
Proof.
  intros Hfn Hlt Hmod. destruct alloc_others as [Hpre Hpost]. pose proof Hnp as (? & ? & ?).
  eapply (alloc_step hp fn _ align sz pre np post 0 (size np - rs)); try done; try lia;
    fold rs; [alloc_counts|alloc_nodes|alloc_covers..].
Qed.

(** The back of the block is cut off, behind [pad] bytes. *)
Lemma alloc_back n fn pad :
  free_node_list hp = n :: fn -> 0 <= pad -> rs + pad = size np ->
  (addr np + pad) mod align = 0 ->
  alloc_ok hp
    (with_lists hp fn (pre ++ mk_node (addr np) pad :: post)
       (used_space_list hp ++ [mk_node (addr np + pad) rs])) align sz (addr np + pad).
Proof.
  intros Hfn Hp He Hmod. destruct alloc_others as [Hpre Hpost]. pose proof Hnp as (? & ? & ?).
  eapply (alloc_step hp fn _ align sz pre np post pad 0); try done; try lia;
    fold rs; [alloc_counts|alloc_nodes|alloc_covers..].
Qed.

(** The middle of the block is cut out. *)
Lemma alloc_middle n rem fn pad :
  free_node_list hp = n :: rem :: fn -> 0 <= pad -> rs + pad < size np ->
  (addr np + pad) mod align = 0 ->
  alloc_ok hp
    (with_lists hp fn
       (pre ++ mk_node (addr np) pad :: post
          ++ [mk_node (addr np + (rs + pad)) (size np - (rs + pad))])
       (used_space_list hp ++ [mk_node (addr np + pad) rs])) align sz (addr np + pad).
Proof.
  intros Hfn Hp He Hmod. destruct alloc_others as [Hpre Hpost]. pose proof Hnp as (? & ? & ?).
  replace (addr np + (rs + pad)) with (addr np + pad + rs) by lia.
  eapply (alloc_step hp fn _ align sz pre np post pad (size np - (rs + pad)));
    try done; try lia; fold rs; [alloc_counts|alloc_nodes|alloc_covers..].
Qed.
End Alloc.

Lemma with_lists_id hp fn :
  free_node_list hp = fn ->
  with_lists hp fn (free_space_list hp) (used_space_list hp) = hp.
Proof. intros <-. by destruct hp. Qed.

Lemma alloc_with_align_spec hp align sz :
  heap_wf hp -> pow2_align align -> 0 < sz -> sz + align - 1 < 2 ^ 64 ->
  let '(p, hp') := alloc_with_align hp align sz in
  (p = 0 /\ hp' = hp) \/ alloc_ok hp hp' align sz p.
Proof.
  intros Hwf Hal Hs Hb. unfold alloc_with_align.
  destruct (Z.eqb_spec sz 0); [lia|].
  destruct (rounded_spec align sz Hal Hs Hb) as (-> & Hrs & _ & _).
  destruct (find_fit _ _ _ _) as [[[pre np] post]|] eqn:Hfit; [|by left].
  destruct (fit_facts hp align sz pre np post Hwf Hal Hs Hb Hfit)
    as (pad & Hp0 & Hfs & -> & -> & Hmod & -> & Hle & Hnp).
  pose proof Hwf as [Hlo Hhi _ _ _ _ _ _]. pose proof Hnp as (Hn1 & Hn2 & Hn3).
  destruct (Z.eqb_spec pad 0) as [->|Hpne]; simpl negb; cbv iota.
  - rewrite Z.add_0_r in Hmod. destruct (free_node_list hp) as [|fnode fn] eqn:Hfn.
    + destruct (Z.eqb_spec (rounded align sz) (size np)); [right|by left].
      eapply alloc_whole; try done; lia.
    + destruct (Z.ltb_spec (rounded align sz) (size np)).
      * right. rewrite !wrap_small by lia. eapply alloc_front; try done; lia.
      * destruct (Z.eqb_spec (rounded align sz) (size np)); [right|by left].
        eapply alloc_whole; try done; lia.
  - destruct (free_node_list hp) as [|fnode fn] eqn:Hfn; [by left|].
    destruct fn as [|rem fn'].
    + destruct (Z.eqb_spec (rounded align sz + pad) (size np)); simpl negb; cbv iota.
      * right. eapply alloc_back; try done; lia.
      * left. by rewrite with_lists_id.
    + destruct (Z.ltb_spec (rounded align sz + pad) (size np)).
      * right. rewrite !wrap_small by lia. eapply alloc_middle; try done; lia.
      * destruct (Z.eqb_spec (rounded align sz + pad) (size np)); simpl negb; cbv iota.
        -- right. eapply alloc_back; try done; lia.
        -- left. by rewrite with_lists_id.
Qed.

Lemma free_insert_spec lo hi np l :
  0 <= lo -> hi < 2 ^ 64 -> node_in lo hi np -> Forall (node_in lo hi) l ->
  let '(fs, merged) := free_insert np l in
  Forall (node_in lo hi) fs /\ (forall a, cover fs a = cover l a + cov np a) /\
  sizes fs = sizes l + size np /\
  (length fs + (if merged then 1 else 0) = S (length l))%nat.
Proof.
  intros Hlo Hhi Hnp. pose proof Hnp as (Hn1 & Hn2 & Hn3).
  induction 1 as [|n l (Hm1 & Hm2 & Hm3) Hl IH]; simpl.
  { split_and!; [by apply Forall_singleton|intros; lia|lia|done]. }
  rewrite (wrap_small 64 (addr np + size np)) by lia.
  rewrite (wrap_small 64 (addr n + size n)) by lia.
  destruct (Z.eqb_spec (addr np + size np) (addr n)) as [He|].
  { rewrite wrap_small by lia. split_and!; [|intros a|simpl; lia|simpl; lia].
    - apply Forall_cons_2; [|done]. unfold node_in. simpl. lia.
    - destruct np as [ap sp], n as [an sn]. simpl in *. subst an.
      rewrite (Z.add_comm sn sp), cov_split by lia. lia. }
  destruct (Z.eqb_spec (addr np) (addr n + size n)) as [He|].
  { rewrite wrap_small by lia. split_and!; [|intros a|simpl; lia|simpl; lia].
    - apply Forall_cons_2; [|done]. unfold node_in. simpl. lia.
    - destruct np as [ap sp], n as [an sn]. simpl in *. subst ap.
      rewrite cov_split by lia. lia. }
  destruct (Z.ltb_spec (addr n + size n) (addr np)).
  { split_and!; [|intros a|simpl; lia|simpl; lia].
    - by repeat apply Forall_cons_2.
    - simpl. lia. }
  destruct (free_insert np l) as [fs merged]. destruct IH as (H1 & H2 & H3 & H4).
  split_and!; simpl; [by apply Forall_cons_2|intros a; rewrite H2; lia|lia|lia].
Qed.

Lemma free_spec hp ptr pre np post :
  heap_wf hp -> ptr <> 0 ->
  find_used ptr [] (used_space_list hp) = Some (pre, np, post) ->
  let hp' := sbi_free_from hp ptr in
  heap_wf hp' /\ used_space_list hp' = pre ++ post /\ node_count hp' = node_count hp /\
  data_lo hp' = data_lo hp /\ data_hi hp' = data_hi hp /\
  (forall a, cover (free_space_list hp') a = cover (free_space_list hp) a + cov np a) /\
  sizes (free_space_list hp') = sizes (free_space_list hp) + size np.
Proof.
  intros Hwf Hp Hfind. unfold sbi_free_from. rewrite Hfind.
  destruct (Z.eqb_spec ptr 0); [done|]. apply find_used_spec in Hfind as [Heq Hin].
  simpl in Heq. pose proof Hwf as [Hlo Hhi _ _ _ Hall _ _]. unfold blocks in Hall.
  rewrite Heq in Hall. apply Forall_app in Hall as [Hfs Hall].
  apply Forall_app in Hall as [Hpre Hall]. apply Forall_cons in Hall as [Hnp Hpost].
  pose proof (free_insert_spec (data_lo hp) (data_hi hp) np (free_space_list hp)
    ltac:(lia) Hhi Hnp Hfs) as Hins.
  destruct (free_insert np (free_space_list hp)) as [fs merged].
  destruct Hins as (H1 & H2 & H3 & H4).
  split_and!; try done.
  - apply with_lists_wf; [done| | |]; unfold blocks; rewrite ?Heq.
    + by repeat apply Forall_app_2.
    + intros a. rewrite !cover_app. simpl. rewrite H2. lia.
    + rewrite !sizes_app. simpl. lia.
  - unfold node_count. simpl. rewrite Heq, !length_app. simpl.
    destruct merged; rewrite ?length_app; simpl; lia.
Qed.

(** In a well-formed heap no byte belongs to two used blocks. *)
Lemma cover_lookup_lt l i j n1 n2 a :
  l !! i = Some n1 -> l !! j = Some n2 -> (i < j)%nat ->
  cov n1 a + cov n2 a <= cover l a.
Proof.
  revert i j. induction l as [|n l IH]; intros i j; [done|].
  destruct i as [|i], j as [|j]; simpl; try lia.
  - intros [= ->] Hj _. apply list_elem_of_lookup_2, list_elem_of_split in Hj as (l1 & l2 & ->).
    rewrite cover_app. simpl. pose proof (cover_nonneg l1 a). pose proof (cover_nonneg l2 a). lia.
  - intros Hi Hj Hij. pose proof (IH i j Hi Hj ltac:(lia)). pose proof (cov_range n a). lia.
Qed.

Lemma used_disjoint hp i j n1 n2 a :
  heap_wf hp -> used_space_list hp !! i = Some n1 -> used_space_list hp !! j = Some n2 ->
  i <> j -> cov n1 a = 1 -> cov n2 a = 1 -> False.
Proof.
  intros Hwf Hi Hj Hne H1 H2. pose proof (hw_tile _ Hwf a) as Ht. unfold blocks in Ht.
  rewrite cover_app in Ht. pose proof (cover_nonneg (free_space_list hp) a).
  assert (2 <= cover (used_space_list hp) a).
  { destruct (decide (i < j)%nat).
    - pose proof (cover_lookup_lt _ i j n1 n2 a Hi Hj ltac:(lia)). lia.
    - pose proof (cover_lookup_lt _ j i n2 n1 a Hj Hi ltac:(lia)). lia. }
  destruct (_ && _); lia.
Qed.

Lemma find_used_app ptr pre l n :
  (forall n', n' ∈ l -> ~ (addr n' <= ptr < addr n' ⊕ size n')) ->
  addr n <= ptr < addr n ⊕ size n ->
  find_used ptr pre (l ++ [n]) = Some (pre ++ l, n, []).
Proof.
  intros Hl Hn. revert pre. induction l as [|x l IH]; intros pre; simpl.
  - rewrite app_nil_r. destruct (_ && _) eqn:E; [done|].
    apply andb_false_iff in E as []; prop_bool; lia.
  - destruct (_ && _) eqn:E.
    + prop_bool. exfalso. apply (Hl x); [set_solver|lia].
    + rewrite IH by (intros; apply Hl; set_solver). by rewrite <- app_assoc.
Qed.

(** Freeing a block just allocated finds that very block. *)
Lemma find_used_fresh hp hp' align sz p :
  heap_wf hp -> alloc_ok hp hp' align sz p -> 0 < rounded align sz ->
  find_used p [] (used_space_list hp')
  = Some (used_space_list hp, mk_node p (rounded align sz), []).
Proof.
  intros Hwf [Hnn Hal Hus Hwf' _ [Hlo Hhi] Hfree _] Hrs. rewrite Hus.
  pose proof Hwf' as [Hl Hh _ _ _ Hall _ _]. unfold blocks in Hall. rewrite Hus in Hall.
  apply Forall_app in Hall as [_ Hall]. apply Forall_app in Hall as [Hold Hnew].
  apply Forall_singleton in Hnew as (Hn1 & Hn2 & Hn3). simpl in *.
  apply (find_used_app p []); simpl.
  - intros n' Hin' Hr. pose proof (Hfree p ltac:(lia)) as Hf. unfold free_at in Hf.
    pose proof (hw_tile _ Hwf p) as Ht. unfold blocks in Ht. rewrite cover_app, Hf in Ht.
    rewrite Forall_forall in Hold. pose proof (Hold _ Hin') as (? & ? & ?).
    rewrite wrap_small in Hr by lia.
    apply list_elem_of_split in Hin' as (l1 & l2 & El). rewrite El, cover_app in Ht. simpl in Ht.
    pose proof (cover_nonneg l1 p). pose proof (cover_nonneg l2 p).
    assert (cov n' p = 1) by (unfold cov; zcases; simpl; lia).
    destruct (_ && _); lia.
  - rewrite wrap_small by lia. lia.
Qed.

Lemma pow2_land a : 0 < a < 2 ^ 64 -> Z.land a (a - 1) = 0 -> pow2_align a.
Proof.
  intros Ha Hl. exists (Z.log2 a).
  assert (Z.log2 a < 64) by (apply Z.log2_lt_pow2; lia).
  pose proof (Z.log2_nonneg a). split; [lia|].
  pose proof (Z.log2_spec a ltac:(lia)) as [Hlo Hhi].
  destruct (Z.eq_dec a (2 ^ Z.log2 a)) as [|Hne]; [done|].
  assert (Z.log2 (a - 1) = Z.log2 a) as Hlog.
  { apply Z.log2_unique; [lia|]. split; [lia|]. lia. }
  assert (Z.testbit (Z.land a (a - 1)) (Z.log2 a) = true) as Hb.
  { rewrite Z.land_spec, Z.bit_log2 by lia. rewrite <- Hlog. rewrite Z.bit_log2; [done|].
    destruct (Z.eq_dec a 1) as [->|]; [done|lia]. }
  rewrite Hl, Z.bits_0 in Hb. done.
Qed.

Lemma pow2_64 : pow2_align HEAP_ALLOC_ALIGN.
Proof. exists 6. split; [lia|done]. Qed.

#[export] Hint Resolve pow2_64 : sbi.

(** [sbi_aligned_alloc_from] either refuses, or allocates with an alignment
    that is a power of two of at least 64 and not below the requested one. *)
Lemma aligned_alloc_spec hp alignment sz :
  heap_wf hp -> 0 <= alignment < 2 ^ 64 -> 0 <= sz < 2 ^ 64 ->
  let '(p, hp') := sbi_aligned_alloc_from hp alignment sz in
  (p = 0 /\ hp' = hp) \/
  exists al, pow2_align al /\ al = Z.max 64 alignment /\ alloc_ok hp hp' al sz p.
Proof.
  intros Hwf Ha Hs. unfold sbi_aligned_alloc_from, HEAP_ALLOC_ALIGN.
  replace (if alignment <? 64 then 64 else alignment) with (Z.max 64 alignment)
    by (zcases; lia).
  set (al := Z.max 64 alignment). assert (0 < al < 2 ^ 64) by lia.
  destruct (Z.eqb_spec (Z.land al (al - 1)) 0) as [Hl|]; simpl negb; cbv iota; [|by left].
  destruct (Z.eqb_spec (sz mod al) 0) as [Hm|]; simpl negb; cbv iota; [|by left].
  assert (pow2_align al) as Hal by (by apply pow2_land).
  destruct (Z.eq_dec sz 0) as [->|Hsz]; [by left|].
  assert (sz + al - 1 < 2 ^ 64).
  { destruct Hal as (k & Hk & ->). apply Z.mod_divide in Hm as [q ->]; [|lia].
    assert (2 ^ 64 = 2 ^ (64 - k) * 2 ^ k) as E by (rewrite <- Z.pow_add_r by lia; f_equal; lia).
    assert (q < 2 ^ (64 - k)) by nia. nia. }
  pose proof (alloc_with_align_spec hp al sz Hwf Hal ltac:(lia) ltac:(lia)) as Hspec.
  destruct (alloc_with_align hp al sz) as [p hp']. destruct Hspec; [by left|right; by exists al].
Qed.

Lemma free_sum_spec l r :
  0 <= r -> Forall (fun n => 0 <= size n) l -> r + sizes l < 2 ^ 64 ->
  free_sum l r = r + sizes l.
Proof.
  intros Hr Hl. revert r Hr. induction Hl as [|n l Hn Hl IH]; intros r Hr Hb; simpl in *; [lia|].
  assert (0 <= sizes l) by (clear -Hl; induction Hl; simpl; lia).
  rewrite wrap_small by lia. rewrite IH by lia. lia.
Qed.

(** Free space, used space and the data area add up. *)
Lemma free_space_spec hp :
  heap_wf hp ->
  sbi_heap_free_space_from hp = sizes (free_space_list hp) /\
  sizes (free_space_list hp) + sizes (used_space_list hp) = hsize hp - hksize hp /\
  0 <= sizes (free_space_list hp) /\ 0 <= sizes (used_space_list hp) /\
  hsize hp - hksize hp < 2 ^ 64.
Proof.
  intros [Hlo Hhi Hle Hhk Hb Hin _ Hsum]. unfold blocks in *.
  apply Forall_app in Hin as [Hf Hu]. rewrite sizes_app in Hsum.
  pose proof (sizes_nonneg _ _ _ Hf). pose proof (sizes_nonneg _ _ _ Hu).
  unfold data_lo, data_hi in *. split_and!; try lia.
  apply free_sum_spec; [lia| |lia].
  eapply Forall_impl; [exact Hf|]. by intros n (? & ? & ?).
Qed.

Lemma heap_init_new_spec base sz :
  0 < base -> 16 * 1024 <= sz -> base + sz < 2 ^ 64 ->
  exists hp, sbi_heap_init_new base sz = Some (0, hp) /\ heap_wf hp /\
  used_space_list hp = [] /\ hbase hp = base /\ hsize hp = sz /\
  hksize hp mod HEAP_BASE_ALIGN = 0 /\ 1024 <= hksize hp <= sz / 16 /\
  node_count hp = Z.to_nat (hksize hp / sizeof_heap_node).
Proof.
  intros Hb Hs Hhi. unfold sbi_heap_init_new, HEAP_HOUSEKEEPING_FACTOR, sizeof_heap_node.
  change (HEAP_BASE_ALIGN - 1) with (2 ^ 10 - 1).
  assert (1024 <= sz / 16) by (apply Z.div_le_lower_bound; lia).
  assert (sz / 16 <= sz) by (apply Z.div_le_upper_bound; lia).
  rewrite land_not_mask by lia.
  set (hk := sz / 16 - (sz / 16) mod 2 ^ 10).
  pose proof (Z.div_mod (sz / 16) (2 ^ 10) ltac:(lia)) as Hd.
  pose proof (Z.mod_pos_bound (sz / 16) (2 ^ 10) ltac:(lia)) as Hm.
  assert (hk mod 1024 = 0) as Hmod.
  { unfold hk. replace (sz / 16 - _) with (sz / 16 / 2 ^ 10 * 1024) by lia. apply Z_mod_mult. }
  assert (1024 <= hk <= sz / 16).
  { apply Z.mod_divide in Hmod as [q Hq]; [|lia]. lia. }
  destruct (Z.to_nat (hk / 32)) as [|k] eqn:Hk.
  { assert (1 <= hk / 32) by (apply Z.div_le_lower_bound; lia). lia. }
  cbn [repeat]. rewrite !wrap_small by lia.
  eexists. split; [reflexivity|]. split_and!; simpl; try done; try lia.
  - constructor; unfold data_lo, data_hi, blocks; simpl; try lia.
    + apply Forall_singleton. unfold node_in, data_lo, data_hi. simpl. lia.
    + intros a. unfold cov. simpl.
      replace (base + hk + (sz - hk)) with (base + sz) by lia. lia.
  - unfold node_count. simpl. rewrite repeat_length. lia.
Qed.

(** ** Reachable heaps *)

(** One call of the allocator's interface. *)
Inductive heap_step (hp : sbi_heap_control) : sbi_heap_control -> Prop :=
| step_malloc sz p hp' :
    0 <= sz -> sz + HEAP_ALLOC_ALIGN - 1 < 2 ^ 64 ->
    sbi_malloc_from hp sz = (p, hp') -> heap_step hp hp'
| step_aligned alignment sz p hp' :
    0 <= alignment < 2 ^ 64 -> 0 <= sz < 2 ^ 64 ->
    sbi_aligned_alloc_from hp alignment sz = (p, hp') -> heap_step hp hp'
| step_free ptr : 0 <= ptr -> heap_step hp (sbi_free_from hp ptr).

Inductive heap_reach (base sz : Z) : sbi_heap_control -> Prop :=
| reach_init rc hp : sbi_heap_init_new base sz = Some (rc, hp) -> heap_reach base sz hp
| reach_step hp hp' : heap_reach base sz hp -> heap_step hp hp' -> heap_reach base sz hp'.

Lemma heap_step_wf hp hp' :
  heap_wf hp -> heap_step hp hp' -> heap_wf hp' /\ node_count hp' = node_count hp.
Proof.
  intros Hwf [sz p hp1 Hs Hb Heq|al sz p hp1 Ha Hs Heq|ptr Hp].
  - unfold sbi_malloc_from in Heq. destruct (Z.eq_dec sz 0) as [->|].
    { injection Heq as _ <-. done. }
    pose proof (alloc_with_align_spec hp _ sz Hwf pow2_64 ltac:(lia) Hb) as H.
    rewrite Heq in H. destruct H as [[_ ->]|H]; [done|]. split; apply H.
  - pose proof (aligned_alloc_spec hp al sz Hwf Ha Hs) as H.
    rewrite Heq in H. destruct H as [[_ ->]|(al' & _ & _ & H)]; [done|]. split; apply H.
  - destruct (Z.eq_dec ptr 0) as [->|]; [done|].
    destruct (find_used ptr [] (used_space_list hp)) as [[[pre np] post]|] eqn:E.
    + destruct (free_spec hp ptr pre np post) as (? & _ & ? & _); done.
    + unfold sbi_free_from. rewrite E. by destruct (ptr =? 0).
Qed.

(** ** Properties *)

(** C23: every heap reachable from initialisation by any sequence of
    [sbi_malloc_from], [sbi_aligned_alloc_from] and [sbi_free_from] calls (with
    sizes that do not overflow the rounding) is well formed: its free and used
    blocks tile the data area, byte for byte, without overlap, and the pool of
    list nodes is neither leaked nor grown. *)
Theorem heap_reachable_wf base sz hp :
  0 < base -> 16 * 1024 <= sz -> base + sz < 2 ^ 64 ->
  heap_reach base sz hp ->
  heap_wf hp /\ Z.of_nat (node_count hp) = Z.of_nat (Z.to_nat
    (Z.land (sz / HEAP_HOUSEKEEPING_FACTOR) (not64 (HEAP_BASE_ALIGN - 1)) / sizeof_heap_node)).
Proof.
  intros Hb Hs Hhi. induction 1 as [rc hp Heq|hp hp' _ [IH1 IH2] Hst].
  - destruct (heap_init_new_spec base sz Hb Hs Hhi)
      as (hp1 & Heq1 & Hwf & _ & _ & _ & _ & _ & Hc).
    rewrite Heq in Heq1. injection Heq1 as -> ->. split; [done|].
    rewrite Hc. unfold sbi_heap_init_new in Heq.
    destruct (repeat _ _) eqn:Er; [done|]. by injection Heq as <-.
  - apply heap_step_wf in Hst as [? ->]; done.
Qed.

Definition demo_heap : sbi_heap_control :=
  match sbi_heap_init_new 4096 16384 with
  | Some (_, hp) => hp
  | None => mk_heap 0 0 0 0 [] [] []
  end.

Lemma demo_heap_reach : heap_reach 4096 16384 demo_heap.
Proof. apply (reach_init _ _ 0). reflexivity. Qed.

Lemma heap_reachable_wf_witness :
  let hp := (sbi_malloc_from (sbi_malloc_from demo_heap 100).2 1).2 in
  heap_wf (sbi_free_from hp 5120) /\
  used_space_list (sbi_free_from hp 5120) = [mk_node 5248 64].
Proof.
  intros hp. split; [|reflexivity].
  refine (proj1 (heap_reachable_wf 4096 16384 _ _ _ _ _)); [lia|lia|lia|].
  eapply reach_step; [|by apply step_free; lia].
  eapply reach_step; [|by eapply (step_malloc _ 1); [lia|unfold HEAP_ALLOC_ALIGN; lia|apply surjective_pairing]].
  eapply reach_step; [exact demo_heap_reach|].
  by eapply (step_malloc _ 100); [lia|unfold HEAP_ALLOC_ALIGN; lia|apply surjective_pairing].
Defined.

(** C29: on a well-formed heap, for a positive size that rounding up to 64 bytes does
    not take past [2^64] ([malloc_size_wraps] shows what happens otherwise), a
    successful [sbi_malloc_from] returns a non-[NULL], 64-byte aligned address of a new
    used block of at least the requested size; every byte of the block was free before
    the call, so it overlaps no other allocation; and the heap stays well formed.  On
    failure ([NULL]) the heap is unchanged. *)
Theorem malloc_sound hp sz :
  heap_wf hp -> 0 < sz -> sz + HEAP_ALLOC_ALIGN - 1 < 2 ^ 64 ->
  let '(p, hp') := sbi_malloc_from hp sz in
  (p = 0 /\ hp' = hp) \/
  (p <> 0 /\ p mod HEAP_ALLOC_ALIGN = 0 /\ heap_wf hp' /\
   exists n, used_space_list hp' = used_space_list hp ++ [n] /\ addr n = p /\ sz <= size n /\
   (forall a, p <= a < p + size n -> free_at hp a) /\
   (forall i n', used_space_list hp !! i = Some n' ->
      forall a, cov n a = 1 -> cov n' a = 0)).
Proof.
  intros Hwf Hs Hb. unfold sbi_malloc_from.
  pose proof (alloc_with_align_spec hp _ sz Hwf pow2_64 Hs Hb) as H.
  destruct (alloc_with_align hp HEAP_ALLOC_ALIGN sz) as [p hp'].
  destruct H as [?|[Hnn Hal Hus Hwf' _ _ Hfree _]]; [by left|right].
  destruct (rounded_spec _ sz pow2_64 Hs Hb) as (_ & Hr & _ & _).
  split_and!; [done..|]. eexists. split_and!; [done|done|simpl; lia|done|].
  intros i n' Hi a Ha. pose proof (cov_range n' a).
  destruct (Z.eq_dec (cov n' a) 0) as [|Hne]; [done|]. exfalso.
  eapply (used_disjoint hp' i (length (used_space_list hp)) n' _ a); [done|..|lia|exact Ha].
  - rewrite Hus. by apply lookup_app_l_Some.
  - rewrite Hus. by rewrite lookup_app_r, Nat.sub_diag by lia.
  - apply lookup_lt_Some in Hi. lia.
Qed.

Lemma demo_heap_wf : heap_wf demo_heap.
Proof.
  destruct (heap_init_new_spec 4096 16384) as (hp & Heq & Hwf & _); [lia|lia|lia|].
  unfold demo_heap. by rewrite Heq.
Qed.

Lemma malloc_sound_witness : sbi_malloc_from demo_heap 100 <> (0, demo_heap) /\
  exists n, used_space_list (sbi_malloc_from demo_heap 100).2 = [n] /\ 100 <= size n.
Proof.
  pose proof (malloc_sound demo_heap 100 demo_heap_wf) as H.
  unfold HEAP_ALLOC_ALIGN in H. specialize (H ltac:(lia) ltac:(lia)).
  destruct (sbi_malloc_from demo_heap 100) as [p hp'] eqn:E.
  vm_compute in E. injection E as <- <-.
  destruct H as [[H _]|(_ & _ & _ & n & Hu & _ & Hn & _)]; [discriminate H|].
  split; [discriminate|]. exists n. split; [exact Hu|exact Hn].
Defined.

(** Freeing a block right after allocating it undoes the allocation: the
    list of used blocks, the amount of free space and the set of free bytes
    are what they were before, and the heap is well formed. *)
Lemma malloc_free_roundtrip hp sz :
  heap_wf hp -> 0 < sz -> sz + HEAP_ALLOC_ALIGN - 1 < 2 ^ 64 ->
  let '(p, hp') := sbi_malloc_from hp sz in
  let hp'' := sbi_free_from hp' p in
  heap_wf hp'' /\ used_space_list hp'' = used_space_list hp /\
  sbi_heap_free_space_from hp'' = sbi_heap_free_space_from hp /\
  (forall a, free_at hp'' a <-> free_at hp a).
Proof.
  intros Hwf Hs Hb. unfold sbi_malloc_from.
  pose proof (alloc_with_align_spec hp _ sz Hwf pow2_64 Hs Hb) as H.
  destruct (alloc_with_align hp HEAP_ALLOC_ALIGN sz) as [p hp'].
  destruct H as [[-> ->]|Hok]; [done|].
  destruct (rounded_spec _ sz pow2_64 Hs Hb) as (_ & Hr & _ & _).
  pose proof (find_used_fresh hp hp' _ sz p Hwf Hok ltac:(lia)) as Hfind.
  pose proof Hok as [Hnn Hal Hus Hwf' _ Harea Hfree Hsp].
  destruct (free_spec hp' p _ _ _ Hwf' Hnn Hfind) as (Hwf2 & Hu2 & _ & _ & _ & Hc2 & Hs2).
  split_and!; [done|by rewrite Hu2, app_nil_r| |].
  - rewrite (proj1 (free_space_spec _ Hwf2)), (proj1 (free_space_spec _ Hwf)). rewrite Hs2, Hsp. simpl. lia.
  - intros a. unfold free_at. rewrite Hc2.
    assert (cover (free_space_list hp) a
            = cover (free_space_list hp') a + cov (mk_node p (rounded HEAP_ALLOC_ALIGN sz)) a) as ->;
      [|done].
    pose proof (hw_tile _ Hwf a) as T1. pose proof (hw_tile _ Hwf' a) as T2.
    destruct Harea as [E1 E2]. rewrite E1, E2, <- T1 in T2. unfold blocks in T2.
    rewrite Hus, !cover_app in T2. simpl in T2. lia.
Qed.

Lemma malloc_free_roundtrip_witness :
  sbi_heap_free_space_from (sbi_free_from (sbi_malloc_from demo_heap 100).2 5120) = 15360.
Proof.
  pose proof (malloc_free_roundtrip demo_heap 100 demo_heap_wf) as H.
  unfold HEAP_ALLOC_ALIGN in H. specialize (H ltac:(lia) ltac:(lia)).
  destruct (sbi_malloc_from demo_heap 100) as [p hp'] eqn:E.
  assert (p = 5120) as -> by (vm_compute in E; injection E; congruence).
  destruct H as (_ & _ & H & _). cbn [snd]. rewrite H. reflexivity.
Defined.

(** A request so large that [size += align - 1] wraps around is not
    refused.  On a heap whose first free block is 64-byte aligned, asking for
    more than [2^64 - 64] bytes returns a non-[NULL] pointer to a used block of
    size 0, and leaves the free space as it was: the bytes behind the returned
    pointer stay free and are handed out again. *)
Lemma malloc_size_wraps hp sz n fs fnode fn :
  heap_wf hp -> free_space_list hp = n :: fs -> free_node_list hp = fnode :: fn ->
  addr n mod HEAP_ALLOC_ALIGN = 0 -> 0 < size n -> 2 ^ 64 - 64 < sz < 2 ^ 64 ->
  sbi_malloc_from hp sz
  = (addr n, with_lists hp fn (n :: fs) (used_space_list hp ++ [mk_node (addr n) 0])).
Proof.
  intros Hwf Hfs Hfn Hmod Hn Hs. unfold sbi_malloc_from, alloc_with_align.
  destruct (Z.eqb_spec sz 0); [lia|].
  assert (sz ⊕ (HEAP_ALLOC_ALIGN - 1) = sz + 63 - 2 ^ 64) as ->.
  { unfold HEAP_ALLOC_ALIGN, wrap. symmetry. apply (Z.mod_unique _ _ 1); lia. }
  change (HEAP_ALLOC_ALIGN - 1) with (2 ^ 6 - 1). rewrite land_not_mask by lia.
  rewrite (Z.mod_small (sz + 63 - 2 ^ 64) (2 ^ 6)) by lia. rewrite Z.sub_diag.
  pose proof Hwf as [Hlo Hhi _ _ _ Hin _ _]. unfold blocks in Hin. rewrite Hfs in Hin.
  apply Forall_app in Hin as [Hin _]. apply Forall_cons in Hin as [(H1 & H2 & H3) _].
  destruct (ROUNDUP_spec HEAP_ALLOC_ALIGN (addr n) pow2_64) as (r & Hr & Hrm & _ & _ & Hpad); [lia|].
  assert (r = addr n) as ->.
  { unfold HEAP_ALLOC_ALIGN in *. apply Z.mod_divide in Hmod as [q Hq]; [|lia].
    apply Z.mod_divide in Hrm as [q' Hq']; lia. }
  rewrite Z.sub_diag in Hpad.
  rewrite Hfs. cbn [find_fit]. rewrite Hpad. change (u64 (0 + 0)) with 0.
  destruct (Z.leb_spec 0 (size n)); [|lia]. cbv iota zeta. rewrite Hpad.
  simpl negb. cbv iota. rewrite Hfn. destruct (Z.ltb_spec 0 (size n)); [|lia].
  rewrite Z.add_0_r, Z.sub_0_r, !wrap_small by lia. by destruct n.
Qed.

Lemma malloc_size_wraps_witness :
  (sbi_malloc_from demo_heap (2 ^ 64 - 1)).1 = 5120 /\
  (sbi_malloc_from (sbi_malloc_from demo_heap (2 ^ 64 - 1)).2 64).1 = 5120.
Proof.
  rewrite (malloc_size_wraps demo_heap (2 ^ 64 - 1) (mk_node 5120 15360) []
    (mk_node 0 0) (repeat (mk_node 0 0) 30) demo_heap_wf);
    [split; reflexivity|reflexivity|reflexivity|reflexivity|simpl; lia|lia].
Defined.

(** C12: [sbi_heap_used_space_from] subtracts the free space of the global heap
    whatever heap it is asked about: its result is the used space of that heap
    exactly when the two heaps have the same amount of free space. *)
Lemma used_space_reads_global global hp :
  heap_wf global -> heap_wf hp ->
  (sbi_heap_used_space_from global hp = sizes (used_space_list hp) <->
   sbi_heap_free_space_from global = sbi_heap_free_space_from hp).
Proof.
  intros Hg Hh. unfold sbi_heap_used_space_from.
  destruct (free_space_spec _ Hg) as (-> & Eg & Hg1 & Hg2 & Hg3).
  destruct (free_space_spec _ Hh) as (-> & Eh & Hh1 & Hh2 & Hh3).
  rewrite wrap_sub_l. rewrite <- Eh. unfold wrap.
  set (uh := sizes (used_space_list hp)) in *. set (fh := sizes (free_space_list hp)) in *.
  set (fg := sizes (free_space_list global)) in *.
  split.
  - intros H. pose proof (Z.div_mod (fh + uh - fg) (2 ^ 64) ltac:(lia)). lia.
  - intros ->. rewrite Z.mod_small by lia. lia.
Qed.

Lemma used_space_reads_global_witness :
  sbi_heap_used_space_from demo_heap (sbi_malloc_from demo_heap 64).2 <> 64 /\
  sbi_heap_used_space_from demo_heap demo_heap = 0.
Proof.
  split; [vm_compute; discriminate|].
  apply (proj2 (used_space_reads_global demo_heap demo_heap demo_heap_wf demo_heap_wf)).
  reflexivity.
Defined.

(** The sanity checks of [sbi_heap_init] accept heaps that are too small
    for a single list node: with a heap size below 16 KiB that passes every
    check, the housekeeping area is empty and initialisation takes the first
    entry of an empty list. *)
Lemma heap_init_small_heap s :
  0 < fw_heap_size s < 16 * 1024 -> fw_heap_size s mod 1024 = 0 ->
  fw_rw_offset s <= fw_heap_offset s -> 0 <= fw_heap_offset s ->
  fw_heap_offset s mod 1024 = 0 -> fw_heap_offset s + fw_heap_size s <= fw_size s < 2 ^ 64 ->
  sbi_heap_init s = None.
Proof.
  intros Hs Hsm Hrw Ho Hom Hsz. unfold sbi_heap_init.
  change (HEAP_BASE_ALIGN - 1) with (Z.ones 10). rewrite !Z.land_ones by lia.
  change (2 ^ 10) with 1024. rewrite Hsm, Hom, wrap_small by lia.
  destruct (Z.eqb_spec (fw_heap_size s) 0); [lia|].
  destruct (Z.ltb_spec (fw_heap_offset s) (fw_rw_offset s)); [lia|].
  destruct (Z.ltb_spec (fw_size s) (fw_heap_offset s + fw_heap_size s)); [lia|].
  simpl. unfold sbi_heap_init_new.
  change (HEAP_BASE_ALIGN - 1) with (2 ^ 10 - 1). unfold HEAP_HOUSEKEEPING_FACTOR.
  assert (0 <= fw_heap_size s / 16 < 1024) by (split; [apply Z.div_pos|apply Z.div_lt_upper_bound]; lia).
  rewrite land_not_mask by lia. rewrite Z.mod_small by lia. rewrite Z.sub_diag. reflexivity.
Qed.

Lemma heap_init_small_heap_witness :
  sbi_heap_init (mk_layout (2 ^ 31) (2 ^ 20) 0 1024 2048) = None.
Proof. apply heap_init_small_heap; simpl; [lia|reflexivity|lia|lia|reflexivity|lia]. Defined.
