(* ===== verification/SbiBitops.v ===== *)
(** * [sbi_bitops.h], [sbi_bitops.c], [sbi_bitmap.h], [sbi_bitmap.c]

    Word-level bit searches and bitmaps over arrays of [unsigned long].  A
    bitmap is a list of 64-bit words.  The search routines return an [option]:
    [None] is a read past the end of the array, so the theorems that a search
    returns [Some] also show that it stays inside the array. *)

From S2P Require Import Prelude.

(** ** Macros *)

Definition BIT_MASK (nr : Z) : Z := u64 (Z.shiftl 1 (nr mod BITS_PER_LONG)).
Definition BIT_WORD (bit : Z) : Z := bit / BITS_PER_LONG.
Definition BIT_WORD_OFFSET (bit : Z) : Z := Z.land bit (BITS_PER_LONG - 1).
Definition BITS_TO_LONGS (nbits : Z) : Z := (nbits + BITS_PER_LONG - 1) / BITS_PER_LONG.
Definition GENMASK (h l : Z) : Z :=
  Z.land (u64 (ULONG_MAX - u64 (Z.shiftl 1 l) + 1))
         (Z.shiftr ULONG_MAX (BITS_PER_LONG - 1 - h)).
Definition EXTRACT_FIELD (val which : Z) : Z :=
  Z.land val which / Z.land which (not64 (u64 (which - 1))).
Definition INSERT_FIELD (val which fieldval : Z) : Z :=
  Z.lor (Z.land val (not64 which))
        (u64 (fieldval * Z.land which (not64 (u64 (which - 1))))).

(** ** Searches inside a word *)

(** One halving step of [sbi_ffs]: when the low [k] bits are clear, count them
    and shift them out. *)
Definition ffs_step (k : Z) (st : Z * Z) : Z * Z :=
  let '(num, word) := st in
  if Z.land word (2 ^ k - 1) =? 0 then (num + k, Z.shiftr word k) else (num, word).

Definition sbi_ffs (word : Z) : Z :=
  let '(num, word) :=
    ffs_step 2 (ffs_step 4 (ffs_step 8 (ffs_step 16 (ffs_step 32 (0, word))))) in
  if Z.land word 1 =? 0 then num + 1 else num.

Definition sbi_ffz (x : Z) : Z := sbi_ffs (not64 x).

(** One halving step of [sbi_fls]: the top [k] bits. *)
Definition fls_step (k : Z) (st : Z * Z) : Z * Z :=
  let '(num, word) := st in
  if Z.land word (u64 (Z.shiftl ULONG_MAX (BITS_PER_LONG - k))) =? 0
  then (num - k, u64 (Z.shiftl word k)) else (num, word).

Definition sbi_fls (word : Z) : Z :=
  let '(num, word) :=
    fls_step 2 (fls_step 4 (fls_step 8 (fls_step 16 (fls_step 32 (BITS_PER_LONG - 1, word))))) in
  if Z.land word (u64 (Z.shiftl ULONG_MAX (BITS_PER_LONG - 1))) =? 0 then num - 1 else num.

Fixpoint popcount_loop (fuel : nat) (word count : Z) : option Z :=
  if word =? 0 then Some count
  else match fuel with
       | O => None
       | S fuel' => popcount_loop fuel' (Z.land word (word - 1)) (count + 1)
       end.

(** 64 iterations suffice: each one clears a bit. *)
Definition sbi_popcount (word : Z) : option Z := popcount_loop 64 word 0.

(** ** Searches in an array of words *)

Definition rd (a : list Z) (i : Z) : option Z :=
  if i <? 0 then None else a !! Z.to_nat i.

(** The tail every forward search shares: full words from index [p], then the
    partial last word.  [found] and [mask] are the search's test. *)
Definition found_first_bit (tmp result size : Z) : Z :=
  let tmp := Z.land tmp (Z.shiftr ULONG_MAX (BITS_PER_LONG - size)) in
  if tmp =? 0 then result + size else result + sbi_ffs tmp.

Fixpoint next_bit_loop (fuel : nat) (a : list Z) (p result size : Z) : option Z :=
  match fuel with
  | O => None
  | S fuel' =>
      if negb (Z.land size (not64 (BITS_PER_LONG - 1)) =? 0) then
        tmp ← rd a p;
        if negb (tmp =? 0) then Some (result + sbi_ffs tmp)
        else next_bit_loop fuel' a (p + 1) (u64 (result + BITS_PER_LONG))
               (u64 (size - BITS_PER_LONG))
      else if size =? 0 then Some result
      else tmp ← rd a p; Some (found_first_bit tmp result size)
  end.

Definition loop_fuel (size : Z) : nat := S (Z.to_nat (size / BITS_PER_LONG)).

Definition find_first_bit (a : list Z) (size : Z) : option Z :=
  next_bit_loop (loop_fuel size) a 0 0 size.

Definition find_next_bit (a : list Z) (size offset : Z) : option Z :=
  let p := offset / BITS_PER_LONG in
  let result := Z.land offset (not64 (BITS_PER_LONG - 1)) in
  if size <=? offset then Some size
  else
    let size := u64 (size - result) in
    let offset := offset mod BITS_PER_LONG in
    if negb (offset =? 0) then
      tmp ← rd a p;
      let tmp := Z.land tmp (u64 (Z.shiftl ULONG_MAX offset)) in
      if size <? BITS_PER_LONG then Some (found_first_bit tmp result size)
      else if negb (tmp =? 0) then Some (result + sbi_ffs tmp)
      else next_bit_loop (loop_fuel size) a (p + 1) (u64 (result + BITS_PER_LONG))
             (u64 (size - BITS_PER_LONG))
    else next_bit_loop (loop_fuel size) a p result size.

Definition found_first_zero (tmp result size : Z) : Z :=
  let tmp := Z.lor tmp (u64 (Z.shiftl ULONG_MAX size)) in
  if tmp =? ULONG_MAX then result + size else result + sbi_ffz tmp.

Fixpoint next_zero_loop (fuel : nat) (a : list Z) (p result size : Z) : option Z :=
  match fuel with
  | O => None
  | S fuel' =>
      if negb (Z.land size (not64 (BITS_PER_LONG - 1)) =? 0) then
        tmp ← rd a p;
        if negb (not64 tmp =? 0) then Some (result + sbi_ffz tmp)
        else next_zero_loop fuel' a (p + 1) (u64 (result + BITS_PER_LONG))
               (u64 (size - BITS_PER_LONG))
      else if size =? 0 then Some result
      else tmp ← rd a p; Some (found_first_zero tmp result size)
  end.

Definition find_first_zero_bit (a : list Z) (size : Z) : option Z :=
  next_zero_loop (loop_fuel size) a 0 0 size.

Definition find_next_zero_bit (a : list Z) (size offset : Z) : option Z :=
  let p := offset / BITS_PER_LONG in
  let result := Z.land offset (not64 (BITS_PER_LONG - 1)) in
  if size <=? offset then Some size
  else
    let size := u64 (size - result) in
    let offset := offset mod BITS_PER_LONG in
    if negb (offset =? 0) then
      tmp ← rd a p;
      let tmp := Z.lor tmp (Z.shiftr ULONG_MAX (BITS_PER_LONG - offset)) in
      if size <? BITS_PER_LONG then Some (found_first_zero tmp result size)
      else if negb (not64 tmp =? 0) then Some (result + sbi_ffz tmp)
      else next_zero_loop (loop_fuel size) a (p + 1) (u64 (result + BITS_PER_LONG))
             (u64 (size - BITS_PER_LONG))
    else next_zero_loop (loop_fuel size) a p result size.

(** [while (words) ... addr[--words] ...] *)
Fixpoint last_bit_loop (a : list Z) (size : Z) (words : nat) : option Z :=
  match words with
  | O => Some size
  | S words' =>
      tmp ← rd a (Z.of_nat words');
      if negb (tmp =? 0) then Some (Z.of_nat words' * BITS_PER_LONG + sbi_fls tmp)
      else last_bit_loop a size words'
  end.

Definition find_last_bit (a : list Z) (size : Z) : option Z :=
  let words := size / BITS_PER_LONG in
  let part := Z.land size (BITS_PER_LONG - 1) in
  if negb (part =? 0) then
    tmp ← rd a words;
    let tmp := Z.land tmp (Z.shiftr ULONG_MAX (BITS_PER_LONG - part)) in
    if negb (tmp =? 0) then Some (words * BITS_PER_LONG + sbi_fls tmp)
    else last_bit_loop a size (Z.to_nat words)
  else last_bit_loop a size (Z.to_nat words).

(** ** Single bits.  A write outside the array is undefined in C. *)

Definition upd_word (a : list Z) (i : Z) (f : Z -> Z) : list Z :=
  match rd a i with None => a | Some w => <[Z.to_nat i := f w]> a end.

Definition set_bit (nr : Z) (a : list Z) : list Z :=
  upd_word a (BIT_WORD nr) (fun w => Z.lor w (BIT_MASK nr)).

Definition clear_bit (nr : Z) (a : list Z) : list Z :=
  upd_word a (BIT_WORD nr) (fun w => Z.land w (not64 (BIT_MASK nr))).

Definition change_bit (nr : Z) (a : list Z) : list Z :=
  upd_word a (BIT_WORD nr) (fun w => Z.lxor w (BIT_MASK nr)).

Definition test_and_set_bit (nr : Z) (a : list Z) : Z * list Z :=
  let old := default 0 (rd a (BIT_WORD nr)) in
  (Z.b2z (negb (Z.land old (BIT_MASK nr) =? 0)),
   upd_word a (BIT_WORD nr) (fun _ => Z.lor old (BIT_MASK nr))).

Definition test_and_clear_bit (nr : Z) (a : list Z) : Z * list Z :=
  let old := default 0 (rd a (BIT_WORD nr)) in
  (Z.b2z (negb (Z.land old (BIT_MASK nr) =? 0)),
   upd_word a (BIT_WORD nr) (fun _ => Z.land old (not64 (BIT_MASK nr)))).

Definition test_bit (nr : Z) (a : list Z) : Z :=
  Z.land 1 (Z.shiftr (default 0 (rd a (BIT_WORD nr))) (Z.land nr (BITS_PER_LONG - 1))).

(** ** Bitmaps.  The single-word shortcut [small_const_nbits] computes the same
    value as the loop and depends on the compiler, so the loop is modelled. *)

(** [for (k = 0; k < n; k++) dst = body(k, dst)] *)
Fixpoint for_up {A} (body : Z -> A -> A) (k : Z) (n : nat) (dst : A) : A :=
  match n with O => dst | S n' => for_up body (k + 1) n' (body k dst) end.

Definition bitmap_set (bmap : list Z) (start len : Z) : list Z :=
  for_up (fun bit b => upd_word b (BIT_WORD bit)
    (fun w => Z.lor w (u64 (Z.shiftl 1 (BIT_WORD_OFFSET bit))))) start (Z.to_nat len) bmap.

Definition bitmap_clear (bmap : list Z) (start len : Z) : list Z :=
  for_up (fun bit b => upd_word b (BIT_WORD bit)
    (fun w => Z.land w (not64 (u64 (Z.shiftl 1 (BIT_WORD_OFFSET bit)))))) start (Z.to_nat len) bmap.

Definition bitmap_zero (dst : list Z) (nbits : Z) : list Z :=
  for_up (fun i b => upd_word b i (fun _ => 0)) 0 (Z.to_nat (BITS_TO_LONGS nbits)) dst.

Definition bitmap_test (bmap : list Z) (bit : Z) : Z := test_bit bit bmap.

Definition bitmap_zero_except (dst : list Z) (exception nbits : Z) : list Z :=
  let dst := bitmap_zero dst nbits in
  if exception <? nbits then set_bit exception dst else dst.

Definition BITMAP_LAST_WORD_MASK (nbits : Z) : Z :=
  if negb (nbits mod BITS_PER_LONG =? 0)
  then u64 (Z.shiftl 1 (nbits mod BITS_PER_LONG)) - 1 else ULONG_MAX.

Definition bitmap_fill (dst : list Z) (nbits : Z) : list Z :=
  let nlongs := BITS_TO_LONGS nbits in
  let dst := for_up (fun i b => upd_word b i (fun _ => ULONG_MAX)) 0 (Z.to_nat (nlongs - 1)) dst in
  upd_word dst (nlongs - 1) (fun _ => BITMAP_LAST_WORD_MASK nbits).

Definition bitmap_copy (dst src : list Z) (nbits : Z) : list Z :=
  for_up (fun i b => upd_word b i (fun _ => default 0 (rd src i))) 0
    (Z.to_nat (BITS_TO_LONGS nbits)) dst.

Definition bitmap_op (op : Z -> Z -> Z) (dst b1 b2 : list Z) (bits : Z) : list Z :=
  for_up (fun k b => upd_word b k (fun _ => op (default 0 (rd b1 k)) (default 0 (rd b2 k)))) 0
    (Z.to_nat (BITS_TO_LONGS bits)) dst.

Definition bitmap_and := bitmap_op Z.land.
Definition bitmap_or := bitmap_op Z.lor.
Definition bitmap_xor := bitmap_op Z.lxor.

(** ** Specifications *)

Definition word_ok (w : Z) : Prop := 0 <= w < 2 ^ 64.
Definition words_ok (a : list Z) : Prop := Forall word_ok a.

(** Bit [i] of a bitmap. *)
Definition bit_at (a : list Z) (i : Z) : bool :=
  match rd a (i / 64) with None => false | Some w => Z.testbit w (i mod 64) end.

(** [n] is the least set bit of [w]. *)
Definition least_bit (w n : Z) : Prop :=
  0 <= n /\ Z.testbit w n = true /\ forall i, 0 <= i < n -> Z.testbit w i = false.

(** The first index of [[lo, hi)] with [p], or [hi]. *)
Definition first_in (p : Z -> bool) (lo hi k : Z) : Prop :=
  lo <= k <= hi /\ (forall j, lo <= j < k -> p j = false) /\ (k < hi -> p k = true).

(** The number of set bits among the low [n]. *)
Fixpoint ones_below (w : Z) (n : nat) : Z :=
  match n with O => 0 | S n' => Z.b2z (Z.testbit w (Z.of_nat n')) + ones_below w n' end.

(** ** Lemmas on single words *)

Lemma low_bits_zero w k :
  0 <= k -> (Z.land w (2 ^ k - 1) =? 0) = true <-> forall i, 0 <= i < k -> Z.testbit w i = false.
Proof.
  intros Hk. rewrite Z.eqb_eq.
  replace (2 ^ k - 1) with (Z.ones k) by (rewrite Z.ones_equiv; lia).
  split.
  - intros H i Hi. assert (Z.testbit (Z.land w (Z.ones k)) i = false) as Hb
      by (by rewrite H, Z.bits_0).
    rewrite Z.land_spec, ones_bits in Hb by lia.
    destruct (Z.leb_spec 0 i), (Z.ltb_spec i k); try lia. by rewrite andb_true_r in Hb.
  - intros H. apply Z.bits_inj_iff'; intros i Hi. rewrite Z.land_spec, ones_bits, Z.bits_0 by lia.
    destruct (Z.ltb_spec i k); [by rewrite H|by rewrite andb_false_r, andb_false_r].
Qed.

Lemma least_bit_exists w : 0 < w -> exists n, least_bit w n.
Proof.
  intros Hw. assert (forall k : nat, forall w, 0 < w < 2 ^ Z.of_nat k -> exists n, least_bit w n) as H.
  { clear. induction k as [|k IH]; intros w Hw; [simpl in Hw; lia|].
    destruct (Z.testbit w 0) eqn:E; [exists 0; split_and!; try done; lia|].
    destruct (IH (Z.shiftr w 1)) as (n & Hn & Ht & Hl).
    { rewrite Z.shiftr_div_pow2 by lia. rewrite Nat2Z.inj_succ, Z.pow_succ_r in Hw by lia.
      split; [|apply Z.div_lt_upper_bound; lia].
      assert (w <> 1) by (by intros ->). apply Z.div_str_pos. lia. }
    exists (n + 1). split_and!; [lia| |].
    - by rewrite Z.shiftr_spec in Ht.
    - intros i Hi. destruct (Z.eq_dec i 0) as [->|]; [done|].
      rewrite <- (Hl (i - 1)) by lia. rewrite Z.shiftr_spec by lia. f_equal. lia. }
  apply (H (Z.to_nat (Z.log2 w + 1))). split; [done|].
  pose proof (Z.log2_nonneg w). rewrite Z2Nat.id by lia. rewrite Z.add_1_r.
  by apply Z.log2_spec.
Qed.

Lemma least_bit_unique w n n' : least_bit w n -> least_bit w n' -> n = n'.
Proof.
  intros (H1 & H2 & H3) (H1' & H2' & H3').
  destruct (Z.lt_trichotomy n n') as [|[|]]; [|done|].
  - rewrite H3' in H2; [done|lia].
  - rewrite H3 in H2'; [done|lia].
Qed.

Lemma least_bit_bound w n : word_ok w -> least_bit w n -> 0 <= n < 64.
Proof.
  intros Hw (H1 & H2 & _). split; [done|].
  destruct (Z.ltb_spec n 64); [done|]. by rewrite (bits_above 64) in H2.
Qed.

(** The halving invariant: [tot] is the answer, less than [b] of it left. *)
Definition ffs_inv (b tot : Z) (st : Z * Z) : Prop :=
  exists n, least_bit st.2 n /\ n < b /\ st.1 + n = tot.

Lemma ffs_step_inv k tot st : 0 < k -> ffs_inv (2 * k) tot st -> ffs_inv k tot (ffs_step k st).
Proof.
  destruct st as [num w]. intros Hk (n & (Hn & Ht & Hl) & Hb & Hs). simpl in *. unfold ffs_step.
  destruct (Z.land w (2 ^ k - 1) =? 0) eqn:E.
  - pose proof (proj1 (low_bits_zero w k ltac:(lia)) E) as Hz.
    assert (k <= n). { destruct (Z.leb_spec k n); [done|]. rewrite Hz in Ht; [done|lia]. }
    exists (n - k). simpl. split_and!; try lia.
    split_and!; [lia| |].
    + rewrite Z.shiftr_spec by lia. by replace (n - k + k) with n by lia.
    + intros i Hi. rewrite Z.shiftr_spec by lia. apply Hl. lia.
  - exists n. split_and!; try done.
    destruct (Z.ltb_spec n k); [done|].
    assert (Z.land w (2 ^ k - 1) =? 0 = true); [|congruence].
    apply low_bits_zero; [lia|]. intros i Hi. apply Hl. lia.
Qed.

Lemma ffs_spec w n : word_ok w -> least_bit w n -> sbi_ffs w = n.
Proof.
  intros Hw Hn. pose proof (least_bit_bound _ _ Hw Hn) as Hb. unfold sbi_ffs.
  assert (ffs_inv 2 n (ffs_step 2 (ffs_step 4 (ffs_step 8 (ffs_step 16 (ffs_step 32 (0, w)))))))
    as (r & (Hr & Ht & Hl) & Hr2 & Hs).
  { do 5 (apply ffs_step_inv; [lia|]). exists n. simpl. by split_and!; try lia. }
  destruct (ffs_step 2 _) as [num w']. simpl in *.
  pose proof (low_bits_zero w' 1 ltac:(lia)) as Hz. change (2 ^ 1 - 1) with 1 in Hz.
  destruct (Z.land w' 1 =? 0).
  - assert (r <> 0) by (intros ->; rewrite (proj1 Hz eq_refl) in Ht; [done|lia]). lia.
  - assert (r = 0); [|lia]. destruct (Z.eq_dec r 0); [done|].
    assert (false = true); [|done]. apply Hz. intros i Hi. apply Hl. lia.
Qed.

(** [n] is the greatest set bit of the 64-bit word [w]. *)
Definition greatest_bit (w n : Z) : Prop :=
  0 <= n < 64 /\ Z.testbit w n = true /\ forall i, n < i < 64 -> Z.testbit w i = false.

Definition fls_inv (b tot : Z) (st : Z * Z) : Prop :=
  exists n, greatest_bit st.2 n /\ 63 - n < b /\ st.1 - (63 - n) = tot.

Lemma high_bits_zero w k :
  0 <= k <= 64 ->
  (Z.land w (u64 (Z.shiftl ULONG_MAX (BITS_PER_LONG - k))) =? 0) = true
  <-> forall i, 64 - k <= i < 64 -> Z.testbit w i = false.
Proof.
  intros Hk. rewrite Z.eqb_eq. change ULONG_MAX with (Z.ones 64). unfold BITS_PER_LONG.
  split.
  - intros H i Hi.
    assert (Z.testbit (Z.land w (u64 (Z.shiftl (Z.ones 64) (64 - k)))) i = false) as Hb
      by (by rewrite H, Z.bits_0).
    autorewrite with zbits in Hb. zcases_in Hb; try lia. by rewrite !andb_true_r in Hb.
  - intros H. zbits_eq i. rewrite Z.bits_0.
    destruct (Z.ltb_spec i 64), (Z.leb_spec (64 - k) i);
      rewrite ?andb_false_r; try done. by rewrite H.
Qed.

Lemma fls_step_inv k tot st :
  0 < k <= 32 -> fls_inv (2 * k) tot st -> fls_inv k tot (fls_step k st).
Proof.
  destruct st as [num w]. intros Hk (n & (Hn & Ht & Hl) & Hb & Hs). simpl in *. unfold fls_step.
  destruct (Z.land w _ =? 0) eqn:E.
  - pose proof (proj1 (high_bits_zero w k ltac:(lia)) E) as Hz.
    assert (n < 64 - k).
    { destruct (Z.ltb_spec n (64 - k)); [done|]. rewrite Hz in Ht; [done|lia]. }
    exists (n + k). simpl. split_and!; try lia.
    split_and!; try lia.
    + autorewrite with zbits. zcases; try lia. by replace (n + k - k) with n by lia.
    + intros i Hi. autorewrite with zbits. zcases; try lia. simpl. apply Hl. lia.
  - exists n. split_and!; try done.
    destruct (Z.ltb_spec (63 - n) k); [done|].
    match type of E with ?x = false => assert (x = true); [|congruence] end.
    apply high_bits_zero; [lia|]. intros i Hi. apply Hl. lia.
Qed.

Lemma fls_spec w n : greatest_bit w n -> sbi_fls w = n.
Proof.
  intros Hn. pose proof Hn as (Hb & _). unfold sbi_fls.
  assert (fls_inv 2 n (fls_step 2 (fls_step 4 (fls_step 8 (fls_step 16
    (fls_step 32 (BITS_PER_LONG - 1, w))))))) as (r & (Hr & Ht & Hl) & Hr2 & Hs).
  { do 5 (apply fls_step_inv; [lia|]). exists n. unfold BITS_PER_LONG. simpl.
    split_and!; try done; lia. }
  destruct (fls_step 2 _) as [num w']. simpl in *.
  pose proof (high_bits_zero w' 1 ltac:(lia)) as Hz.
  destruct (Z.land w' _ =? 0).
  - assert (r <> 63) by (intros ->; rewrite (proj1 Hz eq_refl) in Ht; [done|lia]). lia.
  - assert (r = 63); [|lia]. destruct (Z.eq_dec r 63); [done|].
    assert (false = true); [|done]. apply Hz. intros i Hi. apply Hl. lia.
Qed.

(** ** Lemmas on searches *)

Lemma size_full size :
  word_ok size -> negb (Z.land size (not64 (BITS_PER_LONG - 1)) =? 0) = (64 <=? size).
Proof.
  intros Hs. unfold word_ok in Hs. change (BITS_PER_LONG - 1) with (2 ^ 6 - 1). rewrite land_not_mask by (done || lia).
  pose proof (Z.div_mod size (2 ^ 6) ltac:(lia)) as Hd.
  pose proof (Z.mod_pos_bound size (2 ^ 6) ltac:(lia)) as Hm.
  destruct (Z.leb_spec 64 size), (Z.eqb_spec (size - size mod 2 ^ 6) 0); try done; lia.
Qed.

Lemma rd_Some (a : list Z) i : 0 <= i < Z.of_nat (length a) -> exists w, rd a i = Some w.
Proof.
  intros Hi. unfold rd. destruct (Z.ltb_spec i 0); [lia|]. apply lookup_lt_is_Some. lia.
Qed.

Lemma rd_ok a i w : words_ok a -> rd a i = Some w -> word_ok w.
Proof.
  intros Ha. unfold rd. destruct (i <? 0); [done|]. intros Hi.
  by eapply Forall_lookup_1 in Ha.
Qed.

Lemma bit_at_word a p w i :
  rd a p = Some w -> 64 * p <= i < 64 * p + 64 -> bit_at a i = Z.testbit w (i - 64 * p).
Proof.
  intros Hp Hi. unfold bit_at.
  assert (i / 64 = p) as -> by (symmetry; apply (Z.div_unique _ _ _ (i - 64 * p)); lia).
  rewrite Hp. f_equal. symmetry. apply (Z.mod_unique _ _ p); lia.
Qed.

(** A non-zero word answers the search at its first set bit. *)
Lemma word_hit a p w lo hi :
  words_ok a -> rd a p = Some w ->
  forall w', (forall i, 0 <= i < 64 -> Z.testbit w' i = (lo <=? 64 * p + i) && (64 * p + i <? hi) && Z.testbit w i) ->
  word_ok w' -> w' <> 0 -> 64 * p <= lo ->
  first_in (bit_at a) lo hi (64 * p + sbi_ffs w').
Proof.
  intros Ha Hw w' Hb Hok Hne Hlo.
  destruct (least_bit_exists w') as (n & Hn); [unfold word_ok in Hok; lia|].
  rewrite (ffs_spec w' n Hok Hn). pose proof (least_bit_bound _ _ Hok Hn) as Hbn.
  destruct Hn as (_ & Ht & Hl). rewrite Hb in Ht by lia. prop_bool.
  split_and!; [lia|lia| |].
  - intros j Hj. rewrite (bit_at_word a p w) by (done || lia).
    specialize (Hl (j - 64 * p) ltac:(lia)). rewrite Hb in Hl by lia.
    destruct (Z.leb_spec lo (64 * p + (j - 64 * p))); [|lia].
    destruct (Z.ltb_spec (64 * p + (j - 64 * p)) hi); [done|lia].
  - intros _. rewrite (bit_at_word a p w) by (done || lia).
    by replace (64 * p + n - 64 * p) with n by lia.
Qed.

(** A word with no bit in the window. *)
Lemma word_miss a p w lo hi :
  rd a p = Some w ->
  (forall i, 0 <= i < 64 -> (lo <=? 64 * p + i) && (64 * p + i <? hi) && Z.testbit w i = false) ->
  forall j, lo <= j < hi -> 64 * p <= j < 64 * p + 64 -> bit_at a j = false.
Proof.
  intros Hw Hb j Hj Hp. rewrite (bit_at_word a p w) by done.
  specialize (Hb (j - 64 * p) ltac:(lia)).
  destruct (Z.leb_spec lo (64 * p + (j - 64 * p))); [|lia].
  destruct (Z.ltb_spec (64 * p + (j - 64 * p)) hi); [done|lia].
Qed.

(** Extend a search that found nothing in [[lo, mid)]. *)
Lemma first_in_skip p lo mid hi k :
  lo <= mid -> (forall j, lo <= j < mid -> p j = false) -> first_in p mid hi k -> first_in p lo hi k.
Proof.
  intros Hm Hlo (Hk & Hb & Hh). split_and!; [lia|lia| |done].
  intros j Hj. destruct (Z.ltb_spec j mid); [apply Hlo|apply Hb]; lia.
Qed.

(** The partial last word: [size < 64] bits of word [p] from [64 * p] on. *)
Lemma found_first_bit_spec a p w w' size lo :
  words_ok a -> rd a p = Some w -> 0 < size < 64 -> 64 * p <= lo ->
  (forall i, 0 <= i < 64 -> Z.testbit w' i = (lo <=? 64 * p + i) && Z.testbit w i) ->
  word_ok w' -> lo <= 64 * p + size ->
  first_in (bit_at a) lo (64 * p + size) (found_first_bit w' (64 * p) size).
Proof.
  intros Ha Hw Hs Hlo Hb Hok Hle. unfold found_first_bit, BITS_PER_LONG.
  change ULONG_MAX with (Z.ones 64). set (t := Z.land w' (Z.shiftr (Z.ones 64) (64 - size))).
  assert (forall i, 0 <= i < 64 -> Z.testbit t i
    = (lo <=? 64 * p + i) && (64 * p + i <? 64 * p + size) && Z.testbit w i) as Ht.
  { intros i Hi. unfold t. autorewrite with zbits. rewrite Hb by lia.
    zcases; try lia; rewrite ?andb_true_r, ?andb_false_r; done. }
  assert (word_ok t) as Htok.
  { unfold t. split; [apply Z.land_nonneg; unfold word_ok in Hok; lia|].
    destruct (Z.ltb_spec t (2 ^ 64)); [done|]. exfalso.
    pose proof (Z.log2_le_pow2 t 64 ltac:(lia)) as Hlog.
    assert (Z.testbit t (Z.log2 t) = true) as Hbt by (apply Z.bit_log2; lia).
    unfold t in Hbt at 1. rewrite Z.land_spec, (bits_above 64 w') in Hbt; [done|done|lia]. }
  destruct (Z.eqb_spec t 0) as [Hz|Hnz].
  - split_and!; [lia|lia| |lia]. intros j Hj.
    eapply (word_miss a p w lo (64 * p + size)); [done| |lia|lia].
    intros i Hi. rewrite <- Ht by done. by rewrite Hz, Z.bits_0.
  - by eapply word_hit.
Qed.

Lemma next_bit_loop_spec fuel a p size :
  words_ok a -> 0 <= p -> 0 <= size -> 64 * p + size < 2 ^ 64 ->
  64 * p + size <= 64 * Z.of_nat (length a) -> size / 64 < Z.of_nat fuel ->
  exists k, next_bit_loop fuel a p (64 * p) size = Some k /\
  first_in (bit_at a) (64 * p) (64 * p + size) k.
Proof.
  intros Ha. revert p size. induction fuel as [|fuel IH]; intros p size Hp Hs H64 Hlen Hf.
  { pose proof (Z.div_pos size 64). lia. }
  cbn [next_bit_loop]. rewrite size_full by (unfold word_ok; lia).
  destruct (Z.leb_spec 64 size) as [Hge|Hlt].
  - destruct (rd_Some a p ltac:(lia)) as (w & Hw). rewrite Hw. simpl mbind.
    pose proof (rd_ok _ _ _ Ha Hw) as Hwok.
    destruct (Z.eqb_spec w 0) as [->|Hne]; simpl negb; cbv iota.
    + unfold BITS_PER_LONG. rewrite !wrap_small by lia.
      destruct (IH (p + 1) (size - 64)) as (k & Hk & Hfi); try lia.
      { replace (size - 64) with (size + (-1) * 64) by lia. rewrite Z.div_add by lia. lia. }
      exists k. replace (64 * p + 64) with (64 * (p + 1)) by lia. split; [done|].
      replace (64 * (p + 1) + (size - 64)) with (64 * p + size) in Hfi by lia.
      eapply first_in_skip, Hfi; [lia|]. intros j Hj.
      rewrite (bit_at_word a p 0) by (done || lia). apply Z.bits_0.
    + eexists. split; [done|]. apply (word_hit a p w); try done; try lia.
      intros i Hi. destruct (Z.leb_spec (64 * p) (64 * p + i)); [|lia].
      destruct (Z.ltb_spec (64 * p + i) (64 * p + size)); [done|lia].
  - destruct (Z.eqb_spec size 0) as [->|Hne].
    { eexists. split; [done|]. split_and!; lia. }
    destruct (rd_Some a p ltac:(lia)) as (w & Hw). rewrite Hw. simpl mbind.
    eexists. split; [done|]. apply (found_first_bit_spec a p w); try done; try lia.
    + intros i Hi. by destruct (Z.leb_spec (64 * p) (64 * p + i)); [|lia].
    + by eapply rd_ok.
Qed.

Lemma land_ok x y : word_ok x -> 0 <= y -> word_ok (Z.land x y).
Proof.
  intros Hx Hy. unfold word_ok in *. split; [apply Z.land_nonneg; lia|].
  destruct (Z.ltb_spec (Z.land x y) (2 ^ 64)) as [|Hge]; [done|]. exfalso.
  pose proof (Z.log2_le_pow2 (Z.land x y) 64 ltac:(lia)) as Hlog.
  assert (Z.testbit (Z.land x y) (Z.log2 (Z.land x y)) = true) as Hb by (apply Z.bit_log2; lia).
  rewrite Z.land_spec, (bits_above 64 x) in Hb by lia. done.
Qed.

(** [find_next_bit]: the first set bit at or after [offset], no read outside. *)
Lemma find_next_bit_spec a size offset :
  words_ok a -> 0 <= offset -> 0 <= size < 2 ^ 64 -> size <= 64 * Z.of_nat (length a) ->
  exists k, find_next_bit a size offset = Some k /\
  (offset <= size -> first_in (bit_at a) offset size k) /\ (size < offset -> k = size).
Proof.
  intros Ha Ho Hs Hlen. unfold find_next_bit.
  destruct (Z.leb_spec size offset) as [Hle|Hlt].
  { exists size. split_and!; [done| |done]. intros. split_and!; lia. }
  change (BITS_PER_LONG - 1) with (2 ^ 6 - 1). rewrite land_not_mask by lia.
  unfold BITS_PER_LONG. change (2 ^ 6) with 64.
  pose proof (Z.div_mod offset 64 ltac:(lia)) as Hd.
  pose proof (Z.mod_pos_bound offset 64 ltac:(lia)) as Hm.
  assert (0 <= offset / 64) by (apply Z.div_pos; lia).
  replace (offset - offset mod 64) with (64 * (offset / 64)) by lia.
  set (p := offset / 64) in *. set (o := offset mod 64) in *.
  rewrite (wrap_small 64 (size - 64 * p)) by lia.
  assert (size - 64 * p < 64 * Z.of_nat (length a) - 64 * p + 1) by lia.
  assert (forall x, 0 <= x -> x / 64 < Z.of_nat (loop_fuel x)) as Hfuel.
  { intros x Hx. unfold loop_fuel, BITS_PER_LONG. pose proof (Z.div_pos x 64). lia. }
  destruct (Z.eqb_spec o 0) as [Ho0|Hone]; simpl negb; cbv iota.
  { destruct (next_bit_loop_spec (loop_fuel (size - 64 * p)) a p (size - 64 * p))
      as (k & Hk & Hfi); try lia; try done; [apply Hfuel; lia|].
    exists k. split_and!; [done| |lia]. intros _.
    replace (64 * p + (size - 64 * p)) with size in Hfi by lia.
    by replace offset with (64 * p) by lia. }
  destruct (rd_Some a p ltac:(lia)) as (w & Hw). rewrite Hw. simpl mbind.
  pose proof (rd_ok _ _ _ Ha Hw) as Hwok.
  change ULONG_MAX with (Z.ones 64). set (t := Z.land w (u64 (Z.shiftl (Z.ones 64) o))).
  assert (word_ok t) as Htok by (apply land_ok; [done|apply wrap_range; lia]).
  assert (forall i, 0 <= i < 64 -> Z.testbit t i = (offset <=? 64 * p + i) && Z.testbit w i) as Ht.
  { intros i Hi. unfold t. autorewrite with zbits.
    zcases; try lia; by rewrite ?andb_true_r, ?andb_false_r. }
  destruct (Z.ltb_spec (size - 64 * p) 64) as [Hp|Hp].
  { eexists. split_and!; [done| |lia]. intros _.
    replace size with (64 * p + (size - 64 * p)) at 1 by lia.
    apply (found_first_bit_spec a p w); try done; lia. }
  destruct (Z.eqb_spec t 0) as [Hz|Hnz]; simpl negb; cbv iota.
  - rewrite !wrap_small by lia. replace (64 * p + 64) with (64 * (p + 1)) by lia.
    destruct (next_bit_loop_spec (loop_fuel (size - 64 * p)) a (p + 1) (size - 64 * p - 64))
      as (k & Hk & Hfi); try lia; try done.
    { pose proof (Hfuel (size - 64 * p) ltac:(lia)).
      pose proof (Z.div_le_mono (size - 64 * p - 64) (size - 64 * p) 64). lia. }
    exists k. split_and!; [done| |lia]. intros _.
    replace (64 * (p + 1) + (size - 64 * p - 64)) with size in Hfi by lia.
    eapply first_in_skip, Hfi; [lia|]. intros j Hj.
    rewrite (bit_at_word a p w) by (done || lia).
    assert (Z.testbit t (j - 64 * p) = false) as Hb by (by rewrite Hz, Z.bits_0).
    rewrite Ht in Hb by lia. by destruct (Z.leb_spec offset (64 * p + (j - 64 * p))); [|lia].
  - eexists. split_and!; [done| |lia]. intros _. apply (word_hit a p w); try done; [|lia].
    intros i Hi. rewrite Ht by done.
    destruct (Z.ltb_spec (64 * p + i) size); [by rewrite andb_true_r|lia].
Qed.

(** The searches for a clear bit are the searches for a set bit in the
    complement. *)
Definition compl (a : list Z) : list Z := not64 <$> a.

Lemma not64_ok x : word_ok (not64 x).
Proof. apply wrap_range. lia. Qed.

Lemma compl_ok a : words_ok (compl a).
Proof. apply Forall_fmap, Forall_true. intros x. apply not64_ok. Qed.

Lemma rd_compl a i : rd (compl a) i = not64 <$> rd a i.
Proof. unfold rd, compl. destruct (i <? 0); [done|]. apply list_lookup_fmap. Qed.

Lemma bit_at_compl a i :
  0 <= i < 64 * Z.of_nat (length a) -> bit_at (compl a) i = negb (bit_at a i).
Proof.
  intros Hi. unfold bit_at. rewrite rd_compl.
  pose proof (Z.mod_pos_bound i 64 ltac:(lia)). pose proof (Z.div_mod i 64 ltac:(lia)).
  destruct (rd_Some a (i / 64)) as (w & ->).
  { split; [apply Z.div_pos; lia|apply Z.div_lt_upper_bound; lia]. }
  simpl. rewrite not64_bits. zcases; try lia. done.
Qed.

Lemma not64_zero x : word_ok x -> (not64 x =? 0) = (x =? ULONG_MAX).
Proof.
  intros Hx. unfold word_ok in Hx. unfold not64, ULONG_MAX, Z.lnot, wrap.
  assert ((Z.pred (- x)) mod 2 ^ 64 = 2 ^ 64 - 1 - x) as ->.
  { symmetry. apply (Z.mod_unique _ _ (-1)); lia. }
  destruct (Z.eqb_spec (2 ^ 64 - 1 - x) 0), (Z.eqb_spec x (2 ^ 64 - 1)); lia || done.
Qed.

Lemma lor_ok x y : word_ok x -> word_ok y -> word_ok (Z.lor x y).
Proof.
  intros Hx Hy. unfold word_ok in *. split; [apply Z.lor_nonneg; lia|].
  assert (0 <= Z.lor x y) by (apply Z.lor_nonneg; lia).
  destruct (Z.eq_dec (Z.lor x y) 0) as [->|]; [lia|].
  apply Z.log2_lt_pow2; [lia|]. rewrite Z.log2_lor by lia.
  apply Z.max_lub_lt.
  - destruct (Z.eq_dec x 0) as [->|]; [done|]. apply Z.log2_lt_pow2; lia.
  - destruct (Z.eq_dec y 0) as [->|]; [done|]. apply Z.log2_lt_pow2; lia.
Qed.

Lemma found_first_zero_compl t r size :
  word_ok t -> 0 < size < 64 -> found_first_zero t r size = found_first_bit (not64 t) r size.
Proof.
  intros Ht Hs. unfold found_first_zero, found_first_bit, sbi_ffz, BITS_PER_LONG.
  rewrite <- not64_zero by (apply lor_ok; [done|apply wrap_range; lia]).
  assert (not64 (Z.lor t (u64 (Z.shiftl ULONG_MAX size)))
    = Z.land (not64 t) (Z.shiftr ULONG_MAX (64 - size))) as ->; [|done].
  change ULONG_MAX with (Z.ones 64). zbits_eq i.
  zcases; try lia; simpl; rewrite ?andb_true_r, ?andb_false_r, ?orb_false_r, ?orb_true_r; done.
Qed.

Lemma next_zero_loop_compl fuel a p r size :
  words_ok a -> 0 <= size < 2 ^ 64 ->
  next_zero_loop fuel a p r size = next_bit_loop fuel (compl a) p r size.
Proof.
  intros Ha. revert p r size. induction fuel as [|fuel IH]; intros p r size Hs; [done|].
  cbn [next_zero_loop next_bit_loop]. rewrite rd_compl. rewrite size_full by done.
  destruct (Z.leb_spec 64 size).
  - destruct (rd a p) as [w|]; [|done]. simpl.
    destruct (Z.eqb_spec (not64 w) 0); simpl; [|done].
    apply IH. apply wrap_range. lia.
  - destruct (Z.eqb_spec size 0); [done|].
    destruct (rd a p) as [w|] eqn:E; [|done]. simpl.
    rewrite found_first_zero_compl; [done|by eapply rd_ok|lia].
Qed.

Lemma find_next_zero_bit_compl a size offset :
  words_ok a -> 0 <= size < 2 ^ 64 -> 0 <= offset ->
  find_next_zero_bit a size offset = find_next_bit (compl a) size offset.
Proof.
  intros Ha Hs Ho. unfold find_next_zero_bit, find_next_bit.
  destruct (Z.leb_spec size offset) as [|Hlt]; [done|].
  change (BITS_PER_LONG - 1) with (2 ^ 6 - 1). rewrite land_not_mask by lia.
  pose proof (Z.mod_pos_bound offset (2 ^ 6) ltac:(lia)) as Hm.
  pose proof (Z.mod_le offset (2 ^ 6) Ho ltac:(lia)).
  unfold BITS_PER_LONG. rewrite (wrap_small 64 (size - _)) by lia.
  change (2 ^ 6) with 64 in *. rewrite rd_compl.
  destruct (Z.eqb_spec (offset mod 64) 0); simpl negb; cbv iota;
    [apply next_zero_loop_compl; [done|lia]|].
  destruct (rd a (offset / 64)) as [w|] eqn:E; [|done]. simpl mbind.
  pose proof (rd_ok _ _ _ Ha E) as Hw.
  assert (not64 (Z.lor w (Z.shiftr ULONG_MAX (64 - offset mod 64)))
    = Z.land (not64 w) (u64 (Z.shiftl ULONG_MAX (offset mod 64)))) as Hn.
  { change ULONG_MAX with (Z.ones 64). zbits_eq i.
    zcases; try lia; simpl; rewrite ?andb_true_r, ?andb_false_r, ?orb_false_r, ?orb_true_r; done. }
  destruct (Z.ltb_spec (size - (offset - offset mod 64)) 64).
  - rewrite found_first_zero_compl, Hn; [done| |].
    + apply lor_ok; [done|]. unfold word_ok. rewrite Z.shiftr_div_pow2 by lia.
      split; [apply Z.div_pos; unfold ULONG_MAX; lia|].
      apply Z.div_lt_upper_bound; [lia|]. unfold ULONG_MAX. nia.
    + lia.
  - rewrite (eq_refl : sbi_ffz _ = sbi_ffs (not64 _)), Hn. destruct (Z.land (not64 w) _ =? 0); [|done].
    apply (next_zero_loop_compl (loop_fuel _)); [done|]. apply wrap_range. lia.
Qed.

Lemma clear_lowest w n :
  0 < w -> least_bit w n ->
  forall i, 0 <= i -> Z.testbit (Z.land w (w - 1)) i = Z.testbit w i && negb (i =? n).
Proof.
  intros Hw (Hn & Ht & Hl) i Hi.
  assert (Z.ldiff (2 ^ n) w = 0) as Hsub.
  { apply Z.bits_inj_iff'; intros j Hj. rewrite Z.ldiff_spec, Z.bits_0.
    destruct (Z.eq_dec j n) as [->|]; [by rewrite Ht, andb_false_r|].
    by rewrite Z.pow2_bits_false. }
  assert (forall j, 0 <= j -> Z.testbit (w - 2 ^ n) j = Z.testbit w j && negb (j =? n)) as Hdiff.
  { intros j Hj. rewrite Z.sub_nocarry_ldiff, Z.ldiff_spec by done. f_equal. f_equal.
    destruct (Z.eqb_spec j n) as [->|]; [by apply Z.pow2_bits_true|by apply Z.pow2_bits_false]. }
  assert (Z.land (w - 2 ^ n) (Z.ones n) = 0) as Hnc.
  { apply Z.bits_inj_iff'; intros j Hj. rewrite Z.land_spec, Hdiff, ones_bits, Z.bits_0 by lia.
    destruct (Z.ltb_spec j n); [by rewrite Hl|by rewrite !andb_false_r]. }
  replace (w - 1) with (w - 2 ^ n + Z.ones n) by (rewrite Z.ones_equiv; lia).
  rewrite Z.add_nocarry_lxor by done. rewrite Z.land_spec, Z.lxor_spec, Hdiff, ones_bits by lia.
  destruct (Z.testbit w i) eqn:Ei; [|done]. simpl.
  destruct (Z.leb_spec 0 i); [|lia]. destruct (Z.ltb_spec i n).
  - rewrite Hl in Ei; [done|lia].
  - by destruct (negb (i =? n)).
Qed.

Lemma ones_below_clear w w' n k :
  (forall i, 0 <= i -> Z.testbit w' i = Z.testbit w i && negb (i =? n)) ->
  Z.testbit w n = true -> 0 <= n ->
  ones_below w k = ones_below w' k + (if n <? Z.of_nat k then 1 else 0).
Proof.
  intros Hb Ht Hn. induction k as [|k IH]; cbn [ones_below]; [zcases; lia|].
  rewrite IH, Hb by lia.
  destruct (Z.eqb_spec (Z.of_nat k) n) as [<-|].
  - rewrite Ht. cbn [negb andb Z.b2z]. zcases; lia.
  - rewrite andb_true_r. zcases; lia.
Qed.

Lemma ones_below_range w k : 0 <= ones_below w k <= Z.of_nat k.
Proof.
  induction k as [|k IH]; [simpl; lia|]. cbn [ones_below].
  destruct (Z.testbit _ _); cbn [Z.b2z]; lia.
Qed.

Lemma popcount_loop_spec fuel w c :
  word_ok w -> ones_below w 64 <= Z.of_nat fuel ->
  popcount_loop fuel w c = Some (c + ones_below w 64).
Proof.
  revert w c. induction fuel as [|fuel IH]; intros w c Hw Hf; cbn [popcount_loop];
    (destruct (Z.eqb_spec w 0) as [->|Hne]; [f_equal; change (ones_below 0 64) with 0; lia|]);
    pose proof Hw as Hw'; unfold word_ok in Hw';
    destruct (least_bit_exists w ltac:(lia)) as (n & Hn);
    pose proof (least_bit_bound _ _ Hw Hn) as Hb;
    pose proof (ones_below_clear w _ n 64 (clear_lowest w n ltac:(lia) Hn)
      ltac:(apply Hn) ltac:(lia)) as Ho;
    pose proof (ones_below_range (Z.land w (w - 1)) 64);
    destruct (Z.ltb_spec n (Z.of_nat 64)); try lia.
  rewrite IH; [f_equal; lia|apply land_ok; [done|lia]|lia].
Qed.

Lemma greatest_bit_log2 w : 0 < w < 2 ^ 64 -> greatest_bit w (Z.log2 w).
Proof.
  intros Hw. pose proof (Z.log2_nonneg w). split_and!; [lia| | |].
  - apply Z.log2_lt_pow2; lia.
  - apply Z.bit_log2. lia.
  - intros i Hi. apply Z.bits_above_log2; lia.
Qed.

(** The last index of [[0, size)] with [p], or [size]. *)
Definition last_in (p : Z -> bool) (size k : Z) : Prop :=
  (0 <= k < size /\ p k = true /\ forall j, k < j < size -> p j = false) \/
  (k = size /\ forall j, 0 <= j < size -> p j = false).

Lemma last_bit_loop_spec a size words :
  words_ok a -> Z.of_nat words <= Z.of_nat (length a) -> 64 * Z.of_nat words <= size ->
  (forall j, 64 * Z.of_nat words <= j < size -> bit_at a j = false) ->
  exists k, last_bit_loop a size words = Some k /\ last_in (bit_at a) size k.
Proof.
  intros Ha Hlen. induction words as [|words IH]; intros Hs Hz; cbn [last_bit_loop].
  { exists size. split; [done|]. right. split; [done|]. intros j Hj. apply Hz. lia. }
  destruct (rd_Some a (Z.of_nat words) ltac:(lia)) as (w & Hw). rewrite Hw. cbn [mbind option_bind].
  pose proof (rd_ok _ _ _ Ha Hw) as Hwok. unfold word_ok in Hwok.
  destruct (Z.eqb_spec w 0) as [->|Hne]; cbn [negb].
  - apply IH; [lia|lia|]. intros j Hj.
    destruct (Z.ltb_spec j (64 * Z.of_nat (S words))); [|apply Hz; lia].
    rewrite (bit_at_word a (Z.of_nat words) 0) by (done || lia). apply Z.bits_0.
  - pose proof (greatest_bit_log2 w ltac:(lia)) as Hg. rewrite (fls_spec w _ Hg).
    destruct Hg as (Hb & Ht & Hl). unfold BITS_PER_LONG. eexists. split; [done|]. left.
    split_and!; [lia|lia| |].
    + rewrite (bit_at_word a (Z.of_nat words) w) by (done || lia).
      by replace (_ - _) with (Z.log2 w) by lia.
    + intros j Hj. destruct (Z.ltb_spec j (64 * Z.of_nat (S words))); [|apply Hz; lia].
      rewrite (bit_at_word a (Z.of_nat words) w) by (done || lia). apply Hl. lia.
Qed.

Lemma find_last_bit_spec a size :
  words_ok a -> 0 <= size < 2 ^ 64 -> size <= 64 * Z.of_nat (length a) ->
  exists k, find_last_bit a size = Some k /\ last_in (bit_at a) size k.
Proof.
  intros Ha Hs Hlen. unfold find_last_bit, BITS_PER_LONG. change (64 - 1) with (Z.ones 6).
  rewrite Z.land_ones by lia. change (2 ^ 6) with 64.
  pose proof (Z.div_mod size 64 ltac:(lia)) as Hd.
  pose proof (Z.mod_pos_bound size 64 ltac:(lia)) as Hm.
  assert (0 <= size / 64) by (apply Z.div_pos; lia).
  set (q := size / 64) in *. set (r := size mod 64) in *.
  destruct (Z.eqb_spec r 0) as [Hr|Hr]; cbn [negb].
  { apply last_bit_loop_spec; [done|lia|lia|lia]. }
  destruct (rd_Some a q ltac:(lia)) as (w & Hw). rewrite Hw. cbn [mbind option_bind].
  pose proof (rd_ok _ _ _ Ha Hw) as Hwok. change ULONG_MAX with (Z.ones 64).
  set (t := Z.land w (Z.shiftr (Z.ones 64) (64 - r))).
  assert (word_ok t) as Htok.
  { apply land_ok; [done|]. apply Z.shiftr_nonneg. done. }
  assert (forall i, 0 <= i < 64 -> Z.testbit t i = (i <? r) && Z.testbit w i) as Ht.
  { intros i Hi. unfold t. autorewrite with zbits.
    zcases; try lia; by rewrite ?andb_true_r, ?andb_false_r. }
  unfold word_ok in Htok. destruct (Z.eqb_spec t 0) as [Hz|Hnz]; cbn [negb].
  - apply last_bit_loop_spec; [done|lia|lia|]. intros j Hj.
    rewrite (bit_at_word a q w) by (done || lia).
    assert (Z.testbit t (j - 64 * q) = false) as Hb by (by rewrite Hz, Z.bits_0).
    rewrite Ht in Hb by lia. by destruct (Z.ltb_spec (j - 64 * q) r); [|lia].
  - pose proof (greatest_bit_log2 t ltac:(lia)) as Hg. rewrite (fls_spec t _ Hg).
    destruct Hg as (Hb & Hbt & Hl). rewrite Ht in Hbt by lia. prop_bool.
    eexists. split; [done|]. left. split_and!; [lia|lia| |].
    + rewrite (bit_at_word a q w) by (done || lia).
      by replace (_ - _) with (Z.log2 t) by lia.
    + intros j Hj. rewrite (bit_at_word a q w) by (done || lia).
      specialize (Hl (j - 64 * q) ltac:(lia)). rewrite Ht in Hl by lia.
      by destruct (Z.ltb_spec (j - 64 * q) r); [|lia].
Qed.

(** ** Lemmas on bit updates *)

Lemma rd_upd a i f j :
  rd (upd_word a i f) j = if j =? i then f <$> rd a j else rd a j.
Proof.
  unfold upd_word, rd. destruct (Z.ltb_spec i 0), (Z.ltb_spec j 0);
    try (destruct (Z.eqb_spec j i); lia || done).
  destruct (a !! Z.to_nat i) as [w|] eqn:E.
  - destruct (Z.eqb_spec j i) as [->|].
    + rewrite E. apply list_lookup_insert_eq. by eapply lookup_lt_Some.
    + apply list_lookup_insert_ne. lia.
  - destruct (Z.eqb_spec j i) as [->|]; [by rewrite E|done].
Qed.

Lemma upd_word_length a i f : length (upd_word a i f) = length a.
Proof. unfold upd_word. destruct (rd a i); [apply length_insert|done]. Qed.

Lemma upd_word_ok a i f :
  words_ok a -> (forall w, word_ok w -> word_ok (f w)) -> words_ok (upd_word a i f).
Proof.
  intros Ha Hf. unfold upd_word. destruct (rd a i) as [w|] eqn:E; [|done].
  apply Forall_insert; [done|]. apply Hf. by eapply rd_ok.
Qed.

Lemma BIT_MASK_ok nr : word_ok (BIT_MASK nr).
Proof. apply wrap_range. lia. Qed.

Lemma BIT_MASK_bits nr i :
  0 <= i < 64 -> Z.testbit (BIT_MASK nr) i = (i =? nr mod 64).
Proof.
  intros Hi. unfold BIT_MASK, BITS_PER_LONG. pose proof (Z.mod_pos_bound nr 64 ltac:(lia)).
  autorewrite with zbits. destruct (Z.ltb_spec i 64); [done|lia].
Qed.

(** The effect of a read-modify-write of bit [nr] on every bit. *)
Lemma bit_at_upd a nr f g i :
  0 <= i -> 0 <= nr < 64 * Z.of_nat (length a) ->
  (forall w j, 0 <= j < 64 -> Z.testbit (f w) j = g (j =? nr mod 64) (Z.testbit w j)) ->
  (forall b, g false b = b) ->
  bit_at (upd_word a (BIT_WORD nr) f) i = g (i =? nr) (bit_at a i).
Proof.
  intros Hi Hnr Hf Hg. unfold bit_at, BIT_WORD, BITS_PER_LONG. rewrite rd_upd.
  pose proof (Z.mod_pos_bound i 64 ltac:(lia)). pose proof (Z.mod_pos_bound nr 64 ltac:(lia)).
  pose proof (Z.div_mod i 64 ltac:(lia)). pose proof (Z.div_mod nr 64 ltac:(lia)).
  destruct (Z.eqb_spec (i / 64) (nr / 64)) as [He|Hne].
  - rewrite He. destruct (rd_Some a (nr / 64)) as (w & ->).
    { split; [apply Z.div_pos; lia|apply Z.div_lt_upper_bound; lia]. }
    simpl. rewrite Hf by lia. f_equal.
    destruct (Z.eqb_spec (i mod 64) (nr mod 64)), (Z.eqb_spec i nr); lia || done.
  - destruct (Z.eqb_spec i nr) as [->|]; [done|]. by rewrite Hg.
Qed.

Lemma bit_at_set a nr i :
  0 <= i -> 0 <= nr < 64 * Z.of_nat (length a) ->
  bit_at (set_bit nr a) i = (i =? nr) || bit_at a i.
Proof.
  intros Hi Hn. unfold set_bit. apply (bit_at_upd a nr _ orb i Hi Hn); [|done].
  intros w j Hj. rewrite Z.lor_spec, BIT_MASK_bits by done. apply orb_comm.
Qed.

Lemma bit_at_clear a nr i :
  0 <= i -> 0 <= nr < 64 * Z.of_nat (length a) ->
  bit_at (clear_bit nr a) i = negb (i =? nr) && bit_at a i.
Proof.
  intros Hi Hn. unfold clear_bit.
  apply (bit_at_upd a nr _ (fun b x => negb b && x) i Hi Hn); [|done].
  intros w j Hj. rewrite Z.land_spec, not64_bits, BIT_MASK_bits by done.
  destruct (Z.leb_spec 0 j), (Z.ltb_spec j 64); try lia. apply andb_comm.
Qed.

Lemma set_bit_ok nr a : words_ok a -> words_ok (set_bit nr a).
Proof. intros. apply upd_word_ok; [done|]. intros. apply lor_ok; [done|apply BIT_MASK_ok]. Qed.

Lemma clear_bit_ok nr a : words_ok a -> words_ok (clear_bit nr a).
Proof. intros. apply upd_word_ok; [done|]. intros. apply land_ok; [done|apply not64_ok]. Qed.

Lemma set_bit_length nr a : length (set_bit nr a) = length a.
Proof. apply upd_word_length. Qed.

Lemma clear_bit_length nr a : length (clear_bit nr a) = length a.
Proof. apply upd_word_length. Qed.

Lemma test_bit_spec nr a : 0 <= nr -> test_bit nr a = Z.b2z (bit_at a nr).
Proof.
  intros Hn. unfold test_bit, bit_at, BIT_WORD, BITS_PER_LONG. change (64 - 1) with (Z.ones 6).
  rewrite Z.land_ones by lia. change (2 ^ 6) with 64.
  destruct (rd a (nr / 64)) as [w|]; [|by rewrite Z.shiftr_0_l].
  simpl default. rewrite Z.land_comm. change 1 with (Z.ones 1). rewrite Z.land_ones by lia.
  rewrite <- Z.bit0_mod, Z.shiftr_spec by lia. done.
Qed.

#[export] Hint Resolve set_bit_ok clear_bit_ok : sbi.

(** ** Properties *)

(** [find_next_bit] returns the index of the first set bit in
    [[offset, size)], or [size] when there is none, for every offset and every
    size that fits the array; it never reads a word outside the array, and the
    same holds of [find_next_zero_bit] for clear bits. *)
Lemma find_next_bit_correct a size offset :
  words_ok a -> 0 <= offset <= size -> size < 2 ^ 64 -> size <= 64 * Z.of_nat (length a) ->
  (exists k, find_next_bit a size offset = Some k /\
     first_in (bit_at a) offset size k) /\
  (exists k, find_next_zero_bit a size offset = Some k /\
     first_in (fun i => negb (bit_at a i)) offset size k).
Proof.
  intros Ha Ho Hs Hl. split.
  - destruct (find_next_bit_spec a size offset) as (k & Hk & Hf & _); try done; try lia.
    exists k. split; [done|]. apply Hf. lia.
  - rewrite find_next_zero_bit_compl by (done || lia).
    destruct (find_next_bit_spec (compl a) size offset) as (k & Hk & Hf & _);
      [apply compl_ok|lia|lia|unfold compl; by rewrite length_fmap|].
    exists k. split; [done|]. destruct Hf as (Hr & Hlo & Hhi); [lia|].
    split_and!; [lia|lia| |].
    + intros j Hj. rewrite <- bit_at_compl by lia. by apply Hlo.
    + intros Hlt. rewrite <- bit_at_compl by lia. by apply Hhi.
Qed.

Lemma find_next_bit_correct_witness :
  find_next_bit [1; 2 ^ 63] 128 1 = Some 127 /\ find_next_zero_bit [ULONG_MAX; 1] 128 3 = Some 65 /\
  (exists k, find_next_bit [1; 2 ^ 63] 128 1 = Some k /\ first_in (bit_at [1; 2 ^ 63]) 1 128 k).
Proof.
  split; [reflexivity|]. split; [reflexivity|].
  refine (proj1 (find_next_bit_correct [1; 2 ^ 63] 128 1 _ _ _ _)); simpl; try lia.
  repeat apply Forall_cons_2; try apply Forall_nil_2; unfold word_ok; lia.
Defined.

(** The branch-free halving searches agree with the bit-by-bit definitions
    on every non-zero word: [sbi_ffs] is the least set bit and [sbi_fls] the
    greatest; and [sbi_popcount]'s loop ends within 64 iterations with the
    number of set bits. *)
Lemma word_searches_correct w :
  0 < w < 2 ^ 64 ->
  least_bit w (sbi_ffs w) /\ greatest_bit w (sbi_fls w) /\ sbi_fls w = Z.log2 w /\
  sbi_popcount w = Some (ones_below w 64).
Proof.
  intros Hw. destruct (least_bit_exists w ltac:(lia)) as (n & Hn).
  pose proof (greatest_bit_log2 w Hw) as Hg.
  rewrite (ffs_spec w n) by (done || unfold word_ok; lia). rewrite (fls_spec w _ Hg).
  split_and!; try done. unfold sbi_popcount.
  rewrite popcount_loop_spec; [done|unfold word_ok; lia|].
  pose proof (ones_below_range w 64). lia.
Qed.

Lemma word_searches_correct_witness :
  sbi_ffs 4294967384 = 3 /\ sbi_fls 4294967384 = 32 /\ sbi_popcount 4294967384 = Some 4.
Proof.
  destruct (word_searches_correct 4294967384) as (_ & _ & _ & H); [lia|].
  split; [reflexivity|]. split; [reflexivity|]. exact H.
Defined.
