(* ===== verification/SbiScratch.v ===== *)
(** * [sbi_scratch.c], [sbi_scratch.h], [sbi_math.c]

    The tables that map hart indices to hart ids and scratch areas, the
    allocator of the per-hart extra space, and [log2roundup].

    [scratch_state] holds the globals of [sbi_scratch.c]; [sbi_platform] the
    two platform fields [sbi_scratch_init] reads.  [hartid_to_scratch] is a
    function of the firmware's assembly, reached through a pointer, and so a
    parameter.  A table access outside the array is [None]. *)

From S2P Require Import Prelude SbiString SbiBitops.

Definition SBI_HARTMASK_MAX_BITS : Z := 128.
Definition SBI_SCRATCH_EXTRA_SPACE_OFFSET : Z := 15 * 8.
Definition SBI_SCRATCH_SIZE : Z := 4096.
Definition NEG1U : Z := 2 ^ 32 - 1.

Record sbi_platform := mkPlat {
  hart_count : Z;
  hart_index2id : option (list Z)
}.

Record scratch_state := mkScratch {
  last_hartindex_having_scratch : Z;
  hartindex_to_hartid_table : list Z;
  hartindex_to_scratch_table : list Z;
  extra_offset : Z
}.

(** The globals before [sbi_scratch_init]. *)
Definition scratch_globals : scratch_state :=
  mkScratch 0 (NEG1U :: replicate 128 0) (replicate 129 0) SBI_SCRATCH_EXTRA_SPACE_OFFSET.

(** [a[i] = v] on an array. *)
Definition wr (a : list Z) (i v : Z) : option (list Z) :=
  if (0 <=? i) && (i <? Z.of_nat (length a)) then Some (<[Z.to_nat i := v]> a) else None.

(** The loop [for (i = 0; i <= last; i++)] with [n] iterations left. *)
Fixpoint hartid_loop (n : nat) (table : list Z) (i hartid : Z) : option Z :=
  match n with
  | O => Some NEG1U
  | S n' =>
      h ← rd table i;
      if h =? hartid then Some i else hartid_loop n' table (i + 1) hartid
  end.

Definition sbi_hartid_to_hartindex (st : scratch_state) (hartid : Z) : option Z :=
  hartid_loop (Z.to_nat (last_hartindex_having_scratch st + 1))
    (hartindex_to_hartid_table st) 0 hartid.

Definition sbi_hartindex_valid (st : scratch_state) (hartindex : Z) : bool :=
  hartindex <=? last_hartindex_having_scratch st.

Definition sbi_hartindex_to_hartid (st : scratch_state) (hartindex : Z) : option Z :=
  if hartindex <=? last_hartindex_having_scratch st
  then rd (hartindex_to_hartid_table st) hartindex else Some NEG1U.

Definition sbi_hartindex_to_scratch (st : scratch_state) (hartindex : Z) : option Z :=
  if hartindex <=? last_hartindex_having_scratch st
  then rd (hartindex_to_scratch_table st) hartindex else Some 0.

Definition sbi_hartid_to_scratch (st : scratch_state) (hartid : Z) : option Z :=
  i ← sbi_hartid_to_hartindex st hartid; sbi_hartindex_to_scratch st i.

Definition sbi_hartid_valid (st : scratch_state) (hartid : Z) : option bool :=
  i ← sbi_hartid_to_hartindex st hartid; Some (sbi_hartindex_valid st i).

Definition plat_hartid (plat : sbi_platform) (i : Z) : option Z :=
  match hart_index2id plat with Some t => rd t i | None => Some i end.

Fixpoint scratch_init_loop (hartid_to_scratch : Z -> Z -> Z) (plat : sbi_platform)
    (n : nat) (i : Z) (st : scratch_state) : option scratch_state :=
  match n with
  | O => Some st
  | S n' =>
      h ← plat_hartid plat i;
      ids ← wr (hartindex_to_hartid_table st) i h;
      scs ← wr (hartindex_to_scratch_table st) i (hartid_to_scratch h i);
      scratch_init_loop hartid_to_scratch plat n' (i + 1)
        (mkScratch (last_hartindex_having_scratch st) ids scs (extra_offset st))
  end.

Definition sbi_scratch_init (hartid_to_scratch : Z -> Z -> Z) (plat : sbi_platform)
    (st : scratch_state) : option scratch_state :=
  st ← scratch_init_loop hartid_to_scratch plat (Z.to_nat (hart_count plat)) 0 st;
  Some (mkScratch (u32 (hart_count plat - 1)) (hartindex_to_hartid_table st)
          (hartindex_to_scratch_table st) (extra_offset st)).

(** Zero [size] bytes at [off] in the scratch area of each hart that has one. *)
Fixpoint zero_loop (st : scratch_state) (m : mem) (off size : Z) (n : nat) (i : Z)
    : option mem :=
  match n with
  | O => Some m
  | S n' =>
      r ← sbi_hartindex_to_scratch st i;
      zero_loop st (if r =? 0 then m else (sbi_memset m (r + off) 0 size).1)
        off size n' (i + 1)
  end.

Definition sbi_scratch_alloc_offset (st : scratch_state) (m : mem) (size : Z)
    : option (Z * scratch_state * mem) :=
  if size =? 0 then Some (0, st, m)
  else
    let size := Z.land (u64 (size + 7)) (not64 7) in
    if SBI_SCRATCH_SIZE <? u64 (extra_offset st + size) then Some (0, st, m)
    else
      let ret := extra_offset st in
      let st' := mkScratch (last_hartindex_having_scratch st)
                   (hartindex_to_hartid_table st) (hartindex_to_scratch_table st)
                   (u64 (extra_offset st + size)) in
      if ret =? 0 then Some (ret, st', m)
      else
        m' ← zero_loop st' m ret size
               (Z.to_nat (last_hartindex_having_scratch st + 1)) 0;
        Some (ret, st', m').

Definition sbi_scratch_free_offset (st : scratch_state) (offset : Z) : scratch_state := st.

Definition sbi_scratch_used_space (st : scratch_state) : Z := extra_offset st.

(** [log2roundup]: the loop runs at most [__riscv_xlen] times. *)
Fixpoint log2roundup_loop (n : nat) (x ret : Z) : Z :=
  match n with
  | O => ret
  | S n' => if x <=? u64 (Z.shiftl 1 ret) then ret else log2roundup_loop n' x (ret + 1)
  end.

Definition log2roundup (x : Z) : Z := log2roundup_loop 64 x 0.

(** ** Lemmas *)

(** The tables are in the state [sbi_scratch_init] leaves them in. *)
Definition scratch_wf (st : scratch_state) : Prop :=
  0 <= last_hartindex_having_scratch st < SBI_HARTMASK_MAX_BITS /\
  length (hartindex_to_hartid_table st) = 129%nat /\
  length (hartindex_to_scratch_table st) = 129%nat.

(** The allocator's mark is aligned and inside the scratch area. *)
Definition extra_ok (st : scratch_state) : Prop :=
  SBI_SCRATCH_EXTRA_SPACE_OFFSET <= extra_offset st <= SBI_SCRATCH_SIZE /\
  (8 | extra_offset st).

Lemma rd_insert a i j v :
  0 <= i < Z.of_nat (length a) ->
  rd (<[Z.to_nat i := v]> a) j = if j =? i then Some v else rd a j.
Proof.
  intros Hi. unfold rd. destruct (Z.ltb_spec j 0); destruct (Z.eqb_spec j i).
  - lia.
  - done.
  - subst. apply list_lookup_insert_eq. lia.
  - apply list_lookup_insert_ne. lia.
Qed.

Lemma rd_in a i : 0 <= i < Z.of_nat (length a) -> is_Some (rd a i).
Proof. intros H. destruct (rd_Some a i H) as [w ->]. eauto. Qed.

Lemma hartid_loop_spec n table i hartid :
  0 <= i -> i + Z.of_nat n <= Z.of_nat (length table) ->
  exists r, hartid_loop n table i hartid = Some r /\
    ((i <= r < i + Z.of_nat n /\ rd table r = Some hartid /\
      forall j, i <= j < r -> rd table j <> Some hartid) \/
     (r = NEG1U /\ forall j, i <= j < i + Z.of_nat n -> rd table j <> Some hartid)).
Proof.
  revert i. induction n as [|n IH]; intros i Hi Hn; cbn [hartid_loop].
  { exists NEG1U. split; [done|right]. split; [done|lia]. }
  destruct (rd_Some table i ltac:(lia)) as [h Hh]. rewrite Hh. cbn.
  destruct (Z.eqb_spec h hartid) as [->|Hne].
  { exists i. split; [done|left]. repeat split; [lia..|done|lia]. }
  destruct (IH (i + 1) ltac:(lia) ltac:(lia)) as (r & -> & H). exists r. split; [done|].
  assert (rd table i <> Some hartid) by congruence.
  destruct H as [(Hr & Ht & Hj)|(-> & Hj)]; [left|right].
  - repeat split; [lia..|done|]. intros j ?. destruct (Z.eq_dec j i) as [->|]; [done|].
    apply Hj. lia.
  - split; [done|]. intros j ?. destruct (Z.eq_dec j i) as [->|]; [done|]. apply Hj. lia.
Qed.

Lemma hartindex_to_scratch_total st i :
  scratch_wf st -> 0 <= i -> is_Some (sbi_hartindex_to_scratch st i).
Proof.
  intros (Hl & _ & H2) Hi. unfold sbi_hartindex_to_scratch.
  destruct (Z.leb_spec i (last_hartindex_having_scratch st)); [|eauto].
  apply rd_in. unfold SBI_HARTMASK_MAX_BITS in *. lia.
Qed.

Lemma scratch_init_loop_spec f plat n i st :
  0 <= i -> i + Z.of_nat n <= 129 ->
  length (hartindex_to_hartid_table st) = 129%nat ->
  length (hartindex_to_scratch_table st) = 129%nat ->
  (forall j, i <= j < i + Z.of_nat n -> is_Some (plat_hartid plat j)) ->
  exists st', scratch_init_loop f plat n i st = Some st' /\
    length (hartindex_to_hartid_table st') = 129%nat /\
    length (hartindex_to_scratch_table st') = 129%nat /\
    extra_offset st' = extra_offset st /\
    (forall j, 0 <= j < i -> rd (hartindex_to_hartid_table st') j
                              = rd (hartindex_to_hartid_table st) j) /\
    (forall j, 0 <= j < i -> rd (hartindex_to_scratch_table st') j
                              = rd (hartindex_to_scratch_table st) j) /\
    (forall j h, i <= j < i + Z.of_nat n -> plat_hartid plat j = Some h ->
       rd (hartindex_to_hartid_table st') j = Some h /\
       rd (hartindex_to_scratch_table st') j = Some (f h j)).
Proof.
  revert i st. induction n as [|n IH]; intros i st Hi Hn H1 H2 Hp; cbn [scratch_init_loop].
  { exists st. repeat split; try done; lia. }
  destruct (Hp i ltac:(lia)) as [h Hh]. rewrite Hh. cbn.
  unfold wr. rewrite H1, H2.
  replace ((0 <=? i) && (i <? Z.of_nat 129)) with true by (zcases; lia || done). cbn.
  match goal with |- context [scratch_init_loop _ _ _ _ ?s] => set (s1 := s) end.
  destruct (IH (i + 1) s1) as (st' & -> & L1 & L2 & He & K1 & K2 & K3); try lia.
  { subst s1; cbn. by rewrite length_insert. }
  { subst s1; cbn. by rewrite length_insert. }
  { intros j ?. apply Hp. lia. }
  exists st'. repeat split; try done.
  - intros j ?. rewrite K1 by lia. subst s1; cbn. rewrite rd_insert by lia.
    by destruct (Z.eqb_spec j i); [lia|].
  - intros j ?. rewrite K2 by lia. subst s1; cbn. rewrite rd_insert by lia.
    by destruct (Z.eqb_spec j i); [lia|].
  - destruct (Z.eq_dec j i) as [->|].
    + rewrite K1 by lia. subst s1; cbn. rewrite rd_insert, Z.eqb_refl by lia. congruence.
    + apply K3; [lia|done].
  - destruct (Z.eq_dec j i) as [->|].
    + rewrite K2 by lia. subst s1; cbn. rewrite rd_insert, Z.eqb_refl by lia. congruence.
    + apply K3; [lia|done].
Qed.

Lemma round8 size :
  0 <= size <= SBI_SCRATCH_SIZE ->
  exists s, Z.land (u64 (size + 7)) (not64 7) = s /\ size <= s < size + 8 /\ (8 | s).
Proof.
  unfold SBI_SCRATCH_SIZE. intros H. eexists. split; [done|].
  rewrite (wrap_small 64) by lia.
  change (not64 7) with (not64 (2 ^ 3 - 1)). rewrite land_not_mask by lia.
  change (2 ^ 3) with 8.
  pose proof (Z.mod_pos_bound (size + 7) 8 ltac:(lia)). split; [lia|].
  apply Z.mod_divide; [lia|]. rewrite Zminus_mod_idemp_r. by rewrite Z.sub_diag.
Qed.

(** The byte [x] lies in [[off, off + size)] of a scratch area of a hart below
    [n]. *)
Definition in_scratch (st : scratch_state) (off size : Z) (lo hi x : Z) : Prop :=
  exists i r, lo <= i < hi /\ sbi_hartindex_to_scratch st i = Some r /\ r <> 0 /\
              r + off <= x < r + off + size.

Lemma in_scratch_dec st off size k c x :
  in_scratch st off size k (k + Z.of_nat c) x \/
  ~ in_scratch st off size k (k + Z.of_nat c) x.
Proof.
  revert k. induction c as [|c IHc]; intros k; [right; intros (?&?&?&_); lia|].
  destruct (IHc (k + 1)) as [(j & r & ? & ? & ? & ?)|Hno].
  { left. exists j, r. split; [lia|done]. }
  destruct (sbi_hartindex_to_scratch st k) as [r|] eqn:Ek.
  2:{ right. intros (j & r & Hj & Hjr & ? & ?). destruct (Z.eq_dec j k) as [->|]; [congruence|].
      apply Hno. exists j, r. split; [lia|done]. }
  destruct (decide (r <> 0 /\ r + off <= x < r + off + size)) as [[? ?]|Hn].
  { left. exists k, r. split; [lia|done]. }
  right. intros (j & r' & Hj & Hjr & ? & ?). destruct (Z.eq_dec j k) as [->|].
  { apply Hn. by simplify_eq. }
  apply Hno. exists j, r'. split; [lia|done].
Qed.

Lemma zero_loop_spec st off size n i m :
  scratch_wf st -> 0 <= i ->
  exists m', zero_loop st m off size n i = Some m' /\
    (forall x, in_scratch st off size i (i + Z.of_nat n) x -> m' x = 0) /\
    (forall x, ~ in_scratch st off size i (i + Z.of_nat n) x -> m' x = m x).
Proof.
  intros Hwf. revert i m. induction n as [|n IH]; intros i m Hi; cbn [zero_loop].
  { exists m. split; [done|]. split; [|done]. intros x (j & r & ? & _). lia. }
  destruct (hartindex_to_scratch_total st i Hwf Hi) as [r Hr]. rewrite Hr. cbn [mbind option_bind].
  match goal with |- context [zero_loop _ ?mm _ _ _ _] => set (m1 := mm) end.
  assert (Hm1 : forall x, m1 x = m x \/ (r <> 0 /\ r + off <= x < r + off + size /\ m1 x = 0)).
  { intros x. subst m1. destruct (Z.eqb_spec r 0); [by left|].
    rewrite memset_spec. zcases; cbn; auto. }
  assert (Hz : forall x, r <> 0 -> r + off <= x < r + off + size -> m1 x = 0).
  { intros x Hr0 Hx. subst m1. destruct (Z.eqb_spec r 0); [done|].
    rewrite memset_spec. zcases; simpl; lia || done. }
  destruct (IH (i + 1) m1 ltac:(lia)) as (m' & -> & H1 & H2). exists m'. split; [done|].
  split.
  - intros x (j & r' & Hj & Hjr & Hr0 & Hx). 
    destruct (in_scratch_dec st off size (i + 1) n x) as [Hin|Hno]; [auto|].
    rewrite H2 by done. destruct (Z.eq_dec j i) as [->|].
    + simplify_eq. by apply Hz.
    + exfalso. apply Hno. exists j, r'. split; [lia|done].
  - intros x Hno. rewrite H2.
    + destruct (Hm1 x) as [|(? & ? & ?)]; [done|]. exfalso. apply Hno.
      exists i, r. split; [lia|done].
    + intros (j & r' & ? & ? & ?). apply Hno. exists j, r'. split; [lia|done].
Qed.

(** One allocation, on both branches. *)
Lemma scratch_alloc_spec st m size :
  scratch_wf st -> extra_ok st -> 0 < size <= SBI_SCRATCH_SIZE ->
  exists off st' m',
    sbi_scratch_alloc_offset st m size = Some (off, st', m') /\
    scratch_wf st' /\ extra_ok st' /\
    hartindex_to_scratch_table st' = hartindex_to_scratch_table st /\
    last_hartindex_having_scratch st' = last_hartindex_having_scratch st /\
    ((off = 0 /\ st' = st /\ m' = m /\ SBI_SCRATCH_SIZE < extra_offset st + size + 7) \/
     (off = extra_offset st /\ off + size <= extra_offset st' /\
      (forall i r x, 0 <= i <= last_hartindex_having_scratch st ->
         sbi_hartindex_to_scratch st i = Some r -> r <> 0 ->
         r + off <= x < r + off + size -> m' x = 0) /\
      (forall x, (forall i r, 0 <= i <= last_hartindex_having_scratch st ->
                    sbi_hartindex_to_scratch st i = Some r -> r <> 0 ->
                    ~ r + off <= x < r + extra_offset st') -> m' x = m x))).
Proof.
  intros Hwf Hex Hs. pose proof Hex as [He Hd]. unfold sbi_scratch_alloc_offset.
  destruct (round8 size ltac:(lia)) as (s & -> & Hs1 & Hs2).
  unfold SBI_SCRATCH_SIZE, SBI_SCRATCH_EXTRA_SPACE_OFFSET in *.
  destruct (Z.eqb_spec size 0); [lia|].
  rewrite (wrap_small 64) by lia.
  destruct (Z.ltb_spec 4096 (extra_offset st + s)).
  { exists 0, st, m. repeat (split; [done|]). left. repeat (split; [done|]). lia. }
  destruct (Z.eqb_spec (extra_offset st) 0); [lia|].
  match goal with |- context [zero_loop ?s _ _ _ _ _] => set (st' := s) end.
  assert (Hwf' : scratch_wf st') by exact Hwf.
  destruct (zero_loop_spec st' (extra_offset st) s
    (Z.to_nat (last_hartindex_having_scratch st + 1)) 0 m Hwf' ltac:(lia))
    as (m' & -> & Hz & Hk).
  destruct Hwf as (Hl & _). rewrite Z2Nat.id in Hz, Hk by lia.
  exists (extra_offset st), st', m'. split; [done|]. split; [done|].
  split. { split; cbn; unfold SBI_SCRATCH_SIZE, SBI_SCRATCH_EXTRA_SPACE_OFFSET; [lia|].
           by apply Z.divide_add_r. }
  split; [done|]. split; [done|]. right. cbn. split; [done|]. split; [lia|]. split.
  - intros i r x Hi Hr Hr0 Hx. apply Hz. exists i, r. split; [lia|]. split; [done|].
    split; [done|lia].
  - intros x Hx. apply Hk. intros (i & r & Hi & Hr & Hr0 & Hxr).
    apply (Hx i r); [lia|done|done|lia].
Qed.

(** A run of allocations, with the offset each one returns. *)
Fixpoint alloc_run (st : scratch_state) (m : mem) (sizes : list Z)
    : option (list (Z * Z) * scratch_state * mem) :=
  match sizes with
  | [] => Some ([], st, m)
  | s :: rest =>
      '(off, st, m) ← sbi_scratch_alloc_offset st m s;
      '(offs, st, m) ← alloc_run st m rest;
      Some ((off, s) :: offs, st, m)
  end.

Definition disjoint_blocks (p q : Z * Z) : Prop :=
  p.1 = 0 \/ q.1 = 0 \/ p.1 + p.2 <= q.1 \/ q.1 + q.2 <= p.1.

Lemma alloc_run_spec sizes st m :
  scratch_wf st -> extra_ok st -> Forall (fun s => 0 < s <= SBI_SCRATCH_SIZE) sizes ->
  exists offs st' m', alloc_run st m sizes = Some (offs, st', m') /\
    extra_ok st' /\ extra_offset st <= extra_offset st' /\
    offs.*2 = sizes /\
    Forall (fun p => p.1 = 0 \/
      ((8 | p.1) /\ extra_offset st <= p.1 /\ p.1 + p.2 <= extra_offset st')) offs /\
    ForallOrdPairs disjoint_blocks offs.
Proof.
  revert st m. induction sizes as [|s rest IH]; intros st m Hwf He Hs; cbn [alloc_run].
  { exists [], st, m. repeat split; try done; try apply He; try constructor; lia. }
  apply Forall_cons in Hs as [Hs Hrest].
  destruct (scratch_alloc_spec st m s Hwf He Hs)
    as (off & st1 & m1 & -> & Hwf1 & He1 & _ & _ & Hcase). cbn [mbind option_bind].
  destruct (IH st1 m1 Hwf1 He1 Hrest) as (offs & st' & m' & -> & He' & Hle & H2 & Hall & Hord).
  cbn [mbind option_bind].
  assert (Hle1 : extra_offset st <= extra_offset st1).
  { destruct Hcase as [(_ & -> & _)|(-> & ? & _)]; lia. }
  exists ((off, s) :: offs), st', m'. split; [done|]. split; [done|]. split; [lia|].
  split; [cbn; by rewrite H2|]. split.
  - apply Forall_cons. split.
    + cbn. destruct Hcase as [(-> & _)|(-> & ? & _)]; [by left|right].
      split; [apply He|]. lia.
    + eapply Forall_impl; [exact Hall|]. intros [o z]; cbn. intuition lia.
  - constructor; [|done]. apply List.Forall_forall. intros [o z] Hin.
    apply list_elem_of_In in Hin. rewrite Forall_forall in Hall. specialize (Hall _ Hin).
    unfold disjoint_blocks; cbn in *. destruct Hcase as [(-> & _)|(-> & ? & _)]; [by left|].
    destruct Hall as [->|(? & ? & ?)]; [by right; left|]. right; right; left. lia.
Qed.

Lemma log2roundup_loop_spec n x ret :
  0 <= ret -> ret + Z.of_nat n = 64 -> (forall k, 0 <= k < ret -> 2 ^ k < x) ->
  let r := log2roundup_loop n x ret in
  0 <= r <= 64 /\ (forall k, 0 <= k < r -> 2 ^ k < x) /\ (r < 64 -> x <= 2 ^ r).
Proof.
  revert ret. induction n as [|n IH]; intros ret H0 Hn Hk; cbn.
  { repeat split; try lia. intros k ?. apply Hk. lia. }
  rewrite Z.shiftl_1_l, (wrap_small 64)
    by (split; [apply Z.pow_nonneg; lia|apply Z.pow_lt_mono_r; lia]).
  destruct (Z.leb_spec x (2 ^ ret)).
  { repeat split; try lia. intros k ?. apply Hk. lia. }
  apply IH; [lia..|]. intros k ?. destruct (Z.eq_dec k ret) as [->|]; [done|apply Hk; lia].
Qed.

(** ** Properties *)

(** After [sbi_scratch_init] on a platform with distinct hart ids, hart
    index and hart id determine each other: looking up the id of an index and
    then the index of that id returns the index, the scratch pointer is the one
    the firmware's callback gave, and an id the platform does not list maps to
    [-1U] and is not valid.  No table access leaves its array. *)
Lemma scratch_tables_roundtrip f plat st :
  0 < hart_count plat <= SBI_HARTMASK_MAX_BITS ->
  length (hartindex_to_hartid_table st) = 129%nat ->
  length (hartindex_to_scratch_table st) = 129%nat ->
  (forall i, 0 <= i < hart_count plat -> is_Some (plat_hartid plat i)) ->
  (forall i j h, 0 <= i < hart_count plat -> 0 <= j < hart_count plat ->
     plat_hartid plat i = Some h -> plat_hartid plat j = Some h -> i = j) ->
  exists st', sbi_scratch_init f plat st = Some st' /\ scratch_wf st' /\
    (forall i h, 0 <= i < hart_count plat -> plat_hartid plat i = Some h ->
       sbi_hartindex_to_hartid st' i = Some h /\
       sbi_hartid_to_hartindex st' h = Some i /\
       sbi_hartid_to_scratch st' h = Some (f h i) /\
       sbi_hartid_valid st' h = Some true) /\
    (forall h, (forall i, 0 <= i < hart_count plat -> plat_hartid plat i <> Some h) ->
       sbi_hartid_to_hartindex st' h = Some NEG1U /\
       sbi_hartid_valid st' h = Some false).
Proof.
  unfold SBI_HARTMASK_MAX_BITS. intros Hc L1 L2 Htot Hinj. unfold sbi_scratch_init.
  destruct (scratch_init_loop_spec f plat (Z.to_nat (hart_count plat)) 0 st)
    as (st1 & -> & L1' & L2' & _ & _ & _ & Hent); rewrite ?Z2Nat.id in * by lia; try lia; try done.
  cbn [mbind option_bind]. rewrite (wrap_small 32) by lia.
  match goal with |- context [Some ?s = _] => set (st' := s) end.
  exists st'. split; [done|]. split.
  { unfold scratch_wf, SBI_HARTMASK_MAX_BITS; cbn. lia. }
  assert (Hlook : forall h, exists r, sbi_hartid_to_hartindex st' h = Some r /\
    ((0 <= r < hart_count plat /\ plat_hartid plat r = Some h) \/
     (r = NEG1U /\ forall j, 0 <= j < hart_count plat -> plat_hartid plat j <> Some h))).
  { intros h. unfold sbi_hartid_to_hartindex. cbn.
    replace (hart_count plat - 1 + 1) with (hart_count plat) by lia.
    destruct (hartid_loop_spec (Z.to_nat (hart_count plat)) (hartindex_to_hartid_table st1) 0 h)
      as (r & -> & Hr); [lia..|]. rewrite Z2Nat.id in Hr by lia. exists r. split; [done|].
    destruct Hr as [(Hr & Ht & _)|(-> & Hno)]; [left|right].
    - split; [lia|]. destruct (Htot r ltac:(lia)) as [h' Hh'].
      destruct (Hent r h' ltac:(lia) Hh'). congruence.
    - split; [done|]. intros j Hj Hh. destruct (Hent j h ltac:(lia) Hh).
      by apply (Hno j ltac:(lia)). }
  split.
  - intros i h Hi Hh. destruct (Hent i h ltac:(lia) Hh) as [E1 E2].
    destruct (Hlook h) as (r & Hr & [(Hr1 & Hr2)|(_ & Hno)]); [|by destruct (Hno i Hi)].
    assert (r = i) as -> by eauto.
    unfold sbi_hartid_to_scratch, sbi_hartid_valid, sbi_hartindex_valid,
      sbi_hartindex_to_hartid, sbi_hartindex_to_scratch. rewrite Hr. cbn.
    destruct (Z.leb_spec i (hart_count plat - 1)); [done|lia].
  - intros h Hno. destruct (Hlook h) as (r & Hr & [(Hr1 & Hr2)|(-> & _)]).
    { by destruct (Hno r Hr1). }
    split; [done|]. unfold sbi_hartid_valid, sbi_hartindex_valid. rewrite Hr. cbn.
    unfold NEG1U. destruct (Z.leb_spec (2 ^ 32 - 1) (hart_count plat - 1)); [lia|done].
Qed.

Lemma scratch_tables_roundtrip_witness :
  exists st', sbi_scratch_init (fun h i => 4096 * (h + i)) (mkPlat 2 (Some [7; 3])) scratch_globals
              = Some st' /\ sbi_hartid_to_hartindex st' 3 = Some 1.
Proof.
  destruct (scratch_tables_roundtrip (fun h i => 4096 * (h + i)) (mkPlat 2 (Some [7; 3]))
              scratch_globals) as (st' & Hs & _ & Hr & _).
  - done.
  - reflexivity.
  - reflexivity.
  - intros i Hi. cbn in Hi. assert (i = 0 \/ i = 1) as [-> | ->] by lia; by eexists.
  - intros i j h Hi Hj. cbn in Hi, Hj.
    assert (i = 0 \/ i = 1) as [-> | ->] by lia; assert (j = 0 \/ j = 1) as [-> | ->] by lia;
      vm_compute; congruence.
  - exists st'. split; [exact Hs|]. apply (Hr 1 3); [cbn; lia|reflexivity].
Defined.

(** Any run of extra-space allocations of at most a scratch area each
    returns, for every request, either 0 or an 8-byte aligned offset inside
    the extra space, and no two blocks handed out overlap; the mark never
    leaves the scratch area. *)
Lemma scratch_allocs_disjoint st m sizes :
  scratch_wf st -> extra_ok st -> Forall (fun s => 0 < s <= SBI_SCRATCH_SIZE) sizes ->
  exists offs st' m', alloc_run st m sizes = Some (offs, st', m') /\ extra_ok st' /\
    offs.*2 = sizes /\
    Forall (fun p => p.1 = 0 \/ ((8 | p.1) /\ SBI_SCRATCH_EXTRA_SPACE_OFFSET <= p.1 /\
                                 p.1 + p.2 <= SBI_SCRATCH_SIZE)) offs /\
    ForallOrdPairs disjoint_blocks offs.
Proof.
  intros Hwf He Hs.
  destruct (alloc_run_spec sizes st m Hwf He Hs) as (offs & st' & m' & Hr & He' & _ & H2 & Hall & Hord).
  exists offs, st', m'. repeat (split; [done|]). split; [|done].
  eapply Forall_impl; [exact Hall|]. intros [o z]; cbn.
  destruct He as [He _], He' as [He' _]. intuition lia.
Qed.

Lemma scratch_allocs_disjoint_witness :
  exists offs st' m', alloc_run scratch_globals (fun _ => 0) [24; 4000; 9]
                      = Some (offs, st', m') /\ ForallOrdPairs disjoint_blocks offs.
Proof.
  destruct (scratch_allocs_disjoint scratch_globals (fun _ => 0) [24; 4000; 9])
    as (offs & st' & m' & Hr & _ & _ & _ & Hd).
  - unfold scratch_wf; cbn; unfold SBI_HARTMASK_MAX_BITS; lia.
  - split; [cbn; unfold SBI_SCRATCH_EXTRA_SPACE_OFFSET, SBI_SCRATCH_SIZE; lia|by exists 15].
  - repeat apply Forall_cons_2; try apply Forall_nil_2; unfold SBI_SCRATCH_SIZE; lia.
  - exists offs, st', m'. split; [exact Hr|exact Hd].
Defined.

(** [log2roundup] is the ceiling of the base-2 logarithm. *)
Lemma log2roundup_spec x :
  0 <= x < 2 ^ 64 ->
  0 <= log2roundup x <= 64 /\ x <= 2 ^ log2roundup x /\
  (forall k, 0 <= k < log2roundup x -> 2 ^ k < x).
Proof.
  intros Hx. destruct (log2roundup_loop_spec 64 x 0) as (H1 & H2 & H3); [lia..|].
  fold (log2roundup x) in *. split; [done|]. split; [|done].
  destruct (Z.eq_dec (log2roundup x) 64) as [->|]; [lia|apply H3; lia].
Qed.
