(* ===== verification/SbiHartmask.v ===== *)
(** * [sbi_hartmask.h]

    A hartmask is a 128-bit bitmap indexed by hart index.  Operations on hart
    ids go through the tables of [SbiScratch]. *)

From S2P Require Import Prelude SbiBitops SbiScratch.

Record sbi_hartmask := mkMask { bits : list Z }.

Definition SBI_HARTMASK_INIT (m : sbi_hartmask) : sbi_hartmask :=
  mkMask (bitmap_zero (bits m) SBI_HARTMASK_MAX_BITS).

Definition SBI_HARTMASK_INIT_EXCEPT (st : scratch_state) (m : sbi_hartmask) (h : Z)
    : option sbi_hartmask :=
  i ← sbi_hartid_to_hartindex st h;
  Some (mkMask (bitmap_zero_except (bits m) i SBI_HARTMASK_MAX_BITS)).

Definition sbi_hartmask_set_hartindex (i : Z) (m : sbi_hartmask) : sbi_hartmask :=
  if i <? SBI_HARTMASK_MAX_BITS then mkMask (set_bit i (bits m)) else m.

Definition sbi_hartmask_set_hartid (st : scratch_state) (h : Z) (m : sbi_hartmask)
    : option sbi_hartmask :=
  i ← sbi_hartid_to_hartindex st h; Some (sbi_hartmask_set_hartindex i m).

Definition sbi_hartmask_clear_hartindex (i : Z) (m : sbi_hartmask) : sbi_hartmask :=
  if i <? SBI_HARTMASK_MAX_BITS then mkMask (clear_bit i (bits m)) else m.

Definition sbi_hartmask_clear_hartid (st : scratch_state) (h : Z) (m : sbi_hartmask)
    : option sbi_hartmask :=
  i ← sbi_hartid_to_hartindex st h; Some (sbi_hartmask_clear_hartindex i m).

Definition sbi_hartmask_test_hartindex (i : Z) (m : sbi_hartmask) : Z :=
  if i <? SBI_HARTMASK_MAX_BITS then test_bit i (bits m) else 0.

Definition sbi_hartmask_test_hartid (st : scratch_state) (h : Z) (m : sbi_hartmask)
    : option Z :=
  i ← sbi_hartid_to_hartindex st h; Some (sbi_hartmask_test_hartindex i m).

Definition sbi_hartmask_set_all (m : sbi_hartmask) : sbi_hartmask :=
  mkMask (bitmap_fill (bits m) SBI_HARTMASK_MAX_BITS).

Definition sbi_hartmask_clear_all (m : sbi_hartmask) : sbi_hartmask :=
  mkMask (bitmap_zero (bits m) SBI_HARTMASK_MAX_BITS).

Definition sbi_hartmask_copy (dst src : sbi_hartmask) : sbi_hartmask :=
  mkMask (bitmap_copy (bits dst) (bits src) SBI_HARTMASK_MAX_BITS).

Definition sbi_hartmask_and (dst src1 src2 : sbi_hartmask) : sbi_hartmask :=
  mkMask (bitmap_and (bits dst) (bits src1) (bits src2) SBI_HARTMASK_MAX_BITS).

Definition sbi_hartmask_or (dst src1 src2 : sbi_hartmask) : sbi_hartmask :=
  mkMask (bitmap_or (bits dst) (bits src1) (bits src2) SBI_HARTMASK_MAX_BITS).

Definition sbi_hartmask_xor (dst src1 src2 : sbi_hartmask) : sbi_hartmask :=
  mkMask (bitmap_xor (bits dst) (bits src1) (bits src2) SBI_HARTMASK_MAX_BITS).

(** The loop of [sbi_hartmask_for_each_hartindex], [i] being its variable: the
    indices its body runs on.  128 indices and the final test: 129 rounds. *)
Fixpoint for_each_loop (fuel : nat) (m : sbi_hartmask) (i : Z) : option (list Z) :=
  match fuel with
  | O => None
  | S fuel' =>
      if i <? SBI_HARTMASK_MAX_BITS then
        i' ← find_next_bit (bits m) SBI_HARTMASK_MAX_BITS (i + 1);
        rest ← for_each_loop fuel' m i';
        Some (i :: rest)
      else Some []
  end.

Definition sbi_hartmask_for_each_hartindex (m : sbi_hartmask) : option (list Z) :=
  i ← find_first_bit (bits m) SBI_HARTMASK_MAX_BITS; for_each_loop 129 m i.

(** ** The set a hartmask denotes *)

Definition mask_ok (m : sbi_hartmask) : Prop :=
  words_ok (bits m) /\ length (bits m) = 2%nat.

Definition mask_has (m : sbi_hartmask) (i : Z) : bool :=
  (0 <=? i) && (i <? SBI_HARTMASK_MAX_BITS) && bit_at (bits m) i.

(** The set indices in [[lo, 128)], ascending. *)
Definition members_from (m : sbi_hartmask) (lo : Z) : list Z :=
  filter (fun i => mask_has m i = true) (seqZ lo (SBI_HARTMASK_MAX_BITS - lo)).

Definition members (m : sbi_hartmask) : list Z := members_from m 0.

Lemma find_first_is_next a size :
  0 < size < 2 ^ 64 -> find_first_bit a size = find_next_bit a size 0.
Proof.
  intros H. unfold find_first_bit, find_next_bit.
  destruct (Z.leb_spec size 0); [lia|].
  change (0 mod BITS_PER_LONG) with 0. change (0 / BITS_PER_LONG) with 0.
  change (Z.land 0 (not64 (BITS_PER_LONG - 1))) with 0.
  cbn [negb Z.eqb]. by rewrite Z.sub_0_r, (wrap_small 64) by lia.
Qed.

Lemma mask_next m lo :
  mask_ok m -> 0 <= lo <= 128 ->
  exists k, find_next_bit (bits m) SBI_HARTMASK_MAX_BITS lo = Some k /\
            first_in (bit_at (bits m)) lo 128 k.
Proof.
  intros [Hw Hl] Hlo.
  destruct (find_next_bit_spec (bits m) 128 lo Hw) as (k & Hk & H1 & _); [lia..|].
  exists k. split; [done|]. apply H1. lia.
Qed.

Lemma members_cons m lo :
  0 <= lo < 128 ->
  members_from m lo =
  (if mask_has m lo then [lo] else []) ++ members_from m (lo + 1).
Proof.
  intros H. unfold members_from, SBI_HARTMASK_MAX_BITS.
  rewrite seqZ_cons by lia. rewrite filter_cons.
  replace (Z.pred (128 - lo)) with (128 - (lo + 1)) by lia.
  replace (Z.succ lo) with (lo + 1) by lia.
  destruct (mask_has m lo); destruct (decide _); done || congruence.
Qed.

Lemma members_skip m lo k :
  0 <= lo -> lo <= k <= 128 -> (forall j, lo <= j < k -> bit_at (bits m) j = false) ->
  members_from m lo = members_from m k.
Proof.
  intros H0 Hk Hno. remember (Z.to_nat (k - lo)) as n eqn:En.
  revert lo H0 Hk Hno En. induction n as [|n IH]; intros lo H0 Hk Hno En.
  { replace lo with k by lia. done. }
  rewrite members_cons by lia. unfold mask_has. rewrite (Hno lo) by lia.
  rewrite andb_false_r. cbn. apply IH; try lia. intros j ?. apply Hno. lia.
Qed.

Lemma for_each_loop_spec fuel m k :
  mask_ok m -> 0 <= k <= 128 -> (k < 128 -> bit_at (bits m) k = true) ->
  129 - k <= Z.of_nat fuel ->
  for_each_loop fuel m k = Some (members_from m k).
Proof.
  intros Hm. revert k. induction fuel as [|fuel IH]; intros k Hk Hb Hf; [lia|].
  cbn [for_each_loop]. unfold SBI_HARTMASK_MAX_BITS at 1.
  destruct (Z.ltb_spec k 128) as [Hlt|Hge].
  - destruct (mask_next m (k + 1) Hm ltac:(lia)) as (k' & -> & Hk' & Hno & Hyes).
    cbn [mbind option_bind]. rewrite IH by (auto; lia). cbn [mbind option_bind].
    rewrite (members_cons m k) by lia. unfold mask_has. rewrite (Hb Hlt).
    unfold SBI_HARTMASK_MAX_BITS.
    replace ((0 <=? k) && (k <? 128) && true) with true by (zcases; lia || done).
    cbn [app]. by rewrite (members_skip m (k + 1) k') by (auto; lia).
  - replace k with 128 by lia. done.
Qed.

Lemma sorted_filter {A} (R : A -> A -> Prop) (P : A -> Prop) `{forall x, Decision (P x)} l :
  StronglySorted R l -> StronglySorted R (filter P l).
Proof.
  induction 1 as [|x l Hl IH Hx]; [constructor|]. rewrite filter_cons.
  destruct (decide (P x)); [|done]. constructor; [done|].
  apply List.Forall_forall. intros y Hy. rewrite List.Forall_forall in Hx. apply Hx.
  apply list_elem_of_In in Hy. apply list_elem_of_filter in Hy as [_ ?]. by apply list_elem_of_In.
Qed.

Lemma sorted_seqZ lo n : StronglySorted Z.lt (seqZ lo n).
Proof.
  destruct (Z.leb_spec n 0); [rewrite seqZ_nil by done; constructor|].
  rewrite <- (Z2Nat.id n) by lia. generalize (Z.to_nat n) as k. intros k. revert lo.
  induction k as [|k IH]; intros lo; [constructor|].
  rewrite seqZ_cons by lia. replace (Z.pred (Z.of_nat (S k))) with (Z.of_nat k) by lia.
  constructor; [apply IH|]. apply List.Forall_forall. intros y Hy.
  apply list_elem_of_In, elem_of_seqZ in Hy. lia.
Qed.

(** *** Bits of a two-word mask *)

Lemma mask_cases m :
  mask_ok m -> exists a b, m = mkMask [a; b] /\ word_ok a /\ word_ok b.
Proof.
  destruct m as [l]. intros [Hw Hl]. cbn in *.
  destruct l as [|a [|b [|? ?]]]; try done.
  apply Forall_cons in Hw as [? Hw]. apply Forall_cons in Hw as [? _]. eauto.
Qed.

Lemma mask_has_words a b i :
  0 <= i < 128 ->
  mask_has (mkMask [a; b]) i = if i <? 64 then Z.testbit a i else Z.testbit b (i - 64).
Proof.
  intros Hi. unfold mask_has, SBI_HARTMASK_MAX_BITS, bit_at. cbn [bits].
  replace ((0 <=? i) && (i <? 128)) with true by (zcases; lia || done). cbn [andb].
  destruct (Z.ltb_spec i 64).
  - rewrite Z.div_small, Z.mod_small by lia. done.
  - replace (i / 64) with 1 by (apply Z.div_unique with (i - 64); lia).
    replace (i mod 64) with (i - 64) by (apply Z.mod_unique with 1; lia). done.
Qed.

Lemma mask_op_words op dst a b c d :
  length (bits dst) = 2%nat ->
  bitmap_op op (bits dst) [a; b] [c; d] SBI_HARTMASK_MAX_BITS = [op a c; op b d].
Proof. destruct dst as [[|? [|? [|? ?]]]]; cbn; intros; done. Qed.

(** A word-wise operation acts bit by bit. *)
Lemma mask_op_has op f dst m1 m2 i :
  mask_ok m1 -> mask_ok m2 -> length (bits dst) = 2%nat ->
  (forall x y k, 0 <= k -> Z.testbit (op x y) k = f (Z.testbit x k) (Z.testbit y k)) ->
  0 <= i < 128 ->
  mask_has (mkMask (bitmap_op op (bits dst) (bits m1) (bits m2) SBI_HARTMASK_MAX_BITS)) i
  = f (mask_has m1 i) (mask_has m2 i).
Proof.
  intros (a & b & -> & _)%mask_cases (c & d & -> & _)%mask_cases Hd Hop Hi.
  cbn [bits]. rewrite mask_op_words, !mask_has_words by done.
  destruct (Z.ltb_spec i 64); apply Hop; lia.
Qed.

Lemma all_ones_bit k : 0 <= k < 64 -> Z.testbit ULONG_MAX k = true.
Proof. intros. apply (Z.ones_spec_low 64). lia. Qed.

Lemma mask_index_range i : 0 <= i < 128 -> (0 <=? i) && (i <? 128) = true.
Proof. intros. zcases; lia || done. Qed.

Lemma mask_test i m : 0 <= i < 128 -> sbi_hartmask_test_hartindex i m = Z.b2z (mask_has m i).
Proof.
  intros Hi. unfold sbi_hartmask_test_hartindex, mask_has, SBI_HARTMASK_MAX_BITS.
  rewrite mask_index_range, test_bit_spec by lia. by destruct (Z.ltb_spec i 128); [|lia].
Qed.

Lemma mask_has_set m i j :
  mask_ok m -> 0 <= i < 128 -> 0 <= j ->
  mask_has (sbi_hartmask_set_hartindex j m) i = (i =? j) || mask_has m i.
Proof.
  intros [_ Hl] Hi Hj. unfold sbi_hartmask_set_hartindex, SBI_HARTMASK_MAX_BITS.
  destruct (Z.ltb_spec j 128).
  - unfold mask_has, SBI_HARTMASK_MAX_BITS. cbn [bits].
    rewrite mask_index_range, bit_at_set by lia. done.
  - by destruct (Z.eqb_spec i j); [lia|].
Qed.

Lemma mask_has_clear m i j :
  mask_ok m -> 0 <= i < 128 -> 0 <= j ->
  mask_has (sbi_hartmask_clear_hartindex j m) i = negb (i =? j) && mask_has m i.
Proof.
  intros [_ Hl] Hi Hj. unfold sbi_hartmask_clear_hartindex, SBI_HARTMASK_MAX_BITS.
  destruct (Z.ltb_spec j 128).
  - unfold mask_has, SBI_HARTMASK_MAX_BITS. cbn [bits].
    rewrite mask_index_range, bit_at_clear by lia. done.
  - by destruct (Z.eqb_spec i j); [lia|].
Qed.

Lemma mask_has_clear_all m i :
  mask_ok m -> 0 <= i < 128 -> mask_has (sbi_hartmask_clear_all m) i = false.
Proof.
  intros (a & b & -> & _)%mask_cases Hi.
  change (sbi_hartmask_clear_all _) with (mkMask [0; 0]).
  rewrite mask_has_words, !Z.bits_0 by done. by destruct (i <? 64).
Qed.

Lemma mask_set_ok j m : mask_ok m -> mask_ok (sbi_hartmask_set_hartindex j m).
Proof.
  intros [Hw Hl]. unfold sbi_hartmask_set_hartindex. destruct (j <? _); [|done].
  split; cbn; [by apply set_bit_ok|by rewrite set_bit_length].
Qed.

Lemma mask_clear_ok j m : mask_ok m -> mask_ok (sbi_hartmask_clear_hartindex j m).
Proof.
  intros [Hw Hl]. unfold sbi_hartmask_clear_hartindex. destruct (j <? _); [|done].
  split; cbn; [by apply clear_bit_ok|by rewrite clear_bit_length].
Qed.

Lemma mask_zero_ok : mask_ok (mkMask [0; 0]).
Proof.
  split; [|done]. repeat apply Forall_cons_2; try apply Forall_nil_2; unfold word_ok; lia.
Qed.

Lemma mask_clear_all_ok m : mask_ok m -> mask_ok (sbi_hartmask_clear_all m).
Proof. intros (a & b & -> & _)%mask_cases. apply mask_zero_ok. Qed.

#[export] Hint Resolve mask_set_ok mask_clear_ok mask_zero_ok mask_clear_all_ok : sbi.

Lemma mask_copy dst src : mask_ok dst -> mask_ok src -> sbi_hartmask_copy dst src = src.
Proof.
  intros (a & b & -> & _)%mask_cases (c & d & -> & _)%mask_cases. reflexivity.
Qed.

Lemma mask_or_ok dst m1 m2 :
  mask_ok dst -> mask_ok m1 -> mask_ok m2 -> mask_ok (sbi_hartmask_or dst m1 m2).
Proof.
  intros (a & b & -> & _ & _)%mask_cases (c & d & -> & Hc & Hd)%mask_cases
    (e & f & -> & He & Hf)%mask_cases.
  change (mask_ok (mkMask [Z.lor c e; Z.lor d f])).
  split; [|done]. repeat apply Forall_cons_2; [by apply lor_ok|by apply lor_ok|by apply Forall_nil_2].
Qed.

Lemma mask_or_has m1 m2 i :
  mask_ok m1 -> mask_ok m2 ->
  mask_has (sbi_hartmask_or m1 m1 m2) i = mask_has m1 i || mask_has m2 i.
Proof.
  intros H1 H2. destruct (decide (0 <= i < 128)).
  - apply (mask_op_has Z.lor orb); try done; [apply H1|]. intros. apply Z.lor_spec.
  - unfold mask_has, SBI_HARTMASK_MAX_BITS. zcases; cbn; lia || done.
Qed.

Lemma mask_and_ok dst m1 m2 :
  mask_ok dst -> mask_ok m1 -> mask_ok m2 -> mask_ok (sbi_hartmask_and dst m1 m2).
Proof.
  intros (a & b & -> & _ & _)%mask_cases (c & d & -> & Hc & Hd)%mask_cases
    (e & f & -> & [He _] & [Hf _])%mask_cases.
  change (mask_ok (mkMask [Z.land c e; Z.land d f])).
  split; [|done]. repeat apply Forall_cons_2; [by apply land_ok|by apply land_ok|by apply Forall_nil_2].
Qed.

Lemma mask_and_has m1 m2 i :
  mask_ok m1 -> mask_ok m2 ->
  mask_has (sbi_hartmask_and m1 m1 m2) i = mask_has m1 i && mask_has m2 i.
Proof.
  intros H1 H2. destruct (decide (0 <= i < 128)).
  - apply (mask_op_has Z.land andb); try done; [apply H1|]. intros. apply Z.land_spec.
  - unfold mask_has, SBI_HARTMASK_MAX_BITS. zcases; cbn; lia || done.
Qed.

Lemma for_each_members m : mask_ok m -> sbi_hartmask_for_each_hartindex m = Some (members m).
Proof.
  intros Hm. unfold sbi_hartmask_for_each_hartindex.
  rewrite find_first_is_next by (unfold SBI_HARTMASK_MAX_BITS; lia).
  destruct (mask_next m 0 Hm ltac:(lia)) as (k & -> & Hk & Hno & Hyes). cbn [mbind option_bind].
  rewrite for_each_loop_spec by (auto; lia). unfold members.
  by rewrite (members_skip m 0 k) by (auto; lia).
Qed.

Lemma elem_of_members m i : i ∈ members m <-> mask_has m i = true.
Proof.
  unfold members, members_from. rewrite list_elem_of_filter, elem_of_seqZ.
  unfold mask_has, SBI_HARTMASK_MAX_BITS. split; [tauto|]. intros H.
  split; [done|]. prop_bool. lia.
Qed.

(** ** Properties *)

(** Iterating over a hartmask terminates and runs the body on exactly the
    hart indices in the mask, each once, in ascending order. *)
Lemma hartmask_for_each_correct m :
  mask_ok m ->
  sbi_hartmask_for_each_hartindex m = Some (members m) /\
  (forall i, i ∈ members m <-> mask_has m i = true) /\
  StronglySorted Z.lt (members m).
Proof.
  intros Hm. split; [by apply for_each_members|]. split; [apply elem_of_members|].
  unfold members, members_from. apply sorted_filter, sorted_seqZ.
Qed.

Lemma hartmask_for_each_correct_witness :
  sbi_hartmask_for_each_hartindex (mkMask [5; 2 ^ 63]) = Some (members (mkMask [5; 2 ^ 63])).
Proof.
  refine (proj1 (hartmask_for_each_correct (mkMask [5; 2 ^ 63]) _)).
  split; [|reflexivity].
  repeat apply Forall_cons_2; try apply Forall_nil_2; unfold word_ok; lia.
Defined.

(** A hartmask implements a set of hart indices below 128: setting and
    clearing an index (ignored from 128 on), testing, filling, clearing and
    the three binary operations act on membership as the set operations do. *)
Lemma hartmask_is_a_set m1 m2 i j :
  mask_ok m1 -> mask_ok m2 -> 0 <= i < 128 -> 0 <= j ->
  sbi_hartmask_test_hartindex i m1 = Z.b2z (mask_has m1 i) /\
  mask_has (sbi_hartmask_set_hartindex j m1) i = (i =? j) || mask_has m1 i /\
  mask_has (sbi_hartmask_clear_hartindex j m1) i = negb (i =? j) && mask_has m1 i /\
  mask_has (sbi_hartmask_set_all m1) i = true /\
  mask_has (sbi_hartmask_clear_all m1) i = false /\
  mask_has (sbi_hartmask_copy m1 m2) i = mask_has m2 i /\
  mask_has (sbi_hartmask_and m1 m1 m2) i = mask_has m1 i && mask_has m2 i /\
  mask_has (sbi_hartmask_or m1 m1 m2) i = mask_has m1 i || mask_has m2 i /\
  mask_has (sbi_hartmask_xor m1 m1 m2) i = xorb (mask_has m1 i) (mask_has m2 i).
Proof.
  intros H1 H2 Hi Hj. pose proof (proj2 H1) as Hl. split_and!.
  - by apply mask_test.
  - by apply mask_has_set.
  - by apply mask_has_clear.
  - destruct (mask_cases m1 H1) as (a & b & -> & _).
    change (sbi_hartmask_set_all _) with (mkMask [ULONG_MAX; ULONG_MAX]).
    rewrite mask_has_words by done. destruct (Z.ltb_spec i 64); apply all_ones_bit; lia.
  - by apply mask_has_clear_all.
  - destruct (mask_cases m1 H1) as (a & b & -> & _), (mask_cases m2 H2) as (c & d & -> & _). done.
  - apply mask_op_has; auto using Z.land_spec.
  - apply mask_op_has; auto using Z.lor_spec.
  - apply mask_op_has; auto using Z.lxor_spec.
Qed.

Lemma hartmask_is_a_set_witness :
  mask_has (sbi_hartmask_or (mkMask [1; 0]) (mkMask [1; 0]) (mkMask [0; 8])) 67 = true.
Proof.
  rewrite (proj1 (proj2 (proj2 (proj2 (proj2 (proj2 (proj2 (proj2
    (hartmask_is_a_set (mkMask [1; 0]) (mkMask [0; 8]) 67 0
       ltac:(split; [repeat apply Forall_cons_2; try apply Forall_nil_2; unfold word_ok; lia|reflexivity])
       ltac:(split; [repeat apply Forall_cons_2; try apply Forall_nil_2; unfold word_ok; lia|reflexivity])
       ltac:(lia) ltac:(lia)))))))))).
  reflexivity.
Defined.
