(* ===== verification/SbiMemregion.v ===== *)
(** * Memory regions of domains ([sbi_domain.c], first half)

    Regions are naturally aligned power-of-two blocks ([order], [base]) with
    access flags.  A domain's regions are an array closed by an entry of order
    zero; the array is a list that holds at least that terminator, and
    [memregions] is the part in front of it, which is what
    [sbi_domain_for_each_memregion] visits.

    C leaves [1UL << 64] undefined.  RISC-V's [sll] shifts by the amount modulo
    64, and [BIT] follows the instruction. *)

From S2P Require Import Prelude SbiBitops SbiScratch SbiHartmask.

Definition PRV_U : Z := 0.
Definition PRV_S : Z := 1.
Definition PRV_M : Z := 3.

Definition SBI_DOMAIN_READ : Z := 1.
Definition SBI_DOMAIN_WRITE : Z := 2.
Definition SBI_DOMAIN_EXECUTE : Z := 4.
Definition SBI_DOMAIN_MMIO : Z := 8.

Definition M_READABLE : Z := 1.
Definition M_WRITABLE : Z := 2.
Definition M_EXECUTABLE : Z := 4.
Definition SU_READABLE : Z := 8.
Definition SU_WRITABLE : Z := 16.
Definition SU_EXECUTABLE : Z := 32.
Definition M_ACCESS_MASK : Z := 7.
Definition SU_ACCESS_MASK : Z := 56.
Definition SU_ACCESS_SHIFT : Z := 3.
Definition MEMREGION_MMIO : Z := 2 ^ 31.

Definition BIT (nr : Z) : Z := u64 (Z.shiftl 1 (nr mod 64)).

Record sbi_domain_memregion := mkReg { order : Z; base : Z; flags : Z }.

#[export] Instance memregion_eq_dec : EqDecision sbi_domain_memregion.
Proof. solve_decision. Defined.

#[export] Instance memregion_inhabited : Inhabited sbi_domain_memregion :=
  populate (mkReg 0 0 0).

(** The fields of [struct sbi_domain] this file reads.  [None] is the NULL
    pointer; [node], [name] and [data_priv] carry no logic here. *)
Record sbi_domain := mkDom {
  index : Z;
  assigned_harts : sbi_hartmask;
  possible_harts : option sbi_hartmask;
  regions : option (list sbi_domain_memregion);
  boot_hartid : Z;
  next_arg1 : Z;
  next_addr : Z;
  next_mode : Z;
  system_reset_allowed : bool;
  system_suspend_allowed : bool;
  fw_region_inited : bool
}.

Definition set_regions (d : sbi_domain) (r : list sbi_domain_memregion) : sbi_domain :=
  mkDom (index d) (assigned_harts d) (possible_harts d) (Some r) (boot_hartid d)
    (next_arg1 d) (next_addr d) (next_mode d) (system_reset_allowed d)
    (system_suspend_allowed d) (fw_region_inited d).

Fixpoint memregions (l : list sbi_domain_memregion) : list sbi_domain_memregion :=
  match l with
  | [] => []
  | r :: l' => if order r =? 0 then [] else r :: memregions l'
  end.

Definition dom_regions (d : sbi_domain) : list sbi_domain_memregion :=
  memregions (default [] (regions d)).

(** ** Building a region *)

Fixpoint memregion_loop (n : nat) (ord base addr size : Z) : Z * Z :=
  match n with
  | O => (base, ord)
  | S n' =>
      if ord <? 64 then
        let base := Z.land addr (not64 (u64 (Z.shiftl 1 ord) - 1)) in
        let top := u64 (base + u64 (Z.shiftl 1 ord)) in
        let last := u64 (u64 (addr + size) - 1) in
        if (base <=? addr) && (addr <? top) && (base <=? last) && (last <? top)
        then (base, ord)
        else memregion_loop n' (ord + 1) base addr size
      else (0, ord)
  end.

Definition sbi_domain_memregion_init (addr size flg : Z) : sbi_domain_memregion :=
  let ord := log2roundup size in
  let '(base, ord) := memregion_loop (Z.to_nat (65 - ord)) ord 0 addr size in
  mkReg ord base flg.

(** ** Access checks *)

Definition region_end (reg : sbi_domain_memregion) : Z :=
  if order reg <? 64 then u64 (base reg + (u64 (Z.shiftl 1 (order reg)) - 1)) else ULONG_MAX.

Definition region_hit (reg : sbi_domain_memregion) (addr : Z) : bool :=
  (base reg <=? addr) && (addr <=? region_end reg).

Definition access_rwx (access_flags : Z) : Z :=
  let rwx := 0 in
  let rwx := if negb (Z.land access_flags SBI_DOMAIN_READ =? 0)
             then Z.lor rwx M_READABLE else rwx in
  let rwx := if negb (Z.land access_flags SBI_DOMAIN_WRITE =? 0)
             then Z.lor rwx M_WRITABLE else rwx in
  if negb (Z.land access_flags SBI_DOMAIN_EXECUTE =? 0)
  then Z.lor rwx M_EXECUTABLE else rwx.

Definition region_rwx (reg : sbi_domain_memregion) (mode : Z) : Z :=
  if mode =? PRV_M then Z.land (flags reg) M_ACCESS_MASK
  else Z.shiftr (Z.land (flags reg) SU_ACCESS_MASK) SU_ACCESS_SHIFT.

Fixpoint check_addr_loop (regs : list sbi_domain_memregion) (addr mode rwx : Z) (mmio : bool)
    : bool :=
  match regs with
  | [] => mode =? PRV_M
  | reg :: regs' =>
      if region_hit reg addr then
        let rmmio := negb (Z.land (flags reg) MEMREGION_MMIO =? 0) in
        if negb (Bool.eqb mmio rmmio) then false
        else Z.land (region_rwx reg mode) rwx =? rwx
      else check_addr_loop regs' addr mode rwx mmio
  end.

(** [None] is the NULL domain. *)
Definition sbi_domain_check_addr (dom : option sbi_domain) (addr mode access_flags : Z) : bool :=
  match dom with
  | None => false
  | Some d =>
      check_addr_loop (dom_regions d) addr mode (access_rwx access_flags)
        (negb (Z.land access_flags SBI_DOMAIN_MMIO =? 0))
  end.

Definition is_region_valid (reg : sbi_domain_memregion) : bool :=
  if (order reg <? 3) || (64 <? order reg) then false
  else if (order reg =? 64) && negb (base reg =? 0) then false
  else if (order reg <? 64) && negb (Z.land (base reg) (BIT (order reg) - 1) =? 0) then false
  else true.

Definition is_region_subset (regA regB : sbi_domain_memregion) : bool :=
  let regA_start := base regA in
  let regA_end := u64 (base regA + (BIT (order regA) - 1)) in
  let regB_start := base regB in
  let regB_end := u64 (base regB + (BIT (order regB) - 1)) in
  (regB_start <=? regA_start) && (regA_start <? regB_end) &&
  (regB_start <? regA_end) && (regA_end <=? regB_end).

Definition is_region_compatible (regA regB : sbi_domain_memregion) : bool :=
  is_region_subset regA regB && (flags regA =? flags regB).

Definition is_region_before (regA regB : sbi_domain_memregion) : bool :=
  (order regA <? order regB) || ((order regA =? order regB) && (base regA <? base regB)).

(** ** Searching the regions.  A region pointer is its index in the array. *)

Fixpoint find_region_loop (regs : list sbi_domain_memregion) (i : nat) (addr : Z)
    : option (nat * sbi_domain_memregion) :=
  match regs with
  | [] => None
  | reg :: regs' =>
      if region_hit reg addr then Some (i, reg) else find_region_loop regs' (S i) addr
  end.

Definition find_region (d : sbi_domain) (addr : Z) : option (nat * sbi_domain_memregion) :=
  find_region_loop (dom_regions d) 0 addr.

Fixpoint subset_loop (regs : list sbi_domain_memregion) (i : nat)
    (reg : nat * sbi_domain_memregion) (addr : Z) (ret : option sbi_domain_memregion)
    : option sbi_domain_memregion :=
  match regs with
  | [] => ret
  | sreg :: regs' =>
      let ret :=
        if (Nat.eqb i reg.1) || (base sreg <=? addr) || negb (is_region_subset sreg reg.2)
        then ret
        else match ret with
             | None => Some sreg
             | Some r =>
                 if (base sreg <? base r) ||
                    ((base sreg =? base r) && (order sreg <? order r))
                 then Some sreg else ret
             end in
      subset_loop regs' (S i) reg addr ret
  end.

Definition find_next_subset_region (d : sbi_domain) (reg : nat * sbi_domain_memregion)
    (addr : Z) : option sbi_domain_memregion :=
  subset_loop (dom_regions d) 0 reg addr None.

(** The loop of [sbi_domain_check_addr_range]; [None] when the fuel runs out. *)
Fixpoint addr_range_loop (fuel : nat) (d : sbi_domain) (addr max mode access_flags : Z)
    : option bool :=
  match fuel with
  | O => None
  | S fuel' =>
      if addr <? max then
        match find_region d addr with
        | None => Some false
        | Some reg =>
            if negb (sbi_domain_check_addr (Some d) addr mode access_flags) then Some false
            else
              match find_next_subset_region d reg addr with
              | Some sreg => addr_range_loop fuel' d (base sreg) max mode access_flags
              | None =>
                  if order reg.2 <? 64 then
                    addr_range_loop fuel' d
                      (u64 (base reg.2 + u64 (Z.shiftl 1 (order reg.2)))) max mode access_flags
                  else Some true
              end
        end
      else Some true
  end.

(** Every round but the last moves to the start or the end of a region. *)
Definition range_fuel (d : sbi_domain) : nat := 2 + 2 * length (dom_regions d).

Definition sbi_domain_check_addr_range (dom : option sbi_domain) (addr size mode access_flags : Z)
    : option bool :=
  let max := u64 (addr + size) in
  match dom with
  | None => Some false
  | Some d => addr_range_loop (range_fuel d) d addr max mode access_flags
  end.

(** ** Sanitizing a domain *)

Definition reg_at (a : list sbi_domain_memregion) (i : Z) : sbi_domain_memregion :=
  nth (Z.to_nat i) a (mkReg 0 0 0).

Definition set_reg (a : list sbi_domain_memregion) (i : Z) (r : sbi_domain_memregion)
    : list sbi_domain_memregion := <[Z.to_nat i := r]> a.

Definition swap_region (a : list sbi_domain_memregion) (i j : Z) : list sbi_domain_memregion :=
  let treg := reg_at a i in set_reg (set_reg a i (reg_at a j)) j treg.

Definition clear_region (a : list sbi_domain_memregion) (i : Z) : list sbi_domain_memregion :=
  set_reg a i (mkReg 0 0 0).

(** [for (j = ...; j < count; j++)], with [n] rounds left. *)
Fixpoint sort_inner (n : nat) (i j : Z) (a : list sbi_domain_memregion)
    : list sbi_domain_memregion :=
  match n with
  | O => a
  | S n' =>
      let a := if negb (is_region_before (reg_at a j) (reg_at a i)) then a
               else swap_region a i j in
      sort_inner n' i (j + 1) a
  end.

(** [for (i = 0; i < count - 1; i++)], with [n] rounds left; the value of [i]
    after the loop is returned. *)
Fixpoint sort_outer (n : nat) (i count : Z) (a : list sbi_domain_memregion)
    : Z * list sbi_domain_memregion :=
  match n with
  | O => (i, a)
  | S n' => sort_outer n' (i + 1) count (sort_inner (Z.to_nat (count - (i + 1))) i (i + 1) a)
  end.

Fixpoint covered_by_later (n : nat) (j : Z) (reg : sbi_domain_memregion)
    (a : list sbi_domain_memregion) : bool :=
  match n with
  | O => false
  | S n' => if is_region_compatible reg (reg_at a j) then true
            else covered_by_later n' (j + 1) reg a
  end.

Fixpoint bubble_out (n : nat) (j : Z) (a : list sbi_domain_memregion)
    : list sbi_domain_memregion :=
  match n with O => a | S n' => bubble_out n' (j + 1) (swap_region a j (j + 1)) end.

(** [while (i < count - 1)]: each round advances [i] or lowers [count]. *)
Fixpoint remove_covered (fuel : nat) (i count : Z) (a : list sbi_domain_memregion)
    : option (list sbi_domain_memregion) :=
  if i <? u32 (count - 1) then
    match fuel with
    | O => None
    | S fuel' =>
        if covered_by_later (Z.to_nat (count - (i + 1))) (i + 1) (reg_at a i) a then
          let a := bubble_out (Z.to_nat (count - 1 - i)) i a in
          remove_covered fuel' i (count - 1) (clear_region a (count - 1))
        else remove_covered fuel' (i + 1) count a
    end
  else Some a.

Definition sanitize_domain (scr : scratch_state) (dom : sbi_domain) : option (Z * sbi_domain) :=
  match possible_harts dom with
  | None => Some (SBI_EINVAL, dom)
  | Some mask =>
      harts ← sbi_hartmask_for_each_hartindex mask;
      if negb (forallb (sbi_hartindex_valid scr) harts) then Some (SBI_EINVAL, dom)
      else match regions dom with
      | None => Some (SBI_EINVAL, dom)
      | Some a =>
          if negb (forallb is_region_valid (memregions a)) then Some (SBI_EINVAL, dom)
          else
            let count := Z.of_nat (length (memregions a)) in
            if negb (fw_region_inited dom) then Some (SBI_EINVAL, dom)
            else
              let '(i, a) := sort_outer (Z.to_nat (u32 (count - 1))) 0 count a in
              a ← remove_covered (Z.to_nat count) i count a;
              let dom := set_regions dom a in
              if negb (next_mode dom =? PRV_S) && negb (next_mode dom =? PRV_U)
              then Some (SBI_EINVAL, dom)
              else if negb (sbi_domain_check_addr (Some dom) (next_addr dom) (next_mode dom)
                              SBI_DOMAIN_EXECUTE)
              then Some (SBI_EINVAL, dom)
              else Some (0, dom)
      end
  end.

(** ** Lemmas: building a region *)

(** The fields hold values of their C types. *)
Definition reg_typed (r : sbi_domain_memregion) : Prop :=
  0 <= order r < 2 ^ 64 /\ 0 <= base r < 2 ^ 64 /\ 0 <= flags r < 2 ^ 64.

(** A naturally aligned block of at least eight bytes. *)
Definition reg_ok (r : sbi_domain_memregion) : Prop :=
  3 <= order r <= 64 /\ 0 <= base r /\ base r + 2 ^ order r <= 2 ^ 64 /\ (2 ^ order r | base r).

Definition covers (r : sbi_domain_memregion) (a : Z) : Prop :=
  base r <= a < base r + 2 ^ order r.

#[export] Instance covers_dec r a : Decision (covers r a).
Proof. unfold covers. apply _. Defined.

Lemma pow2_lt a b : 0 <= a -> a < b -> 2 ^ a < 2 ^ b.
Proof. intros. apply Z.pow_lt_mono_r; lia. Qed.

Lemma pow2_pos a : 0 <= a -> 0 < 2 ^ a.
Proof. intros. apply Z.pow_pos_nonneg; lia. Qed.

Lemma shiftl_one n : 0 <= n < 64 -> u64 (Z.shiftl 1 n) = 2 ^ n.
Proof.
  intros. rewrite Z.shiftl_1_l. apply wrap_small.
  pose proof (pow2_lt n 64). pose proof (pow2_pos n). lia.
Qed.

Lemma BIT_spec n : 0 <= n < 64 -> BIT n = 2 ^ n.
Proof. intros. unfold BIT. rewrite Z.mod_small by lia. by apply shiftl_one. Qed.

(** An aligned block that contains [x] is the one that starts at [x] rounded
    down. *)
Lemma aligned_base b k x :
  0 <= k -> (2 ^ k | b) -> b <= x < b + 2 ^ k -> b = x - x mod 2 ^ k.
Proof.
  intros Hk [q ->] Hx. pose proof (pow2_pos k Hk).
  assert (x mod 2 ^ k = x - q * 2 ^ k) as ->; [|lia].
  symmetry. apply Z.mod_unique with q; lia.
Qed.

Lemma round_down_divides x k : 0 <= k -> (2 ^ k | x - x mod 2 ^ k).
Proof.
  intros Hk. pose proof (pow2_pos k Hk). apply Z.mod_divide; [lia|].
  rewrite Zminus_mod_idemp_r. by rewrite Z.sub_diag.
Qed.

(** The block of order [ord] around [addr] holds the range and ends below the
    top of the address space. *)
Definition fits (addr size ord : Z) : Prop :=
  addr - addr mod 2 ^ ord + 2 ^ ord < 2 ^ 64 /\
  addr + size <= addr - addr mod 2 ^ ord + 2 ^ ord.

Lemma memregion_loop_spec n ord base addr size :
  0 <= addr -> 0 < size -> addr + size <= 2 ^ 64 -> 0 <= ord -> ord + Z.of_nat n = 65 -> (0 < n)%nat ->
  exists b o, memregion_loop n ord base addr size = (b, o) /\ ord <= o <= 64 /\
    (o < 64 -> b = addr - addr mod 2 ^ o /\ fits addr size o) /\ (o = 64 -> b = 0) /\
    (forall k, ord <= k < o -> ~ fits addr size k).
Proof.
  intros Ha Hs Has. revert ord base. induction n as [|n IH]; intros ord base Ho Hn Hpos; [lia|].
  cbn [memregion_loop]. destruct (Z.ltb_spec ord 64) as [Hlt|Hge].
  2:{ exists 0, ord. split; [done|]. repeat split; try lia. }
  rewrite shiftl_one by lia. rewrite land_not_mask by lia.
  pose proof (pow2_pos ord Ho) as Hp. pose proof (pow2_lt ord 64 Ho Hlt).
  pose proof (Z.mod_pos_bound addr (2 ^ ord) Hp) as Hm.
  pose proof (Z.mod_le addr (2 ^ ord) Ha Hp).
  set (b := addr - addr mod 2 ^ ord) in *.
  assert (Hlast : u64 (u64 (addr + size) - 1) = addr + size - 1).
  { rewrite wrap_sub_l. apply wrap_small. lia. }
  rewrite Hlast.
  assert (Hcond : (b <=? addr) && (addr <? u64 (b + 2 ^ ord)) && (b <=? addr + size - 1) &&
                  (addr + size - 1 <? u64 (b + 2 ^ ord)) = true <-> fits addr size ord).
  { unfold fits. fold b. destruct (Z.ltb_spec (b + 2 ^ ord) (2 ^ 64)) as [Hb|Hb].
    - rewrite (wrap_small 64) by lia. rewrite !andb_true_iff, !Z.leb_le, !Z.ltb_lt. lia.
    - assert (b + 2 ^ ord = 2 ^ 64) as ->.
      { assert ((2 ^ ord | 2 ^ 64 - b)) as [q Hq].
        { apply Z.divide_sub_r; [|by apply round_down_divides].
          exists (2 ^ (64 - ord)). rewrite <- Z.pow_add_r by lia. f_equal. lia. }
        assert (0 < q) by nia. assert (q <= 1) by nia. assert (q = 1) as -> by lia. lia. }
      change (u64 (2 ^ 64)) with 0. rewrite !andb_true_iff, !Z.leb_le, !Z.ltb_lt. lia. }
  destruct (_ && _) eqn:E.
  - exists b, ord. split; [done|]. split; [lia|]. split; [intros _; split; [done|by apply Hcond]|].
    split; [lia|]. intros; lia.
  - destruct (IH (ord + 1) b) as (b' & o & -> & Hr & H1 & H2 & H3); [lia..|].
    exists b', o. split; [done|]. split; [lia|]. split; [done|]. split; [done|].
    intros k Hk Hf. destruct (Z.eq_dec k ord) as [->|].
    + apply Hcond in Hf. congruence.
    + apply (H3 k); [lia|done].
Qed.

Lemma memregion_init_spec addr size flg :
  0 <= addr -> 0 < size -> addr + size <= 2 ^ 64 -> size < 2 ^ 64 ->
  let r := sbi_domain_memregion_init addr size flg in
  flags r = flg /\ 0 <= order r <= 64 /\ (2 ^ order r | base r) /\
  0 <= base r <= addr /\ addr + size <= base r + 2 ^ order r /\
  (forall k b, 0 <= k <= 64 -> (2 ^ k | b) -> b <= addr -> addr + size <= b + 2 ^ k ->
     b + 2 ^ k < 2 ^ 64 -> order r <= k) /\
  (addr + size = 2 ^ 64 -> order r = 64 /\ base r = 0).
Proof.
  intros Ha Hs Has Hs64. unfold sbi_domain_memregion_init.
  destruct (log2roundup_spec size) as (Hl & _ & Hsmall); [lia|].
  destruct (memregion_loop_spec (Z.to_nat (65 - log2roundup size)) (log2roundup size) 0 addr size)
    as (b & o & -> & Ho & H1 & H2 & H3); [lia..|]. cbn.
  split; [done|]. split; [lia|].
  assert (Ho64 : o < 64 \/ (o = 64 /\ b = 0)) by (destruct (Z.eq_dec o 64); [right; auto|left; lia]).
  assert (Hp : 0 < 2 ^ o) by (apply pow2_pos; lia).
  pose proof (Z.mod_pos_bound addr (2 ^ o) Hp).
  split_and!.
  - destruct Ho64 as [Hlt|[-> ->]]; [|apply Z.divide_0_r].
    destruct (H1 Hlt) as [-> _]. apply round_down_divides. lia.
  - destruct Ho64 as [Hlt|[-> ->]]; [|lia]. destruct (H1 Hlt) as [-> _].
    pose proof (Z.mod_le addr (2 ^ o) Ha Hp). lia.
  - destruct Ho64 as [Hlt|[-> ->]]; [|lia]. destruct (H1 Hlt) as [-> _]. lia.
  - destruct Ho64 as [Hlt|[-> ->]]; [|lia]. destruct (H1 Hlt) as [-> [_ Hf]]. lia.
  - intros k c Hk Hd Hc1 Hc2 Hc3. destruct (Z.leb_spec o k); [done|exfalso].
    pose proof (aligned_base c k addr ltac:(lia) Hd ltac:(lia)) as ->.
    destruct (Z.ltb_spec k (log2roundup size)) as [Hk'|Hk'].
    + specialize (Hsmall k ltac:(lia)). pose proof (Z.mod_pos_bound addr (2 ^ k)). lia.
    + apply (H3 k); [lia|]. split; lia.
  - intros Htop. destruct Ho64 as [Hlt|[-> ->]]; [|done].
    destruct (H1 Hlt) as [_ [Hf1 Hf2]]. lia.
Qed.

(** [sbi_domain_memregion_init] returns a naturally aligned power-of-two
    block that contains the requested range.  The block is the smallest such
    one, except at the top of the address space: a range whose smallest block
    ends at 2^64 gets the block of all addresses, since the block's end wraps
    to zero in the test. *)
Lemma memregion_init_correct addr size flg :
  0 <= addr -> 0 < size -> addr + size <= 2 ^ 64 -> size < 2 ^ 64 ->
  let r := sbi_domain_memregion_init addr size flg in
  flags r = flg /\ 0 <= order r <= 64 /\ (2 ^ order r | base r) /\
  0 <= base r <= addr /\ addr + size <= base r + 2 ^ order r /\
  (forall k b, 0 <= k <= 64 -> (2 ^ k | b) -> b <= addr -> addr + size <= b + 2 ^ k ->
     b + 2 ^ k < 2 ^ 64 -> order r <= k) /\
  (addr + size = 2 ^ 64 -> order r = 64 /\ base r = 0).
Proof. apply memregion_init_spec. Qed.

Lemma memregion_init_correct_witness :
  let r := sbi_domain_memregion_init 0x80000000 0x20000 5 in
  base r <= 0x80000000 /\ 0x80000000 + 0x20000 <= base r + 2 ^ order r /\ order r = 17.
Proof.
  destruct (memregion_init_correct 0x80000000 0x20000 5) as (_ & _ & _ & H1 & H2 & _);
    [lia|lia|lia|lia|].
  split; [apply H1|]. split; [exact H2|]. reflexivity.
Defined.

(** ** Lemmas: the array of regions *)

Lemma memregions_split a :
  exists tl, a = memregions a ++ tl /\ (tl = [] \/ exists r tl', tl = r :: tl' /\ order r = 0).
Proof.
  induction a as [|r a IH]; [exists []; auto|]. cbn. destruct (Z.eqb_spec (order r) 0).
  - exists (r :: a). split; [done|]. right. eauto.
  - destruct IH as (tl & -> & Ht). exists tl. split; [|done].
    cbn. f_equal. f_equal. symmetry.
    assert (Hm : forall l, memregions (memregions l ++ tl) = memregions l).
    { intros l. induction l as [|x l IHl]; cbn.
      - destruct Ht as [->|(x & tl' & -> & E)]; [done|]. cbn. by rewrite E.
      - destruct (Z.eqb_spec (order x) 0) as [E|E]; cbn.
        + destruct Ht as [->|(y & tl' & -> & E')]; [done|]. cbn. by rewrite E'.
        + destruct (Z.eqb_spec (order x) 0); [done|]. by rewrite IHl. }
    apply Hm.
Qed.

Lemma memregions_app l tl :
  Forall (fun r => order r <> 0) l -> (tl = [] \/ exists r tl', tl = r :: tl' /\ order r = 0) ->
  memregions (l ++ tl) = l.
Proof.
  intros Hl Ht. induction Hl as [|r l Hr Hl IH]; cbn.
  - destruct Ht as [->|(r & tl' & -> & E)]; [done|]. cbn. by rewrite E.
  - destruct (Z.eqb_spec (order r) 0); [done|]. by rewrite IH.
Qed.

Lemma memregions_nonzero a : Forall (fun r => order r <> 0) (memregions a).
Proof.
  induction a as [|r a IH]; cbn; [constructor|].
  destruct (Z.eqb_spec (order r) 0); [constructor|]. by constructor.
Qed.

Lemma set_reg_length a i r : length (set_reg a i r) = length a.
Proof. apply length_insert. Qed.

Lemma reg_at_set a i j r :
  0 <= i < Z.of_nat (length a) -> 0 <= j ->
  reg_at (set_reg a i r) j = if j =? i then r else reg_at a j.
Proof.
  intros Hi Hj. unfold reg_at, set_reg. rewrite !nth_lookup.
  destruct (Z.eqb_spec j i) as [->|Hne].
  - by rewrite list_lookup_insert_eq by lia.
  - by rewrite list_lookup_insert_ne by lia.
Qed.

Lemma reg_at_lookup a i :
  0 <= i < Z.of_nat (length a) -> a !! Z.to_nat i = Some (reg_at a i).
Proof.
  intros Hi. unfold reg_at. rewrite nth_lookup.
  destruct (lookup_lt_is_Some_2 a (Z.to_nat i) ltac:(lia)) as [r Hr]. by rewrite Hr.
Qed.

Lemma swap_length a i j : length (swap_region a i j) = length a.
Proof. unfold swap_region. by rewrite !set_reg_length. Qed.

Lemma reg_at_swap a i j k :
  0 <= i < Z.of_nat (length a) -> 0 <= j < Z.of_nat (length a) -> 0 <= k ->
  reg_at (swap_region a i j) k
  = if k =? j then reg_at a i else if k =? i then reg_at a j else reg_at a k.
Proof.
  intros. unfold swap_region. rewrite reg_at_set by (rewrite ?set_reg_length; lia).
  destruct (k =? j); [done|]. by rewrite reg_at_set by lia.
Qed.

Lemma swap_perm a i j :
  0 <= i < j -> j < Z.of_nat (length a) -> swap_region a i j ≡ₚ a.
Proof.
  intros Hi Hj. unfold swap_region, set_reg.
  pose proof (reg_at_lookup a i ltac:(lia)) as Ei. pose proof (reg_at_lookup a j ltac:(lia)) as Ej.
  set (x := reg_at a i) in *. set (y := reg_at a j) in *.
  set (ni := Z.to_nat i) in *. set (nj := Z.to_nat j) in *.
  assert (Hn : (ni < nj)%nat) by lia. clearbody ni nj x y. clear Hi Hj i j.
  pose proof (take_drop_middle a ni x Ei) as Ha.
  assert (Hd : drop (S ni) a !! (nj - S ni)%nat = Some y).
  { rewrite lookup_drop. by replace (S ni + (nj - S ni))%nat with nj by lia. }
  pose proof (take_drop_middle _ _ _ Hd) as Hd'.
  set (l1 := take ni a) in *. set (l2 := take (nj - S ni) (drop (S ni) a)) in *.
  set (l3 := drop (S (nj - S ni)) (drop (S ni) a)) in *.
  assert (Hl1 : length l1 = ni) by (apply length_take_le; apply lookup_lt_Some in Ei; lia).
  assert (Hl2 : length l2 = (nj - S ni)%nat).
  { apply length_take_le. apply lookup_lt_Some in Hd. lia. }
  rewrite <- Ha, <- Hd'. clearbody l1 l2 l3. clear Ha Hd Hd' Ei Ej.
  rewrite (insert_app_r_alt l1 _ ni), Hl1, Nat.sub_diag by lia.
  rewrite (insert_app_r_alt l1 _ nj), Hl1 by lia.
  destruct (nj - ni)%nat as [|d] eqn:E; [lia|]. cbn.
  rewrite (insert_app_r_alt l2 _ d) by lia. rewrite Hl2.
  replace (d - (nj - S ni))%nat with 0%nat by lia. cbn. solve_Permutation.
Qed.

(** *** Exchange sort *)

(** [x] may stand in front of [y]. *)
Definition rle (x y : sbi_domain_memregion) : Prop := is_region_before y x = false.

Lemma rle_spec x y :
  rle x y <-> order x < order y \/ (order x = order y /\ base x <= base y).
Proof.
  unfold rle, is_region_before. rewrite orb_false_iff, andb_false_iff, !Z.ltb_ge, Z.eqb_neq. lia.
Qed.

Lemma rle_refl x : rle x x.
Proof. rewrite rle_spec. lia. Qed.

Lemma rle_trans x y z : rle x y -> rle y z -> rle x z.
Proof. rewrite !rle_spec. lia. Qed.

Lemma before_rle x y : is_region_before x y = true -> rle x y.
Proof.
  rewrite rle_spec. unfold is_region_before.
  rewrite orb_true_iff, andb_true_iff, !Z.ltb_lt, Z.eqb_eq. lia.
Qed.

(** [a'] permutes the entries [[i, count)] of [a]. *)
Definition permutes (i count : Z) (a a' : list sbi_domain_memregion) : Prop :=
  length a' = length a /\ a' ≡ₚ a /\
  (forall k, 0 <= k -> k < i \/ count <= k -> reg_at a' k = reg_at a k) /\
  (forall P : sbi_domain_memregion -> Prop,
     (forall m, i <= m < count -> P (reg_at a m)) -> forall m, i <= m < count -> P (reg_at a' m)).

Lemma permutes_refl i count a : permutes i count a a.
Proof. split; [done|]. split; [done|]. split; auto. Qed.

Lemma permutes_trans i count a b c :
  permutes i count a b -> permutes i count b c -> permutes i count a c.
Proof.
  intros (L1 & P1 & O1 & F1) (L2 & P2 & O2 & F2). split; [congruence|].
  split; [by rewrite P2|]. split; [|intros P HP; apply F2, F1, HP].
  intros k Hk Ho. by rewrite O2, O1.
Qed.

Lemma permutes_weaken i i' count a b :
  0 <= i <= i' -> permutes i' count a b -> permutes i count a b.
Proof.
  intros Hi (L & P & O & F). split; [done|]. split; [done|]. split.
  - intros k Hk Ho. apply O; lia.
  - intros Q HQ m Hm. destruct (Z.ltb_spec m i').
    + rewrite O by lia. apply HQ. lia.
    + apply F; [|lia]. intros m' ?. apply HQ. lia.
Qed.

Lemma swap_permutes i j count a :
  0 <= i < j -> j < count -> count <= Z.of_nat (length a) ->
  permutes i count a (swap_region a i j).
Proof.
  intros Hi Hj Hc. split_and!.
  - apply swap_length.
  - apply swap_perm; lia.
  - intros k Hk Ho. rewrite reg_at_swap by lia. by zcases; try lia.
  - intros P HP m Hm. rewrite reg_at_swap by lia. zcases; apply HP; lia.
Qed.

Lemma sort_inner_spec n i j count a :
  0 <= i < j -> j + Z.of_nat n = count -> count <= Z.of_nat (length a) ->
  (forall m, i < m < j -> rle (reg_at a i) (reg_at a m)) ->
  permutes i count a (sort_inner n i j a) /\
  (forall m, i < m < count ->
     rle (reg_at (sort_inner n i j a) i) (reg_at (sort_inner n i j a) m)).
Proof.
  revert j a. induction n as [|n IH]; intros j a Hi Hj Hc Hmin; cbn [sort_inner].
  { split; [apply permutes_refl|]. intros m Hm. apply Hmin. lia. }
  destruct (is_region_before (reg_at a j) (reg_at a i)) eqn:E; cbn [negb].
  - destruct (IH (j + 1) (swap_region a i j)) as [Hp Hs]; try rewrite swap_length; try lia.
    { intros m Hm. rewrite !reg_at_swap by lia.
      destruct (Z.eqb_spec i j), (Z.eqb_spec i i), (Z.eqb_spec m j), (Z.eqb_spec m i);
        try lia; apply before_rle in E; [done|].
      eapply rle_trans; [exact E|]. apply Hmin. lia. }
    split; [|done]. eapply permutes_trans; [|exact Hp]. apply swap_permutes; lia.
  - apply IH; try lia. intros m Hm. destruct (Z.eq_dec m j) as [->|]; [exact E|].
    apply Hmin. lia.
Qed.

Definition sorted_upto (i count : Z) (a : list sbi_domain_memregion) : Prop :=
  forall k m, 0 <= k < i -> k < m < count -> rle (reg_at a k) (reg_at a m).

Lemma sort_outer_spec n i count a :
  0 <= i -> i + Z.of_nat n = count - 1 -> count <= Z.of_nat (length a) -> sorted_upto i count a ->
  exists a', sort_outer n i count a = (count - 1, a') /\ permutes 0 count a a' /\
             sorted_upto (count - 1) count a'.
Proof.
  revert i a. induction n as [|n IH]; intros i a Hi Hn Hc Hs; cbn [sort_outer].
  { exists a. replace (count - 1) with i by lia. split; [done|].
    split; [apply permutes_refl|done]. }
  destruct (sort_inner_spec (Z.to_nat (count - (i + 1))) i (i + 1) count a) as [Hp Hmin]; [lia..|].
  set (a1 := sort_inner _ _ _ _) in *.
  pose proof Hp as (HL & _ & Ho & Hf).
  destruct (IH (i + 1) a1) as (a' & -> & Hp' & Hs'); [lia|lia|lia| |].
  { intros k m Hk Hm. destruct (Z.eq_dec k i) as [->|]; [apply Hmin; lia|].
    rewrite (Ho k) by lia. destruct (Z.ltb_spec m i).
    - rewrite (Ho m) by lia. apply Hs; lia.
    - apply Hf; [|lia]. intros m' ?. apply Hs; lia. }
  exists a'. split; [done|]. split; [|done].
  eapply permutes_trans; [|exact Hp']. apply (permutes_weaken 0 i); [lia|done].
Qed.

Lemma sort_outer_empty n i a : 0 <= i -> sort_outer n i 0 a = (i + Z.of_nat n, a).
Proof.
  revert i. induction n as [|n IH]; intros i Hi; cbn [sort_outer]; [f_equal; lia|].
  replace (Z.to_nat (0 - (i + 1))) with 0%nat by lia.
  cbn [sort_inner]. rewrite IH by lia. f_equal. lia.
Qed.

Lemma strongly_sorted_lookup {A} (R : A -> A -> Prop) (l : list A) :
  (forall k m x y, (k < m)%nat -> l !! k = Some x -> l !! m = Some y -> R x y) ->
  StronglySorted R l.
Proof.
  induction l as [|z l IH]; intros H; constructor.
  - apply IH. intros k m x y Hk Hx Hy. by apply (H (S k) (S m) x y ltac:(lia)).
  - apply List.Forall_forall. intros y Hy. apply list_elem_of_In, list_elem_of_lookup in Hy as [m Hm].
    by apply (H 0%nat (S m) z y ltac:(lia)).
Qed.

Lemma reg_at_app_r l tl k : 0 <= k -> reg_at (l ++ tl) (Z.of_nat (length l) + k) = reg_at tl k.
Proof.
  intros. unfold reg_at. rewrite app_nth2 by lia. f_equal. lia.
Qed.

Lemma list_eq_reg_at l l' :
  length l = length l' -> (forall k, 0 <= k < Z.of_nat (length l) -> reg_at l k = reg_at l' k) -> l = l'.
Proof.
  intros HL H. apply (list_eq_same_length _ _ (length l)); [done..|].
  intros i x y Hi Hx Hy. specialize (H (Z.of_nat i) ltac:(lia)). unfold reg_at in H.
  rewrite Nat2Z.id, !nth_lookup, Hx, Hy in H. done.
Qed.

(** The sort and the removal loop on a terminated array: the live entries are
    sorted, and none is removed. *)
Lemma sort_regions_spec a :
  let count := Z.of_nat (length (memregions a)) in
  count < 2 ^ 32 ->
  exists i a', sort_outer (Z.to_nat (u32 (count - 1))) 0 count a = (i, a') /\
    remove_covered (Z.to_nat count) i count a' = Some a' /\
    length a' = length a /\ memregions a' ≡ₚ memregions a /\ StronglySorted rle (memregions a').
Proof.
  intros count Hc. destruct (memregions_split a) as (tl & Ha & Ht).
  destruct (Z.eq_dec count 0) as [E|E].
  { rewrite E. rewrite sort_outer_empty by lia. exists (0 + Z.of_nat (Z.to_nat (u32 (0 - 1)))), a.
    assert (memregions a = []) as Hm by (destruct (memregions a); [done|cbn in *; lia]).
    split; [done|]. split.
    { rewrite Z2Nat.id by (apply wrap_range; lia). change (Z.to_nat 0) with 0%nat. cbn [remove_covered].
      by rewrite Z.add_0_l, Z.ltb_irrefl. }
    rewrite Hm. split; [done|]. split; [done|constructor]. }
  rewrite (wrap_small 32) by lia.
  assert (Hlen : count <= Z.of_nat (length a)) by (rewrite Ha, length_app; subst count; lia).
  destruct (sort_outer_spec (Z.to_nat (count - 1)) 0 count a) as (a' & -> & Hp & Hs);
    [lia..|by intros k m ?; lia|].
  exists (count - 1), a'. split; [done|]. split.
  { assert (u32 (count - 1) = count - 1) as Hu by (apply wrap_small; lia).
    destruct (Z.to_nat count); cbn [remove_covered]; by rewrite Hu, Z.ltb_irrefl. }
  destruct Hp as (HL & Hperm & Hout & Hin). split; [done|].
  set (n := length (memregions a)) in *.
  assert (Hdrop : drop n a' = tl).
  { apply list_eq_reg_at; [rewrite length_drop, HL, Ha, length_app; lia|].
    intros k Hk. rewrite length_drop in Hk.
    rewrite <- (reg_at_app_r (memregions a) tl) by lia. rewrite <- Ha.
    fold n. rewrite <- (Hout (Z.of_nat n + k)) by lia.
    rewrite <- (take_drop n a') at 2.
    replace (Z.of_nat n) with (Z.of_nat (length (take n a'))) by (rewrite length_take_le; lia).
    by rewrite reg_at_app_r by lia. }
  assert (Hsplit : a' = take n a' ++ tl) by (by rewrite <- Hdrop, take_drop).
  assert (Hpl : take n a' ≡ₚ memregions a).
  { apply (Permutation_app_inv_r tl). by rewrite <- Hsplit, <- Ha. }
  assert (Hm' : memregions a' = take n a').
  { rewrite Hsplit at 1. apply memregions_app; [|done]. rewrite Hpl. apply memregions_nonzero. }
  rewrite Hm'. split; [done|]. apply strongly_sorted_lookup. intros k m x y Hkm Hx Hy.
  pose proof (lookup_lt_Some _ _ _ Hy) as Hlt. rewrite length_take_le in Hlt by lia.
  rewrite lookup_take_lt in Hx, Hy by lia.
  specialize (Hs (Z.of_nat k) (Z.of_nat m) ltac:(lia) ltac:(lia)). unfold reg_at in Hs.
  by rewrite !Nat2Z.id, !nth_lookup, Hx, Hy in Hs.
Qed.

(** ** Lemmas: what a valid region covers *)

Lemma valid_reg_ok r :
  0 <= base r < 2 ^ 64 -> is_region_valid r = true -> reg_ok r.
Proof.
  intros Hb. unfold is_region_valid, reg_ok.
  destruct (Z.ltb_spec (order r) 3), (Z.ltb_spec 64 (order r)); try done. cbn [orb].
  destruct (Z.eqb_spec (order r) 64) as [E|E]; cbn [andb].
  - destruct (Z.eqb_spec (base r) 0) as [E0|]; [|done]. rewrite E, E0. intros _.
    repeat split; try lia. apply Z.divide_0_r.
  - destruct (Z.ltb_spec (order r) 64); [|lia]. rewrite BIT_spec by lia.
    replace (2 ^ order r - 1) with (Z.ones (order r)) by (rewrite Z.ones_equiv; lia).
    rewrite Z.land_ones by lia. cbn [andb].
    destruct (Z.eqb_spec (base r mod 2 ^ order r) 0) as [E0|]; [|done]. intros _.
    pose proof (pow2_pos (order r) ltac:(lia)) as Hp.
    apply Z.mod_divide in E0 as Hd; [|lia].
    assert (Hd64 : (2 ^ order r | 2 ^ 64)).
    { exists (2 ^ (64 - order r)). rewrite <- Z.pow_add_r by lia. f_equal. lia. }
    split; [lia|]. split; [lia|]. split; [|done].
    destruct (Z.divide_sub_r _ _ _ Hd64 Hd) as [q Hq]. assert (1 <= q) by nia. nia.
Qed.

Lemma region_end_spec r : reg_ok r -> region_end r = base r + 2 ^ order r - 1.
Proof.
  intros (Ho & Hb & Ht & _). unfold region_end. pose proof (pow2_pos (order r) ltac:(lia)).
  destruct (Z.ltb_spec (order r) 64).
  - rewrite shiftl_one by lia. rewrite (wrap_small 64) by lia. lia.
  - replace (order r) with 64 in * by lia. unfold ULONG_MAX. lia.
Qed.

Lemma region_hit_covers r a : reg_ok r -> region_hit r a = bool_decide (covers r a).
Proof.
  intros Hr. unfold region_hit, covers. rewrite region_end_spec by done.
  case_bool_decide; zcases; lia || done.
Qed.

(** Two naturally aligned blocks that share an address are nested. *)
Lemma blocks_nested r s x :
  reg_ok r -> reg_ok s -> covers r x -> covers s x -> order r <= order s ->
  base s <= base r /\ base r + 2 ^ order r <= base s + 2 ^ order s.
Proof.
  intros (Ho & _ & _ & [p Hp]) (Ho' & _ & _ & [q Hq]) Hx Hx' Hle.
  unfold covers in *.
  assert (2 ^ order s = 2 ^ (order s - order r) * 2 ^ order r) as E.
  { rewrite <- Z.pow_add_r by lia. f_equal. lia. }
  pose proof (pow2_pos (order r) ltac:(lia)). pose proof (pow2_pos (order s - order r) ltac:(lia)).
  set (P := 2 ^ order r) in *. set (K := 2 ^ (order s - order r)) in *. rewrite E in *.
  assert (q * K <= p) by nia. assert (p + 1 <= q * K + K) by nia. nia.
Qed.

(** Permission of one region for an access. *)
Definition region_allows (r : sbi_domain_memregion) (mode access_flags : Z) : bool :=
  Bool.eqb (negb (Z.land access_flags SBI_DOMAIN_MMIO =? 0))
           (negb (Z.land (flags r) MEMREGION_MMIO =? 0)) &&
  (Z.land (region_rwx r mode) (access_rwx access_flags) =? access_rwx access_flags).

Lemma check_addr_first regs a mode acc :
  check_addr_loop regs a mode (access_rwx acc) (negb (Z.land acc SBI_DOMAIN_MMIO =? 0))
  = match find_region_loop regs 0 a with
    | None => mode =? PRV_M
    | Some (_, r) => region_allows r mode acc
    end.
Proof.
  generalize 0%nat. induction regs as [|r regs IH]; intros i; cbn; [done|].
  destruct (region_hit r a); [|apply IH]. unfold region_allows.
  by destruct (Bool.eqb _ _).
Qed.

(** The first region that covers an address. *)
Lemma find_region_loop_spec regs i a :
  Forall reg_ok regs ->
  match find_region_loop regs i a with
  | None => Forall (fun r => ~ covers r a) regs
  | Some (j, r) => (i <= j)%nat /\ regs !! (j - i)%nat = Some r /\ covers r a /\
      (forall k s, (k < j - i)%nat -> regs !! k = Some s -> ~ covers s a)
  end.
Proof.
  intros H. revert i. induction H as [|r regs Hr Hregs IH]; intros i; cbn; [constructor|].
  rewrite region_hit_covers by done. case_bool_decide as Hc.
  - split; [lia|]. rewrite Nat.sub_diag. split; [done|]. split; [done|]. lia.
  - specialize (IH (S i)). destruct (find_region_loop regs (S i) a) as [[j s]|].
    + destruct IH as (Hj & Hl & Hs & Hno). split; [lia|].
      replace (j - i)%nat with (S (j - S i)) by lia. split; [done|]. split; [done|].
      intros [|k] t Hk Ht; cbn in Ht; [by simplify_eq|]. apply (Hno k); [lia|done].
    + by constructor.
Qed.

(** In a sorted array the first region that covers an address is a smallest
    one that does. *)
Lemma first_is_smallest regs j r s a :
  StronglySorted rle regs -> Forall reg_ok regs ->
  find_region_loop regs 0 a = Some (j, r) -> s ∈ regs -> covers s a -> order r <= order s.
Proof.
  intros Hs Hok Hf Hin Hc. pose proof (find_region_loop_spec regs 0 a Hok) as H. rewrite Hf in H.
  destruct H as (_ & Hl & _ & Hno). rewrite Nat.sub_0_r in *.
  apply list_elem_of_lookup in Hin as [k Hk].
  destruct (lt_eq_lt_dec k j) as [[Hlt| ->]|Hgt].
  - by destruct (Hno k s Hlt Hk).
  - simplify_eq. lia.
  - assert (rle r s) as Hle; [|apply rle_spec in Hle; lia].
    rewrite <- (take_drop_middle regs j r Hl) in Hs, Hk.
    apply StronglySorted_app_1_r in Hs. apply StronglySorted_inv in Hs as [_ Hs].
    rewrite List.Forall_forall in Hs. apply Hs, list_elem_of_In.
    pose proof (lookup_lt_Some _ _ _ Hl).
    rewrite lookup_app_r in Hk by (rewrite length_take_le; lia).
    rewrite length_take_le in Hk by lia.
    destruct (k - j)%nat as [|d] eqn:E; [lia|]. cbn in Hk. by eapply list_elem_of_lookup_2.
Qed.

(** ** What sanitizing a domain does *)

Definition dom_sane (d : sbi_domain) : Prop :=
  Forall reg_ok (dom_regions d) /\ StronglySorted rle (dom_regions d).

(** The conditions [sanitize_domain] checks on a domain whose array has been
    sorted. *)
Definition sane_conditions (scr : scratch_state) (mask : sbi_hartmask) (d : sbi_domain) : Prop :=
  (forall i, mask_has mask i = true -> i <= last_hartindex_having_scratch scr) /\
  Forall (fun r => is_region_valid r = true) (dom_regions d) /\
  fw_region_inited d = true /\ (next_mode d = PRV_S \/ next_mode d = PRV_U) /\
  sbi_domain_check_addr (Some d) (next_addr d) (next_mode d) SBI_DOMAIN_EXECUTE = true.

(** [d'] is [d] with its live regions permuted. *)
Definition regions_permuted (d d' : sbi_domain) : Prop :=
  exists a a', regions d = Some a /\ d' = set_regions d a' /\ length a' = length a /\
               memregions a' ≡ₚ memregions a.

Lemma set_regions_same d a : regions d = Some a -> set_regions d a = d.
Proof. destruct d; cbn. by intros ->. Qed.

Lemma regions_permuted_refl d a : regions d = Some a -> regions_permuted d d.
Proof. intros E. exists a, a. split; [done|]. split; [by rewrite set_regions_same|done]. Qed.

Lemma mask_valid_iff scr m :
  forallb (sbi_hartindex_valid scr) (members m) = true <->
  (forall i, mask_has m i = true -> i <= last_hartindex_having_scratch scr).
Proof.
  rewrite forallb_forall. unfold sbi_hartindex_valid. split; intros H i Hi.
  - apply Z.leb_le, H, list_elem_of_In. by apply elem_of_members.
  - apply Z.leb_le, H, elem_of_members. by apply list_elem_of_In.
Qed.

Lemma sanitize_spec scr d mask a :
  possible_harts d = Some mask -> mask_ok mask -> regions d = Some a ->
  Z.of_nat (length a) < 2 ^ 32 ->
  exists rc d', sanitize_domain scr d = Some (rc, d') /\ (rc = 0 \/ rc = SBI_EINVAL) /\
    regions_permuted d d' /\
    (rc = 0 <-> sane_conditions scr mask d') /\
    (rc = 0 -> StronglySorted rle (dom_regions d')).
Proof.
  intros Hmask Hok Ha Hlen. unfold sanitize_domain. rewrite Hmask, for_each_members by done.
  cbn [mbind option_bind].
  assert (Hfail : forall d', regions_permuted d d' -> ~ sane_conditions scr mask d' ->
    exists rc d0, Some (SBI_EINVAL, d') = Some (rc, d0) /\ (rc = 0 \/ rc = SBI_EINVAL) /\
      regions_permuted d d0 /\ (rc = 0 <-> sane_conditions scr mask d0) /\
      (rc = 0 -> StronglySorted rle (dom_regions d0))).
  { intros d' Hp Hn. exists SBI_EINVAL, d'. split; [done|]. split; [by right|]. split; [done|].
    split; [|done]. split; [done|]. intros; by destruct Hn. }
  pose proof (regions_permuted_refl d a Ha) as Hrefl.
  destruct (forallb (sbi_hartindex_valid scr) _) eqn:E1; cbn [negb].
  2:{ apply Hfail; [done|]. intros (Hv & _). apply mask_valid_iff in Hv. congruence. }
  rewrite Ha. destruct (forallb is_region_valid _) eqn:E2; cbn [negb].
  2:{ apply Hfail; [done|]. intros (_ & Hv & _). unfold dom_regions in Hv. rewrite Ha in Hv.
      apply not_true_iff_false in E2. apply E2, forallb_forall. intros r Hr.
      rewrite Forall_forall in Hv. apply Hv, list_elem_of_In, Hr. }
  destruct (fw_region_inited d) eqn:E3; cbn [negb].
  2:{ apply Hfail; [done|]. intros (_ & _ & Hv & _). congruence. }
  assert (Hlive : Z.of_nat (length (memregions a)) < 2 ^ 32).
  { destruct (memregions_split a) as (tl & E & _). rewrite E, length_app in Hlen. lia. }
  destruct (sort_regions_spec a Hlive) as (i & a' & -> & -> & HL & Hp & Hs). cbn [mbind option_bind].
  set (d' := set_regions d a').
  assert (Hperm : regions_permuted d d') by (exists a, a'; done).
  assert (Hvalid : Forall (fun r => is_region_valid r = true) (dom_regions d')).
  { change (dom_regions d') with (memregions a'). rewrite Hp. apply Forall_forall. intros r Hr.
    rewrite forallb_forall in E2. by apply E2, list_elem_of_In. }
  destruct (negb (next_mode d' =? PRV_S) && negb (next_mode d' =? PRV_U)) eqn:E4.
  { apply Hfail; [done|]. intros (_ & _ & _ & Hm & _). prop_bool. tauto. }
  destruct (sbi_domain_check_addr _ _ _ _) eqn:E5; cbn [negb].
  2:{ apply Hfail; [done|]. intros (_ & _ & _ & _ & Hc). congruence. }
  exists 0, d'. split; [done|]. split; [by left|]. split; [done|]. split; [|done].
  split; [|done]. intros _. split; [by apply mask_valid_iff|]. split; [done|]. split; [done|].
  split; [|done]. apply andb_false_iff in E4. rewrite !negb_false_iff, !Z.eqb_eq in E4. done.
Qed.

(** [sanitize_domain] always returns, with 0 exactly when the possible
    harts exist, every region is valid, the firmware regions are in place and
    the next stage is an address S/U-mode may execute in the sorted table; all
    else is [SBI_EINVAL].  The live regions are only permuted, so that no
    region is ever dropped as covered, and on success they are naturally
    aligned blocks sorted by (order, base). *)
Lemma sanitize_domain_correct scr d mask a :
  possible_harts d = Some mask -> mask_ok mask -> regions d = Some a ->
  Z.of_nat (length a) < 2 ^ 32 -> Forall (fun r => 0 <= base r < 2 ^ 64) (memregions a) ->
  exists rc d', sanitize_domain scr d = Some (rc, d') /\ (rc = 0 \/ rc = SBI_EINVAL) /\
    regions_permuted d d' /\ dom_regions d' ≡ₚ dom_regions d /\
    (rc = 0 <-> sane_conditions scr mask d') /\ (rc = 0 -> dom_sane d').
Proof.
  intros Hmask Hok Ha Hlen Hb.
  destruct (sanitize_spec scr d mask a Hmask Hok Ha Hlen) as (rc & d' & -> & Hrc & Hp & Hiff & Hs).
  exists rc, d'. split; [done|]. split; [done|]. split; [done|].
  assert (dom_regions d' ≡ₚ dom_regions d) as Hperm.
  { destruct Hp as (b & b' & Hb1 & -> & _ & Hp). unfold dom_regions. rewrite Hb1. exact Hp. }
  split; [done|]. split; [done|]. intros H0. split; [|by apply Hs].
  apply Hiff in H0 as (_ & Hv & _). rewrite Hperm in Hv |- *.
  unfold dom_regions in *. rewrite Ha in *. cbn in *.
  rewrite Forall_forall in Hb, Hv |- *. intros r Hr. apply valid_reg_ok; auto.
Qed.

(** A domain for the witnesses: firmware text and data below a catch-all. *)
Definition demo_domain : sbi_domain :=
  mkDom 0 (mkMask [0; 0]) (Some (mkMask [3; 0]))
    (Some [mkReg 64 0 56; mkReg 18 0x80000000 5; mkReg 12 0x80040000 3; mkReg 0 0 0])
    0 0 0x80200000 PRV_S true true true.

Definition demo_scratch : scratch_state := mkScratch 1 [0; 1] [4096; 8192] 120.

Lemma demo_mask_ok : mask_ok (mkMask [3; 0]).
Proof.
  split; [|reflexivity].
  repeat apply Forall_cons_2; try apply Forall_nil_2; unfold word_ok; lia.
Qed.

Lemma sanitize_domain_correct_witness :
  exists d', sanitize_domain demo_scratch demo_domain = Some (0, d') /\ dom_sane d'.
Proof.
  destruct (sanitize_domain_correct demo_scratch demo_domain (mkMask [3; 0])
              [mkReg 64 0 56; mkReg 18 0x80000000 5; mkReg 12 0x80040000 3; mkReg 0 0 0])
    as (rc & d' & Hr & _ & _ & _ & _ & Hs);
    [reflexivity|exact demo_mask_ok|reflexivity|reflexivity| |].
  - cbn. repeat apply Forall_cons_2; try apply Forall_nil_2; cbn; lia.
  - assert (rc = 0) as ->.
    { assert (H : fst <$> sanitize_domain demo_scratch demo_domain = Some 0) by (vm_compute; reflexivity).
      rewrite Hr in H. cbn in H. congruence. }
    exists d'. split; [exact Hr|]. apply Hs. reflexivity.
Defined.

(** ** Checking a range of addresses *)

Lemma subset_spec s r :
  reg_ok s -> reg_ok r -> order s < 64 -> order r < 64 ->
  is_region_subset s r = true <->
  base r <= base s /\ base s + 2 ^ order s <= base r + 2 ^ order r.
Proof.
  intros (Ho & Hb & Ht & _) (Ho' & Hb' & Ht' & _) H1 H2. unfold is_region_subset.
  rewrite !BIT_spec by lia.
  assert (2 ^ 3 <= 2 ^ order s) by (apply Z.pow_le_mono_r; lia).
  assert (2 ^ 3 <= 2 ^ order r) by (apply Z.pow_le_mono_r; lia).
  rewrite !(wrap_small 64) by lia.
  rewrite !andb_true_iff, !Z.leb_le, !Z.ltb_lt. lia.
Qed.

(** The candidates of [find_next_subset_region]. *)
Definition candidate (i : nat) (s : sbi_domain_memregion) (reg : nat * sbi_domain_memregion)
    (addr : Z) : bool :=
  negb ((Nat.eqb i reg.1) || (base s <=? addr) || negb (is_region_subset s reg.2)).

Lemma subset_loop_spec regs i reg addr ret :
  match subset_loop regs i reg addr ret with
  | None => ret = None /\
      (forall k s, regs !! k = Some s -> candidate (i + k) s reg addr = false)
  | Some t =>
      (ret = Some t \/ exists k, regs !! k = Some t /\ candidate (i + k) t reg addr = true) /\
      (forall t', ret = Some t' -> base t <= base t') /\
      (forall k s, regs !! k = Some s -> candidate (i + k) s reg addr = true -> base t <= base s)
  end.
Proof.
  revert i ret. induction regs as [|s regs IH]; intros i ret; cbn [subset_loop].
  { destruct ret as [t|]; [|done]. split; [by left|]. split; [|done]. intros t' [= ->]. lia. }
  set (ret1 := if (_ || _) then ret else _).
  assert (H1 : (candidate i s reg addr = false /\ ret1 = ret) \/
    (candidate i s reg addr = true /\ exists t1, ret1 = Some t1 /\ base t1 <= base s /\
     (t1 = s \/ ret = Some t1) /\ forall t', ret = Some t' -> base t1 <= base t')).
  { subst ret1. unfold candidate. destruct (_ || _); [by left|right]. cbn. split; [done|].
    destruct ret as [r|]; [|exists s; split_and!; auto; lia || done].
    destruct ((base s <? base r) || _) eqn:E.
    - exists s. split_and!; auto; [lia|]. intros t' [= <-].
      apply orb_true_iff in E. rewrite andb_true_iff, !Z.ltb_lt, Z.eqb_eq in E. lia.
    - exists r. apply orb_false_iff in E as [E _]. apply Z.ltb_ge in E.
      split_and!; auto. intros t' [= <-]. lia. }
  specialize (IH (S i) ret1). destruct (subset_loop regs (S i) reg addr ret1) as [t|].
  - destruct IH as (Hsrc & Hmin & Hall). split_and!.
    + destruct Hsrc as [Hr1|(k & Hk & Hc)]; [|right; exists (S k); by rewrite Nat.add_succ_r].
      destruct H1 as [(_ & ->)|(Hc & t1 & -> & _ & Ht1 & _)]; [by left|]. simplify_eq.
      destruct Ht1 as [->|]; [|by left]. right. exists 0%nat. by rewrite Nat.add_0_r.
    + intros t' Ht'. destruct H1 as [(_ & ->)|(_ & t1 & -> & _ & _ & Ht1)]; [by apply Hmin|].
      etrans; [by apply Hmin|]. by apply Ht1.
    + intros [|k] s' Hs Hc; cbn in Hs.
      * simplify_eq. rewrite Nat.add_0_r in Hc.
        destruct H1 as [(? & _)|(_ & t1 & -> & Hle & _)]; [congruence|].
        etrans; [by apply Hmin|done].
      * rewrite Nat.add_succ_r in Hc. by eapply Hall.
  - destruct IH as (Hn & Hall). destruct H1 as [(Hc & ->)|(_ & t1 & ? & _)]; [|congruence].
    split; [done|]. intros [|k] s' Hs; cbn in Hs.
    + simplify_eq. by rewrite Nat.add_0_r.
    + rewrite Nat.add_succ_r. by apply Hall.
Qed.

Section Range.
Context (d : sbi_domain).
Context (Hsane : dom_sane d).
Context (Htop : Forall (fun r => base r + 2 ^ order r < 2 ^ 64) (dom_regions d)).

Lemma region_small r : r ∈ dom_regions d -> reg_ok r /\ order r < 64 /\ base r + 2 ^ order r < 2 ^ 64.
Proof.
  intros Hr. destruct Hsane as [Hok _]. rewrite Forall_forall in Hok, Htop.
  specialize (Hok r Hr). specialize (Htop r Hr). split; [done|]. split; [|done].
  destruct Hok as (Ho & Hb & _). destruct (Z.ltb_spec (order r) 64); [done|].
  replace (order r) with 64 in * by lia. lia.
Qed.

(** The address the loop moves to from [addr] in region [reg]. *)
Definition next_point (reg : nat * sbi_domain_memregion) (addr : Z) : Z :=
  match find_next_subset_region d reg addr with
  | Some s => base s
  | None => base reg.2 + 2 ^ order reg.2
  end.

Definition points : list Z :=
  (base <$> dom_regions d) ++ ((fun r => base r + 2 ^ order r) <$> dom_regions d).

Lemma find_region_in j r addr :
  find_region d addr = Some (j, r) ->
  dom_regions d !! j = Some r /\ covers r addr /\
  (forall k s, (k < j)%nat -> dom_regions d !! k = Some s -> ~ covers s addr).
Proof.
  intros Hf. pose proof (find_region_loop_spec (dom_regions d) 0 addr (proj1 Hsane)) as H.
  unfold find_region in Hf. rewrite Hf in H. destruct H as (_ & Hl & Hc & Hno).
  by rewrite Nat.sub_0_r in *.
Qed.

Lemma next_subset_in j r addr s :
  dom_regions d !! j = Some r -> find_next_subset_region d (j, r) addr = Some s ->
  s ∈ dom_regions d /\ addr < base s /\ base r <= base s /\
  base s + 2 ^ order s <= base r + 2 ^ order r.
Proof.
  intros Hj Hs. unfold find_next_subset_region in Hs.
  pose proof (subset_loop_spec (dom_regions d) 0 (j, r) addr None) as H. rewrite Hs in H.
  destruct H as ([|(k & Hk & Hc)] & _); [done|]. apply list_elem_of_lookup_2 in Hk as Hin.
  unfold candidate in Hc. apply negb_true_iff in Hc. prop_bool.
  split; [done|]. split; [lia|].
  destruct (region_small s Hin) as (? & ? & _).
  destruct (region_small r (list_elem_of_lookup_2 _ _ _ Hj)) as (? & ? & _).
  by apply subset_spec.
Qed.

Lemma next_point_spec j r addr :
  find_region d addr = Some (j, r) ->
  addr < next_point (j, r) addr <= base r + 2 ^ order r /\ next_point (j, r) addr ∈ points.
Proof.
  intros Hf. destruct (find_region_in j r addr Hf) as (Hj & Hc & _).
  unfold next_point, points. destruct (find_next_subset_region d (j, r) addr) as [s|] eqn:E.
  - destruct (next_subset_in j r addr s Hj E) as (Hin & Hlt & H1 & H2).
    destruct (region_small s Hin) as ((? & _) & _). pose proof (pow2_pos (order s)).
    split; [lia|]. apply elem_of_app. left. by apply list_elem_of_fmap_2.
  - unfold covers in Hc. split; [cbn; lia|]. apply elem_of_app. right.
    apply (list_elem_of_fmap_2 (fun r => base r + 2 ^ order r)). by eapply list_elem_of_lookup_2.
Qed.

(** Up to the next point, the region that decides stays the same. *)
Lemma decision_constant j r addr x :
  find_region d addr = Some (j, r) -> addr <= x < next_point (j, r) addr ->
  find_region d x = Some (j, r).
Proof.
  intros Hf Hx. destruct (find_region_in j r addr Hf) as (Hj & Hc & Hno).
  pose proof (next_point_spec j r addr Hf) as [Hnp _].
  assert (Hcx : covers r x) by (unfold covers in *; lia).
  destruct Hsane as [Hok Hsort].
  pose proof (find_region_loop_spec (dom_regions d) 0 x Hok) as H.
  fold (find_region d x) in H. destruct (find_region d x) as [[j' r']|] eqn:E.
  2:{ rewrite Forall_forall in H. destruct (H r (list_elem_of_lookup_2 _ _ _ Hj) Hcx). }
  destruct H as (_ & Hl & Hc' & Hno'). rewrite Nat.sub_0_r in *.
  destruct (lt_eq_lt_dec j' j) as [[Hlt| ->]|Hgt].
  - exfalso. apply list_elem_of_lookup_2 in Hl as Hin'. apply list_elem_of_lookup_2 in Hj as Hin.
    destruct (region_small r' Hin') as (Hok' & Ho' & _), (region_small r Hin) as (Hokr & Ho & _).
    pose proof (first_is_smallest _ _ _ r x Hsort Hok E Hin Hcx) as Hle.
    pose proof (blocks_nested r' r x Hok' Hokr Hc' Hcx Hle) as Hnest.
    assert (addr < base r').
    { destruct (Z.ltb_spec addr (base r')); [done|]. exfalso. apply (Hno j' r' Hlt Hl).
      unfold covers in *. lia. }
    assert (Hcand : candidate j' r' (j, r) addr = true).
    { unfold candidate. cbn. rewrite (proj2 (Nat.eqb_neq j' j)) by lia.
      rewrite (proj2 (Z.leb_gt _ _)) by lia. by rewrite (proj2 (subset_spec r' r Hok' Hokr Ho' Ho)). }
    unfold next_point, find_next_subset_region in Hx.
    pose proof (subset_loop_spec (dom_regions d) 0 (j, r) addr None) as Hsub.
    destruct (subset_loop _ _ _ _ _) as [t|].
    + destruct Hsub as (_ & _ & Hmin). specialize (Hmin j' r' Hl Hcand). unfold covers in Hc'. lia.
    + destruct Hsub as (_ & Hall). specialize (Hall j' r' Hl). cbn in Hall. congruence.
  - congruence.
  - by destruct (Hno' j r Hgt Hj).
Qed.

Definition ahead (addr : Z) : nat := length (filter (fun p => addr < p) points).

Lemma ahead_decreases addr p : p ∈ points -> addr < p -> (ahead p < ahead addr)%nat.
Proof.
  unfold ahead. generalize points as l. intros l Hin Hlt.
  assert (Hle : forall l, (length (filter (fun q => (p < q)%Z) l)
                           <= length (filter (fun q => (addr < q)%Z) l))%nat).
  { intros l'. induction l' as [|q l' IH]; [done|]. rewrite !filter_cons.
    repeat case_decide; cbn; lia. }
  induction l as [|q l IH]; [by apply elem_of_nil in Hin|]. rewrite !filter_cons.
  apply elem_of_cons in Hin as [->|Hin].
  - specialize (Hle l). repeat case_decide; cbn; lia.
  - specialize (IH Hin). repeat case_decide; cbn; lia.
Qed.

(** Every byte of the range lies in a region and may be accessed. *)
Definition range_allowed (lo hi mode acc : Z) : Prop :=
  forall x, lo <= x < hi ->
    is_Some (find_region d x) /\ sbi_domain_check_addr (Some d) x mode acc = true.

Lemma addr_range_loop_spec fuel addr max mode acc :
  max < 2 ^ 64 -> (ahead addr < fuel)%nat ->
  exists b, addr_range_loop fuel d addr max mode acc = Some b /\
            (b = true <-> range_allowed addr max mode acc).
Proof.
  intros Hmax. revert addr. induction fuel as [|fuel IH]; intros addr Hf; [lia|].
  cbn [addr_range_loop]. destruct (Z.ltb_spec addr max) as [Hlt|Hge].
  2:{ exists true. split; [done|]. split; [|done]. intros _ x Hx. lia. }
  destruct (find_region d addr) as [[j r]|] eqn:Efind.
  2:{ exists false. split; [done|]. split; [done|]. intros H.
      destruct (H addr ltac:(lia)) as [[? ?] _]. congruence. }
  destruct (sbi_domain_check_addr (Some d) addr mode acc) eqn:Echk; cbn [negb].
  2:{ exists false. split; [done|]. split; [done|]. intros H.
      destruct (H addr ltac:(lia)) as [_ ?]. congruence. }
  destruct (next_point_spec j r addr Efind) as [Hnp Hin].
  destruct (find_region_in j r addr Efind) as (Hj & _).
  destruct (region_small r (list_elem_of_lookup_2 _ _ _ Hj)) as ((Ho & Hb & _) & Ho' & Ht).
  assert (match find_next_subset_region d (j, r) addr with
          | Some sreg => addr_range_loop fuel d (base sreg) max mode acc
          | None => if order (j, r).2 <? 64 then
              addr_range_loop fuel d (u64 (base (j, r).2 + u64 (Z.shiftl 1 (order (j, r).2)))) max mode acc
              else Some true
          end = addr_range_loop fuel d (next_point (j, r) addr) max mode acc) as ->.
  { unfold next_point. destruct (find_next_subset_region d (j, r) addr); [done|]. cbn [snd].
    destruct (Z.ltb_spec (order r) 64); [|lia]. rewrite shiftl_one by lia.
    rewrite (wrap_small 64); [done|]. pose proof (pow2_pos (order r)). lia. }
  destruct (IH (next_point (j, r) addr)) as (b & -> & Hb').
  { pose proof (ahead_decreases addr _ Hin ltac:(lia)). lia. }
  exists b. split; [done|]. rewrite Hb'. split; intros H x Hx.
  - destruct (Z.ltb_spec x (next_point (j, r) addr)); [|apply H; lia].
    pose proof (decision_constant j r addr x Efind ltac:(lia)) as Ex. split; [by rewrite Ex|].
    cbn in Echk |- *. rewrite check_addr_first in Echk |- *.
    unfold find_region in Ex, Efind. rewrite Efind in Echk. by rewrite Ex.
  - apply H. lia.
Qed.

Lemma ahead_fuel addr : (ahead addr < range_fuel d)%nat.
Proof.
  unfold ahead, range_fuel. pose proof (length_filter (fun p => addr < p) points) as H.
  unfold points in *. rewrite length_app, !length_fmap in H. lia.
Qed.

End Range.

(** On a sanitized domain whose regions end below 2^64, and for a range
    that does not wrap, [sbi_domain_check_addr_range] returns, within the
    rounds the region boundaries allow, true exactly when every byte of the
    range lies in a region and passes [sbi_domain_check_addr]: jumping from
    boundary to boundary decides the same as checking byte by byte. *)
Lemma check_addr_range_correct d addr size mode acc :
  dom_sane d -> Forall (fun r => base r + 2 ^ order r < 2 ^ 64) (dom_regions d) ->
  0 <= addr -> 0 <= size -> addr + size < 2 ^ 64 ->
  exists b, sbi_domain_check_addr_range (Some d) addr size mode acc = Some b /\
    (b = true <-> forall x, addr <= x < addr + size ->
       is_Some (find_region d x) /\ sbi_domain_check_addr (Some d) x mode acc = true).
Proof.
  intros Hs Ht Ha Hsz Hmax. unfold sbi_domain_check_addr_range.
  rewrite (wrap_small 64) by lia.
  apply (addr_range_loop_spec d Hs Ht); [done|apply ahead_fuel].
Qed.

Definition demo_layout : sbi_domain :=
  mkDom 0 (mkMask [0; 0]) (Some (mkMask [3; 0]))
    (Some [mkReg 12 0x80001000 3; mkReg 20 0x80000000 56; mkReg 0 0 0])
    0 0 0x80000000 PRV_S true true true.

Lemma demo_layout_sane : dom_sane demo_layout.
Proof.
  split.
  - repeat apply Forall_cons_2; try apply Forall_nil_2; unfold reg_ok; cbn;
      repeat split; try lia; by apply Z.mod_divide.
  - repeat constructor.
Qed.

Lemma check_addr_range_correct_witness :
  exists b, sbi_domain_check_addr_range (Some demo_layout) 0x80000000 0x2000 PRV_S 3 = Some b /\
    (b = true <-> forall x, 0x80000000 <= x < 0x80000000 + 0x2000 ->
       is_Some (find_region demo_layout x) /\
       sbi_domain_check_addr (Some demo_layout) x PRV_S 3 = true).
Proof.
  apply (check_addr_range_correct demo_layout 0x80000000 0x2000 PRV_S 3).
  - exact demo_layout_sane.
  - repeat apply Forall_cons_2; try apply Forall_nil_2; cbn; lia.
  - lia.
  - lia.
  - lia.
Defined.

(** No region counts as a subset of a block of order 64: [BIT(64)] shifts by
    zero, and the computed end of the block is its base. *)
Lemma subset_of_all_false s r : order r = 64 -> base r = 0 -> 0 <= base s -> is_region_subset s r = false.
Proof.
  intros E1 E2 Hb. unfold is_region_subset. rewrite E1, E2.
  change (u64 (0 + (BIT 64 - 1))) with 0.
  rewrite (proj2 (Z.ltb_ge (base s) 0)) by done. by rewrite andb_false_r.
Qed.

(** When the region that decides at the first address is the block of all
    addresses, as it is for S/U-mode memory in the root domain, the range check
    looks at that first address only: it finds no region nested in the block
    and stops.  A range that runs into the firmware's own region is accepted. *)
Lemma check_addr_range_catch_all d addr size mode acc j r :
  Forall (fun s => 0 <= base s) (dom_regions d) ->
  find_region d addr = Some (j, r) -> order r = 64 -> base r = 0 ->
  0 <= addr -> 0 < size -> addr + size < 2 ^ 64 ->
  sbi_domain_check_addr_range (Some d) addr size mode acc
  = Some (sbi_domain_check_addr (Some d) addr mode acc).
Proof.
  intros Hb Hf Ho Hr Ha Hs Hmax. unfold sbi_domain_check_addr_range, range_fuel.
  rewrite (wrap_small 64) by lia. cbn [addr_range_loop Nat.add].
  destruct (Z.ltb_spec addr (addr + size)); [|lia]. rewrite Hf.
  destruct (sbi_domain_check_addr (Some d) addr mode acc) eqn:Echk; cbn [negb]; [|done].
  pose proof (subset_loop_spec (dom_regions d) 0 (j, r) addr None) as Hsub.
  fold (find_next_subset_region d (j, r) addr) in Hsub.
  destruct (find_next_subset_region d (j, r) addr) as [t|]; cbn [snd].
  - destruct Hsub as ([|(k & Hk & Hc)] & _); [done|]. exfalso.
    unfold candidate in Hc. cbn [snd] in Hc. rewrite subset_of_all_false in Hc; [|done|done|].
    + by rewrite orb_true_r in Hc.
    + rewrite Forall_forall in Hb. apply Hb. by eapply list_elem_of_lookup_2.
  - rewrite Ho. done.
Qed.

(** The catch-all domain as [sanitize_domain] leaves it. *)
Definition demo_sanitized : sbi_domain :=
  set_regions demo_domain [mkReg 12 0x80040000 3; mkReg 18 0x80000000 5; mkReg 64 0 56; mkReg 0 0 0].

Lemma check_addr_range_catch_all_witness :
  sbi_domain_check_addr_range (Some demo_sanitized) 0x7ffff000 0x2000 PRV_S SBI_DOMAIN_READ = Some true /\
  sbi_domain_check_addr (Some demo_sanitized) 0x80000000 PRV_S SBI_DOMAIN_READ = false.
Proof.
  split; [|vm_compute; reflexivity].
  rewrite (check_addr_range_catch_all demo_sanitized 0x7ffff000 0x2000 PRV_S SBI_DOMAIN_READ
             2 (mkReg 64 0 56)); [vm_compute; reflexivity| |vm_compute; reflexivity|reflexivity
             |reflexivity|lia|lia|lia].
  repeat apply Forall_cons_2; try apply Forall_nil_2; cbn; lia.
Defined.

(** A range whose end wraps past 2^64 is accepted whatever the domain
    holds: the loop's bound is below its start. *)
Lemma check_addr_range_wraps d addr size mode acc :
  0 <= addr < 2 ^ 64 -> 0 <= size < 2 ^ 64 -> 2 ^ 64 <= addr + size ->
  sbi_domain_check_addr_range (Some d) addr size mode acc = Some true.
Proof.
  intros Ha Hs Hw. unfold sbi_domain_check_addr_range, range_fuel.
  assert (u64 (addr + size) = addr + size - 2 ^ 64) as ->.
  { unfold wrap. symmetry. apply Z.mod_unique with 1; lia. }
  cbn [addr_range_loop Nat.add]. destruct (Z.ltb_spec addr (addr + size - 2 ^ 64)); [lia|done].
Qed.

Lemma check_addr_range_wraps_witness :
  sbi_domain_check_addr_range (Some demo_sanitized) 0x80000000 (2 ^ 64 - 0x80000000) PRV_S
    SBI_DOMAIN_READ = Some true.
Proof.
  apply (check_addr_range_wraps demo_sanitized 0x80000000 (2 ^ 64 - 0x80000000)); lia.
Defined.

(** Two regions of order 63: from the upper one the loop wraps to address 0 and
    goes round for ever. *)
Definition demo_halves : sbi_domain :=
  mkDom 0 (mkMask [0; 0]) (Some (mkMask [3; 0]))
    (Some [mkReg 63 0 56; mkReg 63 (2 ^ 63) 56; mkReg 0 0 0]) 0 0 0 PRV_S true true true.

Lemma range_check_diverges fuel :
  addr_range_loop fuel demo_halves (2 ^ 63) (2 ^ 63 + 4096) PRV_S SBI_DOMAIN_READ = None.
Proof.
  assert (H : forall f, addr_range_loop (S (S f)) demo_halves (2 ^ 63) (2 ^ 63 + 4096) PRV_S 1
            = addr_range_loop f demo_halves (2 ^ 63) (2 ^ 63 + 4096) PRV_S 1) by reflexivity.
  induction fuel as [fuel IH] using lt_wf_ind.
  destruct fuel as [|[|fuel]]; [done..|]. rewrite H. apply IH. lia.
Qed.

Lemma check_addr_smallest d addr mode acc :
  dom_sane d ->
  (exists r, r ∈ dom_regions d /\ covers r addr /\
     (forall s, s ∈ dom_regions d -> covers s addr -> order r <= order s) /\
     sbi_domain_check_addr (Some d) addr mode acc = region_allows r mode acc) \/
  ((forall s, s ∈ dom_regions d -> ~ covers s addr) /\
   sbi_domain_check_addr (Some d) addr mode acc = (mode =? PRV_M)).
Proof.
  intros [Hok Hs]. cbn. rewrite check_addr_first.
  pose proof (find_region_loop_spec (dom_regions d) 0 addr Hok) as H.
  destruct (find_region_loop (dom_regions d) 0 addr) as [[j r]|] eqn:E.
  - left. exists r. destruct H as (_ & Hl & Hc & _). rewrite Nat.sub_0_r in Hl.
    split; [by eapply list_elem_of_lookup_2|]. split; [done|]. split; [|done].
    intros s Hin Hcs. by eapply first_is_smallest.
  - right. split; [|done]. by apply Forall_forall.
Qed.

(** In a sanitized domain the access decision at an address is made by a
    smallest region that covers it: the region found is one of the domain's,
    no region that covers the address has a smaller order, and its flags for
    the mode decide; when no region covers the address, only M-mode passes. *)
Lemma check_addr_smallest_region d addr mode acc :
  dom_sane d ->
  (exists r, r ∈ dom_regions d /\ covers r addr /\
     (forall s, s ∈ dom_regions d -> covers s addr -> order r <= order s) /\
     sbi_domain_check_addr (Some d) addr mode acc = region_allows r mode acc) \/
  ((forall s, s ∈ dom_regions d -> ~ covers s addr) /\
   sbi_domain_check_addr (Some d) addr mode acc = (mode =? PRV_M)).
Proof. apply check_addr_smallest. Qed.

Lemma check_addr_smallest_region_witness :
  (exists r, r ∈ dom_regions demo_layout /\ covers r 0x80001000 /\
     (forall s, s ∈ dom_regions demo_layout -> covers s 0x80001000 -> order r <= order s) /\
     sbi_domain_check_addr (Some demo_layout) 0x80001000 PRV_S 1 = region_allows r PRV_S 1) \/
  ((forall s, s ∈ dom_regions demo_layout -> ~ covers s 0x80001000) /\
   sbi_domain_check_addr (Some demo_layout) 0x80001000 PRV_S 1 = (PRV_S =? PRV_M)).
Proof.
  apply (check_addr_smallest_region demo_layout 0x80001000 PRV_S 1). exact demo_layout_sane.
Defined.
