(* ===== verification/SbiDomain.v ===== *)
(** * Domains ([sbi_domain.c], second half)

    Registration of domains and assignment of harts, the root domain's region
    table with its merging, start-up, finalisation and initialisation.

    A domain is an address in [domains], a map from addresses to structs, since
    harts, the domain list and the callers share domain pointers; address 0 is
    NULL.  [domain_list] is the linked list as the list of its nodes, which
    [SbiList.dlist_refines_list] justifies.  [hart_domain] holds, per hart
    index, the word at [domain_hart_ptr_offset] in that hart's scratch area.
    Locks are taken and released inside one operation, so an operation is one
    step.  The per-domain data callbacks ([sbi_domain_data.c]), the platform
    hook and the start of a hart are parameters. *)

From S2P Require Import Prelude SbiBitops SbiScratch SbiHartmask SbiMemregion.

Definition ROOT_REGION_MAX : Z := 32.

Record domain_state := mkDS {
  domains : gmap Z sbi_domain;
  domain_list : list Z;
  domain_count : Z;
  domain_finalized : bool;
  root_memregs_count : Z;
  domain_hart_ptr_offset : Z;
  hart_domain : gmap Z Z;
  scr : scratch_state
}.

(** The address of the global [root]. *)
Definition root : Z := 0x80041000.

Definition set_assigned (m : sbi_hartmask) (d : sbi_domain) : sbi_domain :=
  mkDom (index d) m (possible_harts d) (regions d) (boot_hartid d) (next_arg1 d) (next_addr d)
    (next_mode d) (system_reset_allowed d) (system_suspend_allowed d) (fw_region_inited d).

Definition set_boot_hartid (h : Z) (d : sbi_domain) : sbi_domain :=
  mkDom (index d) (assigned_harts d) (possible_harts d) (regions d) h (next_arg1 d) (next_addr d)
    (next_mode d) (system_reset_allowed d) (system_suspend_allowed d) (fw_region_inited d).

Definition set_index (i : Z) (d : sbi_domain) : sbi_domain :=
  mkDom i (assigned_harts d) (possible_harts d) (regions d) (boot_hartid d) (next_arg1 d)
    (next_addr d) (next_mode d) (system_reset_allowed d) (system_suspend_allowed d)
    (fw_region_inited d).

(** Update the struct at an address. *)
Definition upd_dom (p : Z) (f : sbi_domain -> sbi_domain) (st : domain_state) : domain_state :=
  mkDS (alter f p (domains st)) (domain_list st) (domain_count st) (domain_finalized st)
    (root_memregs_count st) (domain_hart_ptr_offset st) (hart_domain st) (scr st).

Definition set_list (l : list Z) (st : domain_state) : domain_state :=
  mkDS (domains st) l (domain_count st) (domain_finalized st) (root_memregs_count st)
    (domain_hart_ptr_offset st) (hart_domain st) (scr st).

Definition set_count (c : Z) (st : domain_state) : domain_state :=
  mkDS (domains st) (domain_list st) c (domain_finalized st) (root_memregs_count st)
    (domain_hart_ptr_offset st) (hart_domain st) (scr st).

Definition set_finalized (st : domain_state) : domain_state :=
  mkDS (domains st) (domain_list st) (domain_count st) true (root_memregs_count st)
    (domain_hart_ptr_offset st) (hart_domain st) (scr st).

Definition set_memregs_count (c : Z) (st : domain_state) : domain_state :=
  mkDS (domains st) (domain_list st) (domain_count st) (domain_finalized st) c
    (domain_hart_ptr_offset st) (hart_domain st) (scr st).

Definition set_hart_domain (i p : Z) (st : domain_state) : domain_state :=
  mkDS (domains st) (domain_list st) (domain_count st) (domain_finalized st)
    (root_memregs_count st) (domain_hart_ptr_offset st) (<[i := p]> (hart_domain st)) (scr st).

(** The scratch pointer of a hart index; on the tables [sbi_scratch_init]
    builds the lookup never leaves the table ([hartindex_to_scratch_total]). *)
Definition scratch_of (st : domain_state) (i : Z) : Z :=
  default 0 (sbi_hartindex_to_scratch (scr st) i).

Definition sbi_hartindex_to_domain (st : domain_state) (hartindex : Z) : Z :=
  if (scratch_of st hartindex =? 0) || (domain_hart_ptr_offset st =? 0) then 0
  else default 0 (hart_domain st !! hartindex).

Definition sbi_update_hartindex_to_domain (hartindex dom : Z) (st : domain_state) : domain_state :=
  if scratch_of st hartindex =? 0 then st else set_hart_domain hartindex dom st.

Definition sbi_domain_is_assigned_hart (st : domain_state) (dom hartindex : Z) : bool :=
  match domains st !! dom with
  | None => false
  | Some d => negb (sbi_hartmask_test_hartindex hartindex (assigned_harts d) =? 0)
  end.

Definition sbi_domain_get_assigned_hartmask (st : domain_state) (dom : Z) (mask : sbi_hartmask)
    : Z * sbi_hartmask :=
  match domains st !! dom with
  | None => (0, sbi_hartmask_clear_all mask)
  | Some d => (0, sbi_hartmask_copy mask (assigned_harts d))
  end.

(** ** Registration *)

(** One round of the assignment loop of [sbi_domain_register]. *)
Definition assign_hart (dom cold_hartid i : Z) (st : domain_state) : domain_state :=
  match domains st !! dom with
  | None => st
  | Some d =>
      match possible_harts d with
      | None => st
      | Some possible =>
          if sbi_hartmask_test_hartindex i possible =? 0 then st
          else
            let tdom := sbi_hartindex_to_domain st i in
            let st := if tdom =? 0 then st
                      else upd_dom tdom (fun t => set_assigned
                             (sbi_hartmask_clear_hartindex i (assigned_harts t)) t) st in
            let st := sbi_update_hartindex_to_domain i dom st in
            let st := upd_dom dom (fun t => set_assigned
                        (sbi_hartmask_set_hartindex i (assigned_harts t)) t) st in
            if (default 0 (sbi_hartindex_to_hartid (scr st) i) =? cold_hartid) &&
               negb (boot_hartid d =? cold_hartid)
            then upd_dom dom (set_boot_hartid cold_hartid) st else st
      end
  end.

Fixpoint assign_loop (dom cold_hartid : Z) (harts : list Z) (st : domain_state) : domain_state :=
  match harts with
  | [] => st
  | i :: rest => assign_loop dom cold_hartid rest (assign_hart dom cold_hartid i st)
  end.

Section Register.
Context (sbi_domain_setup_data : Z -> domain_state -> Z).

Definition sbi_domain_register (dom : Z) (assign_mask : option sbi_hartmask) (cold_hartid : Z)
    (st : domain_state) : option (Z * domain_state) :=
  match domains st !! dom, assign_mask, domain_finalized st with
  | Some d, Some mask, false =>
      if bool_decide (dom ∈ domain_list st) then Some (SBI_EALREADY, st)
      else
        '(rc, d) ← sanitize_domain (scr st) d;
        let st := upd_dom dom (fun _ => d) st in
        if negb (rc =? 0) then Some (rc, st)
        else
          let st := set_list (domain_list st ++ [dom]) st in
          let st := upd_dom dom (set_index (domain_count st)) st in
          let st := set_count (u32 (domain_count st + 1)) st in
          let st := upd_dom dom (fun t => set_assigned
                      (sbi_hartmask_clear_all (assigned_harts t)) t) st in
          harts ← sbi_hartmask_for_each_hartindex mask;
          let st := assign_loop dom cold_hartid harts st in
          let rc := sbi_domain_setup_data dom st in
          if negb (rc =? 0) then
            Some (rc, set_list (filter (fun p => p <> dom) (domain_list st)) st)
          else Some (0, st)
  | _, _, _ => Some (SBI_EINVAL, st)
  end.

End Register.

(** ** The root domain's regions *)

(** [nreg] and [nreg1] are the two halves of a block of the next order. *)
Definition mergeable (nreg nreg1 : sbi_domain_memregion) : bool :=
  (Z.land (base nreg) (BIT (order nreg + 1) - 1) =? 0) &&
  (u64 (base nreg + BIT (order nreg)) =? base nreg1) &&
  (order nreg =? order nreg1) && (flags nreg =? flags nreg1).

(** [while (nreg1->order) { *nreg1 = *(nreg1 + 1); nreg1++; }] *)
Fixpoint shift_down (l : list sbi_domain_memregion) : list sbi_domain_memregion :=
  match l with
  | a :: ((b :: _) as t) => if order a =? 0 then l else b :: shift_down t
  | _ => l
  end.

(** One walk over the array that merges neighbours; the array, whether a merge
    happened and the region count.  The walk is at most as long as the array. *)
Fixpoint merge_pass (fuel : nat) (l : list sbi_domain_memregion) (cnt : Z)
    : list sbi_domain_memregion * bool * Z :=
  match fuel, l with
  | S fuel', nreg :: ((nreg1 :: _) as rest) =>
      if order nreg =? 0 then (l, false, cnt)
      else if negb (order nreg1 =? 0) && mergeable nreg nreg1 then
        let '(rest', _, cnt') := merge_pass fuel' (shift_down rest) (u32 (cnt - 1)) in
        (mkReg (order nreg + 1) (base nreg) (flags nreg) :: rest', true, cnt')
      else
        let '(rest', merged, cnt') := merge_pass fuel' rest cnt in
        (nreg :: rest', merged, cnt')
  | _, _ => (l, false, cnt)
  end.

(** The [do ... while (reg_merged)] loop on the root domain struct. *)
Fixpoint merge_loop (fuel : nat) (sc : scratch_state) (d : sbi_domain) (cnt : Z)
    : option (Z * sbi_domain * Z) :=
  match fuel with
  | O => None
  | S fuel' =>
      '(rc, d) ← sanitize_domain sc d;
      if negb (rc =? 0) then Some (rc, d, cnt)
      else
        let a := default [] (regions d) in
        let '(a, merged, cnt) := merge_pass (length a) a cnt in
        let d := set_regions d a in
        if merged : bool then merge_loop fuel' sc d cnt else Some (0, d, cnt)
  end.

Definition root_add_memregion (reg : sbi_domain_memregion) (st : domain_state)
    : option (Z * domain_state) :=
  match domains st !! root with
  | None => Some (SBI_EINVAL, st)
  | Some d =>
      match regions d with
      | None => Some (SBI_EINVAL, st)
      | Some a =>
          if domain_finalized st || (ROOT_REGION_MAX <=? root_memregs_count st)
          then Some (SBI_EINVAL, st)
          else if existsb (is_region_compatible reg) (memregions a) then Some (0, st)
          else
            let n := root_memregs_count st in
            let a := set_reg a n reg in
            let old := reg_at a (n + 1) in
            let a := set_reg a (n + 1) (mkReg 0 (base old) (flags old)) in
            '(rc, d, cnt) ← merge_loop (2 + length a) (scr st) (set_regions d a) (n + 1);
            Some (rc, set_memregs_count cnt (upd_dom root (fun _ => d) st))
      end
  end.

(** [while (pos < end)] of [sbi_domain_root_add_memrange]. *)
Fixpoint memrange_loop (fuel : nat) (pos end_ align region_flags : Z) (st : domain_state)
    : option (Z * domain_state) :=
  if pos <? end_ then
    match fuel with
    | O => None
    | S fuel' =>
        let rsize := Z.land pos (align - 1) in
        let rsize := if negb (rsize =? 0) then u64 (Z.shiftl 1 (sbi_ffs pos))
                     else if u64 (end_ - pos) <? align then u64 (end_ - pos) else align in
        '(rc, st) ← root_add_memregion (sbi_domain_memregion_init pos rsize region_flags) st;
        if negb (rc =? 0) then Some (rc, st)
        else memrange_loop fuel' (u64 (pos + rsize)) end_ align region_flags st
    end
  else Some (0, st).

(** Up to 64 rounds reach an aligned position; then each adds [align]. *)
Definition sbi_domain_root_add_memrange (addr size align region_flags : Z) (st : domain_state)
    : option (Z * domain_state) :=
  memrange_loop (Z.to_nat (66 + size / align)) addr (u64 (addr + size)) align region_flags st.

(** ** Boot *)

(** The fields of [struct sbi_scratch] that describe the firmware and the next
    stage. *)
Record boot_scratch := mkBoot {
  fw_start : Z; fw_size : Z; fw_rw_offset : Z;
  sc_next_arg1 : Z; sc_next_addr : Z; sc_next_mode : Z
}.

Section Startup.
Context {W : Type} (sbi_hsm_hart_start : W -> Z -> Z -> Z -> Z -> Z * W).

Definition startup_skips (st : domain_state) (dom : Z) (d : sbi_domain) (dhart : Z) : bool :=
  negb (sbi_hartindex_valid (scr st) dhart) ||
  match possible_harts d with
  | None => true
  | Some m => sbi_hartmask_test_hartindex dhart m =? 0
  end ||
  negb (sbi_hartindex_to_domain st dhart =? dom) ||
  (sbi_hartmask_test_hartindex dhart (assigned_harts d) =? 0).

Fixpoint startup_loop (st : domain_state) (cold_hartid : Z) (doms : list Z)
    (sb : boot_scratch) (w : W) : option (Z * boot_scratch * W) :=
  match doms with
  | [] => Some (0, sb, w)
  | dom :: rest =>
      d ← domains st !! dom;
      dhart ← sbi_hartid_to_hartindex (scr st) (boot_hartid d);
      if startup_skips st dom d dhart then startup_loop st cold_hartid rest sb w
      else if boot_hartid d =? cold_hartid then
        startup_loop st cold_hartid rest
          (mkBoot (fw_start sb) (fw_size sb) (fw_rw_offset sb)
             (next_arg1 d) (next_addr d) (next_mode d)) w
      else
        let '(rc, w) := sbi_hsm_hart_start w (boot_hartid d) (next_addr d) (next_mode d)
                          (next_arg1 d) in
        if negb (rc =? 0) then Some (rc, sb, w)
        else startup_loop st cold_hartid rest sb w
  end.

Definition sbi_domain_startup (st : domain_state) (cold_hartid : Z) (sb : boot_scratch) (w : W)
    : option (Z * boot_scratch * W) :=
  if negb (domain_finalized st) then Some (SBI_EINVAL, sb, w)
  else startup_loop st cold_hartid (domain_list st) sb w.

End Startup.

(** [domains_init] is the platform's hook. *)
Definition sbi_domain_finalize (domains_init : domain_state -> Z * domain_state)
    (st : domain_state) : Z * domain_state :=
  if domain_finalized st then (SBI_EINVAL, st)
  else
    let '(rc, st) := domains_init st in
    if negb (rc =? 0) then (rc, st) else (0, set_finalized st).

(** What [sbi_domain_init] gets from the allocators and the context module. *)
Record init_env := mkEnv {
  context_init_rc : Z;
  regs_allocated : bool;
  hmask_allocated : bool
}.

Definition SU_RWX : Z := Z.lor SU_READABLE (Z.lor SU_WRITABLE SU_EXECUTABLE).

(** The root domain's table: the two firmware regions and the catch-all from
    index [n] on, in a zeroed array, then the terminator. *)
Definition root_memregs (sb : boot_scratch) (n : Z) : list sbi_domain_memregion :=
  let a := replicate 33 (mkReg 0 0 0) in
  let a := set_reg a n (sbi_domain_memregion_init (fw_start sb) (fw_rw_offset sb)
                          (Z.lor M_READABLE M_EXECUTABLE)) in
  let a := set_reg a (n + 1) (sbi_domain_memregion_init (u64 (fw_start sb + fw_rw_offset sb))
                                (u64 (fw_size sb - fw_rw_offset sb))
                                (Z.lor M_READABLE M_WRITABLE)) in
  let a := set_reg a (n + 2) (sbi_domain_memregion_init 0 ULONG_MAX SU_RWX) in
  set_reg a (n + 3) (mkReg 0 (base (reg_at a (n + 3))) (flags (reg_at a (n + 3)))).

(** [for (i = 0; i < plat->hart_count; i++) sbi_hartmask_set_hartindex(i, root_hmask)] *)
Definition root_hmask (hart_count : Z) : sbi_hartmask :=
  for_up (fun i m => sbi_hartmask_set_hartindex i m) 0 (Z.to_nat hart_count) (mkMask [0; 0]).

Definition root_domain (sb : boot_scratch) (n : Z) (hmask : sbi_hartmask) (cold_hartid : Z)
    : sbi_domain :=
  mkDom 0 (mkMask [0; 0]) (Some hmask) (Some (root_memregs sb n))
    cold_hartid (sc_next_arg1 sb) (sc_next_addr sb) (sc_next_mode sb) true true true.

(** On the failure paths the tables are freed again and [root] keeps dangling
    pointers to them; the model leaves [root] as it was. *)
Definition sbi_domain_init (setup_data : Z -> domain_state -> Z) (env : init_env)
    (plat : sbi_platform) (sb : boot_scratch) (cold_hartid : Z) (st : domain_state)
    : option (Z * domain_state) :=
  let st := set_list [] st in
  if (fw_rw_offset sb =? 0) || negb (Z.land (fw_rw_offset sb) (u64 (fw_rw_offset sb - 1)) =? 0)
  then Some (SBI_EINVAL, st)
  else if negb (Z.land (fw_start sb) (u64 (fw_rw_offset sb - 1)) =? 0) then Some (SBI_EINVAL, st)
  else
    '(off, sc, _) ← sbi_scratch_alloc_offset (scr st) (fun _ => 0) 8;
    let st := mkDS (domains st) (domain_list st) (domain_count st) (domain_finalized st)
                (root_memregs_count st) off ∅ sc in
    if off =? 0 then Some (SBI_ENOMEM, st)
    else if negb (context_init_rc env =? 0) then Some (context_init_rc env, st)
    else if negb (regs_allocated env) then Some (SBI_ENOMEM, st)
    else if negb (hmask_allocated env) then Some (SBI_ENOMEM, st)
    else
      let hmask := root_hmask (hart_count plat) in
      let n := root_memregs_count st in
      let st := set_memregs_count (u32 (n + 3)) st in
      let st := mkDS (<[root := root_domain sb n hmask cold_hartid]> (domains st)) (domain_list st)
                  (domain_count st) (domain_finalized st) (root_memregs_count st)
                  (domain_hart_ptr_offset st) (hart_domain st) (scr st) in
      sbi_domain_register setup_data root (Some hmask) cold_hartid st.

(** ** Lemmas: the assignment of harts *)

(** A domain without the fields registration changes. *)
Definition static (d : sbi_domain) : sbi_domain :=
  set_index 0 (set_boot_hartid 0 (set_assigned (mkMask []) d)).

Lemma upd_dom_lookup p q f st :
  domains (upd_dom p f st) !! q = (if bool_decide (p = q) then f else id) <$> domains st !! q.
Proof.
  cbn. case_bool_decide as E.
  - subst. apply lookup_alter_eq.
  - rewrite lookup_alter_ne by done. by destruct (_ !! q).
Qed.

Lemma upd_dom_static p q f st :
  (forall d, static (f d) = static d) ->
  static <$> domains (upd_dom p f st) !! q = static <$> domains st !! q.
Proof.
  intros Hf. rewrite upd_dom_lookup. destruct (domains st !! q) as [d|]; [|done]. cbn.
  case_bool_decide; cbn; by rewrite ?Hf.
Qed.

Lemma update_domains i p st : domains (sbi_update_hartindex_to_domain i p st) = domains st.
Proof. unfold sbi_update_hartindex_to_domain. by destruct (_ =? 0). Qed.

Lemma assign_hart_static dom cold i st q :
  static <$> domains (assign_hart dom cold i st) !! q = static <$> domains st !! q.
Proof.
  unfold assign_hart. destruct (domains st !! dom) as [d|]; [|done].
  destruct (possible_harts d) as [m|]; [|done]. destruct (_ =? 0); [done|].
  destruct (_ && _); rewrite ?upd_dom_static by done; rewrite update_domains;
    destruct (_ =? 0); rewrite ?upd_dom_static by done; done.
Qed.

Lemma assign_loop_static dom cold harts st q :
  static <$> domains (assign_loop dom cold harts st) !! q = static <$> domains st !! q.
Proof.
  revert st. induction harts as [|i harts IH]; intros st; cbn; [done|].
  by rewrite IH, assign_hart_static.
Qed.

(** What assigning harts leaves alone. *)
Definition same_globals (st st' : domain_state) : Prop :=
  domain_list st' = domain_list st /\ domain_hart_ptr_offset st' = domain_hart_ptr_offset st /\
  scr st' = scr st /\ domain_count st' = domain_count st /\
  domain_finalized st' = domain_finalized st /\ root_memregs_count st' = root_memregs_count st.

#[export] Instance same_globals_preorder : PreOrder same_globals.
Proof.
  split.
  - by intros st.
  - intros a b c (?&?&?&?&?&?) (?&?&?&?&?&?). split_and!; congruence.
Qed.

Lemma assign_hart_globals dom cold i st : same_globals st (assign_hart dom cold i st).
Proof.
  unfold assign_hart, sbi_update_hartindex_to_domain.
  repeat first [case_match | by split_and!].
Qed.

Lemma assign_loop_globals dom cold harts st : same_globals st (assign_loop dom cold harts st).
Proof.
  revert st. induction harts as [|i harts IH]; intros st; cbn; [done|].
  etrans; [apply assign_hart_globals|apply IH].
Qed.

Definition last_hart (st : domain_state) : Z := last_hartindex_having_scratch (scr st).

(** Every hart has a scratch area with room for a domain pointer. *)
Definition harts_ok (st : domain_state) : Prop :=
  0 <= last_hart st < 128 /\ domain_hart_ptr_offset st <> 0 /\
  (forall i, 0 <= i <= last_hart st -> scratch_of st i <> 0).

(** The assigned masks of the registered domains are the partition of the harts
    that the per-hart domain pointers define. *)
Definition assign_inv (st : domain_state) : Prop :=
  harts_ok st /\ 0 ∉ domain_list st /\
  (forall p, p ∈ domain_list st -> exists d, domains st !! p = Some d /\
     mask_ok (assigned_harts d) /\
     forall i, 0 <= i <= last_hart st ->
       (mask_has (assigned_harts d) i = true <-> sbi_hartindex_to_domain st i = p)) /\
  (forall i, 0 <= i <= last_hart st ->
     sbi_hartindex_to_domain st i = 0 \/ sbi_hartindex_to_domain st i ∈ domain_list st).

Lemma owner_unfold st i :
  harts_ok st -> 0 <= i <= last_hart st ->
  sbi_hartindex_to_domain st i = default 0 (hart_domain st !! i).
Proof.
  intros (_ & Ho & Hs) Hi. unfold sbi_hartindex_to_domain.
  destruct (Z.eqb_spec (scratch_of st i) 0); [by destruct (Hs i Hi)|].
  by destruct (Z.eqb_spec (domain_hart_ptr_offset st) 0).
Qed.

Lemma harts_ok_globals st st' : same_globals st st' -> harts_ok st -> harts_ok st'.
Proof.
  intros (_ & Ho & Hs & _) H. unfold harts_ok, last_hart, scratch_of in *. by rewrite Ho, Hs.
Qed.

Lemma last_hart_globals st st' : same_globals st st' -> last_hart st' = last_hart st.
Proof. intros (_ & _ & Hs & _). unfold last_hart. by rewrite Hs. Qed.

(** The assigned mask of domain [p] after hart [i] moved from [tdom] to [dom]. *)
Definition assigned_after (tdom dom i p : Z) (m : sbi_hartmask) : sbi_hartmask :=
  let m := if bool_decide (tdom = p /\ tdom <> 0) then sbi_hartmask_clear_hartindex i m else m in
  if bool_decide (dom = p) then sbi_hartmask_set_hartindex i m else m.

Lemma upd_dom_assigned p q f g st :
  (forall d, assigned_harts (f d) = g (assigned_harts d)) ->
  assigned_harts <$> domains (upd_dom p f st) !! q
  = (if bool_decide (p = q) then g else id) <$> (assigned_harts <$> domains st !! q).
Proof.
  intros Hf. rewrite upd_dom_lookup. destruct (domains st !! q) as [d|]; [|done]. cbn.
  case_bool_decide; cbn; by rewrite ?Hf.
Qed.

Lemma assign_hart_effect dom cold i st d possible :
  harts_ok st -> domains st !! dom = Some d -> possible_harts d = Some possible ->
  mask_has possible i = true -> 0 <= i <= last_hart st ->
  hart_domain (assign_hart dom cold i st) = <[i := dom]> (hart_domain st) /\
  forall p, assigned_harts <$> domains (assign_hart dom cold i st) !! p
    = assigned_after (sbi_hartindex_to_domain st i) dom i p <$> (assigned_harts <$> domains st !! p).
Proof.
  intros (Hl & Hoff & Hscr) Hd Hp Hi Hil. unfold assign_hart.
  rewrite Hd, Hp, mask_test, Hi by lia. cbn [Z.b2z Z.eqb].
  unfold sbi_update_hartindex_to_domain.
  set (tdom := sbi_hartindex_to_domain st i).
  set (st1 := if tdom =? 0 then st else _).
  assert (Hs1 : scratch_of st1 i =? 0 = false).
  { assert (scratch_of st1 i = scratch_of st i) as -> by (subst st1; by destruct (tdom =? 0)).
    apply Z.eqb_neq, Hscr. lia. }
  assert (Hh1 : hart_domain st1 = hart_domain st) by (subst st1; by destruct (tdom =? 0)).
  assert (Hd1 : forall p, assigned_harts <$> domains st1 !! p
     = (if bool_decide (tdom = p /\ tdom <> 0) then sbi_hartmask_clear_hartindex i else id)
         <$> (assigned_harts <$> domains st !! p)).
  { intros p. subst st1. destruct (Z.eqb_spec tdom 0).
    - rewrite bool_decide_eq_false_2 by tauto. by destruct (domains st !! p).
    - rewrite (upd_dom_assigned _ _ _ (sbi_hartmask_clear_hartindex i)) by done.
      repeat case_bool_decide; done || tauto. }
  rewrite Hs1. split; [destruct (_ && _); cbn; by rewrite Hh1|]. intros p.
  set (st2 := upd_dom dom _ (set_hart_domain i dom st1)).
  assert (Hd2 : assigned_harts <$> domains st2 !! p
     = assigned_after tdom dom i p <$> (assigned_harts <$> domains st !! p)).
  { subst st2. rewrite (upd_dom_assigned _ _ _ (sbi_hartmask_set_hartindex i)) by done.
    cbn [domains set_hart_domain]. rewrite Hd1. unfold assigned_after.
    destruct (domains st !! p); cbn; [|done]. by repeat case_bool_decide. }
  destruct (_ && _); [|done].
  rewrite (upd_dom_assigned _ _ _ id) by done. rewrite Hd2.
  destruct (domains st !! p); cbn; [|done]. by case_bool_decide.
Qed.

Lemma assigned_after_has tdom dom i p m j :
  mask_ok m -> 0 <= i -> 0 <= j < 128 ->
  mask_ok (assigned_after tdom dom i p m) /\
  mask_has (assigned_after tdom dom i p m) j
  = if j =? i then bool_decide (dom = p) || (negb (bool_decide (tdom = p /\ tdom <> 0)) && mask_has m j)
    else mask_has m j.
Proof.
  intros Hm Hi Hj. unfold assigned_after.
  repeat case_bool_decide; split; auto with sbi; rewrite ?mask_has_set, ?mask_has_clear by auto with sbi;
    by destruct (j =? i), (mask_has m j).
Qed.

(** One round of the loop, for a hart the domain may own. *)
Lemma assign_hart_step dom cold i st d possible :
  assign_inv st -> dom ∈ domain_list st -> domains st !! dom = Some d ->
  possible_harts d = Some possible -> mask_has possible i = true -> 0 <= i <= last_hart st ->
  assign_inv (assign_hart dom cold i st) /\
  (forall j, 0 <= j <= last_hart st ->
     sbi_hartindex_to_domain (assign_hart dom cold i st) j
     = if j =? i then dom else sbi_hartindex_to_domain st j).
Proof.
  intros Hinv Hin Hd Hp Hi Hil. pose proof Hinv as (Hok & H0 & Hdoms & Hown).
  pose proof (assign_hart_globals dom cold i st) as Hg. pose proof Hok as (Hl & _).
  destruct (assign_hart_effect dom cold i st d possible Hok Hd Hp Hi Hil) as [Hh Ha].
  set (st' := assign_hart dom cold i st) in *.
  pose proof (harts_ok_globals _ _ Hg Hok) as Hok'. pose proof (last_hart_globals _ _ Hg) as Hl'.
  assert (Hown' : forall j, 0 <= j <= last_hart st ->
    sbi_hartindex_to_domain st' j = if j =? i then dom else sbi_hartindex_to_domain st j).
  { intros j Hj. rewrite !owner_unfold by (done || lia). rewrite Hh.
    destruct (Z.eqb_spec j i) as [->|]; [by rewrite lookup_insert_eq|].
    by rewrite lookup_insert_ne. }
  split; [|done]. destruct Hg as (HL & _). unfold assign_inv. rewrite HL, Hl'.
  split; [done|]. split; [done|]. split.
  - intros p Hpin. destruct (Hdoms p Hpin) as (t & Ht & Hmt & Hiff).
    specialize (Ha p). rewrite Ht in Ha. cbn in Ha.
    destruct (domains st' !! p) as [t'|] eqn:Et'; [|done]. cbn in Ha. injection Ha as Ha.
    exists t'. split; [done|]. rewrite Ha.
    split; [apply (assigned_after_has _ _ _ _ _ 0); done || lia|].
    intros j Hj. rewrite Hown' by done.
    rewrite (proj2 (assigned_after_has (sbi_hartindex_to_domain st i) dom i p _ j Hmt ltac:(lia) ltac:(lia))).
    specialize (Hiff j Hj). destruct (Z.eqb_spec j i) as [->|]; [|done].
    assert (p <> 0) by (intros ->; done).
    repeat case_bool_decide; cbn; rewrite ?Hiff; intuition congruence.
  - intros j Hj. rewrite Hown' by done. destruct (j =? i); [by right|by apply Hown].
Qed.

(** The whole loop: the domain gets the harts of the mask it may own. *)
Lemma assign_loop_spec dom cold harts st d possible :
  assign_inv st -> dom ∈ domain_list st -> domains st !! dom = Some d ->
  possible_harts d = Some possible ->
  (forall i, mask_has possible i = true -> 0 <= i <= last_hart st) ->
  Forall (fun i => 0 <= i < 128) harts ->
  assign_inv (assign_loop dom cold harts st) /\
  (forall j, 0 <= j <= last_hart st ->
     sbi_hartindex_to_domain (assign_loop dom cold harts st) j
     = if bool_decide (j ∈ harts /\ mask_has possible j = true) then dom
       else sbi_hartindex_to_domain st j).
Proof.
  intros Hinv Hin Hd Hp Hlast Hh. revert st d Hinv Hin Hd Hp Hlast.
  induction Hh as [|i harts Hi Hh IH]; intros st d Hinv Hin Hd Hp Hlast; cbn [assign_loop].
  { split; [done|]. intros j Hj. case_bool_decide as E; [|done].
    destruct E as [E _]. by apply elem_of_nil in E. }
  destruct (mask_has possible i) eqn:Ei.
  - destruct (assign_hart_step dom cold i st d possible) as [Hinv' Hown']; auto.
    pose proof (assign_hart_globals dom cold i st) as Hg.
    pose proof (last_hart_globals _ _ Hg) as Hl'. pose proof (assign_hart_static dom cold i st dom) as Hst.
    rewrite Hd in Hst. destruct (domains (assign_hart dom cold i st) !! dom) as [d'|] eqn:Ed'; [|done].
    assert (possible_harts d' = Some possible) as Hp'.
    { apply (inj Some), (f_equal possible_harts) in Hst. cbn in Hst. by rewrite Hst. }
    destruct (IH (assign_hart dom cold i st) d' Hinv') as [H1 H2]; auto.
    { by rewrite (proj1 Hg). } { intros j ?. rewrite Hl'. auto. }
    split; [done|]. intros j Hj. rewrite H2, Hown' by (rewrite ?Hl'; done).
    destruct (Z.eqb_spec j i) as [->|Hne].
    + rewrite (bool_decide_eq_true_2 (i ∈ i :: harts /\ _)) by (split; [left|done]).
      by case_bool_decide.
    + erewrite bool_decide_ext; [done|]. rewrite elem_of_cons. tauto.
  - assert (assign_hart dom cold i st = st) as ->.
    { unfold assign_hart. by rewrite Hd, Hp, mask_test, Ei by done. }
    destruct (IH st d) as [H1 H2]; auto. split; [done|]. intros j Hj. rewrite H2 by done.
    destruct (Z.eq_dec j i) as [->|].
    + rewrite !bool_decide_eq_false_2 by (rewrite Ei; by intros [_ ?]). done.
    + erewrite bool_decide_ext; [done|]. rewrite elem_of_cons. tauto.
Qed.

(** The state in which the assignment loop starts: [dom] is listed and owns no
    hart. *)
Lemma register_start dom d st st1 :
  assign_inv st -> dom <> 0 -> dom ∉ domain_list st ->
  domain_list st1 = domain_list st ++ [dom] -> hart_domain st1 = hart_domain st ->
  scr st1 = scr st -> domain_hart_ptr_offset st1 = domain_hart_ptr_offset st ->
  domains st1 !! dom = Some d -> mask_ok (assigned_harts d) ->
  (forall i, 0 <= i < 128 -> mask_has (assigned_harts d) i = false) ->
  (forall p, p <> dom -> domains st1 !! p = domains st !! p) ->
  assign_inv st1 /\ (forall i, sbi_hartindex_to_domain st1 i = sbi_hartindex_to_domain st i).
Proof.
  intros (Hok & H0 & Hdoms & Hown) Hne Hnin HL Hh Hs Ho Hd Hm Hempty Hsame.
  assert (Hown1 : forall i, sbi_hartindex_to_domain st1 i = sbi_hartindex_to_domain st i).
  { intros i. unfold sbi_hartindex_to_domain, scratch_of. by rewrite Hs, Ho, Hh. }
  split; [|done]. unfold assign_inv, harts_ok, last_hart, scratch_of in *.
  rewrite Hs, Ho, HL. split; [done|]. split; [set_solver|]. split.
  - intros p [Hp|Hp%list_elem_of_singleton]%elem_of_app.
    + rewrite Hsame by set_solver. destruct (Hdoms p Hp) as (t & Ht & Hmt & Hiff).
      exists t. split; [done|]. split; [done|]. intros i Hi. rewrite Hown1. by apply Hiff.
    + subst p. exists d. split; [done|]. split; [done|]. intros i Hi. rewrite Hown1, Hempty by lia.
      split; [done|]. intros E. destruct (Hown i Hi) as [?|Hin]; [congruence|].
      rewrite E in Hin. done.
  - intros i Hi. rewrite Hown1. destruct (Hown i Hi) as [?|Hin]; [by left|right].
    apply elem_of_app. by left.
Qed.

Lemma filter_ne_snoc dom (l : list Z) : dom ∉ l -> filter (fun p => p <> dom) (l ++ [dom]) = l.
Proof.
  intros Hn. rewrite filter_app, filter_cons, filter_nil, decide_False by auto.
  rewrite app_nil_r. induction l as [|p l IH]; [done|].
  apply not_elem_of_cons in Hn as [? ?]. rewrite filter_cons, decide_True by done.
  by rewrite IH.
Qed.

Lemma mask_has_range m i : mask_has m i = true -> 0 <= i < 128.
Proof. unfold mask_has, SBI_HARTMASK_MAX_BITS. intros H. prop_bool. lia. Qed.

(** Registration of a new domain on all branches behind the sanity checks. *)
Lemma register_spec setup dom mask cold st d possible a :
  assign_inv st -> domains st !! dom = Some d -> dom <> 0 -> dom ∉ domain_list st ->
  domain_finalized st = false -> possible_harts d = Some possible -> mask_ok possible ->
  regions d = Some a -> Z.of_nat (length a) < 2 ^ 32 -> mask_ok (assigned_harts d) -> mask_ok mask ->
  exists rc st', sbi_domain_register setup dom (Some mask) cold st = Some (rc, st') /\
    (rc = 0 -> assign_inv st' /\ domain_list st' = domain_list st ++ [dom] /\
       (forall i, 0 <= i <= last_hart st -> sbi_hartindex_to_domain st' i
          = if mask_has mask i && mask_has possible i then dom
            else sbi_hartindex_to_domain st i) /\
       exists d0 d', sanitize_domain (scr st) d = Some (0, d0) /\
         domains st' !! dom = Some d' /\ static d' = static d0) /\
    (rc <> 0 -> domain_list st' = domain_list st /\
       ((forall i, sbi_hartindex_to_domain st' i = sbi_hartindex_to_domain st i) \/
        (forall i, 0 <= i <= last_hart st -> sbi_hartindex_to_domain st' i
           = if mask_has mask i && mask_has possible i then dom
             else sbi_hartindex_to_domain st i))).
Proof.
  intros Hinv Hd Hne Hnin Hfin Hp Hpok Ha Hlen Hmok Hmask. unfold sbi_domain_register.
  rewrite Hd, Hfin, bool_decide_eq_false_2 by done.
  destruct (sanitize_spec (scr st) d possible a Hp Hpok Ha Hlen)
    as (rc & d0 & Hsan & Hrc & Hperm & Hiff & _).
  rewrite Hsan. cbn [mbind option_bind].
  destruct (Z.eqb_spec rc 0) as [->|Hrc0]; cbn [negb].
  2:{ eexists _, _. split; [done|]. split; [done|]. intros _. split; [done|]. left. done. }
  rewrite for_each_members by done. cbn [mbind option_bind].
  match goal with |- context [assign_loop dom cold (members mask) ?s] => set (st1 := s) end.
  destruct Hperm as (b & b' & Hb & -> & Hlenb & _).
  set (d1 := set_assigned (sbi_hartmask_clear_all (assigned_harts d))
               (set_index (domain_count st) (set_regions d b'))).
  assert (Hd1 : domains st1 !! dom = Some d1).
  { subst st1. cbn. by rewrite !lookup_alter_eq, Hd. }
  destruct (register_start dom d1 st st1) as [Hinv1 Hown1]; try done.
  { by apply mask_clear_all_ok. }
  { intros i Hi. by apply mask_has_clear_all. }
  { intros p Hpd. subst st1. cbn. by rewrite !lookup_alter_ne by done. }
  destruct (proj1 Hiff eq_refl) as (Hvalid & _).
  destruct (assign_loop_spec dom cold (members mask) st1 d1 possible) as [Hinv2 Hown2]; try done.
  { subst st1. cbn. set_solver. }
  { intros i Hi. pose proof (mask_has_range _ _ Hi). specialize (Hvalid i Hi). change (last_hart st1) with (last_hart st). unfold last_hart. lia. }
  { apply Forall_forall. intros i Hi%elem_of_members. by eapply mask_has_range. }
  pose proof (assign_loop_globals dom cold (members mask) st1) as Hg.
  pose proof (assign_loop_static dom cold (members mask) st1 dom) as Hst.
  set (st2 := assign_loop dom cold (members mask) st1) in *.
  assert (Hown : forall i, 0 <= i <= last_hart st -> sbi_hartindex_to_domain st2 i
     = if mask_has mask i && mask_has possible i then dom else sbi_hartindex_to_domain st i).
  { intros i Hi. rewrite Hown2, Hown1 by done.
    destruct (mask_has mask i) eqn:E1, (mask_has possible i) eqn:E2; cbn;
      case_bool_decide as E; rewrite ?elem_of_members in E; tauto || destruct E; congruence. }
  destruct (Z.eqb_spec (setup dom st2) 0) as [Hz|Hz]; cbn [negb].
  - eexists 0, st2. split; [done|]. split; [|done]. intros _. split; [done|].
    split; [by rewrite (proj1 Hg)|]. split; [done|].
    rewrite Hd1 in Hst. destruct (domains st2 !! dom) as [d'|]; [|done].
    exists (set_regions d b'), d'. split; [done|]. split; [done|].
    by apply (inj Some) in Hst.
  - eexists _, _. split; [done|]. split; [done|]. intros _. split; [|by right].
    cbn. rewrite (proj1 Hg). subst st1. cbn. by apply filter_ne_snoc.
Qed.

(** Registering a domain keeps the invariant that the assigned masks of
    the registered domains are a partition of the harts, in agreement with the
    per-hart domain pointers.  On success the domain owns exactly the harts of
    the mask that it may own, taken from their former domains, and every other
    hart stays where it was; an error of the sanity checks moves no hart, and an
    error of the data setup removes the domain from the list but leaves the
    harts pointing to it. *)
Lemma register_partitions_harts setup dom mask cold st d possible a :
  assign_inv st -> domains st !! dom = Some d -> dom <> 0 -> dom ∉ domain_list st ->
  domain_finalized st = false -> possible_harts d = Some possible -> mask_ok possible ->
  regions d = Some a -> Z.of_nat (length a) < 2 ^ 32 -> mask_ok (assigned_harts d) -> mask_ok mask ->
  exists rc st', sbi_domain_register setup dom (Some mask) cold st = Some (rc, st') /\
    (rc = 0 -> assign_inv st' /\ domain_list st' = domain_list st ++ [dom] /\
       (forall i, 0 <= i <= last_hart st -> sbi_hartindex_to_domain st' i
          = if mask_has mask i && mask_has possible i then dom
            else sbi_hartindex_to_domain st i)) /\
    (rc <> 0 -> domain_list st' = domain_list st /\
       ((forall i, sbi_hartindex_to_domain st' i = sbi_hartindex_to_domain st i) \/
        (forall i, 0 <= i <= last_hart st -> sbi_hartindex_to_domain st' i
           = if mask_has mask i && mask_has possible i then dom
             else sbi_hartindex_to_domain st i))).
Proof.
  intros. destruct (register_spec setup dom mask cold st d possible a) as (rc & st' & Hr & Hgood & Hbad);
    try done.
  exists rc, st'. split; [done|]. split; [|done]. intros E. destruct (Hgood E) as (? & ? & ? & _). done.
Qed.

(** Two harts, no domain registered, and a domain to register. *)
Definition demo_state : domain_state :=
  mkDS {[ 4096 := demo_domain ]} [] 0 false 0 120 ∅ demo_scratch.

Lemma demo_state_inv : assign_inv demo_state.
Proof.
  assert (H01 : forall i, 0 <= i <= last_hart demo_state -> i = 0 \/ i = 1).
  { intros i Hi. unfold last_hart in Hi. cbn in Hi. lia. }
  split; [split; [|split]|split; [|split]].
  - by cbn.
  - by cbn.
  - intros i Hi. by destruct (H01 i Hi) as [-> | ->].
  - apply not_elem_of_nil.
  - intros p H. by apply elem_of_nil in H.
  - intros i Hi. left. by destruct (H01 i Hi) as [-> | ->].
Qed.

Lemma register_partitions_harts_witness :
  exists st', sbi_domain_register (fun _ _ => 0) 4096 (Some (mkMask [2; 0])) 0 demo_state
              = Some (0, st') /\ sbi_hartindex_to_domain st' 1 = 4096.
Proof.
  destruct (register_partitions_harts (fun _ _ => 0) 4096 (mkMask [2; 0]) 0 demo_state demo_domain
              (mkMask [3; 0])
              [mkReg 64 0 56; mkReg 18 0x80000000 5; mkReg 12 0x80040000 3; mkReg 0 0 0])
    as (rc & st' & Hr & H0 & _);
    [exact demo_state_inv|reflexivity|lia|apply not_elem_of_nil|reflexivity|reflexivity
    |exact demo_mask_ok|reflexivity|reflexivity|exact mask_zero_ok| |].
  - split; [|reflexivity].
    repeat apply Forall_cons_2; try apply Forall_nil_2; unfold word_ok; lia.
  - assert (rc = 0) as ->.
    { assert (H : fst <$> sbi_domain_register (fun _ _ => 0) 4096 (Some (mkMask [2; 0])) 0 demo_state
                  = Some 0) by (vm_compute; reflexivity).
      rewrite Hr in H. cbn in H. congruence. }
    exists st'. split; [exact Hr|]. destruct (H0 eq_refl) as (_ & _ & Hown).
    rewrite (Hown 1) by (cbn; lia). reflexivity.
Defined.

(** ** Lemmas: the root domain after initialisation *)

Lemma root_hmask_ok n : mask_ok (root_hmask n).
Proof.
  unfold root_hmask. generalize 0 at 1 as k. generalize (Z.to_nat n) as c.
  assert (H : forall c k m, mask_ok m ->
    mask_ok (for_up (fun i m => sbi_hartmask_set_hartindex i m) k c m)).
  { intros c. induction c as [|c IH]; intros k m Hm; cbn; [done|]. apply IH. auto with sbi. }
  intros. apply H, mask_zero_ok.
Qed.

Lemma all_memory_region f : sbi_domain_memregion_init 0 ULONG_MAX f = mkReg 64 0 f.
Proof. reflexivity. Qed.

(** A region of [sbi_domain_memregion_init] below 2^63. *)
Lemma low_region addr size f :
  0 <= addr -> 8 <= size -> addr + size <= 2 ^ 63 ->
  let r := sbi_domain_memregion_init addr size f in
  flags r = f /\ 3 <= order r <= 63 /\ 0 <= base r <= addr /\
  addr + size <= base r + 2 ^ order r /\ base r < 2 ^ 64 /\ (2 ^ order r | base r).
Proof.
  intros Ha Hs Ht r.
  destruct (memregion_init_spec addr size f) as (H1 & H2 & H3 & H4 & H5 & H6 & _); [lia..|].
  fold r in H1, H2, H3, H4, H5, H6.
  assert (order r <= 63).
  { apply (H6 63 0); try lia. apply Z.divide_0_r. }
  assert (3 <= order r).
  { destruct (Z.leb_spec 3 (order r)); [done|].
    assert (2 ^ order r <= 2 ^ 2) by (apply Z.pow_le_mono_r; lia). lia. }
  split_and!; done || lia.
Qed.

Lemma su_denied r mode acc :
  Z.land (flags r) SU_ACCESS_MASK = 0 -> mode <> PRV_M -> access_rwx acc <> 0 ->
  region_allows r mode acc = false.
Proof.
  intros Hf Hm Ha. unfold region_allows, region_rwx.
  rewrite (proj2 (Z.eqb_neq mode PRV_M)), Hf by done. rewrite Z.shiftr_0_l, Z.land_0_l.
  rewrite (proj2 (Z.eqb_neq 0 (access_rwx acc))) by congruence. apply andb_false_r.
Qed.

Lemma su_allowed r mode acc :
  flags r = SU_RWX -> mode <> PRV_M -> Z.land acc SBI_DOMAIN_MMIO = 0 ->
  region_allows r mode acc = true.
Proof.
  intros Hf Hm Ha. unfold region_allows, region_rwx.
  rewrite (proj2 (Z.eqb_neq mode PRV_M)), Hf, Ha by done. cbn [Z.eqb negb].
  change (Z.shiftr (Z.land SU_RWX SU_ACCESS_MASK) SU_ACCESS_SHIFT) with 7.
  change (Z.land SU_RWX MEMREGION_MMIO) with 0. cbn [Z.eqb negb Bool.eqb andb].
  unfold access_rwx. repeat destruct (negb _); reflexivity.
Qed.

(** The regions of a root domain: text, data, everything. *)
Definition root_shape (sb : boot_scratch) (d : sbi_domain) (rt rd : sbi_domain_memregion) : Prop :=
  dom_regions d ≡ₚ [rt; rd; mkReg 64 0 SU_RWX] /\ dom_sane d /\
  flags rt = 5 /\ flags rd = 3 /\ order rt <= 63 /\ order rd <= 63 /\
  (forall x, fw_start sb <= x < fw_start sb + fw_rw_offset sb -> covers rt x) /\
  (forall x, covers rt x -> fw_start sb <= x < fw_start sb + fw_rw_offset sb) /\
  (forall x, fw_start sb + fw_rw_offset sb <= x < fw_start sb + fw_size sb -> covers rd x).

Lemma all_covers f x : 0 <= x < 2 ^ 64 -> covers (mkReg 64 0 f) x.
Proof. unfold covers. cbn. lia. Qed.

(** Access to the root domain, decided by region. *)
Lemma root_access sb d rt rd x mode acc :
  root_shape sb d rt rd -> 0 < fw_rw_offset sb < fw_size sb -> 0 <= x < 2 ^ 64 ->
  sbi_domain_check_addr (Some d) x mode acc
  = if bool_decide (covers rt x) then region_allows rt mode acc
    else if bool_decide (covers rd x) then region_allows rd mode acc
    else region_allows (mkReg 64 0 SU_RWX) mode acc.
Proof.
  intros (Hp & Hsane & Hft & Hfd & Hot & Hod & Hc1 & Hc2 & Hc3) Hsz Hx.
  assert (Hin : forall r, r ∈ dom_regions d <-> r = rt \/ r = rd \/ r = mkReg 64 0 SU_RWX).
  { intros r. rewrite Hp. rewrite !elem_of_cons, elem_of_nil. tauto. }
  destruct (check_addr_smallest d x mode acc Hsane)
    as [(r & Hr & Hcr & Hmin & ->)|[Hno _]].
  2:{ destruct (Hno (mkReg 64 0 SU_RWX)); [apply Hin; tauto|by apply all_covers]. }
  assert (Hne : rt <> rd) by (intros E; congruence).
  assert (Hok : reg_ok rt /\ reg_ok rd).
  { destruct Hsane as [Hok _]. rewrite Forall_forall in Hok. split; apply Hok, Hin; tauto. }
  case_bool_decide as Et.
  - apply Hin in Hr as [-> |[-> | ->]]; [done| |].
    + exfalso. specialize (Hmin rt ltac:(apply Hin; tauto) Et).
      pose proof (blocks_nested rd rt x (proj2 Hok) (proj1 Hok) Hcr Et Hmin) as Hn.
      specialize (Hc3 (fw_start sb + fw_rw_offset sb) ltac:(lia)).
      assert (covers rt (fw_start sb + fw_rw_offset sb)) as Hbad by (unfold covers in *; lia).
      apply Hc2 in Hbad. lia.
    + specialize (Hmin rt ltac:(apply Hin; tauto) Et). cbn in Hmin. lia.
  - apply Hin in Hr as [-> |[-> | ->]]; [done| |].
    + by rewrite bool_decide_eq_true_2.
    + case_bool_decide as Ed; [|done].
      specialize (Hmin rd ltac:(apply Hin; tauto) Ed). cbn in Hmin. lia.
Qed.

Lemma pow2_of_land x : 0 < x -> Z.land x (x - 1) = 0 -> exists k, 0 <= k /\ x = 2 ^ k.
Proof.
  intros Hx Hl. exists (Z.log2 x). split; [apply Z.log2_nonneg|].
  pose proof (Z.log2_spec x Hx) as [H1 H2].
  destruct (Z.eq_dec x (2 ^ Z.log2 x)) as [|Hne]; [done|exfalso].
  assert (Z.log2 (x - 1) = Z.log2 x) as E by (apply Z.log2_unique; [apply Z.log2_nonneg|lia]).
  assert (Z.testbit (Z.land x (x - 1)) (Z.log2 x) = true) as Hb.
  { rewrite Z.land_spec, Z.bit_log2 by done. rewrite <- E. rewrite Z.bit_log2; [done|].
    pose proof (Z.pow_pos_nonneg 2 (Z.log2 x) ltac:(lia) (Z.log2_nonneg x)). lia. }
  rewrite Hl, Z.bits_0 in Hb. done.
Qed.

(** The firmware's text region is the text exactly. *)
Lemma text_region start off f :
  0 <= start -> 8 <= off -> start + off <= 2 ^ 63 ->
  Z.land off (off - 1) = 0 -> Z.land start (off - 1) = 0 ->
  forall x, covers (sbi_domain_memregion_init start off f) x <-> start <= x < start + off.
Proof.
  intros Hs Ho Ht Hp Ha x. destruct (pow2_of_land off) as (k & Hk & ->); [lia|done|].
  assert (k <= 63) by (apply (Z.pow_le_mono_r_iff 2); lia).
  assert (Hd : (2 ^ k | start)).
  { apply Z.mod_divide; [lia|]. rewrite <- Z.land_ones, Z.ones_equiv by lia.
    by replace (Z.pred (2 ^ k)) with (2 ^ k - 1) by lia. }
  destruct (memregion_init_spec start (2 ^ k) f) as (_ & H2 & _ & H4 & H5 & H6 & _); [lia..|].
  set (r := sbi_domain_memregion_init start (2 ^ k) f) in *.
  assert (order r <= k) by (apply (H6 k start); lia || done).
  assert (2 ^ order r <= 2 ^ k) by (apply Z.pow_le_mono_r; lia).
  unfold covers. lia.
Qed.

Lemma root_su_denied sb d rt rd x mode acc :
  root_shape sb d rt rd -> 0 <= fw_start sb /\ fw_start sb + fw_size sb <= 2 ^ 63 ->
  0 < fw_rw_offset sb < fw_size sb ->
  fw_start sb <= x < fw_start sb + fw_size sb -> mode <> PRV_M -> access_rwx acc <> 0 ->
  sbi_domain_check_addr (Some d) x mode acc = false.
Proof.
  intros Hsh H0 Hoff Hx Hm Ha. rewrite (root_access sb d rt rd) by (done || lia).
  destruct Hsh as (_ & _ & Hft & Hfd & _ & _ & Hc1 & Hc2 & Hc3).
  destruct (Z.ltb_spec x (fw_start sb + fw_rw_offset sb)).
  - rewrite bool_decide_eq_true_2 by (apply Hc1; lia). apply su_denied; try done. by rewrite Hft.
  - rewrite bool_decide_eq_false_2 by (intros Hc%Hc2; lia).
    rewrite bool_decide_eq_true_2 by (apply Hc3; lia). apply su_denied; try done. by rewrite Hfd.
Qed.

(** What [sbi_domain_init] needs of the state it starts in. *)
Definition boot_ok (st : domain_state) (plat : sbi_platform) : Prop :=
  scratch_wf (scr st) /\ extra_ok (scr st) /\ domain_finalized st = false /\
  root_memregs_count st = 0 /\
  (forall i, 0 <= i <= last_hart st -> scratch_of st i <> 0).

(** The firmware image: text of at least eight bytes, then data, in the lower
    half of the address space. *)
Definition image_ok (sb : boot_scratch) : Prop :=
  0 <= fw_start sb /\ 8 <= fw_rw_offset sb /\ fw_rw_offset sb + 8 <= fw_size sb /\
  fw_start sb + fw_size sb <= 2 ^ 63.

Lemma root_memregs_spec sb :
  image_ok sb -> exists tl, root_memregs sb 0 =
    [sbi_domain_memregion_init (fw_start sb) (fw_rw_offset sb) 5;
     sbi_domain_memregion_init (fw_start sb + fw_rw_offset sb) (fw_size sb - fw_rw_offset sb) 3;
     mkReg 64 0 SU_RWX] ++ mkReg 0 0 0 :: tl /\ length tl = 29%nat.
Proof.
  intros (H1 & H2 & H3 & H4). unfold root_memregs. rewrite !(wrap_small 64) by lia.
  rewrite all_memory_region. exists (replicate 29 (mkReg 0 0 0)). split; reflexivity.
Qed.

#[local] Opaque sbi_domain_memregion_init root_memregs.

(** A sanitized root table has the shape of [root_shape]. *)
Lemma root_sanitized sb mask cold sc d0 :
  image_ok sb -> mask_ok mask ->
  Z.land (fw_rw_offset sb) (fw_rw_offset sb - 1) = 0 ->
  Z.land (fw_start sb) (fw_rw_offset sb - 1) = 0 ->
  sanitize_domain sc (root_domain sb 0 mask cold) = Some (0, d0) ->
  exists rt rd, root_shape sb d0 rt rd.
Proof.
  intros Himg Hm Hp2 Hal Hsan. pose proof Himg as (H1 & H2 & H3 & H4).
  destruct (root_memregs_spec sb Himg) as (tl & Htab & Htl).
  destruct (sanitize_spec sc (root_domain sb 0 mask cold) mask (root_memregs sb 0))
    as (rc & d' & Hs & _ & Hperm & Hiff & Hsorted); [done|done|done| |].
  { rewrite Htab, length_app. cbn. lia. }
  rewrite Hsan in Hs. injection Hs as <- <-.
  set (rt := sbi_domain_memregion_init (fw_start sb) (fw_rw_offset sb) 5) in *.
  set (rd := sbi_domain_memregion_init (fw_start sb + fw_rw_offset sb)
               (fw_size sb - fw_rw_offset sb) 3) in *.
  destruct (low_region (fw_start sb) (fw_rw_offset sb) 5) as (F1 & O1 & B1 & C1 & T1 & _); [lia..|].
  destruct (low_region (fw_start sb + fw_rw_offset sb) (fw_size sb - fw_rw_offset sb) 3)
    as (F2 & O2 & B2 & C2 & T2 & _); [lia..|]. fold rt in F1, O1, B1, C1, T1.
  fold rd in F2, O2, B2, C2, T2.
  pose proof (text_region (fw_start sb) (fw_rw_offset sb) 5) as Htext. fold rt in Htext.
  clearbody rt rd. exists rt, rd.
  assert (Hlive : dom_regions d0 ≡ₚ [rt; rd; mkReg 64 0 SU_RWX]).
  { destruct Hperm as (b & b' & Hb & -> & _ & Hp). injection Hb as <-.
    change (memregions b' ≡ₚ [rt; rd; mkReg 64 0 SU_RWX]). rewrite Hp, Htab. rewrite memregions_app; [done| |].
    - repeat apply Forall_cons_2; try apply Forall_nil_2; cbn; lia.
    - right. eexists _, _. split; [done|]. done. }
  split; [done|]. split.
  { split; [|by apply Hsorted]. destruct (proj1 Hiff eq_refl) as (_ & Hv & _).
    rewrite Hlive in Hv |- *. apply Forall_cons in Hv as [V1 Hv]. apply Forall_cons in Hv as [V2 Hv].
    apply Forall_cons in Hv as [V3 _].
    repeat apply Forall_cons_2; try apply Forall_nil_2; apply valid_reg_ok; try assumption;
      cbn [base]; lia. }
  split; [done|]. split; [done|]. split; [lia|]. split; [lia|].
  split; [|split].
  - intros x Hx. apply Htext; lia || done.
  - intros x Hx. apply Htext in Hx; lia || done.
  - intros x Hx. unfold covers. lia.
Qed.

Lemma init_start_inv st plat sc off d :
  boot_ok st plat -> last_hartindex_having_scratch sc = last_hartindex_having_scratch (scr st) ->
  hartindex_to_scratch_table sc = hartindex_to_scratch_table (scr st) -> off <> 0 ->
  assign_inv (mkDS (<[root := d]> (domains st)) [] (domain_count st) (domain_finalized st)
                (u32 3) off ∅ sc).
Proof.
  intros ((Hw & _) & _ & _ & _ & Hs) Hl Ht Ho. unfold assign_inv, harts_ok, last_hart in *. cbn.
  rewrite Hl. unfold SBI_HARTMASK_MAX_BITS in *.
  split_and!; [lia|lia|done| |apply not_elem_of_nil| |].
  - intros i Hi. unfold scratch_of, sbi_hartindex_to_scratch. cbn. rewrite Hl, Ht. apply Hs. lia.
  - intros p Hp. by apply elem_of_nil in Hp.
  - intros i Hi. left. unfold sbi_hartindex_to_domain. cbn. by destruct (_ || _).
Qed.

Lemma domain_init_spec setup env plat sb cold st :
  boot_ok st plat -> image_ok sb ->
  exists rc st', sbi_domain_init setup env plat sb cold st = Some (rc, st') /\
    (rc = 0 -> assign_inv st' /\ exists d rt rd,
       domains st' !! root = Some d /\ root_shape sb d rt rd).
Proof.
  intros Hb Himg. pose proof Himg as (H1 & H2 & H3 & H4).
  pose proof Hb as (Hwf & Hex & Hfin & Hcnt & _). unfold sbi_domain_init.
  rewrite (wrap_small 64 (fw_rw_offset sb - 1)) by lia. cbn [scr set_list].
  destruct (Z.eqb_spec (fw_rw_offset sb) 0); [lia|].
  destruct (Z.eqb_spec (Z.land (fw_rw_offset sb) (fw_rw_offset sb - 1)) 0) as [Hp2|]; cbn [orb negb].
  2:{ eexists _, _. split; [done|]. done. }
  destruct (Z.eqb_spec (Z.land (fw_start sb) (fw_rw_offset sb - 1)) 0) as [Hal|]; cbn [negb].
  2:{ eexists _, _. split; [done|]. done. }
  destruct (scratch_alloc_spec (scr st) (fun _ => 0) 8 Hwf Hex) as
    (off & sc & m & -> & Hwf' & _ & Htab & Hlast & _); [unfold SBI_SCRATCH_SIZE; lia|].
  cbn [mbind option_bind].
  destruct (Z.eqb_spec off 0) as [|Hoff]; [eexists _, _; split; done|].
  destruct (Z.eqb_spec (context_init_rc env) 0) as [|Hctx]; cbn [negb];
    [|eexists _, _; split; done].
  destruct (regs_allocated env); cbn [negb]; [|eexists _, _; split; done].
  destruct (hmask_allocated env); cbn [negb]; [|eexists _, _; split; done].
  cbn [domains domain_list domain_count domain_finalized root_memregs_count
       domain_hart_ptr_offset hart_domain scr set_list set_memregs_count]. rewrite Hcnt.
  set (dr := root_domain sb 0 (root_hmask (hart_count plat)) cold).
  set (st1 := mkDS _ _ _ _ _ _ _ _).
  destruct (register_spec setup root (root_hmask (hart_count plat)) cold st1 dr
              (root_hmask (hart_count plat)) (root_memregs sb 0))
    as (rc & st' & Hr & Hgood & _).
  - by apply (init_start_inv st plat).
  - subst st1. cbn [domains]. apply lookup_insert_eq.
  - done.
  - apply not_elem_of_nil.
  - done.
  - reflexivity.
  - apply root_hmask_ok.
  - reflexivity.
  - destruct (root_memregs_spec sb Himg) as (tl & -> & Htl). rewrite length_app. cbn. lia.
  - apply mask_zero_ok.
  - apply root_hmask_ok.
  - exists rc, st'. split; [done|]. intros Hrc.
    destruct (Hgood Hrc) as (Hinv & _ & _ & d0 & d' & Hsan & Hd' & Hst). split; [done|].
    destruct (root_sanitized sb _ cold _ d0 Himg (root_hmask_ok _) Hp2 Hal Hsan) as (rt & rd & Hshape).
    exists d', rt, rd. split; [done|]. unfold root_shape, dom_sane, dom_regions in *.
    apply (f_equal regions) in Hst. cbn in Hst. by rewrite Hst.
Qed.

(** C22: initialising the domains always returns, and when it succeeds the root
    domain isolates the firmware: no S- or U-mode access to a byte of the
    firmware image passes the address check, while S/U-mode may read, write and
    execute any byte outside the two firmware blocks; M-mode may read and
    execute but not write the text, and read and write but not execute the
    data.  Every hart is then owned by at most one domain. *)
Theorem root_domain_protects_firmware setup env plat sb cold st :
  boot_ok st plat -> image_ok sb ->
  exists rc st', sbi_domain_init setup env plat sb cold st = Some (rc, st') /\
    (rc = 0 -> assign_inv st' /\ exists d, domains st' !! root = Some d /\
       (forall x mode acc, fw_start sb <= x < fw_start sb + fw_size sb -> mode <> PRV_M ->
          access_rwx acc <> 0 -> sbi_domain_check_addr (Some d) x mode acc = false) /\
       (forall x, fw_start sb <= x < fw_start sb + fw_rw_offset sb ->
          sbi_domain_check_addr (Some d) x PRV_M SBI_DOMAIN_READ = true /\
          sbi_domain_check_addr (Some d) x PRV_M SBI_DOMAIN_EXECUTE = true /\
          sbi_domain_check_addr (Some d) x PRV_M SBI_DOMAIN_WRITE = false) /\
       (forall x, fw_start sb + fw_rw_offset sb <= x < fw_start sb + fw_size sb ->
          sbi_domain_check_addr (Some d) x PRV_M SBI_DOMAIN_READ = true /\
          sbi_domain_check_addr (Some d) x PRV_M SBI_DOMAIN_WRITE = true /\
          sbi_domain_check_addr (Some d) x PRV_M SBI_DOMAIN_EXECUTE = false) /\
       (forall x mode acc, 0 <= x < 2 ^ 64 -> mode <> PRV_M ->
          Z.land acc SBI_DOMAIN_MMIO = 0 ->
          (forall r, r ∈ dom_regions d -> order r < 64 -> ~ covers r x) ->
          sbi_domain_check_addr (Some d) x mode acc = true)).
Proof.
  intros Hb Himg. destruct (domain_init_spec setup env plat sb cold st Hb Himg)
    as (rc & st' & Hr & Hgood).
  exists rc, st'. split; [done|]. intros Hrc. destruct (Hgood Hrc) as (Hinv & d & rt & rd & Hd & Hsh).
  split; [done|]. exists d. split; [done|]. destruct Himg as (H1 & H2 & H3 & H4).
  pose proof Hsh as (Hp & _ & Hft & Hfd & Hot & Hod & Hc1 & Hc2 & Hc3).
  pose proof (fun x mode acc => root_access sb d rt rd x mode acc Hsh ltac:(lia)) as Hacc.
  assert (Hin : rt ∈ dom_regions d /\ rd ∈ dom_regions d).
  { rewrite Hp. split; rewrite !elem_of_cons; tauto. }
  split_and!.
  - intros x mode acc Hx Hm Ha. by apply (root_su_denied sb d rt rd); [|lia|lia|..].
  - intros x Hx. rewrite !Hacc by lia. rewrite bool_decide_eq_true_2 by (apply Hc1; lia).
    unfold region_allows, region_rwx. rewrite Hft. done.
  - intros x Hx. rewrite !Hacc by lia. rewrite bool_decide_eq_false_2 by (intros Hc%Hc2; lia).
    rewrite bool_decide_eq_true_2 by (apply Hc3; lia).
    unfold region_allows, region_rwx. rewrite Hfd. done.
  - intros x mode acc Hx Hm Ha Hout. rewrite Hacc by lia.
    rewrite !bool_decide_eq_false_2 by (apply Hout; [apply Hin|lia]). by apply su_allowed.
Qed.

(** A two-hart machine with a firmware image at 2 GiB. *)
Definition boot_demo_state : domain_state :=
  mkDS ∅ [] 0 false 0 0 ∅
    (mkScratch 1 ([0; 1] ++ replicate 127 0) ([0x80050000; 0x80051000] ++ replicate 127 0) 120).

Definition boot_demo_scratch : boot_scratch :=
  mkBoot 0x80000000 0x50000 0x20000 0 0x80200000 PRV_S.

Lemma root_domain_protects_firmware_witness :
  exists st' d, sbi_domain_init (fun _ _ => 0) (mkEnv 0 true true) (mkPlat 2 None) boot_demo_scratch
                  0 boot_demo_state = Some (0, st') /\ domains st' !! root = Some d /\
    sbi_domain_check_addr (Some d) 0x80040010 PRV_S SBI_DOMAIN_WRITE = false.
Proof.
  destruct (root_domain_protects_firmware (fun _ _ => 0) (mkEnv 0 true true) (mkPlat 2 None)
              boot_demo_scratch 0 boot_demo_state) as (rc & st' & Hr & Hgood).
  - split; [|split; [|split; [|split]]].
    + unfold scratch_wf, SBI_HARTMASK_MAX_BITS; cbn; lia.
    + split; [cbn; unfold SBI_SCRATCH_EXTRA_SPACE_OFFSET, SBI_SCRATCH_SIZE; lia|by exists 15].
    + reflexivity.
    + reflexivity.
    + intros i Hi. unfold last_hart in Hi; cbn in Hi.
      assert (i = 0 \/ i = 1) as [-> | ->] by lia; vm_compute; discriminate.
  - unfold image_ok; cbn; lia.
  - assert (rc = 0) as ->.
    { assert (H : fst <$> sbi_domain_init (fun _ _ => 0) (mkEnv 0 true true) (mkPlat 2 None)
                    boot_demo_scratch 0 boot_demo_state = Some 0) by (vm_compute; reflexivity).
      rewrite Hr in H. cbn in H. congruence. }
    destruct (Hgood eq_refl) as (_ & d & Hd & Hsu & _).
    exists st', d. split; [exact Hr|]. split; [exact Hd|].
    apply Hsu; [cbn; lia|discriminate|vm_compute; discriminate].
Defined.
