(* ===== verification/SbiRootRegions.v ===== *)
(** * The root domain's region table under additions ([sbi_domain.c])

    [root_add_memregion] appends a region, sorts and merges until nothing
    changes.  The theorems of this file show that the table stays inside its
    array, that merging ends, and that the addresses covered with given flags
    are those covered before plus the new region. *)

From S2P Require Import Prelude SbiBitops SbiScratch SbiHartmask SbiMemregion SbiDomain.

(** The array holds its terminator. *)
Definition terminated (l : list sbi_domain_memregion) : Prop :=
  exists r, r ∈ l /\ order r = 0.

Lemma terminated_cons r l : order r <> 0 -> terminated (r :: l) -> terminated l.
Proof. intros Hr (t & [->|Ht]%elem_of_cons & Ho); [done|by exists t]. Qed.

Lemma terminated_live l :
  terminated l -> exists t tl, l = memregions l ++ t :: tl /\ order t = 0.
Proof.
  intros (r & Hr & Ho). destruct (memregions_split l) as (tl & E & [->|(t & tl' & -> & Ht)]).
  - exfalso. rewrite app_nil_r in E. rewrite E in Hr.
    pose proof (memregions_nonzero l) as Hn. rewrite Forall_forall in Hn. by apply (Hn r).
  - by exists t, tl'.
Qed.

(** [x] lies in a region of [l] with flags [f]. *)
Definition covered (l : list sbi_domain_memregion) (f x : Z) : Prop :=
  exists r, r ∈ l /\ flags r = f /\ covers r x.

#[export] Instance covered_proper : Proper ((≡ₚ) ==> eq ==> eq ==> iff) covered.
Proof.
  intros l l' Hl f ? <- x ? <-. unfold covered.
  split; intros (r & Hr & H); exists r; [rewrite <- Hl|rewrite Hl]; done.
Qed.

Lemma covered_cons r l f x : covered (r :: l) f x <-> (flags r = f /\ covers r x) \/ covered l f x.
Proof.
  unfold covered. split.
  - intros (s & [->|Hs]%elem_of_cons & H); [by left|right; eauto].
  - intros [H|(s & Hs & H)]; [exists r|exists s]; rewrite elem_of_cons; auto.
Qed.

(** ** Shifting and merging *)

Lemma shift_down_spec r l :
  order r <> 0 -> terminated l ->
  length (shift_down (r :: l)) = S (length l) /\ memregions (shift_down (r :: l)) = memregions l /\
  terminated (shift_down (r :: l)).
Proof.
  revert r. induction l as [|s l IH]; intros r Hr Ht; [by destruct Ht as (t & []%elem_of_nil & _)|].
  assert (Hsd : shift_down (r :: s :: l) = s :: shift_down (s :: l)).
  { cbn [shift_down]. by rewrite (proj2 (Z.eqb_neq _ _) Hr). }
  rewrite Hsd. destruct (Z.eq_dec (order s) 0) as [E|E].
  - assert (shift_down (s :: l) = s :: l) as -> by (destruct l; cbn; by rewrite ?E).
    cbn [memregions length]. rewrite E. split_and!; [done|done|].
    exists s. split; [left|done].
  - destruct (IH s E (terminated_cons _ _ E Ht)) as (L & M & T). cbn [length memregions].
    rewrite L, M, (proj2 (Z.eqb_neq _ _) E). split_and!; [done|done|].
    destruct T as (t & Ht' & Ho). exists t. split; [by right|done].
Qed.

(** The union of two mergeable neighbours is the merged block. *)
Lemma mergeable_spec r s :
  reg_ok r -> reg_ok s -> rle r s -> mergeable r s = true ->
  let r' := mkReg (order r + 1) (base r) (flags r) in
  reg_ok r' /\ flags s = flags r /\ (forall x, covers r' x <-> covers r x \/ covers s x).
Proof.
  intros (Ho & Hb & Ht & Hd) (Ho' & Hb' & Ht' & Hd') Hle Hm.
  unfold mergeable in Hm. prop_bool.
  match goal with H : order r = order s |- _ => rename H into Eo end.
  match goal with H : flags r = flags s |- _ => rename H into Ef end.
  match goal with H : u64 _ = base s |- _ => rename H into Eb end.
  match goal with H : Z.land _ _ = 0 |- _ => rename H into El end.
  apply rle_spec in Hle. assert (order r < 64).
  { destruct (Z.ltb_spec (order r) 64); [done|]. assert (order r = 64) as E64 by lia.
    rewrite <- Eo, E64 in Ht'. rewrite E64 in Ht.
    assert (base r = 0) as E by lia. assert (base s = 0) as Es by lia.
    rewrite E, E64, Es in Eb. done. }
  rewrite BIT_spec in Eb by lia. pose proof (pow2_pos (order r) ltac:(lia)).
  pose proof (pow2_lt (order r) 64 ltac:(lia) ltac:(lia)).
  assert (Eb' : base s = base r + 2 ^ order r).
  { destruct (Z.ltb_spec (base r + 2 ^ order r) (2 ^ 64)).
    - by rewrite wrap_small in Eb by lia.
    - assert (base r + 2 ^ order r = 2 ^ 64) as E by lia. rewrite E in Eb.
      change (u64 (2 ^ 64)) with 0 in Eb. lia. }
  assert (E2 : 2 ^ (order r + 1) = 2 ^ order r + 2 ^ order r).
  { rewrite Z.pow_add_r by lia. lia. }
  rewrite <- Eo in *.
  assert (Hdiv : (2 ^ (order r + 1) | base r)).
  { destruct (Z.eq_dec (order r) 63) as [E63|].
    - assert (base r = 0) as -> by (rewrite E63 in *; lia). apply Z.divide_0_r.
    - rewrite BIT_spec in El by lia.
      apply Z.mod_divide; [lia|]. rewrite <- Z.land_ones, Z.ones_equiv by lia.
      by replace (Z.pred (2 ^ (order r + 1))) with (2 ^ (order r + 1) - 1) by lia. }
  cbn. split.
  - unfold reg_ok. cbn. split_and!; lia || done.
  - split; [done|]. intros x. unfold covers. cbn. rewrite E2, Eb', <- Eo. lia.
Qed.

(** One walk: the table stays terminated and valid, covers the same addresses
    with the same flags, and gets shorter exactly when something merged. *)
Lemma merge_pass_spec fuel l cnt :
  terminated l -> Forall reg_ok (memregions l) -> StronglySorted rle (memregions l) ->
  (length l <= fuel)%nat -> Z.of_nat (length (memregions l)) <= cnt < 2 ^ 32 ->
  exists l' merged cnt', merge_pass fuel l cnt = (l', merged, cnt') /\
    terminated l' /\ length l' = length l /\ Forall reg_ok (memregions l') /\
    (forall f x, covered (memregions l') f x <-> covered (memregions l) f x) /\
    cnt' - Z.of_nat (length (memregions l')) = cnt - Z.of_nat (length (memregions l)) /\
    (merged = false -> l' = l) /\
    (merged = true -> (length (memregions l') < length (memregions l))%nat).
Proof.
  revert l cnt. induction fuel as [|fuel IH]; intros l cnt Ht Hok Hs Hf Hc.
  { destruct l; [|cbn in Hf; lia]. by destruct Ht as (t & []%elem_of_nil & _). }
  assert (Hstop : exists l' merged cnt', (l, false, cnt) = (l', merged, cnt') /\
    terminated l' /\ length l' = length l /\ Forall reg_ok (memregions l') /\
    (forall f x, covered (memregions l') f x <-> covered (memregions l) f x) /\
    cnt' - Z.of_nat (length (memregions l')) = cnt - Z.of_nat (length (memregions l)) /\
    (merged = false -> l' = l) /\
    (merged = true -> (length (memregions l') < length (memregions l))%nat)).
  { exists l, false, cnt. split_and!; done. }
  destruct l as [|r [|s l]]; cbn [merge_pass]; [exact Hstop..|].
  destruct (Z.eqb_spec (order r) 0) as [E|E]; [exact Hstop|]. clear Hstop.
  pose proof (terminated_cons _ _ E Ht) as Ht1.
  assert (Hlive : memregions (r :: s :: l) = r :: memregions (s :: l)).
  { cbn [memregions]. by rewrite (proj2 (Z.eqb_neq _ _) E). }
  rewrite Hlive in *. apply Forall_cons in Hok as [Hr Hok].
  apply StronglySorted_inv in Hs as [Hs Hle]. cbn [length] in Hf, Hc.
  destruct (negb (order s =? 0) && mergeable r s) eqn:Em.
  - prop_bool. match goal with H : order s <> 0 |- _ => rename H into Es end.
    match goal with H : mergeable r s = true |- _ => rename H into Em' end.
    assert (Hlive2 : memregions (s :: l) = s :: memregions l).
    { cbn [memregions]. by rewrite (proj2 (Z.eqb_neq _ _) Es). }
    rewrite Hlive2 in *. apply Forall_cons in Hok as [Hsok Hok].
    apply StronglySorted_inv in Hs as [Hs _]. apply Forall_cons in Hle as [Hrs _].
    destruct (mergeable_spec r s Hr Hsok Hrs Em') as (Hr' & Hfl & Hcov).
    destruct (shift_down_spec s l Es (terminated_cons _ _ Es Ht1)) as (SL & SM & ST).
    cbn [length] in Hc. rewrite (wrap_small 32) by lia.
    destruct (IH (shift_down (s :: l)) (cnt - 1)) as (l' & mg & cnt' & -> & T & L & O & C & N & M1 & M);
      rewrite ?SM; try done; try lia.
    rewrite SM in C, N, M. rewrite SL in L. cbn [length] in L.
    eexists _, true, cnt'. split; [done|].
    assert (Hlive' : memregions (mkReg (order r + 1) (base r) (flags r) :: l')
                     = mkReg (order r + 1) (base r) (flags r) :: memregions l').
    { cbn [memregions order]. destruct Hr as (? & _).
      by rewrite (proj2 (Z.eqb_neq (order r + 1) 0)) by lia. }
    assert (Hlen : (length (memregions l') <= length (memregions l))%nat).
    { destruct mg; [specialize (M eq_refl); lia|]. by rewrite (M1 eq_refl), SM. }
    rewrite Hlive'. split_and!.
    + destruct T as (t & Htt & Hto). exists t. split; [by right|done].
    + cbn [length]. lia.
    + by apply Forall_cons.
    + intros f x. rewrite !covered_cons, C, Hcov. cbn [flags]. rewrite Hfl. tauto.
    + cbn [length]. lia.
    + done.
    + intros _. cbn [length]. lia.
  - destruct (IH (s :: l) cnt) as (l' & mg & cnt' & -> & T & L & O & C & N & M1 & M2);
      try done; cbn [length] in *; try lia.
    exists (r :: l'), mg, cnt'. split; [done|].
    assert (Hlive' : memregions (r :: l') = r :: memregions l').
    { cbn [memregions]. by rewrite (proj2 (Z.eqb_neq _ _) E). }
    rewrite Hlive'. cbn [length]. split_and!; try lia.
    + destruct T as (t & Htt & Hto). exists t. split; [by right|done].
    + by apply Forall_cons.
    + intros f x. by rewrite !covered_cons, C.
    + intros Hm. by rewrite (M1 Hm).
    + intros Hm. specialize (M2 Hm). lia.
Qed.

(** ** The whole loop *)

Definition bases_typed (l : list sbi_domain_memregion) : Prop :=
  Forall (fun r => 0 <= base r < 2 ^ 64) l.

Lemma reg_ok_base r : reg_ok r -> 0 <= base r < 2 ^ 64.
Proof. intros (Ho & Hb & Ht & _). pose proof (pow2_pos (order r)). lia. Qed.

Lemma permuted_terminated a a' :
  terminated a -> length a' = length a -> memregions a' ≡ₚ memregions a -> terminated a'.
Proof.
  intros Ht HL Hp. destruct (terminated_live a Ht) as (t & tl & E & _).
  destruct (memregions_split a') as (tl' & E' & [->|(r & tl'' & -> & Hr)]).
  - exfalso. apply Permutation_length in Hp. rewrite E, E', !length_app in HL. cbn in HL.
    rewrite app_nil_r in E'. lia.
  - exists r. rewrite E'. split; [|done]. apply elem_of_app. right. left.
Qed.

(** What the loop needs of the root domain struct, and keeps. *)
Definition table_ok (d : sbi_domain) (a : list sbi_domain_memregion) (cnt : Z) : Prop :=
  regions d = Some a /\ terminated a /\ Z.of_nat (length a) < 2 ^ 32 /\
  bases_typed (memregions a) /\ cnt = Z.of_nat (length (memregions a)).

Lemma live_shorter a : (length (memregions a) <= length a)%nat.
Proof. destruct (memregions_split a) as (tl & E & _). rewrite E at 2. rewrite length_app. lia. Qed.

Lemma merge_loop_spec fuel sc d mask a cnt :
  possible_harts d = Some mask -> mask_ok mask -> table_ok d a cnt ->
  (length (memregions a) < fuel)%nat ->
  exists rc d' a' cnt', merge_loop fuel sc d cnt = Some (rc, d', cnt') /\
    (rc = 0 \/ rc = SBI_EINVAL) /\ d' = set_regions d a' /\ length a' = length a /\
    table_ok d' a' cnt' /\ cnt' <= cnt /\
    (forall f x, covered (memregions a') f x <-> covered (memregions a) f x) /\
    (rc = 0 -> dom_sane d').
Proof.
  intros Hm Hmok. revert d a cnt Hm.
  induction fuel as [|fuel IH]; intros d a cnt Hm (Ha & Ht & Hlen & Hb & Hc) Hf; [lia|].
  cbn [merge_loop].
  destruct (sanitize_spec sc d mask a Hm Hmok Ha Hlen) as (rc & d1 & -> & Hrc & Hp & Hiff & Hsort).
  cbn [mbind option_bind].
  destruct Hp as (a0 & a1 & Ha0 & -> & HL1 & Hp1). rewrite Ha in Ha0. injection Ha0 as <-.
  pose proof (permuted_terminated _ _ Ht HL1 Hp1) as Ht1.
  pose proof (Permutation_length Hp1) as Hlp.
  assert (Hb1 : bases_typed (memregions a1)) by (unfold bases_typed; by rewrite Hp1).
  assert (Htab1 : table_ok (set_regions d a1) a1 cnt).
  { split_and!; try done; lia. }
  destruct (Z.eqb_spec rc 0) as [->|Hrc0]; cbn [negb].
  2:{ exists rc, (set_regions d a1), a1, cnt. split_and!; try done; try lia.
      intros f x. by rewrite Hp1. }
  destruct (proj1 Hiff eq_refl) as (_ & Hv & _). specialize (Hsort eq_refl).
  change (dom_regions (set_regions d a1)) with (memregions a1) in Hv, Hsort.
  assert (Hok1 : Forall reg_ok (memregions a1)).
  { unfold bases_typed in Hb1. rewrite Forall_forall in Hb1, Hv |- *. intros r Hr.
    apply valid_reg_ok; auto. }
  change (default [] (regions (set_regions d a1))) with a1.
  pose proof (live_shorter a1).
  destruct (merge_pass_spec (length a1) a1 cnt Ht1 Hok1 Hsort) as
    (a2 & merged & cnt2 & -> & Ht2 & HL2 & Hok2 & Hcov2 & Hcnt2 & Hno & Hyes); [lia|lia|].
  assert (Htab2 : table_ok (set_regions (set_regions d a1) a2) a2 cnt2).
  { split_and!; try done; [lia| |lia]. eapply Forall_impl; [exact Hok2|]. apply reg_ok_base. }
  destruct merged.
  - specialize (Hyes eq_refl).
    destruct (IH (set_regions (set_regions d a1) a2) a2 cnt2 Hm Htab2) as
      (rc & d' & a' & cnt' & -> & Hrc' & -> & HL' & Htab' & Hle' & Hcov' & Hsane'); [lia|].
    eexists rc, _, a', cnt'. split; [done|]. split_and!; try done; try lia.
    intros f x. by rewrite Hcov', Hcov2, Hp1.
  - rewrite (Hno eq_refl) in *. eexists 0, _, a1, cnt2. split; [done|].
    split_and!; try done; try lia; try (by left).
    intros f x. by rewrite Hp1.
Qed.

(** ** Appending *)

Lemma set_reg_app l x tl r : set_reg (l ++ x :: tl) (Z.of_nat (length l)) r = l ++ r :: tl.
Proof. unfold set_reg. rewrite Nat2Z.id, insert_app_r_alt, Nat.sub_diag by lia. done. Qed.

(** The root domain's table as the C code keeps it: an array of 33 entries,
    with the number of live ones in [root_memregs_count]. *)
Definition root_ok (st : domain_state) (d : sbi_domain) (a : list sbi_domain_memregion)
    (mask : sbi_hartmask) : Prop :=
  domains st !! root = Some d /\ possible_harts d = Some mask /\ mask_ok mask /\
  length a = 33%nat /\ table_ok d a (root_memregs_count st).

Lemma append_table d a n reg :
  table_ok d a n -> length a = 33%nat -> n < 32 -> order reg <> 0 -> 0 <= base reg < 2 ^ 64 ->
  let a1 := set_reg a n reg in
  let a2 := set_reg a1 (n + 1) (mkReg 0 (base (reg_at a1 (n + 1))) (flags (reg_at a1 (n + 1)))) in
  table_ok (set_regions d a2) a2 (n + 1) /\ length a2 = 33%nat /\
  memregions a2 = memregions a ++ [reg].
Proof.
  intros (Ha & Ht & Hlen & Hb & ->) HL Hn Ho Hbr a1 a2.
  destruct (terminated_live a Ht) as (t & tl & E & _).
  set (l := memregions a) in *.
  assert (E1 : a1 = l ++ reg :: tl) by (subst a1; rewrite E; apply set_reg_app).
  destruct tl as [|u tl]; [rewrite E, length_app in HL; cbn in HL; lia|].
  assert (E2 : exists z, a2 = (l ++ [reg]) ++ z :: tl /\ order z = 0).
  { subst a2. eexists. rewrite E1.
    replace (l ++ reg :: u :: tl) with ((l ++ [reg]) ++ u :: tl) by (by rewrite <- app_assoc).
    replace (Z.of_nat (length l) + 1) with (Z.of_nat (length (l ++ [reg])))
      by (rewrite length_app; cbn; lia).
    rewrite set_reg_app. done. }
  destruct E2 as (z & E2 & Hz).
  assert (Hlive : memregions a2 = l ++ [reg]).
  { rewrite E2. apply memregions_app; [|right; eauto].
    apply Forall_app. split; [apply memregions_nonzero|]. by apply Forall_singleton. }
  assert (HL2 : length a2 = 33%nat) by (subst a2 a1; by rewrite !set_reg_length).
  split; [|done]. split; [done|]. split.
  { exists z. split; [|done]. rewrite E2. apply elem_of_app. right. left. }
  split; [rewrite HL2; lia|]. rewrite Hlive. split.
  - apply Forall_app. split; [done|]. by apply Forall_singleton.
  - rewrite length_app. cbn. lia.
Qed.

Lemma compatible_covers reg r :
  reg_ok reg -> reg_ok r -> is_region_compatible reg r = true ->
  flags reg = flags r /\ (forall x, covers reg x -> covers r x).
Proof.
  intros Hreg Hr Hc. unfold is_region_compatible in Hc. prop_bool. split; [done|].
  destruct (Z.ltb_spec (order r) 64).
  2:{ assert (order r = 64 /\ base r = 0) as [Eo Eb] by (destruct Hr as (?&?&?&_); 
        assert (order r = 64) as E by lia; rewrite E in *; lia).
      rewrite (subset_of_all_false reg r Eo Eb) in *; [done|]. apply Hreg. }
  destruct (Z.ltb_spec (order reg) 64).
  - match goal with H : is_region_subset _ _ = true |- _ =>
      apply (subset_spec reg r Hreg Hr) in H; [|lia..] end.
    intros x. unfold covers. lia.
  - exfalso. destruct Hreg as (?&?&?&_), Hr as (?&?&?&_).
    assert (order reg = 64) as E by lia. rewrite E in *. assert (base reg = 0) as E0 by lia.
    match goal with H : is_region_subset _ _ = true |- _ => unfold is_region_subset in H;
      rewrite E, E0 in H; change (u64 (0 + (BIT 64 - 1))) with 0 in H end.
    prop_bool. lia.
Qed.

Lemma root_add_spec reg st d a mask :
  root_ok st d a mask -> domain_finalized st = false -> reg_ok reg -> Forall reg_ok (memregions a) ->
  exists rc st' d' a', root_add_memregion reg st = Some (rc, st') /\ root_ok st' d' a' mask /\
    domain_finalized st' = false /\
    (ROOT_REGION_MAX <= root_memregs_count st -> rc = SBI_EINVAL /\ st' = st) /\
    (rc = 0 -> Forall reg_ok (memregions a') /\
       forall f x, covered (memregions a') f x <->
                   covered (memregions a) f x \/ (flags reg = f /\ covers reg x)).
Proof.
  intros Hroot Hfin Hreg Hlive. pose proof Hroot as (Hd & Hp & Hm & HL & Htab).
  unfold root_add_memregion. rewrite Hd, (proj1 Htab), Hfin. cbn [orb]. unfold ROOT_REGION_MAX.
  destruct (Z.leb_spec 32 (root_memregs_count st)) as [Hfull|Hroom].
  { exists SBI_EINVAL, st, d, a. done. }
  destruct (existsb (is_region_compatible reg) (memregions a)) eqn:Eex.
  { exists 0, st, d, a. split; [done|]. split; [done|]. split; [done|]. split; [lia|].
    intros _. split; [done|]. intros f x. split; [by left|]. intros [|[Hf Hc]]; [done|].
    apply existsb_exists in Eex as (r & Hr & Hcomp). apply list_elem_of_In in Hr.
    rewrite Forall_forall in Hlive.
    destruct (compatible_covers reg r Hreg (Hlive r Hr) Hcomp) as [Hfl Hsub].
    exists r. split; [done|]. split; [congruence|auto]. }
  destruct (append_table d a (root_memregs_count st) reg Htab HL Hroom) as (Htab2 & HL2 & Hlive2).
  { destruct Hreg as (? & _). lia. } { by apply reg_ok_base. }
  cbv zeta in Htab2, HL2, Hlive2.
  set (a2 := set_reg (set_reg a (root_memregs_count st) reg) _ _) in *.
  destruct (merge_loop_spec (2 + length a2) (scr st) (set_regions d a2) mask a2
              (root_memregs_count st + 1) Hp Hm Htab2)
    as (rc & d' & a' & cnt' & -> & Hrc & -> & HL' & Htab' & Hle & Hcov & Hsane).
  { pose proof (live_shorter a2). lia. }
  cbn [mbind option_bind].
  eexists rc, _, (set_regions (set_regions d a2) a'), a'. split; [done|]. split.
  { split_and!; try done; [cbn; rewrite lookup_alter_eq, Hd; done|lia|cbn; apply Htab'..]. }
  split; [done|]. split; [lia|]. intros Hz. destruct (Hsane Hz) as [Hok _]. split; [exact Hok|].
  intros f x. rewrite Hcov, Hlive2.
  rewrite (Permutation_app_comm (memregions a) [reg]). cbn [app]. rewrite covered_cons. tauto.
Qed.

(** Adding a region to the root domain always returns and keeps the table
    inside its 33-entry array, terminated and in step with its count; a full
    table is rejected unchanged.  On success all regions are valid blocks, and
    for every flags value the addresses covered are exactly those covered
    before together with the new region's: sorting, skipping a region that is
    already covered and merging buddies lose and invent nothing. *)
Lemma root_add_memregion_correct reg st d a mask :
  root_ok st d a mask -> domain_finalized st = false -> reg_ok reg -> Forall reg_ok (memregions a) ->
  exists rc st' d' a', root_add_memregion reg st = Some (rc, st') /\ root_ok st' d' a' mask /\
    domain_finalized st' = false /\
    (ROOT_REGION_MAX <= root_memregs_count st -> rc = SBI_EINVAL /\ st' = st) /\
    (rc = 0 -> Forall reg_ok (memregions a') /\
       forall f x, covered (memregions a') f x <->
                   covered (memregions a) f x \/ (flags reg = f /\ covers reg x)).
Proof. apply root_add_spec. Qed.

(** A root domain with a catch-all and one device page. *)
Definition demo_root_table : list sbi_domain_memregion :=
  [mkReg 12 0x10000000 (2 ^ 31 + 27); mkReg 64 0 56] ++ replicate 31 (mkReg 0 0 0).

Definition demo_root : sbi_domain :=
  mkDom 0 (mkMask [0; 0]) (Some (mkMask [3; 0])) (Some demo_root_table) 0 0 0x80200000 PRV_S
    true true true.

Definition demo_root_state : domain_state :=
  mkDS {[ root := demo_root ]} [root] 1 false 2 120 ∅ demo_scratch.

Lemma demo_root_ok : root_ok demo_root_state demo_root demo_root_table (mkMask [3; 0]).
Proof.
  split; [reflexivity|]. split; [reflexivity|]. split; [exact demo_mask_ok|].
  split; [reflexivity|]. split; [reflexivity|]. split.
  { exists (mkReg 0 0 0). split; [|done]. right. right. left. }
  split; [done|]. split; [|reflexivity].
  repeat apply Forall_cons_2; try apply Forall_nil_2; cbn; lia.
Qed.

Lemma demo_root_regions_ok : Forall reg_ok (memregions demo_root_table).
Proof.
  repeat apply Forall_cons_2; try apply Forall_nil_2; unfold reg_ok; cbn;
    split_and!; try lia; by apply Z.mod_divide.
Qed.

Lemma root_add_memregion_correct_witness :
  exists st' d' a', root_add_memregion (mkReg 12 0x10001000 (2 ^ 31 + 27)) demo_root_state
                    = Some (0, st') /\ root_ok st' d' a' (mkMask [3; 0]) /\
    covered (memregions a') (2 ^ 31 + 27) 0x10000010.
Proof.
  destruct (root_add_memregion_correct (mkReg 12 0x10001000 (2 ^ 31 + 27)) demo_root_state demo_root
              demo_root_table (mkMask [3; 0]))
    as (rc & st' & d' & a' & Hr & Hok & _ & _ & Hcov);
    [exact demo_root_ok|reflexivity| |exact demo_root_regions_ok|].
  - unfold reg_ok; cbn. split_and!; try lia. by apply Z.mod_divide.
  - assert (rc = 0) as ->.
    { assert (H : fst <$> root_add_memregion (mkReg 12 0x10001000 (2 ^ 31 + 27)) demo_root_state
                  = Some 0) by (vm_compute; reflexivity).
      rewrite Hr in H. cbn in H. congruence. }
    exists st', d', a'. split; [exact Hr|]. split; [exact Hok|].
    apply (proj2 (Hcov eq_refl)). left. exists (mkReg 12 0x10000000 (2 ^ 31 + 27)).
    split; [left|]. split; [reflexivity|]. unfold covers; cbn; lia.
Defined.

(** ** Adding a range *)

(** Adding the lowest set bit raises the alignment. *)
Lemma add_lowest_bit pos t :
  0 <= t -> (2 ^ t | pos) -> 0 < pos < 2 ^ 64 ->
  exists n, t <= n < 64 /\ sbi_ffs pos = n /\ (2 ^ n | pos) /\ (2 ^ (n + 1) | pos + 2 ^ n) /\
            ~ (2 ^ (n + 1) | pos).
Proof.
  intros Ht Hd Hpos. destruct (least_bit_exists pos) as [n Hn]; [lia|].
  assert (Hw : word_ok pos) by (unfold word_ok; lia).
  pose proof (least_bit_bound pos n Hw Hn) as Hb. pose proof Hn as (Hn0 & Hbit & Hlow).
  assert (Hdn : forall k, 0 <= k <= n -> (2 ^ k | pos)).
  { intros k Hk. apply Z.mod_divide; [pose proof (pow2_pos k); lia|].
    rewrite <- Z.land_ones by lia. apply Z.bits_inj_iff'. intros i Hi.
    rewrite Z.land_spec, ones_bits, Z.bits_0 by lia.
    destruct (Z.ltb_spec i k); [rewrite Hlow by lia; done|].
    rewrite (proj2 (Z.leb_le 0 i)) by lia. by rewrite andb_false_r. }
  assert (Hodd : exists q, pos = (2 * q + 1) * 2 ^ n).
  { destruct (Hdn n ltac:(lia)) as [m Hm]. exists (m / 2).
    assert (Z.testbit m 0 = true) as H0.
    { rewrite Hm in Hbit. rewrite <- Z.shiftl_mul_pow2, Z.shiftl_spec in Hbit by lia.
      by rewrite Z.sub_diag in Hbit. }
    rewrite Z.bit0_odd in H0. apply Zodd_bool_iff in H0. apply Zodd_div2 in H0.
    rewrite Z.div2_div in H0. replace (2 * (m / 2) + 1) with m by lia. exact Hm. }
  destruct Hodd as [q Hq]. pose proof (pow2_pos n ltac:(lia)).
  assert (E2 : 2 ^ (n + 1) = 2 * 2 ^ n) by (rewrite Z.pow_add_r by lia; lia).
  assert (Hno : ~ (2 ^ (n + 1) | pos)).
  { intros [m Hm]. rewrite E2 in Hm.
    assert ((2 * q + 1 - 2 * m) * 2 ^ n = 0) as H0 by lia.
    apply Z.mul_eq_0 in H0. lia. }
  exists n. split; [split; [|lia]|].
  - destruct (Z.leb_spec t n); [done|]. exfalso. apply Hno.
    apply Z.divide_trans with (2 ^ t); [|done].
    exists (2 ^ (t - (n + 1))). rewrite <- Z.pow_add_r by lia. f_equal. lia.
  - split; [by apply ffs_spec|]. split; [apply Hdn; lia|]. split; [|done].
    exists (q + 1). rewrite E2. nia.
Qed.

(** The region of one round of [memrange_loop] is a valid block. *)
Lemma chunk_region pos size f :
  0 <= pos -> 8 <= size -> pos + size <= 2 ^ 63 ->
  let r := sbi_domain_memregion_init pos size f in
  reg_ok r /\ flags r = f /\ (forall x, pos <= x < pos + size -> covers r x).
Proof.
  intros Hp Hs Ht r. destruct (low_region pos size f) as (F & O & B & C & T & D); [lia..|].
  fold r in F, O, B, C, T, D. split; [|split; [done|]].
  - assert (2 ^ order r <= 2 ^ 63) by (apply Z.pow_le_mono_r; lia).
    unfold reg_ok. split_and!; lia || done.
  - intros x Hx. unfold covers. lia.
Qed.

(** The size of the next chunk, and how far it gets. *)
Definition chunk (pos end_ align : Z) : Z :=
  let rsize := Z.land pos (align - 1) in
  if negb (rsize =? 0) then u64 (Z.shiftl 1 (sbi_ffs pos))
  else if u64 (end_ - pos) <? align then u64 (end_ - pos) else align.

Lemma chunk_spec k t pos end_ :
  3 <= t <= k -> k <= 62 -> (2 ^ t | pos) -> (2 ^ 3 | end_) -> 0 <= pos < end_ -> end_ + 2 ^ k <= 2 ^ 63 ->
  let c := chunk pos end_ (2 ^ k) in
  8 <= c <= 2 ^ k /\
  (pos + c = end_ \/
   (exists t', t < t' <= k /\ (2 ^ t' | pos + c)) \/ (c = 2 ^ k /\ (2 ^ k | pos + c))).
Proof.
  intros Ht Hk Hd He Hp Hmax. unfold chunk.
  assert (2 ^ 3 <= 2 ^ k) by (apply Z.pow_le_mono_r; lia).
  replace (2 ^ k - 1) with (Z.ones k) by (rewrite Z.ones_equiv; lia).
  rewrite Z.land_ones by lia. destruct (Z.eqb_spec (pos mod 2 ^ k) 0) as [E|E]; cbn [negb].
  - apply Z.mod_divide in E; [|lia]. rewrite (wrap_small 64) by lia.
    destruct (Z.ltb_spec (end_ - pos) (2 ^ k)).
    + split; [|left; lia].
      assert ((2 ^ 3 | end_ - pos)) as [m Hm].
      { apply Z.divide_sub_r; [done|]. apply Z.divide_trans with (2 ^ t); [|done].
        exists (2 ^ (t - 3)). rewrite <- Z.pow_add_r by lia. f_equal. lia. }
      change (2 ^ 3) with 8 in Hm. lia.
    + split; [lia|]. right; right. split; [done|]. apply Z.divide_add_r; [done|apply Z.divide_refl].
  - assert (pos <> 0) by (intros ->; apply E; apply Z.mod_0_l; lia).
    destruct (add_lowest_bit pos t) as (n & Hn & -> & Hdn & Hd' & Hno); [lia|done|lia|].
    assert (n < k).
    { destruct (Z.ltb_spec n k); [done|]. exfalso. apply E, Z.mod_divide; [lia|].
      apply Z.divide_trans with (2 ^ n); [|done].
      exists (2 ^ (n - k)). rewrite <- Z.pow_add_r by lia. f_equal. lia. }
    rewrite shiftl_one by lia. split.
    + split; [change 8 with (2 ^ 3)|]; apply Z.pow_le_mono_r; lia.
    + right; left. exists (n + 1). split; [lia|done].
Qed.

Lemma memrange_loop_spec fuel k t pos end_ f st d a mask :
  3 <= t <= k -> k <= 62 -> (2 ^ t | pos) -> (2 ^ 3 | end_) -> 0 <= pos -> end_ + 2 ^ k <= 2 ^ 63 ->
  root_ok st d a mask -> domain_finalized st = false -> Forall reg_ok (memregions a) ->
  (pos < end_ -> k - t + 2 + (end_ - pos) / 2 ^ k <= Z.of_nat fuel) ->
  exists rc st' d' a', memrange_loop fuel pos end_ (2 ^ k) f st = Some (rc, st') /\
    root_ok st' d' a' mask /\
    (rc = 0 -> (forall g x, covered (memregions a) g x -> covered (memregions a') g x) /\
               forall x, pos <= x < end_ -> covered (memregions a') f x).
Proof.
  revert t pos st d a. induction fuel as [|fuel IH];
    intros t pos st d a Ht Hk Hd He Hp Hmax Hroot Hfin Hlive Hfuel; cbn [memrange_loop].
  { destruct (Z.ltb_spec pos end_).
    - exfalso. specialize (Hfuel ltac:(lia)).
      assert (0 <= (end_ - pos) / 2 ^ k) by (apply Z.div_pos; [lia|apply pow2_pos; lia]). lia.
    - exists 0, st, d, a. split; [done|]. split; [done|]. intros _. split; [done|lia]. }
  destruct (Z.ltb_spec pos end_) as [Hlt|Hge].
  2:{ exists 0, st, d, a. split; [done|]. split; [done|]. intros _. split; [done|lia]. }
  specialize (Hfuel Hlt). fold (chunk pos end_ (2 ^ k)).
  destruct (chunk_spec k t pos end_) as [Hc Hnext]; try done; try lia.
  set (c := chunk pos end_ (2 ^ k)) in *.
  destruct (chunk_region pos c f) as (Hreg & Hrf & Hrc); [lia..|].
  destruct (root_add_spec (sbi_domain_memregion_init pos c f) st d a mask Hroot Hfin Hreg Hlive)
    as (rc & st1 & d1 & a1 & -> & Hroot1 & Hfin1 & _ & Hcov1). cbn [mbind option_bind].
  destruct (Z.eqb_spec rc 0) as [->|Hrc0]; cbn [negb].
  2:{ exists rc, st1, d1, a1. split; [done|]. split; [done|]. done. }
  destruct (Hcov1 eq_refl) as [Hlive1 Hcov]. rewrite (wrap_small 64) by lia.
  assert (Hrec : exists t', 3 <= t' <= k /\ ((2 ^ t' | pos + c) \/ pos + c = end_) /\
    (pos + c < end_ -> k - t' + 2 + (end_ - (pos + c)) / 2 ^ k <= Z.of_nat fuel)).
  { assert (Hmono : (end_ - (pos + c)) / 2 ^ k <= (end_ - pos) / 2 ^ k).
    { apply Z.div_le_mono; [apply pow2_pos; lia|lia]. }
    destruct Hnext as [E|[(t' & Ht' & Hd')|[Ec Hd']]].
    - exists k. split; [lia|]. split; [by right|]. lia.
    - exists t'. split; [lia|]. split; [by left|]. lia.
    - exists k. split; [lia|]. split; [by left|]. intros _.
      rewrite Ec. replace (end_ - (pos + 2 ^ k)) with (end_ - pos + -1 * 2 ^ k) by lia.
      rewrite Z.div_add by lia. lia. }
  destruct Hrec as (t' & Ht' & Hal & Hfuel').
  assert (exists t'', 3 <= t'' <= k /\ (2 ^ t'' | pos + c) /\
    (pos + c < end_ -> k - t'' + 2 + (end_ - (pos + c)) / 2 ^ k <= Z.of_nat fuel))
    as (t'' & Ht'' & Hd'' & Hf'').
  { destruct Hal as [Hal|E]; [by exists t'|]. exists 3. split; [lia|]. split; [by rewrite E|lia]. }
  destruct (IH t'' (pos + c) st1 d1 a1) as (rc & st' & d' & a' & -> & Hroot' & Hgood); try done; try lia.
  exists rc, st', d', a'. split; [done|]. split; [done|]. intros Hz.
  destruct (Hgood Hz) as [Hkeep Hnew]. split.
  - intros g x Hx. apply Hkeep, Hcov. by left.
  - intros x Hx. destruct (Z.ltb_spec x (pos + c)); [|apply Hnew; lia].
    apply Hkeep, Hcov. right. split; [done|]. apply Hrc. lia.
Qed.

(** Adding an aligned memory range with a power-of-two chunk size always
    returns, in at most 66 rounds plus one per chunk, with the table intact;
    on success every byte of the range is covered by a region with the given
    flags and nothing covered before is lost. *)
Lemma root_add_memrange_covers k addr size f st d a mask :
  3 <= k <= 62 -> (2 ^ 3 | addr) -> (2 ^ 3 | size) -> 0 <= addr -> 0 <= size ->
  addr + size + 2 ^ k <= 2 ^ 63 ->
  root_ok st d a mask -> domain_finalized st = false -> Forall reg_ok (memregions a) ->
  exists rc st' d' a', sbi_domain_root_add_memrange addr size (2 ^ k) f st = Some (rc, st') /\
    root_ok st' d' a' mask /\
    (rc = 0 -> (forall g x, covered (memregions a) g x -> covered (memregions a') g x) /\
               forall x, addr <= x < addr + size -> covered (memregions a') f x).
Proof.
  intros Hk Ha Hs Ha0 Hs0 Hmax Hroot Hfin Hlive. unfold sbi_domain_root_add_memrange.
  pose proof (pow2_pos k ltac:(lia)). rewrite (wrap_small 64) by lia.
  apply (memrange_loop_spec _ k 3 addr (addr + size) f st d a mask); try done; try lia.
  - by apply Z.divide_add_r.
  - intros _. replace (addr + size - addr) with size by lia.
    assert (0 <= size / 2 ^ k) by (apply Z.div_pos; lia). lia.
Qed.

Lemma root_add_memrange_covers_witness :
  exists rc st' d' a', sbi_domain_root_add_memrange 0x80001000 0x7000 (2 ^ 14) 63 demo_root_state
                       = Some (rc, st') /\ root_ok st' d' a' (mkMask [3; 0]) /\
    (rc = 0 -> (forall g x, covered (memregions demo_root_table) g x -> covered (memregions a') g x) /\
               forall x, 0x80001000 <= x < 0x80001000 + 0x7000 -> covered (memregions a') 63 x).
Proof.
  apply (root_add_memrange_covers 14 0x80001000 0x7000 63 demo_root_state demo_root demo_root_table
           (mkMask [3; 0])).
  - lia.
  - by apply Z.mod_divide.
  - by apply Z.mod_divide.
  - lia.
  - lia.
  - lia.
  - exact demo_root_ok.
  - reflexivity.
  - exact demo_root_regions_ok.
Defined.
