(* ===== verification/SbiHsm.v ===== *)
(** * Hart state management ([sbi_hsm.c], [sbi_ecall_hsm.c])

    [hart] is what the module keeps per hart: the [sbi_hsm_data] in the hart's
    scratch area, the scratch fields that describe the next stage, and the CSRs
    the module saves.  [hsm_world] maps hart indices to harts (a hart without a
    scratch area is absent) and holds the registered device.

    The functions of this file run without interference from other harts; how
    the atomic steps of several harts interleave is the subject of
    [SbiHsmProto].  A function that does not return has an [outcome] that says
    where the hart goes instead.  Device callbacks, the IPI device, the boot
    counters of [sbi_init.c] and the privileged version are parameters. *)

From S2P Require Import Prelude SbiBitops SbiScratch SbiHartmask SbiMemregion SbiDomain.

Definition SBI_HSM_STATE_STARTED : Z := 0.
Definition SBI_HSM_STATE_STOPPED : Z := 1.
Definition SBI_HSM_STATE_START_PENDING : Z := 2.
Definition SBI_HSM_STATE_STOP_PENDING : Z := 3.
Definition SBI_HSM_STATE_SUSPENDED : Z := 4.
Definition SBI_HSM_STATE_SUSPEND_PENDING : Z := 5.
Definition SBI_HSM_STATE_RESUME_PENDING : Z := 6.

Definition SBI_HSM_SUSP_NON_RET_BIT : Z := 0x80000000.
Definition SBI_HSM_SUSPEND_RET_DEFAULT : Z := 0.
Definition SBI_HSM_SUSPEND_RET_PLATFORM : Z := 0x10000000.
Definition SBI_HSM_SUSPEND_NON_RET_DEFAULT : Z := 0x80000000.
Definition SBI_HSM_SUSPEND_NON_RET_PLATFORM : Z := 0x90000000.

Definition MIP_SSIP : Z := 2.
Definition MIP_STIP : Z := 32.
Definition MIP_MSIP : Z := 8.
Definition MIP_MEIP : Z := 2048.

Record sbi_hsm_data := mkHsm {
  state : Z;
  suspend_type : Z;
  saved_mie : Z;
  saved_mip : Z;
  saved_medeleg : Z;
  saved_menvcfg : Z;
  start_ticket : Z
}.

Record csrs := mkCsrs { mie : Z; mip : Z; medeleg : Z; menvcfg : Z }.

Record hart := mkHart {
  hdata : sbi_hsm_data;
  h_arg1 : Z;
  h_addr : Z;
  h_mode : Z;
  warmboot_addr : Z;
  h_csrs : csrs
}.

(** Callbacks that may be NULL are [option]s.  [hart_stop] and [hart_suspend]
    return [None] when the call does not return. *)
Record sbi_hsm_device := mkDev {
  dev_hart_start : option (Z -> Z -> Z);
  dev_hart_stop : option (option Z);
  dev_hart_suspend : option (Z -> Z -> option Z);
  dev_hart_resume : option unit
}.

Record hsm_world := mkW {
  w_harts : gmap Z hart;
  hsm_dev : option sbi_hsm_device
}.

Inductive outcome : Type :=
  | ORet (rc : Z)
  | OSwitch (hartid arg1 addr mode : Z)
  | OHang
  | OWarmboot (addr : Z)
  | OPoweredOff
  | OExit.

Definition set_state (s : Z) (h : hart) : hart :=
  mkHart (mkHsm s (suspend_type (hdata h)) (saved_mie (hdata h)) (saved_mip (hdata h))
            (saved_medeleg (hdata h)) (saved_menvcfg (hdata h)) (start_ticket (hdata h)))
    (h_arg1 h) (h_addr h) (h_mode h) (warmboot_addr h) (h_csrs h).

Definition set_ticket (t : Z) (h : hart) : hart :=
  mkHart (mkHsm (state (hdata h)) (suspend_type (hdata h)) (saved_mie (hdata h))
            (saved_mip (hdata h)) (saved_medeleg (hdata h)) (saved_menvcfg (hdata h)) t)
    (h_arg1 h) (h_addr h) (h_mode h) (warmboot_addr h) (h_csrs h).

Definition set_suspend_type (t : Z) (h : hart) : hart :=
  mkHart (mkHsm (state (hdata h)) t (saved_mie (hdata h)) (saved_mip (hdata h))
            (saved_medeleg (hdata h)) (saved_menvcfg (hdata h)) (start_ticket (hdata h)))
    (h_arg1 h) (h_addr h) (h_mode h) (warmboot_addr h) (h_csrs h).

Definition set_next (arg1 addr mode : Z) (h : hart) : hart :=
  mkHart (hdata h) arg1 addr mode (warmboot_addr h) (h_csrs h).

(** ** State changes *)

(** [atomic_cmpxchg] on the state, and whether it succeeded. *)
Definition sbi_hsm_hart_change_state (oldstate newstate : Z) (h : hart) : bool * hart :=
  if state (hdata h) =? oldstate then (true, set_state newstate h) else (false, h).

Definition hsm_hart_get_state (w : hsm_world) (hartindex : Z) : Z :=
  match w_harts w !! hartindex with
  | None => SBI_EINVAL
  | Some h => state (hdata h)
  end.

Definition sbi_hsm_hart_get_state (ds : domain_state) (w : hsm_world) (dom hartid : Z) : option Z :=
  hartindex ← sbi_hartid_to_hartindex (scr ds) hartid;
  if negb (sbi_domain_is_assigned_hart ds dom hartindex) then Some SBI_EINVAL
  else Some (hsm_hart_get_state w hartindex).

Definition hsm_start_ticket_acquire (h : hart) : bool * hart :=
  if start_ticket (hdata h) =? 0 then (true, set_ticket 1 h) else (false, h).

Definition hsm_start_ticket_release (h : hart) : hart := set_ticket 0 h.

(** The loop of [sbi_hsm_hart_interruptible_mask]: it walks the mask it clears
    bits in. *)
Definition interruptible (s : Z) : bool :=
  (s =? SBI_HSM_STATE_STARTED) || (s =? SBI_HSM_STATE_SUSPENDED) ||
  (s =? SBI_HSM_STATE_RESUME_PENDING).

Fixpoint interruptible_loop (fuel : nat) (w : hsm_world) (i : Z) (mask : sbi_hartmask)
    : option sbi_hartmask :=
  match fuel with
  | O => None
  | S fuel' =>
      if i <? SBI_HARTMASK_MAX_BITS then
        let hstate := hsm_hart_get_state w i in
        let mask := if negb (hstate =? SBI_HSM_STATE_STARTED) &&
                       negb (hstate =? SBI_HSM_STATE_SUSPENDED) &&
                       negb (hstate =? SBI_HSM_STATE_RESUME_PENDING)
                    then sbi_hartmask_clear_hartindex i mask else mask in
        i' ← find_next_bit (bits mask) SBI_HARTMASK_MAX_BITS (i + 1);
        interruptible_loop fuel' w i' mask
      else Some mask
  end.

Definition sbi_hsm_hart_interruptible_mask (ds : domain_state) (w : hsm_world) (dom : Z)
    (mask : sbi_hartmask) : option (Z * sbi_hartmask) :=
  let '(ret, mask) := sbi_domain_get_assigned_hartmask ds dom mask in
  if negb (ret =? 0) then Some (ret, mask)
  else
    i ← find_first_bit (bits mask) SBI_HARTMASK_MAX_BITS;
    mask ← interruptible_loop 129 w i mask;
    Some (0, mask).

(** ** Starting *)

Definition sbi_hsm_hart_start_finish (hartid : Z) (h : hart) : outcome * hart :=
  let '(ok, h) := sbi_hsm_hart_change_state SBI_HSM_STATE_START_PENDING SBI_HSM_STATE_STARTED h in
  if negb ok then (OHang, h)
  else (OSwitch hartid (h_arg1 h) (h_addr h) (h_mode h), hsm_start_ticket_release h).

(** The wait loop: it leaves, with MIE as it was, once the state is
    START_PENDING; [None] while it waits. *)
Definition sbi_hsm_hart_wait (h : hart) : option hart :=
  if state (hdata h) =? SBI_HSM_STATE_START_PENDING then Some h else None.

Definition sbi_hsm_get_device (w : hsm_world) : option sbi_hsm_device := hsm_dev w.

Definition sbi_hsm_set_device (dev : option sbi_hsm_device) (w : hsm_world) : hsm_world :=
  match dev, hsm_dev w with
  | Some d, None => mkW (w_harts w) (Some d)
  | _, _ => w
  end.

Definition hsm_device_has_hart_hotplug (w : hsm_world) : bool :=
  match hsm_dev w with
  | Some d => bool_decide (is_Some (dev_hart_start d)) && bool_decide (is_Some (dev_hart_stop d))
  | None => false
  end.

Definition hsm_device_has_hart_secondary_boot (w : hsm_world) : bool :=
  match hsm_dev w with
  | Some d => bool_decide (is_Some (dev_hart_start d)) && negb (bool_decide (is_Some (dev_hart_stop d)))
  | None => false
  end.

Definition hsm_device_hart_start (w : hsm_world) (hartid saddr : Z) : Z :=
  match hsm_dev w with
  | Some d => match dev_hart_start d with Some f => f hartid saddr | None => SBI_ENOTSUPP end
  | None => SBI_ENOTSUPP
  end.

Definition hsm_device_hart_stop (w : hsm_world) : option Z :=
  match hsm_dev w with
  | Some d => match dev_hart_stop d with Some r => r | None => Some SBI_ENOTSUPP end
  | None => Some SBI_ENOTSUPP
  end.

Definition hsm_device_hart_suspend (w : hsm_world) (stype addr : Z) : option Z :=
  match hsm_dev w with
  | Some d => match dev_hart_suspend d with Some f => f stype addr | None => Some SBI_ENOTSUPP end
  | None => Some SBI_ENOTSUPP
  end.

(** Fresh data of hart [i] at cold boot. *)
Definition init_hart (cur i : Z) (h : hart) : hart :=
  mkHart (mkHsm (if i =? cur then SBI_HSM_STATE_START_PENDING else SBI_HSM_STATE_STOPPED)
            0 0 0 0 0 0) (h_arg1 h) (h_addr h) (h_mode h) (warmboot_addr h) (h_csrs h).

(** Cold boot allocates the zeroed [sbi_hsm_data] (56 bytes) of every hart and
    sets its state; the result is the return code, the scratch globals and the
    world.  A warm boot waits: [None] is "still waiting". *)
Definition sbi_hsm_init (sc : scratch_state) (w : hsm_world) (cur : Z) (cold_boot : bool)
    : option (Z * scratch_state * hsm_world) :=
  if cold_boot then
    '(off, sc, _) ← sbi_scratch_alloc_offset sc (fun _ => 0) 56;
    if off =? 0 then Some (SBI_ENOMEM, sc, w)
    else Some (0, sc, mkW (map_imap (fun i h => Some (if i <=? last_hartindex_having_scratch sc
                                                      then init_hart cur i h else h)) (w_harts w))
                        (hsm_dev w))
  else
    h ← w_harts w !! cur;
    h ← sbi_hsm_hart_wait h;
    Some (0, sc, mkW (<[cur := h]> (w_harts w)) (hsm_dev w)).

Definition sbi_hsm_exit (w : hsm_world) (h : hart) : outcome * hart :=
  let '(ok, h) := sbi_hsm_hart_change_state SBI_HSM_STATE_STOP_PENDING SBI_HSM_STATE_STOPPED h in
  if negb ok then (OHang, h)
  else if hsm_device_has_hart_hotplug w then
    match hsm_device_hart_stop w with
    | None => (OPoweredOff, h)
    | Some rc => if negb (rc =? SBI_ENOTSUPP) then (OHang, h) else (OWarmboot (warmboot_addr h), h)
    end
  else (OWarmboot (warmboot_addr h), h).

Definition put_hart (i : Z) (h : hart) (w : hsm_world) : hsm_world :=
  mkW (<[i := h]> (w_harts w)) (hsm_dev w).

Section Start.
Context (sbi_init_count sbi_entry_count : Z -> Z) (sbi_ipi_raw_send : Z -> Z).

(** Power the hart up through the device, or wake it by an IPI. *)
Definition start_launch (w : hsm_world) (hartid hartindex my_warmboot init_count entry_count : Z) : Z :=
  if (hsm_device_has_hart_hotplug w && (entry_count =? init_count)) ||
     (hsm_device_has_hart_secondary_boot w && (init_count =? 0))
  then hsm_device_hart_start w hartid my_warmboot
  else sbi_ipi_raw_send hartindex.

(** [dom] is 0 for the internal call of [sbi_domain_startup]. *)
Definition sbi_hsm_hart_start (ds : domain_state) (w : hsm_world) (my_warmboot dom hartid saddr
    smode arg1 : Z) : option (Z * hsm_world) :=
  hartindex ← sbi_hartid_to_hartindex (scr ds) hartid;
  if negb (smode =? PRV_S) && negb (smode =? PRV_U) then Some (SBI_EINVAL, w)
  else if negb (dom =? 0) && negb (sbi_domain_is_assigned_hart ds dom hartindex)
  then Some (SBI_EINVAL, w)
  else if negb (dom =? 0) &&
          negb (sbi_domain_check_addr (domains ds !! dom) saddr smode SBI_DOMAIN_EXECUTE)
  then Some (SBI_EINVALID_ADDR, w)
  else
    match w_harts w !! hartindex with
    | None => Some (SBI_EINVAL, w)
    | Some h =>
        let '(ok, h) := hsm_start_ticket_acquire h in
        if negb ok then Some (SBI_EINVAL, w)
        else
          let init_count := sbi_init_count hartindex in
          let entry_count := sbi_entry_count hartindex in
          let h := set_next arg1 saddr smode h in
          let hstate := state (hdata h) in
          let h := if hstate =? SBI_HSM_STATE_STOPPED
                   then set_state SBI_HSM_STATE_START_PENDING h else h in
          if hstate =? SBI_HSM_STATE_STARTED then
            Some (SBI_EALREADY, put_hart hartindex (hsm_start_ticket_release h) w)
          else if negb (hstate =? SBI_HSM_STATE_STOPPED) then
            Some (SBI_EINVAL, put_hart hartindex (hsm_start_ticket_release h) w)
          else
            let rc := start_launch w hartid hartindex my_warmboot init_count entry_count in
            if rc =? 0 then Some (0, put_hart hartindex h w)
            else
              let '(_, h) := sbi_hsm_hart_change_state SBI_HSM_STATE_START_PENDING
                               SBI_HSM_STATE_STOPPED h in
              Some (rc, put_hart hartindex (hsm_start_ticket_release h) w)
    end.

End Start.

(** ** Stopping and suspending; [thisdom] is the current hart's domain. *)

Definition sbi_hsm_hart_stop (thisdom : Z) (exitnow : bool) (h : hart) : outcome * hart :=
  if thisdom =? 0 then (ORet SBI_EFAIL, h)
  else
    let '(ok, h) := sbi_hsm_hart_change_state SBI_HSM_STATE_STARTED SBI_HSM_STATE_STOP_PENDING h in
    if negb ok then (ORet SBI_EFAIL, h)
    else if exitnow then (OExit, h) else (ORet 0, h).

Section Suspend.
Context (priv_1_12 : bool).

Definition hsm_suspend_non_ret_save (h : hart) : hart :=
  let d := hdata h in
  let c := h_csrs h in
  mkHart (mkHsm (state d) (suspend_type d) (mie c)
            (Z.land (mip c) (Z.lor MIP_SSIP MIP_STIP)) (medeleg c)
            (if priv_1_12 then menvcfg c else saved_menvcfg d) (start_ticket d))
    (h_arg1 h) (h_addr h) (h_mode h) (warmboot_addr h) c.

Definition hsm_suspend_non_ret_restore (h : hart) : hart :=
  let d := hdata h in
  let c := h_csrs h in
  mkHart d (h_arg1 h) (h_addr h) (h_mode h) (warmboot_addr h)
    (mkCsrs (saved_mie d)
       (Z.lor (mip c) (Z.land (saved_mip d) (Z.lor MIP_SSIP MIP_STIP)))
       (saved_medeleg d) (if priv_1_12 then saved_menvcfg d else menvcfg c)).

Definition sbi_hsm_hart_resume_start (h : hart) : option outcome * hart :=
  let '(ok, h) := sbi_hsm_hart_change_state SBI_HSM_STATE_SUSPENDED
                    SBI_HSM_STATE_RESUME_PENDING h in
  if negb ok then (Some OHang, h) else (None, h).

Definition sbi_hsm_hart_resume_finish (hartid : Z) (h : hart) : outcome * hart :=
  let '(ok, h) := sbi_hsm_hart_change_state SBI_HSM_STATE_RESUME_PENDING
                    SBI_HSM_STATE_STARTED h in
  if negb ok then (OHang, h)
  else
    let h := hsm_suspend_non_ret_restore h in
    (OSwitch hartid (h_arg1 h) (h_addr h) (h_mode h), h).

Definition non_ret (stype : Z) : bool := negb (Z.land stype SBI_HSM_SUSP_NON_RET_BIT =? 0).

Definition sbi_hsm_hart_suspend (ds : domain_state) (w : hsm_world) (thisdom stype raddr rmode
    arg1 : Z) (h : hart) : outcome * hart :=
  if thisdom =? 0 then (ORet SBI_EFAIL, h)
  else if (SBI_HSM_SUSPEND_RET_DEFAULT <? stype) && (stype <? SBI_HSM_SUSPEND_RET_PLATFORM)
  then (ORet SBI_EINVAL, h)
  else if (SBI_HSM_SUSPEND_NON_RET_DEFAULT <? stype) && (stype <? SBI_HSM_SUSPEND_NON_RET_PLATFORM)
  then (ORet SBI_EINVAL, h)
  else if non_ret stype && negb (rmode =? PRV_S) && negb (rmode =? PRV_U)
  then (ORet SBI_EFAIL, h)
  else if non_ret stype &&
          negb (sbi_domain_check_addr (domains ds !! thisdom) raddr rmode SBI_DOMAIN_EXECUTE)
  then (ORet SBI_EINVALID_ADDR, h)
  else
    let h := set_next arg1 raddr rmode h in
    let '(ok, h) := sbi_hsm_hart_change_state SBI_HSM_STATE_STARTED SBI_HSM_STATE_SUSPENDED h in
    if negb ok then (ORet SBI_EFAIL, h)
    else
      let h := set_suspend_type stype h in
      let h := if non_ret stype then hsm_suspend_non_ret_save h else h in
      match hsm_device_hart_suspend w stype (warmboot_addr h) with
      | None => (OWarmboot (warmboot_addr h), h)
      | Some ret =>
          let ret := if (ret =? SBI_ENOTSUPP) &&
                        ((stype =? SBI_HSM_SUSPEND_RET_DEFAULT) ||
                         (stype =? SBI_HSM_SUSPEND_NON_RET_DEFAULT))
                     then 0 else ret in
          if (ret =? 0) && non_ret stype then (OWarmboot (warmboot_addr h), h)
          else
            let '(ok, h) := sbi_hsm_hart_change_state SBI_HSM_STATE_SUSPENDED
                              SBI_HSM_STATE_STARTED h in
            if negb ok then (OHang, h) else (ORet ret, h)
      end.

End Suspend.

(** ** The SBI call ([sbi_ecall_hsm_handler]) *)

Definition SBI_EXT_HSM_HART_START : Z := 0.
Definition SBI_EXT_HSM_HART_STOP : Z := 1.
Definition SBI_EXT_HSM_HART_GET_STATUS : Z := 2.
Definition SBI_EXT_HSM_HART_SUSPEND : Z := 3.

Section Ecall.
Context (sbi_init_count sbi_entry_count : Z -> Z) (sbi_ipi_raw_send : Z -> Z) (priv_1_12 : bool).

(** Return code and [out->value]: a non-negative result is a value. *)
Definition ecall_result (ret : Z) : Z * Z := if 0 <=? ret then (0, ret) else (ret, 0).

(** The call of hart [cur]: where control goes ([inl]) or the error code and
    value of the return ([inr]), and the world. *)
Definition sbi_ecall_hsm_handler (ds : domain_state) (w : hsm_world) (cur funcid a0 a1 a2 smode : Z)
    : option ((outcome + Z * Z) * hsm_world) :=
  h ← w_harts w !! cur;
  let thisdom := sbi_hartindex_to_domain ds cur in
  let wrap_out (oh : outcome * hart) :=
    (match oh.1 with ORet rc => inr (ecall_result rc) | o => inl o end, put_hart cur oh.2 w) in
  if funcid =? SBI_EXT_HSM_HART_START then
    '(rc, w) ← sbi_hsm_hart_start sbi_init_count sbi_entry_count sbi_ipi_raw_send ds w
                 (warmboot_addr h) thisdom (u32 a0) a1 smode a2;
    Some (inr (ecall_result rc), w)
  else if funcid =? SBI_EXT_HSM_HART_STOP then Some (wrap_out (sbi_hsm_hart_stop thisdom true h))
  else if funcid =? SBI_EXT_HSM_HART_GET_STATUS then
    rc ← sbi_hsm_hart_get_state ds w thisdom (u32 a0);
    Some (inr (ecall_result rc), w)
  else if funcid =? SBI_EXT_HSM_HART_SUSPEND then
    Some (wrap_out (sbi_hsm_hart_suspend priv_1_12 ds w thisdom (u32 a0) a1 smode a2 h))
  else Some (inr (ecall_result SBI_ENOTSUPP), w).

End Ecall.

(** ** The state machine *)

(** The edges of the hart state machine. *)
Inductive hsm_edge : Z -> Z -> Prop :=
  | edge_start : hsm_edge SBI_HSM_STATE_STOPPED SBI_HSM_STATE_START_PENDING
  | edge_started : hsm_edge SBI_HSM_STATE_START_PENDING SBI_HSM_STATE_STARTED
  | edge_stop : hsm_edge SBI_HSM_STATE_STARTED SBI_HSM_STATE_STOP_PENDING
  | edge_stopped : hsm_edge SBI_HSM_STATE_STOP_PENDING SBI_HSM_STATE_STOPPED
  | edge_suspend : hsm_edge SBI_HSM_STATE_STARTED SBI_HSM_STATE_SUSPENDED
  | edge_resume : hsm_edge SBI_HSM_STATE_SUSPENDED SBI_HSM_STATE_RESUME_PENDING
  | edge_resumed : hsm_edge SBI_HSM_STATE_RESUME_PENDING SBI_HSM_STATE_STARTED.

Definition hstate (h : hart) : Z := state (hdata h).

Definition moves (h h' : hart) : Prop := hstate h' = hstate h \/ hsm_edge (hstate h) (hstate h').

#[export] Hint Constructors hsm_edge : sbi.

(** An operation of hart [cur] on its own data. *)
Inductive own_op (priv : bool) (ds : domain_state) (w : hsm_world) (h : hart) : hart -> Prop :=
  | own_start_finish hartid : own_op priv ds w h (sbi_hsm_hart_start_finish hartid h).2
  | own_exit : own_op priv ds w h (sbi_hsm_exit w h).2
  | own_stop dom now : own_op priv ds w h (sbi_hsm_hart_stop dom now h).2
  | own_suspend dom stype raddr rmode arg1 :
      own_op priv ds w h (sbi_hsm_hart_suspend priv ds w dom stype raddr rmode arg1 h).2
  | own_resume_start : own_op priv ds w h (sbi_hsm_hart_resume_start h).2
  | own_resume_finish hartid : own_op priv ds w h (sbi_hsm_hart_resume_finish priv hartid h).2.

(** One operation of the module on the world: one of the above by some hart, or
    a start request. *)
Inductive hsm_step (ds : domain_state) : hsm_world -> hsm_world -> Prop :=
  | step_own priv w i h h' :
      w_harts w !! i = Some h -> own_op priv ds w h h' -> hsm_step ds w (put_hart i h' w)
  | step_start ic ec send w wb dom hartid saddr smode arg1 rc w' :
      sbi_hsm_hart_start ic ec send ds w wb dom hartid saddr smode arg1 = Some (rc, w') ->
      hsm_step ds w w'.

Lemma change_state_cases old new h :
  (hstate h = old /\ sbi_hsm_hart_change_state old new h = (true, set_state new h)) \/
  (hstate h <> old /\ sbi_hsm_hart_change_state old new h = (false, h)).
Proof.
  unfold sbi_hsm_hart_change_state, hstate. destruct (Z.eqb_spec (state (hdata h)) old); auto.
Qed.

(** Case analysis on a state change; the goals carry the state before. *)
Ltac change_state :=
  match goal with
  | |- context [sbi_hsm_hart_change_state ?o ?n ?h] =>
      destruct (change_state_cases o n h) as [[? ->]|[? ->]]; cbn [negb fst snd]
  end.

Lemma own_op_moves priv ds w h h' : own_op priv ds w h h' -> moves h h'.
Proof.
  unfold moves. intros [hartid| |dom now|dom stype raddr rmode arg1| |hartid].
  - unfold sbi_hsm_hart_start_finish. change_state; [right|by left]. rewrite H. constructor.
  - unfold sbi_hsm_exit. change_state; [right|by left].
    destruct (hsm_device_has_hart_hotplug w);
      [destruct (hsm_device_hart_stop w) as [rc|]; [destruct (negb _)|]|]; cbn;
      rewrite H; constructor.
  - unfold sbi_hsm_hart_stop. destruct (dom =? 0); [by left|].
    change_state; [right|by left]. destruct now; cbn; rewrite H; constructor.
  - unfold sbi_hsm_hart_suspend. do 5 (case_match; [by left|]). change_state; [|by left].
    change (hstate h = SBI_HSM_STATE_STARTED) in H4.
    set (h1 := if non_ret stype then _ else _).
    assert (hstate h1 = SBI_HSM_STATE_SUSPENDED) as Hh1 by (subst h1; by destruct (non_ret stype)).
    destruct (hsm_device_hart_suspend w stype (warmboot_addr h1)) as [ret|]; cbn [snd].
    + match goal with |- context [if ?b && non_ret stype then _ else _] => destruct (b && non_ret stype) end;
        cbn [snd]; [right; rewrite Hh1, H4; constructor|].
      change_state; cbn [snd].
      * left. by rewrite H4.
      * congruence.
    + right. rewrite Hh1, H4. constructor.
  - unfold sbi_hsm_hart_resume_start. change_state; [right|by left]. rewrite H. constructor.
  - unfold sbi_hsm_hart_resume_finish. change_state; [right|by left]. cbn. rewrite H. constructor.
Qed.

(** *** Start requests *)

(** The request passes the checks on mode, domain and address. *)
Definition start_allowed (ds : domain_state) (dom i saddr smode : Z) : Prop :=
  (smode = PRV_S \/ smode = PRV_U) /\
  (dom <> 0 -> sbi_domain_is_assigned_hart ds dom i = true /\
     sbi_domain_check_addr (domains ds !! dom) saddr smode SBI_DOMAIN_EXECUTE = true).

(** The hart after a refused request that took the ticket: only the next stage
    has changed. *)
Definition refused (arg1 saddr smode : Z) (h : hart) : hart :=
  set_ticket 0 (set_next arg1 saddr smode (set_ticket 1 h)).

Definition ticket (h : hart) : Z := start_ticket (hdata h).

(** Every branch of [sbi_hsm_hart_start]. *)
Lemma hart_start_cases ic ec send ds w wb dom hartid saddr smode arg1 i :
  sbi_hartid_to_hartindex (scr ds) hartid = Some i ->
  let r := sbi_hsm_hart_start ic ec send ds w wb dom hartid saddr smode arg1 in
  (~ start_allowed ds dom i saddr smode /\
     (r = Some (SBI_EINVAL, w) \/ r = Some (SBI_EINVALID_ADDR, w))) \/
  (start_allowed ds dom i saddr smode /\ w_harts w !! i = None /\ r = Some (SBI_EINVAL, w)) \/
  (start_allowed ds dom i saddr smode /\ exists h, w_harts w !! i = Some h /\
     ((ticket h <> 0 /\ r = Some (SBI_EINVAL, w)) \/
      (ticket h = 0 /\ hstate h = SBI_HSM_STATE_STARTED /\
         r = Some (SBI_EALREADY, put_hart i (refused arg1 saddr smode h) w)) \/
      (ticket h = 0 /\ hstate h <> SBI_HSM_STATE_STARTED /\ hstate h <> SBI_HSM_STATE_STOPPED /\
         r = Some (SBI_EINVAL, put_hart i (refused arg1 saddr smode h) w)) \/
      (ticket h = 0 /\ hstate h = SBI_HSM_STATE_STOPPED /\
         let rc := start_launch send w hartid i wb (ic i) (ec i) in
         (rc = 0 /\ r = Some (0, put_hart i (set_state SBI_HSM_STATE_START_PENDING
                                   (set_next arg1 saddr smode (set_ticket 1 h))) w)) \/
         (rc <> 0 /\ r = Some (rc, put_hart i (set_state SBI_HSM_STATE_STOPPED
                                     (refused arg1 saddr smode h)) w))))).
Proof.
  intros Hi r. subst r. unfold sbi_hsm_hart_start, start_allowed. rewrite Hi. cbn [mbind option_bind].
  destruct (negb (smode =? PRV_S) && negb (smode =? PRV_U)) eqn:Em.
  { left. split; [|by left]. intros [[-> | ->] _]; done. }
  assert (Hm : smode = PRV_S \/ smode = PRV_U).
  { apply andb_false_iff in Em. rewrite !negb_false_iff, !Z.eqb_eq in Em. done. }
  destruct (negb (dom =? 0) && negb (sbi_domain_is_assigned_hart ds dom i)) eqn:Ea.
  { left. split; [|by left]. prop_bool. intros [_ H']. destruct H'; [done|]. congruence. }
  destruct (negb (dom =? 0) && negb (sbi_domain_check_addr _ _ _ _)) eqn:Ec.
  { left. split; [|by right]. prop_bool. intros [_ H']. destruct H'; [done|]. congruence. }
  assert (Hok : start_allowed ds dom i saddr smode).
  { split; [done|]. intros Hd. apply Z.eqb_neq in Hd. rewrite Hd in Ea, Ec. cbn in Ea, Ec.
    by rewrite negb_false_iff in Ea, Ec. }
  right. destruct (w_harts w !! i) as [h|]; [right|by left].
  split; [exact Hok|]. exists h. split; [done|]. unfold hsm_start_ticket_acquire, ticket, hstate.
  destruct (Z.eqb_spec (start_ticket (hdata h)) 0) as [Et|Et]; cbn [negb]; [right|by left].
  cbn [set_next set_ticket hdata state].
  destruct (Z.eqb_spec (state (hdata h)) SBI_HSM_STATE_STARTED) as [Es|Es].
  { left. rewrite Es. done. }
  destruct (Z.eqb_spec (state (hdata h)) SBI_HSM_STATE_STOPPED) as [Es'|Es']; cbn [negb].
  2:{ right; left. done. }
  right; right. split; [done|]. split; [done|]. destruct (Z.eqb_spec (start_launch send w hartid i wb (ic i) (ec i)) 0);
    [left|right]; done.
Qed.

(** A start request succeeds exactly when it is allowed, the hart is
    stopped, no other request holds its ticket and the hart could be woken;
    the hart is then START_PENDING with the ticket taken and the requested
    entry point, mode and argument in place, an entry point that the caller's
    domain may execute.  A request that fails leaves the state and the ticket
    of every hart as they were, and no request touches another hart. *)
Lemma hart_start_sound ic ec send ds w wb dom hartid saddr smode arg1 i :
  sbi_hartid_to_hartindex (scr ds) hartid = Some i ->
  exists rc w', sbi_hsm_hart_start ic ec send ds w wb dom hartid saddr smode arg1 = Some (rc, w') /\
    (forall j, j <> i -> w_harts w' !! j = w_harts w !! j) /\
    (rc = 0 <-> start_allowed ds dom i saddr smode /\
       start_launch send w hartid i wb (ic i) (ec i) = 0 /\
       exists h, w_harts w !! i = Some h /\ hstate h = SBI_HSM_STATE_STOPPED /\ ticket h = 0) /\
    (rc = 0 -> exists h', w_harts w' !! i = Some h' /\ hstate h' = SBI_HSM_STATE_START_PENDING /\
       ticket h' = 1 /\ h_arg1 h' = arg1 /\ h_addr h' = saddr /\ h_mode h' = smode) /\
    (rc <> 0 -> forall h, w_harts w !! i = Some h -> exists h', w_harts w' !! i = Some h' /\
       hstate h' = hstate h /\ ticket h' = ticket h).
Proof.
  intros Hi.
  assert (Hother : forall h' j, j <> i -> w_harts (put_hart i h' w) !! j = w_harts w !! j).
  { intros h' j Hj. cbn. by rewrite lookup_insert_ne. }
  assert (Hself : forall h', w_harts (put_hart i h' w) !! i = Some h').
  { intros h'. cbn. by rewrite lookup_insert_eq. }
  destruct (hart_start_cases ic ec send ds w wb dom hartid saddr smode arg1 i Hi)
    as [(Hno & [-> | ->])|[(Hok & Hn & ->)|(Hok & h & Hh & [(Ht & ->)|[(Ht & Hs & ->)|[(Ht & Hs & Hs' & ->)|(Ht & Hs & [(Hl & ->)|(Hl & ->)])]]])]];
    eexists _, _; (split; [reflexivity|]); (split; [done || apply Hother|]); rewrite ?Hself.
  - split; [|split; [done|eauto]]. split; [done|]. by intros (? & _).
  - split; [|split; [done|eauto]]. split; [done|]. by intros (? & _).
  - split; [|split; [done|eauto]]. split; [done|]. intros (_ & _ & h & ? & _). congruence.
  - split; [|split; [done|eauto]]. split; [done|]. intros (_ & _ & h0 & ? & _ & ?). congruence.
  - split; [|split; [done|]].
    + split; [done|]. intros (_ & _ & h0 & ? & Hs0 & _). simplify_eq. rewrite Hs in Hs0. done.
    + intros _ h0 Hh0. assert (h0 = h) as -> by congruence. eexists. split; [done|]. cbn. rewrite Ht. done.
  - split; [|split; [done|]].
    + split; [done|]. intros (_ & _ & h0 & ? & Hs0 & _). simplify_eq.
    + intros _ h0 Hh0. assert (h0 = h) as -> by congruence. eexists. split; [done|]. cbn. rewrite Ht. done.
  - split; [|split; [|done]].
    + split; [|done]. intros _. split; [done|]. split; [done|]. by exists h.
    + intros _. eexists. split; [done|]. done.
  - split; [|split; [done|]].
    + split; [done|]. by intros (_ & ? & _).
    + intros _ h0 Hh0. assert (h0 = h) as -> by congruence. eexists. split; [done|]. cbn. rewrite Ht. by rewrite Hs.
Qed.

(** Two harts: hart 0 runs, hart 1 is stopped; both belong to one domain. *)
Definition demo_hart (s : Z) : hart :=
  mkHart (mkHsm s 0 0 0 0 0 0) 0 0x80200000 PRV_S 0x80000000 (mkCsrs 0 0 0 0).

Definition demo_world (s1 : Z) : hsm_world :=
  mkW {[ 0 := demo_hart SBI_HSM_STATE_STARTED; 1 := demo_hart s1 ]} None.

Definition demo_domains : domain_state :=
  mkDS {[ 4096 := set_assigned (mkMask [3; 0]) demo_sanitized ]} [4096] 1 true 0 120
    {[ 0 := 4096; 1 := 4096 ]} demo_scratch.

Lemma hart_start_sound_witness :
  exists w', sbi_hsm_hart_start (fun _ => 1) (fun _ => 1) (fun _ => 0) demo_domains
               (demo_world SBI_HSM_STATE_STOPPED) 0 4096 1 0x80400000 PRV_S 7 = Some (0, w') /\
    exists h', w_harts w' !! 1 = Some h' /\ hstate h' = SBI_HSM_STATE_START_PENDING.
Proof.
  destruct (hart_start_sound (fun _ => 1) (fun _ => 1) (fun _ => 0) demo_domains
              (demo_world SBI_HSM_STATE_STOPPED) 0 4096 1 0x80400000 PRV_S 7 1)
    as (rc & w' & Hr & _ & _ & Hgood & _); [reflexivity|].
  assert (rc = 0) as ->.
  { assert (H : fst <$> sbi_hsm_hart_start (fun _ => 1) (fun _ => 1) (fun _ => 0) demo_domains
               (demo_world SBI_HSM_STATE_STOPPED) 0 4096 1 0x80400000 PRV_S 7 = Some 0)
      by (vm_compute; reflexivity).
    rewrite Hr in H. cbn in H. congruence. }
  exists w'. split; [exact Hr|]. destruct (Hgood eq_refl) as (h' & H1 & H2 & _).
  exists h'. split; [exact H1|exact H2].
Defined.

(** A start request aimed at a hart that is suspended is refused with [SBI_EINVAL], but only after the hart's next-stage fields have
    been overwritten: when the hart then resumes from a non-retentive suspend,
    it enters the address, mode and argument of the refused request instead of
    the ones it suspended with. *)
Lemma refused_start_redirects_resume ic ec send priv ds w wb dom hartid saddr smode arg1 i h c :
  sbi_hartid_to_hartindex (scr ds) hartid = Some i -> start_allowed ds dom i saddr smode ->
  w_harts w !! i = Some h -> ticket h = 0 -> hstate h = SBI_HSM_STATE_SUSPENDED ->
  exists w' h', sbi_hsm_hart_start ic ec send ds w wb dom hartid saddr smode arg1
                = Some (SBI_EINVAL, w') /\ w_harts w' !! i = Some h' /\
    let woken := mkHart (hdata h') (h_arg1 h') (h_addr h') (h_mode h') (warmboot_addr h') c in
    let '(stop, h1) := sbi_hsm_hart_resume_start woken in
    stop = None /\
    fst (sbi_hsm_hart_resume_finish priv hartid h1) = OSwitch hartid arg1 saddr smode.
Proof.
  intros Hi Hok Hh Ht Hs.
  destruct (hart_start_cases ic ec send ds w wb dom hartid saddr smode arg1 i Hi)
    as [(Hno & _)|[(_ & Hn & _)|(_ & h0 & Hh0 & H)]]; [done|congruence|].
  assert (h0 = h) as -> by congruence.
  destruct H as [(? & _)|[(_ & E & _)|[(_ & _ & _ & ->)|(_ & E & _)]]];
    [done|rewrite Hs in E; done| |rewrite Hs in E; done].
  eexists _, _. split; [reflexivity|]. split; [cbn; apply lookup_insert_eq|].
  unfold sbi_hsm_hart_resume_start, sbi_hsm_hart_resume_finish, sbi_hsm_hart_change_state.
  unfold hstate in Hs. cbn. rewrite Hs. done.
Qed.

Lemma refused_start_redirects_resume_witness :
  exists w' h', sbi_hsm_hart_start (fun _ => 1) (fun _ => 1) (fun _ => 0) demo_domains
                  (demo_world SBI_HSM_STATE_SUSPENDED) 0 4096 1 0x80400000 PRV_S 7
                = Some (SBI_EINVAL, w') /\ w_harts w' !! 1 = Some h' /\
    let woken := mkHart (hdata h') (h_arg1 h') (h_addr h') (h_mode h') (warmboot_addr h')
                   (mkCsrs 0 0 0 0) in
    let '(stop, h1) := sbi_hsm_hart_resume_start woken in
    stop = None /\
    fst (sbi_hsm_hart_resume_finish true 1 h1) = OSwitch 1 7 0x80400000 PRV_S.
Proof.
  apply (refused_start_redirects_resume (fun _ => 1) (fun _ => 1) (fun _ => 0) true demo_domains
           (demo_world SBI_HSM_STATE_SUSPENDED) 0 4096 1 0x80400000 PRV_S 7 1
           (demo_hart SBI_HSM_STATE_SUSPENDED)); try reflexivity.
  split; [by left|]. intros _. split; vm_compute; reflexivity.
Defined.

(** *** Suspending and resuming *)

(** The checks on a non-retentive request pass. *)
Definition suspend_allowed (ds : domain_state) (dom stype raddr rmode : Z) : Prop :=
  dom <> 0 /\ non_ret stype = true /\
  ~ (SBI_HSM_SUSPEND_RET_DEFAULT < stype < SBI_HSM_SUSPEND_RET_PLATFORM) /\
  ~ (SBI_HSM_SUSPEND_NON_RET_DEFAULT < stype < SBI_HSM_SUSPEND_NON_RET_PLATFORM) /\
  (rmode = PRV_S \/ rmode = PRV_U) /\
  sbi_domain_check_addr (domains ds !! dom) raddr rmode SBI_DOMAIN_EXECUTE = true.

(** The suspend gets as far as the warm boot: the device does not return, or
    says so, or leaves the default type to the generic code. *)
Definition suspends (w : hsm_world) (stype wb : Z) : Prop :=
  match hsm_device_hart_suspend w stype wb with
  | None => True
  | Some ret => ret = 0 \/ (ret = SBI_ENOTSUPP /\ stype = SBI_HSM_SUSPEND_NON_RET_DEFAULT)
  end.

Lemma suspend_to_warmboot priv ds w dom stype raddr rmode arg1 h :
  suspend_allowed ds dom stype raddr rmode -> hstate h = SBI_HSM_STATE_STARTED ->
  suspends w stype (warmboot_addr h) ->
  sbi_hsm_hart_suspend priv ds w dom stype raddr rmode arg1 h
  = (OWarmboot (warmboot_addr h),
     hsm_suspend_non_ret_save priv
       (set_suspend_type stype (set_state SBI_HSM_STATE_SUSPENDED (set_next arg1 raddr rmode h)))).
Proof.
  intros (Hd & Hn & H1 & H2 & Hm & Hc) Hs Hdev. unfold sbi_hsm_hart_suspend.
  rewrite (proj2 (Z.eqb_neq dom 0) Hd), Hn, Hc. cbn [andb negb].
  replace ((SBI_HSM_SUSPEND_RET_DEFAULT <? stype) && (stype <? SBI_HSM_SUSPEND_RET_PLATFORM)) with false
    by (zcases; lia || done).
  replace ((SBI_HSM_SUSPEND_NON_RET_DEFAULT <? stype) && (stype <? SBI_HSM_SUSPEND_NON_RET_PLATFORM))
    with false by (zcases; lia || done).
  replace (negb (rmode =? PRV_S) && negb (rmode =? PRV_U)) with false
    by (destruct Hm as [-> | ->]; done).
  unfold sbi_hsm_hart_change_state. unfold hstate in Hs. cbn [set_next hdata]. rewrite Hs, Z.eqb_refl.
  cbn [negb]. unfold suspends in Hdev.
  change (warmboot_addr (hsm_suspend_non_ret_save _ _)) with (warmboot_addr h).
  destruct (hsm_device_hart_suspend w stype (warmboot_addr h)) as [ret|]; [|done].
  destruct Hdev as [->|[-> ->]]; done.
Qed.

(** A non-retentive suspend and the resume that follows it are transparent
    to the supervisor: whatever values warm boot leaves in the CSRs, the hart
    comes back STARTED at the requested resume address, mode and argument, with
    MIE, MEDELEG and (from privileged version 1.12 on) MENVCFG as they were at
    the suspend, and with the S-mode software and timer interrupts that were
    pending then pending again. *)
Lemma suspend_resume_roundtrip priv ds w dom stype raddr rmode arg1 hartid h c2 :
  suspend_allowed ds dom stype raddr rmode -> hstate h = SBI_HSM_STATE_STARTED ->
  suspends w stype (warmboot_addr h) ->
  exists h1, sbi_hsm_hart_suspend priv ds w dom stype raddr rmode arg1 h
             = (OWarmboot (warmboot_addr h), h1) /\ hstate h1 = SBI_HSM_STATE_SUSPENDED /\
    let woken := mkHart (hdata h1) (h_arg1 h1) (h_addr h1) (h_mode h1) (warmboot_addr h1) c2 in
    exists h2 h3, sbi_hsm_hart_resume_start woken = (None, h2) /\
      sbi_hsm_hart_resume_finish priv hartid h2 = (OSwitch hartid arg1 raddr rmode, h3) /\
      hstate h3 = SBI_HSM_STATE_STARTED /\ ticket h3 = ticket h /\
      mie (h_csrs h3) = mie (h_csrs h) /\ medeleg (h_csrs h3) = medeleg (h_csrs h) /\
      menvcfg (h_csrs h3) = (if priv then menvcfg (h_csrs h) else menvcfg c2) /\
      (forall b, Z.testbit (mip (h_csrs h3)) b
         = Z.testbit (mip c2) b || (((b =? 1) || (b =? 5)) && Z.testbit (mip (h_csrs h)) b)).
Proof.
  intros Hok Hs Hdev. rewrite suspend_to_warmboot by done. eexists. split; [done|]. split; [done|].
  cbn. unfold sbi_hsm_hart_resume_start, sbi_hsm_hart_change_state. cbn.
  eexists _, _. split; [done|]. unfold sbi_hsm_hart_resume_finish, sbi_hsm_hart_change_state. cbn.
  split; [done|]. split; [done|]. split; [done|]. split; [done|]. split; [done|].
  split; [by destruct priv|]. intros b.
  cbn [hsm_suspend_non_ret_restore h_csrs mip set_state saved_mip hdata].
  change (Z.lor MIP_SSIP MIP_STIP) with (Z.lor (2 ^ 1) (2 ^ 5)).
  rewrite <- Z.land_assoc, Z.land_diag, Z.lor_spec, Z.land_spec, Z.lor_spec.
  destruct (Z.ltb_spec b 0); [rewrite !Z.testbit_neg_r by lia; by rewrite !andb_false_r|].
  rewrite !Z.pow2_bits_eqb by lia. rewrite (Z.eqb_sym 1 b), (Z.eqb_sym 5 b).
  by rewrite andb_comm.
Qed.

Lemma suspend_resume_roundtrip_witness :
  exists h1, sbi_hsm_hart_suspend true demo_domains (demo_world SBI_HSM_STATE_STOPPED) 4096
               SBI_HSM_SUSPEND_NON_RET_DEFAULT 0x80300000 PRV_S 5
               (demo_hart SBI_HSM_STATE_STARTED)
             = (OWarmboot 0x80000000, h1) /\ hstate h1 = SBI_HSM_STATE_SUSPENDED.
Proof.
  destruct (suspend_resume_roundtrip true demo_domains (demo_world SBI_HSM_STATE_STOPPED) 4096
              SBI_HSM_SUSPEND_NON_RET_DEFAULT 0x80300000 PRV_S 5 0 (demo_hart SBI_HSM_STATE_STARTED)
              (mkCsrs 1 2 3 4)) as (h1 & H1 & H2 & _).
  - split; [lia|]. split; [reflexivity|]. split; [vm_compute; intuition discriminate|].
    split; [vm_compute; intuition discriminate|]. split; [by left|]. vm_compute; reflexivity.
  - reflexivity.
  - vm_compute. right. split; reflexivity.
  - exists h1. split; [exact H1|exact H2].
Defined.

(** *** The interruptible harts *)

Lemma interruptible_negb s :
  negb (s =? SBI_HSM_STATE_STARTED) && negb (s =? SBI_HSM_STATE_SUSPENDED) &&
  negb (s =? SBI_HSM_STATE_RESUME_PENDING) = negb (interruptible s).
Proof. unfold interruptible. by rewrite !negb_orb. Qed.

Lemma mask_next_clear m i j lo :
  mask_ok m -> 0 <= i < lo -> lo <= j < 128 ->
  bit_at (bits (sbi_hartmask_clear_hartindex i m)) j = bit_at (bits m) j.
Proof.
  intros Hm Hi Hj. pose proof (mask_has_clear m j i Hm ltac:(lia) ltac:(lia)) as H.
  unfold mask_has, SBI_HARTMASK_MAX_BITS in H. rewrite mask_index_range in H by lia. cbn in H.
  rewrite H. by destruct (Z.eqb_spec j i); [lia|].
Qed.

(** The loop from an index that is in the mask, or at the end. *)
Lemma interruptible_loop_spec fuel w i m :
  mask_ok m -> 0 <= i <= 128 -> (i < 128 -> bit_at (bits m) i = true) -> 129 - i <= Z.of_nat fuel ->
  exists m', interruptible_loop fuel w i m = Some m' /\ mask_ok m' /\
    (forall j, 0 <= j < 128 -> mask_has m' j
       = mask_has m j && ((j <? i) || interruptible (hsm_hart_get_state w j))).
Proof.
  revert i m. induction fuel as [|fuel IH]; intros i m Hm Hi Hb Hf; [lia|].
  cbn [interruptible_loop]. unfold SBI_HARTMASK_MAX_BITS at 1.
  destruct (Z.ltb_spec i 128) as [Hlt|Hge].
  2:{ exists m. split; [done|]. split; [done|]. intros j Hj.
      rewrite (proj2 (Z.ltb_lt j i)) by lia. by rewrite andb_true_r. }
  rewrite interruptible_negb. set (m1 := if negb _ then _ else _).
  assert (Hm1 : mask_ok m1) by (subst m1; destruct (negb _); auto with sbi).
  assert (Hb1 : forall j, i + 1 <= j < 128 -> bit_at (bits m1) j = bit_at (bits m) j).
  { intros j Hj. subst m1. destruct (negb _); [|done]. apply (mask_next_clear m i j (i + 1)); lia || done. }
  destruct (mask_next m1 (i + 1) Hm1 ltac:(lia)) as (k & -> & Hk & Hno & Hyes).
  cbn [mbind option_bind].
  destruct (IH k m1) as (m' & -> & Hm' & Hhas); [done|lia|done|lia|].
  exists m'. split; [done|]. split; [done|]. intros j Hj. rewrite Hhas by done.
  assert (Hm1j : mask_has m1 j = mask_has m j &&
            ((negb (j =? i)) || interruptible (hsm_hart_get_state w i))).
  { subst m1. destruct (interruptible _) eqn:Ei; cbn [negb].
    - by rewrite orb_true_r, andb_true_r.
    - rewrite mask_has_clear by (lia || done). rewrite orb_false_r. apply andb_comm. }
  rewrite Hm1j. destruct (Z.ltb_spec j i).
  - rewrite (proj2 (Z.ltb_lt j k)), (proj2 (Z.eqb_neq j i)) by lia. cbn. by rewrite !andb_true_r.
  - destruct (Z.eqb_spec j i) as [->|Hne]; cbn.
    + rewrite (proj2 (Z.ltb_lt i k)) by lia. cbn. by rewrite andb_true_r.
    + rewrite andb_true_r. destruct (Z.ltb_spec j k); [|done]. cbn.
      assert (mask_has m j = false) as ->; [|done].
      unfold mask_has. rewrite <- (Hb1 j) by lia. rewrite (Hno j) by lia. by rewrite andb_false_r.
Qed.

Lemma interruptible_mask_spec ds w dom d mask :
  domains ds !! dom = Some d -> mask_ok (assigned_harts d) -> mask_ok mask ->
  exists m', sbi_hsm_hart_interruptible_mask ds w dom mask = Some (0, m') /\ mask_ok m' /\
    (forall i, 0 <= i < 128 -> mask_has m' i
       = mask_has (assigned_harts d) i && interruptible (hsm_hart_get_state w i)).
Proof.
  intros Hd Ha Hm. unfold sbi_hsm_hart_interruptible_mask, sbi_domain_get_assigned_hartmask.
  rewrite Hd, mask_copy by done. cbn [negb Z.eqb].
  rewrite find_first_is_next by (unfold SBI_HARTMASK_MAX_BITS; lia).
  destruct (mask_next (assigned_harts d) 0 Ha ltac:(lia)) as (k & -> & Hk & Hno & Hyes).
  rewrite some_bind.
  destruct (interruptible_loop_spec 129 w k (assigned_harts d)) as (m' & -> & Hm' & Hhas);
    [done|lia|done|lia|].
  rewrite some_bind. exists m'. split; [done|]. split; [done|]. intros i Hi. rewrite Hhas by done.
  destruct (Z.ltb_spec i k); [|done].
  unfold mask_has. rewrite (Hno i) by lia. by rewrite andb_false_r.
Qed.

(** The mask of interruptible harts is computed by a terminating walk over
    the mask that the walk itself clears bits in, and holds exactly the harts
    assigned to the domain whose state is STARTED, SUSPENDED or
    RESUME_PENDING. *)
Lemma interruptible_mask_correct ds w dom d mask :
  domains ds !! dom = Some d -> mask_ok (assigned_harts d) -> mask_ok mask ->
  exists m', sbi_hsm_hart_interruptible_mask ds w dom mask = Some (0, m') /\ mask_ok m' /\
    (forall i, 0 <= i < 128 -> mask_has m' i
       = mask_has (assigned_harts d) i && interruptible (hsm_hart_get_state w i)).
Proof. apply interruptible_mask_spec. Qed.

Lemma interruptible_mask_correct_witness :
  exists m', sbi_hsm_hart_interruptible_mask demo_domains (demo_world SBI_HSM_STATE_STOPPED) 4096
               (mkMask [0; 0]) = Some (0, m') /\ mask_has m' 0 = true /\ mask_has m' 1 = false.
Proof.
  destruct (interruptible_mask_correct demo_domains (demo_world SBI_HSM_STATE_STOPPED) 4096
              (set_assigned (mkMask [3; 0]) demo_sanitized) (mkMask [0; 0]))
    as (m' & H1 & _ & H2); [reflexivity|exact demo_mask_ok|exact mask_zero_ok|].
  exists m'. split; [exact H1|]. rewrite !H2 by lia. split; reflexivity.
Defined.

(** Each operation of the module moves every hart along an edge of the hart
    state machine or leaves its state alone: STOPPED to START_PENDING to
    STARTED, STARTED to STOP_PENDING to STOPPED, STARTED to SUSPENDED to
    RESUME_PENDING to STARTED.  SUSPEND_PENDING is never entered. *)
Lemma hsm_transitions_legal ds w w' i h :
  hsm_step ds w w' -> w_harts w !! i = Some h ->
  exists h', w_harts w' !! i = Some h' /\ moves h h' /\
    (hstate h' = SBI_HSM_STATE_SUSPEND_PENDING -> hstate h = SBI_HSM_STATE_SUSPEND_PENDING).
Proof.
  intros Hstep Hh.
  assert (exists h', w_harts w' !! i = Some h' /\ moves h h') as (h' & Hh' & Hm).
  { destruct Hstep as [priv w j hj hj' Hj Hop|ic ec send w wb dom hartid saddr smode arg1 rc w' Hst].
    - destruct (Z.eq_dec i j) as [->|Hne].
      + exists hj'. split; [apply lookup_insert_eq|]. simplify_eq. by eapply own_op_moves.
      + exists h. split; [cbn; by rewrite lookup_insert_ne|by left].
    - destruct (sbi_hartid_to_hartindex (scr ds) hartid) as [k|] eqn:Ek;
        [|unfold sbi_hsm_hart_start in Hst; by rewrite Ek in Hst].
      assert (Hput : forall hk hk', w_harts w !! k = Some hk -> moves hk hk' ->
        exists h', w_harts (put_hart k hk' w) !! i = Some h' /\ moves h h').
      { intros hk hk' Hk Hmv. cbn. destruct (Z.eq_dec i k) as [->|Hne].
        - rewrite lookup_insert_eq. exists hk'. simplify_eq. done.
        - rewrite lookup_insert_ne by done. exists h. split; [done|by left]. }
      assert (Hsame : exists h', w_harts w !! i = Some h' /\ moves h h') by (exists h; split; [done|by left]).
      destruct (hart_start_cases ic ec send ds w wb dom hartid saddr smode arg1 k Ek)
        as [(_ & [E|E])|[(_ & _ & E)|(_ & hk & Hk & [(_ & E)|[(_ & _ & E)|[(_ & _ & _ & E)|(_ & Hs & [(_ & E)|(_ & E)])]]])]];
        rewrite E in Hst; injection Hst as <- <-; try done; apply (Hput hk); try done.
      + by left.
      + by left.
      + right. rewrite Hs. constructor.
      + left. by rewrite Hs. }
  exists h'. split; [done|]. split; [done|]. intros E.
  destruct Hm as [Hm|Hm]; [congruence|]. rewrite E in Hm. inversion Hm.
Qed.

Lemma hsm_transitions_legal_witness :
  exists h', w_harts (put_hart 0 (sbi_hsm_hart_stop 4096 true (demo_hart SBI_HSM_STATE_STARTED)).2
                        (demo_world SBI_HSM_STATE_STOPPED)) !! 0 = Some h' /\
    moves (demo_hart SBI_HSM_STATE_STARTED) h'.
Proof.
  destruct (hsm_transitions_legal demo_domains (demo_world SBI_HSM_STATE_STOPPED)
              (put_hart 0 (sbi_hsm_hart_stop 4096 true (demo_hart SBI_HSM_STATE_STARTED)).2
                 (demo_world SBI_HSM_STATE_STOPPED)) 0 (demo_hart SBI_HSM_STATE_STARTED))
    as (h' & H1 & H2 & _).
  - apply (step_own demo_domains true _ 0 (demo_hart SBI_HSM_STATE_STARTED)); [reflexivity|constructor].
  - reflexivity.
  - exists h'. split; [exact H1|exact H2].
Defined.
