(* ===== verification/SbiHsmProto.v ===== *)
(** * Interleaving start requests with the life of the target hart ([sbi_hsm.c])

    [SbiHsm] runs each function in one piece.  Here the shared accesses of
    [sbi_hsm_hart_start] (by any number of calling harts), of
    [sbi_hsm_hart_start_finish], [sbi_hsm_hart_wait], [sbi_hsm_hart_stop],
    [sbi_hsm_exit] and of [sbi_hsm_hart_suspend] with its resume (by the target)
    are single steps that interleave freely: each [atomic_cmpxchg], each atomic
    read or write and each store to or load from a [next_*] field.  The source's
    fences and read-modify-write operations order these accesses on a hart, so
    the steps of one hart happen in program order.

    A launch, once the target is START_PENDING, succeeds or fails; a request whose
    launch fails takes the state back with a second cmpxchg and releases the ticket.
    The outcome is fixed when the first cmpxchg succeeds, so that a run can say whether
    a target sees the START_PENDING of a launch that fails.

    [p_won] is a ghost: the arguments of the last request whose cmpxchg took the
    target from STOPPED to START_PENDING, if its launch succeeds. *)

From S2P Require Import Prelude SbiScratch SbiMemregion SbiDomain SbiHsm.

Record args := mkArgs { a_arg1 : Z; a_addr : Z; a_mode : Z }.

(** Where a caller is inside [sbi_hsm_hart_start]. *)
Inductive cpc : Type :=
  | CIdle
  | CTicket (a : args)        (* ticket acquired *)
  | CArg1 (a : args)          (* next_arg1 written *)
  | CAddr (a : args)          (* next_addr written *)
  | CMode (a : args)          (* next_mode written *)
  | CPending (a : args)       (* cmpxchg to START_PENDING succeeded, the launch does too *)
  | CFailing (a : args)       (* cmpxchg to START_PENDING succeeded, the launch fails *)
  | CRefused.                 (* no start: ticket to be released *)

(** Where the target is. *)
Inductive tpc : Type :=
  | TWait                     (* in sbi_hsm_hart_wait *)
  | TBoot                     (* saw START_PENDING *)
  | TRead0                    (* STARTED, reading the next stage *)
  | TRead1 (arg1 : Z)
  | TRead2 (arg1 addr : Z)
  | TRead3 (a : args)         (* ticket to be released *)
  | TRun (a : args)           (* running the supervisor entered with a *)
  | TStopping                 (* STOP_PENDING *)
  | TSusp1 (a w : args)       (* suspending: next_arg1 := w *)
  | TSusp2 (a w : args)
  | TSusp3 (a w : args)
  | TSuspended (a w : args)
  | TResuming
  | THang.

Record proto := mkP {
  p_state : Z;
  p_ticket : Z;
  p_arg1 : Z;
  p_addr : Z;
  p_mode : Z;
  p_tgt : tpc;
  p_call : Z -> cpc;
  p_won : option args
}.

Definition upd_call (f : Z -> cpc) (c : Z) (v : cpc) : Z -> cpc :=
  fun x => if x =? c then v else f x.

(** [susp] says whether the target may suspend, [wake] whether it may see the
    START_PENDING of a request whose launch fails (it polls whenever an interrupt
    ends its [wfi]). *)
Inductive pstep (susp wake : bool) : proto -> proto -> Prop :=
  (* sbi_hsm_hart_start, hart c *)
  | c_ticket c a s t x y z tg f w :
      f c = CIdle -> t = 0 -> (a_mode a = PRV_S \/ a_mode a = PRV_U) ->
      pstep susp wake (mkP s t x y z tg f w) (mkP s 1 x y z tg (upd_call f c (CTicket a)) w)
  | c_arg1 c a s t x y z tg f w :
      f c = CTicket a ->
      pstep susp wake (mkP s t x y z tg f w) (mkP s t (a_arg1 a) y z tg (upd_call f c (CArg1 a)) w)
  | c_addr c a s t x y z tg f w :
      f c = CArg1 a ->
      pstep susp wake (mkP s t x y z tg f w) (mkP s t x (a_addr a) z tg (upd_call f c (CAddr a)) w)
  | c_mode c a s t x y z tg f w :
      f c = CAddr a ->
      pstep susp wake (mkP s t x y z tg f w) (mkP s t x y (a_mode a) tg (upd_call f c (CMode a)) w)
  | c_cas_ok c a s t x y z tg f w :
      f c = CMode a -> s = SBI_HSM_STATE_STOPPED ->
      pstep susp wake (mkP s t x y z tg f w)
                 (mkP SBI_HSM_STATE_START_PENDING t x y z tg (upd_call f c (CPending a)) (Some a))
  | c_cas_doomed c a s t x y z tg f w :
      f c = CMode a -> s = SBI_HSM_STATE_STOPPED ->
      pstep susp wake (mkP s t x y z tg f w)
                 (mkP SBI_HSM_STATE_START_PENDING t x y z tg (upd_call f c (CFailing a)) None)
  | c_rollback c a s t x y z tg f w :
      f c = CFailing a -> s = SBI_HSM_STATE_START_PENDING ->
      pstep susp wake (mkP s t x y z tg f w) (mkP SBI_HSM_STATE_STOPPED t x y z tg (upd_call f c CRefused) w)
  | c_rollback_late c a s t x y z tg f w :
      f c = CFailing a -> s <> SBI_HSM_STATE_START_PENDING ->
      pstep susp wake (mkP s t x y z tg f w) (mkP s t x y z tg (upd_call f c CRefused) w)
  | c_cas_fail c a s t x y z tg f w :
      f c = CMode a -> s <> SBI_HSM_STATE_STOPPED ->
      pstep susp wake (mkP s t x y z tg f w) (mkP s t x y z tg (upd_call f c CRefused) w)
  | c_release c s t x y z tg f w :
      f c = CRefused ->
      pstep susp wake (mkP s t x y z tg f w) (mkP s 0 x y z tg (upd_call f c CIdle) w)
  | c_sent c a s t x y z tg f w :
      f c = CPending a ->
      pstep susp wake (mkP s t x y z tg f w) (mkP s t x y z tg (upd_call f c CIdle) w)
  (* sbi_hsm_hart_wait *)
  | t_see s t x y z f w :
      s = SBI_HSM_STATE_START_PENDING -> wake = true \/ is_Some w ->
      pstep susp wake (mkP s t x y z TWait f w) (mkP s t x y z TBoot f w)
  (* sbi_hsm_hart_start_finish *)
  | t_cas_ok s t x y z f w :
      s = SBI_HSM_STATE_START_PENDING ->
      pstep susp wake (mkP s t x y z TBoot f w) (mkP SBI_HSM_STATE_STARTED t x y z TRead0 f w)
  | t_cas_fail s t x y z f w :
      s <> SBI_HSM_STATE_START_PENDING ->
      pstep susp wake (mkP s t x y z TBoot f w) (mkP s t x y z THang f w)
  | t_arg1 s t x y z f w :
      pstep susp wake (mkP s t x y z TRead0 f w) (mkP s t x y z (TRead1 x) f w)
  | t_addr s t x y z f w b :
      pstep susp wake (mkP s t x y z (TRead1 b) f w) (mkP s t x y z (TRead2 b y) f w)
  | t_mode s t x y z f w b c :
      pstep susp wake (mkP s t x y z (TRead2 b c) f w) (mkP s t x y z (TRead3 (mkArgs b c z)) f w)
  | t_release s t x y z f w a :
      pstep susp wake (mkP s t x y z (TRead3 a) f w) (mkP s 0 x y z (TRun a) f w)
  (* sbi_hsm_hart_stop, then sbi_hsm_exit *)
  | t_stop s t x y z f w a :
      s = SBI_HSM_STATE_STARTED ->
      pstep susp wake (mkP s t x y z (TRun a) f w) (mkP SBI_HSM_STATE_STOP_PENDING t x y z TStopping f w)
  | t_exit s t x y z f w :
      s = SBI_HSM_STATE_STOP_PENDING ->
      pstep susp wake (mkP s t x y z TStopping f w) (mkP SBI_HSM_STATE_STOPPED t x y z TWait f w)
  (* sbi_hsm_hart_suspend *)
  | t_susp1 s t x y z f w a b :
      susp = true ->
      pstep susp wake (mkP s t x y z (TRun a) f w) (mkP s t (a_arg1 b) y z (TSusp1 a b) f w)
  | t_susp2 s t x y z f w a b :
      pstep susp wake (mkP s t x y z (TSusp1 a b) f w) (mkP s t x (a_addr b) z (TSusp2 a b) f w)
  | t_susp3 s t x y z f w a b :
      pstep susp wake (mkP s t x y z (TSusp2 a b) f w) (mkP s t x y (a_mode b) (TSusp3 a b) f w)
  | t_susp_ok s t x y z f w a b :
      s = SBI_HSM_STATE_STARTED ->
      pstep susp wake (mkP s t x y z (TSusp3 a b) f w)
                 (mkP SBI_HSM_STATE_SUSPENDED t x y z (TSuspended a b) f w)
  (* retentive: the call returns *)
  | t_susp_ret s t x y z f w a b :
      s = SBI_HSM_STATE_SUSPENDED ->
      pstep susp wake (mkP s t x y z (TSuspended a b) f w) (mkP SBI_HSM_STATE_STARTED t x y z (TRun a) f w)
  (* non-retentive: sbi_hsm_hart_resume_start, sbi_hsm_hart_resume_finish *)
  | t_resume s t x y z f w a b :
      s = SBI_HSM_STATE_SUSPENDED ->
      pstep susp wake (mkP s t x y z (TSuspended a b) f w)
                 (mkP SBI_HSM_STATE_RESUME_PENDING t x y z TResuming f w)
  | t_resumed s t x y z f w :
      s = SBI_HSM_STATE_RESUME_PENDING ->
      pstep susp wake (mkP s t x y z TResuming f w)
                 (mkP SBI_HSM_STATE_STARTED t x y z (TRun (mkArgs x y z)) f w).

(** After cold boot: the target is stopped and waits, nobody calls. *)
Definition pinit (x y z : Z) : proto :=
  mkP SBI_HSM_STATE_STOPPED 0 x y z TWait (fun _ => CIdle) None.

Definition reachable (susp wake : bool) (s : proto) : Prop :=
  exists x y z, rtc (pstep susp wake) (pinit x y z) s.

(** ** The invariant *)

(** The caller holds the ticket. *)
Definition holds (v : cpc) : bool :=
  match v with CIdle | CPending _ => false | _ => true end.

(** The ticket has been handed to the target. *)
Definition handed (s : proto) : bool :=
  match p_tgt s with
  | TWait | TBoot => (p_state s =? SBI_HSM_STATE_START_PENDING) && bool_decide (is_Some (p_won s))
  | TRead0 | TRead1 _ | TRead2 _ _ | TRead3 _ => true
  | _ => false
  end.

(** What a caller has written so far is in place, and a failing launch is not seen. *)
Definition written (s : proto) (v : cpc) : Prop :=
  match v with
  | CArg1 a => p_arg1 s = a_arg1 a
  | CAddr a => p_arg1 s = a_arg1 a /\ p_addr s = a_addr a
  | CMode a => p_arg1 s = a_arg1 a /\ p_addr s = a_addr a /\ p_mode s = a_mode a
  | CFailing _ => p_state s = SBI_HSM_STATE_START_PENDING /\ p_won s = None
  | _ => True
  end.

(** The state word agrees with the target's position, and what the target has
    read is what the winner wrote. *)
Definition tgt_ok (s : proto) : Prop :=
  match p_tgt s with
  | TWait => p_state s = SBI_HSM_STATE_STOPPED \/ p_state s = SBI_HSM_STATE_START_PENDING
  | TBoot => p_state s = SBI_HSM_STATE_START_PENDING /\ is_Some (p_won s)
  | TRead0 => p_state s = SBI_HSM_STATE_STARTED
  | TRead1 b => p_state s = SBI_HSM_STATE_STARTED /\ b = p_arg1 s
  | TRead2 b c => p_state s = SBI_HSM_STATE_STARTED /\ b = p_arg1 s /\ c = p_addr s
  | TRead3 a | TRun a => p_state s = SBI_HSM_STATE_STARTED /\ p_won s = Some a
  | TStopping => p_state s = SBI_HSM_STATE_STOP_PENDING
  | _ => False
  end.

Definition pinv (s : proto) : Prop :=
  tgt_ok s /\
  (forall c, written s (p_call s c)) /\
  (forall c d, holds (p_call s c) = true -> holds (p_call s d) = true -> c = d) /\
  (forall c, holds (p_call s c) = true -> handed s = false /\ p_ticket s = 1) /\
  (handed s = true -> p_ticket s = 1 /\ p_won s = Some (mkArgs (p_arg1 s) (p_addr s) (p_mode s))) /\
  (p_ticket s = 0 -> handed s = false /\ forall c, holds (p_call s c) = false).

Lemma written_free s v : holds v = false -> written s v.
Proof. by destruct v. Qed.

Definition one_holder (f : Z -> cpc) : Prop :=
  forall c d, holds (f c) = true -> holds (f d) = true -> c = d.

(** Only [c] may hold the ticket. *)
Definition only (f : Z -> cpc) (c : Z) : Prop := forall d, d <> c -> holds (f d) = false.

Lemma holder_only f c : one_holder f -> holds (f c) = true -> only f c.
Proof. intros H1 Hc d Hd. apply not_true_iff_false. intros H. by apply Hd, H1. Qed.

Lemma only_one f c v : only f c -> one_holder (upd_call f c v).
Proof.
  intros Ho a b. unfold upd_call.
  destruct (Z.eqb_spec a c) as [->|Ha], (Z.eqb_spec b c) as [->|Hb]; try done;
    rewrite ?(Ho a Ha), ?(Ho b Hb); done.
Qed.

Lemma only_free f c v :
  only f c -> holds v = false -> forall d, holds (upd_call f c v d) = false.
Proof. intros Ho Hv d. unfold upd_call. destruct (Z.eqb_spec d c); [done|by apply Ho]. Qed.

Lemma only_written s f c v :
  only f c -> written s v -> forall d, written s (upd_call f c v d).
Proof.
  intros Ho Hv d. unfold upd_call. destruct (Z.eqb_spec d c); [done|].
  by apply written_free, Ho.
Qed.

(** The invariant when the ticket is with a caller, with the target, or free. *)
Lemma pinv_caller s c v f :
  p_call s = upd_call f c v -> only f c -> holds v = true -> tgt_ok s -> written s v ->
  p_ticket s = 1 -> handed s = false -> pinv s.
Proof.
  intros Ef Ho Hv Ht Hw Hk Hh. unfold pinv. rewrite Ef. split_and!.
  - done.
  - by apply only_written.
  - by apply only_one.
  - done.
  - congruence.
  - congruence.
Qed.

Lemma pinv_target s :
  (forall c, holds (p_call s c) = false) -> tgt_ok s -> p_ticket s = 1 -> handed s = true ->
  p_won s = Some (mkArgs (p_arg1 s) (p_addr s) (p_mode s)) -> pinv s.
Proof.
  intros Hf Ht Hk Hh Hw. unfold pinv. split_and!; try done.
  - intros c. apply written_free, Hf.
  - intros c d Hc. by rewrite Hf in Hc.
  - intros c Hc. by rewrite Hf in Hc.
  - congruence.
Qed.

Lemma pinv_free s :
  (forall c, holds (p_call s c) = false) -> tgt_ok s -> p_ticket s = 0 -> handed s = false -> pinv s.
Proof.
  intros Hf Ht Hk Hh. unfold pinv. split_and!; try done.
  - intros c. apply written_free, Hf.
  - intros c d Hc. by rewrite Hf in Hc.
  - intros c Hc. by rewrite Hf in Hc.
  - congruence.
Qed.

(** A step of a caller that has no ticket, or of the target while a caller may
    hold it, keeps the callers' part. *)
Lemma pinv_sent s f c :
  pinv s -> p_call s = f -> holds (f c) = false ->
  pinv (mkP (p_state s) (p_ticket s) (p_arg1 s) (p_addr s) (p_mode s) (p_tgt s)
          (upd_call f c CIdle) (p_won s)).
Proof.
  intros (Ht & Hw & H1 & Hc & Hh & H0) <- Hf.
  assert (Hsame : forall d, holds (upd_call (p_call s) c CIdle d) = holds (p_call s d)).
  { intros d. unfold upd_call. by destruct (Z.eqb_spec d c) as [->|]. }
  unfold pinv. cbn. split_and!; try done.
  - intros d. unfold upd_call. destruct (d =? c); [done|apply (Hw d)].
  - intros d e. rewrite !Hsame. apply H1.
  - intros d. rewrite Hsame. apply Hc.
  - intros Hk. destruct (H0 Hk) as [? Hn]. split; [done|]. intros d. rewrite Hsame. apply Hn.
Qed.

(** The target moves between positions at which it does not hold the ticket. *)
Lemma pinv_move s st tg :
  pinv s -> handed s = false -> p_state s <> SBI_HSM_STATE_START_PENDING ->
  let s' := mkP st (p_ticket s) (p_arg1 s) (p_addr s) (p_mode s) tg (p_call s) (p_won s) in
  tgt_ok s' -> handed s' = false -> pinv s'.
Proof.
  intros (Ht & Hw & H1 & Hc & Hh & H0) Hn Hst s' Ht' Hn'. unfold pinv. split_and!; try done.
  - intros c. specialize (Hw c). cbn. destruct (p_call s c); try done. by destruct Hw.
  - intros c Hc'. split; [done|]. by apply (Hc c).
  - congruence.
  - intros Hk. destruct (H0 Hk) as [_ ?]. done.
Qed.

(** While the target holds the ticket no caller does. *)
Lemma pinv_handed s :
  pinv s -> handed s = true ->
  (forall c, holds (p_call s c) = false) /\ p_ticket s = 1 /\
  p_won s = Some (mkArgs (p_arg1 s) (p_addr s) (p_mode s)).
Proof.
  intros (_ & _ & _ & Hc & Hh & _) Hd. split; [|by apply Hh].
  intros c. apply not_true_iff_false. intros H. destruct (Hc c H). congruence.
Qed.

Lemma pinv_holder s c :
  pinv s -> holds (p_call s c) = true ->
  only (p_call s) c /\ handed s = false /\ p_ticket s = 1 /\ written s (p_call s c) /\ tgt_ok s.
Proof.
  intros (Ht & Hw & H1 & Hc & _) Hh. destruct (Hc c Hh).
  split; [by apply holder_only|]. done.
Qed.

(** The target's part does not mention the written fields unless it reads. *)
Lemma tgt_ok_fields s t x y z tg f w t' x' y' z' f' :
  handed (mkP s t x y z tg f w) = false -> tgt_ok (mkP s t x y z tg f w) ->
  tgt_ok (mkP s t' x' y' z' tg f' w).
Proof. by destruct tg. Qed.

Lemma pstep_inv s s' : pstep false false s s' -> pinv s -> pinv s'.
Proof.
  intros Hstep Hinv.
  destruct Hstep as
    [c a s t x y z tg f w Hf -> Hm|c a s t x y z tg f w Hf|c a s t x y z tg f w Hf
    |c a s t x y z tg f w Hf|c a s t x y z tg f w Hf ->|c a s t x y z tg f w Hf ->
    |c a s t x y z tg f w Hf ->|c a s t x y z tg f w Hf Hs|c a s t x y z tg f w Hf Hs
    |c s t x y z tg f w Hf|c a s t x y z tg f w Hf
    |s t x y z f w -> Hwk|s t x y z f w ->|s t x y z f w Hs|s t x y z f w|s t x y z f w b
    |s t x y z f w b c|s t x y z f w a|s t x y z f w a ->|s t x y z f w ->
    |? ? ? ? ? ? ? ? ? ?|s t x y z f w a b|s t x y z f w a b|s t x y z f w a b ?
    |s t x y z f w a b ?|s t x y z f w a b ?|s t x y z f w ?]; try done;
    try (by destruct (proj1 Hinv)).
  - destruct Hinv as (Ht & _ & _ & _ & _ & H0). destruct (H0 eq_refl) as [Hn Hfree].
    apply (pinv_caller _ c (CTicket a) f); try done. by intros d _.
  - destruct (pinv_holder _ c Hinv) as (Ho & Hn & Hk & Hw & Ht); [cbn; by rewrite Hf|].
    apply (pinv_caller _ c (CArg1 a) f); try done. by eapply tgt_ok_fields.
  - destruct (pinv_holder _ c Hinv) as (Ho & Hn & Hk & Hw & Ht); [cbn; by rewrite Hf|].
    cbn in Hw. rewrite Hf in Hw.
    apply (pinv_caller _ c (CAddr a) f); try done. by eapply tgt_ok_fields.
  - destruct (pinv_holder _ c Hinv) as (Ho & Hn & Hk & Hw & Ht); [cbn; by rewrite Hf|].
    cbn in Hw. rewrite Hf in Hw.
    apply (pinv_caller _ c (CMode a) f); try done. cbn in Hw |- *. tauto.
  - destruct (pinv_holder _ c Hinv) as (Ho & Hn & Hk & Hw & Ht); [cbn; by rewrite Hf|].
    cbn in Hw, Hk. rewrite Hf in Hw. cbn in Hw. destruct Hw as (-> & -> & ->).
    assert (tg = TWait) as -> by (destruct tg; cbn in Ht; naive_solver).
    apply pinv_target; try done; [by apply only_free|by right|by destruct a].
  - destruct (pinv_holder _ c Hinv) as (Ho & Hn & Hk & Hw & Ht); [cbn; by rewrite Hf|].
    assert (tg = TWait) as -> by (destruct tg; cbn in Ht; naive_solver).
    apply (pinv_caller _ c (CFailing a) f); try done. by right.
  - destruct (pinv_holder _ c Hinv) as (Ho & Hn & Hk & Hw & Ht); [cbn; by rewrite Hf|].
    cbn in Hw. rewrite Hf in Hw. destruct Hw as [_ Hw]. cbn in Hw. subst w.
    assert (tg = TWait) as -> by (destruct tg; cbn in Ht; naive_solver eauto using is_Some_None).
    apply (pinv_caller _ c CRefused f); try done. by left.
  - destruct (pinv_holder _ c Hinv) as (_ & _ & _ & Hw & _); [cbn; by rewrite Hf|].
    cbn in Hw. rewrite Hf in Hw. by destruct Hw.
  - destruct (pinv_holder _ c Hinv) as (Ho & Hn & Hk & Hw & Ht); [cbn; by rewrite Hf|].
    apply (pinv_caller _ c CRefused f); try done.
  - destruct (pinv_holder _ c Hinv) as (Ho & Hn & Hk & Hw & Ht); [cbn; by rewrite Hf|].
    apply pinv_free; try done. by apply only_free.
  - apply (pinv_sent _ f c Hinv eq_refl). by rewrite Hf.
  - destruct Hwk as [|[a ->]]; [done|].
    destruct (pinv_handed _ Hinv) as (Hfr & Hk & Hw); [done|]. by apply pinv_target.
  - destruct (proj1 Hinv) as [_ [a Hwa]]. cbn in Hwa. subst w. destruct (pinv_handed _ Hinv) as (Hfr & Hk & Hw); [done|].
    by apply pinv_target.
  - destruct (pinv_handed _ Hinv) as (Hfr & Hk & Hw); [done|]. apply pinv_target; try done.
    split; [exact (proj1 Hinv)|done].
  - destruct (pinv_handed _ Hinv) as (Hfr & Hk & Hw); [done|]. apply pinv_target; try done.
    destruct Hinv as ((? & ?) & _). done.
  - destruct (pinv_handed _ Hinv) as (Hfr & Hk & Hw); [done|]. apply pinv_target; try done.
    destruct Hinv as ((? & -> & ->) & _). done.
  - destruct (pinv_handed _ Hinv) as (Hfr & Hk & Hw); [done|]. by apply pinv_free; [|apply Hinv|..].
  - apply (pinv_move _ SBI_HSM_STATE_STOP_PENDING TStopping Hinv); done.
  - apply (pinv_move _ SBI_HSM_STATE_STOPPED TWait Hinv); try done. by left.
Qed.

Lemma pinit_inv x y z : pinv (pinit x y z).
Proof. apply pinv_free; try done. by left. Qed.

Lemma reachable_inv s : reachable false false s -> pinv s.
Proof.
  intros (x & y & z & Hr). remember (pinit x y z) as s0 eqn:E.
  assert (Hi : pinv s0) by (subst; apply pinit_inv). clear E.
  induction Hr as [|s0 s1 s2 Hs _ IH]; [done|]. apply IH. by eapply pstep_inv.
Qed.

(** C24: when no hart suspends, and no target sees the START_PENDING of a request whose
    launch fails, the ticket protocol is safe under every interleaving of any number of
    concurrent start requests, with the rollback of those whose launch fails, with the
    target's life: at most one request at a time is between acquiring and releasing the
    ticket, none is while the target reads its next stage, the target never
    hangs in the start path, and the target always enters the supervisor with
    exactly the address, mode and argument of the one request whose cmpxchg
    started it.  (Both conditions are needed: [suspend_breaks_start_protocol],
    [rollback_hangs_target].) *)
Theorem start_ticket_protocol_safe s :
  reachable false false s ->
  (forall c d, holds (p_call s c) = true -> holds (p_call s d) = true -> c = d) /\
  (forall c, holds (p_call s c) = true -> handed s = false) /\
  p_tgt s <> THang /\
  (forall a, p_tgt s = TRun a -> p_won s = Some a).
Proof.
  intros (Ht & _ & H1 & Hc & _)%reachable_inv. split; [done|].
  split; [intros c Hh; by apply (Hc c)|]. unfold tgt_ok in Ht. split.
  - intros E. by rewrite E in Ht.
  - intros a E. rewrite E in Ht. by destruct Ht.
Qed.

(** The six steps of a start request that nothing interferes with. *)
Lemma request_run susp wake c a s x y z tg f w :
  s = SBI_HSM_STATE_STOPPED -> f c = CIdle -> a_mode a = PRV_S \/ a_mode a = PRV_U ->
  exists f', rtc (pstep susp wake) (mkP s 0 x y z tg f w)
    (mkP SBI_HSM_STATE_START_PENDING 1 (a_arg1 a) (a_addr a) (a_mode a) tg f' (Some a)) /\
    (forall d, f' d = f d).
Proof.
  intros -> Hf Hm. exists (upd_call (upd_call (upd_call (upd_call (upd_call (upd_call f c (CTicket a))
    c (CArg1 a)) c (CAddr a)) c (CMode a)) c (CPending a)) c CIdle).
  assert (Hu : forall f v, upd_call f c v c = v) by (intros; unfold upd_call; by rewrite Z.eqb_refl).
  split.
  - eapply rtc_l; [by apply (c_ticket _ _ c a)|].
    eapply rtc_l; [apply (c_arg1 _ _ c a), Hu|].
    eapply rtc_l; [apply (c_addr _ _ c a), Hu|].
    eapply rtc_l; [apply (c_mode _ _ c a), Hu|].
    eapply rtc_l; [by apply (c_cas_ok _ _ c a)|].
    eapply rtc_l; [apply (c_sent _ _ c a), Hu|]. apply rtc_refl.
  - intros d. unfold upd_call. by destruct (Z.eqb_spec d c) as [->|].
Qed.

(** The target's way from the wait loop into the supervisor. *)
Lemma entry_run susp wake t x y z f w :
  wake = true \/ is_Some w ->
  rtc (pstep susp wake) (mkP SBI_HSM_STATE_START_PENDING t x y z TWait f w)
                   (mkP SBI_HSM_STATE_STARTED 0 x y z (TRun (mkArgs x y z)) f w).
Proof.
  intros Hw. eapply rtc_l; [by apply t_see|]. eapply rtc_l; [by apply t_cas_ok|].
  eapply rtc_l; [apply t_arg1|]. eapply rtc_l; [apply t_addr|].
  eapply rtc_l; [apply t_mode|]. eapply rtc_l; [apply t_release|]. apply rtc_refl.
Qed.

Lemma start_ticket_protocol_safe_witness :
  exists s, reachable false false s /\ p_tgt s = TRun (mkArgs 1 2 PRV_S) /\
            p_won s = Some (mkArgs 1 2 PRV_S).
Proof.
  destruct (request_run false false 0 (mkArgs 1 2 PRV_S) SBI_HSM_STATE_STOPPED 0 0 0 TWait
              (fun _ => CIdle) None eq_refl eq_refl (or_introl eq_refl)) as (f' & Hr & _).
  exists (mkP SBI_HSM_STATE_STARTED 0 1 2 PRV_S (TRun (mkArgs 1 2 PRV_S)) f' (Some (mkArgs 1 2 PRV_S))).
  assert (Hreach : reachable false false (mkP SBI_HSM_STATE_STARTED 0 1 2 PRV_S (TRun (mkArgs 1 2 PRV_S)) f'
                                      (Some (mkArgs 1 2 PRV_S)))).
  { exists 0, 0, 0. etrans; [exact Hr|]. apply entry_run. right. by eexists. }
  split; [exact Hreach|]. split; [reflexivity|].
  apply (start_ticket_protocol_safe _ Hreach). reflexivity.
Defined.

(** With suspension in play the protocol is not safe: a hart that suspends
    writes the next-stage fields without the ticket, so a start request that
    has written its arguments can find them replaced when, after the target's
    resume and stop, its cmpxchg succeeds, and the target enters the supervisor
    at an address no start request asked for. *)
Lemma suspend_breaks_start_protocol a b :
  (a_mode a = PRV_S \/ a_mode a = PRV_U) ->
  exists s, reachable true false s /\ p_won s = Some a /\ p_tgt s = TRun b.
Proof.
  intros Hm. destruct a as [a1 a2 a3], b as [b1 b2 b3]. set (a := mkArgs a1 a2 a3) in *.
  set (b := mkArgs b1 b2 b3).
  assert (Hu : forall f c v, upd_call f c v c = v) by (intros; unfold upd_call; by rewrite Z.eqb_refl).
  destruct (request_run true false 0 a SBI_HSM_STATE_STOPPED 0 0 0 TWait
              (fun _ => CIdle) None eq_refl eq_refl Hm) as (f & Hr & Hf).
  exists (mkP SBI_HSM_STATE_STARTED 0 b1 b2 b3 (TRun b)
    (upd_call (upd_call (upd_call (upd_call (upd_call f 1 (CTicket a)) 1 (CArg1 a)) 1 (CAddr a))
       1 (CMode a)) 1 (CPending a)) (Some a)).
  split; [|split; reflexivity].
  - exists 0, 0, 0. etrans; [exact Hr|].
    etrans; [apply entry_run; right; by eexists|].
    (* hart 1 takes the ticket and writes its arguments *)
    eapply rtc_l; [apply (c_ticket _ _ 1 a); [by rewrite Hf|done|done]|].
    eapply rtc_l; [apply (c_arg1 _ _ 1 a), Hu|].
    eapply rtc_l; [apply (c_addr _ _ 1 a), Hu|].
    eapply rtc_l; [apply (c_mode _ _ 1 a), Hu|].
    (* the target suspends, returns from the suspend and stops *)
    eapply rtc_l; [by apply (t_susp1 _ _ _ _ _ _ _ _ _ _ b)|].
    eapply rtc_l; [apply t_susp2|]. eapply rtc_l; [apply t_susp3|].
    eapply rtc_l; [by apply t_susp_ok|]. eapply rtc_l; [by apply t_susp_ret|].
    eapply rtc_l; [by apply t_stop|]. eapply rtc_l; [by apply t_exit|].
    (* hart 1 starts it *)
    eapply rtc_l; [by apply (c_cas_ok _ _ 1 a); [apply Hu|]|].
    apply entry_run. right. by eexists.
Qed.

Lemma suspend_breaks_start_protocol_witness :
  exists s, reachable true false s /\ p_won s = Some (mkArgs 1 2 PRV_S) /\ p_tgt s = TRun (mkArgs 8 9 PRV_S).
Proof.
  apply (suspend_breaks_start_protocol (mkArgs 1 2 PRV_S) (mkArgs 8 9 PRV_S)). by left.
Defined.

(** ** The functions of [SbiHsm] are runs of the protocol *)

(** The shared words of a hart, with the positions of the harts. *)
Definition proj (h : hart) (tg : tpc) (f : Z -> cpc) (w : option args) : proto :=
  mkP (hstate h) (ticket h) (h_arg1 h) (h_addr h) (h_mode h) tg f w.

(** A request that is refused after it took the ticket. *)
Lemma refused_run susp wake c a s x y z tg f w :
  s <> SBI_HSM_STATE_STOPPED -> f c = CIdle -> a_mode a = PRV_S \/ a_mode a = PRV_U ->
  exists f', rtc (pstep susp wake) (mkP s 0 x y z tg f w)
    (mkP s 0 (a_arg1 a) (a_addr a) (a_mode a) tg f' w) /\ (forall d, f' d = f d).
Proof.
  intros Hs Hf Hm. exists (upd_call (upd_call (upd_call (upd_call (upd_call (upd_call f c (CTicket a))
    c (CArg1 a)) c (CAddr a)) c (CMode a)) c CRefused) c CIdle).
  assert (Hu : forall f v, upd_call f c v c = v) by (intros; unfold upd_call; by rewrite Z.eqb_refl).
  split.
  - eapply rtc_l; [by apply (c_ticket _ _ c a)|].
    eapply rtc_l; [apply (c_arg1 _ _ c a), Hu|].
    eapply rtc_l; [apply (c_addr _ _ c a), Hu|].
    eapply rtc_l; [apply (c_mode _ _ c a), Hu|].
    eapply rtc_l; [by apply (c_cas_fail _ _ c a)|].
    eapply rtc_l; [apply (c_release _ _ c), Hu|]. apply rtc_refl.
  - intros d. unfold upd_call. by destruct (Z.eqb_spec d c) as [->|].
Qed.

(** A request whose launch fails, and that nothing interferes with. *)
Lemma rollback_run susp wake c a s x y z tg f w :
  s = SBI_HSM_STATE_STOPPED -> f c = CIdle -> a_mode a = PRV_S \/ a_mode a = PRV_U ->
  exists f', rtc (pstep susp wake) (mkP s 0 x y z tg f w)
    (mkP SBI_HSM_STATE_STOPPED 0 (a_arg1 a) (a_addr a) (a_mode a) tg f' None) /\ (forall d, f' d = f d).
Proof.
  intros -> Hf Hm. exists (upd_call (upd_call (upd_call (upd_call (upd_call (upd_call (upd_call f c (CTicket a))
    c (CArg1 a)) c (CAddr a)) c (CMode a)) c (CFailing a)) c CRefused) c CIdle).
  assert (Hu : forall f v, upd_call f c v c = v) by (intros; unfold upd_call; by rewrite Z.eqb_refl).
  split.
  - eapply rtc_l; [by apply (c_ticket _ _ c a)|].
    eapply rtc_l; [apply (c_arg1 _ _ c a), Hu|].
    eapply rtc_l; [apply (c_addr _ _ c a), Hu|].
    eapply rtc_l; [apply (c_mode _ _ c a), Hu|].
    eapply rtc_l; [by apply (c_cas_doomed _ _ c a)|].
    eapply rtc_l; [apply (c_rollback _ _ c a); [apply Hu|done]|].
    eapply rtc_l; [apply (c_release _ _ c), Hu|]. apply rtc_refl.
  - intros d. unfold upd_call. by destruct (Z.eqb_spec d c) as [->|].
Qed.

(** A target that sees the START_PENDING of a request whose launch fails hangs when
    the request takes the state back before the target's own cmpxchg. *)
Lemma rollback_hangs_target a :
  a_mode a = PRV_S \/ a_mode a = PRV_U -> exists s, reachable false true s /\ p_tgt s = THang.
Proof.
  intros Hm. assert (Hu : forall f c v, upd_call f c v c = v) by (intros; unfold upd_call; by rewrite Z.eqb_refl).
  eexists. split.
  - exists 0, 0, 0. unfold pinit.
    eapply rtc_l; [by apply (c_ticket _ _ 0 a)|].
    eapply rtc_l; [apply (c_arg1 _ _ 0 a), Hu|].
    eapply rtc_l; [apply (c_addr _ _ 0 a), Hu|].
    eapply rtc_l; [apply (c_mode _ _ 0 a), Hu|].
    eapply rtc_l; [by apply (c_cas_doomed _ _ 0 a)|].
    eapply rtc_l; [apply t_see; [done|by left]|].
    eapply rtc_l; [apply (c_rollback _ _ 0 a); [apply Hu|done]|].
    eapply rtc_l; [by apply t_cas_fail|]. apply rtc_refl.
  - reflexivity.
Qed.

Lemma rollback_hangs_target_witness : exists s, reachable false true s /\ p_tgt s = THang.
Proof. apply (rollback_hangs_target (mkArgs 1 2 PRV_S)). by left. Defined.

(** The functions of the hart state module, run in one piece, are runs of
    the interleaving model: a start request takes the target's words along the
    protocol's steps whatever the target is doing, rolling back when its launch fails, the
    start path of the target ends in the mode switch the model's target makes,
    and a stop with the exit that follows leads back to the wait loop. *)
Lemma hsm_functions_refine_protocol susp wake ic ec send ds w wb dom hartid saddr smode arg1 i h tg f won c :
  sbi_hartid_to_hartindex (scr ds) hartid = Some i -> w_harts w !! i = Some h ->
  f c = CIdle ->
  (exists rc w' h' f' won',
     sbi_hsm_hart_start ic ec send ds w wb dom hartid saddr smode arg1 = Some (rc, w') /\
     w_harts w' !! i = Some h' /\ (forall d, f' d = f d) /\
     rtc (pstep susp wake) (proj h tg f won) (proj h' tg f' won') /\
     (rc = 0 -> won' = Some (mkArgs arg1 saddr smode))) /\
  (hstate h = SBI_HSM_STATE_START_PENDING -> wake = true \/ is_Some won ->
     exists h', sbi_hsm_hart_start_finish hartid h
                = (OSwitch hartid (h_arg1 h) (h_addr h) (h_mode h), h') /\
       rtc (pstep susp wake) (proj h TWait f won)
         (proj h' (TRun (mkArgs (h_arg1 h) (h_addr h) (h_mode h))) f won)) /\
  (forall a wd, hstate h = SBI_HSM_STATE_STARTED -> dom <> 0 -> hsm_dev wd = None ->
     exists h1 h2, sbi_hsm_hart_stop dom true h = (OExit, h1) /\
       sbi_hsm_exit wd h1 = (OWarmboot (warmboot_addr h), h2) /\
       rtc (pstep susp wake) (proj h (TRun a) f won) (proj h2 TWait f won)).
Proof.
  intros Hi Hh Hf. split; [|split].
  - destruct (hart_start_cases ic ec send ds w wb dom hartid saddr smode arg1 i Hi)
      as [(_ & [E|E])|[(_ & Hn & _)|(Hok & h0 & Hh0 & H)]].
    1,2: rewrite E; eexists _, w, h, f, won; split; [done|]; by split_and!.
    { congruence. }
    assert (h0 = h) as -> by congruence. destruct Hok as [Hm _]. unfold proj.
    destruct H as [(_ & ->)|[(Ht & Hs & ->)|[(Ht & _ & Hs & ->)|(Ht & Hs & [(_ & ->)|(Hbad & ->)])]]].
    + eexists _, w, h, f, won. split; [done|]. by split_and!.
    + destruct (refused_run susp wake c (mkArgs arg1 saddr smode) (hstate h) (h_arg1 h) (h_addr h)
                  (h_mode h) tg f won) as (f' & Hr & Hf'); [by rewrite Hs|done|done|].
      eexists _, _, _, f', won. split; [done|]. split; [apply lookup_insert_eq|]. split; [done|].
      rewrite Ht. done.
    + destruct (refused_run susp wake c (mkArgs arg1 saddr smode) (hstate h) (h_arg1 h) (h_addr h)
                  (h_mode h) tg f won) as (f' & Hr & Hf'); [done..|].
      eexists _, _, _, f', won. split; [done|]. split; [apply lookup_insert_eq|]. split; [done|].
      rewrite Ht. done.
    + destruct (request_run susp wake c (mkArgs arg1 saddr smode) (hstate h) (h_arg1 h) (h_addr h)
                  (h_mode h) tg f won) as (f' & Hr & Hf'); [done..|].
      eexists _, _, _, f', _. split; [done|]. split; [apply lookup_insert_eq|]. split; [done|].
      rewrite Ht. split; [exact Hr|done].
    + destruct (rollback_run susp wake c (mkArgs arg1 saddr smode) (hstate h) (h_arg1 h) (h_addr h)
                  (h_mode h) tg f won) as (f' & Hr & Hf'); [done..|].
      eexists _, _, _, f', _. split; [done|]. split; [apply lookup_insert_eq|]. split; [done|].
      rewrite Ht. split; [exact Hr|done].
  - intros Hs Hw. unfold sbi_hsm_hart_start_finish.
    destruct (change_state_cases SBI_HSM_STATE_START_PENDING SBI_HSM_STATE_STARTED h)
      as [[_ ->]|[? _]]; [|done]. cbn [negb]. eexists. split; [done|].
    unfold proj. rewrite Hs. by apply entry_run.
  - intros a wd Hs Hd Hdev. unfold sbi_hsm_hart_stop, sbi_hsm_exit, hsm_device_has_hart_hotplug.
    rewrite (proj2 (Z.eqb_neq dom 0) Hd), Hdev.
    destruct (change_state_cases SBI_HSM_STATE_STARTED SBI_HSM_STATE_STOP_PENDING h)
      as [[_ ->]|[? _]]; [|done]. cbn [negb]. eexists _, _. split; [done|].
    destruct (change_state_cases SBI_HSM_STATE_STOP_PENDING SBI_HSM_STATE_STOPPED
                (set_state SBI_HSM_STATE_STOP_PENDING h)) as [[_ ->]|[? _]]; [|done].
    split; [done|]. unfold proj. rewrite Hs.
    eapply rtc_l; [by apply t_stop|]. eapply rtc_l; [by apply t_exit|]. apply rtc_refl.
Qed.

Lemma hsm_functions_refine_protocol_witness :
  exists rc w' h' f' won',
     sbi_hsm_hart_start (fun _ => 1) (fun _ => 1) (fun _ => 0) demo_domains
       (demo_world SBI_HSM_STATE_STOPPED) 0 4096 1 0x80400000 PRV_S 7 = Some (rc, w') /\
     w_harts w' !! 1 = Some h' /\ (forall d : Z, f' d = CIdle) /\
     rtc (pstep false false) (proj (demo_hart SBI_HSM_STATE_STOPPED) TWait (fun _ => CIdle) None)
       (proj h' TWait f' won') /\
     (rc = 0 -> won' = Some (mkArgs 7 0x80400000 PRV_S)).
Proof.
  apply (hsm_functions_refine_protocol false false (fun _ => 1) (fun _ => 1) (fun _ => 0) demo_domains
           (demo_world SBI_HSM_STATE_STOPPED) 0 4096 1 0x80400000 PRV_S 7 1
           (demo_hart SBI_HSM_STATE_STOPPED) TWait (fun _ => CIdle) None 0); reflexivity.
Defined.
