(* ===== verification/SbiIpi.v ===== *)
(** * Inter-processor interrupts ([sbi_ipi.c], [sbi_ipi.h])

    An event is a bit of the receiving hart's [ipi_type] word and a record of
    callbacks.  [ipi_state] holds the globals of [sbi_ipi.c], the word of each
    hart that has a scratch area, the calls made to the interrupt device and the
    firmware events counted; [M] is the state the callbacks work on and [D] the
    data they are given.  A callback that does not return is [None].  The
    functions run without interference from other harts. *)

From S2P Require Import Prelude SbiBitops SbiScratch SbiHartmask SbiMemregion SbiDomain SbiHsm.

Definition SBI_IPI_EVENT_MAX : Z := 64.
Definition SBI_IPI_UPDATE_SUCCESS : Z := 0.
Definition SBI_IPI_UPDATE_BREAK : Z := 1.
Definition SBI_IPI_UPDATE_RETRY : Z := 2.
Definition SBI_PMU_FW_IPI_SENT : Z := 6.
Definition SBI_PMU_FW_IPI_RECVD : Z := 7.

Section Ipi.
Context {M D : Type}.

(** Callbacks take the calling hart; a NULL callback is [None]. *)
Record sbi_ipi_event_ops := mkOps {
  ops_update : option (Z -> Z -> D -> M -> option (Z * M));
  ops_sync : option (Z -> M -> option M);
  ops_process : option (Z -> M -> option M)
}.

Record sbi_ipi_device := mkIpiDev { has_ipi_send : bool; has_ipi_clear : bool }.

Inductive dev_call : Type := DevSend (hartindex : Z) | DevClear (hartindex : Z).

Record ipi_state := mkIpi {
  ipi_ops_array : list (option sbi_ipi_event_ops);
  ipi_dev : option sbi_ipi_device;
  ipi_type : gmap Z Z;
  dev_calls : list dev_call;
  ipi_fw_events : list Z;
  machine : M
}.

Definition set_ops (a : list (option sbi_ipi_event_ops)) (st : ipi_state) : ipi_state :=
  mkIpi a (ipi_dev st) (ipi_type st) (dev_calls st) (ipi_fw_events st) (machine st).
Definition set_type (t : gmap Z Z) (st : ipi_state) : ipi_state :=
  mkIpi (ipi_ops_array st) (ipi_dev st) t (dev_calls st) (ipi_fw_events st) (machine st).
Definition call_dev (c : dev_call) (st : ipi_state) : ipi_state :=
  mkIpi (ipi_ops_array st) (ipi_dev st) (ipi_type st) (dev_calls st ++ [c]) (ipi_fw_events st) (machine st).
Definition ipi_count_fw (ev : Z) (st : ipi_state) : ipi_state :=
  mkIpi (ipi_ops_array st) (ipi_dev st) (ipi_type st) (dev_calls st) (ipi_fw_events st ++ [ev]) (machine st).
Definition set_machine (m : M) (st : ipi_state) : ipi_state :=
  mkIpi (ipi_ops_array st) (ipi_dev st) (ipi_type st) (dev_calls st) (ipi_fw_events st) m.

(** ** The device *)

Definition sbi_ipi_raw_send (hartindex : Z) (st : ipi_state) : Z * ipi_state :=
  match ipi_dev st with
  | Some dev => if has_ipi_send dev then (0, call_dev (DevSend hartindex) st) else (SBI_EINVAL, st)
  | None => (SBI_EINVAL, st)
  end.

Definition sbi_ipi_raw_clear (self : Z) (st : ipi_state) : ipi_state :=
  match ipi_dev st with
  | Some dev => if has_ipi_clear dev then call_dev (DevClear self) st else st
  | None => st
  end.

Definition sbi_ipi_get_device (st : ipi_state) : option sbi_ipi_device := ipi_dev st.

Definition sbi_ipi_set_device (dev : option sbi_ipi_device) (st : ipi_state) : ipi_state :=
  match dev, ipi_dev st with
  | Some _, None => mkIpi (ipi_ops_array st) dev (ipi_type st) (dev_calls st) (ipi_fw_events st) (machine st)
  | _, _ => st
  end.

(** ** Events *)

(** [ipi_ops_array[event]], after the bounds check the callers make. *)
Definition event_ops (st : ipi_state) (event : Z) : option sbi_ipi_event_ops :=
  if SBI_IPI_EVENT_MAX <=? event then None else mjoin (ipi_ops_array st !! Z.to_nat event).

Fixpoint free_slot (a : list (option sbi_ipi_event_ops)) (i : nat) : option nat :=
  match a with
  | [] => None
  | None :: _ => Some i
  | Some _ :: a' => free_slot a' (S i)
  end.

Definition sbi_ipi_event_create (ops : option sbi_ipi_event_ops) (st : ipi_state)
    : Z * ipi_state :=
  match ops with
  | Some o =>
      match ops_process o with
      | Some _ =>
          match free_slot (ipi_ops_array st) 0 with
          | Some i => (Z.of_nat i, set_ops (<[i := Some o]> (ipi_ops_array st)) st)
          | None => (SBI_ENOSPC, st)
          end
      | None => (SBI_EINVAL, st)
      end
  | None => (SBI_EINVAL, st)
  end.

Definition sbi_ipi_event_destroy (event : Z) (st : ipi_state) : ipi_state :=
  if SBI_IPI_EVENT_MAX <=? event then st
  else set_ops (<[Z.to_nat event := None]> (ipi_ops_array st)) st.

(** ** Sending *)

(** Set the event's bit at the remote hart, and raise its interrupt if no bit
    was set. *)
Definition ipi_raise (remote event : Z) (word : Z) (st : ipi_state) : Z * ipi_state :=
  let st := set_type (<[remote := Z.lor word (BIT event)]> (ipi_type st)) st in
  let '(ret, st) := if word =? 0 then sbi_ipi_raw_send remote st else (0, st) in
  (ret, ipi_count_fw SBI_PMU_FW_IPI_SENT st).

Definition sbi_ipi_send (self remote event : Z) (data : D) (st : ipi_state)
    : option (Z * ipi_state) :=
  match event_ops st event with
  | None => Some (SBI_EINVAL, st)
  | Some ops =>
      match ipi_type st !! remote with
      | None => Some (SBI_EINVAL, st)
      | Some word =>
          match ops_update ops with
          | Some update =>
              '(ret, m) ← update self remote data (machine st);
              let st := set_machine m st in
              if ret =? SBI_IPI_UPDATE_SUCCESS then Some (ipi_raise remote event word st)
              else Some (ret, st)
          | None =>
              if self =? remote then
                process ← ops_process ops;
                m ← process self (machine st);
                Some (0, set_machine m st)
              else Some (ipi_raise remote event word st)
          end
      end
  end.

Definition sbi_ipi_sync (self event : Z) (st : ipi_state) : option (Z * ipi_state) :=
  match event_ops st event with
  | None => Some (SBI_EINVAL, st)
  | Some ops =>
      match ops_sync ops with
      | Some sync => m ← sync self (machine st); Some (0, set_machine m st)
      | None => Some (0, st)
      end
  end.

(** One pass over the targets, which clears the harts that are done; a negative
    code leaves the function's loops. *)
Fixpoint send_pass (fuel : nat) (self event : Z) (data : D) (i : Z) (mask : sbi_hartmask)
    (retry : bool) (st : ipi_state) : option (Z * sbi_hartmask * bool * ipi_state) :=
  match fuel with
  | O => None
  | S fuel' =>
      if i <? SBI_HARTMASK_MAX_BITS then
        '(rc, st) ← sbi_ipi_send self i event data st;
        if rc <? 0 then Some (rc, mask, retry, st)
        else
          let '(mask, retry) :=
            if rc =? SBI_IPI_UPDATE_RETRY then (mask, true)
            else (sbi_hartmask_clear_hartindex i mask, retry) in
          i' ← find_next_bit (bits mask) SBI_HARTMASK_MAX_BITS (i + 1);
          send_pass fuel' self event data i' mask retry st
      else Some (0, mask, retry, st)
  end.

(** [do { ... } while (retry_needed)]. *)
Fixpoint send_loop (fuel : nat) (self event : Z) (data : D) (mask : sbi_hartmask)
    (st : ipi_state) : option (Z * ipi_state) :=
  match fuel with
  | O => None
  | S fuel' =>
      i ← find_first_bit (bits mask) SBI_HARTMASK_MAX_BITS;
      '(rc, mask, retry, st) ← send_pass 129 self event data i mask false st;
      if rc <? 0 then Some (rc, st)
      else if retry : bool then send_loop fuel' self event data mask st
      else Some (rc, st)
  end.

(** [for (i = hbase; hmask; i++, hmask >>= 1)]: [hmask] has 64 bits. *)
Fixpoint hmask_loop (n : nat) (scr : scratch_state) (i hmask : Z) (tmp : sbi_hartmask)
    : option sbi_hartmask :=
  match n with
  | O => Some tmp
  | S n' =>
      if hmask =? 0 then Some tmp
      else
        tmp ← (if Z.land hmask 1 =? 0 then Some tmp else sbi_hartmask_set_hartid scr (u32 i) tmp);
        hmask_loop n' scr (u64 (i + 1)) (Z.shiftr hmask 1) tmp
  end.

(** [fuel] bounds the number of passes; [target] is the uninitialised mask. *)
Definition sbi_ipi_send_many (fuel : nat) (ds : domain_state) (hw : hsm_world) (dom self : Z)
    (target : sbi_hartmask) (hmask hbase event : Z) (data : D) (st : ipi_state)
    : option (Z * ipi_state) :=
  '(rc, target) ← sbi_hsm_hart_interruptible_mask ds hw dom target;
  if negb (rc =? 0) then Some (rc, st)
  else
    target ← (if hbase =? ULONG_MAX then Some target
              else tmp ← hmask_loop 64 (scr ds) hbase hmask (mkMask [0; 0]);
                   Some (sbi_hartmask_and target target tmp));
    '(rc, st) ← send_loop fuel self event data target st;
    '(_, st) ← sbi_ipi_sync self event st;
    Some (rc, st).

(** ** Receiving *)

Fixpoint process_loop (n : nat) (self ipi_type : Z) (ipi_event : Z) (st : ipi_state)
    : option ipi_state :=
  match n with
  | O => Some st
  | S n' =>
      if ipi_type =? 0 then Some st
      else
        st ← (if Z.land ipi_type 1 =? 0 then Some st
              else match event_ops st ipi_event with
                   | Some ops =>
                       process ← ops_process ops;
                       m ← process self (machine st);
                       Some (set_machine m st)
                   | None => Some st
                   end);
        process_loop n' self (Z.shiftr ipi_type 1) (ipi_event + 1) st
  end.

Definition sbi_ipi_process (self : Z) (st : ipi_state) : option ipi_state :=
  let st := sbi_ipi_raw_clear self (ipi_count_fw SBI_PMU_FW_IPI_RECVD st) in
  word ← ipi_type st !! self;
  process_loop 64 self word 0 (set_type (<[self := 0]> (ipi_type st)) st).

(** ** The set of targets *)

Lemma wrap_32_64 a b : u32 (u64 a + b) = u32 (a + b).
Proof.
  unfold wrap. rewrite (Z.add_mod (a mod 2 ^ 64)), (Z.add_mod a) by lia. do 2 f_equal.
  change (2 ^ 64) with (2 ^ 32 * 2 ^ 32). rewrite Z.rem_mul_r by lia.
  rewrite (Z.mul_comm (2 ^ 32)), Z.add_mod, Z.mod_mul, Z.add_0_r, !Z.mod_mod by lia. done.
Qed.

Lemma land_1_bit w : (Z.land w 1 =? 0) = negb (Z.testbit w 0).
Proof.
  change 1 with (Z.ones 1). rewrite Z.land_ones by lia. rewrite Z.bit0_odd, Zodd_mod. change (2 ^ 1) with 2.
  pose proof (Z.mod_pos_bound w 2). zcases; cbn; try lia; rewrite ?Zeq_is_eq_bool; zcases; lia || done.
Qed.

Lemma hartid_index_total scr h :
  scratch_wf scr -> exists i, sbi_hartid_to_hartindex scr h = Some i /\ 0 <= i.
Proof.
  intros ((Hl0 & Hl) & Ht & _). unfold sbi_hartid_to_hartindex.
  unfold SBI_HARTMASK_MAX_BITS in Hl.
  destruct (hartid_loop_spec (Z.to_nat (last_hartindex_having_scratch scr + 1))
    (hartindex_to_hartid_table scr) 0 h) as (r & Hr & Hc); [lia|lia|].
  exists r. split; [done|]. destruct Hc as [(? & _)|(-> & _)]; unfold NEG1U; lia.
Qed.

(** The harts [hmask] and [hbase] name. *)
Definition named (scr : scratch_state) (n hbase hmask j : Z) : Prop :=
  exists k, 0 <= k < n /\ Z.testbit hmask k = true /\
    sbi_hartid_to_hartindex scr (u32 (hbase + k)) = Some j.

Lemma named_step scr n hbase hmask j :
  0 <= n -> named scr (n + 1) hbase hmask j <->
  (Z.testbit hmask 0 = true /\ sbi_hartid_to_hartindex scr (u32 hbase) = Some j) \/
  named scr n (u64 (hbase + 1)) (Z.shiftr hmask 1) j.
Proof.
  intros Hn. split.
  - intros (k & Hk & Hb & Hi). destruct (Z.eq_dec k 0) as [->|Hne].
    + left. by rewrite Z.add_0_r in Hi.
    + right. exists (k - 1). split; [lia|]. rewrite shiftr_bits, wrap_32_64 by lia.
      replace (k - 1 + 1) with k by lia. by replace (hbase + 1 + (k - 1)) with (hbase + k) by lia.
  - intros [[Hb Hi]|(k & Hk & Hb & Hi)].
    + exists 0. rewrite Z.add_0_r. split; [lia|done].
    + exists (k + 1). split; [lia|]. rewrite shiftr_bits in Hb by lia. rewrite wrap_32_64 in Hi.
      by replace (hbase + (k + 1)) with (hbase + 1 + k) by lia.
Qed.

Lemma hmask_loop_spec n scr i hmask tmp :
  scratch_wf scr -> mask_ok tmp -> 0 <= hmask < 2 ^ Z.of_nat n ->
  exists tmp', hmask_loop n scr i hmask tmp = Some tmp' /\ mask_ok tmp' /\
    forall j, 0 <= j < 128 ->
      mask_has tmp' j = true <-> mask_has tmp j = true \/ named scr (Z.of_nat n) i hmask j.
Proof.
  intros Hw. revert i hmask tmp. induction n as [|n IH]; intros i hmask tmp Hm Hh; cbn [hmask_loop].
  { exists tmp. split_and!; [done..|]. intros j Hj. split; [by left|]. intros [|(k & ? & _)]; [done|lia]. }
  destruct (Z.eqb_spec hmask 0) as [->|Hne].
  { exists tmp. split_and!; [done..|]. intros j Hj. split; [by left|].
    intros [|(k & _ & Hb & _)]; [done|]. by rewrite Z.testbit_0_l in Hb. }
  assert (exists tmp1, (if Z.land hmask 1 =? 0 then Some tmp else sbi_hartmask_set_hartid scr (u32 i) tmp) = Some tmp1 /\
    mask_ok tmp1 /\ forall j, 0 <= j < 128 -> mask_has tmp1 j = true <-> mask_has tmp j = true \/
      (Z.testbit hmask 0 = true /\ sbi_hartid_to_hartindex scr (u32 i) = Some j)) as (tmp1 & -> & Hm1 & H1).
  { rewrite land_1_bit. destruct (Z.testbit hmask 0); cbn [negb].
    - destruct (hartid_index_total scr (u32 i) Hw) as (x & Hx & Hx0). unfold sbi_hartmask_set_hartid.
      rewrite Hx, some_bind. eexists. split_and!; [done|auto with sbi|]. intros j Hj.
      rewrite mask_has_set, orb_true_iff, Z.eqb_eq by done. naive_solver.
    - exists tmp. split_and!; try done. naive_solver. }
  rewrite some_bind. destruct (IH (u64 (i + 1)) (Z.shiftr hmask 1) tmp1 Hm1) as (tmp' & E & Hm' & H').
  { rewrite Nat2Z.inj_succ, Z.pow_succ_r in Hh by lia. rewrite Z.shiftr_div_pow2 by lia.
    change (2 ^ 1) with 2. split; [apply Z.div_pos; lia|apply Z.div_lt_upper_bound; lia]. }
  exists tmp'. split_and!; try done. intros j Hj. rewrite H', H1 by done.
  rewrite Nat2Z.inj_succ, <- Z.add_1_r, named_step by lia. tauto.
Qed.

(** ** Sending to each target *)

Lemma members_ext m1 m2 k :
  0 <= k -> (forall j, k <= j < 128 -> bit_at (bits m1) j = bit_at (bits m2) j) ->
  members_from m1 k = members_from m2 k.
Proof.
  intros Hk Heq. unfold members_from. induction (seqZ k _) as [|x l IH] eqn:El in k, Hk, Heq |- *; [done|].
  destruct (Z.leb_spec (SBI_HARTMASK_MAX_BITS - k) 0) as [Hz|Hz];
    [by rewrite seqZ_nil in El|]. rewrite seqZ_cons in El by lia. injection El as <- El.
  rewrite !filter_cons. unfold SBI_HARTMASK_MAX_BITS in *.
  rewrite (IH (k + 1)); [|lia|intros; apply Heq; lia|].
  - assert (mask_has m1 k = mask_has m2 k) by (unfold mask_has; rewrite (Heq k) by lia; done).
    repeat case_decide; done || congruence.
  - rewrite <- El. f_equal; lia.
Qed.

(** The sends of a pass in which no hart has to be retried and none fails. *)
Fixpoint send_each (self event : Z) (data : D) (rs : list Z) (st : ipi_state) : option ipi_state :=
  match rs with
  | [] => Some st
  | r :: rs' =>
      '(rc, st) ← sbi_ipi_send self r event data st;
      if (rc <? 0) || (rc =? SBI_IPI_UPDATE_RETRY) then None else send_each self event data rs' st
  end.

Lemma send_pass_each fuel self event data i m retry st st' :
  mask_ok m -> 0 <= i <= 128 -> (i < 128 -> bit_at (bits m) i = true) -> 129 - i <= Z.of_nat fuel ->
  send_each self event data (members_from m i) st = Some st' ->
  exists m', send_pass fuel self event data i m retry st = Some (0, m', retry, st').
Proof.
  revert i m st. induction fuel as [|fuel IH]; intros i m st Hm Hi Hb Hf He; [lia|].
  cbn [send_pass]. unfold SBI_HARTMASK_MAX_BITS at 1. destruct (Z.ltb_spec i 128) as [Hlt|Hge].
  2:{ unfold members_from in He. rewrite seqZ_nil in He by (unfold SBI_HARTMASK_MAX_BITS; lia).
      injection He as <-. by exists m. }
  rewrite members_cons in He by lia. unfold mask_has at 1, SBI_HARTMASK_MAX_BITS in He.
  rewrite mask_index_range, (Hb Hlt) in He by lia. cbn [andb app send_each] in He.
  destruct (sbi_ipi_send self i event data st) as [[rc st1]|]; [|done].
  rewrite some_bind in He. rewrite some_bind.
  destruct (rc <? 0); [discriminate He|]. destruct (rc =? SBI_IPI_UPDATE_RETRY); [discriminate He|].
  cbn [orb] in He. set (m1 := sbi_hartmask_clear_hartindex i m).
  assert (Hm1 : mask_ok m1) by (subst m1; auto with sbi).
  assert (Hb1 : forall j, i + 1 <= j < 128 -> bit_at (bits m1) j = bit_at (bits m) j)
    by (intros j Hj; apply (mask_next_clear m i j (i + 1)); lia || done).
  destruct (mask_next m1 (i + 1) Hm1 ltac:(lia)) as (k & -> & Hk & Hno & Hyes). rewrite some_bind.
  apply (IH k m1 st1); [done|lia|done|lia|].
  rewrite <- (members_skip m1 (i + 1) k) by (lia || done). rewrite (members_ext m1 m) by (lia || done). done.
Qed.

Lemma send_loop_each fuel self event data m st st' :
  mask_ok m -> send_each self event data (members m) st = Some st' ->
  send_loop (S fuel) self event data m st = Some (0, st').
Proof.
  intros Hm He. cbn [send_loop]. rewrite find_first_is_next by (unfold SBI_HARTMASK_MAX_BITS; lia).
  destruct (mask_next m 0 Hm ltac:(lia)) as (k & -> & Hk & Hno & Hyes). rewrite some_bind.
  destruct (send_pass_each 129 self event data k m false st st') as (m' & ->); [done|lia|done|lia| |].
  - unfold members in He. rewrite (members_skip m 0 k) in He by (lia || done). done.
  - done.
Qed.

(** The device can raise interrupts. *)
Definition can_send (st : ipi_state) : Prop :=
  exists dev, ipi_dev st = Some dev /\ has_ipi_send dev = true.

(** The effect of an event without update callback, like [IPI_SMODE]. *)
Record delivered (self event : Z) (m' : M) (rs : list Z) (st st' : ipi_state) : Prop := {
  dl_ops : ipi_ops_array st' = ipi_ops_array st;
  dl_type r : ipi_type st' !! r =
    if decide (r ∈ rs /\ r <> self) then (fun w => Z.lor w (BIT event)) <$> ipi_type st !! r
    else ipi_type st !! r;
  dl_calls : dev_calls st' =
    dev_calls st ++ (DevSend <$> filter (fun r => r <> self /\ ipi_type st !! r = Some 0) rs);
  dl_machine : machine st' = if decide (self ∈ rs) then m' else machine st
}.

Lemma ipi_raise_ok remote event word st :
  can_send st ->
  ipi_raise remote event word st =
  (0, mkIpi (ipi_ops_array st) (ipi_dev st) (<[remote := Z.lor word (BIT event)]> (ipi_type st))
        (dev_calls st ++ if word =? 0 then [DevSend remote] else [])
        (ipi_fw_events st ++ [SBI_PMU_FW_IPI_SENT]) (machine st)).
Proof.
  intros (dev & Hd & Hs). unfold ipi_raise, sbi_ipi_raw_send. cbn [ipi_dev set_type]. rewrite Hd, Hs.
  by destruct (word =? 0); unfold ipi_count_fw, call_dev, set_type; cbn; rewrite Hd, ?app_nil_r.
Qed.

Lemma filter_ext_in {A} (P Q : A -> Prop) `{forall x, Decision (P x), forall x, Decision (Q x)} (l : list A) :
  (forall x, x ∈ l -> P x <-> Q x) -> filter P l = filter Q l.
Proof.
  induction l as [|x l IH]; intros Hl; [done|]. rewrite !filter_cons, IH by set_solver.
  pose proof (Hl x ltac:(set_solver)). repeat case_decide; tauto.
Qed.

Lemma send_each_delivers self event data pf m' rs st :
  event_ops st event = Some (mkOps None None (Some pf)) -> NoDup rs ->
  (forall r, r ∈ rs -> is_Some (ipi_type st !! r)) -> can_send st ->
  (self ∈ rs -> pf self (machine st) = Some m') ->
  exists st', send_each self event data rs st = Some st' /\ delivered self event m' rs st st'.
Proof.
  intros Hops Hnd. revert st Hops. induction Hnd as [|r rs Hr Hnd IH]; intros st Hops Hin Hdev Hpf; cbn [send_each].
  { exists st. split; [done|]. split; [done| |cbn; by rewrite app_nil_r|].
    - intros r. rewrite decide_False; [done|]. set_solver.
    - rewrite decide_False; [done|]. set_solver. }
  unfold sbi_ipi_send. rewrite Hops. destruct (Hin r ltac:(set_solver)) as [word Hw]. rewrite Hw.
  cbn [ops_update ops_process]. destruct (Z.eqb_spec self r) as [<-|Hne].
  - rewrite some_bind, Hpf by set_solver. rewrite !some_bind. cbn [Z.ltb Z.eqb Z.compare orb].
    destruct (IH (set_machine m' st)) as (st' & E & [H1 H2 H3 H4]); [done|set_solver|done|set_solver|].
    exists st'. split; [done|]. split; [done| | |].
    + intros x. rewrite H2. cbn. repeat case_decide; set_solver.
    + rewrite H3, filter_cons, decide_False by tauto. done.
    + rewrite H4, decide_False, decide_True by set_solver. done.
  - rewrite (ipi_raise_ok r event word st Hdev). rewrite some_bind. cbn [Z.ltb Z.eqb Z.compare orb].
    set (st1 := mkIpi _ _ _ _ _ _).
    destruct (IH st1) as (st' & E & [H1 H2 H3 H4]).
    + done.
    + intros x Hx. cbn. rewrite lookup_insert_ne by set_solver. apply Hin. set_solver.
    + done.
    + intros Hs. apply Hpf. set_solver.
    + exists st'. split; [done|]. split; [done| | |].
      * intros x. rewrite H2. cbn [st1 ipi_type]. destruct (decide (x = r)) as [->|Hx].
        -- rewrite lookup_insert_eq, Hw. rewrite decide_False, decide_True by set_solver. done.
        -- rewrite lookup_insert_ne by done. repeat case_decide; set_solver.
      * rewrite H3, filter_cons. cbn [st1 dev_calls ipi_type]. rewrite <- app_assoc. f_equal.
        replace (filter _ rs) with (filter (fun r => r <> self /\ ipi_type st !! r = Some 0) rs).
        -- rewrite Hw. destruct (Z.eqb_spec word 0) as [->|]; [by rewrite decide_True|].
           by rewrite decide_False by naive_solver.
        -- apply filter_ext_in. intros x Hx. rewrite lookup_insert_ne by set_solver. done.
      * rewrite H4. cbn [st1 machine]. repeat case_decide; set_solver.
Qed.

(** ** Dispatching the pending events *)

(** The events of a word, lowest first. *)
Definition pending_events (word : Z) : list Z :=
  filter (fun e => Z.testbit word e = true) (seqZ 0 SBI_IPI_EVENT_MAX).

(** Their callbacks in turn; an event without callbacks is ignored. *)
Fixpoint run_events (st : ipi_state) (self : Z) (es : list Z) (m : M) : option M :=
  match es with
  | [] => Some m
  | e :: es' =>
      m ← match event_ops st e with
          | Some ops => process ← ops_process ops; process self m
          | None => Some m
          end;
      run_events st self es' m
  end.

Lemma run_events_set_machine st m self es m0 :
  run_events (set_machine m st) self es m0 = run_events st self es m0.
Proof.
  revert m0. induction es as [|e es IH]; intros m0; cbn [run_events]; [done|].
  change (event_ops (set_machine m st) e) with (event_ops st e).
  by apply option_bind_ext_fun.
Qed.

Lemma process_loop_spec n full self e st :
  0 <= e -> 0 <= full < 2 ^ (e + Z.of_nat n) ->
  process_loop n self (Z.shiftr full e) e st =
  (m ← run_events st self (filter (fun k => Z.testbit full k = true) (seqZ e (Z.of_nat n))) (machine st);
   Some (set_machine m st)).
Proof.
  revert e st. induction n as [|n IH]; intros e st He Hf; cbn [process_loop].
  { by destruct st. }
  assert (Hb0 : Z.testbit (Z.shiftr full e) 0 = Z.testbit full e) by (by rewrite Z.shiftr_spec).
  destruct (Z.eqb_spec (Z.shiftr full e) 0) as [Hz|Hnz].
  - replace (filter _ _) with (@nil Z); [by destruct st|]. symmetry.
    apply elem_of_nil_inv. intros x [Hx Hr%elem_of_seqZ]%list_elem_of_filter.
    assert (Z.testbit (Z.shiftr full e) (x - e) = true) as Hs
      by (rewrite Z.shiftr_spec by lia; by replace (x - e + e) with x by lia).
    by rewrite Hz, Z.testbit_0_l in Hs.
  - rewrite land_1_bit, Hb0. rewrite seqZ_cons by lia.
    replace (Z.pred (Z.of_nat (S n))) with (Z.of_nat n) by lia. replace (Z.succ e) with (e + 1) by lia.
    rewrite filter_cons. rewrite Z.shiftr_shiftr by lia.
    assert (Hf' : 0 <= full < 2 ^ (e + 1 + Z.of_nat n))
      by (replace (e + 1 + Z.of_nat n) with (e + Z.of_nat (S n)) by lia; done).
    destruct (Z.testbit full e) eqn:Hb; cbn [negb].
    + rewrite decide_True by done. cbn [run_events].
      destruct (event_ops st e) as [ops|]; [|rewrite !some_bind; by apply IH; [lia|]].
      destruct (ops_process ops) as [pf|]; [|done]. rewrite !some_bind.
      destruct (pf self (machine st)) as [m|]; [|done]. rewrite !some_bind. rewrite IH by (lia || done).
      by rewrite run_events_set_machine.
    + rewrite decide_False by done. rewrite some_bind. by apply IH; [lia|].
Qed.

End Ipi.
Arguments sbi_ipi_event_ops : clear implicits.
Arguments ipi_state : clear implicits.

(** ** The two events of [sbi_ipi.c], set-up and exit *)

Section Builtin.
Context {M D : Type}.
(** The CSR accesses of a hart, [sbi_hsm_hart_stop] with [exitnow] set, and the
    platform's IPI driver. *)
Context (set_ssip clear_ssip set_msie clear_msie : Z -> M -> M).
Context (hart_stop : Z -> M -> option M).
Context (platform_ipi_init : ipi_state M D -> Z * ipi_state M D).

Definition sbi_ipi_process_smode (self : Z) (m : M) : option M := Some (set_ssip self m).

Definition ipi_smode_ops : sbi_ipi_event_ops M D :=
  mkOps None None (Some sbi_ipi_process_smode).

Definition sbi_ipi_clear_smode (self : Z) (st : ipi_state M D) : ipi_state M D :=
  set_machine (clear_ssip self (machine st)) st.

Definition sbi_ipi_update_halt (self remote : Z) (data : D) (m : M) : option (Z * M) :=
  Some (if self =? remote then SBI_IPI_UPDATE_BREAK else SBI_IPI_UPDATE_SUCCESS, m).

Definition sbi_ipi_process_halt (self : Z) (m : M) : option M := hart_stop self m.

Definition ipi_halt_ops : sbi_ipi_event_ops M D :=
  mkOps (Some sbi_ipi_update_halt) None (Some sbi_ipi_process_halt).

(** The remaining globals. *)
Record ipi_globals := mkGlobals { ipi_data_off : Z; ipi_smode_event : Z; ipi_halt_event : Z }.

Definition ipi_globals_init : ipi_globals := mkGlobals 0 SBI_IPI_EVENT_MAX SBI_IPI_EVENT_MAX.

(** What the set-up works on: the globals, the scratch allocator with its
    memory, and the IPI state. *)
Definition ipi_boot : Type := ipi_globals * scratch_state * mem * ipi_state M D.

(** The part every hart runs. *)
Definition ipi_init_hart (self : Z) (b : ipi_boot) : Z * ipi_boot :=
  let '(g, scr, m, st) := b in
  let st := set_type (<[self := 0]> (ipi_type st)) st in
  let st := sbi_ipi_raw_clear self st in
  (0, (g, scr, m, set_machine (set_msie self (machine st)) st)).

Definition sbi_ipi_init (self : Z) (cold_boot : bool) (b : ipi_boot) : option (Z * ipi_boot) :=
  let '(g, scr, m, st) := b in
  if cold_boot then
    '(off, scr, m) ← sbi_scratch_alloc_offset scr m 8;
    let g := mkGlobals off (ipi_smode_event g) (ipi_halt_event g) in
    if off =? 0 then Some (SBI_ENOMEM, (g, scr, m, st))
    else
      let '(ret, st) := sbi_ipi_event_create (Some ipi_smode_ops) st in
      if ret <? 0 then Some (ret, (g, scr, m, st))
      else
        let g := mkGlobals off ret (ipi_halt_event g) in
        let '(ret, st) := sbi_ipi_event_create (Some ipi_halt_ops) st in
        if ret <? 0 then Some (ret, (g, scr, m, st))
        else
          let g := mkGlobals off (ipi_smode_event g) ret in
          let '(ret, st) := platform_ipi_init st in
          if negb (ret =? 0) then Some (ret, (g, scr, m, st))
          else Some (ipi_init_hart self (g, scr, m, st))
  else if ipi_data_off g =? 0 then Some (SBI_ENOMEM, b)
  else if (SBI_IPI_EVENT_MAX <=? ipi_smode_event g) || (SBI_IPI_EVENT_MAX <=? ipi_halt_event g)
  then Some (SBI_ENOSPC, b)
  else Some (ipi_init_hart self b).

Definition sbi_ipi_exit (self : Z) (st : ipi_state M D) : option (ipi_state M D) :=
  sbi_ipi_process self (set_machine (clear_msie self (machine st)) st).

Definition sbi_ipi_send_smode fuel ds hw dom self target (hmask hbase : Z) (g : ipi_globals)
    (data : D) (st : ipi_state M D) : option (Z * ipi_state M D) :=
  sbi_ipi_send_many fuel ds hw dom self target hmask hbase (ipi_smode_event g) data st.

Definition sbi_ipi_send_halt fuel ds hw dom self target (hmask hbase : Z) (g : ipi_globals)
    (data : D) (st : ipi_state M D) : option (Z * ipi_state M D) :=
  sbi_ipi_send_many fuel ds hw dom self target hmask hbase (ipi_halt_event g) data st.

(** [sbi_ecall_ipi_handler]; [a0] and [a1] are the caller's registers. *)
Definition SBI_EXT_IPI_SEND_IPI : Z := 0.

Definition sbi_ecall_ipi_handler fuel ds hw dom self target (funcid a0 a1 : Z) (g : ipi_globals)
    (data : D) (st : ipi_state M D) : option (Z * ipi_state M D) :=
  if funcid =? SBI_EXT_IPI_SEND_IPI
  then sbi_ipi_send_smode fuel ds hw dom self target a0 a1 g data st
  else Some (SBI_ENOTSUPP, st).

(** *** Creating events *)

Lemma free_slot_spec (a : list (option (sbi_ipi_event_ops M D))) i :
  match free_slot a i with
  | Some k => (i <= k)%nat /\ a !! (k - i)%nat = Some None /\
              (forall j, (j < k - i)%nat -> exists o, a !! j = Some (Some o))
  | None => forall j o, a !! j = Some o -> is_Some o
  end.
Proof.
  revert i. induction a as [|[o|] a IH]; intros i; cbn [free_slot]; [by intros j o| |].
  - specialize (IH (S i)). destruct (free_slot a (S i)) as [k|].
    + destruct IH as (Hk & Hn & Hlt). split; [lia|].
      replace (k - i)%nat with (S (k - S i)) by lia. split; [done|].
      intros [|j] Hj; [by exists o|]. apply Hlt. lia.
    + intros [|j] o' Hj; [by injection Hj as <-|by apply (IH j)].
  - rewrite Nat.sub_diag. split_and!; [done|done|]. intros j Hj. lia.
Qed.

(** A created event takes the lowest free slot, answers to its callbacks and
    leaves every other event alone; only a full table refuses. *)
Lemma event_create_spec (o : sbi_ipi_event_ops M D) st rc st' :
  is_Some (ops_process o) -> length (ipi_ops_array st) = 64%nat ->
  sbi_ipi_event_create (Some o) st = (rc, st') ->
  (rc = SBI_ENOSPC /\ st' = st /\ forall e, 0 <= e < 64 -> is_Some (event_ops st e)) \/
  (0 <= rc < 64 /\ event_ops st rc = None /\ (forall e, 0 <= e < rc -> is_Some (event_ops st e)) /\
   event_ops st' rc = Some o /\ forall e, 0 <= e -> e <> rc -> event_ops st' e = event_ops st e).
Proof.
  intros [pf Hpf] Hlen. unfold sbi_ipi_event_create. rewrite Hpf.
  pose proof (free_slot_spec (ipi_ops_array st) 0) as Hf. unfold event_ops, SBI_IPI_EVENT_MAX.
  destruct (free_slot (ipi_ops_array st) 0) as [k|]; intros E; injection E as <- <-.
  - destruct Hf as (_ & Hn & Hlt). rewrite Nat.sub_0_r in *. right.
    assert (k < 64)%nat as Hk by (rewrite <- Hlen; by eapply lookup_lt_Some).
    split; [lia|]. rewrite (proj2 (Z.leb_gt 64 (Z.of_nat k))) by lia. rewrite Nat2Z.id, Hn. split_and!.
    + done.
    + intros e He. destruct (Z.leb_spec 64 e); [lia|]. destruct (Hlt (Z.to_nat e)) as [o' Ho]; [lia|].
      by rewrite Ho.
    + cbn. rewrite list_lookup_insert_eq by lia. done.
    + intros e He Hne. destruct (Z.leb_spec 64 e); [done|]. cbn.
      rewrite list_lookup_insert_ne by lia. done.
  - left. split_and!; try done. intros e He. destruct (Z.leb_spec 64 e); [lia|].
    destruct (lookup_lt_is_Some_2 (ipi_ops_array st) (Z.to_nat e)) as [o' Ho]; [lia|].
    rewrite Ho. by apply (Hf (Z.to_nat e)).
Qed.

End Builtin.

(** ** Properties *)

Section Properties.
Context {M D : Type}.
Implicit Types st : ipi_state M D.

(** The harts a call of [sbi_ipi_send_many] is for: assigned to the domain,
    interruptible, and named by the mask unless the base is -1. *)
Definition wanted (ds : domain_state) (hw : hsm_world) (d : sbi_domain) (hmask hbase r : Z) : Prop :=
  0 <= r < 128 /\ mask_has (assigned_harts d) r = true /\
  interruptible (hsm_hart_get_state hw r) = true /\
  (hbase <> ULONG_MAX -> named (scr ds) 64 hbase hmask r).

Lemma target_mask_spec ds hw dom d target hmask hbase :
  domains ds !! dom = Some d -> mask_ok (assigned_harts d) -> mask_ok target ->
  scratch_wf (scr ds) -> 0 <= hmask < 2 ^ 64 ->
  exists m1 m2, sbi_hsm_hart_interruptible_mask ds hw dom target = Some (0, m1) /\
    (if hbase =? ULONG_MAX then Some m1
     else tmp ← hmask_loop 64 (scr ds) hbase hmask (mkMask [0; 0]); Some (sbi_hartmask_and m1 m1 tmp))
    = Some m2 /\ mask_ok m2 /\ forall r, r ∈ members m2 <-> wanted ds hw d hmask hbase r.
Proof.
  intros Hd Ha Ht Hw Hh. destruct (interruptible_mask_spec ds hw dom d target Hd Ha Ht) as (m1 & E1 & Hm1 & H1).
  exists m1. destruct (Z.eqb_spec hbase ULONG_MAX) as [Hb|Hb].
  - exists m1. split_and!; try done. intros r. rewrite elem_of_members. unfold wanted. split.
    + intros Hr. assert (0 <= r < 128) as Hr'.
      { unfold mask_has, SBI_HARTMASK_MAX_BITS in Hr. apply andb_true_iff in Hr as [Hr _]. prop_bool. lia. }
      rewrite H1, andb_true_iff in Hr by done. tauto.
    + intros (Hr & H2 & H3 & _). by rewrite H1, H2, H3.
  - destruct (hmask_loop_spec 64 (scr ds) hbase hmask (mkMask [0; 0]) Hw mask_zero_ok Hh) as (tmp & E2 & Hm2 & H2).
    exists (sbi_hartmask_and m1 m1 tmp). rewrite E2. split_and!; [done|done| |].
    + apply mask_and_ok; done.
    + intros r. rewrite elem_of_members. unfold wanted.
      destruct (decide (0 <= r < 128)) as [Hr|Hr].
      * rewrite mask_and_has, H1, !andb_true_iff, H2 by done.
        assert (mask_has (mkMask [0; 0]) r = false) as ->
          by (rewrite mask_has_words by done; destruct (_ <? _); apply Z.testbit_0_l).
        change (Z.of_nat 64) with 64. split.
        -- intros [[Ha1 Hi1] [E|Hn]]; [discriminate E|]. split_and!; try lia; done.
        -- intros (_ & Ha1 & Hi1 & Hn). split; [done|right; by apply Hn].
      * split; [|tauto]. unfold mask_has, SBI_HARTMASK_MAX_BITS. intros E.
        apply andb_true_iff in E as [E _]. prop_bool. lia.
Qed.

(** Sending an event without update callback to many harts ends in one pass
    and succeeds.  The targets are exactly the harts of the domain that are
    interruptible and named by the mask: every target but the sender gets the
    event's bit in its word, its interrupt is raised exactly if the word was
    zero, and the sender, if it is a target, runs the callback at once. *)
Lemma ipi_send_many_delivers fuel ds hw dom d self target hmask hbase event (data : D) pf m' st :
  domains ds !! dom = Some d -> mask_ok (assigned_harts d) -> mask_ok target ->
  scratch_wf (scr ds) -> 0 <= hmask < 2 ^ 64 ->
  event_ops st event = Some (mkOps None None (Some pf)) -> can_send st ->
  (forall r, wanted ds hw d hmask hbase r -> is_Some (ipi_type st !! r)) ->
  pf self (machine st) = Some m' ->
  exists st' ts,
    sbi_ipi_send_many (S fuel) ds hw dom self target hmask hbase event data st = Some (0, st') /\
    NoDup ts /\ (forall r, r ∈ ts <-> wanted ds hw d hmask hbase r) /\
    delivered self event m' ts st st'.
Proof.
  intros Hd Ha Ht Hw Hh Hops Hdev Hin Hpf.
  destruct (target_mask_spec ds hw dom d target hmask hbase Hd Ha Ht Hw Hh) as (m1 & m2 & E1 & E2 & Hm2 & Hts).
  destruct (send_each_delivers self event data pf m' (members m2) st) as (st' & He & Hdl); try done.
  { apply NoDup_filter, NoDup_seqZ. }
  { intros r Hr. by apply Hin, Hts. }
  exists st', (members m2). split_and!; [|apply NoDup_filter, NoDup_seqZ|done|done].
  unfold sbi_ipi_send_many. rewrite E1, some_bind. cbn [Z.eqb negb]. rewrite E2, some_bind.
  rewrite (send_loop_each fuel _ _ _ _ _ _ Hm2 He), some_bind. unfold sbi_ipi_sync.
  assert (event_ops st' event = event_ops st event) as -> by (unfold event_ops; by rewrite (dl_ops _ _ _ _ _ _ Hdl)).
  by rewrite Hops.
Qed.

(** Processing on a hart ends, clears its word and runs the callbacks of
    exactly the pending events, in ascending order, skipping events that have
    been destroyed. *)
Lemma ipi_process_dispatches self st word m :
  ipi_type st !! self = Some word -> 0 <= word < 2 ^ 64 ->
  run_events st self (pending_events word) (machine st) = Some m ->
  exists st', sbi_ipi_process self st = Some st' /\ machine st' = m /\
    ipi_type st' = <[self := 0]> (ipi_type st) /\ ipi_ops_array st' = ipi_ops_array st.
Proof.
  intros Hw Hr Hm. unfold sbi_ipi_process. set (st1 := sbi_ipi_raw_clear _ _).
  assert (ipi_type st1 = ipi_type st /\ ipi_ops_array st1 = ipi_ops_array st /\ machine st1 = machine st)
    as (H1 & H2 & H3).
  { subst st1. unfold sbi_ipi_raw_clear. cbn. by destruct (ipi_dev st) as [[? [|]]|]. }
  rewrite H1, Hw, some_bind. set (st2 := set_type _ st1).
  pose proof (process_loop_spec 64 word self 0 st2) as HL. rewrite Z.shiftr_0_r in HL. rewrite HL by done.
  assert (forall es m0, run_events st2 self es m0 = run_events st self es m0) as Hrun.
  { induction es as [|e es IH]; intros m0; cbn [run_events]; [done|].
    assert (event_ops st2 e = event_ops st e) as -> by (unfold event_ops; cbn; by rewrite H2).
    by apply option_bind_ext_fun. }
  rewrite Hrun. change (machine st2) with (machine st1). rewrite H3.
  change (seqZ 0 (Z.of_nat 64)) with (seqZ 0 SBI_IPI_EVENT_MAX). fold (pending_events word).
  rewrite Hm, some_bind. eexists. split; [done|]. cbn. by rewrite H2.
Qed.

End Properties.

(** A machine whose callbacks write a log. *)
Definition demo_log_ops (tag : Z) : sbi_ipi_event_ops (list (Z * Z)) unit :=
  mkOps None None (Some (fun self log => Some (log ++ [(tag, self)]))).

Definition demo_ipi : ipi_state (list (Z * Z)) unit :=
  mkIpi (Some (demo_log_ops 7) :: Some (demo_log_ops 8) :: replicate 62 None)
    (Some (mkIpiDev true true)) {[0 := 0; 1 := 0]} [] [] [].

Lemma ipi_process_dispatches_witness :
  exists st', sbi_ipi_process 1 (set_type {[0 := 0; 1 := 7]} demo_ipi) = Some st' /\
    machine st' = [(7, 1); (8, 1)].
Proof.
  destruct (ipi_process_dispatches 1 (set_type {[0 := 0; 1 := 7]} demo_ipi) 7 [(7, 1); (8, 1)])
    as (st' & E & Hm & _); [reflexivity|lia|vm_compute; reflexivity|].
  exists st'. split; [exact E|exact Hm].
Defined.

Definition demo_ipi_domains : domain_state :=
  mkDS {[ 4096 := set_assigned (mkMask [3; 0]) demo_sanitized ]} [4096] 1 true 0 120
    {[ 0 := 4096; 1 := 4096 ]} (mkScratch 1 (0 :: 1 :: replicate 127 0) (4096 :: 8192 :: replicate 127 0) 128).

Lemma demo_wanted r : wanted demo_ipi_domains (demo_world SBI_HSM_STATE_STARTED)
  (set_assigned (mkMask [3; 0]) demo_sanitized) 0 ULONG_MAX r -> r = 0 \/ r = 1.
Proof.
  intros (Hr & Ha & _). cbn [set_assigned assigned_harts] in Ha. rewrite mask_has_words in Ha by done.
  destruct (Z.ltb_spec r 64); [|by rewrite Z.testbit_0_l in Ha].
  destruct (Z.leb_spec 2 r); [|lia]. rewrite (bits_above 2 3) in Ha by lia. done.
Qed.

Lemma ipi_send_many_delivers_witness :
  exists st' ts, sbi_ipi_send_many 1 demo_ipi_domains (demo_world SBI_HSM_STATE_STARTED) 4096 0 (mkMask [0; 0])
    0 ULONG_MAX 1 tt demo_ipi = Some (0, st') /\ delivered 0 1 [(8, 0)] ts demo_ipi st'.
Proof.
  destruct (ipi_send_many_delivers 0 demo_ipi_domains (demo_world SBI_HSM_STATE_STARTED) 4096
    (set_assigned (mkMask [3; 0]) demo_sanitized) 0 (mkMask [0; 0]) 0 ULONG_MAX 1 tt
    (fun self log => Some (log ++ [(8, self)])) [(8, 0)] demo_ipi) as (st' & ts & E & _ & _ & Hd).
  - reflexivity.
  - exact demo_mask_ok.
  - exact mask_zero_ok.
  - split; [unfold SBI_HARTMASK_MAX_BITS; cbn; lia|split; reflexivity].
  - lia.
  - reflexivity.
  - eexists. split; reflexivity.
  - intros r [->| ->]%demo_wanted; eexists; reflexivity.
  - reflexivity.
  - exists st', ts. split; [exact E|exact Hd].
Defined.
