(* ===== verification/SbiTlb.v ===== *)
(** * Local fences and merging of remote fence requests ([sbi_tlb.c])

    [sbi_tlb_info] is a fence request as it lies in a hart's FIFO.  The
    [sbi_tlb_local_*] functions run on one hart: [hart_local] is its [hgatp]
    register, the fence instructions it has executed and the firmware events it
    has counted.  [op_kills] says which cached translations an instruction
    removes, so that the effect of a request can be compared before and after
    two requests are merged in the queue.

    [None] is a page loop that does not end. *)

From S2P Require Import Prelude SbiBitops SbiScratch SbiHartmask SbiFifo.

Definition PAGE_SIZE : Z := 4096.
Definition SBI_TLB_FLUSH_ALL : Z := ULONG_MAX.

Definition SBI_TLB_FENCE_I : Z := 0.
Definition SBI_TLB_SFENCE_VMA : Z := 1.
Definition SBI_TLB_SFENCE_VMA_ASID : Z := 2.
Definition SBI_TLB_HFENCE_GVMA_VMID : Z := 3.
Definition SBI_TLB_HFENCE_GVMA : Z := 4.
Definition SBI_TLB_HFENCE_VVMA_ASID : Z := 5.
Definition SBI_TLB_HFENCE_VVMA : Z := 6.
Definition SBI_TLB_TYPE_MAX : Z := 7.

Definition SBI_PMU_FW_FENCE_I_RECVD : Z := 9.
Definition SBI_PMU_FW_SFENCE_VMA_RCVD : Z := 11.
Definition SBI_PMU_FW_SFENCE_VMA_ASID_RCVD : Z := 13.
Definition SBI_PMU_FW_HFENCE_GVMA_RCVD : Z := 15.
Definition SBI_PMU_FW_HFENCE_GVMA_VMID_RCVD : Z := 17.
Definition SBI_PMU_FW_HFENCE_VVMA_RCVD : Z := 19.
Definition SBI_PMU_FW_HFENCE_VVMA_ASID_RCVD : Z := 21.

Definition HGATP_VMID_SHIFT : Z := 44.
Definition HGATP_VMID_MASK : Z := 0x03FFF00000000000.

Record sbi_tlb_info := mkTlb {
  tlb_start : Z;
  tlb_size : Z;
  tlb_asid : Z;
  tlb_vmid : Z;
  tlb_type : Z;
  tlb_smask : sbi_hartmask
}.

(** The instructions the local functions execute.  [hfence.vvma] acts on the
    guest that [hgatp] selects, so its constructors carry the register. *)
Inductive fence_op : Type :=
  | fence_i
  | sfence_vma_all
  | sfence_vma (va : Z)
  | sfence_vma_asid (asid : Z)
  | sfence_vma_asid_va (va asid : Z)
  | hfence_gvma_all
  | hfence_gvma_gpa (gpa_shr2 : Z)
  | hfence_gvma_vmid (vmid : Z)
  | hfence_gvma_vmid_gpa (gpa_shr2 vmid : Z)
  | hfence_vvma_all (hgatp : Z)
  | hfence_vvma_va (hgatp va : Z)
  | hfence_vvma_asid (hgatp asid : Z)
  | hfence_vvma_asid_va (hgatp va asid : Z).

Record hart_local := mkLocal {
  hgatp : Z;
  fences : list fence_op;
  fw_events : list Z
}.

Definition emit (op : fence_op) (l : hart_local) : hart_local :=
  mkLocal (hgatp l) (fences l ++ [op]) (fw_events l).

(** [sbi_pmu_ctr_incr_fw], seen as the sequence of events counted. *)
Definition count_fw (ev : Z) (l : hart_local) : hart_local :=
  mkLocal (hgatp l) (fences l) (fw_events l ++ [ev]).

Definition write_hgatp (v : Z) (l : hart_local) : hart_local :=
  mkLocal v (fences l) (fw_events l).

(** [for (i = 0; i < size; i += PAGE_SIZE)]. *)
Fixpoint page_loop (fuel : nat) (size i : Z) (body : Z -> hart_local -> hart_local)
    (l : hart_local) : option hart_local :=
  match fuel with
  | O => None
  | S fuel' =>
      if i <? size then page_loop fuel' size (u64 (i + PAGE_SIZE)) body (body i l)
      else Some l
  end.

Definition for_pages (size : Z) (body : Z -> hart_local -> hart_local) (l : hart_local)
    : option hart_local :=
  page_loop (Z.to_nat (size / PAGE_SIZE + 2)) size 0 body l.

(** The test each local function makes for a request for everything. *)
Definition flush_all (t : sbi_tlb_info) : bool :=
  ((tlb_start t =? 0) && (tlb_size t =? 0)) || (tlb_size t =? SBI_TLB_FLUSH_ALL).

Definition guest_hgatp (t : sbi_tlb_info) : Z :=
  Z.land (u64 (Z.shiftl (tlb_vmid t) HGATP_VMID_SHIFT)) HGATP_VMID_MASK.

Definition sbi_tlb_local_hfence_vvma (t : sbi_tlb_info) (l : hart_local) : option hart_local :=
  let l := count_fw SBI_PMU_FW_HFENCE_VVMA_RCVD l in
  let saved := hgatp l in
  let l := write_hgatp (guest_hgatp t) l in
  l ← (if flush_all t then Some (emit (hfence_vvma_all (hgatp l)) l)
       else for_pages (tlb_size t)
              (fun i l => emit (hfence_vvma_va (hgatp l) (u64 (tlb_start t + i))) l) l);
  Some (write_hgatp saved l).

Definition sbi_tlb_local_hfence_gvma (t : sbi_tlb_info) (l : hart_local) : option hart_local :=
  let l := count_fw SBI_PMU_FW_HFENCE_GVMA_RCVD l in
  if flush_all t then Some (emit hfence_gvma_all l)
  else for_pages (tlb_size t)
         (fun i => emit (hfence_gvma_gpa (Z.shiftr (u64 (tlb_start t + i)) 2))) l.

Definition sbi_tlb_local_sfence_vma (t : sbi_tlb_info) (l : hart_local) : option hart_local :=
  let l := count_fw SBI_PMU_FW_SFENCE_VMA_RCVD l in
  if flush_all t then Some (emit sfence_vma_all l)
  else for_pages (tlb_size t) (fun i => emit (sfence_vma (u64 (tlb_start t + i)))) l.

Definition sbi_tlb_local_hfence_vvma_asid (t : sbi_tlb_info) (l : hart_local)
    : option hart_local :=
  let l := count_fw SBI_PMU_FW_HFENCE_VVMA_ASID_RCVD l in
  let saved := hgatp l in
  let l := write_hgatp (guest_hgatp t) l in
  l ← (if flush_all t then Some (emit (hfence_vvma_asid (hgatp l) (tlb_asid t)) l)
       else for_pages (tlb_size t)
              (fun i l => emit (hfence_vvma_asid_va (hgatp l) (u64 (tlb_start t + i))
                                  (tlb_asid t)) l) l);
  Some (write_hgatp saved l).

Definition sbi_tlb_local_hfence_gvma_vmid (t : sbi_tlb_info) (l : hart_local)
    : option hart_local :=
  let l := count_fw SBI_PMU_FW_HFENCE_GVMA_VMID_RCVD l in
  if flush_all t then Some (emit (hfence_gvma_vmid (tlb_vmid t)) l)
  else for_pages (tlb_size t)
         (fun i => emit (hfence_gvma_vmid_gpa (Z.shiftr (u64 (tlb_start t + i)) 2)
                           (tlb_vmid t))) l.

Definition sbi_tlb_local_sfence_vma_asid (t : sbi_tlb_info) (l : hart_local)
    : option hart_local :=
  let l := count_fw SBI_PMU_FW_SFENCE_VMA_ASID_RCVD l in
  if flush_all t then Some (emit (sfence_vma_asid (tlb_asid t)) l)
  else for_pages (tlb_size t)
         (fun i => emit (sfence_vma_asid_va (u64 (tlb_start t + i)) (tlb_asid t))) l.

Definition sbi_tlb_local_fence_i (t : sbi_tlb_info) (l : hart_local) : option hart_local :=
  Some (emit fence_i (count_fw SBI_PMU_FW_FENCE_I_RECVD l)).

Definition tlb_entry_local_process (t : sbi_tlb_info) (l : hart_local) : option hart_local :=
  if tlb_type t =? SBI_TLB_FENCE_I then sbi_tlb_local_fence_i t l
  else if tlb_type t =? SBI_TLB_SFENCE_VMA then sbi_tlb_local_sfence_vma t l
  else if tlb_type t =? SBI_TLB_SFENCE_VMA_ASID then sbi_tlb_local_sfence_vma_asid t l
  else if tlb_type t =? SBI_TLB_HFENCE_GVMA_VMID then sbi_tlb_local_hfence_gvma_vmid t l
  else if tlb_type t =? SBI_TLB_HFENCE_GVMA then sbi_tlb_local_hfence_gvma t l
  else if tlb_type t =? SBI_TLB_HFENCE_VVMA_ASID then sbi_tlb_local_hfence_vvma_asid t l
  else if tlb_type t =? SBI_TLB_HFENCE_VVMA then sbi_tlb_local_hfence_vvma t l
  else Some l.

(** ** Merging a request into a queued one *)

Definition tlb_range_check (curr next : sbi_tlb_info) : Z * sbi_tlb_info :=
  let next_end := u64 (tlb_start next + tlb_size next) in
  let curr_end := u64 (tlb_start curr + tlb_size curr) in
  let smask := sbi_hartmask_or (tlb_smask curr) (tlb_smask curr) (tlb_smask next) in
  if (tlb_start next <=? tlb_start curr) && (curr_end <? next_end) then
    (SBI_FIFO_UPDATED, mkTlb (tlb_start next) (tlb_size next) (tlb_asid curr) (tlb_vmid curr)
                         (tlb_type curr) smask)
  else if (tlb_start curr <=? tlb_start next) && (next_end <=? curr_end) then
    (SBI_FIFO_SKIP, mkTlb (tlb_start curr) (tlb_size curr) (tlb_asid curr) (tlb_vmid curr)
                      (tlb_type curr) smask)
  else (SBI_FIFO_UNCHANGED, curr).

Definition tlb_update_cb (next curr : sbi_tlb_info) : Z * sbi_tlb_info :=
  if (tlb_type next =? SBI_TLB_SFENCE_VMA_ASID) && (tlb_type curr =? SBI_TLB_SFENCE_VMA_ASID)
  then if tlb_asid next =? tlb_asid curr then tlb_range_check curr next
       else (SBI_FIFO_UNCHANGED, curr)
  else if (tlb_type next =? SBI_TLB_SFENCE_VMA) && (tlb_type curr =? SBI_TLB_SFENCE_VMA)
  then tlb_range_check curr next
  else (SBI_FIFO_UNCHANGED, curr).

(** ** What a request removes from the caches *)

Inductive cached : Type :=
  | CInsn
  | CVa (vpn asid : Z) (global : bool)
  | CGuest (gpn vmid : Z)
  | CVs (vpn asid : Z) (global : bool) (vmid : Z).

Definition vmid_of (hgatp : Z) : Z :=
  Z.shiftr (Z.land hgatp HGATP_VMID_MASK) HGATP_VMID_SHIFT.

(** The privileged architecture's rules: an address operand selects a page, an
    ASID operand spares global mappings. *)
Definition op_kills (op : fence_op) (c : cached) : bool :=
  match op, c with
  | fence_i, CInsn => true
  | sfence_vma_all, CVa _ _ _ => true
  | sfence_vma va, CVa p _ _ => va / PAGE_SIZE =? p
  | sfence_vma_asid a, CVa _ a' g => (a =? a') && negb g
  | sfence_vma_asid_va va a, CVa p a' g => (va / PAGE_SIZE =? p) && (a =? a') && negb g
  | hfence_gvma_all, CGuest _ _ => true
  | hfence_gvma_gpa g, CGuest p _ => g * 4 / PAGE_SIZE =? p
  | hfence_gvma_vmid v, CGuest _ v' => v =? v'
  | hfence_gvma_vmid_gpa g v, CGuest p v' => (g * 4 / PAGE_SIZE =? p) && (v =? v')
  | hfence_vvma_all h, CVs _ _ _ v => vmid_of h =? v
  | hfence_vvma_va h va, CVs p _ _ v => (vmid_of h =? v) && (va / PAGE_SIZE =? p)
  | hfence_vvma_asid h a, CVs _ a' g v => (vmid_of h =? v) && (a =? a') && negb g
  | hfence_vvma_asid_va h va a, CVs p a' g v =>
      (vmid_of h =? v) && (va / PAGE_SIZE =? p) && (a =? a') && negb g
  | _, _ => false
  end.

Definition ops_kill (ops : list fence_op) (c : cached) : bool :=
  existsb (fun o => op_kills o c) ops.

(** What processing [t] removes. *)
Definition entry_kills (t : sbi_tlb_info) (c : cached) : bool :=
  match tlb_entry_local_process t (mkLocal 0 [] []) with
  | Some l => ops_kill (fences l) c
  | None => false
  end.

Definition covers (e t : sbi_tlb_info) : Prop :=
  forall c, entry_kills t c = true -> entry_kills e c = true.

(** ** The local functions compute a list of instructions *)

(** The loop counter does not wrap before it reaches the size. *)
Definition tlb_ends (t : sbi_tlb_info) : Prop :=
  0 <= tlb_size t <= 2 ^ 64 - PAGE_SIZE \/ tlb_size t = SBI_TLB_FLUSH_ALL.

#[export] Instance tlb_ends_dec t : Decision (tlb_ends t).
Proof. unfold tlb_ends. apply _. Defined.

Definition page_offsets (size : Z) : list Z :=
  (fun k => PAGE_SIZE * k) <$> seqZ 0 ((size + PAGE_SIZE - 1) / PAGE_SIZE).

Definition all_op (t : sbi_tlb_info) : list fence_op :=
  if tlb_type t =? SBI_TLB_SFENCE_VMA then [sfence_vma_all]
  else if tlb_type t =? SBI_TLB_SFENCE_VMA_ASID then [sfence_vma_asid (tlb_asid t)]
  else if tlb_type t =? SBI_TLB_HFENCE_GVMA_VMID then [hfence_gvma_vmid (tlb_vmid t)]
  else if tlb_type t =? SBI_TLB_HFENCE_GVMA then [hfence_gvma_all]
  else if tlb_type t =? SBI_TLB_HFENCE_VVMA_ASID
  then [hfence_vvma_asid (guest_hgatp t) (tlb_asid t)]
  else if tlb_type t =? SBI_TLB_HFENCE_VVMA then [hfence_vvma_all (guest_hgatp t)]
  else [].

Definition page_op (t : sbi_tlb_info) (i : Z) : list fence_op :=
  let a := u64 (tlb_start t + i) in
  if tlb_type t =? SBI_TLB_SFENCE_VMA then [sfence_vma a]
  else if tlb_type t =? SBI_TLB_SFENCE_VMA_ASID then [sfence_vma_asid_va a (tlb_asid t)]
  else if tlb_type t =? SBI_TLB_HFENCE_GVMA_VMID
  then [hfence_gvma_vmid_gpa (Z.shiftr a 2) (tlb_vmid t)]
  else if tlb_type t =? SBI_TLB_HFENCE_GVMA then [hfence_gvma_gpa (Z.shiftr a 2)]
  else if tlb_type t =? SBI_TLB_HFENCE_VVMA_ASID
  then [hfence_vvma_asid_va (guest_hgatp t) a (tlb_asid t)]
  else if tlb_type t =? SBI_TLB_HFENCE_VVMA then [hfence_vvma_va (guest_hgatp t) a]
  else [].

Definition tlb_ops (t : sbi_tlb_info) : list fence_op :=
  if tlb_type t =? SBI_TLB_FENCE_I then [fence_i]
  else if flush_all t then all_op t
  else page_offsets (tlb_size t) ≫= page_op t.

Lemma page_loop_spec fuel size k f l :
  0 <= k -> 0 <= size <= 2 ^ 64 - PAGE_SIZE -> PAGE_SIZE * k < size + PAGE_SIZE ->
  size < PAGE_SIZE * (k + Z.of_nat fuel - 1) ->
  page_loop fuel size (PAGE_SIZE * k) (fun i l => emit (f (hgatp l) i) l) l =
  Some (mkLocal (hgatp l)
         (fences l ++ ((fun j => f (hgatp l) (PAGE_SIZE * j)) <$>
                        seqZ k ((size + PAGE_SIZE - 1) / PAGE_SIZE - k))) (fw_events l)).
Proof.
  unfold PAGE_SIZE in *. revert k l.
  induction fuel as [|fuel IH]; intros k l Hk Hs Hlo Hf; [lia|]. cbn [page_loop].
  destruct (Z.ltb_spec (4096 * k) size) as [Hlt|Hge].
  - unfold PAGE_SIZE at 1. rewrite (wrap_small 64) by lia.
    replace (4096 * k + 4096) with (4096 * (k + 1)) by lia. rewrite IH by lia. cbn [hgatp fences fw_events emit].
    rewrite (seqZ_cons k) by (pose proof (Z.div_le_lower_bound (size + 4096 - 1) 4096 (k + 1)); lia).
    rewrite fmap_cons, <- app_assoc. do 3 f_equal.
    cbn [app]. do 3 f_equal; lia.
  - assert ((size + 4096 - 1) / 4096 < k + 1) by (apply Z.div_lt_upper_bound; lia).
    rewrite seqZ_nil by lia. cbn. rewrite app_nil_r. by destruct l.
Qed.

Lemma for_pages_spec size f l :
  0 <= size <= 2 ^ 64 - PAGE_SIZE ->
  for_pages size (fun i l => emit (f (hgatp l) i) l) l =
  Some (mkLocal (hgatp l) (fences l ++ (f (hgatp l) <$> page_offsets size)) (fw_events l)).
Proof.
  intros Hs. unfold for_pages. pose proof (page_loop_spec (Z.to_nat (size / PAGE_SIZE + 2))
    size 0 f l) as Hl. unfold PAGE_SIZE in *. change (4096 * 0) with 0 in Hl.
  pose proof (Z.mul_succ_div_gt size 4096 ltac:(lia)).
  pose proof (Z.div_pos size 4096 ltac:(lia) ltac:(lia)).
  rewrite Hl by lia. rewrite Z.sub_0_r. unfold page_offsets. rewrite <- list_fmap_compose. done.
Qed.

Lemma bind_singleton {A B} (f : A -> B) (l : list A) : (l ≫= fun x => [f x]) = f <$> l.
Proof. induction l; cbn; f_equal; done. Qed.

Lemma page_sizes t : tlb_ends t -> flush_all t = false -> 0 <= tlb_size t <= 2 ^ 64 - PAGE_SIZE.
Proof.
  intros [H|H] Hf; [done|]. unfold flush_all in Hf. rewrite H, Z.eqb_refl, orb_true_r in Hf. done.
Qed.

Lemma local_process_spec t l :
  tlb_ends t ->
  exists ev, tlb_entry_local_process t l =
             Some (mkLocal (hgatp l) (fences l ++ tlb_ops t) (fw_events l ++ ev)).
Proof.
  intros He. unfold tlb_entry_local_process, tlb_ops, all_op, page_op.
  destruct (tlb_type t =? SBI_TLB_FENCE_I); [by eexists|].
  repeat (destruct (tlb_type t =? _); [eexists|]).
  all: try unfold sbi_tlb_local_sfence_vma.
  all: try unfold sbi_tlb_local_sfence_vma_asid.
  all: try unfold sbi_tlb_local_hfence_gvma_vmid.
  all: try unfold sbi_tlb_local_hfence_gvma.
  all: try unfold sbi_tlb_local_hfence_vvma_asid.
  all: try unfold sbi_tlb_local_hfence_vvma.
  all: destruct (flush_all t) eqn:Ha; try reflexivity.
  all: try (rewrite bind_singleton; pose proof (page_sizes t He Ha)).
  - by rewrite (for_pages_spec _ (fun _ i => sfence_vma (u64 (tlb_start t + i)))).
  - by rewrite (for_pages_spec _ (fun _ i => sfence_vma_asid_va (u64 (tlb_start t + i)) (tlb_asid t))).
  - by rewrite (for_pages_spec _ (fun _ i =>
      hfence_gvma_vmid_gpa (Z.shiftr (u64 (tlb_start t + i)) 2) (tlb_vmid t))).
  - by rewrite (for_pages_spec _ (fun _ i => hfence_gvma_gpa (Z.shiftr (u64 (tlb_start t + i)) 2))).
  - by rewrite (for_pages_spec _ (fun h i =>
      hfence_vvma_asid_va h (u64 (tlb_start t + i)) (tlb_asid t))).
  - by rewrite (for_pages_spec _ (fun h i => hfence_vvma_va h (u64 (tlb_start t + i)))).
  - exists []. rewrite !app_nil_r. by destruct l.
  - exists []. replace (page_offsets (tlb_size t) ≫= _) with (@nil fence_op);
      [rewrite !app_nil_r; by destruct l|].
    induction (page_offsets _); done.
Qed.

Lemma entry_kills_ops t c : tlb_ends t -> entry_kills t c = ops_kill (tlb_ops t) c.
Proof.
  intros He. unfold entry_kills. by destruct (local_process_spec t (mkLocal 0 [] []) He) as [ev ->].
Qed.

(** A loop over a size that is not [SBI_TLB_FLUSH_ALL] and larger than the last
    page's address never ends: the counter wraps before it reaches the size. *)
Lemma page_loop_wraps fuel size i body l :
  2 ^ 64 - PAGE_SIZE < size -> 0 <= i < 2 ^ 64 -> i mod PAGE_SIZE = 0 ->
  page_loop fuel size i body l = None.
Proof.
  unfold PAGE_SIZE. intros Hs. revert i l. induction fuel as [|fuel IH]; intros i l Hi Hm; [done|].
  cbn [page_loop]. pose proof (Z.div_mod i 4096 ltac:(lia)).
  destruct (Z.ltb_spec i size); [|lia]. unfold PAGE_SIZE.
  destruct (Z.eq_dec i (2 ^ 64 - 4096)) as [->|Hne].
  - by apply IH.
  - rewrite wrap_small by lia. apply IH; [lia|]. rewrite Zplus_mod, Hm. done.
Qed.

(** The functions with a page loop. *)
Definition has_loop (t : sbi_tlb_info) : bool :=
  (tlb_type t =? SBI_TLB_SFENCE_VMA) || (tlb_type t =? SBI_TLB_SFENCE_VMA_ASID) ||
  (tlb_type t =? SBI_TLB_HFENCE_GVMA_VMID) || (tlb_type t =? SBI_TLB_HFENCE_GVMA) ||
  (tlb_type t =? SBI_TLB_HFENCE_VVMA_ASID) || (tlb_type t =? SBI_TLB_HFENCE_VVMA).

Lemma process_hangs t l :
  0 <= tlb_size t < 2 ^ 64 -> ~ tlb_ends t -> has_loop t = true -> tlb_entry_local_process t l = None.
Proof.
  intros Hs He Hl.
  assert (2 ^ 64 - PAGE_SIZE < tlb_size t /\ flush_all t = false) as [Hbig Hf].
  { unfold tlb_ends, flush_all, SBI_TLB_FLUSH_ALL, ULONG_MAX, PAGE_SIZE in *. zcases; cbn; lia. }
  assert (forall body l, for_pages (tlb_size t) body l = None) as Hn.
  { intros body l'. by apply page_loop_wraps. }
  unfold has_loop in Hl. unfold tlb_entry_local_process.
  destruct (Z.eqb_spec (tlb_type t) SBI_TLB_FENCE_I) as [E|_]; [rewrite E in Hl; discriminate Hl|].
  unfold sbi_tlb_local_sfence_vma, sbi_tlb_local_sfence_vma_asid, sbi_tlb_local_hfence_gvma_vmid,
    sbi_tlb_local_hfence_gvma, sbi_tlb_local_hfence_vvma_asid, sbi_tlb_local_hfence_vvma.
  rewrite Hf, !Hn. by repeat (destruct (tlb_type t =? _); [done|]).
Qed.

(** Whatever the request, when processing it returns it has executed [tlb_ops]. *)
Lemma local_process_ops t l l' c :
  0 <= tlb_size t < 2 ^ 64 -> tlb_entry_local_process t l = Some l' ->
  fences l' = fences l ++ tlb_ops t /\ entry_kills t c = ops_kill (tlb_ops t) c.
Proof.
  intros Hs Hl. destruct (has_loop t) eqn:Ht.
  - assert (tlb_ends t) as He.
    { destruct (decide (tlb_ends t)) as [|n]; [done|]. by rewrite (process_hangs t l Hs n Ht) in Hl. }
    destruct (local_process_spec t l He) as [ev E]. rewrite E in Hl. injection Hl as <-.
    split; [done|by apply entry_kills_ops].
  - unfold has_loop in Ht. rewrite !orb_false_iff in Ht. destruct Ht as [[[[[H1 H2] H3] H4] H5] H6].
    unfold entry_kills, tlb_entry_local_process, tlb_ops, all_op, page_op in *. rewrite ?H1, ?H2, ?H3, ?H4, ?H5, ?H6 in *.
    destruct (tlb_type t =? SBI_TLB_FENCE_I); injection Hl as <-; [done|].
    assert ((if flush_all t then [] else page_offsets (tlb_size t) ≫= (fun _ => [])) = @nil fence_op) as ->.
    { destruct (flush_all t); [done|]. by induction (page_offsets (tlb_size t)). }
    by rewrite app_nil_r.
Qed.

(** ** Merging loses no fence *)

(** A page-aligned range that does not wrap, or everything written with
    [SBI_TLB_FLUSH_ALL]. *)
Definition range_ok (t : sbi_tlb_info) : Prop :=
  tlb_start t mod PAGE_SIZE = 0 /\
  ((tlb_start t = 0 /\ tlb_size t = SBI_TLB_FLUSH_ALL) \/
   (0 <= tlb_start t /\ 0 <= tlb_size t <= 2 ^ 64 - PAGE_SIZE /\
    tlb_start t + tlb_size t < 2 ^ 64 /\ ~ (tlb_start t = 0 /\ tlb_size t = 0))).

Definition is_sfence (t : sbi_tlb_info) : bool :=
  (tlb_type t =? SBI_TLB_SFENCE_VMA) || (tlb_type t =? SBI_TLB_SFENCE_VMA_ASID).

Lemma range_ok_ends t : range_ok t -> tlb_ends t.
Proof. intros [_ [[_ H]|(_ & H & _)]]; [right|left]; done. Qed.

Lemma ops_kill_app a b c : ops_kill (a ++ b) c = ops_kill a c || ops_kill b c.
Proof. apply existsb_app. Qed.

Lemma ops_kill_elem ops c : ops_kill ops c = true <-> exists o, o ∈ ops /\ op_kills o c = true.
Proof.
  unfold ops_kill. rewrite existsb_exists. split; intros (o & Ho & Hk); exists o;
    (split; [by apply list_elem_of_In|done]).
Qed.

Lemma elem_of_page_offsets size i :
  0 <= size ->
  i ∈ page_offsets size <-> exists k, i = PAGE_SIZE * k /\ 0 <= k /\ PAGE_SIZE * k < size.
Proof.
  intros Hs. unfold page_offsets, PAGE_SIZE. rewrite list_elem_of_fmap. split.
  - intros (k & -> & Hk%elem_of_seqZ). exists k. split; [done|].
    pose proof (Z.mul_div_le (size + 4096 - 1) 4096 ltac:(lia)). lia.
  - intros (k & -> & Hk & Hlt). exists k. split; [done|]. apply elem_of_seqZ.
    pose proof (Z.div_le_lower_bound (size + 4096 - 1) 4096 (k + 1)). lia.
Qed.

(** A translation lies in the pages of the range. *)
Definition page_in (t : sbi_tlb_info) (p : Z) : Prop :=
  tlb_size t = SBI_TLB_FLUSH_ALL \/
  (tlb_start t <= PAGE_SIZE * p /\ PAGE_SIZE * p < tlb_start t + tlb_size t).

(** The ASID a fence applies to; [SFENCE_VMA] takes every one. *)
Definition asid_in (t : sbi_tlb_info) (a : Z) (g : bool) : Prop :=
  tlb_type t = SBI_TLB_SFENCE_VMA_ASID -> tlb_asid t = a /\ g = false.

Lemma page_of_offset t k :
  range_ok t -> tlb_size t <> SBI_TLB_FLUSH_ALL -> 0 <= k -> PAGE_SIZE * k < tlb_size t ->
  u64 (tlb_start t + PAGE_SIZE * k) / PAGE_SIZE = tlb_start t / PAGE_SIZE + k.
Proof.
  intros [Ha [[_ ?]|(H0 & Hs & Hw & _)]] Hne Hk Hlt; [done|].
  rewrite wrap_small by (unfold PAGE_SIZE in *; lia).
  rewrite (Z.mul_comm PAGE_SIZE k), Z.div_add by done. done.
Qed.

Lemma sfence_kills_all t c :
  range_ok t -> is_sfence t = true -> flush_all t = true ->
  ops_kill (all_op t) c = true <-> exists p a g, c = CVa p a g /\ page_in t p /\ asid_in t a g.
Proof.
  intros Hr Hty Hf. unfold is_sfence in Hty. rewrite orb_true_iff, !Z.eqb_eq in Hty.
  assert (tlb_size t = SBI_TLB_FLUSH_ALL) as Hall.
  { destruct Hr as [_ [[_ ?]|(_ & _ & _ & Hn)]]; [done|]. unfold flush_all in Hf.
    apply orb_true_iff in Hf as [Hf|Hf]; prop_bool; tauto. }
  unfold all_op, asid_in. destruct Hty as [->| ->]; cbn; destruct c; cbn;
    rewrite ?orb_false_r; (split; [intros Hk|intros (p' & a' & g' & E & Hp & Hi)]); try done.
  - eexists _, _, _. split_and!; [done|by left|done].
  - prop_bool. eexists _, _, _. split_and!; [done|by left|done].
  - simplify_eq. destruct Hi as [-> ->]; [done|]. by rewrite Z.eqb_refl.
Qed.

Lemma page_op_sfence t i :
  is_sfence t = true ->
  page_op t i = [if tlb_type t =? SBI_TLB_SFENCE_VMA then sfence_vma (u64 (tlb_start t + i))
                 else sfence_vma_asid_va (u64 (tlb_start t + i)) (tlb_asid t)].
Proof.
  unfold is_sfence, page_op. intros H. destruct (tlb_type t =? SBI_TLB_SFENCE_VMA); [done|].
  cbn in H. by rewrite H.
Qed.

Lemma page_op_kills t k c :
  range_ok t -> is_sfence t = true -> tlb_size t <> SBI_TLB_FLUSH_ALL ->
  0 <= k -> PAGE_SIZE * k < tlb_size t ->
  ops_kill (page_op t (PAGE_SIZE * k)) c = true <->
  exists a g, c = CVa (tlb_start t / PAGE_SIZE + k) a g /\ asid_in t a g.
Proof.
  intros Hr Hty Hne Hk Hlt. rewrite page_op_sfence by done. cbn [ops_kill existsb].
  rewrite orb_false_r. pose proof (page_of_offset t k Hr Hne Hk Hlt) as Hpg.
  unfold asid_in. unfold is_sfence in Hty. rewrite orb_true_iff, !Z.eqb_eq in Hty.
  destruct Hty as [->| ->]; cbv [SBI_TLB_SFENCE_VMA SBI_TLB_SFENCE_VMA_ASID Z.eqb Pos.eqb];
    destruct c; cbn [op_kills]; rewrite ?Hpg;
    (split; [intros E|intros (a & g & E & Ha)]); try done.
  - prop_bool. subst. by eexists _, _.
  - injection E as -> _ _. apply Z.eqb_refl.
  - cbn in E. prop_bool. subst. by eexists _, _.
  - simplify_eq. destruct Ha as [-> ->]; [done|]. cbn. by rewrite !Z.eqb_refl.
Qed.

(** The pages and address spaces a fence request removes. *)
Lemma sfence_kills t c :
  range_ok t -> is_sfence t = true ->
  entry_kills t c = true <-> exists p a g, c = CVa p a g /\ page_in t p /\ asid_in t a g.
Proof.
  intros Hr Hty. rewrite entry_kills_ops by (by apply range_ok_ends). unfold tlb_ops.
  replace (tlb_type t =? SBI_TLB_FENCE_I) with false
    by (symmetry; apply Z.eqb_neq; intros E; unfold is_sfence in Hty; by rewrite E in Hty).
  destruct (flush_all t) eqn:Hf; [by apply sfence_kills_all|].
  assert (tlb_size t <> SBI_TLB_FLUSH_ALL) as Hne.
  { intros E. unfold flush_all in Hf. rewrite E, Z.eqb_refl, orb_true_r in Hf. done. }
  pose proof (page_sizes t (range_ok_ends t Hr) Hf) as Hs.
  pose proof Hr as [Hal _]. pose proof (Z.div_mod (tlb_start t) PAGE_SIZE ltac:(done)) as Hd.
  rewrite ops_kill_elem. split.
  - intros (o & (i & Ho & Hi)%list_elem_of_bind & Hk).
    apply elem_of_page_offsets in Hi as (k & -> & Hk0 & Hlt); [|lia].
    assert (ops_kill (page_op t (PAGE_SIZE * k)) c = true) as Hpk
      by (apply ops_kill_elem; by exists o).
    apply page_op_kills in Hpk as (a & g & -> & Ha); try done.
    eexists _, _, _. split_and!; [done| |done]. right. unfold PAGE_SIZE in *. lia.
  - intros (p & a & g & -> & [?|[Hlo Hhi]] & Ha); [done|].
    set (k := p - tlb_start t / PAGE_SIZE).
    assert (Hk : 0 <= k /\ PAGE_SIZE * k < tlb_size t) by (subst k; unfold PAGE_SIZE in *; lia).
    destruct Hk as [Hk0 Hlt].
    assert (ops_kill (page_op t (PAGE_SIZE * k)) (CVa p a g) = true) as Hpk.
    { apply page_op_kills; try done. exists a, g. split; [f_equal; lia|done]. }
    apply ops_kill_elem in Hpk as (o & Ho & Hk). exists o. split; [|done].
    apply list_elem_of_bind. exists (PAGE_SIZE * k). split; [done|].
    apply elem_of_page_offsets; [lia|]. by exists k.
Qed.

(** Requests as they may be queued: fields in range, the page loop ends, and a
    range of the mergeable kinds is well formed. *)
Definition tlb_ok (t : sbi_tlb_info) : Prop :=
  0 <= tlb_start t < 2 ^ 64 /\ 0 <= tlb_size t < 2 ^ 64 /\ 0 <= tlb_asid t < 2 ^ 16 /\
  0 <= tlb_vmid t < 2 ^ 16 /\ 0 <= tlb_type t < 2 ^ 32 /\ mask_ok (tlb_smask t).

Definition request_ok (t : sbi_tlb_info) : Prop :=
  tlb_ok t /\ tlb_ends t /\ (is_sfence t = true -> range_ok t).

Lemma range_end t :
  range_ok t -> u64 (tlb_start t + tlb_size t) = tlb_start t + tlb_size t.
Proof.
  intros [_ [[-> ->]|(? & ? & ? & _)]]; [done|]. apply wrap_small. lia.
Qed.

Lemma page_in_incl s t p :
  range_ok s -> range_ok t -> tlb_start s <= tlb_start t ->
  tlb_start t + tlb_size t <= tlb_start s + tlb_size s -> page_in t p -> page_in s p.
Proof.
  intros [_ Hs] [_ Ht] H1 H2 Hp. unfold page_in, SBI_TLB_FLUSH_ALL, ULONG_MAX, PAGE_SIZE in *.
  destruct Hs as [[? ?]|(? & ? & ? & _)]; [by left|].
  destruct Ht as [[? ?]|(? & ? & ? & _)]; [lia|]. destruct Hp; [lia|]. right. lia.
Qed.

Lemma range_check_cases curr next :
  range_ok curr -> range_ok next ->
  let '(r, curr') := tlb_range_check curr next in
  (r = SBI_FIFO_UNCHANGED /\ curr' = curr) \/
  ((r = SBI_FIFO_UPDATED \/ r = SBI_FIFO_SKIP) /\
   (exists x, (x = curr \/ x = next) /\ tlb_start curr' = tlb_start x /\ tlb_size curr' = tlb_size x) /\
   tlb_smask curr' = sbi_hartmask_or (tlb_smask curr) (tlb_smask curr) (tlb_smask next) /\
   tlb_type curr' = tlb_type curr /\ tlb_asid curr' = tlb_asid curr /\
   tlb_vmid curr' = tlb_vmid curr /\
   forall x, x = curr \/ x = next ->
     tlb_start curr' <= tlb_start x /\
     tlb_start x + tlb_size x <= tlb_start curr' + tlb_size curr').
Proof.
  intros Hc Hn. unfold tlb_range_check. rewrite !range_end by done.
  destruct (_ && _) eqn:E1; [|clear E1; destruct (_ && _) eqn:E2]; [right|right|by left];
    prop_bool; (split; [by auto|]);
    (split; [eexists; split; [by (left + right)|done]|]); split_and!; try done;
    cbn; intros x Hx; destruct Hx; subst; cbn; lia.
Qed.

(** The outcome of offering [next] to a queued [curr]. *)
Lemma tlb_update_cb_spec curr next :
  request_ok curr -> request_ok next ->
  let '(r, curr') := tlb_update_cb next curr in
  request_ok curr' /\
  ((r = SBI_FIFO_UNCHANGED /\ curr' = curr) \/
   ((r = SBI_FIFO_UPDATED \/ r = SBI_FIFO_SKIP) /\ covers curr' curr /\ covers curr' next /\
    tlb_smask curr' = sbi_hartmask_or (tlb_smask curr) (tlb_smask curr) (tlb_smask next))).
Proof.
  intros Hc Hn. pose proof Hc as (Hco & Hce & Hcr). pose proof Hn as (Hno & Hne & Hnr).
  assert (tlb_update_cb next curr = (SBI_FIFO_UNCHANGED, curr) \/
    (tlb_update_cb next curr = tlb_range_check curr next /\ tlb_type next = tlb_type curr /\
     is_sfence curr = true /\
     (tlb_type curr = SBI_TLB_SFENCE_VMA_ASID -> tlb_asid next = tlb_asid curr))) as Hcase.
  { unfold tlb_update_cb, is_sfence.
    destruct (Z.eqb_spec (tlb_type next) SBI_TLB_SFENCE_VMA_ASID) as [E1|],
      (Z.eqb_spec (tlb_type curr) SBI_TLB_SFENCE_VMA_ASID) as [E2|]; cbn [andb];
      rewrite ?E1, ?E2; cbn; rewrite ?andb_false_r; try tauto.
    - destruct (Z.eqb_spec (tlb_asid next) (tlb_asid curr)); [|by left]. right. done.
    - destruct (Z.eqb_spec (tlb_type next) SBI_TLB_SFENCE_VMA) as [E3|],
        (Z.eqb_spec (tlb_type curr) SBI_TLB_SFENCE_VMA) as [E4|]; cbn [andb]; try by left.
      right. rewrite E3, E4. done. }
  destruct Hcase as [->|(-> & Hty & Hsf & Has)]; [by split; [|left]|].
  assert (is_sfence next = true) as Hsn by (unfold is_sfence in *; by rewrite Hty).
  specialize (Hcr Hsf). specialize (Hnr Hsn).
  pose proof (range_check_cases curr next Hcr Hnr) as H.
  destruct (tlb_range_check curr next) as [r c'].
  destruct H as [[-> ->]|(Hr & (x & Hx & Hxs & Hxz) & Hm & Ht & Ha & Hv & Hin)]; [by split; [|left]|].
  assert (range_ok x /\ tlb_ok x) as [Hxr Hxo] by (destruct Hx as [-> | ->]; done).
  assert (range_ok c') as Hr' by (unfold range_ok in *; by rewrite Hxs, Hxz).
  assert (is_sfence c' = true) as Hs' by (unfold is_sfence in *; by rewrite Ht).
  split.
  - split; [|split; [by apply range_ok_ends|done]]. unfold tlb_ok in *.
    rewrite Hxs, Hxz, Hm, Ht, Ha, Hv. split_and!; try tauto. apply mask_or_ok; tauto.
  - right. split; [done|]. split; [|split; [|done]]; intros c Hk.
    + apply sfence_kills in Hk as (p & a & g & -> & Hp & Hi); try done.
      apply sfence_kills; try done. exists p, a, g. split_and!; [done| |].
      * apply (page_in_incl c' curr); try done; apply Hin; by left.
      * unfold asid_in. rewrite Ht, Ha. done.
    + apply sfence_kills in Hk as (p & a & g & -> & Hp & Hi); try done.
      apply sfence_kills; try done. exists p, a, g. split_and!; [done| |].
      * apply (page_in_incl c' next); try done; apply Hin; by right.
      * unfold asid_in in *. rewrite Ht, Ha. intros E. rewrite <- (Has E). apply Hi. congruence.
Qed.

(** Of any two requests: the merge touches no other field than the range, and
    answers the harts of both. *)
Lemma tlb_update_cb_any curr next :
  tlb_ok curr -> tlb_ok next ->
  let '(r, curr') := tlb_update_cb next curr in
  tlb_ok curr' /\
  ((r = SBI_FIFO_UNCHANGED /\ curr' = curr) \/
   ((r = SBI_FIFO_UPDATED \/ r = SBI_FIFO_SKIP) /\ is_sfence curr = true /\ is_sfence next = true /\
    tlb_smask curr' = sbi_hartmask_or (tlb_smask curr) (tlb_smask curr) (tlb_smask next))).
Proof.
  intros Hc Hn.
  unfold tlb_update_cb, tlb_range_check, is_sfence.
  destruct (tlb_type next =? SBI_TLB_SFENCE_VMA_ASID), (tlb_type curr =? SBI_TLB_SFENCE_VMA_ASID),
    (tlb_type next =? SBI_TLB_SFENCE_VMA), (tlb_type curr =? SBI_TLB_SFENCE_VMA); cbn [andb orb];
    repeat case_match; simplify_eq; try (by split; [|left]); (split; [|right; auto]);
    destruct Hc as (?&?&?&?&?&?), Hn as (?&?&?&?&?&?); split_and!; cbn; try lia; by apply mask_or_ok.
Qed.

(** ** The layout of a request in the FIFO: 40 bytes, little endian *)

Fixpoint le_enc (n : nat) (z : Z) : list Z :=
  match n with O => [] | S n' => z mod 2 ^ 8 :: le_enc n' (z / 2 ^ 8) end.

Fixpoint le_dec (l : list Z) : Z :=
  match l with [] => 0 | b :: l' => b + 2 ^ 8 * le_dec l' end.

Lemma le_enc_byte n z : Forall (fun b => 0 <= b < 2 ^ 8) (le_enc n z).
Proof.
  revert z. induction n as [|n IH]; intros z; constructor; [|apply IH].
  apply Z.mod_pos_bound. lia.
Qed.

Lemma le_dec_enc n z : 0 <= z < 2 ^ (8 * Z.of_nat n) -> le_dec (le_enc n z) = z.
Proof.
  revert z. induction n as [|n IH]; intros z Hz; cbn [le_enc le_dec].
  - change (2 ^ (8 * Z.of_nat 0)) with 1 in Hz. lia.
  - rewrite IH; [pose proof (Z.div_mod z (2 ^ 8)); lia|].
    rewrite Nat2Z.inj_succ in Hz. replace (8 * Z.succ (Z.of_nat n)) with (8 + 8 * Z.of_nat n) in Hz by lia.
    rewrite Z.pow_add_r in Hz by lia. split; [apply Z.div_pos; lia|].
    apply Z.div_lt_upper_bound; lia.
Qed.

Lemma le_dec_range l n :
  Forall (fun b => 0 <= b < 2 ^ 8) l -> length l = n -> 0 <= le_dec l < 2 ^ (8 * Z.of_nat n).
Proof.
  intros Hl <-. induction Hl as [|b l Hb Hl IH]; cbn [le_dec length]; [done|].
  rewrite Nat2Z.inj_succ. replace (8 * Z.succ (Z.of_nat (length l))) with (8 + 8 * Z.of_nat (length l)) by lia.
  rewrite Z.pow_add_r by lia. lia.
Qed.

Definition field (bs : list Z) (off n : nat) : Z := le_dec (take n (drop off bs)).

Lemma field_range bs off n :
  Forall (fun b => 0 <= b < 2 ^ 8) bs -> (off + n <= length bs)%nat ->
  0 <= field bs off n < 2 ^ (8 * Z.of_nat n).
Proof.
  intros Hb Hl. apply le_dec_range; [by apply Forall_take, Forall_drop|].
  rewrite length_take, length_drop. lia.
Qed.

Definition tlb_enc (t : sbi_tlb_info) : list Z :=
  le_enc 8 (tlb_start t) ++ le_enc 8 (tlb_size t) ++ le_enc 2 (tlb_asid t) ++
  le_enc 2 (tlb_vmid t) ++ le_enc 4 (tlb_type t) ++
  le_enc 8 (default 0 (bits (tlb_smask t) !! 0%nat)) ++
  le_enc 8 (default 0 (bits (tlb_smask t) !! 1%nat)).

Definition tlb_dec (bs : list Z) : sbi_tlb_info :=
  mkTlb (field bs 0 8) (field bs 8 8) (field bs 16 2) (field bs 18 2) (field bs 20 4)
    (mkMask [field bs 24 8; field bs 32 8]).

Lemma tlb_dec_enc t : tlb_ok t -> tlb_dec (tlb_enc t) = t.
Proof.
  intros (H1 & H2 & H3 & H4 & H5 & (a & b & E & Ha & Hb)%mask_cases).
  destruct t as [s z a0 v ty m]. cbn in *. subst m.
  change (mkTlb (le_dec (le_enc 8 s)) (le_dec (le_enc 8 z)) (le_dec (le_enc 2 a0))
    (le_dec (le_enc 2 v)) (le_dec (le_enc 4 ty)) (mkMask [le_dec (le_enc 8 a); le_dec (le_enc 8 b)])
    = mkTlb s z a0 v ty (mkMask [a; b])).
  rewrite !le_dec_enc by done. done.
Qed.

#[export] Instance tlb_codec : EntryCodec sbi_tlb_info.
Proof.
  refine {| enc := tlb_enc; dec := tlb_dec; esize := 40; evalid := tlb_ok;
            dec_enc := tlb_dec_enc |}.
  - done.
  - intros t _. unfold tlb_enc. repeat (apply Forall_app; split; [apply le_enc_byte|]).
    apply le_enc_byte.
  - intros bs Hl Hb. unfold tlb_ok, tlb_dec.
    cbn [tlb_start tlb_size tlb_asid tlb_vmid tlb_type tlb_smask].
    split_and!; try (apply field_range; [done|lia]).
    split; [|done]. repeat apply Forall_cons_2; [| |by apply Forall_nil_2];
      (apply (field_range bs _ 8); [done|lia]).
Defined.

(** ** Properties *)

(** Offering a new fence request to a queued one either leaves the queued
    request alone, or merges the two: the queued request then still removes
    everything it removed before and everything the new request removes, and it
    is answered to exactly the harts either was to be answered to. *)
Lemma tlb_merge_sound curr next :
  request_ok curr -> request_ok next ->
  let '(r, curr') := tlb_update_cb next curr in
  request_ok curr' /\
  ((r = SBI_FIFO_UNCHANGED /\ curr' = curr) \/
   ((r = SBI_FIFO_UPDATED \/ r = SBI_FIFO_SKIP) /\ covers curr' curr /\ covers curr' next /\
    forall i, mask_has (tlb_smask curr') i = mask_has (tlb_smask curr) i || mask_has (tlb_smask next) i)).
Proof.
  intros Hc Hn. pose proof (tlb_update_cb_spec curr next Hc Hn) as H.
  destruct (tlb_update_cb next curr) as [r c']. destruct H as [Hok [H|(Hr & H1 & H2 & H3)]]; [by auto|].
  split; [done|right]. split_and!; try done. intros i. rewrite H3. apply mask_or_has; [apply Hc|apply Hn].
Qed.

Definition demo_curr : sbi_tlb_info := mkTlb 0x1000 0x1000 0 0 SBI_TLB_SFENCE_VMA (mkMask [1; 0]).
Definition demo_next : sbi_tlb_info := mkTlb 0 0x3000 0 0 SBI_TLB_SFENCE_VMA (mkMask [2; 0]).

Lemma demo_request_ok t :
  t = demo_curr \/ t = demo_next -> request_ok t.
Proof.
  unfold request_ok, tlb_ok, tlb_ends, range_ok, mask_ok, words_ok, PAGE_SIZE.
  intros [->| ->]; cbn; split_and!; try lia; try done;
    try (repeat apply Forall_cons_2; try apply Forall_nil_2; unfold word_ok; lia);
    intros _; (split; [done|right; lia]).
Qed.

Lemma tlb_merge_sound_witness :
  tlb_update_cb demo_next demo_curr
  = (SBI_FIFO_UPDATED, mkTlb 0 0x3000 0 0 SBI_TLB_SFENCE_VMA (mkMask [3; 0])) /\
  covers (tlb_update_cb demo_next demo_curr).2 demo_curr.
Proof.
  split; [reflexivity|].
  pose proof (tlb_merge_sound demo_curr demo_next
    (demo_request_ok _ (or_introl eq_refl)) (demo_request_ok _ (or_intror eq_refl))) as H.
  destruct (tlb_update_cb demo_next demo_curr) as [r c'] eqn:E.
  destruct H as [_ [[-> _]|(_ & H & _)]]; [discriminate E|exact H].
Defined.

(** Processing a request ends, restores [hgatp] and executes the list of
    fences [tlb_ops]; for the supervisor fences these remove exactly the
    translations of the pages that intersect the range, in the address space
    the request names. *)
Lemma local_fences_correct t l :
  request_ok t ->
  (exists ev, tlb_entry_local_process t l =
     Some (mkLocal (hgatp l) (fences l ++ tlb_ops t) (fw_events l ++ ev))) /\
  (is_sfence t = true -> forall c,
     ops_kill (tlb_ops t) c = true <-> exists p a g, c = CVa p a g /\ page_in t p /\ asid_in t a g).
Proof.
  intros (_ & He & Hr). split; [by apply local_process_spec|]. intros Hs c.
  rewrite <- entry_kills_ops by done. by apply sfence_kills; [apply Hr|].
Qed.

Lemma local_fences_correct_witness :
  ops_kill (tlb_ops demo_next) (CVa 2 7 true) = true /\
  ops_kill (tlb_ops demo_next) (CVa 3 7 true) <> true.
Proof.
  destruct (local_fences_correct demo_next (mkLocal 0 [] []) (demo_request_ok _ (or_intror eq_refl)))
    as [_ H]. split.
  - apply (H eq_refl). exists 2, 7, true. split; [reflexivity|]. split; [|discriminate].
    right. unfold PAGE_SIZE. cbn. lia.
  - intros Hk. apply (H eq_refl) in Hk as (p & a & g & E & [Hp|Hp] & _); [discriminate Hp|].
    injection E as <- _ _. unfold PAGE_SIZE in Hp. cbn in Hp. lia.
Defined.

(** A request for everything written as start 0 and size 0, which the local
    functions honour, is lost when it meets a queued range that starts at 0: it
    is skipped, and no longer flushed by the entry that is kept.  Likewise a
    range that starts at 0 replaces a queued request for everything. *)
Lemma flush_all_request_lost n m1 m2 :
  0 < n <= 2 ^ 63 ->
  let range := mkTlb 0 n 0 0 SBI_TLB_SFENCE_VMA m1 in
  let all := mkTlb 0 0 0 0 SBI_TLB_SFENCE_VMA m2 in
  (tlb_update_cb all range).1 = SBI_FIFO_SKIP /\ ~ covers (tlb_update_cb all range).2 all /\
  (tlb_update_cb range all).1 = SBI_FIFO_UPDATED /\ ~ covers (tlb_update_cb range all).2 all.
Proof.
  intros Hn range all.
  assert (Hno : forall m, ~ covers (mkTlb 0 n 0 0 SBI_TLB_SFENCE_VMA m) all).
  { intros m Hc. specialize (Hc (CVa (2 ^ 60) 0 false) eq_refl).
    apply sfence_kills in Hc as (p & a & g & E & Hp & _); [|split; [done|right; unfold PAGE_SIZE; cbn; lia]|done].
    injection E as <- _ _. unfold page_in, SBI_TLB_FLUSH_ALL, ULONG_MAX, PAGE_SIZE in Hp. cbn in Hp. lia. }
  assert (Hw : u64 (0 + n) = n) by (apply wrap_small; lia).
  assert (E1 : tlb_update_cb all range
    = (SBI_FIFO_SKIP, mkTlb 0 n 0 0 SBI_TLB_SFENCE_VMA (sbi_hartmask_or m1 m1 m2))).
  { unfold tlb_update_cb, tlb_range_check, range, all. cbn -[wrap].
    rewrite Hw. change (u64 (0 + 0)) with 0. zcases; cbn; lia || done. }
  assert (E2 : tlb_update_cb range all
    = (SBI_FIFO_UPDATED, mkTlb 0 n 0 0 SBI_TLB_SFENCE_VMA (sbi_hartmask_or m2 m2 m1))).
  { unfold tlb_update_cb, tlb_range_check, range, all. cbn -[wrap].
    rewrite Hw. change (u64 (0 + 0)) with 0. zcases; cbn; lia || done. }
  rewrite E1, E2. split_and!; try done; apply Hno.
Qed.

Lemma flush_all_request_lost_witness :
  ~ covers (tlb_update_cb (mkTlb 0 0 0 0 SBI_TLB_SFENCE_VMA (mkMask [2; 0]))
              (mkTlb 0 0x1000 0 0 SBI_TLB_SFENCE_VMA (mkMask [1; 0]))).2
           (mkTlb 0 0 0 0 SBI_TLB_SFENCE_VMA (mkMask [2; 0])).
Proof. apply (flush_all_request_lost 0x1000 (mkMask [1; 0]) (mkMask [2; 0])). lia. Defined.
