(* ===== verification/SbiTlbSync.v ===== *)
(** * Remote fences: queueing, processing and synchronisation ([sbi_tlb.c])

    Each hart has a FIFO of fence requests and a counter of the requests other
    harts have not yet answered.  The first part gives the functions of
    [sbi_tlb.c] on the harts of a machine, for a hart that runs alone.  The
    second part is the interleaving of all harts: [tlb_step] has one rule for
    each access to shared data (a queue operation under its lock, an atomic
    update of a counter, a fence), so a request may be answered before its
    sender has counted it.  The queues are used through [BoundedQueue]. *)

From S2P Require Import Prelude SbiBitops SbiScratch SbiHartmask SbiFifo SbiIpi SbiTlb.

(** The counter of an [atomic_t] is a signed 64-bit word. *)
Definition atomic_add_return (counter value : Z) : Z := signed 64 (u64 (counter + value)).
Definition atomic_sub_return (counter value : Z) : Z := atomic_add_return counter (- value).

Section Tlb.
Context {F : Type} {BQ : BoundedQueue F sbi_tlb_info}.

Record tlb_hart := mkTH { tlb_sync_ctr : Z; tlb_fifo : F; tlb_local : hart_local }.

(** Hart indices to harts; an index without a scratch area is absent. *)
Abbreviation tlb_world := (gmap Z tlb_hart).

Definition set_ctr (v : Z) (h : tlb_hart) : tlb_hart := mkTH v (tlb_fifo h) (tlb_local h).
Definition set_fifo (f : F) (h : tlb_hart) : tlb_hart := mkTH (tlb_sync_ctr h) f (tlb_local h).
Definition set_local (l : hart_local) (h : tlb_hart) : tlb_hart :=
  mkTH (tlb_sync_ctr h) (tlb_fifo h) l.

Definition sync_dec (h : tlb_hart) : tlb_hart :=
  set_ctr (atomic_sub_return (tlb_sync_ctr h) 1) h.
Definition sync_inc (h : tlb_hart) : tlb_hart :=
  set_ctr (atomic_add_return (tlb_sync_ctr h) 1) h.

(** [self] is the hart that runs the function. *)
Definition tlb_entry_process (self : Z) (t : sbi_tlb_info) (w : tlb_world)
    : option tlb_world :=
  h ← w !! self;
  l ← tlb_entry_local_process t (tlb_local h);
  rs ← sbi_hartmask_for_each_hartindex (tlb_smask t);
  Some (foldl (fun w r => alter sync_dec r w) (<[self := set_local l h]> w) rs).

Definition tlb_process_once (self : Z) (w : tlb_world) : option (bool * tlb_world) :=
  h ← w !! self;
  let '(rc, x, f) := bq_dequeue (tlb_fifo h) in
  let w' := <[self := set_fifo f h]> w in
  match rc =? 0, x with
  | true, Some t => w'' ← tlb_entry_process self t w'; Some (true, w'')
  | true, None => None
  | false, _ => Some (false, w')
  end.

Fixpoint tlb_process (fuel : nat) (self : Z) (w : tlb_world) : option tlb_world :=
  match fuel with
  | O => None
  | S fuel' =>
      '(again, w') ← tlb_process_once self w;
      if again : bool then tlb_process fuel' self w' else Some w'
  end.

Fixpoint tlb_sync (fuel : nat) (self : Z) (w : tlb_world) : option tlb_world :=
  match fuel with
  | O => None
  | S fuel' =>
      h ← w !! self;
      if 0 <? tlb_sync_ctr h
      then '(_, w') ← tlb_process_once self w; tlb_sync fuel' self w'
      else Some w
  end.

Definition tlb_update (st : scratch_state) (self curr_hartid remote : Z) (t : sbi_tlb_info)
    (w : tlb_world) : option (Z * tlb_world) :=
  id ← sbi_hartindex_to_hartid st remote;
  h ← w !! self;
  if id =? curr_hartid then
    l ← tlb_entry_local_process t (tlb_local h);
    Some (SBI_IPI_UPDATE_BREAK, <[self := set_local l h]> w)
  else
    r ← w !! remote;
    let '(ret, f) := bq_update (tlb_fifo r) (tlb_update_cb t) in
    let w := <[remote := set_fifo f r]> w in
    if ret =? SBI_FIFO_UNCHANGED then
      let '(rc, f) := bq_enqueue f t false in
      let w := <[remote := set_fifo f r]> w in
      if rc <? 0 then
        '(_, w) ← tlb_process_once self w; Some (SBI_IPI_UPDATE_RETRY, w)
      else Some (SBI_IPI_UPDATE_SUCCESS, alter sync_inc self w)
    else Some (SBI_IPI_UPDATE_SUCCESS, alter sync_inc self w).

(** ** The interleaving of all harts *)

(** Where a hart is in its own request.  [posted] maps the targets already
    served with the request to the number of fences they had executed then. *)
Inductive sender : Type :=
  | Idle
  | Sending (t : sbi_tlb_info) (todo : gset Z) (posted : gmap Z nat)
  | Enqueuing (t : sbi_tlb_info) (r : Z) (todo : gset Z) (posted : gmap Z nat)
  | Counting (t : sbi_tlb_info) (r : Z) (todo : gset Z) (posted : gmap Z nat)
  | Waiting (t : sbi_tlb_info) (posted : gmap Z nat).

(** Where a hart is in processing a request of others: about to fence, or
    decrementing the counters of the remaining harts. *)
Inductive worker : Type :=
  | NoWork
  | Fencing (t : sbi_tlb_info)
  | Acking (rs : list Z).

Record phart := mkPH { p_hart : tlb_hart; p_send : sender; p_work : worker }.

Abbreviation pworld := (gmap Z phart).

Definition set_hart (h : tlb_hart) (p : phart) : phart := mkPH h (p_send p) (p_work p).
Definition set_send (x : sender) (p : phart) : phart := mkPH (p_hart p) x (p_work p).
Definition set_work (x : worker) (p : phart) : phart := mkPH (p_hart p) (p_send p) x.

Definition executed (p : phart) : list fence_op := fences (tlb_local (p_hart p)).
Definition p_fifo (p : phart) : F := tlb_fifo (p_hart p).

(** [tlb_process_once] is called from [tlb_process], [tlb_update] and [tlb_sync]. *)
Definition may_process (x : sender) : Prop :=
  match x with Idle | Sending _ _ _ | Waiting _ _ => True | _ => False end.

(** The request names its sender alone. *)
Definition from_hart (s : Z) (t : sbi_tlb_info) : Prop :=
  forall i, mask_has (tlb_smask t) i = (i =? s).

Inductive tlb_step (w : pworld) : pworld -> Prop :=
  | st_request s p t todo :
      w !! s = Some p -> p_send p = Idle -> p_work p = NoWork ->
      tlb_ok t -> from_hart s t -> todo ⊆ dom w ->
      tlb_step w (<[s := set_send (Sending t todo ∅) p]> w)
  | st_self s p t todo posted l :
      w !! s = Some p -> p_send p = Sending t todo posted -> p_work p = NoWork -> s ∈ todo ->
      tlb_entry_local_process t (tlb_local (p_hart p)) = Some l ->
      tlb_step w (<[s := mkPH (set_local l (p_hart p))
                           (Sending t (todo ∖ {[s]}) (<[s := length (executed p)]> posted)) NoWork]> w)
  | st_merge s p r q t todo posted ret f :
      w !! s = Some p -> p_send p = Sending t todo posted -> p_work p = NoWork ->
      r ∈ todo -> r <> s -> w !! r = Some q ->
      bq_update (p_fifo q) (tlb_update_cb t) = (ret, f) ->
      tlb_step w
        (<[s := set_send (if ret =? SBI_FIFO_UNCHANGED then Enqueuing t r todo posted
                          else Counting t r (todo ∖ {[r]}) (<[r := length (executed q)]> posted)) p]>
         (<[r := set_hart (set_fifo f (p_hart q)) q]> w))
  | st_enqueue s p r q t todo posted rc f :
      w !! s = Some p -> p_send p = Enqueuing t r todo posted -> p_work p = NoWork ->
      w !! r = Some q -> bq_enqueue (p_fifo q) t false = (rc, f) ->
      tlb_step w
        (<[s := set_send (if rc <? 0 then Sending t todo posted
                          else Counting t r (todo ∖ {[r]}) (<[r := length (executed q)]> posted)) p]>
         (<[r := set_hart (set_fifo f (p_hart q)) q]> w))
  | st_count s p r t todo posted :
      w !! s = Some p -> p_send p = Counting t r todo posted -> p_work p = NoWork ->
      tlb_step w (<[s := mkPH (sync_inc (p_hart p)) (Sending t todo posted) NoWork]> w)
  | st_wait s p t todo posted :
      w !! s = Some p -> p_send p = Sending t todo posted -> p_work p = NoWork ->
      tlb_step w (<[s := set_send (Waiting t posted) p]> w)
  | st_done s p t posted :
      w !! s = Some p -> p_send p = Waiting t posted -> p_work p = NoWork ->
      tlb_sync_ctr (p_hart p) <= 0 ->
      tlb_step w (<[s := set_send Idle p]> w)
  | st_take s p rc t f :
      w !! s = Some p -> may_process (p_send p) -> p_work p = NoWork ->
      bq_dequeue (p_fifo p) = (rc, Some t, f) -> rc = 0 ->
      tlb_step w (<[s := mkPH (set_fifo f (p_hart p)) (p_send p) (Fencing t)]> w)
  | st_poll s p rc f :
      w !! s = Some p -> may_process (p_send p) -> p_work p = NoWork ->
      bq_dequeue (p_fifo p) = (rc, None, f) ->
      tlb_step w (<[s := set_hart (set_fifo f (p_hart p)) p]> w)
  | st_fence s p t l rs :
      w !! s = Some p -> p_work p = Fencing t ->
      tlb_entry_local_process t (tlb_local (p_hart p)) = Some l ->
      sbi_hartmask_for_each_hartindex (tlb_smask t) = Some rs ->
      tlb_step w (<[s := mkPH (set_local l (p_hart p)) (p_send p) (Acking rs)]> w)
  | st_ack s p r rs :
      w !! s = Some p -> p_work p = Acking (r :: rs) ->
      tlb_step w (alter (fun q => set_hart (sync_dec (p_hart q)) q) r
                    (<[s := set_work (Acking rs) p]> w))
  | st_acked s p :
      w !! s = Some p -> p_work p = Acking [] ->
      tlb_step w (<[s := set_work NoWork p]> w).

Definition req_of (x : sender) : option sbi_tlb_info :=
  match x with
  | Idle => None
  | Sending t _ _ | Enqueuing t _ _ _ | Counting t _ _ _ | Waiting t _ => Some t
  end.

(** The requests under way satisfy [ok]. *)
Definition requests_in (ok : sbi_tlb_info -> Prop) (w : pworld) : Prop :=
  forall s p t, w !! s = Some p -> req_of (p_send p) = Some t -> ok t.

(** Runs in which every request satisfies [ok]. *)
Inductive tlb_reachable (ok : sbi_tlb_info -> Prop) (w0 : pworld) : pworld -> Prop :=
  | reach_refl : tlb_reachable ok w0 w0
  | reach_step w w' : tlb_reachable ok w0 w -> tlb_step w w' -> requests_in ok w' -> tlb_reachable ok w0 w'.

(** Every request that may be merged is a range of pages as [range_ok] describes. *)
Definition ranges_ok (ok : sbi_tlb_info -> Prop) : Prop :=
  forall t, ok t -> is_sfence t = true -> range_ok t.

(** All queues empty, all counters zero, nobody active. *)
Definition tlb_initial (w : pworld) : Prop :=
  forall i p, w !! i = Some p ->
    0 <= i < SBI_HARTMASK_MAX_BITS /\ p_send p = Idle /\ p_work p = NoWork /\
    tlb_sync_ctr (p_hart p) = 0 /\ bq_inv (p_fifo p) /\ bq_abs (p_fifo p) = [].

(** ** Counting the answers a hart still waits for *)

Variable ok : sbi_tlb_info -> Prop.

(** [t] will be answered to hart [s]. *)
Definition asks (s : Z) (t : sbi_tlb_info) : nat := Nat.b2n (mask_has (tlb_smask t) s).

Definition work_asks (s : Z) (x : worker) : nat :=
  match x with
  | NoWork => 0
  | Fencing t => asks s t
  | Acking rs => length (filter (eq s) rs)
  end.

(** Answers hart [p] still has to give to [s]. *)
Definition pend (p : phart) (s : Z) : nat :=
  sum_list (asks s <$> bq_abs (p_fifo p)) + work_asks s (p_work p).

Definition pendw (w : pworld) (r s : Z) : nat :=
  match w !! r with Some p => pend p s | None => 0 end.

Definition owed (w : pworld) (s : Z) : nat :=
  sum_list ((fun r => pendw w r s) <$> seqZ 0 SBI_HARTMASK_MAX_BITS).

Definition uncounted (p : phart) : Z :=
  match p_send p with Counting _ _ _ _ => 1 | _ => 0 end.

Definition posted_of (x : sender) : gmap Z nat :=
  match x with
  | Idle => ∅
  | Sending _ _ m | Enqueuing _ _ _ m | Counting _ _ _ m | Waiting _ m => m
  end.

Definition todo_of (x : sender) : gset Z :=
  match x with
  | Idle | Waiting _ _ => ∅
  | Sending _ d _ | Enqueuing _ _ d _ | Counting _ _ d _ => d
  end.

(** The requests a hart has not yet fenced for. *)
Definition queued (p : phart) : list sbi_tlb_info :=
  bq_abs (p_fifo p) ++ match p_work p with Fencing t => [t] | _ => [] end.

(** Since it had executed [n] fences, [q] has fenced for [t], or it holds a
    request to be answered to [s] that will. *)
Definition served (q : phart) (n : nat) (s : Z) (t : sbi_tlb_info) : Prop :=
  (n <= length (executed q))%nat /\
  ((forall c, entry_kills t c = true -> ops_kill (drop n (executed q)) c = true) \/
   exists e, e ∈ queued q /\ mask_has (tlb_smask e) s = true /\ covers e t).

Definition req_good (t : sbi_tlb_info) : Prop :=
  tlb_ok t /\ (ranges_ok ok -> is_sfence t = true -> range_ok t).

Definition send_ok (s : Z) (x : sender) : Prop :=
  (forall t, req_of x = Some t -> req_good t /\ from_hart s t) /\
  todo_of x ## dom (posted_of x) /\
  match x with Enqueuing _ r todo _ => r ∈ todo /\ r <> s | _ => True end.

Definition hart_ok (i : Z) (p : phart) : Prop :=
  0 <= i < SBI_HARTMASK_MAX_BITS /\ bq_inv (p_fifo p) /\
  Forall req_good (queued p) /\ send_ok i (p_send p).

Record tlb_inv (w : pworld) : Prop := {
  i_hart : map_Forall hart_ok w;
  i_ctr s p : w !! s = Some p ->
    tlb_sync_ctr (p_hart p) + uncounted p = Z.of_nat (owed w s);
  i_pend r s : (pendw w r s <= 1)%nat;
  i_posted r s : (0 < pendw w r s)%nat ->
    exists p, w !! s = Some p /\ is_Some (posted_of (p_send p) !! r);
  i_served s p t r n : ranges_ok ok -> w !! s = Some p -> req_of (p_send p) = Some t ->
    posted_of (p_send p) !! r = Some n -> exists q, w !! r = Some q /\ served q n s t
}.

Lemma sum_upd (f g : Z -> nat) l x :
  NoDup l -> x ∈ l -> (forall y, y <> x -> f y = g y) ->
  (sum_list (f <$> l) + g x = sum_list (g <$> l) + f x)%nat.
Proof.
  intros Hnd Hx Hfg. induction Hnd as [|y l Hy Hnd IH]; [by apply not_elem_of_nil in Hx|].
  cbn. destruct (decide (y = x)) as [->|Hne].
  - replace (f <$> l) with (g <$> l); [lia|]. apply list_fmap_ext. intros i z Hz.
    symmetry. apply Hfg. intros ->. by apply Hy, list_elem_of_lookup_2 with i.
  - rewrite (Hfg y Hne). apply elem_of_cons in Hx as [->|Hx]; [done|]. specialize (IH Hx). lia.
Qed.

Lemma owed_upd w w' r s :
  0 <= r < SBI_HARTMASK_MAX_BITS -> (forall i, i <> r -> pendw w' i s = pendw w i s) ->
  (owed w' s + pendw w r s = owed w s + pendw w' r s)%nat.
Proof.
  intros Hr Heq. apply (sum_upd (fun i => pendw w' i s) (fun i => pendw w i s)).
  - apply NoDup_seqZ.
  - apply elem_of_seqZ. lia.
  - done.
Qed.

Lemma owed_same w w' s : (forall i, pendw w' i s = pendw w i s) -> owed w' s = owed w s.
Proof. intros H. unfold owed. f_equal. apply list_fmap_ext. intros. apply H. Qed.

Lemma owed_bound w s : (forall r, (pendw w r s <= 1)%nat) -> (owed w s <= 128)%nat.
Proof.
  intros Hp. unfold owed.
  assert (forall l, (sum_list ((fun r => pendw w r s) <$> l) <= length l)%nat) as Hl.
  { induction l as [|x l IH]; cbn; [done|]. pose proof (Hp x). lia. }
  etrans; [apply Hl|]. by rewrite length_seqZ.
Qed.

Lemma owed_zero w s r :
  owed w s = 0%nat -> 0 <= r < SBI_HARTMASK_MAX_BITS -> pendw w r s = 0%nat.
Proof.
  intros H0 Hr. unfold owed in H0.
  assert (forall l, sum_list ((fun r => pendw w r s) <$> l) = 0%nat ->
                    forall x, x ∈ l -> pendw w x s = 0%nat) as Hl.
  { induction l as [|x l IH]; cbn; intros Hs y Hy; [by apply not_elem_of_nil in Hy|].
    apply elem_of_cons in Hy as [->|Hy]; [lia|]. apply IH; [lia|done]. }
  apply (Hl _ H0), elem_of_seqZ. lia.
Qed.

Lemma pendw_insert w i p r s :
  pendw (<[i := p]> w) r s = if decide (i = r) then pend p s else pendw w r s.
Proof. unfold pendw. destruct (decide (i = r)) as [->|]; [by rewrite lookup_insert_eq|by rewrite lookup_insert_ne]. Qed.

Lemma atomic_small c v :
  - 2 ^ 63 <= c + v < 2 ^ 63 -> atomic_add_return c v = c + v.
Proof.
  intros H. unfold atomic_add_return, signed, wrap.
  destruct (Z.leb_spec 0 (c + v)).
  - rewrite Z.mod_small by lia. by destruct (Z.ltb_spec (c + v) (2 ^ (64 - 1))); lia.
  - replace ((c + v) mod 2 ^ 64) with (c + v + 2 ^ 64)
      by (apply (Z.mod_unique _ _ (-1)); lia).
    destruct (Z.ltb_spec (c + v + 2 ^ 64) (2 ^ (64 - 1))); lia.
Qed.

(** ** Preservation *)

(** A step of hart [i] that neither takes nor gives an answer. *)
Lemma inv_update w i p p' :
  tlb_inv w -> w !! i = Some p -> hart_ok i p' ->
  (forall s, pend p' s = pend p s) ->
  tlb_sync_ctr (p_hart p') + uncounted p' = tlb_sync_ctr (p_hart p) + uncounted p ->
  (forall r, (0 < pendw w r i)%nat -> is_Some (posted_of (p_send p) !! r) ->
             is_Some (posted_of (p_send p') !! r)) ->
  (forall n s t, ranges_ok ok -> served p n s t -> served p' n s t) ->
  (forall r n t, posted_of (p_send p') !! r = Some n -> req_of (p_send p') = Some t ->
     (posted_of (p_send p) !! r = Some n /\ req_of (p_send p) = Some t) \/
     (r = i /\ (ranges_ok ok -> served p' n i t))) ->
  tlb_inv (<[i := p']> w).
Proof.
  intros Hinv Hi Hok Hpend Hctr Hpost Hserv Hnew.
  assert (forall r s, pendw (<[i := p']> w) r s = pendw w r s) as Hpw.
  { intros r s. rewrite pendw_insert. destruct (decide (i = r)) as [<-|]; [|done].
    unfold pendw. by rewrite Hi, Hpend. }
  split.
  - apply map_Forall_insert_2; [done|apply Hinv].
  - intros s q Hq. rewrite (owed_same w) by (intros; apply Hpw).
    apply lookup_insert_Some in Hq as [[<- <-]|[Hne Hq]]; [|by apply Hinv].
    rewrite Hctr. by apply Hinv.
  - intros r s. rewrite Hpw. apply Hinv.
  - intros r s. rewrite Hpw. intros H0. destruct (i_posted _ Hinv r s H0) as (q & Hq & Hp).
    destruct (decide (i = s)) as [<-|Hne].
    + exists p'. rewrite lookup_insert_eq. split; [done|]. apply Hpost; [done|congruence].
    + exists q. by rewrite lookup_insert_ne.
  - intros s q t r n G Hs Ht Hn.
    assert (Hold : forall q0, w !! s = Some q0 -> req_of (p_send q0) = Some t ->
      posted_of (p_send q0) !! r = Some n ->
      exists q', (<[i := p']> w) !! r = Some q' /\ served q' n s t).
    { intros q0 H1 H2 H3. destruct (i_served _ Hinv s q0 t r n G H1 H2 H3) as (q' & Hq' & Hsv).
      destruct (decide (i = r)) as [<-|Hne].
      - exists p'. rewrite lookup_insert_eq. split; [done|]. apply Hserv; [done|congruence].
      - exists q'. by rewrite lookup_insert_ne. }
    apply lookup_insert_Some in Hs as [[<- <-]|[Hne Hs]]; [|by apply (Hold q)].
    destruct (Hnew r n t Hn Ht) as [[H1 H2]|[-> Hsv]]; [by apply (Hold p)|].
    exists p'. rewrite lookup_insert_eq. auto.
Qed.

(** Two harts change at once. *)
Lemma lookup_insert2 (w : pworld) s p' r q' j x :
  <[s := p']> (<[r := q']> w) !! j = Some x ->
  (j = s /\ x = p') \/ (j = r /\ x = q') \/ (j <> s /\ j <> r /\ w !! j = Some x).
Proof.
  intros Hj. apply lookup_insert_Some in Hj as [[<- <-]|[? Hj]]; [by left|right].
  apply lookup_insert_Some in Hj as [[<- <-]|[? Hj]]; [by left|by right].
Qed.

Lemma pendw_insert2 w s p p' r q q' i j :
  w !! s = Some p -> w !! r = Some q -> r <> s ->
  (forall j, pend p' j = pend p j) -> (forall j, pend q' j = (pend q j + Nat.b2n (Z.eqb j s))%nat) ->
  pendw (<[s := p']> (<[r := q']> w)) i j = (pendw w i j + Nat.b2n (Z.eqb i r && Z.eqb j s))%nat.
Proof.
  intros Hs Hr Hrs Hp Hq. rewrite !pendw_insert. unfold pendw.
  destruct (decide (s = i)) as [<-|].
  - rewrite Hs, Hp. destruct (Z.eqb_spec s r); [congruence|]. cbn. lia.
  - destruct (decide (r = i)) as [<-|]; [by rewrite Hr, Hq, Z.eqb_refl|].
    destruct (Z.eqb_spec i r); [congruence|]. cbn. lia.
Qed.

Lemma served_insert2 (w : pworld) s p p' r q q' :
  w !! s = Some p -> w !! r = Some q -> r <> s ->
  (forall n j t, served p n j t -> served p' n j t) ->
  (forall n j t, served q n j t -> served q' n j t) ->
  forall i x n j t, w !! i = Some x -> served x n j t ->
  exists x', <[s := p']> (<[r := q']> w) !! i = Some x' /\ served x' n j t.
Proof.
  intros Hs Hr Hrs Hp Hq i x n j t Hi Hsv. destruct (decide (i = s)) as [->|].
  - exists p'. rewrite lookup_insert_eq. split; [done|]. apply Hp. congruence.
  - rewrite lookup_insert_ne by done. destruct (decide (i = r)) as [->|].
    + exists q'. rewrite lookup_insert_eq. split; [done|]. apply Hq. congruence.
    + exists x. by rewrite lookup_insert_ne.
Qed.

(** Hart [r] has taken over the request of hart [s], which has not counted it yet. *)
Lemma inv_post w s p r q q' t todo posted :
  tlb_inv w -> w !! s = Some p -> w !! r = Some q -> r <> s ->
  req_of (p_send p) = Some t -> todo_of (p_send p) = todo -> posted_of (p_send p) = posted ->
  r ∈ todo -> uncounted p = 0 ->
  hart_ok r q' -> p_send q' = p_send q ->
  tlb_sync_ctr (p_hart q') = tlb_sync_ctr (p_hart q) ->
  (forall s', pend q' s' = (pend q s' + Nat.b2n (Z.eqb s' s))%nat) ->
  (forall n s' t', ranges_ok ok -> served q n s' t' -> served q' n s' t') ->
  (ranges_ok ok -> served q' (length (executed q)) s t) ->
  tlb_inv (<[s := set_send (Counting t r (todo ∖ {[r]}) (<[r := length (executed q)]> posted)) p]>
             (<[r := q']> w)).
Proof.
  intros Hinv Hs Hr Hrs Hreq Htodo Hposted Hin Hunc Hok Hsend Hctr Hpend Hserv Hnew.
  pose proof (map_Forall_lookup_1 _ _ _ _ (i_hart _ Hinv) Hs) as (Hsr & Hbs & Hqs & Hss & Hdisj & _).
  pose proof (map_Forall_lookup_1 _ _ _ _ (i_hart _ Hinv) Hr) as (Hrr & _).
  assert (Hnone : posted !! r = None).
  { apply not_elem_of_dom. rewrite Htodo, Hposted in Hdisj. set_solver. }
  set (p' := set_send _ p). set (w' := <[s := p']> (<[r := q']> w)).
  assert (Hpw : forall i j, pendw w' i j = (pendw w i j + Nat.b2n (Z.eqb i r && Z.eqb j s))%nat)
    by (intros i j; by apply (pendw_insert2 w s p p' r q q')).
  pose proof (fun G => served_insert2 w s p p' r q q' Hs Hr Hrs (fun _ _ _ H => H) (fun n i t' => Hserv n i t' G)) as Hnew'.
  pose proof (lookup_insert2 w s p' r q') as Hlook. fold w' in Hnew', Hlook.
  assert (Hw'r : w' !! r = Some q') by (unfold w'; by rewrite lookup_insert_ne, lookup_insert_eq).
  assert (Hz : pendw w r s = 0%nat).
  { destruct (Nat.eq_dec (pendw w r s) 0%nat) as [|H0]; [done|].
    destruct (i_posted _ Hinv r s ltac:(lia)) as (p0 & Hp0 & [n Hn]). congruence. }
  split.
  - apply map_Forall_insert_2; [|apply map_Forall_insert_2; [done|apply Hinv]].
    split_and!; try done; try lia. split; [|split; [|done]].
    + intros t0 E. cbn in E. simplify_eq. by apply Hss.
    + cbn. rewrite dom_insert_L. rewrite Htodo, Hposted in Hdisj. set_solver.
  - intros j x Hj. pose proof (owed_upd w w' r j Hrr) as Ho. rewrite Hpw, Z.eqb_refl in Ho.
    assert (forall i, i <> r -> pendw w' i j = pendw w i j) as Hne.
    { intros i Hi. rewrite Hpw. destruct (Z.eqb_spec i r); [done|]. cbn. lia. }
    specialize (Ho Hne). cbn [andb] in Ho.
    apply Hlook in Hj as [[-> ->]|[[-> ->]|(Hjs & Hjr & Hj)]].
    + rewrite Z.eqb_refl in Ho. cbn in Ho |- *. pose proof (i_ctr _ Hinv s p Hs). lia.
    + destruct (Z.eqb_spec r s); [done|]. cbn in Ho. pose proof (i_ctr _ Hinv r q Hr) as Hc.
      unfold uncounted in *. rewrite Hsend, Hctr. lia.
    + destruct (Z.eqb_spec j s); [done|]. cbn in Ho. pose proof (i_ctr _ Hinv j x Hj). lia.
  - intros i j. rewrite Hpw. pose proof (i_pend _ Hinv i j).
    destruct (Z.eqb_spec i r) as [->|], (Z.eqb_spec j s) as [->|]; cbn; lia.
  - intros i j. rewrite Hpw. intros H0.
    destruct (decide (i = r /\ j = s)) as [[-> ->]|Hne].
    { exists p'. unfold w'. rewrite lookup_insert_eq. split; [done|]. cbn. by rewrite lookup_insert_eq. }
    assert (0 < pendw w i j)%nat as H1.
    { destruct (Z.eqb_spec i r), (Z.eqb_spec j s); cbn in H0; try lia; tauto. }
    destruct (i_posted _ Hinv i j H1) as (x & Hx & Hp).
    destruct (decide (j = s)) as [->|Hjs]; [exists p'; unfold w'; rewrite lookup_insert_eq|].
    { split; [done|]. cbn. rewrite lookup_insert_ne by (intros ->; by apply Hne). congruence. }
    destruct (decide (j = r)) as [->|Hjr]; [exists q'; split; [done|]; rewrite Hsend; congruence|].
    exists x. unfold w'. by rewrite !lookup_insert_ne.
  - intros j x t0 i n G Hj Ht Hn. specialize (Hnew G). specialize (Hnew' G). apply Hlook in Hj as [[-> ->]|[[-> ->]|(Hjs & Hjr & Hj)]].
    + cbn in Ht, Hn. injection Ht as <-.
      apply lookup_insert_Some in Hn as [[<- <-]|[Hne Hn]]; [by exists q'|].
      destruct (i_served _ Hinv s p t i n G Hs Hreq) as (y & Hy & Hsv); [congruence|].
      by apply (Hnew' i y).
    + rewrite Hsend in Ht, Hn. destruct (i_served _ Hinv r q t0 i n G Hr Ht Hn) as (y & Hy & Hsv).
      by apply (Hnew' i y).
    + destruct (i_served _ Hinv j x t0 i n G Hj Ht Hn) as (y & Hy & Hsv). by apply (Hnew' i y).
Qed.

Lemma ctr_range w s p : tlb_inv w -> w !! s = Some p -> -1 <= tlb_sync_ctr (p_hart p) <= 128.
Proof.
  intros Hinv Hs. pose proof (i_ctr _ Hinv s p Hs). pose proof (owed_bound w s (fun r => i_pend _ Hinv r s)).
  unfold uncounted in *. destruct (p_send p); lia.
Qed.

(** Hart [s] answers hart [r]. *)
Lemma ack_lookup (w : pworld) s p r rs j x :
  w !! s = Some p -> p_work p = Acking (r :: rs) ->
  alter (fun q => set_hart (sync_dec (p_hart q)) q) r (<[s := set_work (Acking rs) p]> w) !! j = Some x ->
  exists y, w !! j = Some y /\ p_send x = p_send y /\ executed x = executed y /\
    p_fifo x = p_fifo y /\ queued x = queued y /\
    tlb_sync_ctr (p_hart x) =
      (if j =? r then atomic_sub_return (tlb_sync_ctr (p_hart y)) 1 else tlb_sync_ctr (p_hart y)).
Proof.
  intros Hs Hw. rewrite lookup_alter.
  assert (Hx : forall z, <[s := set_work (Acking rs) p]> w !! j = Some z ->
     exists y, w !! j = Some y /\ p_send z = p_send y /\ p_hart z = p_hart y /\ queued z = queued y).
  { intros z Hz. apply lookup_insert_Some in Hz as [[<- <-]|[_ Hz]]; [|by exists z].
    exists p. unfold queued. by rewrite Hw. }
  destruct (decide (r = j)) as [<-|Hne].
  - rewrite Z.eqb_refl. intros (z & Hz & ->)%fmap_Some_1.
    destruct (Hx z Hz) as (y & Hy & E1 & E2 & E3). exists y. unfold executed, p_fifo. cbn.
    rewrite <- E1, <- E2, <- E3. done.
  - intros Hz. destruct (Hx x Hz) as (y & Hy & E1 & E2 & E3). exists y.
    destruct (Z.eqb_spec j r); [congruence|]. unfold executed, p_fifo. by rewrite E2.
Qed.

Lemma ack_pendw (w : pworld) s p r rs i j :
  w !! s = Some p -> p_work p = Acking (r :: rs) ->
  (pendw (alter (fun q => set_hart (sync_dec (p_hart q)) q) r (<[s := set_work (Acking rs) p]> w)) i j
   + Nat.b2n (Z.eqb i s && Z.eqb j r) = pendw w i j)%nat.
Proof.
  intros Hs Hw.
  assert (forall v : pworld, pendw (alter (fun q => set_hart (sync_dec (p_hart q)) q) r v) i j = pendw v i j) as ->.
  { intros v. unfold pendw. rewrite lookup_alter. destruct (decide (r = i)) as [<-|]; [|done].
    by destruct (v !! r). }
  rewrite pendw_insert. unfold pendw. destruct (decide (s = i)) as [<-|].
  - rewrite Hs, Z.eqb_refl. unfold pend. rewrite Hw.
    change (p_fifo (set_work (Acking rs) p)) with (p_fifo p). cbn [set_work p_work work_asks andb].
    rewrite filter_cons. case_decide; destruct (Z.eqb_spec j r); try done; cbn [Nat.b2n length]; lia.
  - destruct (Z.eqb_spec i s); [congruence|]. cbn. lia.
Qed.

Lemma inv_ack w s p r rs :
  tlb_inv w -> w !! s = Some p -> p_work p = Acking (r :: rs) ->
  tlb_inv (alter (fun q => set_hart (sync_dec (p_hart q)) q) r (<[s := set_work (Acking rs) p]> w)).
Proof.
  intros Hinv Hs Hw. pose proof (ack_pendw w s p r rs) as Hpw.
  pose proof (fun j x => ack_lookup w s p r rs j x Hs Hw) as Hlook.
  set (w' := alter _ r _) in *.
  assert (Hpw' : forall i j, (pendw w' i j + Nat.b2n (Z.eqb i s && Z.eqb j r) = pendw w i j)%nat)
    by (intros; by apply Hpw).
  assert (Hback : forall j y, w !! j = Some y -> exists x, w' !! j = Some x).
  { intros j y Hj. apply (elem_of_dom w'). unfold w'. rewrite dom_alter_L, dom_insert_L.
    apply elem_of_union_r, elem_of_dom. by exists y. }
  pose proof (map_Forall_lookup_1 _ _ _ _ (i_hart _ Hinv) Hs) as (Hsr & _).
  split.
  - intros j x Hx. destruct (Hlook j x Hx) as (y & Hy & E1 & E2 & E3 & E4 & _).
    pose proof (map_Forall_lookup_1 _ _ _ _ (i_hart _ Hinv) Hy) as Hok.
    unfold hart_ok in *. by rewrite E1, E3, E4.
  - intros j x Hx. destruct (Hlook j x Hx) as (y & Hy & E1 & _ & _ & _ & Hc). rewrite Hc.
    pose proof (ctr_range w j y Hinv Hy). pose proof (i_ctr _ Hinv j y Hy) as Hcy.
    pose proof (owed_upd w w' s j Hsr) as Ho. pose proof (Hpw' s j) as Hp. rewrite Z.eqb_refl in Hp.
    assert (forall i, i <> s -> pendw w' i j = pendw w i j) as Hne.
    { intros i Hi. rewrite <- (Hpw' i j). destruct (Z.eqb_spec i s); [done|]. cbn. lia. }
    specialize (Ho Hne). unfold uncounted in *. rewrite E1.
    destruct (Z.eqb_spec j r); cbn in Hp.
    + unfold atomic_sub_return. rewrite atomic_small by lia. lia.
    + lia.
  - intros i j. pose proof (Hpw' i j). pose proof (i_pend _ Hinv i j). lia.
  - intros i j H0. pose proof (Hpw' i j). destruct (i_posted _ Hinv i j ltac:(lia)) as (y & Hy & Hp).
    destruct (Hback j y Hy) as (x & Hx). exists x. split; [done|].
    destruct (Hlook j x Hx) as (y' & Hy' & E1 & _). rewrite E1. congruence.
  - intros j x t i n G Hx Ht Hn. destruct (Hlook j x Hx) as (y & Hy & E1 & _). rewrite E1 in *.
    destruct (i_served _ Hinv j y t i n G Hy Ht Hn) as (q & Hq & Hsv).
    destruct (Hback i q Hq) as (q' & Hq'). exists q'. split; [done|].
    destruct (Hlook i q' Hq') as (q0 & Hq0 & _ & E2 & _ & E4 & _). simplify_eq.
    unfold served in *. by rewrite E2, E4.
Qed.

(** ** Effects of the queue operations *)

Lemma update_cb_valid t x : tlb_ok t -> tlb_ok x -> tlb_ok (tlb_update_cb t x).2.
Proof.
  intros Ht Hx. unfold tlb_update_cb, tlb_range_check.
  repeat case_match; cbn; try done; destruct Ht as (? & ? & ? & ? & ? & ?), Hx as (? & ? & ? & ? & ? & ?);
    split_and!; cbn; try lia; by apply mask_or_ok.
Qed.

Lemma req_good_request t : ranges_ok ok -> is_sfence t = true -> req_good t -> request_ok t.
Proof.
  intros G Hs [Ho Hr]. specialize (Hr G Hs). split; [done|]. split; [by apply range_ok_ends|done].
Qed.

Lemma req_good_size t : req_good t -> 0 <= tlb_size t < 2 ^ 64.
Proof. by intros ((_ & ? & _) & _). Qed.

(** What a merge does to a request of the queue. *)
Lemma merge_good t x : req_good t -> req_good x ->
  let '(r, x') := tlb_update_cb t x in
  req_good x' /\
  ((r = SBI_FIFO_UNCHANGED /\ x' = x) \/
   ((r = SBI_FIFO_UPDATED \/ r = SBI_FIFO_SKIP) /\ (ranges_ok ok -> covers x' x /\ covers x' t) /\
    tlb_smask x' = sbi_hartmask_or (tlb_smask x) (tlb_smask x) (tlb_smask t))).
Proof.
  intros Ht Hx. pose proof (tlb_update_cb_any x t (proj1 Hx) (proj1 Ht)) as Hany.
  pose proof (fun G Hsx Hst => tlb_update_cb_spec x t (req_good_request x G Hsx Hx) (req_good_request t G Hst Ht)) as Hcb.
  destruct (tlb_update_cb t x) as [r x']. destruct Hany as [Ho [[-> ->]|(Hr & Hsx & Hst & Hm)]].
  - split; [done|by left].
  - specialize (fun G => Hcb G Hsx Hst). split; [split; [done|intros G Hs; by apply (Hcb G)]|right].
    split; [done|]. split; [|done]. intros G.
    destruct (Hcb G) as [_ [[-> _]|(_ & H1 & H2 & _)]]; [|done]. by destruct Hr.
Qed.

Lemma queue_update_cases t q :
  req_good t -> Forall req_good q ->
  let '(ret, q') := Queue.update (tlb_update_cb t) q SBI_FIFO_UNCHANGED in
  (ret = SBI_FIFO_UNCHANGED /\ q' = q) \/
  (ret <> SBI_FIFO_UNCHANGED /\ exists q1 c c' q2, q = q1 ++ c :: q2 /\ q' = q1 ++ c' :: q2 /\
     req_good c' /\ (ranges_ok ok -> covers c' c /\ covers c' t) /\
     tlb_smask c' = sbi_hartmask_or (tlb_smask c) (tlb_smask c) (tlb_smask t)).
Proof.
  intros Ht Hq. induction Hq as [|x q Hx Hq IH]; [by left|]. cbn [Queue.update].
  pose proof (merge_good t x Ht Hx) as Hcb. destruct (tlb_update_cb t x) as [r x'].
  destruct Hcb as [Hx' [[-> ->]|(Hr & H12 & H3)]].
  - cbn. destruct (Queue.update _ q _) as [ret q'].
    destruct IH as [[-> ->]|(Hne & q1 & c & c' & q2 & -> & -> & IH)]; [by left|right].
    split; [done|]. exists (x :: q1), c, c', q2. done.
  - destruct Hr as [-> | ->]; cbn; right; (split; [done|]); by exists [], x, x', q.
Qed.

Lemma not_pending w s p r :
  tlb_inv w -> w !! s = Some p -> r ∈ todo_of (p_send p) -> pendw w r s = 0%nat.
Proof.
  intros Hinv Hs Hr. destruct (Nat.eq_dec (pendw w r s) 0%nat) as [|H0]; [done|].
  destruct (i_posted _ Hinv r s ltac:(lia)) as (p0 & Hp0 & Hn). simplify_eq.
  destruct (map_Forall_lookup_1 _ _ _ _ (i_hart _ Hinv) Hs) as (_ & _ & _ & _ & Hd & _).
  apply elem_of_dom in Hn. set_solver.
Qed.

Lemma count_members m s : length (filter (eq s) (members m)) = Nat.b2n (mask_has m s).
Proof.
  assert (forall l : list Z, NoDup l ->
    length (filter (eq s) l) = if decide (s ∈ l) then 1%nat else 0%nat) as Hl.
  { induction 1 as [|x l Hx Hnd IH]; [done|]. rewrite filter_cons.
    destruct (decide (s = x)); cbn [length]; rewrite IH; repeat case_decide; set_solver. }
  rewrite Hl by (apply NoDup_filter, NoDup_seqZ).
  pose proof (elem_of_members m s). case_decide; destruct (mask_has m s); naive_solver.
Qed.

Lemma asks_from s t j : from_hart s t -> asks j t = Nat.b2n (Z.eqb j s).
Proof. intros H. unfold asks. by rewrite H. Qed.

Lemma asks_merge c c' t s j :
  req_good c -> req_good t -> from_hart s t ->
  tlb_smask c' = sbi_hartmask_or (tlb_smask c) (tlb_smask c) (tlb_smask t) ->
  asks j c' = Nat.b2n (mask_has (tlb_smask c) j || Z.eqb j s).
Proof.
  intros ((_ & _ & _ & _ & _ & Hc) & _) ((_ & _ & _ & _ & _ & Ht) & _) Hf E.
  unfold asks. by rewrite E, mask_or_has, Hf.
Qed.

(** Executing fences for [t] serves [t] and keeps what was served. *)
Lemma executed_local p l t :
  req_good t -> tlb_entry_local_process t (tlb_local (p_hart p)) = Some l ->
  fences l = executed p ++ tlb_ops t /\ forall c, entry_kills t c = ops_kill (tlb_ops t) c.
Proof.
  intros Ht Hl. pose proof (fun c => local_process_ops t _ _ c (req_good_size t Ht) Hl) as H.
  split; [apply (H CInsn)|intros c; apply H].
Qed.

Lemma served_grow p p' ops n s t :
  executed p' = executed p ++ ops ->
  (forall e, e ∈ queued p -> e ∈ queued p' \/ (forall c, entry_kills e c = true -> ops_kill ops c = true)) ->
  served p n s t -> served p' n s t.
Proof.
  intros He Hq [Hn Hs]. split; [rewrite He, length_app; lia|].
  rewrite He, drop_app_le by done. destruct Hs as [Hs|(e & Hin & Hm & Hc)].
  - left. intros c Hk. by rewrite ops_kill_app, Hs.
  - destruct (Hq e Hin) as [Hin'|Hk]; [right; by exists e|left].
    intros c Hkc. rewrite ops_kill_app, (Hk c), orb_true_r; [done|]. by apply Hc.
Qed.

(** ** Each rule keeps the invariant *)

Hypothesis valid_tlb : forall t, bq_valid (F := F) t <-> tlb_ok t.

Lemma hart_ok_of w i p : tlb_inv w -> w !! i = Some p -> hart_ok i p.
Proof. intros Hinv Hi. exact (map_Forall_lookup_1 _ _ _ _ (i_hart _ Hinv) Hi). Qed.

Lemma queued_fifo p e : e ∈ bq_abs (p_fifo p) -> e ∈ queued p.
Proof. intros H. unfold queued. apply elem_of_app. by left. Qed.

Lemma pend_set_fifo q f j :
  pend (set_hart (set_fifo f (p_hart q)) q) j =
  (sum_list (asks j <$> bq_abs f) + work_asks j (p_work q))%nat.
Proof. done. Qed.

(** The queue of [r] changes, and what it held is still there. *)
Lemma served_set_fifo q f n s t :
  (forall e, e ∈ bq_abs (p_fifo q) -> exists e', e' ∈ bq_abs f /\ covers e' e /\
     (mask_has (tlb_smask e) s = true -> mask_has (tlb_smask e') s = true)) ->
  served q n s t -> served (set_hart (set_fifo f (p_hart q)) q) n s t.
Proof.
  intros Hf [Hn Hs]. split; [done|]. destruct Hs as [Hs|(e & Hin & Hm & Hc)]; [by left|right].
  unfold queued in *. apply elem_of_app in Hin as [Hin|Hin].
  - destruct (Hf e Hin) as (e' & He' & Hc' & Hm'). exists e'. split_and!; [|auto|].
    + apply elem_of_app. by left.
    + intros c Hk. by apply Hc', Hc.
  - exists e. split_and!; try done. apply elem_of_app. by right.
Qed.

Lemma hart_ok_fifo r q f :
  hart_ok r q -> bq_inv f -> Forall req_good (bq_abs f) ->
  hart_ok r (set_hart (set_fifo f (p_hart q)) q).
Proof.
  intros (H1 & _ & H3 & H4) Hf Hq. split_and!; try done; try lia.
  unfold queued in *. apply Forall_app in H3 as [_ H3]. by apply Forall_app.
Qed.

Lemma covers_refl t : covers t t.
Proof. by intros c. Qed.

Lemma sum_asks_app j (a b : list sbi_tlb_info) :
  sum_list (asks j <$> a ++ b) = (sum_list (asks j <$> a) + sum_list (asks j <$> b))%nat.
Proof. by rewrite fmap_app, sum_list_with_app. Qed.

Lemma sum_asks_cons j c (b : list sbi_tlb_info) :
  sum_list (asks j <$> c :: b) = (asks j c + sum_list (asks j <$> b))%nat.
Proof. done. Qed.

Lemma merge_hit_inv w s p r q t todo posted f q1 c c' q2 :
  tlb_inv w -> w !! s = Some p -> p_send p = Sending t todo posted -> r ∈ todo -> r <> s ->
  w !! r = Some q -> bq_inv f -> bq_abs (p_fifo q) = q1 ++ c :: q2 -> bq_abs f = q1 ++ c' :: q2 ->
  req_good c' -> (ranges_ok ok -> covers c' c /\ covers c' t) ->
  tlb_smask c' = sbi_hartmask_or (tlb_smask c) (tlb_smask c) (tlb_smask t) ->
  tlb_inv (<[s := set_send (Counting t r (todo ∖ {[r]}) (<[r := length (executed q)]> posted)) p]>
             (<[r := set_hart (set_fifo f (p_hart q)) q]> w)).
Proof.
  intros Hinv Hs Hsend Hin Hrs Hr Hf Hq Hq' Hok Hct Hm.
  pose proof (hart_ok_of w s p Hinv Hs) as (_ & _ & _ & Hss & _).
  pose proof (hart_ok_of w r q Hinv Hr) as Hrok. pose proof Hrok as (_ & _ & Hqq & _).
  destruct (Hss t) as [Hreq Hfrom]; [by rewrite Hsend|].
  pose proof (not_pending w s p r Hinv Hs) as Hz. rewrite Hsend in Hz. specialize (Hz Hin).
  unfold pendw in Hz. rewrite Hr in Hz. unfold pend in Hz.
  rewrite Hq, sum_asks_app, sum_asks_cons in Hz.
  unfold queued in Hqq. rewrite Hq, !Forall_app, Forall_cons in Hqq.
  destruct Hqq as [(Hq1 & Hqc & Hq2) _].
  assert (Hhas : forall j, mask_has (tlb_smask c') j = mask_has (tlb_smask c) j || Z.eqb j s).
  { intros j. destruct Hqc as ((_ & _ & _ & _ & _ & Hcm) & _), Hreq as ((_ & _ & _ & _ & _ & Htm) & _).
    by rewrite Hm, mask_or_has, Hfrom. }
  apply inv_post; try done; rewrite ?Hsend; try done.
  - by unfold uncounted; rewrite Hsend.
  - apply hart_ok_fifo; try done. rewrite Hq'. by apply Forall_app; split; [|constructor].
  - intros j. rewrite pend_set_fifo. unfold pend. rewrite Hq, Hq', !sum_asks_app, !sum_asks_cons.
    unfold asks at 2. unfold asks at 4. rewrite Hhas. destruct (Z.eqb_spec j s) as [->|].
    + unfold asks at 2 in Hz. destruct (mask_has (tlb_smask c) s); cbn in *; lia.
    + rewrite orb_false_r. cbn. lia.
  - intros n j t' G. destruct (Hct G) as [Hc _]. apply served_set_fifo. rewrite Hq, Hq'. intros e He.
    apply elem_of_app in He as [He|[->|He]%elem_of_cons].
    + exists e. split_and!; [set_solver|apply covers_refl|done].
    + exists c'. split_and!; [set_solver|done|]. rewrite Hhas. by intros ->.
    + exists e. split_and!; [set_solver|apply covers_refl|done].
  - intros G. destruct (Hct G) as [_ Ht]. split; [done|]. right. exists c'. split_and!; [|by rewrite Hhas, Z.eqb_refl, orb_true_r|done].
    apply queued_fifo. unfold p_fifo. cbn. rewrite Hq'. set_solver.
Qed.

Lemma enqueue_hit_inv w s p r q t todo posted f :
  tlb_inv w -> w !! s = Some p -> p_send p = Enqueuing t r todo posted ->
  w !! r = Some q -> bq_inv f -> bq_abs f = bq_abs (p_fifo q) ++ [t] ->
  tlb_inv (<[s := set_send (Counting t r (todo ∖ {[r]}) (<[r := length (executed q)]> posted)) p]>
             (<[r := set_hart (set_fifo f (p_hart q)) q]> w)).
Proof.
  intros Hinv Hs Hsend Hr Hf Hq'.
  pose proof (hart_ok_of w s p Hinv Hs) as (_ & _ & _ & Hss & _ & He). rewrite Hsend in He.
  destruct He as [Hin Hrs]. pose proof (hart_ok_of w r q Hinv Hr) as Hrok.
  destruct (Hss t) as [Hreq Hfrom]; [by rewrite Hsend|].
  apply inv_post; try done; rewrite ?Hsend; try done.
  - by unfold uncounted; rewrite Hsend.
  - apply hart_ok_fifo; try done. rewrite Hq'. destruct Hrok as (_ & _ & Hqq & _).
    apply Forall_app in Hqq as [Hqq _]. by apply Forall_app; split; [|constructor].
  - intros j. rewrite pend_set_fifo, Hq', sum_asks_app, sum_asks_cons, (asks_from s) by done.
    unfold pend. cbn. lia.
  - intros n j t' _. apply served_set_fifo. rewrite Hq'. intros e He.
    exists e. split_and!; [set_solver|apply covers_refl|done].
  - intros _. split; [done|]. right. exists t. split_and!; [|by rewrite Hfrom, Z.eqb_refl|apply covers_refl].
    apply queued_fifo. unfold p_fifo. cbn. rewrite Hq'. set_solver.
Qed.

(** The queue operation left the requests as they were. *)
Lemma miss_inv w s p r q f x :
  tlb_inv w -> w !! s = Some p -> w !! r = Some q -> r <> s -> bq_inv f ->
  bq_abs f = bq_abs (p_fifo q) -> send_ok s x ->
  posted_of x = posted_of (p_send p) -> req_of x = req_of (p_send p) ->
  uncounted (set_send x p) = uncounted p ->
  tlb_inv (<[s := set_send x p]> (<[r := set_hart (set_fifo f (p_hart q)) q]> w)).
Proof.
  intros Hinv Hs Hr Hrs Hf Hq Hx Hpo Hre Hun.
  pose proof (hart_ok_of w r q Hinv Hr) as Hrok. pose proof Hrok as (_ & _ & Hqq & _).
  assert (tlb_inv (<[r := set_hart (set_fifo f (p_hart q)) q]> w)) as Hinv1.
  { apply (inv_update w r q); try done.
    - apply hart_ok_fifo; try done. rewrite Hq. by apply Forall_app in Hqq as [? _].
    - intros j. rewrite pend_set_fifo, Hq. done.
    - intros n j t _. apply served_set_fifo. rewrite Hq. intros e He.
      exists e. by split_and!; [|apply covers_refl|].
    - intros. by left. }
  pose proof (hart_ok_of w s p Hinv Hs) as (Hsr & Hsb & Hsq & _).
  apply (inv_update _ s p); try done.
  - by rewrite lookup_insert_ne.
  - by rewrite Hun.
  - intros i _ Hi. cbn. by rewrite Hpo.
  - intros i n t Hn Ht. cbn in *. left. by rewrite <- Hpo, <- Hre.
Qed.

Lemma step_merge_inv w s p r q t todo posted ret f :
  tlb_inv w -> w !! s = Some p -> p_send p = Sending t todo posted ->
  r ∈ todo -> r <> s -> w !! r = Some q ->
  bq_update (p_fifo q) (tlb_update_cb t) = (ret, f) ->
  tlb_inv
    (<[s := set_send (if ret =? SBI_FIFO_UNCHANGED then Enqueuing t r todo posted
                      else Counting t r (todo ∖ {[r]}) (<[r := length (executed q)]> posted)) p]>
     (<[r := set_hart (set_fifo f (p_hart q)) q]> w)).
Proof.
  intros Hinv Hs Hsend Hin Hrs Hr Hu.
  pose proof (hart_ok_of w r q Hinv Hr) as (_ & Hb & Hqq & _). apply Forall_app in Hqq as [Hqq _].
  pose proof (hart_ok_of w s p Hinv Hs) as (_ & _ & _ & Hss). rewrite Hsend in Hss.
  pose proof Hss as (Ht & Hdis & _). destruct (Ht t eq_refl) as [Hreq Hfrom].
  pose proof (bq_update_ok (p_fifo q) (tlb_update_cb t) Hb) as Hl. rewrite Hu in Hl.
  destruct Hl as (Hf & _ & Habs).
  { intros x Hx. apply valid_tlb, update_cb_valid; [apply Hreq|by apply valid_tlb]. }
  pose proof (queue_update_cases t (bq_abs (p_fifo q)) Hreq Hqq) as Hc.
  rewrite <- Habs in Hc. destruct Hc as [[-> Hsame]|(Hne & q1 & c & c' & q2 & H1 & H2 & H3 & H45 & H6)].
  - rewrite Z.eqb_refl. apply miss_inv; try done; rewrite ?Hsend; try done.
    by unfold uncounted; rewrite Hsend.
  - destruct (Z.eqb_spec ret SBI_FIFO_UNCHANGED); [done|].
    by apply (merge_hit_inv w s p r q t todo posted f q1 c c' q2).
Qed.

Lemma step_enqueue_inv w s p r q t todo posted rc f :
  tlb_inv w -> w !! s = Some p -> p_send p = Enqueuing t r todo posted -> w !! r = Some q ->
  bq_enqueue (p_fifo q) t false = (rc, f) ->
  tlb_inv
    (<[s := set_send (if rc <? 0 then Sending t todo posted
                      else Counting t r (todo ∖ {[r]}) (<[r := length (executed q)]> posted)) p]>
     (<[r := set_hart (set_fifo f (p_hart q)) q]> w)).
Proof.
  intros Hinv Hs Hsend Hr Hu.
  pose proof (hart_ok_of w r q Hinv Hr) as (_ & Hb & _ & _).
  pose proof (hart_ok_of w s p Hinv Hs) as (_ & _ & _ & Hss). rewrite Hsend in Hss.
  pose proof Hss as (Ht & Hdis & Hin & Hrs). destruct (Ht t eq_refl) as [Hreq Hfrom].
  pose proof (bq_enqueue_ok (p_fifo q) t false Hb) as Hl. rewrite Hu in Hl.
  destruct Hl as (Hf & _ & Habs); [apply valid_tlb, Hreq|].
  unfold Queue.enqueue in Habs. destruct (_ <? _)%nat; injection Habs as -> Habs.
  - by apply enqueue_hit_inv.
  - apply miss_inv; try done; rewrite ?Hsend; try done. by unfold uncounted; rewrite Hsend.
Qed.

(** A step that only moves the sender's own program counter. *)
Lemma sender_inv w s p x :
  tlb_inv w -> w !! s = Some p -> send_ok s x ->
  (forall r, (0 < pendw w r s)%nat -> posted_of x !! r = posted_of (p_send p) !! r) ->
  (forall r n t, posted_of x !! r = Some n -> req_of x = Some t ->
     posted_of (p_send p) !! r = Some n /\ req_of (p_send p) = Some t) ->
  uncounted (set_send x p) = uncounted p ->
  tlb_inv (<[s := set_send x p]> w).
Proof.
  intros Hinv Hs Hx Hpo Hre Hun.
  pose proof (hart_ok_of w s p Hinv Hs) as (Hsr & Hsb & Hsq & _).
  apply (inv_update w s p); try done.
  - by rewrite Hun.
  - intros r Hr Hp. cbn. by rewrite Hpo.
  - intros r n t Hn Ht. left. by apply Hre.
Qed.

Lemma step_self_inv w s p t todo posted l :
  tlb_inv w -> w !! s = Some p -> p_send p = Sending t todo posted -> p_work p = NoWork ->
  s ∈ todo -> tlb_entry_local_process t (tlb_local (p_hart p)) = Some l ->
  tlb_inv (<[s := mkPH (set_local l (p_hart p))
                   (Sending t (todo ∖ {[s]}) (<[s := length (executed p)]> posted)) NoWork]> w).
Proof.
  intros Hinv Hs Hsend Hw Hin Hl.
  pose proof (hart_ok_of w s p Hinv Hs) as (Hsr & Hsb & Hsq & Hss). rewrite Hsend in Hss.
  destruct Hss as (Ht & Hdis & _). destruct (Ht t eq_refl) as [Hreq Hfrom].
  destruct (executed_local p l t Hreq Hl) as [Hex Hko]. set (p' := mkPH _ _ _).
  assert (Hex' : executed p' = executed p ++ tlb_ops t) by exact Hex.
  assert (Hqd : queued p' = queued p) by (unfold queued; by rewrite Hw).
  apply (inv_update w s p); try done.
  - split_and!; try done; try lia; [by rewrite Hqd|]. split; [done|split; [|done]].
    cbn in *. rewrite dom_insert_L. set_solver.
  - intros j. unfold pend. by rewrite Hw.
  - by unfold uncounted; rewrite Hsend.
  - intros r _. rewrite Hsend. cbn. destruct (decide (s = r)) as [<-|].
    + rewrite lookup_insert_eq. done.
    + by rewrite lookup_insert_ne.
  - intros n j t' _. apply (served_grow p p' (tlb_ops t)); [done|]. rewrite Hqd. by left.
  - intros r n t' Hn Ht'. cbn in Hn, Ht'. injection Ht' as <-. rewrite Hsend.
    apply lookup_insert_Some in Hn as [[<- <-]|[_ Hn]]; [right|by left]. split; [done|intros _].
    split; [rewrite Hex', length_app; lia|]. left. intros c Hk.
    by rewrite Hex', drop_app_length, <- Hko.
Qed.

Lemma step_take_inv w s p rc t f :
  tlb_inv w -> w !! s = Some p -> p_work p = NoWork ->
  bq_dequeue (p_fifo p) = (rc, Some t, f) ->
  tlb_inv (<[s := mkPH (set_fifo f (p_hart p)) (p_send p) (Fencing t)]> w).
Proof.
  intros Hinv Hs Hw Hd. pose proof (hart_ok_of w s p Hinv Hs) as (Hsr & Hsb & Hsq & Hss).
  pose proof (bq_dequeue_ok (p_fifo p) Hsb) as Hl. rewrite Hd in Hl. destruct Hl as (Hf & _ & Habs).
  destruct (bq_abs (p_fifo p)) as [|t0 q0] eqn:Eq; cbn in Habs; [done|].
  injection Habs as -> <- <-.
  set (p' := mkPH _ _ _).
  assert (Hqd : forall e, e ∈ queued p <-> e ∈ queued p').
  { intros e. unfold queued. rewrite Hw, Eq. cbn. set_solver. }
  apply (inv_update w s p); try done.
  - split_and!; try done; try lia. rewrite Forall_forall in *. intros e He. by apply Hsq, Hqd.
  - intros j. unfold pend. rewrite Hw, Eq, sum_asks_cons.
    change (p_fifo p') with f. change (p_work p') with (Fencing t). cbn [work_asks]. lia.
  - intros n j t' _. apply (served_grow p p' []).
    + unfold executed. cbn. by rewrite app_nil_r.
    + intros e He. left. by apply Hqd.
  - intros. by left.
Qed.

Lemma step_fence_inv w s p t l rs :
  tlb_inv w -> w !! s = Some p -> p_work p = Fencing t ->
  tlb_entry_local_process t (tlb_local (p_hart p)) = Some l ->
  sbi_hartmask_for_each_hartindex (tlb_smask t) = Some rs ->
  tlb_inv (<[s := mkPH (set_local l (p_hart p)) (p_send p) (Acking rs)]> w).
Proof.
  intros Hinv Hs Hw Hl Hrs. pose proof (hart_ok_of w s p Hinv Hs) as (Hsr & Hsb & Hsq & Hss).
  unfold queued in Hsq. rewrite Hw, Forall_app, Forall_singleton in Hsq. destruct Hsq as [Hsq Hreq].
  destruct (executed_local p l t Hreq Hl) as [Hex Hko]. set (p' := mkPH _ _ _).
  rewrite for_each_members in Hrs by apply Hreq. injection Hrs as <-.
  apply (inv_update w s p); try done.
  - split_and!; try done; try lia. unfold queued. cbn. by rewrite app_nil_r.
  - intros j. unfold pend. rewrite Hw. cbn [p' p_work work_asks].
    unfold asks at 3. by rewrite count_members.
  - intros n j t' _. apply (served_grow p p' (tlb_ops t)); [exact Hex|]. intros e He.
    unfold queued in He |- *. rewrite Hw in He. apply elem_of_app in He as [He|He].
    + left. apply elem_of_app. by left.
    + apply list_elem_of_singleton in He as ->. right. intros c Hk.
      by rewrite <- Hko.
  - intros. by left.
Qed.

Lemma step_acked_inv w s p :
  tlb_inv w -> w !! s = Some p -> p_work p = Acking [] -> tlb_inv (<[s := set_work NoWork p]> w).
Proof.
  intros Hinv Hs Hw. pose proof (hart_ok_of w s p Hinv Hs) as (Hsr & Hsb & Hsq & Hss).
  assert (Hqd : queued (set_work NoWork p) = queued p) by (unfold queued; by rewrite Hw).
  apply (inv_update w s p); try done.
  - split_and!; try done; try lia. by rewrite Hqd.
  - intros j. unfold pend. by rewrite Hw.
  - intros n j t _. unfold served. rewrite Hqd. done.
  - intros. by left.
Qed.

Lemma step_count_inv w s p r t todo posted :
  tlb_inv w -> w !! s = Some p -> p_send p = Counting t r todo posted -> p_work p = NoWork ->
  tlb_inv (<[s := mkPH (sync_inc (p_hart p)) (Sending t todo posted) NoWork]> w).
Proof.
  intros Hinv Hs Hsend Hw. pose proof (hart_ok_of w s p Hinv Hs) as (Hsr & Hsb & Hsq & Hss).
  rewrite Hsend in Hss. destruct Hss as (Ht & Hdis & _). set (p' := mkPH _ _ _).
  assert (Hqd : queued p' = queued p) by (unfold queued; by rewrite Hw).
  apply (inv_update w s p); try done.
  - split_and!; try done; try lia. by rewrite Hqd.
  - intros j. unfold pend. by rewrite Hw.
  - cbn. pose proof (ctr_range w s p Hinv Hs). rewrite atomic_small by lia.
    unfold uncounted. rewrite Hsend. cbn. lia.
  - intros i _. by rewrite Hsend.
  - intros n j t' _. unfold served. by rewrite Hqd.
  - intros i n t' Hn Ht'. left. by rewrite Hsend.
Qed.

Lemma step_poll_inv w s p rc f :
  tlb_inv w -> w !! s = Some p -> bq_dequeue (p_fifo p) = (rc, None, f) ->
  tlb_inv (<[s := set_hart (set_fifo f (p_hart p)) p]> w).
Proof.
  intros Hinv Hs Hd. pose proof (hart_ok_of w s p Hinv Hs) as Hok. pose proof Hok as (_ & Hsb & Hsq & _).
  pose proof (bq_dequeue_ok (p_fifo p) Hsb) as Hl. rewrite Hd in Hl. destruct Hl as (Hf & _ & Habs).
  destruct (bq_abs (p_fifo p)) as [|t0 q0] eqn:Eq; cbn in Habs; [|done].
  injection Habs as -> Habs. apply (inv_update w s p); try done.
  - apply hart_ok_fifo; try done. by rewrite Habs.
  - intros j. rewrite pend_set_fifo, Habs. unfold pend. by rewrite Eq.
  - intros n j t _. apply served_set_fifo. rewrite Eq. intros e He. by apply not_elem_of_nil in He.
  - intros. by left.
Qed.

Lemma idle_pending w s p :
  tlb_inv w -> w !! s = Some p -> uncounted p = 0 -> tlb_sync_ctr (p_hart p) <= 0 ->
  tlb_sync_ctr (p_hart p) = 0 /\ forall r, pendw w r s = 0%nat.
Proof.
  intros Hinv Hs Hun Hc. pose proof (i_ctr _ Hinv s p Hs) as Ho. split; [lia|]. intros r.
  destruct (w !! r) as [q|] eqn:Hr; [|unfold pendw; by rewrite Hr].
  apply owed_zero; [lia|]. by apply (hart_ok_of w r q Hinv Hr).
Qed.

Lemma step_inv w w' : tlb_inv w -> tlb_step w w' -> requests_in ok w' -> tlb_inv w'.
Proof.
  intros Hinv Hstep Hok. destruct Hstep as
    [s p t todo Hs Hsend Hw Ht Hf Hd|s p t todo posted l Hs Hsend Hw Hin Hl
    |s p r q t todo posted ret f Hs Hsend Hw Hin Hrs Hr Hu|s p r q t todo posted rc f Hs Hsend Hw Hr Hu
    |s p r t todo posted Hs Hsend Hw|s p t todo posted Hs Hsend Hw|s p t posted Hs Hsend Hw Hc
    |s p rc t f Hs Hm Hw Hd Hrc|s p rc f Hs Hm Hw Hd|s p t l rs Hs Hw Hl Hrs
    |s p r rs Hs Hw|s p Hs Hw].
  - apply sender_inv; rewrite ?Hsend; try done.
    + split; [|split; [|done]]; cbn; [|rewrite dom_empty_L; set_solver].
      intros t0 [= <-]. split; [|done]. split; [done|]. intros G. apply G, (Hok s (set_send (Sending t todo ∅) p) t); [by rewrite lookup_insert_eq|done].
    + by unfold uncounted; rewrite Hsend.
  - by apply step_self_inv.
  - by apply step_merge_inv.
  - by apply step_enqueue_inv.
  - by apply (step_count_inv w s p r).
  - pose proof (hart_ok_of w s p Hinv Hs) as (_ & _ & _ & Hss). rewrite Hsend in Hss.
    destruct Hss as (Ht & _). apply sender_inv; rewrite ?Hsend; try done.
    by unfold uncounted; rewrite Hsend.
  - assert (uncounted p = 0) as Hun by (unfold uncounted; by rewrite Hsend).
    destruct (idle_pending w s p Hinv Hs Hun Hc) as [_ Hz].
    apply sender_inv; rewrite ?Hsend; try done.
    intros r Hr. rewrite Hz in Hr. lia.
  - by apply (step_take_inv w s p rc).
  - by apply (step_poll_inv w s p rc).
  - by apply (step_fence_inv w s p t).
  - by apply inv_ack.
  - by apply step_acked_inv.
Qed.

Lemma initial_inv w : tlb_initial w -> tlb_inv w.
Proof.
  intros H0. assert (forall r s, pendw w r s = 0%nat) as Hz.
  { intros r s. unfold pendw. destruct (w !! r) as [q|] eqn:Hr; [|done].
    destruct (H0 r q Hr) as (_ & _ & Hw & _ & _ & Hq). unfold pend. by rewrite Hw, Hq. }
  split.
  - intros i p Hi. destruct (H0 i p Hi) as (Hr & Hse & Hw & _ & Hb & Hq).
    split_and!; try done; try lia; [unfold queued; by rewrite Hq, Hw|].
    rewrite Hse. split; [done|]. split; [|done]. cbn. set_solver.
  - intros s p Hs. destruct (H0 s p Hs) as (_ & Hse & _ & -> & _).
    unfold uncounted. rewrite Hse. unfold owed.
    replace (sum_list _) with 0%nat; [done|]. induction (seqZ _ _) as [|x l IH]; [done|].
    cbn. rewrite Hz. exact IH.
  - intros r s. rewrite Hz. lia.
  - intros r s. rewrite Hz. lia.
  - intros s p t r n _ Hs Ht. destruct (H0 s p Hs) as (_ & Hse & _). by rewrite Hse in Ht.
Qed.

Lemma tlb_reachable_inv w0 w : tlb_initial w0 -> tlb_reachable ok w0 w -> tlb_inv w.
Proof.
  intros H0. induction 1 as [|w w' Hr IH Hs Ho]; [by apply initial_inv|by apply (step_inv w)].
Qed.

Lemma queued_pend p e s : e ∈ queued p -> mask_has (tlb_smask e) s = true -> (0 < pend p s)%nat.
Proof.
  intros He Hm. unfold pend. unfold queued in He. apply elem_of_app in He as [He|He].
  - apply list_elem_of_split in He as (a & b & ->). rewrite sum_asks_app, sum_asks_cons.
    unfold asks at 2. rewrite Hm. cbn. lia.
  - destruct (p_work p); [by apply not_elem_of_nil in He| |by apply not_elem_of_nil in He].
    apply list_elem_of_singleton in He as ->. cbn. unfold asks. rewrite Hm. cbn. lia.
Qed.

Lemma fence_complete w0 w s p t posted :
  tlb_initial w0 -> tlb_reachable ok w0 w ->
  w !! s = Some p -> p_send p = Waiting t posted -> tlb_sync_ctr (p_hart p) <= 0 ->
  tlb_sync_ctr (p_hart p) = 0 /\
  (forall r q e, w !! r = Some q -> e ∈ queued q -> mask_has (tlb_smask e) s = false) /\
  (ranges_ok ok -> forall r n, posted !! r = Some n ->
     exists q, w !! r = Some q /\
       forall c, entry_kills t c = true -> ops_kill (drop n (executed q)) c = true).
Proof.
  intros H0 Hreach Hs Hsend Hc. pose proof (tlb_reachable_inv w0 w H0 Hreach) as Hinv.
  destruct (idle_pending w s p Hinv Hs) as [Hz Hp]; [by unfold uncounted; rewrite Hsend|done|].
  assert (Hno : forall r q e, w !! r = Some q -> e ∈ queued q -> mask_has (tlb_smask e) s = false).
  { intros r q e Hr He. specialize (Hp r). unfold pendw in Hp. rewrite Hr in Hp.
    destruct (mask_has (tlb_smask e) s) eqn:E; [|done]. pose proof (queued_pend q e s He E). lia. }
  split_and!; [done|done|]. intros G r n Hn.
  destruct (i_served _ Hinv s p t r n G Hs) as (q & Hq & _ & Hsv); [by rewrite Hsend|by rewrite Hsend|].
  exists q. split; [done|]. destruct Hsv as [Hk|(e & He & Hm & _)]; [done|].
  by rewrite (Hno r q e Hq He) in Hm.
Qed.

(** ** The functions are runs of the interleaving *)

(** [w'] differs from [w] by what the hart data say, apart from [self]. *)
Definition same_others (self : Z) (x : sender) (y : worker) (w w' : pworld) : Prop :=
  p_send <$> w' = <[self := x]> (p_send <$> w) /\ p_work <$> w' = <[self := y]> (p_work <$> w).

Lemma lookup_hart (w : pworld) i h :
  (p_hart <$> w) !! i = Some h -> exists p, w !! i = Some p /\ p_hart p = h.
Proof. rewrite lookup_fmap. intros (p & Hp & ->)%fmap_Some_1. by exists p. Qed.

Lemma fmap_dec (w : pworld) r :
  p_hart <$> alter (fun q => set_hart (sync_dec (p_hart q)) q) r w = alter sync_dec r (p_hart <$> w).
Proof.
  apply map_eq. intros i. rewrite lookup_fmap, !lookup_alter, lookup_fmap.
  case_decide as E; [|by rewrite lookup_fmap]. by destruct (w !! r).
Qed.

Lemma fmap_dec_send (w : pworld) r :
  p_send <$> alter (fun q => set_hart (sync_dec (p_hart q)) q) r w = p_send <$> w.
Proof.
  apply map_eq. intros i. rewrite !lookup_fmap, lookup_alter.
  case_decide as E; [subst|done]. by destruct (w !! i).
Qed.

Lemma fmap_dec_work (w : pworld) r :
  p_work <$> alter (fun q => set_hart (sync_dec (p_hart q)) q) r w = p_work <$> w.
Proof.
  apply map_eq. intros i. rewrite !lookup_fmap, lookup_alter.
  case_decide as E; [subst|done]. by destruct (w !! i).
Qed.

(** Answering every hart of the mask. *)
Lemma ack_run rs : forall (w : pworld) s p,
  w !! s = Some p -> p_work p = Acking rs ->
  exists w', rtc tlb_step w w' /\ same_others s (p_send p) NoWork w w' /\
    p_hart <$> w' = foldl (fun v r => alter sync_dec r v) (p_hart <$> w) rs.
Proof.
  induction rs as [|r rs IH]; intros w s p Hs Hw.
  - exists (<[s := set_work NoWork p]> w). split_and!.
    + apply rtc_once. by apply st_acked.
    + split; rewrite fmap_insert; done.
    + rewrite fmap_insert. cbn. apply insert_id. by rewrite lookup_fmap, Hs.
  - set (w1 := alter (fun q => set_hart (sync_dec (p_hart q)) q) r (<[s := set_work (Acking rs) p]> w)).
    assert (exists p1, w1 !! s = Some p1 /\ p_work p1 = Acking rs /\ p_send p1 = p_send p)
      as (p1 & Hp1 & Hw1 & Hse1).
    { unfold w1. rewrite lookup_alter. case_decide as E; [subst|]; rewrite lookup_insert_eq; by eexists. }
    destruct (IH w1 s p1 Hp1 Hw1) as (w' & Hrun & [Hso1 Hso2] & Hh).
    exists w'. split_and!.
    + eapply rtc_l; [|exact Hrun]. by apply st_ack.
    + unfold w1 in *. rewrite fmap_dec_send, fmap_insert, insert_insert_eq in Hso1.
      rewrite fmap_dec_work, fmap_insert, insert_insert_eq in Hso2.
      split; [by rewrite Hso1, Hse1|done].
    + rewrite Hh. cbn [foldl]. unfold w1. rewrite fmap_dec, fmap_insert. cbn.
      rewrite (insert_id (p_hart <$> w)) by (by rewrite lookup_fmap, Hs). done.
Qed.

Lemma process_once_runs (w : pworld) self p b v :
  w !! self = Some p -> may_process (p_send p) -> p_work p = NoWork -> bq_inv (p_fifo p) ->
  tlb_process_once self (p_hart <$> w) = Some (b, v) ->
  exists w', rtc tlb_step w w' /\ same_others self (p_send p) NoWork w w' /\ p_hart <$> w' = v.
Proof.
  intros Hs Hm Hw Hb Hp. unfold tlb_process_once in Hp.
  rewrite lookup_fmap, Hs in Hp. cbn [fmap option_fmap option_map] in Hp.
  rewrite some_bind in Hp. pose proof (bq_dequeue_ok (p_fifo p) Hb) as Hd.
  change (tlb_fifo (p_hart p)) with (p_fifo p) in Hp.
  destruct (bq_dequeue (p_fifo p)) as [[rc x] f] eqn:Eq. destruct Hd as (_ & _ & Habs).
  destruct (bq_abs (p_fifo p)) as [|t q]; cbn in Habs; injection Habs as -> -> Habs.
  - injection Hp as <- <-. exists (<[self := set_hart (set_fifo f (p_hart p)) p]> w). split_and!.
    + apply rtc_once. by eapply st_poll.
    + split; rewrite fmap_insert; cbn; [done|]. by rewrite Hw.
    + by rewrite fmap_insert.
  - cbn [Z.eqb] in Hp. unfold tlb_entry_process in Hp. rewrite lookup_insert_eq, some_bind in Hp.
    cbn [set_fifo tlb_local] in Hp.
    destruct (tlb_entry_local_process t (tlb_local (p_hart p))) as [l|] eqn:El; [|done].
    rewrite some_bind in Hp.
    destruct (sbi_hartmask_for_each_hartindex (tlb_smask t)) as [rs|] eqn:Er; [|done].
    rewrite !some_bind in Hp. injection Hp as <- <-.
    set (p1 := mkPH (set_fifo f (p_hart p)) (p_send p) (Fencing t)).
    set (p2 := mkPH (set_local l (p_hart p1)) (p_send p) (Acking rs)).
    destruct (ack_run rs (<[self := p2]> (<[self := p1]> w)) self p2) as (w' & Hrun & [Ho1 Ho2] & Hh);
      [by rewrite lookup_insert_eq|done|].
    exists w'. split_and!.
    + eapply rtc_l; [by eapply (st_take w self p)|]. eapply rtc_l; [|exact Hrun].
      apply (st_fence _ self p1 t l rs); try done. by rewrite lookup_insert_eq.
    + split; [rewrite Ho1|rewrite Ho2]; by rewrite !fmap_insert, !insert_insert_eq.
    + rewrite Hh, !fmap_insert, !insert_insert_eq. done.
Qed.

(** The three views of a state after a queue operation of [s] on [r]. *)
Lemma post_views (w : pworld) s p r q x h :
  w !! s = Some p -> w !! r = Some q -> r <> s ->
  let w1 := <[s := set_send x p]> (<[r := set_hart h q]> w) in
  p_hart <$> w1 = <[r := h]> (p_hart <$> w) /\ p_send <$> w1 = <[s := x]> (p_send <$> w) /\
  p_work <$> w1 = p_work <$> w /\ w1 !! s = Some (set_send x p) /\ w1 !! r = Some (set_hart h q).
Proof.
  intros Hs Hr Hrs. cbv zeta. rewrite !fmap_insert. cbn [set_send set_hart p_hart p_send p_work].
  split_and!.
  - apply insert_id. by rewrite lookup_insert_ne, lookup_fmap, Hs.
  - f_equal. apply insert_id. by rewrite lookup_fmap, Hr.
  - rewrite (insert_id _ r) by (by rewrite lookup_fmap, Hr). apply insert_id. by rewrite lookup_fmap, Hs.
  - by rewrite lookup_insert_eq.
  - by rewrite lookup_insert_ne, lookup_insert_eq.
Qed.

Lemma count_run (w : pworld) s p r t todo posted :
  w !! s = Some p -> p_send p = Counting t r todo posted -> p_work p = NoWork ->
  exists w', tlb_step w w' /\ same_others s (Sending t todo posted) NoWork w w' /\
    p_hart <$> w' = alter sync_inc s (p_hart <$> w).
Proof.
  intros Hs Hsend Hw. exists (<[s := mkPH (sync_inc (p_hart p)) (Sending t todo posted) NoWork]> w).
  split_and!; [by eapply st_count|split; by rewrite fmap_insert|].
  rewrite fmap_insert. apply map_eq. intros i. rewrite lookup_alter.
  case_decide as E; [subst i|by rewrite lookup_insert_ne].
  by rewrite lookup_insert_eq, lookup_fmap, Hs.
Qed.

(** The state after [tlb_update] returned [rc] to hart [s]. *)
Definition after_update (rc : Z) (t : sbi_tlb_info) (remote : Z) (n : nat) (todo : gset Z)
    (posted : gmap Z nat) : sender :=
  if rc =? SBI_IPI_UPDATE_RETRY then Sending t todo posted
  else Sending t (todo ∖ {[remote]}) (<[remote := n]> posted).

(** From an unsuccessful merge on: the request is appended and counted, or the
    queue is full and the hart answers one request of its own queue. *)
Lemma enqueue_runs (w : pworld) self p remote q t todo posted rc2 f2 rc v :
  tlb_inv w -> w !! self = Some p -> p_send p = Enqueuing t remote todo posted ->
  p_work p = NoWork -> w !! remote = Some q -> remote <> self ->
  bq_enqueue (p_fifo q) t false = (rc2, f2) ->
  (if rc2 <? 0
   then '(_, w') ← tlb_process_once self (<[remote := set_fifo f2 (p_hart q)]> (p_hart <$> w));
        Some (SBI_IPI_UPDATE_RETRY, w')
   else Some (SBI_IPI_UPDATE_SUCCESS,
              alter sync_inc self (<[remote := set_fifo f2 (p_hart q)]> (p_hart <$> w)))) = Some (rc, v) ->
  exists w', rtc tlb_step w w' /\ p_hart <$> w' = v /\
    same_others self (after_update rc t remote (length (executed q)) todo posted) NoWork w w'.
Proof.
  intros Hinv Hs Hsend Hw Hr Hrs Ee Hu.
  pose proof (st_enqueue w self p remote q t todo posted rc2 f2 Hs Hsend Hw Hr Ee) as Hstep.
  pose proof (step_enqueue_inv w self p remote q t todo posted rc2 f2 Hinv Hs Hsend Hr Ee) as Hinv2.
  set (x2 := if rc2 <? 0 then _ else _) in Hinv2, Hstep.
  destruct (post_views w self p remote q x2 (set_fifo f2 (p_hart q)) Hs Hr Hrs)
    as (U1 & U2 & U3 & U4 & U5).
  set (w2 := <[self := set_send x2 p]> _) in *. unfold x2 in *. clear x2. destruct (rc2 <? 0).
  - destruct (tlb_process_once self _) as [[b v2]|] eqn:Ep; [|done].
    rewrite some_bind in Hu. injection Hu as <- <-. rewrite <- U1 in Ep.
    destruct (process_once_runs w2 self _ b v2 U4 I Hw) as (w3 & Hrun & [Ho1 Ho2] & Hh); [|done|].
    { by apply (hart_ok_of w2 self _ Hinv2 U4). }
    exists w3. split; [by eapply rtc_l|]. split; [done|].
    split; [rewrite Ho1, U2; by rewrite insert_insert_eq|by rewrite Ho2, U3].
  - injection Hu as <- <-.
    destruct (count_run w2 self _ remote t _ _ U4 eq_refl Hw) as (w3 & Hrun & [Ho1 Ho2] & Hh).
    exists w3. split; [eapply rtc_l; [exact Hstep|by apply rtc_once]|]. split; [by rewrite Hh, U1|].
    split; [rewrite Ho1, U2; by rewrite insert_insert_eq|by rewrite Ho2, U3].
Qed.

Lemma update_runs st (w : pworld) self p remote q t todo posted cur rc v :
  tlb_inv w -> w !! self = Some p -> p_send p = Sending t todo posted -> p_work p = NoWork ->
  remote ∈ todo -> w !! remote = Some q ->
  (forall id, sbi_hartindex_to_hartid st remote = Some id -> id = cur <-> remote = self) ->
  tlb_update st self cur remote t (p_hart <$> w) = Some (rc, v) ->
  exists w', rtc tlb_step w w' /\ p_hart <$> w' = v /\
    same_others self (after_update rc t remote (length (executed q)) todo posted) NoWork w w'.
Proof.
  intros Hinv Hs Hsend Hw Hin Hr Hid Hu. unfold tlb_update in Hu.
  destruct (sbi_hartindex_to_hartid st remote) as [id|]; [|done]. specialize (Hid id eq_refl).
  rewrite some_bind, !lookup_fmap, Hs in Hu. cbn [fmap option_fmap option_map] in Hu.
  rewrite some_bind in Hu. destruct (Z.eqb_spec id cur) as [E|E].
  { assert (remote = self) as -> by tauto. rewrite Hs in Hr. injection Hr as <-.
    destruct (tlb_entry_local_process t (tlb_local (p_hart p))) as [l|] eqn:El; [|done].
    rewrite some_bind in Hu. injection Hu as <- <-.
    eexists. split; [apply rtc_once; by eapply st_self|]. split; [by rewrite fmap_insert|].
    split; by rewrite fmap_insert. }
  assert (Hrs : remote <> self) by tauto. rewrite Hr in Hu. cbn [fmap option_fmap option_map] in Hu.
  rewrite some_bind in Hu. change (tlb_fifo (p_hart q)) with (p_fifo q) in Hu.
  destruct (bq_update (p_fifo q) (tlb_update_cb t)) as [ret f] eqn:Eu.
  pose proof (step_merge_inv w self p remote q t todo posted ret f Hinv Hs Hsend Hin Hrs Hr Eu) as Hinv1.
  pose proof (st_merge w self p remote q t todo posted ret f Hs Hsend Hw Hin Hrs Hr Eu) as Hstep1.
  set (x1 := if ret =? _ then _ else _) in Hinv1, Hstep1.
  destruct (post_views w self p remote q x1 (set_fifo f (p_hart q)) Hs Hr Hrs) as (V1 & V2 & V3 & V4 & V5).
  set (w1 := <[self := set_send x1 p]> _) in *. unfold x1 in *. clear x1.
  destruct (ret =? SBI_FIFO_UNCHANGED).
  - destruct (bq_enqueue f t false) as [rc2 f2] eqn:Ee.
    destruct (enqueue_runs w1 self _ remote _ t todo posted rc2 f2 rc v Hinv1 V4 eq_refl Hw V5 Hrs Ee)
      as (w' & Hrun & Hh & Ho1 & Ho2).
    { rewrite V1. exact Hu. }
    exists w'. split; [by eapply rtc_l|]. split; [done|].
    split; [rewrite Ho1, V2; by rewrite insert_insert_eq|by rewrite Ho2, V3].
  - injection Hu as <- <-.
    destruct (count_run w1 self _ remote t _ _ V4 eq_refl Hw) as (w3 & Hrun & [Ho1 Ho2] & Hh).
    exists w3. split; [eapply rtc_l; [exact Hstep1|by apply rtc_once]|].
    split; [by rewrite Hh, V1|]. split; [rewrite Ho1, V2; by rewrite insert_insert_eq|by rewrite Ho2, V3].
Qed.

(** ** Draining a queue *)

Lemma foldl_dec_lookup rs (v : tlb_world) r :
  NoDup rs ->
  foldl (fun v r => alter sync_dec r v) v rs !! r
  = if decide (r ∈ rs) then sync_dec <$> v !! r else v !! r.
Proof.
  clear ok valid_tlb. intros Hnd. revert v.
  induction Hnd as [|x rs Hx Hnd IH]; intros v; cbn [foldl].
  - by case_decide as E; [apply not_elem_of_nil in E|].
  - rewrite IH, lookup_alter. destruct (decide (x = r)) as [->|Hne].
    + repeat case_decide; set_solver.
    + repeat case_decide; set_solver.
Qed.

(** What an answered request does to the counter of hart [r]. *)
Definition answer (r c : Z) (t : sbi_tlb_info) : Z :=
  if mask_has (tlb_smask t) r then atomic_sub_return c 1 else c.

Lemma process_once_entry self v h t q :
  v !! self = Some h -> bq_inv (tlb_fifo h) -> bq_abs (tlb_fifo h) = t :: q -> request_ok t ->
  exists v' h', tlb_process_once self v = Some (true, v') /\ v' !! self = Some h' /\
    bq_inv (tlb_fifo h') /\ bq_abs (tlb_fifo h') = q /\
    fences (tlb_local h') = fences (tlb_local h) ++ tlb_ops t /\
    forall r x, v !! r = Some x ->
      exists x', v' !! r = Some x' /\ tlb_sync_ctr x' = answer r (tlb_sync_ctr x) t.
Proof.
  clear ok valid_tlb. intros Hs Hb Hq Ht. unfold tlb_process_once. rewrite Hs, some_bind.
  pose proof (bq_dequeue_ok (tlb_fifo h) Hb) as Hd. destruct (bq_dequeue (tlb_fifo h)) as [[rc y] f].
  destruct Hd as (Hf & _ & Habs). rewrite Hq in Habs. cbn in Habs. injection Habs as -> -> Habs.
  cbn [Z.eqb]. unfold tlb_entry_process. rewrite lookup_insert_eq, some_bind.
  destruct (local_process_spec t (tlb_local h)) as [ev El]; [apply Ht|].
  cbn [set_fifo tlb_local]. rewrite El, some_bind, for_each_members by apply Ht.
  rewrite !some_bind, insert_insert_eq. set (h1 := set_local _ (set_fifo f h)).
  assert (Hv : forall r, foldl (fun v r => alter sync_dec r v) (<[self := h1]> v) (members (tlb_smask t)) !! r
    = if mask_has (tlb_smask t) r then sync_dec <$> <[self := h1]> v !! r else <[self := h1]> v !! r).
  { intros r. rewrite foldl_dec_lookup by (apply NoDup_filter, NoDup_seqZ).
    pose proof (elem_of_members (tlb_smask t) r).
    case_decide; destruct (mask_has (tlb_smask t) r); naive_solver. }
  set (v' := foldl _ _ _) in *.
  assert (exists h', v' !! self = Some h' /\ tlb_fifo h' = f /\
    fences (tlb_local h') = fences (tlb_local h) ++ tlb_ops t) as (h' & Hh' & Hff & Hfe).
  { rewrite Hv, lookup_insert_eq. case_match; by eexists. }
  exists v', h'. rewrite Hff. split_and!; try done.
  intros r x Hx. rewrite Hv. unfold answer. destruct (decide (self = r)) as [<-|Hne].
  - rewrite lookup_insert_eq. simplify_eq. case_match; by eexists.
  - rewrite lookup_insert_ne, Hx by done. case_match; by eexists.
Qed.

Lemma process_once_empty self v h :
  v !! self = Some h -> bq_inv (tlb_fifo h) -> bq_abs (tlb_fifo h) = [] ->
  exists f, tlb_process_once self v = Some (false, <[self := set_fifo f h]> v) /\
    bq_inv f /\ bq_abs f = [].
Proof.
  intros Hs Hb Hq. unfold tlb_process_once. rewrite Hs, some_bind.
  pose proof (bq_dequeue_ok (tlb_fifo h) Hb) as Hd. destruct (bq_dequeue (tlb_fifo h)) as [[rc y] f].
  destruct Hd as (Hf & _ & Habs). rewrite Hq in Habs. injection Habs as -> -> Habs. by exists f.
Qed.

Lemma process_drains fuel self v h q :
  v !! self = Some h -> bq_inv (tlb_fifo h) -> bq_abs (tlb_fifo h) = q ->
  Forall request_ok q -> (length q < fuel)%nat ->
  exists v' h', tlb_process fuel self v = Some v' /\ v' !! self = Some h' /\
    bq_inv (tlb_fifo h') /\ bq_abs (tlb_fifo h') = [] /\
    fences (tlb_local h') = fences (tlb_local h) ++ (q ≫= tlb_ops) /\
    forall r x, v !! r = Some x ->
      exists x', v' !! r = Some x' /\ tlb_sync_ctr x' = foldl (answer r) (tlb_sync_ctr x) q.
Proof.
  clear ok valid_tlb. intros Hs Hb Hq Hok. revert fuel v h Hs Hb Hq. induction Hok as [|t q Ht Hok IH]; intros fuel v h Hs Hb Hq Hf;
    (destruct fuel as [|fuel]; [cbn in Hf; lia|]); cbn [tlb_process].
  - destruct (process_once_empty self v h Hs Hb Hq) as (f & E & Hif & Hqf). rewrite E, some_bind.
    eexists _, _. split; [done|]. rewrite lookup_insert_eq. split; [done|]. cbn.
    rewrite app_nil_r. split_and!; try done. intros r x Hx.
    destruct (decide (self = r)) as [<-|]; [rewrite lookup_insert_eq|rewrite lookup_insert_ne by done];
      simplify_eq; by eexists.
  - destruct (process_once_entry self v h t q Hs Hb Hq Ht) as (v1 & h1 & E & Hs1 & Hb1 & Hq1 & Hf1 & Hc1).
    rewrite E, some_bind. cbn in Hf.
    destruct (IH fuel v1 h1 Hs1 Hb1 Hq1 ltac:(lia)) as (v' & h' & E' & Hs' & Hb' & Hq' & Hf' & Hc').
    exists v', h'. split_and!; try done.
    + rewrite Hf', Hf1, <- app_assoc. done.
    + intros r x Hx. destruct (Hc1 r x Hx) as (x1 & Hx1 & Ex1).
      destruct (Hc' r x1 Hx1) as (x2 & Hx2 & Ex2). exists x2. split; [done|]. by rewrite Ex2, Ex1.
Qed.

End Tlb.

(** ** The queues of the machine

    The ring buffer of [sbi_fifo.c] with the layout of [sbi_tlb_info] is a queue
    in the sense above; a plain list serves as the reference in examples. *)

Lemma ring_valid_tlb (t : sbi_tlb_info) : bq_valid (F := ring) t <-> tlb_ok t.
Proof. done. Qed.

Lemma list_update_ok (q : list sbi_tlb_info) g :
  Forall tlb_ok q -> (forall x, tlb_ok x -> tlb_ok (g x).2) ->
  Forall tlb_ok (Queue.update g q SBI_FIFO_UNCHANGED).2.
Proof. exact (update_valid g q SBI_FIFO_UNCHANGED). Qed.

#[local] Instance list_queue : BoundedQueue (list sbi_tlb_info) sbi_tlb_info.
Proof.
  refine {| bq_inv := Forall tlb_ok; bq_cap := fun _ => 4%nat; bq_abs := fun q => q;
            bq_valid := tlb_ok; bq_enqueue := Queue.enqueue 4; bq_dequeue := Queue.dequeue;
            bq_update := fun q g => Queue.update g q SBI_FIFO_UNCHANGED |}.
  - done.
  - intros q x force Hq Hx. unfold Queue.enqueue.
    repeat case_match; simplify_eq; split_and!; try done; apply Forall_app;
      (split; [done || by apply Forall_tail|by apply Forall_singleton]).
  - intros q Hq. unfold Queue.dequeue. destruct Hq; split_and!; try done.
  - intros q g Hq Hg. pose proof (list_update_ok q g Hq Hg) as H.
    by destruct (Queue.update g q _).
Defined.

(** ** A run: hart 0 asks hart 1 for a fence and waits for it *)

Definition demo_p : phart (F := list sbi_tlb_info) :=
  mkPH (mkTH 0 [] (mkLocal 0 [] [])) Idle NoWork.

Definition demo_w0 : gmap Z (phart (F := list sbi_tlb_info)) := <[0 := demo_p]> (<[1 := demo_p]> ∅).

Lemma demo_initial : tlb_initial demo_w0.
Proof.
  intros i p Hi. unfold demo_w0 in Hi.
  assert (p = demo_p /\ (i = 0 \/ i = 1)) as [-> Hr].
  { apply lookup_insert_Some in Hi as [[<- <-]|[_ Hi]]; [by auto|].
    apply lookup_insert_Some in Hi as [[<- <-]|[_ Hi]]; [by auto|]. by rewrite lookup_empty in Hi. }
  split; [unfold SBI_HARTMASK_MAX_BITS; lia|]. do 3 (split; [reflexivity|]).
  split; [by apply Forall_nil_2|reflexivity].
Qed.

Lemma demo_from_hart : from_hart 0 demo_curr.
Proof.
  intros i. destruct (decide (0 <= i < 128)) as [Hi|Hi].
  - cbn [demo_curr tlb_smask]. rewrite mask_has_words by done.
    destruct (Z.ltb_spec i 64); [|rewrite Z.testbit_0_l; symmetry; apply Z.eqb_neq; lia].
    apply (bit1_bits 0). lia.
  - unfold mask_has, SBI_HARTMASK_MAX_BITS. zcases; cbn; lia || done.
Qed.

(** Every request of the state is that of hart 0. *)
Ltac demo_requests :=
  let i := fresh "i" in let x := fresh "x" in let t := fresh "t" in let Hi := fresh "Hi" in let Ht := fresh "Ht" in
  intros i x t Hi Ht; vm_compute in Hi;
  repeat (destruct i as [|i|i]; try discriminate Hi; vm_compute in Hi);
  injection Hi as <-; vm_compute in Ht; (discriminate Ht || (injection Ht as <-; reflexivity)).

(** Extend a run by a rule, given as a function of the current state. *)
Ltac advance R rule :=
  match type of R with
  | tlb_reachable _ _ ?w =>
      let H := fresh in pose proof R as H; clear R; eassert (R : tlb_reachable _ _ _);
      [eapply (reach_step _ _ w); [exact H|rule w|demo_requests]|]; clear H
  end.

Lemma demo_run :
  exists w p, tlb_reachable (eq demo_curr) demo_w0 w /\ w !! 0 = Some p /\
    p_send p = Waiting demo_curr {[1 := 0%nat]} /\ tlb_sync_ctr (p_hart p) <= 0.
Proof.
  pose proof (reach_refl (eq demo_curr) demo_w0) as R.
  advance R ltac:(fun w => eapply (st_request w 0 demo_p demo_curr {[1]}); try reflexivity;
    [apply (demo_request_ok demo_curr); by left|apply demo_from_hart|
     apply singleton_subseteq_l, elem_of_dom; eexists; reflexivity]).
  advance R ltac:(fun w => eapply (st_merge w 0 _ 1); try reflexivity; done).
  advance R ltac:(fun w => eapply (st_enqueue w 0 _ 1); reflexivity).
  advance R ltac:(fun w => eapply (st_count w 0); reflexivity).
  advance R ltac:(fun w => eapply (st_wait w 0); reflexivity).
  advance R ltac:(fun w => eapply (st_take w 1); try reflexivity; exact I).
  advance R ltac:(fun w => eapply (st_fence w 1); reflexivity).
  advance R ltac:(fun w => eapply (st_ack w 1); reflexivity).
  advance R ltac:(fun w => eapply (st_acked w 1); reflexivity).
  eexists _, _. split; [exact R|]. split; [reflexivity|]. split; [reflexivity|]. vm_compute. discriminate.
Qed.

(** Any requests at all. *)
Definition any_request (t : sbi_tlb_info) : Prop := True.

Lemma reachable_rtc `{BoundedQueue F sbi_tlb_info} (w0 w w' : gmap Z (phart (F := F))) :
  tlb_reachable any_request w0 w -> rtc tlb_step w w' -> tlb_reachable any_request w0 w'.
Proof. intros H0 H1. induction H1 as [|x y z Hs Hr IH]; [done|]. apply IH. by eapply reach_step. Qed.

(** ** Properties *)

(** C3: From empty queues, whatever requests the harts make and whatever their interleaving, when a hart that
    waits for its remote fences finds its counter at zero, the counter is exactly zero,
    ready for the next request, and no queue still holds a request to be answered to it.
    If moreover every SFENCE.VMA request of the run, with or without ASID, is a range of whole pages that
    does not wrap, or everything written as [SBI_TLB_FLUSH_ALL], then every hart it
    posted its request to has, since then, executed fences that remove everything the
    request asks for.  (Everything written as start 0 and size 0 can be lost,
    [flush_all_request_lost].) *)
Theorem remote_fence_complete {F : Type} {BQ : BoundedQueue F sbi_tlb_info}
    (ok : sbi_tlb_info -> Prop) (w0 w : gmap Z phart) s p t posted :
  (forall t, bq_valid (F := F) t <-> tlb_ok t) -> tlb_initial w0 -> tlb_reachable ok w0 w ->
  w !! s = Some p -> p_send p = Waiting t posted -> tlb_sync_ctr (p_hart p) <= 0 ->
  tlb_sync_ctr (p_hart p) = 0 /\
  (forall r q e, w !! r = Some q -> e ∈ queued q -> mask_has (tlb_smask e) s = false) /\
  (ranges_ok ok -> forall r n, posted !! r = Some n ->
     exists q, w !! r = Some q /\
       forall c, entry_kills t c = true -> ops_kill (drop n (executed q)) c = true).
Proof. intros Hv. by apply fence_complete. Qed.

Lemma demo_ranges : ranges_ok (eq demo_curr).
Proof. intros t <- Hs. by apply (demo_request_ok demo_curr); [left|]. Qed.

Lemma remote_fence_complete_witness :
  exists w q, tlb_reachable (eq demo_curr) demo_w0 w /\ w !! 1 = Some q /\
    forall c, entry_kills demo_curr c = true -> ops_kill (executed q) c = true.
Proof.
  destruct demo_run as (w & p & R & Hp & Hs & Hc).
  destruct (remote_fence_complete (BQ := list_queue) (eq demo_curr) demo_w0 w 0 p demo_curr {[1 := 0%nat]}
    (fun t => iff_refl (tlb_ok t)) demo_initial R Hp Hs Hc) as (_ & _ & H).
  destruct (H demo_ranges 1 0%nat eq_refl) as (q & Hq & Hk). exists w, q. split; [exact R|]. split; [exact Hq|exact Hk].
Defined.

(** The functions [tlb_process_once] and [tlb_update], run without
    interference from a reachable state, are sequences of steps of the
    interleaving: they end in a reachable state with the same hart data, in which
    the caller has posted the request to the remote hart, or on [RETRY] still has
    it to do, and all other harts are where they were. *)
Lemma tlb_functions_are_runs {F : Type} {BQ : BoundedQueue F sbi_tlb_info}
    (w0 w : gmap Z phart) self p :
  (forall t, bq_valid (F := F) t <-> tlb_ok t) -> tlb_initial w0 -> tlb_reachable any_request w0 w ->
  w !! self = Some p -> p_work p = NoWork ->
  (forall b v, may_process (p_send p) -> tlb_process_once self (p_hart <$> w) = Some (b, v) ->
     exists w', tlb_reachable any_request w0 w' /\ p_hart <$> w' = v /\
       same_others self (p_send p) NoWork w w') /\
  (forall st remote q t todo posted cur rc v,
     p_send p = Sending t todo posted -> remote ∈ todo -> w !! remote = Some q ->
     (forall id, sbi_hartindex_to_hartid st remote = Some id -> id = cur <-> remote = self) ->
     tlb_update st self cur remote t (p_hart <$> w) = Some (rc, v) ->
     exists w', tlb_reachable any_request w0 w' /\ p_hart <$> w' = v /\
       same_others self (after_update rc t remote (length (executed q)) todo posted) NoWork w w').
Proof.
  intros Hv H0 Hr Hs Hw. pose proof (tlb_reachable_inv any_request Hv w0 w H0 Hr) as Hinv. split.
  - intros b v Hm Hp. destruct (process_once_runs w self p b v Hs Hm Hw) as (w' & Hrun & Ho & Hh); [|done|].
    { by apply (hart_ok_of any_request w self p Hinv Hs). }
    exists w'. split_and!; [by eapply reachable_rtc|done|done].
  - intros st remote q t todo posted cur rc v Hse Hin Hq Hid Hu.
    destruct (update_runs any_request Hv st w self p remote q t todo posted cur rc v) as (w' & Hrun & Hh & Ho); try done.
    exists w'. split_and!; [by eapply reachable_rtc|done|done].
Qed.

Definition demo_st : scratch_state := mkScratch 1 [0; 1] [0x1000; 0x2000] 120.
Definition demo_sending : phart := set_send (Sending demo_curr {[1]} ∅) demo_p.
Definition demo_w1 : gmap Z (phart (F := list sbi_tlb_info)) := <[0 := demo_sending]> demo_w0.

Lemma demo_w1_reachable : tlb_reachable any_request demo_w0 demo_w1.
Proof.
  eapply reach_step; [apply reach_refl| |done].
  apply (st_request demo_w0 0 demo_p demo_curr {[1]}); try reflexivity.
  - apply (demo_request_ok demo_curr). by left.
  - apply demo_from_hart.
  - apply singleton_subseteq_l, elem_of_dom. eexists. reflexivity.
Qed.

Lemma tlb_functions_are_runs_witness :
  exists v w', tlb_update demo_st 0 0 1 demo_curr (p_hart <$> demo_w1) = Some (SBI_IPI_UPDATE_SUCCESS, v) /\
    tlb_reachable any_request demo_w0 w' /\ p_hart <$> w' = v.
Proof.
  destruct (tlb_functions_are_runs (BQ := list_queue) demo_w0 demo_w1 0 demo_sending (fun t => iff_refl (tlb_ok t)) demo_initial
    demo_w1_reachable eq_refl eq_refl) as [_ H].
  destruct (tlb_update demo_st 0 0 1 demo_curr (p_hart <$> demo_w1)) as [[rc v]|] eqn:E; [|discriminate E].
  pose proof (f_equal (option_map fst) E) as E1. vm_compute in E1. injection E1 as <-.
  destruct (H demo_st 1 demo_p demo_curr {[1]} ∅ 0 0 v) as (w' & Hr & Hh & _);
    [reflexivity|apply elem_of_singleton; reflexivity|reflexivity| |exact E|].
  - intros id Hid. injection Hid as <-. lia.
  - exists v, w'. split; [reflexivity|]. split; [exact Hr|exact Hh].
Defined.

(** Processing the queue of a hart ends after one pass more than it has
    requests: the queue is then empty, the fences of all its requests have been
    executed in order, and the counter of every hart has been decremented once
    for each of the requests that names it. *)
Lemma tlb_process_drains {F : Type} {BQ : BoundedQueue F sbi_tlb_info}
    fuel self (v : gmap Z tlb_hart) h q :
  v !! self = Some h -> bq_inv (tlb_fifo h) -> bq_abs (tlb_fifo h) = q ->
  Forall request_ok q -> (length q < fuel)%nat ->
  exists v' h', tlb_process fuel self v = Some v' /\ v' !! self = Some h' /\
    bq_inv (tlb_fifo h') /\ bq_abs (tlb_fifo h') = [] /\
    fences (tlb_local h') = fences (tlb_local h) ++ (q ≫= tlb_ops) /\
    forall r x, v !! r = Some x ->
      exists x', v' !! r = Some x' /\ tlb_sync_ctr x' = foldl (answer r) (tlb_sync_ctr x) q.
Proof. apply process_drains. Qed.

Definition demo_busy : tlb_hart := mkTH 0 [demo_curr; demo_next] (mkLocal 0 [] []).
Definition demo_v : gmap Z (tlb_hart (F := list sbi_tlb_info)) :=
  <[0 := mkTH 1 [] (mkLocal 0 [] [])]> (<[1 := demo_busy]> ∅).

Lemma tlb_process_drains_witness :
  exists v' h', tlb_process 3 1 demo_v = Some v' /\ v' !! 1 = Some h' /\ tlb_fifo h' = [] /\
    fences (tlb_local h') = [sfence_vma 0x1000; sfence_vma 0; sfence_vma 0x1000; sfence_vma 0x2000].
Proof.
  assert (Hok : Forall request_ok [demo_curr; demo_next])
    by (constructor; [|constructor; [|constructor]]; apply demo_request_ok; [left|right]; reflexivity).
  assert (Hb : bq_inv (tlb_fifo demo_busy))
    by (constructor; [|constructor; [|constructor]]; apply demo_request_ok; [left|right]; reflexivity).
  destruct (tlb_process_drains 3 1 demo_v demo_busy [demo_curr; demo_next] eq_refl Hb eq_refl Hok)
    as (v' & h' & E & Hh & _ & Hq & Hf & _); [cbn; lia|].
  exists v', h'. split; [exact E|]. split; [exact Hh|]. split; [exact Hq|]. rewrite Hf. reflexivity.
Defined.
