(* ===== verification/SbiRfence.v ===== *)
(** * Remote fence requests ([sbi_tlb.c], [sbi_ecall_rfence.c])

    The path of a supervisor's remote fence: the ecall handler builds a request,
    [sbi_tlb_request] widens it to everything if it is too long, and
    [sbi_ipi_send_many] hands it to the callbacks of [SbiTlbSync].  [F] is the
    implementation of the queues. *)

From S2P Require Import Prelude SbiString SbiHeap SbiBitops SbiScratch SbiHartmask SbiMemregion SbiDomain SbiHsm SbiFifo SbiIpi SbiTlb SbiTlbSync.

Definition SBI_EXT_RFENCE_REMOTE_FENCE_I : Z := 0.
Definition SBI_EXT_RFENCE_REMOTE_SFENCE_VMA : Z := 1.
Definition SBI_EXT_RFENCE_REMOTE_SFENCE_VMA_ASID : Z := 2.
Definition SBI_EXT_RFENCE_REMOTE_HFENCE_GVMA_VMID : Z := 3.
Definition SBI_EXT_RFENCE_REMOTE_HFENCE_GVMA : Z := 4.
Definition SBI_EXT_RFENCE_REMOTE_HFENCE_VVMA_ASID : Z := 5.
Definition SBI_EXT_RFENCE_REMOTE_HFENCE_VVMA : Z := 6.

(** The events [SBI_PMU_FW_*_SENT] by request type. *)
Definition tlb_type_to_pmu_fw_event : list Z := [8; 10; 12; 16; 14; 20; 18].

Definition SBI_TLB_INFO_SIZE : Z := 40.

(** [p] holds the uninitialised mask of the caller's variable. *)
Definition SBI_TLB_INFO_INIT (scr : scratch_state) (p : sbi_hartmask)
    (start size asid vmid type src : Z) : option sbi_tlb_info :=
  m ← SBI_HARTMASK_INIT_EXCEPT scr p src;
  Some (mkTlb start size (u16 asid) (u16 vmid) type m).

(** The request after the test against the flush limit. *)
Definition tlb_limit (limit : Z) (t : sbi_tlb_info) : sbi_tlb_info :=
  if limit <? tlb_size t
  then mkTlb 0 SBI_TLB_FLUSH_ALL (tlb_asid t) (tlb_vmid t) (tlb_type t) (tlb_smask t)
  else t.

Section Request.
Context {F : Type} {BQ : BoundedQueue F sbi_tlb_info}.
Context (fuel : nat) (ds : domain_state) (hw : hsm_world) (dom self : Z) (target : sbi_hartmask).
(** The [mhartid] register of each hart. *)
Context (current_hartid : Z -> Z).

Definition tlb_ops_cb : sbi_ipi_event_ops (gmap Z (tlb_hart (F := F))) sbi_tlb_info :=
  mkOps
    (Some (fun self remote t w => tlb_update (scr ds) self (current_hartid self) remote t w))
    (Some (tlb_sync fuel))
    (Some (tlb_process fuel)).

Abbreviation tlb_ipi_state := (ipi_state (gmap Z (tlb_hart (F := F))) sbi_tlb_info).

Definition sbi_tlb_request (tlb_range_flush_limit tlb_event hmask hbase : Z) (t : sbi_tlb_info)
    (st : tlb_ipi_state) : option (Z * tlb_ipi_state) :=
  if (tlb_type t <? 0) || (SBI_TLB_TYPE_MAX <=? tlb_type t) then Some (SBI_EINVAL, st)
  else
    let t := tlb_limit tlb_range_flush_limit t in
    ev ← tlb_type_to_pmu_fw_event !! Z.to_nat (tlb_type t);
    sbi_ipi_send_many fuel ds hw dom self target hmask hbase tlb_event t (ipi_count_fw ev st).

(** *** Set-up *)

Record tlb_globals := mkTG {
  tlb_sync_off : Z;
  tlb_fifo_off : Z;
  tlb_fifo_mem_off : Z;
  tlb_range_flush_limit : Z;
  tlb_event : Z
}.

Definition tlb_globals_init : tlb_globals := mkTG 0 0 0 0 SBI_IPI_EVENT_MAX.

(** What the set-up works on: the globals, the scratch allocator with its
    memory, the heap, the FIFO memory recorded in each hart's scratch area, and
    the IPI state. *)
Record tlb_boot := mkTB {
  tb_glob : tlb_globals;
  tb_scr : scratch_state;
  tb_mem : mem;
  tb_heap : sbi_heap_control;
  tb_fifo_mem : gmap Z Z;
  tb_ipi : tlb_ipi_state
}.

(** [sbi_fifo_init] on FIFO memory, as a constructor of [F]; the platform's
    limits. *)
Context (fifo_init : Z -> Z -> F) (plat_limit plat_num_entries : Z).

Definition tlb_init_cold (b : tlb_boot) : option (Z * tlb_boot) :=
  let g := tb_glob b in
  '(o1, scr, m) ← sbi_scratch_alloc_offset (tb_scr b) (tb_mem b) 8;
  let g := mkTG o1 (tlb_fifo_off g) (tlb_fifo_mem_off g) (tlb_range_flush_limit g) (tlb_event g) in
  if o1 =? 0 then Some (SBI_ENOMEM, mkTB g scr m (tb_heap b) (tb_fifo_mem b) (tb_ipi b))
  else
    '(o2, scr, m) ← sbi_scratch_alloc_offset scr m 24;
    let g := mkTG o1 o2 (tlb_fifo_mem_off g) (tlb_range_flush_limit g) (tlb_event g) in
    if o2 =? 0 then
      Some (SBI_ENOMEM, mkTB g (sbi_scratch_free_offset scr o1) m (tb_heap b) (tb_fifo_mem b) (tb_ipi b))
    else
      '(o3, scr, m) ← sbi_scratch_alloc_offset scr m 8;
      let g := mkTG o1 o2 o3 (tlb_range_flush_limit g) (tlb_event g) in
      if o3 =? 0 then
        Some (SBI_ENOMEM,
              mkTB g (sbi_scratch_free_offset (sbi_scratch_free_offset scr o2) o1) m
                (tb_heap b) (tb_fifo_mem b) (tb_ipi b))
      else
        let '(ret, st) := sbi_ipi_event_create (Some tlb_ops_cb) (tb_ipi b) in
        if ret <? 0 then
          Some (ret,
                mkTB g (sbi_scratch_free_offset (sbi_scratch_free_offset
                          (sbi_scratch_free_offset scr o3) o2) o1) m
                  (tb_heap b) (tb_fifo_mem b) st)
        else Some (0, mkTB (mkTG o1 o2 o3 plat_limit ret) scr m (tb_heap b) (tb_fifo_mem b) st).

(** The part every hart runs; [self] is the hart. *)
Definition tlb_init_hart (b : tlb_boot) : Z * tlb_boot :=
  let old := default 0 (tb_fifo_mem b !! self) in
  let '(ptr, hp) :=
    if old =? 0 then sbi_malloc_from (tb_heap b) (u64 (plat_num_entries * SBI_TLB_INFO_SIZE))
    else (old, tb_heap b) in
  if ptr =? 0 then (SBI_ENOMEM, mkTB (tb_glob b) (tb_scr b) (tb_mem b) hp (tb_fifo_mem b) (tb_ipi b))
  else
    let w := machine (tb_ipi b) in
    let l := match w !! self with Some h => tlb_local h | None => mkLocal 0 [] [] end in
    (0, mkTB (tb_glob b) (tb_scr b) (tb_mem b) hp (<[self := ptr]> (tb_fifo_mem b))
          (set_machine (<[self := mkTH 0 (fifo_init ptr (u16 plat_num_entries)) l]> w) (tb_ipi b))).

Definition sbi_tlb_init (cold_boot : bool) (b : tlb_boot) : option (Z * tlb_boot) :=
  if cold_boot then
    '(ret, b) ← tlb_init_cold b;
    if negb (ret =? 0) then Some (ret, b) else Some (tlb_init_hart b)
  else
    let g := tb_glob b in
    if (tlb_sync_off g =? 0) || (tlb_fifo_off g =? 0) || (tlb_fifo_mem_off g =? 0)
    then Some (SBI_ENOMEM, b)
    else if SBI_IPI_EVENT_MAX <=? tlb_event g then Some (SBI_ENOSPC, b)
    else Some (tlb_init_hart b).

(** *** The ecall *)

Record rfence_regs := mkRR { a0 : Z; a1 : Z; a2 : Z; a3 : Z; a4 : Z }.

(** The request of each function; [hg] is the caller's [hgatp]. *)
Definition rfence_info (p : sbi_hartmask) (hg funcid : Z) (r : rfence_regs)
    : option (option sbi_tlb_info) :=
  let src := current_hartid self in
  let vmid := Z.shiftr (Z.land hg HGATP_VMID_MASK) HGATP_VMID_SHIFT in
  let init start size asid vmid type :=
    t ← SBI_TLB_INFO_INIT (scr ds) p start size asid vmid type src; Some (Some t) in
  if funcid =? SBI_EXT_RFENCE_REMOTE_FENCE_I then init 0 0 0 0 SBI_TLB_FENCE_I
  else if funcid =? SBI_EXT_RFENCE_REMOTE_HFENCE_GVMA then init (a2 r) (a3 r) 0 0 SBI_TLB_HFENCE_GVMA
  else if funcid =? SBI_EXT_RFENCE_REMOTE_HFENCE_GVMA_VMID then
    init (a2 r) (a3 r) 0 (a4 r) SBI_TLB_HFENCE_GVMA_VMID
  else if funcid =? SBI_EXT_RFENCE_REMOTE_HFENCE_VVMA then
    init (a2 r) (a3 r) 0 vmid SBI_TLB_HFENCE_VVMA
  else if funcid =? SBI_EXT_RFENCE_REMOTE_HFENCE_VVMA_ASID then
    init (a2 r) (a3 r) (a4 r) vmid SBI_TLB_HFENCE_VVMA_ASID
  else if funcid =? SBI_EXT_RFENCE_REMOTE_SFENCE_VMA then init (a2 r) (a3 r) 0 0 SBI_TLB_SFENCE_VMA
  else if funcid =? SBI_EXT_RFENCE_REMOTE_SFENCE_VMA_ASID then
    init (a2 r) (a3 r) (a4 r) 0 SBI_TLB_SFENCE_VMA_ASID
  else Some None.

Definition sbi_ecall_rfence_handler (limit event : Z) (misa_h : bool) (p : sbi_hartmask) (hg funcid : Z)
    (r : rfence_regs) (st : tlb_ipi_state) : option (Z * tlb_ipi_state) :=
  if (SBI_EXT_RFENCE_REMOTE_HFENCE_GVMA_VMID <=? funcid) &&
     (funcid <=? SBI_EXT_RFENCE_REMOTE_HFENCE_VVMA) && negb misa_h
  then Some (SBI_ENOTSUPP, st)
  else
    info ← rfence_info p hg funcid r;
    match info with
    | Some t => sbi_tlb_request limit event (a0 r) (a1 r) t st
    | None => Some (SBI_ENOTSUPP, st)
    end.

End Request.

(** ** What the handler asks for *)

Lemma init_except_spec scr p src i :
  mask_ok p -> sbi_hartid_to_hartindex scr src = Some i -> 0 <= i < 128 ->
  exists m, SBI_HARTMASK_INIT_EXCEPT scr p src = Some m /\ mask_ok m /\
    forall j, mask_has m j = (j =? i).
Proof.
  intros Hp Hi Hr. unfold SBI_HARTMASK_INIT_EXCEPT. rewrite Hi, some_bind. eexists. split; [done|].
  assert (mkMask (bitmap_zero_except (bits p) i SBI_HARTMASK_MAX_BITS) =
    sbi_hartmask_set_hartindex i (sbi_hartmask_clear_all p)) as ->.
  { unfold bitmap_zero_except, sbi_hartmask_set_hartindex. by destruct (i <? _). }
  split; [auto with sbi|]. intros j. destruct (decide (0 <= j < 128)) as [Hj|Hj].
  - rewrite mask_has_set by (auto with sbi; lia). rewrite mask_has_clear_all by done. apply orb_false_r.
  - unfold mask_has, SBI_HARTMASK_MAX_BITS. zcases; cbn; lia || done.
Qed.

(** Lengthening a request to everything keeps its pages. *)
Lemma tlb_limit_page limit t p : page_in t p -> page_in (tlb_limit limit t) p.
Proof. unfold tlb_limit. destruct (limit <? _); [by left|done]. Qed.

(** Conditions on a caller's range that [sbi_tlb_request] does not make true. *)
Definition caller_range_ok (limit start size : Z) : Prop :=
  size <= limit ->
  start mod PAGE_SIZE = 0 /\ start + size < 2 ^ 64 /\ ~ (start = 0 /\ size = 0).

Lemma tlb_limit_request_ok limit t :
  tlb_ok t -> limit <= 2 ^ 64 - PAGE_SIZE ->
  (is_sfence t = true -> caller_range_ok limit (tlb_start t) (tlb_size t)) ->
  request_ok (tlb_limit limit t).
Proof.
  intros Ht Hl Hr. pose proof Ht as (H1 & H2 & H3 & H4 & H5 & H6). unfold tlb_limit.
  destruct (Z.ltb_spec limit (tlb_size t)) as [Hlt|Hge].
  - split_and!; [|by right|].
    + unfold tlb_ok, SBI_TLB_FLUSH_ALL, ULONG_MAX. cbn [tlb_start tlb_size tlb_asid tlb_vmid tlb_type tlb_smask].
      split_and!; lia || done.
    + intros _. split; [done|by left].
  - split_and!; [done|left; lia|]. intros Hs. destruct (Hr Hs Hge) as (Ha & Hw & Hn).
    split; [done|right]. split_and!; lia || done.
Qed.

Lemma info_init_sound scr p src i limit start size asid vmid type :
  mask_ok p -> sbi_hartid_to_hartindex scr src = Some i -> 0 <= i < 128 ->
  0 <= start < 2 ^ 64 -> 0 <= size < 2 ^ 64 -> 0 <= type <= 6 -> 0 <= limit <= 2 ^ 64 - PAGE_SIZE ->
  (type = SBI_TLB_SFENCE_VMA \/ type = SBI_TLB_SFENCE_VMA_ASID -> caller_range_ok limit start size) ->
  exists t, SBI_TLB_INFO_INIT scr p start size asid vmid type src = Some t /\
    tlb_type t = type /\ request_ok (tlb_limit limit t) /\ from_hart i (tlb_limit limit t) /\
    forall pg, start <= PAGE_SIZE * pg < start + size -> page_in (tlb_limit limit t) pg.
Proof.
  intros Hp Hi Hr Hs Hz Ht Hl Hrg. unfold SBI_TLB_INFO_INIT.
  destruct (init_except_spec scr p src i Hp Hi Hr) as (m & -> & Hmok & Hhas). rewrite some_bind.
  eexists. split; [done|]. split; [done|]. split_and!.
  - apply tlb_limit_request_ok; [|lia|].
    + unfold tlb_ok. cbn. split_and!; try done; try (by apply wrap_range); lia.
    + cbn. intros Hsf. apply Hrg. unfold is_sfence in Hsf. apply orb_true_iff in Hsf as [E|E];
        apply Z.eqb_eq in E; auto.
  - intros j. unfold tlb_limit. destruct (limit <? _); apply Hhas.
  - intros pg Hpg. apply tlb_limit_page. right. cbn. lia.
Qed.

(** Every function of the remote fence extension builds a request of its
    type for the hart that calls, and, after [sbi_tlb_request] has widened a
    range above the limit to everything, the request meets the conditions under
    which merging and processing are correct: it is answered to the caller
    alone, its page loop ends, and it covers every page of the caller's range. *)
Lemma rfence_request_sound ds self cur p hg funcid r limit i :
  mask_ok p -> sbi_hartid_to_hartindex (scr ds) (cur self) = Some i -> 0 <= i < 128 ->
  0 <= funcid <= 6 -> 0 <= a2 r < 2 ^ 64 -> 0 <= a3 r < 2 ^ 64 ->
  0 <= limit <= 2 ^ 64 - PAGE_SIZE ->
  (funcid = SBI_EXT_RFENCE_REMOTE_SFENCE_VMA \/ funcid = SBI_EXT_RFENCE_REMOTE_SFENCE_VMA_ASID ->
     caller_range_ok limit (a2 r) (a3 r)) ->
  exists t, rfence_info ds self cur p hg funcid r = Some (Some t) /\
    tlb_type t = funcid /\ request_ok (tlb_limit limit t) /\ from_hart i (tlb_limit limit t) /\
    (funcid <> SBI_EXT_RFENCE_REMOTE_FENCE_I -> forall pg, a2 r <= PAGE_SIZE * pg < a2 r + a3 r ->
       page_in (tlb_limit limit t) pg).
Proof.
  intros Hp Hi Hr Hf H2 H3 Hl Hc.
  assert (forall start size asid vmid type, 0 <= start < 2 ^ 64 -> 0 <= size < 2 ^ 64 -> 0 <= type <= 6 ->
    type = funcid -> (start = a2 r /\ size = a3 r \/ funcid = SBI_EXT_RFENCE_REMOTE_FENCE_I) ->
    exists t, (t ← SBI_TLB_INFO_INIT (scr ds) p start size asid vmid type (cur self); Some (Some t)) = Some (Some t) /\
      tlb_type t = funcid /\ request_ok (tlb_limit limit t) /\ from_hart i (tlb_limit limit t) /\
      (funcid <> SBI_EXT_RFENCE_REMOTE_FENCE_I -> forall pg, a2 r <= PAGE_SIZE * pg < a2 r + a3 r ->
         page_in (tlb_limit limit t) pg)) as Hcase.
  { intros start size asid vmid type Hs Hz Ht E Hb.
    destruct (info_init_sound (scr ds) p (cur self) i limit start size asid vmid type Hp Hi Hr Hs Hz Ht Hl)
      as (t & E1 & E2 & E3 & E4 & E5).
    { intros Hsf. destruct Hb as [[-> ->]|Hb]; [apply Hc; unfold SBI_EXT_RFENCE_REMOTE_SFENCE_VMA,
        SBI_EXT_RFENCE_REMOTE_SFENCE_VMA_ASID, SBI_TLB_SFENCE_VMA, SBI_TLB_SFENCE_VMA_ASID in *; lia|].
      unfold SBI_EXT_RFENCE_REMOTE_FENCE_I, SBI_TLB_SFENCE_VMA, SBI_TLB_SFENCE_VMA_ASID in *. lia. }
    exists t. rewrite E1. split_and!; try done; [congruence|].
    intros Hne pg Hpg. apply E5. destruct Hb as [[-> ->]|?]; done. }
  unfold rfence_info.
  assert (funcid = 0 \/ funcid = 1 \/ funcid = 2 \/ funcid = 3 \/ funcid = 4 \/ funcid = 5 \/ funcid = 6)
    as [->|[->|[->|[->|[->|[->| ->]]]]]] by lia; cbn [Z.eqb Pos.eqb];
    apply Hcase; unfold SBI_EXT_RFENCE_REMOTE_FENCE_I; try lia; try done; auto.
Qed.

Lemma rfence_request_sound_witness :
  exists t, rfence_info demo_ipi_domains 0 (fun h => h) (mkMask [0; 0]) 0 1 (mkRR 2 0 0x1000 0x2000 0)
              = Some (Some t) /\ request_ok (tlb_limit 0x4000 t) /\ page_in (tlb_limit 0x4000 t) 2.
Proof.
  destruct (rfence_request_sound demo_ipi_domains 0 (fun h => h) (mkMask [0; 0]) 0 1 (mkRR 2 0 0x1000 0x2000 0)
    0x4000 0) as (t & E & _ & Hok & _ & Hp); try (unfold PAGE_SIZE; cbn; lia).
  - exact mask_zero_ok.
  - vm_compute. reflexivity.
  - intros _ _. split; [reflexivity|]. cbn. lia.
  - exists t. split; [exact E|]. split; [exact Hok|]. apply Hp; [discriminate|unfold PAGE_SIZE; cbn; lia].
Defined.
