(* ===== verification/SbiLock.v ===== *)
(** * Ticket spin locks ([riscv_locks.c], [riscv_locks.h])

    The functions follow the assembly on 64-bit registers: [lr.w], [lw] and
    [amoadd.w] sign-extend the 32-bit word that holds [owner] in its low and
    [next] in its high half.  [lock_step] interleaves any number of harts; each
    rule is one access to the lock word.

    The abstract lock is a queue of harts: locking appends, unlocking removes
    the head, and the head is the only hart that may hold the lock. *)

From S2P Require Import Prelude.

Definition TICKET_SHIFT : Z := 16.

Record spinlock_t := mkLock { owner : Z; next : Z }.

Definition SPIN_LOCK_UNLOCKED : spinlock_t := mkLock 0 0.

(** The 32-bit word of a lock and back. *)
Definition lock_word (l : spinlock_t) : Z := next l * 2 ^ 16 + owner l.
Definition word_lock (w : Z) : spinlock_t := mkLock (w mod 2 ^ 16) (w / 2 ^ 16 mod 2 ^ 16).

Definition sext32 (w : Z) : Z := u64 (signed 32 w).

Definition spin_lock_unlocked (l : spinlock_t) : bool := owner l =? next l.

Definition spin_lock_check (l : spinlock_t) : bool := negb (spin_lock_unlocked l).

(** [scs] says which [sc.w] succeed; [None] when they are used up. *)
Fixpoint spin_trylock (scs : list bool) (l : spinlock_t) : option (bool * spinlock_t) :=
  match scs with
  | [] => None
  | sc :: scs' =>
      let inc := Z.shiftl 1 TICKET_SHIFT in
      let mask := Z.shiftl 0xffff TICKET_SHIFT in
      let l0 := sext32 (lock_word l) in
      let tmp2 := Z.land (u64 (Z.shiftl l0 TICKET_SHIFT)) mask in
      let tmp1 := Z.land l0 mask in
      if negb (tmp1 =? tmp2) then Some (u32 l0 =? 0, l)
      else if sc : bool then Some (true, word_lock (u32 (u64 (l0 + inc))))
      else spin_trylock scs' l
  end.

(** The first instruction of [spin_lock]: the register [l0] and the new lock. *)
Definition spin_take (l : spinlock_t) : Z * spinlock_t :=
  let inc := Z.shiftl 1 TICKET_SHIFT in
  (sext32 (lock_word l), word_lock (u32 (lock_word l + inc))).

(** The ticket in [l0], and the test of the loop. *)
Definition spin_ticket (l0 : Z) : Z := Z.land (Z.shiftr l0 TICKET_SHIFT) 0xffff.
Definition spin_owns (ticket l0 : Z) : bool := ticket =? Z.land l0 0xffff.

(** [spin_lock] by a hart that sees the words [ws] while it spins. *)
Fixpoint spin_loop (ticket l0 : Z) (ws : list spinlock_t) : bool :=
  if spin_owns ticket l0 then true
  else match ws with
       | [] => false
       | l :: ws' => spin_loop ticket (sext32 (lock_word l)) ws'
       end.

Definition spin_unlock (l : spinlock_t) : spinlock_t := mkLock (u16 (owner l + 1)) (next l).

(** ** Bit level *)

Definition lock_ok (l : spinlock_t) : Prop := 0 <= owner l < 2 ^ 16 /\ 0 <= next l < 2 ^ 16.

Lemma sext32_low w : 0 <= w < 2 ^ 32 -> sext32 w mod 2 ^ 32 = w.
Proof.
  intros Hw. unfold sext32, signed, wrap. change (2 ^ 64) with (2 ^ 32 * 2 ^ 32).
  rewrite Z.rem_mul_r, (Z.mul_comm (2 ^ 32)), Z.add_mod, Z.mod_mul, Z.add_0_r, !Z.mod_mod by lia.
  destruct (Z.ltb_spec w (2 ^ (32 - 1))); [by apply Z.mod_small|].
  symmetry. apply (Z.mod_unique _ _ (-1)); lia.
Qed.

(** The low 32 bits of the register decide every bit the code looks at. *)
Lemma sext32_bits w i : 0 <= w < 2 ^ 32 -> 0 <= i < 32 -> Z.testbit (sext32 w) i = Z.testbit w i.
Proof.
  intros Hw Hi. rewrite <- (sext32_low w Hw) at 2. by rewrite Z.mod_pow2_bits_low by lia.
Qed.

Lemma lock_word_range l : lock_ok l -> 0 <= lock_word l < 2 ^ 32.
Proof. intros [? ?]. unfold lock_word. lia. Qed.

Lemma lock_word_bits l i :
  lock_ok l -> 0 <= i < 32 ->
  Z.testbit (lock_word l) i = if i <? 16 then Z.testbit (owner l) i else Z.testbit (next l) (i - 16).
Proof.
  intros [Ho Hn] Hi. unfold lock_word.
  assert (next l * 2 ^ 16 + owner l = Z.lor (Z.shiftl (next l) 16) (owner l)) as ->.
  { rewrite Z.shiftl_mul_pow2 by lia.
    rewrite <- Z.lxor_lor, <- Z.add_nocarry_lxor; [done| |];
    (apply Z.bits_inj_iff'; intros k Hk; rewrite Z.land_spec, Z.testbit_0_l;
     rewrite <- (Z.shiftl_mul_pow2 _ 16), shiftl_bits by lia;
     destruct (Z.leb_spec 16 k); [rewrite (bits_above 16 (owner l) k) by lia; apply andb_false_r|done]). }
  rewrite Z.lor_spec, shiftl_bits by lia. destruct (Z.ltb_spec i 16), (Z.leb_spec 16 i); try lia; cbn; [done|].
  rewrite (bits_above 16 (owner l)) by lia. apply orb_false_r.
Qed.

Lemma word_lock_word l : lock_ok l -> word_lock (lock_word l) = l.
Proof.
  intros [Ho Hn]. destruct l as [o n]. cbn in *. unfold word_lock, lock_word. cbn. f_equal.
  - rewrite Z.add_comm, Z.mod_add by lia. by apply Z.mod_small.
  - rewrite Z.add_comm, Z.div_add, Z.div_small by lia. apply Z.mod_small. lia.
Qed.

Lemma spin_take_spec l :
  lock_ok l -> spin_take l = (sext32 (lock_word l), mkLock (owner l) (u16 (next l + 1))).
Proof.
  intros [Ho Hn]. unfold spin_take. f_equal. unfold word_lock, lock_word.
  change (Z.shiftl 1 TICKET_SHIFT) with (2 ^ 16). unfold wrap. f_equal.
  - change (2 ^ 32) with (2 ^ 16 * 2 ^ 16). rewrite Z.rem_mul_r by lia.
    rewrite (Z.mul_comm (2 ^ 16) (_ mod _)), Z.mod_add by lia. rewrite Z.mod_mod by lia.
    replace (next l * 2 ^ 16 + owner l + 2 ^ 16) with (owner l + (next l + 1) * 2 ^ 16) by lia.
    rewrite Z.mod_add by lia. by apply Z.mod_small.
  - change (2 ^ 32) with (2 ^ 16 * 2 ^ 16). rewrite Z.rem_mul_r by lia.
    replace (next l * 2 ^ 16 + owner l + 2 ^ 16) with (owner l + (next l + 1) * 2 ^ 16) by lia.
    rewrite Z.mod_add, Z.div_add, (Z.div_small (owner l)), (Z.mod_small (owner l)) by lia.
    rewrite (Z.mul_comm (2 ^ 16) (_ mod _)), Z.div_add, (Z.div_small (owner l)) by lia.
    by rewrite !Z.add_0_l, Z.mod_mod.
Qed.

Lemma spin_ticket_spec l : lock_ok l -> spin_ticket (sext32 (lock_word l)) = next l.
Proof.
  intros Hl. unfold spin_ticket, TICKET_SHIFT. change 0xffff with (Z.ones 16).
  apply Z.bits_inj_iff'. intros i Hi. rewrite Z.land_spec, shiftr_bits, ones_bits by lia.
  destruct (Z.ltb_spec i 16).
  - rewrite sext32_bits, lock_word_bits by (lia || by apply lock_word_range || done).
    destruct (Z.ltb_spec (i + 16) 16); [lia|]. replace (i + 16 - 16) with i by lia.
    rewrite (proj2 (Z.leb_le 0 i)) by done. by rewrite andb_true_r.
  - rewrite andb_false_r, andb_false_r. symmetry. apply (bits_above 16); [apply Hl|lia].
Qed.

Lemma spin_owns_spec t l : lock_ok l -> spin_owns t (sext32 (lock_word l)) = (t =? owner l).
Proof.
  intros Hl. unfold spin_owns. f_equal. change 0xffff with (Z.ones 16).
  apply Z.bits_inj_iff'. intros i Hi. rewrite Z.land_spec, ones_bits by lia.
  destruct (Z.ltb_spec i 16).
  - rewrite sext32_bits, lock_word_bits by (lia || by apply lock_word_range || done).
    destruct (Z.ltb_spec i 16); [|lia]. rewrite (proj2 (Z.leb_le 0 i)) by done. by rewrite andb_true_r.
  - rewrite andb_false_r, andb_false_r. symmetry. apply (bits_above 16); [apply Hl|lia].
Qed.

Lemma spin_trylock_spec sc scs l :
  lock_ok l ->
  spin_trylock (sc :: scs) l =
  if owner l =? next l
  then if sc : bool then Some (true, mkLock (owner l) (u16 (next l + 1))) else spin_trylock scs l
  else Some (false, l).
Proof.
  intros Hl. pose proof (lock_word_range l Hl) as Hw. cbn [spin_trylock].
  set (l0 := sext32 (lock_word l)).
  assert (H1 : Z.land l0 (Z.shiftl 0xffff TICKET_SHIFT) = Z.shiftl (next l) 16).
  { change 0xffff with (Z.ones 16). unfold TICKET_SHIFT. zbits_eq i. destruct (Z.leb_spec 16 i); cbn [andb].
    - destruct (Z.ltb_spec (i - 16) 16).
      + unfold l0. rewrite sext32_bits, lock_word_bits by (lia || done).
        destruct (Z.ltb_spec i 16); [lia|]. rewrite (proj2 (Z.leb_le 0 (i - 16))) by lia. apply andb_true_r.
      + rewrite !andb_false_r. symmetry. apply (bits_above 16); [apply Hl|lia].
    - apply andb_false_r. }
  assert (H2 : Z.land (u64 (Z.shiftl l0 TICKET_SHIFT)) (Z.shiftl 0xffff TICKET_SHIFT) = Z.shiftl (owner l) 16).
  { change 0xffff with (Z.ones 16). unfold TICKET_SHIFT. zbits_eq i. destruct (Z.leb_spec 16 i); cbn [andb].
    - destruct (Z.ltb_spec (i - 16) 16).
      + unfold l0. rewrite sext32_bits, lock_word_bits by (lia || done).
        destruct (Z.ltb_spec (i - 16) 16); [|lia]. rewrite (proj2 (Z.leb_le 0 (i - 16))) by lia.
        destruct (Z.ltb_spec i 64); [|lia]. apply andb_true_r.
      + rewrite !andb_false_r. symmetry. apply (bits_above 16); [apply Hl|lia].
    - by rewrite andb_false_r. }
  rewrite H1, H2, !Z.shiftl_mul_pow2 by lia. destruct Hl as [Ho Hn].
  destruct (Z.eqb_spec (owner l) (next l)) as [E|E].
  - rewrite (proj2 (Z.eqb_eq _ _)) by lia. cbn [negb]. destruct sc; [|done].
    pose proof (spin_take_spec l (conj Ho Hn)) as Ht. unfold spin_take in Ht.
    apply (f_equal snd) in Ht. cbn [snd] in Ht. rewrite <- Ht. do 3 f_equal. unfold l0, wrap.
    change (2 ^ 64) with (2 ^ 32 * 2 ^ 32). rewrite Z.rem_mul_r, (Z.mul_comm (2 ^ 32)) by lia.
    rewrite Z.add_mod, Z.mod_mul, Z.add_0_r, !Z.mod_mod by lia.
    rewrite (Z.add_mod (sext32 _)), sext32_low by (lia || done). apply Zplus_mod_idemp_r.
  - destruct (Z.eqb_spec (next l * 2 ^ 16) (owner l * 2 ^ 16)); [lia|]. cbn [negb]. do 2 f_equal.
    apply Z.eqb_neq. unfold wrap, l0. rewrite sext32_low by done. unfold lock_word. lia.
Qed.

(** ** Many harts *)

Inductive lstate : Type := LIdle | LWait (ticket : Z) | LHold.

Record lconf := mkLC { lc_lock : spinlock_t; lc_harts : gmap Z lstate }.

(** The action of a step. *)
Inductive lact : Type := AEnter | ATry | ASpin | AUnlock.

Inductive lock_step : lconf -> Z * lact -> lconf -> Prop :=
  | ls_enter c h l0 l' :
      lc_harts c !! h = Some LIdle -> spin_take (lc_lock c) = (l0, l') ->
      lock_step c (h, AEnter)
        (mkLC l' (<[h := if spin_owns (spin_ticket l0) l0 then LHold else LWait (spin_ticket l0)]>
                    (lc_harts c)))
  | ls_try c h scs b l' :
      lc_harts c !! h = Some LIdle -> spin_trylock scs (lc_lock c) = Some (b, l') ->
      lock_step c (h, ATry) (mkLC l' (<[h := if b : bool then LHold else LIdle]> (lc_harts c)))
  | ls_spin c h t :
      lc_harts c !! h = Some (LWait t) ->
      lock_step c (h, ASpin)
        (mkLC (lc_lock c)
           (<[h := if spin_owns t (sext32 (lock_word (lc_lock c))) then LHold else LWait t]> (lc_harts c)))
  | ls_unlock c h :
      lc_harts c !! h = Some LHold ->
      lock_step c (h, AUnlock) (mkLC (spin_unlock (lc_lock c)) (<[h := LIdle]> (lc_harts c))).

Inductive lock_run : lconf -> list (Z * lact) -> lconf -> Prop :=
  | lr_nil c : lock_run c [] c
  | lr_cons c a c' tr c'' : lock_step c a c' -> lock_run c' tr c'' -> lock_run c (a :: tr) c''.

Definition lock_initial (c : lconf) : Prop :=
  lc_lock c = SPIN_LOCK_UNLOCKED /\ map_Forall (fun _ x => x = LIdle) (lc_harts c) /\
  Z.of_nat (size (lc_harts c)) < 2 ^ 16.

(** The queue [q] of harts that a configuration stands for. *)
Record lock_abs (c : lconf) (q : list Z) : Prop := {
  la_ok : lock_ok (lc_lock c);
  la_nodup : NoDup q;
  la_dom : forall h, h ∈ q -> h ∈ dom (lc_harts c);
  la_size : Z.of_nat (size (lc_harts c)) < 2 ^ 16;
  la_next : next (lc_lock c) = u16 (owner (lc_lock c) + Z.of_nat (length q));
  la_hart h x : lc_harts c !! h = Some x ->
    (x = LIdle /\ h ∉ q) \/
    exists k, q !! k = Some h /\
      (x = LWait (u16 (owner (lc_lock c) + Z.of_nat k)) \/ (k = 0%nat /\ x = LHold))
}.

Lemma la_length c q : lock_abs c q -> Z.of_nat (length q) < 2 ^ 16.
Proof.
  intros Ha. pose proof (la_size _ _ Ha) as Hs.
  assert (length q <= size (dom (lc_harts c)))%nat as Hl.
  { rewrite <- (size_list_to_set (C := gset Z) q) by apply Ha. apply subseteq_size.
    intros h Hh. apply (la_dom _ _ Ha). by apply elem_of_list_to_set in Hh. }
  rewrite size_dom in Hl. lia.
Qed.

(** Tickets of different places differ. *)
Lemma ticket_inj o i j :
  0 <= o < 2 ^ 16 -> 0 <= i < 2 ^ 16 -> 0 <= j < 2 ^ 16 -> u16 (o + i) = u16 (o + j) -> i = j.
Proof.
  intros Ho Hi Hj E. unfold wrap in E.
  pose proof (Z.div_mod (o + i) (2 ^ 16)). pose proof (Z.div_mod (o + j) (2 ^ 16)).
  pose proof (Z.div_pos (o + i) (2 ^ 16)). pose proof (Z.div_lt_upper_bound (o + i) (2 ^ 16) 2).
  pose proof (Z.div_pos (o + j) (2 ^ 16)). pose proof (Z.div_lt_upper_bound (o + j) (2 ^ 16) 2).
  lia.
Qed.

Lemma ticket_zero o i : 0 <= o < 2 ^ 16 -> 0 <= i < 2 ^ 16 -> u16 (o + i) = o -> i = 0.
Proof.
  intros Ho Hi E. apply (ticket_inj o); [done..|lia|].
  by rewrite E, Z.add_0_r, wrap_small.
Qed.

Lemma queue_index q (h : Z) k k' : NoDup q -> q !! k = Some h -> q !! k' = Some h -> k = k'.
Proof. apply NoDup_lookup. Qed.

(** Where a hart with a given state is in the queue. *)
Lemma abs_wait c q h t :
  lock_abs c q -> lc_harts c !! h = Some (LWait t) ->
  exists k, q !! k = Some h /\ t = u16 (owner (lc_lock c) + Z.of_nat k).
Proof.
  intros Ha Hh. destruct (la_hart _ _ Ha h _ Hh) as [[? _]|(k & Hk & [E|[_ ?]])]; [done| |done].
  exists k. split; [done|]. by injection E.
Qed.

Lemma abs_hold c q h : lock_abs c q -> lc_harts c !! h = Some LHold -> q !! 0%nat = Some h.
Proof.
  intros Ha Hh. destruct (la_hart _ _ Ha h _ Hh) as [[? _]|(k & Hk & [?|[-> _]])]; done.
Qed.

Lemma abs_idle c q h : lock_abs c q -> lc_harts c !! h = Some LIdle -> h ∉ q.
Proof.
  intros Ha Hh. destruct (la_hart _ _ Ha h _ Hh) as [[_ ?]|(k & Hk & [?|[_ ?]])]; done.
Qed.

Lemma size_update (m : gmap Z lstate) h x y : m !! h = Some x -> size (<[h := y]> m) = size m.
Proof. intros Hh. apply map_size_insert_Some. by exists x. Qed.

(** A new hart at the end of the queue; [hold] says that it is alone. *)
Lemma abs_append c q h x l' :
  lock_abs c q -> lc_harts c !! h = Some LIdle ->
  l' = mkLock (owner (lc_lock c)) (u16 (next (lc_lock c) + 1)) ->
  x = (if (length q =? 0)%nat then LHold else LWait (u16 (owner (lc_lock c) + Z.of_nat (length q)))) ->
  lock_abs (mkLC l' (<[h := x]> (lc_harts c))) (q ++ [h]).
Proof.
  intros Ha Hh -> ->. pose proof (abs_idle c q h Ha Hh) as Hn. pose proof Ha as [[Ho1 Ho2] Hnd Hd Hs Hnx Hx].
  split; cbn [lc_lock lc_harts owner next].
  - split; cbn; [done|]. by apply wrap_range.
  - apply NoDup_app. split_and!; [done|set_solver|apply NoDup_singleton].
  - intros h' Hh'. rewrite dom_insert_L. set_solver.
  - by rewrite (size_update _ h LIdle).
  - rewrite Hnx, wrap_add_l, length_app. f_equal. cbn. lia.
  - intros h' x' Hh'. apply lookup_insert_Some in Hh' as [[<- <-]|[Hne Hh']].
    + right. exists (length q). split; [by apply list_lookup_middle|].
      destruct (Nat.eqb_spec (length q) 0); [right; done|by left].
    + destruct (Hx h' x' Hh') as [[-> ?]|(k & Hk & Hc)]; [left; set_solver|right].
      exists k. split; [|done]. rewrite lookup_app_l; [done|by eapply lookup_lt_Some].
Qed.

(** The abstract lock. *)
Definition queue_step (q : list Z) (a : Z * lact) (q' : list Z) : Prop :=
  let '(h, act) := a in
  match act with
  | AEnter => q' = q ++ [h]
  | ATry => (q = [] /\ q' = [h]) \/ (q <> [] /\ q' = q)
  | ASpin => q' = q
  | AUnlock => q = h :: q'
  end.

Inductive queue_run : list Z -> list (Z * lact) -> list Z -> Prop :=
  | qr_nil q : queue_run q [] q
  | qr_cons q a q' tr q'' : queue_step q a q' -> queue_run q' tr q'' -> queue_run q (a :: tr) q''.

Lemma abs_next_owner c q :
  lock_abs c q -> (owner (lc_lock c) =? next (lc_lock c)) = (length q =? 0)%nat.
Proof.
  intros Ha. pose proof (la_length c q Ha) as Hl. pose proof Ha as [[Ho _] _ _ _ -> _].
  destruct (Nat.eqb_spec (length q) 0) as [->|Hne].
  - rewrite Z.add_0_r, wrap_small by done. apply Z.eqb_refl.
  - apply Z.eqb_neq. intros E. symmetry in E. apply ticket_zero in E; lia.
Qed.

Lemma abs_unlock c q h :
  lock_abs c (h :: q) ->
  lock_abs (mkLC (spin_unlock (lc_lock c)) (<[h := LIdle]> (lc_harts c))) q.
Proof.
  intros Ha. pose proof (la_length _ _ Ha) as Hl. pose proof Ha as [[Ho1 Ho2] Hnd Hd Hs Hnx Hx].
  apply NoDup_cons in Hnd as [Hn Hnd].
  split; cbn [lc_lock lc_harts owner next spin_unlock].
  - split; cbn; [by apply wrap_range|done].
  - done.
  - intros h' Hh'. rewrite dom_insert_L. set_solver.
  - destruct (proj1 (elem_of_dom (lc_harts c) h) (Hd h ltac:(set_solver))) as [x Hx0].
    by rewrite (size_update _ h x).
  - rewrite Hnx, wrap_add_l. f_equal. cbn [length]. lia.
  - intros h' x' Hh'. apply lookup_insert_Some in Hh' as [[<- <-]|[Hne Hh']]; [by left|].
    destruct (Hx h' x' Hh') as [[-> ?]|(k & Hk & Hc)]; [left; set_solver|right].
    destruct k as [|k]; [by injection Hk|]. exists k. split; [done|]. destruct Hc as [->|[? _]]; [|done].
    left. rewrite wrap_add_l. do 2 f_equal. lia.
Qed.

Lemma lock_step_abs c q a c' :
  lock_abs c q -> lock_step c a c' -> exists q', lock_abs c' q' /\ queue_step q a q'.
Proof.
  intros Ha Hs. pose proof (la_length c q Ha) as Hl. pose proof (la_ok _ _ Ha) as Hok.
  destruct Hs as [c h l0 l' Hh Ht|c h scs b l' Hh Ht|c h t Hh|c h Hh]; cbn [queue_step].
  - exists (q ++ [h]). split; [|done]. rewrite spin_take_spec in Ht by done. injection Ht as <- <-.
    rewrite spin_owns_spec, spin_ticket_spec by done. apply abs_append; try done.
    rewrite Z.eqb_sym, (abs_next_owner c q Ha), (la_next _ _ Ha). done.
  - induction scs as [|sc scs IH]; [done|]. rewrite spin_trylock_spec in Ht by done.
    rewrite (abs_next_owner c q Ha) in Ht. destruct (Nat.eqb_spec (length q) 0) as [E|E].
    + destruct sc; [|by apply IH]. injection Ht as <- <-.
      apply nil_length_inv in E as ->. exists [h]. split; [|by left].
      by apply (abs_append c [] h).
    + injection Ht as <- <-. exists q. split; [|by right; split; [intros ->|]].
      replace (mkLC _ _) with c; [done|]. destruct c as [l m]. cbn in *. by rewrite insert_id.
  - exists q. split; [|done]. rewrite spin_owns_spec by done.
    destruct (abs_wait c q h t Ha Hh) as (k & Hk & ->).
    pose proof (lookup_lt_Some _ _ _ Hk) as Hkl. pose proof Ha as [[Ho1 Ho2] Hnd Hd Hsz Hnx Hx].
    split; try done; cbn [lc_harts lc_lock].
    + intros h' Hh'. rewrite dom_insert_L. set_solver.
    + by rewrite (size_update _ h _ _ Hh).
    + intros h' x' Hh'. apply lookup_insert_Some in Hh' as [[<- <-]|[Hne Hh']]; [|by apply Hx].
      right. exists k. split; [done|]. destruct (Z.eqb_spec (u16 (owner (lc_lock c) + Z.of_nat k)) (owner (lc_lock c)))
        as [E|E]; [right|by left]. apply ticket_zero in E; [|done|lia]. split; [lia|done].
  - pose proof (abs_hold c q h Ha Hh) as Hq. destruct q as [|h' q]; [done|]. injection Hq as ->.
    exists q. split; [by apply abs_unlock|done].
Qed.

Lemma lock_run_abs c q tr c' :
  lock_abs c q -> lock_run c tr c' -> exists q', lock_abs c' q' /\ queue_run q tr q'.
Proof.
  intros Ha Hr. revert q Ha. induction Hr as [c|c a c1 tr c' Hs Hr IH]; intros q Ha.
  - exists q. split; [done|constructor].
  - destruct (lock_step_abs c q a c1 Ha Hs) as (q1 & Ha1 & Hq1).
    destruct (IH q1 Ha1) as (q' & Ha' & Hq'). exists q'. split; [done|]. by econstructor.
Qed.

Lemma initial_abs c : lock_initial c -> lock_abs c [].
Proof.
  intros (Hl & Hh & Hs). split; rewrite ?Hl; try done; [constructor|set_solver|].
  intros h x Hx. left. split; [by apply (Hh h)|set_solver].
Qed.

(** The place of a waiting hart, read off its ticket. *)
Lemma wait_place c q h t k :
  lock_abs c q -> lc_harts c !! h = Some (LWait t) -> q !! k = Some h ->
  u16 (t - owner (lc_lock c)) = Z.of_nat k.
Proof.
  intros Ha Hh Hk. destruct (abs_wait c q h t Ha Hh) as (k' & Hk' & ->).
  assert (k' = k) as -> by (by eapply queue_index; [apply Ha| |]).
  pose proof (la_length c q Ha). pose proof (lookup_lt_Some _ _ _ Hk). rewrite wrap_sub_l.
  replace (owner (lc_lock c) + Z.of_nat k - owner (lc_lock c)) with (Z.of_nat k) by lia. apply wrap_small. lia.
Qed.

#[export] Instance lact_eq_dec : EqDecision lact.
Proof. solve_decision. Defined.

Definition unlocks (tr : list (Z * lact)) : nat := length (filter (fun a => a.2 = AUnlock) tr).

(** A hart that holds the lock holds it until it unlocks. *)
Lemma hold_stable c tr c' h :
  lock_run c tr c' -> (h, AUnlock) ∉ tr -> lc_harts c !! h = Some LHold ->
  lc_harts c' !! h = Some LHold.
Proof.
  induction 1 as [c|c a c1 tr c' Hs Hr IH]; intros Hn Hh; [done|]. apply IH; [set_solver|].
  destruct Hs as [c g l0 l' Hg Ht|c g scs b l' Hg Ht|c g t Hg|c g Hg]; cbn [lc_harts];
    (destruct (decide (g = h)) as [->|Hne]; [|by rewrite lookup_insert_ne]); try congruence.
  set_solver.
Qed.

(** A step of any hart leaves a waiting hart waiting or lets it in. *)
Lemma wait_step c a c' h t :
  lock_step c a c' -> lc_harts c !! h = Some (LWait t) ->
  lc_harts c' !! h = Some (LWait t) \/ lc_harts c' !! h = Some LHold.
Proof.
  intros Hs Hh. destruct Hs as [c g l0 l' Hg Ht|c g scs b l' Hg Ht|c g t' Hg|c g Hg]; cbn [lc_harts];
    (destruct (decide (g = h)) as [->|Hne]; [|left; by rewrite lookup_insert_ne]); try congruence.
  rewrite lookup_insert_eq. simplify_eq. destruct (spin_owns _ _); auto.
Qed.

Lemma wait_step_place c q a c' q' h t t' k k' :
  lock_abs c q -> lock_abs c' q' -> queue_step q a q' ->
  lc_harts c !! h = Some (LWait t) -> lc_harts c' !! h = Some (LWait t') ->
  q !! k = Some h -> q' !! k' = Some h -> k = (k' + if decide (a.2 = AUnlock) then 1 else 0)%nat.
Proof.
  intros Ha Ha' Hq Hh Hh' Hk Hk'. destruct a as [g act]. cbn [snd].
  pose proof (la_nodup _ _ Ha) as Hnd. pose proof (la_nodup _ _ Ha') as Hnd'.
  destruct act; cbn in Hq; (destruct (decide _) as [E|E]; [try discriminate E|]); rewrite ?Nat.add_0_r.
  - subst q'. apply (queue_index (q ++ [g]) h); try done. rewrite lookup_app_l; [done|by eapply lookup_lt_Some].
  - destruct Hq as [[-> _]|[_ ->]]; [done|]. by apply (queue_index q h).
  - subst q'. by apply (queue_index q h).
  - subst q. apply NoDup_cons in Hnd as [Hng _].
    assert (S k' = k) as <- by (eapply (queue_index (g :: q') h); [by constructor| |done]; done). lia.
  - done.
Qed.

Lemma bounded_waiting c q tr c' h t :
  lock_abs c q -> lock_run c tr c' -> (h, AUnlock) ∉ tr ->
  lc_harts c !! h = Some (LWait t) -> lc_harts c' !! h = Some (LWait t) ->
  exists q' k k', lock_abs c' q' /\ q !! k = Some h /\ q' !! k' = Some h /\ k = (k' + unlocks tr)%nat.
Proof.
  intros Ha Hr. revert q Ha. induction Hr as [c|c a c1 tr c' Hs Hr IH]; intros q Ha Hn Hh Hh'.
  - destruct (abs_wait c q h t Ha Hh) as (k & Hk & _). exists q, k, k.
    by split_and!; [| | |rewrite Nat.add_0_r].
  - destruct (lock_step_abs c q a c1 Ha Hs) as (q1 & Ha1 & Hq1).
    destruct (wait_step c a c1 h t Hs Hh) as [Hh1|Hh1].
    2:{ rewrite (hold_stable c1 tr c' h Hr) in Hh'; [done|set_solver|done]. }
    destruct (IH q1 Ha1) as (q' & k1 & k' & Ha' & Hk1 & Hk' & E); [set_solver|done|done|].
    destruct (abs_wait c q h t Ha Hh) as (k & Hk & _). exists q', k, k'. split_and!; try done.
    rewrite (wait_step_place c q a c1 q1 h t t k k1 Ha Ha1 Hq1 Hh Hh1 Hk Hk1), E.
    unfold unlocks. rewrite filter_cons. destruct (decide (a.2 = AUnlock)); cbn [length]; lia.
Qed.

(** ** Properties *)

(** C28: Any number of harts below 2^16 that lock, try, spin and unlock in any
    order behave as one queue of harts: locking appends, a try succeeds exactly
    on an empty queue, unlocking removes the head.  Only the head can hold the
    lock, so no two harts hold it, and the lock reads as taken exactly if the
    queue is not empty. *)
Theorem lock_refines_queue c0 tr c :
  lock_initial c0 -> lock_run c0 tr c ->
  exists q, lock_abs c q /\ queue_run [] tr q /\
    (forall h1 h2, lc_harts c !! h1 = Some LHold -> lc_harts c !! h2 = Some LHold -> h1 = h2) /\
    spin_lock_check (lc_lock c) = negb (length q =? 0)%nat.
Proof.
  intros H0 Hr. destruct (lock_run_abs c0 [] tr c (initial_abs c0 H0) Hr) as (q & Ha & Hq).
  exists q. split_and!; [done|done| |].
  - intros h1 h2 H1%(abs_hold c q _ Ha) H2%(abs_hold c q _ Ha). congruence.
  - unfold spin_lock_check, spin_lock_unlocked. by rewrite (abs_next_owner c q Ha).
Qed.

Definition demo_locks : lconf := mkLC SPIN_LOCK_UNLOCKED {[0 := LIdle; 1 := LIdle]}.

Lemma demo_locks_initial : lock_initial demo_locks.
Proof.
  split; [done|]. split; [|vm_compute; done]. intros h x Hx. cbn in Hx.
  apply lookup_insert_Some in Hx as [[_ <-]|[_ Hx]]; [done|].
  by apply lookup_singleton_Some in Hx as [_ <-].
Qed.

(** Hart 0 takes the lock and hart 1 waits. *)
Lemma demo_lock_run :
  exists c, lock_run demo_locks [(0, AEnter); (1, AEnter)] c /\
    lc_harts c !! 0 = Some LHold /\ lc_harts c !! 1 = Some (LWait 1) /\ owner (lc_lock c) = 0.
Proof.
  eexists. split.
  - eapply lr_cons; [eapply ls_enter; reflexivity|].
    eapply lr_cons; [eapply ls_enter; reflexivity|]. apply lr_nil.
  - split; [|split]; reflexivity.
Qed.

Lemma lock_refines_queue_witness :
  exists c q, lock_run demo_locks [(0, AEnter); (1, AEnter)] c /\ lock_abs c q /\
    queue_run [] [(0, AEnter); (1, AEnter)] q.
Proof.
  destruct demo_lock_run as (c & Hr & _).
  destruct (lock_refines_queue demo_locks [(0, AEnter); (1, AEnter)] c demo_locks_initial Hr)
    as (q & Ha & Hq & _).
  exists c, q. split; [exact Hr|]. split; [exact Ha|exact Hq].
Defined.

(** Bounded waiting.  The distance of a waiting hart's ticket from [owner]
    is below the number of harts, falls by one with every unlock and by nothing
    else, and at distance zero the hart's next look at the lock lets it in.  As
    long as it waits, some hart holds the lock or is itself at distance zero, so
    the lock is never left unserved. *)
Lemma lock_bounded_waiting c0 tr0 c tr c' h t :
  lock_initial c0 -> lock_run c0 tr0 c -> lock_run c tr c' -> (h, AUnlock) ∉ tr ->
  lc_harts c !! h = Some (LWait t) -> lc_harts c' !! h = Some (LWait t) ->
  u16 (t - owner (lc_lock c)) = u16 (t - owner (lc_lock c')) + Z.of_nat (unlocks tr) /\
  u16 (t - owner (lc_lock c)) < Z.of_nat (size (lc_harts c)) /\
  (u16 (t - owner (lc_lock c')) = 0 ->
   forall c'', lock_step c' (h, ASpin) c'' -> lc_harts c'' !! h = Some LHold) /\
  exists g, lc_harts c' !! g = Some LHold \/ lc_harts c' !! g = Some (LWait (owner (lc_lock c'))).
Proof.
  intros H0 Hr0 Hr Hn Hh Hh'. destruct (lock_run_abs c0 [] tr0 c (initial_abs c0 H0) Hr0) as (q & Ha & _).
  destruct (bounded_waiting c q tr c' h t Ha Hr Hn Hh Hh') as (q' & k & k' & Ha' & Hk & Hk' & E).
  rewrite (wait_place c q h t k Ha Hh Hk), (wait_place c' q' h t k' Ha' Hh' Hk').
  pose proof (la_ok _ _ Ha') as Hok'. split_and!.
  - lia.
  - pose proof (lookup_lt_Some _ _ _ Hk).
    assert (length q <= size (lc_harts c))%nat; [|lia].
    rewrite <- size_dom, <- (size_list_to_set (C := gset Z) q) by apply Ha. apply subseteq_size.
    intros x Hx. apply (la_dom _ _ Ha). by apply elem_of_list_to_set in Hx.
  - intros Hz c'' Hs. inversion Hs as [| |? ? t' Ht'|]; subst. cbn [lc_harts]. rewrite lookup_insert_eq.
    simplify_eq. rewrite spin_owns_spec by done. destruct (abs_wait c' q' h t Ha' Hh') as (k2 & Hk2 & Et).
    assert (k2 = k') as -> by (by eapply queue_index; [apply Ha'| |]).
    replace k' with 0%nat in Et by lia. destruct Hok' as [Ho _].
    rewrite Et, Z.add_0_r, wrap_small, Z.eqb_refl by done. done.
  - destruct q' as [|g q']; [done|]. exists g.
    destruct (proj1 (elem_of_dom (lc_harts c') g) (la_dom _ _ Ha' g ltac:(set_solver))) as [x Hx].
    rewrite Hx. destruct (la_hart _ _ Ha' g x Hx) as [[_ Hng]|(k2 & Hk2 & [->|[_ ->]])]; [set_solver| |by left].
    assert (k2 = 0%nat) as -> by (by eapply (queue_index (g :: q') g); [apply Ha'| |]).
    right. destruct Hok' as [Ho _]. by rewrite Z.add_0_r, wrap_small.
Qed.

Lemma lock_bounded_waiting_witness :
  exists c, lc_harts c !! 1 = Some (LWait 1) /\ u16 (1 - owner (lc_lock c)) < 2 /\
    exists g, lc_harts c !! g = Some LHold \/ lc_harts c !! g = Some (LWait (owner (lc_lock c))).
Proof.
  destruct demo_lock_run as (c & Hr & _ & Hw & Ho).
  destruct (lock_bounded_waiting demo_locks _ c [] c 1 1 demo_locks_initial Hr (lr_nil c)) as (_ & _ & _ & Hg).
  - intros Hin. inversion Hin.
  - exact Hw.
  - exact Hw.
  - exists c. split; [exact Hw|]. rewrite Ho. split; [vm_compute; reflexivity|]. rewrite <- Ho. exact Hg.
Defined.
