(* ===== verification/SbiHart.v ===== *)
(** * Hart features and machine-mode set-up (lib/sbi/sbi_hart.c)

    The feature record of a hart and its extension bitmap. *)

From S2P Require Import Prelude SbiBitops.

(** ** Features *)

Definition SBI_HART_PRIV_VER_UNKNOWN : Z := 0.
Definition SBI_HART_PRIV_VER_1_10 : Z := 1.
Definition SBI_HART_PRIV_VER_1_11 : Z := 2.
Definition SBI_HART_PRIV_VER_1_12 : Z := 3.

Inductive sbi_hart_extensions :=
  | SBI_HART_EXT_SMAIA | SBI_HART_EXT_SMEPMP | SBI_HART_EXT_SMSTATEEN | SBI_HART_EXT_SSCOFPMF
  | SBI_HART_EXT_SSTC | SBI_HART_EXT_ZICNTR | SBI_HART_EXT_ZIHPM | SBI_HART_EXT_ZKR
  | SBI_HART_EXT_SMCNTRPMF | SBI_HART_EXT_XANDESPMU | SBI_HART_EXT_ZICBOZ | SBI_HART_EXT_ZICBOM
  | SBI_HART_EXT_SVPBMT | SBI_HART_EXT_SDTRIG | SBI_HART_EXT_SMCSRIND | SBI_HART_EXT_SMCDELEG
  | SBI_HART_EXT_SSCSRIND | SBI_HART_EXT_SSCCFG | SBI_HART_EXT_SVADE | SBI_HART_EXT_SVADU
  | SBI_HART_EXT_SMNPM | SBI_HART_EXT_ZICFILP | SBI_HART_EXT_ZICFISS | SBI_HART_EXT_SSDBLTRP.

#[export] Instance sbi_hart_extensions_eq_dec : EqDecision sbi_hart_extensions.
Proof. solve_decision. Defined.

Definition all_extensions : list sbi_hart_extensions :=
  [SBI_HART_EXT_SMAIA; SBI_HART_EXT_SMEPMP; SBI_HART_EXT_SMSTATEEN; SBI_HART_EXT_SSCOFPMF;
   SBI_HART_EXT_SSTC; SBI_HART_EXT_ZICNTR; SBI_HART_EXT_ZIHPM; SBI_HART_EXT_ZKR;
   SBI_HART_EXT_SMCNTRPMF; SBI_HART_EXT_XANDESPMU; SBI_HART_EXT_ZICBOZ; SBI_HART_EXT_ZICBOM;
   SBI_HART_EXT_SVPBMT; SBI_HART_EXT_SDTRIG; SBI_HART_EXT_SMCSRIND; SBI_HART_EXT_SMCDELEG;
   SBI_HART_EXT_SSCSRIND; SBI_HART_EXT_SSCCFG; SBI_HART_EXT_SVADE; SBI_HART_EXT_SVADU;
   SBI_HART_EXT_SMNPM; SBI_HART_EXT_ZICFILP; SBI_HART_EXT_ZICFISS; SBI_HART_EXT_SSDBLTRP].

(** The enumerator's value: its position. *)
Fixpoint position (e : sbi_hart_extensions) (l : list sbi_hart_extensions) : Z :=
  match l with
  | [] => 0
  | x :: l => if bool_decide (x = e) then 0 else 1 + position e l
  end.

Definition ext_id (e : sbi_hart_extensions) : Z := position e all_extensions.

Record sbi_hart_features := mkFeat {
  detected : bool; priv_version : Z; extensions : list Z; pmp_count : Z; pmp_addr_bits : Z;
  pmp_log2gran : Z; mhpm_mask : Z; mhpm_bits : Z }.

Definition sbi_hart_has_extension (f : sbi_hart_features) (e : sbi_hart_extensions) : bool :=
  negb (test_bit (ext_id e) (extensions f) =? 0).

Definition sbi_hart_update_extension (f : sbi_hart_features) (e : sbi_hart_extensions)
    (enable : bool) : sbi_hart_features :=
  mkFeat (detected f) (priv_version f)
    (if enable then set_bit (ext_id e) (extensions f) else clear_bit (ext_id e) (extensions f))
    (pmp_count f) (pmp_addr_bits f) (pmp_log2gran f) (mhpm_mask f) (mhpm_bits f).

Lemma ext_id_range e : 0 <= ext_id e < 24.
Proof. destruct e; vm_compute; split; congruence. Qed.

Lemma ext_id_inj e e' : ext_id e = ext_id e' -> e = e'.
Proof. intros H. destruct e, e'; vm_compute in H; congruence. Qed.
