(* ===== verification/SbiPmp.v ===== *)
(** * Physical memory protection

    The PMP routines of lib/sbi/riscv_asm.c and the PMP set-up of
    lib/sbi/sbi_hart.c, over the registers of one hart.  Module [Hw] writes down
    what the RISC-V privileged architecture (PMP, and the Smepmp extension) says
    the registers store and which accesses they allow; everything outside it is
    translated from the sources.  The theorems say that after the set-up the
    hardware decides supervisor accesses the way [sbi_domain_check_addr] does. *)

From S2P Require Import Prelude SbiString SbiBitops SbiScratch SbiHartmask SbiMemregion SbiHart.

Definition PMP_R : Z := 0x01.
Definition PMP_W : Z := 0x02.
Definition PMP_X : Z := 0x04.
Definition PMP_A : Z := 0x18.
Definition PMP_A_TOR : Z := 0x08.
Definition PMP_A_NA4 : Z := 0x10.
Definition PMP_A_NAPOT : Z := 0x18.
Definition PMP_L : Z := 0x80.
Definition PMP_SHIFT : Z := 2.
Definition PMP_COUNT : Z := 64.
Definition CSR_PMPCFG0 : Z := 0x3a0.
Definition CSR_PMPADDR0 : Z := 0x3b0.
Definition MSECCFG_MML : Z := 1.
Definition MSECCFG_MMWP : Z := 2.
Definition MSECCFG_RLB : Z := 4.

(** ** The hardware *)

Module Hw.

(** One configuration byte and one address register per entry. *)
Record pmp := mkPmp { cfg : Z -> Z; paddr : Z -> Z; mseccfg : Z }.

Definition upd (f : Z -> Z) (n v : Z) : Z -> Z := fun k => if k =? n then v else f k.

Definition byte (x i : Z) : Z := Z.land (Z.shiftr x (8 * i)) 0xff.

(** A locked entry ignores writes unless [mseccfg.RLB] is set. *)
Definition locked (p : pmp) (n : Z) : bool :=
  negb (Z.testbit (mseccfg p) 2) && Z.testbit (cfg p n) 7.

(** A locked top-of-range entry also locks the address register below it. *)
Definition addr_locked (p : pmp) (n : Z) : bool :=
  locked p n || ((n + 1 <? PMP_COUNT) && locked p (n + 1) &&
                 (Z.land (cfg p (n + 1)) PMP_A =? PMP_A_TOR)).

(** A configuration register shows eight entries. *)
Definition assemble (f : Z -> Z) (b : Z) : Z :=
  Z.lor (f b) (Z.lor (Z.shiftl (f (b + 1)) 8) (Z.lor (Z.shiftl (f (b + 2)) 16)
  (Z.lor (Z.shiftl (f (b + 3)) 24) (Z.lor (Z.shiftl (f (b + 4)) 32)
  (Z.lor (Z.shiftl (f (b + 5)) 40) (Z.lor (Z.shiftl (f (b + 6)) 48)
  (Z.shiftl (f (b + 7)) 56))))))).

Definition first_of (csr : Z) : Z := 4 * (csr - CSR_PMPCFG0).

Definition read (p : pmp) (csr : Z) : Z :=
  if csr <? CSR_PMPADDR0 then assemble (cfg p) (first_of csr)
  else paddr p (csr - CSR_PMPADDR0).

(** An address register keeps the implemented bits of what is written. *)
Definition write (bits : Z) (p : pmp) (csr v : Z) : pmp :=
  if csr <? CSR_PMPADDR0 then
    let b := first_of csr in
    mkPmp (fun k => if (b <=? k) && (k <? b + 8) && negb (locked p k)
                    then byte v (k - b) else cfg p k)
          (paddr p) (mseccfg p)
  else
    let n := csr - CSR_PMPADDR0 in
    if addr_locked p n then p
    else mkPmp (cfg p) (upd (paddr p) n (v mod 2 ^ bits)) (mseccfg p).

(** [RLB] cannot be set once an entry is locked. *)
Definition set_mseccfg (p : pmp) (m : Z) : pmp :=
  if (m =? MSECCFG_RLB) && existsb (locked p) (seqZ 0 PMP_COUNT) then p
  else mkPmp (cfg p) (paddr p) (Z.lor (mseccfg p) m).

(** A naturally aligned power-of-two range: the trailing ones of the address
    register and the zero above them are not compared. *)
Definition napot_match (a x : Z) : bool :=
  Z.land (Z.lxor x a) (Z.lnot (Z.lxor a (a + 1))) =? 0.

Definition entry_match (p : pmp) (n addr : Z) : bool :=
  let x := Z.shiftr addr 2 in
  let mode := Z.land (cfg p n) PMP_A in
  if mode =? PMP_A_NAPOT then napot_match (paddr p n) x
  else if mode =? PMP_A_NA4 then x =? paddr p n
  else if mode =? PMP_A_TOR
       then ((if n =? 0 then 0 else paddr p (n - 1)) <=? x) && (x <? paddr p n)
  else false.

(** The lowest-numbered entry that matches decides. *)
Fixpoint first_match (p : pmp) (addr : Z) (k : nat) (n : Z) : option Z :=
  match k with
  | O => None
  | S k => if entry_match p n addr then Some (cfg p n) else first_match p addr k (n + 1)
  end.

(** The permissions (R, W, X as bits 0 to 2) of an entry in a privilege mode. *)
Definition perm (c mode : Z) : Z :=
  if (mode =? PRV_M) && negb (Z.testbit c 7) then 7 else Z.land c 7.

(** The same under [mseccfg.MML]: the Smepmp truth table, by L, R, W, X. *)
Definition perm_mml (c mode : Z) : Z :=
  let m := mode =? PRV_M in
  match Z.testbit c 7, Z.testbit c 0, Z.testbit c 1, Z.testbit c 2 with
  | false, false, true, false => if m then 3 else 1
  | false, false, true, true => 3
  | false, _, _, _ => if m then 0 else Z.land c 7
  | true, false, true, false => 4
  | true, false, true, true => if m then 5 else 4
  | true, true, true, true => 1
  | true, _, _, _ => if m then Z.land c 7 else 0
  end.

(** May an access of kind [acc] (R = 1, W = 2, X = 4) to the byte [addr]
    proceed in privilege mode [mode]? *)
Definition allows (p : pmp) (mode addr acc : Z) : bool :=
  let mml := Z.testbit (mseccfg p) 0 in
  match first_match p addr (Z.to_nat PMP_COUNT) 0 with
  | Some c => Z.land (if mml then perm_mml c mode else perm c mode) acc =? acc
  | None =>
      if mode =? PRV_M then
        negb (Z.testbit (mseccfg p) 1) && (negb mml || (Z.land acc 4 =? 0))
      else false
  end.

End Hw.

Import Hw.

(** ** riscv_asm.c *)

Section Pmp.
(** The implemented bits of the address registers. *)
Variable bits : Z.

Definition csr_read_num (p : pmp) (csr_num : Z) : Z := read p csr_num.
Definition csr_write_num (p : pmp) (csr_num val : Z) : pmp := write bits p csr_num val.

(** [ctz], on an unsigned long *)
Fixpoint ctz_loop (fuel : nat) (x ret : Z) : option Z :=
  match fuel with
  | O => None
  | S fuel => if Z.land x 1 =? 0 then ctz_loop fuel (Z.shiftr x 1) (ret + 1) else Some ret
  end.

Definition ctz (x : Z) : option Z := if x =? 0 then Some 64 else ctz_loop 64 x 0.

Definition pmpcfg_csr (n : Z) : Z := Z.land (CSR_PMPCFG0 + Z.shiftr n 2) (Z.lnot 1).
Definition pmpcfg_shift (n : Z) : Z := Z.shiftl (Z.land n 7) 3.

Definition pmp_disable (p : pmp) (n : Z) : Z * pmp :=
  if PMP_COUNT <=? n then (SBI_EINVAL, p)
  else
    let cfgmask := not64 (u64 (Z.shiftl 0xff (pmpcfg_shift n))) in
    let pmpcfg := Z.land (csr_read_num p (pmpcfg_csr n)) cfgmask in
    (SBI_OK, csr_write_num p (pmpcfg_csr n) pmpcfg).

Definition pmp_set (p : pmp) (n prot addr log2len : Z) : Z * pmp :=
  if (PMP_COUNT <=? n) || (64 <? log2len) || (log2len <? PMP_SHIFT) then (SBI_EINVAL, p)
  else
    let pmpaddr_csr := CSR_PMPADDR0 + n in
    let prot := Z.land prot (not64 PMP_A) in
    let prot := Z.lor prot (if log2len =? PMP_SHIFT then PMP_A_NA4 else PMP_A_NAPOT) in
    let cfgmask := not64 (u64 (Z.shiftl 0xff (pmpcfg_shift n))) in
    let pmpcfg := Z.land (csr_read_num p (pmpcfg_csr n)) cfgmask in
    let pmpcfg := Z.lor pmpcfg (Z.land (u64 (Z.shiftl prot (pmpcfg_shift n))) (not64 cfgmask)) in
    let pmpaddr :=
      if log2len =? PMP_SHIFT then Z.shiftr addr PMP_SHIFT
      else if log2len =? 64 then ULONG_MAX
      else
        let addrmask := u64 (u64 (Z.shiftl 1 (log2len - PMP_SHIFT)) - 1) in
        Z.lor (Z.land (Z.shiftr addr PMP_SHIFT) (not64 addrmask)) (Z.shiftr addrmask 1) in
    let p := csr_write_num p pmpaddr_csr pmpaddr in
    (0, csr_write_num p (pmpcfg_csr n) pmpcfg).

(** The outputs [prot_out], [addr_out], [log2len]; the pointers are not NULL. *)
Definition pmp_get (p : pmp) (n : Z) : option (Z * (Z * Z * Z)) :=
  if PMP_COUNT <=? n then Some (SBI_EINVAL, (0, 0, 0))
  else
    let cfgmask := u64 (Z.shiftl 0xff (pmpcfg_shift n)) in
    let pmpcfg := Z.land (csr_read_num p (pmpcfg_csr n)) cfgmask in
    let prot := Z.shiftr pmpcfg (pmpcfg_shift n) in
    if Z.land prot PMP_A =? PMP_A_NAPOT then
      let addr := csr_read_num p (CSR_PMPADDR0 + n) in
      if addr =? ULONG_MAX then Some (0, (prot, 0, 64))
      else
        t1 ← ctz (not64 addr);
        let addr := u64 (Z.shiftl (Z.land addr (not64 (u64 (u64 (Z.shiftl 1 t1) - 1)))) PMP_SHIFT) in
        Some (0, (prot, addr, t1 + PMP_SHIFT + 1))
    else Some (0, (prot, u64 (Z.shiftl (csr_read_num p (CSR_PMPADDR0 + n)) PMP_SHIFT), PMP_SHIFT)).

Definition is_pmp_entry_mapped (p : pmp) (entry : Z) : option bool :=
  '(rc, (prot, _, _)) ← pmp_get p entry;
  if negb (rc =? 0) then Some false
  else Some (negb (Z.land prot PMP_A =? 0)).

(** ** sbi_hart.c *)

Definition ACCESS_MASK : Z := 0x3f.
Definition ENF_PERMISSIONS : Z := 0x40.
Definition M_RWX : Z := Z.lor M_READABLE (Z.lor M_WRITABLE M_EXECUTABLE).
Definition SHARED_RDONLY : Z := Z.lor M_READABLE SU_READABLE.
Definition SHARED_SUX_MRX : Z := Z.lor M_READABLE (Z.lor M_EXECUTABLE SU_EXECUTABLE).
Definition SHARED_SUX_MX : Z := Z.lor M_EXECUTABLE SU_EXECUTABLE.
Definition SHARED_SURW_MRW : Z :=
  Z.lor M_READABLE (Z.lor M_WRITABLE (Z.lor SU_READABLE SU_WRITABLE)).
Definition SHARED_SUR_MRW : Z := Z.lor M_READABLE (Z.lor M_WRITABLE SU_READABLE).

Definition IS_SUR_MR (f : Z) : bool := Z.land f ACCESS_MASK =? SHARED_RDONLY.
Definition IS_SUX_MRX (f : Z) : bool := Z.land f ACCESS_MASK =? SHARED_SUX_MRX.
Definition IS_SUX_MX (f : Z) : bool := Z.land f ACCESS_MASK =? SHARED_SUX_MX.
Definition IS_SURW_MRW (f : Z) : bool := Z.land f ACCESS_MASK =? SHARED_SURW_MRW.
Definition IS_SUR_MRW (f : Z) : bool := Z.land f ACCESS_MASK =? SHARED_SUR_MRW.

Definition IS_SHARED (f : Z) : bool :=
  IS_SUR_MR f || IS_SUX_MRX f || IS_SUX_MX f || IS_SURW_MRW f || IS_SUR_MRW f.

Definition M_ONLY_ACCESS (f : Z) : bool :=
  negb (Z.land f M_ACCESS_MASK =? 0) && (Z.land f SU_ACCESS_MASK =? 0).

Definition SU_ONLY_ACCESS (f : Z) : bool :=
  negb (Z.land f SU_ACCESS_MASK =? 0) && (Z.land f M_ACCESS_MASK =? 0).

(** [if (flags & bit) pmp_flags |= v] *)
Definition add_flag (f bit v pmp_flags : Z) : Z :=
  if negb (Z.land f bit =? 0) then Z.lor pmp_flags v else pmp_flags.

Definition sbi_hart_get_smepmp_flags (f : Z) : Z :=
  if IS_SHARED f then
    if IS_SUR_MR f then Z.lor PMP_L (Z.lor PMP_R (Z.lor PMP_W PMP_X))
    else if IS_SUX_MRX f then Z.lor PMP_L (Z.lor PMP_W PMP_X)
    else if IS_SUX_MX f then Z.lor PMP_L PMP_W
    else if IS_SURW_MRW f then Z.lor PMP_W PMP_X
    else if IS_SUR_MRW f then PMP_W
    else 0
  else if M_ONLY_ACCESS f then
    if Z.land f M_ACCESS_MASK =? M_RWX then 0
    else
      add_flag f M_EXECUTABLE PMP_X (add_flag f M_WRITABLE PMP_W
        (add_flag f M_READABLE PMP_R (Z.lor 0 PMP_L)))
  else if SU_ONLY_ACCESS f then
    add_flag f SU_EXECUTABLE PMP_X (add_flag f SU_WRITABLE PMP_W (add_flag f SU_READABLE PMP_R 0))
  else 0.

(** The region can be written to a PMP entry of this hart. *)
Definition pmp_in_range (pmp_log2gran pmp_addr_max : Z) (reg : sbi_domain_memregion) : bool :=
  (pmp_log2gran <=? order reg) && (Z.shiftr (base reg) PMP_SHIFT <? pmp_addr_max).

Definition sbi_hart_smepmp_set (p : pmp) (reg : sbi_domain_memregion)
    (pmp_idx pmp_flags pmp_log2gran pmp_addr_max : Z) : pmp :=
  if pmp_in_range pmp_log2gran pmp_addr_max reg
  then (pmp_set p pmp_idx pmp_flags (base reg) (order reg)).2 else p.

Definition SBI_SMEPMP_RESV_ENTRY : Z := 0.

(** One of the two programming loops: [m_only] selects the regions it programs;
    [false] is the early [return 0] of the function. *)
Fixpoint smepmp_loop (m_only : bool) (regs : list sbi_domain_memregion)
    (count log2gran addr_max pmp_idx : Z) (p : pmp) : bool * pmp :=
  match regs with
  | [] => (true, p)
  | reg :: regs =>
      let pmp_idx := if pmp_idx =? SBI_SMEPMP_RESV_ENTRY then u32 (pmp_idx + 1) else pmp_idx in
      if count <=? pmp_idx then (true, p)
      else if negb (Bool.eqb (M_ONLY_ACCESS (flags reg)) m_only)
      then smepmp_loop m_only regs count log2gran addr_max (u32 (pmp_idx + 1)) p
      else
        let pmp_flags := sbi_hart_get_smepmp_flags (flags reg) in
        if pmp_flags =? 0 then (false, p)
        else smepmp_loop m_only regs count log2gran addr_max (u32 (pmp_idx + 1))
               (sbi_hart_smepmp_set p reg pmp_idx pmp_flags log2gran addr_max)
  end.

Definition sbi_hart_smepmp_configure (d : sbi_domain) (count log2gran addr_max : Z) (p : pmp)
    : Z * pmp :=
  let p := set_mseccfg p MSECCFG_RLB in
  let p := (pmp_disable p SBI_SMEPMP_RESV_ENTRY).2 in
  match smepmp_loop true (dom_regions d) count log2gran addr_max 0 p with
  | (false, p) => (0, p)
  | (true, p) =>
      let p := set_mseccfg p MSECCFG_MML in
      (0, (smepmp_loop false (dom_regions d) count log2gran addr_max 0 p).2)
  end.

Definition oldpmp_flags (f : Z) : Z :=
  add_flag f SU_EXECUTABLE PMP_X (add_flag f SU_WRITABLE PMP_W (add_flag f SU_READABLE PMP_R
    (add_flag f ENF_PERMISSIONS PMP_L 0))).

Fixpoint oldpmp_loop (regs : list sbi_domain_memregion) (count log2gran addr_max pmp_idx : Z)
    (p : pmp) : pmp :=
  match regs with
  | [] => p
  | reg :: regs =>
      if count <=? pmp_idx then p
      else if pmp_in_range log2gran addr_max reg
      then oldpmp_loop regs count log2gran addr_max (u32 (pmp_idx + 1))
             (pmp_set p pmp_idx (oldpmp_flags (flags reg)) (base reg) (order reg)).2
      else oldpmp_loop regs count log2gran addr_max pmp_idx p
  end.

Definition sbi_hart_oldpmp_configure (d : sbi_domain) (count log2gran addr_max : Z) (p : pmp)
    : Z * pmp :=
  (0, oldpmp_loop (dom_regions d) count log2gran addr_max 0 p).

Definition pmp_addr_max (f : sbi_hart_features) : Z :=
  let pmp_bits := u32 (pmp_addr_bits f - 1) in
  Z.lor (u64 (Z.shiftl 1 pmp_bits)) (u64 (u64 (Z.shiftl 1 pmp_bits) - 1)).

(** The trailing [sfence.vma] drops cached translations and changes no
    register. *)
Definition sbi_hart_pmp_configure (f : sbi_hart_features) (d : sbi_domain) (p : pmp) : Z * pmp :=
  if pmp_count f =? 0 then (0, p)
  else if sbi_hart_has_extension f SBI_HART_EXT_SMEPMP
  then sbi_hart_smepmp_configure d (pmp_count f) (pmp_log2gran f) (pmp_addr_max f) p
  else sbi_hart_oldpmp_configure d (pmp_count f) (pmp_log2gran f) (pmp_addr_max f) p.

(** The search for a block around the range; [None] is [SBI_EFAIL]. *)
Fixpoint saddr_loop (fuel : nat) (addr size order : Z) : option (Z * Z) :=
  match fuel with
  | O => None
  | S fuel =>
      if order <? 64 then
        let base := Z.land addr (not64 (u64 (u64 (Z.shiftl 1 order) - 1))) in
        let top := u64 (base + u64 (Z.shiftl 1 order)) in
        let last := u64 (addr + size - 1) in
        if (base <=? addr) && (addr <? top) && (base <=? last) && (last <? top)
        then Some (base, order)
        else saddr_loop fuel addr size (order + 1)
      else None
  end.

Definition sbi_hart_map_saddr (f : sbi_hart_features) (addr size : Z) (p : pmp)
    : option (Z * pmp) :=
  if negb (sbi_hart_has_extension f SBI_HART_EXT_SMEPMP) then Some (SBI_OK, p)
  else
    mapped ← is_pmp_entry_mapped p SBI_SMEPMP_RESV_ENTRY;
    if mapped : bool then Some (SBI_ENOSPC, p)
    else
      match saddr_loop 65 addr size (Z.max (pmp_log2gran f) (log2roundup size)) with
      | None => Some (SBI_EFAIL, p)
      | Some (base, order) =>
          Some (SBI_OK, (pmp_set p SBI_SMEPMP_RESV_ENTRY (Z.lor PMP_W PMP_X) base order).2)
      end.

Definition sbi_hart_unmap_saddr (f : sbi_hart_features) (p : pmp) : Z * pmp :=
  if negb (sbi_hart_has_extension f SBI_HART_EXT_SMEPMP) then (SBI_OK, p)
  else pmp_disable p SBI_SMEPMP_RESV_ENTRY.

End Pmp.

(** ** Lemmas: configuration bytes *)

Definition pmp_ok (p : pmp) : Prop := forall k, 0 <= cfg p k < 2 ^ 8.

Lemma byte_bits x i j : 0 <= i -> 0 <= j ->
  Z.testbit (byte x i) j = (j <? 8) && Z.testbit x (j + 8 * i).
Proof.
  intros. unfold byte. change 0xff with (Z.ones 8).
  rewrite Z.land_spec, Z.shiftr_spec, ones_bits by lia.
  rewrite andb_comm. f_equal. zcases; done || lia.
Qed.

Lemma land_ff_range x : 0 <= Z.land x 0xff < 2 ^ 8.
Proof. change 0xff with (Z.ones 8). rewrite Z.land_ones by lia. by apply Z.mod_pos_bound. Qed.

(** A byte that fits is read back from its place. *)
Lemma assemble_byte f b i :
  (forall k, 0 <= f k < 2 ^ 8) -> 0 <= i < 8 -> byte (assemble f b) i = f (b + i).
Proof.
  intros Hf Hi. apply Z.bits_inj'. intros j Hj. rewrite byte_bits by lia.
  zcases; cbn [andb].
  2:{ by rewrite (bits_above 8) by (try apply Hf; lia). }
  assert (forall k s, s = 8 * k -> 0 <= k < 8 ->
    Z.testbit (Z.shiftl (f (b + k)) s) (j + 8 * i) = (k =? i) && Z.testbit (f (b + i)) j) as Hk.
  { intros k s -> Hk. rewrite Z.shiftl_spec by lia. zcases; cbn [andb].
    - subst k. f_equal. lia.
    - destruct (Z_lt_le_dec i k); [by rewrite Z.testbit_neg_r by lia|].
      by rewrite (bits_above 8) by (try apply Hf; lia). }
  assert (Z.testbit (f b) (j + 8 * i) = (0 =? i) && Z.testbit (f (b + i)) j) as H0.
  { rewrite <- (Hk 0 0) by lia. by rewrite Z.add_0_r, Z.shiftl_0_r. }
  unfold assemble. rewrite !Z.lor_spec, H0.
  rewrite (Hk 1), (Hk 2), (Hk 3), (Hk 4), (Hk 5), (Hk 6), (Hk 7) by lia.
  rewrite <- !andb_orb_distrib_l.
  assert (i = 0 \/ i = 1 \/ i = 2 \/ i = 3 \/ i = 4 \/ i = 5 \/ i = 6 \/ i = 7)
    as [-> |[-> |[-> |[-> |[-> |[-> |[-> | ->]]]]]]] by lia; done.
Qed.

(** The shift and mask of entry [n]'s byte. *)
Lemma cfg_place n : 0 <= n < 64 ->
  pmpcfg_shift n = 8 * (n mod 8) /\ first_of (pmpcfg_csr n) = n - n mod 8 /\
  (pmpcfg_csr n <? CSR_PMPADDR0) = true.
Proof.
  intros Hn. unfold pmpcfg_shift, pmpcfg_csr, first_of.
  assert (forallb (fun n => (Z.shiftl (Z.land n 7) 3 =? 8 * (n mod 8)) &&
    (4 * (Z.land (CSR_PMPCFG0 + Z.shiftr n 2) (Z.lnot 1) - CSR_PMPCFG0) =? n - n mod 8) &&
    (Z.land (CSR_PMPCFG0 + Z.shiftr n 2) (Z.lnot 1) <? CSR_PMPADDR0)) (seqZ 0 64) = true) as H
    by (vm_compute; reflexivity).
  rewrite forallb_forall in H. specialize (H n). rewrite !andb_true_iff, !Z.eqb_eq in H.
  destruct H as [[??]?]; [|done]. apply list_elem_of_In, elem_of_seqZ. lia.
Qed.

Lemma mask_bits s i : 0 <= s <= 56 -> 0 <= i ->
  Z.testbit (u64 (Z.shiftl 0xff s)) i = (s <=? i) && (i <? s + 8).
Proof.
  intros. change 0xff with (Z.ones 8). rewrite wrap_bits, shiftl_bits, ones_bits by lia.
  zcases; cbn; try done; lia.
Qed.

(** Replacing one byte of a configuration register. *)
Lemma replace_byte w v s i : 0 <= s < 8 -> 0 <= i < 8 ->
  byte (Z.lor (Z.land w (not64 (u64 (Z.shiftl 0xff (8 * s)))))
          (Z.land (u64 (Z.shiftl v (8 * s))) (not64 (not64 (u64 (Z.shiftl 0xff (8 * s))))))) i
  = if i =? s then Z.land v 0xff else byte w i.
Proof.
  intros. apply Z.bits_inj'. intros j Hj. rewrite byte_bits by lia.
  rewrite Z.lor_spec, !Z.land_spec, !not64_bits, mask_bits, wrap_bits, shiftl_bits by lia.
  destruct (i =? s) eqn:E.
  - apply Z.eqb_eq in E as ->. change 0xff with (Z.ones 8). rewrite Z.land_spec, ones_bits by lia.
    replace (j + 8 * s - 8 * s) with j by lia.
    zcases; cbn; rewrite ?andb_true_r, ?andb_false_r; cbn; try done; lia.
  - apply Z.eqb_neq in E. rewrite byte_bits by lia.
    zcases; cbn; rewrite ?andb_true_r, ?andb_false_r, ?orb_false_r; cbn; try done; lia.
Qed.

Lemma clear_byte w s i : 0 <= s < 8 -> 0 <= i < 8 ->
  byte (Z.land w (not64 (u64 (Z.shiftl 0xff (8 * s))))) i = if i =? s then 0 else byte w i.
Proof.
  intros Hs Hi. pose proof (replace_byte w 0 s i Hs Hi) as H.
  rewrite Z.shiftl_0_l, Z.land_0_l in H. change (u64 0) with 0 in H.
  by rewrite Z.land_0_l, Z.lor_0_r in H.
Qed.

(** ** Lemmas: one entry at a time *)

(** [p'] is [p] with entry [n] replaced. *)
Definition with_entry (p p' : pmp) (n c a : Z) : Prop :=
  mseccfg p' = mseccfg p /\ (forall k, cfg p' k = upd (cfg p) n c k) /\
  (forall k, paddr p' k = upd (paddr p) n a k) /\ pmp_ok p'.

(** The byte and the address [pmp_set] stores. *)
Definition pmp_cfg (prot log2len : Z) : Z :=
  Z.land (Z.lor (Z.land prot (not64 PMP_A))
            (if log2len =? PMP_SHIFT then PMP_A_NA4 else PMP_A_NAPOT)) 0xff.

Definition pmp_addr (addr log2len : Z) : Z :=
  if log2len =? PMP_SHIFT then Z.shiftr addr PMP_SHIFT
  else if log2len =? 64 then ULONG_MAX
  else
    let addrmask := u64 (u64 (Z.shiftl 1 (log2len - PMP_SHIFT)) - 1) in
    Z.lor (Z.land (Z.shiftr addr PMP_SHIFT) (not64 addrmask)) (Z.shiftr addrmask 1).

Lemma read_cfg p n i : pmp_ok p -> 0 <= n < 64 -> 0 <= i < 8 ->
  byte (csr_read_num p (pmpcfg_csr n)) i = cfg p (n - n mod 8 + i).
Proof.
  intros Hp Hn Hi. destruct (cfg_place n Hn) as (_ & Hf & Hc).
  unfold csr_read_num, read. rewrite Hc, Hf. by apply assemble_byte.
Qed.

Lemma read_addr p n : 0 <= n -> csr_read_num p (CSR_PMPADDR0 + n) = paddr p n.
Proof.
  intros. unfold csr_read_num, read, CSR_PMPADDR0. zcases; [lia|]. f_equal. lia.
Qed.

(** Writing a configuration register in which only the byte of entry [n]
    changes. *)
Lemma write_cfg bits p n v c :
  pmp_ok p -> 0 <= n < 64 -> locked p n = false -> 0 <= c < 2 ^ 8 ->
  (forall i, 0 <= i < 8 -> byte v i = if i =? n mod 8 then c
                                   else byte (csr_read_num p (pmpcfg_csr n)) i) ->
  with_entry p (csr_write_num bits p (pmpcfg_csr n) v) n c (paddr p n).
Proof.
  intros Hp Hn Hl Hc Hv. destruct (cfg_place n Hn) as (_ & Hf & Hr).
  unfold csr_write_num, write. rewrite Hr, Hf.
  assert (0 <= n mod 8 < 8) by (apply Z.mod_pos_bound; lia).
  assert (forall k, (if (n - n mod 8 <=? k) && (k <? n - n mod 8 + 8) && negb (locked p k)
                     then byte v (k - (n - n mod 8)) else cfg p k) = upd (cfg p) n c k) as E.
  { intros k. unfold upd. zcases; cbn [andb]; try lia; try done.
    - subst k. rewrite Hl. cbn. rewrite Hv by lia. by rewrite (proj2 (Z.eqb_eq _ _)) by lia.
    - destruct (locked p k); cbn; [done|]. rewrite Hv by lia.
      rewrite (proj2 (Z.eqb_neq _ _)) by lia. rewrite read_cfg by (done || lia). f_equal. lia. }
  split; [done|]. split; [exact E|]. split.
  - intros k. unfold upd. cbn. by zcases; subst.
  - intros k. cbn. rewrite E. unfold upd. zcases; [done|apply Hp].
Qed.

Lemma locked_ext p p' n : mseccfg p' = mseccfg p -> cfg p' n = cfg p n -> locked p' n = locked p n.
Proof. unfold locked. by intros -> ->. Qed.

Lemma pmp_set_spec bits p n prot addr l :
  pmp_ok p -> 0 <= n < 64 -> 2 <= l <= 64 -> addr_locked p n = false ->
  exists p', pmp_set bits p n prot addr l = (0, p') /\
    with_entry p p' n (pmp_cfg prot l) (pmp_addr addr l mod 2 ^ bits).
Proof.
  intros Hp Hn Hlen Hl. destruct (cfg_place n Hn) as (Hs & _).
  assert (locked p n = false) as Hl' by (by apply orb_false_iff in Hl as [??]).
  unfold pmp_set, PMP_COUNT, PMP_SHIFT.
  destruct ((64 <=? n) || (64 <? l) || (l <? 2)) eqn:E.
  { rewrite !orb_true_iff in E. zcases_in E; intuition (lia || done). }
  clear E. eexists. split; [reflexivity|].
  change (if l =? 2 then Z.shiftr addr 2 else _) with (pmp_addr addr l).
  set (pm := csr_write_num bits p (CSR_PMPADDR0 + n) (pmp_addr addr l)).
  assert (pm = mkPmp (cfg p) (upd (paddr p) n (pmp_addr addr l mod 2 ^ bits)) (mseccfg p)) as Em.
  { unfold pm, csr_write_num, write, CSR_PMPADDR0. zcases; [lia|].
    replace (0x3b0 + n - 0x3b0) with n by lia. by rewrite Hl. }
  clearbody pm. subst pm. rewrite Hs.
  match goal with |- with_entry _ (csr_write_num _ ?q _ ?v) _ _ _ =>
    destruct (write_cfg bits q n v (pmp_cfg prot l)) as (H1 & H2 & H3 & H4) end;
    [exact Hp|exact Hn|exact Hl'|apply land_ff_range|..].
  { intros i Hi. rewrite replace_byte by (try apply Z.mod_pos_bound; lia).
    by rewrite !read_cfg by done. }
  split; [exact H1|]. split; [exact H2|]. split; [|exact H4].
  intros k. rewrite H3. cbn. unfold upd. by zcases; subst; rewrite ?Z.eqb_refl.
Qed.

Lemma pmp_disable_spec bits p n :
  pmp_ok p -> 0 <= n < 64 -> locked p n = false ->
  exists p', pmp_disable bits p n = (SBI_OK, p') /\ with_entry p p' n 0 (paddr p n).
Proof.
  intros Hp Hn Hl. destruct (cfg_place n Hn) as (Hs & _). unfold pmp_disable, PMP_COUNT.
  zcases; [lia|]. eexists. split; [reflexivity|]. rewrite Hs.
  apply write_cfg; [done..|]. intros i Hi. apply clear_byte; [|done]. by apply Z.mod_pos_bound.
Qed.

(** ** Lemmas: naturally aligned ranges *)

(** A multiple of [2^k] and a number below [2^k] share no bit. *)
Lemma land_low q r k : 0 <= k -> 0 <= r < 2 ^ k -> Z.land (q * 2 ^ k) r = 0.
Proof.
  intros Hk Hr. apply Z.bits_inj'. intros i Hi. rewrite Z.land_spec, Z.bits_0.
  destruct (Z_lt_le_dec i k); [by rewrite Z.mul_pow2_bits_low|].
  by rewrite (bits_above k r), andb_false_r by lia.
Qed.

Lemma lor_low q r k : 0 <= k -> 0 <= r < 2 ^ k -> Z.lor (q * 2 ^ k) r = q * 2 ^ k + r.
Proof.
  intros Hk Hr. pose proof (land_low q r k Hk Hr) as H.
  by rewrite <- Z.lxor_lor, Z.add_nocarry_lxor by done.
Qed.

Lemma lxor_low q r k : 0 <= k -> 0 <= r < 2 ^ k -> q * 2 ^ k + r = Z.lxor (q * 2 ^ k) r.
Proof. intros. by apply Z.add_nocarry_lxor, land_low. Qed.

Lemma lxor_cancel a r s : Z.lxor (Z.lxor a r) (Z.lxor a s) = Z.lxor r s.
Proof.
  apply Z.bits_inj'. intros i Hi. rewrite !Z.lxor_spec.
  by destruct (Z.testbit a i), (Z.testbit r i), (Z.testbit s i).
Qed.

Lemma pow2_split k n : 0 <= k -> 0 <= n -> 2 ^ (n + k) = 2 ^ n * 2 ^ k.
Proof. intros. by apply Z.pow_add_r. Qed.

Lemma napot_match_spec q k x : 0 <= k ->
  napot_match (q * 2 ^ (k + 1) + (2 ^ k - 1)) x = (x / 2 ^ (k + 1) =? q).
Proof.
  intros Hk. pose proof (pow2_pos k Hk). pose proof (pow2_split 1 k ltac:(lia) Hk).
  unfold napot_match. set (a := q * 2 ^ (k + 1) + (2 ^ k - 1)).
  assert (Z.lxor a (a + 1) = Z.ones (k + 1)) as ->.
  { unfold a. replace (_ + (2 ^ k - 1) + 1) with (q * 2 ^ (k + 1) + 2 ^ k) by lia.
    rewrite (lxor_low q (2 ^ k - 1)), (lxor_low q (2 ^ k)) by lia.
    rewrite lxor_cancel, Z.lxor_comm. replace (2 ^ k) with (1 * 2 ^ k) at 1 by lia.
    rewrite <- lxor_low by lia. rewrite Z.ones_equiv. lia. }
  rewrite <- Z.ldiff_land.
  rewrite Z.ldiff_ones_r, Z.shiftl_mul_pow2, Z.shiftr_lxor by lia.
  rewrite !Z.shiftr_div_pow2 by lia.
  assert (a / 2 ^ (k + 1) = q) as ->.
  { unfold a. rewrite Z.div_add_l by lia. rewrite Z.div_small by lia. lia. }
  destruct (Z.eqb_spec (x / 2 ^ (k + 1)) q) as [-> |Hne].
  - by rewrite Z.lxor_nilpotent.
  - apply Z.eqb_neq. intros E. apply Hne, Z.lxor_eq. pose proof (pow2_pos (k + 1)). nia.
Qed.

Lemma pmp_addr_napot q o : 3 <= o < 64 -> 0 <= q * 2 ^ o < 2 ^ 64 ->
  pmp_addr (q * 2 ^ o) o = q * 2 ^ (o - 2) + (2 ^ (o - 3) - 1).
Proof.
  intros Ho Hq. unfold pmp_addr, PMP_SHIFT. zcases; [lia|lia|].
  assert (2 ^ o = 2 ^ (o - 2) * 4) as E4 by (rewrite <- (pow2_split 2) by lia; f_equal; lia).
  assert (2 ^ (o - 2) = 2 ^ (o - 3) * 2) as E2 by (rewrite <- (pow2_split 1) by lia; f_equal; lia).
  pose proof (pow2_pos (o - 3)). pose proof (pow2_lt (o - 2) 64).
  rewrite shiftl_one by lia. rewrite (wrap_small 64 (2 ^ (o - 2) - 1)) by lia.
  rewrite (Z.shiftr_div_pow2 (q * 2 ^ o)) by lia. change (2 ^ 2) with 4.
  rewrite E4, Z.mul_assoc, Z.div_mul by lia.
  rewrite land_not_mask, Z.mod_mul, Z.sub_0_r by lia.
  rewrite Z.shiftr_div_pow2 by lia. change (2 ^ 1) with 2.
  replace ((2 ^ (o - 2) - 1) / 2) with (2 ^ (o - 3) - 1).
  - apply lor_low; lia.
  - apply Z.div_unique with 1; lia.
Qed.

Lemma all_ones_mod n b : 0 <= b <= n -> (2 ^ n - 1) mod 2 ^ b = 2 ^ b - 1.
Proof.
  intros H. pose proof (pow2_pos b). replace n with ((n - b) + b) by lia.
  rewrite pow2_split by lia. symmetry. apply Z.mod_unique with (2 ^ (n - b) - 1); [|lia].
  pose proof (pow2_pos (n - b)). lia.
Qed.

Lemma block_div q o a : 0 <= o -> (a / 2 ^ o =? q) = true <-> q * 2 ^ o <= a < q * 2 ^ o + 2 ^ o.
Proof.
  intros Ho. pose proof (pow2_pos o Ho). rewrite Z.eqb_eq.
  split; [|intros; symmetry; apply Z.div_unique with (a - q * 2 ^ o); lia].
  intros <-. pose proof (Z.div_mod a (2 ^ o)). pose proof (Z.mod_pos_bound a (2 ^ o)). lia.
Qed.

(** Under the guard of the set-up, the entry written for a region matches
    exactly the physical addresses the region covers. *)
Lemma region_match bits r a :
  1 <= bits <= 62 -> reg_ok r -> Z.shiftr (base r) 2 < 2 ^ bits - 1 -> 0 <= a < 2 ^ (bits + 2) ->
  napot_match (pmp_addr (base r) (order r) mod 2 ^ bits) (Z.shiftr a 2) = bool_decide (covers r a).
Proof.
  intros Hb (Ho & H0 & Htop & q & Hq) Hg Ha. apply eq_true_iff_eq. rewrite bool_decide_eq_true.
  unfold covers. rewrite Hq in Htop, H0, Hg |- *.
  rewrite Z.shiftr_div_pow2 in Hg |- * by lia.
  pose proof (pow2_split 2 bits ltac:(lia) ltac:(lia)) as Eb. change (2 ^ 2) with 4 in *.
  pose proof (pow2_pos bits).
  assert (0 <= a / 4 < 2 ^ bits) as Hx by (split; [apply Z.div_pos|apply Z.div_lt_upper_bound]; lia).
  assert (2 ^ (order r) = 2 ^ (order r - 2) * 4) as E4
    by (rewrite <- (pow2_split 2) by lia; f_equal; lia).
  rewrite E4, Z.mul_assoc, Z.div_mul in Hg by lia.
  pose proof (pow2_pos (order r - 2)).
  assert (forall n, bits <= n -> napot_match ((2 ^ n - 1) mod 2 ^ bits) (a / 4) = true) as Hall.
  { intros n Hn. rewrite all_ones_mod by lia.
    replace (2 ^ bits - 1) with (0 * 2 ^ (bits + 1) + (2 ^ bits - 1)) by lia.
    rewrite napot_match_spec by lia. apply Z.eqb_eq, Z.div_small.
    rewrite (pow2_split 1) by lia. lia. }
  destruct (Z.eq_dec (order r) 64) as [E|].
  { rewrite E in Htop, H0 |- *. assert (q = 0) as -> by nia.
    assert (forall x, pmp_addr x 64 = 2 ^ 64 - 1) as -> by reflexivity. rewrite Hall by lia.
    pose proof (Z.pow_le_mono_r 2 (bits + 2) 64). split; [lia|done]. }
  rewrite pmp_addr_napot by lia. destruct (Z_le_gt_dec (order r - 2) bits) as [Hs|Hs].
  - assert (2 ^ bits = 2 ^ (bits - (order r - 2)) * 2 ^ (order r - 2)) as Es
      by (rewrite <- pow2_split by lia; f_equal; lia).
    assert (2 ^ (order r - 2) = 2 ^ (order r - 3) * 2) as E2
      by (rewrite <- (pow2_split 1) by lia; f_equal; lia).
    pose proof (pow2_pos (order r - 3)).
    assert (q + 1 <= 2 ^ (bits - (order r - 2))) by nia.
    rewrite Z.mod_small by nia.
    replace (order r - 2) with (order r - 3 + 1) by lia. rewrite napot_match_spec by lia.
    replace (order r - 3 + 1) with (order r - 2) by lia.
    rewrite Z.div_div, (Z.mul_comm 4), <- E4 by lia. apply block_div. lia.
  - assert (2 ^ bits <= 2 ^ (order r - 2)) by (apply Z.pow_le_mono_r; lia).
    assert (q = 0) as -> by nia. rewrite Z.mul_0_l, Z.add_0_l, Hall by lia.
    pose proof (Z.pow_le_mono_r 2 (bits + 2) (order r)). split; [lia|done].
Qed.

(** ** Lemmas: the entries written for a list of regions *)

Definition region_entry (bits : Z) (p : pmp) (n fl : Z) (r : sbi_domain_memregion) : Prop :=
  cfg p n = pmp_cfg fl (order r) /\ paddr p n = pmp_addr (base r) (order r) mod 2 ^ bits.

Lemma pmp_cfg_mode fl o : o <> 2 -> Z.land (pmp_cfg fl o) PMP_A = PMP_A_NAPOT.
Proof.
  intros Ho. unfold pmp_cfg, PMP_SHIFT. zcases; [lia|].
  rewrite <- Z.land_assoc. change (Z.land 0xff PMP_A) with PMP_A.
  rewrite Z.land_lor_distr_l, <- Z.land_assoc. change (Z.land (not64 PMP_A) PMP_A) with 0.
  by rewrite Z.land_0_r.
Qed.

Lemma entry_off p n a : Z.land (cfg p n) PMP_A = 0 -> entry_match p n a = false.
Proof. unfold entry_match. by intros ->. Qed.

Lemma region_entry_match bits p n fl r a :
  1 <= bits <= 62 -> reg_ok r -> Z.shiftr (base r) 2 < 2 ^ bits - 1 -> 0 <= a < 2 ^ (bits + 2) ->
  region_entry bits p n fl r -> entry_match p n a = region_hit r a.
Proof.
  intros Hb Hr Hg Ha [Hc Hp]. unfold entry_match. rewrite Hc, Hp.
  rewrite pmp_cfg_mode by (destruct Hr; lia). cbn.
  rewrite region_match by done. by rewrite region_hit_covers.
Qed.

(** What a table of entries, one per region and nothing behind it, matches. *)
Lemma first_match_regions bits p a fl (L : list sbi_domain_memregion) k n j :
  1 <= bits <= 62 -> 0 <= a < 2 ^ (bits + 2) ->
  Forall (fun r => reg_ok r /\ Z.shiftr (base r) 2 < 2 ^ bits - 1) L ->
  (forall i r, L !! i = Some r -> region_entry bits p (n + Z.of_nat i) (fl r) r) ->
  (length L <= k)%nat ->
  (forall i, n + Z.of_nat (length L) <= i < n + Z.of_nat k -> Z.land (cfg p i) PMP_A = 0) ->
  first_match p a k n
  = (fun x => pmp_cfg (fl x.2) (order x.2)) <$> find_region_loop L j a.
Proof.
  intros Hb Ha. revert k n j. induction L as [|r L IH]; intros k n j HL He Hk Hoff.
  - cbn in *. revert n Hoff He. induction k as [|k IHk]; intros n Hoff He; cbn; [done|].
    rewrite entry_off by (apply Hoff; lia). apply IHk; [lia| |].
    + intros i Hi. apply Hoff. lia.
    + intros i r Hr. by rewrite lookup_nil in Hr.
  - destruct k as [|k]; cbn in Hk; [lia|]. cbn. apply Forall_cons in HL as [[Hr Hg] HL].
    pose proof (He 0%nat r eq_refl) as H0. rewrite Z.add_0_r in H0.
    rewrite (region_entry_match bits p n (fl r) r a) by done.
    destruct (region_hit r a); cbn; [by destruct H0 as [-> _]|].
    apply IH; [done| |lia|].
    + intros i s Hs. replace (n + 1 + Z.of_nat i) with (n + Z.of_nat (S i)) by lia. by apply He.
    + intros i Hi. apply Hoff. cbn [length]. lia.
Qed.

Lemma addr_unlocked p n :
  0 <= n < 64 -> (forall k, n <= k < 64 -> locked p k = false) -> addr_locked p n = false.
Proof.
  intros Hn Hl. unfold addr_locked, PMP_COUNT. rewrite Hl by lia. cbn.
  destruct (Z.ltb_spec (n + 1) 64); [|done]. by rewrite Hl by lia.
Qed.

(** *** Without Smepmp *)

(** The regions that get an entry. *)
Definition programmed (g m : Z) (n : nat) (regs : list sbi_domain_memregion)
    : list sbi_domain_memregion := take n (List.filter (pmp_in_range g m) regs).

Lemma oldpmp_loop_spec bits regs count g m idx p :
  pmp_ok p -> 0 <= idx -> count <= 64 -> 2 <= g -> Forall (fun r => order r <= 64) regs ->
  (forall k, idx <= k < 64 -> locked p k = false) ->
  let L := programmed g m (Z.to_nat (count - idx)) regs in
  let p' := oldpmp_loop bits regs count g m idx p in
  pmp_ok p' /\ mseccfg p' = mseccfg p /\
  (forall i r, L !! i = Some r -> region_entry bits p' (idx + Z.of_nat i) (oldpmp_flags (flags r)) r) /\
  (forall k, (k < idx \/ idx + Z.of_nat (length L) <= k) ->
     cfg p' k = cfg p k /\ paddr p' k = paddr p k).
Proof.
  intros Hp Hi Hc Hg Ho Hl. cbn zeta. revert idx p Hp Hi Hl.
  induction regs as [|r regs IH]; intros idx p Hp Hi Hl; cbn [oldpmp_loop].
  { unfold programmed. cbn [List.filter]. rewrite take_nil. split; [done|]. split; [done|].
    split; [intros i r Hr; by rewrite lookup_nil in Hr|done]. }
  apply Forall_cons in Ho as [Hor Ho]. specialize (IH Ho). unfold programmed in *. cbn [List.filter].
  destruct (Z.leb_spec count idx).
  { replace (Z.to_nat (count - idx)) with 0%nat by lia. rewrite take_0.
    split; [done|]. split; [done|]. split; [intros i s Hs; by rewrite lookup_nil in Hs|done]. }
  destruct (pmp_in_range g m r) eqn:E; [|by apply IH].
  unfold pmp_in_range in E. prop_bool.
  destruct (pmp_set_spec bits p idx (oldpmp_flags (flags r)) (base r) (order r))
    as (p1 & E1 & Hm & Hcf & Had & Hok); [done|lia|lia| |].
  { by apply addr_unlocked; [lia|]. }
  rewrite E1. cbn [snd]. rewrite (wrap_small 32) by lia.
  replace (Z.to_nat (count - idx)) with (S (Z.to_nat (count - (idx + 1)))) by lia.
  destruct (IH (idx + 1) p1) as (Hok' & Hm' & He & Hsame); [done|lia| |].
  { intros k Hk. rewrite (locked_ext p p1); [apply Hl; lia|done|].
    rewrite Hcf. unfold upd. by zcases; [lia|]. }
  split; [done|]. split; [congruence|]. split.
  - intros [|i] s Hs; cbn in Hs.
    + simplify_eq. change (Z.of_nat 0) with 0. rewrite Z.add_0_r.
      destruct (Hsame idx) as [Ec Ea]; [lia|]. unfold region_entry.
      rewrite Ec, Ea, Hcf, Had. unfold upd. by rewrite Z.eqb_refl.
    + replace (idx + Z.of_nat (S i)) with (idx + 1 + Z.of_nat i) by lia. by apply He.
  - cbn [length take]. intros k Hk. destruct (Hsame k) as [Ec Ea]; [lia|].
    rewrite Ec, Ea, Hcf, Had. unfold upd. by zcases; [lia|].
Qed.

(** ** Lemmas: permissions *)

Definition rwx_bits (r w x : bool) : Z := Z.b2z r + 2 * Z.b2z w + 4 * Z.b2z x.

Lemma flag_test f k : 0 <= k -> negb (Z.land f (2 ^ k) =? 0) = Z.testbit f k.
Proof.
  intros Hk. assert (Z.land f (2 ^ k) = Z.b2z (Z.testbit f k) * 2 ^ k) as ->.
  { apply Z.bits_inj'. intros i Hi. rewrite Z.land_spec, Z.pow2_bits_eqb by lia.
    destruct (Z.eqb_spec k i) as [-> |Hne].
    - destruct (Z.testbit f i); cbn [Z.b2z andb].
      + by rewrite Z.mul_1_l, Z.pow2_bits_true by lia.
      + by rewrite Z.mul_0_l, Z.bits_0.
    - rewrite andb_false_r. destruct (Z.testbit f k); cbn [Z.b2z].
      + rewrite Z.mul_1_l, Z.pow2_bits_false by lia. done.
      + by rewrite Z.mul_0_l, Z.bits_0. }
  pose proof (pow2_pos k Hk). destruct (Z.testbit f k); cbn [Z.b2z].
  - rewrite Z.mul_1_l. apply negb_true_iff, Z.eqb_neq. lia.
  - by rewrite Z.mul_0_l.
Qed.

Lemma field_bits f s : 0 <= s ->
  Z.land (Z.shiftr f s) 7 = rwx_bits (Z.testbit f s) (Z.testbit f (1 + s)) (Z.testbit f (2 + s)).
Proof.
  intros Hs. assert (0 <= rwx_bits (Z.testbit f s) (Z.testbit f (1 + s)) (Z.testbit f (2 + s)) < 2 ^ 3)
    as Hr by (unfold rwx_bits; destruct (Z.testbit f s), (Z.testbit f (1 + s)), (Z.testbit f (2 + s));
              cbn; lia).
  apply Z.bits_inj'. intros i Hi. change 7 with (Z.ones 3).
  rewrite Z.land_spec, Z.shiftr_spec, ones_bits by lia.
  assert (i = 0 \/ i = 1 \/ i = 2 \/ 3 <= i) as [-> |[-> |[-> |H3]]] by lia.
  4:{ rewrite (bits_above 3 (rwx_bits _ _ _)) by lia. zcases; [lia..|]. by rewrite andb_false_r. }
  all: rewrite Z.add_0_l || idtac; unfold rwx_bits;
    destruct (Z.testbit f s), (Z.testbit f (1 + s)), (Z.testbit f (2 + s)); reflexivity.
Qed.

Lemma region_rwx_bits r mode :
  region_rwx r mode =
    if mode =? PRV_M
    then rwx_bits (Z.testbit (flags r) 0) (Z.testbit (flags r) 1) (Z.testbit (flags r) 2)
    else rwx_bits (Z.testbit (flags r) 3) (Z.testbit (flags r) 4) (Z.testbit (flags r) 5).
Proof.
  unfold region_rwx, M_ACCESS_MASK, SU_ACCESS_MASK, SU_ACCESS_SHIFT.
  destruct (mode =? PRV_M).
  - by rewrite <- (field_bits _ 0), Z.shiftr_0_r.
  - rewrite <- (field_bits _ 3) by lia. by rewrite Z.shiftr_land.
Qed.

(** The permission bits of an entry are those of its [prot] argument. *)
Lemma pmp_cfg_perm fl o : Z.land (pmp_cfg fl o) 0x87 = Z.land fl 0x87.
Proof.
  unfold pmp_cfg. rewrite <- Z.land_assoc. change (Z.land 0xff 0x87) with 0x87.
  rewrite Z.land_lor_distr_l, <- Z.land_assoc. change (Z.land (not64 PMP_A) 0x87) with 0x87.
  by destruct (o =? PMP_SHIFT); cbn; rewrite Z.lor_0_r.
Qed.

Lemma oldpmp_flags_spec f :
  oldpmp_flags f = rwx_bits (Z.testbit f 3) (Z.testbit f 4) (Z.testbit f 5)
                   + 128 * Z.b2z (Z.testbit f 6).
Proof.
  unfold oldpmp_flags, add_flag, SU_EXECUTABLE, SU_WRITABLE, SU_READABLE, ENF_PERMISSIONS.
  change 32 with (2 ^ 5). change 16 with (2 ^ 4). change 8 with (2 ^ 3). change 0x40 with (2 ^ 6).
  rewrite !flag_test by lia.
  by destruct (Z.testbit f 3), (Z.testbit f 4), (Z.testbit f 5), (Z.testbit f 6).
Qed.

Lemma land_7_of_87 c : Z.land c 7 = Z.land (Z.land c 0x87) 7.
Proof. by rewrite <- Z.land_assoc. Qed.

Lemma oldpmp_perm r o mode : mode <> PRV_M ->
  perm (pmp_cfg (oldpmp_flags (flags r)) o) mode = region_rwx r mode.
Proof.
  intros Hm. unfold perm. rewrite region_rwx_bits, (proj2 (Z.eqb_neq _ _) Hm). cbn [andb].
  rewrite land_7_of_87, pmp_cfg_perm, <- land_7_of_87, oldpmp_flags_spec.
  by destruct (Z.testbit (flags r) 3), (Z.testbit (flags r) 4), (Z.testbit (flags r) 5),
    (Z.testbit (flags r) 6).
Qed.

Lemma access_rwx_small acc : 0 <= acc < 8 ->
  access_rwx acc = acc /\ Z.land acc SBI_DOMAIN_MMIO = 0 /\
  access_rwx (acc + SBI_DOMAIN_MMIO) = acc /\ Z.land (acc + SBI_DOMAIN_MMIO) SBI_DOMAIN_MMIO <> 0.
Proof.
  intros. assert (acc = 0 \/ acc = 1 \/ acc = 2 \/ acc = 3 \/ acc = 4 \/ acc = 5 \/ acc = 6 \/ acc = 7)
    as [-> |[-> |[-> |[-> |[-> |[-> |[-> | ->]]]]]]] by lia; by vm_compute.
Qed.

Lemma pmp_addr_max_spec f :
  1 <= pmp_addr_bits f <= 62 -> pmp_addr_max f = 2 ^ pmp_addr_bits f - 1.
Proof.
  intros H. unfold pmp_addr_max. rewrite (wrap_small 32) by lia. rewrite shiftl_one by lia.
  pose proof (pow2_pos (pmp_addr_bits f - 1)). pose proof (pow2_lt (pmp_addr_bits f - 1) 64).
  rewrite (wrap_small 64) by lia.
  replace (2 ^ (pmp_addr_bits f - 1)) with (1 * 2 ^ (pmp_addr_bits f - 1)) at 1 by lia.
  rewrite lor_low by lia.
  replace (pmp_addr_bits f) with (pmp_addr_bits f - 1 + 1) at 3 by lia.
  rewrite (pow2_split 1) by lia. lia.
Qed.

(** ** The set-up enforces the domain *)

(** What the feature record says about the PMP of a hart with [bits] address
    bits. *)
Definition pmp_features (bits : Z) (f : sbi_hart_features) : Prop :=
  1 <= bits <= 62 /\ pmp_addr_bits f = bits /\ 0 < pmp_count f <= 64 /\ 2 <= pmp_log2gran f.

(** Reset: no entry matches and none is locked, [mseccfg.MML] and [MMWP] are
    clear. *)
Definition pmp_reset (p : pmp) : Prop :=
  pmp_ok p /\ Z.testbit (mseccfg p) 0 = false /\ Z.testbit (mseccfg p) 1 = false /\
  forall k, 0 <= k < 64 -> Z.land (cfg p k) PMP_A = 0 /\ Z.testbit (cfg p k) 7 = false.

(** Every region of the domain gets an entry; [first] is the first one used. *)
Definition pmp_fits (f : sbi_hart_features) (first : Z) (d : sbi_domain) : Prop :=
  Forall (fun r => reg_ok r /\ pmp_in_range (pmp_log2gran f) (pmp_addr_max f) r = true)
    (dom_regions d) /\
  first + Z.of_nat (length (dom_regions d)) <= pmp_count f.

(** The domain allows the access, to memory or to a device. *)
Definition domain_allows (d : sbi_domain) (mode a acc : Z) : bool :=
  sbi_domain_check_addr (Some d) a mode acc ||
  sbi_domain_check_addr (Some d) a mode (acc + SBI_DOMAIN_MMIO).

Lemma domain_allows_first d mode a acc : 0 <= acc < 8 ->
  domain_allows d mode a acc =
    match find_region_loop (dom_regions d) 0 a with
    | Some (_, r) => Z.land (region_rwx r mode) acc =? acc
    | None => mode =? PRV_M
    end.
Proof.
  intros Hacc. destruct (access_rwx_small acc Hacc) as (E1 & E2 & E3 & E4).
  unfold domain_allows, sbi_domain_check_addr. rewrite !check_addr_first.
  destruct (find_region_loop _ 0 a) as [[j r]|]; [|apply orb_diag].
  unfold region_allows. rewrite E1, E2, E3, (proj2 (Z.eqb_neq _ _) E4). cbn [Z.eqb negb].
  by destruct (negb (Z.land (flags r) MEMREGION_MMIO =? 0)); cbn; rewrite ?orb_false_r.
Qed.

Lemma programmed_fit g m n regs b :
  Forall reg_ok regs -> m = 2 ^ b - 1 ->
  Forall (fun r => reg_ok r /\ Z.shiftr (base r) 2 < 2 ^ b - 1) (programmed g m n regs).
Proof.
  intros H ->. apply Forall_take. rewrite List.Forall_forall in *. intros r Hr.
  apply filter_In in Hr as [Hin Hr]. unfold pmp_in_range in Hr. prop_bool. auto.
Qed.

(** The decision of the hardware after the set-up without Smepmp, whatever part
    of the regions fits. *)
Lemma oldpmp_decides bits f d p mode a acc :
  pmp_features bits f -> pmp_reset p -> Forall reg_ok (dom_regions d) -> mode <> PRV_M ->
  0 <= a < 2 ^ (bits + 2) ->
  let p' := (sbi_hart_oldpmp_configure bits d (pmp_count f) (pmp_log2gran f) (pmp_addr_max f) p).2 in
  allows p' mode a acc =
    match find_region_loop (programmed (pmp_log2gran f) (pmp_addr_max f) (Z.to_nat (pmp_count f))
                              (dom_regions d)) 0 a with
    | Some (_, r) => Z.land (region_rwx r mode) acc =? acc
    | None => false
    end.
Proof.
  intros (Hb & Hbits & Hc & Hg) (Hok & Hmml & _ & Hoff) Hregs Hm Ha. cbn zeta.
  unfold sbi_hart_oldpmp_configure. cbn [snd].
  destruct (oldpmp_loop_spec bits (dom_regions d) (pmp_count f) (pmp_log2gran f) (pmp_addr_max f) 0 p)
    as (_ & Hsec & He & Hsame); [done|lia|lia|done| | |].
  { eapply Forall_impl; [exact Hregs|]. intros r Hr. destruct Hr. lia. }
  { intros k Hk. unfold locked. destruct (Hoff k Hk) as [_ ->]. apply andb_false_r. }
  rewrite Z.sub_0_r in *. set (L := programmed _ _ _ _) in *. set (p' := oldpmp_loop _ _ _ _ _ _ _) in *.
  assert ((length L <= 64)%nat) as Hlen by (unfold L, programmed; rewrite length_take; lia).
  unfold allows. rewrite Hsec, Hmml.
  rewrite (first_match_regions bits p' a (fun r => oldpmp_flags (flags r)) L (Z.to_nat PMP_COUNT) 0 0);
    [|done|done| |exact He|exact Hlen|].
  2:{ subst bits. apply programmed_fit; [done|]. by apply pmp_addr_max_spec. }
  2:{ intros i Hi. change (Z.of_nat (Z.to_nat PMP_COUNT)) with 64 in Hi.
      destruct (Hsame i) as [-> _]; [lia|]. apply Hoff. lia. }
  destruct (find_region_loop L 0 a) as [[j r]|]; cbn.
  - by rewrite oldpmp_perm.
  - by rewrite (proj2 (Z.eqb_neq _ _) Hm).
Qed.

(** *** With Smepmp *)

Lemma perm_mml_mask c mode : perm_mml c mode = perm_mml (Z.land c 0x87) mode.
Proof.
  unfold perm_mml. rewrite !Z.land_spec, <- Z.land_assoc. change (Z.land 0x87 7) with 7.
  change (Z.testbit 0x87 7) with true. change (Z.testbit 0x87 0) with true.
  change (Z.testbit 0x87 1) with true. change (Z.testbit 0x87 2) with true.
  by rewrite !andb_true_r.
Qed.

Lemma land_63 f m : Z.land 63 m = m -> Z.land (Z.land f 63) m = Z.land f m.
Proof. intros H. by rewrite <- Z.land_assoc, H. Qed.

Lemma smepmp_flags_mask f : sbi_hart_get_smepmp_flags f = sbi_hart_get_smepmp_flags (Z.land f 63).
Proof.
  unfold sbi_hart_get_smepmp_flags, IS_SHARED, IS_SUR_MR, IS_SUX_MRX, IS_SUX_MX, IS_SURW_MRW,
    IS_SUR_MRW, M_ONLY_ACCESS, SU_ONLY_ACCESS, add_flag.
  by rewrite !land_63.
Qed.

(** The function has an encoding, and no mode may write what it cannot read. *)
Definition smepmp_encodable (f : Z) : Prop :=
  sbi_hart_get_smepmp_flags f <> 0 /\ Z.land f 0x03 <> M_WRITABLE /\ Z.land f 0x18 <> SU_WRITABLE.

(** Such a set of permissions is encoded exactly, for all modes. *)
Lemma smepmp_perm r o mode :
  smepmp_encodable (flags r) ->
  perm_mml (pmp_cfg (sbi_hart_get_smepmp_flags (flags r)) o) mode = region_rwx r mode.
Proof.
  unfold smepmp_encodable. rewrite <- (land_63 _ 0x03), <- (land_63 _ 0x18) by done.
  rewrite perm_mml_mask, pmp_cfg_perm, smepmp_flags_mask.
  assert (region_rwx r mode = if mode =? PRV_M then Z.land (Z.land (flags r) 63) 7
                              else Z.shiftr (Z.land (Z.land (flags r) 63) 56) 3) as ->.
  { unfold region_rwx, M_ACCESS_MASK, SU_ACCESS_MASK, SU_ACCESS_SHIFT. by rewrite !land_63. }
  assert (0 <= Z.land (flags r) 63 < 64) as Hg.
  { change 63 with (Z.ones 6). rewrite Z.land_ones by lia. by apply Z.mod_pos_bound. }
  generalize dependent (Z.land (flags r) 63). intros g Hg.
  assert (forallb (fun g => forallb (fun m => let fl := sbi_hart_get_smepmp_flags g in
     ((fl =? 0) || (Z.land g 0x03 =? 2) || (Z.land g 0x18 =? 16)) || (perm_mml (Z.land fl 0x87) m =?
       if m =? PRV_M then Z.land g 7 else Z.shiftr (Z.land g 56) 3)) [PRV_M; PRV_S])
     (seqZ 0 64) = true) as H by (vm_compute; reflexivity).
  rewrite forallb_forall in H. specialize (H g ltac:(apply list_elem_of_In, elem_of_seqZ; lia)).
  rewrite forallb_forall in H. intros (Hne & HM & HS).
  assert (perm_mml (Z.land (sbi_hart_get_smepmp_flags g) 0x87) mode
    = perm_mml (Z.land (sbi_hart_get_smepmp_flags g) 0x87) (if mode =? PRV_M then PRV_M else PRV_S))
    as -> by (unfold perm_mml; by destruct (mode =? PRV_M)).
  specialize (H (if mode =? PRV_M then PRV_M else PRV_S)).
  rewrite !orb_true_iff, !Z.eqb_eq in H. destruct H as [[[H|H]|H]|H]; try done.
  - destruct (mode =? PRV_M); [by left|by right; left].
  - rewrite H. by destruct (mode =? PRV_M).
Qed.

Definition rlb (p : pmp) : Prop := Z.testbit (mseccfg p) 2 = true.

Lemma rlb_unlocked p k : rlb p -> locked p k = false.
Proof. unfold locked, rlb. by intros ->. Qed.

Lemma smepmp_loop_zero bits b regs count g m p :
  smepmp_loop bits b regs count g m 0 p = smepmp_loop bits b regs count g m 1 p.
Proof. by destruct regs. Qed.

Lemma smepmp_loop_spec bits b regs count g m idx p :
  pmp_ok p -> rlb p -> 1 <= idx -> idx + Z.of_nat (length regs) <= count <= 64 ->
  Forall (fun r => (reg_ok r /\ pmp_in_range g m r = true) /\ smepmp_encodable (flags r)) regs ->
  exists p', smepmp_loop bits b regs count g m idx p = (true, p') /\
    pmp_ok p' /\ mseccfg p' = mseccfg p /\
    (forall i r, regs !! i = Some r -> M_ONLY_ACCESS (flags r) = b ->
       region_entry bits p' (idx + Z.of_nat i) (sbi_hart_get_smepmp_flags (flags r)) r) /\
    (forall k, (forall r, regs !! Z.to_nat (k - idx) = Some r -> idx <= k ->
                          M_ONLY_ACCESS (flags r) <> b) ->
       cfg p' k = cfg p k /\ paddr p' k = paddr p k).
Proof.
  intros Hp Hrlb Hi Hc Hregs. revert idx p Hp Hrlb Hi Hc.
  induction Hregs as [|r regs ((Hr & Hin) & Hfl & _) Hregs IH]; intros idx p Hp Hrlb Hi Hc;
    cbn [smepmp_loop length] in *.
  { eexists. split; [reflexivity|]. split; [done|]. split; [done|]. split; [|done].
    intros i r Hr. by rewrite lookup_nil in Hr. }
  unfold SBI_SMEPMP_RESV_ENTRY. rewrite (proj2 (Z.eqb_neq idx 0)) by lia.
  rewrite (proj2 (Z.leb_gt count idx)), (wrap_small 32) by lia.
  set (p1 := sbi_hart_smepmp_set bits p r idx (sbi_hart_get_smepmp_flags (flags r)) g m).
  assert (with_entry p p1 idx (pmp_cfg (sbi_hart_get_smepmp_flags (flags r)) (order r))
            (pmp_addr (base r) (order r) mod 2 ^ bits)) as (Hm & Hcf & Had & Hok).
  { unfold p1, sbi_hart_smepmp_set. rewrite Hin.
    destruct (pmp_set_spec bits p idx (sbi_hart_get_smepmp_flags (flags r)) (base r) (order r))
      as (q & -> & Hq); [done|lia|destruct Hr; lia|..|exact Hq].
    apply addr_unlocked; [lia|]. intros. by apply rlb_unlocked. }
  clearbody p1. destruct (Bool.eqb (M_ONLY_ACCESS (flags r)) b) eqn:Eb; cbn [negb].
  - apply eqb_prop in Eb. rewrite (proj2 (Z.eqb_neq _ 0) Hfl).
    destruct (IH (idx + 1) p1) as (p' & -> & Hok' & Hm' & He & Hsame); [done| |lia|lia|].
    { unfold rlb in *. by rewrite Hm. }
    exists p'. split; [done|]. split; [done|]. split; [congruence|]. split.
    + intros [|i] s Hs Hsb; cbn in Hs.
      * simplify_eq. change (Z.of_nat 0) with 0. rewrite Z.add_0_r.
        destruct (Hsame idx) as [Ec Ea]; [lia|]. unfold region_entry.
        rewrite Ec, Ea, Hcf, Had. unfold upd. by rewrite Z.eqb_refl.
      * replace (idx + Z.of_nat (S i)) with (idx + 1 + Z.of_nat i) by lia. by apply He.
    + intros k Hk. assert (k <> idx).
      { intros ->. rewrite Z.sub_diag in Hk. by destruct (Hk r eq_refl); [lia|]. }
      destruct (Hsame k) as [-> ->].
      { intros s Hs Hle. apply Hk; [|lia].
        by replace (Z.to_nat (k - idx)) with (S (Z.to_nat (k - (idx + 1)))) by lia. }
      rewrite Hcf, Had. unfold upd. by rewrite (proj2 (Z.eqb_neq k idx)).
  - apply eqb_false_iff in Eb.
    destruct (IH (idx + 1) p) as (p' & -> & Hok' & Hm' & He & Hsame); [done|done|lia|lia|].
    exists p'. split; [done|]. split; [done|]. split; [done|]. split.
    + intros [|i] s Hs Hsb; cbn in Hs; [by simplify_eq|].
      replace (idx + Z.of_nat (S i)) with (idx + 1 + Z.of_nat i) by lia. by apply He.
    + intros k Hk. apply Hsame. intros s Hs Hle. apply Hk; [|lia].
      by replace (Z.to_nat (k - idx)) with (S (Z.to_nat (k - (idx + 1)))) by lia.
Qed.

Lemma set_rlb_spec p : pmp_reset p ->
  set_mseccfg p MSECCFG_RLB = mkPmp (cfg p) (paddr p) (Z.lor (mseccfg p) MSECCFG_RLB).
Proof.
  intros (_ & _ & _ & Hoff). unfold set_mseccfg. rewrite Z.eqb_refl. cbn [andb].
  destruct (existsb _ _) eqn:E; [|done]. apply existsb_exists in E as (k & Hk & Hl).
  apply list_elem_of_In, elem_of_seqZ in Hk. unfold PMP_COUNT in Hk.
  unfold locked in Hl. destruct (Hoff k) as [_ H]; [lia|]. by rewrite H, andb_false_r in Hl.
Qed.

(** The state after the Smepmp set-up: entry 0 off, then one entry per region. *)
Lemma smepmp_configure_spec bits f d p :
  pmp_features bits f -> pmp_reset p -> pmp_fits f 1 d ->
  Forall (fun r => smepmp_encodable (flags r)) (dom_regions d) ->
  exists p', sbi_hart_smepmp_configure bits d (pmp_count f) (pmp_log2gran f) (pmp_addr_max f) p
             = (0, p') /\
    pmp_ok p' /\ rlb p' /\ Z.testbit (mseccfg p') 0 = true /\ Z.testbit (mseccfg p') 1 = false /\
    cfg p' 0 = 0 /\
    (forall i r, dom_regions d !! i = Some r ->
       region_entry bits p' (1 + Z.of_nat i) (sbi_hart_get_smepmp_flags (flags r)) r) /\
    (forall k, 1 + Z.of_nat (length (dom_regions d)) <= k < 64 -> Z.land (cfg p' k) PMP_A = 0).
Proof.
  intros (Hb & Hbits & Hc & Hg) Hreset [Hfit Hcount] Henc.
  pose proof Hreset as (Hok & _ & Hmmwp & Hoff). unfold sbi_hart_smepmp_configure.
  rewrite set_rlb_spec by done. set (p0 := mkPmp _ _ _).
  assert (rlb p0) as Hrlb0 by (unfold rlb, p0; cbn [mseccfg]; by rewrite Z.lor_spec, orb_true_r).
  destruct (pmp_disable_spec bits p0 SBI_SMEPMP_RESV_ENTRY) as (p1 & -> & Hs1 & Hc1 & _ & Hok1);
    [done|done|by apply rlb_unlocked|]. cbn [snd].
  pose proof (proj2 (Forall_and _ _) (conj Hfit Henc)) as Hregs.
  rewrite smepmp_loop_zero.
  destruct (smepmp_loop_spec bits true (dom_regions d) (pmp_count f) (pmp_log2gran f)
    (pmp_addr_max f) 1 p1) as (p2 & -> & Hok2 & Hs2 & He2 & Hk2); [done| |lia|lia|done|].
  { unfold rlb. by rewrite Hs1. }
  change (set_mseccfg p2 MSECCFG_MML) with (mkPmp (cfg p2) (paddr p2) (Z.lor (mseccfg p2) MSECCFG_MML)).
  set (p3 := mkPmp (cfg p2) _ _).
  rewrite smepmp_loop_zero.
  destruct (smepmp_loop_spec bits false (dom_regions d) (pmp_count f) (pmp_log2gran f)
    (pmp_addr_max f) 1 p3) as (p4 & -> & Hok4 & Hs4 & He4 & Hk4); [done| |lia|lia|done|].
  { unfold rlb, p3. cbn [mseccfg]. by rewrite Z.lor_spec, Hs2, Hs1, Hrlb0. }
  exists p4. split; [done|]. split; [done|].
  unfold rlb. rewrite Hs4. unfold p3 at 1 2 3. cbn [mseccfg]. rewrite !Z.lor_spec, Hs2, Hs1.
  split; [by rewrite Hrlb0|]. split; [by rewrite orb_true_r|].
  split; [unfold p0; cbn [mseccfg]; by rewrite Z.lor_spec, Hmmwp|]. split.
  { destruct (Hk4 0) as [-> _]; [lia|]. cbn. destruct (Hk2 0) as [-> _]; [lia|]. by rewrite Hc1. }
  split.
  - intros i r Hr. destruct (M_ONLY_ACCESS (flags r)) eqn:E; [|by apply He4].
    assert (Z.to_nat (1 + Z.of_nat i - 1) = i) as Ei by lia.
    unfold region_entry. destruct (Hk4 (1 + Z.of_nat i)) as [-> ->].
    { rewrite Ei, Hr. intros s ?. simplify_eq. by rewrite E. }
    by apply He2.
  - intros k Hk. assert (forall r, dom_regions d !! Z.to_nat (k - 1) = Some r -> False) as Hnone.
    { intros r Hr. apply lookup_lt_Some in Hr. lia. }
    destruct (Hk4 k) as [-> _]; [intros r Hr; by destruct (Hnone r)|]. cbn.
    destruct (Hk2 k) as [-> _]; [intros r Hr; by destruct (Hnone r)|].
    rewrite Hc1. unfold upd, SBI_SMEPMP_RESV_ENTRY. rewrite (proj2 (Z.eqb_neq k 0)) by lia.
    apply Hoff. lia.
Qed.

Lemma pmp_fits_range bits f n d :
  pmp_features bits f -> pmp_fits f n d ->
  Forall (fun r => reg_ok r /\ Z.shiftr (base r) 2 < 2 ^ bits - 1) (dom_regions d).
Proof.
  intros (Hb & Hbits & _) [Hfit _]. eapply Forall_impl; [exact Hfit|]. cbn. intros r [Hr Hin].
  split; [done|]. unfold pmp_in_range in Hin. prop_bool.
  rewrite pmp_addr_max_spec in * by lia. by subst bits.
Qed.

Lemma programmed_all f n d :
  0 <= n -> pmp_fits f n d ->
  programmed (pmp_log2gran f) (pmp_addr_max f) (Z.to_nat (pmp_count f)) (dom_regions d)
  = dom_regions d.
Proof.
  intros Hn [Hfit Hc]. unfold programmed. rewrite take_ge.
  - clear Hc. induction Hfit as [|r l [_ Hin] _ IH]; cbn; [done|]. by rewrite Hin, IH.
  - etransitivity; [apply filter_length_le|]. lia.
Qed.

Lemma first_match_S p a k n :
  first_match p a (S k) n = if entry_match p n a then Some (cfg p n) else first_match p a k (n + 1).
Proof. done. Qed.

Lemma smepmp_decides bits f d p' mode a acc :
  pmp_features bits f -> pmp_fits f 1 d -> 0 <= a < 2 ^ (bits + 2) ->
  Forall (fun r => smepmp_encodable (flags r)) (dom_regions d) ->
  Z.testbit (mseccfg p') 0 = true -> Z.testbit (mseccfg p') 1 = false -> cfg p' 0 = 0 ->
  (forall i r, dom_regions d !! i = Some r ->
     region_entry bits p' (1 + Z.of_nat i) (sbi_hart_get_smepmp_flags (flags r)) r) ->
  (forall k, 1 + Z.of_nat (length (dom_regions d)) <= k < 64 -> Z.land (cfg p' k) PMP_A = 0) ->
  allows p' mode a acc =
    match find_region_loop (dom_regions d) 0 a with
    | Some (_, r) => Z.land (region_rwx r mode) acc =? acc
    | None => (mode =? PRV_M) && (Z.land acc 4 =? 0)
    end.
Proof.
  intros Hf Hfit Ha Henc Hmml Hmmwp H0 He Hoff. unfold allows. rewrite Hmml, Hmmwp.
  change (Z.to_nat PMP_COUNT) with (S 63). rewrite first_match_S.
  rewrite entry_off by (by rewrite H0). change (0 + 1) with 1.
  destruct Hf as (Hb & Hf). pose proof (conj Hb Hf) as Hf'.
  rewrite (first_match_regions bits p' a (fun r => sbi_hart_get_smepmp_flags (flags r))
             (dom_regions d) 63 1 0); [|done|done|by eapply pmp_fits_range|exact He| |].
  - destruct (find_region_loop (dom_regions d) 0 a) as [[j r]|] eqn:E; cbn.
    + rewrite smepmp_perm; [done|].
      pose proof (find_region_loop_spec (dom_regions d) 0 a) as Hs. rewrite E in Hs.
      destruct Hs as (_ & Hl & _).
      { destruct Hfit as [Hfit _]. eapply Forall_impl; [exact Hfit|]. by intros ? []. }
      by eapply Forall_lookup_1 in Henc; [|exact Hl].
    + by destruct (mode =? PRV_M).
  - destruct Hfit as [_ Hc]. destruct Hf as (_ & Hcount & _). lia.
  - intros i Hi. apply Hoff. lia.
Qed.

Lemma pmp_configure_spec bits f d p :
  pmp_features bits f -> pmp_reset p ->
  pmp_fits f (if sbi_hart_has_extension f SBI_HART_EXT_SMEPMP then 1 else 0) d ->
  (sbi_hart_has_extension f SBI_HART_EXT_SMEPMP = true ->
   Forall (fun r => smepmp_encodable (flags r)) (dom_regions d)) ->
  exists p', sbi_hart_pmp_configure bits f d p = (0, p') /\
    forall mode a acc, 0 <= a < 2 ^ (bits + 2) -> 0 <= acc < 8 ->
      (mode <> PRV_M -> allows p' mode a acc = domain_allows d mode a acc) /\
      (sbi_hart_has_extension f SBI_HART_EXT_SMEPMP = true ->
       (exists r, r ∈ dom_regions d /\ covers r a) ->
       allows p' PRV_M a acc = domain_allows d PRV_M a acc).
Proof.
  intros Hf Hreset Hfit Henc. pose proof Hf as (_ & _ & Hcount & _).
  unfold sbi_hart_pmp_configure. rewrite (proj2 (Z.eqb_neq (pmp_count f) 0)) by lia.
  assert (Forall reg_ok (dom_regions d)) as Hregs.
  { destruct Hfit as [Hfit _]. eapply Forall_impl; [exact Hfit|]. by intros ? []. }
  destruct (sbi_hart_has_extension f SBI_HART_EXT_SMEPMP).
  - destruct (smepmp_configure_spec bits f d p Hf Hreset Hfit (Henc eq_refl))
      as (p' & -> & _ & _ & H1 & H2 & H3 & H4 & H5).
    exists p'. split; [done|]. intros mode a acc Ha Hacc.
    pose proof (smepmp_decides bits f d p') as Hd.
    split; [intros Hm|intros _ (r & Hr & Hc)];
      rewrite (Hd _ a acc) by auto; rewrite domain_allows_first by done.
    + by rewrite (proj2 (Z.eqb_neq _ _) Hm).
    + pose proof (find_region_loop_spec (dom_regions d) 0 a Hregs) as Hs.
      destruct (find_region_loop (dom_regions d) 0 a) as [[j s]|]; [done|].
      rewrite List.Forall_forall in Hs. destruct (Hs r); [|done]. by apply list_elem_of_In.
  - eexists. split; [reflexivity|]. intros mode a acc Ha Hacc. split; [|done]. intros Hm.
    rewrite domain_allows_first by done.
    pose proof (oldpmp_decides bits f d p mode a acc Hf Hreset Hregs Hm Ha) as H.
    rewrite (programmed_all f 0) in H by done. unfold sbi_hart_oldpmp_configure in H.
    cbn [snd] in H. rewrite H. by rewrite (proj2 (Z.eqb_neq _ _) Hm).
Qed.

(** C2: the hardware enforces the domain.  Take a hart out of reset whose PMP has an
    entry for every region of the domain, each region well formed and within the
    granularity and the address range of the PMP, and, with Smepmp, regions whose
    permissions Smepmp can encode (for some the code has no encoding, and a permission
    to write without reading is encoded wrongly, [smepmp_write_only_misencoded]).  After
    [sbi_hart_pmp_configure] an access in supervisor or user mode to any physical
    address passes the PMP exactly when [sbi_domain_check_addr] allows it for the
    domain, and with Smepmp the same holds for machine mode at every address a region
    covers. *)
Theorem pmp_enforces_domain bits f d p :
  pmp_features bits f -> pmp_reset p ->
  pmp_fits f (if sbi_hart_has_extension f SBI_HART_EXT_SMEPMP then 1 else 0) d ->
  (sbi_hart_has_extension f SBI_HART_EXT_SMEPMP = true ->
   Forall (fun r => smepmp_encodable (flags r)) (dom_regions d)) ->
  exists p', sbi_hart_pmp_configure bits f d p = (0, p') /\
    forall mode a acc, 0 <= a < 2 ^ (bits + 2) -> 0 <= acc < 8 ->
      (mode <> PRV_M -> allows p' mode a acc = domain_allows d mode a acc) /\
      (sbi_hart_has_extension f SBI_HART_EXT_SMEPMP = true ->
       (exists r, r ∈ dom_regions d /\ covers r a) ->
       allows p' PRV_M a acc = domain_allows d PRV_M a acc).
Proof. apply pmp_configure_spec. Qed.

Definition demo_features (smepmp : bool) : sbi_hart_features :=
  mkFeat true SBI_HART_PRIV_VER_1_12 [if smepmp then 2 else 0] 16 54 12 0 0.

Definition demo_pmp : pmp := mkPmp (fun _ => 0) (fun _ => 0) 0.

Lemma demo_pmp_reset : pmp_reset demo_pmp.
Proof. split; [intros k; cbn; lia|]. by split. Qed.

(** A firmware region below a catch-all. *)
Definition demo_pmp_domain : sbi_domain :=
  mkDom 0 (mkMask [0; 0]) (Some (mkMask [1; 0]))
    (Some [mkReg 17 0x80000000 (Z.lor M_READABLE M_EXECUTABLE); mkReg 64 0 0x38; mkReg 0 0 0])
    0 0 0x80200000 1 true true true.

Lemma demo_pmp_fits b n : n = 0 \/ n = 1 -> pmp_fits (demo_features b) n demo_pmp_domain.
Proof.
  intros Hn. split; [|destruct b, Hn as [-> | ->]; vm_compute; congruence].
  repeat constructor; try (vm_compute; congruence); try lia.
  - by exists 0x4000.
  - by exists 0.
Qed.

Lemma pmp_enforces_domain_witness :
  exists p', sbi_hart_pmp_configure 54 (demo_features true) demo_pmp_domain demo_pmp = (0, p') /\
    allows p' PRV_S 0x80001000 1 = false /\ allows p' PRV_S 0x80200000 7 = true /\
    allows p' PRV_M 0x80001000 2 = false.
Proof.
  destruct (pmp_enforces_domain 54 (demo_features true) demo_pmp_domain demo_pmp)
    as (p' & E & H).
  - vm_compute. repeat split; congruence.
  - exact demo_pmp_reset.
  - apply demo_pmp_fits. by right.
  - intros _. repeat constructor; vm_compute; congruence.
  - exists p'. split; [exact E|]. split; [|split].
    + rewrite (proj1 (H PRV_S 0x80001000 1 ltac:(lia) ltac:(lia))); [by vm_compute|done].
    + rewrite (proj1 (H PRV_S 0x80200000 7 ltac:(lia) ltac:(lia))); [by vm_compute|done].
    + rewrite (proj2 (H PRV_M 0x80001000 2 ltac:(lia) ltac:(lia))); [by vm_compute|done|].
      exists (mkReg 64 0 0x38). split; [vm_compute; set_solver|]. unfold covers. cbn. lia.
Defined.
