(* ===== verification/SbiPmpRoot.v ===== *)
(** * From the boot of the domains to the protection of the firmware

    The set-up of the root domain (lib/sbi/sbi_domain.c) composed with the PMP
    set-up (lib/sbi/sbi_hart.c); and the window that the firmware opens in a
    Smepmp machine to reach supervisor memory. *)

From S2P Require Import Prelude SbiString SbiHeap SbiBitops SbiScratch SbiHartmask SbiMemregion SbiDomain SbiHart SbiPmp.
Import Hw.

(** The image is at least as coarse as the PMP and lies in the physical address
    space. *)
Definition image_fits (bits : Z) (f : sbi_hart_features) (sb : boot_scratch) : Prop :=
  pmp_log2gran f <= 63 /\ 2 ^ pmp_log2gran f <= fw_rw_offset sb /\
  2 ^ pmp_log2gran f <= fw_size sb - fw_rw_offset sb /\
  fw_start sb + fw_size sb < 2 ^ (bits + 2) - 4.

(** A region that covers two addresses far enough apart fits. *)
Lemma covers_fits bits f r x y :
  pmp_features bits f -> pmp_log2gran f <= 63 -> reg_ok r -> covers r x -> covers r y ->
  y - x >= 2 ^ pmp_log2gran f - 1 -> x < 2 ^ (bits + 2) - 4 ->
  reg_ok r /\ pmp_in_range (pmp_log2gran f) (pmp_addr_max f) r = true.
Proof.
  intros (Hb & Hbits & _ & Hg) Hg63 Hr Hx Hy Hd Hlim. split; [done|].
  unfold pmp_in_range. rewrite pmp_addr_max_spec, Hbits by lia.
  destruct Hr as (Ho & H0 & _). unfold covers in *.
  apply andb_true_iff. split; [apply Z.leb_le|apply Z.ltb_lt].
  - destruct (Z_le_gt_dec (pmp_log2gran f) (order r)) as [|Hlt]; [done|].
    assert (2 ^ order r <= 2 ^ (pmp_log2gran f - 1)) by (apply Z.pow_le_mono_r; lia).
    pose proof (pow2_split 1 (pmp_log2gran f - 1) ltac:(lia) ltac:(lia)) as E.
    replace (pmp_log2gran f - 1 + 1) with (pmp_log2gran f) in E by lia.
    pose proof (pow2_lt 0 (pmp_log2gran f - 1)). lia.
  - unfold PMP_SHIFT. rewrite Z.shiftr_div_pow2 by lia. change (2 ^ 2) with 4.
    pose proof (pow2_split 2 bits ltac:(lia) ltac:(lia)) as E. change (2 ^ 2) with 4 in E.
    apply Z.div_lt_upper_bound; lia.
Qed.

Lemma root_pmp_fits bits f sb d rt rd n :
  pmp_features bits f -> image_fits bits f sb -> image_ok sb -> root_shape sb d rt rd ->
  n = 0 \/ n = 1 -> 4 <= pmp_count f -> pmp_fits f n d.
Proof.
  intros Hf (Hg63 & Ht & Hd & Hlim) (H1 & H2 & H3 & H4) (Hp & (Hok & _) & _ & _ & _ & _ & Hc1 & _ & Hc3)
    Hn Hc.
  rewrite Hp in Hok. apply Forall_cons in Hok as [Hrt Hok]. apply Forall_cons in Hok as [Hrd Hok].
  split; [|rewrite Hp; cbn [length]; lia]. rewrite Hp.
  pose proof (Z.pow_pos_nonneg 2 (pmp_log2gran f)). pose proof Hf as (_ & _ & _ & Hg).
  repeat apply Forall_cons_2; try apply Forall_nil_2.
  - apply (covers_fits bits f rt (fw_start sb) (fw_start sb + fw_rw_offset sb - 1));
      [done|done|done|apply Hc1; lia|apply Hc1; lia|lia|lia].
  - apply (covers_fits bits f rd (fw_start sb + fw_rw_offset sb) (fw_start sb + fw_size sb - 1));
      [done|done|done|apply Hc3; lia|apply Hc3; lia|lia|lia].
  - pose proof Hf as (Hb & _). pose proof (pow2_lt 2 (bits + 2)).
    apply Forall_cons in Hok as [Hall _]. pose proof (Z.pow_le_mono_r 2 (pmp_log2gran f) 63).
    change (2 ^ 2) with 4 in *.
    apply (covers_fits bits f _ 0 (2 ^ 64 - 1));
      [done|done|done|by apply all_covers|by apply all_covers|lia|lia].
Qed.

(** C1: Booting isolates the firmware in hardware.  When [sbi_domain_init]
    succeeds and a hart of the root domain, out of reset, configures its PMP
    (with or without Smepmp), no read, write or fetch of a byte of the firmware
    image in supervisor or user mode passes the PMP of that hart, and with
    Smepmp machine mode itself can no longer write its text or execute its
    data. *)
Theorem boot_isolates_firmware setup env plat sb cold st st' bits f p :
  boot_ok st plat -> image_ok sb ->
  sbi_domain_init setup env plat sb cold st = Some (0, st') ->
  pmp_features bits f -> image_fits bits f sb -> 4 <= pmp_count f -> pmp_reset p ->
  exists d p', domains st' !! root = Some d /\ sbi_hart_pmp_configure bits f d p = (0, p') /\
    (forall x mode acc, fw_start sb <= x < fw_start sb + fw_size sb -> mode <> PRV_M ->
       0 < acc < 8 -> allows p' mode x acc = false) /\
    (sbi_hart_has_extension f SBI_HART_EXT_SMEPMP = true ->
       (forall x, fw_start sb <= x < fw_start sb + fw_rw_offset sb ->
          allows p' PRV_M x SBI_DOMAIN_WRITE = false) /\
       (forall x, fw_start sb + fw_rw_offset sb <= x < fw_start sb + fw_size sb ->
          allows p' PRV_M x SBI_DOMAIN_EXECUTE = false)).
Proof.
  intros Hb Himg Hinit Hf Hfit Hcnt Hreset.
  destruct (domain_init_spec setup env plat sb cold st Hb Himg) as (rc & s & Hi & Hgood).
  rewrite Hinit in Hi. injection Hi as <- <-.
  destruct (Hgood eq_refl) as (_ & d & rt & rd & Hd & Hsh). exists d.
  destruct (pmp_configure_spec bits f d p) as (p' & Hp' & Hdec); [done|done| | |].
  { apply (root_pmp_fits bits f sb d rt rd); try done. destruct (sbi_hart_has_extension _ _); auto. }
  { intros _. destruct Hsh as (Hp & _ & Hft & Hfd & _). rewrite Hp.
    repeat apply Forall_cons_2; try apply Forall_nil_2; rewrite ?Hft, ?Hfd; repeat split;
      vm_compute; congruence. }
  exists p'. split; [done|]. split; [done|].
  pose proof Himg as (H1 & H2 & H3 & H4). destruct Hfit as (_ & _ & _ & Hlim).
  assert (forall x, fw_start sb <= x < fw_start sb + fw_size sb -> 0 <= x < 2 ^ (bits + 2)) as Hx
    by (intros; lia).
  assert (forall x mode acc, fw_start sb <= x < fw_start sb + fw_size sb -> mode <> PRV_M ->
    access_rwx acc <> 0 -> sbi_domain_check_addr (Some d) x mode acc = false) as Hsu.
  { intros x mode acc. apply (root_su_denied sb d rt rd); [done|lia|lia]. }
  split.
  - intros x mode acc Hin Hm Hacc. rewrite (proj1 (Hdec mode x acc (Hx x Hin) ltac:(lia)) Hm).
    destruct (access_rwx_small acc ltac:(lia)) as (E1 & _ & E3 & _).
    unfold domain_allows. by rewrite !Hsu by (done || rewrite ?E1, ?E3; lia).
  - intros Hext. pose proof Hsh as (Hp & _ & Hft & Hfd & _ & _ & Hc1 & Hc2 & Hc3).
    pose proof (fun x mode acc => root_access sb d rt rd x mode acc Hsh ltac:(lia)) as Hacc.
    assert (forall x, covers (mkReg 64 0 SU_RWX) x -> exists r, r ∈ dom_regions d /\ covers r x) as Hcov.
    { intros x Hcx. eexists. split; [|exact Hcx]. rewrite Hp, !elem_of_cons. tauto. }
    split; intros x Hin.
    + rewrite (proj2 (Hdec PRV_M x SBI_DOMAIN_WRITE (Hx x ltac:(lia)) ltac:(done)) Hext);
        [|apply Hcov, all_covers; lia].
      unfold domain_allows. rewrite !Hacc by lia.
      rewrite bool_decide_eq_true_2 by (apply Hc1; lia). unfold region_allows, region_rwx.
      by rewrite Hft.
    + rewrite (proj2 (Hdec PRV_M x SBI_DOMAIN_EXECUTE (Hx x ltac:(lia)) ltac:(done)) Hext);
        [|apply Hcov, all_covers; lia].
      unfold domain_allows. rewrite !Hacc by lia.
      rewrite bool_decide_eq_false_2 by (intros Hc%Hc2; lia).
      rewrite bool_decide_eq_true_2 by (apply Hc3; lia). unfold region_allows, region_rwx.
      by rewrite Hfd.
Qed.

Lemma boot_demo_ok : boot_ok boot_demo_state (mkPlat 2 None).
Proof.
  split; [|split; [|split; [|split]]].
  - unfold scratch_wf, SBI_HARTMASK_MAX_BITS; cbn; lia.
  - split; [cbn; unfold SBI_SCRATCH_EXTRA_SPACE_OFFSET, SBI_SCRATCH_SIZE; lia|by exists 15].
  - reflexivity.
  - reflexivity.
  - intros i Hi. unfold last_hart in Hi; cbn in Hi.
    assert (i = 0 \/ i = 1) as [-> | ->] by lia; vm_compute; discriminate.
Qed.

Lemma boot_demo_succeeds : exists st', sbi_domain_init (fun _ _ => 0) (mkEnv 0 true true)
  (mkPlat 2 None) boot_demo_scratch 0 boot_demo_state = Some (0, st').
Proof.
  assert (H : fst <$> sbi_domain_init (fun _ _ => 0) (mkEnv 0 true true) (mkPlat 2 None)
                boot_demo_scratch 0 boot_demo_state = Some 0) by (vm_compute; reflexivity).
  destruct (sbi_domain_init _ _ _ _ _ _) as [[rc st']|]; cbn in H; [|done].
  exists st'. by simplify_eq.
Qed.

Lemma boot_isolates_firmware_witness :
  exists st' d p', sbi_domain_init (fun _ _ => 0) (mkEnv 0 true true) (mkPlat 2 None)
                     boot_demo_scratch 0 boot_demo_state = Some (0, st') /\
    sbi_hart_pmp_configure 54 (demo_features true) d demo_pmp = (0, p') /\
    allows p' PRV_S 0x80040010 SBI_DOMAIN_WRITE = false /\
    allows p' PRV_M 0x80000010 SBI_DOMAIN_WRITE = false.
Proof.
  destruct boot_demo_succeeds as [st' Hi].
  destruct (boot_isolates_firmware (fun _ _ => 0) (mkEnv 0 true true) (mkPlat 2 None)
    boot_demo_scratch 0 boot_demo_state st' 54 (demo_features true) demo_pmp)
    as (d & p' & _ & Hp & Hsu & Hm).
  - exact boot_demo_ok.
  - unfold image_ok; cbn; lia.
  - exact Hi.
  - unfold pmp_features; cbn; lia.
  - unfold image_fits; cbn; lia.
  - cbn; lia.
  - exact demo_pmp_reset.
  - exists st', d, p'. split; [exact Hi|]. split; [exact Hp|]. split.
    + apply (Hsu 0x80040010 PRV_S SBI_DOMAIN_WRITE); [cbn; lia|discriminate|].
      unfold SBI_DOMAIN_WRITE; lia.
    + apply (proj1 (Hm eq_refl) 0x80000010). cbn; lia.
Defined.

(** ** Permissions that Smepmp cannot express *)

(** With Smepmp the set-up encodes every set of permissions it accepts
    exactly, except those that let a mode write memory it may not read: a region
    that supervisor mode may only write becomes readable for supervisor mode and
    readable and writable for machine mode, and one that machine mode may only
    write becomes executable for every mode and writable for none. *)
Lemma smepmp_write_only_misencoded o :
  (forall r mode, smepmp_encodable (flags r) ->
     perm_mml (pmp_cfg (sbi_hart_get_smepmp_flags (flags r)) o) mode = region_rwx r mode) /\
  (forall r, Z.land (flags r) ACCESS_MASK = SU_WRITABLE ->
     let c := pmp_cfg (sbi_hart_get_smepmp_flags (flags r)) o in
     region_rwx r PRV_S = 2 /\ region_rwx r PRV_M = 0 /\
     perm_mml c PRV_S = 1 /\ perm_mml c PRV_M = 3) /\
  (forall r, Z.land (flags r) ACCESS_MASK = M_WRITABLE ->
     let c := pmp_cfg (sbi_hart_get_smepmp_flags (flags r)) o in
     region_rwx r PRV_S = 0 /\ region_rwx r PRV_M = 2 /\
     perm_mml c PRV_S = 4 /\ perm_mml c PRV_M = 4).
Proof.
  split; [intros r mode; apply smepmp_perm|].
  assert (forall r m, region_rwx r m = region_rwx (mkReg 0 0 (Z.land (flags r) ACCESS_MASK)) m) as E.
  { intros r m. unfold region_rwx, ACCESS_MASK, M_ACCESS_MASK, SU_ACCESS_MASK. cbn [flags].
    by rewrite !(land_63 (flags r)). }
  split; intros r H; cbn zeta;
    rewrite (E r PRV_S), (E r PRV_M), (smepmp_flags_mask (flags r));
    rewrite (perm_mml_mask (pmp_cfg _ o) PRV_S), (perm_mml_mask (pmp_cfg _ o) PRV_M), !pmp_cfg_perm;
    change 63 with ACCESS_MASK; rewrite H; by vm_compute.
Qed.

Lemma smepmp_write_only_misencoded_witness :
  perm_mml (pmp_cfg (sbi_hart_get_smepmp_flags SU_WRITABLE) 12) PRV_M = 3.
Proof.
  destruct (smepmp_write_only_misencoded 12) as (_ & H & _).
  apply (H (mkReg 12 0 SU_WRITABLE)). reflexivity.
Defined.

(** ** Reading an entry back *)

Lemma ctz_loop_spec n fuel x ret :
  0 <= n < Z.of_nat fuel -> Z.testbit x n = true -> (forall i, 0 <= i < n -> Z.testbit x i = false) ->
  ctz_loop fuel x ret = Some (ret + n).
Proof.
  revert n x ret. induction fuel as [|fuel IH]; intros n x ret Hn Hb Hlow; [lia|]. cbn [ctz_loop].
  assert (Z.land x 1 = Z.b2z (Z.testbit x 0)) as ->.
  { change 1 with (Z.ones 1). rewrite Z.land_ones by lia. by rewrite Z.bit0_mod. }
  destruct (Z.eq_dec n 0) as [-> |Hne].
  { rewrite Hb. cbn. f_equal. lia. }
  rewrite Hlow by lia. cbn [Z.b2z Z.eqb]. rewrite (IH (n - 1)); [f_equal; lia|lia| |].
  - rewrite Z.shiftr_spec by lia. by replace (n - 1 + 1) with n by lia.
  - intros i Hi. rewrite Z.shiftr_spec by lia. apply Hlow. lia.
Qed.

Lemma ctz_total x : word_ok x -> exists t, ctz x = Some t.
Proof.
  intros Hx. unfold ctz. destruct (Z.eqb_spec x 0); [by exists 64|].
  destruct (least_bit_exists x) as [t Ht]; [destruct Hx; lia|].
  pose proof (least_bit_bound x t Hx Ht). destruct Ht as (? & ? & ?).
  exists (0 + t). by apply ctz_loop_spec.
Qed.

(** The complement of a stored address ends in as many zeroes. *)
Lemma ctz_stored q k : 0 <= q -> 0 <= k < 64 -> q * 2 ^ (k + 1) + (2 ^ k - 1) < 2 ^ 64 ->
  ctz (not64 (q * 2 ^ (k + 1) + (2 ^ k - 1))) = Some k.
Proof.
  intros Hq Hk Ha. set (a := q * 2 ^ (k + 1) + (2 ^ k - 1)) in *.
  pose proof (pow2_pos k ltac:(lia)). pose proof (pow2_split 1 k ltac:(lia) ltac:(lia)).
  assert (a = Z.lxor (q * 2 ^ (k + 1)) (Z.ones k)) as Ea.
  { unfold a. rewrite Z.ones_equiv. apply lxor_low; lia. }
  assert (Z.testbit (not64 a) k = true) as Hb.
  { rewrite not64_bits, Ea, Z.lxor_spec, Z.mul_pow2_bits_low, ones_bits by lia. zcases; done || lia. }
  unfold ctz. destruct (Z.eqb_spec (not64 a) 0) as [E|_]; [by rewrite E, Z.bits_0 in Hb|].
  apply (ctz_loop_spec k 64 (not64 a) 0); [lia|done|].
  intros i Hi. rewrite not64_bits, Ea, Z.lxor_spec, Z.mul_pow2_bits_low, ones_bits by lia.
  zcases; done || lia.
Qed.

(** What an address register holds for a naturally aligned range. *)
Lemma stored_form bits addr l :
  1 <= bits <= 60 -> 3 <= l <= 64 -> 0 <= addr < 2 ^ (bits + 2) -> (2 ^ l | addr) ->
  exists q, 0 <= q /\ let k := Z.min (l - 3) bits in
    pmp_addr addr l mod 2 ^ bits = q * 2 ^ (k + 1) + (2 ^ k - 1) /\ addr = q * 2 ^ (k + 3).
Proof.
  intros Hb Hl Ha [q Hq]. pose proof (pow2_pos l ltac:(lia)). exists q. cbn zeta.
  assert (0 <= q) by nia. split; [done|]. pose proof (pow2_pos bits ltac:(lia)).
  assert (bits + 3 <= l -> q = 0) as Hbig.
  { intros. pose proof (pow2_lt (bits + 2) l ltac:(lia) ltac:(lia)). nia. }
  destruct (Z.eq_dec l 64) as [-> |].
  { assert (q = 0) as -> by (apply Hbig; lia). assert (forall x, pmp_addr x 64 = 2 ^ 64 - 1) as -> by reflexivity.
    rewrite all_ones_mod, Z.min_r by lia. lia. }
  pose proof (Z.pow_le_mono_r 2 (bits + 2) 64 ltac:(lia) ltac:(lia)) as H64.
  rewrite Hq, pmp_addr_napot by lia.
  destruct (Z_le_gt_dec (bits + 3) l) as [Hle|Hgt].
  - rewrite Hbig, Z.min_r by lia. rewrite !Z.mul_0_l, !Z.add_0_l.
    rewrite all_ones_mod by lia. lia.
  - rewrite Z.min_l by lia. replace (l - 3 + 1) with (l - 2) by lia.
    replace (l - 3 + 3) with l by lia. split; [|done]. apply Z.mod_small.
    assert (2 ^ l = 2 ^ (l - 2) * 4) by (rewrite <- (pow2_split 2) by lia; f_equal; lia).
    assert (2 ^ (l - 2) = 2 ^ (l - 3) * 2) by (rewrite <- (pow2_split 1) by lia; f_equal; lia).
    pose proof (pow2_pos (l - 3) ltac:(lia)).
    assert (2 ^ (bits + 2) = 2 ^ bits * 4) by (by apply (pow2_split 2); lia).
    assert (2 ^ bits = 2 ^ (bits - (l - 2)) * 2 ^ (l - 2)) as Es
      by (rewrite <- pow2_split by lia; f_equal; lia).
    assert (q < 2 ^ (bits - (l - 2))) as Hlt
      by (apply (Z.mul_lt_mono_pos_r (2 ^ (l - 2))); lia).
    pose proof (Z.mul_le_mono_nonneg_r (q + 1) (2 ^ (bits - (l - 2))) (2 ^ (l - 2))).
    pose proof (Z.mul_nonneg_nonneg q (2 ^ (l - 2))). lia.
Qed.

Lemma read_prot p n : pmp_ok p -> 0 <= n < 64 ->
  Z.shiftr (Z.land (csr_read_num p (pmpcfg_csr n)) (u64 (Z.shiftl 0xff (pmpcfg_shift n))))
    (pmpcfg_shift n) = cfg p n.
Proof.
  intros Hp Hn. destruct (cfg_place n Hn) as (Hs & _).
  pose proof (Z.mod_pos_bound n 8 ltac:(lia)) as Hm.
  replace (cfg p n) with (byte (csr_read_num p (pmpcfg_csr n)) (n mod 8))
    by (rewrite read_cfg by done; f_equal; lia).
  rewrite Hs. apply Z.bits_inj'. intros i Hi. rewrite byte_bits by lia.
  rewrite Z.shiftr_spec, Z.land_spec, mask_bits by lia.
  rewrite andb_comm. f_equal. zcases; done || lia.
Qed.

Lemma pmp_cfg_na4 prot : Z.land (pmp_cfg prot 2) PMP_A = PMP_A_NA4.
Proof.
  unfold pmp_cfg. rewrite Z.eqb_refl, <- Z.land_assoc. change (Z.land 0xff PMP_A) with PMP_A.
  rewrite Z.land_lor_distr_l, <- Z.land_assoc. change (Z.land (not64 PMP_A) PMP_A) with 0.
  by rewrite Z.land_0_r.
Qed.

(** An entry is read back as it was written.  After [pmp_set] of a naturally
    aligned range of the physical address space into an unlocked entry,
    [pmp_get] returns its protection, its base and its size, cut to the size
    of the register's range, and every other entry reads as before. *)
Lemma pmp_set_get_roundtrip bits p n prot addr l :
  1 <= bits <= 60 -> pmp_ok p -> 0 <= n < 64 -> 2 <= l <= 64 -> addr_locked p n = false ->
  0 <= addr < 2 ^ (bits + 2) -> (2 ^ l | addr) ->
  exists p', pmp_set bits p n prot addr l = (0, p') /\
    pmp_get p' n = Some (0, (pmp_cfg prot l, addr, Z.min l (bits + 3))) /\
    (forall k, 0 <= k < 64 -> k <> n -> pmp_get p' k = pmp_get p k).
Proof.
  intros Hb Hp Hn Hl Hlk Ha Hal.
  destruct (pmp_set_spec bits p n prot addr l Hp Hn Hl Hlk) as (p' & E & Hs & Hc & Had & Hok).
  exists p'. split; [done|]. split.
  - unfold pmp_get, PMP_COUNT. rewrite (proj2 (Z.leb_gt 64 n)) by lia.
    rewrite read_prot, read_addr by (done || lia).
    rewrite Hc, Had. unfold upd. rewrite Z.eqb_refl.
    destruct (Z.eq_dec l 2) as [-> |Hne].
    + rewrite pmp_cfg_na4.
      change (PMP_A_NA4 =? PMP_A_NAPOT) with false. cbn [pmp_addr]. rewrite Z.min_l by lia.
      do 4 f_equal. unfold pmp_addr, PMP_SHIFT. rewrite Z.eqb_refl.
      destruct Hal as [q ->]. change (2 ^ 2) with 4 in *.
      pose proof (pow2_split 2 bits ltac:(lia) ltac:(lia)) as E4. change (2 ^ 2) with 4 in E4.
      rewrite Z.shiftr_div_pow2 by lia. change (2 ^ 2) with 4. rewrite Z.div_mul by lia.
      rewrite Z.mod_small by lia. rewrite Z.shiftl_mul_pow2 by lia. change (2 ^ 2) with 4.
      apply wrap_small. pose proof (pow2_lt (bits + 2) 64). lia.
    + rewrite pmp_cfg_mode by lia. rewrite Z.eqb_refl.
      destruct (stored_form bits addr l) as (q & Hq & Est & Ead); [done|lia|done|done|].
      set (k := Z.min (l - 3) bits) in *. rewrite Est.
      assert (0 <= k < 64) as Hk by lia.
      pose proof (pow2_pos k ltac:(lia)). pose proof (pow2_split 1 k ltac:(lia) ltac:(lia)).
      pose proof (pow2_split 3 k ltac:(lia) ltac:(lia)).
      pose proof (pow2_lt (bits + 2) 64 ltac:(lia) ltac:(lia)).
      change (2 ^ 3) with 8 in *. change (2 ^ 1) with 2 in *.
      pose proof (Z.mod_pos_bound (pmp_addr addr l) (2 ^ bits) (pow2_pos bits ltac:(lia))) as Hst.
      pose proof (pow2_lt bits 62 ltac:(lia) ltac:(lia)). rewrite Est in Hst.
      destruct (Z.eqb_spec (q * 2 ^ (k + 1) + (2 ^ k - 1)) ULONG_MAX) as [Emax|_].
      { unfold ULONG_MAX in Emax. lia. }
      rewrite ctz_stored by lia. rewrite some_bind. rewrite shiftl_one by lia.
      pose proof (pow2_lt k 64 ltac:(lia) ltac:(lia)).
      rewrite (wrap_small 64 (2 ^ k - 1)), land_not_mask by lia.
      replace ((q * 2 ^ (k + 1) + (2 ^ k - 1)) mod 2 ^ k) with (2 ^ k - 1)
        by (apply Z.mod_unique with (q * 2); lia).
      unfold PMP_SHIFT. rewrite Z.shiftl_mul_pow2 by lia. change (2 ^ 2) with 4.
      rewrite wrap_small by lia. do 2 f_equal. f_equal; [f_equal; lia|]. unfold k. lia.
  - intros k Hk Hne. unfold pmp_get, PMP_COUNT. rewrite (proj2 (Z.leb_gt 64 k)) by lia.
    rewrite !read_prot, !read_addr by (done || lia).
    rewrite Hc, Had. unfold upd. by rewrite (proj2 (Z.eqb_neq k n)) by lia.
Qed.

Lemma pmp_set_get_roundtrip_witness :
  exists p', pmp_set 54 demo_pmp 3 5 0x80000000 17 = (0, p') /\
    pmp_get p' 3 = Some (0, (0x1d, 0x80000000, 17)).
Proof.
  destruct (pmp_set_get_roundtrip 54 demo_pmp 3 5 0x80000000 17) as (p' & E & G & _).
  - lia.
  - apply demo_pmp_reset.
  - lia.
  - lia.
  - reflexivity.
  - lia.
  - by exists 0x4000.
  - exists p'. split; [exact E|]. exact G.
Defined.

(** ** The shared-memory window *)

Lemma log2roundup_bounds x : 0 < x <= 2 ^ 63 ->
  0 <= log2roundup x < 64 /\ x <= 2 ^ log2roundup x /\
  (0 < log2roundup x -> 2 ^ (log2roundup x - 1) < x).
Proof.
  intros Hx. destruct (log2roundup_spec x) as (H1 & H2 & H3); [lia|].
  split; [|split; [done|intros; apply H3; lia]].
  destruct (decide (log2roundup x = 64)) as [E|]; [|lia]. specialize (H3 63). lia.
Qed.

(** One round of the search: does the block of this order hold the range? *)
Lemma saddr_round addr size o fuel :
  0 <= addr -> 0 < size -> addr + size <= 2 ^ 63 -> 0 <= o < 64 ->
  saddr_loop (S fuel) addr size o =
    if bool_decide (addr + size <= addr - addr mod 2 ^ o + 2 ^ o)
    then Some (addr - addr mod 2 ^ o, o) else saddr_loop fuel addr size (o + 1).
Proof.
  intros Ha Hs Ht Ho. cbn [saddr_loop]. rewrite (proj2 (Z.ltb_lt o 64)) by lia.
  pose proof (pow2_pos o ltac:(lia)). pose proof (pow2_lt o 64 ltac:(lia) ltac:(lia)).
  rewrite shiftl_one, (wrap_small 64 (2 ^ o - 1)), land_not_mask by lia.
  pose proof (Z.mod_pos_bound addr (2 ^ o) ltac:(lia)).
  pose proof (Z.mod_le addr (2 ^ o) ltac:(lia) ltac:(lia)).
  assert (addr - addr mod 2 ^ o + 2 ^ o < 2 ^ 64).
  { destruct (Z_le_gt_dec 63 o) as [|]; [|pose proof (pow2_lt o 63); lia].
    assert (o = 63) as -> by lia. rewrite Z.mod_small; lia. }
  rewrite !(wrap_small 64) by lia. case_bool_decide; zcases; cbn; done || lia.
Qed.

Lemma saddr_loop_spec fuel addr size o :
  0 <= addr -> 0 < size -> addr + size <= 2 ^ 63 -> 0 <= o < 64 -> 64 - o <= Z.of_nat fuel ->
  exists b k, saddr_loop fuel addr size o = Some (b, k) /\ o <= k < 64 /\
    b = addr - addr mod 2 ^ k /\ addr + size <= b + 2 ^ k /\
    (forall j, o <= j < k -> addr - addr mod 2 ^ j + 2 ^ j < addr + size).
Proof.
  revert o. induction fuel as [|fuel IH]; intros o Ha Hs Ht Ho Hf; [lia|].
  rewrite saddr_round by done. case_bool_decide as Hc.
  { exists (addr - addr mod 2 ^ o), o. split; [done|]. split; [lia|]. split; [done|].
    split; [done|]. lia. }
  destruct (Z.eq_dec o 63) as [-> |].
  { rewrite Z.mod_small in Hc by lia. lia. }
  destruct (IH (o + 1)) as (b & k & -> & Hk & Hb & Hfit & Hmin); [lia..|].
  exists b, k. split; [done|]. split; [lia|]. split; [done|]. split; [done|].
  intros j Hj. destruct (Z.eq_dec j o) as [-> |]; [lia|]. apply Hmin. lia.
Qed.

Lemma first_match_ext p p' a k n :
  (forall i, n <= i < n + Z.of_nat k -> cfg p' i = cfg p i /\ entry_match p' i a = entry_match p i a) ->
  first_match p' a k n = first_match p a k n.
Proof.
  revert n. induction k as [|k IH]; intros n H; [done|]. rewrite !first_match_S.
  destruct (H n) as [-> ->]; [lia|]. rewrite IH; [done|]. intros i Hi. apply H. lia.
Qed.

(** A state with the machine-mode lockdown on and the reserved entry free. *)
Definition window_closed (p : pmp) : Prop :=
  pmp_ok p /\ rlb p /\ Z.testbit (mseccfg p) 0 = true /\ cfg p 0 = 0 /\
  Z.land (cfg p 1) PMP_A <> PMP_A_TOR.

Lemma not_mapped p : pmp_ok p -> cfg p 0 = 0 -> is_pmp_entry_mapped p SBI_SMEPMP_RESV_ENTRY = Some false.
Proof.
  intros Hp H0. unfold is_pmp_entry_mapped, pmp_get, SBI_SMEPMP_RESV_ENTRY, PMP_COUNT.
  rewrite (proj2 (Z.leb_gt 64 0)), read_prot, H0 by (done || lia). done.
Qed.

(** The entry [pmp_set] writes for a block matches the block. *)
Lemma block_match bits p n prot b k a :
  1 <= bits <= 62 -> 2 <= k < 64 -> 0 <= b -> b + 2 ^ k <= 2 ^ 64 -> (2 ^ k | b) ->
  b < 2 ^ (bits + 2) - 4 -> 0 <= a < 2 ^ (bits + 2) ->
  cfg p n = pmp_cfg prot k -> paddr p n = pmp_addr b k mod 2 ^ bits ->
  entry_match p n a = true <-> b <= a < b + 2 ^ k.
Proof.
  intros Hb Hk H0 Htop Hal Hlim Ha Hc Hp.
  pose proof (pow2_split 2 bits ltac:(lia) ltac:(lia)) as E4. change (2 ^ 2) with 4 in E4.
  destruct (Z.eq_dec k 2) as [-> |Hne].
  - unfold entry_match. rewrite Hc, Hp.
    rewrite pmp_cfg_na4.
    change (PMP_A_NA4 =? PMP_A_NAPOT) with false. rewrite Z.eqb_refl. cbn match.
    unfold pmp_addr, PMP_SHIFT. rewrite Z.eqb_refl. destruct Hal as [q ->].
    rewrite !Z.shiftr_div_pow2 by lia. change (2 ^ 2) with 4 in *.
    rewrite Z.div_mul, Z.mod_small by lia. apply (block_div q 2 a). lia.
  - assert (reg_ok (mkReg k b 0)) as Hr by (split; [cbn; lia|by split]).
    rewrite (region_entry_match bits p n prot (mkReg k b 0)); [|done|done| |done|done].
    + rewrite region_hit_covers by done. by rewrite bool_decide_eq_true.
    + cbn [base]. rewrite Z.shiftr_div_pow2 by lia. apply Z.div_lt_upper_bound; [lia|].
      change (2 ^ 2) with 4. lia.
Qed.

(** The open window decides for its block: data access for every mode. *)
Lemma window_allows bits p b k x mode :
  1 <= bits <= 62 -> 2 <= k < 64 -> 0 <= b -> b + 2 ^ k <= 2 ^ 64 -> (2 ^ k | b) ->
  b < 2 ^ (bits + 2) - 4 -> b <= x < b + 2 ^ k -> 0 <= x < 2 ^ (bits + 2) ->
  Z.testbit (mseccfg p) 0 = true ->
  cfg p 0 = pmp_cfg (Z.lor PMP_W PMP_X) k -> paddr p 0 = pmp_addr b k mod 2 ^ bits ->
  allows p mode x 3 = true.
Proof.
  intros. unfold allows. change (Z.to_nat PMP_COUNT) with (S 63). rewrite first_match_S.
  rewrite (proj2 (block_match bits p 0 (Z.lor PMP_W PMP_X) b k x ltac:(done) ltac:(done) ltac:(done)
    ltac:(done) ltac:(done) ltac:(done) ltac:(done) ltac:(done) ltac:(done))) by done.
  rewrite H7, H8, perm_mml_mask, pmp_cfg_perm. unfold perm_mml. by destruct (mode =? PRV_M).
Qed.

Lemma map_refused bits f p k addr size :
  sbi_hart_has_extension f SBI_HART_EXT_SMEPMP = true -> pmp_ok p ->
  cfg p 0 = pmp_cfg (Z.lor PMP_W PMP_X) k -> paddr p 0 < ULONG_MAX -> 0 <= paddr p 0 ->
  sbi_hart_map_saddr bits f addr size p = Some (SBI_ENOSPC, p).
Proof.
  intros Hext Hok Hc Hlt H0. unfold sbi_hart_map_saddr. rewrite Hext. cbn [negb].
  assert (is_pmp_entry_mapped p SBI_SMEPMP_RESV_ENTRY = Some true) as ->; [|done].
  unfold is_pmp_entry_mapped, pmp_get, SBI_SMEPMP_RESV_ENTRY, PMP_COUNT.
  rewrite (proj2 (Z.leb_gt 64 0)), read_prot, Hc by (done || lia). change (0x3b0) with CSR_PMPADDR0.
  rewrite read_addr by lia.
  destruct (Z.eq_dec k 2) as [-> |Hk].
  - by rewrite pmp_cfg_na4.
  - rewrite pmp_cfg_mode by done. rewrite Z.eqb_refl, (proj2 (Z.eqb_neq (paddr p 0) _)) by lia.
    destruct (ctz_total (not64 (paddr p 0))) as [t ->].
    + by apply not64_ok.
    + cbn. by rewrite pmp_cfg_mode by done.
Qed.

Lemma unmap_restores bits f p p' c a :
  sbi_hart_has_extension f SBI_HART_EXT_SMEPMP = true -> window_closed p ->
  with_entry p p' 0 c a ->
  exists p'', sbi_hart_unmap_saddr bits f p' = (SBI_OK, p'') /\
    forall mode x acc, allows p'' mode x acc = allows p mode x acc.
Proof.
  intros Hext (Hok & Hrlb & Hmml & H0 & Htor) (Hsec & Hcf & Had & Hok').
  unfold sbi_hart_unmap_saddr. rewrite Hext. cbn [negb].
  destruct (pmp_disable_spec bits p' SBI_SMEPMP_RESV_ENTRY) as (p'' & -> & Hsec2 & Hcf2 & Had2 & _);
    [done|done|apply rlb_unlocked; unfold rlb in *; by rewrite Hsec|].
  exists p''. split; [done|]. intros mode x acc.
  assert (forall i, cfg p'' i = cfg p i) as Ec.
  { intros i. rewrite Hcf2. unfold upd, SBI_SMEPMP_RESV_ENTRY. destruct (Z.eqb_spec i 0) as [-> |Hi];
      [done|]. rewrite Hcf. unfold upd. by rewrite (proj2 (Z.eqb_neq i 0)). }
  assert (forall i, i <> 0 -> paddr p'' i = paddr p i) as Ea.
  { intros i Hi. rewrite Had2, !Had. unfold upd, SBI_SMEPMP_RESV_ENTRY.
    by rewrite (proj2 (Z.eqb_neq i 0)), Had by done; unfold upd; rewrite (proj2 (Z.eqb_neq i 0)). }
  unfold allows. rewrite Hsec2, Hsec, (first_match_ext p p''); [done|].
  intros i Hi. split; [apply Ec|]. unfold entry_match. rewrite Ec.
  destruct (Z.eq_dec i 0) as [-> |Hi0]; [by rewrite H0|]. rewrite (Ea i) by done.
  destruct (Z.eq_dec i 1) as [-> |]; [by rewrite (proj2 (Z.eqb_neq _ _) Htor)|].
  by rewrite (proj2 (Z.eqb_neq i 0)), (Ea (i - 1)) by lia.
Qed.

(** The window always returns. *)
Lemma pmp_get_total p n : exists rc prot a l, pmp_get p n = Some (rc, (prot, a, l)).
Proof.
  unfold pmp_get. destruct (ctz_total (not64 (csr_read_num p (CSR_PMPADDR0 + n)))) as [t ->];
    [apply not64_ok|]. rewrite some_bind. repeat case_match; by eexists _, _, _, _.
Qed.

Lemma map_saddr_total bits f addr size p : exists r, sbi_hart_map_saddr bits f addr size p = Some r.
Proof.
  unfold sbi_hart_map_saddr, is_pmp_entry_mapped. destruct (negb _); [by eexists|].
  destruct (pmp_get_total p SBI_SMEPMP_RESV_ENTRY) as (rc & prot & a & l & ->). rewrite some_bind.
  destruct (negb (rc =? 0)); rewrite some_bind; repeat case_match; by eexists.
Qed.

(** The window of [sbi_hart_map_saddr].  On a Smepmp hart whose reserved
    entry is free, mapping a nonempty range of the lower half of the physical
    address space succeeds with a naturally aligned block around it, the smallest
    one of the allowed orders: machine, supervisor and user mode may then read
    and write every byte of the range, and a second mapping is refused with
    [SBI_ENOSPC] and changes nothing.  [sbi_hart_unmap_saddr] restores every
    decision of the PMP. *)
Lemma map_saddr_window bits f p addr size :
  pmp_features bits f -> pmp_log2gran f < 64 ->
  sbi_hart_has_extension f SBI_HART_EXT_SMEPMP = true -> window_closed p ->
  0 <= addr -> 0 < size -> addr + size <= 2 ^ 63 -> addr + size < 2 ^ (bits + 2) - 4 ->
  exists p' b k, sbi_hart_map_saddr bits f addr size p = Some (SBI_OK, p') /\
    pmp_log2gran f <= k < 64 /\ (2 ^ k | b) /\ b <= addr /\ addr + size <= b + 2 ^ k /\
    (forall j, pmp_log2gran f <= j < k -> size <= 2 ^ j ->
       addr - addr mod 2 ^ j + 2 ^ j < addr + size) /\
    (forall x mode, addr <= x < addr + size -> allows p' mode x 3 = true) /\
    (forall addr2 size2, sbi_hart_map_saddr bits f addr2 size2 p' = Some (SBI_ENOSPC, p')) /\
    exists p'', sbi_hart_unmap_saddr bits f p' = (SBI_OK, p'') /\
      forall mode a acc, allows p'' mode a acc = allows p mode a acc.
Proof.
  intros Hf Hg63 Hext Hw Ha Hs Ht Hlim. pose proof Hw as (Hok & Hrlb & Hmml & H0 & Htor).
  pose proof Hf as (Hb & _ & _ & Hg).
  destruct (log2roundup_bounds size) as (Hl & Hle & Hlow); [lia|].
  destruct (saddr_loop_spec 65 addr size (Z.max (pmp_log2gran f) (log2roundup size)))
    as (b & k & Eloop & Hk & Hbk & Hfit & Hmin); [lia..|].
  pose proof (pow2_pos k ltac:(lia)) as Hpk.
  pose proof (Z.mod_pos_bound addr (2 ^ k) ltac:(lia)) as Hmod.
  pose proof (Z.mod_le addr (2 ^ k) ltac:(lia) ltac:(lia)) as Hmodle.
  assert (2 ^ k | b) as Hal by (rewrite Hbk; apply round_down_divides; lia).
  assert (b + 2 ^ k <= 2 ^ 64) as Htop.
  { destruct (Z.eq_dec k 63) as [E|]; [|pose proof (pow2_lt k 63 ltac:(lia) ltac:(lia)); lia].
    rewrite E in *. rewrite Z.mod_small in Hbk by lia. lia. }
  destruct (pmp_set_spec bits p SBI_SMEPMP_RESV_ENTRY (Z.lor PMP_W PMP_X) b k)
    as (p' & Eset & Hwith); [done|done|lia| |].
  { apply addr_unlocked; [done|]. intros. by apply rlb_unlocked. }
  pose proof Hwith as (Hsec & Hcf & Had & Hok').
  specialize (Hcf 0) as Hc0. specialize (Had 0) as Ha0. cbn in Hc0, Ha0.
  pose proof (Z.mod_pos_bound (pmp_addr b k) (2 ^ bits) (pow2_pos bits ltac:(lia))) as Hst.
  pose proof (pow2_lt bits 63 ltac:(lia) ltac:(lia)).
  exists p', b, k. split.
  { unfold sbi_hart_map_saddr. rewrite Hext. cbn [negb].
    rewrite not_mapped, some_bind by done. by rewrite Eloop, Eset. }
  split; [lia|]. split; [done|]. split; [lia|]. split; [done|]. split.
  { intros j Hj Hsz. apply Hmin. split; [|lia]. apply Z.max_lub; [lia|].
    destruct (Z_le_gt_dec (log2roundup size) j) as [|Hgt]; [done|].
    pose proof (Z.pow_le_mono_r 2 j (log2roundup size - 1) ltac:(lia) ltac:(lia)). lia. }
  split.
  { intros x mode Hx. apply (window_allows bits p' b k); try done; try lia. by rewrite Hsec. }
  split.
  { intros. apply (map_refused bits f p' k); try done; rewrite Ha0; unfold ULONG_MAX; lia. }
  by eapply unmap_restores.
Qed.

Definition demo_window : pmp := mkPmp (fun _ => 0) (fun _ => 0) 5.

Lemma map_saddr_window_witness :
  exists p' b k, sbi_hart_map_saddr 54 (demo_features true) 0x80201ff0 0x20 demo_window
                 = Some (SBI_OK, p') /\ b <= 0x80201ff0 /\ 0x80202010 <= b + 2 ^ k /\
    allows p' PRV_M 0x80201ff8 3 = true.
Proof.
  destruct (map_saddr_window 54 (demo_features true) demo_window 0x80201ff0 0x20)
    as (p' & b & k & E & _ & _ & H1 & H2 & _ & H3 & _).
  - unfold pmp_features; cbn; lia.
  - cbn; lia.
  - reflexivity.
  - split; [intros i; cbn; lia|]. by repeat split.
  - lia.
  - lia.
  - lia.
  - lia.
  - exists p', b, k. split; [exact E|]. split; [exact H1|]. split; [exact H2|]. apply H3. lia.
Defined.
