(* ===== verification/SbiSse.v ===== *)
(** * Supervisor software events (lib/sbi/sbi_sse.c, lib/sbi/sbi_ecall_sse.c)

    The events live in two kinds of arrays, one global and one per hart; the
    per-hart lists of enabled events hold pointers into them, so an event is an
    entry of one store ([eref] is its address) and the lists are lists of
    addresses.  Every operation runs under the locks of the event and of the
    list, as one step.  The queue of injected events is any implementation of
    [BoundedQueue]; the ring buffer is one.  The IPI device and the callbacks of
    the event sources are recorded in a log. *)

From S2P Require Import Prelude SbiString SbiFifo SbiHeap SbiBitops SbiScratch SbiHartmask SbiMemregion SbiDomain SbiHsm SbiHart SbiPmp.

Definition SBI_SSE_ATTR_STATUS : Z := 0.
Definition SBI_SSE_ATTR_PRIO : Z := 1.
Definition SBI_SSE_ATTR_CONFIG : Z := 2.
Definition SBI_SSE_ATTR_PREFERRED_HART : Z := 3.
Definition SBI_SSE_ATTR_ENTRY_PC : Z := 4.
Definition SBI_SSE_ATTR_ENTRY_ARG : Z := 5.
Definition SBI_SSE_ATTR_INTERRUPTED_SEPC : Z := 6.
Definition SBI_SSE_ATTR_INTERRUPTED_FLAGS : Z := 7.
Definition SBI_SSE_ATTR_INTERRUPTED_A6 : Z := 8.
Definition SBI_SSE_ATTR_INTERRUPTED_A7 : Z := 9.
Definition SBI_SSE_ATTR_MAX : Z := 10.

Definition STATE_MASK : Z := 3.
Definition PENDING_OFFSET : Z := 2.
Definition INJECT_OFFSET : Z := 3.
Definition CONFIG_ONESHOT : Z := 1.
Definition FLAGS_STATUS_SPP : Z := 1.
Definition FLAGS_STATUS_SPIE : Z := 2.
Definition FLAGS_HSTATUS_SPV : Z := 4.
Definition FLAGS_HSTATUS_SPVP : Z := 8.

Definition SBI_SSE_STATE_UNUSED : Z := 0.
Definition SBI_SSE_STATE_REGISTERED : Z := 1.
Definition SBI_SSE_STATE_ENABLED : Z := 2.
Definition SBI_SSE_STATE_RUNNING : Z := 3.

Definition SBI_SSE_EVENT_LOCAL_RAS : Z := 0x00000000.
Definition SBI_SSE_EVENT_LOCAL_DOUBLE_TRAP : Z := 0x00000001.
Definition SBI_SSE_EVENT_GLOBAL_RAS : Z := 0x00008000.
Definition SBI_SSE_EVENT_LOCAL_PMU : Z := 0x00010000.
Definition SBI_SSE_EVENT_LOCAL_SOFTWARE : Z := 0xffff0000.
Definition SBI_SSE_EVENT_GLOBAL_SOFTWARE : Z := 0xffff8000.
Definition SBI_SSE_EVENT_GLOBAL_BIT : Z := 0x8000.

Definition MSTATUS_SIE : Z := 0x2.
Definition MSTATUS_SPIE : Z := 0x20.
Definition MSTATUS_SPP : Z := 0x100.
Definition MSTATUS_MPP_SHIFT : Z := 11.
Definition MSTATUS_MPP : Z := 0x1800.
Definition MSTATUS_MPV : Z := 0x8000000000.
Definition HSTATUS_SPV : Z := 0x80.
Definition HSTATUS_SPVP : Z := 0x100.

(** ** Data *)

Record sse_entry_state := mkEntry { pc : Z; arg : Z }.

Record sse_interrupted_state := mkInt { i_sepc : Z; i_flags : Z; i_a6 : Z; i_a7 : Z }.

Record sbi_sse_event_attrs := mkAttrs {
  status : Z; prio : Z; config : Z; hartid : Z;
  entry : sse_entry_state; interrupted : sse_interrupted_state }.

(** Which callbacks the source of an event has; NULL is [false]. *)
Record sbi_sse_cb_ops := mkCb {
  set_hartid_cb : bool; complete_cb : bool; register_cb : bool; unregister_cb : bool;
  enable_cb : bool; disable_cb : bool }.

Record sse_event_info := mkInfo { info_event_id : Z; cb_ops : option sbi_sse_cb_ops }.

Record sbi_sse_event := mkEvent {
  attrs : sbi_sse_event_attrs; event_id : Z; hartindex : Z; info : sse_event_info }.

(** The address of an event: a slot of the global array or of a hart's. *)
Inductive eref := EGlobal (i : nat) | ELocal (h : Z) (i : nat).

#[export] Instance eref_eq_dec : EqDecision eref.
Proof. solve_decision. Defined.

#[export] Instance eref_countable : Countable eref.
Proof.
  refine (inj_countable'
    (fun e => match e with EGlobal i => inl i | ELocal h i => inr (h, i) end)
    (fun x => match x with inl i => EGlobal i | inr (h, i) => ELocal h i end) _).
  by intros [].
Defined.

Inductive sse_call :=
  | CallSetHartid (id hart : Z) | CallComplete (id : Z) | CallRegister (id : Z)
  | CallUnregister (id : Z) | CallEnable (id : Z) | CallDisable (id : Z) | CallIpi (hartid : Z).

(** The registers an injection changes: those of the trap frame, and the two
    CSRs. *)
Record sse_regs := mkRegs { a6 : Z; a7 : Z; mepc : Z; mstatus : Z; sepc : Z; hstatus : Z }.

Section Sse.
Context {F : Type} `{!BoundedQueue F Z}.

Record sse_hart_state := mkShs { enabled_event_list : list eref; masked : bool; inject_fifo : F }.

Record sse := mkSse {
  events : gmap eref sbi_sse_event;
  global_event_count : Z;
  local_event_count : Z;
  shs : gmap Z sse_hart_state;
  supported_events : list sse_event_info;
  sse_log : list sse_call }.

Definition put_event (e : eref) (x : sbi_sse_event) (w : sse) : sse :=
  mkSse (<[e := x]> (events w)) (global_event_count w) (local_event_count w) (shs w)
    (supported_events w) (sse_log w).

Definition put_shs (h : Z) (s : sse_hart_state) (w : sse) : sse :=
  mkSse (events w) (global_event_count w) (local_event_count w) (<[h := s]> (shs w))
    (supported_events w) (sse_log w).

Definition put_lists (f : list eref -> list eref) (w : sse) : sse :=
  mkSse (events w) (global_event_count w) (local_event_count w)
    ((fun s => mkShs (f (enabled_event_list s)) (masked s) (inject_fifo s)) <$> shs w)
    (supported_events w) (sse_log w).

Definition log_call (c : sse_call) (w : sse) : sse :=
  mkSse (events w) (global_event_count w) (local_event_count w) (shs w) (supported_events w)
    (sse_log w ++ [c]).

Definition set_attrs (a : sbi_sse_event_attrs) (x : sbi_sse_event) : sbi_sse_event :=
  mkEvent a (event_id x) (hartindex x) (info x).

Definition set_status (s : Z) (x : sbi_sse_event) : sbi_sse_event :=
  set_attrs (mkAttrs s (prio (attrs x)) (config (attrs x)) (hartid (attrs x)) (entry (attrs x))
               (interrupted (attrs x))) x.

(** [sse_event_invoke_cb] *)
Definition sse_event_invoke_cb (x : sbi_sse_event) (has : sbi_sse_cb_ops -> bool) (c : sse_call)
    (w : sse) : sse :=
  match cb_ops (info x) with
  | Some ops => if has ops then log_call c w else w
  | None => w
  end.

(** ** Reading an event *)

Definition EVENT_IS_GLOBAL (id : Z) : bool := negb (Z.land id SBI_SSE_EVENT_GLOBAL_BIT =? 0).

Definition standard_events : list Z :=
  [SBI_SSE_EVENT_LOCAL_RAS; SBI_SSE_EVENT_LOCAL_DOUBLE_TRAP; SBI_SSE_EVENT_GLOBAL_RAS;
   SBI_SSE_EVENT_LOCAL_PMU; SBI_SSE_EVENT_LOCAL_SOFTWARE; SBI_SSE_EVENT_GLOBAL_SOFTWARE].

Definition sse_is_standard_event (id : Z) : bool := existsb (Z.eqb id) standard_events.

Definition sse_event_info_get (w : sse) (id : Z) : option sse_event_info :=
  List.find (fun i => info_event_id i =? id) (supported_events w).

Definition sse_event_state (x : sbi_sse_event) : Z := Z.land (status (attrs x)) STATE_MASK.

Definition sse_event_pending (x : sbi_sse_event) : bool :=
  negb (Z.land (status (attrs x)) (BIT PENDING_OFFSET) =? 0).

Definition sse_event_is_global (x : sbi_sse_event) : bool := EVENT_IS_GLOBAL (event_id x).

Definition sse_event_set_state (x : sbi_sse_event) (new_state : Z) : sbi_sse_event :=
  set_status (Z.lor (Z.land (status (attrs x)) (not64 STATE_MASK)) new_state) x.

(** The search over one array; [None] reads past it. *)
Fixpoint event_loop (w : sse) (slot : nat -> eref) (n i : nat) (id : Z) : option (option eref) :=
  match n with
  | O => Some None
  | S n =>
      x ← events w !! slot i;
      if event_id x =? id then Some (Some (slot i)) else event_loop w slot n (S i) id
  end.

(** [inl] is an error code. *)
Definition sse_event_get (w : sse) (self id : Z) : option (Z + eref) :=
  r ← (if EVENT_IS_GLOBAL id
       then event_loop w EGlobal (Z.to_nat (global_event_count w)) 0 id
       else event_loop w (ELocal self) (Z.to_nat (local_event_count w)) 0 id);
  match r with
  | Some e => Some (inr e)
  | None => Some (inl (if sse_is_standard_event id then SBI_ENOTSUPP else SBI_EINVAL))
  end.

(** ** The list of enabled events *)

(** [sbi_list_del] unlinks the node from the list that holds it. *)
Definition sse_event_remove_from_list (e : eref) (w : sse) : sse :=
  put_lists (List.filter (fun e' => negb (bool_decide (e' = e)))) w.

Definition event_before (x t : sbi_sse_event) : bool :=
  (prio (attrs x) <? prio (attrs t)) ||
  ((prio (attrs x) =? prio (attrs t)) && (event_id x <? event_id t)).

Fixpoint insert_event (w : sse) (e : eref) (x : sbi_sse_event) (l : list eref)
    : option (list eref) :=
  match l with
  | [] => Some [e]
  | t :: l' =>
      xt ← events w !! t;
      if event_before x xt then Some (e :: t :: l')
      else l'' ← insert_event w e x l'; Some (t :: l'')
  end.

Definition sse_event_add_to_list (e : eref) (x : sbi_sse_event) (w : sse) : option sse :=
  s ← shs w !! hartindex x;
  l ← insert_event w e x (enabled_event_list s);
  Some (put_shs (hartindex x) (mkShs l (masked s) (inject_fifo s)) w).

(** ** State changes *)

Definition sse_event_disable (e : eref) (x : sbi_sse_event) (w : sse) : Z * sse :=
  if negb (sse_event_state x =? SBI_SSE_STATE_ENABLED) then (SBI_EINVALID_STATE, w)
  else
    let w := sse_event_invoke_cb x disable_cb (CallDisable (event_id x)) w in
    let w := sse_event_remove_from_list e w in
    (SBI_OK, put_event e (sse_event_set_state x SBI_SSE_STATE_REGISTERED) w).

Definition sse_event_register (e : eref) (x : sbi_sse_event) (handler_entry_pc handler_entry_arg : Z)
    (w : sse) : Z * sse :=
  if negb (sse_event_state x =? SBI_SSE_STATE_UNUSED) then (SBI_EINVALID_STATE, w)
  else
    let a := attrs x in
    let x := set_attrs (mkAttrs (status a) (prio a) (config a) (hartid a)
                          (mkEntry handler_entry_pc handler_entry_arg) (interrupted a)) x in
    let x := sse_event_set_state x SBI_SSE_STATE_REGISTERED in
    (0, sse_event_invoke_cb x register_cb (CallRegister (event_id x)) (put_event e x w)).

Definition sse_event_unregister (e : eref) (x : sbi_sse_event) (w : sse) : Z * sse :=
  if negb (sse_event_state x =? SBI_SSE_STATE_REGISTERED) then (SBI_EINVALID_STATE, w)
  else
    let w := sse_event_invoke_cb x unregister_cb (CallUnregister (event_id x)) w in
    (0, put_event e (sse_event_set_state x SBI_SSE_STATE_UNUSED) w).

Definition sse_event_set_pending (e : eref) (x : sbi_sse_event) (w : sse) : Z * sse :=
  if negb (sse_event_state x =? SBI_SSE_STATE_RUNNING) &&
     negb (sse_event_state x =? SBI_SSE_STATE_ENABLED)
  then (SBI_EINVALID_STATE, w)
  else (SBI_OK, put_event e (set_status (Z.lor (status (attrs x)) (BIT PENDING_OFFSET)) x) w).

(** The result of the IPI is not looked at. *)
Definition sse_event_enable (e : eref) (x : sbi_sse_event) (w : sse) : option (Z * sse) :=
  if negb (sse_event_state x =? SBI_SSE_STATE_REGISTERED) then Some (SBI_EINVALID_STATE, w)
  else
    let x := sse_event_set_state x SBI_SSE_STATE_ENABLED in
    w ← sse_event_add_to_list e x (put_event e x w);
    let w := sse_event_invoke_cb x enable_cb (CallEnable (event_id x)) w in
    let w := if sse_event_is_global x && sse_event_pending x
             then log_call (CallIpi (hartid (attrs x))) w else w in
    Some (SBI_OK, w).

(** ** Injection and completion *)

Section Hart.
(** The calling hart, and whether it has the hypervisor extension. *)
Variables (self current_hartid : Z) (misa_H : bool).

Definition set_bits (b : bool) (mask v : Z) : Z := if b then Z.lor v mask else v.
Definition has_bits (v mask : Z) : bool := negb (Z.land v mask =? 0).

Definition sse_interrupted_flags (r : sse_regs) : Z :=
  let flags := 0 in
  let flags := set_bits (has_bits (mstatus r) MSTATUS_SPIE) FLAGS_STATUS_SPIE flags in
  let flags := set_bits (has_bits (mstatus r) MSTATUS_SPP) FLAGS_STATUS_SPP flags in
  if misa_H then
    let flags := set_bits (has_bits (hstatus r) HSTATUS_SPV) FLAGS_HSTATUS_SPV flags in
    set_bits (has_bits (hstatus r) HSTATUS_SPVP) FLAGS_HSTATUS_SPVP flags
  else flags.

Definition sse_event_inject (x : sbi_sse_event) (r : sse_regs) : sbi_sse_event * sse_regs :=
  let x := sse_event_set_state x SBI_SSE_STATE_RUNNING in
  let x := set_status (not64 (BIT PENDING_OFFSET)) x in
  let a := attrs x in
  let x := set_attrs (mkAttrs (status a) (prio a) (config a) (hartid a) (entry a)
                        (mkInt (sepc r) (sse_interrupted_flags r) (a6 r) (a7 r))) x in
  let ms := Z.land (mstatus r) (not64 (Z.lor MSTATUS_SPP MSTATUS_SPIE)) in
  let ms := set_bits (has_bits ms MSTATUS_MPP) MSTATUS_SPP ms in
  let ms := set_bits (has_bits ms MSTATUS_SIE) MSTATUS_SPIE ms in
  let hs :=
    if misa_H then
      let hs := set_bits (has_bits ms MSTATUS_MPV) HSTATUS_SPV (hstatus r) in
      let hs := Z.land hs (not64 HSTATUS_SPVP) in
      set_bits (has_bits hs HSTATUS_SPV && has_bits ms MSTATUS_SPP) HSTATUS_SPVP hs
    else hstatus r in
  let ms' := Z.land ms (not64 (Z.lor MSTATUS_MPP MSTATUS_SIE)) in
  let ms' := Z.lor ms' (u64 (Z.shiftl PRV_S MSTATUS_MPP_SHIFT)) in
  let ms' := Z.land ms' (not64 MSTATUS_MPV) in
  (x, mkRegs current_hartid (arg (entry (attrs x))) (pc (entry (attrs x))) ms' (mepc r) hs).

Definition sse_event_resume (x : sbi_sse_event) (r : sse_regs) : sse_regs :=
  let i_ctx := interrupted (attrs x) in
  let ms := Z.land (mstatus r) (not64 MSTATUS_MPP) in
  let ms := set_bits (has_bits ms MSTATUS_SPP) (u64 (Z.shiftl PRV_S MSTATUS_MPP_SHIFT)) ms in
  let '(ms, hs) :=
    if misa_H then
      let ms := Z.land ms (not64 MSTATUS_MPV) in
      let ms := set_bits (has_bits (hstatus r) HSTATUS_SPV) MSTATUS_MPV ms in
      let hs := Z.land (hstatus r) (not64 (Z.lor HSTATUS_SPV HSTATUS_SPVP)) in
      let hs := set_bits (has_bits (i_flags i_ctx) FLAGS_HSTATUS_SPV) HSTATUS_SPV hs in
      let hs := set_bits (has_bits (i_flags i_ctx) FLAGS_HSTATUS_SPVP) HSTATUS_SPVP hs in
      (ms, hs)
    else (ms, hstatus r) in
  let ms := Z.land ms (not64 MSTATUS_SIE) in
  let ms := set_bits (has_bits ms MSTATUS_SPIE) MSTATUS_SIE ms in
  let ms := Z.land ms (not64 MSTATUS_SPIE) in
  let ms := set_bits (has_bits (i_flags i_ctx) FLAGS_STATUS_SPIE) MSTATUS_SPIE ms in
  let ms := Z.land ms (not64 MSTATUS_SPP) in
  let ms := set_bits (has_bits (i_flags i_ctx) FLAGS_STATUS_SPP) MSTATUS_SPP ms in
  mkRegs (i_a6 i_ctx) (i_a7 i_ctx) (sepc r) ms (i_sepc i_ctx) hs.

Definition sse_event_is_ready (x : sbi_sse_event) : bool :=
  negb (negb (sse_event_pending x) || negb (sse_event_state x =? SBI_SSE_STATE_ENABLED) ||
        negb (hartid (attrs x) =? current_hartid)).

Definition sse_event_check_inject (e : eref) (w : sse) (r : sse_regs)
    : option (bool * (sse * sse_regs)) :=
  x ← events w !! e;
  if sse_event_state x =? SBI_SSE_STATE_RUNNING then Some (true, (w, r))
  else if sse_event_is_ready x then
    let '(x, r) := sse_event_inject x r in Some (true, (put_event e x w, r))
  else Some (false, (w, r)).

Fixpoint pending_loop (l : list eref) (w : sse) (r : sse_regs) : option (sse * sse_regs) :=
  match l with
  | [] => Some (w, r)
  | e :: l =>
      '(ret, (w, r)) ← sse_event_check_inject e w r;
      if ret : bool then Some (w, r) else pending_loop l w r
  end.

Definition sbi_sse_process_pending_events (w : sse) (r : sse_regs) : option (sse * sse_regs) :=
  state ← shs w !! self;
  if masked state then Some (w, r) else pending_loop (enabled_event_list state) w r.

(** The last component is [out->skip_regs_update]. *)
Definition sse_event_complete (e : eref) (x : sbi_sse_event) (w : sse) (r : sse_regs)
    : Z * (sse * sse_regs * bool) :=
  if negb (sse_event_state x =? SBI_SSE_STATE_RUNNING) then (SBI_EINVALID_STATE, (w, r, false))
  else if negb (hartid (attrs x) =? current_hartid) then (SBI_EINVAL, (w, r, false))
  else
    let x' := sse_event_set_state x SBI_SSE_STATE_ENABLED in
    let w := put_event e x' w in
    let w := if negb (Z.land (config (attrs x)) CONFIG_ONESHOT =? 0)
             then (sse_event_disable e x' w).2 else w in
    let w := sse_event_invoke_cb x complete_cb (CallComplete (event_id x)) w in
    (SBI_OK, (w, sse_event_resume x r, true)).

Fixpoint complete_loop (l : list eref) (w : sse) (r : sse_regs)
    : option (Z * (sse * sse_regs * bool)) :=
  match l with
  | [] => Some (SBI_OK, (w, r, false))
  | e :: l =>
      x ← events w !! e;
      if sse_event_state x =? SBI_SSE_STATE_RUNNING then Some (sse_event_complete e x w r)
      else complete_loop l w r
  end.

Definition sbi_sse_complete (w : sse) (r : sse_regs) : option (Z * (sse * sse_regs * bool)) :=
  state ← shs w !! self;
  complete_loop (enabled_event_list state) w r.

(** ** The operations on event identifiers *)

(** [ret = sse_event_get(event_id, &e); if (ret) return ret; ...] *)
Definition with_event (w : sse) (id : Z) (k : eref -> sbi_sse_event -> option (Z * sse))
    : option (Z * sse) :=
  r ← sse_event_get w self id;
  match r with
  | inl rc => Some (rc, w)
  | inr e => x ← events w !! e; k e x
  end.

Definition sbi_sse_enable (id : Z) (w : sse) : option (Z * sse) :=
  with_event w id (fun e x => sse_event_enable e x w).

Definition sbi_sse_disable (id : Z) (w : sse) : option (Z * sse) :=
  with_event w id (fun e x => Some (sse_event_disable e x w)).

Definition set_masked (b : bool) (s : sse_hart_state) : sse_hart_state :=
  mkShs (enabled_event_list s) b (inject_fifo s).

Definition sbi_sse_hart_mask (w : sse) : Z * sse :=
  match shs w !! self with
  | None => (SBI_EFAIL, w)
  | Some s => if masked s then (SBI_EALREADY_STOPPED, w) else (SBI_OK, put_shs self (set_masked true s) w)
  end.

Definition sbi_sse_hart_unmask (w : sse) : Z * sse :=
  match shs w !! self with
  | None => (SBI_EFAIL, w)
  | Some s =>
      if negb (masked s) then (SBI_EALREADY_STARTED, w) else (SBI_OK, put_shs self (set_masked false s) w)
  end.

(** *** Injection from software *)

Section Inject.
(** The domains, the harts, the domain of the calling hart and the result of an
    IPI to a hart. *)
Variables (ds : domain_state) (hw : hsm_world) (dom : Z) (ipi_rc : Z -> Z).

Definition set_fifo (f : F) (s : sse_hart_state) : sse_hart_state :=
  mkShs (enabled_event_list s) (masked s) f.

Definition sse_ipi_inject_send (hart id : Z) (w : sse) : option (Z * sse) :=
  idx ← sbi_hartid_to_hartindex (scr ds) (u32 hart);
  scratch ← sbi_hartindex_to_scratch (scr ds) idx;
  if scratch =? 0 then Some (SBI_EINVAL, w)
  else
    s ← shs w !! idx;
    let '(ret, f) := bq_enqueue (inject_fifo s) id false in
    let w := put_shs idx (set_fifo f s) w in
    if negb (ret =? 0) then Some (SBI_EFAIL, w)
    else
      let w := log_call (CallIpi hart) w in
      if negb (ipi_rc hart =? 0) then Some (SBI_EFAIL, w) else Some (SBI_OK, w).

Definition sse_inject_event (id hart : Z) (w : sse) : option (Z * sse) :=
  with_event w id (fun e x =>
    let hart := if sse_event_is_global x then hartid (attrs x) else hart in
    if negb (hart =? current_hartid) then sse_ipi_inject_send hart id w
    else
      let '(ret, w) := sse_event_set_pending e x w in
      if negb (ret =? 0) then Some (ret, w) else Some (SBI_OK, w)).

Definition sbi_sse_inject_from_ecall (id hart : Z) (w : sse) : option (Z * sse) :=
  idx ← sbi_hartid_to_hartindex (scr ds) (u32 hart);
  if negb (sbi_domain_is_assigned_hart ds dom idx) then Some (SBI_EINVAL, w)
  else sse_inject_event id hart w.

Definition sbi_sse_inject_event (id : Z) (w : sse) : option (Z * sse) :=
  sse_inject_event id current_hartid w.

(** The IPI handler: mark every queued event as pending. *)
Fixpoint sse_ipi_inject_process (fuel : nat) (w : sse) : option sse :=
  match fuel with
  | O => None
  | S fuel =>
      s ← shs w !! self;
      match bq_dequeue (inject_fifo s) with
      | (0, Some id, f) =>
          let w := put_shs self (set_fifo f s) w in
          r ← sse_event_get w self id;
          match r with
          | inl _ => sse_ipi_inject_process fuel w
          | inr e => x ← events w !! e; sse_ipi_inject_process fuel (sse_event_set_pending e x w).2
          end
      | (_, _, f) => Some (put_shs self (set_fifo f s) w)
      end
  end.

(** *** Attributes *)

Definition sse_event_set_hart_id_check (x : sbi_sse_event) (new_hartid : Z) : option Z :=
  let hart := u32 new_hartid in
  if negb (sse_event_is_global x) then Some SBI_EBAD_RANGE
  else
    idx ← sbi_hartid_to_hartindex (scr ds) hart;
    if negb (sbi_domain_is_assigned_hart ds dom idx) then Some SBI_EINVAL
    else
      hstate ← sbi_hsm_hart_get_state ds hw dom hart;
      if negb (hstate =? SBI_HSM_STATE_STARTED) then Some SBI_EINVAL else Some SBI_OK.

Definition INTERRUPTED_FLAGS_MASK : Z :=
  Z.lor FLAGS_STATUS_SPP (Z.lor FLAGS_STATUS_SPIE (Z.lor FLAGS_HSTATUS_SPV FLAGS_HSTATUS_SPVP)).

Definition interrupted_attr_check (x : sbi_sse_event) : Z :=
  if negb (sse_event_state x =? SBI_SSE_STATE_RUNNING) then SBI_EINVALID_STATE
  else if negb (current_hartid =? hartid (attrs x)) then SBI_EINVAL
  else SBI_OK.

Definition sse_event_set_attr_check (x : sbi_sse_event) (attr_id val : Z) : option Z :=
  if attr_id =? SBI_SSE_ATTR_CONFIG then
    if SBI_SSE_STATE_ENABLED <=? sse_event_state x then Some SBI_EINVALID_STATE
    else if negb (Z.land val (not64 CONFIG_ONESHOT) =? 0) then Some SBI_EINVAL
    else Some SBI_OK
  else if attr_id =? SBI_SSE_ATTR_PRIO then
    if SBI_SSE_STATE_ENABLED <=? sse_event_state x then Some SBI_EINVALID_STATE
    else if negb (val =? u32 val) then Some SBI_EINVAL
    else Some SBI_OK
  else if attr_id =? SBI_SSE_ATTR_PREFERRED_HART then
    if SBI_SSE_STATE_ENABLED <=? sse_event_state x then Some SBI_EINVALID_STATE
    else sse_event_set_hart_id_check x val
  else if attr_id =? SBI_SSE_ATTR_INTERRUPTED_FLAGS then
    if negb (Z.land val (not64 INTERRUPTED_FLAGS_MASK) =? 0) then Some SBI_EINVAL
    else Some (interrupted_attr_check x)
  else if (attr_id =? SBI_SSE_ATTR_INTERRUPTED_SEPC) || (attr_id =? SBI_SSE_ATTR_INTERRUPTED_A6) ||
          (attr_id =? SBI_SSE_ATTR_INTERRUPTED_A7)
  then Some (interrupted_attr_check x)
  else Some SBI_EBAD_RANGE.

Definition set_interrupted (i : sse_interrupted_state) (x : sbi_sse_event) : sbi_sse_event :=
  let a := attrs x in
  set_attrs (mkAttrs (status a) (prio a) (config a) (hartid a) (entry a) i) x.

Definition sse_event_set_attr (e : eref) (x : sbi_sse_event) (attr_id val : Z) (w : sse)
    : option sse :=
  let a := attrs x in
  let i := interrupted a in
  if attr_id =? SBI_SSE_ATTR_CONFIG then
    Some (put_event e (set_attrs (mkAttrs (status a) (prio a) val (hartid a) (entry a) i) x) w)
  else if attr_id =? SBI_SSE_ATTR_PRIO then
    Some (put_event e (set_attrs (mkAttrs (status a) (u32 val) (config a) (hartid a) (entry a) i) x) w)
  else if attr_id =? SBI_SSE_ATTR_PREFERRED_HART then
    idx ← sbi_hartid_to_hartindex (scr ds) (u32 val);
    let x := mkEvent (mkAttrs (status a) (prio a) (config a) val (entry a) i) (event_id x) idx (info x) in
    Some (sse_event_invoke_cb x set_hartid_cb (CallSetHartid (event_id x) val) (put_event e x w))
  else if attr_id =? SBI_SSE_ATTR_INTERRUPTED_SEPC then
    Some (put_event e (set_interrupted (mkInt val (i_flags i) (i_a6 i) (i_a7 i)) x) w)
  else if attr_id =? SBI_SSE_ATTR_INTERRUPTED_FLAGS then
    Some (put_event e (set_interrupted (mkInt (i_sepc i) val (i_a6 i) (i_a7 i)) x) w)
  else if attr_id =? SBI_SSE_ATTR_INTERRUPTED_A6 then
    Some (put_event e (set_interrupted (mkInt (i_sepc i) (i_flags i) val (i_a7 i)) x) w)
  else if attr_id =? SBI_SSE_ATTR_INTERRUPTED_A7 then
    Some (put_event e (set_interrupted (mkInt (i_sepc i) (i_flags i) (i_a6 i) val) x) w)
  else Some w.

Definition sbi_sse_attr_check (base_attr_id attr_count phys_lo phys_hi access : Z) : option Z :=
  let end_id := u64 (base_attr_id + u32 (attr_count - 1)) in
  if attr_count =? 0 then Some SBI_EINVAL
  else if SBI_SSE_ATTR_MAX <=? end_id then Some SBI_EBAD_RANGE
  else if negb (Z.land phys_lo 7 =? 0) then Some SBI_EINVALID_ADDR
  else if negb (phys_hi =? 0) then Some SBI_EINVALID_ADDR
  else
    ok ← sbi_domain_check_addr_range (domains ds !! dom) phys_lo (8 * attr_count) PRV_S access;
    if negb ok then Some SBI_EINVALID_ADDR else Some SBI_OK.

(** The attributes as the words of the structure. *)
Definition attr_words (a : sbi_sse_event_attrs) : list Z :=
  [status a; prio a; config a; hartid a; pc (entry a); arg (entry a);
   i_sepc (interrupted a); i_flags (interrupted a); i_a6 (interrupted a); i_a7 (interrupted a)].

Fixpoint copy_attrs (m : mem) (out : Z) (l : list Z) : mem :=
  match l with
  | [] => m
  | v :: l => copy_attrs (store_le m out 8 v) (out + 8) l
  end.

(** The state a call works on: the events, the supervisor memory and the PMP of
    the hart, through whose window the memory is reached. *)
Definition call_state : Type := sse * mem * Hw.pmp.

(** The PMP of the hart: its feature record and address bits. *)
Variables (hf : sbi_hart_features) (bits : Z).

Definition sbi_sse_read_attrs (id base_attr_id attr_count output_phys_lo output_phys_hi : Z)
    (st : call_state) : option (Z * call_state) :=
  let '(w, m, p) := st in
  ret ← sbi_sse_attr_check base_attr_id attr_count output_phys_lo output_phys_hi SBI_DOMAIN_WRITE;
  if negb (ret =? 0) then Some (ret, st)
  else
    r ← sse_event_get w self id;
    match r with
    | inl rc => Some (rc, st)
    | inr e =>
        x ← events w !! e;
        '(_, p) ← sbi_hart_map_saddr bits hf output_phys_lo (8 * attr_count) p;
        let words := take (Z.to_nat attr_count) (drop (Z.to_nat base_attr_id) (attr_words (attrs x))) in
        let m := copy_attrs m output_phys_lo words in
        let '(_, p) := sbi_hart_unmap_saddr bits hf p in
        Some (SBI_OK, (w, m, p))
    end.

(** First all values are checked, then all are set. *)
Fixpoint check_attrs (x : sbi_sse_event) (id : Z) (l : list Z) : option Z :=
  match l with
  | [] => Some 0
  | v :: l =>
      ret ← sse_event_set_attr_check x id v;
      if negb (ret =? 0) then Some ret else check_attrs x (id + 1) l
  end.

Fixpoint write_attrs (e : eref) (id : Z) (l : list Z) (w : sse) : option sse :=
  match l with
  | [] => Some w
  | v :: l =>
      x ← events w !! e;
      w ← sse_event_set_attr e x id v w;
      write_attrs e (id + 1) l w
  end.

Definition read_words (m : mem) (a : Z) (n : nat) : list Z :=
  (fun i => load_le m (a + 8 * Z.of_nat i) 8) <$> seq 0 n.

(** The values are read from supervisor memory twice: [m2] is what the memory
    holds the second time, after other harts had the chance to write it. *)
Definition sse_write_attrs (e : eref) (x : sbi_sse_event) (base_attr_id attr_count input_phys : Z)
    (m2 : mem) (st : call_state) : option (Z * call_state) :=
  let '(w, m, p) := st in
  let n := Z.to_nat (u32 (base_attr_id + attr_count) - base_attr_id) in
  '(_, p) ← sbi_hart_map_saddr bits hf input_phys (8 * attr_count) p;
  ret ← check_attrs x base_attr_id (read_words m input_phys n);
  w ← (if negb (ret =? 0) then Some w else write_attrs e base_attr_id (read_words m2 input_phys n) w);
  let '(_, p) := sbi_hart_unmap_saddr bits hf p in
  Some (ret, (w, m2, p)).

Definition sbi_sse_write_attrs (id base_attr_id attr_count input_phys_lo input_phys_hi : Z)
    (m2 : mem) (st : call_state) : option (Z * call_state) :=
  let '(w, m, p) := st in
  ret ← sbi_sse_attr_check base_attr_id attr_count input_phys_lo input_phys_hi SBI_DOMAIN_READ;
  if negb (ret =? 0) then Some (ret, st)
  else
    r ← sse_event_get w self id;
    match r with
    | inl rc => Some (rc, st)
    | inr e => x ← events w !! e; sse_write_attrs e x base_attr_id attr_count input_phys_lo m2 st
    end.

(** *** Registration *)

Definition sbi_sse_register (id handler_entry_pc handler_entry_arg : Z) (w : sse) : option (Z * sse) :=
  if negb (Z.land handler_entry_pc 1 =? 0) then Some (SBI_EINVAL, w)
  else
    ok ← sbi_domain_check_addr_range (domains ds !! dom) handler_entry_pc 8 PRV_S SBI_DOMAIN_EXECUTE;
    if negb ok then Some (SBI_EINVALID_ADDR, w)
    else with_event w id (fun e x => Some (sse_event_register e x handler_entry_pc handler_entry_arg w)).

Definition sbi_sse_unregister (id : Z) (w : sse) : option (Z * sse) :=
  with_event w id (fun e x => Some (sse_event_unregister e x w)).

(** [allocated]: the result of [sbi_zalloc] is not NULL. *)
Definition sbi_sse_add_event (allocated : bool) (id : Z) (ops : option sbi_sse_cb_ops) (w : sse)
    : Z * sse :=
  match sse_event_info_get w id with
  | Some _ => (SBI_EINVAL, w)
  | None =>
      if match ops with Some o => set_hartid_cb o && negb (EVENT_IS_GLOBAL id) | None => false end
      then (SBI_EINVAL, w)
      else if negb allocated then (SBI_ENOMEM, w)
      else (SBI_OK, mkSse (events w) (global_event_count w) (local_event_count w) (shs w)
                      (mkInfo id ops :: supported_events w) (sse_log w))
  end.

(** *** Start-up and exit of a hart *)

Definition zero_event : sbi_sse_event :=
  mkEvent (mkAttrs 0 0 0 0 (mkEntry 0 0) (mkInt 0 0 0 0)) 0 0 (mkInfo 0 None).

Definition sse_event_init (i : sse_event_info) (x : sbi_sse_event) : sbi_sse_event :=
  let a := attrs x in
  mkEvent (mkAttrs (Z.lor (status a) (BIT INJECT_OFFSET)) (prio a) (config a) current_hartid (entry a)
             (interrupted a)) (info_event_id i) self i.

Definition sse_event_count_init (w : sse) : sse :=
  let g := List.filter (fun i => EVENT_IS_GLOBAL (info_event_id i)) (supported_events w) in
  let l := List.filter (fun i => negb (EVENT_IS_GLOBAL (info_event_id i))) (supported_events w) in
  mkSse (events w) (global_event_count w + Z.of_nat (length g))
    (local_event_count w + Z.of_nat (length l)) (shs w) (supported_events w) (sse_log w).

(** Initialise the slots of one array in the order of the supported events;
    [fresh] events come from zeroed memory. *)
Fixpoint init_slots (fresh : bool) (slot : nat -> eref) (ev : nat) (l : list sse_event_info) (w : sse)
    : option sse :=
  match l with
  | [] => Some w
  | i :: l =>
      x ← (if fresh then Some zero_event else events w !! slot ev);
      init_slots fresh slot (S ev) l (put_event (slot ev) (sse_event_init i x) w)
  end.

Definition sse_global_init (allocated : bool) (w : sse) : option (Z * sse) :=
  if negb allocated then Some (SBI_ENOMEM, w)
  else
    w ← init_slots true EGlobal 0
          (List.filter (fun i => EVENT_IS_GLOBAL (info_event_id i)) (supported_events w)) w;
    Some (0, w).

(** [fresh]: the hart's state was allocated by this call. *)
Definition sse_local_init (fresh : bool) (w : sse) : option sse :=
  s ← shs w !! self;
  init_slots fresh (ELocal self) 0
    (List.filter (fun i => negb (EVENT_IS_GLOBAL (info_event_id i))) (supported_events w))
    (put_shs self (mkShs [] (masked s) (inject_fifo s)) w).

(** The results of the allocations of [sbi_sse_init], in program order, the IPI
    event, and the empty queue. *)
Record init_results := mkInit {
  got_global : bool; got_shs_off : bool; got_fifo_off : bool; got_fifo_mem : bool;
  ipi_event : Z; got_shs : bool; empty_fifo : F }.

Definition sbi_sse_init (cold_boot : bool) (o : init_results) (w : sse) : option (Z * sse) :=
  '(rc, w) ← (if cold_boot then
      let w := sse_event_count_init w in
      '(ret, w) ← sse_global_init (got_global o) w;
      if negb (ret =? 0) then Some (ret, w)
      else if negb (got_shs_off o) then Some (SBI_ENOMEM, w)
      else if negb (got_fifo_off o) then Some (SBI_ENOMEM, w)
      else if negb (got_fifo_mem o) then Some (SBI_ENOMEM, w)
      else if ipi_event o <? 0 then Some (ipi_event o, w)
      else Some (0, w)
    else Some (0, w));
  if negb (rc =? 0) then Some (rc, w)
  else
    let fresh := match shs w !! self with Some _ => false | None => true end in
    if fresh && negb (got_shs o) then Some (SBI_ENOMEM, w)
    else
      let w := if fresh then put_shs self (mkShs [] true (empty_fifo o)) w else w in
      w ← sse_local_init fresh w;
      s ← shs w !! self;
      Some (0, put_shs self (set_fifo (empty_fifo o) s) w).

Fixpoint sse_exit_loop (l : list sse_event_info) (w : sse) : option sse :=
  match l with
  | [] => Some w
  | i :: l =>
      r ← sse_event_get w self (info_event_id i);
      match r with
      | inl _ => sse_exit_loop l w
      | inr e =>
          x ← events w !! e;
          if negb (hartid (attrs x) =? current_hartid) then sse_exit_loop l w
          else if SBI_SSE_STATE_REGISTERED <? sse_event_state x
          then sse_exit_loop l (put_event e (sse_event_set_state x SBI_SSE_STATE_UNUSED) w)
          else sse_exit_loop l w
      end
  end.

Definition sbi_sse_exit (w : sse) : option sse := sse_exit_loop (supported_events w) w.

(** ** The supervisor call (lib/sbi/sbi_ecall_sse.c) *)

Definition SBI_EXT_SSE_READ_ATTR : Z := 0.
Definition SBI_EXT_SSE_WRITE_ATTR : Z := 1.
Definition SBI_EXT_SSE_REGISTER : Z := 2.
Definition SBI_EXT_SSE_UNREGISTER : Z := 3.
Definition SBI_EXT_SSE_ENABLE : Z := 4.
Definition SBI_EXT_SSE_DISABLE : Z := 5.
Definition SBI_EXT_SSE_COMPLETE : Z := 6.
Definition SBI_EXT_SSE_INJECT : Z := 7.
Definition SBI_EXT_SSE_HART_UNMASK : Z := 8.
Definition SBI_EXT_SSE_HART_MASK : Z := 9.

(** Everything a call may change. *)
Record machine := mkMachine { m_sse : sse; m_mem : mem; m_pmp : Hw.pmp; m_regs : sse_regs }.

Definition put_sse (st : machine) (r : Z * sse) : Z * machine :=
  (r.1, mkMachine r.2 (m_mem st) (m_pmp st) (m_regs st)).

Definition put_call (st : machine) (r : Z * call_state) : Z * machine :=
  let '(rc, (w, m, p)) := r in (rc, mkMachine w m p (m_regs st)).

(** The registers [a0] to [a4] as the callees' parameter types take them; [m2]
    as in [sse_write_attrs]. *)
Definition sbi_ecall_sse_handler (funcid a0 a1 a2 a3 a4 : Z) (m2 : mem) (st : machine)
    : option (Z * machine) :=
  let w := m_sse st in
  let call := (w, m_mem st, m_pmp st) in
  if funcid =? SBI_EXT_SSE_READ_ATTR then
    put_call st <$> sbi_sse_read_attrs (u32 a0) (u32 a1) (u32 a2) a3 a4 call
  else if funcid =? SBI_EXT_SSE_WRITE_ATTR then
    put_call st <$> sbi_sse_write_attrs (u32 a0) (u32 a1) (u32 a2) a3 a4 m2 call
  else if funcid =? SBI_EXT_SSE_REGISTER then put_sse st <$> sbi_sse_register (u32 a0) a1 a2 w
  else if funcid =? SBI_EXT_SSE_UNREGISTER then put_sse st <$> sbi_sse_unregister (u32 a0) w
  else if funcid =? SBI_EXT_SSE_ENABLE then put_sse st <$> sbi_sse_enable (u32 a0) w
  else if funcid =? SBI_EXT_SSE_DISABLE then put_sse st <$> sbi_sse_disable (u32 a0) w
  else if funcid =? SBI_EXT_SSE_COMPLETE then
    '(rc, (w, r, _)) ← sbi_sse_complete w (m_regs st);
    Some (rc, mkMachine w (m_mem st) (m_pmp st) r)
  else if funcid =? SBI_EXT_SSE_INJECT then put_sse st <$> sbi_sse_inject_from_ecall (u32 a0) a1 w
  else if funcid =? SBI_EXT_SSE_HART_MASK then Some (put_sse st (sbi_sse_hart_mask w))
  else if funcid =? SBI_EXT_SSE_HART_UNMASK then Some (put_sse st (sbi_sse_hart_unmask w))
  else Some (SBI_ENOTSUPP, st).

End Inject.
End Hart.
End Sse.
