(* ===== verification/SbiSseInv.v ===== *)
(** * Supervisor software events: invariant and nesting

    The lists of enabled events hold exactly the enabled events of each hart, in
    order of priority, and the events that run on a hart form a stack. *)

From S2P Require Import Prelude SbiString SbiFifo SbiHeap SbiBitops SbiScratch SbiHartmask SbiMemregion SbiDomain SbiHsm SbiHart SbiPmp SbiPmpRoot SbiSse.

Section Inv.
Context {F : Type} `{!BoundedQueue F Z}.
Notation sse := (@sse F).

(** The hart identifier of each hart. *)
Variable hid : Z -> Z.

Definition is_enabled (x : sbi_sse_event) : bool := SBI_SSE_STATE_ENABLED <=? sse_event_state x.
Definition is_running (x : sbi_sse_event) : bool := sse_event_state x =? SBI_SSE_STATE_RUNNING.

(** [a] may stand before [b] in a list. *)
Definition in_order (w : sse) (a b : eref) : Prop :=
  forall xa xb, events w !! a = Some xa -> events w !! b = Some xb -> event_before xb xa = false.

Definition on_list (w : sse) (h : Z) (e : eref) : Prop :=
  exists x, events w !! e = Some x /\ is_enabled x = true /\ hartindex x = h.

Definition slot_ok (e : eref) (x : sbi_sse_event) : Prop :=
  match e with
  | EGlobal _ => EVENT_IS_GLOBAL (event_id x) = true
  | ELocal h _ => EVENT_IS_GLOBAL (event_id x) = false /\ hartindex x = h
  end.

(** A running event runs on the hart it is meant for. *)
Definition event_ok (e : eref) (x : sbi_sse_event) : Prop :=
  slot_ok e x /\ (is_running x = true -> hartid (attrs x) = hid (hartindex x)).

Record sse_wf (w : sse) : Prop := {
  wf_event e x : events w !! e = Some x -> event_ok e x;
  wf_home e x : events w !! e = Some x -> is_Some (shs w !! hartindex x);
  wf_nodup h s : shs w !! h = Some s -> NoDup (enabled_event_list s);
  wf_sorted h s : shs w !! h = Some s -> StronglySorted (in_order w) (enabled_event_list s);
  wf_mem h s e : shs w !! h = Some s -> e ∈ enabled_event_list s <-> on_list w h e;
}.

(** ** State bits *)

Lemma state_range x : 0 <= sse_event_state x < 4.
Proof.
  unfold sse_event_state, STATE_MASK. change 3 with (Z.ones 2). rewrite Z.land_ones by lia.
  by apply Z.mod_pos_bound.
Qed.

Lemma set_state_state x s : 0 <= s < 4 -> sse_event_state (sse_event_set_state x s) = s.
Proof.
  intros Hs. unfold sse_event_state, sse_event_set_state, set_status, STATE_MASK. cbn.
  rewrite Z.land_lor_distr_l, <- Z.land_assoc. change (Z.land (not64 3) 3) with 0.
  rewrite Z.land_0_r, Z.lor_0_l. change 3 with (Z.ones 2). rewrite Z.land_ones by lia.
  by apply Z.mod_small.
Qed.

Lemma set_pending_state x :
  sse_event_state (set_status (Z.lor (status (attrs x)) (BIT PENDING_OFFSET)) x) = sse_event_state x.
Proof.
  unfold sse_event_state, set_status, STATE_MASK. cbn.
  rewrite Z.land_lor_distr_l. change (Z.land (BIT PENDING_OFFSET) 3) with 0. apply Z.lor_0_r.
Qed.

Lemma inject_state c H x r : sse_event_state (sse_event_inject c H x r).1 = SBI_SSE_STATE_RUNNING.
Proof. reflexivity. Qed.

(** ** Updating one event *)

Lemma put_event_lookup e x (w : sse) e' :
  events (put_event e x w) !! e' = if bool_decide (e = e') then Some x else events w !! e'.
Proof. cbn. rewrite lookup_insert. by case_bool_decide; case_decide. Qed.

(** What a list sees of an event. *)
Definition same_key (x x' : sbi_sse_event) : Prop :=
  prio (attrs x') = prio (attrs x) /\ event_id x' = event_id x /\ hartindex x' = hartindex x.

Lemma event_before_key x x' y y' :
  same_key x x' -> same_key y y' -> event_before x' y' = event_before x y.
Proof. intros (E1 & E2 & _) (E3 & E4 & _). unfold event_before. by rewrite E1, E2, E3, E4. Qed.

Lemma same_key_refl x : same_key x x.
Proof. done. Qed.

Lemma sorted_ext (R R' : eref -> eref -> Prop) l :
  (forall a b, a ∈ l -> b ∈ l -> R a b -> R' a b) -> StronglySorted R l -> StronglySorted R' l.
Proof.
  intros HR Hs. induction Hs as [|a l Hs IH Ha]; constructor.
  - apply IH. intros b c Hb Hc. apply HR; by right.
  - rewrite List.Forall_forall in *. intros b Hb. apply HR; [by left|right; by apply list_elem_of_In|auto].
Qed.

Lemma wf_put_same e x x' (w : sse) :
  sse_wf w -> events w !! e = Some x -> same_key x x' -> is_enabled x' = is_enabled x ->
  event_ok e x' -> sse_wf (put_event e x' w).
Proof.
  intros [We Wh Wn Ws Wm] He Hk Hen Hok. pose proof Hk as (_ & _ & Hh). split.
  - intros e' y. rewrite put_event_lookup. case_bool_decide; intros ?; simplify_eq; [done|by apply We].
  - intros e' y. rewrite put_event_lookup. case_bool_decide; intros ?; simplify_eq; [|by apply (Wh e')].
    rewrite Hh. by apply (Wh e').
  - apply Wn.
  - intros h s Hs. eapply sorted_ext; [|by apply (Ws h)]. intros a b _ _ Hab xa xb.
    rewrite !put_event_lookup. repeat case_bool_decide; subst; intros Ea Eb;
      try (injection Ea as <-); try (injection Eb as <-).
    + rewrite (event_before_key x x' x x') by done. by apply (Hab x x).
    + rewrite (event_before_key xb xb x x') by done. by apply Hab.
    + rewrite (event_before_key x x' xa xa) by done. by apply Hab.
    + by apply Hab.
  - intros h s e' Hs. cbn in Hs. rewrite (Wm h s e' Hs). unfold on_list.
    setoid_rewrite put_event_lookup. case_bool_decide as E; [subst e'|done].
    split; intros (y & Hy & H1 & H2); simplify_eq; eexists; (split; [done|]); split; congruence.
Qed.

Lemma wf_put_off e x x' (w : sse) :
  sse_wf w -> events w !! e = Some x -> is_enabled x = false -> is_enabled x' = false ->
  event_ok e x' -> is_Some (shs w !! hartindex x') -> sse_wf (put_event e x' w).
Proof.
  intros [We Wh Wn Ws Wm] He Hoff Hoff' Hok Hhome.
  assert (forall h s, shs w !! h = Some s -> e ∉ enabled_event_list s) as Hnot.
  { intros h s Hs Hin. apply (Wm h s e Hs) in Hin as (y & Hy & Hen & _). congruence. }
  split.
  - intros e' y. rewrite put_event_lookup. case_bool_decide; intros ?; simplify_eq; [done|by apply We].
  - intros e' y. rewrite put_event_lookup. case_bool_decide; intros Ey; [|by apply (Wh e')].
    by injection Ey as <-.
  - apply Wn.
  - intros h s Hs. eapply sorted_ext; [|by apply (Ws h)]. intros a b Ha Hb Hab xa xb.
    rewrite !put_event_lookup. rewrite !bool_decide_eq_false_2; [by apply Hab|..];
      intros ->; by eapply Hnot.
  - intros h s e' Hs. cbn in Hs. rewrite (Wm h s e' Hs). unfold on_list.
    setoid_rewrite put_event_lookup. case_bool_decide as E; [subst e'|done].
    split; intros (y & Hy & H1 & H2); simplify_eq; congruence.
Qed.

(** ** Changes outside the events and lists *)

(** Two states that agree on the events and on the lists. *)
Definition same_lists (w w' : sse) : Prop :=
  events w' = events w /\
  (forall h, enabled_event_list <$> shs w' !! h = enabled_event_list <$> shs w !! h).

Lemma wf_same_lists w w' : same_lists w w' -> sse_wf w -> sse_wf w'.
Proof.
  intros [He Hl] [We Wh Wn Ws Wm].
  assert (forall h s', shs w' !! h = Some s' -> exists s, shs w !! h = Some s /\
            enabled_event_list s' = enabled_event_list s) as Hback.
  { intros h s' Hs. specialize (Hl h). rewrite Hs in Hl. cbn in Hl.
    destruct (shs w !! h) as [s|]; cbn in Hl; [|done]. exists s. split; [done|]. congruence. }
  assert (forall a b, in_order w a b -> in_order w' a b) as Hio by (unfold in_order; by rewrite He).
  split.
  - rewrite He. apply We.
  - rewrite He. intros e x Hx. specialize (Wh e x Hx) as [s Hs]. specialize (Hl (hartindex x)).
    rewrite Hs in Hl. destruct (shs w' !! hartindex x); [by eexists|done].
  - intros h s' (s & Hs & ->)%Hback. by apply (Wn h).
  - intros h s' (s & Hs & ->)%Hback. eapply sorted_ext; [|by apply (Ws h)]. auto.
  - intros h s' e (s & Hs & ->)%Hback. unfold on_list. rewrite He. by apply Wm.
Qed.

Lemma same_lists_log c (w : sse) : same_lists w (log_call c w).
Proof. done. Qed.

Lemma same_lists_cb x has c (w : sse) : same_lists w (sse_event_invoke_cb x has c w).
Proof.
  unfold sse_event_invoke_cb. destruct (cb_ops (info x)) as [ops|]; [destruct (has ops)|]; done.
Qed.

Lemma same_lists_shs h s s' (w : sse) :
  shs w !! h = Some s -> enabled_event_list s' = enabled_event_list s ->
  same_lists w (put_shs h s' w).
Proof.
  intros Hs E. split; [done|]. intros k. cbn. destruct (decide (h = k)) as [-> |].
  - rewrite lookup_insert_eq, Hs. cbn. by rewrite E.
  - by rewrite lookup_insert_ne.
Qed.

Lemma same_lists_home w w' h : same_lists w w' -> is_Some (shs w !! h) -> is_Some (shs w' !! h).
Proof.
  intros [_ Hl] [s Hs]. specialize (Hl h). rewrite Hs in Hl.
  destruct (shs w' !! h); [by eexists|done].
Qed.

Lemma same_lists_trans w1 w2 w3 : same_lists w1 w2 -> same_lists w2 w3 -> same_lists w1 w3.
Proof. intros [E1 L1] [E2 L2]. split; [congruence|]. intros h. by rewrite L2. Qed.

(** ** Entering and leaving a list *)

Lemma event_before_spec x y : event_before x y = true <->
  prio (attrs x) < prio (attrs y) \/ (prio (attrs x) = prio (attrs y) /\ event_id x < event_id y).
Proof.
  unfold event_before. rewrite orb_true_iff, andb_true_iff, !Z.ltb_lt, Z.eqb_eq. done.
Qed.

Lemma event_before_trans x y z :
  event_before x y = true -> event_before y z = true -> event_before x z = true.
Proof. rewrite !event_before_spec. lia. Qed.

Lemma event_before_asym x y : event_before x y = true -> event_before y x = false.
Proof. intros H%event_before_spec. apply not_true_iff_false. rewrite event_before_spec. lia. Qed.

Lemma insert_event_total (w : sse) e x l :
  (forall t, t ∈ l -> is_Some (events w !! t)) -> exists l', insert_event w e x l = Some l'.
Proof.
  induction l as [|t l IH]; intros H; cbn; [by eexists|].
  destruct (H t) as [xt ->]; [by left|]. rewrite some_bind.
  destruct (event_before x xt); [by eexists|]. destruct IH as [l' ->]; [|by eexists].
  intros t' Ht. apply H. by right.
Qed.

Lemma insert_event_spec (w : sse) e x l l' :
  insert_event w e x l = Some l' -> exists l1 l2, l = l1 ++ l2 /\ l' = l1 ++ e :: l2 /\
    (forall a xa, a ∈ l1 -> events w !! a = Some xa -> event_before x xa = false) /\
    (forall t l3, l2 = t :: l3 -> exists xt, events w !! t = Some xt /\ event_before x xt = true).
Proof.
  revert l'. induction l as [|t l IH]; cbn; intros l' H.
  - simplify_eq. exists [], []. split; [done|]. split; [done|]. split; [|done].
    intros a xa Ha. by apply elem_of_nil in Ha.
  - destruct (events w !! t) as [xt|] eqn:Et; [|done]. rewrite some_bind in H.
    destruct (event_before x xt) eqn:Eb.
    + simplify_eq. exists [], (t :: l). split; [done|]. split; [done|]. split.
      * intros a xa Ha. by apply elem_of_nil in Ha.
      * intros ? ? [= <- <-]. eauto.
    + destruct (insert_event w e x l) as [m|]; [|done]. rewrite some_bind in H. simplify_eq.
      destruct (IH m eq_refl) as (l1 & l2 & -> & -> & H1 & H2). exists (t :: l1), l2.
      split; [done|]. split; [done|]. split; [|done].
      intros a xa [-> |Ha]%elem_of_cons Hxa; [congruence|by eapply H1].
Qed.

Lemma sorted_app_cons R l1 (e : eref) l2 :
  StronglySorted R (l1 ++ l2) -> (forall a, a ∈ l1 -> R a e) -> (forall b, b ∈ l2 -> R e b) ->
  StronglySorted R (l1 ++ e :: l2).
Proof.
  induction l1 as [|a l1 IH]; cbn; intros Hs H1 H2.
  - constructor; [done|]. apply List.Forall_forall. intros b Hb. by apply H2, list_elem_of_In.
  - apply StronglySorted_inv in Hs as [Hs Ha]. constructor.
    + apply IH; [done| |done]. intros b Hb. apply H1. by right.
    + apply Forall_app in Ha as [Ha1 Ha2]. apply Forall_app. split; [done|].
      constructor; [apply H1; by left|done].
Qed.

Lemma wf_in_events w h s t : sse_wf w -> shs w !! h = Some s -> t ∈ enabled_event_list s ->
  exists x, events w !! t = Some x /\ is_enabled x = true /\ hartindex x = h.
Proof. intros W Hs Ht. by apply (wf_mem w W h s t Hs) in Ht. Qed.

(** An event that is not enabled becomes enabled and takes its place. *)
Lemma wf_enable e x x' s l (w : sse) :
  sse_wf w -> events w !! e = Some x -> is_enabled x = false -> is_enabled x' = true ->
  same_key x x' -> event_ok e x' -> shs w !! hartindex x = Some s ->
  insert_event (put_event e x' w) e x' (enabled_event_list s) = Some l ->
  sse_wf (put_shs (hartindex x) (mkShs l (masked s) (inject_fifo s)) (put_event e x' w)).
Proof.
  intros W He Hoff Hon Hk Hok Hs Hins. pose proof Hk as (_ & _ & Hh).
  assert (forall h s, shs w !! h = Some s -> e ∉ enabled_event_list s) as Hnot.
  { intros h s' Hs' Hin. destruct (wf_in_events w h s' e W Hs' Hin) as (y & Hy & Hen & _). congruence. }
  destruct (insert_event_spec _ _ _ _ _ Hins) as (l1 & l2 & El & -> & H1 & H2).
  assert (forall t, t <> e -> events (put_event e x' w) !! t = events w !! t) as Hother.
  { intros t Ht. rewrite put_event_lookup. by rewrite bool_decide_eq_false_2. }
  assert (forall t, t ∈ l1 ++ l2 -> t <> e) as Hne.
  { intros t Ht ->. apply (Hnot _ s Hs). by rewrite El. }
  destruct W as [We Wh Wn Ws Wm]. split.
  - intros e' y. cbn [events put_shs]. rewrite put_event_lookup.
    case_bool_decide; intros ?; simplify_eq; [done|by apply We].
  - intros e' y. cbn [events put_shs shs]. rewrite put_event_lookup. intros Hy.
    assert (is_Some (shs w !! hartindex y)) as Hsome.
    { case_bool_decide; [|by apply (Wh e')]. injection Hy as <-. rewrite Hh, Hs. by eexists. }
    cbn. destruct (decide (hartindex x = hartindex y)) as [<- |]; [rewrite lookup_insert_eq; by eexists|].
    by rewrite lookup_insert_ne.
  - intros h s'. cbn. destruct (decide (hartindex x = h)) as [<- |]; [|rewrite lookup_insert_ne by done; apply Wn].
    rewrite lookup_insert_eq. intros [= <-]. cbn. specialize (Wn _ s Hs). rewrite El in Wn.
    apply NoDup_Permutation_proper with (e :: l1 ++ l2); [apply Permutation_sym, Permutation_middle|].
    constructor; [|done]. intros Hin. by apply (Hne e).
  - intros h s'. cbn [shs put_shs put_event]. destruct (decide (hartindex x = h)) as [<- |Hhne].
    + rewrite lookup_insert_eq. intros [= <-]. cbn [enabled_event_list].
      specialize (Ws _ s Hs). rewrite El in Ws. apply sorted_app_cons.
      * eapply sorted_ext; [|exact Ws]. intros a b Ha Hb Hab xa xb. cbn [events put_shs].
        rewrite !Hother by (by apply Hne). apply Hab.
      * intros a Ha xa xb. cbn [events put_shs]. intros Hxa.
        rewrite put_event_lookup, bool_decide_eq_true_2 by done. intros [= <-]. by apply (H1 a).
      * intros b Hb xa xb. cbn [events put_shs]. rewrite put_event_lookup, bool_decide_eq_true_2 by done.
        intros [= <-] Hxb. destruct l2 as [|t l3]; [by apply elem_of_nil in Hb|].
        destruct (H2 t l3 eq_refl) as (xt & Hxt & Hbt).
        apply elem_of_cons in Hb as [-> |Hb]; [simplify_eq; by apply event_before_asym|].
        apply not_true_iff_false. intros Hlt.
        apply StronglySorted_app_1_r in Ws. apply StronglySorted_inv in Ws as [_ Ws].
        rewrite List.Forall_forall in Ws. apply list_elem_of_In in Hb as Hin.
        specialize (Ws b Hin xt xb).
        rewrite Hother in Hxt by (apply Hne, elem_of_app; right; by left).
        rewrite Hother in Hxb by (apply Hne, elem_of_app; right; by right).
        rewrite (event_before_trans xb x' xt) in Ws by done. by specialize (Ws Hxt Hxb).
    + rewrite lookup_insert_ne by done. intros Hs'. eapply sorted_ext; [|by apply (Ws h)].
      intros a b Ha Hb Hab xa xb. cbn [events put_shs].
      rewrite !Hother by (intros ->; by eapply (Hnot h)). apply Hab.
  - intros h s' e'. cbn [shs put_shs put_event].
    assert (on_list (put_shs (hartindex x) (mkShs (l1 ++ e :: l2) (masked s) (inject_fifo s))
              (put_event e x' w)) h e' <-> (e' = e /\ hartindex x = h) \/ (e' <> e /\ on_list w h e')) as Hon'.
    { unfold on_list. cbn [events put_shs]. setoid_rewrite put_event_lookup.
      case_bool_decide as E; [subst e'|].
      - split; [|intros [[_ <-]|[? _]]; [eauto|done]]. intros (y & [= <-] & _ & <-). left. by rewrite Hh.
      - split; [right; by split|]. intros [[-> _]|[_ ?]]; [done|done]. }
    destruct (decide (hartindex x = h)) as [<- |Hhne].
    + rewrite lookup_insert_eq. intros [= <-]. cbn [enabled_event_list]. rewrite Hon'.
      rewrite <- (Wm _ s e' Hs), El, !elem_of_app, elem_of_cons.
      split; [|intros [[-> _]|[_ [?|?]]]; tauto].
      destruct (decide (e' = e)) as [-> |]; [by left|]. intros [?|[?|?]]; [|done|]; right; tauto.
    + rewrite lookup_insert_ne by done. intros Hs'. rewrite Hon', (Wm h s' e' Hs'). split.
      * intros Hl. right. split; [|done]. intros ->. apply (Hnot h s' Hs'). by apply (Wm h s' e Hs').
      * intros [[_ ?]|[_ ?]]; done.
Qed.

Lemma filter_elem (e : eref) l t :
  t ∈ List.filter (fun e' => negb (bool_decide (e' = e))) l <-> t ∈ l /\ t <> e.
Proof.
  rewrite !list_elem_of_In, filter_In, negb_true_iff, bool_decide_eq_false. done.
Qed.

Lemma filter_sorted R (f : eref -> bool) l : StronglySorted R l -> StronglySorted R (List.filter f l).
Proof.
  induction 1 as [|a l Hs IH Ha]; cbn; [constructor|]. destruct (f a); [|done]. constructor; [done|].
  rewrite List.Forall_forall in *. intros b Hb. apply filter_In in Hb as [Hb _]. auto.
Qed.

Lemma filter_nodup (f : eref -> bool) l : NoDup l -> NoDup (List.filter f l).
Proof.
  induction 1 as [|a l Ha Hd IH]; cbn; [constructor|]. destruct (f a); [|done]. constructor; [|done].
  intros Hin. apply Ha. apply list_elem_of_In in Hin. apply filter_In in Hin as [Hin _].
  by apply list_elem_of_In.
Qed.

Lemma put_lists_lookup f (w : sse) h :
  shs (put_lists f w) !! h =
  (fun s => mkShs (f (enabled_event_list s)) (masked s) (inject_fifo s)) <$> shs w !! h.
Proof. cbn. by rewrite lookup_fmap. Qed.

(** An enabled event stops being enabled and leaves its list. *)
Lemma wf_disable e x x' (w : sse) :
  sse_wf w -> events w !! e = Some x -> is_enabled x' = false -> event_ok e x' -> same_key x x' ->
  sse_wf (put_event e x' (sse_event_remove_from_list e w)).
Proof.
  intros [We Wh Wn Ws Wm] He Hoff Hok (_ & _ & Hh).
  set (w1 := sse_event_remove_from_list e w).
  assert (forall t y, events (put_event e x' w1) !! t = Some y ->
            (t = e /\ y = x') \/ (t <> e /\ events w !! t = Some y)) as Hev.
  { intros t y. rewrite put_event_lookup. case_bool_decide as E; intros Hy.
    - left. split; congruence.
    - right. split; [congruence|done]. }
  assert (forall h s, shs (put_event e x' w1) !! h = Some s -> exists s0, shs w !! h = Some s0 /\
            enabled_event_list s = List.filter (fun e' => negb (bool_decide (e' = e))) (enabled_event_list s0))
    as Hsh.
  { intros h s. cbn [shs put_event]. unfold w1, sse_event_remove_from_list. rewrite put_lists_lookup.
    destruct (shs w !! h) as [s0|]; [|done]. cbn. intros [= <-]. by exists s0. }
  split.
  - intros t y [[-> ->]|[_ Hy]]%Hev; [done|by apply We].
  - intros t y Hy. cbn [shs put_event]. unfold w1, sse_event_remove_from_list.
    rewrite put_lists_lookup. apply Hev in Hy as [[-> ->]|[_ Hy]].
    + rewrite Hh. destruct (Wh e x He) as [s ->]. by eexists.
    + destruct (Wh t y Hy) as [s ->]. by eexists.
  - intros h s (s0 & Hs0 & ->)%Hsh. by apply filter_nodup, (Wn h).
  - intros h s (s0 & Hs0 & ->)%Hsh. eapply sorted_ext; [|by apply filter_sorted, (Ws h)].
    intros a b [Ha Hna]%filter_elem [Hb Hnb]%filter_elem Hab xa xb Hxa Hxb.
    apply Hev in Hxa as [[? _]|[_ Hxa]]; [done|]. apply Hev in Hxb as [[? _]|[_ Hxb]]; [done|]. by apply Hab.
  - intros h s t (s0 & Hs0 & ->)%Hsh. rewrite filter_elem, (Wm h s0 t Hs0). unfold on_list.
    rewrite put_event_lookup. case_bool_decide as E.
    + subst t. split; [by intros [_ ?]|]. intros (y & [= <-] & Hen & _). congruence.
    + split; [by intros [? _]|]. intros Hl. split; [done|congruence].
Qed.

(** ** What the operations preserve *)

Ltac state_cases :=
  repeat match goal with
  | H : negb _ = true |- _ => apply negb_true_iff in H
  | H : negb _ = false |- _ => apply negb_false_iff in H
  | H : (_ =? _) = true |- _ => apply Z.eqb_eq in H
  | H : (_ =? _) = false |- _ => apply Z.eqb_neq in H
  end.

(** An event whose state is set: what the lists and the slots see. *)
Lemma set_state_key x s : same_key x (sse_event_set_state x s).
Proof. done. Qed.

Lemma set_state_enabled x s : 0 <= s < 4 -> is_enabled (sse_event_set_state x s) = (2 <=? s).
Proof. intros. unfold is_enabled. by rewrite set_state_state. Qed.

Lemma event_ok_state e x s :
  event_ok e x -> 0 <= s < 4 -> s <> SBI_SSE_STATE_RUNNING -> event_ok e (sse_event_set_state x s).
Proof.
  intros [Hs _] Hr Hn. split; [by destruct e|]. unfold is_running. rewrite set_state_state by done.
  rewrite (proj2 (Z.eqb_neq _ _) Hn). done.
Qed.

Lemma state_not_enabled x s : sse_event_state x = s -> s < 2 -> is_enabled x = false.
Proof. intros <- H. unfold is_enabled, SBI_SSE_STATE_ENABLED. apply Z.leb_gt. done. Qed.

Lemma register_wf e x p a w : sse_wf w -> events w !! e = Some x ->
  sse_wf (sse_event_register e x p a w).2.
Proof.
  intros W He. unfold sse_event_register. destruct (negb _) eqn:E; [done|]. state_cases.
  cbn [snd]. eapply wf_same_lists; [apply same_lists_cb|].
  destruct (wf_event w W e x He) as [Hs Hr].
  eapply wf_put_off; [done|done|by eapply state_not_enabled| | |by apply (wf_home w W e x)].
  - by rewrite set_state_enabled.
  - apply event_ok_state; [|done|done]. split; [by destruct e|done].
Qed.

Lemma unregister_wf e x w : sse_wf w -> events w !! e = Some x ->
  sse_wf (sse_event_unregister e x w).2.
Proof.
  intros W He. unfold sse_event_unregister. destruct (negb _) eqn:E; [done|]. state_cases. cbn [snd].
  pose proof (wf_event w W e x He).
  eapply wf_put_off; [eapply wf_same_lists; [apply same_lists_cb|done]| |by eapply state_not_enabled| | |].
  - by rewrite (proj1 (same_lists_cb x unregister_cb _ w)).
  - by rewrite set_state_enabled.
  - by apply event_ok_state.
  - apply (wf_home _ (wf_same_lists _ _ (same_lists_cb x unregister_cb _ w) W) e x).
    by rewrite (proj1 (same_lists_cb x unregister_cb _ w)).
Qed.

Lemma set_pending_wf e x w : sse_wf w -> events w !! e = Some x ->
  sse_wf (sse_event_set_pending e x w).2.
Proof.
  intros W He. unfold sse_event_set_pending. destruct (_ && _); [done|]. cbn [snd].
  destruct (wf_event w W e x He) as [Hs Hr]. eapply wf_put_same; [done|done|done| |].
  - unfold is_enabled. by rewrite set_pending_state.
  - split; [by destruct e|]. unfold is_running. rewrite set_pending_state. exact Hr.
Qed.

Lemma disable_wf e x w : sse_wf w -> events w !! e = Some x -> sse_wf (sse_event_disable e x w).2.
Proof.
  intros W He. unfold sse_event_disable. destruct (negb _) eqn:E; [done|]. cbn [snd].
  eapply wf_disable; [eapply wf_same_lists; [apply same_lists_cb|done]| | | |by apply set_state_key].
  - rewrite (proj1 (same_lists_cb x disable_cb _ w)). done.
  - by rewrite set_state_enabled.
  - apply event_ok_state; [by apply (wf_event w W)|done|done].
Qed.

Lemma enable_wf e x w : sse_wf w -> events w !! e = Some x ->
  exists rc w', sse_event_enable e x w = Some (rc, w') /\ sse_wf w'.
Proof.
  intros W He. destruct (wf_home w W e x He) as [s Hs]. unfold sse_event_enable. destruct (negb _) eqn:E; [by eexists _, _|]. state_cases.
  assert (is_enabled x = false) as Hoff by (by eapply state_not_enabled).
  set (x' := sse_event_set_state x SBI_SSE_STATE_ENABLED). unfold sse_event_add_to_list.
  change (hartindex x') with (hartindex x). change (shs (put_event e x' w)) with (shs w).
  rewrite Hs, some_bind.
  destruct (insert_event_total (put_event e x' w) e x' (enabled_event_list s)) as [l Hl].
  { intros t Ht. rewrite put_event_lookup. case_bool_decide; [by eexists|].
    destruct (wf_in_events w _ s t W Hs Ht) as (y & -> & _). by eexists. }
  rewrite Hl, !some_bind. eexists _, _. split; [reflexivity|].
  assert (sse_wf (put_shs (hartindex x) (mkShs l (masked s) (inject_fifo s)) (put_event e x' w))) as W'.
  { eapply wf_enable; [done|done|done| |done| |done|done].
    - unfold x'. by rewrite set_state_enabled.
    - apply event_ok_state; [by apply (wf_event w W)|done|done]. }
  destruct (_ && _); [eapply wf_same_lists; [apply same_lists_log|]|];
    (eapply wf_same_lists; [apply same_lists_cb|exact W']).
Qed.

(** ** The events that run on a hart *)

Definition runs (w : sse) (e : eref) : bool :=
  match events w !! e with Some x => is_running x | None => false end.

(** The running events of hart [h], most urgent first. *)
Definition running (w : sse) (h : Z) : list eref :=
  match shs w !! h with
  | Some s => List.filter (runs w) (enabled_event_list s)
  | None => []
  end.

Lemma running_same_lists w w' h : same_lists w w' -> running w' h = running w h.
Proof.
  intros [He Hl]. specialize (Hl h). unfold running, runs.
  destruct (shs w' !! h) as [s'|], (shs w !! h) as [s|]; cbn in Hl; try done.
  rewrite He. by injection Hl as ->.
Qed.

(** An update that does not touch a running state does not change the stacks. *)
Lemma running_put e x x' (w : sse) h :
  events w !! e = Some x -> is_running x' = is_running x -> running (put_event e x' w) h = running w h.
Proof.
  intros He Hr. unfold running. cbn [shs put_event]. destruct (shs w !! h); [|done].
  apply filter_ext. intros t. unfold runs. rewrite put_event_lookup.
  case_bool_decide; [subst t; by rewrite He, Hr|done].
Qed.

Lemma running_insert (w : sse) e l1 l2 :
  runs w e = false -> List.filter (runs w) (l1 ++ e :: l2) = List.filter (runs w) (l1 ++ l2).
Proof. intros He. rewrite !List.filter_app. cbn. by rewrite He. Qed.

Lemma running_remove (w : sse) e l :
  runs w e = false -> List.filter (runs w) (List.filter (fun e' => negb (bool_decide (e' = e))) l)
                      = List.filter (runs w) l.
Proof.
  intros He. induction l as [|a l IH]; cbn; [done|]. case_bool_decide as E; cbn.
  - subst a. by rewrite He.
  - by rewrite IH.
Qed.

Lemma running_remove_list e (w : sse) h :
  runs w e = false -> running (sse_event_remove_from_list e w) h = running w h.
Proof.
  intros He. unfold running, sse_event_remove_from_list. rewrite put_lists_lookup.
  destruct (shs w !! h) as [s|]; cbn [fmap option_fmap option_map]; [|done].
  exact (running_remove w e (enabled_event_list s) He).
Qed.

(** *** Delivery *)

(** Neither running nor deliverable on the hart with identifier [c]. *)
Definition idle_event (w : sse) (c : Z) (e : eref) : Prop :=
  exists x, events w !! e = Some x /\ is_running x = false /\ sse_event_is_ready c x = false.

(** What a scan of the list does: nothing, or deliver the first ready event in
    front of which nothing runs. *)
Lemma pending_loop_spec c H (w : sse) r l :
  (forall e, e ∈ l -> is_Some (events w !! e)) ->
  pending_loop c H l w r = Some (w, r) /\
    (Forall (idle_event w c) l \/
     exists l1 e l2, l = l1 ++ e :: l2 /\ Forall (idle_event w c) l1 /\ runs w e = true) \/
  exists l1 e l2 x, l = l1 ++ e :: l2 /\ Forall (idle_event w c) l1 /\ events w !! e = Some x /\
    is_running x = false /\ sse_event_is_ready c x = true /\
    pending_loop c H l w r = Some (put_event e (sse_event_inject c H x r).1 w, (sse_event_inject c H x r).2).
Proof.
  induction l as [|e l IH]; intros Hev; cbn [pending_loop]; [left; split; [done|by left]|].
  unfold sse_event_check_inject. destruct (Hev e) as [x Hx]; [by left|]. rewrite Hx, some_bind.
  destruct (sse_event_state x =? SBI_SSE_STATE_RUNNING) eqn:Er.
  { rewrite some_bind. left. split; [done|]. right. exists [], e, l. split; [done|].
    split; [constructor|]. unfold runs. by rewrite Hx. }
  destruct (sse_event_is_ready c x) eqn:Ey.
  { right. exists [], e, l, x. split; [done|]. split; [constructor|]. split; [done|].
    split; [done|]. split; [done|]. by destruct (sse_event_inject c H x r). }
  rewrite some_bind. assert (idle_event w c e) as Hidle by (exists x; by repeat split).
  destruct IH as [[-> [Hall|(l1 & e' & l2 & -> & Hl & Hr)]]|(l1 & e' & l2 & y & -> & Hl & Hy & H1 & H2 & ->)].
  - intros e' He'. apply Hev. by right.
  - left. split; [done|]. left. by constructor.
  - left. split; [done|]. right. exists (e :: l1), e', l2. split; [done|]. split; [by constructor|done].
  - right. exists (e :: l1), e', l2, y. split; [done|]. split; [by constructor|]. done.
Qed.

Lemma idle_not_running w c l : Forall (idle_event w c) l -> List.filter (runs w) l = [].
Proof.
  induction 1 as [|e l (x & Hx & Hr & _) _ IH]; cbn; [done|]. unfold runs at 1. by rewrite Hx, Hr.
Qed.

Lemma ready_hart c x : sse_event_is_ready c x = true ->
  hartid (attrs x) = c /\ sse_event_state x = SBI_SSE_STATE_ENABLED /\ sse_event_pending x = true.
Proof.
  unfold sse_event_is_ready. rewrite negb_true_iff, !orb_false_iff, !negb_false_iff, !Z.eqb_eq. tauto.
Qed.

(** Changing one event of a list. *)
Lemma running_update w h s l1 e l2 x x' :
  sse_wf w -> shs w !! h = Some s -> enabled_event_list s = l1 ++ e :: l2 ->
  events w !! e = Some x ->
  running (put_event e x' w) h
  = List.filter (runs w) l1 ++ (if is_running x' then [e] else []) ++ List.filter (runs w) l2 /\
  (forall k, k <> h -> running (put_event e x' w) k = running w k).
Proof.
  intros W Hs Hl Hx.
  destruct (wf_in_events w h s e W Hs) as (y & Hy & _ & Hh); [rewrite Hl; apply elem_of_app; right; by left|]. split.
  - unfold running. cbn [shs put_event]. rewrite Hs, Hl, List.filter_app. cbn [List.filter].
    assert (forall t, t ∈ l1 ++ l2 -> runs (put_event e x' w) t = runs w t) as Heq.
    { intros t Ht. unfold runs. rewrite put_event_lookup. rewrite bool_decide_eq_false_2; [done|].
      intros ->. pose proof (wf_nodup w W h s Hs) as Hn. rewrite Hl in Hn.
      apply NoDup_app in Hn as (_ & Hn1 & Hn2). apply NoDup_cons in Hn2 as [Hn2 _].
      apply elem_of_app in Ht as [Ht|Ht]; [|done]. apply (Hn1 t Ht). by left. }
    rewrite (filter_ext_in (runs (put_event e x' w)) (runs w) l1)
      by (intros t Ht; apply Heq, elem_of_app; left; by apply list_elem_of_In).
    rewrite (filter_ext_in (runs (put_event e x' w)) (runs w) l2)
      by (intros t Ht; apply Heq, elem_of_app; right; by apply list_elem_of_In).
    assert (runs (put_event e x' w) e = is_running x') as ->
      by (unfold runs; by rewrite put_event_lookup, bool_decide_eq_true_2).
    by destruct (is_running x').
  - intros k Hk. unfold running. cbn [shs put_event]. destruct (shs w !! k) as [sk|] eqn:Ek; [|done].
    apply filter_ext_in. intros t Ht%list_elem_of_In. unfold runs. rewrite put_event_lookup.
    case_bool_decide; [subst t|done].
    destruct (wf_in_events w k sk e W Ek Ht) as (z & Hz & _ & Hzk). congruence.
Qed.

(** An injection pushes the event on the stack of its hart. *)
Lemma inject_push w h s l1 e l2 x H r :
  sse_wf w -> shs w !! h = Some s -> enabled_event_list s = l1 ++ e :: l2 ->
  Forall (idle_event w (hid h)) l1 -> events w !! e = Some x -> sse_event_is_ready (hid h) x = true ->
  let w' := put_event e (sse_event_inject (hid h) H x r).1 w in
  sse_wf w' /\ running w' h = e :: running w h /\ (forall k, k <> h -> running w' k = running w k).
Proof.
  intros W Hs Hl Hidle Hx Hready. cbn zeta. destruct (ready_hart _ _ Hready) as (Hc & Hst & _).
  set (x' := (sse_event_inject (hid h) H x r).1).
  destruct (wf_in_events w h s e W Hs) as (y & Hy & Hen & Hh); [rewrite Hl; apply elem_of_app; right; by left|].
  rewrite Hx in Hy. injection Hy as <-.
  destruct (running_update w h s l1 e l2 x x' W Hs Hl Hx) as [Hrun Hother].
  split; [|split; [|exact Hother]].
  - eapply wf_put_same; [done|done|done| |].
    + by rewrite Hen.
    + destruct (wf_event w W e x Hx) as [Hslot _]. split; [by destruct e|].
      intros _. change (hartid (attrs x')) with (hartid (attrs x)).
      change (hartindex x') with (hartindex x). congruence.
  - rewrite Hrun, (idle_not_running w (hid h) l1) by done. change (is_running x') with true. cbn [app].
    f_equal. unfold running. rewrite Hs, Hl, List.filter_app, (idle_not_running w (hid h) l1) by done.
    cbn. unfold runs at 2. rewrite Hx. unfold is_running. by rewrite Hst.
Qed.

(** *** Completion *)

Lemma complete_loop_spec c H (w : sse) r l :
  (forall e, e ∈ l -> is_Some (events w !! e)) ->
  match List.filter (runs w) l with
  | [] => complete_loop c H l w r = Some (SBI_OK, (w, r, false))
  | e :: rest => exists l1 l2 x, l = l1 ++ e :: l2 /\ List.filter (runs w) l1 = [] /\
      rest = List.filter (runs w) l2 /\ events w !! e = Some x /\ is_running x = true /\
      complete_loop c H l w r = Some (sse_event_complete c H e x w r)
  end.
Proof.
  induction l as [|e l IH]; intros Hev; cbn [complete_loop List.filter]; [done|].
  destruct (Hev e) as [x Hx]; [by left|]. rewrite Hx, some_bind. unfold runs at 1. rewrite Hx.
  unfold is_running at 1. destruct (sse_event_state x =? SBI_SSE_STATE_RUNNING) eqn:Er.
  { exists [], l, x. by repeat split. }
  specialize (IH ltac:(intros; apply Hev; by right)).
  destruct (List.filter (runs w) l) as [|e' rest]; [done|].
  destruct IH as (l1 & l2 & y & -> & H1 & H2 & H3 & H4 & H5). exists (e :: l1), l2, y.
  split; [done|]. split; [|done]. cbn. unfold runs at 1. rewrite Hx. unfold is_running. by rewrite Er.
Qed.

Lemma disable_runs e x (w : sse) h :
  events w !! e = Some x -> is_running x = false -> running (sse_event_disable e x w).2 h = running w h.
Proof.
  intros Hx Hr. unfold sse_event_disable. destruct (negb _); [done|]. cbn [snd].
  set (w1 := sse_event_invoke_cb x disable_cb (CallDisable (event_id x)) w).
  assert (same_lists w w1) as Hsame by apply same_lists_cb.
  assert (events w1 !! e = Some x) as Hx1 by (by rewrite (proj1 Hsame)).
  rewrite (running_put e x); [|done|].
  - rewrite running_remove_list by (unfold runs; by rewrite Hx1). by apply running_same_lists.
  - unfold is_running at 1. by rewrite set_state_state, Hr.
Qed.

(** Completion pops the stack of the hart. *)
Lemma complete_pop w h s H r :
  sse_wf w -> shs w !! h = Some s ->
  match running w h with
  | [] => sbi_sse_complete h (hid h) H w r = Some (SBI_OK, (w, r, false))
  | e :: rest => exists x w', events w !! e = Some x /\
      sbi_sse_complete h (hid h) H w r = Some (SBI_OK, (w', sse_event_resume H x r, true)) /\
      sse_wf w' /\ running w' h = rest /\ (forall k, k <> h -> running w' k = running w k)
  end.
Proof.
  intros W Hs. unfold sbi_sse_complete. rewrite Hs, some_bind.
  pose proof (complete_loop_spec (hid h) H w r (enabled_event_list s)) as Hspec.
  unfold running at 1. rewrite Hs.
  destruct (List.filter (runs w) (enabled_event_list s)) as [|e rest] eqn:Ef.
  { apply Hspec. intros e He. destruct (wf_in_events w h s e W Hs He) as (x & -> & _). by eexists. }
  destruct Hspec as (l1 & l2 & x & Hl & Hl1 & -> & Hx & Hr & ->).
  { intros t Ht. destruct (wf_in_events w h s t W Hs Ht) as (y & -> & _). by eexists. }
  destruct (wf_in_events w h s e W Hs) as (y & Hy & Hen & Hh); [rewrite Hl; apply elem_of_app; right; by left|].
  rewrite Hx in Hy. injection Hy as <-. destruct (wf_event w W e x Hx) as [Hslot Hrh].
  unfold is_running in Hr. apply Z.eqb_eq in Hr as Hst.
  unfold sse_event_complete. rewrite Hst, Hrh, Hh, !Z.eqb_refl by done. cbn [negb].
  set (x' := sse_event_set_state x SBI_SSE_STATE_ENABLED).
  assert (is_running x' = false) as Hr' by (unfold is_running, x'; by rewrite set_state_state).
  assert (sse_wf (put_event e x' w)) as W1.
  { eapply wf_put_same; [done|done|done| |].
    - unfold x'. by rewrite set_state_enabled, Hen.
    - by apply event_ok_state; [split| |]. }
  destruct (running_update w h s l1 e l2 x x' W Hs Hl Hx) as [Hrun Hother].
  rewrite Hl1, Hr' in Hrun. cbn [app] in Hrun.
  assert (events (put_event e x' w) !! e = Some x') as Hx'
    by (by rewrite put_event_lookup, bool_decide_eq_true_2).
  eexists x, _. split; [done|]. split; [reflexivity|]. split; [|split].
  - eapply wf_same_lists; [apply same_lists_cb|]. destruct (negb _); [by apply disable_wf|done].
  - rewrite (running_same_lists _ _ _ (same_lists_cb _ _ _ _)), <- Hrun.
    destruct (negb _); [by rewrite disable_runs|done].
  - intros k Hk. rewrite (running_same_lists _ _ _ (same_lists_cb _ _ _ _)), <- (Hother k Hk).
    destruct (negb _); [by rewrite disable_runs|done].
Qed.

(** ** The other operations leave the stacks alone *)

Definition neutral (w w' : sse) : Prop := sse_wf w' /\ forall k, running w' k = running w k.

Lemma neutral_refl w : sse_wf w -> neutral w w.
Proof. done. Qed.

Lemma neutral_trans w1 w2 w3 : neutral w1 w2 -> neutral w2 w3 -> neutral w1 w3.
Proof. intros [_ H1] [W H2]. split; [done|]. intros k. by rewrite H2. Qed.

Lemma neutral_same_lists w w' : sse_wf w -> same_lists w w' -> neutral w w'.
Proof.
  intros W Hs. split; [by eapply wf_same_lists|]. intros k. by apply running_same_lists.
Qed.

Lemma set_state_runs x s : 0 <= s < 4 -> is_running (sse_event_set_state x s) = (s =? 3).
Proof. intros. unfold is_running. by rewrite set_state_state. Qed.

Lemma register_neutral e x p a w : sse_wf w -> events w !! e = Some x ->
  neutral w (sse_event_register e x p a w).2.
Proof.
  intros W He. split; [by apply register_wf|]. intros k.
  unfold sse_event_register. destruct (negb _) eqn:E; [done|]. state_cases. cbn [snd].
  rewrite (running_same_lists _ _ _ (same_lists_cb _ _ _ _)). apply (running_put e x); [done|].
  rewrite set_state_runs by done. unfold is_running. by rewrite E.
Qed.

Lemma unregister_neutral e x w : sse_wf w -> events w !! e = Some x ->
  neutral w (sse_event_unregister e x w).2.
Proof.
  intros W He. split; [by apply unregister_wf|]. intros k.
  unfold sse_event_unregister. destruct (negb _) eqn:E; [done|]. state_cases. cbn [snd].
  rewrite (running_put e x).
  - apply running_same_lists, same_lists_cb.
  - by rewrite (proj1 (same_lists_cb x unregister_cb _ w)).
  - rewrite set_state_runs by done. unfold is_running. by rewrite E.
Qed.

Lemma set_pending_neutral e x w : sse_wf w -> events w !! e = Some x ->
  neutral w (sse_event_set_pending e x w).2.
Proof.
  intros W He. split; [by apply set_pending_wf|]. intros k.
  unfold sse_event_set_pending. destruct (_ && _); [done|]. cbn [snd]. apply (running_put e x); [done|].
  unfold is_running. by rewrite set_pending_state.
Qed.

Lemma disable_neutral e x w : sse_wf w -> events w !! e = Some x ->
  neutral w (sse_event_disable e x w).2.
Proof.
  intros W He. split; [by apply disable_wf|]. intros k.
  destruct (is_running x) eqn:Er; [|by apply disable_runs].
  unfold sse_event_disable. unfold is_running in Er. apply Z.eqb_eq in Er. by rewrite Er.
Qed.

Lemma enable_neutral e x w : sse_wf w -> events w !! e = Some x ->
  exists rc w', sse_event_enable e x w = Some (rc, w') /\ neutral w w'.
Proof.
  intros W He. destruct (enable_wf e x w W He) as (rc & w' & E & W'). exists rc, w'. split; [done|].
  split; [done|]. revert E. unfold sse_event_enable.
  destruct (negb _) eqn:Es; [by intros [= <- <-]|]. state_cases.
  set (x' := sse_event_set_state x SBI_SSE_STATE_ENABLED). unfold sse_event_add_to_list.
  change (hartindex x') with (hartindex x). change (shs (put_event e x' w)) with (shs w).
  destruct (shs w !! hartindex x) as [s|] eqn:Hs; [|done]. rewrite some_bind.
  destruct (insert_event _ e x' _) as [l|] eqn:Hl; [|done]. rewrite !some_bind. intros [= _ <-] k.
  destruct (insert_event_spec _ _ _ _ _ Hl) as (l1 & l2 & El & -> & _).
  set (w1 := put_shs (hartindex x) _ (put_event e x' w)).
  transitivity (running w1 k).
  { destruct (_ && _); [rewrite (running_same_lists _ _ _ (same_lists_log _ _))|];
      apply running_same_lists, same_lists_cb. }
  transitivity (running (put_event e x' w) k).
  - unfold running, w1. cbn [shs put_shs put_event]. destruct (decide (hartindex x = k)) as [<- |];
      [|by rewrite lookup_insert_ne]. rewrite lookup_insert_eq, Hs, El. cbn [enabled_event_list].
    apply (running_insert (put_event e x' w)). unfold runs. rewrite put_event_lookup, bool_decide_eq_true_2 by done.
    unfold x'. by rewrite set_state_runs.
  - apply (running_put e x); [done|]. unfold x'. rewrite set_state_runs by done.
    unfold is_running. by rewrite Es.
Qed.

Lemma put_shs_neutral h s s' w :
  sse_wf w -> shs w !! h = Some s -> enabled_event_list s' = enabled_event_list s ->
  neutral w (put_shs h s' w).
Proof. intros W Hs E. apply neutral_same_lists; [done|]. by eapply same_lists_shs. Qed.

(** *** Attributes *)

Definition keeps_lists (x x' : sbi_sse_event) : Prop :=
  is_enabled x' = is_enabled x /\ is_running x' = is_running x /\
  (is_enabled x = true -> same_key x x' /\ hartid (attrs x') = hartid (attrs x)) /\
  event_id x' = event_id x.

Lemma put_neutral e x x' w :
  sse_wf w -> events w !! e = Some x -> keeps_lists x x' -> slot_ok e x' ->
  is_Some (shs w !! hartindex x') -> neutral w (put_event e x' w).
Proof.
  intros W He (Hen & Hr & Hk & _) Hslot Hhome. split; [|intros k; by apply (running_put e x)].
  destruct (wf_event w W e x He) as [_ Hrun]. destruct (is_enabled x) eqn:E.
  - destruct (Hk eq_refl) as [Hkey Hh]. pose proof Hkey as (_ & _ & Hi).
    eapply wf_put_same; [done|done|done|congruence|]. split; [done|]. rewrite Hr, Hh, Hi. exact Hrun.
  - eapply wf_put_off; [done|done|done|done| |done]. split; [done|]. rewrite Hr. intros Hrr.
    exfalso. unfold is_running in Hrr. unfold is_enabled in E. apply Z.eqb_eq in Hrr. by rewrite Hrr in E.
Qed.

Section Attrs.
Variables (ds : domain_state) (hw : hsm_world) (dom c : Z).

(** What a passed check says about a value that the lists depend on. *)
Definition attr_fits (shs_has : Z -> Prop) (on global : bool) (id v : Z) : Prop :=
  (id = SBI_SSE_ATTR_PRIO -> on = false) /\
  (id = SBI_SSE_ATTR_PREFERRED_HART -> on = false /\ global = true /\
     exists idx, sbi_hartid_to_hartindex (scr ds) (u32 v) = Some idx /\ shs_has idx).

Lemma check_fits (has : Z -> Prop) x id v :
  (forall idx, sbi_domain_is_assigned_hart ds dom idx = true -> has idx) ->
  sse_event_set_attr_check c ds hw dom x id v = Some 0 ->
  attr_fits has (is_enabled x) (sse_event_is_global x) id v.
Proof.
  intros Hhas Hc. unfold sse_event_set_attr_check in Hc. unfold attr_fits, is_enabled.
  split; intros ->; cbn [Z.eqb SBI_SSE_ATTR_PRIO SBI_SSE_ATTR_CONFIG SBI_SSE_ATTR_PREFERRED_HART] in Hc;
    rewrite ?Z.eqb_refl in Hc; cbn in Hc.
  - by destruct (SBI_SSE_STATE_ENABLED <=? sse_event_state x).
  - destruct (SBI_SSE_STATE_ENABLED <=? sse_event_state x); [done|]. split; [done|].
    unfold sse_event_set_hart_id_check in Hc. destruct (sse_event_is_global x); [|done].
    cbn [negb] in Hc. split; [done|].
    destruct (sbi_hartid_to_hartindex (scr ds) (u32 v)) as [idx|]; [|done]. rewrite some_bind in Hc.
    exists idx. split; [done|]. apply Hhas.
    by destruct (sbi_domain_is_assigned_hart ds dom idx).
Qed.

Lemma set_attr_neutral w e x id v :
  sse_wf w -> events w !! e = Some x ->
  attr_fits (fun h => is_Some (shs w !! h)) (is_enabled x) (sse_event_is_global x) id v ->
  exists w' x', sse_event_set_attr ds e x id v w = Some w' /\ neutral w w' /\
    events w' !! e = Some x' /\ is_enabled x' = is_enabled x /\
    sse_event_is_global x' = sse_event_is_global x /\
    (forall h, is_Some (shs w !! h) -> is_Some (shs w' !! h)).
Proof.
  intros W He [Hprio Hhart]. destruct (wf_event w W e x He) as [Hslot _].
  destruct (wf_home w W e x He) as [s Hs]. unfold sse_event_set_attr.
  assert (forall x', keeps_lists x x' -> slot_ok e x' -> is_Some (shs w !! hartindex x') ->
    exists w' y, Some (put_event e x' w) = Some w' /\ neutral w w' /\ events w' !! e = Some y /\
      is_enabled y = is_enabled x /\ sse_event_is_global y = sse_event_is_global x /\
      (forall h, is_Some (shs w !! h) -> is_Some (shs w' !! h))) as Hput.
  { intros x' Hk Hok Hhome. eexists _, x'. split; [done|]. split; [by eapply put_neutral|].
    split; [by rewrite put_event_lookup, bool_decide_eq_true_2|]. destruct Hk as (Hen & _ & _ & Hid).
    split; [done|]. split; [|done]. unfold sse_event_is_global. by rewrite Hid. }
  assert (forall x', attrs x' = attrs x \/ True -> hartindex x' = hartindex x -> event_id x' = event_id x ->
    slot_ok e x' /\ is_Some (shs w !! hartindex x')) as Hsl.
  { intros x' _ Hh Hi. rewrite Hh, Hs. split; [|by eexists]. unfold slot_ok in *. by destruct e; rewrite ?Hh, Hi. }
  destruct (Z.eqb_spec id SBI_SSE_ATTR_CONFIG); [apply Hput; [by repeat split|apply Hsl; auto..]|].
  destruct (Z.eqb_spec id SBI_SSE_ATTR_PRIO) as [->|].
  { apply Hput; [|apply Hsl; auto..]. split; [done|]. split; [done|]. split; [|done].
    rewrite Hprio by done. done. }
  destruct (Z.eqb_spec id SBI_SSE_ATTR_PREFERRED_HART) as [->|].
  { destruct (Hhart eq_refl) as (Hoff & Hg & idx & -> & Hidx). rewrite some_bind.
    set (x' := mkEvent _ _ _ _).
    assert (keeps_lists x x') as Hk by (split; [done|]; split; [done|]; split; [by rewrite Hoff|done]).
    assert (slot_ok e x') as Hok.
    { destruct e; [done|]. destruct Hslot as [Hl _]. unfold sse_event_is_global in Hg. congruence. }
    destruct (Hput x' Hk Hok Hidx) as (w' & y & [= <-] & Hn & Hy & H1 & H2 & H3).
    eexists _, y. split; [done|]. pose proof (same_lists_cb x' set_hartid_cb
      (CallSetHartid (event_id x') v) (put_event e x' w)) as Hcb. split.
    - eapply neutral_trans; [exact Hn|]. by apply neutral_same_lists; [apply Hn|].
    - rewrite (proj1 Hcb). split; [done|]. split; [done|]. split; [done|].
      intros h Hh. by apply (same_lists_home _ _ h Hcb), H3. }
  repeat (case_match; [apply Hput; [by repeat split|apply Hsl; auto..]|]).
  eexists w, x. split; [done|]. split; [by apply neutral_refl|]. done.
Qed.

Lemma write_attrs_neutral (has : Z -> Prop) w e x id l :
  sse_wf w -> events w !! e = Some x -> (forall h, has h -> is_Some (shs w !! h)) ->
  (forall idx, sbi_domain_is_assigned_hart ds dom idx = true -> has idx) ->
  check_attrs c ds hw dom x id l = Some 0 ->
  exists w', write_attrs ds e id l w = Some w' /\ neutral w w'.
Proof.
  intros W He Hhas Hdom Hc.
  assert (forall i v, l !! i = Some v ->
    attr_fits has (is_enabled x) (sse_event_is_global x) (id + Z.of_nat i) v) as Hfit.
  { clear W He Hhas. revert id Hc. induction l as [|v l IH]; intros id Hc i u Hu; [by rewrite lookup_nil in Hu|].
    cbn in Hc. destruct (sse_event_set_attr_check c ds hw dom x id v) as [ret|] eqn:E; [|done].
    rewrite some_bind in Hc. destruct (Z.eqb_spec ret 0) as [->|]; cbn in Hc; [|congruence].
    destruct i as [|i]; cbn in Hu.
    - injection Hu as <-. rewrite Z.add_0_r. by apply check_fits.
    - replace (id + Z.of_nat (S i)) with (id + 1 + Z.of_nat i) by lia. by apply IH. }
  clear Hc. revert id w x W He Hhas Hfit.
  induction l as [|v l IH]; intros id w x W He Hhas Hfit; cbn [write_attrs];
    [exists w; split; [done|by apply neutral_refl]|].
  rewrite He, some_bind. specialize (Hfit 0%nat v eq_refl) as H0. rewrite Z.add_0_r in H0.
  destruct (set_attr_neutral w e x id v W He) as (w1 & x1 & -> & Hn & He1 & Hen & Hg & Hs1).
  { destruct H0 as [Hp Hh]. split; [done|]. intros E. destruct (Hh E) as (? & ? & idx & ? & ?).
    split; [done|]. split; [done|]. exists idx. split; [done|]. by apply Hhas. }
  rewrite some_bind. destruct (IH (id + 1) w1 x1) as (w2 & -> & Hn2).
  - apply Hn.
  - done.
  - intros h Hh. by apply Hs1, Hhas.
  - rewrite Hen, Hg. intros i u Hu. replace (id + 1 + Z.of_nat i) with (id + Z.of_nat (S i)) by lia.
    by apply Hfit.
  - exists w2. split; [done|]. by eapply neutral_trans.
Qed.

End Attrs.

(** ** Every call returns *)

(** The slots that the counters announce exist. *)
Definition slots_ok (w : sse) : Prop :=
  (forall i, (i < Z.to_nat (global_event_count w))%nat -> is_Some (events w !! EGlobal i)) /\
  (forall h i, is_Some (shs w !! h) -> (i < Z.to_nat (local_event_count w))%nat ->
     is_Some (events w !! ELocal h i)).

Definition keeps_slots (w w' : sse) : Prop :=
  global_event_count w' = global_event_count w /\ local_event_count w' = local_event_count w /\
  (forall e, is_Some (events w !! e) -> is_Some (events w' !! e)) /\
  (forall h, is_Some (shs w' !! h) <-> is_Some (shs w !! h)).

Lemma keeps_slots_ok w w' : keeps_slots w w' -> slots_ok w -> slots_ok w'.
Proof.
  intros (Hg & Hl & He & Hs) [H1 H2]. split; rewrite ?Hg, ?Hl.
  - intros i Hi. by apply He, H1.
  - intros h i Hh Hi. apply He, H2; [by apply Hs|done].
Qed.

Lemma ks_refl w : keeps_slots w w.
Proof. done. Qed.

Lemma ks_trans w1 w2 w3 : keeps_slots w1 w2 -> keeps_slots w2 w3 -> keeps_slots w1 w3.
Proof.
  intros (G1 & L1 & E1 & S1) (G2 & L2 & E2 & S2). split; [congruence|]. split; [congruence|].
  split; [auto|]. intros h. by rewrite S2.
Qed.

Lemma ks_put e x (w : sse) : keeps_slots w (put_event e x w).
Proof.
  split; [done|]. split; [done|]. split; [|done]. intros t Ht. rewrite put_event_lookup.
  case_bool_decide; [by eexists|done].
Qed.

Lemma ks_shs h s s' (w : sse) : shs w !! h = Some s -> keeps_slots w (put_shs h s' w).
Proof.
  intros Hs. split; [done|]. split; [done|]. split; [done|]. intros k. cbn.
  destruct (decide (h = k)) as [<- |]; [rewrite lookup_insert_eq, Hs; split; by eexists|].
  by rewrite lookup_insert_ne.
Qed.

Lemma ks_lists f (w : sse) : keeps_slots w (put_lists f w).
Proof.
  split; [done|]. split; [done|]. split; [done|]. intros k. rewrite put_lists_lookup.
  by rewrite fmap_is_Some.
Qed.

Lemma ks_log c (w : sse) : keeps_slots w (log_call c w).
Proof. done. Qed.

Lemma ks_cb x has c (w : sse) : keeps_slots w (sse_event_invoke_cb x has c w).
Proof.
  unfold sse_event_invoke_cb. destruct (cb_ops (info x)) as [o|]; [destruct (has o)|]; done.
Qed.

Ltac ks := repeat first
  [ apply ks_refl | apply ks_put | apply ks_log | apply ks_cb | apply ks_lists
  | (eapply ks_shs; eassumption)
  | (eapply ks_trans; [|apply ks_put]) | (eapply ks_trans; [|apply ks_cb])
  | (eapply ks_trans; [|apply ks_log]) | (eapply ks_trans; [|apply ks_lists]) ].

Lemma register_ks e x p a w : keeps_slots w (sse_event_register e x p a w).2.
Proof. unfold sse_event_register. destruct (negb _); cbn [snd]; ks. Qed.

Lemma unregister_ks e x w : keeps_slots w (sse_event_unregister e x w).2.
Proof. unfold sse_event_unregister. destruct (negb _); cbn [snd]; ks. Qed.

Lemma set_pending_ks e x w : keeps_slots w (sse_event_set_pending e x w).2.
Proof. unfold sse_event_set_pending. destruct (_ && _); cbn [snd]; ks. Qed.

Lemma disable_ks e x w : keeps_slots w (sse_event_disable e x w).2.
Proof. unfold sse_event_disable. destruct (negb _); cbn [snd]; ks. Qed.

Lemma enable_ks e x w rc w' : sse_event_enable e x w = Some (rc, w') -> keeps_slots w w'.
Proof.
  unfold sse_event_enable, sse_event_add_to_list. destruct (negb _); [by intros [= <- <-]|].
  destruct (shs _ !! _) as [s|] eqn:Hs; [|done]. rewrite some_bind.
  destruct (insert_event _ _ _ _); [|done]. rewrite !some_bind. intros [= <- <-].
  eapply ks_trans; [apply ks_put|]. eapply ks_trans; [by eapply ks_shs|].
  destruct (_ && _); ks.
Qed.

Lemma complete_ks h c H w r rc w' r' b :
  sbi_sse_complete h c H w r = Some (rc, (w', r', b)) -> keeps_slots w w'.
Proof.
  unfold sbi_sse_complete. destruct (shs w !! h) as [s|]; [|done]. rewrite some_bind.
  induction (enabled_event_list s) as [|e l IH]; cbn [complete_loop]; [by intros [= <- <- <- <-]|].
  destruct (events w !! e) as [x|]; [|done]. rewrite some_bind. destruct (_ =? _); [|done].
  unfold sse_event_complete. destruct (negb _); [by intros [= <- <- <- <-]|].
  destruct (negb _); [by intros [= <- <- <- <-]|]. intros [= <- <- <- <-].
  eapply ks_trans; [apply ks_put|]. eapply ks_trans; [|apply ks_cb].
  destruct (negb _); [apply disable_ks|apply ks_refl].
Qed.

Lemma set_attr_ks ds e x id v w w' : sse_event_set_attr ds e x id v w = Some w' -> keeps_slots w w'.
Proof.
  unfold sse_event_set_attr. intros E.
  destruct (sbi_hartid_to_hartindex (scr ds) (u32 v)) as [idx|]; rewrite ?some_bind in E;
    repeat case_match; simplify_eq; ks.
Qed.

Lemma write_attrs_ks ds e id l w w' : write_attrs ds e id l w = Some w' -> keeps_slots w w'.
Proof.
  revert id w. induction l as [|v l IH]; intros id w E; cbn in E; [simplify_eq; ks|].
  destruct (events w !! e) as [x|]; [|done]. rewrite some_bind in E.
  destruct (sse_event_set_attr ds e x id v w) as [w1|] eqn:E1; [|done]. rewrite some_bind in E.
  eapply ks_trans; [by eapply set_attr_ks|by eapply IH].
Qed.

(** The calls that leave the stacks alone. *)
Definition quiet (w w' : sse) : Prop := neutral w w' /\ keeps_slots w w'.

Lemma quiet_refl w : sse_wf w -> quiet w w.
Proof. split; [by apply neutral_refl|apply ks_refl]. Qed.

Lemma event_loop_spec (w : sse) slot n i id :
  (forall j, (i <= j < i + n)%nat -> is_Some (events w !! slot j)) ->
  exists r, event_loop w slot n i id = Some r /\
    (forall e, r = Some e -> exists j x, e = slot j /\ events w !! e = Some x /\ event_id x = id).
Proof.
  revert i. induction n as [|n IH]; intros i Hs; cbn; [by exists None|].
  destruct (Hs i) as [x Hx]; [lia|]. rewrite Hx, some_bind.
  destruct (Z.eqb_spec (event_id x) id) as [<- |].
  - eexists. split; [done|]. intros e [= <-]. by exists i, x.
  - apply IH. intros j Hj. apply Hs. lia.
Qed.

Lemma event_get_spec w h id : slots_ok w -> is_Some (shs w !! h) ->
  exists r, sse_event_get w h id = Some r /\
    (forall e, r = inr e -> exists x, events w !! e = Some x /\ event_id x = id).
Proof.
  intros [Hg Hl] Hh. unfold sse_event_get.
  set (o := if EVENT_IS_GLOBAL id then _ else _).
  assert (exists r, o = Some r /\ (forall e, r = Some e -> exists x, events w !! e = Some x /\ event_id x = id))
    as (r & -> & Hr).
  { unfold o. destruct (EVENT_IS_GLOBAL id);
      [destruct (event_loop_spec w EGlobal (Z.to_nat (global_event_count w)) 0 id) as (r & -> & Hr)
      |destruct (event_loop_spec w (ELocal h) (Z.to_nat (local_event_count w)) 0 id) as (r & -> & Hr)].
    1,3: intros j Hj; first [apply Hg; lia | apply Hl; [done|lia]].
    all: exists r; split; [done|]; intros e He; destruct (Hr e He) as (j & x & _ & ? & ?); eauto. }
  rewrite some_bind. destruct r as [e|].
  - exists (inr e). split; [done|]. intros e' [= <-]. by apply Hr.
  - eexists. split; [done|]. done.
Qed.

Lemma with_event_quiet w h id k :
  sse_wf w -> slots_ok w -> is_Some (shs w !! h) ->
  (forall e x, events w !! e = Some x -> exists rc w', k e x = Some (rc, w') /\ quiet w w') ->
  exists rc w', with_event h w id k = Some (rc, w') /\ quiet w w'.
Proof.
  intros W Hs Hh Hk. unfold with_event. destruct (event_get_spec w h id Hs Hh) as (r & -> & Hr).
  rewrite some_bind. destruct r as [rc|e]; [eexists _, _; split; [done|by apply quiet_refl]|].
  destruct (Hr e eq_refl) as (x & Hx & _). rewrite Hx, some_bind. by apply Hk.
Qed.

(** What the firmware around the events guarantees to a call on hart [h]: its
    address checks and table look-ups return, and every hart that has a scratch
    area or is assigned to the domain has an event state. *)
Record env_ok (ds : domain_state) (dom h : Z) (w : sse) : Prop := {
  env_self : is_Some (shs w !! h);
  env_range a n mode acc : is_Some (sbi_domain_check_addr_range (domains ds !! dom) a n mode acc);
  env_index i : is_Some (sbi_hartid_to_hartindex (scr ds) i);
  env_scratch i idx : sbi_hartid_to_hartindex (scr ds) i = Some idx ->
    exists sc, sbi_hartindex_to_scratch (scr ds) idx = Some sc /\ (sc <> 0 -> is_Some (shs w !! idx));
  env_assigned idx : sbi_domain_is_assigned_hart ds dom idx = true -> is_Some (shs w !! idx);
}.

Section Calls.
Variables (ds : domain_state) (hw : hsm_world) (dom h : Z) (ipi_rc : Z -> Z) (H : bool).
Variables (hf : sbi_hart_features) (bits : Z).

Lemma ipi_inject_send_quiet hart id w :
  sse_wf w -> env_ok ds dom h w ->
  exists rc w', sse_ipi_inject_send ds ipi_rc hart id w = Some (rc, w') /\ quiet w w'.
Proof.
  intros W E. unfold sse_ipi_inject_send. destruct (env_index _ _ _ _ E (u32 hart)) as [idx Hi].
  rewrite Hi, some_bind. destruct (env_scratch _ _ _ _ E _ _ Hi) as (sc & -> & Hsc). rewrite some_bind.
  destruct (Z.eqb_spec sc 0) as [|Hne]; [eexists _, _; split; [done|by apply quiet_refl]|].
  destruct (Hsc Hne) as [s Hs]. rewrite Hs, some_bind. destruct (bq_enqueue _ id false) as [ret f].
  assert (quiet w (put_shs idx (set_fifo f s) w)) as Hq
    by (split; [by eapply put_shs_neutral|by eapply ks_shs]).
  assert (quiet w (log_call (CallIpi hart) (put_shs idx (set_fifo f s) w))) as Hq2.
  { destruct Hq as [Hn Hk]. split; [|done]. eapply neutral_trans; [exact Hn|].
    by apply neutral_same_lists; [apply Hn|]. }
  destruct (negb (ret =? 0)); [by eexists _, _|]. destruct (negb _); by eexists _, _.
Qed.

Lemma inject_event_quiet id hart w :
  sse_wf w -> slots_ok w -> env_ok ds dom h w ->
  exists rc w', sse_inject_event h (hid h) ds ipi_rc id hart w = Some (rc, w') /\ quiet w w'.
Proof.
  intros W Hs E. apply with_event_quiet; [done|done|by apply (env_self _ _ _ _ E)|]. intros e x Hx.
  cbn zeta. destruct (negb _); [by apply ipi_inject_send_quiet|].
  pose proof (set_pending_neutral e x w W Hx) as Hn. pose proof (set_pending_ks e x w) as Hk.
  destruct (sse_event_set_pending e x w) as [ret w']. destruct (negb _); by eexists _, _.
Qed.

Lemma read_attrs_same id b n lo hi w m p :
  sse_wf w -> slots_ok w -> env_ok ds dom h w ->
  exists rc m' p', sbi_sse_read_attrs h ds dom hf bits id b n lo hi (w, m, p) = Some (rc, (w, m', p')).
Proof.
  intros W Hs E. unfold sbi_sse_read_attrs.
  assert (exists ret, sbi_sse_attr_check ds dom b n lo hi SBI_DOMAIN_WRITE = Some ret) as [ret ->].
  { unfold sbi_sse_attr_check. destruct (env_range _ _ _ _ E lo (8 * n) PRV_S SBI_DOMAIN_WRITE) as [ok ->].
    rewrite some_bind. repeat case_match; by eexists. }
  rewrite some_bind. destruct (negb _); [by eexists _, _, _|].
  destruct (event_get_spec w h id Hs (env_self _ _ _ _ E)) as (r & -> & Hr). rewrite some_bind.
  destruct r as [rc|e]; [by eexists _, _, _|]. destruct (Hr e eq_refl) as (x & -> & _). rewrite some_bind.
  destruct (map_saddr_total bits hf lo (8 * n) p) as ([rc p1] & ->). rewrite some_bind.
  destruct (sbi_hart_unmap_saddr bits hf p1). by eexists _, _, _.
Qed.

Lemma check_attrs_total x id l w : env_ok ds dom h w ->
  exists ret, check_attrs (hid h) ds hw dom x id l = Some ret.
Proof.
  intros E. revert id. induction l as [|v l IH]; intros id; cbn; [by eexists|].
  assert (exists ret, sse_event_set_attr_check (hid h) ds hw dom x id v = Some ret) as [ret ->].
  { unfold sse_event_set_attr_check, sse_event_set_hart_id_check.
    destruct (env_index _ _ _ _ E (u32 v)) as [idx Hi]. rewrite Hi, some_bind.
    assert (exists st, sbi_hsm_hart_get_state ds hw dom (u32 v) = Some st) as [st ->].
    { unfold sbi_hsm_hart_get_state. rewrite Hi, some_bind. destruct (negb _); by eexists. }
    rewrite some_bind. repeat case_match; by eexists. }
  rewrite some_bind. destruct (negb _); [by eexists|apply IH].
Qed.

(** With the memory unchanged between the two readings. *)
Lemma write_attrs_quiet id b n lo hi w m p :
  sse_wf w -> slots_ok w -> env_ok ds dom h w ->
  exists rc w' m' p', sbi_sse_write_attrs h (hid h) ds hw dom hf bits id b n lo hi m (w, m, p)
                      = Some (rc, (w', m', p')) /\ quiet w w'.
Proof.
  intros W Hs E. unfold sbi_sse_write_attrs.
  assert (exists ret, sbi_sse_attr_check ds dom b n lo hi SBI_DOMAIN_READ = Some ret) as [ret ->].
  { unfold sbi_sse_attr_check. destruct (env_range _ _ _ _ E lo (8 * n) PRV_S SBI_DOMAIN_READ) as [ok ->].
    rewrite some_bind. repeat case_match; by eexists. }
  rewrite some_bind. destruct (negb _); [eexists _, _, _, _; split; [done|by apply quiet_refl]|].
  destruct (event_get_spec w h id Hs (env_self _ _ _ _ E)) as (r & -> & Hr). rewrite some_bind.
  destruct r as [rc|e]; [eexists _, _, _, _; split; [done|by apply quiet_refl]|].
  destruct (Hr e eq_refl) as (x & Hx & _). rewrite Hx, some_bind. unfold sse_write_attrs.
  destruct (map_saddr_total bits hf lo (8 * n) p) as ([rc p1] & ->). rewrite some_bind.
  set (l := read_words m lo _). destruct (check_attrs_total x b l w E) as [ret2 Hc]. rewrite Hc, some_bind.
  destruct (Z.eqb_spec ret2 0) as [->|Hne]; cbn [negb].
  - destruct (write_attrs_neutral ds hw dom (hid h) (fun i => is_Some (shs w !! i)) w e x b l)
      as (w' & Hw & Hn); [done|done|done|by apply (env_assigned _ _ _ _ E)|done|].
    rewrite Hw, some_bind. destruct (sbi_hart_unmap_saddr bits hf p1).
    eexists _, _, _, _. split; [done|]. split; [done|]. by eapply write_attrs_ks.
  - rewrite some_bind. destruct (sbi_hart_unmap_saddr bits hf p1).
    eexists _, _, _, _. split; [done|by apply quiet_refl].
Qed.

End Calls.

(** What a call other than completion leaves. *)
Definition call_quiet (w : sse) (h : Z) (o : option (Z * machine)) : Prop :=
  exists rc st', o = Some (rc, st') /\ sse_wf (m_sse st') /\ slots_ok (m_sse st') /\
    running (m_sse st') h = running w h /\ (forall k, k <> h -> running (m_sse st') k = running w k).

Lemma call_quiet_ret w h rc st' : slots_ok w -> quiet w (m_sse st') -> call_quiet w h (Some (rc, st')).
Proof.
  intros Hs [[W' Hr] Hk]. exists rc, st'. split; [done|]. split; [done|].
  split; [by eapply keeps_slots_ok|]. split; [apply Hr|]. intros k _. apply Hr.
Qed.

Lemma call_quiet_put w h st o : slots_ok w -> (exists rc w', o = Some (rc, w') /\ quiet w w') ->
  call_quiet w h (put_sse st <$> o).
Proof. intros Hs (rc & w' & -> & Hw). by apply call_quiet_ret. Qed.

Lemma complete_call ds hw dom h ipi_rc H hf bits a0 a1 a2 a3 a4 m2 st s :
  sse_wf (m_sse st) -> slots_ok (m_sse st) -> shs (m_sse st) !! h = Some s ->
  exists rc st', sbi_ecall_sse_handler h (hid h) H ds hw dom ipi_rc hf bits SBI_EXT_SSE_COMPLETE
                   a0 a1 a2 a3 a4 m2 st = Some (rc, st') /\
    sse_wf (m_sse st') /\ slots_ok (m_sse st') /\
    running (m_sse st') h = list.tail (running (m_sse st) h) /\
    (forall k, k <> h -> running (m_sse st') k = running (m_sse st) k).
Proof.
  destruct st as [w m p r]. cbn [m_sse]. intros W Hs Hself.
  unfold sbi_ecall_sse_handler. cbn [m_sse m_mem m_pmp m_regs].
  cbn [Z.eqb SBI_EXT_SSE_COMPLETE SBI_EXT_SSE_READ_ATTR SBI_EXT_SSE_WRITE_ATTR SBI_EXT_SSE_REGISTER
       SBI_EXT_SSE_UNREGISTER SBI_EXT_SSE_ENABLE SBI_EXT_SSE_DISABLE Pos.eqb].
  pose proof (complete_pop w h s H r W Hself) as Hc. pose proof (complete_ks h (hid h) H w r) as Hk.
  destruct (running w h) as [|e rest] eqn:Er.
  - rewrite Hc, some_bind. eexists _, _. split; [done|]. cbn [m_sse]. by split_and!.
  - destruct Hc as (x & w' & _ & Hc & W' & Hr & Ho). rewrite Hc, some_bind.
    eexists _, _. split; [done|]. cbn [m_sse list.tail]. split; [done|]. split; [|done].
    eapply keeps_slots_ok; [by eapply Hk|done].
Qed.

(** C15: software events nest.  Suppose the lists of enabled events are well formed, the
    events the counters announce exist, address checks and hart look-ups return, every
    hart with a scratch area or in the domain has an event state, and no other hart
    writes the caller's memory during the call ([sse_write_attrs_double_fetch]).  Then
    every SSE call, with any function number and any arguments, returns, keeps the lists
    of enabled events exact and in order of priority, and treats the events that run on
    the calling hart as a stack: completion removes the event on top, which is the most
    urgent one, and no other call changes what runs on any hart. *)
Theorem sse_calls_nest ds hw dom h ipi_rc H hf bits funcid a0 a1 a2 a3 a4 st :
  sse_wf (m_sse st) -> slots_ok (m_sse st) -> env_ok ds dom h (m_sse st) ->
  exists rc st', sbi_ecall_sse_handler h (hid h) H ds hw dom ipi_rc hf bits funcid a0 a1 a2 a3 a4
                   (m_mem st) st = Some (rc, st') /\
    sse_wf (m_sse st') /\ slots_ok (m_sse st') /\
    running (m_sse st') h = (if funcid =? SBI_EXT_SSE_COMPLETE then list.tail (running (m_sse st) h)
                             else running (m_sse st) h) /\
    (forall k, k <> h -> running (m_sse st') k = running (m_sse st) k).
Proof.
  intros W Hs E. destruct st as [w m p r]. cbn [m_sse m_mem] in *.
  pose proof (env_self _ _ _ _ E) as [s Hself]. unfold sbi_ecall_sse_handler. cbn [m_sse m_mem m_pmp m_regs].
  destruct (Z.eqb_spec funcid SBI_EXT_SSE_COMPLETE) as [->|Hne].
  { by apply (complete_call ds hw dom h ipi_rc H hf bits a0 a1 a2 a3 a4 m (mkMachine w m p r) s). }
  match goal with |- exists rc st', ?o = _ /\ _ => change (call_quiet w h o) end.
  repeat match goal with |- context [funcid =? ?c] => destruct (Z.eqb_spec funcid c) as [_|_]; [|] end.
  - destruct (read_attrs_same ds dom h hf bits (u32 a0) (u32 a1) (u32 a2) a3 a4 w m p W Hs E)
      as (rc & m' & p' & ->). apply call_quiet_ret; [done|by apply quiet_refl].
  - destruct (write_attrs_quiet ds hw dom h hf bits (u32 a0) (u32 a1) (u32 a2) a3 a4 w m p W Hs E)
      as (rc & w' & m' & p' & -> & Hw). by apply call_quiet_ret.
  - apply call_quiet_put; [done|]. unfold sbi_sse_register. destruct (negb _); [eexists _, _; split; [done|by apply quiet_refl]|].
    destruct (env_range _ _ _ _ E a1 8 PRV_S SBI_DOMAIN_EXECUTE) as [ok ->]. rewrite some_bind.
    destruct (negb _); [eexists _, _; split; [done|by apply quiet_refl]|].
    apply with_event_quiet; [done|done|by eexists|]. intros e x Hx. eexists _, _.
    split; [by rewrite <- surjective_pairing|]. split; [by apply register_neutral|apply register_ks].
  - apply call_quiet_put, with_event_quiet; [done| | | |]; [done|done|by eexists|]. intros e x Hx. eexists _, _.
    split; [by rewrite <- surjective_pairing|]. split; [by apply unregister_neutral|apply unregister_ks].
  - apply call_quiet_put, with_event_quiet; [done| | | |]; [done|done|by eexists|]. intros e x Hx.
    destruct (enable_neutral e x w W Hx) as (rc & w' & He & Hn). exists rc, w'. split; [done|].
    split; [done|by eapply enable_ks].
  - apply call_quiet_put, with_event_quiet; [done| | | |]; [done|done|by eexists|]. intros e x Hx. eexists _, _.
    split; [by rewrite <- surjective_pairing|]. split; [by apply disable_neutral|apply disable_ks].
  - apply call_quiet_put; [done|]. unfold sbi_sse_inject_from_ecall. destruct (env_index _ _ _ _ E (u32 a1)) as [idx ->].
    rewrite some_bind. destruct (negb _); [eexists _, _; split; [done|by apply quiet_refl]|].
    by apply (inject_event_quiet ds dom).
  - unfold sbi_sse_hart_mask. rewrite Hself.
    destruct (masked s); [apply call_quiet_ret; [done|by apply quiet_refl]|].
    apply call_quiet_ret; [done|]. split; [by eapply put_shs_neutral|by eapply ks_shs].
  - unfold sbi_sse_hart_unmask. rewrite Hself.
    destruct (negb _); [apply call_quiet_ret; [done|by apply quiet_refl]|].
    apply call_quiet_ret; [done|]. split; [by eapply put_shs_neutral|by eapply ks_shs].
  - apply call_quiet_ret; [done|by apply quiet_refl].
Qed.

(** An event on the list of hart [h] that could be delivered there. *)
Definition deliverable (w : sse) (h : Z) (e : eref) (x : sbi_sse_event) : Prop :=
  on_list w h e /\ events w !! e = Some x /\ sse_event_is_ready (hid h) x = true.

Lemma list_after w h s l1 e l2 f :
  sse_wf w -> shs w !! h = Some s -> enabled_event_list s = l1 ++ e :: l2 -> f ∈ l2 -> in_order w e f.
Proof.
  intros W Hs El Hf. pose proof (wf_sorted w W h s Hs) as Hsorted.
  rewrite El in Hsorted. apply StronglySorted_app_1_r in Hsorted.
  apply StronglySorted_inv in Hsorted as [_ Hall]. rewrite List.Forall_forall in Hall.
  by apply Hall, list_elem_of_In.
Qed.

(** Behind idle events, what can be delivered is at the head or later. *)
Lemma deliverable_where w h s l1 e l2 f y :
  sse_wf w -> shs w !! h = Some s -> enabled_event_list s = l1 ++ e :: l2 ->
  Forall (idle_event w (hid h)) l1 -> deliverable w h f y -> f = e \/ f ∈ l2.
Proof.
  intros W Hs El Hidle (Hon & Hy & Hr). apply (wf_mem w W h s f Hs) in Hon.
  rewrite El in Hon. apply elem_of_app in Hon as [Hin|Hin]; [|by apply elem_of_cons in Hin].
  rewrite Forall_forall in Hidle. destruct (Hidle f Hin) as (z & Hz & _ & Hnr). congruence.
Qed.

Lemma running_where w h s l1 e l2 x f :
  shs w !! h = Some s -> enabled_event_list s = l1 ++ e :: l2 -> Forall (idle_event w (hid h)) l1 ->
  events w !! e = Some x -> is_running x = false -> f ∈ running w h -> f ∈ l2.
Proof.
  intros Hs El Hidle Hx Hnr Hf. unfold running in Hf. rewrite Hs, El, list_elem_of_In, filter_In in Hf.
  destruct Hf as [Hf Hrf]. rewrite <- list_elem_of_In in Hf. unfold runs in Hrf.
  apply elem_of_app in Hf as [Hf|Hf].
  - exfalso. rewrite Forall_forall in Hidle. destruct (Hidle f Hf) as (z & Hz & Hzr & _).
    rewrite Hz in Hrf. congruence.
  - apply elem_of_cons in Hf as [->|Hf]; [|done]. rewrite Hx in Hrf. congruence.
Qed.

Lemma process_ks h c H w r w' r' :
  sbi_sse_process_pending_events h c H w r = Some (w', r') -> keeps_slots w w'.
Proof.
  unfold sbi_sse_process_pending_events. destruct (shs w !! h) as [s|]; [|done]. rewrite some_bind.
  destruct (masked s); [by intros [= <- <-]|].
  induction (enabled_event_list s) as [|e l IH]; cbn [pending_loop]; [by intros [= <- <-]|].
  unfold sse_event_check_inject. destruct (events w !! e) as [x|]; [|done]. rewrite some_bind.
  destruct (_ =? _); [rewrite some_bind; by intros [= <- <-]|].
  destruct (sse_event_is_ready c x); [|rewrite some_bind; done].
  destruct (sse_event_inject c H x r) as [x' r1]. rewrite some_bind. intros [= <- <-]. apply ks_put.
Qed.

(** What delivery on hart [h] does. *)
Definition delivery (h : Z) (s : sse_hart_state (F := F)) (H : bool) (w : sse) (r : sse_regs) (w' : sse) (r' : sse_regs) : Prop :=
  sse_wf w' /\ slots_ok w' /\ (forall k, k <> h -> running w' k = running w k) /\
  (w' = w /\ r' = r /\
     (masked s = true \/ forall e x, deliverable w h e x ->
        exists f, f ∈ running w h /\ in_order w f e) \/
   masked s = false /\ exists e x, deliverable w h e x /\
     (forall f y, deliverable w h f y -> event_before y x = false) /\
     (forall f, f ∈ running w h -> in_order w e f) /\
     running w' h = e :: running w h /\
     w' = put_event e (sse_event_inject (hid h) H x r).1 w /\ r' = (sse_event_inject (hid h) H x r).2).

Lemma process_pending_spec h s H w r :
  sse_wf w -> slots_ok w -> shs w !! h = Some s ->
  exists w' r', sbi_sse_process_pending_events h (hid h) H w r = Some (w', r') /\ delivery h s H w r w' r'.
Proof.
  unfold delivery.
  intros W Hok Hs. pose proof (process_ks h (hid h) H w r) as Hks.
  unfold sbi_sse_process_pending_events in *. rewrite Hs in Hks |- *. rewrite some_bind in Hks |- *.
  destruct (masked s) eqn:Em.
  { exists w, r. split_and!; try done. left. split_and!; auto. }
  assert (forall e, e ∈ enabled_event_list s -> is_Some (events w !! e)) as Hev.
  { intros e He. destruct (wf_in_events w h s e W Hs He) as (x & -> & _). by eexists. }
  destruct (pending_loop_spec (hid h) H w r (enabled_event_list s) Hev)
    as [[Hp Hcase]|(l1 & e & l2 & x & El & Hidle & Hx & Hnr & Hready & Hp)].
  - exists w, r. split_and!; try done. left. split_and!; try done. right. intros e x Hd.
    destruct Hcase as [Hall|(l1 & f & l2 & El & Hidle & Hrun)].
    + exfalso. destruct Hd as (Hon & Hx & Hr). apply (wf_mem w W h s e Hs) in Hon.
      rewrite Forall_forall in Hall. destruct (Hall e Hon) as (z & Hz & _ & Hnr). congruence.
    + assert (f ∈ running w h) as Hfr.
      { unfold running. rewrite Hs, list_elem_of_In, filter_In. split; [|done].
        rewrite El. apply list_elem_of_In, elem_of_app. right. by left. }
      exists f. split; [done|]. destruct (deliverable_where w h s l1 f l2 e x W Hs El Hidle Hd) as [->|Hin]; [|by eapply list_after].
      destruct Hd as (_ & Hx & Hr). apply ready_hart in Hr as (_ & Hst & _).
      unfold runs in Hrun. rewrite Hx in Hrun. unfold is_running in Hrun. by rewrite Hst in Hrun.
  - destruct (inject_push w h s l1 e l2 x H r W Hs El Hidle Hx Hready) as (W' & Hrun & Hother).
    eexists _, _. split; [exact Hp|]. split; [done|]. split; [eapply keeps_slots_ok; [by eapply Hks|done]|].
    split; [done|]. right. split; [done|]. exists e, x.
    assert (deliverable w h e x) as Hd.
    { split; [|done]. apply (wf_mem w W h s e Hs). rewrite El. apply elem_of_app. right. by left. }
    split; [done|]. split; [|split; [|done]].
    + intros f y Hf. destruct (deliverable_where w h s l1 e l2 f y W Hs El Hidle Hf) as [->|Hin].
      * destruct Hf as (_ & Hy & _). rewrite Hx in Hy. injection Hy as <-.
        apply not_true_iff_false. rewrite event_before_spec. lia.
      * destruct Hf as (_ & Hy & _). by apply (list_after w h s l1 e l2 f W Hs El Hin).
    + intros f Hf. eapply list_after; [done..|]. by eapply running_where.
Qed.

(** C26: Delivery takes the most urgent event and respects what already runs.
    On the way back to the supervisor a masked hart changes nothing.  Otherwise
    either no event can be delivered, unless a running event stands before it in
    the order of priority, and nothing changes; or the event delivered is ready,
    no other deliverable event is more urgent, nothing that runs stands before
    it, and it becomes the top of the stack of running events of this hart while
    the other harts keep theirs. *)
Theorem sse_delivery_most_urgent h s H w r :
  sse_wf w -> slots_ok w -> shs w !! h = Some s ->
  exists w' r', sbi_sse_process_pending_events h (hid h) H w r = Some (w', r') /\
    sse_wf w' /\ slots_ok w' /\ (forall k, k <> h -> running w' k = running w k) /\
    (w' = w /\ r' = r /\
       (masked s = true \/ forall e x, deliverable w h e x ->
          exists f, f ∈ running w h /\ in_order w f e) \/
     masked s = false /\ exists e x, deliverable w h e x /\
       (forall f y, deliverable w h f y -> event_before y x = false) /\
       (forall f, f ∈ running w h -> in_order w e f) /\
       running w' h = e :: running w h /\
       w' = put_event e (sse_event_inject (hid h) H x r).1 w /\ r' = (sse_event_inject (hid h) H x r).2).
Proof. exact (process_pending_spec h s H w r). Qed.
End Inv.
