(* ===== verification/SbiSseCtx.v ===== *)
(** * Supervisor software events: the interrupted context

    Injection saves the interrupted context in the event and completion puts it
    back; and what the status word and the attributes look like afterwards. *)

From S2P Require Import Prelude SbiString SbiFifo SbiHeap SbiBitops SbiScratch SbiHartmask SbiMemregion SbiDomain SbiHsm SbiHart SbiPmp SbiPmpRoot SbiSse SbiSseInv.

(** ** Bits of the status registers *)

Lemma set_bits_bit b m v i : Z.testbit (set_bits b m v) i = Z.testbit v i || (b && Z.testbit m i).
Proof. unfold set_bits. destruct b; cbn; [apply Z.lor_spec|by rewrite orb_false_r]. Qed.

Lemma clear_bit_bit v m i : 0 <= i < 64 ->
  Z.testbit (Z.land v (not64 m)) i = Z.testbit v i && negb (Z.testbit m i).
Proof.
  intros Hi. rewrite Z.land_spec, not64_bits. zcases; try lia. done.
Qed.

Lemma has_pow v k : 0 <= k -> has_bits v (2 ^ k) = Z.testbit v k.
Proof. apply flag_test. Qed.

Lemma has_mpp v : has_bits v MSTATUS_MPP = Z.testbit v 11 || Z.testbit v 12.
Proof.
  unfold has_bits. change MSTATUS_MPP with (Z.lor (2 ^ 11) (2 ^ 12)).
  rewrite Z.land_lor_distr_r. rewrite <- (flag_test v 11), <- (flag_test v 12) by lia.
  destruct (Z.eqb_spec (Z.lor (Z.land v (2 ^ 11)) (Z.land v (2 ^ 12))) 0) as [E|E].
  - apply Z.lor_eq_0_iff in E as [-> ->]. done.
  - destruct (Z.eqb_spec (Z.land v (2 ^ 11)) 0) as [E1|]; [|done].
    destruct (Z.eqb_spec (Z.land v (2 ^ 12)) 0) as [E2|]; [|done]. by rewrite E1, E2 in E.
Qed.

(** Equality of two 64-bit words by bits. *)
Lemma word_eq x y : 0 <= x < 2 ^ 64 -> 0 <= y < 2 ^ 64 ->
  (forall i, 0 <= i < 64 -> Z.testbit x i = Z.testbit y i) -> x = y.
Proof.
  intros Hx Hy H. apply Z.bits_inj'. intros i Hi. destruct (Z_lt_le_dec i 64); [by apply H|].
  by rewrite !(bits_above 64).
Qed.

Lemma clear_range v m : 0 <= v < 2 ^ 64 -> 0 <= Z.land v (not64 m) < 2 ^ 64.
Proof. intros. apply (land_ok v (not64 m)); [done|]. apply not64_ok. Qed.

Lemma set_range b m v : 0 <= v < 2 ^ 64 -> 0 <= m < 2 ^ 64 -> 0 <= set_bits b m v < 2 ^ 64.
Proof. intros. unfold set_bits. destruct b; [by apply lor_ok|done]. Qed.

(** The masks as powers of two. *)
Ltac masks :=
  change MSTATUS_SIE with (2 ^ 1) in *; change MSTATUS_SPIE with (2 ^ 5) in *;
  change MSTATUS_SPP with (2 ^ 8) in *; change MSTATUS_MPV with (2 ^ 39) in *;
  change HSTATUS_SPV with (2 ^ 7) in *; change HSTATUS_SPVP with (2 ^ 8) in *;
  change FLAGS_STATUS_SPP with (2 ^ 0) in *; change FLAGS_STATUS_SPIE with (2 ^ 1) in *;
  change FLAGS_HSTATUS_SPV with (2 ^ 2) in *; change FLAGS_HSTATUS_SPVP with (2 ^ 3) in *;
  change (u64 (Z.shiftl PRV_S MSTATUS_MPP_SHIFT)) with (2 ^ 11) in *.

(** Remove the constants from a boolean combination. *)
Ltac bools := rewrite ?andb_false_r, ?orb_false_r, ?andb_true_r, ?orb_true_r; cbn [orb andb negb];
  rewrite ?andb_false_r, ?orb_false_r, ?andb_true_r, ?orb_true_r; cbn [orb andb negb].

(** A bit none of the masks has. *)
Ltac other_bit :=
  repeat match goal with
    | |- context [Z.eqb ?a ?i] => rewrite (proj2 (Z.eqb_neq a i)) by lia
    end; bools.

Create Rewrite HintDb sbits.
#[local] Hint Rewrite set_bits_bit has_mpp Z.lor_spec : sbits.
#[local] Hint Rewrite clear_bit_bit has_pow Z.pow2_bits_eqb using lia : sbits.

Lemma flags_bits H r :
  let f := sse_interrupted_flags H r in
  has_bits f FLAGS_STATUS_SPP = Z.testbit (mstatus r) 8 /\
  has_bits f FLAGS_STATUS_SPIE = Z.testbit (mstatus r) 5 /\
  has_bits f FLAGS_HSTATUS_SPV = H && Z.testbit (hstatus r) 7 /\
  has_bits f FLAGS_HSTATUS_SPVP = H && Z.testbit (hstatus r) 8.
Proof.
  cbn zeta. unfold sse_interrupted_flags. masks. rewrite !has_pow by lia.
  destruct H, (Z.testbit (mstatus r) 5), (Z.testbit (mstatus r) 8), (Z.testbit (hstatus r) 7),
    (Z.testbit (hstatus r) 8); by vm_compute.
Qed.

Section Context.
Variables (c : Z) (H : bool) (x : sbi_sse_event) (r : sse_regs).

(** The registers hold 64-bit values, the trap came from supervisor or user
    mode, and only a hart with the hypervisor extension has a virtual mode. *)
Definition context_ok : Prop :=
  0 <= mstatus r < 2 ^ 64 /\ 0 <= hstatus r < 2 ^ 64 /\ Z.testbit (mstatus r) 12 = false /\
  (H = false -> Z.testbit (mstatus r) 39 = false).

Let x' := (sse_event_inject c H x r).1.
Let r' := (sse_event_inject c H x r).2.

(** The bits completion looks at, after injection. *)
Lemma injected_mstatus i : 0 <= i < 64 ->
  Z.testbit (mstatus r') i =
    if i =? 1 then false else if i =? 5 then Z.testbit (mstatus r) 1
    else if i =? 8 then Z.testbit (mstatus r) 11 || Z.testbit (mstatus r) 12
    else if i =? 11 then true else if i =? 12 then false else if i =? 39 then false
    else Z.testbit (mstatus r) i.
Proof.
  intros Hi. unfold r', sse_event_inject. cbn [snd mstatus].
  change (Z.lor MSTATUS_MPP MSTATUS_SIE) with (Z.lor (2 ^ 11) (Z.lor (2 ^ 12) (2 ^ 1))). masks.
  autorewrite with sbits.
  assert (i = 1 \/ i = 5 \/ i = 8 \/ i = 11 \/ i = 12 \/ i = 39 \/
    (i <> 1 /\ i <> 5 /\ i <> 8 /\ i <> 11 /\ i <> 12 /\ i <> 39))
    as [-> |[-> |[-> |[-> |[-> |[-> |(?&?&?&?&?&?)]]]]]] by lia.
  1-6: destruct (Z.testbit (mstatus r) 1), (Z.testbit (mstatus r) 5), (Z.testbit (mstatus r) 8),
    (Z.testbit (mstatus r) 11), (Z.testbit (mstatus r) 12), (Z.testbit (mstatus r) 39); reflexivity.
  by other_bit.
Qed.

Lemma injected_hstatus i : 0 <= i < 64 ->
  Z.testbit (hstatus r') i =
    if H then
      let spv := Z.testbit (hstatus r) 7 || Z.testbit (mstatus r) 39 in
      if i =? 7 then spv
      else if i =? 8 then spv && (Z.testbit (mstatus r) 11 || Z.testbit (mstatus r) 12)
      else Z.testbit (hstatus r) i
    else Z.testbit (hstatus r) i.
Proof.
  intros Hi. unfold r', sse_event_inject. cbn [snd hstatus]. destruct H; [|done]. masks. cbn zeta.
  autorewrite with sbits.
  assert (i = 7 \/ i = 8 \/ (i <> 7 /\ i <> 8)) as [-> |[-> |(?&?)]] by lia.
  1-2: destruct (Z.testbit (mstatus r) 1), (Z.testbit (mstatus r) 8), (Z.testbit (hstatus r) 7),
    (Z.testbit (hstatus r) 8),
    (Z.testbit (mstatus r) 11), (Z.testbit (mstatus r) 12), (Z.testbit (mstatus r) 39); reflexivity.
  by other_bit.
Qed.

Lemma injected_range : context_ok -> 0 <= mstatus r' < 2 ^ 64 /\ 0 <= hstatus r' < 2 ^ 64.
Proof.
  intros (Hm & Hh & _). unfold r', sse_event_inject. cbn [snd mstatus hstatus]. split.
  - apply clear_range, lor_ok; [|by vm_compute].
    repeat first [apply clear_range | apply set_range; [|by vm_compute]]. done.
  - destruct H; [|done]. apply set_range; [|by vm_compute]. apply clear_range, set_range; [done|by vm_compute].
Qed.

Lemma injected_flags :
  i_flags (interrupted (attrs x')) = sse_interrupted_flags H r.
Proof. done. Qed.

(** The status registers after completion. *)
Lemma resumed_mstatus (y : sbi_sse_event) (q : sse_regs) i :
  0 <= i < 64 ->
  Z.testbit (mstatus (sse_event_resume H y q)) i =
    let fl := i_flags (interrupted (attrs y)) in
    if i =? 1 then Z.testbit (mstatus q) 5 else if i =? 5 then has_bits fl FLAGS_STATUS_SPIE
    else if i =? 8 then has_bits fl FLAGS_STATUS_SPP
    else if i =? 11 then Z.testbit (mstatus q) 8 else if i =? 12 then false
    else if i =? 39 then (if H then Z.testbit (hstatus q) 7 else Z.testbit (mstatus q) 39)
    else Z.testbit (mstatus q) i.
Proof.
  intros Hi. unfold sse_event_resume. cbn zeta. set (fl := i_flags _).
  change MSTATUS_MPP with (Z.lor (2 ^ 11) (2 ^ 12)). masks.
  generalize (has_bits fl (2 ^ 0)) (has_bits fl (2 ^ 1)). intros f0 f1.
  destruct H; cbn [mstatus].
  all: autorewrite with sbits.
  all: assert (i = 1 \/ i = 5 \/ i = 8 \/ i = 11 \/ i = 12 \/ i = 39 \/
    (i <> 1 /\ i <> 5 /\ i <> 8 /\ i <> 11 /\ i <> 12 /\ i <> 39))
    as [-> |[-> |[-> |[-> |[-> |[-> |(?&?&?&?&?&?)]]]]]] by lia.
  all: try (destruct (Z.testbit (mstatus q) 1), (Z.testbit (mstatus q) 5), (Z.testbit (mstatus q) 8),
    (Z.testbit (mstatus q) 11), (Z.testbit (mstatus q) 12), (Z.testbit (mstatus q) 39),
    (Z.testbit (hstatus q) 7), f0, f1; reflexivity).
  all: by other_bit.
Qed.

Lemma resumed_hstatus (y : sbi_sse_event) (q : sse_regs) i :
  0 <= i < 64 ->
  Z.testbit (hstatus (sse_event_resume H y q)) i =
    let fl := i_flags (interrupted (attrs y)) in
    if H then
      if i =? 7 then has_bits fl FLAGS_HSTATUS_SPV else if i =? 8 then has_bits fl FLAGS_HSTATUS_SPVP
      else Z.testbit (hstatus q) i
    else Z.testbit (hstatus q) i.
Proof.
  intros Hi. unfold sse_event_resume. cbn zeta. set (fl := i_flags _).
  masks. generalize (has_bits fl (2 ^ 2)) (has_bits fl (2 ^ 3)). intros f0 f1.
  destruct H; cbn [hstatus]; [|done]. autorewrite with sbits.
  assert (i = 7 \/ i = 8 \/ (i <> 7 /\ i <> 8)) as [-> |[-> |(?&?)]] by lia.
  1-2: destruct (Z.testbit (hstatus q) 7), (Z.testbit (hstatus q) 8), f0, f1; reflexivity.
  by other_bit.
Qed.

Lemma resumed_range (y : sbi_sse_event) (q : sse_regs) :
  0 <= mstatus q < 2 ^ 64 -> 0 <= hstatus q < 2 ^ 64 ->
  0 <= mstatus (sse_event_resume H y q) < 2 ^ 64 /\ 0 <= hstatus (sse_event_resume H y q) < 2 ^ 64.
Proof.
  intros Hm Hh. unfold sse_event_resume. cbn zeta. destruct H; cbn [mstatus hstatus]; split; try done.
  all: repeat first [done | apply clear_range | apply set_range; [|by vm_compute]].
Qed.

(** What the handler may change before it calls complete: the registers of the
    trap frame, the interrupt enable and the previous mode of the trap into the
    firmware. *)
Definition handler_kept (q : sse_regs) : Prop :=
  sepc q = sepc r' /\ hstatus q = hstatus r' /\ 0 <= mstatus q < 2 ^ 64 /\
  forall i, 0 <= i < 64 -> i <> 1 -> i <> 11 -> i <> 12 -> i <> 39 ->
    Z.testbit (mstatus q) i = Z.testbit (mstatus r') i.

(** A hart that was not in a virtual mode has no virtual previous mode. *)
Definition spv_clear : Prop :=
  H = true -> Z.testbit (mstatus r) 39 = false -> Z.testbit (hstatus r) 7 = false.

Lemma resumed_mstatus_bit q i :
  context_ok -> spv_clear -> handler_kept q -> (H = false -> Z.testbit (mstatus q) 39 = false) ->
  0 <= i < 64 -> Z.testbit (mstatus (sse_event_resume H x' q)) i = Z.testbit (mstatus r) i.
Proof.
  intros (Hm & Hh & H12 & H39) Hspv (Hs & Hhq & Hq & Hbits) Hq39 Hi.
  pose proof (flags_bits H r) as (F0 & F1 & _).
  rewrite resumed_mstatus by done. cbn zeta. rewrite injected_flags, F0, F1, Hhq.
  destruct (Z.eqb_spec i 1) as [-> |?]; [by rewrite Hbits, injected_mstatus by lia|].
  destruct (Z.eqb_spec i 5) as [-> |?]; [done|]. destruct (Z.eqb_spec i 8) as [-> |?]; [done|].
  destruct (Z.eqb_spec i 11) as [-> |?].
  { rewrite Hbits, injected_mstatus, H12 by lia. apply orb_false_r. }
  destruct (Z.eqb_spec i 12) as [-> |?]; [done|].
  destruct (Z.eqb_spec i 39) as [-> |?].
  - rewrite injected_hstatus by lia. unfold spv_clear in Hspv.
    destruct H; [|by rewrite Hq39, H39]. cbn zeta.
    destruct (Z.testbit (mstatus r) 39); [apply orb_true_r|]. by rewrite Hspv.
  - rewrite Hbits, injected_mstatus by done. by other_bit.
Qed.

Lemma resumed_hstatus_bit q i : handler_kept q ->
  0 <= i < 64 -> Z.testbit (hstatus (sse_event_resume H x' q)) i = Z.testbit (hstatus r) i.
Proof.
  intros (Hs & Hhq & Hq & _) Hi. pose proof (flags_bits H r) as (_ & _ & F2 & F3).
  rewrite resumed_hstatus by done. cbn zeta. rewrite injected_flags, F2, F3, Hhq, injected_hstatus by done.
  destruct H; [|done].
  destruct (Z.eqb_spec i 7) as [-> |?]; [done|]. by destruct (Z.eqb_spec i 8) as [-> |?].
Qed.

End Context.

(** C27: completing an event puts the interrupted context back.  Suppose the interrupted
    program ran below machine mode, [hstatus].SPV was clear unless it was virtual
    (otherwise [sse_resume_stale_spv]), and the event handler changed only the registers
    of the trap frame, its own interrupt enable and the previous-mode bits that the trap
    into the firmware sets, leaving [sepc], [hstatus] and the other status bits as
    injection set them (without the hypervisor extension mstatus.MPV is always clear).
    Then the program the event interrupted resumes with the registers, the mode, the
    program counter and the status registers it had. *)
Theorem sse_inject_complete_roundtrip c H x r q :
  context_ok H r -> spv_clear H r -> handler_kept c H x r q ->
  (H = false -> Z.testbit (mstatus q) 39 = false) ->
  sse_event_resume H (sse_event_inject c H x r).1 q = r.
Proof.
  intros Hc Hspv Hk Hq. destruct (injected_range c H x r Hc) as [Hm' Hh'].
  assert (Hrange := Hk). destruct Hrange as (Hs & Hhq & Hqr & _). rewrite <- Hhq in Hh'.
  destruct (resumed_range c H x r (sse_event_inject c H x r).1 q Hqr Hh') as [Rm Rh].
  assert (mstatus (sse_event_resume H (sse_event_inject c H x r).1 q) = mstatus r) as Em.
  { apply word_eq; [done|apply Hc|]. intros i Hi. by apply resumed_mstatus_bit. }
  assert (hstatus (sse_event_resume H (sse_event_inject c H x r).1 q) = hstatus r) as Eh.
  { apply word_eq; [done|apply Hc|]. intros i Hi. by apply resumed_hstatus_bit. }
  revert Em Eh. unfold sse_event_resume. cbn zeta. destruct H; cbn [mstatus hstatus]; intros -> ->.
  all: rewrite Hs; by destruct r.
Qed.

(** The condition [spv_clear] is needed: an event that interrupts HS-mode code
    while [hstatus.SPV] still names a guest, as it does after a trap from the
    guest, is completed into virtual mode. *)
Lemma sse_resume_stale_spv c x r q :
  Z.testbit (hstatus r) 7 = true -> handler_kept c true x r q ->
  Z.testbit (mstatus (sse_event_resume true (sse_event_inject c true x r).1 q)) 39 = true.
Proof.
  intros Hspv (_ & Hh & _). rewrite (resumed_mstatus c true x r) by lia.
  change (Z.testbit (hstatus q) 7 = true). by rewrite Hh, injected_hstatus, Hspv by lia.
Qed.

(** After an injection the status word has every bit set but the pending one. *)
Lemma sse_injected_status c H x r :
  status (attrs (sse_event_inject c H x r).1) = 2 ^ 64 - 1 - BIT PENDING_OFFSET.
Proof. reflexivity. Qed.
