(* ===== verification/SbiSseRun.v ===== *)
(** * Supervisor software events: the inject queue and a concrete machine

    The IPI handler that empties the queue of injected events, the layout of its
    entries in the ring buffer, and a machine of two harts on which the theorems
    about software events are evaluated. *)

From S2P Require Import Prelude SbiString SbiFifo SbiHeap SbiBitops SbiScratch SbiHartmask SbiMemregion SbiDomain SbiHsm SbiTlb SbiHart SbiPmp SbiPmpRoot SbiSse SbiSseInv SbiSseCtx.

(** ** The queue of injected events *)

Section Drain.
Context {F : Type} `{!BoundedQueue F Z}.
Notation sse := (@sse F).
Variable hid : Z -> Z.

Definition pend (x : sbi_sse_event) : sbi_sse_event :=
  set_status (Z.lor (status (attrs x)) (BIT PENDING_OFFSET)) x.

Lemma pend_pend x : pend (pend x) = pend x.
Proof.
  unfold pend, set_status, set_attrs. cbn. do 2 f_equal.
  by rewrite <- Z.lor_assoc, Z.lor_diag.
Qed.

Lemma pend_enabled x : is_enabled (pend x) = is_enabled x.
Proof. unfold is_enabled, pend. by rewrite set_pending_state. Qed.

Lemma set_pending_spec e x (w : sse) :
  (sse_event_set_pending e x w).2 = if is_enabled x then put_event e (pend x) w else w.
Proof.
  unfold sse_event_set_pending, is_enabled. pose proof (state_range x).
  unfold SBI_SSE_STATE_RUNNING, SBI_SSE_STATE_ENABLED. by zcases; try lia.
Qed.

Lemma quiet_trans (w1 w2 w3 : sse) : quiet hid w1 w2 -> quiet hid w2 w3 -> quiet hid w1 w3.
Proof. intros [N1 K1] [N2 K2]. split; [by eapply neutral_trans|by eapply ks_trans]. Qed.

(** The search for an event looks at the identifiers only. *)
Definition same_ids (w w' : sse) : Prop :=
  global_event_count w' = global_event_count w /\ local_event_count w' = local_event_count w /\
  forall e, event_id <$> events w' !! e = event_id <$> events w !! e.

Lemma event_loop_ids w w' slot n i id :
  same_ids w w' -> event_loop w' slot n i id = event_loop w slot n i id.
Proof.
  intros (_ & _ & H). revert i. induction n as [|n IH]; intros i; cbn; [done|].
  specialize (H (slot i)).
  destruct (events w !! slot i), (events w' !! slot i); cbn in H; try done.
  injection H as H. rewrite !some_bind, H. by rewrite IH.
Qed.

Lemma event_get_ids w w' h id : same_ids w w' -> sse_event_get w' h id = sse_event_get w h id.
Proof.
  intros H. unfold sse_event_get. rewrite !(event_loop_ids w w') by done.
  by destruct H as (-> & -> & _).
Qed.

Lemma same_ids_pend e x (w : sse) : events w !! e = Some x -> same_ids w (put_event e (pend x) w).
Proof.
  intros Hx. split_and!; try done. intros e'. rewrite put_event_lookup.
  case_bool_decide; [subst e'; by rewrite Hx|done].
Qed.

(** The event [e] after the identifiers of [q] were handled on hart [h]. *)
Definition injected (w : sse) (h : Z) (q : list Z) (e : eref) (x : sbi_sse_event) : sbi_sse_event :=
  if is_enabled x && existsb (fun id => bool_decide (sse_event_get w h id = Some (inr e))) q
  then pend x else x.

Lemma injected_ids w w' h q e x : same_ids w w' -> injected w' h q e x = injected w h q e x.
Proof.
  intros Hids. unfold injected.
  assert (existsb (fun id => bool_decide (sse_event_get w' h id = Some (inr e))) q
        = existsb (fun id => bool_decide (sse_event_get w h id = Some (inr e))) q) as ->; [|done].
  induction q as [|a q IH]; cbn; [done|]. by rewrite IH, (event_get_ids w w').
Qed.

Lemma injected_cons w w' h id q e x y :
  same_ids w w' ->
  y = injected w h [id] e x -> injected w' h q e y = injected w h (id :: q) e x.
Proof.
  intros Hids ->. rewrite (injected_ids w w') by done. unfold injected. cbn [existsb]. rewrite orb_false_r.
  destruct (is_enabled x) eqn:Ex; cbn [andb]; [|by rewrite Ex].
  case_bool_decide; cbn [orb]; [|by rewrite Ex].
  rewrite pend_enabled, Ex. destruct (existsb _ q); cbn [andb]; by rewrite ?pend_pend.
Qed.

(** One queued identifier. *)
Lemma inject_one w h id e' :
  sse_wf hid w -> slots_ok w -> sse_event_get w h id = Some (inr e') ->
  forall x', events w !! e' = Some x' ->
  let w' := (sse_event_set_pending e' x' w).2 in
  quiet hid w w' /\ same_ids w w' /\ shs w' = shs w /\
  forall e x, events w !! e = Some x -> events w' !! e = Some (injected w h [id] e x).
Proof.
  intros W Hs Hget x' Hx' w'. split; [split; [by apply set_pending_neutral|apply set_pending_ks]|].
  unfold w'. rewrite set_pending_spec. split; [|split].
  - destruct (is_enabled x'); [by apply same_ids_pend|done].
  - by destruct (is_enabled x').
  - intros e x Hx. unfold injected. cbn [existsb]. rewrite orb_false_r, Hget.
    destruct (decide (e = e')) as [-> |Hne].
    + rewrite bool_decide_eq_true_2, andb_true_r by done. rewrite Hx in Hx'. injection Hx' as <-.
      destruct (is_enabled x); [by rewrite put_event_lookup, bool_decide_eq_true_2|done].
    + rewrite bool_decide_eq_false_2, andb_false_r by congruence.
      destruct (is_enabled x'); [|done]. by rewrite put_event_lookup, bool_decide_eq_false_2.
Qed.

Lemma inject_process_spec fuel w h s q :
  sse_wf hid w -> slots_ok w -> shs w !! h = Some s -> bq_inv (inject_fifo s) ->
  bq_abs (inject_fifo s) = q -> (length q < fuel)%nat ->
  exists w' f, sse_ipi_inject_process h fuel w = Some w' /\
    shs w' !! h = Some (set_fifo f s) /\ bq_inv f /\ bq_abs f = [] /\ quiet hid w w' /\
    forall e x, events w !! e = Some x -> events w' !! e = Some (injected w h q e x).
Proof.
  revert w s q. induction fuel as [|fuel IH]; intros w s q W Hs Hself Hinv Hq Hf; [lia|].
  cbn [sse_ipi_inject_process]. rewrite Hself, some_bind.
  pose proof (bq_dequeue_ok (inject_fifo s) Hinv) as Hd.
  destruct (bq_dequeue (inject_fifo s)) as [[rc o] f]. destruct Hd as (Hif & Hcap & Hd). rewrite Hq in Hd.
  set (w1 := put_shs h (set_fifo f s) w).
  assert (quiet hid w w1) as Q1
    by (split; [by eapply put_shs_neutral|by eapply ks_shs]).
  assert (same_ids w w1) as I1 by done.
  destruct q as [|id q]; cbn in Hd; injection Hd as -> -> Hf'.
  - exists w1, f. split; [done|]. split; [apply lookup_insert_eq|]. split_and!; try done.
    intros e x Hx. cbn. unfold injected. cbn. by rewrite andb_false_r.
  - assert (shs w1 !! h = Some (set_fifo f s)) as Hself1 by apply lookup_insert_eq.
    assert (slots_ok w1) as Hs1 by (eapply keeps_slots_ok; [apply Q1|done]).
    destruct (event_get_spec w1 h id Hs1) as (r & Hget & Hr); [by eexists|].
    rewrite Hget, some_bind. destruct r as [rc|e'].
    + destruct (IH w1 (set_fifo f s) q) as (w' & f' & -> & Hsh & Hi & Ha & Q2 & Hev);
        [apply Q1|done|done|done|done|cbn in Hf; lia|].
      exists w', f'. split_and!; try done;
        [by eapply quiet_trans|].
      intros e x Hx. rewrite (Hev e x Hx). f_equal. apply injected_cons; [done|].
      unfold injected. cbn [existsb]. rewrite orb_false_r, <- (event_get_ids w w1 h id I1), Hget.
      by rewrite bool_decide_eq_false_2, andb_false_r by done.
    + destruct (Hr e' eq_refl) as (x' & Hx' & _). rewrite Hx', some_bind.
      destruct (inject_one w1 h id e' (proj1 (proj1 Q1)) Hs1 Hget x' Hx') as (Q2 & I2 & Hsh2 & Hev2).
      set (w2 := (sse_event_set_pending e' x' w1).2) in *.
      destruct (IH w2 (set_fifo f s) q) as (w' & f' & -> & Hsh & Hi & Ha & Q3 & Hev);
        [apply Q2|eapply keeps_slots_ok; [apply Q2|done]|by rewrite Hsh2|done|done|cbn in Hf; lia|].
      assert (same_ids w w2) as I by exact I2.
      exists w', f'. split_and!; try done.
      * eapply quiet_trans; [done|]. by eapply quiet_trans.
      * intros e x Hx. rewrite (Hev e _ (Hev2 e x Hx)). f_equal. apply (injected_cons w w2); [done|by apply injected_ids].
Qed.
End Drain.

(** C39: an injection that goes through an IPI is not lost: the handler on the
    target hart ends after one round per queued identifier, leaves the queue
    empty, marks as pending exactly the enabled or running events the queue
    names and changes no other event, no list of enabled events and nothing that
    runs. *)
Theorem sse_injected_become_pending {F : Type} {BQ : BoundedQueue F Z} (hid : Z -> Z)
    fuel (w : sse (F := F)) h s q :
  sse_wf hid w -> slots_ok w -> shs w !! h = Some s -> bq_inv (inject_fifo s) ->
  bq_abs (inject_fifo s) = q -> (length q < fuel)%nat ->
  exists w' f, sse_ipi_inject_process h fuel w = Some w' /\
    shs w' !! h = Some (set_fifo f s) /\ bq_abs f = [] /\ sse_wf hid w' /\
    (forall k, running w' k = running w k) /\
    forall e x, events w !! e = Some x -> events w' !! e = Some (injected w h q e x).
Proof.
  intros W Hs Hself Hi Hq Hf.
  destruct (inject_process_spec hid fuel w h s q W Hs Hself Hi Hq Hf)
    as (w' & f & Hp & Hsh & _ & Ha & [[W' Hrun] _] & Hev).
  exists w', f. by split_and!.
Qed.

(** ** Event identifiers in the ring buffer: 4 bytes, little endian *)

#[export] Instance event_id_codec : EntryCodec Z.
Proof.
  refine {| enc := le_enc 4; dec := le_dec; esize := 4; evalid := fun id => 0 <= id < 2 ^ 32 |}.
  - done.
  - intros id _. apply le_enc_byte.
  - intros id Hid. by apply le_dec_enc.
  - intros bs Hl Hb. by apply (le_dec_range bs 4).
Defined.

(** ** A machine of two harts

    Hart 0 runs the handler of its PMU event when the more urgent global RAS
    event becomes pending; hart 1 has registered its PMU event only. *)

Definition demo_ring0 : ring := mkRing (mk_fifo 0x9000 4 5 0 0) (fun _ => 0) 0x8000.
Definition demo_ring1 : ring := (ring_enqueue demo_ring0 SBI_SSE_EVENT_GLOBAL_RAS false).2.

Lemma demo_ring0_inv : ring_inv demo_ring0.
Proof.
  split; [split; cbn; lia|]. split; [by intros a; cbn|]. split; [done|]. split; [done|].
  split; [left; cbn; lia|]. by exists [].
Qed.

Lemma demo_ring1_spec : ring_inv demo_ring1 /\ ring_abs demo_ring1 = [SBI_SSE_EVENT_GLOBAL_RAS].
Proof.
  pose proof (ring_enqueue_ok demo_ring0 SBI_SSE_EVENT_GLOBAL_RAS false demo_ring0_inv) as H.
  unfold demo_ring1. destruct (ring_enqueue _ _ _) as [rc q]. destruct H as (Hi & _ & Ha); [by vm_compute|].
  vm_compute in Ha. injection Ha as _ Ha. by split.
Qed.

Definition demo_attrs (status prio hartid : Z) : sbi_sse_event_attrs :=
  mkAttrs status prio 0 hartid (mkEntry 0x80200000 0) (mkInt 0 0 0 0).

Definition demo_event (status prio hartid id : Z) : sbi_sse_event :=
  mkEvent (demo_attrs status prio hartid) id hartid (mkInfo id None).

Definition demo_events (ras_status : Z) : gmap eref sbi_sse_event :=
  <[EGlobal 0 := demo_event ras_status 0 0 SBI_SSE_EVENT_GLOBAL_RAS]>
  (<[ELocal 0 0 := demo_event 11 5 0 SBI_SSE_EVENT_LOCAL_PMU]>
  (<[ELocal 1 0 := demo_event 9 5 1 SBI_SSE_EVENT_LOCAL_PMU]> ∅)).

Definition demo_shs : gmap Z (sse_hart_state (F := ring)) :=
  <[0 := mkShs [EGlobal 0; ELocal 0 0] false demo_ring1]> (<[1 := mkShs [] true demo_ring0]> ∅).

Definition demo_sse (ras_status : Z) : sse (F := ring) :=
  mkSse (demo_events ras_status) 1 1 demo_shs [] [].

Lemma demo_events_cases s e x : demo_events s !! e = Some x ->
  (e = EGlobal 0 /\ x = demo_event s 0 0 SBI_SSE_EVENT_GLOBAL_RAS) \/
  (e = ELocal 0 0 /\ x = demo_event 11 5 0 SBI_SSE_EVENT_LOCAL_PMU) \/
  (e = ELocal 1 0 /\ x = demo_event 9 5 1 SBI_SSE_EVENT_LOCAL_PMU).
Proof.
  unfold demo_events. intros H. apply lookup_insert_Some in H as [[<- <-]|[_ H]]; [by auto|].
  apply lookup_insert_Some in H as [[<- <-]|[_ H]]; [by auto|].
  apply lookup_insert_Some in H as [[<- <-]|[_ H]]; [by auto|]. by rewrite lookup_empty in H.
Qed.

Lemma demo_shs_cases h s : demo_shs !! h = Some s ->
  (h = 0 /\ s = mkShs [EGlobal 0; ELocal 0 0] false demo_ring1) \/ (h = 1 /\ s = mkShs [] true demo_ring0).
Proof.
  unfold demo_shs. intros H. apply lookup_insert_Some in H as [[<- <-]|[_ H]]; [by auto|].
  apply lookup_insert_Some in H as [[<- <-]|[_ H]]; [by auto|]. by rewrite lookup_empty in H.
Qed.

Lemma demo_wf s : s = 10 \/ s = 14 -> sse_wf (fun h => h) (demo_sse s).
Proof.
  intros Hs. split.
  - intros e x [[-> ->]|[[-> ->]|[-> ->]]]%demo_events_cases; destruct Hs as [-> | ->]; by vm_compute.
  - intros e x [[-> ->]|[[-> ->]|[-> ->]]]%demo_events_cases; by eexists.
  - intros h t [[-> ->]|[-> ->]]%demo_shs_cases; cbn; [|constructor].
    apply NoDup_cons. split; [by intros ?%list_elem_of_singleton|]. apply NoDup_singleton.
  - intros h t [[-> ->]|[-> ->]]%demo_shs_cases; cbn; repeat constructor.
    intros xa xb Ha Hb. cbn in Ha, Hb. vm_compute in Ha, Hb. injection Ha as <-. injection Hb as <-. done.
  - intros h t e [[-> ->]|[-> ->]]%demo_shs_cases; cbn [enabled_event_list]; split.
    + rewrite elem_of_cons, list_elem_of_singleton.
      intros [-> | ->]; eexists; (split; [reflexivity|]); destruct Hs as [-> | ->]; by vm_compute.
    + intros (x & [[-> ->]|[[-> ->]|[-> ->]]]%demo_events_cases & He & Hh); [by left|by right; left|done].
    + intros H. by apply elem_of_nil in H.
    + intros (x & [[-> ->]|[[-> ->]|[-> ->]]]%demo_events_cases & He & Hh); done.
Qed.

Lemma demo_slots s : slots_ok (demo_sse s).
Proof.
  split.
  - intros [|i] Hi; [by eexists|]. cbn in Hi. lia.
  - intros h [|i] [t Ht] Hi; [|cbn in Hi; lia].
    apply demo_shs_cases in Ht as [[-> _]|[-> _]]; by eexists.
Qed.

(** The root domain of the machine: one region of all addresses, and hart 0. *)
Definition demo_dom : sbi_domain :=
  mkDom 0 (mkMask [1; 0]) (Some (mkMask [3; 0])) (Some [mkReg 64 0 0x3f; mkReg 0 0 0])
    0 0 0x80200000 PRV_S true true true.

Definition demo_env : domain_state :=
  mkDS (<[0 := demo_dom]> ∅) [0] 1 true 1 0 ∅ (mkScratch 1 [0; 1] [0x1000; 0x2000] 120).

(** One region is looked at once, whatever the range. *)
Lemma demo_range a n mode acc :
  is_Some (sbi_domain_check_addr_range (Some demo_dom) a n mode acc).
Proof.
  unfold sbi_domain_check_addr_range. change (range_fuel demo_dom) with 4%nat. cbn [addr_range_loop].
  destruct (_ <? _); [|by eexists].
  destruct (find_region demo_dom a) as [reg|] eqn:Hf; [|by eexists].
  destruct (negb _); [by eexists|].
  assert (reg = (0%nat, mkReg 64 0 0x3f)) as ->.
  { revert Hf. unfold find_region. change (dom_regions demo_dom) with [mkReg 64 0 0x3f].
    cbn [find_region_loop]. by destruct (region_hit _ a); intros [= <-]. }
  by eexists.
Qed.

Lemma demo_index i : exists idx, sbi_hartid_to_hartindex (scr demo_env) i = Some idx /\
  (idx = 0 \/ idx = 1 \/ idx = NEG1U).
Proof.
  unfold sbi_hartid_to_hartindex. cbn [scr demo_env]. change (Z.to_nat _) with 2%nat.
  cbn [hartid_loop hartindex_to_hartid_table]. change (rd [0; 1] 0) with (Some 0). rewrite some_bind.
  destruct (0 =? i); [exists 0; by auto|]. change (rd [0; 1] (0 + 1)) with (Some 1). rewrite some_bind.
  destruct (1 =? i); [exists 1; by auto|]. exists NEG1U. by auto.
Qed.

Lemma demo_env_ok s : env_ok demo_env 0 0 (demo_sse s).
Proof.
  split.
  - by eexists.
  - intros. apply demo_range.
  - intros i. destruct (demo_index i) as (idx & -> & _). by eexists.
  - intros i idx Hi. destruct (demo_index i) as (idx' & Hi' & Hc). rewrite Hi in Hi'. injection Hi' as <-.
    destruct Hc as [-> |[-> | ->]]; [exists 0x1000|exists 0x2000|exists 0]; split; try done; by eexists.
  - intros idx. unfold sbi_domain_is_assigned_hart. change (domains demo_env !! 0) with (Some demo_dom).
    cbn [assigned_harts demo_dom]. unfold sbi_hartmask_test_hartindex, SBI_HARTMASK_MAX_BITS. cbn [bits].
    intros Hb. destruct (Z_lt_le_dec idx 0) as [Hneg|Hpos].
    { exfalso. revert Hb. destruct (idx <? 128); [|done]. unfold test_bit, rd, BIT_WORD, BITS_PER_LONG.
      assert (idx / 64 < 0) as ->%Z.ltb_lt by (apply Z.div_lt_upper_bound; lia).
      change (default 0 None) with 0. by rewrite Z.shiftr_0_l. }
    destruct (idx <? 128); [|done]. rewrite test_bit_spec in Hb by done. unfold bit_at, rd in Hb.
    destruct (_ <? 0); [done|]. assert (0 <= idx / 64) by (apply Z.div_pos; lia).
    destruct (Z.to_nat (idx / 64)) as [|[|k]] eqn:Ek; cbn in Hb; [|by rewrite Z.bits_0 in Hb|done].
    assert (idx mod 64 = 0) as E.
    { destruct (decide (idx mod 64 = 0)); [done|]. pose proof (Z.mod_pos_bound idx 64).
      change 1 with (2 ^ 0) in Hb. rewrite Z.pow2_bits_false in Hb by lia. done. }
    pose proof (Z.div_mod idx 64). assert (idx = 0) as -> by lia. by eexists.
Qed.

Definition demo_regs : sse_regs := mkRegs 6 7 0x80201000 0x822 0x80202000 0.
Definition demo_feat : sbi_hart_features := mkFeat true 3 [0; 0] 16 54 12 0 0.
Definition demo_pmp : Hw.pmp := Hw.mkPmp (fun _ => 0) (fun _ => 0) 0.
Definition demo_machine (s : Z) : machine := mkMachine (demo_sse s) (fun _ => 0) demo_pmp demo_regs.

(** Completing the PMU event empties the stack of hart 0. *)
Lemma sse_calls_nest_witness :
  exists rc st', sbi_ecall_sse_handler 0 0 false demo_env (mkW ∅ None) 0 (fun _ => 0) demo_feat 56
                   SBI_EXT_SSE_COMPLETE 0 0 0 0 0 (fun _ => 0) (demo_machine 10) = Some (rc, st') /\
    sse_wf (fun h => h) (m_sse st') /\ running (demo_sse 10) 0 = [ELocal 0 0] /\ running (m_sse st') 0 = [].
Proof.
  destruct (sse_calls_nest (fun h => h) demo_env (mkW ∅ None) 0 0 (fun _ => 0) false demo_feat 56
              SBI_EXT_SSE_COMPLETE 0 0 0 0 0 (demo_machine 10) (demo_wf 10 (or_introl eq_refl)) (demo_slots 10)
              (demo_env_ok 10)) as (rc & st' & E & W & _ & R & _).
  exists rc, st'. split; [exact E|]. split; [exact W|]. split; [reflexivity|exact R].
Defined.

(** The RAS event interrupts the handler of the PMU event. *)
Lemma sse_delivery_most_urgent_witness :
  exists w' r', sbi_sse_process_pending_events 0 0 false (demo_sse 14) demo_regs = Some (w', r') /\
    running w' 0 = [EGlobal 0; ELocal 0 0].
Proof.
  destruct (sse_delivery_most_urgent (fun h => h) 0 (mkShs [EGlobal 0; ELocal 0 0] false demo_ring1) false
              (demo_sse 14) demo_regs (demo_wf 14 (or_intror eq_refl)) (demo_slots 14) eq_refl)
    as (w' & r' & E & _).
  exists w', r'. split; [exact E|].
  pose proof (f_equal (option_map (fun p => running p.1 0)) E) as R. vm_compute in R.
  injection R as R. symmetry. exact R.
Defined.

(** The queued RAS event becomes pending. *)
Lemma sse_injected_become_pending_witness :
  exists w' f, sse_ipi_inject_process 0 2 (demo_sse 10) = Some w' /\
    shs w' !! 0 = Some (set_fifo f (mkShs [EGlobal 0; ELocal 0 0] false demo_ring1)) /\ bq_abs f = [] /\
    events w' !! EGlobal 0 = Some (pend (demo_event 10 0 0 SBI_SSE_EVENT_GLOBAL_RAS)).
Proof.
  destruct (sse_injected_become_pending (BQ := ring_queue) (fun h => h) 2 (demo_sse 10) 0
              (mkShs [EGlobal 0; ELocal 0 0] false demo_ring1) [SBI_SSE_EVENT_GLOBAL_RAS]
              (demo_wf 10 (or_introl eq_refl)) (demo_slots 10) eq_refl (proj1 demo_ring1_spec)
              (proj2 demo_ring1_spec)) as (w' & f & E & Hs & Ha & _ & _ & Hev); [cbn; lia|].
  exists w', f. split; [exact E|]. split; [exact Hs|]. split; [exact Ha|].
  exact (Hev (EGlobal 0) (demo_event 10 0 0 SBI_SSE_EVENT_GLOBAL_RAS) eq_refl).
Defined.

(** A user-mode program of a hart without a hypervisor, interrupted with its
    interrupts on. *)
Lemma sse_inject_complete_roundtrip_witness :
  sse_event_resume false
    (sse_event_inject 0 false (demo_event 14 0 0 SBI_SSE_EVENT_GLOBAL_RAS) demo_regs).1
    (sse_event_inject 0 false (demo_event 14 0 0 SBI_SSE_EVENT_GLOBAL_RAS) demo_regs).2 = demo_regs.
Proof.
  apply sse_inject_complete_roundtrip.
  - split; [cbn; lia|]. split; [cbn; lia|]. by split.
  - discriminate.
  - split; [reflexivity|]. split; [reflexivity|]. split; [vm_compute; split; [discriminate|reflexivity]|].
    reflexivity.
  - reflexivity.
Defined.

(** ** The attribute values are fetched twice *)

Definition demo_started : hsm_world :=
  mkW (<[0 := mkHart (mkHsm SBI_HSM_STATE_STARTED 0 0 0 0 0 0) 0 0 PRV_S 0 (mkCsrs 0 0 0 0)]> ∅) None.

(** The RAS event is registered, not enabled. *)
Definition demo_registered : machine :=
  mkMachine (mkSse (demo_events 9) 1 1 (<[0 := mkShs [ELocal 0 0] false demo_ring0]> demo_shs) [] [])
    (fun _ => 0) demo_pmp demo_regs.

(** Another hart that changes the buffer between the check and the use gets an
    unchecked value into the event: the call succeeds, and the next call that
    enables the event follows the table of harts out of range. *)
Lemma sse_write_attrs_double_fetch :
  exists st', sbi_ecall_sse_handler 0 0 false demo_env demo_started 0 (fun _ => 0) demo_feat 56
      SBI_EXT_SSE_WRITE_ATTR SBI_SSE_EVENT_GLOBAL_RAS SBI_SSE_ATTR_PREFERRED_HART 1 0x80300000 0
      (store_le (fun _ => 0) 0x80300000 8 99) demo_registered = Some (SBI_OK, st') /\
    sbi_ecall_sse_handler 0 0 false demo_env demo_started 0 (fun _ => 0) demo_feat 56
      SBI_EXT_SSE_ENABLE SBI_SSE_EVENT_GLOBAL_RAS 0 0 0 0 (fun _ => 0) st' = None.
Proof.
  destruct (sbi_ecall_sse_handler _ _ _ _ _ _ _ _ _ _ _ _ _ _ _ _ demo_registered) as [[rc st']|] eqn:E;
    [|by vm_compute in E].
  exists st'. split.
  - pose proof (f_equal (option_map fst) E) as R. vm_compute in R. by injection R as <-.
  - pose proof (f_equal (option_map (fun p => m_sse p.2)) E) as R. cbn [option_map] in R.
    unfold sbi_ecall_sse_handler. cbn [snd] in R.
    change (put_sse st' <$> sbi_sse_enable 0 SBI_SSE_EVENT_GLOBAL_RAS (m_sse st') = None).
    injection R as <-. by vm_compute.
Qed.
