(* ===== verification/SbiTrap.v ===== *)
(** * Trap redirection (lib/sbi/sbi_trap.c, include/sbi/sbi_trap.h)

    A trap that machine mode takes but does not want is handed to the supervisor:
    [sbi_trap_redirect] writes the registers as if the hart had taken the trap
    there.  Module [Hw] states how a hart enters a trap and returns from one (the
    privileged architecture with the hypervisor extension and landing pads), and
    the theorem compares the two.  The 64-bit variant. *)

From S2P Require Import Prelude SbiString SbiFifo SbiHeap SbiBitops SbiScratch SbiHartmask SbiMemregion SbiDomain SbiHsm SbiHart SbiPmp SbiPmpRoot SbiSse SbiSseInv SbiSseCtx.

Definition MSTATUS_FS : Z := 0x6000.
Definition MSTATUS_SPELP : Z := 0x800000.
Definition MSTATUS_GVA : Z := 0x4000000000.
Definition MSTATUS_MPELP : Z := 0x20000000000.
Definition HSTATUS_GVA : Z := 0x40.

(** [zero] to [t6] in the order of the structure, which is that of the register
    numbers. *)
Record sbi_trap_regs := mkTregs { gprs : list Z; r_mepc : Z; r_mstatus : Z }.

Record sbi_trap_info := mkTinfo { t_cause : Z; t_tval : Z; t_tval2 : Z; t_tinst : Z; t_gva : Z }.

(** The control registers of the hart that redirection reads and writes. *)
Record trap_csrs := mkTcsrs {
  c_hedeleg : Z; c_hstatus : Z; c_htval : Z; c_htinst : Z;
  c_vstval : Z; c_vsepc : Z; c_vscause : Z; c_vstvec : Z; c_vsstatus : Z;
  c_stval : Z; c_sepc : Z; c_scause : Z; c_stvec : Z }.

Definition csr_write_htrap (hstatus tval2 tinst : Z) (c : trap_csrs) : trap_csrs :=
  mkTcsrs (c_hedeleg c) hstatus tval2 tinst (c_vstval c) (c_vsepc c) (c_vscause c) (c_vstvec c)
    (c_vsstatus c) (c_stval c) (c_sepc c) (c_scause c) (c_stvec c).

Definition csr_write_vstrap (tval epc cause : Z) (c : trap_csrs) : trap_csrs :=
  mkTcsrs (c_hedeleg c) (c_hstatus c) (c_htval c) (c_htinst c) tval epc cause (c_vstvec c)
    (c_vsstatus c) (c_stval c) (c_sepc c) (c_scause c) (c_stvec c).

Definition csr_write_vsstatus (v : Z) (c : trap_csrs) : trap_csrs :=
  mkTcsrs (c_hedeleg c) (c_hstatus c) (c_htval c) (c_htinst c) (c_vstval c) (c_vsepc c) (c_vscause c)
    (c_vstvec c) v (c_stval c) (c_sepc c) (c_scause c) (c_stvec c).

Definition csr_write_strap (tval epc cause : Z) (c : trap_csrs) : trap_csrs :=
  mkTcsrs (c_hedeleg c) (c_hstatus c) (c_htval c) (c_htinst c) (c_vstval c) (c_vsepc c) (c_vscause c)
    (c_vstvec c) (c_vsstatus c) tval epc cause (c_stvec c).

Definition sbi_regs_gva (r : sbi_trap_regs) : Z := if has_bits (r_mstatus r) MSTATUS_GVA then 1 else 0.

Definition sbi_regs_from_virt (r : sbi_trap_regs) : bool := has_bits (r_mstatus r) MSTATUS_MPV.

Definition sbi_mstatus_prev_mode (mstatus : Z) : Z := Z.shiftr (Z.land mstatus MSTATUS_MPP) MSTATUS_MPP_SHIFT.

Section Redirect.
(** [misa_extension('H')] and the features of the hart. *)
Variables (H : bool) (feat : sbi_hart_features).

Definition set_mstatus (v : Z) (r : sbi_trap_regs) : sbi_trap_regs := mkTregs (gprs r) (r_mepc r) v.
Definition set_mepc (v : Z) (r : sbi_trap_regs) : sbi_trap_regs := mkTregs (gprs r) v (r_mstatus r).

(** What the last part does to a status register: SPP, SPIE, SIE. *)
Definition enter_status (prev_s : bool) (v : Z) : Z :=
  let v := Z.land v (not64 MSTATUS_SPP) in
  let v := set_bits prev_s MSTATUS_SPP v in
  let v := Z.land v (not64 MSTATUS_SPIE) in
  let v := set_bits (has_bits v MSTATUS_SIE) MSTATUS_SPIE v in
  Z.land v (not64 MSTATUS_SIE).

Definition sbi_trap_redirect (r : sbi_trap_regs) (trap : sbi_trap_info) (c : trap_csrs)
    : Z * sbi_trap_regs * trap_csrs :=
  let prev_virt := sbi_regs_from_virt r in
  let prev_mode := sbi_mstatus_prev_mode (r_mstatus r) in
  if negb (prev_mode =? PRV_S) && negb (prev_mode =? PRV_U) then (SBI_ENOTSUPP, r, c)
  else
    let prev_s := prev_mode =? PRV_S in
    let zicfilp := sbi_hart_has_extension feat SBI_HART_EXT_ZICFILP in
    let elp := zicfilp && has_bits (r_mstatus r) MSTATUS_MPELP in
    let ms := if zicfilp then Z.land (r_mstatus r) (not64 MSTATUS_MPELP) else r_mstatus r in
    let next_virt := H && prev_virt && (t_cause trap <? 64) && has_bits (c_hedeleg c) (BIT (t_cause trap)) in
    let ms := Z.land ms (not64 MSTATUS_MPV) in
    let ms := set_bits next_virt MSTATUS_MPV ms in
    let c :=
      if H && negb next_virt then
        let hs := c_hstatus c in
        let hs := if prev_virt then set_bits prev_s HSTATUS_SPVP (Z.land hs (not64 HSTATUS_SPVP)) else hs in
        let hs := set_bits prev_virt HSTATUS_SPV (Z.land hs (not64 HSTATUS_SPV)) in
        let hs := set_bits (negb (t_gva trap =? 0)) HSTATUS_GVA (Z.land hs (not64 HSTATUS_GVA)) in
        csr_write_htrap hs (t_tval2 trap) (t_tinst trap) c
      else c in
    if next_virt then
      let c := csr_write_vstrap (t_tval trap) (r_mepc r) (t_cause trap) c in
      let r := set_mepc (c_vstvec c) r in
      let ms := Z.land ms (not64 MSTATUS_MPP) in
      let ms := Z.lor ms (u64 (Z.shiftl PRV_S MSTATUS_MPP_SHIFT)) in
      let vs := set_bits elp MSTATUS_SPELP (c_vsstatus c) in
      (0, set_mstatus ms r, csr_write_vsstatus (enter_status prev_s vs) c)
    else
      let c := csr_write_strap (t_tval trap) (r_mepc r) (t_cause trap) c in
      let r := set_mepc (c_stvec c) r in
      let ms := Z.land ms (not64 MSTATUS_MPP) in
      let ms := Z.lor ms (u64 (Z.shiftl PRV_S MSTATUS_MPP_SHIFT)) in
      let ms := enter_status prev_s ms in
      (0, set_mstatus (set_bits elp MSTATUS_SPELP ms) r, c).

End Redirect.

(** ** The hardware *)

Module Hw.

(** A hart: its mode, whether it is virtual, whether it expects a landing pad. *)
Record hart := mkHart {
  mode : Z; virt : bool; pc : Z; elp : bool; mstatus : Z; csr : trap_csrs }.

Definition put (k : Z) (b : bool) (v : Z) : Z := if b then Z.setbit v k else Z.clearbit v k.

Section Rules.
(** The hypervisor extension; landing pads. *)
Variables (H zicfilp : bool).

(** [mstatus] when a trap enters machine mode. *)
Definition mtrap_status (gva : bool) (h : hart) : Z :=
  let v := mstatus h in
  let v := put 7 (Z.testbit v 3) v in
  let v := put 3 false v in
  let v := put 11 (mode h =? PRV_S) v in
  let v := put 12 false v in
  let v := if H then put 39 (virt h) (put 38 gva v) else v in
  if zicfilp then put 41 (elp h) v else v.

(** MRET with the given [mepc] and [mstatus], to supervisor or user mode. *)
Definition mret (mepc v : Z) (c : trap_csrs) : hart :=
  let mode := if Z.testbit v 11 then PRV_S else PRV_U in
  let virt := H && Z.testbit v 39 in
  let elp := zicfilp && Z.testbit v 41 in
  let v := put 3 (Z.testbit v 7) v in
  let v := put 7 true v in
  let v := put 11 false (put 12 false v) in
  let v := put 17 false v in
  let v := if H then put 39 false v else v in
  let v := if zicfilp then put 41 false v else v in
  mkHart mode virt (Z.clearbit mepc 0) elp v c.

(** The fields of [sstatus] or [vsstatus] on entry. *)
Definition strap_status (h : hart) (v : Z) : Z :=
  let v := put 5 (Z.testbit v 1) v in
  let v := put 1 false v in
  let v := put 8 (mode h =? PRV_S) v in
  if zicfilp then put 23 (elp h) v else v.

(** Does the trap go to VS-mode, as [hedeleg] says? *)
Definition to_vs (t : sbi_trap_info) (h : hart) : bool :=
  virt h && (t_cause t <? 64) && Z.testbit (c_hedeleg (csr h)) (t_cause t).

(** A hart that takes the trap [t] in supervisor mode. *)
Definition strap (t : sbi_trap_info) (h : hart) : hart :=
  let c := csr h in
  if to_vs t h then
    mkHart PRV_S true (c_vstvec c / 4 * 4) false (mstatus h)
      (csr_write_vsstatus (strap_status h (c_vsstatus c))
         (csr_write_vstrap (t_tval t) (pc h) (t_cause t) c))
  else
    let c :=
      if H then
        let hs := c_hstatus c in
        let hs := if virt h then put 8 (mode h =? PRV_S) hs else hs in
        let hs := put 6 (negb (t_gva t =? 0)) (put 7 (virt h) hs) in
        csr_write_htrap hs (t_tval2 t) (t_tinst t) c
      else c in
    mkHart PRV_S false (c_stvec c / 4 * 4) false (strap_status h (mstatus h))
      (csr_write_strap (t_tval t) (pc h) (t_cause t) c).

(** The registers are 64 bits wide, the hart is in S- or U-mode, virtual only
    with the extension, the trap vectors have one of the two defined modes, and a
    hart without landing pads expects none. *)
Record hart_ok (h : hart) : Prop := {
  hok_mode : mode h = PRV_S \/ mode h = PRV_U;
  hok_virt : H = false -> virt h = false /\ Z.testbit (mstatus h) 39 = false;
  hok_elp : zicfilp = false -> elp h = false;
  hok_mstatus : 0 <= mstatus h < 2 ^ 64;
  hok_vsstatus : 0 <= c_vsstatus (csr h) < 2 ^ 64;
  hok_hstatus : 0 <= c_hstatus (csr h) < 2 ^ 64;
  hok_stvec : Z.testbit (c_stvec (csr h)) 1 = false;
  hok_vstvec : Z.testbit (c_vstvec (csr h)) 1 = false;
}.

(** The bits of [mstatus] only machine mode sees: MPIE, MPP, MPRV, GVA, MPV,
    MPELP. *)
Definition m_only (i : Z) : bool :=
  (i =? 7) || (i =? 11) || (i =? 12) || (i =? 17) || (i =? 38) || (i =? 39) || (i =? 41).

(** Two harts look the same from below machine mode. *)
Definition same_below (h1 h2 : hart) : Prop :=
  mode h1 = mode h2 /\ virt h1 = virt h2 /\ pc h1 = pc h2 /\ elp h1 = elp h2 /\ csr h1 = csr h2 /\
  forall i, 0 <= i -> m_only i = false -> Z.testbit (mstatus h1) i = Z.testbit (mstatus h2) i.

End Rules.
End Hw.

(** ** Bits *)

Lemma put_bit k b v i : 0 <= k -> Z.testbit (Hw.put k b v) i = if i =? k then b else Z.testbit v i.
Proof.
  intros Hk. unfold Hw.put. destruct (Z.eqb_spec i k) as [->|Hn].
  - destruct b; [by rewrite Z.setbit_eq|by rewrite Z.clearbit_eq].
  - destruct b; [by rewrite Z.setbit_neq by lia|by rewrite Z.clearbit_neq].
Qed.

Lemma bits_range v : 0 <= v -> (forall i, 64 <= i -> Z.testbit v i = false) -> 0 <= v < 2 ^ 64.
Proof.
  intros Hv Hb. split; [done|]. destruct (Z.eq_dec v 0) as [-> |Hz]; [lia|].
  apply Z.log2_lt_pow2; [lia|]. destruct (Z.lt_ge_cases (Z.log2 v) 64) as [|Hge]; [done|].
  specialize (Hb _ Hge). by rewrite Z.bit_log2 in Hb by lia.
Qed.

Lemma put_range k b v : 0 <= k < 64 -> 0 <= v < 2 ^ 64 -> 0 <= Hw.put k b v < 2 ^ 64.
Proof.
  intros Hk Hv. apply bits_range.
  - destruct b; cbn [Hw.put]; [apply Z.lor_nonneg; split; [lia|by apply Z.shiftl_nonneg]|]. apply Z.ldiff_nonneg. lia.
  - intros i Hi. rewrite put_bit by lia. destruct (Z.eqb_spec i k); [lia|]. by apply (bits_above 64).
Qed.

Lemma prev_mode_bits v : sbi_mstatus_prev_mode v = Z.b2z (Z.testbit v 11) + 2 * Z.b2z (Z.testbit v 12).
Proof.
  unfold sbi_mstatus_prev_mode. change MSTATUS_MPP with (Z.shiftl (Z.ones 2) 11). change MSTATUS_MPP_SHIFT with 11.
  apply Z.bits_inj'. intros i Hi. rewrite Z.shiftr_spec, Z.land_spec, Z.shiftl_spec by lia.
  replace (i + 11 - 11) with i by lia.
  destruct (Z.eq_dec i 0) as [-> |]; [|destruct (Z.eq_dec i 1) as [-> |]].
  - change (0 + 11) with 11. by destruct (Z.testbit v 11), (Z.testbit v 12).
  - change (1 + 11) with 12. by destruct (Z.testbit v 11), (Z.testbit v 12).
  - rewrite Z.ones_spec_high, andb_false_r by lia. symmetry.
    apply (bits_above 2); [|lia]. destruct (Z.testbit v 11), (Z.testbit v 12); cbn; lia.
Qed.

Create Rewrite HintDb tbits.
#[export] Hint Rewrite set_bits_bit Z.lor_spec : tbits.
#[export] Hint Rewrite clear_bit_bit has_pow Z.pow2_bits_eqb put_bit using lia : tbits.

(** The masks as powers of two. *)
Ltac tmasks :=
  masks; change MSTATUS_SPELP with (2 ^ 23) in *; change MSTATUS_GVA with (2 ^ 38) in *;
  change MSTATUS_MPELP with (2 ^ 41) in *; change HSTATUS_GVA with (2 ^ 6) in *;
  change MSTATUS_MPP with (Z.lor (2 ^ 11) (2 ^ 12)) in *.

(** Evaluate the comparisons of a constant bit, or of one known to differ. *)
Ltac bit_cases :=
  repeat match goal with
    | |- context [Z.eqb ?a ?b] =>
        first [rewrite (proj2 (Z.eqb_neq a b)) by lia | rewrite (proj2 (Z.eqb_eq a b)) by lia]
    end; bools.

Lemma enter_status_bits s v i : 0 <= i < 64 ->
  Z.testbit (enter_status s v) i =
    if i =? 1 then false else if i =? 5 then Z.testbit v 1 else if i =? 8 then s else Z.testbit v i.
Proof.
  intros Hi. unfold enter_status. tmasks. autorewrite with tbits.
  assert (i = 1 \/ i = 5 \/ i = 8 \/ (i <> 1 /\ i <> 5 /\ i <> 8)) as [-> |[-> |[-> |(?&?&?)]]] by lia.
  1-3: by destruct s, (Z.testbit v 1), (Z.testbit v 5), (Z.testbit v 8).
  by bit_cases.
Qed.

Lemma enter_status_range s v : 0 <= v < 2 ^ 64 -> 0 <= enter_status s v < 2 ^ 64.
Proof.
  intros Hv. unfold enter_status. repeat first [apply clear_range | apply set_range; [|by vm_compute]]. done.
Qed.

(** ** Redirection *)

Section Delegation.
Variables (H : bool) (feat : sbi_hart_features) (h : Hw.hart) (g : list Z) (gva : bool) (t : sbi_trap_info).
Let zicfilp := sbi_hart_has_extension feat SBI_HART_EXT_ZICFILP.
Hypothesis Hok : Hw.hart_ok H zicfilp h.
Hypothesis Hcause : 0 <= t_cause t.

(** What the firmware finds when [h] has trapped. *)
Definition trapped : sbi_trap_regs := mkTregs g (Hw.pc h) (Hw.mtrap_status H zicfilp gva h).

Lemma trapped_bits i :
  Z.testbit (r_mstatus trapped) i =
    if (i =? 41) && zicfilp then Hw.elp h
    else if (i =? 39) && H then Hw.virt h else if (i =? 38) && H then gva
    else if i =? 12 then false else if i =? 11 then Hw.mode h =? PRV_S
    else if i =? 3 then false else if i =? 7 then Z.testbit (Hw.mstatus h) 3
    else Z.testbit (Hw.mstatus h) i.
Proof.
  clear Hok.
  cbn [r_mstatus trapped]. unfold Hw.mtrap_status.
  destruct zicfilp, H; autorewrite with tbits; bools;
    destruct (Z.eqb_spec i 41), (Z.eqb_spec i 39), (Z.eqb_spec i 38); subst; try reflexivity; try lia.
Qed.

Lemma trapped_virt : sbi_regs_from_virt trapped = Hw.virt h.
Proof.
  unfold sbi_regs_from_virt. tmasks. rewrite has_pow, trapped_bits by lia. cbn -[Z.testbit].
  destruct H; [done|]. destruct (Hw.hok_virt _ _ _ Hok eq_refl) as [-> ->]. done.
Qed.

Lemma trapped_mode : sbi_mstatus_prev_mode (r_mstatus trapped) = Hw.mode h.
Proof.
  rewrite prev_mode_bits, !trapped_bits. cbn -[Z.testbit]. destruct (Hw.hok_mode _ _ _ Hok) as [-> | ->]; reflexivity.
Qed.

Lemma trapped_elp : zicfilp && has_bits (r_mstatus trapped) MSTATUS_MPELP = Hw.elp h.
Proof.
  tmasks. rewrite has_pow, trapped_bits by lia. cbn -[Z.testbit]. destruct zicfilp; [done|].
  by rewrite (Hw.hok_elp _ _ _ Hok eq_refl).
Qed.

Lemma trapped_delegated :
  H && Hw.virt h && (t_cause t <? 64) && has_bits (c_hedeleg (Hw.csr h)) (BIT (t_cause t)) = Hw.to_vs t h.
Proof.
  unfold Hw.to_vs. destruct (Z.ltb_spec (t_cause t) 64); [|by rewrite !andb_false_r].
  assert (BIT (t_cause t) = 2 ^ t_cause t) as ->.
  { unfold BIT. rewrite Z.mod_small, Z.shiftl_1_l, wrap_small; [done| |lia].
    split; [lia|]. apply Z.pow_lt_mono_r; lia. }
  rewrite has_pow by lia. destruct H; [done|]. destruct (Hw.hok_virt _ _ _ Hok eq_refl) as [-> _]. done.
Qed.

(** A previous landing-pad state is not left in the status register the trap
    writes. *)
Definition no_stale_spelp : Prop :=
  zicfilp = true -> Hw.elp h = false ->
  Z.testbit (if Hw.to_vs t h then c_vsstatus (Hw.csr h) else Hw.mstatus h) 23 = false.

Lemma trapped_range : 0 <= r_mstatus trapped < 2 ^ 64.
Proof.
  cbn [r_mstatus trapped]. unfold Hw.mtrap_status. pose proof (Hw.hok_mstatus _ _ _ Hok).
  destruct zicfilp, H; repeat (apply put_range; [lia|]); done.
Qed.
Lemma clear_vec v : Z.testbit v 1 = false -> Z.clearbit v 0 = v / 4 * 4.
Proof.
  intros Hb. apply Z.bits_inj'. intros i Hi. change 4 with (2 ^ 2).
  rewrite <- Z.shiftr_div_pow2, <- Z.shiftl_mul_pow2 by lia.
  destruct (Z.lt_ge_cases i 2) as [Hl|Hg].
  - rewrite Z.shiftl_spec_low by done. assert (i = 0 \/ i = 1) as [-> | ->] by lia; [apply Z.clearbit_eq|].
    by rewrite Z.clearbit_neq.
  - rewrite Z.shiftl_spec, Z.shiftr_spec, Z.clearbit_neq by lia. f_equal. lia.
Qed.

(** The common part of [mstatus], before the branch. *)
Definition redirected_status (nv : bool) (v : Z) : Z :=
  Z.lor (Z.land (set_bits nv MSTATUS_MPV
                   (Z.land (if zicfilp then Z.land v (not64 MSTATUS_MPELP) else v) (not64 MSTATUS_MPV)))
           (not64 MSTATUS_MPP))
    (u64 (Z.shiftl PRV_S MSTATUS_MPP_SHIFT)).

Lemma redirected_bits nv v i : 0 <= i < 64 ->
  Z.testbit (redirected_status nv v) i =
    if i =? 11 then true else if i =? 12 then false else if i =? 39 then nv
    else if (i =? 41) && zicfilp then false else Z.testbit v i.
Proof.
  clear Hok.
  intros Hi. unfold redirected_status. tmasks. destruct zicfilp; autorewrite with tbits;
    (assert (i = 11 \/ i = 12 \/ i = 39 \/ i = 41 \/ (i <> 11 /\ i <> 12 /\ i <> 39 /\ i <> 41))
      as [-> |[-> |[-> |[-> |(?&?&?&?)]]]] by lia; [..|by bit_cases]);
    cbn -[Z.testbit]; by bools.
Qed.

Lemma redirected_range nv v : 0 <= v < 2 ^ 64 -> 0 <= redirected_status nv v < 2 ^ 64.
Proof.
  clear Hok.
  intros Hv. unfold redirected_status. apply lor_ok; [|by vm_compute]. apply clear_range, set_range; [|by vm_compute].
  apply clear_range. destruct zicfilp; [by apply clear_range|done].
Qed.

(** The status register the trap is recorded in, [v] before it. *)
Lemma entered_bits v i : 0 <= i < 64 ->
  (zicfilp = true -> Hw.elp h = false -> Z.testbit v 23 = false) ->
  Z.testbit (set_bits (Hw.elp h) MSTATUS_SPELP (enter_status (Hw.mode h =? PRV_S) v)) i =
  Z.testbit (Hw.strap_status zicfilp h v) i.
Proof.
  intros Hi Hs. pose proof (Hw.hok_elp _ _ _ Hok) as He. unfold Hw.strap_status. tmasks.
  rewrite set_bits_bit, enter_status_bits by done. rewrite Z.pow2_bits_eqb by lia.
  destruct zicfilp; autorewrite with tbits;
    (assert (i = 1 \/ i = 5 \/ i = 8 \/ i = 23 \/ (i <> 1 /\ i <> 5 /\ i <> 8 /\ i <> 23))
      as [-> |[-> |[-> |[-> |(?&?&?&?)]]]] by lia; [..|by bit_cases]);
    cbn -[Z.testbit]; bools; try done.
  - destruct (Hw.elp h); [by bools|]. bools. by apply Hs.
  - rewrite He by done. by bools.
Qed.
Lemma spelp_first s e v : 0 <= v < 2 ^ 64 ->
  enter_status s (set_bits e MSTATUS_SPELP v) = set_bits e MSTATUS_SPELP (enter_status s v).
Proof.
  intros Hv. apply word_eq.
  - by apply enter_status_range, set_range.
  - apply set_range; [by apply enter_status_range|by vm_compute].
  - intros i Hi. tmasks. rewrite set_bits_bit, !enter_status_bits, !set_bits_bit by lia.
    rewrite !Z.pow2_bits_eqb by lia.
    destruct (Z.eqb_spec 23 i) as [<- |]; [reflexivity|]. change (23 =? 1) with false.
    rewrite !andb_false_r, !orb_false_r. done.
Qed.

(** What redirection leaves, for a trap from [h]. *)
Lemma redirect_spec :
  let s := Hw.mode h =? PRV_S in
  let c := Hw.csr h in
  let nv := Hw.to_vs t h in
  let ms := redirected_status nv (r_mstatus trapped) in
  sbi_trap_redirect H feat trapped t c =
    if nv then
      (0, mkTregs g (c_vstvec c) ms,
       csr_write_vsstatus (enter_status s (set_bits (Hw.elp h) MSTATUS_SPELP (c_vsstatus c)))
         (csr_write_vstrap (t_tval t) (Hw.pc h) (t_cause t) c))
    else
      (0, mkTregs g (c_stvec c) (set_bits (Hw.elp h) MSTATUS_SPELP (enter_status s ms)),
       csr_write_strap (t_tval t) (Hw.pc h) (t_cause t)
         (if H then
            let hs := c_hstatus c in
            let hs := if Hw.virt h then set_bits s HSTATUS_SPVP (Z.land hs (not64 HSTATUS_SPVP)) else hs in
            let hs := set_bits (Hw.virt h) HSTATUS_SPV (Z.land hs (not64 HSTATUS_SPV)) in
            let hs := set_bits (negb (t_gva t =? 0)) HSTATUS_GVA (Z.land hs (not64 HSTATUS_GVA)) in
            csr_write_htrap hs (t_tval2 t) (t_tinst t) c
          else c)).
Proof.
  cbv zeta. unfold sbi_trap_redirect. cbv zeta. fold zicfilp. rewrite trapped_virt, trapped_mode, trapped_elp, trapped_delegated.
  assert (negb (Hw.mode h =? PRV_S) && negb (Hw.mode h =? PRV_U) = false) as ->.
  { by destruct (Hw.hok_mode _ _ _ Hok) as [-> | ->]. }
  unfold redirected_status. destruct (Hw.to_vs t h); [by destruct H|]. by destruct H.
Qed.
(** The hypervisor's status register. *)
Lemma hstatus_agrees :
  let s := Hw.mode h =? PRV_S in
  let hs := c_hstatus (Hw.csr h) in
  let hs1 := if Hw.virt h then set_bits s HSTATUS_SPVP (Z.land hs (not64 HSTATUS_SPVP)) else hs in
  let hs2 := set_bits (Hw.virt h) HSTATUS_SPV (Z.land hs1 (not64 HSTATUS_SPV)) in
  set_bits (negb (t_gva t =? 0)) HSTATUS_GVA (Z.land hs2 (not64 HSTATUS_GVA)) =
  Hw.put 6 (negb (t_gva t =? 0)) (Hw.put 7 (Hw.virt h) (if Hw.virt h then Hw.put 8 s hs else hs)).
Proof.
  cbv zeta. pose proof (Hw.hok_hstatus _ _ _ Hok) as Hh.
  apply word_eq.
  - apply set_range; [|by vm_compute]. apply clear_range, set_range; [|by vm_compute]. apply clear_range.
    destruct (Hw.virt h); [|done]. apply set_range; [by apply clear_range|by vm_compute].
  - do 2 (apply put_range; [lia|]). destruct (Hw.virt h); [by apply put_range|done].
  - intros i Hi. tmasks. destruct (Hw.virt h); autorewrite with tbits;
      (assert (i = 6 \/ i = 7 \/ i = 8 \/ (i <> 6 /\ i <> 7 /\ i <> 8))
        as [-> |[-> |[-> |(?&?&?)]]] by lia; [..|by bit_cases]);
      cbn -[Z.testbit]; by bools.
Qed.

(** Returning from machine mode with a status register [v] shows the mode below
    [v] itself, but for MIE. *)
Lemma mret_status mepc v c i : Hw.m_only i = false -> i <> 3 ->
  Z.testbit (Hw.mstatus (Hw.mret H zicfilp mepc v c)) i = Z.testbit v i.
Proof.
  clear Hok.
  unfold Hw.m_only. rewrite !orb_false_iff, !Z.eqb_neq. intros ((((((?&?)&?)&?)&?)&?)&?) Hmie.
  unfold Hw.mret. cbv zeta. cbn [Hw.mstatus]. destruct zicfilp, H; autorewrite with tbits; by bit_cases.
Qed.

Lemma mret_mie mepc v c :
  Z.testbit (Hw.mstatus (Hw.mret H zicfilp mepc v c)) 3 = Z.testbit v 7.
Proof.
  clear Hok. unfold Hw.mret. cbv zeta. cbn [Hw.mstatus]. destruct zicfilp, H; autorewrite with tbits; reflexivity. Qed.

Lemma trapped_below i : Hw.m_only i = false -> i <> 3 ->
  Z.testbit (r_mstatus trapped) i = Z.testbit (Hw.mstatus h) i.
Proof.
  unfold Hw.m_only. rewrite !orb_false_iff, !Z.eqb_neq. intros ((((((?&?)&?)&?)&?)&?)&?) Hmie.
  rewrite trapped_bits. by bit_cases.
Qed.
(** The bits of a status register that went through redirection and MRET. *)
Lemma redirected_below nv i : Hw.m_only i = false -> i <> 3 -> 0 <= i < 64 ->
  Z.testbit (redirected_status nv (r_mstatus trapped)) i = Z.testbit (Hw.mstatus h) i.
Proof.
  intros Hm Hn Hi. rewrite redirected_bits by done. rewrite <- (trapped_below i) by done.
  unfold Hw.m_only in Hm. rewrite !orb_false_iff, !Z.eqb_neq in Hm. destruct Hm as ((((((?&?)&?)&?)&?)&?)&?).
  by bit_cases.
Qed.

Lemma redirected_mpie nv : Z.testbit (redirected_status nv (r_mstatus trapped)) 7 = Z.testbit (Hw.mstatus h) 3.
Proof. rewrite redirected_bits, trapped_bits by lia. reflexivity. Qed.

Lemma entered_other v w i : 0 <= i < 64 ->
  Z.testbit v i = Z.testbit w i -> Z.testbit v 1 = Z.testbit w 1 ->
  Z.testbit (set_bits (Hw.elp h) MSTATUS_SPELP (enter_status (Hw.mode h =? PRV_S) v)) i =
  Z.testbit (set_bits (Hw.elp h) MSTATUS_SPELP (enter_status (Hw.mode h =? PRV_S) w)) i.
Proof. intros Hi H1 H2. by rewrite !set_bits_bit, !enter_status_bits, H1, H2 by done. Qed.

(** Redirection to HS-mode: the machine's status register. *)
Lemma hs_status i : Hw.to_vs t h = false -> no_stale_spelp -> Hw.m_only i = false -> 0 <= i ->
  Z.testbit (Hw.mstatus (Hw.mret H zicfilp (c_stvec (Hw.csr h))
     (set_bits (Hw.elp h) MSTATUS_SPELP
        (enter_status (Hw.mode h =? PRV_S) (redirected_status false (r_mstatus trapped)))) (Hw.csr h))) i =
  Z.testbit (Hw.strap_status zicfilp h (Hw.mstatus h)) i.
Proof.
  intros Ev Hs Hm Hi. unfold no_stale_spelp in Hs. rewrite Ev in Hs.
  pose proof (Hw.hok_mstatus _ _ _ Hok) as Hr.
  assert (0 <= Hw.strap_status zicfilp h (Hw.mstatus h) < 2 ^ 64) as Hr1.
  { unfold Hw.strap_status. destruct zicfilp; repeat (apply put_range; [lia|]); done. }
  destruct (Z.lt_ge_cases i 64) as [Hlt|Hge].
  2:{ rewrite mret_status by (done || lia). rewrite !(bits_above 64); try done; try lia.
      apply set_range; [apply enter_status_range, redirected_range, trapped_range|by vm_compute]. }
  rewrite <- entered_bits by (done || lia). destruct (Z.eq_dec i 3) as [-> |Hn].
  - rewrite mret_mie. tmasks. rewrite !set_bits_bit, !enter_status_bits, redirected_mpie by lia. reflexivity.
  - rewrite mret_status by done. apply entered_other; [lia|by apply redirected_below|]. by apply redirected_below.
Qed.

Lemma vs_status i c' : Hw.m_only i = false -> 0 <= i ->
  Z.testbit (Hw.mstatus (Hw.mret H zicfilp (c_vstvec (Hw.csr h))
     (redirected_status true (r_mstatus trapped)) c')) i = Z.testbit (Hw.mstatus h) i.
Proof.
  intros Hm Hi. destruct (Z.lt_ge_cases i 64) as [Hlt|Hge].
  2:{ rewrite mret_status by (done || lia). rewrite !(bits_above 64); try done; try lia; [apply Hok|].
      apply redirected_range, trapped_range. }
  destruct (Z.eq_dec i 3) as [-> |Hn]; [by rewrite mret_mie, redirected_mpie|].
  rewrite mret_status by done. by apply redirected_below.
Qed.

Lemma vsstatus_agrees : Hw.to_vs t h = true -> no_stale_spelp ->
  enter_status (Hw.mode h =? PRV_S) (set_bits (Hw.elp h) MSTATUS_SPELP (c_vsstatus (Hw.csr h))) =
  Hw.strap_status zicfilp h (c_vsstatus (Hw.csr h)).
Proof.
  intros Ev Hs. unfold no_stale_spelp in Hs. rewrite Ev in Hs. pose proof (Hw.hok_vsstatus _ _ _ Hok) as Hr.
  rewrite spelp_first by done. apply word_eq.
  - apply set_range; [by apply enter_status_range|by vm_compute].
  - unfold Hw.strap_status. destruct zicfilp; repeat (apply put_range; [lia|]); done.
  - intros i Hi. by apply entered_bits.
Qed.
Lemma redirect_delegates : no_stale_spelp ->
  exists r' c', sbi_trap_redirect H feat trapped t (Hw.csr h) = (0, r', c') /\ gprs r' = g /\
    Hw.same_below (Hw.mret H zicfilp (r_mepc r') (r_mstatus r') c') (Hw.strap H zicfilp t h).
Proof.
  intros Hs. rewrite redirect_spec. cbv zeta. unfold Hw.strap. cbv zeta.
  assert (H = false -> Hw.to_vs t h = false) as Hv.
  { intros E. unfold Hw.to_vs. by rewrite (proj1 (Hw.hok_virt _ _ _ Hok E)). }
  destruct (Hw.to_vs t h) eqn:Ev; eexists _, _; (split; [reflexivity|]); (split; [done|]); unfold Hw.same_below.
  - cbn [r_mepc r_mstatus]. split_and!; try done.
    + unfold Hw.mret. cbn [Hw.mode]. by rewrite redirected_bits by lia.
    + unfold Hw.mret. cbn [Hw.virt]. rewrite redirected_bits by lia. cbn. by destruct H; [|discriminate Hv].
    + apply clear_vec, Hok.
    + unfold Hw.mret. cbn [Hw.elp]. rewrite redirected_bits by lia. cbn -[Z.testbit]. by destruct zicfilp.
    + cbn [Hw.mret Hw.csr]. by rewrite vsstatus_agrees.
    + intros i Hi Hm. by apply vs_status.
  - cbn [r_mepc r_mstatus]. rewrite hstatus_agrees. split_and!.
    + unfold Hw.mret. cbn [Hw.mode]. tmasks. rewrite set_bits_bit, enter_status_bits, !redirected_bits by lia. reflexivity.
    + unfold Hw.mret. cbn [Hw.virt]. tmasks. rewrite set_bits_bit, enter_status_bits, !redirected_bits, Z.pow2_bits_eqb by lia.
      cbn. by rewrite !andb_false_r.
    + cbn [Hw.mret Hw.pc]. destruct H; apply clear_vec, Hok.
    + unfold Hw.mret. cbn [Hw.elp]. tmasks. rewrite set_bits_bit, enter_status_bits, !redirected_bits, Z.pow2_bits_eqb by lia.
      cbn -[Z.testbit]. destruct zicfilp; [by rewrite andb_false_r|done].
    + done.
    + intros i Hi Hm. exact (hs_status i Ev Hs Hm Hi).
Qed.
End Delegation.

(** C18: redirecting a trap is invisible below machine mode, provided no landing-pad
    state (SPELP) of an earlier trap is left in the status register the trap writes
    ([redirect_keeps_stale_spelp]).  When a hart in supervisor or user mode, virtual or
    not, traps into the firmware and the firmware redirects any trap and returns, the
    hart is where it would be had it taken the trap in supervisor mode itself: in
    HS-mode, or in VS-mode when [hedeleg] says so, at the trap vector, with the cause,
    address, previous mode and interrupt state recorded, and with its registers. *)
Theorem redirect_is_delegation H feat h g gva t :
  let zicfilp := sbi_hart_has_extension feat SBI_HART_EXT_ZICFILP in
  Hw.hart_ok H zicfilp h -> 0 <= t_cause t -> no_stale_spelp feat h t ->
  exists r' c',
    sbi_trap_redirect H feat (mkTregs g (Hw.pc h) (Hw.mtrap_status H zicfilp gva h)) t (Hw.csr h) = (0, r', c') /\
    gprs r' = g /\
    Hw.same_below (Hw.mret H zicfilp (r_mepc r') (r_mstatus r') c') (Hw.strap H zicfilp t h).
Proof. intros z Hok Ht Hs. exact (redirect_delegates H feat h g gva t Hok Ht Hs). Qed.

(** With landing pads, a hart that expects none keeps the SPELP of an earlier
    trap; the hardware clears it. *)
Lemma redirect_keeps_stale_spelp H feat h g gva t :
  let zicfilp := sbi_hart_has_extension feat SBI_HART_EXT_ZICFILP in
  Hw.hart_ok H zicfilp h -> 0 <= t_cause t -> zicfilp = true -> Hw.to_vs t h = false ->
  Hw.elp h = false -> Z.testbit (Hw.mstatus h) 23 = true ->
  exists r' c',
    sbi_trap_redirect H feat (mkTregs g (Hw.pc h) (Hw.mtrap_status H zicfilp gva h)) t (Hw.csr h) = (0, r', c') /\
    Z.testbit (Hw.mstatus (Hw.mret H zicfilp (r_mepc r') (r_mstatus r') c')) 23 = true /\
    Z.testbit (Hw.mstatus (Hw.strap H zicfilp t h)) 23 = false.
Proof.
  intros z Hok Ht Hz Hv He Hb. subst z. pose proof (redirect_spec H feat h g gva t Hok Ht) as E. cbv zeta in E.
  rewrite Hv in E. eexists _, _. split; [exact E|]. cbn [r_mepc r_mstatus]. split.
  - rewrite mret_status by done. rewrite He. cbn [set_bits].
    rewrite enter_status_bits by lia. bit_cases. by rewrite redirected_below.
  - unfold Hw.strap. rewrite Hv. cbv zeta. cbn [Hw.mstatus]. unfold Hw.strap_status. rewrite Hz, He.
    autorewrite with tbits. reflexivity.
Qed.

(** A virtual supervisor's page fault, which [hedeleg] gives to it. *)
Definition demo_feat : sbi_hart_features := mkFeat true 3 [0] 0 0 0 0 0.

Definition demo_hart : Hw.hart :=
  Hw.mkHart PRV_S true 0x80200000 false 0xa00000002
    (mkTcsrs (2 ^ 13) 0 0 0 0 0 0 0x80300001 2 0 0 0 0x80100000).

Definition demo_fault : sbi_trap_info := mkTinfo 13 0x1234 0 0 0.

Lemma redirect_is_delegation_witness :
  exists r' c',
    sbi_trap_redirect true demo_feat (mkTregs [] 0x80200000 0x8a00000802) demo_fault (Hw.csr demo_hart) = (0, r', c') /\
    Hw.pc (Hw.mret true false (r_mepc r') (r_mstatus r') c') = 0x80300000 /\ c_vsepc c' = 0x80200000.
Proof.
  destruct (redirect_is_delegation true demo_feat demo_hart [] false demo_fault) as (r' & c' & E & _ & S).
  - split; [left; reflexivity|discriminate|reflexivity|cbn; lia|cbn; lia|cbn; lia|reflexivity|reflexivity].
  - cbn. lia.
  - intros Hz. vm_compute in Hz. discriminate Hz.
  - exists r', c'. change (sbi_hart_has_extension demo_feat SBI_HART_EXT_ZICFILP) with false in *.
    split; [exact E|]. destruct S as (_ & _ & Hp & _ & Hc & _). split.
    + rewrite Hp. reflexivity.
    + change c' with (Hw.csr (Hw.mret true false (r_mepc r') (r_mstatus r') c')). rewrite Hc. reflexivity.
Defined.
