(* ===== verification/SbiTrapLdst.v ===== *)
(** * Emulation of loads and stores (lib/sbi/sbi_trap_ldst.c, lib/sbi/sbi_unpriv.c)

    The handlers of misaligned accesses decode the trapped instruction, do the
    access a byte at a time with the rights of the interrupted program, and step
    over the instruction; those of access faults ask the platform instead.  The
    loads and stores of [sbi_unpriv.c] are single instructions under MPRV, and
    what they meet is a parameter: address translation, and which accesses fault
    with what.  The build is the default one, RV64 with the floating-point
    registers; the vector instructions, the platform's emulators and what is left
    in an unset register are parameters. *)

From S2P Require Import Prelude SbiString SbiFifo SbiHeap SbiBitops SbiScratch SbiHartmask SbiMemregion SbiDomain SbiHsm SbiHart SbiPmp SbiPmpRoot SbiSse SbiSseInv SbiSseCtx SbiTrap.

Definition CAUSE_FETCH_ACCESS : Z := 1.
Definition CAUSE_LOAD_ACCESS : Z := 5.
Definition CAUSE_FETCH_PAGE_FAULT : Z := 12.
Definition CAUSE_LOAD_PAGE_FAULT : Z := 13.
Definition CAUSE_FETCH_GUEST_PAGE_FAULT : Z := 0x14.
Definition CAUSE_LOAD_GUEST_PAGE_FAULT : Z := 0x15.
Definition INSN_PSEUDO_VS_LOAD : Z := 0x3000.
Definition INSN_PSEUDO_VS_STORE : Z := 0x3020.
Definition INSN_16BIT_MASK : Z := 3.
Definition SH_RD : Z := 7.
Definition SH_RS1 : Z := 15.
Definition SH_RS2 : Z := 20.
Definition SH_RS2C : Z := 2.

(** ** Unprivileged access *)

(** The view of memory the interrupted program has. *)
Record unpriv := mkUnpriv {
  phys : Z -> Z;
  ld_fault : Z -> option sbi_trap_info;
  st_fault : Z -> option sbi_trap_info;
  x_fault : Z -> option sbi_trap_info }.

Definition no_trap : sbi_trap_info := mkTinfo 0 0 0 0 0.

Record ldst_state := mkLd {
  w_regs : sbi_trap_regs; w_fregs : list Z; w_csr : trap_csrs; w_mem : mem }.

Definition set_wregs (r : sbi_trap_regs) (w : ldst_state) : ldst_state := mkLd r (w_fregs w) (w_csr w) (w_mem w).

Section Ldst.
Variables (H : bool) (feat : sbi_hart_features) (u : unpriv) (junk : Z).
Variables (v_ld v_st : sbi_trap_info -> ldst_state -> Z * ldst_state).
Variables (platform_load : Z -> Z -> option (list Z)) (platform_store : Z -> Z -> list Z -> Z).

Definition sbi_load_u8 (addr : Z) (w : ldst_state) : Z * sbi_trap_info :=
  match ld_fault u addr with
  | Some t => (0, t)
  | None => (w_mem w (phys u addr), no_trap)
  end.

Definition sbi_store_u8 (addr val : Z) (w : ldst_state) : ldst_state * sbi_trap_info :=
  match st_fault u addr with
  | Some t => (w, t)
  | None => (mkLd (w_regs w) (w_fregs w) (w_csr w) (store8 (w_mem w) (phys u addr) val), no_trap)
  end.

(** LHU with execute permission as read permission. *)
Definition fetch16 (addr : Z) (w : ldst_state) : Z + sbi_trap_info :=
  match x_fault u addr with
  | Some t => inr t
  | None => inl (w_mem w (phys u addr) + 2 ^ 8 * w_mem w (phys u (u64 (addr + 1))))
  end.

(** The kind of the fault is that of a fetch. *)
Definition fetch_cause (t : sbi_trap_info) : sbi_trap_info :=
  if t_cause t =? CAUSE_LOAD_ACCESS then mkTinfo CAUSE_FETCH_ACCESS (t_tval t) (t_tval2 t) 0 (t_gva t)
  else if t_cause t =? CAUSE_LOAD_PAGE_FAULT then mkTinfo CAUSE_FETCH_PAGE_FAULT (t_tval t) (t_tval2 t) 0 (t_gva t)
  else if t_cause t =? CAUSE_LOAD_GUEST_PAGE_FAULT then
    mkTinfo CAUSE_FETCH_GUEST_PAGE_FAULT (t_tval t) (t_tval2 t)
      (if negb (t_tinst t =? INSN_PSEUDO_VS_LOAD) && negb (t_tinst t =? INSN_PSEUDO_VS_STORE) then 0 else t_tinst t)
      (t_gva t)
  else t.

(** After a fault the code goes on with the next instruction, so the test of the
    low bits sees the old value of the register. *)
Definition sbi_get_insn (mepc : Z) (w : ldst_state) : Z * sbi_trap_info :=
  let '(insn, t) := match fetch16 mepc w with inl v => (v, no_trap) | inr t => (junk, t) end in
  let '(insn, t) :=
    if Z.land insn 3 =? 3 then
      match fetch16 (u64 (mepc + 2)) w with
      | inl v => (u64 (insn + u64 (Z.shiftl v 16)), t)
      | inr t => (insn, t)
      end
    else (insn, t) in
  (insn, fetch_cause t).

Definition INSN_LEN (insn : Z) : Z := if negb (Z.land insn INSN_16BIT_MASK =? INSN_16BIT_MASK) then 2 else 4.

Definition redirect (t : sbi_trap_info) (w : ldst_state) : Z * ldst_state :=
  let '(rc, r, c) := sbi_trap_redirect H feat (w_regs w) t (w_csr w) in
  (rc, mkLd r (w_fregs w) c (w_mem w)).

(** The trapped instruction and its length, or the redirection of the fault its
    fetch met. *)
Definition trapped_insn (trap : sbi_trap_info) (w : ldst_state) : (Z * Z) + (Z * ldst_state) :=
  if negb (Z.land (t_tinst trap) 1 =? 0) then
    let insn := Z.lor (t_tinst trap) INSN_16BIT_MASK in
    inl (insn, if negb (Z.land (t_tinst trap) 2 =? 0) then INSN_LEN insn else 2)
  else
    let '(insn, uptrap) := sbi_get_insn (r_mepc (w_regs w)) w in
    if negb (t_cause uptrap =? 0) then inr (redirect uptrap w) else inl (insn, INSN_LEN insn).

(** ** Registers *)

(** The register number at bit [pos]: [REG_PTR], with its byte offsets. *)
Definition reg_num (insn pos : Z) : nat := Z.to_nat (Z.land (Z.shiftr insn pos) 0x1f).

Definition RV_X (x s n : Z) : Z := Z.land (Z.shiftr x s) (Z.shiftl 1 n - 1).
Definition RVC_RS2S (insn : Z) : Z := 8 + RV_X insn SH_RS2C 3.

Definition get_reg (n : nat) (w : ldst_state) : Z := nth n (gprs (w_regs w)) 0.
Definition get_freg (n : nat) (w : ldst_state) : Z := nth n (w_fregs w) 0.

Definition SET_RD (insn v : Z) (w : ldst_state) : ldst_state :=
  set_wregs (mkTregs (<[reg_num insn SH_RD := v]> (gprs (w_regs w))) (r_mepc (w_regs w)) (r_mstatus (w_regs w))) w.

(** Writing a floating-point register, which also makes the state dirty. *)
Definition SET_F64_RD (insn v : Z) (w : ldst_state) : ldst_state :=
  mkLd (mkTregs (gprs (w_regs w)) (r_mepc (w_regs w)) (Z.lor (r_mstatus (w_regs w)) MSTATUS_FS))
    (<[reg_num insn SH_RD := v]> (w_fregs w)) (w_csr w) (w_mem w).

Definition SET_F32_RD (insn v : Z) (w : ldst_state) : ldst_state :=
  SET_F64_RD insn (2 ^ 64 - 2 ^ 32 + u32 v) w.

(** [union sbi_ldst_data], as its bytes. *)
Definition data_ulong (bytes : list Z) : Z := foldr (fun b acc => b + 2 ^ 8 * acc) 0 bytes.

Definition bytes_of (v : Z) : list Z := (fun k => Z.shiftr v (8 * k) mod 2 ^ 8) <$> seqZ 0 8.

(** ** Loads *)

(** [len], [shift], [fp], [vector] and [insn] after the chain of tests. *)
Record ld_decoded := mkLdd { d_len : Z; d_shift : Z; d_fp : bool; d_vector : bool; d_insn : Z }.

Definition match_insn (insn mask val : Z) : bool := Z.land insn mask =? val.

Definition IS_VECTOR_LOAD_STORE (insn : Z) : bool := match_insn insn 0x7f 0x07 || match_insn insn 0x7f 0x27.

Definition decode_load (insn : Z) : option ld_decoded :=
  let int_s len insn := Some (mkLdd len (8 * (8 - len)) false false insn) in
  let int_u len insn := Some (mkLdd len 0 false false insn) in
  let flt len insn := Some (mkLdd len 0 true false insn) in
  let rvc := Z.shiftl (RVC_RS2S insn) SH_RD in
  if match_insn insn 0x707f 0x3 then int_s 1 insn
  else if match_insn insn 0x707f 0x4003 then int_u 1 insn
  else if match_insn insn 0x707f 0x2003 then int_s 4 insn
  else if match_insn insn 0x707f 0x3003 then int_s 8 insn
  else if match_insn insn 0x707f 0x6003 then int_u 4 insn
  else if match_insn insn 0x707f 0x3007 then flt 8 insn
  else if match_insn insn 0x707f 0x2007 then flt 4 insn
  else if match_insn insn 0x707f 0x1003 then int_s 2 insn
  else if match_insn insn 0x707f 0x5003 then int_u 2 insn
  else if match_insn insn 0xe003 0x6000 then int_s 8 rvc
  else if match_insn insn 0xe003 0x6002 && negb (Z.land (Z.shiftr insn SH_RD) 0x1f =? 0) then int_s 8 insn
  else if match_insn insn 0xe003 0x4000 then int_s 4 rvc
  else if match_insn insn 0xe003 0x4002 && negb (Z.land (Z.shiftr insn SH_RD) 0x1f =? 0) then int_s 4 insn
  else if match_insn insn 0xe003 0x2000 then flt 8 rvc
  else if match_insn insn 0xe003 0x2002 then flt 8 insn
  else if match_insn insn 0xfc43 0x8400 then int_u 2 rvc
  else if match_insn insn 0xfc43 0x8440 then int_s 2 rvc
  else if IS_VECTOR_LOAD_STORE insn then Some (mkLdd 0 0 false true insn)
  else None.

Definition set_mepc_by (len : Z) (w : ldst_state) : ldst_state :=
  set_wregs (set_mepc (u64 (r_mepc (w_regs w) + len)) (w_regs w)) w.

Definition ld_emulator : Type := Z -> list Z -> sbi_trap_info -> ldst_state -> Z * list Z * ldst_state.
Definition st_emulator : Type := Z -> list Z -> sbi_trap_info -> ldst_state -> Z * ldst_state.

Definition sbi_trap_emulate_load (trap : sbi_trap_info) (emu : ld_emulator) (w : ldst_state) : Z * ldst_state :=
  match trapped_insn trap w with
  | inr res => res
  | inl (insn, insn_len) =>
      match decode_load insn with
      | None => redirect trap w
      | Some d =>
          let val := replicate 8 0 in
          let '(rc, val, w) :=
            if d_vector d then let '(rc, w) := v_ld trap w in (rc, val, w)
            else emu (d_len d) val trap w in
          if rc <=? 0 then (rc, w)
          else
            let v := data_ulong val in
            let w :=
              if d_vector d then w
              else if negb (d_fp d) then
                SET_RD (d_insn d) (u64 (Z.shiftr (signed 64 (u64 (Z.shiftl v (d_shift d)))) (d_shift d))) w
              else if d_len d =? 8 then SET_F64_RD (d_insn d) v w
              else SET_F32_RD (d_insn d) v w in
            (0, set_mepc_by insn_len w)
      end
  end.

Definition sbi_misaligned_tinst_fixup (orig_tinst new_tinst addr_offset : Z) : Z :=
  if (new_tinst =? INSN_PSEUDO_VS_LOAD) || (new_tinst =? INSN_PSEUDO_VS_STORE) then new_tinst
  else if orig_tinst =? 0 then 0
  else Z.lor orig_tinst (u64 (Z.shiftl addr_offset SH_RS1)).

Definition with_tinst (v : Z) (t : sbi_trap_info) : sbi_trap_info :=
  mkTinfo (t_cause t) (t_tval t) (t_tval2 t) v (t_gva t).

(** The loop from byte [i] on, [n] bytes to go. *)
Fixpoint ld_loop (n : nat) (i rlen : Z) (val : list Z) (trap : sbi_trap_info) (w : ldst_state)
    : Z * list Z * ldst_state :=
  match n with
  | O => (rlen, val, w)
  | S n =>
      let '(b, uptrap) := sbi_load_u8 (u64 (t_tval trap + i)) w in
      let val := <[Z.to_nat i := b]> val in
      if negb (t_cause uptrap =? 0) then
        let '(rc, w) := redirect (with_tinst (sbi_misaligned_tinst_fixup (t_tinst trap) (t_tinst uptrap) i) uptrap) w in
        (rc, val, w)
      else ld_loop n (i + 1) rlen val trap w
  end.

Definition sbi_misaligned_ld_emulator : ld_emulator := fun rlen val trap w =>
  ld_loop (Z.to_nat rlen) 0 rlen val trap w.

Definition sbi_misaligned_load_handler (trap : sbi_trap_info) (w : ldst_state) : Z * ldst_state :=
  sbi_trap_emulate_load trap sbi_misaligned_ld_emulator w.

(** [platform_load] is [None] when the platform's emulator fails. *)
Definition sbi_ld_access_emulator : ld_emulator := fun rlen val trap w =>
  if sbi_mstatus_prev_mode (r_mstatus (w_regs w)) =? PRV_M then (SBI_EINVAL, val, w)
  else
    match platform_load rlen (t_tval trap) with
    | None => let '(rc, w) := redirect trap w in (rc, val, w)
    | Some val => (rlen, val, w)
    end.

Definition sbi_load_access_handler (trap : sbi_trap_info) (w : ldst_state) : Z * ldst_state :=
  sbi_trap_emulate_load trap sbi_ld_access_emulator w.

(** ** Stores *)

(** [len] and [val] after the chain of tests; [None] for a vector instruction. *)
Definition decode_store (insn : Z) (w : ldst_state) : option (option (Z * list Z)) :=
  let ok len v := Some (Some (len, bytes_of v)) in
  let rs2 := get_reg (reg_num insn SH_RS2) w in
  let rs2s := get_reg (Z.to_nat (RVC_RS2S insn)) w in
  let rs2c := get_reg (reg_num insn SH_RS2C) w in
  let f32 v := u64 (signed 32 (u32 v)) in
  if match_insn insn 0x707f 0x23 then ok 1 rs2
  else if match_insn insn 0x707f 0x2023 then ok 4 rs2
  else if match_insn insn 0x707f 0x3023 then ok 8 rs2
  else if match_insn insn 0x707f 0x3027 then ok 8 (get_freg (reg_num insn SH_RS2) w)
  else if match_insn insn 0x707f 0x2027 then ok 4 (f32 (get_freg (reg_num insn SH_RS2) w))
  else if match_insn insn 0x707f 0x1023 then ok 2 rs2
  else if match_insn insn 0xe003 0xe000 then ok 8 rs2s
  else if match_insn insn 0xe003 0xe002 then ok 8 rs2c
  else if match_insn insn 0xe003 0xc000 then ok 4 rs2s
  else if match_insn insn 0xe003 0xc002 then ok 4 rs2c
  else if match_insn insn 0xe003 0xa000 then ok 8 (get_freg (Z.to_nat (RVC_RS2S insn)) w)
  else if match_insn insn 0xe003 0xa002 then ok 8 (get_freg (reg_num insn SH_RS2C) w)
  else if match_insn insn 0xfc43 0x8c00 then ok 2 rs2s
  else if IS_VECTOR_LOAD_STORE insn then Some None
  else None.

Definition sbi_trap_emulate_store (trap : sbi_trap_info) (emu : st_emulator) (w : ldst_state) : Z * ldst_state :=
  match trapped_insn trap w with
  | inr res => res
  | inl (insn, insn_len) =>
      match decode_store insn w with
      | None => redirect trap w
      | Some d =>
          let '(rc, w) := match d with None => v_st trap w | Some (len, val) => emu len val trap w end in
          if rc <=? 0 then (rc, w) else (0, set_mepc_by insn_len w)
      end
  end.

Fixpoint st_loop (n : nat) (i wlen : Z) (val : list Z) (trap : sbi_trap_info) (w : ldst_state) : Z * ldst_state :=
  match n with
  | O => (wlen, w)
  | S n =>
      let '(w, uptrap) := sbi_store_u8 (u64 (t_tval trap + i)) (nth (Z.to_nat i) val 0) w in
      if negb (t_cause uptrap =? 0) then
        redirect (with_tinst (sbi_misaligned_tinst_fixup (t_tinst trap) (t_tinst uptrap) i) uptrap) w
      else st_loop n (i + 1) wlen val trap w
  end.

Definition sbi_misaligned_st_emulator : st_emulator := fun wlen val trap w =>
  st_loop (Z.to_nat wlen) 0 wlen val trap w.

Definition sbi_misaligned_store_handler (trap : sbi_trap_info) (w : ldst_state) : Z * ldst_state :=
  sbi_trap_emulate_store trap sbi_misaligned_st_emulator w.

Definition sbi_st_access_emulator : st_emulator := fun wlen val trap w =>
  if sbi_mstatus_prev_mode (r_mstatus (w_regs w)) =? PRV_M then (SBI_EINVAL, w)
  else if negb (platform_store wlen (t_tval trap) val =? 0) then redirect trap w else (wlen, w).

Definition sbi_store_access_handler (trap : sbi_trap_info) (w : ldst_state) : Z * ldst_state :=
  sbi_trap_emulate_store trap sbi_st_access_emulator w.

End Ldst.
