(* ===== verification/SbiTrapLdstSpec.v ===== *)
(** * What the emulation of loads and stores does

    The instructions that the emulation covers, as the RISC-V manual encodes
    them, and what they do; the handlers of misaligned accesses do the same. *)

From S2P Require Import Prelude RvBits SbiString SbiFifo SbiHeap SbiBitops SbiScratch SbiHartmask SbiMemregion SbiDomain SbiHsm SbiHart SbiPmp SbiPmpRoot SbiSse SbiSseInv SbiSseCtx SbiTrap SbiTrapLdst.

(** ** Loads *)

Inductive ldop := LB | LH | LW | LD | LBU | LHU | LWU | FLW | FLD.

Definition ld_width (o : ldop) : Z :=
  match o with LB | LBU => 1 | LH | LHU => 2 | LW | LWU | FLW => 4 | LD | FLD => 8 end.

Definition ld_fp (o : ldop) : bool := match o with FLW | FLD => true | _ => false end.
Definition ld_signed (o : ldop) : bool := match o with LB | LH | LW | LD => true | _ => false end.
Definition ld_opcode (o : ldop) : Z := if ld_fp o then 0x07 else 0x03.

Definition ld_f3 (o : ldop) : Z :=
  match o with LB => 0 | LH => 1 | LW | FLW => 2 | LD | FLD => 3 | LBU => 4 | LHU => 5 | LWU => 6 end.

(** A 32-bit load; a compressed one with three-bit register numbers and the parts
    of its offset in bits 5 and 10; a compressed one relative to the stack
    pointer, with the parts of its offset in bits 2 and 12. *)
Inductive ldinstr :=
  | Ld (o : ldop) (rd rs1 imm : Z)
  | CLd (o : ldop) (rd rs1 i5 i10 : Z)
  | CLdsp (o : ldop) (rd i2 i12 : Z).

Definition cl_f3 (o : ldop) : Z := match o with FLD => 1 | LW => 2 | _ => 3 end.

Definition encode_ld (i : ldinstr) : Z :=
  match i with
  | Ld o rd rs1 imm => enc_i (ld_opcode o) rd (ld_f3 o) rs1 imm
  | CLd LHU rd rs1 i5 _ => 2 ^ 2 * rd + 2 ^ 5 * i5 + 2 ^ 7 * rs1 + 2 ^ 10 * 1 + 2 ^ 13 * 4
  | CLd LH rd rs1 i5 _ => 2 ^ 2 * rd + 2 ^ 5 * (i5 + 2) + 2 ^ 7 * rs1 + 2 ^ 10 * 1 + 2 ^ 13 * 4
  | CLd o rd rs1 i5 i10 => 2 ^ 2 * rd + 2 ^ 5 * i5 + 2 ^ 7 * rs1 + 2 ^ 10 * i10 + 2 ^ 13 * cl_f3 o
  | CLdsp o rd i2 i12 => 2 + 2 ^ 2 * i2 + 2 ^ 7 * rd + 2 ^ 12 * i12 + 2 ^ 13 * cl_f3 o
  end.

Definition ld_ok (i : ldinstr) : Prop :=
  match i with
  | Ld _ rd rs1 imm => 0 <= rd < 32 /\ 0 <= rs1 < 32
  | CLd o rd rs1 i5 i10 =>
      0 <= rd < 8 /\ 0 <= rs1 < 8 /\ 0 <= i10 < 8 /\
      match o with LW | LD | FLD => 0 <= i5 < 4 | LH | LHU => 0 <= i5 < 2 | _ => False end
  | CLdsp o rd i2 i12 =>
      0 <= rd < 32 /\ 0 <= i2 < 32 /\ 0 <= i12 < 2 /\
      match o with LW | LD => rd <> 0 | FLD => True | _ => False end
  end.

Definition ld_op (i : ldinstr) : ldop := match i with Ld o _ _ _ | CLd o _ _ _ _ | CLdsp o _ _ _ => o end.
Definition ld_size (i : ldinstr) : Z := match i with Ld _ _ _ _ => 4 | _ => 2 end.
Definition ld_dest (i : ldinstr) : Z := match i with Ld _ rd _ _ => rd | CLd _ rd _ _ _ => 8 + rd | CLdsp _ rd _ _ => rd end.

(** The value a load puts in its register, from the bytes [v] read. *)
Definition ld_value (o : ldop) (v : Z) : Z :=
  if ld_fp o then (if ld_width o =? 4 then 2 ^ 64 - 2 ^ 32 + v else v)
  else if ld_signed o then u64 (signed (8 * ld_width o) v) else v.

(** ** Memory of the interrupted program *)

(** [n] bytes from [a] on, little-endian. *)
Fixpoint vload (u : unpriv) (m : mem) (a : Z) (n : nat) : Z :=
  match n with
  | O => 0
  | S n => m (phys u (u64 a)) + 2 ^ 8 * vload u m (a + 1) n
  end.

(** The word [insn] is at [a] and can be fetched. *)
Definition code_at (u : unpriv) (m : mem) (a : Z) (insn size : Z) : Prop :=
  u64 a = a /\ x_fault u a = None /\ (size = 4 -> x_fault u (u64 (a + 2)) = None) /\
  vload u m a (Z.to_nat size) = insn.

(** How the hardware tells the handler about the instruction: the trap carries it
    in its transformed form (with the offset of the address in place of [rs1],
    and bit 1 clear for a compressed one), or it has to be fetched. *)
Definition presented (u : unpriv) (trap : sbi_trap_info) (w : ldst_state) (insn size : Z) (expanded : Z -> Z) : Prop :=
  (exists ofs, 0 <= ofs < 32 /\ t_tinst trap = expanded ofs - (4 - size)) \/
  (Z.land (t_tinst trap) 1 = 0 /\ code_at u (w_mem w) (r_mepc (w_regs w)) insn size).

Definition expand_ld (i : ldinstr) (ofs : Z) : Z := enc_i (ld_opcode (ld_op i)) (ld_dest i) (ld_f3 (ld_op i)) ofs 0.

(** The register written; a floating-point one makes the state dirty. *)
Definition write_dest (o : ldop) (rd v : Z) (w : ldst_state) : ldst_state :=
  let r := w_regs w in
  if ld_fp o then
    mkLd (mkTregs (gprs r) (r_mepc r) (Z.lor (r_mstatus r) MSTATUS_FS)) (<[Z.to_nat rd := v]> (w_fregs w))
      (w_csr w) (w_mem w)
  else mkLd (mkTregs (<[Z.to_nat rd := v]> (gprs r)) (r_mepc r) (r_mstatus r)) (w_fregs w) (w_csr w) (w_mem w).

(** ** Fields *)

Lemma pack_match opc rd f3 rs1 rs2 f7 :
  0 <= opc < 128 -> 0 <= rd < 32 -> 0 <= f3 < 8 -> 0 <= rs1 < 32 -> 0 <= rs2 < 32 -> 0 <= f7 < 128 ->
  Z.land (pack opc rd f3 rs1 rs2 f7) 0x707f = opc + 2 ^ 12 * f3.
Proof.
  intros. change 0x707f with (Z.lor 0x7f ((2 ^ 3 - 1) * 2 ^ 12)). rewrite Z.land_lor_distr_r.
  rewrite pack_opcode, mask_mod, pack_div12 by lia.
  assert ((f3 + 2 ^ 3 * rs1 + 2 ^ 8 * rs2 + 2 ^ 13 * f7) mod 2 ^ 3 = f3) as ->.
  { symmetry. apply Z.mod_unique with (rs1 + 2 ^ 5 * rs2 + 2 ^ 10 * f7); lia. }
  rewrite (lor_add _ _ 12); [lia|lia|lia|]. apply Z.mod_mul. lia.
Qed.

Lemma mask_e003 w : Z.land w 0xe003 = w mod 4 + 2 ^ 13 * (w / 2 ^ 13 mod 8).
Proof.
  change 0xe003 with (Z.lor (2 ^ 2 - 1) ((2 ^ 3 - 1) * 2 ^ 13)). rewrite Z.land_lor_distr_r.
  rewrite land_ones_mod, mask_mod by lia. pose proof (mod_range w 2 ltac:(lia)).
  rewrite (lor_add _ _ 13); [change (2 ^ 3) with 8; change (2 ^ 2) with 4; lia|lia|lia|]. apply Z.mod_mul. lia.
Qed.

Lemma mask_fc43 w : Z.land w 0xfc43 = w mod 4 + 2 ^ 6 * (w / 2 ^ 6 mod 2) + 2 ^ 10 * (w / 2 ^ 10 mod 64).
Proof.
  change 0xfc43 with (Z.lor (Z.lor (2 ^ 2 - 1) ((2 ^ 1 - 1) * 2 ^ 6)) ((2 ^ 6 - 1) * 2 ^ 10)).
  rewrite !Z.land_lor_distr_r, land_ones_mod, !mask_mod by lia.
  pose proof (mod_range w 2 ltac:(lia)). pose proof (mod_range (w / 2 ^ 6) 1 ltac:(lia)).
  rewrite (lor_add (w mod _) _ 6), (lor_add _ _ 10); [|lia|lia|apply Z.mod_mul; lia|lia|lia|apply Z.mod_mul; lia].
  change (2 ^ 1) with 2 in *. change (2 ^ 6) with 64 in *. change (2 ^ 2) with 4 in *. lia.
Qed.

(** A mask that has the two low bits tells compressed words from others. *)
Lemma match_low w mask v : mask mod 4 = 3 -> w mod 4 <> v mod 4 -> match_insn w mask v = false.
Proof.
  intros Hm Hw. unfold match_insn. apply Z.eqb_neq. intros E. apply Hw. rewrite <- E.
  change 4 with (2 ^ 2). rewrite <- !Z.land_ones, <- Z.land_assoc by lia.
  rewrite (Z.land_ones mask) by lia. change (2 ^ 2) with 4. rewrite Hm. done.
Qed.

Lemma reg_num_field w pos : 0 <= pos -> reg_num w pos = Z.to_nat (w / 2 ^ pos mod 32).
Proof. intros. unfold reg_num. f_equal. by apply (field_mod w pos 5). Qed.

(** ** Decoding *)

Definition ld_decoded_as (o : ldop) (rd : Z) (w : Z) : Prop :=
  exists insn, decode_load w =
    Some (mkLdd (ld_width o) (if ld_signed o then 8 * (8 - ld_width o) else 0) (ld_fp o) false insn) /\
    reg_num insn SH_RD = Z.to_nat rd.

Lemma enc_i_decode opc rd f3 rs1 imm :
  0 <= opc < 128 -> 0 <= rd < 32 -> 0 <= f3 < 8 -> 0 <= rs1 < 32 ->
  Z.land (enc_i opc rd f3 rs1 imm) 0x707f = opc + 2 ^ 12 * f3 /\
  reg_num (enc_i opc rd f3 rs1 imm) SH_RD = Z.to_nat rd /\
  enc_i opc rd f3 rs1 imm mod 4 = opc mod 4 /\ 0 <= enc_i opc rd f3 rs1 imm < 2 ^ 32.
Proof.
  intros Ho Hrd Hf Hr. unfold enc_i. cbv zeta. pose proof (mod_range imm 12 ltac:(lia)) as Hu.
  destruct (split5 _ Hu) as (_ & H1 & H2). set (a := imm mod 2 ^ 12 mod 32) in *. set (b := imm mod 2 ^ 12 / 32) in *.
  split_and!.
  - by apply pack_match.
  - rewrite reg_num_field by done. unfold SH_RD. rewrite pack_div7 by done. f_equal. symmetry.
    apply Z.mod_unique with (f3 + 2 ^ 3 * rs1 + 2 ^ 8 * a + 2 ^ 13 * b); lia.
  - unfold pack. divlia.
  - unfold pack. lia.
  - unfold pack. lia.
Qed.

Lemma decode_ld32 o rd rs1 imm : 0 <= rd < 32 -> 0 <= rs1 < 32 ->
  ld_decoded_as o rd (enc_i (ld_opcode o) rd (ld_f3 o) rs1 imm).
Proof.
  intros Hrd Hrs.
  destruct (enc_i_decode (ld_opcode o) rd (ld_f3 o) rs1 imm) as (Em & Er & _); [by destruct o|done|by destruct o|done|].
  exists (enc_i (ld_opcode o) rd (ld_f3 o) rs1 imm). split; [|done].
  unfold decode_load, match_insn. rewrite Em. by destruct o.
Qed.

(** A compressed word fails the tests of the 32-bit instructions. *)
Lemma decode_ld_compressed w : w mod 4 <> 3 ->
  decode_load w =
    let rvc := Z.shiftl (RVC_RS2S w) SH_RD in
    if match_insn w 0xe003 0x6000 then Some (mkLdd 8 0 false false rvc)
    else if match_insn w 0xe003 0x6002 && negb (Z.land (Z.shiftr w SH_RD) 0x1f =? 0) then Some (mkLdd 8 0 false false w)
    else if match_insn w 0xe003 0x4000 then Some (mkLdd 4 32 false false rvc)
    else if match_insn w 0xe003 0x4002 && negb (Z.land (Z.shiftr w SH_RD) 0x1f =? 0) then Some (mkLdd 4 32 false false w)
    else if match_insn w 0xe003 0x2000 then Some (mkLdd 8 0 true false rvc)
    else if match_insn w 0xe003 0x2002 then Some (mkLdd 8 0 true false w)
    else if match_insn w 0xfc43 0x8400 then Some (mkLdd 2 0 false false rvc)
    else if match_insn w 0xfc43 0x8440 then Some (mkLdd 2 48 false false rvc)
    else None.
Proof.
  intros Hw. unfold decode_load, IS_VECTOR_LOAD_STORE.
  rewrite !(match_low w 0x707f), !(match_low w 0x7f) by (done || exact Hw). done.
Qed.

Lemma rvc_reg w rd : 0 <= rd < 8 -> w / 2 ^ 2 mod 8 = rd ->
  reg_num (Z.shiftl (RVC_RS2S w) SH_RD) SH_RD = Z.to_nat (8 + rd).
Proof.
  intros Hrd Hw. rewrite reg_num_field by done. unfold RVC_RS2S, RV_X, SH_RS2C, SH_RD.
  rewrite (field_mod w 2 3 : _ -> _ -> Z.land (Z.shiftr w 2) (Z.shiftl 1 3 - 1) = _) by lia.
  rewrite Z.shiftl_mul_pow2 by lia. rewrite Z.div_mul by lia. change (2 ^ 3) with 8. rewrite Hw, Z.mod_small by lia. done.
Qed.

Lemma decode_ld_ok i : ld_ok i -> ld_decoded_as (ld_op i) (ld_dest i) (encode_ld i).
Proof.
  destruct i as [o rd rs1 imm|o rd rs1 i5 i10|o rd i2 i12]; cbn [ld_ok ld_op ld_dest].
  - intros [Hrd Hrs]. by apply decode_ld32.
  - intros (Hrd & Hrs & Hi10 & Hi5).
    assert (encode_ld (CLd o rd rs1 i5 i10) mod 4 = 0 /\ encode_ld (CLd o rd rs1 i5 i10) / 2 ^ 2 mod 8 = rd) as [E4 Erd].
    { destruct o; cbn [encode_ld cl_f3]; try contradiction; divlia. }
    unfold ld_decoded_as. rewrite decode_ld_compressed by lia. cbv zeta.
    exists (Z.shiftl (RVC_RS2S (encode_ld (CLd o rd rs1 i5 i10))) SH_RD). split; [|by apply rvc_reg].
    unfold match_insn. rewrite mask_e003, mask_fc43, E4.
    destruct o; try contradiction; cbn [encode_ld cl_f3] in *.
    all: match goal with |- context [?w / 2 ^ 13 mod 8] =>
           first [replace (w / 2 ^ 13 mod 8) with 1 by divlia | replace (w / 2 ^ 13 mod 8) with 2 by divlia
                 |replace (w / 2 ^ 13 mod 8) with 3 by divlia
                 |replace (w / 2 ^ 13 mod 8) with 4 by divlia] end; try reflexivity.
    all: match goal with |- context [?w / 2 ^ 10 mod 64] =>
           replace (w / 2 ^ 10 mod 64) with 33 by divlia;
           first [replace (w / 2 ^ 6 mod 2) with 0 by divlia | replace (w / 2 ^ 6 mod 2) with 1 by divlia] end; reflexivity.
  - intros (Hrd & Hi2 & Hi12 & Ho).
    assert (encode_ld (CLdsp o rd i2 i12) mod 4 = 2 /\ encode_ld (CLdsp o rd i2 i12) / 2 ^ 7 mod 32 = rd) as [E4 Erd].
    { destruct o; cbn [encode_ld cl_f3]; try contradiction; divlia. }
    unfold ld_decoded_as. rewrite decode_ld_compressed by lia. cbv zeta.
    exists (encode_ld (CLdsp o rd i2 i12)). split.
    2:{ rewrite reg_num_field by done. unfold SH_RD. by rewrite Erd. }
    unfold match_insn, SH_RD. rewrite mask_e003, mask_fc43, E4.
    change 0x1f with (2 ^ 5 - 1). rewrite (field_mod _ 7 5) by lia. change (2 ^ 5) with 32. rewrite Erd.
    destruct o; try contradiction; cbn [encode_ld cl_f3] in *.
    all: match goal with |- context [?w / 2 ^ 13 mod 8] =>
           first [replace (w / 2 ^ 13 mod 8) with 1 by divlia | replace (w / 2 ^ 13 mod 8) with 2 by divlia
                 |replace (w / 2 ^ 13 mod 8) with 3 by divlia] end.
    all: try (destruct (Z.eqb_spec rd 0); [contradiction|]); reflexivity.
Qed.

(** ** The trapped instruction *)

Lemma lor3 e : e mod 4 = 3 -> Z.lor e 3 = e /\ Z.lor (e - 2) 3 = e.
Proof.
  intros He. assert (forall r, 0 <= r < 4 -> Z.lor (r + e / 4 * 4) 3 = Z.lor r 3 + e / 4 * 4) as Hl.
  { intros r Hr. pose proof (Z.mod_mul (e / 4) 4 ltac:(lia)) as Hm.
    rewrite <- (lor_add r _ 2), <- Z.lor_assoc, (Z.lor_comm _ 3), Z.lor_assoc by (lia || done).
    apply (lor_add _ _ 2); [lia| |done]. assert (r = 0 \/ r = 1 \/ r = 2 \/ r = 3) as [->|[->|[->| ->]]] by lia; vm_compute; split; congruence. }
  pose proof (Z.div_mod e 4). split.
  - replace e with (3 + e / 4 * 4) at 1 by lia. rewrite Hl by lia. change (Z.lor 3 3) with 3. lia.
  - replace (e - 2) with (1 + e / 4 * 4) by lia. rewrite Hl by lia. change (Z.lor 1 3) with 3. lia.
Qed.

Lemma land1 e : Z.land e 1 = e mod 2.
Proof. exact (land_ones_mod e 1 ltac:(lia)). Qed.

Lemma land2 e : Z.land e 2 = e / 2 mod 2 * 2.
Proof. exact (mask_mod e 1 1 ltac:(lia) ltac:(lia)). Qed.

Lemma land3 e : Z.land e 3 = e mod 4.
Proof. exact (land_ones_mod e 2 ltac:(lia)). Qed.

Lemma INSN_LEN_mod e : INSN_LEN e = if e mod 4 =? 3 then 4 else 2.
Proof. unfold INSN_LEN, INSN_16BIT_MASK. rewrite land3. by destruct (e mod 4 =? 3). Qed.

Section Fetch.
Variables (H : bool) (feat : sbi_hart_features) (u : unpriv) (junk : Z) (trap : sbi_trap_info) (w : ldst_state).

Lemma insn_transformed e size : e mod 4 = 3 -> size = 2 \/ size = 4 -> t_tinst trap = e - (4 - size) ->
  trapped_insn H feat u junk trap w = inl (e, size).
Proof.
  intros He Hs Ht. unfold trapped_insn. cbv zeta. unfold INSN_16BIT_MASK. rewrite Ht, land1, land2.
  destruct (lor3 e He) as [L4 L2]. destruct Hs as [-> | ->].
  - change (4 - 2) with 2. rewrite L2. assert ((e - 2) mod 2 = 1) as -> by divlia.
    assert ((e - 2) / 2 mod 2 = 0) as -> by divlia. done.
  - change (4 - 4) with 0. rewrite Z.sub_0_r, L4, INSN_LEN_mod, He. assert (e mod 2 = 1) as -> by divlia.
    assert (e / 2 mod 2 = 1) as -> by divlia. done.
Qed.

Lemma vload_range a n : mem_ok (w_mem w) -> 0 <= vload u (w_mem w) a n < 2 ^ (8 * Z.of_nat n).
Proof.
  intros Hm. revert a. induction n as [|n IH]; intros a; [done|]. cbn [vload].
  specialize (IH (a + 1)). pose proof (Hm (phys u (u64 a))).
  replace (8 * Z.of_nat (S n)) with (8 + 8 * Z.of_nat n) by lia. rewrite Z.pow_add_r by lia. lia.
Qed.

Lemma insn_fetched e size : mem_ok (w_mem w) -> (size = 2 /\ e mod 4 <> 3 \/ size = 4 /\ e mod 4 = 3) ->
  Z.land (t_tinst trap) 1 = 0 -> code_at u (w_mem w) (r_mepc (w_regs w)) e size ->
  trapped_insn H feat u junk trap w = inl (e, size).
Proof.
  intros Hm Hs Ht (Ha & X1 & X2 & Hv). unfold trapped_insn. rewrite Ht. cbn [Z.eqb negb].
  set (a := r_mepc (w_regs w)) in *. unfold sbi_get_insn, fetch16. rewrite X1.
  pose proof (Hm (phys u a)) as B0. pose proof (Hm (phys u (u64 (a + 1)))) as B1.
  destruct Hs as [[-> He]|[-> He]].
  - change (Z.to_nat 2) with 2%nat in Hv. cbn [vload] in Hv. rewrite Ha, Z.mul_0_r, Z.add_0_r in Hv. rewrite Hv, land3.
    destruct (Z.eqb_spec (e mod 4) 3); [done|]. cbn. rewrite INSN_LEN_mod. destruct (Z.eqb_spec (e mod 4) 3); done.
  - change (Z.to_nat 4) with 4%nat in Hv. cbn [vload] in Hv. rewrite Ha, Z.mul_0_r, Z.add_0_r in Hv. specialize (X2 eq_refl). rewrite X2.
    assert (u64 (u64 (a + 2) + 1) = u64 (a + 1 + 1 + 1)) as E3.
    { unfold wrap. rewrite Zplus_mod_idemp_l. f_equal. lia. }
    replace (a + 1 + 1) with (a + 2) in * by lia. rewrite <- E3 in Hv. rewrite E3 in *.
    pose proof (Hm (phys u (u64 (a + 2)))) as B2. pose proof (Hm (phys u (u64 (a + 2 + 1)))) as B3.
    set (b0 := w_mem w _) in *. set (b1 := w_mem w (phys u (u64 (a + 1)))) in *.
    set (b2 := w_mem w (phys u (u64 (a + 2)))) in *. set (b3 := w_mem w (phys u (u64 (a + 2 + 1)))) in *.
    rewrite land3. assert ((b0 + 2 ^ 8 * b1) mod 4 = 3) as -> by divlia. cbn [Z.eqb Pos.eqb].
    rewrite Z.shiftl_mul_pow2 by lia. rewrite (wrap_small 64 (_ * 2 ^ 16)) by lia.
    rewrite wrap_small by lia. cbn. rewrite INSN_LEN_mod.
    replace (b0 + 2 ^ 8 * b1 + (b2 + 2 ^ 8 * b3) * 2 ^ 16) with e by lia. by rewrite He.
Qed.

(** However the hardware presents it, the handler has a word that means [i]. *)
Lemma ld_presented i : ld_ok i -> mem_ok (w_mem w) ->
  presented u trap w (encode_ld i) (ld_size i) (expand_ld i) ->
  exists e, trapped_insn H feat u junk trap w = inl (e, ld_size i) /\ ld_decoded_as (ld_op i) (ld_dest i) e.
Proof.
  intros Hi Hm. assert (0 <= ld_dest i < 32) as Hd by (destruct i; cbn in *; lia).
  intros [(ofs & Hofs & Ht)|[Ht Hc]].
  - exists (expand_ld i ofs). unfold expand_ld.
    destruct (enc_i_decode (ld_opcode (ld_op i)) (ld_dest i) (ld_f3 (ld_op i)) ofs 0) as (_ & _ & E4 & _);
      [by destruct (ld_op i)|done|by destruct (ld_op i)|done|].
    split; [|by apply decode_ld32]. apply insn_transformed; [|destruct i; cbn; lia|done].
    rewrite E4. by destruct (ld_op i).
  - exists (encode_ld i). split; [|by apply decode_ld_ok]. apply insn_fetched; try done.
    destruct i as [o rd rs1 imm|o rd rs1 i5 i10|o rd i2 i12]; cbn [ld_size ld_ok] in *.
    + right. split; [done|].
      destruct (enc_i_decode (ld_opcode o) rd (ld_f3 o) rs1 imm) as (_ & _ & E4 & _);
        [by destruct o|lia|by destruct o|lia|]. cbn [encode_ld]. rewrite E4. by destruct o.
    + left. split; [done|]. destruct o; cbn [encode_ld cl_f3]; try tauto; divlia.
    + left. split; [done|]. destruct o; cbn [encode_ld cl_f3]; try tauto; divlia.
Qed.
End Fetch.

(** ** The accesses *)

Section Access.
Variables (H : bool) (feat : sbi_hart_features) (u : unpriv) (junk : Z).
Variables (v_ld v_st : sbi_trap_info -> ldst_state -> Z * ldst_state).

Fixpoint vbytes (m : mem) (a : Z) (n : nat) : list Z :=
  match n with O => [] | S n => m (phys u (u64 a)) :: vbytes m (a + 1) n end.

Lemma vbytes_value m a n k : data_ulong (vbytes m a n ++ replicate k 0) = vload u m a n.
Proof.
  revert a. induction n as [|n IH]; intros a; cbn [vbytes vload app data_ulong foldr].
  - induction k as [|k IHk]; [done|]. cbn [replicate foldr]. fold data_ulong in *. unfold data_ulong in IHk. cbn in IHk. rewrite IHk. done.
  - f_equal. f_equal. apply IH.
Qed.

(** Bytes [i] to [j] of the access do not fault. *)
Definition readable (trap : sbi_trap_info) (i j : Z) : Prop :=
  forall k, i <= k < j -> ld_fault u (u64 (t_tval trap + k)) = None.

Definition writable (trap : sbi_trap_info) (i j : Z) : Prop :=
  forall k, i <= k < j -> st_fault u (u64 (t_tval trap + k)) = None.

Lemma ld_loop_ok n rlen trap w : forall pre rest, (n <= length rest)%nat ->
  readable trap (Z.of_nat (length pre)) (Z.of_nat (length pre + n)) ->
  ld_loop H feat u n (Z.of_nat (length pre)) rlen (pre ++ rest) trap w =
    (rlen, pre ++ vbytes (w_mem w) (t_tval trap + Z.of_nat (length pre)) n ++ drop n rest, w).
Proof.
  induction n as [|n IH]; intros pre rest Hn Hr; [done|]. cbn [ld_loop vbytes]. destruct rest as [|x rest]; [cbn in Hn; lia|].
  unfold sbi_load_u8. rewrite Hr by lia. cbn [t_cause no_trap Z.eqb negb].
  rewrite Nat2Z.id, <- (Nat.add_0_r (length pre)), insert_app_r. cbn [insert list_insert]. rewrite Nat.add_0_r.
  set (b := w_mem w _). specialize (IH (pre ++ [b]) rest ltac:(cbn in Hn; lia)).
  rewrite length_app in IH. cbn [length] in IH. rewrite Nat2Z.inj_add in IH. change (Z.of_nat 1) with 1 in IH.
  rewrite <- !app_assoc in IH. cbn [app] in IH. rewrite IH.
  - cbn [drop app]. by rewrite Z.add_assoc.
  - intros k Hk. apply Hr. lia.
Qed.

(** The first fault is the one that is redirected. *)
Lemma ld_loop_fault n rlen trap w k t : forall i val, i <= k < i + Z.of_nat n -> readable trap i k ->
  ld_fault u (u64 (t_tval trap + k)) = Some t -> t_cause t <> 0 ->
  let res := redirect H feat (with_tinst (sbi_misaligned_tinst_fixup (t_tinst trap) (t_tinst t) k) t) w in
  exists val', ld_loop H feat u n i rlen val trap w = (res.1, val', res.2).
Proof.
  induction n as [|n IH]; intros i val Hk Hr Ht Hc res; [lia|]. cbn [ld_loop]. unfold sbi_load_u8.
  destruct (Z.eq_dec i k) as [-> |Hn].
  - rewrite Ht. destruct (Z.eqb_spec (t_cause t) 0); [done|]. cbn [negb]. fold res. destruct res as [rc w']. by eexists.
  - rewrite Hr by lia. cbn [t_cause no_trap Z.eqb negb]. apply IH; try done; [lia|]. intros j Hj. apply Hr. lia.
Qed.

(** Sign extension by shifting up and down. *)
Lemma sext_shift k v : 0 < k <= 64 -> 0 <= v < 2 ^ k ->
  u64 (Z.shiftr (signed 64 (u64 (Z.shiftl v (64 - k)))) (64 - k)) = u64 (signed k v).
Proof.
  intros Hk Hv. rewrite Z.shiftl_mul_pow2, Z.shiftr_div_pow2 by lia.
  assert (2 ^ 64 = 2 ^ k * 2 ^ (64 - k)) as E by (rewrite <- Z.pow_add_r by lia; f_equal; lia).
  assert (2 ^ 63 = 2 ^ (k - 1) * 2 ^ (64 - k)) as E1 by (rewrite <- Z.pow_add_r by lia; f_equal; lia).
  pose proof (Z.pow_pos_nonneg 2 (64 - k) ltac:(lia) ltac:(lia)) as Hp.
  assert (0 <= v * 2 ^ (64 - k) < 2 ^ 64) as Hr by (rewrite E; nia).
  rewrite (wrap_small 64 (v * _)) by done. f_equal. unfold signed. change (64 - 1) with 63. rewrite E1, E.
  destruct (Z.ltb_spec v (2 ^ (k - 1))), (Z.ltb_spec (v * 2 ^ (64 - k)) (2 ^ (k - 1) * 2 ^ (64 - k))); try nia.
  - by rewrite Z.div_mul by lia.
  - replace (v * 2 ^ (64 - k) - 2 ^ k * 2 ^ (64 - k)) with ((v - 2 ^ k) * 2 ^ (64 - k)) by lia.
    by rewrite Z.div_mul by lia.
Qed.

Lemma shift0 v : 0 <= v < 2 ^ 64 -> u64 (Z.shiftr (signed 64 (u64 (Z.shiftl v 0))) 0) = v.
Proof.
  intros Hv. rewrite Z.shiftl_0_r, Z.shiftr_0_r, (wrap_small 64 v) by lia. unfold signed. change (64 - 1) with 63.
  destruct (Z.ltb_spec v (2 ^ 63)); [by rewrite wrap_small by lia|].
  unfold wrap. symmetry. apply Z.mod_unique with (-1); lia.
Qed.

Lemma misaligned_load_ok trap w i : ld_ok i -> mem_ok (w_mem w) ->
  presented u trap w (encode_ld i) (ld_size i) (expand_ld i) ->
  readable trap 0 (ld_width (ld_op i)) ->
  sbi_misaligned_load_handler H feat u junk v_ld trap w =
    (0, set_mepc_by (ld_size i)
          (write_dest (ld_op i) (ld_dest i)
             (ld_value (ld_op i) (vload u (w_mem w) (t_tval trap) (Z.to_nat (ld_width (ld_op i))))) w)).
Proof.
  intros Hi Hm Hp Hr. unfold sbi_misaligned_load_handler, sbi_trap_emulate_load.
  destruct (ld_presented H feat u junk trap w i Hi Hm Hp) as (e & -> & insn & -> & Er).
  cbn [d_vector d_len d_fp d_shift d_insn]. unfold sbi_misaligned_ld_emulator.
  set (o := ld_op i) in *. set (n := Z.to_nat (ld_width o)).
  assert (Z.of_nat n = ld_width o) as En by (unfold n; destruct o; reflexivity).
  pose proof (ld_loop_ok n (ld_width o) trap w [] (replicate 8 0)) as L. cbn [length app] in L.
  change (Z.of_nat 0) with 0 in L. rewrite L; [|rewrite length_replicate; destruct o; unfold n; cbn; lia|intros k Hk; apply Hr; lia].
  rewrite drop_replicate, Z.add_0_r, vbytes_value. fold n.
  pose proof (vload_range u w (t_tval trap) n Hm) as Hv. rewrite En in Hv.
  set (v := vload u (w_mem w) (t_tval trap) n) in *.
  assert ((ld_width o <=? 0) = false) as -> by (by destruct o). f_equal. f_equal.
  unfold write_dest, ld_value. unfold SET_F32_RD, SET_F64_RD, SET_RD. rewrite Er.
  destruct o; cbn [ld_fp ld_width ld_signed negb Z.eqb Pos.eqb] in *;
    change (8 * (8 - 1)) with (64 - 8); change (8 * (8 - 2)) with (64 - 16); change (8 * (8 - 4)) with (64 - 32);
    change (8 * (8 - 8)) with (64 - 64); rewrite ?sext_shift, ?shift0 by lia; rewrite ?wrap_small by lia; done.
Qed.

Lemma misaligned_load_fault trap w i k t : ld_ok i -> mem_ok (w_mem w) ->
  presented u trap w (encode_ld i) (ld_size i) (expand_ld i) ->
  0 <= k < ld_width (ld_op i) -> readable trap 0 k -> ld_fault u (u64 (t_tval trap + k)) = Some t -> t_cause t <> 0 ->
  let res := redirect H feat (with_tinst (sbi_misaligned_tinst_fixup (t_tinst trap) (t_tinst t) k) t) w in
  res.1 <= 0 -> sbi_misaligned_load_handler H feat u junk v_ld trap w = res.
Proof.
  intros Hi Hm Hp Hk Hr Ht Hc res Hres. unfold sbi_misaligned_load_handler, sbi_trap_emulate_load.
  destruct (ld_presented H feat u junk trap w i Hi Hm Hp) as (e & -> & insn & -> & Er).
  cbn [d_vector d_len]. unfold sbi_misaligned_ld_emulator.
  destruct (ld_loop_fault (Z.to_nat (ld_width (ld_op i))) (ld_width (ld_op i)) trap w k t 0 (replicate 8 0)) as (val' & ->);
    [lia|done|done|done|]. fold res. destruct (Z.leb_spec res.1 0); [by destruct res|lia].
Qed.

End Access.

(** ** Stores *)

Inductive stop := SB | SH | SW | SD | FSW | FSD.

Definition st_width (o : stop) : Z := match o with SB => 1 | SH => 2 | SW | FSW => 4 | SD | FSD => 8 end.
Definition st_fp (o : stop) : bool := match o with FSW | FSD => true | _ => false end.
Definition st_opcode (o : stop) : Z := if st_fp o then 0x27 else 0x23.
Definition st_f3 (o : stop) : Z := match o with SB => 0 | SH => 1 | SW | FSW => 2 | SD | FSD => 3 end.

(** As for loads; the stack-relative form has its offset in bits 7 to 12. *)
Inductive stinstr :=
  | St (o : stop) (rs1 rs2 imm : Z)
  | CSt (o : stop) (rs1 rs2 i5 i10 : Z)
  | CStsp (o : stop) (rs2 i7 : Z).

Definition cs_f3 (o : stop) : Z := match o with FSD => 5 | SW => 6 | _ => 7 end.

Definition encode_st (i : stinstr) : Z :=
  match i with
  | St o rs1 rs2 imm => enc_s (st_opcode o) (st_f3 o) rs1 rs2 imm
  | CSt SH rs1 rs2 i5 _ => 2 ^ 2 * rs2 + 2 ^ 5 * i5 + 2 ^ 7 * rs1 + 2 ^ 10 * 3 + 2 ^ 13 * 4
  | CSt o rs1 rs2 i5 i10 => 2 ^ 2 * rs2 + 2 ^ 5 * i5 + 2 ^ 7 * rs1 + 2 ^ 10 * i10 + 2 ^ 13 * cs_f3 o
  | CStsp o rs2 i7 => 2 + 2 ^ 2 * rs2 + 2 ^ 7 * i7 + 2 ^ 13 * cs_f3 o
  end.

Definition st_ok (i : stinstr) : Prop :=
  match i with
  | St _ rs1 rs2 imm => 0 <= rs1 < 32 /\ 0 <= rs2 < 32
  | CSt o rs1 rs2 i5 i10 =>
      0 <= rs1 < 8 /\ 0 <= rs2 < 8 /\ 0 <= i10 < 8 /\
      match o with SW | SD | FSD => 0 <= i5 < 4 | SH => 0 <= i5 < 2 | _ => False end
  | CStsp o rs2 i7 => 0 <= rs2 < 32 /\ 0 <= i7 < 64 /\ match o with SW | SD | FSD => True | _ => False end
  end.

Definition st_op (i : stinstr) : stop := match i with St o _ _ _ | CSt o _ _ _ _ | CStsp o _ _ => o end.
Definition st_size (i : stinstr) : Z := match i with St _ _ _ _ => 4 | _ => 2 end.
Definition st_src (i : stinstr) : Z := match i with St _ _ rs2 _ => rs2 | CSt _ _ rs2 _ _ => 8 + rs2 | CStsp _ rs2 _ => rs2 end.
Definition expand_st (i : stinstr) (ofs : Z) : Z := enc_s (st_opcode (st_op i)) (st_f3 (st_op i)) ofs (st_src i) 0.

(** The register a store writes to memory. *)
Definition st_source (o : stop) (rs2 : Z) (w : ldst_state) : Z :=
  if st_fp o then get_freg (Z.to_nat rs2) w else get_reg (Z.to_nat rs2) w.

Definition st_decoded_as (o : stop) (rs2 e : Z) : Prop :=
  forall w, exists v, decode_store e w = Some (Some (st_width o, bytes_of v)) /\
    v mod 2 ^ (8 * st_width o) = st_source o rs2 w mod 2 ^ (8 * st_width o).

Lemma enc_s_decode opc f3 rs1 rs2 imm :
  0 <= opc < 128 -> 0 <= f3 < 8 -> 0 <= rs1 < 32 -> 0 <= rs2 < 32 ->
  Z.land (enc_s opc f3 rs1 rs2 imm) 0x707f = opc + 2 ^ 12 * f3 /\
  reg_num (enc_s opc f3 rs1 rs2 imm) SH_RS2 = Z.to_nat rs2 /\
  enc_s opc f3 rs1 rs2 imm mod 4 = opc mod 4.
Proof.
  intros Ho Hf H1 H2. unfold enc_s. cbv zeta. pose proof (mod_range imm 12 ltac:(lia)) as Hu.
  destruct (split5 _ Hu) as (_ & Ha & Hb). set (a := imm mod 2 ^ 12 mod 32) in *. set (b := imm mod 2 ^ 12 / 32) in *.
  split_and!.
  - by apply pack_match.
  - rewrite reg_num_field by done. unfold SH_RS2. rewrite pack_div20 by done. f_equal. symmetry.
    apply Z.mod_unique with b; lia.
  - unfold pack. divlia.
Qed.

Lemma f32_low v : u64 (signed 32 (u32 v)) mod 2 ^ 32 = v mod 2 ^ 32.
Proof.
  assert (forall z, u64 z mod 2 ^ 32 = z mod 2 ^ 32) as Hu.
  { intros z. unfold wrap. symmetry. apply Znumtheory.Zmod_div_mod; [lia|lia|]. by exists (2 ^ 32). }
  rewrite Hu. unfold signed, wrap. destruct (_ <? _); [by rewrite Z.mod_mod by lia|].
  rewrite Zminus_mod, Z.mod_same, Z.sub_0_r, !Z.mod_mod by lia. done.
Qed.

Lemma decode_st32 o rs1 rs2 imm : 0 <= rs1 < 32 -> 0 <= rs2 < 32 ->
  st_decoded_as o rs2 (enc_s (st_opcode o) (st_f3 o) rs1 rs2 imm).
Proof.
  intros H1 H2 w.
  destruct (enc_s_decode (st_opcode o) (st_f3 o) rs1 rs2 imm) as (Em & Er & _); [by destruct o|by destruct o|done|done|].
  unfold decode_store, match_insn. rewrite Em, Er.
  destruct o; (eexists; split; [reflexivity|]); try reflexivity. apply f32_low.
Qed.

Lemma decode_st_compressed e w : e mod 4 <> 3 ->
  let ok len v := Some (Some (len, bytes_of v)) in
  let s := Z.to_nat (RVC_RS2S e) in
  let c := reg_num e SH_RS2C in
  decode_store e w =
    if match_insn e 0xe003 0xe000 then ok 8 (get_reg s w)
    else if match_insn e 0xe003 0xe002 then ok 8 (get_reg c w)
    else if match_insn e 0xe003 0xc000 then ok 4 (get_reg s w)
    else if match_insn e 0xe003 0xc002 then ok 4 (get_reg c w)
    else if match_insn e 0xe003 0xa000 then ok 8 (get_freg s w)
    else if match_insn e 0xe003 0xa002 then ok 8 (get_freg c w)
    else if match_insn e 0xfc43 0x8c00 then ok 2 (get_reg s w)
    else None.
Proof.
  intros He. unfold decode_store, IS_VECTOR_LOAD_STORE.
  rewrite !(match_low e 0x707f), !(match_low e 0x7f) by (done || exact He). done.
Qed.

Lemma decode_st_ok i : st_ok i -> st_decoded_as (st_op i) (st_src i) (encode_st i).
Proof.
  destruct i as [o rs1 rs2 imm|o rs1 rs2 i5 i10|o rs2 i7]; cbn [st_ok st_op st_src].
  - intros [H1 H2]. by apply decode_st32.
  - intros (H1 & H2 & Hi10 & Hi5) w.
    assert (encode_st (CSt o rs1 rs2 i5 i10) mod 4 = 0 /\ encode_st (CSt o rs1 rs2 i5 i10) / 2 ^ 2 mod 8 = rs2) as [E4 Er].
    { destruct o; cbn [encode_st cs_f3]; try contradiction; divlia. }
    rewrite decode_st_compressed by lia. cbv zeta.
    assert (RVC_RS2S (encode_st (CSt o rs1 rs2 i5 i10)) = 8 + rs2) as ->.
    { unfold RVC_RS2S, RV_X, SH_RS2C.
      rewrite (field_mod _ 2 3 : _ -> _ -> Z.land (Z.shiftr _ 2) (Z.shiftl 1 3 - 1) = _) by lia.
      change (2 ^ 3) with 8. by rewrite Er. }
    unfold match_insn. rewrite mask_e003, mask_fc43, E4.
    destruct o; try contradiction; cbn [encode_st cs_f3] in *.
    all: match goal with |- context [?w / 2 ^ 13 mod 8] =>
           first [replace (w / 2 ^ 13 mod 8) with 4 by divlia | replace (w / 2 ^ 13 mod 8) with 5 by divlia
                 |replace (w / 2 ^ 13 mod 8) with 6 by divlia |replace (w / 2 ^ 13 mod 8) with 7 by divlia] end;
         try (by eexists).
    match goal with |- context [?w / 2 ^ 10 mod 64] =>
      replace (w / 2 ^ 10 mod 64) with 35 by divlia; replace (w / 2 ^ 6 mod 2) with 0 by divlia end. by eexists.
  - intros (H2 & Hi7 & Ho) w.
    assert (encode_st (CStsp o rs2 i7) mod 4 = 2 /\ encode_st (CStsp o rs2 i7) / 2 ^ 2 mod 32 = rs2) as [E4 Er].
    { destruct o; cbn [encode_st cs_f3]; try contradiction; divlia. }
    rewrite decode_st_compressed by lia. cbv zeta. rewrite reg_num_field by done. unfold SH_RS2C. rewrite Er.
    unfold match_insn. rewrite mask_e003, mask_fc43, E4.
    destruct o; try contradiction; cbn [encode_st cs_f3] in *.
    all: match goal with |- context [?w / 2 ^ 13 mod 8] =>
           first [replace (w / 2 ^ 13 mod 8) with 5 by divlia |replace (w / 2 ^ 13 mod 8) with 6 by divlia
                 |replace (w / 2 ^ 13 mod 8) with 7 by divlia] end; by eexists.
Qed.

(** [n] bytes of [v] from [a] on. *)
Fixpoint vstore (u : unpriv) (m : mem) (a : Z) (n : nat) (v : Z) : mem :=
  match n with
  | O => m
  | S n => vstore u (store8 m (phys u (u64 a)) v) (a + 1) n (v / 2 ^ 8)
  end.

(** The bytes of the access are at different places. *)
Definition distinct (u : unpriv) (a : Z) (n : nat) : Prop :=
  forall j k, 0 <= j < Z.of_nat n -> 0 <= k < Z.of_nat n ->
    phys u (u64 (a + j)) = phys u (u64 (a + k)) -> j = k.

Lemma vstore_other u n : forall m a v x,
  (forall k, 0 <= k < Z.of_nat n -> x <> phys u (u64 (a + k))) -> vstore u m a n v x = m x.
Proof.
  induction n as [|n IH]; intros m a v x Hx; [done|]. cbn [vstore]. rewrite IH.
  - apply store8_other. specialize (Hx 0 ltac:(lia)). by rewrite Z.add_0_r in Hx.
  - intros k Hk. replace (a + 1 + k) with (a + (1 + k)) by lia. apply Hx. lia.
Qed.

Lemma vstore_vload u n : forall m a v, distinct u a n ->
  vload u (vstore u m a n v) a n = v mod 2 ^ (8 * Z.of_nat n).
Proof.
  induction n as [|n IH]; intros m a v Hd; [cbn; by rewrite Z.mod_1_r|]. cbn [vstore vload].
  rewrite IH.
  2:{ intros j k Hj Hk. replace (a + 1 + j) with (a + (1 + j)) by lia. replace (a + 1 + k) with (a + (1 + k)) by lia.
      intros E. apply Hd in E; lia. }
  rewrite vstore_other.
  2:{ intros k Hk E. replace (a + 1 + k) with (a + (1 + k)) in E by lia. rewrite <- (Z.add_0_r a) in E at 1.
      apply Hd in E; lia. }
  rewrite store8_same. unfold wrap. replace (8 * Z.of_nat (S n)) with (8 + 8 * Z.of_nat n) by lia.
  rewrite Z.pow_add_r by lia. rewrite Z.rem_mul_r by lia. done.
Qed.

Section Stores.
Variables (H : bool) (feat : sbi_hart_features) (u : unpriv) (junk : Z).
Variables (v_st : sbi_trap_info -> ldst_state -> Z * ldst_state).

Definition set_wmem (m : mem) (w : ldst_state) : ldst_state := mkLd (w_regs w) (w_fregs w) (w_csr w) m.

Lemma bytes_of_nth v i : 0 <= i < 8 -> nth (Z.to_nat i) (bytes_of v) 0 = v / 2 ^ (8 * i) mod 2 ^ 8.
Proof.
  intros Hi. rewrite <- Z.shiftr_div_pow2 by lia.
  assert (i = 0 \/ i = 1 \/ i = 2 \/ i = 3 \/ i = 4 \/ i = 5 \/ i = 6 \/ i = 7) as [->|[->|[->|[->|[->|[->|[->| ->]]]]]]] by lia;
    reflexivity.
Qed.

Lemma st_loop_ok wlen trap v n : forall w i, 0 <= i -> i + Z.of_nat n <= 8 ->
  writable u trap i (i + Z.of_nat n) ->
  st_loop H feat u n i wlen (bytes_of v) trap w =
    (wlen, set_wmem (vstore u (w_mem w) (t_tval trap + i) n (v / 2 ^ (8 * i))) w).
Proof.
  induction n as [|n IH]; intros w i Hi Hn Hw; [by destruct w|]. cbn [st_loop vstore].
  unfold sbi_store_u8. rewrite Hw by lia. cbn [t_cause no_trap Z.eqb negb].
  rewrite IH; [|lia|lia|intros k Hk; apply Hw; lia]. cbn [w_mem set_wmem w_regs w_fregs w_csr].
  rewrite bytes_of_nth by lia. f_equal. unfold set_wmem. cbn. f_equal.
  rewrite Z.add_assoc, Z.div_div, <- Z.pow_add_r by lia. replace (8 * i + 8) with (8 * (i + 1)) by lia.
  unfold store8. unfold wrap. by rewrite Z.mod_mod by lia.
Qed.

Lemma st_loop_fault wlen trap v k t n : forall w i, 0 <= i -> i + Z.of_nat n <= 8 -> i <= k < i + Z.of_nat n ->
  writable u trap i k -> st_fault u (u64 (t_tval trap + k)) = Some t -> t_cause t <> 0 ->
  st_loop H feat u n i wlen (bytes_of v) trap w =
    redirect H feat (with_tinst (sbi_misaligned_tinst_fixup (t_tinst trap) (t_tinst t) k) t)
      (set_wmem (vstore u (w_mem w) (t_tval trap + i) (Z.to_nat (k - i)) (v / 2 ^ (8 * i))) w).
Proof.
  induction n as [|n IH]; intros w i Hi Hn Hk Hw Ht Hc; [lia|]. cbn [st_loop]. unfold sbi_store_u8.
  destruct (Z.eq_dec i k) as [-> |Hne].
  - rewrite Ht. destruct (Z.eqb_spec (t_cause t) 0); [done|]. cbn [negb]. rewrite Z.sub_diag. by destruct w.
  - rewrite Hw by lia. cbn [t_cause no_trap Z.eqb negb].
    rewrite IH; [|lia|lia|lia|intros j Hj; apply Hw; lia|done|done]. f_equal. cbn [w_mem set_wmem w_regs w_fregs w_csr].
    unfold set_wmem. cbn. f_equal.
    replace (Z.to_nat (k - i)) with (S (Z.to_nat (k - (i + 1)))) by lia. cbn [vstore].
    rewrite bytes_of_nth by lia.
    rewrite Z.add_assoc, Z.div_div, <- Z.pow_add_r by lia. replace (8 * i + 8) with (8 * (i + 1)) by lia.
    unfold store8. unfold wrap. by rewrite Z.mod_mod by lia.
Qed.

Lemma st_presented trap w i : st_ok i -> mem_ok (w_mem w) ->
  presented u trap w (encode_st i) (st_size i) (expand_st i) ->
  exists e, trapped_insn H feat u junk trap w = inl (e, st_size i) /\ st_decoded_as (st_op i) (st_src i) e.
Proof.
  intros Hi Hm. assert (0 <= st_src i < 32) as Hd by (destruct i; cbn in *; lia).
  intros [(ofs & Hofs & Ht)|[Ht Hc]].
  - exists (expand_st i ofs). unfold expand_st.
    destruct (enc_s_decode (st_opcode (st_op i)) (st_f3 (st_op i)) ofs (st_src i) 0) as (_ & _ & E4);
      [by destruct (st_op i)|by destruct (st_op i)|done|done|].
    split; [|by apply decode_st32]. apply insn_transformed; [|destruct i; cbn; lia|done].
    rewrite E4. by destruct (st_op i).
  - exists (encode_st i). split; [|by apply decode_st_ok]. apply insn_fetched; try done.
    destruct i as [o rs1 rs2 imm|o rs1 rs2 i5 i10|o rs2 i7]; cbn [st_size st_ok] in *.
    + right. split; [done|].
      destruct (enc_s_decode (st_opcode o) (st_f3 o) rs1 rs2 imm) as (_ & _ & E4);
        [by destruct o|by destruct o|lia|lia|]. cbn [encode_st]. rewrite E4. by destruct o.
    + left. split; [done|]. destruct o; cbn [encode_st cs_f3]; try tauto; divlia.
    + left. split; [done|]. destruct o; cbn [encode_st cs_f3]; try tauto; divlia.
Qed.

Lemma misaligned_store_ok trap w i : st_ok i -> mem_ok (w_mem w) ->
  presented u trap w (encode_st i) (st_size i) (expand_st i) ->
  writable u trap 0 (st_width (st_op i)) ->
  let n := Z.to_nat (st_width (st_op i)) in
  distinct u (t_tval trap) n ->
  exists m, sbi_misaligned_store_handler H feat u junk v_st trap w = (0, set_mepc_by (st_size i) (set_wmem m w)) /\
    vload u m (t_tval trap) n = st_source (st_op i) (st_src i) w mod 2 ^ (8 * st_width (st_op i)) /\
    forall x, (forall k, 0 <= k < st_width (st_op i) -> x <> phys u (u64 (t_tval trap + k))) -> m x = w_mem w x.
Proof.
  intros Hi Hm Hp Hw n Hd. unfold sbi_misaligned_store_handler, sbi_trap_emulate_store.
  destruct (st_presented trap w i Hi Hm Hp) as (e & -> & Hdec). destruct (Hdec w) as (v & -> & Ev).
  unfold sbi_misaligned_st_emulator. set (o := st_op i) in *. fold n.
  assert (Z.of_nat n = st_width o) as En by (unfold n; destruct o; reflexivity).
  assert (st_width o <= 8 /\ (st_width o <=? 0) = false) as [H8 H0] by (by destruct o).
  rewrite (st_loop_ok (st_width o) trap v n w 0); [|lia|lia|intros k Hk; apply Hw; lia].
  rewrite H0, Z.mul_0_r, Z.div_1_r, Z.add_0_r.
  exists (vstore u (w_mem w) (t_tval trap) n v). split; [done|]. split.
  - rewrite vstore_vload by done. by rewrite En.
  - intros x Hx. apply vstore_other. by rewrite En.
Qed.

Lemma misaligned_store_fault trap w i k t : st_ok i -> mem_ok (w_mem w) ->
  presented u trap w (encode_st i) (st_size i) (expand_st i) ->
  0 <= k < st_width (st_op i) -> writable u trap 0 k ->
  st_fault u (u64 (t_tval trap + k)) = Some t -> t_cause t <> 0 ->
  exists m,
    let res := redirect H feat (with_tinst (sbi_misaligned_tinst_fixup (t_tinst trap) (t_tinst t) k) t) (set_wmem m w) in
    (res.1 <= 0 -> sbi_misaligned_store_handler H feat u junk v_st trap w = res) /\
    forall x, (forall j, 0 <= j < k -> x <> phys u (u64 (t_tval trap + j))) -> m x = w_mem w x.
Proof.
  intros Hi Hm Hp Hk Hw Ht Hc. unfold sbi_misaligned_store_handler, sbi_trap_emulate_store.
  destruct (st_presented trap w i Hi Hm Hp) as (e & -> & Hdec). destruct (Hdec w) as (v & -> & Ev).
  unfold sbi_misaligned_st_emulator. set (o := st_op i) in *.
  assert (0 <= st_width o <= 8) as H8 by (by destruct o).
  rewrite (st_loop_fault (st_width o) trap v k t (Z.to_nat (st_width o)) w 0); try done; [|lia|lia].
  rewrite Z.mul_0_r, Z.div_1_r, Z.add_0_r, Z.sub_0_r.
  exists (vstore u (w_mem w) (t_tval trap) (Z.to_nat k) v). cbv zeta. split.
  - intros Hres. destruct (redirect _ _ _ _) as [rc w']. cbn in Hres. destruct (Z.leb_spec rc 0); [done|lia].
  - intros x Hx. apply vstore_other. intros j Hj. apply Hx. lia.
Qed.

End Stores.

(** ** The handlers *)

Lemma redirect_rc H feat t w : (redirect H feat t w).1 <= 0.
Proof.
  unfold redirect, sbi_trap_redirect. cbv zeta. destruct (_ && _); [done|]. by destruct (_ && _ && _ && _).
Qed.

(** C19: the handler of misaligned loads does what the trapped instruction does,
    for all integer and floating-point loads, compressed ones included, and
    however the hardware presents the instruction: the register gets the bytes at
    the address, extended as the instruction says, and the program goes on after
    it, with nothing else changed; and if a byte cannot be read, the fault of the
    first such byte is redirected to the supervisor and no register changes. *)
Theorem misaligned_load_emulates H feat u junk v_ld trap w i :
  ld_ok i -> mem_ok (w_mem w) -> presented u trap w (encode_ld i) (ld_size i) (expand_ld i) ->
  (readable u trap 0 (ld_width (ld_op i)) ->
   sbi_misaligned_load_handler H feat u junk v_ld trap w =
     (0, set_mepc_by (ld_size i)
           (write_dest (ld_op i) (ld_dest i)
              (ld_value (ld_op i) (vload u (w_mem w) (t_tval trap) (Z.to_nat (ld_width (ld_op i))))) w))) /\
  (forall k t, 0 <= k < ld_width (ld_op i) -> readable u trap 0 k ->
   ld_fault u (u64 (t_tval trap + k)) = Some t -> t_cause t <> 0 ->
   sbi_misaligned_load_handler H feat u junk v_ld trap w =
     redirect H feat (with_tinst (sbi_misaligned_tinst_fixup (t_tinst trap) (t_tinst t) k) t) w).
Proof.
  intros Hi Hm Hp. split.
  - by apply misaligned_load_ok.
  - intros k t Hk Hr Ht Hc. apply (misaligned_load_fault H feat u junk v_ld trap w i k t); try done. apply redirect_rc.
Qed.

(** The handler of misaligned stores does what the trapped instruction does,
    for all integer and floating-point stores, compressed ones included: the bytes
    at the address become the low bytes of the source register, no other byte and
    no register changes, and the program goes on after the instruction; and if a
    byte cannot be written, the fault of the first such byte is redirected, and
    only bytes before it may have changed. *)
Lemma misaligned_store_emulates H feat u junk v_st trap w i :
  st_ok i -> mem_ok (w_mem w) -> presented u trap w (encode_st i) (st_size i) (expand_st i) ->
  let n := st_width (st_op i) in
  (writable u trap 0 n -> distinct u (t_tval trap) (Z.to_nat n) ->
   exists m, sbi_misaligned_store_handler H feat u junk v_st trap w = (0, set_mepc_by (st_size i) (set_wmem m w)) /\
     vload u m (t_tval trap) (Z.to_nat n) = st_source (st_op i) (st_src i) w mod 2 ^ (8 * n) /\
     forall x, (forall k, 0 <= k < n -> x <> phys u (u64 (t_tval trap + k))) -> m x = w_mem w x) /\
  (forall k t, 0 <= k < n -> writable u trap 0 k ->
   st_fault u (u64 (t_tval trap + k)) = Some t -> t_cause t <> 0 ->
   exists m, sbi_misaligned_store_handler H feat u junk v_st trap w =
       redirect H feat (with_tinst (sbi_misaligned_tinst_fixup (t_tinst trap) (t_tinst t) k) t) (set_wmem m w) /\
     forall x, (forall j, 0 <= j < k -> x <> phys u (u64 (t_tval trap + j))) -> m x = w_mem w x).
Proof.
  intros Hi Hm Hp n. split.
  - by apply misaligned_store_ok.
  - intros k t Hk Hw Ht Hc.
    destruct (misaligned_store_fault H feat u junk v_st trap w i k t Hi Hm Hp Hk Hw Ht Hc) as (m & E & Hx).
    exists m. split; [|done]. apply E, redirect_rc.
Qed.

(** When neither half of an instruction can be fetched, what is left in a register
    decides whether the fault reported is that of the second half. *)
Lemma get_insn_reports_second_half u junk a w t1 t2 :
  x_fault u a = Some t1 -> x_fault u (u64 (a + 2)) = Some t2 -> Z.land junk 3 = 3 ->
  (sbi_get_insn u junk a w).2 = fetch_cause t2.
Proof. intros E1 E2 Hj. unfold sbi_get_insn, fetch16. rewrite E1, Hj. cbn [Z.eqb Pos.eqb]. by rewrite E2. Qed.

(** A flat machine with [lh x5, 0(x6)] and [c.sw x9, 0(x8)] at 0x1000; the bytes
    from 0x2000 on are not mapped. *)
Definition flat : unpriv :=
  let fault c a := if 0x2000 <=? a then Some (mkTinfo c a 0 0 0) else None in
  mkUnpriv (fun a => a) (fault 13) (fault 15) (fault 13).

Definition demo_code : mem :=
  mem_of 0x1000 ((fun k => Z.shiftr (encode_ld (Ld LH 5 6 0) + 2 ^ 32 * encode_st (CSt SW 0 1 0 0)) (8 * k) mod 2 ^ 8) <$> [0; 1; 2; 3; 4; 5]).

Definition demo_ldst (mepc : Z) : ldst_state :=
  mkLd (mkTregs ((fun k => 0x1111 * k) <$> seqZ 0 32) mepc 0x800) (replicate 32 0)
    (mkTcsrs 0 0 0 0 0 0 0 0 0 0 0 0 0x80100000) (store8 (store8 demo_code 0x1101 0xcd) 0x1102 0xab).

Lemma demo_ldst_mem mepc : mem_ok (w_mem (demo_ldst mepc)).
Proof. apply store8_ok, store8_ok. apply mem_of_small_ok. vm_compute. reflexivity. Qed.

Lemma misaligned_load_emulates_witness :
  let w := demo_ldst 0x1000 in
  (exists w', sbi_misaligned_load_handler false demo_feat flat 0 (fun _ w => (0, w)) (mkTinfo 4 0x1101 0 0 0) w = (0, w') /\
     get_reg 5 w' = 0xffffffffffffabcd /\ r_mepc (w_regs w') = 0x1004) /\
  (exists w', sbi_misaligned_load_handler false demo_feat flat 0 (fun _ w => (0, w)) (mkTinfo 4 0x1fff 0 0 0) w = (0, w') /\
     c_stval (w_csr w') = 0x2000 /\ gprs (w_regs w') = gprs (w_regs w)).
Proof.
  cbv zeta. split.
  - eexists. split.
    + rewrite (proj1 (misaligned_load_emulates false demo_feat flat 0 (fun _ w => (0, w)) (mkTinfo 4 0x1101 0 0 0)
               (demo_ldst 0x1000) (Ld LH 5 6 0) ltac:(cbn; lia) (demo_ldst_mem _) ltac:(right; split; [reflexivity|vm_compute; auto]))).
      * reflexivity.
      * intros k Hk. cbn [ld_op ld_width] in Hk. cbn [t_tval]. rewrite wrap_small by lia. cbn.
        destruct (Z.leb_spec 0x2000 (0x1101 + k)); [lia|reflexivity].
    + split; vm_compute; reflexivity.
  - eexists. split.
    + rewrite (proj2 (misaligned_load_emulates false demo_feat flat 0 (fun _ w => (0, w)) (mkTinfo 4 0x1fff 0 0 0)
               (demo_ldst 0x1000) (Ld LH 5 6 0) ltac:(cbn; lia) (demo_ldst_mem _) ltac:(right; split; [reflexivity|vm_compute; auto]))
               1 (mkTinfo 13 0x2000 0 0 0)).
      * vm_compute. reflexivity.
      * cbn. lia.
      * intros k Hk. cbn [t_tval]. rewrite wrap_small by lia. cbn. destruct (Z.leb_spec 0x2000 (0x1fff + k)); [lia|reflexivity].
      * reflexivity.
      * discriminate.
    + split; vm_compute; reflexivity.
Defined.

Lemma misaligned_store_emulates_witness :
  exists m, sbi_misaligned_store_handler false demo_feat flat 0 (fun _ w => (0, w)) (mkTinfo 6 0x1203 0 0 0) (demo_ldst 0x1004) =
      (0, set_mepc_by 2 (set_wmem m (demo_ldst 0x1004))) /\ vload flat m 0x1203 4 = 0x9999.
Proof.
  destruct (proj1 (misaligned_store_emulates false demo_feat flat 0 (fun _ w => (0, w)) (mkTinfo 6 0x1203 0 0 0)
               (demo_ldst 0x1004) (CSt SW 0 1 0 0) ltac:(cbn; lia) (demo_ldst_mem _)
               ltac:(right; split; [reflexivity|vm_compute; auto]))) as (m & E & Hv & _).
  - intros k Hk. cbn [st_op st_width] in Hk. cbn [t_tval]. rewrite wrap_small by lia. cbn.
    destruct (Z.leb_spec 0x2000 (0x1203 + k)); [lia|reflexivity].
  - intros j k Hj Hk. cbn [st_op st_width t_tval phys flat] in *. rewrite !wrap_small by lia. lia.
  - exists m. split; [exact E|]. etransitivity; [exact Hv|]. vm_compute. reflexivity.
Defined.
