(* ===== verification/SbiEcall.v ===== *)
(** * Supervisor calls: registration and dispatch (lib/sbi/sbi_ecall.c)

    The extensions are structures at fixed addresses; the list of registered ones
    is a list of pointers to them.  What a handler does is a parameter, on the
    registers of the trap frame and a state of its own. *)

From S2P Require Import Prelude SbiString SbiFifo SbiHeap SbiBitops SbiScratch SbiHartmask SbiMemregion SbiDomain SbiHsm SbiHart SbiPmp SbiPmpRoot SbiSse SbiSseInv SbiSseCtx SbiTrap.

Definition SBI_SUCCESS : Z := 0.
Definition SBI_LAST_ERR : Z := -14.
Definition SBI_EXT_0_1_SET_TIMER : Z := 0.
Definition SBI_EXT_0_1_CONSOLE_GETCHAR : Z := 2.
Definition SBI_EXT_0_1_SHUTDOWN : Z := 8.
Definition SBI_EXT_BASE : Z := 0x10.

Record sbi_ecall_return := mkOut { skip_regs_update : bool; out_value : Z }.

(** [has_handle] and [has_probe] say which callbacks are not NULL. *)
Record sbi_ecall_extension := mkExt {
  extid_start : Z; extid_end : Z; experimental : bool; has_probe : bool; has_handle : bool }.

Section Ecall.
(** The extension structures, by address. *)
Variable ext_at : Z -> sbi_ecall_extension.

Definition covers (extid : Z) (p : Z) : bool := (extid_start (ext_at p) <=? extid) && (extid <=? extid_end (ext_at p)).

Definition sbi_ecall_find_extension (l : list Z) (extid : Z) : option Z := find (covers extid) l.

(** The loop over the list finds an extension whose range overlaps. *)
Definition overlaps (ext : sbi_ecall_extension) (p : Z) : bool :=
  negb ((extid_end (ext_at p) <? extid_start ext) || (extid_end ext <? extid_start (ext_at p))).

Definition sbi_ecall_register_extension (l : list Z) (p : option Z) : Z * list Z :=
  match p with
  | None => (SBI_EINVAL, l)
  | Some p =>
      let ext := ext_at p in
      if (extid_end ext <? extid_start ext) || negb (has_handle ext) then (SBI_EINVAL, l)
      else if existsb (overlaps ext) l then (SBI_EINVAL, l)
      else (0, l ++ [p])
  end.

Fixpoint list_del (p : Z) (l : list Z) : list Z :=
  match l with
  | [] => []
  | q :: l => if q =? p then l else q :: list_del p l
  end.

Definition sbi_ecall_unregister_extension (l : list Z) (p : option Z) : list Z :=
  match p with
  | None => l
  | Some p => if existsb (Z.eqb p) l then list_del p l else l
  end.

Definition a_reg (n : nat) (r : sbi_trap_regs) : Z := nth (10 + n) (gprs r) 0.
Definition set_a_reg (n : nat) (v : Z) (r : sbi_trap_regs) : sbi_trap_regs :=
  mkTregs (<[(10 + n)%nat := v]> (gprs r)) (r_mepc r) (r_mstatus r).

Section Dispatch.
(** The state the handlers work on, and the callbacks. *)
Context {W : Type}.
Variable handle : Z -> Z -> Z -> sbi_trap_regs -> W -> Z * sbi_ecall_return * sbi_trap_regs * W.

Definition sbi_ecall_handler (l : list Z) (r : sbi_trap_regs) (s : W) : Z * sbi_trap_regs * W :=
  let extension_id := a_reg 7 r in
  let func_id := a_reg 6 r in
  let '(ret, out, is_0_1_spec, r, s) :=
    match sbi_ecall_find_extension l extension_id with
    | Some p =>
        if has_handle (ext_at p) then
          let '(ret, out, r, s) := handle p extension_id func_id r s in
          (ret, out, (SBI_EXT_0_1_SET_TIMER <=? extension_id) && (extension_id <=? SBI_EXT_0_1_SHUTDOWN), r, s)
        else (SBI_ENOTSUPP, mkOut false 0, false, r, s)
    | None => (SBI_ENOTSUPP, mkOut false 0, false, r, s)
    end in
  if skip_regs_update out then (0, r, s)
  else
    let ret := if (ret <? SBI_LAST_ERR) || (negb (extension_id =? SBI_EXT_0_1_CONSOLE_GETCHAR) && (SBI_SUCCESS <? ret))
               then SBI_EFAIL else ret in
    let r := set_mepc (u64 (r_mepc r + 4)) r in
    let r := set_a_reg 0 (u64 ret) r in
    (0, if is_0_1_spec : bool then r else set_a_reg 1 (out_value out) r, s).

End Dispatch.

(** [sbi_ecall_exts] is an array of pointers, terminated by NULL; the callback
    [register_extensions] of each, or NULL. *)
Fixpoint sbi_ecall_init (exts : list (option (list Z -> Z * list Z))) (l : list Z) : Z * list Z :=
  match exts with
  | [] => (0, l)
  | ext :: exts =>
      let '(ret, l) := match ext with Some register_extensions => register_extensions l | None => (SBI_ENODEV, l) end in
      if negb (ret =? 0) then (ret, l) else sbi_ecall_init exts l
  end.

(** lib/sbi/sbi_ecall_base.c *)
Definition sbi_ecall_base_probe (probe : Z -> Z -> Z * Z) (l : list Z) (extid : Z) : Z * Z :=
  match sbi_ecall_find_extension l extid with
  | None => (0, 0)
  | Some p => if has_probe (ext_at p) then probe p extid else (0, 1)
  end.

(** ** The registry *)

(** Ranges are not empty, do not overlap, and have a handler. *)
Definition disjoint_ranges (p q : Z) : Prop :=
  extid_end (ext_at p) < extid_start (ext_at q) \/ extid_end (ext_at q) < extid_start (ext_at p).

Definition registry_ok (l : list Z) : Prop :=
  Forall (fun p => extid_start (ext_at p) <= extid_end (ext_at p) /\ has_handle (ext_at p) = true) l /\
  forall i j p q, l !! i = Some p -> l !! j = Some q -> i <> j -> disjoint_ranges p q.

Lemma registry_nil : registry_ok [].
Proof. split; [by apply Forall_nil|]. by intros []. Qed.

(** The range may be registered. *)
Definition registrable (l : list Z) (p : Z) : Prop :=
  extid_start (ext_at p) <= extid_end (ext_at p) /\ has_handle (ext_at p) = true /\
  forall q, q ∈ l -> disjoint_ranges q p.

Lemma overlaps_disjoint p q : overlaps (ext_at p) q = false <-> disjoint_ranges q p.
Proof. unfold overlaps, disjoint_ranges. rewrite negb_false_iff, orb_true_iff, !Z.ltb_lt. lia. Qed.

Lemma no_overlap l p : existsb (overlaps (ext_at p)) l = false <-> forall q, q ∈ l -> disjoint_ranges q p.
Proof.
  split.
  - intros Ex q Hq. apply overlaps_disjoint. destruct (overlaps (ext_at p) q) eqn:E; [|done].
    rewrite <- Ex. symmetry. apply existsb_exists. exists q. split; [by apply list_elem_of_In|done].
  - intros Hd. destruct (existsb _ l) eqn:Ex; [|done]. apply existsb_exists in Ex as (q & Hq & Ho).
    apply list_elem_of_In, Hd, overlaps_disjoint in Hq. congruence.
Qed.

Lemma register_cases l p :
  (registrable l p /\ sbi_ecall_register_extension l (Some p) = (0, l ++ [p])) \/
  (~ registrable l p /\ sbi_ecall_register_extension l (Some p) = (SBI_EINVAL, l)).
Proof.
  cbn [sbi_ecall_register_extension]. unfold registrable. rewrite <- no_overlap.
  destruct (Z.ltb_spec (extid_end (ext_at p)) (extid_start (ext_at p))); [right; split; [lia|done]|].
  destruct (has_handle (ext_at p)); [|right; split; [intros (_ & ? & _)|]; done].
  destruct (existsb _ l); [right; split; [intros (_ & _ & ?)|]; done|]. left. done.
Qed.

Lemma register_ok l p : registry_ok l -> registry_ok (sbi_ecall_register_extension l p).2.
Proof.
  intros [Hf Hd]. destruct p as [p|]; [|done].
  destruct (register_cases l p) as [[(Hr & Hh & Hnew) ->]|[_ ->]]; [|done]. cbn [snd].
  split; [apply Forall_app; split; [done|]; by apply Forall_singleton|].
  intros i j a b Ha Hb Hij. rewrite !lookup_app in *.
  destruct (l !! i) eqn:Ei, (l !! j) eqn:Ej; simplify_eq.
  - by apply (Hd i j).
  - apply list_lookup_singleton_Some in Hb as [_ <-]. by apply Hnew, list_elem_of_lookup_2 with i.
  - apply list_lookup_singleton_Some in Ha as [_ <-].
    destruct (Hnew b) as [|]; [by apply list_elem_of_lookup_2 with j|right|left]; done.
  - apply list_lookup_singleton_Some in Ha as [Ha _]. apply list_lookup_singleton_Some in Hb as [Hb _].
    apply lookup_ge_None in Ei, Ej. lia.
Qed.

Lemma sublist_registry l k : k `sublist_of` l -> registry_ok l -> registry_ok k.
Proof.
  intros Hs [Hf Hd]. split.
  { rewrite Forall_forall in *. intros x Hx. apply Hf. by apply (sublist_subseteq _ _ Hs). } revert Hd. clear Hf.
  induction Hs as [|x k l Hs IH|x k l Hs IH]; intros Hd; [by intros []| |].
  - assert (forall i j p q, l !! i = Some p -> l !! j = Some q -> i <> j -> disjoint_ranges p q) as Hd'.
    { intros i j p q Hp Hq Hij. apply (Hd (S i) (S j)); [done|done|lia]. }
    assert (forall q, q ∈ k -> disjoint_ranges x q) as Hx.
    { intros q Hq. apply (sublist_subseteq _ _ Hs) in Hq. apply list_elem_of_lookup in Hq as [j Hj].
      by apply (Hd 0%nat (S j)). }
    intros [|i] [|j] p q Hp Hq Hij; cbn in *; simplify_eq.
    + apply Hx. by eapply list_elem_of_lookup_2.
    + destruct (Hx p); [by eapply list_elem_of_lookup_2|right|left]; done.
    + eapply (IH Hd' i j); try done. lia.
  - apply IH. intros i j p q Hp Hq Hij. apply (Hd (S i) (S j)); [done|done|lia].
Qed.

Lemma list_del_sublist p l : list_del p l `sublist_of` l.
Proof.
  induction l as [|q l IH]; cbn; [done|]. destruct (q =? p); [by apply sublist_cons|by apply sublist_skip].
Qed.

Lemma unregister_ok l p : registry_ok l -> registry_ok (sbi_ecall_unregister_extension l p).
Proof.
  intros Hl. destruct p as [p|]; [|done]. cbn. destruct (existsb _ l); [|done].
  eapply sublist_registry; [apply list_del_sublist|done].
Qed.

Lemma find_spec l id p : registry_ok l ->
  sbi_ecall_find_extension l id = Some p <-> p ∈ l /\ extid_start (ext_at p) <= id <= extid_end (ext_at p).
Proof.
  intros [_ Hd]. unfold sbi_ecall_find_extension. split.
  - intros E. apply find_some in E as [Hin Hc]. unfold covers in Hc. rewrite andb_true_iff, !Z.leb_le in Hc.
    split; [by apply list_elem_of_In|done].
  - intros [Hp Hid]. assert (covers id p = true) as Hc by (unfold covers; rewrite andb_true_iff, !Z.leb_le; lia).
    destruct (find (covers id) l) as [q|] eqn:E.
    + apply find_some in E as [Hq Hcq]. unfold covers in Hcq. rewrite andb_true_iff, !Z.leb_le in Hcq.
      apply list_elem_of_In in Hq. apply list_elem_of_lookup in Hp as [i Hi]. apply list_elem_of_lookup in Hq as [j Hj].
      destruct (decide (i = j)) as [-> |Hij]; [by simplify_eq|]. exfalso.
      destruct (Hd i j p q Hi Hj Hij) as [Hl|Hl]; lia.
    + rewrite (find_none _ _ E p) in Hc; [done|by apply list_elem_of_In].
Qed.

Lemma ext_del_spec p q l : NoDup l -> q ∈ list_del p l <-> q ∈ l /\ q <> p.
Proof.
  induction 1 as [|x l Hx Hl IH]; cbn; [set_solver|]. destruct (Z.eqb_spec x p) as [-> |Hn].
  - split; [intros Hq; split; [set_solver|]; intros ->; done|]. set_solver.
  - rewrite !elem_of_cons, IH. split; [|tauto]. intros [-> |[? ?]]; [split; [by left|done]|]. split; [by right|done].
Qed.

Lemma registry_NoDup l : registry_ok l -> NoDup l.
Proof.
  intros [Hf Hd]. apply NoDup_alt. intros i j p Hi Hj. destruct (decide (i = j)) as [|Hn]; [done|]. exfalso.
  pose proof (Forall_lookup_1 _ _ _ _ Hf Hi) as [Hr _]. destruct (Hd i j p p Hi Hj Hn) as [|]; lia.
Qed.

(** What the firmware may do to the registry. *)
Inductive reg_op := Register (p : option Z) | Unregister (p : option Z).

Definition reg_step (l : list Z) (o : reg_op) : list Z :=
  match o with
  | Register p => (sbi_ecall_register_extension l p).2
  | Unregister p => sbi_ecall_unregister_extension l p
  end.

Lemma reg_steps_ok ops : registry_ok (foldl reg_step [] ops).
Proof.
  cut (forall l, registry_ok l -> registry_ok (foldl reg_step l ops)); [intros Hc; apply Hc, registry_nil|].
  induction ops as [|o ops IH]; intros l Hl; [done|]. cbn [foldl]. apply IH.
  destruct o; [by apply register_ok|by apply unregister_ok].
Qed.

End Ecall.

(** Whatever is registered and unregistered in whatever order, an extension
    number is answered by exactly one extension: the lookup finds [p] if and only
    if [p] is registered and its range has the number; registering succeeds
    exactly for a valid range that meets no registered one, and then adds just
    that extension; unregistering removes just that extension; and a registered
    extension has a handler. *)
Lemma ecall_registry_correct (ext_at : Z -> sbi_ecall_extension) (ops : list reg_op) :
  let l := foldl (reg_step ext_at) [] ops in
  (forall id p, sbi_ecall_find_extension ext_at l id = Some p <->
     p ∈ l /\ extid_start (ext_at p) <= id <= extid_end (ext_at p)) /\
  (forall p, p ∈ l -> has_handle (ext_at p) = true) /\
  (forall p, let '(rc, l') := sbi_ecall_register_extension ext_at l (Some p) in
     (rc = 0 <-> registrable ext_at l p) /\
     (forall q, q ∈ l' <-> q ∈ l \/ (rc = 0 /\ q = p))) /\
  (forall p q, q ∈ sbi_ecall_unregister_extension l (Some p) <-> q ∈ l /\ q <> p).
Proof.
  intros l. pose proof (reg_steps_ok ext_at ops) as Hl. fold l in Hl. split_and!.
  - intros id p. by apply find_spec.
  - intros p Hp. destruct Hl as [Hf _]. rewrite Forall_forall in Hf. by apply Hf.
  - intros p. destruct (register_cases ext_at l p) as [[Hr ->]|[Hr ->]].
    + split; [tauto|]. intros q. set_solver.
    + unfold SBI_EINVAL. split; [split; [lia|done]|]. intros q. split; [tauto|]. intros [?|[? _]]; [done|lia].
  - intros p q. cbn [sbi_ecall_unregister_extension]. destruct (existsb _ l) eqn:Ex.
    + apply (ext_del_spec ext_at). by apply (registry_NoDup ext_at).
    + split; [|tauto]. intros Hq. split; [done|]. intros ->.
      assert (existsb (Z.eqb p) l = true) as E; [|congruence]. apply existsb_exists. exists p.
      split; [by apply list_elem_of_In|apply Z.eqb_refl].
Qed.

(** ** Dispatch *)

(** The error codes of the SBI specification. *)
Definition sbi_code (ret : Z) : Prop := SBI_LAST_ERR <= ret <= 0.

(** Every supervisor call is answered and the program goes on after its
    [ecall]: an unknown extension gives "not supported" and no value; the handler
    of the extension that has the number is called, and unless it asked to leave
    the registers alone, [a0] gets its code, an error the specification does not
    know being reported as a general failure, and [a1] its value, which legacy
    calls do not touch; all other registers are as the handler left them. *)
Lemma ecall_dispatch_correct {W} (ext_at : Z -> sbi_ecall_extension)
    (handle : Z -> Z -> Z -> sbi_trap_regs -> W -> Z * sbi_ecall_return * sbi_trap_regs * W)
    (ops : list reg_op) (r : sbi_trap_regs) (s : W) :
  let l := foldl (reg_step ext_at) [] ops in
  let id := a_reg 7 r in
  exists r' s', sbi_ecall_handler ext_at handle l r s = (0, r', s') /\
  ((forall p, p ∈ l -> id < extid_start (ext_at p) \/ extid_end (ext_at p) < id) ->
     s' = s /\ r' = set_a_reg 1 0 (set_a_reg 0 (u64 SBI_ENOTSUPP) (set_mepc (u64 (r_mepc r + 4)) r))) /\
  (forall p ret out r1, p ∈ l -> extid_start (ext_at p) <= id <= extid_end (ext_at p) ->
     handle p id (a_reg 6 r) r s = (ret, out, r1, s') ->
     if skip_regs_update out then r' = r1
     else
       exists code, (sbi_code ret -> code = ret) /\
         (~ sbi_code ret -> id <> SBI_EXT_0_1_CONSOLE_GETCHAR -> code = SBI_EFAIL) /\
         (SBI_LAST_ERR <= ret -> id = SBI_EXT_0_1_CONSOLE_GETCHAR -> code = ret) /\
         r' = (if (0 <=? id) && (id <=? SBI_EXT_0_1_SHUTDOWN) then fun r => r else set_a_reg 1 (out_value out))
                (set_a_reg 0 (u64 code) (set_mepc (u64 (r_mepc r1 + 4)) r1))) /\
  (forall p, p ∈ l -> extid_start (ext_at p) <= id <= extid_end (ext_at p) ->
     exists ret out r1, handle p id (a_reg 6 r) r s = (ret, out, r1, s')).
Proof.
  intros l id. pose proof (reg_steps_ok ext_at ops) as Hl. fold l in Hl.
  pose proof (fun p => find_spec ext_at l id p Hl) as Hfind.
  unfold sbi_ecall_handler. fold id. change SBI_EXT_0_1_SET_TIMER with 0.
  destruct (sbi_ecall_find_extension ext_at l id) as [p|] eqn:E.
  - destruct (proj1 (Hfind p) eq_refl) as [Hp Hid]. clear E.
    assert (has_handle (ext_at p) = true) as -> by (destruct Hl as [Hf _]; rewrite Forall_forall in Hf; by apply Hf).
    destruct (handle p id (a_reg 6 r) r s) as [[[ret out] r1] s1] eqn:Eh.
    assert (forall q, q ∈ l -> extid_start (ext_at q) <= id <= extid_end (ext_at q) -> q = p) as Huniq.
    { intros q Hq Hqid. assert (Some p = Some q) as Ep by (by apply Hfind). by injection Ep. }
    destruct (skip_regs_update out) eqn:Es; (eexists _, _; split; [reflexivity|]; split_and!).
    + intros Hnone. specialize (Hnone p Hp). lia.
    + intros q ret' out' r2 Hq Hqid. rewrite (Huniq q Hq Hqid), Eh. intros [= <- <- <-]. by rewrite Es.
    + intros q Hq Hqid. rewrite (Huniq q Hq Hqid). by eexists _, _, _.
    + intros Hnone. specialize (Hnone p Hp). lia.
    + intros q ret' out' r2 Hq Hqid. rewrite (Huniq q Hq Hqid), Eh. intros [= <- <- <-]. rewrite Es.
      eexists. split; [|split; [|split; [|by destruct (_ && (id <=? _))]]]; unfold sbi_code, SBI_LAST_ERR, SBI_SUCCESS, SBI_EXT_0_1_CONSOLE_GETCHAR.
      * intros Hc. destruct (Z.ltb_spec ret (-14)), (Z.ltb_spec 0 ret); try lia. by rewrite andb_false_r.
      * intros Hc Hn. destruct (Z.ltb_spec ret (-14)); [done|]. destruct (Z.ltb_spec 0 ret); [|lia].
        destruct (Z.eqb_spec id 2); [done|done].
      * intros Hc Hn. destruct (Z.ltb_spec ret (-14)); [lia|]. destruct (Z.eqb_spec id 2); [done|lia].
    + intros q Hq Hqid. rewrite (Huniq q Hq Hqid). by eexists _, _, _.
  - eexists _, _. split; [reflexivity|]. split_and!.
    + intros _. split; [done|]. cbn [out_value]. change (SBI_SUCCESS <? SBI_ENOTSUPP) with false. by rewrite andb_false_r.
    + intros q ret out r1 Hq Hqid. assert (None = Some q) as Ep by (by apply Hfind). done.
    + intros q Hq Hqid. assert (None = Some q) as Ep by (by apply Hfind). done.
Qed.
