(* ===== verification/SbiTimer.v ===== *)
(** * Timers (lib/sbi/sbi_timer.c, lib/sbi/sbi_ecall_time.c)

    The supervisor's timer on top of a machine timer.  The driver of the device is
    an interface ([TimerDevice]): what it promises is that an interrupt is raised
    when the programmed time has come (a 64-bit counter never reaches its last value).  The time is the value of the counter the
    device and [rdtime] show; each function is given the time it runs at, and the
    waiting loops the times their readings give.  The counting of firmware events
    is left out. *)

From S2P Require Import Prelude SbiBitops SbiHart.

Definition MIP_STIP : Z := 2 ^ 5.
Definition MIP_MTIP : Z := 2 ^ 7.

(** The callbacks of [struct sbi_timer_device] on the state of the device: is one
    NULL, and what does it do. *)
Class TimerDevice (D : Type) := {
  timer_freq : Z;
  has_timer_value : bool;
  has_event_start : bool;
  has_event_stop : bool;
  has_warm_init : bool;
  timer_event_start : Z -> D -> D;
  timer_event_stop : D -> D;
  warm_init : D -> Z * D;
  timer_irq : D -> Z -> bool;
  timer_start_irq : forall n d now, 0 <= n < 2 ^ 64 -> timer_irq (timer_event_start n d) now = (n <=? now);
  timer_stop_irq : forall d now, 0 <= now < 2 ^ 64 - 1 -> timer_irq (timer_event_stop d) now = false;
}.

(** What [get_time_val] points to. *)
Inductive time_source := NoTime | Ticks | DevTime.

Section Timer.
Context {D : Type} `{!TimerDevice D}.
Variable feat : sbi_hart_features.

(** The globals; the registers of the hart; its device and [time_delta]. *)
Record timer := mkTimer {
  time_delta_off : Z; get_time_val : time_source; timer_dev : bool;
  mip : Z; mie : Z; stimecmp : Z; dev : D; time_delta : Z }.

Definition set_mip (v : Z) (s : timer) : timer :=
  mkTimer (time_delta_off s) (get_time_val s) (timer_dev s) v (mie s) (stimecmp s) (dev s) (time_delta s).
Definition set_mie (v : Z) (s : timer) : timer :=
  mkTimer (time_delta_off s) (get_time_val s) (timer_dev s) (mip s) v (stimecmp s) (dev s) (time_delta s).
Definition set_stimecmp (v : Z) (s : timer) : timer :=
  mkTimer (time_delta_off s) (get_time_val s) (timer_dev s) (mip s) (mie s) v (dev s) (time_delta s).
Definition set_dev (d : D) (s : timer) : timer :=
  mkTimer (time_delta_off s) (get_time_val s) (timer_dev s) (mip s) (mie s) (stimecmp s) d (time_delta s).
Definition set_delta (v : Z) (s : timer) : timer :=
  mkTimer (time_delta_off s) (get_time_val s) (timer_dev s) (mip s) (mie s) (stimecmp s) (dev s) v.
Definition set_globals (off : Z) (src : time_source) (present : bool) (s : timer) : timer :=
  mkTimer off src present (mip s) (mie s) (stimecmp s) (dev s) (time_delta s).

Definition csr_set (mask v : Z) : Z := Z.lor v mask.
Definition csr_clear (mask v : Z) : Z := Z.land v (not64 mask).

Definition sbi_timer_value (now : Z) (s : timer) : Z :=
  match get_time_val s with NoTime => 0 | _ => now end.

Definition sbi_timer_virt_value (now : Z) (s : timer) : Z := u64 (sbi_timer_value now s + time_delta s).

Definition sbi_timer_get_delta (s : timer) : Z := time_delta s.
Definition sbi_timer_set_delta (delta : Z) (s : timer) : timer := set_delta delta s.

Definition sbi_timer_event_start (next_event : Z) (s : timer) : timer :=
  let s :=
    if sbi_hart_has_extension feat SBI_HART_EXT_SSTC then set_stimecmp next_event s
    else if timer_dev s && has_event_start then
      let s := set_dev (timer_event_start next_event (dev s)) s in
      set_mip (csr_clear MIP_STIP (mip s)) s
    else s in
  set_mie (csr_set MIP_MTIP (mie s)) s.

Definition sbi_timer_process (s : timer) : timer :=
  let s := set_mie (csr_clear MIP_MTIP (mie s)) s in
  if negb (sbi_hart_has_extension feat SBI_HART_EXT_SSTC) then set_mip (csr_set MIP_STIP (mip s)) s else s.

(** [present] is whether the argument is not NULL. *)
Definition sbi_timer_set_device (present : bool) (s : timer) : timer :=
  if negb present || timer_dev s then s
  else
    set_globals (time_delta_off s)
      (match get_time_val s with NoTime => if has_timer_value then DevTime else NoTime | t => t end) true s.

(** The offset [sbi_scratch_alloc_offset] returns and what the platform's
    initialisation returns and does are arguments. *)
Definition sbi_timer_init (cold_boot : bool) (alloc : Z) (platform_timer_init : timer -> Z * timer) (s : timer)
    : Z * timer :=
  let finish s :=
    let s := set_delta 0 s in
    if timer_dev s && has_warm_init then let '(ret, d) := warm_init (dev s) in (ret, set_dev d s) else (0, s) in
  if cold_boot then
    let s := set_globals alloc (get_time_val s) (timer_dev s) s in
    if time_delta_off s =? 0 then (SBI_ENOMEM, s)
    else
      let s := if sbi_hart_has_extension feat SBI_HART_EXT_ZICNTR
               then set_globals (time_delta_off s) Ticks (timer_dev s) s else s in
      let '(ret, s) := platform_timer_init s in
      if negb (ret =? 0) then (ret, s) else finish s
  else if time_delta_off s =? 0 then (SBI_ENOMEM, s) else finish s.

Definition sbi_timer_exit (s : timer) : timer :=
  let s := if timer_dev s && has_event_stop then set_dev (timer_event_stop (dev s)) s else s in
  let s := set_mip (csr_clear MIP_STIP (mip s)) s in
  set_mie (csr_clear MIP_MTIP (mie s)) s.

Definition SBI_EXT_TIME_SET_TIMER : Z := 0.

(** lib/sbi/sbi_ecall_time.c *)
Definition sbi_ecall_time_handler (funcid a0 : Z) (s : timer) : Z * timer :=
  if funcid =? SBI_EXT_TIME_SET_TIMER then (0, sbi_timer_event_start a0 s) else (SBI_ENOTSUPP, s).

(** ** Waiting *)

(** The readings of the counter: [clock k] is the value of the [k]th. *)
Fixpoint delay_rounds (fuel k : nat) (clock : nat -> Z) (start_val delta : Z) : option nat :=
  match fuel with
  | O => None
  | S fuel =>
      if u64 (clock k - start_val) <? delta then delay_rounds fuel (S k) clock start_val delta else Some k
  end.

(** The reading the loop ends with; [Some 0] when it does not wait at all. *)
Definition sbi_timer_delay_loop (fuel : nat) (units unit_freq : Z) (clock : nat -> Z) (s : timer) : option nat :=
  if negb (timer_dev s) || match get_time_val s with NoTime => true | _ => false end then Some O
  else
    let start_val := clock O in
    let delta := u64 (timer_freq * units) / unit_freq in
    delay_rounds fuel 1 clock start_val delta.

(** [predicate k] is the answer to the [k]th question. *)
Fixpoint wait_rounds (fuel k : nat) (predicate : nat -> bool) (clock : nat -> Z) (start_time ticks : Z) : option bool :=
  match fuel with
  | O => None
  | S fuel =>
      if predicate k then Some true
      else if ticks <=? u64 (clock (S k) - start_time) then Some false
      else wait_rounds fuel (S k) predicate clock start_time ticks
  end.

Definition sbi_timer_waitms_until (fuel : nat) (predicate : nat -> bool) (timeout_ms : Z) (clock : nat -> Z) (s : timer)
    : option bool :=
  let value k := sbi_timer_value (clock k) s in
  let ticks := u64 (timer_freq / 1000 * timeout_ms) in
  wait_rounds fuel 0 predicate value (value O) ticks.

(** ** The supervisor's timer *)

(** What happens to a hart with its last deadline and the time. *)
Inductive tstep : timer * Z * Z -> timer * Z * Z -> Prop :=
  | TSet s d now n : 0 <= n < 2 ^ 64 -> tstep (s, d, now) (sbi_timer_event_start n s, n, now)
  | TTick s d now k : 0 <= k -> tstep (s, d, now) (s, d, now + k)
  | TTrap s d now :
      Z.testbit (mie s) 7 = true -> timer_irq (dev s) now = true -> tstep (s, d, now) (sbi_timer_process s, d, now).

Inductive tsteps : timer * Z * Z -> timer * Z * Z -> Prop :=
  | TDone c : tsteps c c
  | TMore c1 c2 c3 : tstep c1 c2 -> tsteps c2 c3 -> tsteps c1 c3.

Lemma csr_set_bit m k i : 0 <= k -> Z.testbit (csr_set (2 ^ k) m) i = Z.testbit m i || (i =? k).
Proof. intros. unfold csr_set. rewrite Z.lor_spec, Z.pow2_bits_eqb by lia. by rewrite (Z.eqb_sym k). Qed.

Lemma csr_clear_bit m k i : 0 <= k -> 0 <= i < 64 -> Z.testbit (csr_clear (2 ^ k) m) i = Z.testbit m i && negb (i =? k).
Proof.
  intros. unfold csr_clear. rewrite Z.land_spec, not64_bits, Z.pow2_bits_eqb by lia. rewrite (Z.eqb_sym k).
  zcases; try lia; done.
Qed.

(** The pending bit is only up after the deadline; while it is down the machine
    timer is armed with the deadline. *)
Definition timer_inv (c : timer * Z * Z) : Prop :=
  let '(s, d, now) := c in
  timer_dev s = true /\
  if Z.testbit (mip s) 5 then d <= now
  else Z.testbit (mie s) 7 = true /\ forall t, timer_irq (dev s) t = (d <=? t).

Section Machine.
Hypothesis no_sstc : sbi_hart_has_extension feat SBI_HART_EXT_SSTC = false.
Hypothesis can_start : has_event_start = true.

Lemma event_start_inv s n now : 0 <= n < 2 ^ 64 -> timer_dev s = true -> timer_inv (sbi_timer_event_start n s, n, now).
Proof.
  intros Hn Hd. unfold sbi_timer_event_start. rewrite no_sstc, Hd, can_start.
  cbn [timer_inv timer_dev mip mie dev set_mie set_mip set_dev andb]. split; [done|].
  unfold MIP_STIP, MIP_MTIP. rewrite csr_clear_bit by lia. rewrite andb_false_r. split.
  - rewrite csr_set_bit by lia. apply orb_true_r.
  - intros t. by apply timer_start_irq.
Qed.

Lemma process_pending s : Z.testbit (mip (sbi_timer_process s)) 5 = true.
Proof. unfold sbi_timer_process. rewrite no_sstc. cbn [negb mip set_mip set_mie]. unfold MIP_STIP. rewrite csr_set_bit by lia. apply orb_true_r. Qed.

Lemma tstep_inv c c' : tstep c c' -> timer_inv c -> timer_inv c'.
Proof.
  destruct 1 as [s d now n Hn|s d now k Hk|s d now He Hi]; intros [Hd Hm].
  - by apply event_start_inv.
  - split; [done|]. destruct (Z.testbit (mip s) 5); [lia|done].
  - split; [unfold sbi_timer_process; rewrite no_sstc; done|]. rewrite process_pending.
    destruct (Z.testbit (mip s) 5); [done|]. destruct Hm as [_ Hm]. rewrite Hm in Hi. lia.
Qed.

Lemma tsteps_inv c c' : tsteps c c' -> timer_inv c -> timer_inv c'.
Proof. induction 1; [done|]. intros Hi. by apply IHtsteps, (tstep_inv c1). Qed.
End Machine.

End Timer.

(** The supervisor's timer keeps its contract in every interleaving of the
    calls that set it, the passing of time and the machine timer's interrupts: the
    pending bit is never up before the last deadline; and once the deadline has
    passed it is up, or the machine timer's interrupt is raised and enabled, and
    its handler puts it up. *)
Lemma timer_contract {D} `{!TimerDevice D} feat (s0 : timer) n0 now0 s d now :
  sbi_hart_has_extension feat SBI_HART_EXT_SSTC = false -> has_event_start = true -> timer_dev s0 = true -> 0 <= n0 < 2 ^ 64 ->
  tsteps feat (sbi_timer_event_start feat n0 s0, n0, now0) (s, d, now) ->
  (Z.testbit (mip s) 5 = true -> d <= now) /\
  (d <= now -> Z.testbit (mip s) 5 = true \/
     (Z.testbit (mie s) 7 = true /\ timer_irq (dev s) now = true /\
      tstep feat (s, d, now) (sbi_timer_process feat s, d, now) /\
      Z.testbit (mip (sbi_timer_process feat s)) 5 = true)).
Proof.
  intros Hs He Hd Hn0 Hsteps. pose proof (tsteps_inv feat Hs He _ _ Hsteps (event_start_inv feat Hs He s0 n0 now0 Hn0 Hd)) as [_ Hi].
  destruct (Z.testbit (mip s) 5) eqn:Ep.
  - split; [done|]. by left.
  - split; [done|]. intros Hdn. right. destruct Hi as [Hm Hirq].
    assert (timer_irq (dev s) now = true) as Hq by (rewrite Hirq; by apply Z.leb_le).
    split; [done|]. split; [done|]. split; [by constructor|]. by apply process_pending.
Qed.

(** With Sstc the deadline is the supervisor's own compare register. *)
Lemma event_start_sstc {D} `{!TimerDevice D} feat n (s : timer) :
  sbi_hart_has_extension feat SBI_HART_EXT_SSTC = true ->
  stimecmp (sbi_timer_event_start feat n s) = n /\ mip (sbi_timer_event_start feat n s) = mip s.
Proof. intros E. unfold sbi_timer_event_start. by rewrite E. Qed.

(** ** Waiting *)

(** A counter that starts at [c0] and has advanced by [e k] at the [k]th reading,
    never going back. *)
Definition clock_runs (clock : nat -> Z) (c0 : Z) (e : nat -> Z) : Prop :=
  e O = 0 /\ (forall k, e k <= e (S k)) /\ forall k, clock k = u64 (c0 + e k).

Lemma clock_diff clock c0 e k : clock_runs clock c0 e -> 0 <= e k < 2 ^ 64 -> u64 (clock k - clock O) = e k.
Proof.
  intros (H0 & _ & Hc) Hk. rewrite !Hc, H0, Z.add_0_r. unfold wrap. rewrite <- Zminus_mod.
  replace (c0 + e k - c0) with (e k) by lia. by apply Z.mod_small.
Qed.

Lemma clock_mono clock c0 e j k : clock_runs clock c0 e -> (j <= k)%nat -> e j <= e k.
Proof. intros (_ & Hm & _). induction 1; [lia|]. specialize (Hm m). lia. Qed.

Lemma delay_rounds_spec clock c0 e delta m n : clock_runs clock c0 e -> 0 <= delta ->
  (n <= m)%nat -> delta <= e m < 2 ^ 64 -> (forall k, (n <= k < m)%nat -> e k < delta) ->
  delay_rounds (S (m - n)) n clock (clock O) delta = Some m.
Proof.
  intros Hc Hd Hn Hm Hlt. remember (m - n)%nat as f eqn:Ef. revert n Hn Hlt Ef.
  induction f as [|f IH]; intros n Hn Hlt Ef; cbn [delay_rounds].
  - replace n with m by lia. rewrite (clock_diff clock c0 e) by (done || lia). destruct (Z.ltb_spec (e m) delta); [lia|done].
  - assert (0 <= e n) by (pose proof (clock_mono clock c0 e 0 n Hc ltac:(lia)); destruct Hc as (E0 & _); lia).
    rewrite (clock_diff clock c0 e); [|done|split; [done|specialize (Hlt n ltac:(lia)); lia]].
    destruct (Z.ltb_spec (e n) delta) as [|Hge]; [|specialize (Hlt n ltac:(lia)); lia].
    apply IH; [lia| |lia]. intros k Hk. apply Hlt. lia.
Qed.

Lemma delay_rounds_more clock st delta f : forall k r,
  delay_rounds f k clock st delta = Some r -> delay_rounds (S f) k clock st delta = Some r.
Proof.
  induction f as [|f IH]; intros k r; [done|]. intros E. cbn [delay_rounds] in E |- *.
  destruct (_ <? delta); [by apply IH|done].
Qed.

(** The delay loop waits exactly as long as asked: it ends at the first reading
    of the counter, after the one it starts with, that is at least the requested
    number of ticks later, also when the counter wraps around in between. *)
Lemma delay_loop_waits {D} `{!TimerDevice D} (s : timer) units unit_freq clock c0 e m :
  timer_dev s = true -> get_time_val s <> NoTime -> 0 < unit_freq -> 0 <= timer_freq * units < 2 ^ 64 ->
  clock_runs clock c0 e -> (0 < m)%nat ->
  let delta := timer_freq * units / unit_freq in
  delta <= e m < 2 ^ 64 -> (forall k, (0 < k < m)%nat -> e k < delta) ->
  sbi_timer_delay_loop (S m) units unit_freq clock s = Some m.
Proof.
  intros Hd Ht Hu Hf Hc Hm delta Hem Hlt. unfold sbi_timer_delay_loop. rewrite Hd.
  destruct (get_time_val s); [done| |]; cbn [negb orb]; rewrite wrap_small by done; fold delta;
    (replace (S m) with (S (S (m - 1))) by lia); apply delay_rounds_more, (delay_rounds_spec clock c0 e);
    (done || lia || (apply Z.div_pos; lia) || (intros k Hk; apply Hlt; lia)).
Qed.

(** ** A device *)

(** A compare register; [None] never fires. *)
#[export] Instance compare_timer : TimerDevice (option Z) := {
  timer_freq := 10000000;
  has_timer_value := true;
  has_event_start := true;
  has_event_stop := true;
  has_warm_init := false;
  timer_event_start n _ := Some n;
  timer_event_stop _ := None;
  warm_init d := (0, d);
  timer_irq d now := match d with Some n => n <=? now | None => false end;
  timer_start_irq _ _ _ _ := eq_refl;
  timer_stop_irq _ _ _ := eq_refl;
}.

Definition demo_timer_feat : sbi_hart_features := mkFeat true 3 [0] 0 0 0 0 0.
Definition demo_timer : timer (D := option Z) := mkTimer 8 Ticks true 0 0 0 None 0.

(** The timer is set for 100, then again for 50; the time is 60. *)
Lemma timer_contract_witness :
  exists s, tsteps demo_timer_feat (sbi_timer_event_start demo_timer_feat 100 demo_timer, 100, 10) (s, 50, 60) /\
    Z.testbit (mip s) 5 = false /\ Z.testbit (mip (sbi_timer_process demo_timer_feat s)) 5 = true.
Proof.
  eexists. assert (tsteps demo_timer_feat (sbi_timer_event_start demo_timer_feat 100 demo_timer, 100, 10)
    (sbi_timer_event_start demo_timer_feat 50 (sbi_timer_event_start demo_timer_feat 100 demo_timer), 50, 60)) as Hs.
  { eapply TMore; [apply (TSet _ _ _ _ 50); done|]. eapply TMore; [apply (TTick _ _ _ _ 50); discriminate|]. apply TDone. }
  split; [exact Hs|]. split; [vm_compute; reflexivity|].
  destruct (timer_contract demo_timer_feat demo_timer 100 10 _ 50 60 ltac:(vm_compute; reflexivity) eq_refl eq_refl ltac:(done) Hs) as [_ H].
  destruct (H ltac:(discriminate)) as [E|(_ & _ & _ & E)]; [vm_compute in E; discriminate E|exact E].
Defined.

(** Three microseconds on a counter that wraps around. *)
Lemma delay_loop_waits_witness :
  sbi_timer_delay_loop 4 3 1000000 (fun k => u64 (2 ^ 64 - 5 + 12 * Z.of_nat k)) demo_timer = Some 3%nat.
Proof.
  apply (delay_loop_waits demo_timer 3 1000000 _ (2 ^ 64 - 5) (fun k => 12 * Z.of_nat k) 3).
  - reflexivity.
  - discriminate.
  - reflexivity.
  - split; vm_compute; [discriminate|reflexivity].
  - split; [reflexivity|]. split; [intros k; lia|]. intros k. reflexivity.
  - repeat constructor.
  - split; vm_compute; [discriminate|reflexivity].
  - intros k Hk. change (timer_freq * 3 / 1000000) with 30. lia.
Defined.
