(* ===== verification/SbiIllegal.v ===== *)
(** * Illegal instructions (lib/sbi/sbi_illegal_insn.c, lib/sbi/sbi_emulate_csr.c)

    Some harts trap reads of the counters, which the firmware then emulates; it
    also emulates the hypervisor's time delta, and FENCE.TSO for harts that do not
    know it.  Everything else is redirected as an illegal instruction.  The
    counters and the registers that enable them are parameters. *)

From S2P Require Import Prelude RvBits SbiString SbiFifo SbiHeap SbiBitops SbiScratch SbiHartmask SbiMemregion SbiDomain SbiHsm SbiHart SbiPmp SbiPmpRoot SbiSse SbiSseInv SbiSseCtx SbiTrap SbiTrapLdst SbiTrapLdstSpec SbiTimer.

Definition CAUSE_ILLEGAL_INSTRUCTION : Z := 2.
Definition CSR_HTIMEDELTA : Z := 0x605.
Definition CSR_CYCLE : Z := 0xc00.
Definition CSR_TIME : Z := 0xc01.
Definition CSR_INSTRET : Z := 0xc02.
Definition CSR_HPMCOUNTER3 : Z := 0xc03.
Definition CSR_HPMCOUNTER31 : Z := 0xc1f.
Definition CSRRW : Z := 1.
Definition CSRRS : Z := 2.
Definition CSRRC : Z := 3.
Definition CSRRWI : Z := 5.
Definition CSRRSI : Z := 6.
Definition CSRRCI : Z := 7.
Definition INSN_MATCH_FENCE_TSO : Z := 0x8330000f.

(** The counter registers of the hart: which it enables for whom, and machine
    counter [n]. *)
Record counters := mkCounters {
  mcounteren : Z; hcounteren : Z; scounteren : Z; mcounter : Z -> Z }.

Section Illegal.
Context {D : Type}.
Variables (H : bool) (feat : sbi_hart_features) (u : unpriv) (junk : Z) (ctr : counters) (now : Z).

Record ill_state := mkIll { il_ld : ldst_state; il_timer : timer (D := D) }.

Definition il_regs (s : ill_state) : sbi_trap_regs := w_regs (il_ld s).
Definition set_ld (w : ldst_state) (s : ill_state) : ill_state := mkIll w (il_timer s).

Definition hpm_allowed (hpm_num prev_mode : Z) (virt : bool) : bool :=
  let old := priv_version feat <? SBI_HART_PRIV_VER_1_10 in
  let cen := ULONG_MAX in
  let cen :=
    if prev_mode <=? PRV_S then
      if old then 0
      else let cen := Z.land cen (mcounteren ctr) in if virt then Z.land cen (hcounteren ctr) else cen
    else cen in
  let cen := if prev_mode =? PRV_U then (if old then 0 else Z.land cen (scounteren ctr)) else cen in
  negb (Z.land (Z.shiftr cen hpm_num) 1 =? 0).

(** The value, or the error. *)
Definition sbi_emulate_csr_read (csr_num : Z) (s : ill_state) : Z + Z :=
  let prev_mode := sbi_mstatus_prev_mode (r_mstatus (il_regs s)) in
  let virt := sbi_regs_from_virt (il_regs s) in
  let guarded v := if negb (hpm_allowed (csr_num - CSR_CYCLE) prev_mode virt) then inr SBI_ENOTSUPP else inl v in
  if csr_num =? CSR_HTIMEDELTA then
    if (prev_mode =? PRV_S) && negb virt then inl (sbi_timer_get_delta (il_timer s)) else inr SBI_ENOTSUPP
  else if csr_num =? CSR_CYCLE then guarded (mcounter ctr 0)
  else if csr_num =? CSR_TIME then
    guarded (if virt then sbi_timer_virt_value now (il_timer s) else sbi_timer_value now (il_timer s))
  else if csr_num =? CSR_INSTRET then guarded (mcounter ctr 2)
  else if (CSR_HPMCOUNTER3 <=? csr_num) && (csr_num <=? CSR_HPMCOUNTER31) then
    if negb (Z.land (mhpm_mask feat) (Z.shiftl 1 (csr_num - CSR_CYCLE)) =? 0) then inr SBI_ENOTSUPP
    else guarded (mcounter ctr (csr_num - CSR_CYCLE))
  else inr SBI_ENOTSUPP.

Definition sbi_emulate_csr_write (csr_num csr_val : Z) (s : ill_state) : Z * ill_state :=
  let prev_mode := sbi_mstatus_prev_mode (r_mstatus (il_regs s)) in
  let virt := sbi_regs_from_virt (il_regs s) in
  if csr_num =? CSR_HTIMEDELTA then
    if (prev_mode =? PRV_S) && negb virt
    then (0, mkIll (il_ld s) (sbi_timer_set_delta csr_val (il_timer s))) else (SBI_ENOTSUPP, s)
  else (SBI_ENOTSUPP, s).

Definition ill_redirect (t : sbi_trap_info) (s : ill_state) : Z * ill_state :=
  let '(rc, w) := redirect H feat t (il_ld s) in (rc, set_ld w s).

Definition truly_illegal_insn (insn : Z) (s : ill_state) : Z * ill_state :=
  ill_redirect (mkTinfo CAUSE_ILLEGAL_INSTRUCTION insn 0 0 0) s.

Definition misc_mem_opcode_insn (insn : Z) (s : ill_state) : Z * ill_state :=
  if Z.land insn 0xffffffff =? INSN_MATCH_FENCE_TSO
  then (0, set_ld (set_mepc_by 4 (il_ld s)) s) else truly_illegal_insn insn s.

Definition system_opcode_insn (insn : Z) (s : ill_state) : Z * ill_state :=
  let rs1_num := Z.shiftr (Z.land insn 0xf8000) 15 in
  let rs1_val := get_reg (reg_num insn SH_RS1) (il_ld s) in
  let csr_num := Z.shiftr (Z.land (u32 insn) 0xfff00000) 20 in
  let prev_mode := sbi_mstatus_prev_mode (r_mstatus (il_regs s)) in
  if prev_mode =? PRV_M then (SBI_EFAIL, s)
  else
    let funct3 := Z.shiftr (Z.land insn 0x7000) 12 in
    if (funct3 =? 0) || (funct3 =? 4) then truly_illegal_insn insn s
    else
      match sbi_emulate_csr_read csr_num s with
      | inr _ => truly_illegal_insn insn s
      | inl csr_val =>
          let upd :=
            if funct3 =? CSRRW then Some (rs1_val, true)
            else if funct3 =? CSRRS then Some (Z.lor csr_val rs1_val, negb (rs1_num =? 0))
            else if funct3 =? CSRRC then Some (Z.land csr_val (not64 rs1_val), negb (rs1_num =? 0))
            else if funct3 =? CSRRWI then Some (rs1_num, true)
            else if funct3 =? CSRRSI then Some (Z.lor csr_val rs1_num, negb (rs1_num =? 0))
            else if funct3 =? CSRRCI then Some (Z.land csr_val (not64 rs1_num), negb (rs1_num =? 0))
            else None in
          match upd with
          | None => truly_illegal_insn insn s
          | Some (new_csr_val, do_write) =>
              let '(rc, s1) := if do_write : bool then sbi_emulate_csr_write csr_num new_csr_val s else (0, s) in
              if negb (rc =? 0) then truly_illegal_insn insn s1
              else (0, set_ld (set_mepc_by 4 (SET_RD insn csr_val (il_ld s1))) s1)
          end
      end.

(** [illegal_insn_table] *)
Definition illegal_insn (op insn : Z) (s : ill_state) : Z * ill_state :=
  if op =? 3 then misc_mem_opcode_insn insn s
  else if op =? 28 then system_opcode_insn insn s
  else truly_illegal_insn insn s.

Definition sbi_illegal_insn_handler (trap : sbi_trap_info) (s : ill_state) : Z * ill_state :=
  let insn := t_tval trap in
  let go insn := illegal_insn (Z.shiftr (Z.land insn 0x7c) 2) insn s in
  if negb (Z.land insn 3 =? 3) then
    let '(insn, uptrap) := sbi_get_insn u junk (r_mepc (il_regs s)) (il_ld s) in
    if negb (t_cause uptrap =? 0) then ill_redirect uptrap s
    else if negb (Z.land insn 3 =? 3) then truly_illegal_insn insn s
    else go insn
  else go insn.

(** ** What the emulated registers mean *)

(** The counters the program may read: those its mode and the modes above it are
    enabled for. *)
Definition enabled_for (mode : Z) (virt : bool) (n : Z) : bool :=
  negb (priv_version feat <? SBI_HART_PRIV_VER_1_10) && Z.testbit (mcounteren ctr) n &&
  (negb virt || Z.testbit (hcounteren ctr) n) && (negb (mode =? PRV_U) || Z.testbit (scounteren ctr) n).

Lemma testbit_land1 v n : negb (Z.land (Z.shiftr v n) 1 =? 0) = Z.testbit v n.
Proof.
  change 1 with (Z.ones 1). rewrite Z.land_ones by lia. change (2 ^ 1) with 2.
  rewrite <- Z.bit0_mod, Z.shiftr_spec by lia. rewrite Z.add_0_l. by destruct (Z.testbit v n).
Qed.

Lemma ulong_max_land v n : 0 <= n < 64 -> Z.testbit (Z.land ULONG_MAX v) n = Z.testbit v n.
Proof.
  intros Hn. rewrite Z.land_spec. change ULONG_MAX with (Z.ones 64). by rewrite Z.ones_spec_low.
Qed.

Lemma hpm_allowed_spec n mode virt : 0 <= n < 64 -> mode = PRV_S \/ mode = PRV_U ->
  hpm_allowed n mode virt = enabled_for mode virt n.
Proof.
  intros Hn Hm. unfold hpm_allowed, enabled_for. cbv zeta. rewrite testbit_land1.
  destruct (priv_version feat <? _); destruct Hm as [-> | ->]; cbn [Z.leb Z.eqb Z.compare PRV_S PRV_U Pos.compare negb orb andb].
  - change (PRV_S <=? PRV_S) with true. change (PRV_S =? PRV_U) with false. cbv iota. by rewrite Z.bits_0.
  - change (PRV_U =? PRV_U) with true. cbv iota. by rewrite Z.bits_0.
  - change (PRV_S <=? PRV_S) with true. change (PRV_S =? PRV_U) with false. cbv iota. cbn [negb orb].
    destruct virt; rewrite ?Z.land_spec; change (Z.testbit ULONG_MAX n) with (Z.testbit (Z.ones 64) n);
      rewrite ?Z.ones_spec_low by lia; by rewrite ?andb_true_r, ?andb_true_l.
  - change (PRV_U <=? PRV_S) with true. change (PRV_U =? PRV_U) with true. cbv iota. cbn [negb orb].
    destruct virt; rewrite ?Z.land_spec; change (Z.testbit ULONG_MAX n) with (Z.testbit (Z.ones 64) n);
      rewrite ?Z.ones_spec_low by lia; by rewrite ?andb_true_r, ?andb_true_l.
Qed.

(** The value of a register the firmware emulates, for a program in [mode]. *)
Definition csr_emulated (mode : Z) (virt : bool) (csr : Z) (t : timer (D := D)) : option Z :=
  let n := csr - CSR_CYCLE in
  if csr =? CSR_HTIMEDELTA then if (mode =? PRV_S) && negb virt then Some (time_delta t) else None
  else if (0 <=? n) && (n <? 32) && enabled_for mode virt n then
    if n =? 1 then Some (if virt then sbi_timer_virt_value now t else sbi_timer_value now t)
    else if (n <? 3) || negb (Z.testbit (mhpm_mask feat) n) then Some (mcounter ctr n) else None
  else None.

(** What a CSR instruction with function code [f3] writes, and whether it does:
    [x] is the value of its register [rs1]. *)
Definition csr_new (f3 old x rs1 : Z) : Z :=
  let src := if f3 <? 4 then x else rs1 in
  match f3 mod 4 with 1 => src | 2 => Z.lor old src | _ => Z.land old (not64 src) end.

Definition csr_writes (f3 rs1 : Z) : bool := (f3 mod 4 =? 1) || negb (rs1 =? 0).

Lemma csr_read_spec csr s : 0 <= csr < 2 ^ 12 ->
  let mode := sbi_mstatus_prev_mode (r_mstatus (il_regs s)) in
  mode = PRV_S \/ mode = PRV_U ->
  match sbi_emulate_csr_read csr s with
  | inl v => csr_emulated mode (sbi_regs_from_virt (il_regs s)) csr (il_timer s) = Some v
  | inr _ => csr_emulated mode (sbi_regs_from_virt (il_regs s)) csr (il_timer s) = None
  end.
Proof.
  intros Hcsr mode Hm. unfold sbi_emulate_csr_read, csr_emulated. cbv zeta. fold mode.
  set (virt := sbi_regs_from_virt (il_regs s)).
  destruct (Z.eqb_spec csr CSR_HTIMEDELTA) as [->|Hh]; [by destruct (_ && _)|].
  assert (forall n, 0 <= n < 32 -> hpm_allowed n mode virt = enabled_for mode virt n) as Ha.
  { intros n Hn. apply hpm_allowed_spec; [lia|done]. }
  unfold CSR_CYCLE, CSR_TIME, CSR_INSTRET, CSR_HPMCOUNTER3, CSR_HPMCOUNTER31 in *.
  destruct (Z.eqb_spec csr 0xc00) as [->|H0]; [rewrite Ha by lia; by destruct (enabled_for _ _ _)|].
  destruct (Z.eqb_spec csr 0xc01) as [->|H1]; [rewrite Ha by lia; by destruct (enabled_for _ _ _)|].
  destruct (Z.eqb_spec csr 0xc02) as [->|H2]; [rewrite Ha by lia; by destruct (enabled_for _ _ _)|].
  destruct (Z.leb_spec 0xc03 csr), (Z.leb_spec csr 0xc1f); cbn [andb].
  - set (n := csr - 0xc00). rewrite Z.shiftl_1_l, (flag_test (mhpm_mask feat) n) by (unfold n; lia).
    destruct (Z.leb_spec 0 n), (Z.ltb_spec n 32); try (unfold n in *; lia). cbn [andb].
    rewrite Ha by lia. destruct (Z.eqb_spec n 1); [unfold n in *; lia|].
    destruct (Z.ltb_spec n 3); [unfold n in *; lia|]. cbn [orb].
    destruct (Z.testbit (mhpm_mask feat) n), (enabled_for _ _ _); done.
  - destruct (Z.leb_spec 0 (csr - 0xc00)), (Z.ltb_spec (csr - 0xc00) 32); try lia; done.
  - destruct (Z.leb_spec 0 (csr - 0xc00)), (Z.ltb_spec (csr - 0xc00) 32); try lia; done.
  - lia.
Qed.

(** The fields of a CSR instruction. *)
Lemma csr_fields f3 rd rs1 csr : 0 <= f3 < 8 -> 0 <= rd < 32 -> 0 <= rs1 < 32 -> 0 <= csr < 2 ^ 12 ->
  let insn := enc_i 0x73 rd f3 rs1 csr in
  Z.shiftr (Z.land insn 0xf8000) 15 = rs1 /\ reg_num insn SH_RS1 = Z.to_nat rs1 /\
  Z.shiftr (Z.land (u32 insn) 0xfff00000) 20 = csr /\ Z.shiftr (Z.land insn 0x7000) 12 = f3 /\
  Z.shiftr (Z.land insn 0x7c) 2 = 28 /\ Z.land insn 3 = 3.
Proof.
  intros Hf Hrd Hrs Hc insn. unfold insn, enc_i. cbv zeta. rewrite (Z.mod_small csr) by done.
  destruct (split5 csr Hc) as (E & H1 & H2). set (lo := csr mod 32) in *. set (hi := csr / 32) in *.
  assert (forall x k w, 0 <= k -> 0 <= w -> Z.shiftr (Z.land x ((2 ^ w - 1) * 2 ^ k)) k = x / 2 ^ k mod 2 ^ w) as Hf2.
  { intros x k w Hk Hw. rewrite mask_mod, Z.shiftr_div_pow2 by lia. apply Z.div_mul.
    pose proof (Z.pow_pos_nonneg 2 k). lia. }
  change 0xf8000 with ((2 ^ 5 - 1) * 2 ^ 15). change 0xfff00000 with ((2 ^ 12 - 1) * 2 ^ 20).
  change 0x7000 with ((2 ^ 3 - 1) * 2 ^ 12). change 0x7c with ((2 ^ 5 - 1) * 2 ^ 2). rewrite !Hf2 by lia.
  rewrite reg_num_field by done. unfold SH_RS1.
  assert (0 <= pack 0x73 rd f3 rs1 lo hi < 2 ^ 32) as Hr by (unfold pack; lia). rewrite (wrap_small 32) by done.
  rewrite pack_div15, pack_div20, pack_div12 by lia. split_and!.
  - symmetry. apply Z.mod_unique with (lo + 2 ^ 5 * hi); lia.
  - f_equal. symmetry. apply Z.mod_unique with (lo + 2 ^ 5 * hi); lia.
  - rewrite Z.mod_small by lia. lia.
  - symmetry. apply Z.mod_unique with (rs1 + 2 ^ 5 * lo + 2 ^ 10 * hi); lia.
  - unfold pack. divlia.
  - rewrite land3. unfold pack. divlia.
Qed.

(** What the emulated instruction does. *)
Definition csr_effect (f3 rd rs1 csr v : Z) (s : ill_state) : ill_state :=
  let w := il_ld s in
  let r := w_regs w in
  let new := csr_new f3 v (get_reg (Z.to_nat rs1) w) rs1 in
  mkIll (mkLd (mkTregs (<[Z.to_nat rd := v]> (gprs r)) (u64 (r_mepc r + 4)) (r_mstatus r)) (w_fregs w) (w_csr w) (w_mem w))
    (if csr_writes f3 rs1 then set_delta new (il_timer s) else il_timer s).

Lemma system_insn_spec f3 rd rs1 csr s :
  0 <= f3 < 8 -> f3 mod 4 <> 0 -> 0 <= rd < 32 -> 0 <= rs1 < 32 -> 0 <= csr < 2 ^ 12 ->
  let mode := sbi_mstatus_prev_mode (r_mstatus (il_regs s)) in
  mode = PRV_S \/ mode = PRV_U ->
  system_opcode_insn (enc_i 0x73 rd f3 rs1 csr) s =
    match csr_emulated mode (sbi_regs_from_virt (il_regs s)) csr (il_timer s) with
    | Some v =>
        if csr_writes f3 rs1 && negb (csr =? CSR_HTIMEDELTA) then truly_illegal_insn (enc_i 0x73 rd f3 rs1 csr) s
        else (0, csr_effect f3 rd rs1 csr v s)
    | None => truly_illegal_insn (enc_i 0x73 rd f3 rs1 csr) s
    end.
Proof.
  intros Hf Hf4 Hrd Hrs Hc mode Hm. destruct (csr_fields f3 rd rs1 csr Hf Hrd Hrs Hc) as (E1 & E2 & E3 & E4 & _).
  pose proof (csr_read_spec csr s Hc Hm) as Hread. cbv zeta in Hread. fold mode in Hread.
  unfold system_opcode_insn. rewrite E1, E2, E3, E4. fold mode.
  assert (mode =? PRV_M = false) as -> by (destruct Hm as [-> | ->]; done).
  assert ((f3 =? 0) || (f3 =? 4) = false) as ->.
  { apply orb_false_iff. split; apply Z.eqb_neq; intros ->; by apply Hf4. }
  destruct (sbi_emulate_csr_read csr s) as [v|e]; rewrite Hread; [|done].
  assert (reg_num (enc_i 0x73 rd f3 rs1 csr) SH_RD = Z.to_nat rd) as Erd by (by apply enc_i_decode).
  assert (csr =? CSR_HTIMEDELTA = true -> (mode =? PRV_S) && negb (sbi_regs_from_virt (il_regs s)) = true) as Hmode.
  { intros Eq. unfold csr_emulated in Hread. rewrite Eq in Hread. by destruct (_ && _). }
  unfold csr_effect, csr_new, csr_writes. unfold sbi_emulate_csr_write. fold mode.
  assert (f3 = 1 \/ f3 = 2 \/ f3 = 3 \/ f3 = 5 \/ f3 = 6 \/ f3 = 7) as Hcases.
  { assert (f3 = 0 \/ f3 = 1 \/ f3 = 2 \/ f3 = 3 \/ f3 = 4 \/ f3 = 5 \/ f3 = 6 \/ f3 = 7) as Hall by lia.
    destruct Hall as [->|[->|[->|[->|[->|[->|[->| ->]]]]]]]; try tauto; by exfalso; apply Hf4. }
  destruct Hcases as [->|[->|[->|[->|[->| ->]]]]]; cbn -[csr_emulated truly_illegal_insn Z.eqb];
    destruct (Z.eqb_spec csr CSR_HTIMEDELTA); rewrite ?(Hmode eq_refl); destruct (Z.eqb_spec rs1 0); cbn [negb andb orb];
    unfold SET_RD; rewrite ?Erd; try done.
Qed.

End Illegal.

Lemma get_insn_ok u junk w e : mem_ok (w_mem w) -> e mod 4 = 3 -> code_at u (w_mem w) (r_mepc (w_regs w)) e 4 ->
  exists t, sbi_get_insn u junk (r_mepc (w_regs w)) w = (e, t) /\ t_cause t = 0.
Proof.
  intros Hm He Hc. pose proof (insn_fetched false (mkFeat true 0 [] 0 0 0 0 0) u junk no_trap w e 4 Hm) as F.
  specialize (F (or_intror (conj eq_refl He)) eq_refl Hc). unfold trapped_insn in F. cbn [t_tinst no_trap] in F.
  change (negb (Z.land 0 1 =? 0)) with false in F. cbv iota in F. destruct (sbi_get_insn u junk _ w) as [e' t].
  destruct (Z.eqb_spec (t_cause t) 0) as [Ht|]; [|discriminate F]. injection F as -> _. by exists t.
Qed.

(** An access to a counter or to the hypervisor's time delta that the hart
    does not implement is emulated as the privileged architecture defines it: from
    supervisor or user mode, virtual or not, the instruction reads the register,
    writes the time delta if it is one that writes, puts the old value in its
    register and is stepped over, exactly when the program's mode and those above
    it enable the counter and the register allows the access; in all other cases
    the supervisor gets an illegal-instruction trap with the instruction, and
    nothing has changed. *)
Lemma csr_access_emulated {D : Type} H feat u junk ctr now trap (s : ill_state (D := D)) f3 rd rs1 csr :
  0 <= f3 < 8 -> f3 mod 4 <> 0 -> 0 <= rd < 32 -> 0 <= rs1 < 32 -> 0 <= csr < 2 ^ 12 -> mem_ok (w_mem (il_ld s)) ->
  let mode := sbi_mstatus_prev_mode (r_mstatus (il_regs s)) in
  mode = PRV_S \/ mode = PRV_U ->
  let insn := enc_i 0x73 rd f3 rs1 csr in
  t_tval trap = insn \/ (Z.land (t_tval trap) 3 <> 3 /\ code_at u (w_mem (il_ld s)) (r_mepc (il_regs s)) insn 4) ->
  sbi_illegal_insn_handler H feat u junk ctr now trap s =
    match csr_emulated feat ctr now mode (sbi_regs_from_virt (il_regs s)) csr (il_timer s) with
    | Some v =>
        if csr_writes f3 rs1 && negb (csr =? CSR_HTIMEDELTA) then truly_illegal_insn H feat insn s
        else (0, csr_effect f3 rd rs1 csr v s)
    | None => truly_illegal_insn H feat insn s
    end.
Proof.
  intros Hf Hf4 Hrd Hrs Hc Hm mode Hmode insn Hp.
  destruct (csr_fields f3 rd rs1 csr Hf Hrd Hrs Hc) as (_ & _ & _ & _ & E7 & E3). fold insn in E7, E3.
  assert (illegal_insn H feat ctr now (Z.shiftr (Z.land insn 0x7c) 2) insn s = system_opcode_insn H feat ctr now insn s) as Hgo.
  { rewrite E7. done. }
  unfold sbi_illegal_insn_handler. cbv zeta. destruct Hp as [-> |[Ht Hcode]].
  - rewrite E3. cbn [Z.eqb Pos.eqb negb]. rewrite Hgo. by apply system_insn_spec.
  - destruct (Z.eqb_spec (Z.land (t_tval trap) 3) 3); [done|]. cbn [negb].
    destruct (get_insn_ok u junk (il_ld s) insn Hm) as (t & E & Et); [by rewrite <- land3|done|].
    unfold il_regs. rewrite E, Et. cbn [Z.eqb negb]. rewrite E3. cbn [Z.eqb Pos.eqb negb]. rewrite Hgo.
    by apply system_insn_spec.
Qed.

(** [rdtime x5] in user mode, on a hart that enables the time for it. *)
Definition demo_counters : counters := mkCounters 2 0 2 (fun n => 100 + n).

Definition demo_ill : ill_state (D := option Z) :=
  mkIll (mkLd (mkTregs (replicate 32 0) 0x1000 0) [] (mkTcsrs 0 0 0 0 0 0 0 0 0 0 0 0 0x80100000) (fun _ => 0)) demo_timer.

Lemma csr_access_emulated_witness :
  exists s', sbi_illegal_insn_handler false demo_feat flat 0 demo_counters 777 (mkTinfo 2 0xc01022f3 0 0 0) demo_ill = (0, s') /\
    get_reg 5 (il_ld s') = 777 /\ r_mepc (il_regs s') = 0x1004.
Proof.
  eexists. split.
  - rewrite (csr_access_emulated false demo_feat flat 0 demo_counters 777 (mkTinfo 2 0xc01022f3 0 0 0) demo_ill 2 5 0 0xc01).
    + vm_compute. reflexivity.
    + lia.
    + discriminate.
    + lia.
    + lia.
    + lia.
    + intros a. cbn. lia.
    + right. reflexivity.
    + left. vm_compute. reflexivity.
  - split; vm_compute; reflexivity.
Defined.
