(* ===== verification/SbiPmu.v ===== *)
(** * Performance monitoring (lib/sbi/sbi_pmu.c)

    The counters of a hart and the events they count.  The state of a hart, its
    registers, the table of hardware events and the state of the platform's
    device are one record; every function is a computation in the monad [M] of
    that state, in which [None] is an access out of bounds of an array, a shift by
    more than a word, a NULL dereference or a panic.  The device is a record of
    optional callbacks on a state of its own, as [struct sbi_pmu_device] is; the
    platform's translation of events is a parameter. *)

From S2P Require Import Prelude SbiBitops SbiHart.

Definition SBI_PMU_FW_CTR_MAX : Z := 16.
Definition SBI_PMU_HW_CTR_MAX : Z := 32.
Definition SBI_PMU_HW_EVENT_MAX : Z := 256.
Definition SBI_PMU_FIXED_CTR_MASK : Z := 7.
Definition SBI_PMU_CY_IR_MASK : Z := 5.
Definition SBI_PMU_HW_CPU_CYCLES : Z := 1.
Definition SBI_PMU_HW_INSTRUCTIONS : Z := 2.
Definition SBI_PMU_HW_GENERAL_MAX : Z := 11.
Definition SBI_PMU_HW_CACHE_MAX : Z := 7.
Definition SBI_PMU_HW_CACHE_OP_MAX : Z := 3.
Definition SBI_PMU_HW_CACHE_RESULT_MAX : Z := 2.
Definition SBI_PMU_FW_MAX : Z := 22.
Definition SBI_PMU_FW_RESERVED_MAX : Z := 0xfffe.
Definition SBI_PMU_FW_PLATFORM : Z := 0xffff.
Definition SBI_PMU_EVENT_TYPE_HW : Z := 0.
Definition SBI_PMU_EVENT_TYPE_HW_CACHE : Z := 1.
Definition SBI_PMU_EVENT_TYPE_HW_RAW : Z := 2.
Definition SBI_PMU_EVENT_TYPE_HW_RAW_V2 : Z := 3.
Definition SBI_PMU_EVENT_TYPE_FW : Z := 15.
Definition SBI_PMU_EVENT_TYPE_MAX : Z := 16.
Definition SBI_PMU_EVENT_RAW_IDX : Z := 0x20000.
Definition SBI_PMU_EVENT_RAW_V2_IDX : Z := 0x30000.
Definition SBI_PMU_EVENT_IDX_INVALID : Z := 0xffffffff.
Definition CFG_SKIP_MATCH : Z := 1.
Definition CFG_CLEAR_VALUE : Z := 2.
Definition CFG_AUTO_START : Z := 4.
Definition CFG_SET_VUINH : Z := 8.
Definition CFG_SET_VSINH : Z := 16.
Definition CFG_SET_UINH : Z := 32.
Definition CFG_SET_SINH : Z := 64.
Definition START_SET_INIT_VALUE : Z := 1.
Definition STOP_RESET : Z := 1.
Definition STOP_TAKE_SNAPSHOT : Z := 2.

Definition CSR_MIDELEG : Z := 0x303.
Definition CSR_MIE : Z := 0x304.
Definition CSR_MCOUNTEREN : Z := 0x306.
Definition CSR_MCOUNTINHIBIT : Z := 0x320.
Definition CSR_MCYCLECFG : Z := 0x321.
Definition CSR_MINSTRETCFG : Z := 0x322.
Definition CSR_MHPMEVENT3 : Z := 0x323.
Definition CSR_MIP : Z := 0x344.
Definition CSR_MCYCLE : Z := 0xb00.
Definition MHPMEVENT_OF : Z := 2 ^ 63.
Definition MHPMEVENT_MINH : Z := 2 ^ 62.
Definition MHPMEVENT_SINH : Z := 2 ^ 61.
Definition MHPMEVENT_UINH : Z := 2 ^ 60.
Definition MHPMEVENT_VSINH : Z := 2 ^ 59.
Definition MHPMEVENT_VUINH : Z := 2 ^ 58.
Definition MHPMEVENT_SSCOF_MASK : Z := 0xff00000000000000.
Definition IRQ_PMU_OVF : Z := 13.
Definition PMU_SSE_EVENT : Z := 0x10000.

Definition get_cidx_type (x : Z) : Z := Z.shiftr (Z.land x 0xf0000) 16.
Definition get_cidx_code (x : Z) : Z := Z.land x 0xffff.

(** ** Loops over the bits of a word *)

(** The values of the loop variable, by the macro's calls of [find_next_bit]. *)
Fixpoint set_bits_loop (fuel : nat) (w size i : Z) : option (list Z) :=
  if i <? size then
    match fuel with
    | O => None
    | S fuel => i' ← find_next_bit [w] size (i + 1); cons i <$> set_bits_loop fuel w size i'
    end
  else Some [].

Definition for_each_set_bit_from (b w size : Z) : option (list Z) :=
  i ← find_next_bit [w] size b; set_bits_loop 65 w size i.

Definition for_each_set_bit (w size : Z) : option (list Z) :=
  i ← find_first_bit [w] size; set_bits_loop 65 w size i.

(** ** State *)

Record sbi_pmu_hw_event := mkHwe {
  counters : Z; start_idx : Z; end_idx : Z; select : Z; select_mask : Z }.

Record sbi_pmu_hart_state := mkPhs {
  ph_hartid : Z; active_events : list Z; fw_counters_started : Z; sse_enabled : bool;
  fw_counters_data : list Z }.

(** The callbacks; [None] is NULL.  [D] is what the device keeps. *)
Record sbi_pmu_device (D : Type) := mkPmuDev {
  fw_event_validate_encoding : option (Z -> Z -> Z);
  fw_counter_match_encoding : option (Z -> Z -> Z -> bool);
  fw_counter_width : option Z;
  fw_counter_read_value : option (Z -> Z -> D -> Z);
  fw_counter_write_value : option (Z -> Z -> Z -> D -> D);
  fw_counter_start : option (Z -> Z -> Z -> D -> Z * D);
  fw_counter_stop : option (Z -> Z -> D -> Z * D);
  hw_counter_enable_irq : option (Z -> D -> D);
  hw_counter_disable_irq : option (Z -> D -> D);
  hw_counter_irq_bit : option Z;
  hw_counter_filter_mode : option (Z -> Z -> D -> D) }.

Arguments fw_event_validate_encoding {D}.
Arguments fw_counter_match_encoding {D}.
Arguments fw_counter_width {D}.
Arguments fw_counter_read_value {D}.
Arguments fw_counter_write_value {D}.
Arguments fw_counter_start {D}.
Arguments fw_counter_stop {D}.
Arguments hw_counter_enable_irq {D}.
Arguments hw_counter_disable_irq {D}.
Arguments hw_counter_irq_bit {D}.
Arguments hw_counter_filter_mode {D}.

(** The calls of the software-event component. *)
Inductive pmu_sse_call := InjectPmu | AddPmuEvent.

(** The globals, the hart's state behind its scratch pointer, its CSRs by number,
    the device's state, and the calls of the software-event component. *)
Record pmu (D : Type) := mkPmu {
  hw_event_map : list sbi_pmu_hw_event; num_hw_ctrs : Z; total_ctrs : Z;
  pmu_dev : option (sbi_pmu_device D); phs_ptr_offset : bool;
  phs : option sbi_pmu_hart_state; csr : Z -> Z; dstate : D; sse_calls : list pmu_sse_call }.

Arguments hw_event_map {D}.
Arguments num_hw_ctrs {D}.
Arguments total_ctrs {D}.
Arguments pmu_dev {D}.
Arguments phs_ptr_offset {D}.
Arguments phs {D}.
Arguments csr {D}.
Arguments dstate {D}.
Arguments sse_calls {D}.
Arguments mkPmu {D}.

(** ** The monad *)

Definition M (D A : Type) : Type := pmu D -> option (A * pmu D).

#[export] Instance M_ret D : MRet (M D) := fun _ x s => Some (x, s).
#[export] Instance M_bind D : MBind (M D) := fun _ _ k m s =>
  match m s with Some (x, s) => k x s | None => None end.

Section Ops.
Context {D : Type}.

Definition gets {A} (f : pmu D -> A) : M D A := fun s => Some (f s, s).
Definition lift {A} (o : option A) : M D A := fun s => x ← o; Some (x, s).

Definition put_phs (p : sbi_pmu_hart_state) : M D () := fun s =>
  Some ((), mkPmu (hw_event_map s) (num_hw_ctrs s) (total_ctrs s) (pmu_dev s) (phs_ptr_offset s) (Some p)
              (csr s) (dstate s) (sse_calls s)).
Definition put_csrs (c : Z -> Z) : M D () := fun s =>
  Some ((), mkPmu (hw_event_map s) (num_hw_ctrs s) (total_ctrs s) (pmu_dev s) (phs_ptr_offset s) (phs s) c
              (dstate s) (sse_calls s)).
Definition put_dstate (d : D) : M D () := fun s =>
  Some ((), mkPmu (hw_event_map s) (num_hw_ctrs s) (total_ctrs s) (pmu_dev s) (phs_ptr_offset s) (phs s)
              (csr s) d (sse_calls s)).
Definition put_map (l : list sbi_pmu_hw_event) : M D () := fun s =>
  Some ((), mkPmu l (num_hw_ctrs s) (total_ctrs s) (pmu_dev s) (phs_ptr_offset s) (phs s) (csr s) (dstate s)
              (sse_calls s)).
Definition call_sse (c : pmu_sse_call) : M D () := fun s =>
  Some ((), mkPmu (hw_event_map s) (num_hw_ctrs s) (total_ctrs s) (pmu_dev s) (phs_ptr_offset s) (phs s)
              (csr s) (dstate s) (sse_calls s ++ [c])).

Definition upd_csr (c : Z -> Z) (n v : Z) : Z -> Z := fun k => if k =? n then v else c k.

Definition csr_read (n : Z) : M D Z := gets (fun s => csr s n).
Definition csr_write (n v : Z) : M D () := c ← gets csr; put_csrs (upd_csr c n v).
Definition csr_set_bits (n mask : Z) : M D () := v ← csr_read n; csr_write n (Z.lor v mask).
Definition csr_clear_bits (n mask : Z) : M D () := v ← csr_read n; csr_write n (Z.land v (not64 mask)).

(** The registers [csr_read_num] and [csr_write_num] know, which panic on all
    others. *)
Definition csr_known (n : Z) : bool :=
  ((0x320 <=? n) && (n <=? 0x33f)) || (n =? 0xb00) || ((0xb02 <=? n) && (n <=? 0xb1f)) ||
  ((0x3a0 <=? n) && (n <=? 0x3ef)).

Definition csr_write_by_num (n v : Z) : M D () := if csr_known n then csr_write n v else lift None.
Definition csr_read_by_num (n : Z) : M D Z := if csr_known n then csr_read n else lift None.

(** *** Arrays of the hart's state *)

Definition wr (l : list Z) (i v : Z) : option (list Z) :=
  if (0 <=? i) && (i <? Z.of_nat (length l)) then Some (<[Z.to_nat i := v]> l) else None.

Definition get_active (p : sbi_pmu_hart_state) (i : Z) : M D Z := lift (rd (active_events p) i).

Definition set_active (p : sbi_pmu_hart_state) (i v : Z) : option sbi_pmu_hart_state :=
  l ← wr (active_events p) i v;
  Some (mkPhs (ph_hartid p) l (fw_counters_started p) (sse_enabled p) (fw_counters_data p)).
Definition set_fw_data (p : sbi_pmu_hart_state) (i v : Z) : option sbi_pmu_hart_state :=
  l ← wr (fw_counters_data p) i v;
  Some (mkPhs (ph_hartid p) (active_events p) (fw_counters_started p) (sse_enabled p) l).
Definition set_started (p : sbi_pmu_hart_state) (v : Z) : sbi_pmu_hart_state :=
  mkPhs (ph_hartid p) (active_events p) v (sse_enabled p) (fw_counters_data p).
Definition set_sse_enabled (p : sbi_pmu_hart_state) (b : bool) : sbi_pmu_hart_state :=
  mkPhs (ph_hartid p) (active_events p) (fw_counters_started p) b (fw_counters_data p).

(** [BIT(n)] *)
Definition BIT_u32 (n : Z) : option Z := if n <? BITS_PER_LONG then Some (Z.shiftl 1 n) else None.

(** The hart's state of a call that has checked it is not NULL. *)
Definition this : M D sbi_pmu_hart_state := p ← gets phs; lift p.

(** Set a flag test: [flags & F]. *)
Definition flag (flags f : Z) : bool := negb (Z.land flags f =? 0).

Definition with_dev {A} (f : sbi_pmu_device D -> option A) : M D (option A) :=
  d ← gets pmu_dev; mret (d ≫= f).

(** Call an optional callback without result. *)
Definition dev_do (f : sbi_pmu_device D -> option (D -> D)) : M D () :=
  o ← with_dev f;
  match o with Some g => d ← gets dstate; put_dstate (g d) | None => mret () end.

End Ops.

(** ** Validation *)

Section Pmu.
Context {D : Type}.
Variables (feat : sbi_hart_features) (xlate : Z -> Z -> Z).

Implicit Types (p : sbi_pmu_hart_state) (e : sbi_pmu_hw_event).

Definition fw_reserved (code : Z) : bool :=
  ((SBI_PMU_FW_MAX <=? code) && (code <=? SBI_PMU_FW_RESERVED_MAX)) || (SBI_PMU_FW_PLATFORM <? code).

Definition pmu_event_validate p (event_idx edata : Z) : M D Z :=
  let type := get_cidx_type event_idx in
  let code := get_cidx_code event_idx in
  let below max := mret (if code <? max then type else SBI_EINVAL) in
  if type =? SBI_PMU_EVENT_TYPE_HW then below SBI_PMU_HW_GENERAL_MAX
  else if type =? SBI_PMU_EVENT_TYPE_FW then
    if fw_reserved code then mret SBI_EINVAL
    else
      o ← with_dev fw_event_validate_encoding;
      match o with
      | Some validate => if SBI_PMU_FW_PLATFORM =? code then mret (validate (ph_hartid p) edata)
                         else below SBI_PMU_FW_MAX
      | None => below SBI_PMU_FW_MAX
      end
  else if type =? SBI_PMU_EVENT_TYPE_HW_CACHE then
    let cache_ops_result := Z.land code 1 in
    let cache_ops_id := Z.shiftr (Z.land code 6) 1 in
    let cache_id := Z.shiftr (Z.land code 0xfff8) 3 in
    mret (if (cache_ops_result <? SBI_PMU_HW_CACHE_RESULT_MAX) && (cache_ops_id <? SBI_PMU_HW_CACHE_OP_MAX) &&
             (cache_id <? SBI_PMU_HW_CACHE_MAX) then type else SBI_EINVAL)
  else if (type =? SBI_PMU_EVENT_TYPE_HW_RAW) || (type =? SBI_PMU_EVENT_TYPE_HW_RAW_V2) then below 1
  else mret SBI_EINVAL.

(** The type of the counter's event, or an error; and the code. *)
Definition pmu_ctr_validate p (cidx : Z) : M D (Z * Z) :=
  total ← gets total_ctrs;
  if total <=? cidx then mret (SBI_EINVAL, 0)
  else
    event_idx_val ← get_active p cidx;
    let type := get_cidx_type event_idx_val in
    if (event_idx_val =? SBI_PMU_EVENT_IDX_INVALID) || (SBI_PMU_EVENT_TYPE_MAX <=? type)
    then mret (SBI_EINVAL, 0)
    else mret (type, get_cidx_code event_idx_val).

(** ** Reading a firmware counter *)

Definition sbi_pmu_ctr_fw_read (cidx : Z) : M D (Z + Z) :=
  ph ← gets phs;
  match ph with
  | None => mret (inl SBI_EINVAL)
  | Some p =>
      '(type, event_code) ← pmu_ctr_validate p cidx;
      if negb (type =? SBI_PMU_EVENT_TYPE_FW) then mret (inl SBI_EINVAL)
      else if fw_reserved event_code then mret (inl SBI_EINVAL)
      else
        n ← gets num_hw_ctrs;
        if SBI_PMU_FW_PLATFORM =? event_code then
          o ← with_dev fw_counter_read_value;
          d ← gets dstate;
          mret (inr (match o with Some f => f (ph_hartid p) (u32 (cidx - n)) d | None => 0 end))
        else v ← lift (rd (fw_counters_data p) (u32 (cidx - n))); mret (inr v)
  end.

(** ** The table of hardware events *)

Definition pmu_event_range_overlap (evtA evtB : sbi_pmu_hw_event) : bool :=
  negb (((end_idx evtA <? start_idx evtB) && (end_idx evtA <? end_idx evtB)) ||
        ((start_idx evtB <? start_idx evtA) && (end_idx evtB <? start_idx evtA))).

Definition pmu_event_select_overlap e (select_val mask : Z) : bool :=
  (select e =? select_val) && (select_mask e =? mask).

Definition pmu_add_hw_event_map (eidx_start eidx_end cmap sel mask : Z) : M D Z :=
  l ← gets hw_event_map;
  let ctr_avail_mask := Z.lor (mhpm_mask feat) 7 in
  if (SBI_PMU_HW_INSTRUCTIONS <? eidx_start) && flag cmap SBI_PMU_FIXED_CTR_MASK then mret SBI_EDENIED
  else if SBI_PMU_HW_EVENT_MAX - 1 <=? Z.of_nat (length l) then mret SBI_EFAIL
  else
    let event := mkHwe (Z.land cmap ctr_avail_mask) eidx_start eidx_end sel mask in
    let overlap e :=
      if (eidx_start =? SBI_PMU_EVENT_RAW_IDX) || (eidx_start =? SBI_PMU_EVENT_RAW_V2_IDX)
      then pmu_event_select_overlap e sel mask
      else pmu_event_range_overlap e event in
    if existsb overlap l then mret SBI_EINVAL
    else put_map (l ++ [event]);; mret 0.

Definition sbi_pmu_add_hw_event_counter_map (eidx_start eidx_end cmap : Z) : M D Z :=
  if (eidx_end <? eidx_start) || (SBI_PMU_EVENT_RAW_IDX <=? eidx_start) || (SBI_PMU_EVENT_RAW_IDX <=? eidx_end)
  then mret SBI_EINVAL
  else pmu_add_hw_event_map eidx_start eidx_end cmap 0 0.

Definition sbi_pmu_add_raw_event_counter_map (sel mask cmap : Z) : M D Z :=
  pmu_add_hw_event_map SBI_PMU_EVENT_RAW_IDX SBI_PMU_EVENT_RAW_V2_IDX cmap sel mask.

(** ** Overflow interrupts *)

Definition sbi_pmu_irq_bit : M D Z :=
  if sbi_hart_has_extension feat SBI_HART_EXT_SSCOFPMF then mret IRQ_PMU_OVF
  else o ← with_dev hw_counter_irq_bit; mret (default (-1) o).

Definition sbi_pmu_irq_mask : M D Z :=
  irq_bit ← sbi_pmu_irq_bit;
  if irq_bit <? 0 then mret 0 else mret (u64 (Z.shiftl 1 irq_bit)).

Definition sbi_pmu_ovf_irq : M D () :=
  m ← sbi_pmu_irq_mask; csr_clear_bits CSR_MIE m;; call_sse InjectPmu.

Definition pmu_ctr_enable_irq_hw (ctr_idx : Z) : M D Z :=
  if (ctr_idx <? 3) || (SBI_PMU_HW_CTR_MAX <=? ctr_idx) then mret SBI_EFAIL
  else
    let mhpmevent_csr := CSR_MHPMEVENT3 + ctr_idx - 3 in
    mhpmevent_curr ← csr_read_by_num mhpmevent_csr;
    mip_val ← csr_read CSR_MIP;
    m ← sbi_pmu_irq_mask;
    if Z.land mip_val m =? 0
    then csr_write_by_num mhpmevent_csr (Z.land mhpmevent_curr (not64 MHPMEVENT_OF));; mret 0
    else mret 0.

(** ** Starting counters *)

Definition pmu_ctr_write_hw (cidx ival : Z) : M D () := csr_write_by_num (CSR_MCYCLE + cidx) ival.

Definition when (b : bool) (m : M D ()) : M D () := if b then m else mret ().

Definition pmu_ctr_start_hw (cidx ival : Z) (ival_update : bool) : M D Z :=
  n ← gets num_hw_ctrs;
  if (n <=? cidx) || (cidx =? 1) then mret SBI_EINVAL
  else if priv_version feat <? SBI_HART_PRIV_VER_1_11 then
    when ival_update (pmu_ctr_write_hw cidx ival);; mret 0
  else
    mctr_inhbt ← csr_read CSR_MCOUNTINHIBIT;
    if negb (Z.testbit mctr_inhbt cidx) then mret SBI_EALREADY_STARTED
    else
      let mctr_inhbt := Z.clearbit mctr_inhbt cidx in
      when (sbi_hart_has_extension feat SBI_HART_EXT_SSCOFPMF) (pmu_ctr_enable_irq_hw cidx;; mret ());;
      when ival_update (pmu_ctr_write_hw cidx ival);;
      dev_do (fun d => f ← hw_counter_enable_irq d; Some (f cidx));;
      csr_write CSR_MCOUNTINHIBIT mctr_inhbt;;
      mret 0.

Definition pmu_ctr_start_fw (cidx event_code event_data ival : Z) (ival_update : bool) : M D Z :=
  p ← this;
  n ← gets num_hw_ctrs;
  let idx := u32 (cidx - n) in
  if fw_reserved event_code then mret SBI_EINVAL
  else if SBI_PMU_FW_PLATFORM =? event_code then
    w ← with_dev fw_counter_write_value;
    st ← with_dev fw_counter_start;
    match w, st with
    | Some write, Some start =>
        when ival_update (d ← gets dstate; put_dstate (write (ph_hartid p) idx ival d));;
        d ← gets dstate;
        let '(ret, d) := start (ph_hartid p) idx event_data d in
        put_dstate d;; mret ret
    | _, _ => mret SBI_EINVAL
    end
  else
    p ← lift (if ival_update then set_fw_data p idx ival else Some p);
    b ← lift (BIT_u32 idx);
    put_phs (set_started p (Z.lor (fw_counters_started p) b));; mret 0.

(** One round of the loop of [sbi_pmu_ctr_start]; [ret] is its variable. *)
Definition start_round (cbase ival : Z) (bUpdate : bool) (i ret : Z) : M D Z :=
  let cidx := u32 (i + cbase) in
  p ← this;
  '(type, event_code) ← pmu_ctr_validate p cidx;
  if type <? 0 then mret ret
  else if type =? SBI_PMU_EVENT_TYPE_FW then
    n ← gets num_hw_ctrs;
    edata ← (if event_code =? SBI_PMU_FW_PLATFORM then lift (rd (fw_counters_data p) (u32 (cidx - n)))
             else mret 0);
    pmu_ctr_start_fw cidx event_code edata ival bUpdate
  else pmu_ctr_start_hw cidx ival bUpdate.

Fixpoint each_bit (body : Z -> Z -> M D Z) (l : list Z) (ret : Z) : M D Z :=
  match l with [] => mret ret | i :: l => ret ← body i ret; each_bit body l ret end.

Definition sbi_pmu_ctr_start (cbase cmask flags ival : Z) : M D Z :=
  ph ← gets phs;
  total ← gets total_ctrs;
  match ph with
  | None => mret SBI_EINVAL
  | Some _ =>
      if total <=? u64 (cbase + sbi_fls cmask) then mret SBI_EINVAL
      else if flag flags STOP_TAKE_SNAPSHOT then mret SBI_ENO_SHMEM
      else
        l ← lift (for_each_set_bit cmask BITS_PER_LONG);
        each_bit (start_round cbase ival (flag flags START_SET_INIT_VALUE)) l SBI_EINVAL
  end.

(** ** Stopping counters *)

Definition pmu_ctr_stop_hw (cidx : Z) : M D Z :=
  if priv_version feat <? SBI_HART_PRIV_VER_1_11 then mret 0
  else
    mctr_inhbt ← csr_read CSR_MCOUNTINHIBIT;
    n ← gets num_hw_ctrs;
    if (n <=? cidx) || (cidx =? 1) then mret SBI_EINVAL
    else if negb (Z.testbit mctr_inhbt cidx) then
      csr_write CSR_MCOUNTINHIBIT (Z.setbit mctr_inhbt cidx);;
      dev_do (fun d => f ← hw_counter_disable_irq d; Some (f cidx));;
      mret 0
    else mret SBI_EALREADY_STOPPED.

Definition pmu_ctr_stop_fw (cidx event_code : Z) : M D Z :=
  p ← this;
  n ← gets num_hw_ctrs;
  let idx := u32 (cidx - n) in
  if fw_reserved event_code then mret SBI_EINVAL
  else
    o ← with_dev fw_counter_stop;
    ret ← match o with
          | Some stop =>
              if SBI_PMU_FW_PLATFORM =? event_code then
                d ← gets dstate;
                let '(ret, d) := stop (ph_hartid p) idx d in put_dstate d;; mret ret
              else mret 0
          | None => mret 0
          end;
    if negb (ret =? 0) then mret ret
    else
      b ← lift (BIT_u32 idx);
      put_phs (set_started p (Z.land (fw_counters_started p) (not64 b)));; mret 0.

Definition pmu_reset_hw_mhpmevent (ctr_idx : Z) : M D Z :=
  if (ctr_idx <? 3) || (SBI_PMU_HW_CTR_MAX <=? ctr_idx) then mret SBI_EFAIL
  else csr_write_by_num (CSR_MHPMEVENT3 + ctr_idx - 3) 0;; mret 0.

Definition stop_round (cbase flags : Z) (i ret : Z) : M D Z :=
  let cidx := u32 (i + cbase) in
  p ← this;
  '(type, event_code) ← pmu_ctr_validate p cidx;
  if type <? 0 then mret ret
  else
    ret ← (if type =? SBI_PMU_EVENT_TYPE_FW then pmu_ctr_stop_fw cidx event_code else pmu_ctr_stop_hw cidx);
    if (2 <? cidx) && flag flags STOP_RESET then
      p ← this;
      p ← lift (set_active p cidx SBI_PMU_EVENT_IDX_INVALID);
      put_phs p;;
      pmu_reset_hw_mhpmevent cidx;;
      mret ret
    else mret ret.

Definition sbi_pmu_ctr_stop (cbase cmask flags : Z) : M D Z :=
  ph ← gets phs;
  total ← gets total_ctrs;
  match ph with
  | None => mret SBI_EINVAL
  | Some _ =>
      if total <=? u64 (cbase + sbi_fls cmask) then mret SBI_EINVAL
      else if flag flags STOP_TAKE_SNAPSHOT then mret SBI_ENO_SHMEM
      else
        l ← lift (for_each_set_bit cmask BITS_PER_LONG);
        ret ← each_bit (stop_round cbase flags) l SBI_EINVAL;
        p ← this;
        when (sse_enabled p) (m ← sbi_pmu_irq_mask; csr_clear_bits CSR_MIP m);;
        mret ret
  end.

(** ** Configuring counters *)

Definition pmu_update_inhibit_flags (flags v : Z) : Z :=
  let v := if flag flags CFG_SET_VUINH then Z.lor v MHPMEVENT_VUINH else v in
  let v := if flag flags CFG_SET_VSINH then Z.lor v MHPMEVENT_VSINH else v in
  let v := if flag flags CFG_SET_UINH then Z.lor v MHPMEVENT_UINH else v in
  if flag flags CFG_SET_SINH then Z.lor v MHPMEVENT_SINH else v.

Definition pmu_update_hw_mhpmevent (ctr_idx flags eindex data : Z) : M D Z :=
  let mhpmevent_val := xlate (u32 eindex) data in
  if (mhpmevent_val =? 0) || (ctr_idx <? 3) || (SBI_PMU_HW_CTR_MAX <=? ctr_idx) then mret SBI_EFAIL
  else
    let sscof := sbi_hart_has_extension feat SBI_HART_EXT_SSCOFPMF in
    let mhpmevent_val :=
      if sscof then Z.lor (Z.lor (Z.land mhpmevent_val (not64 MHPMEVENT_SSCOF_MASK)) MHPMEVENT_MINH) MHPMEVENT_OF
      else mhpmevent_val in
    dev_do (fun d => f ← hw_counter_disable_irq d; Some (f ctr_idx));;
    let mhpmevent_val := if sscof then pmu_update_inhibit_flags flags mhpmevent_val else mhpmevent_val in
    dev_do (fun d => f ← hw_counter_filter_mode d; Some (f flags ctr_idx));;
    csr_write_by_num (CSR_MHPMEVENT3 + ctr_idx - 3) mhpmevent_val;;
    mret 0.

Definition pmu_fixed_ctr_update_inhibit_bits (fixed_ctr flags : Z) : M D Z :=
  let smcntrpmf := sbi_hart_has_extension feat SBI_HART_EXT_SMCNTRPMF in
  filter_mode ← with_dev hw_counter_filter_mode;
  if negb smcntrpmf && match filter_mode with Some _ => false | None => true end then mret fixed_ctr
  else if negb (fixed_ctr =? 0) && negb (fixed_ctr =? 2) then mret SBI_EFAIL
  else
    let cfg_csr_no := if fixed_ctr =? 0 then CSR_MCYCLECFG else CSR_MINSTRETCFG in
    when smcntrpmf (csr_write_by_num cfg_csr_no (pmu_update_inhibit_flags flags MHPMEVENT_MINH));;
    dev_do (fun d => f ← hw_counter_filter_mode d; Some (f flags fixed_ctr));;
    mret fixed_ctr.

Definition pmu_ctr_find_fixed_hw (evt_idx_code : Z) : Z :=
  if evt_idx_code =? SBI_PMU_HW_CPU_CYCLES then 0
  else if evt_idx_code =? SBI_PMU_HW_INSTRUCTIONS then 2
  else SBI_EINVAL.

(** The event is outside the entry's range, or a raw event it does not select. *)
Definition event_skipped e (event_idx data : Z) : bool :=
  ((event_idx <? start_idx e) && (event_idx <? end_idx e)) ||
  ((start_idx e <? event_idx) && (end_idx e <? event_idx)) ||
  (((event_idx =? SBI_PMU_EVENT_RAW_IDX) || (event_idx =? SBI_PMU_EVENT_RAW_V2_IDX)) &&
   negb (select e =? Z.land data (select_mask e))).

Definition ctr_free p (mctr_inhbt i : Z) : M D bool :=
  v ← get_active p i;
  mret ((v =? SBI_PMU_EVENT_IDX_INVALID) &&
        negb ((SBI_HART_PRIV_VER_1_11 <=? priv_version feat) && negb (Z.testbit mctr_inhbt i))).

(** The inner loop: the last free counter. *)
Fixpoint free_loop p (mctr_inhbt : Z) (l : list Z) (ctr_idx : Z) : M D Z :=
  match l with
  | [] => mret ctr_idx
  | i :: l => f ← ctr_free p mctr_inhbt i; free_loop p mctr_inhbt l (if f : bool then i else ctr_idx)
  end.

(** The loop over the table.  The inner loop runs on [cbase] itself, which is at
    the end of the counters afterwards. *)
Fixpoint find_hw_loop p (mctr_inhbt cmask event_idx data : Z) (l : list sbi_pmu_hw_event) (cbase ctr_idx : Z)
    : M D Z :=
  match l with
  | [] => mret ctr_idx
  | e :: l =>
      if event_skipped e event_idx data then find_hw_loop p mctr_inhbt cmask event_idx data l cbase ctr_idx
      else
        let ctr_mask := Z.land (Z.land (counters e) (u64 (Z.shiftl cmask cbase))) (not64 SBI_PMU_FIXED_CTR_MASK) in
        b ← lift (for_each_set_bit_from cbase ctr_mask SBI_PMU_HW_CTR_MAX);
        ctr_idx ← free_loop p mctr_inhbt b ctr_idx;
        find_hw_loop p mctr_inhbt cmask event_idx data l SBI_PMU_HW_CTR_MAX ctr_idx
  end.

Definition pmu_ctr_find_hw (cbase cmask flags event_idx data : Z) : M D Z :=
  p ← this;
  n ← gets num_hw_ctrs;
  if n <=? cbase then mret SBI_EINVAL
  else
    let fixed_ctr := pmu_ctr_find_fixed_hw event_idx in
    if (0 <=? fixed_ctr) && negb (sbi_hart_has_extension feat SBI_HART_EXT_SSCOFPMF)
    then pmu_fixed_ctr_update_inhibit_bits fixed_ctr flags
    else
      mctr_inhbt ← (if SBI_HART_PRIV_VER_1_11 <=? priv_version feat then csr_read CSR_MCOUNTINHIBIT else mret 0);
      l ← gets hw_event_map;
      ctr_idx ← find_hw_loop p mctr_inhbt cmask event_idx data l cbase SBI_ENOTSUPP;
      if ctr_idx =? SBI_ENOTSUPP then
        if 0 <=? fixed_ctr then pmu_fixed_ctr_update_inhibit_bits fixed_ctr flags else mret SBI_EFAIL
      else
        ret ← pmu_update_hw_mhpmevent ctr_idx flags event_idx data;
        mret (if ret =? 0 then ctr_idx else ret).

(** The walk over the bits of the mask: the code tests and returns the number of
    the bit, not of the counter. *)
Fixpoint find_fw_loop p (n total cbase event_code edata : Z) (l : list Z) : M D Z :=
  match l with
  | [] => mret SBI_ENOTSUPP
  | i :: l =>
      let cidx := u32 (i + cbase) in
      if (cidx <? n) || (total <=? cidx) then find_fw_loop p n total cbase event_code edata l
      else
        v ← get_active p i;
        if negb (v =? SBI_PMU_EVENT_IDX_INVALID) then find_fw_loop p n total cbase event_code edata l
        else
          o ← with_dev fw_counter_match_encoding;
          match o with
          | Some matches =>
              if (SBI_PMU_FW_PLATFORM =? event_code) && negb (matches (ph_hartid p) (u32 (cidx - n)) edata)
              then find_fw_loop p n total cbase event_code edata l
              else mret i
          | None => mret i
          end
  end.

Definition pmu_ctr_find_fw (cbase cmask event_code edata : Z) : M D Z :=
  p ← this;
  n ← gets num_hw_ctrs;
  total ← gets total_ctrs;
  l ← lift (for_each_set_bit cmask BITS_PER_LONG);
  find_fw_loop p n total cbase event_code edata l.

Definition modify_phs (f : sbi_pmu_hart_state -> option sbi_pmu_hart_state) : M D () :=
  p ← this; p ← lift (f p); put_phs p.

(** What follows the label [skip_match]. *)
Definition cfg_finish (ctr_idx event_type event_code flags event_data : Z) : M D Z :=
  n ← gets num_hw_ctrs;
  if event_type =? SBI_PMU_EVENT_TYPE_HW then
    when (flag flags CFG_CLEAR_VALUE) (pmu_ctr_write_hw ctr_idx 0);;
    when (flag flags CFG_AUTO_START) (pmu_ctr_start_hw (u32 ctr_idx) 0 false;; mret ());;
    mret ctr_idx
  else if event_type =? SBI_PMU_EVENT_TYPE_FW then
    let idx := u32 (ctr_idx - n) in
    when (flag flags CFG_CLEAR_VALUE) (modify_phs (fun p => set_fw_data p idx 0));;
    if flag flags CFG_AUTO_START then
      o ← with_dev fw_counter_start;
      ret ← match o with
            | Some start =>
                if SBI_PMU_FW_PLATFORM =? event_code then
                  p ← this;
                  d ← gets dstate;
                  let '(ret, d) := start (ph_hartid p) idx event_data d in put_dstate d;; mret ret
                else mret 0
            | None => mret 0
            end;
      if negb (ret =? 0) then mret ret
      else
        modify_phs (fun p => b ← BIT_u32 idx; Some (set_started p (Z.lor (fw_counters_started p) b)));;
        mret ctr_idx
    else mret ctr_idx
  else mret ctr_idx.

(** The counter is an [int]. *)
Definition int_of (z : Z) : Z := signed 32 (u32 z).

Definition sbi_pmu_ctr_cfg_match (cidx_base cidx_mask flags event_idx event_data : Z) : M D Z :=
  ph ← gets phs;
  total ← gets total_ctrs;
  n ← gets num_hw_ctrs;
  match ph with
  | None => mret SBI_EINVAL
  | Some p =>
      if total <=? u64 (cidx_base + sbi_fls cidx_mask) then mret SBI_EINVAL
      else
        event_type ← pmu_event_validate p event_idx event_data;
        if event_type <? 0 then mret SBI_EINVAL
        else
          let event_code := get_cidx_code event_idx in
          if flag flags CFG_SKIP_MATCH then
            let cidx_first := u64 (cidx_base + sbi_ffs cidx_mask) in
            v ← get_active p cidx_first;
            if v =? SBI_PMU_EVENT_IDX_INVALID then mret SBI_EINVAL
            else cfg_finish (int_of cidx_first) event_type event_code flags event_data
          else
            ctr_idx ←
              (if event_type =? SBI_PMU_EVENT_TYPE_FW then
                 ctr_idx ← pmu_ctr_find_fw cidx_base cidx_mask event_code event_data;
                 when (event_code =? SBI_PMU_FW_PLATFORM)
                   (modify_phs (fun p => set_fw_data p (u32 (ctr_idx - n)) event_data));;
                 mret ctr_idx
               else pmu_ctr_find_hw cidx_base cidx_mask flags event_idx event_data);
            if ctr_idx <? 0 then mret SBI_ENOTSUPP
            else
              modify_phs (fun p => set_active p ctr_idx (u32 event_idx));;
              cfg_finish ctr_idx event_type event_code flags event_data
  end.

(** ** Counting firmware events *)

(** The loop over the firmware counters: the first that counts the event. *)
Fixpoint incr_loop p (n : Z) (fw_id : Z) (l : list Z) : M D (option Z) :=
  match l with
  | [] => mret None
  | cidx :: l =>
      v ← get_active p cidx;
      b ← lift (BIT_u32 (u32 (cidx - n)));
      if (get_cidx_code v =? fw_id) && flag (fw_counters_started p) b
      then mret (Some (u32 (cidx - n)))
      else incr_loop p n fw_id l
  end.

Definition sbi_pmu_ctr_incr_fw (fw_id : Z) : M D Z :=
  ph ← gets phs;
  match ph with
  | None => mret 0
  | Some p =>
      if fw_counters_started p =? 0 then mret 0
      else if SBI_PMU_FW_MAX <=? fw_id then mret SBI_EINVAL
      else
        n ← gets num_hw_ctrs;
        total ← gets total_ctrs;
        o ← incr_loop p n fw_id (seqZ n (total - n));
        match o with
        | Some i =>
            v ← lift (rd (fw_counters_data p) i);
            modify_phs (fun p => set_fw_data p i (u64 (v + 1)));; mret 0
        | None => mret 0
        end
  end.

Definition sbi_pmu_num_ctr : M D Z := n ← gets num_hw_ctrs; mret (u32 (n + SBI_PMU_FW_CTR_MAX)).

(** [union sbi_pmu_ctr_info] *)
Definition ctr_info (csr_num width type : Z) : Z :=
  Z.lor (csr_num mod 2 ^ 12) (Z.lor (Z.shiftl (width mod 2 ^ 6) 12) (Z.shiftl type 63)).

Definition sbi_pmu_ctr_get_info (cidx : Z) : M D (Z + Z) :=
  n ← gets num_hw_ctrs;
  total ← gets total_ctrs;
  let counter_mask := Z.lor (mhpm_mask feat) SBI_PMU_CY_IR_MASK in
  if total <=? cidx then mret (inl SBI_EINVAL)
  else if cidx <? n then
    if negb (Z.testbit counter_mask cidx) then mret (inl SBI_EINVAL)
    else mret (inr (ctr_info (0xc00 + cidx)
                      (if (cidx =? 0) || (cidx =? 2) then 63 else mhpm_bits feat - 1) 0))
  else
    o ← with_dev fw_counter_width;
    let width := match o with Some w => if w =? 0 then 63 else w - 1 | None => 63 end in
    mret (inr (ctr_info 0 width 1)).

(** ** Set-up *)

Fixpoint reset_events (l : list Z) (js : list Z) : option (list Z) :=
  match js with [] => Some l | j :: js => l ← wr l j SBI_PMU_EVENT_IDX_INVALID; reset_events l js end.

Definition pmu_reset_event_map : M D () :=
  p ← this;
  total ← gets total_ctrs;
  act ← lift (reset_events (active_events p) (seqZ 3 (total - 3)));
  put_phs (mkPhs (ph_hartid p) act 0 false (replicate 16 0)).

Definition sbi_pmu_set_device (dev : option (sbi_pmu_device D)) (s : pmu D) : pmu D :=
  match dev, pmu_dev s with
  | Some d, None => mkPmu (hw_event_map s) (num_hw_ctrs s) (total_ctrs s) (Some d) (phs_ptr_offset s) (phs s)
                      (csr s) (dstate s) (sse_calls s)
  | _, _ => s
  end.

Definition sbi_pmu_exit : M D () :=
  when (SBI_HART_PRIV_VER_1_11 <=? priv_version feat) (csr_write CSR_MCOUNTINHIBIT 0xfffffff8);;
  when (SBI_HART_PRIV_VER_1_10 <=? priv_version feat) (csr_write CSR_MCOUNTEREN ULONG_MAX);;
  ph ← gets phs;
  match ph with None => mret () | Some _ => pmu_reset_event_map end.

Definition pmu_sse_enable : M D () :=
  m ← sbi_pmu_irq_mask;
  modify_phs (fun p => Some (set_sse_enabled p true));;
  csr_clear_bits CSR_MIDELEG m;; csr_clear_bits CSR_MIP m;; csr_set_bits CSR_MIE m.

Definition pmu_sse_disable : M D () :=
  m ← sbi_pmu_irq_mask;
  csr_clear_bits CSR_MIE m;; csr_clear_bits CSR_MIP m;; csr_set_bits CSR_MIDELEG m;;
  modify_phs (fun p => Some (set_sse_enabled p false)).

Definition pmu_sse_complete : M D () := m ← sbi_pmu_irq_mask; csr_set_bits CSR_MIE m.

(** The globals the cold boot sets. *)
Definition put_globals (n total : Z) (off : bool) : M D () := fun s =>
  Some ((), mkPmu (hw_event_map s) n total (pmu_dev s) off (phs s) (csr s) (dstate s) (sse_calls s)).

Definition num_hw_of (hpm_count : Z) : Z := if hpm_count =? 0 then 3 else hpm_count + 1.

(** The results of the three allocations are arguments, and so is the platform's
    own set-up, which fills the table of events. *)
Definition sbi_pmu_init (cold_boot map_ok offset_ok state_ok : bool) (platform_init : M D ()) (current_hartid : Z)
    : M D Z :=
  let hpm_count := sbi_fls (mhpm_mask feat) in
  rc ←
    (if cold_boot then
       if negb map_ok then mret SBI_ENOMEM : M D Z
       else
         put_map [];;
         if negb offset_ok then mret SBI_ENOMEM
         else
           n0 ← gets num_hw_ctrs;
           total0 ← gets total_ctrs;
           put_globals n0 total0 true;;
           platform_init;;
           let n := num_hw_of hpm_count in
           put_globals n total0 true;;
           if SBI_PMU_HW_CTR_MAX <? n then mret SBI_EINVAL
           else
             put_globals n (n + SBI_PMU_FW_CTR_MAX) true;;
             irq_bit ← sbi_pmu_irq_bit;
             when (0 <=? irq_bit) (call_sse AddPmuEvent);;
             mret 0
     else mret 0);
  if negb (rc =? 0) then mret rc
  else
    ph ← gets phs;
    ok ← match ph with
         | Some _ => mret true
         | None => if state_ok then put_phs (mkPhs current_hartid (replicate 48 0) 0 false (replicate 16 0));; mret true
                   else mret false
         end;
    if negb ok then mret SBI_ENOMEM
    else
      pmu_reset_event_map;;
      modify_phs (fun p => set_active p 0 SBI_PMU_HW_CPU_CYCLES);;
      modify_phs (fun p => set_active p 1 SBI_PMU_EVENT_IDX_INVALID);;
      modify_phs (fun p => set_active p 2 SBI_PMU_HW_INSTRUCTIONS);;
      mret 0.

End Pmu.
