(* ===== verification/SbiPmuSpec.v ===== *)
(** * Correctness of performance monitoring

    The invariant of the counters, which calls of the supervisor keep it without
    leaving an array, that a firmware counter counts its event, that hardware
    counters are given to one event at a time; and the calls that leave the
    arrays. *)

From S2P Require Import Prelude SbiBitops SbiHartmask SbiHart SbiPmu.

Create HintDb pmu discriminated.

(** ** Reasoning about the monad *)

Section Wp.
Context {D : Type}.

(** [m] from [s] is defined and ends with [Q]. *)
Definition wp {A} (m : M D A) (s : pmu D) (Q : A -> pmu D -> Prop) : Prop :=
  match m s with Some (x, s') => Q x s' | None => False end.

Lemma wp_bind {A B} (m : M D A) (k : A -> M D B) s Q :
  wp m s (fun x s' => wp (k x) s' Q) -> wp (m ≫= k) s Q.
Proof. unfold wp, mbind, M_bind. by destruct (m s) as [[x s']|]. Qed.

Lemma wp_ret {A} (x : A) s (Q : A -> pmu D -> Prop) : Q x s -> wp (mret x) s Q.
Proof. done. Qed.

Lemma wp_gets {A} (f : pmu D -> A) s Q : Q (f s) s -> wp (gets f) s Q.
Proof. done. Qed.

Lemma wp_lift {A} (o : option A) x s (Q : A -> pmu D -> Prop) : o = Some x -> Q x s -> wp (lift o) s Q.
Proof. intros ->. done. Qed.

Lemma wp_mono {A} (m : M D A) s (P Q : A -> pmu D -> Prop) :
  wp m s P -> (forall x s', P x s' -> Q x s') -> wp m s Q.
Proof. unfold wp. destruct (m s) as [[x s']|]; auto. Qed.

Lemma wp_run {A} (m : M D A) s Q : wp m s Q <-> exists x s', m s = Some (x, s') /\ Q x s'.
Proof.
  unfold wp. split.
  - destruct (m s) as [[x s']|]; [|done]. eauto.
  - by intros (x & s' & -> & ?).
Qed.

Lemma wp_csr_known n : 0x320 <= n <= 0x33f \/ n = 0xb00 \/ 0xb02 <= n <= 0xb1f -> csr_known n = true.
Proof. intros H. unfold csr_known. zcases; lia || done. Qed.

End Wp.

(** ** Bits of a word *)

Lemma next_bit_word w size b :
  word_ok w -> 0 <= size <= 64 -> 0 <= b ->
  exists k, find_next_bit [w] size b = Some k /\
    (b <= size -> first_in (Z.testbit w) b size k) /\ (size < b -> k = size).
Proof.
  intros Hw Hs Hb. destruct (find_next_bit_spec [w] size b) as (k & E & H1 & H2); [by apply Forall_singleton|lia|lia|cbn; lia|].
  exists k. split_and!; [done| |done]. intros Hle. destruct (H1 Hle) as (Hk & Hno & Hyes).
  assert (forall i, 0 <= i < 64 -> bit_at [w] i = Z.testbit w i) as E'.
  { intros i Hi. rewrite (bit_at_word [w] 0 w) by (done || lia). f_equal. lia. }
  split_and!; [lia..| |].
  - intros j Hj. rewrite <- E' by lia. by apply Hno.
  - intros Hk'. rewrite <- E' by lia. by apply Hyes.
Qed.

(** The bits of [w] in [[b, size)]. *)
Definition word_bits (w b size : Z) : list Z := filter (fun i => Z.testbit w i = true) (seqZ b (size - b)).

Lemma filter_none {A} (P : A -> Prop) `{forall x, Decision (P x)} (l : list A) :
  (forall x, x ∈ l -> ~ P x) -> filter P l = [].
Proof.
  induction l as [|x l IH]; intros Hl; [done|]. rewrite filter_cons, decide_False by (apply Hl; left).
  apply IH. intros y Hy. apply Hl. by right.
Qed.

Lemma word_bits_step w b size k :
  b <= size -> first_in (Z.testbit w) b size k -> k < size ->
  word_bits w b size = k :: word_bits w (k + 1) size.
Proof.
  intros Hb (Hk & Hno & Hyes) Hlt. unfold word_bits.
  replace (size - b) with ((k - b) + (size - k)) by lia. rewrite seqZ_app, filter_app by lia.
  assert (filter (fun i => Z.testbit w i = true) (seqZ b (k - b)) = []) as ->.
  { apply filter_none. intros i Hi. apply elem_of_seqZ in Hi. rewrite Hno by lia. done. }
  replace (b + (k - b)) with k by lia. rewrite seqZ_cons, filter_cons, decide_True by (auto || lia).
  cbn. repeat f_equal; lia.
Qed.

Lemma word_bits_none w b size :
  (forall j, b <= j < size -> Z.testbit w j = false) -> word_bits w b size = [].
Proof.
  intros Hno. apply filter_none. intros i Hi. apply elem_of_seqZ in Hi.
  rewrite Hno by lia. done.
Qed.

Lemma set_bits_loop_spec fuel w size b k :
  word_ok w -> 0 <= size <= 64 -> 0 <= b ->
  (b <= size -> first_in (Z.testbit w) b size k) -> (size < b -> k = size) -> size - b < Z.of_nat fuel ->
  set_bits_loop fuel w size k = Some (word_bits w b size).
Proof.
  intros Hw Hs. revert b k. induction fuel as [|fuel IH]; intros b k Hb H1 H2 Hf.
  - assert (k = size) as -> by (destruct (Z_lt_le_dec size b); [auto|lia]).
    cbn. rewrite Z.ltb_irrefl. rewrite word_bits_none; [done|]. lia.
  - cbn [set_bits_loop]. destruct (Z.ltb_spec k size) as [Hk|Hk].
    + assert (b <= size) as Hbs by (destruct (Z_lt_le_dec size b); [specialize (H2 ltac:(lia)); lia|lia]).
      specialize (H1 Hbs). destruct (next_bit_word w size (k + 1)) as (k' & -> & H1' & H2'); [done..|destruct H1; lia|].
      cbn [mbind option_bind]. destruct H1 as (Hk1 & H1).
      rewrite (IH (k + 1)) by (done || lia). cbn. f_equal. symmetry. apply word_bits_step; [lia| |lia]. by split.
    + f_equal. symmetry. apply word_bits_none. intros j Hj. destruct (Z_lt_le_dec size b); [lia|].
      destruct (H1 ltac:(lia)) as (? & Hno & _). apply Hno. lia.
Qed.

Lemma each_from_spec w size b :
  word_ok w -> 0 <= size <= 64 -> 0 <= b -> for_each_set_bit_from b w size = Some (word_bits w b size).
Proof.
  intros Hw Hs Hb. unfold for_each_set_bit_from.
  destruct (next_bit_word w size b) as (k & -> & H1 & H2); [done..|]. cbn [mbind option_bind].
  apply set_bits_loop_spec; [done..|]. lia.
Qed.

Lemma each_spec w : word_ok w -> for_each_set_bit w BITS_PER_LONG = Some (word_bits w 0 64).
Proof.
  intros Hw. change (for_each_set_bit w BITS_PER_LONG) with (for_each_set_bit_from 0 w 64).
  by apply each_from_spec.
Qed.

Lemma elem_of_word_bits w b size i : i ∈ word_bits w b size <-> b <= i < size /\ Z.testbit w i = true.
Proof. unfold word_bits. rewrite list_elem_of_filter, elem_of_seqZ. intuition lia. Qed.

Lemma word_bits_one c : 0 <= c < 64 -> word_bits (2 ^ c) 0 64 = [c].
Proof.
  intros Hc. rewrite (word_bits_step _ _ _ c); [|lia| |lia].
  - f_equal. apply word_bits_none. intros j Hj. apply Z.pow2_bits_false. lia.
  - split_and!; [lia..| |].
    + intros j Hj. apply Z.pow2_bits_false. lia.
    + intros _. apply Z.pow2_bits_true. lia.
Qed.

(** ** The invariant *)

Section Spec.
Context {D : Type}.
Variables (feat : sbi_hart_features) (xlate : Z -> Z -> Z).

Implicit Types (s : pmu D) (p : sbi_pmu_hart_state).

(** Hardware counters hold hardware events and firmware counters firmware events;
    the place of the time register stays empty. *)
Record phs_ok (n : Z) p : Prop := {
  ok_active : length (active_events p) = 48%nat;
  ok_fw_data : length (fw_counters_data p) = 16%nat;
  ok_started : 0 <= fw_counters_started p < 2 ^ 16;
  ok_time : rd (active_events p) 1 = Some SBI_PMU_EVENT_IDX_INVALID;
  ok_hw : forall i v, rd (active_events p) i = Some v -> i < n -> v <> SBI_PMU_EVENT_IDX_INVALID ->
    get_cidx_type v <> SBI_PMU_EVENT_TYPE_FW;
  ok_fw : forall i v, rd (active_events p) i = Some v -> n <= i < n + 16 -> v <> SBI_PMU_EVENT_IDX_INVALID ->
    get_cidx_type v = SBI_PMU_EVENT_TYPE_FW }.

(** The device's check of an event gives an error or the firmware type. *)
Definition dev_ok (o : option (sbi_pmu_device D)) : Prop :=
  forall d f h e, o = Some d -> fw_event_validate_encoding d = Some f ->
    f h e < 0 \/ f h e = SBI_PMU_EVENT_TYPE_FW.

Record pmu_ok s : Prop := {
  ok_num : 3 <= num_hw_ctrs s <= 32;
  ok_total : total_ctrs s = num_hw_ctrs s + 16;
  ok_map : Forall (fun e => 0 <= counters e < 2 ^ num_hw_ctrs s) (hw_event_map s);
  ok_dev : dev_ok (pmu_dev s);
  ok_phs : forall p, phs s = Some p -> phs_ok (num_hw_ctrs s) p }.

(** The globals stay. *)
Record same_globals s s' : Prop := {
  sg_map : hw_event_map s' = hw_event_map s;
  sg_num : num_hw_ctrs s' = num_hw_ctrs s;
  sg_total : total_ctrs s' = total_ctrs s;
  sg_dev : pmu_dev s' = pmu_dev s }.

(** Only registers and the device have changed. *)
Record keeps s s' : Prop := { kp_globals : same_globals s s'; kp_phs : phs s' = phs s }.

Lemma globals_refl s : same_globals s s.
Proof. by constructor. Qed.

Lemma globals_trans s1 s2 s3 : same_globals s1 s2 -> same_globals s2 s3 -> same_globals s1 s3.
Proof. intros [] []. constructor; congruence. Qed.

Lemma pmu_keeps_refl s : keeps s s.
Proof. by split. Qed.

Lemma pmu_keeps_trans s1 s2 s3 : keeps s1 s2 -> keeps s2 s3 -> keeps s1 s3.
Proof. intros [] []. split; [by eapply globals_trans|congruence]. Qed.

Lemma keeps_ok s s' : keeps s s' -> pmu_ok s -> pmu_ok s'.
Proof. intros [[] ?] []. destruct s, s'. cbn in *. subst. by constructor. Qed.

Lemma put_phs_ok s p : pmu_ok s -> phs_ok (num_hw_ctrs s) p ->
  wp (put_phs p) s (fun _ s' => pmu_ok s' /\ same_globals s s' /\ phs s' = Some p /\ csr s' = csr s).
Proof.
  intros [] Hp. split_and!; [|done..]. constructor; cbn; auto. intros q [= <-]. done.
Qed.

(** ** Operations on registers and the device *)

Lemma csr_write_keeps n v s : wp (csr_write n v) s (fun _ s' => keeps s s' /\ csr s' = upd_csr (csr s) n v).
Proof. split; [|done]. by split. Qed.

Lemma csr_write_num_keeps n v s : csr_known n = true ->
  wp (csr_write_by_num n v) s (fun _ s' => keeps s s' /\ csr s' = upd_csr (csr s) n v).
Proof. intros E. unfold csr_write_by_num. rewrite E. apply csr_write_keeps. Qed.

Lemma dev_do_keeps f s : wp (dev_do f) s (fun _ s' => keeps s s' /\ csr s' = csr s).
Proof.
  unfold dev_do. apply wp_bind, wp_bind, wp_gets, wp_ret. destruct (pmu_dev s ≫= f); [|by split; [apply pmu_keeps_refl|]].
  by split.
Qed.

Lemma when_wp (b : bool) m s (Q : () -> pmu D -> Prop) : (b = true -> wp m s Q) -> (b = false -> Q () s) -> wp (when b m) s Q.
Proof. destruct b; intros H1 H2; [by apply H1|by apply H2]. Qed.

Lemma irq_mask_wp s (Q : Z -> pmu D -> Prop) : (forall m, Q m s) -> wp (sbi_pmu_irq_mask feat) s Q.
Proof.
  intros H. unfold sbi_pmu_irq_mask, sbi_pmu_irq_bit. apply wp_bind.
  destruct (sbi_hart_has_extension _ _); [apply H|].
  apply wp_bind, wp_bind, wp_gets, wp_ret, wp_ret. case_match; apply H.
Qed.

Lemma write_hw_keeps cidx v s : 0 <= cidx < 32 -> cidx <> 1 -> wp (pmu_ctr_write_hw cidx v) s (fun _ s' => keeps s s').
Proof.
  intros H1 H2. eapply wp_mono; [apply csr_write_num_keeps|by intros ?? []]. apply wp_csr_known. unfold CSR_MCYCLE. lia.
Qed.

Lemma enable_irq_keeps cidx s : wp (pmu_ctr_enable_irq_hw feat cidx) s (fun _ s' => keeps s s').
Proof.
  unfold pmu_ctr_enable_irq_hw, SBI_PMU_HW_CTR_MAX. destruct (_ || _) eqn:E; [apply pmu_keeps_refl|]. prop_bool.
  unfold csr_read_by_num. rewrite wp_csr_known by (unfold CSR_MHPMEVENT3; lia).
  do 2 apply wp_bind, wp_gets. apply wp_bind, irq_mask_wp. intros m. destruct (_ =? 0); [|apply pmu_keeps_refl].
  apply wp_bind. eapply wp_mono; [apply csr_write_num_keeps|by intros ?? []].
  apply wp_csr_known. unfold CSR_MHPMEVENT3. lia.
Qed.

Lemma start_hw_keeps cidx ival u s : pmu_ok s -> 0 <= cidx ->
  wp (pmu_ctr_start_hw feat cidx ival u) s (fun _ s' => keeps s s').
Proof.
  intros Hs H0. pose proof (ok_num _ Hs) as Hn. unfold pmu_ctr_start_hw. apply wp_bind, wp_gets.
  destruct (_ || _) eqn:E; [apply pmu_keeps_refl|]. prop_bool.
  assert (forall s', keeps s s' -> wp (when u (pmu_ctr_write_hw cidx ival)) s' (fun _ s'' => keeps s s'')) as W.
  { intros s' Hk. apply when_wp; [|done]. intros _. eapply wp_mono; [apply write_hw_keeps; lia|].
    intros ? s'' ?. by eapply pmu_keeps_trans. }
  destruct (priv_version feat <? _).
  { apply wp_bind. eapply wp_mono; [by apply W, pmu_keeps_refl|]. by intros. }
  apply wp_bind, wp_gets. destruct (negb _); [apply pmu_keeps_refl|].
  apply wp_bind, (wp_mono _ _ (fun _ s' => keeps s s')).
  { apply when_wp; [|intros; apply pmu_keeps_refl]. intros _. apply wp_bind. eapply wp_mono; [apply enable_irq_keeps|]. by intros. }
  intros ? s1 K1. apply wp_bind. eapply wp_mono; [by apply W|]. intros ? s2 K2. apply wp_bind.
  eapply wp_mono; [apply dev_do_keeps|]. intros ? s3 [K3 _]. apply wp_bind.
  eapply wp_mono; [apply csr_write_keeps|]. intros ? s4 [K4 _]. apply (pmu_keeps_trans _ s2); [done|]. by apply (pmu_keeps_trans _ s3).
Qed.

Lemma stop_hw_keeps cidx s : wp (pmu_ctr_stop_hw feat cidx) s (fun _ s' => keeps s s').
Proof.
  unfold pmu_ctr_stop_hw. destruct (priv_version feat <? _); [apply pmu_keeps_refl|].
  do 2 apply wp_bind, wp_gets. destruct (_ || _); [apply pmu_keeps_refl|]. destruct (negb _); [|apply pmu_keeps_refl].
  apply wp_bind. eapply wp_mono; [apply csr_write_keeps|]. intros ? s1 [H1 _]. apply wp_bind.
  eapply wp_mono; [apply dev_do_keeps|]. intros ? s2 [H2 _]. by eapply pmu_keeps_trans.
Qed.

Lemma reset_mhpmevent_keeps cidx s : wp (pmu_reset_hw_mhpmevent cidx) s (fun _ s' => keeps s s').
Proof.
  unfold pmu_reset_hw_mhpmevent, SBI_PMU_HW_CTR_MAX. destruct (_ || _) eqn:E; [apply pmu_keeps_refl|]. prop_bool.
  apply wp_bind. eapply wp_mono; [apply csr_write_num_keeps|by intros ?? []].
  apply wp_csr_known. unfold CSR_MHPMEVENT3. lia.
Qed.

(** ** Changes of the hart's state *)

Lemma wr_Some (l : list Z) i v : 0 <= i < Z.of_nat (length l) -> wr l i v = Some (<[Z.to_nat i := v]> l).
Proof. intros H. unfold wr. zcases; lia || done. Qed.

Lemma rd_update (l : list Z) i v j : 0 <= i < Z.of_nat (length l) ->
  rd (<[Z.to_nat i := v]> l) j = if j =? i then Some v else rd l j.
Proof.
  intros H. unfold rd. destruct (Z.eqb_spec j i) as [->|].
  - destruct (Z.ltb_spec i 0); [lia|]. apply list_lookup_insert_eq. lia.
  - destruct (Z.ltb_spec j 0); [done|]. apply list_lookup_insert_ne. lia.
Qed.

Lemma set_started_ok n p v : phs_ok n p -> 0 <= v < 2 ^ 16 -> phs_ok n (set_started p v).
Proof. intros [] Hv. by constructor. Qed.

Lemma set_fw_data_ok n p i v : phs_ok n p -> 0 <= i < 16 ->
  exists p', set_fw_data p i v = Some p' /\ phs_ok n p' /\ active_events p' = active_events p /\
    fw_counters_started p' = fw_counters_started p /\ fw_counters_data p' = <[Z.to_nat i := v]> (fw_counters_data p) /\
    ph_hartid p' = ph_hartid p.
Proof.
  intros H Hi. pose proof (ok_fw_data _ _ H) as L. unfold set_fw_data. rewrite wr_Some by (rewrite L; lia).
  eexists. split; [done|]. split; [|done]. destruct H. constructor; cbn; auto. by rewrite length_insert.
Qed.

(** The event fits the kind of the counter. *)
Definition fits (n i v : Z) : Prop :=
  v = SBI_PMU_EVENT_IDX_INVALID \/
  (i <> 1 /\ (i < n -> get_cidx_type v <> SBI_PMU_EVENT_TYPE_FW) /\ (n <= i -> get_cidx_type v = SBI_PMU_EVENT_TYPE_FW)).

Lemma set_active_ok n p i v : phs_ok n p -> 0 <= i < 48 -> fits n i v ->
  exists p', set_active p i v = Some p' /\ phs_ok n p' /\ active_events p' = <[Z.to_nat i := v]> (active_events p) /\
    fw_counters_started p' = fw_counters_started p /\ fw_counters_data p' = fw_counters_data p /\
    ph_hartid p' = ph_hartid p.
Proof.
  intros H Hi Hf. pose proof (ok_active _ _ H) as L. unfold set_active. rewrite wr_Some by (rewrite L; lia).
  eexists. split; [done|]. split; [|done].
  destruct H. constructor; cbn [active_events fw_counters_data fw_counters_started]; auto.
  - by rewrite length_insert.
  - rewrite rd_update by (rewrite L; lia). destruct (Z.eqb_spec 1 i); [|done].
    destruct Hf as [->|(? & _)]; [done|lia].
  - intros j w. rewrite rd_update by (rewrite L; lia). destruct (Z.eqb_spec j i) as [->|]; [|by apply ok_hw0].
    intros [= <-] ??. destruct Hf as [->|(? & ? & ?)]; auto.
  - intros j w. rewrite rd_update by (rewrite L; lia). destruct (Z.eqb_spec j i) as [->|]; [|by apply ok_fw0].
    intros [= <-] ??. destruct Hf as [->|(? & ? & ?)]; [done|]. auto with lia.
Qed.

(** The outcome of a call that is safe. *)
Definition safe s s' : Prop := pmu_ok s' /\ same_globals s s' /\ is_Some (phs s').

Lemma keeps_safe s s' : pmu_ok s -> is_Some (phs s) -> keeps s s' -> safe s s'.
Proof. intros Hs Hp Hk. split; [by eapply keeps_ok|]. split; [apply Hk|]. by destruct Hk as [_ ->]. Qed.

Lemma safe_trans s1 s2 s3 : safe s1 s2 -> safe s2 s3 -> safe s1 s3.
Proof. intros (? & ? & ?) (? & ? & ?). split; [done|]. split; [by eapply globals_trans|done]. Qed.

Lemma put_phs_safe s p : pmu_ok s -> phs_ok (num_hw_ctrs s) p -> wp (put_phs p) s (fun _ s' => safe s s').
Proof. intros. eapply wp_mono; [by apply put_phs_ok|]. intros ?? (? & ? & E & _). unfold safe. by rewrite E. Qed.

Lemma this_wp s p (Q : sbi_pmu_hart_state -> pmu D -> Prop) : phs s = Some p -> Q p s -> wp this s Q.
Proof. intros E H. unfold this. apply wp_bind, wp_gets. by rewrite E. Qed.

Lemma ctr_validate_wp p cidx s : pmu_ok s -> phs_ok (num_hw_ctrs s) p -> 0 <= cidx ->
  wp (pmu_ctr_validate p cidx) s (fun r s' => s' = s /\
    (r.1 < 0 \/ cidx < total_ctrs s /\ exists v, rd (active_events p) cidx = Some v /\
       v <> SBI_PMU_EVENT_IDX_INVALID /\ r = (get_cidx_type v, get_cidx_code v))).
Proof.
  intros Hs Hp H0. unfold pmu_ctr_validate. apply wp_bind, wp_gets.
  pose proof (ok_num _ Hs). pose proof (ok_total _ Hs). pose proof (ok_active _ _ Hp) as L.
  destruct (Z.leb_spec (total_ctrs s) cidx); [by split; [|left]|].
  destruct (rd_Some (active_events p) cidx) as [v Ev]; [rewrite L; lia|].
  apply wp_bind, (wp_lift _ v); [done|].
  destruct ((v =? _) || _) eqn:E; [by split; [|left]|]. prop_bool. split; [done|]. right. eauto.
Qed.

Lemma low_bits v k : 0 <= k -> (forall i, k <= i -> Z.testbit v i = false) -> 0 <= v < 2 ^ k.
Proof.
  intros Hk H. assert (v = wrap k v) as ->; [|by apply wrap_range].
  zbits_eq i. destruct (Z.ltb_spec i k); [done|]. by rewrite H.
Qed.

Lemma low_or i v k : 0 <= v < 2 ^ k -> 0 <= i < k -> 0 <= Z.lor v (Z.shiftl 1 i) < 2 ^ k.
Proof.
  intros Hv Hi. apply low_bits; [lia|]. intros j Hj. rewrite Z.lor_spec, bit1_bits by lia.
  rewrite (bits_above k) by lia. by apply Z.eqb_neq; lia.
Qed.

Lemma low_and v m k : 0 <= k -> 0 <= v < 2 ^ k -> 0 <= Z.land v m < 2 ^ k.
Proof. intros Hk Hv. apply low_bits; [done|]. intros j Hj. by rewrite Z.land_spec, (bits_above k v) by lia. Qed.

(** ** Starting and stopping *)

Lemma put_dstate_keeps d s : wp (put_dstate d) s (fun _ s' => keeps s s').
Proof. by split. Qed.

Lemma with_dev_wp {A} (f : sbi_pmu_device D -> option A) s (Q : option A -> pmu D -> Prop) :
  Q (pmu_dev s ≫= f) s -> wp (with_dev f) s Q.
Proof. done. Qed.

Lemma BIT_u32_ok i : 0 <= i < 16 -> BIT_u32 i = Some (Z.shiftl 1 i).
Proof. intros H. unfold BIT_u32, BITS_PER_LONG. by destruct (Z.ltb_spec i 64); [|lia]. Qed.

Lemma fw_index s cidx : pmu_ok s -> num_hw_ctrs s <= cidx < total_ctrs s ->
  u32 (cidx - num_hw_ctrs s) = cidx - num_hw_ctrs s /\ 0 <= cidx - num_hw_ctrs s < 16.
Proof. intros [] H. rewrite wrap_small; lia. Qed.

Lemma start_fw_safe cidx code data ival u s p :
  pmu_ok s -> phs s = Some p -> num_hw_ctrs s <= cidx < total_ctrs s ->
  wp (pmu_ctr_start_fw cidx code data ival u) s (fun _ s' => safe s s').
Proof.
  intros Hs Ep Hc. pose proof (ok_phs _ Hs p Ep) as Hp. destruct (fw_index s cidx Hs Hc) as [Ei Hi].
  assert (forall s', keeps s s' -> safe s s') as K by (intros; by apply keeps_safe).
  unfold pmu_ctr_start_fw. apply wp_bind, (this_wp _ p); [done|]. apply wp_bind, wp_gets. rewrite Ei.
  destruct (fw_reserved code); [by apply K|]. destruct (_ =? code).
  - do 2 apply wp_bind, with_dev_wp. destruct (_ ≫= fw_counter_write_value) as [wv|]; [|by apply K].
    destruct (_ ≫= fw_counter_start) as [st|]; [|by apply K]. apply wp_bind.
    apply when_wp; intros _; [apply wp_bind, wp_gets|]; apply wp_bind, wp_gets; destruct (st _ _ _ _); apply K; by split.
  - apply wp_bind.
    assert (exists q, (if u then set_fw_data p (cidx - num_hw_ctrs s) ival else Some p) = Some q /\
      phs_ok (num_hw_ctrs s) q) as (q & Eq & Hq).
    { destruct u; [|by eauto]. destruct (set_fw_data_ok _ p (cidx - num_hw_ctrs s) ival Hp Hi) as (q & ? & ? & _). eauto. }
    apply (wp_lift _ q); [done|]. apply wp_bind, (wp_lift _ (Z.shiftl 1 (cidx - num_hw_ctrs s))).
    { by apply BIT_u32_ok. }
    apply wp_bind. eapply wp_mono; [apply put_phs_safe; [done|]|by intros].
    apply set_started_ok; [done|]. apply low_or; [apply Hq|lia].
Qed.

(** The type of a valid counter's event tells which kind it is. *)
Lemma counter_kind s p cidx v :
  pmu_ok s -> phs_ok (num_hw_ctrs s) p -> 0 <= cidx < total_ctrs s -> rd (active_events p) cidx = Some v ->
  v <> SBI_PMU_EVENT_IDX_INVALID ->
  if get_cidx_type v =? SBI_PMU_EVENT_TYPE_FW then num_hw_ctrs s <= cidx < total_ctrs s
  else cidx < num_hw_ctrs s.
Proof.
  intros Hs Hp Hc Ev Hv. pose proof (ok_total _ Hs). destruct (Z.eqb_spec (get_cidx_type v) SBI_PMU_EVENT_TYPE_FW) as [E|E].
  - destruct (Z_lt_le_dec cidx (num_hw_ctrs s)) as [Hl|]; [|lia]. by destruct (ok_hw _ _ Hp _ _ Ev Hl Hv).
  - destruct (Z_lt_le_dec cidx (num_hw_ctrs s)) as [Hl|]; [done|]. destruct E. by apply (ok_fw _ _ Hp _ _ Ev); [lia|].
Qed.

Lemma start_round_safe cbase ival u i r s : pmu_ok s -> is_Some (phs s) ->
  wp (start_round feat cbase ival u i r) s (fun _ s' => safe s s').
Proof.
  intros Hs [p Ep]. pose proof (ok_phs _ Hs p Ep) as Hp. unfold start_round.
  pose proof (wrap_range 32 (i + cbase) ltac:(lia)) as Hc.
  apply wp_bind, (this_wp _ p); [done|]. apply wp_bind.
  eapply wp_mono; [by apply (ctr_validate_wp p); [done..|lia]|]. intros [ty code] s1 [-> H]. cbn [fst] in H.
  destruct (Z.ltb_spec ty 0); [by apply keeps_safe; [| |apply pmu_keeps_refl]|].
  destruct H as [|(Ht & v & Ev & Hv & [= -> ->])]; [lia|].
  pose proof (counter_kind s p (u32 (i + cbase)) v Hs Hp ltac:(lia) Ev Hv) as Kd.
  destruct (get_cidx_type v =? SBI_PMU_EVENT_TYPE_FW).
  - apply wp_bind, wp_gets. destruct (fw_index s _ Hs Kd) as [Ei Hi]. rewrite Ei.
    apply wp_bind, (wp_mono _ _ (fun _ s' => s' = s)).
    + destruct (_ =? SBI_PMU_FW_PLATFORM); [|done]. pose proof (ok_fw_data _ _ Hp) as L.
      destruct (rd_Some (fw_counters_data p) (u32 (i + cbase) - num_hw_ctrs s)) as [w Ew]; [rewrite L; lia|].
      by rewrite Ew.
    + intros ed s2 ->. by eapply start_fw_safe.
  - eapply wp_mono; [by apply start_hw_keeps; [|lia]|]. intros ???. by apply keeps_safe.
Qed.

Lemma each_bit_safe body l r s :
  (forall i r s, pmu_ok s -> is_Some (phs s) -> wp (body i r) s (fun _ s' => safe s s')) ->
  pmu_ok s -> is_Some (phs s) -> wp (each_bit (D := D) body l r) s (fun _ s' => safe s s').
Proof.
  intros Hb. revert r s. induction l as [|i l IH]; intros r s Hs Hp; [by apply keeps_safe; [| |apply pmu_keeps_refl]|].
  cbn [each_bit]. apply wp_bind. eapply wp_mono; [by apply Hb|]. intros r1 s1 S1. pose proof S1 as (? & ? & ?).
  eapply wp_mono; [by apply IH|]. intros ???. by eapply safe_trans.
Qed.

Lemma start_safe cbase cmask flags ival s : pmu_ok s -> word_ok cmask -> 
  wp (sbi_pmu_ctr_start feat cbase cmask flags ival) s (fun _ s' => pmu_ok s' /\ same_globals s s').
Proof.
  intros Hs Hm. unfold sbi_pmu_ctr_start. do 2 apply wp_bind, wp_gets.
  destruct (phs s) as [p|] eqn:Ep; [|by split; [|apply globals_refl]].
  destruct (_ <=? _); [by split; [|apply globals_refl]|]. destruct (flag _ _); [by split; [|apply globals_refl]|].
  apply wp_bind, (wp_lift _ _ _ _ (each_spec cmask Hm)).
  eapply wp_mono; [apply each_bit_safe; [|done|by rewrite Ep]|by intros ?? (? & ? & _)].
  intros. by apply start_round_safe.
Qed.

Lemma stop_fw_safe cidx code s : pmu_ok s -> is_Some (phs s) -> num_hw_ctrs s <= cidx < total_ctrs s ->
  wp (pmu_ctr_stop_fw cidx code) s (fun _ s' => safe s s').
Proof.
  intros Hs Hp0 Hc. pose proof Hp0 as [p Ep]. pose proof (ok_phs _ Hs p Ep) as Hp. destruct (fw_index s cidx Hs Hc) as [Ei Hi].
  assert (forall s', keeps s s' -> safe s s') as K by (intros; by apply keeps_safe).
  unfold pmu_ctr_stop_fw. apply wp_bind, (this_wp _ p); [done|]. apply wp_bind, wp_gets. rewrite Ei.
  destruct (fw_reserved code); [by apply K|]. apply wp_bind, with_dev_wp.
  apply wp_bind, (wp_mono _ _ (fun _ s' => keeps s s')).
  { destruct (_ ≫= _) as [stop|]; [|apply pmu_keeps_refl]. destruct (_ =? code); [|apply pmu_keeps_refl].
    apply wp_bind, wp_gets. destruct (stop _ _ _). by split. }
  intros r s1 Hk. destruct (negb _); [by apply K|]. pose proof (keeps_ok _ _ Hk Hs) as Hs1.
  apply wp_bind, (wp_lift _ (Z.shiftl 1 (cidx - num_hw_ctrs s))); [by apply BIT_u32_ok|]. apply wp_bind.
  eapply wp_mono; [apply put_phs_safe; [done|]|].
  - rewrite (sg_num _ _ (kp_globals _ _ Hk)). apply set_started_ok; [done|]. apply low_and; [lia|]. apply Hp.
  - intros ? s2 S2. eapply safe_trans; [by apply K|done].
Qed.

Lemma stop_round_safe cbase flags i r s : pmu_ok s -> is_Some (phs s) ->
  wp (stop_round feat cbase flags i r) s (fun _ s' => safe s s').
Proof.
  intros Hs Hp0. pose proof Hp0 as [p Ep]. pose proof (ok_phs _ Hs p Ep) as Hp. unfold stop_round.
  pose proof (wrap_range 32 (i + cbase) ltac:(lia)) as Hc. set (cidx := u32 (i + cbase)) in *.
  apply wp_bind, (this_wp _ p); [done|]. apply wp_bind.
  eapply wp_mono; [by apply (ctr_validate_wp p); [done..|lia]|]. intros [ty code] s1 [-> H]. cbn [fst] in H.
  destruct (Z.ltb_spec ty 0); [by apply keeps_safe; [| |apply pmu_keeps_refl]|].
  destruct H as [|(Ht & v & Ev & Hv & [= -> ->])]; [lia|].
  pose proof (counter_kind s p cidx v Hs Hp ltac:(lia) Ev Hv) as Kd. pose proof (ok_num _ Hs). pose proof (ok_total _ Hs).
  apply wp_bind, (wp_mono _ _ (fun _ s' => safe s s')).
  { destruct (_ =? _); [by apply stop_fw_safe|]. eapply wp_mono; [apply stop_hw_keeps|]. intros ???. by apply keeps_safe. }
  intros r1 s1 S1. destruct ((2 <? cidx) && _) eqn:E; [|done]. prop_bool. pose proof S1 as (Hs1 & G1 & [p1 E1]).
  apply wp_bind, (this_wp _ p1); [done|]. pose proof (ok_phs _ Hs1 _ E1) as Hp1.
  destruct (set_active_ok _ p1 cidx SBI_PMU_EVENT_IDX_INVALID Hp1) as (p2 & E2 & Hp2 & _); [lia|by left|].
  apply wp_bind, (wp_lift _ p2); [done|]. apply wp_bind. eapply wp_mono; [by apply put_phs_safe|].
  intros ? s2 S2. apply wp_bind. eapply wp_mono; [apply reset_mhpmevent_keeps|]. intros ? s3 K3.
  apply (safe_trans _ s1); [done|]. apply (safe_trans _ s2); [done|]. apply keeps_safe; [apply S2|apply S2|done].
Qed.

Lemma stop_safe cbase cmask flags s : pmu_ok s -> word_ok cmask ->
  wp (sbi_pmu_ctr_stop feat cbase cmask flags) s (fun _ s' => pmu_ok s' /\ same_globals s s').
Proof.
  intros Hs Hm. unfold sbi_pmu_ctr_stop. do 2 apply wp_bind, wp_gets.
  destruct (phs s) as [p|] eqn:Ep; [|by split; [|apply globals_refl]].
  destruct (_ <=? _); [by split; [|apply globals_refl]|]. destruct (flag _ _); [by split; [|apply globals_refl]|].
  apply wp_bind, (wp_lift _ _ _ _ (each_spec cmask Hm)). apply wp_bind.
  eapply wp_mono; [apply each_bit_safe; [|done|by rewrite Ep]|]. { intros. by apply stop_round_safe. }
  intros r s1 (Hs1 & G1 & [p1 E1]). apply wp_bind, (this_wp _ p1); [done|]. apply wp_bind.
  apply when_wp; intros _; [|by split]. apply wp_bind, irq_mask_wp. intros m. apply wp_bind, wp_gets.
  eapply wp_mono; [apply csr_write_keeps|]. intros ? s2 [K2 _].
  split; [by eapply keeps_ok|]. eapply globals_trans; [done|apply K2].
Qed.

(** ** Finding a counter *)

(** What makes [c] a counter for the event: an entry of the table that covers the
    event allows it, it is asked for, programmable, without event and stopped. *)
Definition chosen (l : list sbi_pmu_hw_event) p (inh cbase cmask event data c : Z) : Prop :=
  exists e, e ∈ l /\ event_skipped e event data = false /\ Z.testbit (counters e) c = true /\
    Z.testbit (u64 (Z.shiftl cmask cbase)) c = true /\ 3 <= c < 32 /\ cbase <= c /\
    rd (active_events p) c = Some SBI_PMU_EVENT_IDX_INVALID /\
    (SBI_HART_PRIV_VER_1_11 <= priv_version feat -> Z.testbit inh c = true).

Lemma free_loop_wp p inh l ci s : length (active_events p) = 48%nat -> Forall (fun i => 0 <= i < 48) l ->
  wp (free_loop feat p inh l ci) s (fun c s' => s' = s /\ (c = ci \/ c ∈ l /\
    rd (active_events p) c = Some SBI_PMU_EVENT_IDX_INVALID /\
    (SBI_HART_PRIV_VER_1_11 <= priv_version feat -> Z.testbit inh c = true))).
Proof.
  intros L H. revert ci. induction H as [|i l Hi Hl IH]; intros ci; [by split; [|left]|].
  cbn [free_loop]. destruct (rd_Some (active_events p) i) as [v Ev]; [rewrite L; lia|].
  apply wp_bind, wp_bind, (wp_lift _ v); [done|]. apply wp_ret.
  eapply wp_mono; [apply IH|]. intros c s' [-> [->|(Hc & Hr)]]; (split; [done|]); [|right; by split; [right|]].
  destruct (_ && _) eqn:E; [|by left]. right. split; [left|]. prop_bool. subst v. split; [done|].
  intros Hv. apply Z.leb_le in Hv. rewrite Hv in H0. by destruct (Z.testbit inh i).
Qed.

Lemma find_hw_loop_wp p inh cmask ev data l cb ci s :
  length (active_events p) = 48%nat -> Forall (fun e => 0 <= counters e) l -> 0 <= cb <= 32 ->
  wp (find_hw_loop feat p inh cmask ev data l cb ci) s (fun c s' => s' = s /\ (c = ci \/ chosen l p inh cb cmask ev data c)).
Proof.
  intros L Hl. revert cb ci. induction Hl as [|e l He Hl IH]; intros cb ci Hcb; [by split; [|left]|].
  cbn [find_hw_loop]. destruct (event_skipped e ev data) eqn:Es.
  { eapply wp_mono; [by apply IH|]. intros c s' [-> [->|(e' & H & H')]]; (split; [done|]); [by left|right].
    exists e'. by split; [right|]. }
  set (m := Z.land _ _). assert (word_ok m) as Hm.
  { unfold m. rewrite <- Z.land_assoc, Z.land_comm. apply land_ok; [|done]. apply land_ok; [by apply wrap_range|].
    by apply not64_ok. }
  apply wp_bind, (wp_lift _ _ _ _ (each_from_spec m SBI_PMU_HW_CTR_MAX cb Hm ltac:(unfold SBI_PMU_HW_CTR_MAX; lia) ltac:(lia))).
  apply wp_bind. eapply wp_mono; [apply free_loop_wp; [done|]|].
  { apply Forall_forall. intros i Hi. apply elem_of_word_bits in Hi. unfold SBI_PMU_HW_CTR_MAX in Hi. lia. }
  intros c s' [-> Hc]. eapply wp_mono; [apply IH; unfold SBI_PMU_HW_CTR_MAX; lia|].
  intros c' s' [-> [->|(e' & _ & _ & _ & _ & ? & ? & _)]]; [|unfold SBI_PMU_HW_CTR_MAX in *; lia].
  split; [done|]. destruct Hc as [->|(Hin & Ha & Hi)]; [by left|]. right. exists e.
  apply elem_of_word_bits in Hin as [Hr Hb]. unfold SBI_PMU_HW_CTR_MAX in Hr.
  unfold m in Hb. rewrite !Z.land_spec in Hb.
  apply andb_true_iff in Hb as [[Hb1 Hb2]%andb_true_iff Hb3].
  assert (3 <= c); [|split_and!; done || lia || by left].
  destruct (Z_lt_le_dec c 3); [|done]. assert (c = 0 \/ c = 1 \/ c = 2) as [->|[->| ->]] by lia; done.
Qed.

(** The value programmed into the event register. *)
Definition event_value (flags event data : Z) : Z :=
  let v := xlate (u32 event) data in
  if sbi_hart_has_extension feat SBI_HART_EXT_SSCOFPMF
  then pmu_update_inhibit_flags flags (Z.lor (Z.lor (Z.land v (not64 MHPMEVENT_SSCOF_MASK)) MHPMEVENT_MINH) MHPMEVENT_OF)
  else v.

Lemma update_mhpmevent_wp c flags ev data s :
  wp (pmu_update_hw_mhpmevent feat xlate c flags ev data) s (fun r s' => keeps s s' /\
    (r < 0 \/ r = 0 /\ xlate (u32 ev) data <> 0 /\
       csr s' = upd_csr (csr s) (CSR_MHPMEVENT3 + c - 3) (event_value flags ev data))).
Proof.
  unfold pmu_update_hw_mhpmevent, SBI_PMU_HW_CTR_MAX. destruct (_ || _) eqn:E.
  { split; [apply pmu_keeps_refl|]. by left. }
  prop_bool. apply wp_bind. eapply wp_mono; [apply dev_do_keeps|]. intros ? s1 [K1 C1].
  apply wp_bind. eapply wp_mono; [apply dev_do_keeps|]. intros ? s2 [K2 C2].
  apply wp_bind. eapply wp_mono; [apply csr_write_num_keeps, wp_csr_known; unfold CSR_MHPMEVENT3; lia|].
  intros ? s3 [K3 C3]. split; [apply (pmu_keeps_trans _ s1); [done|]; by apply (pmu_keeps_trans _ s2)|]. right.
  split_and!; [done..|]. rewrite C3, C2, C1. unfold event_value. by destruct (sbi_hart_has_extension _ _).
Qed.

Lemma fixed_wp c flags s : c = 0 \/ c = 2 ->
  wp (pmu_fixed_ctr_update_inhibit_bits feat c flags) s (fun r s' => r = c /\ keeps s s').
Proof.
  intros Hc. unfold pmu_fixed_ctr_update_inhibit_bits. apply wp_bind, with_dev_wp.
  destruct (_ && _); [by split; [|apply pmu_keeps_refl]|]. replace (negb (c =? 0) && negb (c =? 2)) with false
    by (destruct Hc as [-> | ->]; done).
  apply wp_bind, (wp_mono _ _ (fun _ s' => keeps s s')).
  { apply when_wp; [|intros; apply pmu_keeps_refl]. intros _. eapply wp_mono; [apply csr_write_num_keeps|by intros ?? []].
    by destruct (c =? 0). }
  intros ? s1 K1. apply wp_bind. eapply wp_mono; [apply dev_do_keeps|]. intros ? s2 [K2 _].
  split; [done|]. by apply (pmu_keeps_trans _ s1).
Qed.

Lemma fixed_range ev : pmu_ctr_find_fixed_hw ev < 0 \/ pmu_ctr_find_fixed_hw ev = 0 \/ pmu_ctr_find_fixed_hw ev = 2.
Proof. unfold pmu_ctr_find_fixed_hw, SBI_EINVAL. zcases; lia. Qed.

Lemma find_hw_wp cb cmask flags ev data s p : pmu_ok s -> phs s = Some p -> 0 <= cb ->
  wp (pmu_ctr_find_hw feat xlate cb cmask flags ev data) s (fun c s' => keeps s s' /\
    (c < 0 \/ (c = 0 \/ c = 2) /\ pmu_ctr_find_fixed_hw ev = c \/
     chosen (hw_event_map s) p (csr s CSR_MCOUNTINHIBIT) cb cmask ev data c /\ c < num_hw_ctrs s /\
     csr s' = upd_csr (csr s) (CSR_MHPMEVENT3 + c - 3) (event_value flags ev data))).
Proof.
  intros Hs Ep H0. pose proof (ok_phs _ Hs p Ep) as Hp. pose proof (ok_num _ Hs) as Hn.
  unfold pmu_ctr_find_hw. apply wp_bind, (this_wp _ p); [done|]. apply wp_bind, wp_gets.
  destruct (Z.leb_spec (num_hw_ctrs s) cb); [by split; [apply pmu_keeps_refl|left]|].
  assert (0 <= pmu_ctr_find_fixed_hw ev -> wp (pmu_fixed_ctr_update_inhibit_bits feat (pmu_ctr_find_fixed_hw ev) flags) s
    (fun c s' => keeps s s' /\ (c = 0 \/ c = 2) /\ pmu_ctr_find_fixed_hw ev = c)) as Fx.
  { intros Hf. destruct (fixed_range ev) as [|Hc]; [lia|]. eapply wp_mono; [by apply fixed_wp|].
    intros r s' [-> K]. done. }
  destruct ((0 <=? _) && _) eqn:E.
  { prop_bool. eapply wp_mono; [by apply Fx|]. intros c s' (? & ? & ?). auto. }
  apply wp_bind, (wp_mono _ _ (fun i s' => s' = s /\ (SBI_HART_PRIV_VER_1_11 <= priv_version feat ->
    i = csr s CSR_MCOUNTINHIBIT))).
  { destruct (Z.leb_spec SBI_HART_PRIV_VER_1_11 (priv_version feat)) as [|Hlt].
    - split; [reflexivity|intros _; reflexivity].
    - split; [reflexivity|intros Hge; exfalso; exact (Zlt_not_le _ _ Hlt Hge)]. }
  intros inh s' [-> Hi]. apply wp_bind, wp_gets, wp_bind.
  eapply wp_mono; [apply find_hw_loop_wp; [apply Hp| |lia]|].
  { eapply Forall_impl; [apply (ok_map _ Hs)|]. cbn. lia. }
  intros c s' [-> Hc]. destruct (Z.eqb_spec c SBI_ENOTSUPP).
  { destruct (Z.leb_spec 0 (pmu_ctr_find_fixed_hw ev)); [|by split; [apply pmu_keeps_refl|left]].
    eapply wp_mono; [by apply Fx|]. intros ?? (? & ? & ?). auto. }
  destruct Hc as [Hc|(e & He & Hx & Hb & Hr)]; [contradiction|]. apply wp_bind.
  eapply wp_mono; [apply update_mhpmevent_wp|]. intros r s1 [K1 [Hneg|(-> & _ & C1)]].
  { split; [done|]. left. destruct (Z.eqb_spec r 0); lia. }
  split; [done|]. right. right. cbn [Z.eqb]. destruct Hr as (Hb2 & Hr & Hcb & Ha & Hv).
  split; [|split; [|done]].
  - exists e. refine (conj He (conj Hx (conj Hb (conj Hb2 (conj Hr (conj Hcb (conj Ha _))))))).
    intros Hpv. rewrite <- Hi by exact Hpv. exact (Hv Hpv).
  - destruct (Z_lt_le_dec c (num_hw_ctrs s)); [done|].
    pose proof (proj1 (Forall_forall _ _) (ok_map _ Hs) e He) as Hcnt. cbn in Hcnt.
    rewrite (bits_above (num_hw_ctrs s)) in Hb by lia. done.
Qed.

(** The check of an event gives an error or the type in its index. *)
Lemma event_validate_wp p ev edata s : pmu_ok s ->
  wp (pmu_event_validate p ev edata) s (fun ty s' => s' = s /\ (ty < 0 \/ ty = get_cidx_type ev)).
Proof.
  intros Hs. unfold pmu_event_validate.
  assert (forall b : bool, (if b then get_cidx_type ev else SBI_EINVAL) < 0 \/
    (if b then get_cidx_type ev else SBI_EINVAL) = get_cidx_type ev) as B.
  { intros []; [by right|by left]. }
  destruct (_ =? SBI_PMU_EVENT_TYPE_HW); [split; [done|apply B]|].
  destruct (Z.eqb_spec (get_cidx_type ev) SBI_PMU_EVENT_TYPE_FW) as [Ef|_].
  { destruct (fw_reserved _); [by split; [|left]|]. apply wp_bind, with_dev_wp.
    destruct (pmu_dev s) as [d|] eqn:Ed; cbn [mbind option_bind]; [|split; [done|apply B]].
    destruct (fw_event_validate_encoding d) as [f|] eqn:Ev; [|split; [done|apply B]].
    destruct (_ =? get_cidx_code ev); [|split; [done|apply B]]. split; [done|].
    rewrite Ef. exact (ok_dev _ Hs d f _ _ Ed Ev). }
  destruct (_ =? SBI_PMU_EVENT_TYPE_HW_CACHE); [split; [done|apply B]|].
  destruct (_ || _); [split; [done|apply B]|by split; [|left]].
Qed.

Lemma find_fw_loop_wp p n total code edata l s :
  length (active_events p) = 48%nat -> Forall (fun i => 0 <= i < 64) l -> total <= 48 ->
  wp (find_fw_loop p n total 0 code edata l) s (fun c s' => s' = s /\
    (c = SBI_ENOTSUPP \/ n <= c < total /\ c ∈ l /\ rd (active_events p) c = Some SBI_PMU_EVENT_IDX_INVALID)).
Proof.
  intros L Hl Ht. induction Hl as [|i l Hi Hl IH]; [by split; [|left]|].
  assert (wp (find_fw_loop p n total 0 code edata l) s (fun c s' => s' = s /\ (c = SBI_ENOTSUPP \/
    n <= c < total /\ c ∈ i :: l /\ rd (active_events p) c = Some SBI_PMU_EVENT_IDX_INVALID))) as IH'.
  { eapply wp_mono; [apply IH|]. intros c s' [-> [->|(? & ? & ?)]]; (split; [done|]); [by left|right].
    split; [done|]. split; [by right|done]. }
  cbn [find_fw_loop]. rewrite Z.add_0_r, (wrap_small 32 i) by lia. destruct ((i <? n) || _) eqn:E; [done|]. prop_bool.
  destruct (rd_Some (active_events p) i) as [v Ev]; [rewrite L; lia|].
  apply wp_bind, (wp_lift _ v); [done|]. destruct (negb (v =? _)) eqn:Evi; [done|]. prop_bool. subst v.
  assert (n <= i < total /\ i ∈ i :: l /\ rd (active_events p) i = Some SBI_PMU_EVENT_IDX_INVALID) as Hg.
  { split_and!; [lia|lia|left|done]. }
  apply wp_bind, with_dev_wp. destruct (_ ≫= _) as [mt|]; [|by split; [|right]].
  destruct (_ && _); [done|]. by split; [|right].
Qed.

Lemma find_fw_wp cmask code edata s p : pmu_ok s -> phs s = Some p -> word_ok cmask ->
  wp (pmu_ctr_find_fw 0 cmask code edata) s (fun c s' => s' = s /\
    (c = SBI_ENOTSUPP \/ num_hw_ctrs s <= c < total_ctrs s /\ Z.testbit cmask c = true /\
       rd (active_events p) c = Some SBI_PMU_EVENT_IDX_INVALID)).
Proof.
  intros Hs Ep Hm. pose proof (ok_num _ Hs). pose proof (ok_total _ Hs).
  unfold pmu_ctr_find_fw. apply wp_bind, (this_wp _ p); [done|]. do 2 apply wp_bind, wp_gets.
  apply wp_bind, (wp_lift _ _ _ _ (each_spec cmask Hm)).
  eapply wp_mono; [apply find_fw_loop_wp; [apply (ok_phs _ Hs p Ep)| |lia]|].
  - apply Forall_forall. intros i Hi. apply elem_of_word_bits in Hi. lia.
  - intros c s' [-> [->|(? & Hc & ?)]]; (split; [done|]); [by left|right]. apply elem_of_word_bits in Hc. tauto.
Qed.

Lemma modify_phs_safe f s p q : pmu_ok s -> phs s = Some p -> f p = Some q -> phs_ok (num_hw_ctrs s) q ->
  wp (modify_phs f) s (fun _ s' => safe s s' /\ phs s' = Some q /\ csr s' = csr s).
Proof.
  intros Hs Ep Ef Hq. unfold modify_phs. apply wp_bind, (this_wp _ p); [done|]. apply wp_bind, (wp_lift _ q); [done|].
  eapply wp_mono; [by apply put_phs_ok|]. intros ? s' (? & ? & E & ?). unfold safe. by rewrite E.
Qed.

(** The counter fits the type of the event. *)
Definition ctr_fits s (c ty : Z) : Prop :=
  (ty = SBI_PMU_EVENT_TYPE_HW -> 0 <= c < num_hw_ctrs s /\ c <> 1) /\
  (ty = SBI_PMU_EVENT_TYPE_FW -> num_hw_ctrs s <= c < total_ctrs s).

Lemma cfg_finish_safe c ty code flags data s : pmu_ok s -> is_Some (phs s) -> ctr_fits s c ty ->
  wp (cfg_finish feat c ty code flags data) s (fun _ s' => safe s s').
Proof.
  intros Hs Hp0 [F1 F2]. pose proof (ok_num _ Hs).
  assert (forall s', keeps s s' -> safe s s') as K by (intros; by apply keeps_safe).
  unfold cfg_finish. apply wp_bind, wp_gets. destruct (Z.eqb_spec ty SBI_PMU_EVENT_TYPE_HW) as [E|_].
  - destruct (F1 E) as [Hc1 Hc2]. apply wp_bind, (wp_mono _ _ (fun _ s' => keeps s s')).
    { apply when_wp; [|intros; apply pmu_keeps_refl]. intros _. apply write_hw_keeps; lia. }
    intros ? s1 K1. apply wp_bind, when_wp; intros _; [|by apply K]. rewrite wrap_small by lia. apply wp_bind.
    eapply wp_mono; [apply start_hw_keeps; [by eapply keeps_ok|lia]|]. intros ? s2 K2. apply K. by apply (pmu_keeps_trans _ s1).
  - destruct (Z.eqb_spec ty SBI_PMU_EVENT_TYPE_FW) as [E|_]; [|by apply K].
    specialize (F2 E). destruct (fw_index s c Hs F2) as [Ei Hi]. rewrite Ei. set (i := c - num_hw_ctrs s) in *.
    pose proof Hp0 as [p Ep]. pose proof (ok_phs _ Hs p Ep) as Hp.
    apply wp_bind, (wp_mono _ _ (fun _ s' => safe s s')).
    { apply when_wp; [|by intros; apply K]. intros _.
      destruct (set_fw_data_ok _ p i 0 Hp Hi) as (q & Eq & Hq & _).
      eapply wp_mono; [by eapply modify_phs_safe|]. by intros ?? []. }
    intros ? s1 S1. destruct (flag _ CFG_AUTO_START); [|done]. apply wp_bind, with_dev_wp.
    pose proof S1 as (Hs1 & G1 & Hp1). apply wp_bind, (wp_mono _ _ (fun _ s' => keeps s1 s')).
    { destruct (_ ≫= _) as [st|]; [|apply pmu_keeps_refl]. destruct (_ =? code); [|apply pmu_keeps_refl].
      destruct Hp1 as [p1 E1]. apply wp_bind, (this_wp _ p1); [done|]. apply wp_bind, wp_gets.
      destruct (st _ _ _ _). by split. }
    intros r s2 K2. assert (safe s s2) as S2 by (apply (safe_trans _ s1); [done|]; by apply keeps_safe).
    destruct (negb _); [done|]. pose proof S2 as (Hs2 & G2 & [p2 E2]). pose proof (ok_phs _ Hs2 p2 E2) as Hp2.
    apply wp_bind. eapply wp_mono; [eapply (modify_phs_safe _ s2 p2); [done|done| |]|].
    + rewrite BIT_u32_ok by done. reflexivity.
    + apply set_started_ok; [done|]. apply low_or; [apply Hp2|lia].
    + intros ? s3 [S3 _]. by apply (safe_trans _ s2).
Qed.

(** ** Configuring a counter *)

(** The requests whose counter is in range and fits the event: the base does not
    overflow; with [SKIP_MATCH] there is a counter and it is of the event's kind;
    otherwise firmware counters are asked for from base 0, for an event of the
    firmware itself. *)
Definition cfg_sane s (base mask flags ev : Z) : Prop :=
  0 <= base < 2 ^ 64 - 64 /\
  if flag flags CFG_SKIP_MATCH
  then 0 < mask /\ (base + sbi_ffs mask < num_hw_ctrs s <-> get_cidx_type ev <> SBI_PMU_EVENT_TYPE_FW)
  else get_cidx_type ev = SBI_PMU_EVENT_TYPE_FW -> base = 0 /\ get_cidx_code ev <> SBI_PMU_FW_PLATFORM.

Lemma fls_range w : word_ok w -> 0 <= sbi_fls w < 64.
Proof.
  intros Hw. destruct (Z.eq_dec w 0) as [->|]; [vm_compute; split; congruence|].
  assert (0 < w < 2 ^ 64) as Hp by (unfold word_ok in Hw; lia).
  pose proof (greatest_bit_log2 w Hp) as G. rewrite (fls_spec w _ G). apply G.
Qed.

Lemma ffs_le_fls w : word_ok w -> 0 < w -> 0 <= sbi_ffs w <= sbi_fls w.
Proof.
  intros Hw H0. assert (0 < w < 2 ^ 64) as Hp by (unfold word_ok in Hw; lia).
  pose proof (greatest_bit_log2 w Hp) as G. destruct (least_bit_exists w H0) as (m & Hm).
  rewrite (fls_spec w _ G), (ffs_spec w m Hw Hm). pose proof (least_bit_bound w m Hw Hm).
  destruct Hm as (? & Hb & _). destruct G as (? & _ & Hg). split; [lia|].
  destruct (Z_le_gt_dec m (Z.log2 w)); [done|]. by rewrite Hg in Hb by lia.
Qed.

Lemma cidx_type_u32 ev : get_cidx_type (u32 ev) = get_cidx_type ev.
Proof.
  unfold get_cidx_type. f_equal. zbits_eq i. destruct (Z.ltb_spec i 32); [done|].
  rewrite (bits_above 32 0xf0000) by lia. by rewrite !andb_false_r.
Qed.

Lemma cidx_code_u32 ev : get_cidx_code (u32 ev) = get_cidx_code ev.
Proof.
  unfold get_cidx_code. zbits_eq i. destruct (Z.ltb_spec i 32); [done|].
  rewrite (bits_above 32 0xffff) by lia. by rewrite !andb_false_r.
Qed.

Lemma base_range s base mask : pmu_ok s -> word_ok mask -> 0 <= base < 2 ^ 64 - 64 ->
  u64 (base + sbi_fls mask) < total_ctrs s -> 0 <= base + sbi_fls mask < total_ctrs s.
Proof. intros Hs Hm Hb. pose proof (fls_range mask Hm). rewrite wrap_small by lia. lia. Qed.

(** The part of the call with [SKIP_MATCH]. *)
Lemma cfg_skip_safe base mask flags ev data s p ty : pmu_ok s -> phs s = Some p -> word_ok mask ->
  cfg_sane s base mask flags ev -> flag flags CFG_SKIP_MATCH = true -> u64 (base + sbi_fls mask) < total_ctrs s ->
  ty = get_cidx_type ev ->
  let first := u64 (base + sbi_ffs mask) in
  wp (v ← get_active p first;
      if v =? SBI_PMU_EVENT_IDX_INVALID then mret SBI_EINVAL
      else cfg_finish feat (int_of first) ty (get_cidx_code ev) flags data) s
     (fun _ s' => pmu_ok s' /\ same_globals s s').
Proof.
  intros Hs Ep Hm Hc Hsk Hb -> first. pose proof (ok_phs _ Hs p Ep) as Hp. pose proof (ok_num _ Hs). pose proof (ok_total _ Hs).
  destruct Hc as [Hb0 Hc]. rewrite Hsk in Hc. destruct Hc as [Hm0 Hk]. apply base_range in Hb; [|done..].
  pose proof (ffs_le_fls mask Hm Hm0) as Hf. assert (first = base + sbi_ffs mask) as Ef by (apply wrap_small; lia).
  rewrite <- Ef in Hk. assert (0 <= first < total_ctrs s) as Hr by lia. clearbody first.
  destruct (rd_Some (active_events p) first) as [v Ev]; [rewrite (ok_active _ _ Hp); lia|].
  apply wp_bind, (wp_lift _ v); [done|]. destruct (Z.eqb_spec v SBI_PMU_EVENT_IDX_INVALID); [by split; [|apply globals_refl]|].
  assert (int_of first = first) as ->.
  { unfold int_of, signed. rewrite wrap_small by lia. destruct (Z.ltb_spec first (2 ^ (32 - 1))); lia. }
  eapply wp_mono; [apply cfg_finish_safe; [done|by rewrite Ep|]|by intros ?? (? & ? & _)]. split.
  - intros Et. split; [|intros ->; pose proof (ok_time _ _ Hp); congruence].
    assert (first < num_hw_ctrs s); [|lia]. apply Hk. by rewrite Et.
  - intros Et. split; [|lia]. destruct (Z_lt_le_dec first (num_hw_ctrs s)) as [Hl|]; [|done].
    by destruct (proj1 Hk Hl).
Qed.

(** The part that looks for a counter: it fits the event, and was free unless it
    is a fixed one. *)
Lemma cfg_find_wp base mask flags ev data s p ty : pmu_ok s -> phs s = Some p -> word_ok mask ->
  cfg_sane s base mask flags ev -> flag flags CFG_SKIP_MATCH = false -> ty = get_cidx_type ev ->
  wp (if ty =? SBI_PMU_EVENT_TYPE_FW then
        c ← pmu_ctr_find_fw base mask (get_cidx_code ev) data;
        when (get_cidx_code ev =? SBI_PMU_FW_PLATFORM)
          (modify_phs (fun p => set_fw_data p (u32 (c - num_hw_ctrs s)) data));;
        mret c
      else pmu_ctr_find_hw feat xlate base mask flags ev data) s
     (fun c s' => keeps s s' /\ (c < 0 \/ 0 <= c < 48 /\ fits (num_hw_ctrs s) c (u32 ev) /\ ctr_fits s c ty /\
        (ty = SBI_PMU_EVENT_TYPE_FW -> Z.testbit mask c = true /\ rd (active_events p) c = Some SBI_PMU_EVENT_IDX_INVALID))).
Proof.
  intros Hs Ep Hm [Hb0 Hc] Hsk ->. rewrite Hsk in Hc. pose proof (ok_num _ Hs). pose proof (ok_total _ Hs).
  destruct (Z.eqb_spec (get_cidx_type ev) SBI_PMU_EVENT_TYPE_FW) as [E|E].
  - destruct (Hc E) as [-> Hcode]. apply wp_bind. eapply wp_mono; [by eapply find_fw_wp|].
    intros c s' [-> Hcc]. apply wp_bind, when_wp; [intros Hp; prop_bool; done|]. intros _.
    split; [apply pmu_keeps_refl|]. destruct Hcc as [->|(Hr & Hb & Ha)]; [by left|]. right.
    split; [lia|]. split; [|split; [|done]].
    + right. rewrite cidx_type_u32. split_and!; [lia|lia|done].
    + split; [rewrite E; done|done].
  - eapply wp_mono; [by eapply find_hw_wp; [..|lia]|]. intros c s' [K Hcc]. split; [done|].
    destruct Hcc as [|Hcc]; [by left|]. right. assert (0 <= c < num_hw_ctrs s /\ c <> 1) as [Hr H1].
    { destruct Hcc as [[Hf _]|[(e & _ & _ & _ & _ & ? & _) [? _]]]; lia. }
    split; [lia|]. split; [|split; [|done]].
    + right. rewrite cidx_type_u32. split_and!; [done|done|lia].
    + split; [done|]. intros E'. by destruct E.
Qed.

Lemma cfg_match_safe base mask flags ev data s : pmu_ok s -> word_ok mask -> cfg_sane s base mask flags ev ->
  wp (sbi_pmu_ctr_cfg_match feat xlate base mask flags ev data) s (fun _ s' => pmu_ok s' /\ same_globals s s').
Proof.
  intros Hs Hm Hc. unfold sbi_pmu_ctr_cfg_match. do 3 apply wp_bind, wp_gets.
  destruct (phs s) as [p|] eqn:Ep; [|by split; [|apply globals_refl]].
  destruct (Z.leb_spec (total_ctrs s) (u64 (base + sbi_fls mask))); [by split; [|apply globals_refl]|].
  apply wp_bind. eapply wp_mono; [by apply event_validate_wp|]. intros ty s' [-> Hty].
  destruct (Z.ltb_spec ty 0); [by split; [|apply globals_refl]|]. destruct Hty as [|Hty]; [lia|].
  destruct (flag flags CFG_SKIP_MATCH) eqn:Hsk; [by apply cfg_skip_safe|].
  apply wp_bind. eapply wp_mono; [by eapply cfg_find_wp|]. intros c s1 [K1 Hcc].
  pose proof (keeps_ok _ _ K1 Hs) as Hs1. destruct (Z.ltb_spec c 0); [split; [done|apply K1]|].
  destruct Hcc as [|(Hr & Hf & Ht & _)]; [lia|]. pose proof K1 as [[_ En Et _] Ep1]. rewrite Ep in Ep1.
  pose proof (ok_phs _ Hs1 p Ep1) as Hp1. rewrite <- En in Hf.
  destruct (set_active_ok _ p c (u32 ev) Hp1 Hr Hf) as (q & Eq & Hq & _).
  apply wp_bind. eapply wp_mono; [by eapply modify_phs_safe|]. intros ? s2 [(Hs2 & G2 & Hph2) _].
  eapply wp_mono; [apply cfg_finish_safe; [done|done|]|].
  - unfold ctr_fits in *. rewrite (sg_num _ _ G2), (sg_total _ _ G2), En, Et. exact Ht.
  - intros ? s3 (Hs3 & G3 & _). split; [done|]. apply (globals_trans _ s2); [|done]. apply (globals_trans _ s1); [apply K1|done].
Qed.

End Spec.

#[export] Hint Resolve globals_refl pmu_keeps_refl : pmu.
