(* ===== verification/SbiPmuCount.v ===== *)
(** * Counting: the theorems on performance monitoring

    The invariant from set-up on, firmware counters count, hardware counters are
    exclusive, and the requests that leave the arrays. *)

From S2P Require Import Prelude SbiBitops SbiHartmask SbiHart SbiPmu SbiPmuSpec.

Section Count.
Context {D : Type}.
Variables (feat : sbi_hart_features) (xlate : Z -> Z -> Z).

Implicit Types (s : pmu D) (p : sbi_pmu_hart_state).

(** ** Firmware events *)

(** The firmware counter [c] is started on event [id]. *)
Definition counts_at (n : Z) p (id c : Z) : Prop :=
  exists v, rd (active_events p) c = Some v /\ get_cidx_code v = id /\ Z.testbit (fw_counters_started p) (c - n) = true.

Lemma flag_bit v i : 0 <= i -> flag v (Z.shiftl 1 i) = Z.testbit v i.
Proof.
  intros Hi. unfold flag. rewrite Z.shiftl_1_l.
  destruct (Z.testbit v i) eqn:E.
  - destruct (Z.eqb_spec (Z.land v (2 ^ i)) 0) as [E0|]; [|done].
    assert (Z.testbit (Z.land v (2 ^ i)) i = true) as H by (rewrite Z.land_spec, E, Z.pow2_bits_true by lia; done).
    by rewrite E0, Z.bits_0 in H.
  - assert (Z.land v (2 ^ i) = 0) as ->; [|done]. apply Z.bits_inj_iff'. intros j Hj.
    rewrite Z.land_spec, Z.bits_0. destruct (Z.eq_dec j i) as [->|]; [by rewrite E|].
    by rewrite Z.pow2_bits_false, andb_false_r by lia.
Qed.

Lemma incr_loop_wp n p id l s : phs_ok n p -> 3 <= n <= 32 -> Forall (fun c => n <= c < n + 16) l ->
  wp (incr_loop p n id l) s (fun o s' => s' = s /\
    match o with
    | Some i => exists c, c ∈ l /\ i = c - n /\ counts_at n p id c
    | None => forall c, c ∈ l -> ~ counts_at n p id c
    end).
Proof.
  intros Hp Hn H. induction H as [|c l Hc Hl IH]; [split; [done|]; by intros c ?%not_elem_of_nil|].
  cbn [incr_loop]. destruct (rd_Some (active_events p) c) as [v Ev]; [rewrite (ok_active _ _ Hp); lia|].
  apply wp_bind, (wp_lift _ v); [done|]. rewrite (wrap_small 32) by lia.
  apply wp_bind, (wp_lift _ (Z.shiftl 1 (c - n))); [apply BIT_u32_ok; lia|]. rewrite flag_bit by lia.
  destruct (_ && _) eqn:E.
  - apply andb_true_iff in E as [E1%Z.eqb_eq E2]. split; [done|]. exists c. split_and!; [left|done|]. by exists v.
  - eapply wp_mono; [apply IH|]. intros [i|] s' [-> Hi]; (split; [done|]).
    + destruct Hi as (c' & ? & ?). exists c'. by split; [right|].
    + intros c' [->|]%elem_of_cons; [|by apply Hi]. intros (v' & Ev' & Ec & Eb). rewrite Ev in Ev'. injection Ev' as <-.
      apply andb_false_iff in E as [E%Z.eqb_neq|E]; congruence.
Qed.

(** The effect of an occurrence of a firmware event. *)
Lemma incr_wp id s p : pmu_ok s -> phs s = Some p ->
  wp (sbi_pmu_ctr_incr_fw id) s (fun _ s' => pmu_ok s' /\ same_globals s s' /\ exists p', phs s' = Some p' /\
    active_events p' = active_events p /\ fw_counters_started p' = fw_counters_started p /\
    ((exists c v, num_hw_ctrs s <= c < total_ctrs s /\ counts_at (num_hw_ctrs s) p id c /\
        rd (fw_counters_data p) (c - num_hw_ctrs s) = Some v /\
        fw_counters_data p' = <[Z.to_nat (c - num_hw_ctrs s) := u64 (v + 1)]> (fw_counters_data p)) \/
     (SBI_PMU_FW_MAX <= id \/ forall c, num_hw_ctrs s <= c < total_ctrs s -> ~ counts_at (num_hw_ctrs s) p id c) /\
     fw_counters_data p' = fw_counters_data p)).
Proof.
  intros Hs Ep. pose proof (ok_phs _ Hs p Ep) as Hp. pose proof (ok_num _ Hs) as Hn. pose proof (ok_total _ Hs) as Ht.
  assert (forall P : Prop, P -> pmu_ok s /\ same_globals s s /\ exists p', phs s = Some p' /\
    active_events p' = active_events p /\ fw_counters_started p' = fw_counters_started p /\
    ((exists c v, num_hw_ctrs s <= c < total_ctrs s /\ counts_at (num_hw_ctrs s) p id c /\
        rd (fw_counters_data p) (c - num_hw_ctrs s) = Some v /\
        fw_counters_data p' = <[Z.to_nat (c - num_hw_ctrs s) := u64 (v + 1)]> (fw_counters_data p)) \/
     P /\ fw_counters_data p' = fw_counters_data p)) as Same.
  { intros P HP. split; [done|]. split; [apply globals_refl|]. exists p. auto 6. }
  unfold sbi_pmu_ctr_incr_fw. apply wp_bind, wp_gets. rewrite Ep. destruct (Z.eqb_spec (fw_counters_started p) 0) as [E|].
  { apply Same. right. intros c _ (v & _ & _ & Hb). by rewrite E, Z.bits_0 in Hb. }
  destruct (Z.leb_spec SBI_PMU_FW_MAX id); [by apply Same; left|]. do 2 apply wp_bind, wp_gets. apply wp_bind.
  eapply wp_mono; [apply incr_loop_wp; [done..|]|].
  { apply Forall_forall. intros c Hc. apply elem_of_seqZ in Hc. lia. }
  intros [i|] s' [-> Hi].
  - destruct Hi as (c & Hc & -> & Hcnt). apply elem_of_seqZ in Hc.
    destruct (rd_Some (fw_counters_data p) (c - num_hw_ctrs s)) as [v Ev]; [rewrite (ok_fw_data _ _ Hp); lia|].
    apply wp_bind, (wp_lift _ v); [done|].
    destruct (set_fw_data_ok _ p (c - num_hw_ctrs s) (u64 (v + 1)) Hp ltac:(lia)) as (q & Eq & Hq & A & B & C & _).
    apply wp_bind. eapply wp_mono; [by eapply (modify_phs_safe _ s p q)|]. intros ? s' [(? & ? & _) [Eq' _]].
    split; [done|]. split; [done|]. exists q. split_and!; [done..|]. left. exists c, v. split_and!; [lia|lia|done..].
  - apply Same. right. intros c Hc. apply Hi, elem_of_seqZ. lia.
Qed.

(** ** One firmware counter *)

(** Counter [c] is the only one for event [id]; it has value [v] and is started or
    not. *)
Record counter_at s (c id v : Z) (b : bool) : Prop := {
  ca_ok : pmu_ok s;
  ca_range : num_hw_ctrs s <= c < total_ctrs s;
  ca_id : 0 <= id < SBI_PMU_FW_MAX;
  ca_state : exists p ev, phs s = Some p /\ rd (active_events p) c = Some ev /\ ev <> SBI_PMU_EVENT_IDX_INVALID /\
    get_cidx_code ev = id /\ Z.testbit (fw_counters_started p) (c - num_hw_ctrs s) = b /\
    rd (fw_counters_data p) (c - num_hw_ctrs s) = Some v /\
    forall c', num_hw_ctrs s <= c' < total_ctrs s -> c' <> c -> ~ counts_at (num_hw_ctrs s) p id c' }.

Lemma counter_incr s c id v b id' : counter_at s c id v b ->
  wp (sbi_pmu_ctr_incr_fw id') s (fun _ s' => counter_at s' c id (if b && (id' =? id) then u64 (v + 1) else v) b).
Proof.
  intros [Hs Hc Hid (p & ev & Ep & Ev & Hev & Ecode & Eb & Ed & Hu)]. eapply wp_mono; [by apply incr_wp|].
  intros ? s' (Hs' & [_ En Et _] & p' & Ep' & Ea & Est & Hd). constructor; [done|rewrite En, Et; done|done|].
  exists p', ev. rewrite En, Et, Ea, Est. split_and!; [done..| |].
  2: { intros c' Hc' Hne (w & H1 & H2 & H3). rewrite Ea in H1. rewrite Est in H3.
       apply (Hu c' Hc' Hne). by exists w. }
  destruct Hd as [(c1 & v1 & Hc1 & Hcnt & Ev1 & ->)|[Hno ->]].
  - pose proof (ok_fw_data _ _ (ok_phs _ Hs p Ep)) as L. pose proof (ok_total _ Hs).
    rewrite rd_update by (rewrite L; lia). destruct (Z.eqb_spec (c - num_hw_ctrs s) (c1 - num_hw_ctrs s)) as [E|E].
    + assert (c1 = c) as -> by lia. destruct Hcnt as (w & H1 & H2 & H3).
      assert (w = ev) as -> by congruence. assert (v1 = v) as -> by congruence.
      replace b with true by congruence. by rewrite <- H2, Ecode, Z.eqb_refl.
    + rewrite Ed. destruct (b && (id' =? id)) eqn:E2; [|done]. apply andb_true_iff in E2 as [_ ->%Z.eqb_eq].
      destruct (Hu c1 Hc1 ltac:(lia) Hcnt).
  - rewrite Ed. destruct (b && (id' =? id)) eqn:E2; [|done]. apply andb_true_iff in E2 as [-> ->%Z.eqb_eq].
    destruct Hno as [|Hno]; [lia|]. destruct (Hno c Hc). by exists ev.
Qed.

Lemma valid_code id : 0 <= id < SBI_PMU_FW_MAX -> fw_reserved id = false /\ (SBI_PMU_FW_PLATFORM =? id) = false.
Proof. unfold fw_reserved, SBI_PMU_FW_MAX, SBI_PMU_FW_RESERVED_MAX, SBI_PMU_FW_PLATFORM. intros H. zcases; lia || done. Qed.

(** The event of the counter passes the check of every call. *)
Lemma counter_validate s c id v b p (Q : Z * Z -> pmu D -> Prop) : counter_at s c id v b -> phs s = Some p ->
  Q (SBI_PMU_EVENT_TYPE_FW, id) s -> wp (pmu_ctr_validate p c) s Q.
Proof.
  intros [Hs Hc Hid (q & ev & Ep & Ev & Hev & Ecode & _)] E HQ. rewrite Ep in E. injection E as <-.
  pose proof (ok_fw _ _ (ok_phs _ Hs q Ep) c ev Ev ltac:(rewrite <- (ok_total _ Hs); lia) Hev) as Hty.
  unfold pmu_ctr_validate. apply wp_bind, wp_gets. destruct (Z.leb_spec (total_ctrs s) c); [lia|].
  apply wp_bind, (wp_lift _ ev); [done|]. apply Z.eqb_neq in Hev. rewrite Hev, Hty. cbn. by rewrite Ecode.
Qed.

Lemma counter_read s c id v b : counter_at s c id v b ->
  wp (sbi_pmu_ctr_fw_read c) s (fun r s' => r = inr v /\ s' = s).
Proof.
  intros H. pose proof H as [Hs Hc Hid (p & ev & Ep & _ & _ & _ & _ & Ed & _)].
  unfold sbi_pmu_ctr_fw_read. apply wp_bind, wp_gets. rewrite Ep. apply wp_bind. eapply counter_validate; [done..|].
  destruct (valid_code id Hid) as [E1 E2]. cbn [negb]. rewrite Z.eqb_refl, E1. cbn [negb]. apply wp_bind, wp_gets. rewrite E2.
  destruct (fw_index s c Hs Hc) as [-> _]. by apply wp_bind, (wp_lift _ v).
Qed.

(** A call on the one counter. *)
Lemma one_counter s c id v b : counter_at s c id v b ->
  0 <= c < 64 /\ word_ok (2 ^ c) /\ (total_ctrs s <=? u64 (0 + sbi_fls (2 ^ c))) = false /\ u32 (c + 0) = c /\
  exists p, phs s = Some p.
Proof.
  intros [Hs Hc _ (p & _ & Ep & _)]. pose proof (ok_num _ Hs). pose proof (ok_total _ Hs).
  assert (0 <= c < 64) as H64 by lia. assert (word_ok (2 ^ c)) as Hw.
  { split; [lia|]. apply Z.pow_lt_mono_r; lia. }
  assert (0 < 2 ^ c < 2 ^ 64) as Hp by (destruct Hw; lia). pose proof (greatest_bit_log2 _ Hp) as G.
  split_and!; [lia|lia|done| | |by exists p].
  - rewrite (fls_spec _ _ G), Z.log2_pow2, wrap_small by lia. apply Z.leb_gt. lia.
  - rewrite wrap_small; lia.
Qed.

(** Changing the started bit or the value of the counter keeps it the only one. *)
Lemma counter_update s s' c id v b p q v' b' : counter_at s c id v b -> phs s = Some p -> pmu_ok s' ->
  same_globals s s' -> phs s' = Some q -> active_events q = active_events p ->
  (forall i, Z.testbit (fw_counters_started q) i = if i =? c - num_hw_ctrs s then b' else Z.testbit (fw_counters_started p) i) ->
  rd (fw_counters_data q) (c - num_hw_ctrs s) = Some v' -> counter_at s' c id v' b'.
Proof.
  intros [Hs Hc Hid (p0 & ev & Ep & Ev & Hev & Ecode & Eb & Ed & Hu)] Ep' Hs' [_ En Et _] Eq Ea Eb' Ed'.
  assert (p0 = p) as -> by congruence. constructor; [done|by rewrite En, Et|done|]. exists q, ev. rewrite En, Et, Ea.
  split_and!; [done..|by rewrite Eb', Z.eqb_refl|done|]. intros c' Hc' Hne (w & H1 & H2 & H3).
  rewrite Ea in H1. rewrite Eb' in H3. destruct (Z.eqb_spec (c' - num_hw_ctrs s) (c - num_hw_ctrs s)); [lia|].
  apply (Hu c' Hc' Hne). by exists w.
Qed.

Lemma counter_stop s c id v : counter_at s c id v true ->
  wp (sbi_pmu_ctr_stop feat 0 (2 ^ c) 0) s (fun r s' => r = 0 /\ counter_at s' c id v false).
Proof.
  intros H. destruct (one_counter _ _ _ _ _ H) as (Hc64 & Hw & Ele & Ec & p & Ep).
  pose proof H as [Hs Hc Hid (p' & ev & Ep' & _ & _ & _ & _ & Ed & _)]. assert (p' = p) as -> by congruence.
  pose proof (ok_phs _ Hs p Ep) as Hp. destruct (fw_index s c Hs Hc) as [Ei Hi]. destruct (valid_code id Hid) as [E1 E2].
  unfold sbi_pmu_ctr_stop. do 2 apply wp_bind, wp_gets. rewrite Ep, Ele. cbn [flag Z.land Z.eqb negb].
  apply wp_bind, (wp_lift _ _ _ _ (each_spec (2 ^ c) Hw)). rewrite word_bits_one by done. apply wp_bind.
  eapply (wp_mono _ _ (fun r s' => r = 0 /\ counter_at s' c id v false)).
  - cbn [each_bit]. apply wp_bind. unfold stop_round. rewrite Ec. apply wp_bind, (this_wp _ p); [done|].
    apply wp_bind. eapply counter_validate; [done..|]. cbn [Z.ltb Z.eqb]. change (SBI_PMU_EVENT_TYPE_FW <? 0) with false.
    change (SBI_PMU_EVENT_TYPE_FW =? SBI_PMU_EVENT_TYPE_FW) with true. apply wp_bind.
    unfold pmu_ctr_stop_fw. apply wp_bind, (this_wp _ p); [done|]. apply wp_bind, wp_gets. rewrite E1, E2, Ei.
    apply wp_bind, with_dev_wp, wp_bind, (wp_mono _ _ (fun r s' => r = 0 /\ s' = s)).
    { by destruct (_ ≫= _). }
    intros r s' [-> ->]. cbn [negb Z.eqb]. apply wp_bind, (wp_lift _ (Z.shiftl 1 (c - num_hw_ctrs s))).
    { by apply BIT_u32_ok. }
    apply wp_bind. eapply wp_mono; [apply put_phs_ok; [done|]|].
    { apply set_started_ok; [done|]. apply low_and; [lia|]. apply Hp. }
    intros ? s1 (Hs1 & G1 & Eq1 & _). rewrite andb_false_r. split; [done|].
    eapply (counter_update s); [done..| |done]. intros i. cbn [fw_counters_started set_started].
    rewrite Z.land_spec, not64_bits. destruct (Z.eqb_spec i (c - num_hw_ctrs s)) as [->|].
    + rewrite bit1_bits, Z.eqb_refl by lia. by rewrite !andb_false_r.
    + destruct (Z.ltb_spec i 0); [by rewrite !(Z.testbit_neg_r _ i)|]. rewrite bit1_bits by lia.
      apply Z.eqb_neq in n. rewrite n. destruct (Z.ltb_spec i 64).
      * replace (0 <=? i) with true by (symmetry; apply Z.leb_le; lia). by rewrite !andb_true_r.
      * rewrite (bits_above 16 (fw_counters_started p)) by (apply Hp || lia). done.
  - intros r s1 [-> H1]. destruct (one_counter _ _ _ _ _ H1) as (_ & _ & _ & _ & p1 & Ep1).
    apply wp_bind, (this_wp _ p1); [done|]. apply wp_bind, when_wp; intros _; [|done].
    apply wp_bind, irq_mask_wp. intros m. apply wp_bind, wp_gets.
    eapply wp_mono; [apply csr_write_keeps|]. intros ? s2 [K2 _]. split; [done|].
    pose proof H1 as [Hs1 Hc1 _ (p2 & ev2 & Ep2 & _ & _ & _ & Eb2 & Ed2 & _)]. assert (p2 = p1) as -> by congruence.
    eapply (counter_update s1 s2 c id v false p1 p1); [done|done|by eapply keeps_ok|apply K2| |done| |done].
    + by rewrite (kp_phs _ _ K2).
    + intros i. destruct (Z.eqb_spec i (c - num_hw_ctrs s1)) as [->|]; [done|done].
Qed.

Definition CLEAR_AND_START : Z := 6.

Lemma finish_fw_wp c code data s p : pmu_ok s -> phs s = Some p -> num_hw_ctrs s <= c < total_ctrs s ->
  0 <= code < SBI_PMU_FW_MAX ->
  wp (cfg_finish feat c SBI_PMU_EVENT_TYPE_FW code CLEAR_AND_START data) s (fun r s' => r = c /\ pmu_ok s' /\
    same_globals s s' /\ exists q, phs s' = Some q /\ active_events q = active_events p /\
    fw_counters_started q = Z.lor (fw_counters_started p) (Z.shiftl 1 (c - num_hw_ctrs s)) /\
    rd (fw_counters_data q) (c - num_hw_ctrs s) = Some 0).
Proof.
  intros Hs Ep Hc Hcode. pose proof (ok_phs _ Hs p Ep) as Hp. destruct (fw_index s c Hs Hc) as [Ei Hi].
  destruct (valid_code code Hcode) as [_ E2]. unfold cfg_finish. apply wp_bind, wp_gets.
  change (SBI_PMU_EVENT_TYPE_FW =? SBI_PMU_EVENT_TYPE_HW) with false. rewrite Z.eqb_refl, Ei.
  change (flag CLEAR_AND_START CFG_CLEAR_VALUE) with true. change (flag CLEAR_AND_START CFG_AUTO_START) with true.
  cbn [when]. destruct (set_fw_data_ok _ p (c - num_hw_ctrs s) 0 Hp Hi) as (q & Eq & Hq & A & B & C & _).
  apply wp_bind. eapply wp_mono; [by eapply (modify_phs_safe _ s p q)|]. intros ? s1 [(Hs1 & G1 & _) [Ep1 _]].
  apply wp_bind, with_dev_wp, wp_bind, (wp_mono _ _ (fun r s' => r = 0 /\ s' = s1)).
  { rewrite E2. by destruct (_ ≫= _). }
  intros r s' [-> ->]. cbn [negb Z.eqb]. pose proof (ok_phs _ Hs1 q Ep1) as Hq1.
  apply wp_bind. eapply wp_mono; [eapply (modify_phs_safe _ s1 q); [done|done| |]|].
  - rewrite BIT_u32_ok by done. reflexivity.
  - apply set_started_ok; [done|]. apply low_or; [apply Hq1|lia].
  - intros ? s2 [(Hs2 & G2 & _) [Ep2 _]]. split; [done|]. split; [done|]. split; [by apply (globals_trans _ s1)|].
    eexists. split; [done|]. cbn [active_events fw_counters_started fw_counters_data set_started].
    split; [done|]. split; [by rewrite B|]. rewrite C, rd_update by (rewrite (ok_fw_data _ _ Hp); lia).
    by rewrite Z.eqb_refl.
Qed.

(** A request for a firmware counter that clears and starts it. *)
Lemma counter_cfg mask ev data s p id : pmu_ok s -> phs s = Some p -> word_ok mask ->
  get_cidx_type ev = SBI_PMU_EVENT_TYPE_FW -> get_cidx_code ev = id -> 0 <= id < SBI_PMU_FW_MAX ->
  (forall c, num_hw_ctrs s <= c < total_ctrs s -> ~ counts_at (num_hw_ctrs s) p id c) ->
  wp (sbi_pmu_ctr_cfg_match feat xlate 0 mask CLEAR_AND_START ev data) s
    (fun c s' => c < 0 \/ Z.testbit mask c = true /\ counter_at s' c id 0 true).
Proof.
  intros Hs Ep Hm Hty Hcode Hid Hno. pose proof (ok_num _ Hs). pose proof (ok_total _ Hs) as Htot.
  assert (cfg_sane s 0 mask CLEAR_AND_START ev) as Hc.
  { split; [lia|]. cbn. intros _. split; [done|]. rewrite Hcode. unfold SBI_PMU_FW_MAX, SBI_PMU_FW_PLATFORM in *. lia. }
  unfold sbi_pmu_ctr_cfg_match. do 3 apply wp_bind, wp_gets. rewrite Ep.
  destruct (_ <=? _); [by left|]. apply wp_bind. eapply wp_mono; [by apply event_validate_wp|]. intros ty s' [-> Ht].
  destruct (Z.ltb_spec ty 0); [by left|]. destruct Ht as [|Ht]; [lia|].
  change (flag CLEAR_AND_START CFG_SKIP_MATCH) with false. cbv iota.
  apply wp_bind. eapply wp_mono; [by eapply (cfg_find_wp feat xlate 0 mask CLEAR_AND_START ev data s p ty)|].
  intros c s1 [K1 Hcc]. destruct (Z.ltb_spec c 0); [by left|]. destruct Hcc as [|(Hr & Hf & [_ Hfw] & Hfree)]; [lia|].
  rewrite Hty in Ht. destruct (Hfree Ht) as [Hbit Hinv]. specialize (Hfw Ht). subst ty.
  pose proof (keeps_ok _ _ K1 Hs) as Hs1. pose proof K1 as [[_ En Et _] Ep1]. rewrite Ep in Ep1.
  pose proof (ok_phs _ Hs1 p Ep1) as Hp1. rewrite <- En in Hf.
  destruct (set_active_ok _ p c (u32 ev) Hp1 Hr Hf) as (q & Eq & Hq & A & B & C & _).
  apply wp_bind. eapply wp_mono; [by eapply modify_phs_safe|]. intros ? s2 [(Hs2 & G2 & _) [Ep2 _]].
  pose proof G2 as [_ En2 Et2 _]. rewrite Hcode.
  eapply wp_mono; [apply finish_fw_wp; [done|done|by rewrite En2, Et2, En, Et|done]|].
  intros r s3 (-> & Hs3 & [_ En3 Et3 _] & q3 & Ep3 & A3 & B3 & C3). right. split; [done|].
  rewrite En2, En in *. rewrite Et2, Et in *. constructor; [done|by rewrite En3, Et3|done|].
  exists q3, (u32 ev). rewrite En3, Et3, A3, A, B3, B, C3. pose proof (ok_active _ _ (ok_phs _ Hs p Ep)) as L.
  rewrite rd_update by (rewrite L; lia). rewrite Z.eqb_refl. split_and!; [done|done| |by rewrite cidx_code_u32| |done|].
  - intros E. pose proof (cidx_code_u32 ev) as E'. rewrite E, Hcode in E'. unfold SBI_PMU_FW_MAX in Hid.
    change (get_cidx_code SBI_PMU_EVENT_IDX_INVALID) with 65535 in E'. lia.
  - rewrite Z.lor_spec, bit1_bits, Z.eqb_refl by lia. apply orb_true_r.
  - intros c' Hc' Hne (w & W1 & W2 & W3). apply (Hno c' Hc'). rewrite A3, A, rd_update in W1 by (rewrite L; lia).
    destruct (Z.eqb_spec c' c); [done|]. exists w. rewrite B3, B, Z.lor_spec, bit1_bits in W3 by lia.
    destruct (Z.eqb_spec (c' - num_hw_ctrs s) (c - num_hw_ctrs s)); [lia|]. rewrite orb_false_r in W3. done.
Qed.

(** A sequence of occurrences of firmware events. *)
Fixpoint incr_all (ids : list Z) : M D () :=
  match ids with [] => mret () | id :: ids => sbi_pmu_ctr_incr_fw id;; incr_all ids end.

Definition count (id : Z) (ids : list Z) : Z := Z.of_nat (length (filter (fun x => x = id) ids)).

Lemma count_cons id x ids : count id (x :: ids) = (if x =? id then 1 else 0) + count id ids.
Proof.
  unfold count. rewrite filter_cons. destruct (Z.eqb_spec x id).
  - rewrite decide_True by done. cbn. lia.
  - by rewrite decide_False by done.
Qed.

Lemma counter_incr_all ids s c id v b : counter_at s c id v b -> 0 <= v < 2 ^ 64 ->
  wp (incr_all ids) s (fun _ s' => counter_at s' c id (if b then u64 (v + count id ids) else v) b).
Proof.
  revert s v. induction ids as [|x ids IH]; intros s v H Hv.
  { replace (if b then u64 (v + count id []) else v) with v; [done|]. destruct b; [|done]. unfold count. cbn.
    rewrite Z.add_0_r. symmetry. by apply wrap_small. }
  cbn [incr_all]. apply wp_bind. eapply wp_mono; [by eapply counter_incr|]. intros ? s1 H1.
  assert (0 <= (if b && (x =? id) then u64 (v + 1) else v) < 2 ^ 64) as Hv1.
  { destruct (b && _); [by apply wrap_range|done]. }
  eapply wp_mono; [exact (IH _ _ H1 Hv1)|]. intros ? s2. destruct b; [|done]. rewrite count_cons. cbn [andb].
  destruct (x =? id); [|done]. rewrite wrap_add_l. by rewrite <- Z.add_assoc.
Qed.

(** ** Set-up *)

(** The platform's set-up: calls that fill the table of events. *)
Inductive add_op := AddHw (first last cmap : Z) | AddRaw (sel mask cmap : Z).

Definition add_map (o : add_op) : M D Z :=
  match o with
  | AddHw a b cmap => sbi_pmu_add_hw_event_counter_map feat a b cmap
  | AddRaw sel mask cmap => sbi_pmu_add_raw_event_counter_map feat sel mask cmap
  end.

Fixpoint add_maps (l : list add_op) : M D () :=
  match l with [] => mret () | o :: l => add_map o;; add_maps l end.

(** The mask of a hart's counters, as the detection of features leaves it: bits 3
    to 31. *)
Definition hpm_mask_ok : Prop := 0 <= mhpm_mask feat < 2 ^ 32 /\ forall i, 0 <= i < 3 -> Z.testbit (mhpm_mask feat) i = false.

Definition hw_count : Z := num_hw_of (sbi_fls (mhpm_mask feat)).

Lemma hw_count_spec : hpm_mask_ok -> 3 <= hw_count <= 32 /\ forall i, hw_count <= i -> Z.testbit (Z.lor (mhpm_mask feat) 7) i = false.
Proof.
  intros [Hm Hlow]. unfold hw_count, num_hw_of. destruct (Z.eq_dec (mhpm_mask feat) 0) as [E|Hne].
  - rewrite E. change (sbi_fls 0 =? 0) with true. cbv iota. split; [lia|]. intros i Hi. rewrite Z.lor_spec, Z.bits_0.
    by apply (bits_above 3).
  - assert (0 < mhpm_mask feat < 2 ^ 64) as Hp by lia. pose proof (greatest_bit_log2 _ Hp) as G.
    rewrite (fls_spec _ _ G). destruct G as (_ & Gb & _).
    assert (3 <= Z.log2 (mhpm_mask feat)) as H3.
    { destruct (Z_le_gt_dec 3 (Z.log2 (mhpm_mask feat))); [done|]. rewrite Hlow in Gb; [done|]. split; [apply Z.log2_nonneg|lia]. }
    assert (Z.log2 (mhpm_mask feat) < 32) by (apply Z.log2_lt_pow2; lia).
    destruct (Z.eqb_spec (Z.log2 (mhpm_mask feat)) 0); [lia|]. split; [lia|]. intros i Hi. rewrite Z.lor_spec.
    rewrite (Z.bits_above_log2 (mhpm_mask feat)) by lia. apply (bits_above 3); lia.
Qed.

Definition map_ok s : Prop := Forall (fun e => 0 <= counters e < 2 ^ hw_count) (hw_event_map s).

Lemma add_map_ok o s : hpm_mask_ok -> map_ok s -> match o with AddHw _ _ m | AddRaw _ _ m => 0 <= m end ->
  wp (add_map o) s (fun _ s' => map_ok s' /\ phs s' = phs s /\ pmu_dev s' = pmu_dev s).
Proof.
  intros Hf Hm Ho. destruct (hw_count_spec Hf) as [Hn Hb].
  assert (forall a b cmap sel mask, 0 <= cmap -> wp (pmu_add_hw_event_map feat a b cmap sel mask) s
    (fun _ s' => map_ok s' /\ phs s' = phs s /\ pmu_dev s' = pmu_dev s)) as W.
  { intros a b cmap sel mask Hc. unfold pmu_add_hw_event_map. apply wp_bind, wp_gets.
    destruct (_ && _); [done|]. destruct (_ <=? _); [done|]. destruct (existsb _ _); [done|].
    apply wp_bind. split; [|done]. unfold map_ok. cbn [hw_event_map]. apply Forall_app. split; [done|].
    apply Forall_singleton. cbn [counters]. apply low_bits; [lia|]. intros i Hi.
    by rewrite Z.land_spec, Hb, andb_false_r by lia. }
  destruct o as [a b cmap|sel mask cmap]; cbn [add_map].
  - unfold sbi_pmu_add_hw_event_counter_map. destruct (_ || _); [done|]. by apply W.
  - by apply W.
Qed.

Definition ops_ok (l : list add_op) : Prop := Forall (fun o => match o with AddHw _ _ m | AddRaw _ _ m => 0 <= m end) l.

Lemma add_maps_ok l s : hpm_mask_ok -> ops_ok l -> map_ok s ->
  wp (add_maps l) s (fun _ s' => map_ok s' /\ phs s' = phs s /\ pmu_dev s' = pmu_dev s).
Proof.
  intros Hf Hl. revert s. induction Hl as [|o l Ho Hl IH]; intros s Hm; [done|]. cbn [add_maps]. apply wp_bind.
  eapply wp_mono; [by apply add_map_ok|]. intros ? s1 (Hm1 & P1 & D1). eapply wp_mono; [by apply IH|].
  intros ? s2 (? & ? & ?). split_and!; congruence || done.
Qed.

Lemma reset_events_spec js l : Forall (fun j => 0 <= j < Z.of_nat (length l)) js ->
  exists l', reset_events l js = Some l' /\ length l' = length l /\
    forall j, rd l' j = if bool_decide (j ∈ js) then Some SBI_PMU_EVENT_IDX_INVALID else rd l j.
Proof.
  revert l. induction js as [|k js IH]; intros l H; [by exists l|]. apply Forall_cons in H as [Hk H].
  cbn [reset_events]. rewrite wr_Some by done. cbn [mbind option_bind].
  destruct (IH (<[Z.to_nat k := SBI_PMU_EVENT_IDX_INVALID]> l)) as (l' & E & L & R); [by rewrite length_insert|].
  exists l'. rewrite length_insert in L. split_and!; [done..|]. intros j. rewrite R, rd_update by done.
  destruct (Z.eqb_spec j k) as [->|]; repeat case_bool_decide; set_solver.
Qed.

(** The state of a hart after the last assignments of the set-up. *)
Definition fresh_phs (h : Z) (act : list Z) : sbi_pmu_hart_state :=
  mkPhs h (<[Z.to_nat 2 := SBI_PMU_HW_INSTRUCTIONS]> (<[Z.to_nat 1 := SBI_PMU_EVENT_IDX_INVALID]>
    (<[Z.to_nat 0 := SBI_PMU_HW_CPU_CYCLES]> act))) 0 false (replicate 16 0).

Lemma fresh_phs_ok h n act : 3 <= n <= 32 -> length act = 48%nat ->
  (forall j, rd act j = if bool_decide (j ∈ seqZ 3 (n + 16 - 3)) then Some SBI_PMU_EVENT_IDX_INVALID else rd (replicate 48 0) j) ->
  phs_ok n (fresh_phs h act) /\ rd (active_events (fresh_phs h act)) 0 = Some SBI_PMU_HW_CPU_CYCLES /\
  rd (active_events (fresh_phs h act)) 3 = Some SBI_PMU_EVENT_IDX_INVALID.
Proof.
  intros Hn La Ra. unfold fresh_phs. set (l3 := <[Z.to_nat 2 := _]> _).
  assert (length l3 = 48%nat) as L3 by (unfold l3; by rewrite !length_insert).
  assert (forall j, rd l3 j = if j =? 2 then Some SBI_PMU_HW_INSTRUCTIONS else
    if j =? 1 then Some SBI_PMU_EVENT_IDX_INVALID else if j =? 0 then Some SBI_PMU_HW_CPU_CYCLES else rd act j) as R3.
  { intros j. unfold l3. by rewrite !rd_update by (rewrite ?length_insert, La; lia). }
  clearbody l3. split; [|cbn [active_events]; split; [by rewrite R3|]].
  2: { rewrite R3, Ra, bool_decide_eq_true_2; [done|]. apply elem_of_seqZ. lia. }
  constructor; cbn [active_events fw_counters_data fw_counters_started]; [done|done|lia|by rewrite R3| |].
  - intros j v. rewrite R3, Ra. destruct (Z.eqb_spec j 2); [by intros [= <-]|]. destruct (Z.eqb_spec j 1); [by intros [= <-]|].
    destruct (Z.eqb_spec j 0); [by intros [= <-]|]. case_bool_decide as Hj; [by intros [= <-]|].
    intros Hv Hlt Hne. destruct (Z_lt_le_dec j 0) as [Hneg|].
    + unfold rd in Hv. destruct (Z.ltb_spec j 0); [done|lia].
    + destruct Hj. apply elem_of_seqZ. lia.
  - intros j v. rewrite R3, Ra. destruct (Z.eqb_spec j 2); [lia|]. destruct (Z.eqb_spec j 1); [by intros [= <-]|].
    destruct (Z.eqb_spec j 0); [lia|]. case_bool_decide as Hj; [by intros [= <-]|].
    intros Hv Hr Hne. destruct Hj. apply elem_of_seqZ. lia.
Qed.

Lemma put_phs_wp q s (Q : () -> pmu D -> Prop) :
  (forall s', same_globals s s' -> phs s' = Some q -> Q () s') -> wp (put_phs q) s Q.
Proof. intros H. by apply H. Qed.

Lemma modify_active_wp i v q s (Q : () -> pmu D -> Prop) : phs s = Some q -> length (active_events q) = 48%nat -> 0 <= i < 48 ->
  (forall s', same_globals s s' -> phs s' = Some (mkPhs (ph_hartid q) (<[Z.to_nat i := v]> (active_events q))
     (fw_counters_started q) (sse_enabled q) (fw_counters_data q)) -> Q () s') ->
  wp (modify_phs (fun q => set_active q i v)) s Q.
Proof.
  intros Eq L Hi H. unfold modify_phs. apply wp_bind, (this_wp _ q); [done|]. unfold set_active.
  rewrite wr_Some by (rewrite L; lia). by apply H.
Qed.

Lemma pmu_init_ok l hartid s : hpm_mask_ok -> ops_ok l -> dev_ok (pmu_dev s) -> phs s = None ->
  wp (sbi_pmu_init feat true true true true (add_maps l) hartid) s (fun rc s' => rc = 0 /\ pmu_ok s' /\
    num_hw_ctrs s' = hw_count /\
    exists p, phs s' = Some p /\ rd (active_events p) 0 = Some SBI_PMU_HW_CPU_CYCLES /\
      rd (active_events p) 3 = Some SBI_PMU_EVENT_IDX_INVALID /\ fw_counters_started p = 0).
Proof.
  intros Hf Hl Hd Hnone. destruct (hw_count_spec Hf) as [Hn _]. unfold sbi_pmu_init. cbn [negb].
  apply wp_bind, wp_bind. cbn [put_map wp]. do 2 apply wp_bind, wp_gets. apply wp_bind. cbn [put_globals wp].
  apply wp_bind. eapply wp_mono; [apply add_maps_ok; [done..|by apply Forall_nil]|].
  intros ? s1 (Hm1 & P1 & D1). cbn [phs pmu_dev] in P1, D1. fold hw_count. apply wp_bind. cbn [put_globals wp].
  destruct (Z.ltb_spec SBI_PMU_HW_CTR_MAX hw_count); [unfold SBI_PMU_HW_CTR_MAX in *; lia|].
  apply wp_bind. cbn [put_globals wp]. apply wp_bind, (wp_mono _ _ (fun b s2 => num_hw_ctrs s2 = hw_count /\
    total_ctrs s2 = hw_count + 16 /\ map_ok s2 /\ dev_ok (pmu_dev s2) /\ phs s2 = None)).
  { unfold sbi_pmu_irq_bit. destruct (sbi_hart_has_extension _ _); [|apply wp_bind, with_dev_wp];
      apply wp_ret; cbn [num_hw_ctrs total_ctrs pmu_dev phs]; rewrite D1, P1; by split_and!. }
  intros b s2 (N2 & T2 & M2 & D2 & P2). apply wp_bind, (wp_mono _ _ (fun _ s3 => num_hw_ctrs s3 = hw_count /\
    total_ctrs s3 = hw_count + 16 /\ map_ok s3 /\ dev_ok (pmu_dev s3) /\ phs s3 = None)).
  { by apply when_wp. }
  intros ? s3 (N3 & T3 & M3 & D3 & P3). apply wp_ret. cbn [negb Z.eqb]. apply wp_bind, wp_gets. rewrite P3.
  apply wp_bind, wp_bind, put_phs_wp. intros s4 G4 P4. apply wp_ret. cbn [negb]. apply wp_bind.
  unfold pmu_reset_event_map. eapply wp_bind, this_wp; [done|]. apply wp_bind, wp_gets. cbn [active_events ph_hartid].
  destruct (reset_events_spec (seqZ 3 (total_ctrs s4 - 3)) (replicate 48 0)) as (act & Ea & La & Ra).
  { apply Forall_forall. intros j Hj. apply elem_of_seqZ in Hj. rewrite length_replicate. rewrite (sg_total _ _ G4) in Hj. lia. }
  rewrite length_replicate in La. apply wp_bind, (wp_lift _ act); [done|]. apply put_phs_wp. intros s5 G5 P5.
  apply wp_bind. eapply modify_active_wp; [done|exact La|lia|]. intros s6 G6 P6.
  apply wp_bind. eapply modify_active_wp; [done|by cbn [active_events]; rewrite length_insert|lia|]. intros s7 G7 P7.
  apply wp_bind. eapply modify_active_wp; [done|by cbn [active_events]; rewrite !length_insert|lia|]. intros s8 G8 P8.
  apply wp_ret. split; [done|]. rewrite (sg_total _ _ G4), T3 in Ra.
  destruct (fresh_phs_ok hartid hw_count act Hn La Ra) as (Hok & H0 & H3).
  assert (same_globals s3 s8) as [E1 E2 E3 E4] by (repeat (eapply globals_trans; [eassumption|]); done).
  split; [|split; [congruence|]; eexists; split; [exact P8|]; by split].
  constructor; [rewrite E2, N3; lia|congruence|by rewrite E1, E2, N3|by rewrite E4|].
  rewrite E2, N3, P8. intros q [= <-]. exact Hok.
Qed.

(** ** Calls *)

Inductive pmu_call :=
  | CfgMatch (base mask flags ev data : Z) | Start (base mask flags ival : Z) | Stop (base mask flags : Z)
  | FwRead (cidx : Z) | GetInfo (cidx : Z) | Event (fw_id : Z).

Definition run_call (c : pmu_call) : M D Z :=
  match c with
  | CfgMatch base mask flags ev data => sbi_pmu_ctr_cfg_match feat xlate base mask flags ev data
  | Start base mask flags ival => sbi_pmu_ctr_start feat base mask flags ival
  | Stop base mask flags => sbi_pmu_ctr_stop feat base mask flags
  | FwRead cidx => r ← sbi_pmu_ctr_fw_read cidx; mret (match r with inl rc => rc | inr _ => 0 end)
  | GetInfo cidx => r ← sbi_pmu_ctr_get_info feat cidx; mret (match r with inl rc => rc | inr _ => 0 end)
  | Event fw_id => sbi_pmu_ctr_incr_fw fw_id
  end.

(** Any arguments a register can hold; configuration calls as [cfg_sane] says. *)
Definition call_sane s (c : pmu_call) : Prop :=
  match c with
  | CfgMatch base mask flags ev _ => word_ok mask /\ cfg_sane s base mask flags ev
  | Start _ mask _ _ | Stop _ mask _ => word_ok mask
  | FwRead cidx | GetInfo cidx => 0 <= cidx
  | Event _ => True
  end.

Lemma fw_read_safe cidx s : pmu_ok s -> 0 <= cidx -> wp (sbi_pmu_ctr_fw_read cidx) s (fun _ s' => s' = s).
Proof.
  intros Hs H0. unfold sbi_pmu_ctr_fw_read. apply wp_bind, wp_gets. destruct (phs s) as [p|] eqn:Ep; [|done].
  pose proof (ok_phs _ Hs p Ep) as Hp. apply wp_bind. eapply wp_mono; [by apply ctr_validate_wp|].
  intros [ty code] s' [-> H]. cbn [fst] in H. destruct (Z.eqb_spec ty SBI_PMU_EVENT_TYPE_FW) as [->|]; [|done].
  destruct H as [H|(Ht & v & Ev & Hv & [= E1 E2])]; [done|]. cbn [negb]. destruct (fw_reserved code); [done|].
  pose proof (counter_kind s p cidx v Hs Hp ltac:(lia) Ev Hv) as Kd. rewrite <- E1 in Kd. cbn in Kd.
  apply wp_bind, wp_gets. destruct (_ =? code); [done|]. destruct (fw_index s cidx Hs Kd) as [-> Hi].
  destruct (rd_Some (fw_counters_data p) (cidx - num_hw_ctrs s)) as [w Ew]; [rewrite (ok_fw_data _ _ Hp); lia|].
  by apply wp_bind, (wp_lift _ w).
Qed.

Lemma call_safe c s : pmu_ok s -> call_sane s c -> wp (run_call c) s (fun _ s' => pmu_ok s' /\ same_globals s s').
Proof.
  intros Hs Hc. destruct c; cbn [run_call call_sane] in *.
  - destruct Hc. by apply cfg_match_safe.
  - by apply start_safe.
  - by apply stop_safe.
  - apply wp_bind. eapply wp_mono; [by apply fw_read_safe|]. intros ?? ->. by split; [|apply globals_refl].
  - apply wp_bind. eapply (wp_mono _ _ (fun _ s' => s' = s)).
    + unfold sbi_pmu_ctr_get_info. do 2 apply wp_bind, wp_gets. destruct (_ <=? _); [done|].
      destruct (_ <? _); [by destruct (negb _)|]. by apply wp_bind, with_dev_wp.
    + intros ?? ->. by split; [|apply globals_refl].
  - destruct (phs s) as [p|] eqn:Ep.
    + eapply wp_mono; [by apply (incr_wp _ s p)|]. by intros ?? (? & ? & _).
    + unfold sbi_pmu_ctr_incr_fw. apply wp_bind, wp_gets. rewrite Ep. by split; [|apply globals_refl].
Qed.

(** The states of a hart from its set-up on. *)
Inductive pmu_reachable : pmu D -> Prop :=
  | reach_init s l h rc s' : phs s = None -> ops_ok l -> dev_ok (pmu_dev s) ->
      sbi_pmu_init feat true true true true (add_maps l) h s = Some (rc, s') -> pmu_reachable s'
  | reach_call s c r s' : pmu_reachable s -> call_sane s c -> run_call c s = Some (r, s') -> pmu_reachable s'.

Lemma reachable_ok s : hpm_mask_ok -> pmu_reachable s -> pmu_ok s.
Proof.
  intros Hf. induction 1 as [s l h rc s' Hn Hl Hd E|s c r s' _ IH Hc E].
  - pose proof (pmu_init_ok l h s Hf Hl Hd Hn) as W. unfold wp in W. rewrite E in W. apply W.
  - pose proof (call_safe c s IH Hc) as W. unfold wp in W. rewrite E in W. apply W.
Qed.

(** ** Hardware counters *)

(** The event registers are the same but for their overflow bits. *)
Definition mhpm_same s s' : Prop :=
  forall k i, 0x323 <= k <= 0x33f -> 0 <= i < 63 -> Z.testbit (csr s' k) i = Z.testbit (csr s k) i.

Lemma mhpm_trans s1 s2 s3 : mhpm_same s1 s2 -> mhpm_same s2 s3 -> mhpm_same s1 s3.
Proof. intros H1 H2 k i Hk Hi. rewrite H2 by done. by apply H1. Qed.

Lemma mhpm_upd s s' n v : csr s' = upd_csr (csr s) n v -> ~ (0x323 <= n <= 0x33f) -> mhpm_same s s'.
Proof. intros E Hn k i Hk Hi. rewrite E. unfold upd_csr. by destruct (Z.eqb_spec k n); [lia|]. Qed.

Lemma write_hw_mhpm c v s : 0 <= c < 32 -> c <> 1 -> wp (pmu_ctr_write_hw c v) s (fun _ s' => keeps s s' /\ mhpm_same s s').
Proof.
  intros Hc H1. eapply wp_mono; [apply csr_write_num_keeps, wp_csr_known; unfold CSR_MCYCLE; lia|].
  intros ? s' [K E]. split; [done|]. eapply mhpm_upd; [done|]. unfold CSR_MCYCLE. lia.
Qed.

Lemma enable_irq_mhpm c s : wp (pmu_ctr_enable_irq_hw feat c) s (fun _ s' => keeps s s' /\ mhpm_same s s').
Proof.
  unfold pmu_ctr_enable_irq_hw, SBI_PMU_HW_CTR_MAX. destruct (_ || _) eqn:E; [by split; [apply pmu_keeps_refl|]|]. prop_bool.
  unfold csr_read_by_num. rewrite wp_csr_known by (unfold CSR_MHPMEVENT3; lia). do 2 apply wp_bind, wp_gets.
  apply wp_bind, irq_mask_wp. intros m. destruct (_ =? 0); [|by split; [apply pmu_keeps_refl|]].
  apply wp_bind. eapply wp_mono; [apply csr_write_num_keeps, wp_csr_known; unfold CSR_MHPMEVENT3; lia|].
  intros ? s' [K E']. apply wp_ret. split; [done|]. intros k i Hk Hi. rewrite E'. unfold upd_csr.
  destruct (Z.eqb_spec k (CSR_MHPMEVENT3 + c - 3)) as [->|]; [|done]. rewrite Z.land_spec, not64_bits.
  change MHPMEVENT_OF with (2 ^ 63). rewrite Z.pow2_bits_false by lia. by zcases; try lia; rewrite andb_true_r.
Qed.

Lemma start_hw_mhpm c s : pmu_ok s -> 0 <= c < num_hw_ctrs s -> c <> 1 ->
  wp (pmu_ctr_start_hw feat c 0 false) s (fun _ s' => keeps s s' /\ mhpm_same s s').
Proof.
  intros Hs Hc H1. unfold pmu_ctr_start_hw. apply wp_bind, wp_gets. destruct (_ || _); [by split; [apply pmu_keeps_refl|]|].
  destruct (priv_version feat <? _); [by split; [apply pmu_keeps_refl|]|]. apply wp_bind, wp_gets.
  destruct (negb _); [by split; [apply pmu_keeps_refl|]|].
  apply wp_bind, (wp_mono _ _ (fun _ s' => keeps s s' /\ mhpm_same s s')).
  { apply when_wp; [|by split; [apply pmu_keeps_refl|]]. intros _. apply wp_bind. eapply wp_mono; [apply enable_irq_mhpm|].
    by intros. }
  intros ? s1 [K1 M1]. apply wp_bind, wp_ret, wp_bind. eapply wp_mono; [apply dev_do_keeps|]. intros ? s2 [K2 C2].
  apply wp_bind. eapply wp_mono; [apply csr_write_keeps|]. intros ? s3 [K3 C3]. apply wp_ret. split.
  - apply (pmu_keeps_trans _ s1); [done|]. by apply (pmu_keeps_trans _ s2).
  - apply (mhpm_trans _ s1); [done|]. apply (mhpm_trans _ s2); [intros k i ??; by rewrite C2|].
    eapply mhpm_upd; [done|]. unfold CSR_MCOUNTINHIBIT. lia.
Qed.

Lemma finish_hw_wp c ty code flags data s : pmu_ok s -> ty <> SBI_PMU_EVENT_TYPE_FW -> ctr_fits s c ty ->
  wp (cfg_finish feat c ty code flags data) s (fun r s' => r = c /\ keeps s s' /\ mhpm_same s s').
Proof.
  intros Hs Hty [F1 _]. unfold cfg_finish. apply wp_bind, wp_gets. destruct (Z.eqb_spec ty SBI_PMU_EVENT_TYPE_HW) as [E|].
  2: { apply Z.eqb_neq in Hty. rewrite Hty. by split; [|split; [apply pmu_keeps_refl|]]. }
  destruct (F1 E) as [Hc H1]. pose proof (ok_num _ Hs). apply wp_bind, (wp_mono _ _ (fun _ s' => keeps s s' /\ mhpm_same s s')).
  { apply when_wp; [|by split; [apply pmu_keeps_refl|]]. intros _. apply write_hw_mhpm; lia. }
  intros ? s1 [K1 M1]. apply wp_bind, (wp_mono _ _ (fun _ s' => keeps s1 s' /\ mhpm_same s1 s')).
  { apply when_wp; [|by split; [apply pmu_keeps_refl|]]. intros _. rewrite wrap_small by lia. apply wp_bind.
    eapply wp_mono; [apply start_hw_mhpm; [by eapply keeps_ok|rewrite (sg_num _ _ (kp_globals _ _ K1)); lia|done]|]. by intros. }
  intros ? s2 [K2 M2]. apply wp_ret. split; [done|]. split; [by apply (pmu_keeps_trans _ s1)|by apply (mhpm_trans _ s1)].
Qed.

(** What a request for a hardware event gives. *)
Definition hw_given s p (base mask flags ev data c : Z) s' : Prop :=
  (exists p', phs s' = Some p' /\ active_events p' = <[Z.to_nat c := u32 ev]> (active_events p) /\
     fw_counters_data p' = fw_counters_data p) /\
  ((c = 0 \/ c = 2) /\ pmu_ctr_find_fixed_hw ev = c \/
   chosen feat (hw_event_map s) p (csr s CSR_MCOUNTINHIBIT) base mask ev data c /\
   forall i, 0 <= i < 63 -> Z.testbit (csr s' (CSR_MHPMEVENT3 + c - 3)) i = Z.testbit (event_value feat xlate flags ev data) i).

Lemma cfg_hw_wp base mask flags ev data s p : pmu_ok s -> phs s = Some p -> 0 <= base < 2 ^ 64 - 64 ->
  flag flags CFG_SKIP_MATCH = false -> get_cidx_type ev <> SBI_PMU_EVENT_TYPE_FW ->
  wp (sbi_pmu_ctr_cfg_match feat xlate base mask flags ev data) s
    (fun c s' => c < 0 \/ hw_given s p base mask flags ev data c s').
Proof.
  intros Hs Ep Hb Hsk Hty. pose proof (ok_num _ Hs). unfold sbi_pmu_ctr_cfg_match. do 3 apply wp_bind, wp_gets. rewrite Ep.
  destruct (_ <=? _); [by left|]. apply wp_bind. eapply wp_mono; [by apply event_validate_wp|]. intros ty s' [-> Ht].
  destruct (Z.ltb_spec ty 0); [by left|]. destruct Ht as [|Ht]; [lia|]. rewrite <- Ht in Hty. rewrite Hsk.
  rewrite (proj2 (Z.eqb_neq ty SBI_PMU_EVENT_TYPE_FW) Hty). apply wp_bind.
  eapply wp_mono; [by apply (find_hw_wp feat xlate base mask flags ev data s p); [..|lia]|]. intros c s1 [K1 Hcc].
  destruct (Z.ltb_spec c 0); [by left|]. destruct Hcc as [|Hcc]; [lia|].
  assert (c < num_hw_ctrs s /\ c <> 1) as [Hr Hc1].
  { destruct Hcc as [[Hf _]|[(e & _ & _ & _ & _ & ? & _) [? _]]]; lia. }
  pose proof (keeps_ok _ _ K1 Hs) as Hs1. pose proof K1 as [[_ En Et _] Ep1]. rewrite Ep in Ep1.
  pose proof (ok_phs _ Hs1 p Ep1) as Hp1. rewrite En in Hp1.
  destruct (set_active_ok (num_hw_ctrs s) p c (u32 ev) Hp1) as (q & Eq & Hq & A & B & C & _); [lia| |].
  { right. rewrite cidx_type_u32, <- Ht. split_and!; [done|done|lia]. }
  apply wp_bind. eapply wp_mono; [eapply (modify_phs_safe _ s1 p q); [done|done|done|by rewrite En]|].
  intros ? s2 [(Hs2 & G2 & _) [Ep2 C2]].
  eapply wp_mono; [apply finish_hw_wp; [done|done|]|].
  { split; [|done]. intros _. rewrite (sg_num _ _ G2), En. lia. }
  intros r s3 (-> & K3 & M3). right. split.
  - exists q. by rewrite (kp_phs _ _ K3).
  - destruct Hcc as [Hcc|(Hch & _ & Ec)]; [by left|right]. split; [done|]. intros i Hi.
    pose proof Hch as (e & _ & _ & _ & _ & Hc3 & _). unfold CSR_MHPMEVENT3 in *.
    rewrite M3 by lia. rewrite C2, Ec. unfold upd_csr. by rewrite Z.eqb_refl.
Qed.

(** ** The theorems *)

(** C25: From the set-up of a hart on, under every sequence of calls with sane
    configuration requests and any other arguments, each hardware counter holds
    a hardware event or none, each firmware counter a firmware event or none; the
    set-up succeeds, and every further such call returns without an access out of
    the bounds of the state's arrays. *)
Theorem pmu_calls_safe :
  hpm_mask_ok ->
  (forall s l h, phs s = None -> ops_ok l -> dev_ok (pmu_dev s) ->
     exists s', sbi_pmu_init feat true true true true (add_maps l) h s = Some (0, s') /\ pmu_reachable s') /\
  (forall s c, pmu_reachable s -> call_sane s c ->
     pmu_ok s /\ exists r s', run_call c s = Some (r, s') /\ pmu_reachable s').
Proof.
  intros Hf. split.
  - intros s l h Hn Hl Hd. destruct (proj1 (wp_run _ _ _) (pmu_init_ok l h s Hf Hl Hd Hn)) as (rc & s' & E & -> & _).
    exists s'. split; [done|]. by apply (reach_init s l h 0).
  - intros s c Hr Hc. pose proof (reachable_ok s Hf Hr) as Hs. split; [done|].
    destruct (proj1 (wp_run _ _ _) (call_safe c s Hs Hc)) as (r & s' & E & _). exists r, s'. split; [done|].
    by apply (reach_call s c r).
Qed.

(** A firmware counter counts: when a request to clear and start a counter
    for a firmware event that no counter counts yet returns counter [c], [c] is
    one of those asked for, reading it after any sequence of firmware events gives
    the number of the event's occurrences (modulo 2^64), and after stopping it no
    further occurrences change the value. *)
Lemma fw_counter_counts s p mask ev data id c s1 ids1 ids2 :
  pmu_ok s -> phs s = Some p -> word_ok mask ->
  get_cidx_type ev = SBI_PMU_EVENT_TYPE_FW -> get_cidx_code ev = id -> 0 <= id < SBI_PMU_FW_MAX ->
  (forall c, num_hw_ctrs s <= c < total_ctrs s -> ~ counts_at (num_hw_ctrs s) p id c) ->
  sbi_pmu_ctr_cfg_match feat xlate 0 mask CLEAR_AND_START ev data s = Some (c, s1) -> 0 <= c ->
  Z.testbit mask c = true /\
  exists s2, (incr_all ids1;;
    r1 ← sbi_pmu_ctr_fw_read c; rc ← sbi_pmu_ctr_stop feat 0 (2 ^ c) 0;
    incr_all ids2;;
    r2 ← sbi_pmu_ctr_fw_read c; mret (r1, rc, r2)) s1 =
  Some (inr (u64 (count id ids1)), 0, inr (u64 (count id ids1)), s2).
Proof.
  intros Hs Ep Hm Hty Hcode Hid Hno E Hc.
  pose proof (counter_cfg mask ev data s p id Hs Ep Hm Hty Hcode Hid Hno) as W. unfold wp in W. rewrite E in W.
  destruct W as [|[Hb H1]]; [lia|]. split; [done|].
  assert (wp (incr_all ids1;; r1 ← sbi_pmu_ctr_fw_read c; rc ← sbi_pmu_ctr_stop feat 0 (2 ^ c) 0;
    incr_all ids2;; r2 ← sbi_pmu_ctr_fw_read c; mret (r1, rc, r2)) s1
    (fun x _ => x = (inr (u64 (count id ids1)), 0, inr (u64 (count id ids1))))) as W.
  { apply wp_bind. eapply wp_mono; [apply (counter_incr_all ids1 s1 c id 0 true); [done|lia]|]. intros ? s2 H2.
    apply wp_bind. eapply wp_mono; [exact (counter_read _ _ _ _ _ H2)|]. intros r1 s3 [-> ->]. apply wp_bind.
    eapply wp_mono; [exact (counter_stop _ _ _ _ H2)|]. intros rc s4 [-> H4]. apply wp_bind.
    eapply wp_mono; [exact (counter_incr_all ids2 _ _ _ _ _ H4 (wrap_range 64 _ ltac:(lia)))|]. intros ? s5 H5.
    apply wp_bind. eapply wp_mono; [exact (counter_read _ _ _ _ _ H5)|]. by intros r2 s6 [-> ->]. }
  apply wp_run in W as (x & s2 & E2 & ->). by exists s2.
Qed.

(** A request for a hardware event returns a fixed counter for cycles or
    instructions, or a programmable counter that was asked for, that the table of
    events allows for the event, that had no event and was stopped; the counter
    then holds the event, every other counter what it held, and its event
    register the platform's value with counting in machine mode inhibited (up to
    the overflow bit). *)
Lemma hw_counter_given s p base mask flags ev data c s' :
  pmu_ok s -> phs s = Some p -> 0 <= base < 2 ^ 64 - 64 -> flag flags CFG_SKIP_MATCH = false ->
  get_cidx_type ev <> SBI_PMU_EVENT_TYPE_FW ->
  sbi_pmu_ctr_cfg_match feat xlate base mask flags ev data s = Some (c, s') -> 0 <= c ->
  hw_given s p base mask flags ev data c s'.
Proof.
  intros Hs Ep Hb Hsk Hty E Hc.
  pose proof (cfg_hw_wp base mask flags ev data s p Hs Ep Hb Hsk Hty) as W. unfold wp in W. rewrite E in W.
  destruct W as [|W]; [lia|done].
Qed.

(** ** Requests that leave an array *)

Lemma fails_after {A B} (m : M D A) (k : A -> M D B) s : wp m s (fun x s' => k x s' = None) -> (m ≫= k) s = None.
Proof. unfold wp, mbind, M_bind. by destruct (m s) as [[x s']|]. Qed.

Lemma fails_in {A B} (m : M D A) (k : A -> M D B) s : m s = None -> (m ≫= k) s = None.
Proof. unfold mbind, M_bind. by intros ->. Qed.

Lemma validate_fw p ev data s : get_cidx_type ev = SBI_PMU_EVENT_TYPE_FW -> 0 <= get_cidx_code ev < SBI_PMU_FW_MAX ->
  wp (pmu_event_validate p ev data) s (fun ty s' => s' = s /\ ty = SBI_PMU_EVENT_TYPE_FW).
Proof.
  intros Hty Hc. destruct (valid_code _ Hc) as [E1 E2]. unfold pmu_event_validate. rewrite Hty, E1, E2.
  assert ((get_cidx_code ev <? SBI_PMU_FW_MAX) = true) as E3 by (apply Z.ltb_lt; lia). rewrite E3.
  change (SBI_PMU_EVENT_TYPE_FW =? SBI_PMU_EVENT_TYPE_HW) with false. rewrite Z.eqb_refl.
  apply wp_bind, with_dev_wp. by destruct (_ ≫= _).
Qed.

(** The common prefix of the three requests, all for the firmware event 0. *)
Lemma cfg_overruns base mask flags data s p : pmu_ok s -> phs s = Some p ->
  u64 (base + sbi_fls mask) < total_ctrs s ->
  (if flag flags CFG_SKIP_MATCH then
     (v ← get_active p (u64 (base + sbi_ffs mask));
      if v =? SBI_PMU_EVENT_IDX_INVALID then mret SBI_EINVAL
      else cfg_finish feat (int_of (u64 (base + sbi_ffs mask))) SBI_PMU_EVENT_TYPE_FW 0 flags data) s = None
   else wp (pmu_ctr_find_fw base mask 0 data) s (fun c s' => s' = s /\ 0 <= c /\
          (modify_phs (fun p => set_active p c 0xf0000);; cfg_finish feat c SBI_PMU_EVENT_TYPE_FW 0 flags data) s = None)) ->
  sbi_pmu_ctr_cfg_match feat xlate base mask flags 0xf0000 data s = None.
Proof.
  intros Hs Ep Hb H. unfold sbi_pmu_ctr_cfg_match. do 3 apply fails_after, wp_gets. rewrite Ep.
  destruct (Z.leb_spec (total_ctrs s) (u64 (base + sbi_fls mask))); [lia|].
  apply fails_after. eapply wp_mono; [by apply validate_fw|]. intros ty s' [-> ->].
  change (SBI_PMU_EVENT_TYPE_FW <? 0) with false. change (get_cidx_code 0xf0000) with 0. cbv iota.
  destruct (flag flags CFG_SKIP_MATCH); [exact H|]. rewrite Z.eqb_refl. change (0 =? SBI_PMU_FW_PLATFORM) with false.
  apply fails_after, wp_bind. eapply wp_mono; [exact H|]. intros c s' (-> & Hc & F). cbn [when].
  apply wp_bind, wp_ret, wp_ret. destruct (Z.ltb_spec c 0); [lia|]. exact F.
Qed.

(** Clearing the value of a firmware counter that is none. *)
Lemma clear_outside c s p flags data : num_hw_ctrs s <= 32 -> length (fw_counters_data p) = 16%nat -> phs s = Some p ->
  0 <= c < num_hw_ctrs s -> flag flags CFG_CLEAR_VALUE = true -> cfg_finish feat c SBI_PMU_EVENT_TYPE_FW 0 flags data s = None.
Proof.
  intros Hn L Ep Hc Hfl. assert (u32 (c - num_hw_ctrs s) = c - num_hw_ctrs s + 2 ^ 32) as E.
  { symmetry. apply (Z.mod_unique _ _ (-1)); lia. }
  unfold cfg_finish. apply fails_after, wp_gets. change (SBI_PMU_EVENT_TYPE_FW =? SBI_PMU_EVENT_TYPE_HW) with false.
  rewrite Z.eqb_refl, Hfl, E. cbn [when]. apply fails_in. unfold modify_phs. apply fails_after, (this_wp _ p); [done|].
  apply fails_in. unfold set_fw_data, wr. rewrite L. zcases; lia || done.
Qed.

Lemma base_overrun s p data : pmu_ok s -> phs s = Some p -> 3 < num_hw_ctrs s ->
  rd (active_events p) 3 = Some SBI_PMU_EVENT_IDX_INVALID ->
  sbi_pmu_ctr_cfg_match feat xlate (num_hw_ctrs s) 8 CFG_CLEAR_VALUE 0xf0000 data s = None.
Proof.
  intros Hs Ep Hn E3. pose proof (ok_num _ Hs). pose proof (ok_total _ Hs). pose proof (ok_phs _ Hs p Ep) as Hp.
  apply (cfg_overruns _ _ _ _ _ p Hs Ep).
  { change (sbi_fls 8) with 3. rewrite wrap_small by lia. lia. }
  change (flag CFG_CLEAR_VALUE CFG_SKIP_MATCH) with false. cbv iota. unfold pmu_ctr_find_fw.
  apply wp_bind, (this_wp _ p); [done|]. do 2 apply wp_bind, wp_gets. apply wp_bind.
  apply (wp_lift _ _ _ _ (each_spec 8 ltac:(unfold word_ok; lia))). change 8 with (2 ^ 3). rewrite word_bits_one by lia.
  cbn [find_fw_loop]. rewrite wrap_small by lia.
  rewrite (proj2 (Z.ltb_ge (3 + num_hw_ctrs s) (num_hw_ctrs s))), (proj2 (Z.leb_gt (total_ctrs s) (3 + num_hw_ctrs s))) by lia.
  cbn [orb]. apply wp_bind, (wp_lift _ _ _ _ E3). rewrite Z.eqb_refl. cbn [negb]. apply wp_bind, with_dev_wp.
  change (SBI_PMU_FW_PLATFORM =? 0) with false. cbn [andb].
  apply (wp_mono _ _ (fun c s' => c = 3 /\ s' = s)); [by destruct (_ ≫= _)|]. intros c s' [-> ->].
  split; [done|]. split; [lia|]. unfold mbind at 1, M_bind at 1, modify_phs, this, gets, lift, mbind, M_bind. rewrite Ep.
  cbn [mbind option_bind]. unfold set_active. rewrite wr_Some by (rewrite (ok_active _ _ Hp); lia). cbn [mbind option_bind put_phs].
  eapply (clear_outside 3); cycle 2; [reflexivity|cbn [num_hw_ctrs]; lia|reflexivity|cbn [num_hw_ctrs]; lia|apply Hp].
Qed.

(** C38: After the set-up of a hart with programmable counters, three requests of
    the supervisor for a firmware event make the firmware leave its arrays: one
    that names a hardware counter with [SKIP_MATCH] and asks to clear its value,
    one that names no counter at all with [SKIP_MATCH], and one with a base other
    than 0, whose answer is the number of a bit instead of a counter. *)
Theorem cfg_match_leaves_arrays l h s rc s' data :
  hpm_mask_ok -> 3 < hw_count -> phs s = None -> ops_ok l -> dev_ok (pmu_dev s) ->
  sbi_pmu_init feat true true true true (add_maps l) h s = Some (rc, s') ->
  sbi_pmu_ctr_cfg_match feat xlate 0 1 (CFG_SKIP_MATCH + CFG_CLEAR_VALUE) 0xf0000 data s' = None /\
  sbi_pmu_ctr_cfg_match feat xlate 0 0 CFG_SKIP_MATCH 0xf0000 data s' = None /\
  sbi_pmu_ctr_cfg_match feat xlate hw_count 8 CFG_CLEAR_VALUE 0xf0000 data s' = None.
Proof.
  intros Hf Hn Hnone Hl Hd E. pose proof (pmu_init_ok l h s Hf Hl Hd Hnone) as W. unfold wp in W. rewrite E in W.
  destruct W as (_ & Hs & En & p & Ep & E0 & E3 & _). pose proof (ok_num _ Hs). pose proof (ok_total _ Hs).
  pose proof (ok_phs _ Hs p Ep) as Hp. split_and!.
  - apply (cfg_overruns _ _ _ _ _ p Hs Ep); [change (u64 (0 + sbi_fls 1)) with 0; lia|].
    change (flag _ CFG_SKIP_MATCH) with true. change (u64 (0 + sbi_ffs 1)) with 0.
    apply fails_after, (wp_lift _ _ _ _ E0). change (SBI_PMU_HW_CPU_CYCLES =? SBI_PMU_EVENT_IDX_INVALID) with false.
    apply (clear_outside 0 s' p); [lia|apply Hp|done|lia|done].
  - apply (cfg_overruns _ _ _ _ _ p Hs Ep); [change (u64 (0 + sbi_fls 0)) with 0; lia|].
    change (flag CFG_SKIP_MATCH CFG_SKIP_MATCH) with true. change (u64 (0 + sbi_ffs 0)) with 63. cbv iota. apply fails_in.
    unfold get_active, lift. assert (rd (active_events p) 63 = None) as ->; [|done].
    unfold rd. cbn. apply lookup_ge_None. rewrite (ok_active _ _ Hp). lia.
  - rewrite <- En. by apply (base_overrun s' p); [..|lia|].
Qed.

End Count.

(** ** A hart *)

Definition demo_pmu_feat : sbi_hart_features := mkFeat true 3 [0] 0 0 0 0x1f8 64.
Definition demo_xlate (event data : Z) : Z := event + 1.
Definition demo_pmu : pmu () := mkPmu [] 0 0 None false None (fun n => if n =? CSR_MCOUNTINHIBIT then 0xfffffff8 else 0) () [].
Definition demo_adds : list add_op := [AddHw 3 6 0x1f8].
Definition demo_booted : pmu () :=
  from_option snd demo_pmu (sbi_pmu_init demo_pmu_feat true true true true (add_maps demo_pmu_feat demo_adds) 0 demo_pmu).

Lemma demo_hpm_mask_ok : hpm_mask_ok demo_pmu_feat.
Proof.
  split; [cbn; lia|]. intros i Hi. assert (i = 0 \/ i = 1 \/ i = 2) as [->|[->| ->]] by lia; reflexivity.
Qed.

Lemma demo_dev_ok : dev_ok (pmu_dev demo_pmu).
Proof. by intros d f h e [=]. Qed.

Lemma demo_ops_ok : ops_ok demo_adds.
Proof. apply Forall_singleton. lia. Qed.

Lemma demo_booted_run :
  sbi_pmu_init demo_pmu_feat true true true true (add_maps demo_pmu_feat demo_adds) 0 demo_pmu = Some (0, demo_booted).
Proof. vm_compute. reflexivity. Qed.

Lemma demo_booted_ok : pmu_ok demo_booted.
Proof.
  apply (reachable_ok demo_pmu_feat demo_xlate _ demo_hpm_mask_ok).
  exact (reach_init demo_pmu_feat demo_xlate demo_pmu demo_adds 0 0 demo_booted eq_refl demo_ops_ok demo_dev_ok demo_booted_run).
Qed.

Definition demo_phs : sbi_pmu_hart_state := default (mkPhs 0 [] 0 false []) (phs demo_booted).

Lemma pmu_calls_safe_witness :
  exists s', sbi_pmu_init demo_pmu_feat true true true true (add_maps demo_pmu_feat demo_adds) 0 demo_pmu = Some (0, s') /\
    pmu_reachable demo_pmu_feat demo_xlate s'.
Proof.
  exact (proj1 (pmu_calls_safe demo_pmu_feat demo_xlate demo_hpm_mask_ok) demo_pmu demo_adds 0 eq_refl demo_ops_ok demo_dev_ok).
Defined.

Lemma fw_counter_counts_witness :
  Z.testbit 0xffffff 9 = true /\
  exists s2, (incr_all [5; 4; 5];;
    r1 ← sbi_pmu_ctr_fw_read 9; rc ← sbi_pmu_ctr_stop demo_pmu_feat 0 (2 ^ 9) 0;
    incr_all [5];;
    r2 ← sbi_pmu_ctr_fw_read 9; mret (r1, rc, r2))
    (from_option snd demo_booted (sbi_pmu_ctr_cfg_match demo_pmu_feat demo_xlate 0 0xffffff CLEAR_AND_START 0xf0005 0 demo_booted)) =
  Some (inr (u64 (count 5 [5; 4; 5])), 0, inr (u64 (count 5 [5; 4; 5])), s2).
Proof.
  refine (fw_counter_counts demo_pmu_feat demo_xlate demo_booted demo_phs 0xffffff 0xf0005 0 5 9 _ [5; 4; 5] [5]
    demo_booted_ok _ _ _ _ _ _ _ _); [reflexivity|unfold word_ok; lia|reflexivity|reflexivity|unfold SBI_PMU_FW_MAX; lia| |vm_compute; reflexivity|lia].
  intros c _ (v & _ & _ & Hb). change (fw_counters_started demo_phs) with 0 in Hb. by rewrite Z.bits_0 in Hb.
Defined.

Lemma hw_counter_given_witness :
  hw_given demo_pmu_feat demo_xlate demo_booted demo_phs 0 0xff 0 3 0 7
    (from_option snd demo_booted (sbi_pmu_ctr_cfg_match demo_pmu_feat demo_xlate 0 0xff 0 3 0 demo_booted)).
Proof.
  refine (hw_counter_given demo_pmu_feat demo_xlate demo_booted demo_phs 0 0xff 0 3 0 7 _ demo_booted_ok _ _ _ _ _ _);
    [reflexivity|lia|reflexivity|discriminate|vm_compute; reflexivity|lia].
Defined.

Lemma cfg_match_leaves_arrays_witness :
  sbi_pmu_ctr_cfg_match demo_pmu_feat demo_xlate 0 1 (CFG_SKIP_MATCH + CFG_CLEAR_VALUE) 0xf0000 0 demo_booted = None.
Proof.
  refine (proj1 (cfg_match_leaves_arrays demo_pmu_feat demo_xlate demo_adds 0 demo_pmu 0 demo_booted 0 demo_hpm_mask_ok _ eq_refl
    demo_ops_ok demo_dev_ok demo_booted_run)). reflexivity.
Defined.
