(* ===== verification/SbiPmuEcall.v ===== *)
(** * Calls of the performance monitoring extension (lib/sbi/sbi_ecall_pmu.c)

    The dispatch of the extension's calls and [sbi_pmu_event_get_info] of
    lib/sbi/sbi_pmu.c, which answers for a table of events in the supervisor's
    memory. *)

From S2P Require Import Prelude SbiBitops SbiScratch SbiHartmask SbiMemregion SbiDomain SbiHsm SbiHart SbiPmp SbiPmpRoot SbiPmu SbiPmuSpec SbiPmuCount.

Definition SBI_ERR_INVALID_PARAM : Z := -3.
Definition SBI_ERR_INVALID_ADDRESS : Z := -5.

Definition null_phs : sbi_pmu_hart_state := mkPhs 0 [] 0 false [].

Section PmuEcall.
Context {D : Type}.
Variables (feat : sbi_hart_features) (xlate : Z -> Z -> Z) (bits : Z) (ds : domain_state) (dom : Z).

(** The state of the PMU, memory, the PMP of the hart. *)
Definition pmu_world : Type := pmu D * mem * Hw.pmp.

(** [pmu_event_validate] by a call that has not checked the pointer, which the
    function follows for a platform event only. *)
Definition validate_unchecked (s : pmu D) (event_idx edata : Z) : option Z :=
  match phs s with
  | Some p => fst <$> pmu_event_validate p event_idx edata s
  | None =>
      match pmu_dev s ≫= fw_event_validate_encoding with
      | Some _ => if (get_cidx_type event_idx =? SBI_PMU_EVENT_TYPE_FW) &&
                     (get_cidx_code event_idx =? SBI_PMU_FW_PLATFORM)
                  then None else fst <$> pmu_event_validate null_phs event_idx edata s
      | None => fst <$> pmu_event_validate null_phs event_idx edata s
      end
  end.

(** The inner loop: an entry of the table covers the event. *)
Definition event_known (l : list sbi_pmu_hw_event) (event_idx edata : Z) : bool :=
  existsb (fun temp =>
    if (event_idx =? SBI_PMU_EVENT_RAW_IDX) || (event_idx =? SBI_PMU_EVENT_RAW_V2_IDX)
    then select temp =? Z.land edata (select_mask temp)
    else (start_idx temp <=? event_idx) && (event_idx <=? end_idx temp)) l.

(** [einfo[i].output] for the event at [a]. *)
Definition event_output (s : pmu D) (m : mem) (a : Z) : option Z :=
  let event_idx := load_le m a 4 in
  let event_data := load_le m (a + 8) 8 in
  event_type ← validate_unchecked s event_idx event_data;
  Some (if event_type <? 0 then 0 else if event_known (hw_event_map s) event_idx event_data then 1 else 0).

(** [n] rounds of the loop from [i], an [int]. *)
Fixpoint event_info_loop (s : pmu D) (n : nat) (i einfo : Z) (m : mem) : option mem :=
  match n with
  | O => Some m
  | S n =>
      if 2 ^ 31 <=? i then None
      else
        let a := einfo + 16 * i in
        out ← event_output s m a;
        event_info_loop s n (i + 1) einfo (store_le m (a + 4) 4 out)
  end.

Definition sbi_pmu_event_get_info (shmem_phys_lo shmem_phys_hi num_events flags : Z) (w : pmu_world)
    : option (Z * pmu_world) :=
  let '(s, m, p) := w in
  let shmem_size := u64 (num_events * 16) in
  if negb (flags =? 0) then Some (SBI_ERR_INVALID_PARAM, w)
  else if (num_events =? 0) || negb (Z.land shmem_phys_lo 0xf =? 0) then Some (SBI_ERR_INVALID_PARAM, w)
  else if negb (shmem_phys_hi =? 0) then Some (SBI_EINVALID_ADDR, w)
  else
    ok ← sbi_domain_check_addr_range (domains ds !! dom) shmem_phys_lo shmem_size PRV_S
           (Z.lor SBI_DOMAIN_READ SBI_DOMAIN_WRITE);
    if negb ok then Some (SBI_ERR_INVALID_ADDRESS, w)
    else
      '(_, p) ← sbi_hart_map_saddr bits feat shmem_phys_lo shmem_size p;
      m ← event_info_loop s (Z.to_nat num_events) 0 shmem_phys_lo m;
      let '(_, p) := sbi_hart_unmap_saddr bits feat p in
      Some (0, (s, m, p)).

(** ** Dispatch *)

Definition on_pmu {A} (m : M D A) (w : pmu_world) : option (A * pmu_world) :=
  '(x, s) ← m w.1.1; Some (x, (s, w.1.2, w.2)).

(** A result that is not negative is a value. *)
Definition ret_value (old r : Z) : Z * Z := if 0 <=? r then (0, r) else (r, old).

(** The arguments a0 to a4; [value] is [out->value], which the caller has set to 0,
    and [junk] an unset local variable. *)
Definition sbi_ecall_pmu_handler (junk funcid a0 a1 a2 a3 a4 : Z) (w : pmu_world) : option (Z * Z * pmu_world) :=
  let plain r := '(ret, w) ← r; Some (ret, 0, w) in
  if funcid =? 0 then '(r, w) ← on_pmu sbi_pmu_num_ctr w; Some (ret_value 0 r, w)
  else if funcid =? 1 then
    '(r, w) ← on_pmu (sbi_pmu_ctr_get_info feat (u32 a0)) w;
    Some (match r with inl rc => (rc, 0) | inr v => (0, v) end, w)
  else if funcid =? 2 then
    '(r, w) ← on_pmu (sbi_pmu_ctr_cfg_match feat xlate a0 a1 a2 a3 a4) w; Some (ret_value 0 r, w)
  else if funcid =? 5 then
    '(r, w) ← on_pmu (sbi_pmu_ctr_fw_read (u32 a0)) w;
    Some (match r with inl rc => (rc, junk) | inr v => (0, v) end, w)
  else if funcid =? 6 then Some (0, 0, w)
  else if funcid =? 3 then plain (on_pmu (sbi_pmu_ctr_start feat a0 a1 a2 a3) w)
  else if funcid =? 4 then plain (on_pmu (sbi_pmu_ctr_stop feat a0 a1 a2) w)
  else if funcid =? 8 then plain (sbi_pmu_event_get_info a0 a1 a2 a3 w)
  else Some (SBI_ENOTSUPP, 0, w).

(** ** Correctness *)

Lemma event_output_ext s m m' a : (forall x, a <= x < a + 4 \/ a + 8 <= x < a + 16 -> m' x = m x) ->
  event_output s m' a = event_output s m a.
Proof.
  intros H. unfold event_output. rewrite (load_le_ext m' m a a 4), (load_le_ext m' m (a + 8) (a + 8) 8); [done|..].
  - intros i Hi. apply H. lia.
  - intros i Hi. apply H. lia.
Qed.

Lemma event_output_total s m a : pmu_ok s -> is_Some (phs s) -> exists o, event_output s m a = Some o /\ (o = 0 \/ o = 1).
Proof.
  intros Hs [p Ep]. unfold event_output, validate_unchecked. rewrite Ep.
  pose proof (event_validate_wp p (load_le m a 4) (load_le m (a + 8) 8) s Hs) as W. unfold wp in W.
  destruct (pmu_event_validate _ _ _ _) as [[ty s']|]; [|done]. cbn. eexists. split; [done|].
  destruct (ty <? 0); [by left|]. destruct (event_known _ _ _); auto.
Qed.

(** The rounds of the loop: the outputs are those of the memory before, and
    nothing else changes. *)
Lemma event_info_loop_spec s n i lo m : pmu_ok s -> is_Some (phs s) -> 0 <= i -> i + Z.of_nat n <= 2 ^ 31 ->
  exists m', event_info_loop s n i lo m = Some m' /\
    (forall j, i <= j < i + Z.of_nat n -> Some (load_le m' (lo + 16 * j + 4) 4) = event_output s m (lo + 16 * j)) /\
    (forall x, (forall j, i <= j < i + Z.of_nat n -> ~ (lo + 16 * j + 4 <= x < lo + 16 * j + 8)) -> m' x = m x).
Proof.
  intros Hs Hp. revert i m. induction n as [|n IH]; intros i m H0 Hn.
  { exists m. split; [done|]. split; [lia|done]. }
  cbn [event_info_loop]. destruct (Z.leb_spec (2 ^ 31) i); [lia|].
  destruct (event_output_total s m (lo + 16 * i) Hs Hp) as (o & Eo & Ho). rewrite Eo, some_bind.
  set (m1 := store_le m (lo + 16 * i + 4) 4 o).
  assert (forall x, ~ (lo + 16 * i + 4 <= x < lo + 16 * i + 8) -> m1 x = m x) as F1.
  { intros x Hx. apply store_le_other. lia. }
  destruct (IH (i + 1) m1) as (m' & E & Hout & Hf); [lia..|]. exists m'. split; [done|]. split.
  - intros j Hj. destruct (Z.eq_dec j i) as [->|Hne].
    + rewrite Eo. f_equal. rewrite (load_le_ext m' m1 _ (lo + 16 * i + 4)).
      * apply load_store_le. destruct Ho as [-> | ->]; cbn; lia.
      * intros k Hk. apply Hf. lia.
    + rewrite Hout by lia. apply event_output_ext. intros x Hx. apply F1. lia.
  - intros x Hx. rewrite Hf, F1; [done|apply Hx; lia|]. intros j Hj. apply Hx. lia.
Qed.

(** Asking about a table of events in memory answers for every entry whether
    the event is valid and known to the table of hardware events, from the
    memory's contents before the call, and changes the output words only, all of
    them readable and writable for the supervisor; when the domain does not allow
    the table, nothing is changed. *)
Lemma event_get_info_answers d s m pm lo num :
  pmu_ok s -> is_Some (phs s) -> domains ds !! dom = Some d -> dom_sane d ->
  Forall (fun r => base r + 2 ^ order r < 2 ^ 64) (dom_regions d) ->
  0 <= lo -> lo mod 16 = 0 -> 0 < num <= 2 ^ 31 -> lo + 16 * num < 2 ^ 64 ->
  exists rc m' pm', sbi_pmu_event_get_info lo 0 num 0 (s, m, pm) = Some (rc, (s, m', pm')) /\
    (rc = 0 /\
     (forall x, lo <= x < lo + 16 * num ->
        sbi_domain_check_addr (Some d) x PRV_S (Z.lor SBI_DOMAIN_READ SBI_DOMAIN_WRITE) = true) /\
     (forall j, 0 <= j < num -> Some (load_le m' (lo + 16 * j + 4) 4) = event_output s m (lo + 16 * j)) /\
     (forall x, (forall j, 0 <= j < num -> ~ (lo + 16 * j + 4 <= x < lo + 16 * j + 8)) -> m' x = m x) \/
     rc = SBI_ERR_INVALID_ADDRESS /\ m' = m /\ pm' = pm).
Proof.
  intros Hs Hp Ed Hd Ht H0 Hal Hn Hmax. unfold sbi_pmu_event_get_info. cbn [negb Z.eqb].
  destruct (Z.eqb_spec num 0); [lia|]. assert (Z.land lo 0xf = 0) as ->.
  { change 0xf with (Z.ones 4). by rewrite Z.land_ones by lia. }
  cbn [orb negb Z.eqb]. rewrite (wrap_small 64 (num * 16)), Ed by lia. unfold sbi_domain_check_addr_range.
  rewrite (wrap_small 64) by lia.
  destruct (addr_range_loop_spec d Hd Ht (range_fuel d) lo (lo + num * 16) PRV_S (Z.lor SBI_DOMAIN_READ SBI_DOMAIN_WRITE)
    ltac:(lia) (ahead_fuel d lo)) as (b & -> & Hb). rewrite some_bind.
  destruct b; cbn [negb]; [|by eexists _, _, _; split; [|right]].
  destruct (map_saddr_total bits feat lo (num * 16) pm) as ([rc p1] & ->). rewrite some_bind.
  destruct (event_info_loop_spec s (Z.to_nat num) 0 lo m Hs Hp) as (m' & -> & Hout & Hf); [lia..|]. rewrite some_bind.
  destruct (sbi_hart_unmap_saddr bits feat p1) as [rc2 p2]. eexists 0, m', p2. split; [done|]. left.
  rewrite Z2Nat.id in * by lia. split; [done|]. split; [|done].
  intros x Hx. apply (proj1 Hb eq_refl). lia.
Qed.

(** The size of the table wraps: a request for 2^60 events passes the check of the
    domain whatever it allows, and the loop writes from the given address on. *)
Lemma event_get_info_size_wraps d s m lo k : pmu_ok s -> is_Some (phs s) -> domains ds !! dom = Some d ->
  0 <= lo < 2 ^ 64 -> 0 <= k < 2 ^ 31 ->
  sbi_domain_check_addr_range (Some d) lo (u64 (2 ^ 60 * 16)) PRV_S (Z.lor SBI_DOMAIN_READ SBI_DOMAIN_WRITE) = Some true /\
  exists m', event_info_loop s (Z.to_nat (k + 1)) 0 lo m = Some m' /\
    (load_le m' (lo + 16 * k + 4) 4 = 0 \/ load_le m' (lo + 16 * k + 4) 4 = 1).
Proof.
  intros Hs Hp Ed Hlo Hk. split.
  - change (u64 (2 ^ 60 * 16)) with 0. unfold sbi_domain_check_addr_range, range_fuel. rewrite Z.add_0_r, wrap_small by lia.
    cbn [addr_range_loop Nat.add]. by rewrite Z.ltb_irrefl.
  - destruct (event_info_loop_spec s (Z.to_nat (k + 1)) 0 lo m Hs Hp) as (m' & E & Hout & _); [lia..|].
    exists m'. split; [done|]. specialize (Hout k ltac:(lia)).
    destruct (event_output_total s m (lo + 16 * k) Hs Hp) as (o & Eo & Ho). rewrite Eo in Hout.
    assert (load_le m' (lo + 16 * k + 4) 4 = o) as -> by congruence. done.
Qed.

End PmuEcall.

Definition demo_pmu_domains : domain_state := mkDS {[1 := demo_layout]} [1] 1 true 0 0 ∅ (scr demo_state).

Lemma event_get_info_answers_witness :
  exists rc m' pm', sbi_pmu_event_get_info demo_pmu_feat 54 demo_pmu_domains 1 0x80000000 0 2 0
      (demo_booted, (fun a => if a =? 0x80000000 then 3 else 0), demo_window) = Some (rc, (demo_booted, m', pm')) /\
    (rc = 0 /\
     (forall x, 0x80000000 <= x < 0x80000000 + 16 * 2 ->
        sbi_domain_check_addr (Some demo_layout) x PRV_S (Z.lor SBI_DOMAIN_READ SBI_DOMAIN_WRITE) = true) /\
     (forall j, 0 <= j < 2 -> Some (load_le m' (0x80000000 + 16 * j + 4) 4) =
        event_output demo_booted (fun a => if a =? 0x80000000 then 3 else 0) (0x80000000 + 16 * j)) /\
     (forall x, (forall j, 0 <= j < 2 -> ~ (0x80000000 + 16 * j + 4 <= x < 0x80000000 + 16 * j + 8)) ->
        m' x = (fun a => if a =? 0x80000000 then 3 else 0) x) \/
     rc = SBI_ERR_INVALID_ADDRESS /\ m' = (fun a => if a =? 0x80000000 then 3 else 0) /\ pm' = demo_window).
Proof.
  refine (event_get_info_answers demo_pmu_feat 54 demo_pmu_domains 1 demo_layout demo_booted _ demo_window 0x80000000 2
    demo_booted_ok _ _ demo_layout_sane _ _ _ _ _).
  - by exists demo_phs.
  - reflexivity.
  - repeat apply Forall_cons_2; try apply Forall_nil_2; cbn; lia.
  - lia.
  - reflexivity.
  - lia.
  - lia.
Defined.
