(* ===== verification/SbiTrapHandler.v ===== *)
(** * The trap handler (lib/sbi/sbi_trap.c, lib/sbi/sbi_double_trap.c)

    Every trap into machine mode ends here.  Exceptions are counted, emulated,
    answered as calls, or redirected; interrupts go to the timer, the
    interprocessor interrupts, the interrupt controller or the counters; on the
    way back below machine mode a pending software event is delivered.  The
    handler composes the models of these components: [hart_world] is their state
    on one hart, and the state the callbacks of interprocessor interrupts work on
    contains the software events. *)

From S2P Require Import Prelude RvBits SbiString SbiFifo SbiHeap SbiBitops SbiScratch SbiHartmask SbiMemregion SbiDomain SbiHsm SbiIpi SbiHart SbiPmp SbiPmpRoot SbiSse SbiSseInv SbiSseCtx SbiSseRun SbiTrap SbiTrapLdst SbiTrapLdstSpec SbiEcall SbiTimer SbiIllegal SbiPmu SbiPmuSpec SbiPmuCount.

Definition IRQ_M_SOFT : Z := 3.
Definition IRQ_M_TIMER : Z := 7.
Definition IRQ_M_EXT : Z := 11.
Definition TOPI_IID_SHIFT : Z := 16.
Definition MCAUSE_IRQ_MASK : Z := 2 ^ 63.
Definition CAUSE_MISALIGNED_LOAD : Z := 4.
Definition CAUSE_MISALIGNED_STORE : Z := 6.
Definition CAUSE_STORE_ACCESS : Z := 7.
Definition CAUSE_SUPERVISOR_ECALL : Z := 9.
Definition CAUSE_MACHINE_ECALL : Z := 11.
Definition CAUSE_DOUBLE_TRAP : Z := 16.
Definition SBI_PMU_FW_MISALIGNED_LOAD : Z := 0.
Definition SBI_PMU_FW_MISALIGNED_STORE : Z := 1.
Definition SBI_PMU_FW_ACCESS_LOAD : Z := 2.
Definition SBI_PMU_FW_ACCESS_STORE : Z := 3.
Definition SBI_PMU_FW_ILLEGAL_INSN : Z := 4.
Definition SBI_ERR_INVALID_PARAM : Z := -3.

(** The state of a hart: floating-point registers, trap registers, memory, timer,
    counters, interprocessor interrupts with the software events and the rest of
    the state their callbacks use, and the context of the trap being handled. *)
Record hart_world {D P F X Q : Type} := mkHw {
  t_fregs : list Z; t_csr : trap_csrs; t_mem : mem; t_timer : timer (D := D); t_pmu : pmu P;
  t_ipi : ipi_state (sse (F := F) * X) Q; trap_context : Z }.
Arguments hart_world : clear implicits.

(** A handler that fails prints the contexts and stops the hart. *)
Inductive trap_outcome {W : Type} :=
| Returned (r : sbi_trap_regs) (w : W)
| sbi_trap_error (rc : Z) (r : sbi_trap_regs) (w : W).
Arguments trap_outcome : clear implicits.

Section Handler.
Context {D P F X Q : Type} `{!TimerDevice D} `{!BoundedQueue F Z}.
Notation world := (hart_world D P F X Q).

(** The hart and its features; the memory the interrupted program sees; what
    vector accesses, the platform's emulation, the interrupt controller and the
    extensions do; domains and hart states, which decide about events for other
    harts; and the number of rounds of the loop over interrupts. *)
Variables (self current_hartid : Z) (H : bool) (feat : sbi_hart_features).
Variables (u : unpriv) (junk : Z) (ctr : SbiIllegal.counters) (now : Z).
Variables (v_ld v_st : sbi_trap_info -> ldst_state -> Z * ldst_state).
Variables (platform_load : Z -> Z -> option (list Z)) (platform_store : Z -> Z -> list Z -> Z).
Variables (sbi_irqchip_process : world -> Z * world) (mtopi : world -> Z).
Variables (ext_at : Z -> sbi_ecall_extension) (exts : list Z).
Variable handle : Z -> Z -> Z -> sbi_trap_regs -> world -> Z * sbi_ecall_return * sbi_trap_regs * world.
Variables (ds : domain_state) (ipi_rc : Z -> Z).

(** ** Parts of the state *)

Definition t_sse (w : world) : sse (F := F) := (SbiIpi.machine (t_ipi w)).1.

Definition set_ipi (i : ipi_state (sse * X) Q) (w : world) : world :=
  mkHw _ _ _ _ _ (t_fregs w) (t_csr w) (t_mem w) (t_timer w) (t_pmu w) i (trap_context w).

Definition set_sse (s : sse) (w : world) : world :=
  set_ipi (set_machine (s, (SbiIpi.machine (t_ipi w)).2) (t_ipi w)) w.

Definition set_timer (t : timer (D := D)) (w : world) : world :=
  mkHw _ _ _ _ _ (t_fregs w) (t_csr w) (t_mem w) t (t_pmu w) (t_ipi w) (trap_context w).

Definition set_pmu (p : pmu P) (w : world) : world :=
  mkHw _ _ _ _ _ (t_fregs w) (t_csr w) (t_mem w) (t_timer w) p (t_ipi w) (trap_context w).

Definition set_csr (c : trap_csrs) (w : world) : world :=
  mkHw _ _ _ _ _ (t_fregs w) c (t_mem w) (t_timer w) (t_pmu w) (t_ipi w) (trap_context w).

Definition sbi_trap_set_context (tc : Z) (w : world) : world :=
  mkHw _ _ _ _ _ (t_fregs w) (t_csr w) (t_mem w) (t_timer w) (t_pmu w) (t_ipi w) tc.

(** The state the emulation works on, and back. *)
Definition ld_of (r : sbi_trap_regs) (w : world) : ldst_state := mkLd r (t_fregs w) (t_csr w) (t_mem w).

Definition put_ld (l : ldst_state) (w : world) : sbi_trap_regs * world :=
  (w_regs l, mkHw _ _ _ _ _ (w_fregs l) (w_csr l) (w_mem l) (t_timer w) (t_pmu w) (t_ipi w) (trap_context w)).

Definition on_ld (f : ldst_state -> Z * ldst_state) (r : sbi_trap_regs) (w : world) : Z * sbi_trap_regs * world :=
  let '(rc, l) := f (ld_of r w) in let '(r, w) := put_ld l w in (rc, r, w).

(** The registers the delivery of a software event uses. *)
Definition sse_regs_of (r : sbi_trap_regs) (w : world) : sse_regs :=
  mkRegs (a_reg 6 r) (a_reg 7 r) (r_mepc r) (r_mstatus r) (c_sepc (t_csr w)) (c_hstatus (t_csr w)).

Definition put_sse_regs (q : sse_regs) (r : sbi_trap_regs) (w : world) : sbi_trap_regs * world :=
  let c := t_csr w in
  (set_a_reg 7 (a7 q) (set_a_reg 6 (a6 q) (mkTregs (gprs r) (mepc q) (mstatus q))),
   set_csr (mkTcsrs (c_hedeleg c) (hstatus q) (c_htval c) (c_htinst c) (c_vstval c) (c_vsepc c) (c_vscause c)
     (c_vstvec c) (c_vsstatus c) (c_stval c) (sepc q) (c_scause c) (c_stvec c)) w).

(** ** Interrupts *)

(** The event is marked as pending on this hart. *)
Definition inject_here (id : Z) (w : world) : option (Z * world) :=
  '(rc, s) ← sbi_sse_inject_event self current_hartid ds ipi_rc id (t_sse w); Some (rc, set_sse s w).

(** [sbi_pmu_ovf_irq], with the injection it ends with. *)
Definition ovf_irq (w : world) : option world :=
  '(_, p) ← sbi_pmu_ovf_irq feat (t_pmu w);
  '(_, w) ← inject_here SBI_SSE_EVENT_LOCAL_PMU (set_pmu p w);
  Some w.

(** The cases both interrupt handlers share; [None] inside is the default case. *)
Definition one_irq (irq : Z) (w : world) : option (Z * world) :=
  if irq =? IRQ_M_TIMER then Some (0, set_timer (sbi_timer_process feat (t_timer w)) w)
  else if irq =? IRQ_M_SOFT then i ← sbi_ipi_process self (t_ipi w); Some (0, set_ipi i w)
  else if irq =? IRQ_M_EXT then Some (sbi_irqchip_process w)
  else
    '(bit, p) ← sbi_pmu_irq_bit feat (t_pmu w);
    let w := set_pmu p w in
    if irq =? u64 bit then w ← ovf_irq w; Some (0, w) else Some (SBI_ENOENT, w).

Definition sbi_trap_nonaia_irq (irq : Z) (w : world) : option (Z * world) := one_irq irq w.

Fixpoint sbi_trap_aia_irq (fuel : nat) (w : world) : option (Z * world) :=
  match fuel with
  | O => None
  | S fuel =>
      if mtopi w =? 0 then Some (0, w)
      else
        '(rc, w) ← one_irq (Z.shiftr (mtopi w) TOPI_IID_SHIFT) w;
        if negb (rc =? 0) then Some (rc, w) else sbi_trap_aia_irq fuel w
  end.

(** ** Exceptions *)

Definition incr_fw (id : Z) (w : world) : option world :=
  '(_, p) ← sbi_pmu_ctr_incr_fw id (t_pmu w); Some (set_pmu p w).

Definition trap_redirect (t : sbi_trap_info) (r : sbi_trap_regs) (w : world) : Z * sbi_trap_regs * world :=
  let '(rc, r, c) := sbi_trap_redirect H feat r t (t_csr w) in (rc, r, set_csr c w).

Definition sbi_double_trap_handler (t : sbi_trap_info) (r : sbi_trap_regs) (w : world)
    : option (Z * sbi_trap_regs * world) :=
  if negb (sbi_mstatus_prev_mode (r_mstatus r) =? PRV_S) then Some (SBI_ERR_INVALID_PARAM, r, w)
  else if sbi_regs_from_virt r then Some (trap_redirect t r w)
  else '(rc, w) ← inject_here SBI_SSE_EVENT_LOCAL_DOUBLE_TRAP w; Some (rc, r, w).

(** [allocated]: the result of the allocation of the event's description is not
    NULL. *)
Definition sbi_double_trap_init (allocated : bool) (w : world) : world :=
  if sbi_hart_has_extension feat SBI_HART_EXT_SSDBLTRP
  then set_sse (sbi_sse_add_event allocated SBI_SSE_EVENT_LOCAL_DOUBLE_TRAP None (t_sse w)).2 w
  else w.

Definition illegal_insn_trap (t : sbi_trap_info) (r : sbi_trap_regs) (w : world) : option (Z * sbi_trap_regs * world) :=
  w ← incr_fw SBI_PMU_FW_ILLEGAL_INSN w;
  let '(rc, s) := sbi_illegal_insn_handler H feat u junk ctr now t (mkIll (ld_of r w) (t_timer w)) in
  let '(r, w) := put_ld (il_ld s) w in
  Some (rc, r, set_timer (il_timer s) w).

(** The switch over the cause of an exception. *)
Definition exception (t : sbi_trap_info) (r : sbi_trap_regs) (w : world) : option (Z * sbi_trap_regs * world) :=
  let mcause := t_cause t in
  if mcause =? CAUSE_ILLEGAL_INSTRUCTION then illegal_insn_trap t r w
  else if mcause =? CAUSE_MISALIGNED_LOAD then
    w ← incr_fw SBI_PMU_FW_MISALIGNED_LOAD w; Some (on_ld (sbi_misaligned_load_handler H feat u junk v_ld t) r w)
  else if mcause =? CAUSE_MISALIGNED_STORE then
    w ← incr_fw SBI_PMU_FW_MISALIGNED_STORE w; Some (on_ld (sbi_misaligned_store_handler H feat u junk v_st t) r w)
  else if (mcause =? CAUSE_SUPERVISOR_ECALL) || (mcause =? CAUSE_MACHINE_ECALL) then
    Some (sbi_ecall_handler ext_at handle exts r w)
  else if mcause =? CAUSE_LOAD_ACCESS then
    w ← incr_fw SBI_PMU_FW_ACCESS_LOAD w;
    Some (on_ld (sbi_load_access_handler H feat u junk v_ld platform_load t) r w)
  else if mcause =? CAUSE_STORE_ACCESS then
    w ← incr_fw SBI_PMU_FW_ACCESS_STORE w;
    Some (on_ld (sbi_store_access_handler H feat u junk v_st platform_store t) r w)
  else if mcause =? CAUSE_DOUBLE_TRAP then sbi_double_trap_handler t r w
  else Some (trap_redirect t r w).

(** On the way back below machine mode. *)
Definition deliver (r : sbi_trap_regs) (w : world) : option (sbi_trap_regs * world) :=
  if negb (sbi_mstatus_prev_mode (r_mstatus r) =? PRV_M) then
    '(s, q) ← sbi_sse_process_pending_events self current_hartid H (t_sse w) (sse_regs_of r w);
    Some (put_sse_regs q r (set_sse s w))
  else Some (r, w).

(** [tcntx] is the address of the context the entry code built, [t] and [r] its
    contents. *)
Definition sbi_trap_handler (fuel : nat) (tcntx : Z) (t : sbi_trap_info) (r : sbi_trap_regs) (w : world)
    : option (trap_outcome world) :=
  let mcause := t_cause t in
  let prev_context := trap_context w in
  let w := sbi_trap_set_context tcntx w in
  '(rc, r, w) ←
    (if negb (Z.land mcause MCAUSE_IRQ_MASK =? 0) then
       '(rc, w) ← (if sbi_hart_has_extension feat SBI_HART_EXT_SMAIA then sbi_trap_aia_irq fuel w
                   else sbi_trap_nonaia_irq (Z.land mcause (not64 MCAUSE_IRQ_MASK)) w);
       Some (rc, r, w)
     else exception t r w);
  if negb (rc =? 0) then Some (sbi_trap_error rc r w)
  else '(r, w) ← deliver r w; Some (Returned r (sbi_trap_set_context prev_context w)).

End Handler.

(** ** Handlers of exceptions from below machine mode do not fail *)

Definition below (r : sbi_trap_regs) : Prop :=
  sbi_mstatus_prev_mode (r_mstatus r) = PRV_S \/ sbi_mstatus_prev_mode (r_mstatus r) = PRV_U.

Lemma below_not_m r : below r -> (sbi_mstatus_prev_mode (r_mstatus r) =? PRV_M) = false.
Proof. by intros [-> | ->]. Qed.

(** The status register keeps its bits 11 and 12. *)
Lemma below_bits r r' : (forall i, i = 11 \/ i = 12 -> Z.testbit (r_mstatus r') i = Z.testbit (r_mstatus r) i) ->
  below r -> below r'.
Proof. intros Hi. unfold below. by rewrite !prev_mode_bits, !Hi by lia. Qed.

Lemma below_same r r' : r_mstatus r' = r_mstatus r -> below r -> below r'.
Proof. intros E. by apply below_bits; intros i _; rewrite E. Qed.

Section Emulation.
Variables (H : bool) (feat : sbi_hart_features).

Lemma redirect_below r t c : below r ->
  exists r' c', sbi_trap_redirect H feat r t c = (0, r', c') /\ gprs r' = gprs r /\
    sbi_mstatus_prev_mode (r_mstatus r') = PRV_S.
Proof.
  intros Hb. unfold sbi_trap_redirect.
  assert (negb (sbi_mstatus_prev_mode (r_mstatus r) =? PRV_S) && negb (sbi_mstatus_prev_mode (r_mstatus r) =? PRV_U)
          = false) as -> by (by destruct Hb as [-> | ->]).
  destruct (_ && has_bits _ (BIT _)); eexists _, _; (split; [reflexivity|]); (split; [done|]);
    rewrite prev_mode_bits; cbn [r_mstatus set_mstatus]; fold (redirected_status feat true (r_mstatus r)) (redirected_status feat false (r_mstatus r)).
  - by rewrite !redirected_bits by lia.
  - tmasks. rewrite !set_bits_bit, !enter_status_bits, !redirected_bits, !Z.pow2_bits_eqb by lia.
    by rewrite !andb_false_r.
Qed.

(** The outcome of a handler: no error, and the interrupted program continues
    below machine mode. *)
Definition good (x : Z * ldst_state) : Prop := x.1 = 0 /\ below (w_regs x.2).

Lemma redirect_good t l : below (w_regs l) -> good (redirect H feat t l).
Proof.
  intros Hb. unfold redirect. destruct (redirect_below _ t (w_csr l) Hb) as (r' & c' & -> & _ & Hs). split; [done|]. by left.
Qed.

Section Access.
Variables (u : unpriv) (junk : Z).

Lemma trapped_insn_good t l : below (w_regs l) ->
  match trapped_insn H feat u junk t l with inl _ => True | inr x => good x end.
Proof.
  intros Hb. unfold trapped_insn. destruct (negb _); [done|].
  destruct (sbi_get_insn _ _ _ _) as [insn up]. destruct (negb _); [by apply redirect_good|done].
Qed.

(** Emulators may report the number of bytes they handled. *)
Definition handled (x : Z * ldst_state) : Prop := below (w_regs x.2) /\ (x.1 <= 0 -> x.1 = 0).

Lemma good_handled x : good x -> handled x.
Proof. by intros [E Hb]. Qed.

Lemma step_over_good len l : below (w_regs l) -> good (0, set_mepc_by len l).
Proof. intros Hb. split; [done|]. by apply (below_same (w_regs l)). Qed.

Lemma set_rd_below insn v l : below (w_regs l) -> below (w_regs (SET_RD insn v l)).
Proof. by apply below_same. Qed.

Lemma set_frd_below insn v l : below (w_regs l) -> below (w_regs (SET_F64_RD insn v l)).
Proof.
  apply below_bits. intros i Hi. cbn [w_regs SET_F64_RD r_mstatus]. rewrite Z.lor_spec.
  change MSTATUS_FS with (Z.lor (2 ^ 13) (2 ^ 14)). rewrite Z.lor_spec, !Z.pow2_bits_false by lia. by rewrite orb_false_r.
Qed.

Lemma emulate_load_good v_ld t emu l :
  below (w_regs l) -> handled (v_ld t l) ->
  (forall len val, 0 <= len -> let '(rc, _, l') := emu len val t l in handled (rc, l')) ->
  good (sbi_trap_emulate_load H feat u junk v_ld t emu l).
Proof.
  intros Hb Hv He. unfold sbi_trap_emulate_load. pose proof (trapped_insn_good t l Hb) as Ht.
  destruct (trapped_insn _ _ _ _ t l) as [[insn len]|]; [|done].
  destruct (decode_load insn) as [d|] eqn:Ed; [|by apply redirect_good].
  assert (exists rc val l', (if d_vector d then let '(rc, w) := v_ld t l in (rc, replicate 8 0, w)
     else emu (d_len d) (replicate 8 0) t l) = (rc, val, l') /\ handled (rc, l')) as (rc & val & l' & -> & [Hb' Hrc]).
  { destruct (d_vector d).
    - destruct (v_ld t l) as [rc l']. by eexists _, _, _.
    - specialize (He (d_len d) (replicate 8 0)). destruct (emu _ _ _ _) as [[rc val] l'].
      eexists _, _, _. split; [done|]. apply He. unfold decode_load in Ed.
      repeat match type of Ed with context [if ?b then _ else _] => destruct b end;
        try discriminate; injection Ed as <-; cbn; lia. }
  cbn [fst snd] in Hb', Hrc. destruct (Z.leb_spec rc 0) as [Hle|_]; [split; [by apply Hrc|done]|]. cbn zeta.
  apply step_over_good. destruct (d_vector d); [done|]. destruct (negb _); [by apply set_rd_below|].
  destruct (_ =? 8); by apply set_frd_below.
Qed.

Lemma emulate_store_good v_st t emu l :
  below (w_regs l) -> handled (v_st t l) -> (forall len val, 0 <= len -> handled (emu len val t l)) ->
  good (sbi_trap_emulate_store H feat u junk v_st t emu l).
Proof.
  intros Hb Hv He. unfold sbi_trap_emulate_store. pose proof (trapped_insn_good t l Hb) as Ht.
  destruct (trapped_insn _ _ _ _ t l) as [[insn len]|]; [|done].
  destruct (decode_store insn l) as [d|] eqn:Ed; [|by apply redirect_good].
  assert (handled (match d with None => v_st t l | Some (len, val) => emu len val t l end)) as [Hb' Hrc].
  { destruct d as [[n val]|]; [|done]. apply He. unfold decode_store in Ed.
    repeat match type of Ed with context [if ?b then _ else _] => destruct b end;
      try discriminate; injection Ed as <- <-; lia. }
  destruct d as [[n val]|]; [destruct (emu n val t l) as [rc l']|destruct (v_st t l) as [rc l']]; cbn [fst snd] in Hb', Hrc;
    (destruct (Z.leb_spec rc 0); [split; [by apply Hrc|done]|by apply step_over_good]).
Qed.

Lemma ld_loop_handled n i len val t l : below (w_regs l) -> 0 <= len ->
  let '(rc, _, l') := ld_loop H feat u n i len val t l in handled (rc, l').
Proof.
  revert i val. induction n as [|n IH]; intros i val Hb Hl; cbn [ld_loop]; [by split; [|cbn; lia]|].
  destruct (sbi_load_u8 _ _ _) as [b up]. destruct (negb _); [|by apply IH].
  pose proof (redirect_good (with_tinst (sbi_misaligned_tinst_fixup (t_tinst t) (t_tinst up) i) up) l Hb) as Hg.
  destruct (redirect _ _ _ l) as [rc l']. by apply good_handled.
Qed.

Lemma st_loop_handled n i len val t l : below (w_regs l) -> 0 <= len -> handled (st_loop H feat u n i len val t l).
Proof.
  revert i l. induction n as [|n IH]; intros i l Hb Hl; cbn [st_loop]; [by split; [|cbn; lia]|].
  unfold sbi_store_u8. destruct (st_fault _ _); cbn zeta iota; (destruct (negb _); [by apply good_handled, redirect_good|by apply IH]).
Qed.

Lemma misaligned_load_good v_ld t l : below (w_regs l) -> handled (v_ld t l) ->
  good (sbi_misaligned_load_handler H feat u junk v_ld t l).
Proof. intros Hb Hv. apply emulate_load_good; [done..|]. intros. by apply ld_loop_handled. Qed.

Lemma misaligned_store_good v_st t l : below (w_regs l) -> handled (v_st t l) ->
  good (sbi_misaligned_store_handler H feat u junk v_st t l).
Proof. intros Hb Hv. apply emulate_store_good; [done..|]. intros. by apply st_loop_handled. Qed.

Lemma load_access_good v_ld pl t l : below (w_regs l) -> handled (v_ld t l) ->
  good (sbi_load_access_handler H feat u junk v_ld pl t l).
Proof.
  intros Hb Hv. apply emulate_load_good; [done..|]. intros len val Hlen. unfold sbi_ld_access_emulator.
  rewrite below_not_m by done. destruct (pl _ _); [by split; [|cbn; lia]|].
  pose proof (redirect_good t l Hb). destruct (redirect _ _ _ _) as [rc l']. by apply good_handled.
Qed.

Lemma store_access_good v_st ps t l : below (w_regs l) -> handled (v_st t l) ->
  good (sbi_store_access_handler H feat u junk v_st ps t l).
Proof.
  intros Hb Hv. apply emulate_store_good; [done..|]. intros len val Hlen. unfold sbi_st_access_emulator.
  rewrite below_not_m by done. destruct (negb _); [by apply good_handled, redirect_good|]. by split; [|cbn; lia].
Qed.

Lemma illegal_good {D} ctr now t (s : ill_state (D := D)) : below (il_regs s) ->
  let '(rc, s') := sbi_illegal_insn_handler H feat u junk ctr now t s in rc = 0 /\ below (il_regs s').
Proof.
  intros Hb.
  assert (forall t (s : ill_state (D := D)), below (il_regs s) ->
    let '(rc, s') := ill_redirect H feat t s in rc = 0 /\ below (il_regs s')) as Hr.
  { intros t' s' Hb'. unfold ill_redirect. pose proof (redirect_good t' (il_ld s') Hb') as Hg.
    by destruct (redirect _ _ _ _) as [rc l]. }
  assert (forall op insn, let '(rc, s') := illegal_insn H feat ctr now op insn s in rc = 0 /\ below (il_regs s')) as Hi.
  { intros op insn. unfold illegal_insn, misc_mem_opcode_insn, system_opcode_insn, truly_illegal_insn.
    destruct (op =? 3). { destruct (_ =? INSN_MATCH_FENCE_TSO); [|by apply Hr]. by split; [|apply (step_over_good 4)]. }
    destruct (op =? 28); [|by apply Hr]. rewrite below_not_m by done. destruct (_ || _); [by apply Hr|].
    destruct (sbi_emulate_csr_read _ _ _ _ _) as [v|]; [|by apply Hr]. cbn zeta.
    set (upd := if _ =? CSRRW then _ else _). destruct upd as [[nv b]|]; [|by apply Hr].
    assert (forall nv, below (il_regs (sbi_emulate_csr_write (Z.shiftr (Z.land (u32 insn) 0xfff00000) 20) nv s).2)) as Hw.
    { intros v'. unfold sbi_emulate_csr_write. destruct (_ =? CSR_HTIMEDELTA); [|done]. by destruct (_ && _). }
    assert (below (il_regs (if b then sbi_emulate_csr_write (Z.shiftr (Z.land (u32 insn) 0xfff00000) 20) nv s else (0, s)).2))
      as Hb' by (destruct b; [apply Hw|done]).
    destruct (if b then _ else _) as [rc s1]. cbn [snd] in Hb'. destruct (negb _); [by apply Hr|]. split; [done|].
    apply (step_over_good 4), set_rd_below. exact Hb'. }
  unfold sbi_illegal_insn_handler. destruct (negb _); [|by apply Hi].
  destruct (sbi_get_insn _ _ _ _) as [insn up]. destruct (negb _); [by apply Hr|].
  destruct (negb _); [by apply Hr|by apply Hi].
Qed.

End Access.
End Emulation.

(** ** The handler on one hart *)

Section Correct.
Context {D P F X Q : Type} `{!TimerDevice D} `{!BoundedQueue F Z}.
Notation world := (hart_world D P F X Q).
Variables (self : Z) (hid : Z -> Z) (H : bool) (feat : sbi_hart_features).
Variables (u : unpriv) (junk : Z) (ctr : SbiIllegal.counters) (now : Z).
Variables (v_ld v_st : sbi_trap_info -> ldst_state -> Z * ldst_state).
Variables (platform_load : Z -> Z -> option (list Z)) (platform_store : Z -> Z -> list Z -> Z).
Variables (sbi_irqchip_process : world -> Z * world) (mtopi : world -> Z).
Variables (ext_at : Z -> sbi_ecall_extension) (exts : list Z).
Variable handle : Z -> Z -> Z -> sbi_trap_regs -> world -> Z * sbi_ecall_return * sbi_trap_regs * world.
Variables (ds : domain_state) (ipi_rc : Z -> Z).

Implicit Types (w : world) (r : sbi_trap_regs) (t : sbi_trap_info).

Notation handler := (sbi_trap_handler self (hid self) H feat u junk ctr now v_ld v_st platform_load platform_store
  sbi_irqchip_process mtopi ext_at exts handle ds ipi_rc).

Definition sse_ok (s : sse (F := F)) : Prop := sse_wf hid s /\ slots_ok s /\ is_Some (shs s !! self).

Definition world_ok w : Prop := sse_ok (t_sse w) /\ pmu_ok (t_pmu w).

(** *** Delivery *)

Lemma put_regs_same r w : put_sse_regs (sse_regs_of r w) r (set_sse (t_sse w) w) = (r, w).
Proof.
  assert (forall (l : list Z) i, <[i := nth i l 0]> l = l) as Hid.
  { intros l i. destruct (l !! i) as [v|] eqn:E.
    - rewrite (nth_lookup_Some l i 0 v E). by apply list_insert_id.
    - apply list_insert_ge. by apply lookup_ge_None in E. }
  destruct w as [fr [] m tm p [? ? ? ? ? []] tc], r as [g pc ms]. unfold put_sse_regs, sse_regs_of, set_a_reg, a_reg. cbn.
  do 2 f_equal. by rewrite !Hid.
Qed.

Lemma inject_mode c x q : sbi_mstatus_prev_mode (mstatus (sse_event_inject c H x q).2) = PRV_S.
Proof. by rewrite prev_mode_bits, !injected_mstatus by lia. Qed.

Lemma put_regs_mode q r w : sbi_mstatus_prev_mode (mstatus q) = PRV_S -> below (put_sse_regs q r w).1.
Proof. intros E. by left. Qed.

(** The result of delivery in terms of the software events alone. *)
Lemma deliver_spec r w s : sse_ok (t_sse w) -> shs (t_sse w) !! self = Some s -> below r ->
  exists q s', delivery hid self s H (t_sse w) (sse_regs_of r w) s' q /\
    deliver self (hid self) H r w = Some (put_sse_regs q r (set_sse s' w)).
Proof.
  intros (W & Hs & _) Es Hb. unfold deliver. rewrite below_not_m by done. cbn [negb].
  destruct (process_pending_spec hid self s H (t_sse w) (sse_regs_of r w) W Hs Es) as (s' & q & E & Hd).
  exists q, s'. split; [done|]. by rewrite E, some_bind.
Qed.

Lemma delivery_home s w s' q q' : is_Some (shs (t_sse w) !! self) ->
  delivery hid self s H (t_sse w) q s' q' -> sse_ok s'.
Proof.
  intros Hself (W & Hs & _ & [(-> & _)|(_ & e & x & _ & _ & _ & _ & -> & _)]); (split; [done|by split]).
Qed.

Lemma deliver_ok r w : world_ok w -> below r ->
  exists r' w', deliver self (hid self) H r w = Some (r', w') /\ below r' /\ world_ok w'.
Proof.
  intros [Ho Hp] Hb. pose proof Ho as (_ & _ & [s Es]).
  destruct (deliver_spec r w s Ho Es Hb) as (q & s' & Hd & ->).
  pose proof (delivery_home s w s' _ q ltac:(by eexists) Hd) as Ho'.
  eexists _, _. split; [reflexivity|]. split; [|by split].
  destruct Hd as (_ & _ & _ & [(_ & -> & _)|(_ & e & x & _ & _ & _ & _ & _ & ->)]); [done|].
  left. cbn -[sbi_mstatus_prev_mode sse_event_inject]. apply inject_mode.
Qed.

(** *** Exceptions *)

Lemma incr_ok id w : world_ok w ->
  exists p, incr_fw id w = Some (set_pmu p w) /\ pmu_ok p.
Proof.
  intros [_ Hp]. unfold incr_fw. destruct (phs (t_pmu w)) as [p|] eqn:E.
  - pose proof (incr_wp id (t_pmu w) p Hp E) as W. unfold wp in W. destruct (sbi_pmu_ctr_incr_fw _ _) as [[? p']|]; [|done].
    exists p'. split; [done|]. apply W.
  - assert (wp (sbi_pmu_ctr_incr_fw id) (t_pmu w) (fun _ p' => p' = t_pmu w)) as W
      by (apply wp_bind, wp_gets; by rewrite E).
    unfold wp in W. destruct (sbi_pmu_ctr_incr_fw _ _) as [[? p']|]; [|done]. subst p'. by exists (t_pmu w).
Qed.

(** What the handlers of calls promise; what the emulators of vector accesses do. *)
Definition handle_ok : Prop := forall p e f r w, world_ok w -> below r ->
  let '(_, _, r', w') := handle p e f r w in world_ok w' /\ below r'.

Definition vector_ok (v : sbi_trap_info -> ldst_state -> Z * ldst_state) : Prop :=
  forall t l, below (w_regs l) -> handled (v t l).

Definition clean (x : option (Z * sbi_trap_regs * world)) : Prop :=
  exists r' w', x = Some (0, r', w') /\ below r' /\ world_ok w'.

Lemma on_ld_clean f r w : world_ok w -> good (f (ld_of r w)) -> clean (Some (on_ld f r w)).
Proof.
  intros Hw [E Hb]. unfold on_ld. destruct (f _) as [rc l]. cbn in E, Hb. subst rc. eexists _, _. split; [reflexivity|]. by split.
Qed.

Lemma incr_clean id w k : world_ok w -> (forall p, pmu_ok p -> clean (k (set_pmu p w))) -> clean (incr_fw id w ≫= k).
Proof. intros Hw Hk. destruct (incr_ok id w Hw) as (p & -> & Hp). rewrite some_bind. by apply Hk. Qed.

Lemma redirect_clean t r w : world_ok w -> below r -> clean (Some (trap_redirect H feat t r w)).
Proof.
  intros Hw Hb. unfold trap_redirect. destruct (redirect_below H feat r t (t_csr w) Hb) as (r' & c' & -> & _ & Hs).
  eexists _, _. split; [reflexivity|]. split; [by left|exact Hw].
Qed.

Lemma ecall_clean r w : handle_ok -> world_ok w -> below r -> clean (Some (sbi_ecall_handler ext_at handle exts r w)).
Proof.
  intros Hh Hw Hb. unfold sbi_ecall_handler.
  cbn zeta.
  assert (exists ret out b r' w', match sbi_ecall_find_extension ext_at exts (a_reg 7 r) with
    | Some p => if has_handle (ext_at p) then let '(ret, out, r0, s) := handle p (a_reg 7 r) (a_reg 6 r) r w in
        (ret, out, (SBI_EXT_0_1_SET_TIMER <=? a_reg 7 r) && (a_reg 7 r <=? SBI_EXT_0_1_SHUTDOWN), r0, s)
        else (SBI_ENOTSUPP, mkOut false 0, false, r, w)
    | None => (SBI_ENOTSUPP, mkOut false 0, false, r, w) end = (ret, out, b, r', w') /\ world_ok w' /\ below r')
    as (ret & out & b & r' & w' & -> & Hw' & Hb').
  { destruct (sbi_ecall_find_extension _ _ _) as [p|]; [|by eexists _, _, _, _, _].
    destruct (has_handle _); [|by eexists _, _, _, _, _]. specialize (Hh p (a_reg 7 r) (a_reg 6 r) r w Hw Hb).
    destruct (handle _ _ _ _ _) as [[[ret out] r'] w']. by eexists _, _, _, _, _. }
  destruct (skip_regs_update out); eexists _, _; (split; [reflexivity|]); (split; [|done]); [done|].
  destruct b; by apply (below_same r').
Qed.

(** An exception that the dispatcher knows how to end: of any cause but the double
    trap, which only a virtual machine may leave to its hypervisor. *)
Definition ends t r : Prop :=
  0 <= t_cause t < MCAUSE_IRQ_MASK /\
  (t_cause t = CAUSE_DOUBLE_TRAP -> sbi_mstatus_prev_mode (r_mstatus r) = PRV_S /\ sbi_regs_from_virt r = true).

Lemma exception_clean t r w : handle_ok -> vector_ok v_ld -> vector_ok v_st -> world_ok w -> below r -> ends t r ->
  clean (exception self (hid self) H feat u junk ctr now v_ld v_st platform_load platform_store ext_at exts handle ds ipi_rc t r w).
Proof.
  intros Hh Hvl Hvs Hw Hb [_ Hdt]. unfold exception.
  assert (forall p, pmu_ok p -> world_ok (set_pmu p w)) as Hset by (intros p Hp; split; [apply Hw|done]).
  destruct (t_cause t =? CAUSE_ILLEGAL_INSTRUCTION).
  { unfold illegal_insn_trap. apply incr_clean; [done|]. intros p Hp.
    pose proof (illegal_good H feat u junk ctr now t (mkIll (ld_of r (set_pmu p w)) (t_timer (set_pmu p w))) Hb) as Hi.
    destruct (sbi_illegal_insn_handler _ _ _ _ _ _ _ _) as [rc s]. destruct Hi as [-> Hi].
    eexists _, _. split; [reflexivity|]. split; [exact Hi|]. by apply Hset. }
  destruct (t_cause t =? CAUSE_MISALIGNED_LOAD).
  { apply incr_clean; [done|]. intros p Hp. apply on_ld_clean; [by apply Hset|]. apply misaligned_load_good; [done|]. by apply Hvl. }
  destruct (t_cause t =? CAUSE_MISALIGNED_STORE).
  { apply incr_clean; [done|]. intros p Hp. apply on_ld_clean; [by apply Hset|]. apply misaligned_store_good; [done|]. by apply Hvs. }
  destruct (_ || _); [by apply ecall_clean|].
  destruct (t_cause t =? CAUSE_LOAD_ACCESS).
  { apply incr_clean; [done|]. intros p Hp. apply on_ld_clean; [by apply Hset|]. apply load_access_good; [done|]. by apply Hvl. }
  destruct (t_cause t =? CAUSE_STORE_ACCESS).
  { apply incr_clean; [done|]. intros p Hp. apply on_ld_clean; [by apply Hset|]. apply store_access_good; [done|]. by apply Hvs. }
  destruct (Z.eqb_spec (t_cause t) CAUSE_DOUBLE_TRAP) as [E|]; [|by apply redirect_clean].
  destruct (Hdt E) as [Hm Hv]. unfold sbi_double_trap_handler. rewrite Hm, Hv. by apply redirect_clean.
Qed.

Lemma no_irq c : 0 <= c < MCAUSE_IRQ_MASK -> Z.land c MCAUSE_IRQ_MASK = 0.
Proof.
  intros Hc. apply Z.bits_inj_0. intros i. rewrite Z.land_spec. unfold MCAUSE_IRQ_MASK in *.
  destruct (Z.eq_dec i 63) as [-> |]; [|by rewrite Z.pow2_bits_false, andb_false_r].
  by rewrite (bits_above 63) by lia.
Qed.


(** *** Redirected exceptions *)

(** The causes the dispatcher has no case for. *)
Definition unhandled (c : Z) : Prop :=
  0 <= c < MCAUSE_IRQ_MASK /\ c ∉ [CAUSE_ILLEGAL_INSTRUCTION; CAUSE_MISALIGNED_LOAD; CAUSE_MISALIGNED_STORE;
    CAUSE_SUPERVISOR_ECALL; CAUSE_MACHINE_ECALL; CAUSE_LOAD_ACCESS; CAUSE_STORE_ACCESS; CAUSE_DOUBLE_TRAP].

Lemma unhandled_redirected t r w : unhandled (t_cause t) ->
  exception self (hid self) H feat u junk ctr now v_ld v_st platform_load platform_store ext_at exts handle ds ipi_rc t r w
  = Some (trap_redirect H feat t r w).
Proof.
  intros [_ Hc]. unfold exception.
  repeat match goal with |- context [t_cause t =? ?c] => assert (t_cause t =? c = false) as -> by
    (apply Z.eqb_neq; intros E; apply Hc; rewrite E; set_solver) end. done.
Qed.

(** C16: a page fault, breakpoint or any other exception the firmware has no handler for
    looks to the operating system as if the hardware had delivered it directly.  When no
    software event can be delivered (the hart is masked, or none is ready), and no
    landing-pad state (SPELP) of an earlier trap is left in the status register the trap
    writes ([redirect_keeps_stale_spelp]), the whole handler followed by the return from
    machine mode leaves the hart where a delegated trap would, and changes none of the
    firmware's components. *)
Theorem fault_is_delegation fuel tcntx t h g gva s w :
  let zicfilp := sbi_hart_has_extension feat SBI_HART_EXT_ZICFILP in
  SbiTrap.Hw.hart_ok H zicfilp h -> no_stale_spelp feat h t -> unhandled (t_cause t) ->
  sse_ok (t_sse w) -> shs (t_sse w) !! self = Some s ->
  masked s = true \/ (forall e x, ~ deliverable hid (t_sse w) self e x) ->
  t_csr w = SbiTrap.Hw.csr h ->
  exists r' c',
    handler fuel tcntx t (mkTregs g (SbiTrap.Hw.pc h) (SbiTrap.Hw.mtrap_status H zicfilp gva h)) w
      = Some (Returned r' (set_csr c' w)) /\ gprs r' = g /\
    SbiTrap.Hw.same_below (SbiTrap.Hw.mret H zicfilp (r_mepc r') (r_mstatus r') c') (SbiTrap.Hw.strap H zicfilp t h).
Proof.
  intros z Hok Hsp Hu Ho Es Hidle Ec. unfold sbi_trap_handler. rewrite no_irq by apply Hu. cbn [Z.eqb negb].
  rewrite unhandled_redirected by done. rewrite some_bind. unfold trap_redirect.
  change (t_csr (sbi_trap_set_context tcntx w)) with (t_csr w). rewrite Ec.
  destruct (redirect_delegates H feat h g gva t Hok ltac:(apply Hu) Hsp) as (r' & c' & Er & Hg & Hsame).
  unfold trapped in Er. fold z in Er, Hsame |- *. rewrite Er. cbn [Z.eqb negb].
  assert (below r') as Hb.
  { assert (below (mkTregs g (SbiTrap.Hw.pc h) (SbiTrap.Hw.mtrap_status H z gva h))) as Hb0.
    { pose proof (trapped_mode H feat h g gva Hok) as Hm. unfold trapped in Hm. fold z in Hm.
      unfold below. rewrite Hm. apply (SbiTrap.Hw.hok_mode _ _ _ Hok). }
    destruct (redirect_below H feat _ t (SbiTrap.Hw.csr h) Hb0) as (r'' & c'' & E & _ & Hs). fold z in Er. rewrite Er in E.
    injection E as <- <-. by left. }
  set (w1 := set_csr c' (sbi_trap_set_context tcntx w)).
  destruct (deliver_spec r' w1 s Ho Es Hb) as (q & s' & (_ & _ & _ & Hd) & ->).
  destruct Hd as [(-> & -> & _)|(Em & e & x & Hx & _)].
  - rewrite put_regs_same, some_bind. eexists _, _. split; [|by split]. done.
  - exfalso. destruct Hidle as [Hm|Hn]; [congruence|by eapply Hn].
Qed.

(** *** Traps that bring a software event *)

(** From [s] to [s1] some enabled events became pending, [e] among them. *)
Record woken (e : eref) (x : sbi_sse_event) (sh : sse_hart_state (F := F)) (s s1 : sse (F := F)) : Prop := {
  wk_ok : sse_ok s1;
  wk_self : exists sh1, shs s1 !! self = Some sh1 /\ enabled_event_list sh1 = enabled_event_list sh /\ masked sh1 = masked sh;
  wk_running : running s1 self = running s self;
  wk_events : forall e' x', events s !! e' = Some x' -> events s1 !! e' = Some x' \/ events s1 !! e' = Some (pend x');
  wk_this : events s1 !! e = Some (pend x) }.

Lemma pending_bit x : sse_event_pending (pend x) = true.
Proof.
  unfold sse_event_pending, pend, set_status, set_attrs, BIT, PENDING_OFFSET. cbn -[Z.lor Z.land].
  apply negb_true_iff, Z.eqb_neq. intros E. apply (f_equal (fun z => Z.testbit z 2)) in E.
  rewrite Z.bits_0, Z.land_spec, Z.lor_spec in E. cbn in E. by rewrite orb_true_r in E.
Qed.

(** An event waits for this hart. *)
Definition waits (s : sse (F := F)) (e : eref) (x : sbi_sse_event) : Prop :=
  events s !! e = Some x /\ sse_event_state x = SBI_SSE_STATE_ENABLED /\ hartid (attrs x) = hid self /\ hartindex x = self.

Lemma pend_ready x : sse_event_state x = SBI_SSE_STATE_ENABLED -> hartid (attrs x) = hid self ->
  sse_event_is_ready (hid self) (pend x) = true.
Proof.
  intros Hst Hh. unfold sse_event_is_ready. rewrite pending_bit. unfold pend at 1. rewrite set_pending_state, Hst.
  change (hartid (attrs (pend x))) with (hartid (attrs x)). by rewrite Hh, !Z.eqb_refl.
Qed.

Lemma event_before_pend x y : event_before (pend x) y = event_before x y /\ event_before y (pend x) = event_before y x.
Proof. done. Qed.

(** The interrupted program continues at the entry point of the event. *)
Definition entered (x : sbi_sse_event) r : Prop :=
  r_mepc r = pc (entry (attrs x)) /\ a_reg 6 r = hid self /\ a_reg 7 r = arg (entry (attrs x)) /\
  sbi_mstatus_prev_mode (r_mstatus r) = PRV_S.

Lemma put_regs_entered x y q r w : (17 < length (gprs r))%nat -> entry (attrs y) = entry (attrs x) ->
  entered x (put_sse_regs (sse_event_inject (hid self) H y q).2 r w).1.
Proof.
  intros Hl He. unfold entered. cbn [put_sse_regs fst]. split_and!.
  - cbn. by rewrite He.
  - unfold a_reg, set_a_reg. cbn [gprs Nat.add]. apply nth_lookup_Some.
    rewrite list_lookup_insert_ne, list_lookup_insert_eq by (done || lia). done.
  - unfold a_reg, set_a_reg. cbn [gprs Nat.add]. apply nth_lookup_Some.
    rewrite list_lookup_insert_eq by (rewrite length_insert; lia). cbn. by rewrite He.
  - apply inject_mode.
Qed.

Lemma woken_deliver e x sh s w r : waits s e x -> sse_wf hid s -> shs s !! self = Some sh ->
  woken e x sh s (t_sse w) -> masked sh = false -> running s self = [] -> below r -> (17 < length (gprs r))%nat ->
  exists r' w' e' x', deliver self (hid self) H r w = Some (r', w') /\ running (t_sse w') self = [e'] /\
    events s !! e' = Some x' /\ event_before x x' = false /\ entered x' r'.
Proof.
  intros (Hx & Hst & Hh & Hi) Ws Esh Hk Hm Hrun Hb Hl. destruct (wk_self _ _ _ _ _ Hk) as (sh1 & E1 & El & Em).
  destruct (deliver_spec r w sh1 (wk_ok _ _ _ _ _ Hk) E1 Hb) as (q & s' & (_ & _ & _ & Hd) & ->).
  assert (deliverable hid (t_sse w) self e (pend x)) as Hdel.
  { split; [|split; [apply Hk|by apply pend_ready]]. exists (pend x). split; [apply Hk|]. split; [|done].
    rewrite pend_enabled. unfold is_enabled. by rewrite Hst. }
  destruct Hd as [(_ & _ & [Hmask|Hnone])|(_ & e' & y & (Hon & Hy & _) & Hbest & _ & Hr' & -> & ->)].
  - congruence.
  - destruct (Hnone e (pend x) Hdel) as (f & Hf & _). rewrite (wk_running _ _ _ _ _ Hk), Hrun in Hf. by apply elem_of_nil in Hf.
  - assert (exists x', events s !! e' = Some x') as [x' Hx'].
    { apply (wf_mem hid (t_sse w) (proj1 (wk_ok _ _ _ _ _ Hk)) self sh1 e' E1) in Hon. rewrite El in Hon.
      apply (wf_mem hid s Ws self sh e' Esh) in Hon as (z & Hz & _). by eexists. }
    eexists _, _, e', x'. split; [reflexivity|]. split; [cbn -[running sse_event_inject]; rewrite Hr', (wk_running _ _ _ _ _ Hk), Hrun; done|].
    split; [done|]. specialize (Hbest e (pend x) Hdel).
    destruct (wk_events _ _ _ _ _ Hk e' x' Hx') as [Ey|Ey]; rewrite Hy in Ey; injection Ey as ->;
      (split; [exact Hbest|by apply (put_regs_entered _ _ (sse_regs_of r w) r w)]).
Qed.

Lemma set_pending_woken e x sh s : sse_ok s -> waits s e x -> shs s !! self = Some sh ->
  sse_event_set_pending e x s = (SBI_OK, put_event e (pend x) s) /\ woken e x sh s (put_event e (pend x) s).
Proof.
  intros (W & Hs & Hself) (Hx & Hst & _) Esh.
  assert (sse_event_set_pending e x s = (SBI_OK, put_event e (pend x) s)) as E.
  { unfold sse_event_set_pending. by rewrite Hst. }
  split; [done|]. pose proof (set_pending_neutral hid e x s W Hx) as [W' Hr]. pose proof (set_pending_ks e x s) as Hk.
  rewrite E in W', Hr, Hk. split; [|by exists sh|by apply Hr| |].
  - split; [done|]. split; [by eapply keeps_slots_ok|done].
  - intros e' x' Hx'. rewrite put_event_lookup. case_bool_decide; [|by left]. subst e'. right. congruence.
  - rewrite put_event_lookup. by rewrite bool_decide_eq_true_2.
Qed.

Lemma inject_here_woken id e x sh w : sse_ok (t_sse w) -> sse_event_get (t_sse w) self id = Some (inr e) ->
  waits (t_sse w) e x -> shs (t_sse w) !! self = Some sh ->
  exists w1, inject_here self (hid self) ds ipi_rc id w = Some (0, w1) /\ woken e x sh (t_sse w) (t_sse w1).
Proof.
  intros Ho Hget Hwait Esh. destruct (set_pending_woken e x sh (t_sse w) Ho Hwait Esh) as [E Hk].
  pose proof Hwait as (Hx & _ & Hh & _).
  unfold inject_here, sbi_sse_inject_event, sse_inject_event, with_event. rewrite Hget, some_bind, Hx, some_bind.
  assert ((if sse_event_is_global x then hartid (attrs x) else hid self) = hid self) as -> by (by destruct (sse_event_is_global x)).
  cbn zeta. rewrite Z.eqb_refl. cbn [negb]. rewrite E. cbn [Z.eqb negb SBI_OK]. rewrite some_bind. by eexists.
Qed.

(** The callback of the interprocessor interrupt of software events, with enough
    rounds for its queue. *)
Definition sse_ipi_ops (n : nat) : sbi_ipi_event_ops (sse (F := F) * X) Q :=
  mkOps None None (Some (fun h m => s ← sse_ipi_inject_process h n m.1; Some (s, m.2))).

(** The traps that bring the event [id]: a double trap of the operating system, an
    overflow of a counter, and an interprocessor interrupt with [id] in the queue
    of injected events. *)
Inductive brings (id : Z) t r w : Prop :=
| by_double_trap :
    t_cause t = CAUSE_DOUBLE_TRAP -> sbi_mstatus_prev_mode (r_mstatus r) = PRV_S -> sbi_regs_from_virt r = false ->
    id = SBI_SSE_EVENT_LOCAL_DOUBLE_TRAP -> brings id t r w
| by_overflow bit p :
    t_cause t = MCAUSE_IRQ_MASK + bit -> sbi_pmu_irq_bit feat (t_pmu w) = Some (bit, p) -> 0 <= bit < 64 ->
    bit ∉ [IRQ_M_SOFT; IRQ_M_TIMER; IRQ_M_EXT] -> id = SBI_SSE_EVENT_LOCAL_PMU -> brings id t r w
| by_ipi ev n sh :
    t_cause t = MCAUSE_IRQ_MASK + IRQ_M_SOFT -> 0 <= ev < SBI_IPI_EVENT_MAX -> ipi_type (t_ipi w) !! self = Some (2 ^ ev) ->
    event_ops (t_ipi w) ev = Some (sse_ipi_ops n) -> shs (t_sse w) !! self = Some sh -> bq_inv (inject_fifo sh) ->
    (length (bq_abs (inject_fifo sh)) < n)%nat -> id ∈ bq_abs (inject_fifo sh) -> brings id t r w.

Lemma irq_cause k : 0 <= k < 64 ->
  Z.land (MCAUSE_IRQ_MASK + k) MCAUSE_IRQ_MASK =? 0 = false /\ Z.land (MCAUSE_IRQ_MASK + k) (not64 MCAUSE_IRQ_MASK) = k.
Proof.
  intros Hk. destruct (Z_of_nat_complete k) as [n ->]; [lia|]. assert (n < 64)%nat as Hn by lia. clear Hk.
  do 64 (destruct n as [|n]; [by vm_compute|]). lia.
Qed.

Lemma ipi_woken ev n sh e x w : sse_ok (t_sse w) -> waits (t_sse w) e x -> 0 <= ev < SBI_IPI_EVENT_MAX ->
  ipi_type (t_ipi w) !! self = Some (2 ^ ev) -> event_ops (t_ipi w) ev = Some (sse_ipi_ops n) ->
  shs (t_sse w) !! self = Some sh -> bq_inv (inject_fifo sh) -> (length (bq_abs (inject_fifo sh)) < n)%nat ->
  (exists id, id ∈ bq_abs (inject_fifo sh) /\ sse_event_get (t_sse w) self id = Some (inr e)) ->
  exists i, sbi_ipi_process self (t_ipi w) = Some i /\ woken e x sh (t_sse w) (SbiIpi.machine i).1.
Proof.
  intros (W & Hs & Hself) (Hx & Hst & _) Hev Hty Hops Esh Hinv Hn (id & Hid & Hget).
  destruct (inject_process_spec hid n (t_sse w) self sh _ W Hs Esh Hinv eq_refl Hn)
    as (s1 & f & E & Hsh & _ & _ & [[W1 Hr1] Hk1] & Hev1).
  destruct (ipi_process_dispatches self (t_ipi w) (2 ^ ev) (s1, (SbiIpi.machine (t_ipi w)).2)) as (i & -> & Hm & _); [done| | |].
  { unfold SBI_IPI_EVENT_MAX in Hev. split; [lia|]. apply Z.pow_lt_mono_r; lia. }
  { change (pending_events (2 ^ ev)) with (word_bits (2 ^ ev) 0 64). rewrite word_bits_one by done. cbn [run_events].
    rewrite Hops. cbn [sse_ipi_ops ops_process]. rewrite some_bind. unfold t_sse in E. by rewrite E. }
  exists i. split; [done|]. rewrite Hm. cbn [fst]. split.
  - split; [done|]. split; [by eapply keeps_slots_ok|]. by eexists.
  - by exists (set_fifo f sh).
  - apply Hr1.
  - intros e' x' Hx'. rewrite (Hev1 e' x' Hx'). unfold injected. destruct (_ && _); [by right|by left].
  - rewrite (Hev1 e x Hx). unfold injected. replace (is_enabled x) with true by (unfold is_enabled; by rewrite Hst).
    cbn [andb]. assert (existsb (fun id => bool_decide (sse_event_get (t_sse w) self id = Some (inr e))) (bq_abs (inject_fifo sh)) = true) as ->; [|done].
    apply existsb_exists. exists id. split; [by apply list_elem_of_In|]. by rewrite bool_decide_eq_true_2.
Qed.

Lemma overflow_woken e x sh w : sse_ok (t_sse w) -> sse_event_get (t_sse w) self SBI_SSE_EVENT_LOCAL_PMU = Some (inr e) ->
  waits (t_sse w) e x -> shs (t_sse w) !! self = Some sh ->
  exists w1, ovf_irq self (hid self) feat ds ipi_rc w = Some w1 /\ woken e x sh (t_sse w) (t_sse w1).
Proof.
  intros Ho Hget Hwait Esh. unfold ovf_irq.
  assert (wp (sbi_pmu_ovf_irq feat) (t_pmu w) (fun _ _ => True)) as Hp.
  { unfold sbi_pmu_ovf_irq. apply wp_bind, irq_mask_wp. intros m. done. }
  unfold wp in Hp. destruct (sbi_pmu_ovf_irq feat (t_pmu w)) as [[? p]|]; [|done]. rewrite some_bind.
  destruct (inject_here_woken SBI_SSE_EVENT_LOCAL_PMU e x sh (set_pmu p w) Ho Hget Hwait Esh) as (w1 & -> & Hk).
  rewrite some_bind. by eexists.
Qed.

Lemma brings_wakes fuel tcntx id t r w e x sh : sbi_hart_has_extension feat SBI_HART_EXT_SMAIA = false ->
  brings id t r w -> sse_event_get (t_sse w) self id = Some (inr e) ->
  sse_ok (t_sse w) -> waits (t_sse w) e x -> shs (t_sse w) !! self = Some sh ->
  exists w1, woken e x sh (t_sse w) (t_sse w1) /\
    handler fuel tcntx t r w
    = ('(r', w') ← deliver self (hid self) H r w1; Some (Returned r' (sbi_trap_set_context (trap_context w) w'))).
Proof.
  intros Haia Hbr Hget Ho Hwait Esh. set (w0 := sbi_trap_set_context tcntx w).
  destruct Hbr as [Hc Hm Hv ->|bit p Hc Hbit Hb64 Hne ->|ev n sh' Hc Hev Hty Hops Esh' Hinv Hn Hin];
    unfold sbi_trap_handler; rewrite Hc; fold w0.
  - change (Z.land CAUSE_DOUBLE_TRAP MCAUSE_IRQ_MASK =? 0) with true. cbn [negb].
    unfold exception. rewrite Hc. cbn [Z.eqb Pos.eqb orb CAUSE_DOUBLE_TRAP CAUSE_ILLEGAL_INSTRUCTION CAUSE_MISALIGNED_LOAD
      CAUSE_MISALIGNED_STORE CAUSE_SUPERVISOR_ECALL CAUSE_MACHINE_ECALL CAUSE_LOAD_ACCESS CAUSE_STORE_ACCESS].
    unfold sbi_double_trap_handler. rewrite Hm, Hv. cbn [negb]. change (PRV_S =? PRV_S) with true. cbn [negb].
    destruct (inject_here_woken SBI_SSE_EVENT_LOCAL_DOUBLE_TRAP e x sh w0 Ho Hget Hwait Esh) as (w1 & -> & Hk).
    by exists w1.
  - destruct (irq_cause bit Hb64) as [-> ->]. cbn [negb]. rewrite Haia. unfold sbi_trap_nonaia_irq, one_irq.
    rewrite !not_elem_of_cons in Hne. destruct Hne as (N1 & N2 & N3 & _).
    rewrite (proj2 (Z.eqb_neq _ _) N1), (proj2 (Z.eqb_neq _ _) N2), (proj2 (Z.eqb_neq _ _) N3).
    change (t_pmu w0) with (t_pmu w). rewrite Hbit, some_bind. cbn zeta. rewrite wrap_small, Z.eqb_refl by lia.
    destruct (overflow_woken e x sh (set_pmu p w0) Ho Hget Hwait Esh) as (w1 & -> & Hk). by exists w1.
  - destruct (irq_cause IRQ_M_SOFT ltac:(done)) as [-> ->]. cbn [negb]. rewrite Haia.
    change (sbi_trap_nonaia_irq self (hid self) feat sbi_irqchip_process ds ipi_rc IRQ_M_SOFT w0)
      with (i ← sbi_ipi_process self (t_ipi w); Some (0, set_ipi i w0)).
    rewrite Esh in Esh'. injection Esh' as <-.
    destruct (ipi_woken ev n sh e x w Ho Hwait Hev Hty Hops Esh Hinv Hn) as (i & -> & Hk); [by exists id|].
    by exists (set_ipi i w0).
Qed.

(** C17: a trap that brings a software event ends in a handler of the operating system.
    On a hart without Smaia, with events unmasked and none running, that was below
    machine mode: when a double trap from supervisor mode that is not virtual, a counter
    overflow (on an interrupt of its own), or an interprocessor interrupt that is the
    only one pending names an event that is enabled and targets this hart, the trap
    handler returns into supervisor mode at the entry point of an event at least as
    urgent, with the hart's identifier and the event's argument in its registers, and
    that event is the one that runs. *)
Theorem event_trap_enters_handler fuel tcntx id t r w e x sh :
  sbi_hart_has_extension feat SBI_HART_EXT_SMAIA = false ->
  brings id t r w -> sse_event_get (t_sse w) self id = Some (inr e) ->
  sse_ok (t_sse w) -> waits (t_sse w) e x -> shs (t_sse w) !! self = Some sh ->
  masked sh = false -> running (t_sse w) self = [] -> below r -> (17 < length (gprs r))%nat ->
  exists r' w' e' x', handler fuel tcntx t r w = Some (Returned r' w') /\ running (t_sse w') self = [e'] /\
    events (t_sse w) !! e' = Some x' /\ event_before x x' = false /\ entered x' r' /\
    trap_context w' = trap_context w.
Proof.
  intros Haia Hbr Hget Ho Hwait Esh Hm Hrun Hb Hl.
  destruct (brings_wakes fuel tcntx id t r w e x sh Haia Hbr Hget Ho Hwait Esh) as (w1 & Hk & ->).
  destruct (woken_deliver e x sh (t_sse w) w1 r Hwait (proj1 Ho) Esh Hk Hm Hrun Hb Hl)
    as (r' & w' & e' & x' & -> & Hr & Hx' & Hbest & He).
  rewrite some_bind. by eexists _, _, e', x'.
Qed.

(** *** Interrupts under the advanced interrupt architecture *)

(** The loop over interrupts ends when serving one makes fewer pending: it then
    stops with none left, or with the error of the first one that could not be
    served. *)
Lemma aia_loop_drains (m : world -> nat) w :
  (forall w, mtopi w <> 0 -> exists rc w',
     one_irq self (hid self) feat sbi_irqchip_process ds ipi_rc (Z.shiftr (mtopi w) TOPI_IID_SHIFT) w = Some (rc, w') /\
     (rc = 0 -> (m w' < m w)%nat)) ->
  exists rc w', sbi_trap_aia_irq self (hid self) feat sbi_irqchip_process mtopi ds ipi_rc (S (m w)) w = Some (rc, w') /\
    (rc = 0 -> mtopi w' = 0).
Proof.
  intros Hstep. assert (forall fuel w, (m w < fuel)%nat -> exists rc w',
    sbi_trap_aia_irq self (hid self) feat sbi_irqchip_process mtopi ds ipi_rc fuel w = Some (rc, w') /\ (rc = 0 -> mtopi w' = 0)) as Hall.
  { induction fuel as [|fuel IH]; intros w0 Hf; [lia|]. cbn [sbi_trap_aia_irq].
    destruct (Z.eqb_spec (mtopi w0) 0) as [E|E]; [by eexists _, _|].
    destruct (Hstep w0 E) as (rc & w1 & -> & Hm). rewrite some_bind. destruct (Z.eqb_spec rc 0) as [-> |]; cbn [negb].
    - apply IH. specialize (Hm eq_refl). lia.
    - by eexists _, _. }
  apply Hall. lia.
Qed.

End Correct.

(** ** A hart with one software event

    The event is enabled and its identifier waits in the queue of injected
    events; the interrupt of software events has number 0. *)

Definition demo_event_x : sbi_sse_event := demo_event 10 0 0 SBI_SSE_EVENT_GLOBAL_RAS.

Definition demo_idle : sse (F := ring) :=
  mkSse {[EGlobal 0 := demo_event_x]} 1 0 {[0 := mkShs [EGlobal 0] false demo_ring1]} [] [].

Lemma demo_idle_events e x : events demo_idle !! e = Some x -> EGlobal 0 = e /\ demo_event_x = x.
Proof. apply lookup_singleton_Some. Qed.

Lemma demo_idle_shs h s : shs demo_idle !! h = Some s -> 0 = h /\ mkShs [EGlobal 0] false demo_ring1 = s.
Proof. apply lookup_singleton_Some. Qed.

Lemma demo_idle_ok : sse_ok 0 (fun h => h) demo_idle.
Proof.
  split; [|split; [split|by eexists]].
  - split.
    + intros e x [<- <-]%demo_idle_events. by vm_compute.
    + intros e x [<- <-]%demo_idle_events. by eexists.
    + intros h s [<- <-]%demo_idle_shs. apply NoDup_singleton.
    + intros h s [<- <-]%demo_idle_shs. repeat constructor.
    + intros h s e [<- <-]%demo_idle_shs. cbn [enabled_event_list]. rewrite list_elem_of_singleton. split.
      * intros ->. exists demo_event_x. by vm_compute.
      * by intros (x & [<- _]%demo_idle_events & _).
  - intros [|i] Hi; [by eexists|]. cbn in Hi. lia.
  - intros h i _ Hi. cbn in Hi. lia.
Qed.

Definition demo_world : hart_world (option Z) () ring () () :=
  mkHw _ _ _ _ _ [] (mkTcsrs 0 0 0 0 0 0 0 0 0 0 0 0 0x80100000) (fun _ => 0) demo_timer demo_booted
    (mkIpi (Some (sse_ipi_ops 2) :: replicate 63 None) None {[0 := 1]} [] [] (demo_idle, ())) 0.

Definition demo_tregs : sbi_trap_regs := mkTregs (replicate 32 0) 0x80201000 0x800.

Definition demo_handler (t : sbi_trap_info) (r : sbi_trap_regs) (w : hart_world (option Z) () ring () ()) :=
  sbi_trap_handler 0 0 false demo_pmu_feat flat 0 demo_counters 777 (fun _ l => (1, l)) (fun _ l => (1, l))
    (fun _ _ => None) (fun _ _ _ => 0) (fun w => (0, w)) (fun _ => 0) (fun _ => mkExt 0 0 false false false) []
    (fun _ _ _ r w => (0, mkOut false 0, r, w)) demo_env (fun _ => 0) 1 0x9f00 t r w.

Lemma demo_world_ok : world_ok 0 (fun h => h) demo_world.
Proof. split; [exact demo_idle_ok|exact demo_booted_ok]. Qed.


(** The same fault is the operating system's own. *)
Lemma fault_is_delegation_witness :
  exists r' c', demo_handler (mkTinfo 13 0x1234 0 0 0) (mkTregs (replicate 32 0) 0x80201000 0x800) demo_world
    = Some (Returned r' (set_csr c' demo_world)) /\ r_mepc r' = 0x80100000 /\ c_sepc c' = 0x80201000.
Proof.
  set (h := SbiTrap.Hw.mkHart PRV_S false 0x80201000 false 0 (t_csr demo_world)).
  destruct (fault_is_delegation 0 (fun h => h) false demo_pmu_feat flat 0 demo_counters 777 (fun _ l => (1, l)) (fun _ l => (1, l))
    (fun _ _ => None) (fun _ _ _ => 0) (fun w => (0, w)) (fun _ => 0) (fun _ => mkExt 0 0 false false false) []
    (fun _ _ _ r w => (0, mkOut false 0, r, w)) demo_env (fun _ => 0) 1 0x9f00 (mkTinfo 13 0x1234 0 0 0) h (replicate 32 0) false
    (mkShs [EGlobal 0] false demo_ring1) demo_world) as (r' & c' & E & _ & _).
  - split; try done; [by left|by vm_compute..].
  - done.
  - split; [vm_compute; split; [discriminate|reflexivity]|]. intros Hin. vm_compute in Hin.
    repeat (apply elem_of_cons in Hin as [Hin|Hin]; [discriminate|]). by apply elem_of_nil in Hin.
  - exact demo_idle_ok.
  - reflexivity.
  - right. intros e x (_ & [<- <-]%demo_idle_events & Hr). by vm_compute in Hr.
  - reflexivity.
  - exists r', c'. split; [exact E|].
    pose proof (f_equal (fun o => match o with Some (Returned r w) => (r_mepc r, c_sepc (t_csr w)) | _ => (0, 0) end) E) as R.
    vm_compute in R. injection R as R1 R2. split; [symmetry; exact R1|symmetry; exact R2].
Defined.

(** The interprocessor interrupt starts the handler of the event. *)
Lemma event_trap_enters_handler_witness :
  exists r' w' e' x', demo_handler (mkTinfo (MCAUSE_IRQ_MASK + IRQ_M_SOFT) 0 0 0 0) demo_tregs demo_world = Some (Returned r' w') /\
    running (t_sse w') 0 = [e'] /\ events (t_sse demo_world) !! e' = Some x' /\ r_mepc r' = pc (entry (attrs x')).
Proof.
  destruct (event_trap_enters_handler 0 (fun h => h) false demo_pmu_feat flat 0 demo_counters 777 (fun _ l => (1, l)) (fun _ l => (1, l))
    (fun _ _ => None) (fun _ _ _ => 0) (fun w => (0, w)) (fun _ => 0) (fun _ => mkExt 0 0 false false false) []
    (fun _ _ _ r w => (0, mkOut false 0, r, w)) demo_env (fun _ => 0) 1 0x9f00 SBI_SSE_EVENT_GLOBAL_RAS
    (mkTinfo (MCAUSE_IRQ_MASK + IRQ_M_SOFT) 0 0 0 0) demo_tregs demo_world (EGlobal 0) demo_event_x (mkShs [EGlobal 0] false demo_ring1))
    as (r' & w' & e' & x' & E & Hr & Hx & _ & (Hp & _) & _).
  - reflexivity.
  - destruct demo_ring1_spec as [Hi Ha]. apply (by_ipi _ _ _ _ _ _ 0 2%nat (mkShs [EGlobal 0] false demo_ring1)); try reflexivity.
    + split; [lia|reflexivity].
    + exact Hi.
    + change (length (ring_abs demo_ring1) < 2)%nat. rewrite Ha. cbn. lia.
    + change (SBI_SSE_EVENT_GLOBAL_RAS ∈ ring_abs demo_ring1). rewrite Ha. by left.
  - reflexivity.
  - exact demo_idle_ok.
  - by vm_compute.
  - reflexivity.
  - reflexivity.
  - reflexivity.
  - left. reflexivity.
  - cbn. lia.
  - exists r', w', e', x'. split; [exact E|]. split; [exact Hr|]. split; [exact Hx|exact Hp].
Defined.
