(* ===== verification/SbiDomainData.v ===== *)
(** * Data of domains (lib/sbi/sbi_domain_data.c)

    A component may attach a block of data to every domain: it registers a
    description, which gets an index, and every domain an array of pointers to
    its blocks.  Descriptions are in a store indexed by their addresses. *)

From S2P Require Import Prelude SbiBitops SbiScratch SbiHartmask SbiMemregion SbiDomain.

Definition SBI_DOMAIN_MAX_DATA_PTRS : Z := 32.

(** [data_setup] and [data_cleanup] are callbacks; NULL is [false]. *)
Record sbi_domain_data := mkDdata { data_size : Z; data_idx : Z; has_data_setup : bool; has_data_cleanup : bool }.

(** The list of registered descriptions, the descriptions by address, the indices
    in use, the array [idx_to_data_ptr] of each domain, the blocks allocated. *)
Record data_state := mkDd {
  data_list : list Z; data_at : gmap Z sbi_domain_data; data_idx_bmap : list Z;
  idx_to_data_ptr : gmap Z (list Z); blocks : gset Z }.

Definition set_ptrs (p : gmap Z (list Z)) (b : gset Z) (st : data_state) : data_state :=
  mkDd (data_list st) (data_at st) (data_idx_bmap st) p b.

Section Data.
(** The allocator; the callbacks by the address of the description, of which the
    model keeps the result. *)
Variables (sbi_zalloc : Z -> gset Z -> option Z) (data_setup : Z -> Z -> Z -> Z).

Definition sbi_domain_data_ptr (dom data : Z) (st : data_state) : option Z :=
  if dom =? 0 then Some 0
  else if data =? 0 then Some 0
  else
    d ← data_at st !! data;
    if data_idx d <? SBI_DOMAIN_MAX_DATA_PTRS then a ← idx_to_data_ptr st !! dom; rd a (data_idx d) else Some 0.

Definition domain_cleanup_data_one (dom data : Z) (st : data_state) : option data_state :=
  d ← data_at st !! data;
  a ← idx_to_data_ptr st !! dom;
  data_ptr ← rd a (data_idx d);
  if data_ptr =? 0 then Some st
  else Some (set_ptrs (<[dom := <[Z.to_nat (data_idx d) := 0]> a]> (idx_to_data_ptr st)) (blocks st ∖ {[data_ptr]}) st).

Fixpoint cleanup_loop (dom : Z) (l : list Z) (st : data_state) : option data_state :=
  match l with
  | [] => Some st
  | data :: l => st ← domain_cleanup_data_one dom data st; cleanup_loop dom l st
  end.

Definition sbi_domain_cleanup_data (dom : Z) (st : data_state) : option data_state :=
  if dom =? 0 then Some st else cleanup_loop dom (data_list st) st.

Definition domain_setup_data_one (dom data : Z) (st : data_state) : option (Z * data_state) :=
  d ← data_at st !! data;
  a ← idx_to_data_ptr st !! dom;
  p ← rd a (data_idx d);
  if negb (p =? 0) then Some (SBI_EALREADY, st)
  else
    match sbi_zalloc (data_size d) (blocks st) with
    | None => st ← sbi_domain_cleanup_data dom st; Some (SBI_ENOMEM, st)
    | Some data_ptr =>
        let rc := if has_data_setup d then data_setup data dom data_ptr else 0 in
        if negb (rc =? 0) then Some (rc, st)
        else Some (0, set_ptrs (<[dom := <[Z.to_nat (data_idx d) := data_ptr]> a]> (idx_to_data_ptr st))
                        ({[data_ptr]} ∪ blocks st) st)
    end.

Fixpoint setup_loop (dom : Z) (l : list Z) (st : data_state) : option (Z * data_state) :=
  match l with
  | [] => Some (0, st)
  | data :: l =>
      '(rc, st) ← domain_setup_data_one dom data st;
      if negb (rc =? 0) then st ← sbi_domain_cleanup_data dom st; Some (rc, st) else setup_loop dom l st
  end.

Definition sbi_domain_setup_data (dom : Z) (st : data_state) : option (Z * data_state) :=
  if dom =? 0 then Some (SBI_EINVAL, st) else setup_loop dom (data_list st) st.

Fixpoint unregister_loop (doms : list Z) (data : Z) (st : data_state) : option data_state :=
  match doms with
  | [] => Some st
  | dom :: doms => st ← domain_cleanup_data_one dom data st; unregister_loop doms data st
  end.

(** [sbi_list_del] of a member of the list. *)
Definition sbi_domain_unregister_data (doms : list Z) (data : Z) (st : data_state) : option data_state :=
  st ← unregister_loop doms data st;
  d ← data_at st !! data;
  Some (mkDd (filter (fun x => x <> data) (data_list st)) (data_at st) (bitmap_clear (data_idx_bmap st) (data_idx d) 1)
          (idx_to_data_ptr st) (blocks st)).

Fixpoint register_loop (all doms : list Z) (data : Z) (st : data_state) : option (Z * data_state) :=
  match doms with
  | [] => Some (0, st)
  | dom :: doms =>
      '(rc, st) ← domain_setup_data_one dom data st;
      if negb (rc =? 0) then st ← sbi_domain_unregister_data all data st; Some (rc, st)
      else register_loop all doms data st
  end.

(** The first index that is not in use. *)
Fixpoint free_idx (n : nat) (i : Z) (bmap : list Z) : Z :=
  match n with
  | O => i
  | S n => if bitmap_test bmap i =? 0 then i else free_idx n (i + 1) bmap
  end.

Definition sbi_domain_register_data (doms : list Z) (data : Z) (st : data_state) : option (Z * data_state) :=
  if data =? 0 then Some (SBI_EINVAL, st)
  else
    d ← data_at st !! data;
    if data_size d =? 0 then Some (SBI_EINVAL, st)
    else
      let idx := free_idx (Z.to_nat SBI_DOMAIN_MAX_DATA_PTRS) 0 (data_idx_bmap st) in
      if SBI_DOMAIN_MAX_DATA_PTRS <=? idx then Some (SBI_ENOSPC, st)
      else
        register_loop doms doms data
          (mkDd (data_list st ++ [data])
             (<[data := mkDdata (data_size d) idx (has_data_setup d) (has_data_cleanup d)]> (data_at st))
             (bitmap_set (data_idx_bmap st) idx 1) (idx_to_data_ptr st) (blocks st)).

End Data.

(** ** Registered data is kept apart *)

Lemma word_offset nr : BIT_WORD_OFFSET nr = nr mod BITS_PER_LONG.
Proof. unfold BIT_WORD_OFFSET, BITS_PER_LONG. change (64 - 1) with (Z.ones 6). by rewrite Z.land_ones by lia. Qed.

Lemma bitmap_set_one a nr : bitmap_set a nr 1 = set_bit nr a.
Proof. unfold bitmap_set, set_bit, BIT_MASK. change (Z.to_nat 1) with 1%nat. cbn [for_up]. by rewrite word_offset. Qed.

Lemma bitmap_clear_one a nr : bitmap_clear a nr 1 = clear_bit nr a.
Proof. unfold bitmap_clear, clear_bit, BIT_MASK. change (Z.to_nat 1) with 1%nat. cbn [for_up]. by rewrite word_offset. Qed.

Lemma free_idx_spec n i bmap : 0 <= i ->
  let k := free_idx n i bmap in
  i <= k <= i + Z.of_nat n /\ (k < i + Z.of_nat n -> bit_at bmap k = false) /\ (forall j, i <= j < k -> bit_at bmap j = true).
Proof.
  revert i. induction n as [|n IH]; intros i Hi; cbn [free_idx]; [split_and!; intros; lia|].
  unfold bitmap_test. rewrite test_bit_spec by done. destruct (bit_at bmap i) eqn:E; cbn [Z.b2z Z.eqb].
  - destruct (IH (i + 1)) as (H1 & H2 & H3); [lia|]. split_and!; [lia|lia|intros; apply H2; lia|].
    intros j Hj. destruct (Z.eq_dec j i) as [-> |]; [done|]. apply H3. lia.
  - split_and!; [lia|lia|done|lia].
Qed.

(** The entry of a domain's array. *)
Definition ptr (st : data_state) (dom i : Z) : Z := default 0 (a ← idx_to_data_ptr st !! dom; rd a i).

Section Separation.
Variables (sbi_zalloc : Z -> gset Z -> option Z) (data_setup : Z -> Z -> Z -> Z) (doms : list Z).

(** Every domain has its array, and a block belongs to one entry only. *)
Record arrays_ok (st : data_state) : Prop := {
  ar_array dom : dom ∈ doms -> dom <> 0 /\ exists a, idx_to_data_ptr st !! dom = Some a /\ length a = 32%nat;
  ar_block dom i : dom ∈ doms -> 0 <= i < 32 -> ptr st dom i <> 0 -> ptr st dom i ∈ blocks st;
  ar_sep dom i dom' j : dom ∈ doms -> dom' ∈ doms -> 0 <= i < 32 -> 0 <= j < 32 ->
    ptr st dom i = ptr st dom' j -> ptr st dom i <> 0 -> dom = dom' /\ i = j }.

(** A description at its index. *)
Definition described (st : data_state) (x : Z) (d : sbi_domain_data) : Prop :=
  data_at st !! x = Some d /\ x <> 0 /\ 0 <= data_idx d < 32 /\ bit_at (data_idx_bmap st) (data_idx d) = true.

Record data_ok (st : data_state) : Prop := {
  dk_arrays : arrays_ok st;
  dk_bmap : length (data_idx_bmap st) = 1%nat;
  dk_desc x : x ∈ data_list st -> exists d, described st x d;
  dk_inj x y dx dy : x ∈ data_list st -> y ∈ data_list st -> described st x dx -> described st y dy ->
    data_idx dx = data_idx dy -> x = y;
  dk_set x d dom : x ∈ data_list st -> described st x d -> dom ∈ doms -> ptr st dom (data_idx d) <> 0;
  dk_free dom i : dom ∈ doms -> 0 <= i < 32 -> bit_at (data_idx_bmap st) i = false -> ptr st dom i = 0 }.

(** The allocator returns blocks that are not in use. *)
Definition alloc_ok : Prop := forall n b p, sbi_zalloc n b = Some p -> p <> 0 /\ p ∉ b.

Lemma ptr_rd st dom a i : idx_to_data_ptr st !! dom = Some a -> length a = 32%nat -> 0 <= i < 32 -> rd a i = Some (ptr st dom i).
Proof. intros E Hl Hi. unfold ptr. rewrite E, some_bind. destruct (rd_in a i) as [v ->]; [lia|done]. Qed.

(** Writing one entry. *)
Lemma ptr_put st dom a i v b dom' j : idx_to_data_ptr st !! dom = Some a -> length a = 32%nat -> 0 <= i < 32 ->
  ptr (set_ptrs (<[dom := <[Z.to_nat i := v]> a]> (idx_to_data_ptr st)) b st) dom' j
  = if bool_decide (dom' = dom) && (j =? i) then v else ptr st dom' j.
Proof.
  intros E Hl Hi. unfold ptr. cbn [idx_to_data_ptr set_ptrs]. case_bool_decide as Hd; cbn [andb].
  - subst dom'. rewrite lookup_insert_eq, E, !some_bind, rd_insert by lia. by destruct (j =? i).
  - by rewrite lookup_insert_ne.
Qed.

Lemma array_put st dom a i v b : arrays_ok st -> dom ∈ doms -> idx_to_data_ptr st !! dom = Some a -> length a = 32%nat -> 0 <= i < 32 ->
  (forall dom' j, dom' ∈ doms -> 0 <= j < 32 -> (dom', j) <> (dom, i) -> ptr st dom' j <> 0 -> ptr st dom' j <> v /\ ptr st dom' j ∈ b) ->
  (v <> 0 -> v ∈ b) ->
  arrays_ok (set_ptrs (<[dom := <[Z.to_nat i := v]> a]> (idx_to_data_ptr st)) b st).
Proof.
  intros [Ha Hb Hs] Hd E Hl Hi Hv Hvb. split.
  - intros dom' Hd'. destruct (Ha dom' Hd') as (Hn & a' & E' & Hl'). split; [done|]. cbn.
    destruct (decide (dom' = dom)) as [-> |]; [rewrite lookup_insert_eq|rewrite lookup_insert_ne by done; by exists a'].
    eexists. split; [reflexivity|]. by rewrite length_insert.
  - intros dom' j Hd' Hj. rewrite (ptr_put st dom a) by done. cbn [blocks set_ptrs].
    case_bool_decide as E1; cbn [andb]; [destruct (Z.eqb_spec j i) as [E2|E2]|].
    + exact Hvb.
    + intros Hp. apply Hv; [done..| |done]. congruence.
    + intros Hp. apply Hv; [done..| |done]. congruence.
  - intros d1 j1 d2 j2 H1 H2 R1 R2. rewrite !(ptr_put st dom a) by done.
    assert (forall d j, d ∈ doms -> 0 <= j < 32 -> bool_decide (d = dom) && (j =? i) = false -> ptr st d j <> 0 -> ptr st d j <> v) as Hnv.
    { intros d j Hdj Hj Hb' Hp. apply Hv; [done..| |done]. intros [= -> ->]. by rewrite bool_decide_eq_true_2, Z.eqb_refl in Hb' by done. }
    destruct (bool_decide (d1 = dom) && (j1 =? i)) eqn:B1, (bool_decide (d2 = dom) && (j2 =? i)) eqn:B2.
    + intros _ _. apply andb_true_iff in B1 as [B1%bool_decide_eq_true ->%Z.eqb_eq], B2 as [B2%bool_decide_eq_true ->%Z.eqb_eq]. by subst.
    + intros Eq Hp. exfalso. apply (Hnv d2 j2); congruence.
    + intros Eq Hp. exfalso. apply (Hnv d1 j1); congruence.
    + by apply Hs.
Qed.

Lemma cleanup_one_spec dom x d st : arrays_ok st -> dom ∈ doms -> data_at st !! x = Some d -> 0 <= data_idx d < 32 ->
  exists st', domain_cleanup_data_one dom x st = Some st' /\
    data_at st' = data_at st /\ data_list st' = data_list st /\ data_idx_bmap st' = data_idx_bmap st /\ arrays_ok st' /\
    forall dom' j, ptr st' dom' j = if bool_decide (dom' = dom) && (j =? data_idx d) then 0 else ptr st dom' j.
Proof.
  intros Ha Hd Ex Hi. unfold domain_cleanup_data_one. destruct (ar_array _ Ha dom Hd) as (_ & a & Ea & Hla).
  rewrite Ex, some_bind, Ea, some_bind, (ptr_rd st dom a), some_bind by done.
  destruct (Z.eqb_spec (ptr st dom (data_idx d)) 0) as [E|E].
  - exists st. split_and!; try done. intros dom' j. case_bool_decide as B; cbn [andb]; [|done]. subst.
    destruct (Z.eqb_spec j (data_idx d)) as [-> |]; [by rewrite E|done].
  - eexists. split; [reflexivity|]. split_and!; try done.
    + apply array_put; [done..| |done]. intros dom' j Hd' Hj Hne Hp. split; [done|].
      pose proof (ar_block _ Ha dom' j Hd' Hj Hp). assert (ptr st dom' j <> ptr st dom (data_idx d)); [|set_solver].
      intros Eq. apply Hne. destruct (ar_sep _ Ha dom' j dom (data_idx d) Hd' Hd Hj Hi Eq Hp) as [-> ->]. done.
    + intros dom' j. by rewrite (ptr_put st dom a).
Qed.

(** Cleaning up for a domain clears the entries of all registered data. *)
Lemma cleanup_loop_spec dom l st : arrays_ok st -> dom ∈ doms ->
  (forall y, y ∈ l -> exists dy, data_at st !! y = Some dy /\ 0 <= data_idx dy < 32) ->
  exists st', cleanup_loop dom l st = Some st' /\ data_at st' = data_at st /\ data_list st' = data_list st /\
    data_idx_bmap st' = data_idx_bmap st /\ arrays_ok st' /\
    (forall dom' j, dom' <> dom -> ptr st' dom' j = ptr st dom' j) /\
    (forall j, ptr st dom j = 0 -> ptr st' dom j = 0) /\
    (forall y dy, y ∈ l -> data_at st !! y = Some dy -> ptr st' dom (data_idx dy) = 0).
Proof.
  intros Ha Hd. revert st Ha. induction l as [|y l IH]; intros st Ha Hl; cbn [cleanup_loop].
  { exists st. split_and!; try done. intros y dy Hy. by apply elem_of_nil in Hy. }
  destruct (Hl y) as (dy & Ey & Hiy); [by left|].
  destruct (cleanup_one_spec dom y dy st Ha Hd Ey Hiy) as (st1 & -> & A1 & L1 & B1 & Ha1 & P1). rewrite some_bind.
  destruct (IH st1 Ha1) as (st2 & -> & A2 & L2 & B2 & Ha2 & P2 & Z2 & S2).
  { intros z Hz. rewrite A1. apply Hl. by right. }
  exists st2. split_and!; try done; try congruence.
  - intros dom' j Hn. rewrite P2, P1 by done. by rewrite bool_decide_eq_false_2.
  - intros j Hj. apply Z2. rewrite P1. by destruct (_ && _).
  - intros z dz Hz Ez. apply elem_of_cons in Hz as [-> |Hz]; [|apply (S2 z); [done|by rewrite A1]].
    rewrite Ey in Ez. injection Ez as <-. apply Z2. rewrite P1, bool_decide_eq_true_2, Z.eqb_refl by done. done.
Qed.

(** The state after one domain got its block. *)
Lemma setup_one_spec dom x d st : alloc_ok -> arrays_ok st -> dom ∈ doms -> data_at st !! x = Some d -> 0 <= data_idx d < 32 ->
  ptr st dom (data_idx d) = 0 ->
  (forall y, y ∈ data_list st -> exists dy, data_at st !! y = Some dy /\ 0 <= data_idx dy < 32) ->
  exists rc st', domain_setup_data_one sbi_zalloc data_setup dom x st = Some (rc, st') /\
    data_at st' = data_at st /\ data_list st' = data_list st /\ data_idx_bmap st' = data_idx_bmap st /\
    arrays_ok st' /\ (rc = 0 -> ptr st' dom (data_idx d) <> 0 /\
      forall dom' j, (dom', j) <> (dom, data_idx d) -> ptr st' dom' j = ptr st dom' j).
Proof.
  intros Hal Ha Hd Ex Hi Hp Hl. unfold domain_setup_data_one. rewrite Ex, some_bind.
  destruct (ar_array _ Ha dom Hd) as (Hn & a & Ea & Hla). rewrite Ea, some_bind, (ptr_rd st dom a) by done.
  rewrite some_bind, Hp. cbn [Z.eqb negb]. destruct (sbi_zalloc (data_size d) (blocks st)) as [q|] eqn:Eq.
  - destruct (Hal _ _ _ Eq) as [Hq0 Hqb]. set (rc := if has_data_setup d then _ else 0).
    destruct (Z.eqb_spec rc 0) as [Erc|Erc]; cbn [negb]; [|eexists _, _; split_and!; done].
    eexists _, _. split; [reflexivity|]. split_and!; try done.
    + apply array_put; [done..| |set_solver]. intros dom' j Hd' Hj _ Hne. pose proof (ar_block _ Ha dom' j Hd' Hj Hne). set_solver.
    + intros _. split; [by rewrite (ptr_put st dom a), bool_decide_eq_true_2, Z.eqb_refl by done|].
      intros dom' j Hne. rewrite (ptr_put st dom a) by done. case_bool_decide as B; cbn [andb]; [|done].
      destruct (Z.eqb_spec j (data_idx d)); [congruence|done].
  - unfold sbi_domain_cleanup_data. rewrite (proj2 (Z.eqb_neq _ _) Hn).
    destruct (cleanup_loop_spec dom (data_list st) st Ha Hd) as (st' & -> & H1 & H2 & H3 & H4 & _).
    { intros y Hy. apply Hl, Hy. }
    rewrite some_bind. eexists _, _. split; [reflexivity|]. by split_and!.
Qed.
Lemma unregister_loop_spec l x d st : arrays_ok st -> (forall dom, dom ∈ l -> dom ∈ doms) -> data_at st !! x = Some d -> 0 <= data_idx d < 32 ->
  exists st', unregister_loop l x st = Some st' /\ data_at st' = data_at st /\ data_list st' = data_list st /\
    forall dom j, ptr st dom j = 0 -> ptr st' dom j = 0.
Proof.
  revert st. induction l as [|dom l IH]; intros st Ha Hin Ex Hi; cbn [unregister_loop]; [by exists st|].
  destruct (cleanup_one_spec dom x d st Ha) as (st1 & -> & A1 & L1 & B1 & Ha1 & P1); [apply Hin; by left|done|done|]. rewrite some_bind.
  destruct (IH st1 Ha1) as (st2 & -> & A2 & L2 & Z2); [intros dom' Hd'; apply Hin; by right|by rewrite A1|done|].
  exists st2. split_and!; try done; try congruence. intros dom' j Hz. apply Z2. rewrite P1. by destruct (_ && _).
Qed.

(** All domains of [l] get a block, or the registration is undone. *)
Lemma register_loop_spec l x d st : alloc_ok -> arrays_ok st -> NoDup l -> (forall dom, dom ∈ l -> dom ∈ doms) ->
  data_at st !! x = Some d -> 0 <= data_idx d < 32 -> (forall dom, dom ∈ l -> ptr st dom (data_idx d) = 0) ->
  (forall y, y ∈ data_list st -> exists dy, data_at st !! y = Some dy /\ 0 <= data_idx dy < 32) ->
  exists rc st', register_loop sbi_zalloc data_setup doms l x st = Some (rc, st') /\
    (rc = 0 -> data_at st' = data_at st /\ data_list st' = data_list st /\ data_idx_bmap st' = data_idx_bmap st /\
       arrays_ok st' /\ (forall dom, dom ∈ l -> ptr st' dom (data_idx d) <> 0) /\
       (forall dom j, dom ∉ l \/ j <> data_idx d -> ptr st' dom j = ptr st dom j)) /\
    (rc <> 0 -> x ∉ data_list st').
Proof.
  intros Hal. revert st. induction l as [|dom l IH]; intros st Ha Hnd Hin Ex Hi Hz Hl; cbn [register_loop].
  { eexists _, _. split; [reflexivity|]. split; [|done]. intros _. split_and!; try done. intros dom Hdom. by apply elem_of_nil in Hdom. }
  apply NoDup_cons in Hnd as [Hni Hnd].
  destruct (setup_one_spec dom x d st Hal Ha) as (rc & st1 & -> & A1 & L1 & B1 & Ha1 & Hok); [apply Hin; by left|done|done|apply Hz; by left|done|].
  rewrite some_bind. destruct (Z.eqb_spec rc 0) as [-> |Hrc]; cbn [negb].
  - destruct (Hok eq_refl) as [Hset Hsame].
    destruct (IH st1 Ha1 Hnd) as (rc & st2 & E2 & Hyes & Hno).
    + intros dom' Hd'. apply Hin. by right.
    + by rewrite A1.
    + done.
    + intros dom' Hd'. rewrite Hsame; [apply Hz; by right|]. intros [= ->]. done.
    + intros y. rewrite A1, L1. apply Hl.
    + exists rc, st2. split; [done|]. split; [|done]. intros Hrc. destruct (Hyes Hrc) as (A2 & L2 & B2 & Ha2 & S2 & P2).
      split_and!; try done; try congruence.
      * intros dom' [-> |Hd']%elem_of_cons; [|by apply S2]. rewrite P2; [done|by left].
      * intros dom' j Hor. rewrite P2 by (rewrite not_elem_of_cons in Hor; tauto). apply Hsame. intros [= -> ->].
        destruct Hor as [Hor|]; [|done]. apply Hor. by left.
  - destruct (unregister_loop_spec doms x d st1) as (st2 & E2 & A2 & _); [done|done|by rewrite A1|done|].
    unfold sbi_domain_unregister_data. rewrite E2, some_bind, A2, A1, Ex, !some_bind.
    eexists _, _. split; [reflexivity|]. split; [done|]. intros _. cbn. rewrite list_elem_of_filter. tauto.
Qed.

(** Data of domains is kept apart: registering a description ends, and when it
    succeeds every domain has a block of its own for it, at an index no other
    registered description has; the blocks of all other descriptions stay as they
    were, and an error leaves the description unregistered. *)
Lemma register_data_separate x d st :
  alloc_ok -> data_ok st -> NoDup doms -> data_at st !! x = Some d -> x <> 0 -> x ∉ data_list st ->
  exists rc st', sbi_domain_register_data sbi_zalloc data_setup doms x st = Some (rc, st') /\
    (rc = 0 -> data_ok st' /\ data_list st' = data_list st ++ [x] /\
       forall y dom, y ∈ data_list st -> dom ∈ doms -> sbi_domain_data_ptr dom y st' = sbi_domain_data_ptr dom y st) /\
    (rc <> 0 -> x ∉ data_list st').
Proof.
  intros Hal [Ha Hb Hdesc Hinj Hset Hfree] Hnd Ex Hx Hni. unfold sbi_domain_register_data.
  rewrite (proj2 (Z.eqb_neq _ _) Hx), Ex, some_bind. destruct (Z.eqb_spec (data_size d) 0); [by eexists _, _|].
  destruct (free_idx_spec (Z.to_nat SBI_DOMAIN_MAX_DATA_PTRS) 0 (data_idx_bmap st)) as (Hk & Hkf & _); [lia|].
  set (k := free_idx _ 0 _) in *. change (0 + Z.of_nat (Z.to_nat SBI_DOMAIN_MAX_DATA_PTRS)) with 32 in *.
  unfold SBI_DOMAIN_MAX_DATA_PTRS. destruct (Z.leb_spec 32 k); [by eexists _, _|]. cbn zeta.
  set (d' := mkDdata _ k _ _). set (st0 := mkDd _ (<[x := d']> _) _ _ _).
  assert (arrays_ok st0) as Ha0 by (destruct Ha; by split).
  assert (forall y, y ∈ data_list st -> data_at st0 !! y = data_at st !! y) as Hold.
  { intros y Hy. cbn. apply lookup_insert_ne. congruence. }
  assert (forall j, 0 <= j -> bit_at (data_idx_bmap st0) j = (j =? k) || bit_at (data_idx_bmap st) j) as Hbit.
  { intros j Hj. cbn. rewrite bitmap_set_one, bit_at_set by (rewrite ?Hb; lia). done. }
  destruct (register_loop_spec doms x d' st0 Hal Ha0 Hnd) as (rc & st1 & E1 & Hyes & Hno); [done|apply lookup_insert_eq|cbn; lia| | |].
  { intros dom Hdom. apply Hfree; [done|cbn; lia|]. apply Hkf. lia. }
  { intros y [Hy| ->%list_elem_of_singleton]%elem_of_app; [|exists d'; split; [apply lookup_insert_eq|cbn; lia]].
    destruct (Hdesc y Hy) as (dy & (Ey & _ & Hiy & _)). exists dy. by rewrite Hold. }
  exists rc, st1. split; [done|]. split; [|done]. intros Hrc. destruct (Hyes Hrc) as (A1 & L1 & B1 & Ha1 & S1 & P1).
  change (data_list st0) with (data_list st ++ [x]) in L1.
  assert (forall y dy, y ∈ data_list st -> described st1 y dy -> described st y dy /\ data_idx dy <> k) as Hdold.
  { intros y dy Hy (Ey & Hy0 & Hiy & Hby). rewrite A1, Hold in Ey by done.
    destruct (Hdesc y Hy) as (dy' & (Ey' & _ & _ & Hby')). rewrite Ey in Ey'. injection Ey' as <-. split; [done|].
    intros E. rewrite E, Hkf in Hby' by lia. done. }
  assert (forall dx, described st1 x dx -> data_idx dx = k) as Hdnew.
  { intros dx (Edx & _). rewrite A1 in Edx. cbn in Edx. rewrite lookup_insert_eq in Edx. by injection Edx as <-. }
  split_and!; [|by rewrite L1|].
  - split; [done|rewrite B1; cbn; by rewrite bitmap_set_one, set_bit_length| | | |].
    + intros y. rewrite L1. intros [Hy| ->%list_elem_of_singleton]%elem_of_app.
      * destruct (Hdesc y Hy) as (dy & (Ey & Hy0 & Hiy & Hby)). exists dy. split_and!; try done; try lia; [by rewrite A1, Hold|].
        rewrite B1, Hbit, Hby by lia. apply orb_true_r.
      * exists d'. split_and!; try done; try (cbn; lia); [rewrite A1; apply lookup_insert_eq|].
        rewrite B1, Hbit by (cbn; lia). cbn. by rewrite Z.eqb_refl.
    + intros y z dy dz. rewrite L1, !elem_of_app, !list_elem_of_singleton. intros [Hy| ->] [Hz| ->] Dy Dz Eq; try done.
      * apply (Hinj y z dy dz); try done; by apply Hdold.
      * destruct (Hdold y dy Hy Dy) as [_ Hk1]. by rewrite (Hdnew dz Dz) in Eq.
      * destruct (Hdold z dz Hz Dz) as [_ Hk1]. by rewrite (Hdnew dy Dy) in Eq.
    + intros y dy dom. rewrite L1, elem_of_app, list_elem_of_singleton. intros [Hy| ->] Dy Hdom.
      * destruct (Hdold y dy Hy Dy) as [Dy' Hk1]. rewrite P1 by (right; done). by apply (Hset y).
      * rewrite (Hdnew dy Dy). by apply S1.
    + intros dom i Hdom Hi. rewrite B1, Hbit by lia. intros [Hne Hf]%orb_false_iff. apply Z.eqb_neq in Hne.
      rewrite P1 by (right; done). by apply Hfree.
  - intros y dom Hy Hdom. destruct (Hdesc y Hy) as (dy & (Ey & Hy0 & Hiy & Hby)). unfold sbi_domain_data_ptr.
    destruct (ar_array _ Ha dom Hdom) as (Hd0 & a & Ea & Hla). destruct (ar_array _ Ha1 dom Hdom) as (_ & a1 & Ea1 & Hla1).
    rewrite (proj2 (Z.eqb_neq _ _) Hd0), (proj2 (Z.eqb_neq _ _) Hy0), A1, Hold, Ey, !some_bind by done.
    destruct (data_idx dy <? SBI_DOMAIN_MAX_DATA_PTRS); [|done]. rewrite Ea, Ea1, !some_bind.
    rewrite (ptr_rd st dom a), (ptr_rd st1 dom a1) by done. f_equal. rewrite P1; [done|]. right. cbn. intros E. rewrite E, Hkf in Hby by lia. done.
Qed.

(** When the allocation for a domain fails, the domain loses the blocks of all
    other components too, which stay registered. *)
Lemma register_failure_drops_data x d st dom rest y dy :
  data_ok st -> doms = dom :: rest -> data_at st !! x = Some d -> x <> 0 -> x ∉ data_list st -> data_size d <> 0 ->
  (forall n b, sbi_zalloc n b = None) -> y ∈ data_list st -> described st y dy ->
  free_idx (Z.to_nat SBI_DOMAIN_MAX_DATA_PTRS) 0 (data_idx_bmap st) < 32 ->
  exists st', sbi_domain_register_data sbi_zalloc data_setup doms x st = Some (SBI_ENOMEM, st') /\
    y ∈ data_list st' /\ ptr st dom (data_idx dy) <> 0 /\ ptr st' dom (data_idx dy) = 0.
Proof.
  intros [Ha Hb Hdesc Hinj Hset Hfree] Hdoms Ex Hx Hni Hsz Hnone Hy Dy Hk. pose proof Dy as (Ey & Hy0 & Hiy & _).
  assert (dom ∈ doms) as Hdom by (rewrite Hdoms; by left). unfold sbi_domain_register_data.
  rewrite (proj2 (Z.eqb_neq _ _) Hx), Ex, some_bind, (proj2 (Z.eqb_neq _ _) Hsz). cbn zeta. unfold SBI_DOMAIN_MAX_DATA_PTRS in *.
  destruct (free_idx_spec (Z.to_nat 32) 0 (data_idx_bmap st)) as (Hk0 & Hkf & _); [lia|]. set (k := free_idx _ 0 _) in *.
  rewrite (proj2 (Z.leb_gt 32 k)) by lia. set (d' := mkDdata _ k _ _). set (st0 := mkDd _ (<[x := d']> _) _ _ _).
  assert (arrays_ok st0) as Ha0 by (destruct Ha; by split).
  assert (data_at st0 !! y = Some dy) as Ey0 by (cbn; rewrite lookup_insert_ne by congruence; done).
  assert (forall z, z ∈ data_list st0 -> exists dz, data_at st0 !! z = Some dz /\ 0 <= data_idx dz < 32) as Hl0.
  { intros z [Hz| ->%list_elem_of_singleton]%elem_of_app; [|exists d'; split; [apply lookup_insert_eq|cbn; lia]].
    destruct (Hdesc z Hz) as (dz & (Ez & _ & Hiz & _)). exists dz. split; [|done]. cbn. rewrite lookup_insert_ne by congruence. done. }
  destruct (cleanup_loop_spec dom (data_list st0) st0 Ha0 Hdom Hl0) as (st1 & E1 & A1 & L1 & B1 & Ha1 & _ & _ & Z1).
  assert (domain_setup_data_one sbi_zalloc data_setup dom x st0 = Some (SBI_ENOMEM, st1)) as E0.
  { unfold domain_setup_data_one. cbn [data_at]. change (data_at st0 !! x) with (<[x := d']> (data_at st) !! x).
    rewrite lookup_insert_eq, some_bind. destruct (ar_array _ Ha0 dom Hdom) as (Hn & a & Ea & Hla).
    rewrite Ea, some_bind, (ptr_rd st0 dom a), some_bind by (done || (cbn; lia)).
    assert (ptr st0 dom (data_idx d') = 0) as -> by (apply Hfree; [done|cbn; lia|apply Hkf; lia]). cbn [Z.eqb negb].
    rewrite Hnone. unfold sbi_domain_cleanup_data. rewrite (proj2 (Z.eqb_neq _ _) Hn), E1. done. }
  destruct (unregister_loop_spec doms x d' st1 Ha1) as (st2 & E2 & A2 & L2 & Z2); [done|rewrite A1; apply lookup_insert_eq|cbn; lia|].
  rewrite Hdoms in E2 |- *. cbn [register_loop]. rewrite E0, some_bind. change (negb (SBI_ENOMEM =? 0)) with true. cbv iota.
  unfold sbi_domain_unregister_data. rewrite E2, some_bind, A2, A1.
  change (data_at st0 !! x) with (<[x := d']> (data_at st) !! x). rewrite lookup_insert_eq, !some_bind.
  eexists. split; [reflexivity|]. split_and!.
  - cbn. rewrite list_elem_of_filter, L2, L1. split; [congruence|]. cbn. apply elem_of_app. by left.
  - by apply (Hset y).
  - apply Z2, (Z1 y); [|done]. cbn. apply elem_of_app. by left.
Qed.

End Separation.

(** ** One domain *)

Definition demo_data_state : data_state :=
  mkDd [] {[64 := mkDdata 1024 0 false false]} [0] {[1 := replicate 32 0]} ∅.

Definition demo_alloc (n : Z) (b : gset Z) : option Z := if decide (0x500 ∈ b) then None else Some 0x500.

Lemma register_data_separate_witness :
  exists rc st', sbi_domain_register_data demo_alloc (fun _ _ _ => 0) [1] 64 demo_data_state = Some (rc, st') /\ rc = 0 /\
    data_list st' = [64].
Proof.
  destruct (register_data_separate demo_alloc (fun _ _ _ => 0) [1] 64 (mkDdata 1024 0 false false) demo_data_state)
    as (rc & st' & E & Hyes & _).
  - intros n b p. unfold demo_alloc. destruct (decide _); [discriminate|]. intros [= <-]. by split.
  - assert (forall i, 0 <= i < 32 -> ptr demo_data_state 1 i = 0) as Hz.
    { intros i Hi. unfold ptr. cbn [idx_to_data_ptr demo_data_state]. rewrite lookup_singleton_eq, some_bind.
      unfold rd. destruct (i <? 0); [done|]. destruct (replicate 32 0 !! Z.to_nat i) eqn:E; [|done]. by apply lookup_replicate in E as [-> _]. }
    split; try done.
    + split.
      * intros dom ->%list_elem_of_singleton. split; [done|]. exists (replicate 32 0). split; [apply lookup_singleton_eq|done].
      * intros dom i ->%list_elem_of_singleton Hi Hn. by destruct Hn; apply Hz.
      * intros d1 i d2 j ->%list_elem_of_singleton ->%list_elem_of_singleton Hi Hj _ Hn. by destruct Hn; apply Hz.
    + intros x Hx. by apply elem_of_nil in Hx.
    + intros x y dx dy Hx. by apply elem_of_nil in Hx.
    + intros x d dom Hx. by apply elem_of_nil in Hx.
    + intros dom i ->%list_elem_of_singleton Hi _. by apply Hz.
  - apply NoDup_singleton.
  - reflexivity.
  - discriminate.
  - apply not_elem_of_nil.
  - exists rc, st'. split; [exact E|].
    pose proof (f_equal (option_map fst) E) as R. vm_compute in R. injection R as <-. split; [reflexivity|]. apply Hyes. reflexivity.
Defined.
