(* ===== verification/SbiDomainContext.v ===== *)
(** * Domain contexts (lib/sbi/sbi_domain_context.c)

    A hart moves to another domain by a context switch: it is assigned to the
    target domain, the physical memory protection is programmed anew, and the
    supervisor's registers and the trap context are exchanged with the saved ones.
    The contexts of the harts are data of the domains.  Structures are in stores
    indexed by their addresses, so that two names for one context are the same
    cell. *)

From S2P Require Import Prelude SbiBitops SbiScratch SbiHartmask SbiMemregion SbiDomain SbiHart SbiPmp SbiPmpRoot SbiSse SbiTrap SbiDomainData.

Section Contexts.
(** The allocator. *)
Variable sbi_zalloc : Z -> gset Z -> option Z.

(** ** Contexts *)

(** The supervisor's registers a switch exchanges. *)
Record sregs := mkSregs {
  x_sstatus : Z; x_sie : Z; x_stvec : Z; x_sscratch : Z; x_sepc : Z; x_scause : Z; x_stval : Z; x_sip : Z; x_satp : Z;
  x_scounteren : Z; x_senvcfg : Z }.

Record sbi_trap_context := mkTc { tc_regs : sbi_trap_regs; tc_trap : sbi_trap_info; tc_prev : Z }.

(** [prev_ctx] is 0 for NULL. *)
Record hart_context := mkCtx {
  trap_ctx : sbi_trap_context; saved : sregs; ctx_dom : Z; prev_ctx : Z; initialized : bool }.

Definition zero_regs : sregs := mkSregs 0 0 0 0 0 0 0 0 0 0 0.
Definition zero_ctx (dom : Z) : hart_context :=
  mkCtx (mkTc (mkTregs (replicate 32 0) 0 0) (mkTinfo 0 0 0 0 0) 0) zero_regs dom 0 false.

(** What a hart works on: the domains, their data, the tables
    [hartindex_to_context_table] by the address of the block they are in (fresh
    blocks are zero), the contexts, and the hart's own registers. *)
Record ctx_world := mkCw {
  cw_ds : domain_state; cw_data : data_state; cw_tables : gmap Z (gmap Z Z); cw_ctxs : gmap Z hart_context;
  cw_pmp : Hw.pmp; cw_sregs : sregs; cw_trap : sbi_trap_context }.

Definition put_ctx (a : Z) (c : hart_context) (w : ctx_world) : ctx_world :=
  mkCw (cw_ds w) (cw_data w) (cw_tables w) (<[a := c]> (cw_ctxs w)) (cw_pmp w) (cw_sregs w) (cw_trap w).
Definition put_ds (d : domain_state) (w : ctx_world) : ctx_world :=
  mkCw d (cw_data w) (cw_tables w) (cw_ctxs w) (cw_pmp w) (cw_sregs w) (cw_trap w).
Definition put_pmp (p : Hw.pmp) (w : ctx_world) : ctx_world :=
  mkCw (cw_ds w) (cw_data w) (cw_tables w) (cw_ctxs w) p (cw_sregs w) (cw_trap w).
Definition put_sregs (s : sregs) (w : ctx_world) : ctx_world :=
  mkCw (cw_ds w) (cw_data w) (cw_tables w) (cw_ctxs w) (cw_pmp w) s (cw_trap w).
Definition put_trap (t : sbi_trap_context) (w : ctx_world) : ctx_world :=
  mkCw (cw_ds w) (cw_data w) (cw_tables w) (cw_ctxs w) (cw_pmp w) (cw_sregs w) t.
Definition put_data (d : data_state) (w : ctx_world) : ctx_world :=
  mkCw (cw_ds w) d (cw_tables w) (cw_ctxs w) (cw_pmp w) (cw_sregs w) (cw_trap w).
Definition put_tables (t : gmap Z (gmap Z Z)) (w : ctx_world) : ctx_world :=
  mkCw (cw_ds w) (cw_data w) t (cw_ctxs w) (cw_pmp w) (cw_sregs w) (cw_trap w).

Definition set_saved (s : sregs) (c : hart_context) : hart_context :=
  mkCtx (trap_ctx c) s (ctx_dom c) (prev_ctx c) (initialized c).
Definition set_trap_ctx (t : sbi_trap_context) (c : hart_context) : hart_context :=
  mkCtx t (saved c) (ctx_dom c) (prev_ctx c) (initialized c).
Definition set_prev (p : Z) (c : hart_context) : hart_context :=
  mkCtx (trap_ctx c) (saved c) (ctx_dom c) p (initialized c).
Definition set_initialized (c : hart_context) : hart_context :=
  mkCtx (trap_ctx c) (saved c) (ctx_dom c) (prev_ctx c) true.

(** How a switch ends: back to the caller, which resumes the trap context, in the
    target domain from its entry point, or with the hart stopped. *)
Inductive switch_outcome :=
| Resumes (rc : Z)
| sbi_hart_switch_mode (arg0 arg1 next_addr next_mode : Z)
| sbi_hsm_hart_stop.

(** The hart, its features, its implemented address bits; the bits of the register
    [sip] that software may write (the others follow the interrupt sources); the
    description of the contexts. *)
Variables (hartindex current_hartid : Z) (feat : sbi_hart_features) (bits sip_writable : Z) (dcpriv : Z).

Definition hart_context_get (dom : Z) (w : ctx_world) : option Z :=
  dcp ← sbi_domain_data_ptr dom dcpriv (cw_data w);
  Some (if negb (dcp =? 0) && (hartindex <? SBI_HARTMASK_MAX_BITS)
        then default 0 (default ∅ (cw_tables w !! dcp) !! hartindex) else 0).

Definition hart_context_set (dom hc : Z) (w : ctx_world) : option ctx_world :=
  dcp ← sbi_domain_data_ptr dom dcpriv (cw_data w);
  Some (if negb (dcp =? 0) && (hartindex <? SBI_HARTMASK_MAX_BITS)
        then put_tables (<[dcp := <[hartindex := hc]> (default ∅ (cw_tables w !! dcp))]> (cw_tables w)) w else w).

Definition hart_context_thishart_get (w : ctx_world) : option Z :=
  hart_context_get (sbi_hartindex_to_domain (cw_ds w) hartindex) w.

(** The assignment of the hart moves from [cur] to [target]. *)
Definition move_hart (cur target : Z) (ds : domain_state) : domain_state :=
  let ds := upd_dom cur (fun t => set_assigned (sbi_hartmask_clear_hartindex hartindex (assigned_harts t)) t) ds in
  let ds := sbi_update_hartindex_to_domain hartindex target ds in
  upd_dom target (fun t => set_assigned (sbi_hartmask_set_hartindex hartindex (assigned_harts t)) t) ds.

Fixpoint disable_loop (n : nat) (i : Z) (p : Hw.pmp) : Hw.pmp :=
  match n with
  | O => p
  | S n => disable_loop n (i + 1) (pmp_disable bits p i).2
  end.

(** The values of [new] in the registers the version has. *)
Definition saved_from (old new : sregs) : sregs :=
  mkSregs (x_sstatus new) (x_sie new) (x_stvec new) (x_sscratch new) (x_sepc new) (x_scause new) (x_stval new) (x_sip new) (x_satp new)
    (if SBI_HART_PRIV_VER_1_10 <=? priv_version feat then x_scounteren new else x_scounteren old)
    (if SBI_HART_PRIV_VER_1_12 <=? priv_version feat then x_senvcfg new else x_senvcfg old).

(** The hart's registers after [csr_swap] wrote those of [new]. *)
Definition swapped (old new : sregs) : sregs :=
  let t := saved_from old new in
  mkSregs (x_sstatus t) (x_sie t) (x_stvec t) (x_sscratch t) (x_sepc t) (x_scause t) (x_stval t)
    (Z.lor (Z.ldiff (x_sip old) sip_writable) (Z.land (x_sip new) sip_writable)) (x_satp t) (x_scounteren t) (x_senvcfg t).

Definition switch_to_next_domain_context (ctx dom_ctx : Z) (w : ctx_world) : option (switch_outcome * ctx_world) :=
  c ← cw_ctxs w !! ctx;
  d ← cw_ctxs w !! dom_ctx;
  let current_dom := ctx_dom c in
  let target_dom := ctx_dom d in
  let w := put_ds (move_hart current_dom target_dom (cw_ds w)) w in
  let w := put_pmp (disable_loop (Z.to_nat (pmp_count feat)) 0 (cw_pmp w)) w in
  t ← domains (cw_ds w) !! sbi_hartindex_to_domain (cw_ds w) hartindex;
  let w := put_pmp (sbi_hart_pmp_configure bits feat t (cw_pmp w)).2 w in
  let cur := cw_sregs w in
  let w := put_sregs (swapped cur (saved d)) w in
  let w := put_ctx ctx (set_saved (saved_from (saved c) cur) c) w in
  c ← cw_ctxs w !! ctx;
  let w := put_ctx ctx (set_trap_ctx (cw_trap w) c) w in
  d ← cw_ctxs w !! dom_ctx;
  let w := put_trap (trap_ctx d) w in
  c ← cw_ctxs w !! ctx;
  let w := put_ctx ctx (set_initialized c) w in
  d ← cw_ctxs w !! dom_ctx;
  if negb (initialized d) then
    td ← domains (cw_ds w) !! target_dom;
    if current_hartid =? boot_hartid td
    then Some (sbi_hart_switch_mode (boot_hartid td) (next_arg1 td) (next_addr td) (next_mode td), w)
    else Some (sbi_hsm_hart_stop, w)
  else Some (Resumes 0, w).

Definition sbi_domain_context_enter (dom : Z) (w : ctx_world) : option (switch_outcome * ctx_world) :=
  ctx ← hart_context_thishart_get w;
  dom_ctx ← hart_context_get dom w;
  if dom_ctx =? 0 then Some (Resumes SBI_EINVAL, w)
  else
    d ← cw_ctxs w !! dom_ctx;
    switch_to_next_domain_context ctx dom_ctx (put_ctx dom_ctx (set_prev ctx d) w).

(** The contexts of the hart in all domains it may run in; [inr] is the early
    return. *)
Fixpoint alloc_contexts (doms : list Z) (w : ctx_world) : option (ctx_world + ctx_world) :=
  match doms with
  | [] => Some (inl w)
  | dom :: doms =>
      d ← domains (cw_ds w) !! dom;
      possible ← possible_harts d;
      if sbi_hartmask_test_hartindex hartindex possible =? 0 then alloc_contexts doms w
      else
        match sbi_zalloc 440 (blocks (cw_data w)) with
        | None => Some (inr w)
        | Some dom_ctx =>
            let w := put_data (set_ptrs (idx_to_data_ptr (cw_data w)) ({[dom_ctx]} ∪ blocks (cw_data w)) (cw_data w)) w in
            let w := put_ctx dom_ctx (zero_ctx dom) w in
            w ← hart_context_set dom dom_ctx w;
            alloc_contexts doms w
        end
  end.

(** The first domain other than the root and the current one whose context waits
    to be started. *)
Fixpoint next_context (doms : list Z) (w : ctx_world) : option Z :=
  match doms with
  | [] => Some 0
  | dom :: doms =>
      if (dom =? root) || (dom =? sbi_hartindex_to_domain (cw_ds w) hartindex) then next_context doms w
      else
        tmp ← hart_context_get dom w;
        if tmp =? 0 then next_context doms w
        else c ← cw_ctxs w !! tmp; if negb (initialized c) then Some tmp else next_context doms w
  end.

Definition sbi_domain_context_exit (w : ctx_world) : option (switch_outcome * ctx_world) :=
  ctx ← hart_context_thishart_get w;
  r ← (if ctx =? 0 then alloc_contexts (domain_list (cw_ds w)) w else Some (inl w));
  match r with
  | inr w => Some (Resumes SBI_ENOMEM, w)
  | inl w =>
      ctx ← (if ctx =? 0 then hart_context_thishart_get w else Some ctx);
      c ← cw_ctxs w !! ctx;
      dom_ctx ← (if prev_ctx c =? 0 then next_context (domain_list (cw_ds w)) w else Some (prev_ctx c));
      dom_ctx ← (if dom_ctx =? 0 then hart_context_get root w else Some dom_ctx);
      switch_to_next_domain_context ctx dom_ctx w
  end.

Definition sbi_domain_context_init (w : ctx_world) : option (Z * ctx_world) :=
  '(rc, d) ← sbi_domain_register_data sbi_zalloc (fun _ _ _ => 0) (domain_list (cw_ds w)) dcpriv (cw_data w); Some (rc, put_data d w).

Definition sbi_domain_context_deinit (w : ctx_world) : option ctx_world :=
  d ← sbi_domain_unregister_data (domain_list (cw_ds w)) dcpriv (cw_data w); Some (put_data d w).

End Contexts.

(** ** The hart's assignment and its memory protection *)

Section Switch.
Variables (hartindex current_hartid : Z) (feat : sbi_hart_features) (bits sip_writable : Z) (dcpriv : Z).
Notation pmp := Hw.pmp.

(** Moving a hart is the assignment that registration makes, for a domain that
    keeps its boot hart. *)
Lemma move_hart_assigns ds target d possible :
  harts_ok ds -> 0 <= hartindex <= last_hart ds -> sbi_hartindex_to_domain ds hartindex <> 0 ->
  domains ds !! target = Some d -> possible_harts d = Some possible -> mask_has possible hartindex = true ->
  move_hart hartindex (sbi_hartindex_to_domain ds hartindex) target ds = assign_hart target (boot_hartid d) hartindex ds.
Proof.
  intros (Hl & _) Hi Hne Hd Hp Hm. unfold assign_hart. rewrite Hd, Hp, mask_test, Hm by lia. cbn [Z.b2z Z.eqb].
  rewrite Z.eqb_refl, andb_false_r. by rewrite (proj2 (Z.eqb_neq _ _) Hne).
Qed.

(** Only the masks of assigned harts change. *)
Lemma move_hart_rest cur target ds q :
  set_assigned (mkMask []) <$> domains (move_hart hartindex cur target ds) !! q = set_assigned (mkMask []) <$> domains ds !! q.
Proof.
  unfold move_hart. rewrite upd_dom_lookup.
  assert (domains (sbi_update_hartindex_to_domain hartindex target
    (upd_dom cur (fun t => set_assigned (sbi_hartmask_clear_hartindex hartindex (assigned_harts t)) t) ds)) !! q
    = (if bool_decide (cur = q) then (fun t => set_assigned (sbi_hartmask_clear_hartindex hartindex (assigned_harts t)) t) else id)
      <$> domains ds !! q) as ->.
  { unfold sbi_update_hartindex_to_domain. rewrite <- upd_dom_lookup. by destruct (_ =? 0). }
  destruct (domains ds !! q); cbn; [|done]. by repeat case_bool_decide.
Qed.

(** A hart without Smepmp whose entries are not locked. *)
Definition pmp_plain (p : pmp) : Prop :=
  pmp_ok p /\ Z.testbit (Hw.mseccfg p) 0 = false /\ Z.testbit (Hw.mseccfg p) 1 = false /\
  (forall k, 0 <= k < 64 -> Z.testbit (Hw.cfg p k) 7 = false) /\
  (forall k, pmp_count feat <= k < 64 -> Z.land (Hw.cfg p k) PMP_A = 0).

Lemma disable_loop_spec n i p :
  pmp_ok p -> 0 <= i -> i + Z.of_nat n <= 64 -> (forall k, 0 <= k < 64 -> Hw.locked p k = false) ->
  let p' := disable_loop bits n i p in
  pmp_ok p' /\ Hw.mseccfg p' = Hw.mseccfg p /\
  forall k, Hw.cfg p' k = if (i <=? k) && (k <? i + Z.of_nat n) then 0 else Hw.cfg p k.
Proof.
  revert i p. induction n as [|n IH]; intros i p Hok Hi Hn Hl; cbn [disable_loop].
  { split_and!; try done. intros k. rewrite Z.add_0_r. zcases; done || lia. }
  destruct (pmp_disable_spec bits p i Hok) as (p1 & -> & Hsec & Hc & _ & Hok1); [lia|by apply Hl; lia|].
  cbn [snd]. destruct (IH (i + 1) p1 Hok1) as (Hok2 & Hsec2 & Hc2); [lia|lia| |].
  { intros k Hk. specialize (Hl k Hk). revert Hl. unfold Hw.locked. rewrite Hsec, Hc. unfold Hw.upd.
    destruct (k =? i); [by rewrite Z.bits_0, andb_false_r|done]. }
  split_and!; [done|congruence|]. intros k. rewrite Hc2, Hc. unfold Hw.upd. zcases; done || lia.
Qed.

Lemma disable_all_reset p : 0 < pmp_count feat <= 64 -> pmp_plain p ->
  pmp_reset (disable_loop bits (Z.to_nat (pmp_count feat)) 0 p).
Proof.
  intros Hc (Hok & H0 & H1 & Hl & Hoff). destruct (disable_loop_spec (Z.to_nat (pmp_count feat)) 0 p) as (Hok' & Hsec & Hcf);
    [done|lia|lia| |].
  { intros k Hk. unfold Hw.locked. rewrite Hl by done. apply andb_false_r. }
  split; [done|]. rewrite Hsec. split; [done|]. split; [done|]. intros k Hk. rewrite Hcf.
  rewrite Z.add_0_l, Z2Nat.id by lia. zcases; try lia; try done. split; [by apply Hoff; lia|by apply Hl].
Qed.

(** No region of the domain asks for a locked entry. *)
Definition unlocked_domain (d : sbi_domain) : Prop :=
  pmp_fits feat 0 d /\ Forall (fun r => Z.land (flags r) ENF_PERMISSIONS = 0) (dom_regions d).

Lemma plain_flags f l : Z.land f ENF_PERMISSIONS = 0 -> Z.testbit (pmp_cfg (oldpmp_flags f) l) 7 = false.
Proof.
  intros Hf. unfold pmp_cfg. rewrite Z.land_spec, Z.lor_spec, Z.land_spec.
  assert (Z.testbit (if l =? PMP_SHIFT then PMP_A_NA4 else PMP_A_NAPOT) 7 = false) as -> by (by destruct (_ =? _)).
  assert (Z.testbit (oldpmp_flags f) 7 = false) as ->; [|done].
  unfold oldpmp_flags, add_flag. rewrite Hf. cbn [Z.eqb negb].
  by destruct (negb _), (negb _), (negb _).
Qed.

Lemma configure_plain d p : sbi_hart_has_extension feat SBI_HART_EXT_SMEPMP = false -> pmp_features bits feat ->
  pmp_reset p -> unlocked_domain d ->
  let p' := (sbi_hart_pmp_configure bits feat d p).2 in
  pmp_plain p' /\
  forall mode a acc, mode <> PRV_M -> 0 <= a < 2 ^ (bits + 2) -> 0 <= acc < 8 -> Hw.allows p' mode a acc = domain_allows d mode a acc.
Proof.
  intros Hs Hf Hr [Hfit Henf]. destruct (pmp_configure_spec bits feat d p Hf Hr) as (p' & E & Hal).
  { by rewrite Hs. }
  { by rewrite Hs. }
  cbn zeta. rewrite E. cbn [snd]. split; [|by intros; apply Hal].
  destruct Hf as (Hb & Hbits & Hc & Hg). destruct Hr as (Hok & H0 & H1 & Hoff).
  revert E. unfold sbi_hart_pmp_configure. rewrite Hs, (proj2 (Z.eqb_neq (pmp_count feat) 0)) by lia.
  unfold sbi_hart_oldpmp_configure. intros [= <-].
  destruct (oldpmp_loop_spec bits (dom_regions d) (pmp_count feat) (pmp_log2gran feat) (pmp_addr_max feat) 0 p)
    as (Hok' & Hsec & He & Hsame); [done|lia|lia|done| | |].
  { eapply Forall_impl; [apply Hfit|]. intros r [Hreg _]. destruct Hreg. lia. }
  { intros k Hk. unfold Hw.locked. destruct (Hoff k Hk) as [_ ->]. apply andb_false_r. }
  rewrite Z.sub_0_r in He, Hsame. rewrite (programmed_all feat 0) in He, Hsame by (lia || done). set (L := dom_regions d) in *.
  split; [done|]. rewrite Hsec. split; [done|]. split; [done|].
  assert (forall k, 0 <= k < 64 -> (exists r, r ∈ L /\ Hw.cfg (oldpmp_loop bits L (pmp_count feat) (pmp_log2gran feat) (pmp_addr_max feat) 0 p) k
      = pmp_cfg (oldpmp_flags (flags r)) (order r) /\ k < Z.of_nat (length L)) \/
    Z.of_nat (length L) <= k /\ Hw.cfg (oldpmp_loop bits L (pmp_count feat) (pmp_log2gran feat) (pmp_addr_max feat) 0 p) k = Hw.cfg p k) as Hk.
  { intros k Hk. destruct (Z_lt_le_dec k (Z.of_nat (length L))) as [Hlt|Hge]; [left|right; split; [done|apply Hsame; lia]].
    destruct (lookup_lt_is_Some_2 L (Z.to_nat k)) as [r Er]; [lia|]. exists r. split; [by eapply list_elem_of_lookup_2|].
    destruct (He (Z.to_nat k) r Er) as [Ec _]. rewrite Z.add_0_l, Z2Nat.id in Ec by lia. by rewrite Ec. }
  split; intros k Hin.
  - destruct (Hk k Hin) as [(r & Hr & -> & _)|[_ ->]]; [|by apply Hoff]. apply plain_flags. rewrite List.Forall_forall in Henf.
    by apply Henf, list_elem_of_In.
  - destruct (Hk k ltac:(lia)) as [(r & _ & _ & Hlt)|[_ ->]]; [|by apply Hoff; lia].
    destruct Hfit as [_ Hfit]. fold L in Hfit. lia.
Qed.

(** ** A context switch *)

Notation switch := (switch_to_next_domain_context hartindex current_hartid feat bits sip_writable).

Definition owner (w : ctx_world) : Z := sbi_hartindex_to_domain (cw_ds w) hartindex.

(** A hart in a domain, ready to move: its assignment and its memory protection
    are those of its domain. *)
Record placed (w : ctx_world) : Prop := {
  pl_inv : assign_inv (cw_ds w);
  pl_hart : 0 <= hartindex <= last_hart (cw_ds w);
  pl_dom : owner w ∈ domain_list (cw_ds w);
  pl_pmp : pmp_plain (cw_pmp w) }.

(** A domain the hart may move to. *)
Definition may_run (w : ctx_world) (p : Z) (d : sbi_domain) : Prop :=
  p ∈ domain_list (cw_ds w) /\ domains (cw_ds w) !! p = Some d /\ unlocked_domain d /\
  exists m, possible_harts d = Some m /\ mask_has m hartindex = true.

(** The hardware decides about accesses of the supervisor as the domain does. *)
Definition enforces (p : pmp) (d : sbi_domain) : Prop :=
  forall mode a acc, mode <> PRV_M -> 0 <= a < 2 ^ (bits + 2) -> 0 <= acc < 8 -> Hw.allows p mode a acc = domain_allows d mode a acc.

(** The registers the saved context replaces; [cur] keeps what the hart does not
    have. *)
Notation swap := (swapped feat sip_writable).

Lemma swap_taken x y z : swap x (saved_from feat y z) = swap x z.
Proof. unfold swapped, saved_from. cbn. f_equal; by destruct (_ <=? _). Qed.

Definition saved_ctx (w : ctx_world) (c : hart_context) : hart_context :=
  mkCtx (cw_trap w) (saved_from feat (saved c) (cw_sregs w)) (ctx_dom c) (prev_ctx c) true.

Lemma switch_spec ctx dom_ctx c d td w :
  sbi_hart_has_extension feat SBI_HART_EXT_SMEPMP = false -> pmp_features bits feat -> placed w ->
  cw_ctxs w !! ctx = Some c -> cw_ctxs w !! dom_ctx = Some d -> ctx <> dom_ctx ->
  ctx_dom c = owner w -> may_run w (ctx_dom d) td ->
  exists o w', switch ctx dom_ctx w = Some (o, w') /\ placed w' /\ enforces (cw_pmp w') td /\
    (forall j, 0 <= j <= last_hart (cw_ds w) -> sbi_hartindex_to_domain (cw_ds w') j
       = if j =? hartindex then ctx_dom d else sbi_hartindex_to_domain (cw_ds w) j) /\
    cw_ds w' = move_hart hartindex (owner w) (ctx_dom d) (cw_ds w) /\
    cw_ctxs w' = <[ctx := saved_ctx w c]> (cw_ctxs w) /\
    cw_sregs w' = swap (cw_sregs w) (saved d) /\ cw_trap w' = trap_ctx d /\
    cw_data w' = cw_data w /\ cw_tables w' = cw_tables w /\
    o = (if initialized d then Resumes 0
         else if current_hartid =? boot_hartid td
         then sbi_hart_switch_mode (boot_hartid td) (next_arg1 td) (next_addr td) (next_mode td) else sbi_hsm_hart_stop).
Proof.
  intros Hs Hf [Hinv Hh Hin Hpmp] Ec Ed Hne Hcur (Htin & Etd & Hun & m & Hposs & Hm).
  pose proof Hinv as (Hharts & H0 & _). assert (owner w <> 0) as Hown by (intros E; rewrite E in Hin; contradiction).
  pose proof (move_hart_assigns (cw_ds w) (ctx_dom d) td m Hharts Hh Hown Etd Hposs Hm) as Emove.
  destruct (assign_hart_step (ctx_dom d) (boot_hartid td) hartindex (cw_ds w) td m Hinv Htin Etd Hposs Hm Hh) as [Hinv' Hown'].
  rewrite <- Emove in Hinv', Hown'. fold (owner w) in Hinv', Hown'. set (ds' := move_hart hartindex (owner w) (ctx_dom d) (cw_ds w)) in *.
  pose proof (Hown' hartindex Hh) as Ho. rewrite Z.eqb_refl in Ho.
  pose proof (move_hart_rest (owner w) (ctx_dom d) (cw_ds w) (ctx_dom d)) as Hrest. fold ds' in Hrest. rewrite Etd in Hrest.
  destruct (domains ds' !! ctx_dom d) as [td'|] eqn:Etd'; [|done]. injection Hrest as R1 R2 R3 R4 R5 R6 R7 R8 R9 R10.
  assert (dom_regions td' = dom_regions td) as Hdr by (unfold dom_regions; congruence).
  assert (unlocked_domain td') as Hun' by (unfold unlocked_domain, pmp_fits in *; by rewrite Hdr).
  assert (pmp_reset (disable_loop bits (Z.to_nat (pmp_count feat)) 0 (cw_pmp w))) as Hreset by (apply disable_all_reset; [apply Hf|done]).
  destruct (configure_plain td' _ Hs Hf Hreset Hun') as [Hplain Hal].
  assert (domain_list ds' = domain_list (cw_ds w) /\ last_hart ds' = last_hart (cw_ds w)) as [Hdl Hlast].
  { unfold ds', move_hart, sbi_update_hartindex_to_domain. by destruct (_ =? 0). }
  unfold switch_to_next_domain_context. rewrite Ec, Ed, !some_bind. cbv zeta. rewrite Hcur. fold ds'.
  cbn [cw_ds put_pmp put_ds cw_pmp]. rewrite Ho, Etd', some_bind.
  cbn [cw_ctxs put_ctx put_sregs put_pmp put_ds put_trap cw_sregs cw_trap cw_ds].
  rewrite lookup_insert_eq, some_bind. rewrite !(lookup_insert_ne _ ctx dom_ctx), Ed, some_bind by done.
  rewrite lookup_insert_eq, some_bind. rewrite !(lookup_insert_ne _ ctx dom_ctx), Ed, some_bind by done. rewrite Etd'.
  match goal with |- context [Some (Resumes 0, ?x)] => set (w' := x) end.
  assert (cw_ds w' = ds') as Eds by done.
  exists (if initialized d then Resumes 0
    else if current_hartid =? boot_hartid td
    then sbi_hart_switch_mode (boot_hartid td) (next_arg1 td) (next_addr td) (next_mode td) else sbi_hsm_hart_stop), w'.
  split_and!; try done.
  - destruct (initialized d); cbn [negb]; [done|]. rewrite some_bind, R4, R5, R6, R7. by destruct (_ =? _).
  - split; [done|by rewrite Eds, Hlast| |done]. unfold owner. by rewrite Eds, Ho, Hdl.
  - intros mode a acc Hm1 Ha Hacc. change (cw_pmp w') with (sbi_hart_pmp_configure bits feat td' (disable_loop bits (Z.to_nat (pmp_count feat)) 0 (cw_pmp w))).2.
    rewrite Hal by done. rewrite !domain_allows_first by done. by rewrite Hdr.
  - cbn. by rewrite !insert_insert_eq.
Qed.

(** ** Entering and leaving *)

Variable sbi_zalloc : Z -> gset Z -> option Z.
Notation enter := (sbi_domain_context_enter hartindex current_hartid feat bits sip_writable dcpriv).
Notation exit := (sbi_domain_context_exit sbi_zalloc hartindex current_hartid feat bits sip_writable dcpriv).

(** [a] is the context of this hart in domain [p]. *)
Record bound (w : ctx_world) (p a : Z) (c : hart_context) : Prop := {
  bd_get : hart_context_get hartindex dcpriv p w = Some a;
  bd_null : a <> 0;
  bd_ctx : cw_ctxs w !! a = Some c;
  bd_dom : ctx_dom c = p }.

Lemma move_hart_lookup cur target ds q d : domains ds !! q = Some d ->
  exists d', domains (move_hart hartindex cur target ds) !! q = Some d' /\ regions d' = regions d /\ possible_harts d' = possible_harts d.
Proof.
  intros E. pose proof (move_hart_rest cur target ds q) as Hr. rewrite E in Hr.
  destruct (domains (move_hart _ _ _ _) !! q) as [d'|]; [|done]. exists d'. injection Hr as _ R2 R3 _ _ _ _ _ _ _. done.
Qed.

Lemma same_regions_allow d d' mode a acc : regions d' = regions d -> 0 <= acc < 8 -> domain_allows d' mode a acc = domain_allows d mode a acc.
Proof. intros E Hacc. rewrite !domain_allows_first by done. unfold dom_regions. by rewrite E. Qed.

Lemma enter_spec dom ctx c dom_ctx d td w :
  sbi_hart_has_extension feat SBI_HART_EXT_SMEPMP = false -> pmp_features bits feat -> placed w ->
  bound w (owner w) ctx c -> bound w dom dom_ctx d -> ctx <> dom_ctx -> may_run w dom td ->
  exists o w', enter dom w = Some (o, w') /\ placed w' /\ enforces (cw_pmp w') td /\
    (forall j, 0 <= j <= last_hart (cw_ds w) -> sbi_hartindex_to_domain (cw_ds w') j
       = if j =? hartindex then dom else sbi_hartindex_to_domain (cw_ds w) j) /\
    cw_ds w' = move_hart hartindex (owner w) dom (cw_ds w) /\
    cw_ctxs w' = <[ctx := saved_ctx w c]> (<[dom_ctx := set_prev ctx d]> (cw_ctxs w)) /\
    cw_sregs w' = swap (cw_sregs w) (saved d) /\ cw_trap w' = trap_ctx d /\
    cw_data w' = cw_data w /\ cw_tables w' = cw_tables w /\
    o = (if initialized d then Resumes 0
         else if current_hartid =? boot_hartid td
         then sbi_hart_switch_mode (boot_hartid td) (next_arg1 td) (next_addr td) (next_mode td) else sbi_hsm_hart_stop).
Proof.
  intros Hs Hf Hp [Gc Nc Ec Dc] [Gd Nd Ed Dd] Hne Hrun. unfold sbi_domain_context_enter, hart_context_thishart_get.
  fold (owner w). rewrite Gc, Gd, !some_bind, (proj2 (Z.eqb_neq _ _) Nd), Ed, some_bind.
  set (w0 := put_ctx dom_ctx (set_prev ctx d) w).
  destruct (switch_spec ctx dom_ctx c (set_prev ctx d) td w0 Hs Hf) as (o & w' & E & Hp' & He & Hj & Hds & Hc & Hsr & Htr & Hda & Hta & Ho).
  - by destruct Hp.
  - cbn. by rewrite lookup_insert_ne.
  - apply lookup_insert_eq.
  - done.
  - done.
  - cbn [ctx_dom set_prev]. by rewrite Dd.
  - cbn [ctx_dom set_prev saved trap_ctx initialized] in Hj, Hds, Hsr, Htr, Ho. rewrite Dd in Hj, Hds. by eexists _, _.
Qed.

(** C7: entering a domain isolates.  On a hart without Smepmp, in a consistent
    assignment of harts with no locked PMP entry, from one domain to another one that
    has a context bound to this hart, may run on it, fits its PMP and has no region with
    enforced (locked) permissions: the hart is assigned to the target domain and to no
    other, the other harts stay where they are, and from then on the physical memory
    protection gives the supervisor exactly the accesses the target domain allows; it
    resumes the saved registers and trap context of the target, or, on the boot hart of
    a target that never ran, starts it at its entry point.  (With Smepmp the switch
    fails, [switch_smepmp_unfetchable].) *)
Theorem domain_enter_isolates dom ctx c dom_ctx d td w :
  sbi_hart_has_extension feat SBI_HART_EXT_SMEPMP = false -> pmp_features bits feat -> placed w ->
  bound w (owner w) ctx c -> bound w dom dom_ctx d -> ctx <> dom_ctx -> may_run w dom td ->
  exists o w', enter dom w = Some (o, w') /\ assign_inv (cw_ds w') /\ owner w' = dom /\
    (forall j, 0 <= j <= last_hart (cw_ds w) -> j <> hartindex ->
       sbi_hartindex_to_domain (cw_ds w') j = sbi_hartindex_to_domain (cw_ds w) j) /\
    (forall mode a acc, mode <> PRV_M -> 0 <= a < 2 ^ (bits + 2) -> 0 <= acc < 8 ->
       Hw.allows (cw_pmp w') mode a acc = domain_allows td mode a acc) /\
    (if initialized d
     then o = Resumes 0 /\ cw_sregs w' = swap (cw_sregs w) (saved d) /\ cw_trap w' = trap_ctx d
     else current_hartid = boot_hartid td -> o = sbi_hart_switch_mode (boot_hartid td) (next_arg1 td) (next_addr td) (next_mode td)).
Proof.
  intros Hs Hf Hp Bc Bd Hne Hrun.
  destruct (enter_spec dom ctx c dom_ctx d td w Hs Hf Hp Bc Bd Hne Hrun) as (o & w' & E & Hp' & He & Hj & _ & _ & Hsr & Htr & _ & _ & Ho).
  exists o, w'. split_and!; [done|apply Hp'| | |exact He|].
  - unfold owner. rewrite Hj by apply Hp. by rewrite Z.eqb_refl.
  - intros j Hr Hn. rewrite Hj by done. by rewrite (proj2 (Z.eqb_neq _ _) Hn).
  - destruct (initialized d); [done|]. intros Eb. by rewrite Eb, Z.eqb_refl in Ho.
Qed.

(** C5: a call into another domain is a round trip.  On a hart without Smepmp, in a
    consistent assignment of harts with no locked PMP entry, between two different
    domains that have contexts bound to this hart, may run on it, fit its PMP and have
    no region with enforced (locked) permissions, the target having been entered before:
    whatever the entered domain does to the registers before it leaves, the exit brings
    the hart back to its domain with its registers, its trap context, the assignment of
    all harts and the memory protection of its own domain; and the entered domain is
    saved as it left.  (With Smepmp the switch fails, [switch_smepmp_unfetchable].) *)
Theorem domain_call_roundtrip dom ctx c dom_ctx d td ad w :
  sbi_hart_has_extension feat SBI_HART_EXT_SMEPMP = false -> pmp_features bits feat -> placed w ->
  bound w (owner w) ctx c -> bound w dom dom_ctx d -> ctx <> dom_ctx ->
  may_run w dom td -> may_run w (owner w) ad -> initialized d = true ->
  exists w1, enter dom w = Some (Resumes 0, w1) /\
    forall s t, exists w2, exit (put_trap t (put_sregs s w1)) = Some (Resumes 0, w2) /\
      cw_sregs w2 = swap s (cw_sregs w) /\ cw_trap w2 = cw_trap w /\ assign_inv (cw_ds w2) /\
      (forall j, 0 <= j <= last_hart (cw_ds w) -> sbi_hartindex_to_domain (cw_ds w2) j = sbi_hartindex_to_domain (cw_ds w) j) /\
      (forall mode a acc, mode <> PRV_M -> 0 <= a < 2 ^ (bits + 2) -> 0 <= acc < 8 ->
         Hw.allows (cw_pmp w2) mode a acc = domain_allows ad mode a acc) /\
      cw_ctxs w2 !! dom_ctx = Some (mkCtx t (saved_from feat (saved d) s) dom ctx true).
Proof.
  intros Hs Hf Hp Bc Bd Hne Hrun (Hain & Ead & Hun & m & Hposs & Hm) Hinit.
  destruct (enter_spec dom ctx c dom_ctx d td w Hs Hf Hp Bc Bd Hne Hrun) as (o & w1 & E & Hp1 & _ & Hj & Hds & Hc & Hsr & Htr & Hda & Hta & Ho).
  rewrite Hinit in Ho. subst o. exists w1. split; [done|]. intros s t. set (w1' := put_trap t (put_sregs s w1)).
  pose proof (Hj hartindex (pl_hart _ Hp)) as Hown. rewrite Z.eqb_refl in Hown.
  destruct (move_hart_lookup (owner w) dom (cw_ds w) (owner w) ad Ead) as (ad' & Ead' & Hreg & Hposs').
  assert (domain_list (cw_ds w1) = domain_list (cw_ds w) /\ last_hart (cw_ds w1) = last_hart (cw_ds w)) as [Hdl Hlast].
  { rewrite Hds. unfold move_hart, sbi_update_hartindex_to_domain. by destruct (_ =? 0). }
  assert (cw_ctxs w1 !! dom_ctx = Some (set_prev ctx d)) as Ed1.
  { rewrite Hc, lookup_insert_ne by done. apply lookup_insert_eq. }
  assert (cw_ctxs w1 !! ctx = Some (saved_ctx w c)) as Ec1 by (rewrite Hc; apply lookup_insert_eq).
  assert (may_run w1' (owner w) ad') as Hrun'.
  { split; [cbn; by rewrite Hdl|]. split; [cbn; by rewrite Hds|]. split; [|exists m; by rewrite Hposs'].
    unfold unlocked_domain, pmp_fits, dom_regions in *. by rewrite Hreg. }
  destruct (switch_spec dom_ctx ctx (set_prev ctx d) (saved_ctx w c) ad' w1' Hs Hf) as (o & w2 & E2 & Hp2 & He2 & Hj2 & Hds2 & Hc2 & Hsr2 & Htr2 & _ & _ & Ho2).
  - by destruct Hp1.
  - exact Ed1.
  - exact Ec1.
  - done.
  - cbn. rewrite (bd_dom _ _ _ _ Bd). symmetry. exact Hown.
  - cbn [ctx_dom saved_ctx]. by rewrite (bd_dom _ _ _ _ Bc).
  - exists w2. subst o. split.
    { unfold sbi_domain_context_exit, hart_context_thishart_get.
      change (sbi_hartindex_to_domain (cw_ds w1') hartindex) with (sbi_hartindex_to_domain (cw_ds w1) hartindex). rewrite Hown.
      assert (hart_context_get hartindex dcpriv dom w1' = Some dom_ctx) as ->.
      { destruct Bd as [G _ _ _]. unfold hart_context_get in *. cbn [w1' put_trap put_sregs cw_data cw_tables]. by rewrite Hda, Hta. }
      rewrite some_bind, (proj2 (Z.eqb_neq _ _) (bd_null _ _ _ _ Bd)), some_bind.
      rewrite some_bind. change (cw_ctxs w1' !! dom_ctx) with (cw_ctxs w1 !! dom_ctx). rewrite Ed1, some_bind.
      cbn [prev_ctx set_prev]. rewrite (proj2 (Z.eqb_neq _ _) (bd_null _ _ _ _ Bc)), some_bind.
      rewrite (proj2 (Z.eqb_neq _ _) (bd_null _ _ _ _ Bc)), some_bind. exact E2. }
    split; [rewrite Hsr2; apply swap_taken|]. split; [exact Htr2|]. split; [apply Hp2|]. split_and!.
    + intros j Hr. rewrite Hj2 by (cbn; by rewrite Hlast). cbn [ctx_dom saved_ctx]. rewrite (bd_dom _ _ _ _ Bc).
      destruct (Z.eqb_spec j hartindex) as [-> |Hn]; [done|]. cbn. rewrite Hj by done. by rewrite (proj2 (Z.eqb_neq _ _) Hn).
    + intros mode a acc Hm1 Ha Hacc. rewrite He2 by done. by apply same_regions_allow.
    + rewrite Hc2, lookup_insert_eq. unfold saved_ctx. cbn. by rewrite (bd_dom _ _ _ _ Bd).
Qed.

(** ** Where a switch goes wrong *)

Lemma first_match_off p a k n : (forall i, n <= i < n + Z.of_nat k -> Z.land (Hw.cfg p i) PMP_A = 0) -> Hw.first_match p a k n = None.
Proof.
  revert n. induction k as [|k IH]; intros n Hoff; cbn; [done|]. unfold Hw.entry_match. rewrite Hoff by lia.
  change (0 =? PMP_A_NAPOT) with false. change (0 =? PMP_A_NA4) with false. change (0 =? PMP_A_TOR) with false.
  cbv iota. apply IH. intros i Hi. apply Hoff. lia.
Qed.

(** With Smepmp the loop that disables all entries takes from machine mode the
    right to fetch instructions, the firmware's own included. *)
Lemma switch_smepmp_unfetchable p a :
  pmp_ok p -> 0 < pmp_count feat <= 64 -> Z.testbit (Hw.mseccfg p) 0 = true -> Z.testbit (Hw.mseccfg p) 2 = true ->
  (forall k, pmp_count feat <= k < 64 -> Z.land (Hw.cfg p k) PMP_A = 0) ->
  Hw.allows (disable_loop bits (Z.to_nat (pmp_count feat)) 0 p) PRV_M a 4 = false.
Proof.
  intros Hok Hc Hmml Hrlb Hoff.
  destruct (disable_loop_spec (Z.to_nat (pmp_count feat)) 0 p) as (_ & Hsec & Hcf); [done|lia|lia| |].
  { intros k Hk. unfold Hw.locked. by rewrite Hrlb. }
  unfold Hw.allows. rewrite Hsec, Hmml, first_match_off; [apply andb_false_r|]. intros i Hi.
  change (Z.of_nat (Z.to_nat PMP_COUNT)) with 64 in Hi. rewrite Hcf, Z.add_0_l, Z2Nat.id by lia. zcases; try done; apply Hoff; lia.
Qed.

(** A domain that enters itself gets the registers that were saved when it was
    last left. *)
Lemma enter_own_domain ctx c ad w : placed w -> bound w (owner w) ctx c -> may_run w (owner w) ad ->
  exists w', enter (owner w) w = Some (Resumes 0, w') /\ cw_sregs w' = swap (cw_sregs w) (saved c) /\ cw_trap w' = cw_trap w.
Proof.
  intros Hp [G N E D] (_ & Ead & _ & m & Hposs & Hm). unfold sbi_domain_context_enter, hart_context_thishart_get. fold (owner w).
  rewrite G, !some_bind, (proj2 (Z.eqb_neq _ _) N), E, some_bind. unfold switch_to_next_domain_context.
  cbn [cw_ctxs put_ctx]. rewrite lookup_insert_eq, !some_bind. cbv zeta. cbn [ctx_dom set_prev cw_ds put_ds put_ctx put_pmp]. rewrite D.
  pose proof (pl_inv _ Hp) as (Hh & H0 & _). pose proof (pl_hart _ Hp). pose proof (pl_dom _ Hp) as Hin.
  assert (owner w <> 0) as Hown by (intros E0; rewrite E0 in Hin; contradiction).
  pose proof (move_hart_assigns (cw_ds w) (owner w) ad m Hh ltac:(done) Hown Ead Hposs Hm) as Em. fold (owner w) in Em.
  destruct (assign_hart_step (owner w) (boot_hartid ad) hartindex (cw_ds w) ad m) as [_ Ho]; [apply Hp|done..|].
  rewrite <- Em in Ho. rewrite (Ho hartindex) by done. rewrite Z.eqb_refl.
  destruct (move_hart_lookup (owner w) (owner w) (cw_ds w) (owner w) ad Ead) as (ad' & -> & _). rewrite some_bind.
  cbn [cw_ctxs put_ctx put_sregs put_pmp put_ds put_trap cw_sregs cw_trap cw_ds]. rewrite !lookup_insert_eq, !some_bind.
  cbn [cw_ctxs put_ctx put_sregs put_pmp put_ds put_trap cw_sregs cw_trap cw_ds]. rewrite !lookup_insert_eq, !some_bind.
  rewrite !lookup_insert_eq, !some_bind. cbn. by eexists.
Qed.

End Switch.

(** ** Two domains on one hart *)

Definition demo_ctx_feat : sbi_hart_features := mkFeat true SBI_HART_PRIV_VER_1_12 [0] 16 54 12 0 0.

(** A second domain, in the second half of the memory. *)
Definition demo_guest : sbi_domain :=
  mkDom 1 (mkMask [0; 0]) (Some (mkMask [1; 0])) (Some [mkReg 20 0x80200000 0x38; mkReg 0 0 0])
    0 0x8000 0x80200000 PRV_S false false true.

Definition demo_host : sbi_domain :=
  mkDom 0 (mkMask [1; 0]) (Some (mkMask [1; 0])) (Some [mkReg 21 0x80000000 0x38; mkReg 0 0 0])
    0 0 0x80000000 PRV_S true true true.

Definition demo_two : domain_state :=
  mkDS {[1 := demo_host; 2 := demo_guest]} [1; 2] 2 true 0 8 {[0 := 1]} (mkScratch 0 [0] [0x1000] 120).

Definition demo_sregs (k : Z) : sregs := mkSregs k (k + 1) (k + 2) (k + 3) (k + 4) (k + 5) (k + 6) 0x22 (k + 8) (k + 9) (k + 10).

Definition demo_trap (k : Z) : sbi_trap_context := mkTc (mkTregs (replicate 32 k) (k + 4) 0x800) (mkTinfo 9 0 0 0 0) 0.

Definition demo_call : ctx_world :=
  mkCw demo_two (mkDd [64] {[64 := mkDdata 1024 0 false false]} [1] {[1 := 0x500 :: replicate 31 0; 2 := 0x600 :: replicate 31 0]} {[0x500; 0x600]})
    {[0x500 := {[0 := 0x700]}; 0x600 := {[0 := 0x800]}]}
    {[0x700 := mkCtx (demo_trap 0) (demo_sregs 0) 1 0 true; 0x800 := mkCtx (demo_trap 200) (demo_sregs 200) 2 0 true]}
    (Hw.mkPmp (fun _ => 0) (fun _ => 0) 0) (demo_sregs 100) (demo_trap 100).

Lemma demo_one_word m : 0 <= m < 2 ^ 64 -> mask_ok (mkMask [m; 0]).
Proof. intros Hm. split; [|reflexivity]. repeat apply Forall_cons_2; try apply Forall_nil_2; unfold word_ok; lia. Qed.

Lemma demo_placed : placed 0 demo_ctx_feat demo_call.
Proof.
  split.
  - split; [split; [by vm_compute|split; [done|]]|split; [|split]].
    + intros i Hi. assert (i = 0) as -> by (cbn in Hi; lia). by vm_compute.
    + cbn. set_solver.
    + intros p Hp. assert (p = 1 \/ p = 2) as [-> | ->] by (cbn in Hp; set_solver); eexists; (split; [reflexivity|]);
        (split; [apply demo_one_word; lia|]); intros i Hi; assert (i = 0) as -> by (cbn in Hi; lia); vm_compute; done.
    + intros i Hi. assert (i = 0) as -> by (cbn in Hi; lia). right. vm_compute. set_solver.
  - by vm_compute.
  - vm_compute. set_solver.
  - split; [by intros k; vm_compute|]. split_and!; try done.
Qed.

Lemma demo_features_ok : pmp_features 54 demo_ctx_feat.
Proof. unfold pmp_features. cbn. lia. Qed.

Lemma demo_unlocked n a : (n = 20 /\ a = 0x80200000) \/ (n = 21 /\ a = 0x80000000) ->
  pmp_fits demo_ctx_feat 0 (mkDom 0 (mkMask []) None (Some [mkReg n a 0x38; mkReg 0 0 0]) 0 0 0 0 true true true).
Proof.
  intros [[-> ->]|[-> ->]]; (split; [|by vm_compute]); apply Forall_cons_2; try apply Forall_nil_2;
    (split; [|by vm_compute]); unfold reg_ok, reg_typed; split_and!; cbn [order base]; first [lia|apply Z.mod_divide; by vm_compute].
Qed.

Lemma demo_may_run_guest : may_run 0 demo_ctx_feat demo_call 2 demo_guest.
Proof.
  split; [cbn; set_solver|]. split; [reflexivity|]. split; [|by exists (mkMask [1; 0])].
  split; [|by repeat constructor]. apply (demo_unlocked 20 0x80200000). by left.
Qed.

Lemma demo_may_run_host : may_run 0 demo_ctx_feat demo_call 1 demo_host.
Proof.
  split; [cbn; set_solver|]. split; [reflexivity|]. split; [|by exists (mkMask [1; 0])].
  split; [|by repeat constructor]. apply (demo_unlocked 21 0x80000000). by right.
Qed.

(** The host enters the guest. *)
Lemma domain_enter_isolates_witness :
  exists w', sbi_domain_context_enter 0 0 demo_ctx_feat 54 2 64 2 demo_call = Some (Resumes 0, w') /\ owner 0 w' = 2 /\
    cw_sregs w' = demo_sregs 200 /\ Hw.allows (cw_pmp w') PRV_S 0x80000000 1 = domain_allows demo_guest PRV_S 0x80000000 1.
Proof.
  destruct (domain_enter_isolates 0 0 demo_ctx_feat 54 2 64 2 0x700 (mkCtx (demo_trap 0) (demo_sregs 0) 1 0 true) 0x800
    (mkCtx (demo_trap 200) (demo_sregs 200) 2 0 true) demo_guest demo_call) as (o & w' & E & _ & Ho & _ & Hal & -> & Hs & _).
  - reflexivity.
  - exact demo_features_ok.
  - exact demo_placed.
  - split; [reflexivity|discriminate|reflexivity|reflexivity].
  - split; [reflexivity|discriminate|reflexivity|reflexivity].
  - discriminate.
  - exact demo_may_run_guest.
  - exists w'. split; [exact E|]. split; [exact Ho|]. split; [exact Hs|]. apply Hal; [discriminate|lia|lia].
Defined.

(** The host calls the guest and gets its registers back. *)
Lemma domain_call_roundtrip_witness :
  exists w1 w2, sbi_domain_context_enter 0 0 demo_ctx_feat 54 2 64 2 demo_call = Some (Resumes 0, w1) /\
    sbi_domain_context_exit (fun _ _ => None) 0 0 demo_ctx_feat 54 2 64 (put_trap (demo_trap 300) (put_sregs (demo_sregs 300) w1)) = Some (Resumes 0, w2) /\
    cw_sregs w2 = demo_sregs 100 /\ cw_trap w2 = demo_trap 100.
Proof.
  destruct (domain_call_roundtrip 0 0 demo_ctx_feat 54 2 64 (fun _ _ => None) 2 0x700 (mkCtx (demo_trap 0) (demo_sregs 0) 1 0 true) 0x800
    (mkCtx (demo_trap 200) (demo_sregs 200) 2 0 true) demo_guest demo_host demo_call) as (w1 & E1 & Hback).
  - reflexivity.
  - exact demo_features_ok.
  - exact demo_placed.
  - split; [reflexivity|discriminate|reflexivity|reflexivity].
  - split; [reflexivity|discriminate|reflexivity|reflexivity].
  - discriminate.
  - exact demo_may_run_guest.
  - exact demo_may_run_host.
  - reflexivity.
  - destruct (Hback (demo_sregs 300) (demo_trap 300)) as (w2 & E2 & Hs & Ht & _).
    exists w1, w2. split; [exact E1|]. split; [exact E2|]. split; [exact Hs|exact Ht].
Defined.
