(* ===== verification/SbiFwft.v ===== *)
(** * Firmware features (lib/sbi/sbi_fwft.c, lib/sbi/sbi_ecall_fwft.c)

    The supervisor asks for features of the hart by number, sets them and may lock
    them.  The features are fields of the registers [menvcfg] and [medeleg]. *)

From S2P Require Import Prelude SbiBitops SbiHart.

Definition SBI_FWFT_MISALIGNED_EXC_DELEG : Z := 0.
Definition SBI_FWFT_LANDING_PAD : Z := 1.
Definition SBI_FWFT_SHADOW_STACK : Z := 2.
Definition SBI_FWFT_DOUBLE_TRAP : Z := 3.
Definition SBI_FWFT_PTE_AD_HW_UPDATING : Z := 4.
Definition SBI_FWFT_POINTER_MASKING_PMLEN : Z := 5.
Definition SBI_FWFT_GLOBAL_FEATURE_BIT : Z := 2 ^ 31.
Definition SBI_FWFT_SET_FLAG_LOCK : Z := 1.

Definition ENVCFG_ADUE_SHIFT : Z := 61.
Definition ENVCFG_DTE_SHIFT : Z := 59.
Definition ENVCFG_SSE_SHIFT : Z := 3.
Definition ENVCFG_LPE_SHIFT : Z := 2.
Definition ENVCFG_PMM : Z := Z.shiftl 3 32.
Definition ENVCFG_PMM_PMLEN_0 : Z := 0.
Definition ENVCFG_PMM_PMLEN_7 : Z := Z.shiftl 2 32.
Definition ENVCFG_PMM_PMLEN_16 : Z := Z.shiftl 3 32.

Definition MIS_DELEG : Z := Z.lor (Z.shiftl 1 4) (Z.shiftl 1 6).

(** The registers, and what of them a hart implements: the bits that can be set,
    the values of the pointer-masking field it has, and the value the field takes
    when another one is written. *)
Record env_csrs := mkEnv { medeleg : Z; menvcfg : Z }.

Record env_impl := mkImpl { deleg_bits : Z; env_bits : Z; pmm_legal : Z -> bool; pmm_other : Z -> Z -> Z }.

Definition medeleg_write (hw : env_impl) (v : Z) (c : env_csrs) : env_csrs := mkEnv (Z.land v (deleg_bits hw)) (menvcfg c).

Definition menvcfg_write (hw : env_impl) (v : Z) (c : env_csrs) : env_csrs :=
  let p := Z.land v ENVCFG_PMM in
  mkEnv (medeleg c)
    (Z.lor (Z.ldiff (Z.land v (env_bits hw)) ENVCFG_PMM)
       (if pmm_legal hw p then p else pmm_other hw (Z.land (menvcfg c) ENVCFG_PMM) p)).

(** [supported] is [None] for NULL; its result depends on the hart only. *)
Record fwft_feature := mkFeature {
  id : Z; supported : option Z; set : Z -> env_csrs -> Z * env_csrs; get : env_csrs -> Z * option Z }.

Record fwft_config := mkConf { feature : fwft_feature; flags : Z }.
Record fwft_hart_state := mkFhs { config_count : Z; configs : list fwft_config }.

(** The state of a hart: the pointer in its scratch area and its registers. *)
Record fwft_world := mkFw { fhs : option fwft_hart_state; csrs : env_csrs }.

Section Features.
(** The hart: what it implements, [misa_extension('S')], its features. *)
Variables (hw : env_impl) (misa_S : bool) (feat : sbi_hart_features).

Definition csr_set_menvcfg (mask : Z) (c : env_csrs) : env_csrs := menvcfg_write hw (Z.lor (menvcfg c) mask) c.
Definition csr_clear_menvcfg (mask : Z) (c : env_csrs) : env_csrs := menvcfg_write hw (Z.land (menvcfg c) (not64 mask)) c.

Definition fwft_defined_features : list Z :=
  [SBI_FWFT_MISALIGNED_EXC_DELEG; SBI_FWFT_LANDING_PAD; SBI_FWFT_SHADOW_STACK; SBI_FWFT_DOUBLE_TRAP;
   SBI_FWFT_PTE_AD_HW_UPDATING; SBI_FWFT_POINTER_MASKING_PMLEN].

Definition fwft_is_defined_feature (f : Z) : bool := existsb (fun x => x =? f) fwft_defined_features.

Definition fwft_menvcfg_set_bit (value bit : Z) (c : env_csrs) : Z * env_csrs :=
  if value =? 1 then (SBI_OK, csr_set_menvcfg (Z.shiftl 1 bit) c)
  else if value =? 0 then (SBI_OK, csr_clear_menvcfg (Z.shiftl 1 bit) c)
  else (SBI_EINVAL, c).

Definition fwft_menvcfg_read_bit (bit : Z) (c : env_csrs) : Z * option Z :=
  let cfg := Z.land (menvcfg c) (Z.shiftl 1 bit) in
  (SBI_OK, Some (if negb (cfg =? 0) then 1 else 0)).

Definition fwft_misaligned_delegation_supported : Z := if negb misa_S then SBI_ENOTSUPP else SBI_OK.

Definition fwft_set_misaligned_delegation (value : Z) (c : env_csrs) : Z * env_csrs :=
  if value =? 1 then (SBI_OK, medeleg_write hw (Z.lor (medeleg c) MIS_DELEG) c)
  else if value =? 0 then (SBI_OK, medeleg_write hw (Z.land (medeleg c) (not64 MIS_DELEG)) c)
  else (SBI_EINVAL, c).

Definition fwft_get_misaligned_delegation (c : env_csrs) : Z * option Z :=
  (SBI_OK, Some (if negb (Z.land (medeleg c) MIS_DELEG =? 0) then 1 else 0)).

Definition ext_supported (e : sbi_hart_extensions) : Z :=
  if negb (sbi_hart_has_extension feat e) then SBI_ENOTSUPP else SBI_OK.

Definition fwft_double_trap_supported : Z := ext_supported SBI_HART_EXT_SSDBLTRP.
Definition fwft_set_double_trap (value : Z) := fwft_menvcfg_set_bit value ENVCFG_DTE_SHIFT.
Definition fwft_get_double_trap := fwft_menvcfg_read_bit ENVCFG_DTE_SHIFT.

Definition fwft_adue_supported : Z := ext_supported SBI_HART_EXT_SVADU.
Definition fwft_set_adue (value : Z) := fwft_menvcfg_set_bit value ENVCFG_ADUE_SHIFT.
Definition fwft_get_adue := fwft_menvcfg_read_bit ENVCFG_ADUE_SHIFT.

Definition fwft_lpad_supported : Z := ext_supported SBI_HART_EXT_ZICFILP.
Definition fwft_enable_lpad (value : Z) := fwft_menvcfg_set_bit value ENVCFG_LPE_SHIFT.
Definition fwft_get_lpad := fwft_menvcfg_read_bit ENVCFG_LPE_SHIFT.

Definition fwft_sstack_supported : Z := ext_supported SBI_HART_EXT_ZICFISS.
Definition fwft_enable_sstack (value : Z) := fwft_menvcfg_set_bit value ENVCFG_SSE_SHIFT.
Definition fwft_get_sstack := fwft_menvcfg_read_bit ENVCFG_SSE_SHIFT.

Definition fwft_pmlen_supported : Z := ext_supported SBI_HART_EXT_SMNPM.

Definition fwft_try_to_set_pmm (pmm : Z) (c : env_csrs) : bool * env_csrs :=
  let c := csr_set_menvcfg pmm c in
  (Z.land (menvcfg c) ENVCFG_PMM =? pmm, c).

Definition fwft_set_pmlen (value : Z) (c : env_csrs) : Z * env_csrs :=
  if 16 <? value then (SBI_EINVAL, c)
  else
    let prev := menvcfg c in
    let c := csr_clear_menvcfg ENVCFG_PMM c in
    if value =? 0 then (SBI_OK, c)
    else
      let '(done, c) :=
        if value <=? 7 then
          let '(ok, c) := fwft_try_to_set_pmm ENVCFG_PMM_PMLEN_7 c in
          if ok then (true, c) else (false, csr_clear_menvcfg ENVCFG_PMM c)
        else (false, c) in
      if done : bool then (SBI_OK, c)
      else
        let '(ok, c) := fwft_try_to_set_pmm ENVCFG_PMM_PMLEN_16 c in
        if ok then (SBI_OK, c) else (SBI_EINVAL, menvcfg_write hw prev c).

Definition fwft_get_pmlen (c : env_csrs) : Z * option Z :=
  let pmm := Z.land (menvcfg c) ENVCFG_PMM in
  if pmm =? ENVCFG_PMM_PMLEN_0 then (SBI_OK, Some 0)
  else if pmm =? ENVCFG_PMM_PMLEN_7 then (SBI_OK, Some 7)
  else if pmm =? ENVCFG_PMM_PMLEN_16 then (SBI_OK, Some 16)
  else (SBI_EFAIL, None).

Definition features : list fwft_feature :=
  [mkFeature SBI_FWFT_MISALIGNED_EXC_DELEG (Some fwft_misaligned_delegation_supported) fwft_set_misaligned_delegation fwft_get_misaligned_delegation;
   mkFeature SBI_FWFT_LANDING_PAD (Some fwft_lpad_supported) fwft_enable_lpad fwft_get_lpad;
   mkFeature SBI_FWFT_SHADOW_STACK (Some fwft_sstack_supported) fwft_enable_sstack fwft_get_sstack;
   mkFeature SBI_FWFT_DOUBLE_TRAP (Some fwft_double_trap_supported) fwft_set_double_trap fwft_get_double_trap;
   mkFeature SBI_FWFT_PTE_AD_HW_UPDATING (Some fwft_adue_supported) fwft_set_adue fwft_get_adue;
   mkFeature SBI_FWFT_POINTER_MASKING_PMLEN (Some fwft_pmlen_supported) fwft_set_pmlen fwft_get_pmlen].

End Features.

(** ** Configurations *)

Fixpoint config_loop (n i : nat) (f : Z) (l : list fwft_config) : option (option nat) :=
  match n with
  | O => Some None
  | S n => c ← l !! i; if f =? id (feature c) then Some (Some i) else config_loop n (S i) f l
  end.

(** The index of the configuration; no pointer is [None]. *)
Definition get_feature_config (f : Z) (w : fwft_world) : option (option nat) :=
  if negb (Z.land f SBI_FWFT_GLOBAL_FEATURE_BIT =? 0) then Some None
  else s ← fhs w; config_loop (Z.to_nat (config_count s)) 0 f (configs s).

(** An error, or the configuration. *)
Definition fwft_get_feature (f : Z) (w : fwft_world) : option (Z + nat) :=
  tconf ← get_feature_config f w;
  match tconf with
  | None => if fwft_is_defined_feature f then Some (inl SBI_ENOTSUPP) else Some (inl SBI_EDENIED)
  | Some i =>
      s ← fhs w;
      c ← configs s !! i;
      match supported (feature c) with
      | Some ret => if negb (ret =? 0) then Some (inl ret) else Some (inr i)
      | None => Some (inr i)
      end
  end.

Definition conf_at (w : fwft_world) (i : nat) : option fwft_config := s ← fhs w; configs s !! i.

Definition put_flags (i : nat) (fl : Z) (w : fwft_world) : fwft_world :=
  mkFw ((fun s => mkFhs (config_count s) (alter (fun c => mkConf (feature c) fl) i (configs s))) <$> fhs w) (csrs w).

Definition fwft_clear_config_lock (f : Z) (w : fwft_world) : option fwft_world :=
  r ← fwft_get_feature f w;
  match r with
  | inl _ => Some w
  | inr i => c ← conf_at w i; Some (put_flags i (Z.land (flags c) (not64 SBI_FWFT_SET_FLAG_LOCK)) w)
  end.

Definition sbi_fwft_set (f value fl : Z) (w : fwft_world) : option (Z * fwft_world) :=
  r ← fwft_get_feature f w;
  match r with
  | inl ret => Some (ret, w)
  | inr i =>
      if negb (Z.land fl (not64 SBI_FWFT_SET_FLAG_LOCK) =? 0) then Some (SBI_EINVAL, w)
      else
        c ← conf_at w i;
        if negb (Z.land (flags c) SBI_FWFT_SET_FLAG_LOCK =? 0) then Some (SBI_EDENIED_LOCKED, w)
        else
          let '(ret, e) := set (feature c) value (csrs w) in
          let w := mkFw (fhs w) e in
          if negb (ret =? 0) then Some (ret, w) else Some (SBI_OK, put_flags i fl w)
  end.

(** The error and the value written to [*out_val]. *)
Definition sbi_fwft_get (f : Z) (w : fwft_world) : option (Z * option Z) :=
  r ← fwft_get_feature f w;
  match r with
  | inl ret => Some (ret, None)
  | inr i => c ← conf_at w i; Some (get (feature c) (csrs w))
  end.

Fixpoint clear_locks (ids : list Z) (w : fwft_world) : option fwft_world :=
  match ids with
  | [] => Some w
  | f :: ids => w ← fwft_clear_config_lock f w; clear_locks ids w
  end.

(** [offset_ok] and [alloc_ok] say whether the scratch area and the heap had room;
    new space in the scratch area and new blocks are zero. *)
Definition sbi_fwft_init (fs : list fwft_feature) (cold_boot offset_ok alloc_ok : bool) (w : fwft_world) : option (Z * fwft_world) :=
  if cold_boot && negb offset_ok then Some (SBI_ENOMEM, w)
  else
    let w := if cold_boot then mkFw None (csrs w) else w in
    match fhs w with
    | None =>
        if negb alloc_ok then Some (SBI_ENOMEM, w)
        else
          let s := mkFhs (Z.of_nat (length fs)) ((fun F => mkConf F 0) <$> fs) in
          w ← clear_locks (id <$> fs) (mkFw (Some s) (csrs w)); Some (0, w)
    | Some _ => w ← clear_locks (id <$> fs) w; Some (0, w)
    end.

(** The number of a feature is an enumeration of 32 bits; [value] is [out->value]. *)
Definition sbi_ecall_fwft_handler (funcid a0 a1 a2 value : Z) (w : fwft_world) : option (Z * Z * fwft_world) :=
  if funcid =? 0 then '(ret, w) ← sbi_fwft_set (u32 a0) a1 a2 w; Some (ret, value, w)
  else if funcid =? 1 then '(ret, out) ← sbi_fwft_get (u32 a0) w; Some (ret, default value out, w)
  else Some (SBI_ENOTSUPP, value, w).

(** ** The table of features the calls implement *)

(** A supported feature has a value and may be locked. *)
Abbreviation table := (gmap Z (Z * bool)).

Section Spec.
Variables (hw : env_impl).

(** The smallest number of masked bits the hart has that is at least [v]. *)
Definition pmlen_choice (v : Z) : option Z :=
  if v =? 0 then Some 0
  else if (v <=? 7) && pmm_legal hw ENVCFG_PMM_PMLEN_7 then Some 7
  else if (v <=? 16) && pmm_legal hw ENVCFG_PMM_PMLEN_16 then Some 16
  else None.

(** The value a feature takes when it is set to [v]. *)
Definition accepted (f v : Z) : option Z :=
  if f =? SBI_FWFT_POINTER_MASKING_PMLEN then pmlen_choice v
  else if (v =? 0) || (v =? 1) then Some v else None.

Definition absent (f : Z) : Z := if (0 <=? f) && (f <=? 5) then SBI_ENOTSUPP else SBI_EDENIED.

Definition spec_set (f v fl : Z) (t : table) : Z * table :=
  match t !! f with
  | None => (absent f, t)
  | Some (_, locked) =>
      if negb ((fl =? 0) || (fl =? 1)) then (SBI_EINVAL, t)
      else if (locked : bool) then (SBI_EDENIED_LOCKED, t)
      else match accepted f v with
           | None => (SBI_EINVAL, t)
           | Some x => (SBI_OK, <[f := (x, fl =? 1)]> t)
           end
  end.

Definition spec_get (f : Z) (t : table) : Z * option Z :=
  match t !! f with
  | None => (absent f, None)
  | Some (v, _) => (SBI_OK, Some v)
  end.

End Spec.

Definition feature_value (f : Z) (c : env_csrs) : Z :=
  if f =? SBI_FWFT_MISALIGNED_EXC_DELEG then Z.b2z (Z.testbit (medeleg c) 4 || Z.testbit (medeleg c) 6)
  else if f =? SBI_FWFT_LANDING_PAD then Z.b2z (Z.testbit (menvcfg c) ENVCFG_LPE_SHIFT)
  else if f =? SBI_FWFT_SHADOW_STACK then Z.b2z (Z.testbit (menvcfg c) ENVCFG_SSE_SHIFT)
  else if f =? SBI_FWFT_DOUBLE_TRAP then Z.b2z (Z.testbit (menvcfg c) ENVCFG_DTE_SHIFT)
  else if f =? SBI_FWFT_PTE_AD_HW_UPDATING then Z.b2z (Z.testbit (menvcfg c) ENVCFG_ADUE_SHIFT)
  else
    let pmm := Z.land (menvcfg c) ENVCFG_PMM in
    if pmm =? ENVCFG_PMM_PMLEN_7 then 7 else if pmm =? ENVCFG_PMM_PMLEN_16 then 16 else 0.

(** A configuration whose feature the hart has is an entry of the table. *)
Definition entry (c : env_csrs) (x : fwft_config) : option (Z * (Z * bool)) :=
  if decide (default 0 (supported (feature x)) = 0)
  then Some (id (feature x), (feature_value (id (feature x)) c, Z.testbit (flags x) 0)) else None.

Definition table_of (w : fwft_world) : table :=
  match fhs w with
  | None => ∅
  | Some s => list_to_map (omap (entry (csrs w)) (configs s))
  end.

(** ** The registers *)

Section Registers.
Variables (hw : env_impl) (misa_S : bool) (feat : sbi_hart_features).

(** What the architecture says of the registers of a hart with the features it
    reports: their fields can be written, and the pointer-masking field holds
    values that are defined, among them 0. *)
Record impl_ok : Prop := {
  im_deleg : misa_S = true -> Z.testbit (deleg_bits hw) 4 = true /\ Z.testbit (deleg_bits hw) 6 = true;
  im_lpe : sbi_hart_has_extension feat SBI_HART_EXT_ZICFILP = true -> Z.testbit (env_bits hw) ENVCFG_LPE_SHIFT = true;
  im_sse : sbi_hart_has_extension feat SBI_HART_EXT_ZICFISS = true -> Z.testbit (env_bits hw) ENVCFG_SSE_SHIFT = true;
  im_dte : sbi_hart_has_extension feat SBI_HART_EXT_SSDBLTRP = true -> Z.testbit (env_bits hw) ENVCFG_DTE_SHIFT = true;
  im_adue : sbi_hart_has_extension feat SBI_HART_EXT_SVADU = true -> Z.testbit (env_bits hw) ENVCFG_ADUE_SHIFT = true;
  im_bits : 0 <= deleg_bits hw < 2 ^ 64 /\ 0 <= env_bits hw < 2 ^ 64;
  im_zero : pmm_legal hw 0 = true;
  im_legal p : pmm_legal hw p = true -> p = ENVCFG_PMM_PMLEN_0 \/ p = ENVCFG_PMM_PMLEN_7 \/ p = ENVCFG_PMM_PMLEN_16;
  im_other o p : pmm_legal hw o = true -> pmm_legal hw (pmm_other hw o p) = true }.

(** The registers hold what the hart can hold. *)
Definition csrs_ok (c : env_csrs) : Prop :=
  Z.land (medeleg c) (deleg_bits hw) = medeleg c /\ menvcfg (menvcfg_write hw (menvcfg c) c) = menvcfg c /\
  pmm_legal hw (Z.land (menvcfg c) ENVCFG_PMM) = true.

Hypothesis Him : impl_ok.

Lemma pmm_bit i : Z.testbit ENVCFG_PMM i = (i =? 32) || (i =? 33).
Proof.
  unfold ENVCFG_PMM. destruct (Z_lt_le_dec i 0); [rewrite Z.testbit_neg_r by done; zcases; done || lia|].
  rewrite Z.shiftl_spec by done. destruct (Z_lt_le_dec i 32); [rewrite Z.testbit_neg_r by lia; zcases; done || lia|].
  change 3 with (Z.ones 2). rewrite Z.testbit_ones_nonneg by lia. zcases; done || lia.
Qed.

(** A legal value of the field is inside the field. *)
Lemma legal_inside p : pmm_legal hw p = true -> Z.land p ENVCFG_PMM = p.
Proof. intros [-> |[-> | ->]]%(im_legal Him); reflexivity. Qed.

Lemma write_bit v c i : pmm_legal hw (Z.land (menvcfg c) ENVCFG_PMM) = true -> i <> 32 -> i <> 33 ->
  Z.testbit (menvcfg (menvcfg_write hw v c)) i = Z.testbit v i && Z.testbit (env_bits hw) i.
Proof.
  intros Hc H2 H3. unfold menvcfg_write. cbn [menvcfg]. rewrite Z.lor_spec, Z.ldiff_spec, Z.land_spec, pmm_bit.
  rewrite (proj2 (Z.eqb_neq _ _) H2), (proj2 (Z.eqb_neq _ _) H3). cbn [orb negb]. rewrite andb_true_r.
  assert (forall p, pmm_legal hw p = true -> Z.testbit p i = false) as Hz.
  { intros p Hp. rewrite <- (legal_inside p Hp), Z.land_spec, pmm_bit.
    rewrite (proj2 (Z.eqb_neq _ _) H2), (proj2 (Z.eqb_neq _ _) H3). apply andb_false_r. }
  rewrite (Hz (if pmm_legal hw _ then _ else _)); [apply orb_false_r|].
  destruct (pmm_legal hw (Z.land v ENVCFG_PMM)) eqn:E; [done|by apply Him].
Qed.

Lemma write_pmm v c : pmm_legal hw (Z.land (menvcfg c) ENVCFG_PMM) = true ->
  Z.land (menvcfg (menvcfg_write hw v c)) ENVCFG_PMM
  = if pmm_legal hw (Z.land v ENVCFG_PMM) then Z.land v ENVCFG_PMM else pmm_other hw (Z.land (menvcfg c) ENVCFG_PMM) (Z.land v ENVCFG_PMM).
Proof.
  intros Hc. unfold menvcfg_write. cbn [menvcfg]. rewrite Z.land_lor_distr_l.
  assert (Z.land (Z.ldiff (Z.land v (env_bits hw)) ENVCFG_PMM) ENVCFG_PMM = 0) as ->.
  { apply Z.bits_inj'. intros i Hi. rewrite Z.land_spec, Z.ldiff_spec, Z.bits_0. by destruct (Z.testbit ENVCFG_PMM i); rewrite ?andb_false_r. }
  rewrite Z.lor_0_l. apply legal_inside. destruct (pmm_legal hw (Z.land v ENVCFG_PMM)) eqn:E; [done|by apply Him].
Qed.

Lemma env_ext m m' : (forall i, i <> 32 -> i <> 33 -> Z.testbit m i = Z.testbit m' i) ->
  Z.land m ENVCFG_PMM = Z.land m' ENVCFG_PMM -> m = m'.
Proof.
  intros Ho Hp. apply Z.bits_inj'. intros i _. destruct (Z.testbit ENVCFG_PMM i) eqn:E.
  - apply (f_equal (fun x => Z.testbit x i)) in Hp. by rewrite !Z.land_spec, E, !andb_true_r in Hp.
  - rewrite pmm_bit in E. apply orb_false_iff in E as [?%Z.eqb_neq ?%Z.eqb_neq]. by apply Ho.
Qed.

(** Bits outside the field are bits the hart has. *)
Lemma csrs_ok_bit c i : csrs_ok c -> i <> 32 -> i <> 33 -> Z.testbit (menvcfg c) i && Z.testbit (env_bits hw) i = Z.testbit (menvcfg c) i.
Proof. intros (_ & E & Hp) H2 H3. by rewrite <- (write_bit (menvcfg c) c) , E. Qed.

Lemma csrs_range c i : csrs_ok c -> Z.testbit (menvcfg c) i && ((0 <=? i) && (i <? 64)) = Z.testbit (menvcfg c) i.
Proof.
  intros Hc. destruct ((0 <=? i) && (i <? 64)) eqn:E; [apply andb_true_r|]. rewrite andb_false_r. symmetry.
  destruct (Z_lt_le_dec i 0); [by apply Z.testbit_neg_r|]. rewrite <- csrs_ok_bit by (done || (zcases_in E; cbn in E; done || lia)).
  rewrite (bits_above 64 (env_bits hw) i); [apply andb_false_r|apply Him|zcases_in E; cbn in E; done || lia].
Qed.

Lemma write_ok v c : csrs_ok c -> csrs_ok (menvcfg_write hw v c).
Proof.
  intros (Hd & Hm & Hp). assert (pmm_legal hw (Z.land (menvcfg (menvcfg_write hw v c)) ENVCFG_PMM) = true) as Hp'.
  { rewrite write_pmm by done. destruct (pmm_legal hw (Z.land v ENVCFG_PMM)) eqn:E; [done|by apply Him]. }
  split; [done|]. split; [|done]. apply env_ext.
  - intros i H2 H3. rewrite !write_bit by done. by rewrite <- andb_assoc, andb_diag.
  - by rewrite write_pmm, Hp'.
Qed.

(** Setting and clearing bits outside the field. *)
Lemma write_other v c b : csrs_ok c -> (forall i, i <> b -> Z.testbit v i = Z.testbit (menvcfg c) i) -> b <> 32 -> b <> 33 ->
  let c' := menvcfg_write hw v c in
  csrs_ok c' /\ medeleg c' = medeleg c /\ Z.land (menvcfg c') ENVCFG_PMM = Z.land (menvcfg c) ENVCFG_PMM /\
  (forall i, i <> b -> i <> 32 -> i <> 33 -> Z.testbit (menvcfg c') i = Z.testbit (menvcfg c) i) /\
  Z.testbit (menvcfg c') b = Z.testbit v b && Z.testbit (env_bits hw) b.
Proof.
  intros Hc Hv H2 H3. pose proof Hc as (_ & _ & Hp). cbn zeta. split; [by apply write_ok|]. split; [done|].
  assert (Z.land v ENVCFG_PMM = Z.land (menvcfg c) ENVCFG_PMM) as Ev.
  { apply Z.bits_inj'. intros i _. rewrite !Z.land_spec, pmm_bit. zcases; subst; rewrite ?andb_false_r, ?Hv by lia; done. }
  split_and!.
  - by rewrite write_pmm, Ev, Hp.
  - intros i Hi ? ?. rewrite write_bit, Hv by done. by apply csrs_ok_bit.
  - by rewrite write_bit.
Qed.

Lemma one_bit b i : 0 <= b -> Z.testbit (Z.shiftl 1 b) i = (i =? b).
Proof.
  intros Hb. rewrite Z.shiftl_1_l. destruct (Z_lt_le_dec i 0); [rewrite Z.testbit_neg_r by done; zcases; done || lia|].
  rewrite Z.pow2_bits_eqb by done. apply Z.eqb_sym.
Qed.

(** A feature of one bit. *)
Lemma set_bit_spec v b c : csrs_ok c -> 0 <= b < 64 -> b <> 32 -> b <> 33 -> Z.testbit (env_bits hw) b = true ->
  let r := fwft_menvcfg_set_bit hw v b c in
  csrs_ok r.2 /\ medeleg r.2 = medeleg c /\ Z.land (menvcfg r.2) ENVCFG_PMM = Z.land (menvcfg c) ENVCFG_PMM /\
  (forall i, i <> b -> i <> 32 -> i <> 33 -> Z.testbit (menvcfg r.2) i = Z.testbit (menvcfg c) i) /\
  (if (v =? 0) || (v =? 1) then r.1 = SBI_OK /\ Z.b2z (Z.testbit (menvcfg r.2) b) = v else r = (SBI_EINVAL, c)).
Proof.
  intros Hc Hb H2 H3 He. unfold fwft_menvcfg_set_bit. destruct (Z.eqb_spec v 1) as [-> |N1]; cbn [fst snd orb Z.eqb].
  - edestruct (write_other (Z.lor (menvcfg c) (Z.shiftl 1 b)) c b) as (A & B & C & D & E); [done| |done|done|].
    { intros i Hi. by rewrite Z.lor_spec, one_bit, (proj2 (Z.eqb_neq i b)), orb_false_r by (done || lia). }
    split_and!; try done. unfold csr_set_menvcfg. rewrite E, He, Z.lor_spec, one_bit, Z.eqb_refl, orb_true_r by lia. done.
  - destruct (Z.eqb_spec v 0) as [-> |N0]; cbn [fst snd orb]; [|done].
    edestruct (write_other (Z.land (menvcfg c) (not64 (Z.shiftl 1 b))) c b) as (A & B & C & D & E); [done| |done|done|].
    { intros i Hi. rewrite Z.land_spec, not64_bits, one_bit, (proj2 (Z.eqb_neq i b)) by (done || lia). by rewrite andb_true_r, csrs_range. }
    split_and!; try done. unfold csr_clear_menvcfg. rewrite E, Z.land_spec, not64_bits, one_bit, Z.eqb_refl by lia. cbn [negb]. by rewrite andb_false_r, andb_false_r.
Qed.

(** Writes that change the field only. *)
Definition same_but_pmm (c c' : env_csrs) : Prop :=
  csrs_ok c' /\ medeleg c' = medeleg c /\ forall i, i <> 32 -> i <> 33 -> Z.testbit (menvcfg c') i = Z.testbit (menvcfg c) i.

Lemma same_but_pmm_write c0 c v : same_but_pmm c0 c -> (forall i, i <> 32 -> i <> 33 -> Z.testbit v i = Z.testbit (menvcfg c) i) ->
  same_but_pmm c0 (menvcfg_write hw v c).
Proof.
  intros (Hc & Hd & Hb) Hv. split; [by apply write_ok|]. split; [done|]. intros i H2 H3.
  rewrite write_bit by (done || apply Hc). rewrite Hv, csrs_ok_bit by done. by apply Hb.
Qed.

Lemma pmm_cleared c0 c : same_but_pmm c0 c ->
  same_but_pmm c0 (csr_clear_menvcfg hw ENVCFG_PMM c) /\ Z.land (menvcfg (csr_clear_menvcfg hw ENVCFG_PMM c)) ENVCFG_PMM = 0.
Proof.
  intros Hs. pose proof Hs as (Hc & _). unfold csr_clear_menvcfg. split.
  - apply same_but_pmm_write; [done|]. intros i H2 H3. rewrite Z.land_spec, not64_bits, pmm_bit.
    rewrite (proj2 (Z.eqb_neq _ _) H2), (proj2 (Z.eqb_neq _ _) H3). cbn [orb negb]. rewrite andb_true_r. by apply csrs_range.
  - rewrite write_pmm by apply Hc. assert (Z.land (Z.land (menvcfg c) (not64 ENVCFG_PMM)) ENVCFG_PMM = 0) as ->; [|by rewrite (im_zero Him)].
    apply Z.bits_inj'. intros i Hi. rewrite !Z.land_spec, not64_bits, Z.bits_0. destruct (Z.testbit ENVCFG_PMM i); by rewrite ?andb_false_r.
Qed.

Lemma pmm_tried c0 c pmm : same_but_pmm c0 c -> Z.land (menvcfg c) ENVCFG_PMM = 0 -> Z.land pmm ENVCFG_PMM = pmm ->
  let r := fwft_try_to_set_pmm hw pmm c in
  same_but_pmm c0 r.2 /\ r.1 = pmm_legal hw pmm /\ (pmm_legal hw pmm = true -> Z.land (menvcfg r.2) ENVCFG_PMM = pmm).
Proof.
  intros Hs Hz Hp. pose proof Hs as (Hc & _). unfold fwft_try_to_set_pmm, csr_set_menvcfg. cbn [fst snd]. split.
  - apply same_but_pmm_write; [done|]. intros i H2 H3. rewrite Z.lor_spec, <- Hp, Z.land_spec, pmm_bit.
    rewrite (proj2 (Z.eqb_neq _ _) H2), (proj2 (Z.eqb_neq _ _) H3). cbn [orb]. by rewrite andb_false_r, orb_false_r.
  - rewrite write_pmm by apply Hc. rewrite Z.land_lor_distr_l, Hz, Hp, Z.lor_0_l.
    destruct (pmm_legal hw pmm) eqn:E; [by rewrite Z.eqb_refl|]. split; [|done]. apply Z.eqb_neq. intros Eq.
    pose proof (im_other Him 0 pmm (im_zero Him)). congruence.
Qed.

Definition pmm_of (n : Z) : Z := if n =? 7 then ENVCFG_PMM_PMLEN_7 else if n =? 16 then ENVCFG_PMM_PMLEN_16 else 0.

(** Masking of pointers takes the smallest length that is enough, or stays. *)
Lemma set_pmlen_spec v c : csrs_ok c -> 0 <= v ->
  let r := fwft_set_pmlen hw v c in
  same_but_pmm c r.2 /\
  match pmlen_choice hw v with
  | Some n => r.1 = SBI_OK /\ Z.land (menvcfg r.2) ENVCFG_PMM = pmm_of n
  | None => r = (SBI_EINVAL, c)
  end.
Proof.
  intros Hc Hv. assert (same_but_pmm c c) as Hs0 by done. unfold fwft_set_pmlen, pmlen_choice.
  destruct (Z.ltb_spec 16 v) as [Hbig|Hsmall].
  { rewrite (proj2 (Z.eqb_neq v 0)), (proj2 (Z.leb_gt v 7)), (proj2 (Z.leb_gt v 16)) by lia. done. }
  destruct (pmm_cleared c c Hs0) as [Hs1 Hz1]. set (c1 := csr_clear_menvcfg hw ENVCFG_PMM c) in *. cbn zeta.
  destruct (Z.eqb_spec v 0) as [E0|N0]; [done|]. rewrite (proj2 (Z.leb_le v 16)) by done. cbn [andb].
  assert (forall c2, same_but_pmm c c2 -> Z.land (menvcfg c2) ENVCFG_PMM = 0 ->
    let r := (let '(ok, x) := fwft_try_to_set_pmm hw ENVCFG_PMM_PMLEN_16 c2 in
              if ok then (SBI_OK, x) else (SBI_EINVAL, menvcfg_write hw (menvcfg c) x)) in
    same_but_pmm c r.2 /\
    match (if pmm_legal hw ENVCFG_PMM_PMLEN_16 then Some 16 else None) with
    | Some n => r.1 = SBI_OK /\ Z.land (menvcfg r.2) ENVCFG_PMM = pmm_of n
    | None => r = (SBI_EINVAL, c)
    end) as Hlast.
  { intros c2 Hs2 Hz2. destruct (pmm_tried c c2 ENVCFG_PMM_PMLEN_16 Hs2 Hz2 eq_refl) as (Hs3 & Hr3 & Hf3).
    destruct (fwft_try_to_set_pmm hw ENVCFG_PMM_PMLEN_16 c2) as [ok c3]. cbn [fst snd] in *. subst ok.
    destruct (pmm_legal hw ENVCFG_PMM_PMLEN_16); cbn [fst snd]; [split_and!; try done; by apply Hf3|].
    assert (same_but_pmm c (menvcfg_write hw (menvcfg c) c3)) as Hs4.
    { apply same_but_pmm_write; [done|]. intros i H2 H3. symmetry. by apply Hs3. }
    split; [done|]. f_equal. destruct Hs4 as (Hc4 & Hd4 & Hb4).
    assert (menvcfg (menvcfg_write hw (menvcfg c) c3) = menvcfg c) as Em.
    { apply env_ext; [done|]. rewrite write_pmm by apply Hs3. by rewrite (proj2 (proj2 Hc)). }
    destruct (menvcfg_write hw (menvcfg c) c3), c. cbn [medeleg menvcfg] in *. congruence. }
  destruct (v <=? 7); cbn [andb]; [|by apply Hlast].
  destruct (pmm_tried c c1 ENVCFG_PMM_PMLEN_7 Hs1 Hz1 eq_refl) as (Hs2 & Hr2 & Hf2).
  destruct (fwft_try_to_set_pmm hw ENVCFG_PMM_PMLEN_7 c1) as [ok c2]. cbn [fst snd] in *. subst ok.
  destruct (pmm_legal hw ENVCFG_PMM_PMLEN_7); cbn [fst snd]; [split_and!; try done; by apply Hf2|].
  destruct (pmm_cleared c c2 Hs2). by apply Hlast.
Qed.

Lemma masked_bits v : Z.land v MIS_DELEG =? 0 = negb (Z.testbit v 4 || Z.testbit v 6).
Proof.
  assert (forall i, Z.testbit MIS_DELEG i = (i =? 4) || (i =? 6)) as Hm.
  { intros i. unfold MIS_DELEG. by rewrite Z.lor_spec, !one_bit by lia. }
  destruct (Z.testbit v 4 || Z.testbit v 6) eqn:E; cbn [negb].
  - apply Z.eqb_neq. intros Hz. assert (forall i, Z.testbit MIS_DELEG i = true -> Z.testbit v i = false) as Hv.
    { intros i Hi. pose proof (Z.land_spec v MIS_DELEG i) as Hl. by rewrite Hz, Hi, Z.bits_0, andb_true_r in Hl. }
    by rewrite !Hv in E.
  - apply orb_false_iff in E as [E4 E6]. apply Z.eqb_eq, Z.bits_inj'. intros i _. rewrite Z.land_spec, Hm, Z.bits_0.
    zcases; subst; rewrite ?E4, ?E6, ?andb_false_r; done.
Qed.

Lemma read_bit_value b c : 0 <= b -> fwft_menvcfg_read_bit b c = (SBI_OK, Some (Z.b2z (Z.testbit (menvcfg c) b))).
Proof.
  intros Hb. unfold fwft_menvcfg_read_bit. assert (Z.land (menvcfg c) (Z.shiftl 1 b) =? 0 = negb (Z.testbit (menvcfg c) b)) as ->; [|by destruct (Z.testbit _ _)].
  destruct (Z.testbit (menvcfg c) b) eqn:E; cbn [negb].
  - apply Z.eqb_neq. intros Hz. apply (f_equal (fun x => Z.testbit x b)) in Hz. by rewrite Z.land_spec, one_bit, Z.eqb_refl, E, Z.bits_0 in Hz by done.
  - apply Z.eqb_eq, Z.bits_inj'. intros i _. rewrite Z.land_spec, one_bit, Z.bits_0 by done. zcases; subst; rewrite ?E, ?andb_false_r; done.
Qed.

(** Reading a feature gives its value. *)
Lemma feature_get F c : F ∈ features hw misa_S feat -> csrs_ok c -> get F c = (SBI_OK, Some (feature_value (id F) c)).
Proof.
  intros HF (_ & _ & Hp). unfold features in HF. rewrite !elem_of_cons in HF.
  destruct HF as [-> |[-> |[-> |[-> |[-> |[-> |HF]]]]]]; [..|by apply elem_of_nil in HF];
    try (apply read_bit_value; unfold ENVCFG_LPE_SHIFT, ENVCFG_SSE_SHIFT, ENVCFG_DTE_SHIFT, ENVCFG_ADUE_SHIFT; lia).
  - cbn. unfold fwft_get_misaligned_delegation, feature_value. cbn. rewrite masked_bits. by destruct (_ || _).
  - cbn. unfold fwft_get_pmlen. apply (im_legal Him) in Hp. by destruct Hp as [-> |[-> | ->]].
Qed.

(** What a feature's value depends on. *)
Lemma feature_value_ext f c c' :
  (f = 0 -> Z.testbit (medeleg c') 4 = Z.testbit (medeleg c) 4 /\ Z.testbit (medeleg c') 6 = Z.testbit (medeleg c) 6) ->
  (f = 1 -> Z.testbit (menvcfg c') ENVCFG_LPE_SHIFT = Z.testbit (menvcfg c) ENVCFG_LPE_SHIFT) ->
  (f = 2 -> Z.testbit (menvcfg c') ENVCFG_SSE_SHIFT = Z.testbit (menvcfg c) ENVCFG_SSE_SHIFT) ->
  (f = 3 -> Z.testbit (menvcfg c') ENVCFG_DTE_SHIFT = Z.testbit (menvcfg c) ENVCFG_DTE_SHIFT) ->
  (f = 4 -> Z.testbit (menvcfg c') ENVCFG_ADUE_SHIFT = Z.testbit (menvcfg c) ENVCFG_ADUE_SHIFT) ->
  (f = 5 -> Z.land (menvcfg c') ENVCFG_PMM = Z.land (menvcfg c) ENVCFG_PMM) ->
  0 <= f <= 5 -> feature_value f c' = feature_value f c.
Proof.
  intros H0 H1 H2 H3 H4 H5 Hf. unfold feature_value, SBI_FWFT_MISALIGNED_EXC_DELEG, SBI_FWFT_LANDING_PAD, SBI_FWFT_SHADOW_STACK, SBI_FWFT_DOUBLE_TRAP, SBI_FWFT_PTE_AD_HW_UPDATING.
  repeat match goal with |- context [f =? ?k] => destruct (Z.eqb_spec f k) end;
    [destruct H0 as [-> ->]|rewrite H1|rewrite H2|rewrite H3|rewrite H4|cbv zeta; rewrite H5]; done || lia.
Qed.

(** The outcome of setting feature [f] to [v]. *)
Definition set_outcome (f v : Z) (c : env_csrs) (r : Z * env_csrs) : Prop :=
  csrs_ok r.2 /\
  match accepted hw f v with
  | Some x => r.1 = SBI_OK /\ feature_value f r.2 = x /\ forall g, 0 <= g <= 5 -> g <> f -> feature_value g r.2 = feature_value g c
  | None => r = (SBI_EINVAL, c)
  end.

(** The features that are one bit of [menvcfg]. *)
Definition env_feature (f b : Z) : Prop :=
  (f = 1 /\ b = ENVCFG_LPE_SHIFT) \/ (f = 2 /\ b = ENVCFG_SSE_SHIFT) \/ (f = 3 /\ b = ENVCFG_DTE_SHIFT) \/ (f = 4 /\ b = ENVCFG_ADUE_SHIFT).

Lemma env_feature_set f b v c : env_feature f b -> csrs_ok c -> Z.testbit (env_bits hw) b = true ->
  set_outcome f v c (fwft_menvcfg_set_bit hw v b c).
Proof.
  intros Hf Hc Hb. assert (0 <= b < 64 /\ b <> 32 /\ b <> 33) as (B1 & B2 & B3).
  { unfold env_feature, ENVCFG_LPE_SHIFT, ENVCFG_SSE_SHIFT, ENVCFG_DTE_SHIFT, ENVCFG_ADUE_SHIFT in Hf. lia. }
  destruct (set_bit_spec v b c Hc B1 B2 B3 Hb) as (Hok & Hd & Hp & Ho & Hr). split; [done|].
  unfold accepted, SBI_FWFT_POINTER_MASKING_PMLEN. rewrite (proj2 (Z.eqb_neq f 5)) by (unfold env_feature in Hf; lia).
  destruct ((v =? 0) || (v =? 1)); [|done]. destruct Hr as [Hr1 Hr2]. split; [done|]. split.
  - etrans; [|exact Hr2]. by destruct Hf as [[-> ->]|[[-> ->]|[[-> ->]|[-> ->]]]].
  - intros g Hg Hn. unfold env_feature in Hf. apply feature_value_ext; try done; [by rewrite Hd| | | |]; intros ->; apply Ho;
      unfold ENVCFG_LPE_SHIFT, ENVCFG_SSE_SHIFT, ENVCFG_DTE_SHIFT, ENVCFG_ADUE_SHIFT in *; lia.
Qed.

Lemma deleg_set v c : csrs_ok c -> misa_S = true -> set_outcome 0 v c (fwft_set_misaligned_delegation hw v c).
Proof.
  intros Hc Hs. destruct (im_deleg Him Hs) as [H4 H6]. pose proof Hc as (Hd & Hm & Hp).
  assert (forall x, csrs_ok (medeleg_write hw x c)) as Hok.
  { intros x. split; [|done]. cbn. by rewrite <- Z.land_assoc, Z.land_diag. }
  assert (forall x g, 0 <= g <= 5 -> g <> 0 -> feature_value g (medeleg_write hw x c) = feature_value g c) as Hg.
  { intros x g Hr Hn. by apply feature_value_ext. }
  unfold fwft_set_misaligned_delegation, set_outcome. change (accepted hw 0 v) with (if (v =? 0) || (v =? 1) then Some v else None).
  destruct (Z.eqb_spec v 1) as [-> |N1]; [|destruct (Z.eqb_spec v 0) as [-> |N0]; [|done]].
  - cbn [Z.eqb orb fst snd]. split_and!; try done; [|by intros g Hr Hn; apply Hg].
    unfold feature_value. cbn [Z.eqb SBI_FWFT_MISALIGNED_EXC_DELEG medeleg medeleg_write]. rewrite !Z.land_spec, !Z.lor_spec, H4, H6.
    change (Z.testbit MIS_DELEG 4) with true. by rewrite orb_true_r.
  - cbn [Z.eqb orb fst snd]. split_and!; try done; [|by intros g Hr Hn; apply Hg].
    unfold feature_value. cbn [Z.eqb SBI_FWFT_MISALIGNED_EXC_DELEG medeleg medeleg_write]. rewrite !Z.land_spec, !not64_bits.
    change (Z.testbit MIS_DELEG 4) with true. change (Z.testbit MIS_DELEG 6) with true. cbn [negb]. by rewrite !andb_false_r.
Qed.

Lemma pmlen_set v c : csrs_ok c -> 0 <= v -> set_outcome 5 v c (fwft_set_pmlen hw v c).
Proof.
  intros Hc Hv. destruct (set_pmlen_spec v c Hc Hv) as [(Hok & Hd & Hb) Hr]. split; [done|].
  change (accepted hw 5 v) with (pmlen_choice hw v). destruct (pmlen_choice hw v) as [n|] eqn:En; [|done].
  destruct Hr as [Hr1 Hr2]. split; [done|]. split.
  - unfold feature_value. cbn [Z.eqb SBI_FWFT_MISALIGNED_EXC_DELEG SBI_FWFT_LANDING_PAD SBI_FWFT_SHADOW_STACK SBI_FWFT_DOUBLE_TRAP SBI_FWFT_PTE_AD_HW_UPDATING].
    cbv zeta. rewrite Hr2. revert En. unfold pmlen_choice. zcases; cbn [andb]; repeat case_match; intros [= <-]; done.
  - intros g Hg Hn. apply feature_value_ext; try done; [by rewrite Hd|..]; intros ->; apply Hb; done.
Qed.

(** Setting a feature the hart has. *)
Lemma feature_set F v c : F ∈ features hw misa_S feat -> default 0 (supported F) = 0 -> csrs_ok c -> 0 <= v ->
  0 <= id F <= 5 /\ set_outcome (id F) v c (set F v c).
Proof.
  intros HF Hs Hc Hv. unfold features in HF. rewrite !elem_of_cons in HF.
  destruct HF as [-> |[-> |[-> |[-> |[-> |[-> |HF]]]]]]; [..|by apply elem_of_nil in HF]; (split; [cbn; unfold SBI_FWFT_MISALIGNED_EXC_DELEG, SBI_FWFT_LANDING_PAD, SBI_FWFT_SHADOW_STACK, SBI_FWFT_DOUBLE_TRAP, SBI_FWFT_PTE_AD_HW_UPDATING, SBI_FWFT_POINTER_MASKING_PMLEN; lia|]); cbn in Hs |- *;
    try (apply env_feature_set; [unfold env_feature; tauto|done|apply Him; revert Hs; unfold fwft_lpad_supported, fwft_sstack_supported, fwft_double_trap_supported, fwft_adue_supported, ext_supported; by destruct (sbi_hart_has_extension _ _)]).
  - apply deleg_set; [done|]. revert Hs. unfold fwft_misaligned_delegation_supported. by destruct misa_S.
  - by apply pmlen_set.
Qed.

End Registers.

(** ** The calls *)

Section Calls.
Variables (hw : env_impl) (misa_S : bool) (feat : sbi_hart_features).
Hypothesis Him : impl_ok hw misa_S feat.
Notation features := (features hw misa_S feat).

(** A hart after set-up. *)
Definition fwft_ok (w : fwft_world) : Prop :=
  csrs_ok hw (csrs w) /\
  exists s, fhs w = Some s /\ config_count s = 6 /\ feature <$> configs s = features /\
    Forall (fun x => flags x = 0 \/ flags x = 1) (configs s).

Lemma list_to_map_entries l c k g : (forall i x, l !! i = Some x -> id (feature x) = k + Z.of_nat i) ->
  (list_to_map (omap (entry c) l) : table) !! g = if k <=? g then x ← l !! Z.to_nat (g - k); snd <$> entry c x else None.
Proof.
  revert k. induction l as [|x l IH]; intros k Hid.
  { change (omap (entry c) []) with (@nil (Z * (Z * bool))). cbn [list_to_map]. by destruct (_ <=? _). }
  assert (forall i y, l !! i = Some y -> id (feature y) = (k + 1) + Z.of_nat i) as Hid'.
  { intros i y Hy. rewrite (Hid (S i) y Hy). lia. }
  pose proof (Hid 0%nat x eq_refl) as H0. assert ((list_to_map (omap (entry c) (x :: l)) : table) !! g
    = if g =? k then match entry c x with Some e => Some e.2 | None => (list_to_map (omap (entry c) l) : table) !! g end
      else (list_to_map (omap (entry c) l) : table) !! g) as ->.
  { change (omap (entry c) (x :: l)) with (match entry c x with Some y => y :: omap (entry c) l | None => omap (entry c) l end).
    destruct (entry c x) as [[j e]|] eqn:E; [|by destruct (_ =? _)].
    assert (j = k) as -> by (revert E; unfold entry; destruct (decide _); [intros [= <- _]; lia|done]).
    cbn [list_to_map foldr uncurry fst snd]. destruct (Z.eqb_spec g k) as [-> |]; [apply lookup_insert_eq|by apply lookup_insert_ne]. }
  rewrite (IH _ Hid'). destruct (Z.eqb_spec g k) as [-> |Hn].
  - rewrite Z.sub_diag, Z.leb_refl, (proj2 (Z.leb_gt _ _)) by lia. change (Z.to_nat 0) with 0%nat. cbn. by destruct (entry c x).
  - zcases; try lia; [|done]. by replace (Z.to_nat (g - k)) with (S (Z.to_nat (g - (k + 1)))) by lia.
Qed.

(** The configurations of a hart and their numbers. *)
Lemma config_ids w : fwft_ok w -> exists s, fhs w = Some s /\ config_count s = 6 /\ length (configs s) = 6%nat /\
  forall i x, configs s !! i = Some x -> id (feature x) = Z.of_nat i /\ feature x ∈ features /\ (flags x = 0 \/ flags x = 1).
Proof.
  intros [_ (s & E & Hn & Hf & Hfl)]. exists s. split; [done|]. split; [done|].
  split; [rewrite <- (length_fmap feature), Hf; done|]. intros i x Hx.
  assert (features !! i = Some (feature x)) as HF by (rewrite <- Hf, list_lookup_fmap, Hx; done).
  split; [|split; [by eapply list_elem_of_lookup_2|]].
  - do 6 (destruct i as [|i]; [injection HF as <-; reflexivity|]). discriminate.
  - rewrite List.Forall_forall in Hfl. apply Hfl, list_elem_of_In. by eapply list_elem_of_lookup_2.
Qed.

Lemma table_lookup w g : fwft_ok w -> table_of w !! g = if 0 <=? g then x ← conf_at w (Z.to_nat g); snd <$> entry (csrs w) x else None.
Proof.
  intros Hw. destruct (config_ids w Hw) as (s & E & _ & _ & Hid). unfold table_of, conf_at. rewrite E, some_bind.
  rewrite (list_to_map_entries _ _ 0); [by rewrite Z.sub_0_r|]. intros i x Hx. by apply Hid.
Qed.

Lemma config_loop_spec s f n i : 0 <= f -> (forall j x, configs s !! j = Some x -> id (feature x) = Z.of_nat j) ->
  (i + n <= length (configs s))%nat -> 
  config_loop n i f (configs s) = Some (if (Z.of_nat i <=? f) && (f <? Z.of_nat (i + n)) then Some (Z.to_nat f) else None).
Proof.
  intros Hf Hid. revert i. induction n as [|n IH]; intros i Hl; cbn [config_loop].
  { zcases; cbn; done || lia. }
  destruct (lookup_lt_is_Some_2 (configs s) i) as [x Hx]; [lia|]. rewrite Hx, some_bind, (Hid i x Hx).
  destruct (Z.eqb_spec f (Z.of_nat i)) as [-> |Hn]; [rewrite Nat2Z.id; zcases; cbn; done || lia|].
  rewrite IH by lia. zcases; cbn; done || lia.
Qed.

(** Looking a feature up. *)
Lemma fwft_get_feature_spec f w : fwft_ok w -> 0 <= f < 2 ^ 32 ->
  match table_of w !! f with
  | None => fwft_get_feature f w = Some (inl (absent f))
  | Some (v, locked) => exists x, fwft_get_feature f w = Some (inr (Z.to_nat f)) /\ conf_at w (Z.to_nat f) = Some x /\
      id (feature x) = f /\ feature x ∈ features /\ default 0 (supported (feature x)) = 0 /\
      v = feature_value f (csrs w) /\ locked = (flags x =? 1) /\ (flags x = 0 \/ flags x = 1)
  end.
Proof.
  intros Hw Hf. rewrite table_lookup, (proj2 (Z.leb_le 0 f)) by (done || lia).
  destruct (config_ids w Hw) as (s & E & Hn & Hl & Hid).
  assert (get_feature_config f w = Some (if f <? 6 then Some (Z.to_nat f) else None)) as Hg.
  { unfold get_feature_config. rewrite E, some_bind, Hn. rewrite config_loop_spec; [|lia|by apply Hid|by rewrite Hl].
    destruct (Z.ltb_spec f 6).
    - assert (Z.land f SBI_FWFT_GLOBAL_FEATURE_BIT = 0) as ->; [|cbn; zcases; done || lia].
      assert (f = 0 \/ f = 1 \/ f = 2 \/ f = 3 \/ f = 4 \/ f = 5) as Hc by lia. by repeat (destruct Hc as [-> |Hc]; [done|]); subst.
    - destruct (negb _); [done|]. cbn. zcases; done || lia. }
  unfold fwft_get_feature, conf_at. rewrite Hg, E, !some_bind. destruct (Z.ltb_spec f 6) as [Hlt|Hge].
  - destruct (lookup_lt_is_Some_2 (configs s) (Z.to_nat f)) as [x Hx]; [lia|]. cbv iota. rewrite !some_bind, Hx, !some_bind.
    destruct (Hid _ _ Hx) as (Hidx & HF & Hfl). rewrite Z2Nat.id in Hidx by lia. unfold entry.
    destruct (decide (default 0 (supported (feature x)) = 0)) as [Hs|Hs]; cbn.
    + exists x. split_and!; try done; [|by rewrite Hidx|].
      { destruct (supported (feature x)) as [r|]; [|done]. cbn in Hs. by subst. }
      destruct Hfl as [-> | ->]; done.
    + assert (supported (feature x) = Some SBI_ENOTSUPP) as ->.
      { revert Hs. unfold SbiFwft.features in HF. rewrite !elem_of_cons in HF. destruct HF as [-> |[-> |[-> |[-> |[-> |[-> |HF]]]]]];
          [..|by apply elem_of_nil in HF]; cbn; unfold fwft_misaligned_delegation_supported, fwft_lpad_supported, fwft_sstack_supported, fwft_double_trap_supported, fwft_adue_supported, fwft_pmlen_supported, ext_supported; by destruct (negb _). }
      cbn. unfold absent. zcases; cbn; done || lia.
  - rewrite (lookup_ge_None_2 (configs s)) by lia. cbv iota. cbn [mbind option_bind].
    assert (fwft_is_defined_feature f = false) as ->; [|unfold absent; zcases; cbn; done || lia].
    unfold fwft_is_defined_feature, fwft_defined_features, SBI_FWFT_MISALIGNED_EXC_DELEG, SBI_FWFT_LANDING_PAD, SBI_FWFT_SHADOW_STACK, SBI_FWFT_DOUBLE_TRAP, SBI_FWFT_PTE_AD_HW_UPDATING, SBI_FWFT_POINTER_MASKING_PMLEN. cbn [existsb].
    repeat rewrite (proj2 (Z.eqb_neq _ _)) by lia. done.
Qed.

Lemma only_lock_flag fl : 0 <= fl < 2 ^ 64 -> (Z.land fl (not64 SBI_FWFT_SET_FLAG_LOCK) =? 0) = (fl =? 0) || (fl =? 1).
Proof.
  intros Hfl. assert (Z.land fl (not64 SBI_FWFT_SET_FLAG_LOCK) = 2 * (fl / 2)) as ->.
  { change 2 with (2 ^ 1). rewrite Z.mul_comm, <- Z.shiftl_mul_pow2, <- Z.shiftr_div_pow2 by lia. apply Z.bits_inj'. intros i Hi.
    rewrite Z.land_spec, not64_bits. destruct (Z.eq_dec i 0) as [-> |]; [by rewrite andb_false_r, Z.shiftl_spec_low by lia|].
    rewrite Z.shiftl_spec, Z.shiftr_spec by lia. replace (i - 1 + 1) with i by lia. change SBI_FWFT_SET_FLAG_LOCK with (Z.shiftl 1 0). rewrite one_bit by lia.
    rewrite (proj2 (Z.eqb_neq i 0)) by done. cbn [negb]. rewrite andb_true_r. zcases; rewrite ?andb_true_r; try done; try lia.
    cbn. rewrite andb_false_r. symmetry. by apply (bits_above 64). }
  pose proof (Z.div_mod fl 2). pose proof (Z.mod_pos_bound fl 2). zcases; try reflexivity; exfalso; lia.
Qed.

Lemma put_flags_ok i fl w e : fwft_ok w -> csrs_ok hw e -> fl = 0 \/ fl = 1 -> fwft_ok (put_flags i fl (mkFw (fhs w) e)).
Proof.
  intros [_ (s & E & Hn & Hf & Hfl)] He Hfl'. split; [done|]. unfold put_flags. cbn [fhs]. rewrite E. cbn. eexists. split; [reflexivity|].
  split; [done|]. cbn [configs]. split.
  - rewrite <- Hf. apply list_eq. intros j. rewrite !list_lookup_fmap. destruct (decide (i = j)) as [-> |];
      [rewrite list_lookup_alter_eq|by rewrite list_lookup_alter_ne]. by destruct (configs s !! j).
  - apply Forall_lookup. intros j x. destruct (decide (i = j)) as [-> |]; [rewrite list_lookup_alter_eq|rewrite list_lookup_alter_ne by done].
    + destruct (configs s !! j); [|done]. by intros [= <-].
    + intros Hj. exact (Forall_lookup_1 _ _ _ _ Hfl Hj).
Qed.

Lemma conf_at_put i fl w e j : conf_at (put_flags i fl (mkFw (fhs w) e)) j
  = (fun x => if decide (i = j) then mkConf (feature x) fl else x) <$> conf_at w j.
Proof.
  unfold conf_at, put_flags. cbn [fhs]. destruct (fhs w) as [s|]; [|done]. cbn. destruct (decide (i = j)) as [-> |].
  - by rewrite list_lookup_alter_eq.
  - rewrite list_lookup_alter_ne by done. by destruct (configs s !! j).
Qed.

(** A change of one feature is an update of the table. *)
Lemma table_put f fl w e x : fwft_ok w -> 0 <= f <= 5 -> conf_at w (Z.to_nat f) = Some x -> id (feature x) = f ->
  default 0 (supported (feature x)) = 0 -> csrs_ok hw e -> fl = 0 \/ fl = 1 ->
  (forall g, 0 <= g <= 5 -> g <> f -> feature_value g e = feature_value g (csrs w)) ->
  let w' := put_flags (Z.to_nat f) fl (mkFw (fhs w) e) in
  fwft_ok w' /\ table_of w' = <[f := (feature_value f e, fl =? 1)]> (table_of w).
Proof.
  intros Hw Hf Hx Hid Hs He Hfl Hv. pose proof (put_flags_ok (Z.to_nat f) fl w e Hw He Hfl) as Hw'. split; [done|].
  apply map_eq. intros g. rewrite table_lookup by done. destruct (Z.eq_dec f g) as [<- |Hn].
  - rewrite lookup_insert_eq, (proj2 (Z.leb_le 0 f)), conf_at_put, Hx by lia. cbn. rewrite decide_True by done.
    unfold entry. cbn [feature flags]. rewrite decide_True, Hid by done. cbn. by destruct Hfl as [-> | ->].
  - rewrite lookup_insert_ne, table_lookup by done. destruct (Z.leb_spec 0 g); [|done]. rewrite conf_at_put.
    destruct (conf_at w (Z.to_nat g)) as [y|] eqn:Hy; [|done]. cbn. rewrite decide_False by lia.
    unfold entry. destruct (decide _); [|done]. cbn.
    destruct (config_ids w Hw) as (s & E & _ & Hl & Hids). unfold conf_at in Hy. rewrite E in Hy. cbn in Hy.
    destruct (Hids _ _ Hy) as (-> & _). rewrite Z2Nat.id by done. apply lookup_lt_Some in Hy. rewrite Hv by lia. done.
Qed.

Lemma set_spec f v fl w : fwft_ok w -> 0 <= f < 2 ^ 32 -> 0 <= v -> 0 <= fl < 2 ^ 64 ->
  exists rc w', sbi_fwft_set f v fl w = Some (rc, w') /\ fwft_ok w' /\ (rc, table_of w') = spec_set hw f v fl (table_of w).
Proof.
  intros Hw Hf Hv Hfl. pose proof (fwft_get_feature_spec f w Hw Hf) as Hg. unfold sbi_fwft_set, spec_set.
  destruct (table_of w !! f) as [[u locked]|]; [|rewrite Hg, some_bind; by eexists _, _].
  destruct Hg as (x & -> & Hx & Hid & HF & Hs & -> & -> & Hxf). rewrite some_bind, only_lock_flag by done.
  destruct (negb _) eqn:Efl; [by eexists _, _|]. rewrite Hx, some_bind. apply negb_false_iff, orb_true_iff in Efl.
  assert ((Z.land (flags x) SBI_FWFT_SET_FLAG_LOCK =? 0) = negb (flags x =? 1)) as -> by (by destruct Hxf as [-> | ->]).
  rewrite negb_involutive. destruct (flags x =? 1); [by eexists _, _|].
  destruct (feature_set hw misa_S feat Him (feature x) v (csrs w) HF Hs (proj1 Hw) Hv) as [Hr [Hok Hout]]. rewrite Hid in Hr, Hout.
  destruct (set (feature x) v (csrs w)) as [ret e]. cbn [fst snd] in *. destruct (accepted hw f v) as [n|].
  - destruct Hout as (-> & <- & Hrest). destruct (table_put f fl w e x Hw Hr Hx Hid Hs Hok ltac:(lia) Hrest) as [Hw' Ht].
    cbn [Z.eqb SBI_OK negb]. eexists _, _. split; [reflexivity|]. split; [done|]. by rewrite Ht.
  - injection Hout as -> ->. cbn [Z.eqb SBI_EINVAL negb]. exists SBI_EINVAL, w. by destruct w.
Qed.

Lemma get_spec f w : fwft_ok w -> 0 <= f < 2 ^ 32 -> sbi_fwft_get f w = Some (spec_get f (table_of w)).
Proof.
  intros Hw Hf. pose proof (fwft_get_feature_spec f w Hw Hf) as Hg. unfold sbi_fwft_get, spec_get.
  destruct (table_of w !! f) as [[u locked]|]; [|by rewrite Hg, some_bind].
  destruct Hg as (x & -> & Hx & Hid & HF & Hs & -> & _). rewrite some_bind, Hx, some_bind.
  rewrite (feature_get hw misa_S feat Him) by (done || apply Hw). by rewrite Hid.
Qed.

(** The calls as the supervisor makes them. *)
Definition spec_call (funcid a0 a1 a2 value : Z) (t : table) : Z * Z * table :=
  if funcid =? 0 then let '(ret, t) := spec_set hw (u32 a0) a1 a2 t in (ret, value, t)
  else if funcid =? 1 then let '(ret, out) := spec_get (u32 a0) t in (ret, default value out, t)
  else (SBI_ENOTSUPP, value, t).

Definition is_reg (x : Z) : Prop := 0 <= x < 2 ^ 64.

Lemma call_spec funcid a0 a1 a2 value w : fwft_ok w -> is_reg a1 -> is_reg a2 ->
  exists ret out w', sbi_ecall_fwft_handler funcid a0 a1 a2 value w = Some (ret, out, w') /\ fwft_ok w' /\
    (ret, out, table_of w') = spec_call funcid a0 a1 a2 value (table_of w).
Proof.
  intros Hw H1 H2. pose proof (wrap_range 32 a0 ltac:(lia)) as H0. unfold is_reg in *. unfold sbi_ecall_fwft_handler, spec_call.
  destruct (funcid =? 0).
  - destruct (set_spec (u32 a0) a1 a2 w Hw H0) as (rc & w' & -> & Hw' & E); [lia|done|]. rewrite some_bind, <- E. by eexists _, _, _.
  - destruct (funcid =? 1); [|by eexists _, _, _]. rewrite get_spec, some_bind by done.
    destruct (spec_get (u32 a0) (table_of w)). by eexists _, _, _.
Qed.

(** *** Set-up *)

Lemma clear_one f w : fwft_ok w -> 0 <= f <= 5 -> exists w', fwft_clear_config_lock f w = Some w' /\ fwft_ok w' /\ csrs w' = csrs w /\
  forall g, table_of w' !! g = (fun e => (e.1, if g =? f then false else e.2)) <$> table_of w !! g.
Proof.
  intros Hw Hf. pose proof (fwft_get_feature_spec f w Hw ltac:(lia)) as Hg. unfold fwft_clear_config_lock.
  destruct (table_of w !! f) as [[u locked]|] eqn:Et.
  - destruct Hg as (x & -> & Hx & Hid & HF & Hs & -> & -> & Hxf). rewrite some_bind, Hx, some_bind.
    assert (Z.land (flags x) (not64 SBI_FWFT_SET_FLAG_LOCK) = 0) as -> by (by destruct Hxf as [-> | ->]).
    destruct (table_put f 0 w (csrs w) x Hw Hf Hx Hid Hs (proj1 Hw)) as [Hw' Ht]; [by left|done|].
    replace (mkFw (fhs w) (csrs w)) with w in * by (by destruct w). eexists. split; [reflexivity|]. split_and!; try done.
    intros g. rewrite Ht. destruct (Z.eqb_spec g f) as [-> |Hn]; [by rewrite lookup_insert_eq, Et|].
    rewrite lookup_insert_ne by done. by destruct (table_of w !! g) as [[]|].
  - rewrite Hg, some_bind. exists w. split_and!; try done. intros g. destruct (Z.eqb_spec g f) as [-> |]; [by rewrite Et|].
    by destruct (table_of w !! g) as [[]|].
Qed.

Lemma clear_locks_spec ids w : fwft_ok w -> Forall (fun f => 0 <= f <= 5) ids ->
  exists w', clear_locks ids w = Some w' /\ fwft_ok w' /\ csrs w' = csrs w /\
    forall g, table_of w' !! g = (fun e => (e.1, if decide (g ∈ ids) then false else e.2)) <$> table_of w !! g.
Proof.
  intros Hw Hids. revert w Hw. induction Hids as [|f ids Hf Hids IH]; intros w Hw; cbn [clear_locks].
  { exists w. split_and!; try done. intros g. by destruct (table_of w !! g) as [[]|]. }
  destruct (clear_one f w Hw Hf) as (w1 & -> & Hw1 & Ec1 & Ht1). rewrite some_bind.
  destruct (IH w1 Hw1) as (w2 & -> & Hw2 & Ec2 & Ht2). exists w2. split_and!; try done; [congruence|].
  intros g. rewrite Ht2, Ht1. destruct (table_of w !! g) as [[v l]|]; [|done]. cbn. f_equal. f_equal.
  destruct (Z.eqb_spec g f) as [-> |]; repeat destruct (decide _); try done; set_solver.
Qed.

Lemma table_domain w f e : fwft_ok w -> table_of w !! f = Some e -> 0 <= f <= 5.
Proof.
  intros Hw. rewrite table_lookup by done. destruct (Z.leb_spec 0 f); [|done]. intros He.
  destruct (config_ids w Hw) as (s & E & _ & Hl & _). revert He. unfold conf_at. rewrite E, some_bind.
  destruct (configs s !! Z.to_nat f) eqn:Ec; [|done]. intros _. apply lookup_lt_Some in Ec. lia.
Qed.

Lemma feature_ids : id <$> features = [0; 1; 2; 3; 4; 5].
Proof. reflexivity. Qed.

(** Set-up of a hart: nothing is locked, and the registers stay. *)
Lemma init_spec cold w : csrs_ok hw (csrs w) -> cold = true \/ fhs w = None \/ fwft_ok w ->
  exists w', sbi_fwft_init features cold true true w = Some (0, w') /\ fwft_ok w' /\ csrs w' = csrs w /\
    forall f v l, table_of w' !! f = Some (v, l) -> l = false.
Proof.
  intros Hc Hcase. unfold sbi_fwft_init. rewrite andb_false_r.
  assert (forall w0, fwft_ok w0 -> csrs w0 = csrs w -> exists w', clear_locks (id <$> features) w0 = Some w' /\ fwft_ok w' /\ csrs w' = csrs w /\
    forall f v l, table_of w' !! f = Some (v, l) -> l = false) as Hclear.
  { intros w0 Hw0 E0. destruct (clear_locks_spec (id <$> features) w0 Hw0) as (w' & E & Hw' & Ec & Ht).
    { rewrite feature_ids. repeat constructor; lia. }
    exists w'. split_and!; try done; [congruence|]. intros f v l Hl. pose proof (table_domain w' f _ Hw' Hl) as Hf.
    rewrite Ht in Hl. destruct (table_of w0 !! f) as [[]|]; [|done]. cbn [fmap option_fmap option_map] in Hl.
    rewrite decide_True in Hl; [by injection Hl|]. rewrite feature_ids, !elem_of_cons. lia. }
  assert (fwft_ok (mkFw (Some (mkFhs (Z.of_nat (length features)) ((fun F => mkConf F 0) <$> features))) (csrs w))) as Hnew.
  { split; [done|]. eexists. split; [reflexivity|]. split; [done|]. split; [reflexivity|].
    apply Forall_fmap, Forall_true. by left. }
  cbv zeta. destruct (fhs (if cold then mkFw None (csrs w) else w)) eqn:Ef.
  - destruct cold; [discriminate|]. destruct Hcase as [Hx|[Hx|Hw]]; [discriminate|congruence|].
    destruct (Hclear w Hw eq_refl) as (w' & -> & Hr). by exists w'.
  - assert (csrs (if cold then mkFw None (csrs w) else w) = csrs w) as -> by (by destruct cold). cbn [negb].
    destruct (Hclear _ Hnew eq_refl) as (w' & -> & Hr). by exists w'.
Qed.

(** *** Sequences of calls *)

Fixpoint run_calls (calls : list (Z * Z * Z * Z)) (w : fwft_world) : option fwft_world :=
  match calls with
  | [] => Some w
  | (funcid, a0, a1, a2) :: calls => '(_, w) ← sbi_ecall_fwft_handler funcid a0 a1 a2 0 w; run_calls calls w
  end.

Lemma spec_call_locked funcid a0 a1 a2 value t f v : t !! f = Some (v, true) -> (spec_call funcid a0 a1 a2 value t).2 !! f = Some (v, true).
Proof.
  intros Hf. unfold spec_call. destruct (funcid =? 0); [|destruct (funcid =? 1); [by destruct (spec_get _ _)|done]].
  unfold spec_set. destruct (t !! u32 a0) as [[u [|]]|] eqn:E; [by destruct (negb _)| |done].
  destruct (negb _); [done|]. destruct (accepted hw (u32 a0) a1); [|done]. cbn. rewrite lookup_insert_ne by congruence. done.
Qed.

Lemma run_calls_locked calls w f v : fwft_ok w -> Forall (fun c => is_reg c.1.2 /\ is_reg c.2) calls -> table_of w !! f = Some (v, true) ->
  exists w', run_calls calls w = Some w' /\ fwft_ok w' /\ table_of w' !! f = Some (v, true).
Proof.
  intros Hw Hcs. revert w Hw. induction Hcs as [|[[[funcid a0] a1] a2] calls [H1 H2] Hcs IH]; intros w Hw Hf; cbn [run_calls]; [by exists w|].
  destruct (call_spec funcid a0 a1 a2 0 w Hw H1 H2) as (ret & out & w' & -> & Hw' & E). rewrite some_bind. cbv beta iota. apply IH; [done|].
  pose proof (spec_call_locked funcid a0 a1 a2 0 _ f v Hf) as Hl. by rewrite <- E in Hl.
Qed.

(** Which features a hart has does not change. *)
Lemma present w w' f e : fwft_ok w -> fwft_ok w' -> table_of w !! f = Some e -> exists e', table_of w' !! f = Some e'.
Proof.
  intros Hw Hw' He. pose proof (table_domain w f e Hw He) as Hf. revert He. rewrite !table_lookup, (proj2 (Z.leb_le 0 f)) by (done || lia).
  destruct Hw as [_ (s & E & _ & Hfs & _)], Hw' as [_ (s' & E' & _ & Hfs' & _)]. unfold conf_at. rewrite E, E', !some_bind.
  intros He. destruct (configs s !! Z.to_nat f) as [x|] eqn:Hx; [|done].
  assert (feature <$> configs s' !! Z.to_nat f = Some (feature x)) as Hx' by (rewrite <- list_lookup_fmap, Hfs', <- Hfs, list_lookup_fmap, Hx; done).
  destruct (configs s' !! Z.to_nat f) as [x'|]; [|done]. injection Hx' as Ex. cbn in He |- *. unfold entry in *. rewrite Ex.
  destruct (decide _); [by eexists|done].
Qed.

(** A set call that succeeded. *)
Lemma spec_set_ok f v fl t t' : spec_set hw f v fl t = (SBI_OK, t') ->
  exists u x, t !! f = Some (u, false) /\ accepted hw f v = Some x /\ t' = <[f := (x, fl =? 1)]> t.
Proof.
  unfold spec_set. destruct (t !! f) as [[u l]|]; [|unfold absent; by destruct (_ && _)].
  destruct (negb _); [done|]. destruct l; [done|]. destruct (accepted hw f v) as [x|]; [|done]. intros [= <-]. by exists u, x.
Qed.


(** A lock holds until the hart is reset: after a successful call that sets a
    feature and locks it, whatever calls follow, reading the feature gives the
    value it took and setting it is denied; after a reset it can be set again. *)
Lemma fwft_lock_holds a0 a1 w out w1 calls : fwft_ok w -> is_reg a1 -> Forall (fun c => is_reg c.1.2 /\ is_reg c.2) calls ->
  sbi_ecall_fwft_handler 0 a0 a1 SBI_FWFT_SET_FLAG_LOCK 0 w = Some (SBI_OK, out, w1) ->
  exists x w2 w3, accepted hw (u32 a0) a1 = Some x /\ run_calls calls w1 = Some w2 /\
    (forall b1 b2, is_reg b1 -> is_reg b2 -> sbi_ecall_fwft_handler 1 a0 b1 b2 0 w2 = Some (SBI_OK, x, w2)) /\
    (forall v fl, is_reg v -> fl = 0 \/ fl = 1 -> exists w', sbi_ecall_fwft_handler 0 a0 v fl 0 w2 = Some (SBI_EDENIED_LOCKED, 0, w') /\ table_of w' = table_of w2) /\
    sbi_fwft_init features false true true w2 = Some (0, w3) /\
    (forall v, is_reg v -> accepted hw (u32 a0) v <> None -> exists w4, sbi_ecall_fwft_handler 0 a0 v 0 0 w3 = Some (SBI_OK, 0, w4)).
Proof.
  intros Hw H1 Hcs Eset. destruct (call_spec 0 a0 a1 SBI_FWFT_SET_FLAG_LOCK 0 w Hw H1) as (ret & out' & w1' & E1 & Hw1 & T1); [by vm_compute|].
  rewrite Eset in E1. injection E1 as <- <- <-. unfold spec_call in T1. cbn [Z.eqb] in T1.
  destruct (spec_set hw (u32 a0) a1 SBI_FWFT_SET_FLAG_LOCK (table_of w)) as [r1 t1] eqn:Es. injection T1 as <- -> <-.
  apply spec_set_ok in Es as (u & x & _ & Hx & Ht1).
  destruct (run_calls_locked calls w1 (u32 a0) x Hw1 Hcs) as (w2 & E2 & Hw2 & T2); [by rewrite Ht1, lookup_insert_eq|].
  destruct (init_spec false w2 (proj1 Hw2)) as (w3 & E3 & Hw3 & _ & Hun); [by do 2 right|].
  exists x, w2, w3. split_and!; try done.
  - intros b1 b2 Hb1 Hb2. unfold sbi_ecall_fwft_handler. cbn [Z.eqb]. rewrite get_spec, some_bind by (done || by apply wrap_range).
    unfold spec_get. by rewrite T2.
  - intros v fl Hv Hfl. destruct (call_spec 0 a0 v fl 0 w2 Hw2 Hv) as (ret & out'' & w' & E & _ & T); [unfold is_reg; lia|].
    unfold spec_call, spec_set in T. cbn [Z.eqb] in T. rewrite T2 in T. assert (negb ((fl =? 0) || (fl =? 1)) = false) as Hn by (by destruct Hfl as [-> | ->]).
    rewrite Hn in T. injection T as -> -> T. by exists w'.
  - intros v Hv Ha. destruct (call_spec 0 a0 v 0 0 w3 Hw3 Hv) as (ret & out'' & w' & E & _ & T); [done|].
    destruct (present w2 w3 (u32 a0) _ Hw2 Hw3 T2) as [[u3 l3] Hl3]. pose proof (Hun _ _ _ Hl3) as ->.
    unfold spec_call, spec_set in T. cbn [Z.eqb orb negb] in T. rewrite Hl3 in T. destruct (accepted hw (u32 a0) v); [|done].
    injection T as -> -> _. by exists w'.
Qed.

End Calls.

(** ** A hart *)

(** Landing pads, and pointer masking of 16 bits only. *)
Definition demo_impl : env_impl :=
  mkImpl (2 ^ 64 - 1) (2 ^ 64 - 1) (fun p => (p =? 0) || (p =? ENVCFG_PMM_PMLEN_16)) (fun o _ => o).

Definition demo_fw_feat : sbi_hart_features := mkFeat true SBI_HART_PRIV_VER_1_12 [Z.lor (2 ^ 20) (2 ^ 21)] 16 54 12 0 0.

Lemma demo_impl_ok : impl_ok demo_impl true demo_fw_feat.
Proof.
  split; try (by vm_compute).
  - intros p Hp. cbn in Hp. apply orb_true_iff in Hp as [->%Z.eqb_eq | ->%Z.eqb_eq]; [by left|by do 2 right].
Qed.

Definition demo_fw : fwft_world :=
  mkFw (Some (mkFhs 6 ((fun F => mkConf F 0) <$> features demo_impl true demo_fw_feat))) (mkEnv 0 0).

Lemma demo_fw_ok : fwft_ok demo_impl true demo_fw_feat demo_fw.
Proof.
  split; [by vm_compute|]. eexists. split; [reflexivity|]. split; [done|]. split; [reflexivity|]. repeat constructor.
Qed.

Example demo_pmlen : (fun r => menvcfg (csrs r.2)) <$> sbi_ecall_fwft_handler 0 5 7 0 0 demo_fw = Some ENVCFG_PMM_PMLEN_16.
Proof. vm_compute. reflexivity. Qed.


(** Landing pads stay on after they were locked. *)
Lemma fwft_lock_holds_witness :
  exists w1 w2, sbi_ecall_fwft_handler 0 1 1 1 0 demo_fw = Some (SBI_OK, 0, w1) /\
    run_calls [(0, 1, 0, 0); (0, 5, 0, 1)] w1 = Some w2 /\ sbi_ecall_fwft_handler 1 1 0 0 0 w2 = Some (SBI_OK, 1, w2).
Proof.
  destruct (call_spec demo_impl true demo_fw_feat demo_impl_ok 0 1 1 1 0 demo_fw demo_fw_ok) as (rc & out & w1 & E & _ & T);
    [unfold is_reg; lia..|].
  assert (spec_call demo_impl 0 1 1 1 0 (table_of demo_fw) = (SBI_OK, 0, <[1 := (1, true)]> (table_of demo_fw))) as Es by (by vm_compute).
  rewrite Es in T. injection T as -> -> _.
  destruct (fwft_lock_holds demo_impl true demo_fw_feat demo_impl_ok 1 1 demo_fw 0 w1 [(0, 1, 0, 0); (0, 5, 0, 1)])
    as (x & w2 & w3 & Hx & E2 & Hget & _).
  - exact demo_fw_ok.
  - unfold is_reg. lia.
  - repeat (apply Forall_cons_2; [split; unfold is_reg; cbn; lia|]). apply Forall_nil_2.
  - exact E.
  - exists w1, w2. split; [exact E|]. split; [exact E2|]. assert (x = 1) as -> by (vm_compute in Hx; congruence).
    apply Hget; unfold is_reg; lia.
Defined.
