(* ===== verification/SbiDbtr.v ===== *)
(** * Debug triggers (lib/sbi/sbi_dbtr.c, lib/sbi/sbi_ecall_dbtr.c)

    The supervisor borrows hardware triggers of the hart.  It describes them in
    memory it shares with the firmware, which checks them, programs them and keeps
    a copy of every trigger. *)

From S2P Require Import Prelude SbiBitops SbiScratch SbiHartmask SbiMemregion SbiDomain SbiHart SbiPmp SbiPmpRoot SbiPmu SbiPmuSpec.

Definition RV_MAX_TRIGGERS : Z := 32.
Definition RISCV_DBTR_TRIG_MCONTROL : Z := 2.
Definition RISCV_DBTR_TRIG_MCONTROL6 : Z := 6.

(** Bit numbers: the state of a trigger, and [tdata1] of the two types; U, S, M and
    DMODE are the same in both types. *)
Definition TS_MAPPED : Z := 0.
Definition TS_U : Z := 1.
Definition TS_S : Z := 2.
Definition TS_VU : Z := 3.
Definition TS_VS : Z := 4.
Definition TS_HW_IDX : Z := 8.
Definition MC_U : Z := 3.
Definition MC_S : Z := 4.
Definition MC_M : Z := 6.
Definition MC_DMODE : Z := 59.
Definition MC6_VU : Z := 23.
Definition MC6_VS : Z := 24.

Definition SBI_DBTR_SHMEM_INVALID_ADDR : Z := 2 ^ 64 - 1.
Definition SBI_DBTR_SHMEM_ALIGN_MASK : Z := 7.
Definition SBI_ERR_FAILED : Z := -1.
Definition SBI_ERR_DENIED : Z := -4.
Definition SBI_ERR_ALREADY_AVAILABLE : Z := -6.
Definition SBI_ERR_NO_SHMEM : Z := -9.
Definition SBI_ERR_PARAM : Z := -3.
Definition SBI_ERR_ADDRESS : Z := -5.

Definition TDATA1_GET_TYPE (t1 : Z) : Z := Z.land t1 (Z.shiftl 15 60) / 2 ^ 60.

(** [__set_bit] and [__clear_bit] on one word. *)
Definition set_one (nr w : Z) : Z := Z.lor w (Z.shiftl 1 nr).
Definition clear_one_bit (nr w : Z) : Z := Z.land w (not64 (Z.shiftl 1 nr)).
Definition update_bit (new : bool) (nr w : Z) : Z := if new then set_one nr w else clear_one_bit nr w.

Definition SET_TRIG_HW_INDEX (state idx : Z) : Z :=
  let mask := Z.shiftl (2 ^ 55 - 1) TS_HW_IDX in
  Z.lor (Z.land state (not64 mask)) (Z.land (u64 (Z.shiftl idx TS_HW_IDX)) mask).

Record sbi_dbtr_trigger := mkTrig {
  t_index : Z; type_mask : Z; t_state : Z; tdata1 : Z; tdata2 : Z; tdata3 : Z }.

Record sbi_dbtr_hart_triggers_state := mkHs {
  triggers : list sbi_dbtr_trigger; phys_lo : Z; phys_hi : Z; total_trigs : Z; available_trigs : Z;
  hs_hartid : Z; probed : bool }.

(** The trigger registers of the hart: the values last written. *)
Record trig_csrs := mkTr { tselect : Z; hw_tdata1 : gmap Z Z; hw_tdata2 : gmap Z Z }.

(** The pointer in the scratch area, memory, the PMP and the trigger registers. *)
Record dbtr_world := mkDb { hs : option sbi_dbtr_hart_triggers_state; db_mem : mem; db_pmp : Hw.pmp; db_hw : trig_csrs }.

Definition put_hs (s : sbi_dbtr_hart_triggers_state) (w : dbtr_world) : dbtr_world := mkDb (Some s) (db_mem w) (db_pmp w) (db_hw w).
Definition put_mem (m : mem) (w : dbtr_world) : dbtr_world := mkDb (hs w) m (db_pmp w) (db_hw w).
Definition put_pmp (p : Hw.pmp) (w : dbtr_world) : dbtr_world := mkDb (hs w) (db_mem w) p (db_hw w).
Definition put_hw (h : trig_csrs) (w : dbtr_world) : dbtr_world := mkDb (hs w) (db_mem w) (db_pmp w) h.

Definition set_shmem (lo hi : Z) (s : sbi_dbtr_hart_triggers_state) : sbi_dbtr_hart_triggers_state :=
  mkHs (triggers s) lo hi (total_trigs s) (available_trigs s) (hs_hartid s) (probed s).
Definition set_counts (total available : Z) (s : sbi_dbtr_hart_triggers_state) : sbi_dbtr_hart_triggers_state :=
  mkHs (triggers s) (phys_lo s) (phys_hi s) total available (hs_hartid s) (probed s).
Definition set_triggers (l : list sbi_dbtr_trigger) (s : sbi_dbtr_hart_triggers_state) : sbi_dbtr_hart_triggers_state :=
  mkHs l (phys_lo s) (phys_hi s) (total_trigs s) (available_trigs s) (hs_hartid s) (probed s).

Definition set_state (v : Z) (t : sbi_dbtr_trigger) : sbi_dbtr_trigger :=
  mkTrig (t_index t) (type_mask t) v (tdata1 t) (tdata2 t) (tdata3 t).
Definition set_tdata1 (v : Z) (t : sbi_dbtr_trigger) : sbi_dbtr_trigger :=
  mkTrig (t_index t) (type_mask t) (t_state t) v (tdata2 t) (tdata3 t).
Definition set_tdata2 (v : Z) (t : sbi_dbtr_trigger) : sbi_dbtr_trigger :=
  mkTrig (t_index t) (type_mask t) (t_state t) (tdata1 t) v (tdata3 t).

(** [INDEX_TO_TRIGGER]: a trigger is named by its index; an access outside the
    array is [None]. *)
Definition trig_at (i : Z) (w : dbtr_world) : option sbi_dbtr_trigger := s ← hs w; triggers s !! Z.to_nat i.
Definition put_trig (i : Z) (t : sbi_dbtr_trigger) (w : dbtr_world) : option dbtr_world :=
  s ← hs w; Some (put_hs (set_triggers (<[Z.to_nat i := t]> (triggers s)) s) w).

Definition csr_write_tselect (i : Z) (w : dbtr_world) : dbtr_world := put_hw (mkTr i (hw_tdata1 (db_hw w)) (hw_tdata2 (db_hw w))) w.
Definition csr_write_tdata1 (v : Z) (w : dbtr_world) : dbtr_world :=
  let h := db_hw w in put_hw (mkTr (tselect h) (<[tselect h := v]> (hw_tdata1 h)) (hw_tdata2 h)) w.
Definition csr_write_tdata2 (v : Z) (w : dbtr_world) : dbtr_world :=
  let h := db_hw w in put_hw (mkTr (tselect h) (hw_tdata1 h) (<[tselect h := v]> (hw_tdata2 h))) w.

Definition sbi_dbtr_shmem_disabled (s : sbi_dbtr_hart_triggers_state) : bool :=
  (phys_lo s =? SBI_DBTR_SHMEM_INVALID_ADDR) && (phys_hi s =? SBI_DBTR_SHMEM_INVALID_ADDR).

Definition sbi_dbtr_disable_shmem (s : sbi_dbtr_hart_triggers_state) : sbi_dbtr_hart_triggers_state :=
  set_shmem SBI_DBTR_SHMEM_INVALID_ADDR SBI_DBTR_SHMEM_INVALID_ADDR s.

Definition hart_shmem_base (s : sbi_dbtr_hart_triggers_state) : Z := phys_lo s.

Definition sbi_trigger_init (mask idx : Z) : sbi_dbtr_trigger := mkTrig idx mask 0 0 0 0.

Definition is_mapped (t : sbi_dbtr_trigger) : bool := Z.testbit (t_state t) TS_MAPPED.

(** ** Allocation *)

(** The first trigger that is not mapped, from [i]; [Some None] is none. *)
Fixpoint find_free (n : nat) (i : Z) (w : dbtr_world) : option (option Z) :=
  match n with
  | O => Some None
  | S n => t ← trig_at i w; if is_mapped t then find_free n (i + 1) w else Some (Some i)
  end.

Definition sbi_alloc_trigger (w : dbtr_world) : option (option Z * dbtr_world) :=
  match hs w with
  | None => Some (None, w)
  | Some s =>
      if available_trigs s <=? 0 then Some (None, w)
      else
        r ← find_free (Z.to_nat (total_trigs s)) 0 w;
        match r with
        | None => Some (None, w)
        | Some i =>
            let w := put_hs (set_counts (total_trigs s) (u32 (available_trigs s - 1)) s) w in
            t ← trig_at i w;
            w ← put_trig i (set_state (set_one TS_MAPPED (t_state t)) t) w;
            Some (Some i, w)
        end
  end.

Definition sbi_free_trigger (i : Z) (w : dbtr_world) : option dbtr_world :=
  t ← trig_at i w;
  w ← put_trig i (mkTrig (t_index t) (type_mask t) 0 0 0 0) w;
  s ← hs w;
  Some (put_hs (set_counts (total_trigs s) (u32 (available_trigs s + 1)) s) w).

(** ** Set-up *)

(** What the hart answers when trigger [i] is selected: the write of [tselect] is
    allowed, the values of [tselect], [tinfo] and [tdata1], or a trap. *)
Record probes := mkProbes {
  p_select : Z -> bool; p_tselect : Z -> option Z; p_tinfo : Z -> option Z; p_tdata1 : Z -> option Z }.

Fixpoint probe_loop (pr : probes) (n : nat) (i : Z) (w : dbtr_world) : option dbtr_world :=
  let found mask w k :=
    w ← put_trig i (sbi_trigger_init mask i) w;
    s ← hs w;
    k (put_hs (set_counts (u32 (total_trigs s + 1)) (available_trigs s) s) w) in
  match n with
  | O => Some w
  | S n =>
      if negb (p_select pr i) then Some w
      else
        let w := csr_write_tselect i w in
        match p_tselect pr i with
        | None => Some w
        | Some val =>
            if negb (val =? i) then Some w
            else
              match p_tinfo pr i with
              | None =>
                  match p_tdata1 pr i with
                  | None => Some w
                  | Some t1 =>
                      if TDATA1_GET_TYPE t1 =? 0 then Some w
                      else found (Z.shiftl 1 (TDATA1_GET_TYPE t1)) w (probe_loop pr n (i + 1))
                  end
              | Some val => if val =? 1 then Some w else found val w (probe_loop pr n (i + 1))
              end
        end
  end.

Definition zero_trigger : sbi_dbtr_trigger := mkTrig 0 0 0 0 0 0.

(** [offset_ok] and [alloc_ok]: the scratch area and the heap have room. *)
Definition sbi_dbtr_init (feat : sbi_hart_features) (pr : probes) (current_hartid : Z) (coldboot offset_ok alloc_ok : bool)
    (w : dbtr_world) : option (Z * dbtr_world) :=
  if negb (sbi_hart_has_extension feat SBI_HART_EXT_SDTRIG) then Some (SBI_OK, w)
  else if coldboot && negb offset_ok then Some (SBI_ENOMEM, w)
  else
    let w := if coldboot then mkDb None (db_mem w) (db_pmp w) (db_hw w) else w in
    match (match hs w with
           | Some s => Some s
           | None => if alloc_ok then Some (mkHs (replicate 32 zero_trigger) 0 0 0 0 current_hartid false) else None
           end) with
    | None => Some (SBI_ENOMEM, w)
    | Some s =>
        let w := put_hs (sbi_dbtr_disable_shmem s) w in
        w ← (if probed s then Some w
             else
               w ← probe_loop pr (Z.to_nat RV_MAX_TRIGGERS) 0 w;
               s ← hs w;
               Some (put_hs (mkHs (triggers s) (phys_lo s) (phys_hi s) (total_trigs s) (available_trigs s) (hs_hartid s) true) w));
        s ← hs w;
        Some (SBI_OK, put_hs (set_counts (total_trigs s) (total_trigs s) s) w)
    end.

Definition sbi_dbtr_get_total_triggers (feat : sbi_hart_features) (w : dbtr_world) : Z :=
  if negb (sbi_hart_has_extension feat SBI_HART_EXT_SDTRIG) then 0
  else match hs w with None => 0 | Some s => total_trigs s end.

(** [dom] is the domain of the hart, [assigned] whether the hart is assigned to it. *)
Definition sbi_dbtr_setup_shmem (dom : option sbi_domain) (assigned : bool) (smode lo hi : Z) (w : dbtr_world) : Z * dbtr_world :=
  let has_dom := bool_decide (is_Some dom) in
  if has_dom && negb assigned then (SBI_ERR_DENIED, w)
  else
    match hs w with
    | None => (SBI_ERR_FAILED, w)
    | Some s =>
        if (lo =? SBI_DBTR_SHMEM_INVALID_ADDR) && (hi =? SBI_DBTR_SHMEM_INVALID_ADDR)
        then (SBI_OK, put_hs (sbi_dbtr_disable_shmem s) w)
        else if negb (sbi_dbtr_shmem_disabled s) then (SBI_ERR_ALREADY_AVAILABLE, w)
        else if negb (Z.land lo SBI_DBTR_SHMEM_ALIGN_MASK =? 0) then (SBI_ERR_PARAM, w)
        else if negb (hi =? 0) then (SBI_EINVALID_ADDR, w)
        else if has_dom && negb (sbi_domain_check_addr dom lo smode (Z.lor SBI_DOMAIN_READ SBI_DOMAIN_WRITE))
        then (SBI_ERR_ADDRESS, w)
        else (SBI_OK, put_hs (set_shmem lo hi s) w)
    end.

(** ** Programming a trigger *)

(** The words of the entry at [a]: [tstate], [tdata1], [tdata2], [tdata3], [idx]. *)
Definition word_at (m : mem) (a k : Z) : Z := load_le m (a + 8 * k) 8.

Definition mode_bits (t1 : Z) : list (Z * Z) :=
  let ty := TDATA1_GET_TYPE t1 in
  if ty =? RISCV_DBTR_TRIG_MCONTROL then [(TS_U, MC_U); (TS_S, MC_S)]
  else if ty =? RISCV_DBTR_TRIG_MCONTROL6 then [(TS_VU, MC6_VU); (TS_VS, MC6_VS); (TS_U, MC_U); (TS_S, MC_S)]
  else [].

Definition dbtr_trigger_setup (i a : Z) (w : dbtr_world) : option dbtr_world :=
  t ← trig_at i w;
  let m := db_mem w in
  let t1 := word_at m a 1 in
  let state := SET_TRIG_HW_INDEX (set_one TS_MAPPED 0) (t_index t) in
  let state := foldl (fun st '(ts, mc) => if Z.testbit t1 mc then set_one ts st else st) state (mode_bits t1) in
  put_trig i (mkTrig (t_index t) (type_mask t) state t1 (word_at m a 2) (word_at m a 3)) w.

Definition dbtr_trigger_enable (i : Z) (w : dbtr_world) : option dbtr_world :=
  t ← trig_at i w;
  if negb (is_mapped t) then Some w
  else
    let t1 := foldl (fun v '(ts, mc) => update_bit (Z.testbit (t_state t) ts) mc v) (tdata1 t) (mode_bits (tdata1 t)) in
    w ← put_trig i (set_tdata1 t1 t) w;
    let w := csr_write_tselect (t_index t) w in
    let w := csr_write_tdata1 0 w in
    let w := csr_write_tdata2 (tdata2 t) w in
    Some (csr_write_tdata1 t1 w).

Definition dbtr_trigger_disable (i : Z) (w : dbtr_world) : option dbtr_world :=
  t ← trig_at i w;
  if negb (is_mapped t) then Some w
  else
    let t1 := foldl (fun v '(_, mc) => clear_one_bit mc v) (tdata1 t) (mode_bits (tdata1 t)) in
    w ← put_trig i (set_tdata1 t1 t) w;
    let w := csr_write_tselect (t_index t) w in
    Some (csr_write_tdata1 t1 w).

Definition dbtr_trigger_clear (i : Z) (w : dbtr_world) : option dbtr_world :=
  t ← trig_at i w;
  if negb (is_mapped t) then Some w
  else
    let w := csr_write_tselect (t_index t) w in
    let w := csr_write_tdata1 0 w in
    Some (csr_write_tdata2 0 w).

Definition dbtr_trigger_supported (type : Z) : bool := (type =? RISCV_DBTR_TRIG_MCONTROL) || (type =? RISCV_DBTR_TRIG_MCONTROL6).

Definition dbtr_trigger_valid (type tdata : Z) : bool :=
  dbtr_trigger_supported type && (negb (Z.testbit tdata MC_DMODE) && negb (Z.testbit tdata MC_M)).

(** ** Calls *)

(** Triggers of the array that have the type. *)
Fixpoint count_type (n : nat) (i type : Z) (w : dbtr_world) : option Z :=
  match n with
  | O => Some 0
  | S n => t ← trig_at i w; c ← count_type n (i + 1) type w; Some (if Z.testbit (type_mask t) type then c + 1 else c)
  end.

(** The error and [*out], if it is written. *)
Definition sbi_dbtr_num_trig (data : Z) (w : dbtr_world) : option (Z * option Z) :=
  match hs w with
  | None => Some (SBI_ERR_FAILED, None)
  | Some s =>
      if data =? 0 then Some (SBI_OK, Some (total_trigs s))
      else total ← count_type (Z.to_nat (total_trigs s)) 0 (TDATA1_GET_TYPE data) w; Some (SBI_OK, Some total)
  end.

Section Calls.
(** The hart. *)
Variables (feat : sbi_hart_features) (bits : Z).

(** An access to the entry at [a] with the entry mapped. *)
Definition with_mapped_entry {A} (a : Z) (w : dbtr_world) (k : dbtr_world -> option (A * dbtr_world)) : option (A * dbtr_world) :=
  '(_, p) ← sbi_hart_map_saddr bits feat a 40 (db_pmp w);
  '(x, w) ← k (put_pmp p w);
  let '(_, p) := sbi_hart_unmap_saddr bits feat (db_pmp w) in
  Some (x, put_pmp p w).

(** [for_each_trig_entry] counts with an [int]. *)
Fixpoint read_loop (n : nat) (idx shmem_base trig_idx_base : Z) (w : dbtr_world) : option dbtr_world :=
  match n with
  | O => Some w
  | S n =>
      if 2 ^ 31 <=? idx then None
      else
        let a := shmem_base + 40 * idx in
        '(_, w) ← with_mapped_entry a w (fun w =>
          t ← trig_at (u64 (idx + trig_idx_base)) w;
          let m := store_le (db_mem w) a 8 (t_state t) in
          let m := store_le m (a + 8) 8 (tdata1 t) in
          let m := store_le m (a + 16) 8 (tdata2 t) in
          let m := store_le m (a + 24) 8 (tdata3 t) in
          Some (tt, put_mem m w));
        read_loop n (idx + 1) shmem_base trig_idx_base w
  end.

Definition sbi_dbtr_read_trig (trig_idx_base trig_count : Z) (w : dbtr_world) : option (Z * dbtr_world) :=
  match hs w with
  | None => Some (SBI_ERR_FAILED, w)
  | Some s =>
      if (total_trigs s <=? trig_idx_base) || (total_trigs s <=? u64 (trig_idx_base + trig_count)) then Some (SBI_ERR_PARAM, w)
      else if sbi_dbtr_shmem_disabled s then Some (SBI_ERR_NO_SHMEM, w)
      else w ← read_loop (Z.to_nat trig_count) 0 (hart_shmem_base s) trig_idx_base w; Some (SBI_OK, w)
  end.

(** The first pass: [inr idx] is an entry that is refused. *)
Fixpoint check_loop (n : nat) (idx shmem_base : Z) (w : dbtr_world) : option ((() + Z) * dbtr_world) :=
  match n with
  | O => Some (inl tt, w)
  | S n =>
      if 2 ^ 31 <=? idx then None
      else
        let a := shmem_base + 40 * idx in
        '(ctrl, w) ← with_mapped_entry a w (fun w => Some (word_at (db_mem w) a 1, w));
        if negb (dbtr_trigger_supported (TDATA1_GET_TYPE ctrl)) then Some (inr idx, w)
        else if negb (dbtr_trigger_valid (TDATA1_GET_TYPE ctrl) ctrl) then Some (inr idx, w)
        else check_loop n (idx + 1) shmem_base w
  end.

Fixpoint install_loop (n : nat) (idx shmem_base : Z) (w : dbtr_world) : option dbtr_world :=
  match n with
  | O => Some w
  | S n =>
      if 2 ^ 31 <=? idx then None
      else
        '(trig, w) ← sbi_alloc_trigger w;
        i ← trig;
        let a := shmem_base + 40 * idx in
        '(_, w) ← with_mapped_entry a w (fun w =>
          w ← dbtr_trigger_setup i a w;
          w ← dbtr_trigger_enable i w;
          t ← trig_at i w;
          Some (tt, put_mem (store_le (db_mem w) (a + 32) 8 (t_index t)) w));
        install_loop n (idx + 1) shmem_base w
  end.

(** [other_harts] is what other harts do to the memory between the passes. *)
Definition sbi_dbtr_install_trig (other_harts : mem -> mem) (trig_count : Z) (w : dbtr_world) : option (Z * option Z * dbtr_world) :=
  match hs w with
  | None => Some (SBI_ERR_FAILED, None, w)
  | Some s =>
      if sbi_dbtr_shmem_disabled s then Some (SBI_ERR_NO_SHMEM, None, w)
      else
        '(r, w) ← check_loop (Z.to_nat trig_count) 0 (hart_shmem_base s) w;
        match r with
        | inr idx => Some (SBI_ERR_FAILED, Some idx, w)
        | inl _ =>
            if available_trigs s <? trig_count then Some (SBI_ERR_FAILED, Some (available_trigs s), w)
            else
              w ← install_loop (Z.to_nat trig_count) 0 (hart_shmem_base s) (put_mem (other_harts (db_mem w)) w);
              Some (SBI_OK, None, w)
        end
  end.

End Calls.

(** [trig_idx_mask << trig_idx_base] is undefined from 64 on. *)
Definition trig_bits (trig_idx_base trig_idx_mask : Z) (s : sbi_dbtr_hart_triggers_state) : option (list Z) :=
  if 64 <=? trig_idx_base then None
  else for_each_set_bit_from trig_idx_base (u64 (Z.shiftl trig_idx_mask trig_idx_base)) (total_trigs s).

Fixpoint uninstall_loop (l : list Z) (w : dbtr_world) : option (Z * dbtr_world) :=
  match l with
  | [] => Some (SBI_OK, w)
  | idx :: l =>
      t ← trig_at idx w;
      if negb (is_mapped t) then Some (SBI_ERR_PARAM, w)
      else w ← dbtr_trigger_clear idx w; w ← sbi_free_trigger idx w; uninstall_loop l w
  end.

Definition sbi_dbtr_uninstall_trig (trig_idx_base trig_idx_mask : Z) (w : dbtr_world) : option (Z * dbtr_world) :=
  match hs w with
  | None => Some (SBI_ERR_FAILED, w)
  | Some s => l ← trig_bits trig_idx_base trig_idx_mask s; uninstall_loop l w
  end.

Fixpoint each_trigger (f : Z -> dbtr_world -> option dbtr_world) (l : list Z) (w : dbtr_world) : option dbtr_world :=
  match l with
  | [] => Some w
  | idx :: l => w ← f idx w; each_trigger f l w
  end.

Definition sbi_dbtr_enable_trig (trig_idx_base trig_idx_mask : Z) (w : dbtr_world) : option (Z * dbtr_world) :=
  match hs w with
  | None => Some (SBI_ERR_FAILED, w)
  | Some s => l ← trig_bits trig_idx_base trig_idx_mask s; w ← each_trigger dbtr_trigger_enable l w; Some (SBI_OK, w)
  end.

Fixpoint update_loop (l : list Z) (uidx shmem_base : Z) (w : dbtr_world) : option (Z * dbtr_world) :=
  match l with
  | [] => Some (SBI_OK, w)
  | idx :: l =>
      t ← trig_at idx w;
      if negb (is_mapped t) then Some (SBI_ERR_PARAM, w)
      else
        w ← put_trig idx (set_tdata2 (word_at (db_mem w) (shmem_base + 40 * uidx) 2) t) w;
        w ← dbtr_trigger_enable idx w;
        update_loop l (uidx + 1) shmem_base w
  end.

Definition sbi_dbtr_update_trig (trig_idx_base trig_idx_mask : Z) (w : dbtr_world) : option (Z * dbtr_world) :=
  match hs w with
  | None => Some (SBI_ERR_FAILED, w)
  | Some s =>
      if sbi_dbtr_shmem_disabled s then Some (SBI_ERR_NO_SHMEM, w)
      else l ← trig_bits trig_idx_base trig_idx_mask s; update_loop l 0 (hart_shmem_base s) w
  end.

Definition sbi_dbtr_disable_trig (trig_idx_base trig_idx_mask : Z) (w : dbtr_world) : option (Z * dbtr_world) :=
  match hs w with
  | None => Some (SBI_ERR_FAILED, w)
  | Some s => l ← trig_bits trig_idx_base trig_idx_mask s; w ← each_trigger dbtr_trigger_disable l w; Some (SBI_OK, w)
  end.

(** [value] is [out->value]. *)
Definition sbi_ecall_dbtr_handler (feat : sbi_hart_features) (bits : Z) (other_harts : mem -> mem) (dom : option sbi_domain)
    (assigned : bool) (smode funcid a0 a1 value : Z) (w : dbtr_world) : option (Z * Z * dbtr_world) :=
  let plain r := '(ret, w) ← r; Some (ret, value, w) in
  if funcid =? 0 then '(ret, out) ← sbi_dbtr_num_trig a0 w; Some (ret, default value out, w)
  else if funcid =? 1 then let '(ret, w) := sbi_dbtr_setup_shmem dom assigned smode a0 a1 w in Some (ret, value, w)
  else if funcid =? 2 then plain (sbi_dbtr_read_trig feat bits a0 a1 w)
  else if funcid =? 3 then '(ret, out, w) ← sbi_dbtr_install_trig feat bits other_harts a0 w; Some (ret, default value out, w)
  else if funcid =? 5 then plain (sbi_dbtr_uninstall_trig a0 a1 w)
  else if funcid =? 6 then plain (sbi_dbtr_enable_trig a0 a1 w)
  else if funcid =? 4 then plain (sbi_dbtr_update_trig a0 a1 w)
  else if funcid =? 7 then plain (sbi_dbtr_disable_trig a0 a1 w)
  else Some (SBI_ENOTSUPP, value, w).

(** ** Bits of a trigger *)

(** A value of [tdata1] the supervisor may have: of a supported type, neither
    matching in machine mode nor owned by the debugger. *)
Definition guest (t1 : Z) : Prop :=
  (TDATA1_GET_TYPE t1 = RISCV_DBTR_TRIG_MCONTROL \/ TDATA1_GET_TYPE t1 = RISCV_DBTR_TRIG_MCONTROL6) /\
  Z.testbit t1 MC_DMODE = false /\ Z.testbit t1 MC_M = false.

Lemma bit_of nr i : 0 <= nr -> Z.testbit (Z.shiftl 1 nr) i = (i =? nr).
Proof.
  intros Hb. rewrite Z.shiftl_1_l. destruct (Z_lt_le_dec i 0); [rewrite Z.testbit_neg_r by done; zcases; done || lia|].
  rewrite Z.pow2_bits_eqb by done. apply Z.eqb_sym.
Qed.

Lemma set_one_bit nr w i : 0 <= nr -> Z.testbit (set_one nr w) i = Z.testbit w i || (i =? nr).
Proof. intros. unfold set_one. by rewrite Z.lor_spec, bit_of. Qed.

Lemma clear_one_bits nr w i : 0 <= nr -> word_ok w -> Z.testbit (clear_one_bit nr w) i = Z.testbit w i && negb (i =? nr).
Proof.
  intros Hn Hw. unfold clear_one_bit. rewrite Z.land_spec, not64_bits, bit_of by done.
  destruct (Z_lt_le_dec i 0); [by rewrite !Z.testbit_neg_r by done|]. destruct (Z_lt_le_dec i 64).
  - zcases; cbn; rewrite ?andb_false_r; done || lia.
  - by rewrite (bits_above 64 w i) by done.
Qed.

Lemma word_ok_bits w w' : word_ok w -> (forall i, 64 <= i -> Z.testbit w' i = false) -> 0 <= w' -> word_ok w'.
Proof.
  intros _ Hb Hp. split; [done|]. apply Z.log2_lt_cancel. rewrite Z.log2_pow2 by lia.
  destruct (Z.eq_dec w' 0) as [-> |]; [done|]. destruct (Z_lt_le_dec (Z.log2 w') 64); [done|].
  pose proof (Z.bit_log2 w' ltac:(lia)). by rewrite Hb in H.
Qed.

Lemma set_one_ok nr w : 0 <= nr < 64 -> word_ok w -> word_ok (set_one nr w).
Proof.
  intros Hn Hw. apply (word_ok_bits w); [done| |].
  - intros i Hi. rewrite set_one_bit, (bits_above 64 w i) by (done || lia). cbn. apply Z.eqb_neq. lia.
  - unfold set_one. apply Z.lor_nonneg. split; [apply Hw|]. rewrite Z.shiftl_1_l. lia.
Qed.

Lemma clear_one_ok nr w : 0 <= nr -> word_ok w -> word_ok (clear_one_bit nr w).
Proof.
  intros Hn Hw. apply (word_ok_bits w); [done| |].
  - intros i Hi. by rewrite clear_one_bits, (bits_above 64 w i) by (done || lia).
  - unfold clear_one_bit. apply Z.land_nonneg. left. apply Hw.
Qed.

(** Values made by setting the bits of a list, which has each bit once. *)
Lemma foldl_update (f : Z -> bool) l v : Forall (fun p : Z * Z => 0 <= p.2 < 64) l -> NoDup l.*2 -> word_ok v ->
  let r := foldl (fun v '(ts, mc) => update_bit (f ts) mc v) v l in
  word_ok r /\ (forall ts mc, (ts, mc) ∈ l -> Z.testbit r mc = f ts) /\ (forall i, i ∉ l.*2 -> Z.testbit r i = Z.testbit v i).
Proof.
  intros Hl. revert v. induction Hl as [|[ts mc] l Hmc Hl IH]; intros v Hnd Hv; cbn [foldl fst snd] in *.
  { split_and!; try done. intros ts mc Hin. by apply elem_of_nil in Hin. }
  rewrite fmap_cons in Hnd. apply NoDup_cons in Hnd as [Hni Hnd]. cbn [snd] in Hni.
  assert (word_ok (update_bit (f ts) mc v)) as Hv1 by (unfold update_bit; destruct (f ts); [by apply set_one_ok|apply clear_one_ok; [lia|done]]).
  assert (forall i, Z.testbit (update_bit (f ts) mc v) i = if i =? mc then f ts else Z.testbit v i) as Hb.
  { intros i. unfold update_bit. destruct (f ts); rewrite ?set_one_bit, ?clear_one_bits by (done || lia);
      destruct (i =? mc); rewrite ?orb_true_r, ?orb_false_r, ?andb_true_r, ?andb_false_r; done. }
  destruct (IH _ Hnd Hv1) as (H1 & H2 & H3). split; [done|]. split.
  - intros ts' mc' Hin. apply elem_of_cons in Hin as [[= -> ->]|Hin]; [|by apply H2]. rewrite H3, Hb, Z.eqb_refl by done. done.
  - intros i Hi. rewrite fmap_cons, not_elem_of_cons in Hi. destruct Hi as [Hi1 Hi2]. cbn [snd] in Hi1.
    rewrite H3, Hb by done. by rewrite (proj2 (Z.eqb_neq _ _)).
Qed.

Lemma mode_bits_ok t1 : Forall (fun p : Z * Z => 0 <= p.2 < 64) (mode_bits t1) /\ NoDup (mode_bits t1).*2 /\ NoDup (mode_bits t1).*1 /\
  Forall (fun p : Z * Z => 0 < p.1 < 5) (mode_bits t1) /\
  (forall i, i = MC_M \/ MC_DMODE <= i -> i ∉ (mode_bits t1).*2).
Proof.
  unfold mode_bits, MC_M, MC_DMODE. destruct (_ =? _); [|destruct (_ =? _)]; cbn;
    (split; [repeat constructor; unfold MC_U, MC_S, MC6_VU, MC6_VS; cbn; lia|]);
    (split; [apply (bool_decide_unpack _); by vm_compute|]); (split; [apply (bool_decide_unpack _); by vm_compute|]);
    (split; [repeat constructor; unfold TS_U, TS_S, TS_VU, TS_VS; cbn; lia|]);
    intros i Hi; rewrite ?elem_of_cons, elem_of_nil; unfold MC_U, MC_S, MC6_VU, MC6_VS; lia.
Qed.

Lemma type_bits t1 : TDATA1_GET_TYPE t1 = Z.land (Z.shiftr t1 60) 15.
Proof.
  unfold TDATA1_GET_TYPE. rewrite <- Z.shiftr_div_pow2 by lia. rewrite Z.shiftr_land. f_equal.
Qed.

Lemma type_ext t1 t1' : (forall i, 60 <= i -> Z.testbit t1 i = Z.testbit t1' i) -> TDATA1_GET_TYPE t1 = TDATA1_GET_TYPE t1'.
Proof.
  intros H. rewrite !type_bits. apply Z.bits_inj'. intros i Hi. rewrite !Z.land_spec, !Z.shiftr_spec by done. rewrite H by lia. done.
Qed.

(** [tdata1] of an enabled trigger with the state [st], and of a disabled one. *)
Definition enabled (st t1 : Z) : Z := foldl (fun v '(ts, mc) => update_bit (Z.testbit st ts) mc v) t1 (mode_bits t1).
Definition disabled (t1 : Z) : Z := foldl (fun v '(_, mc) => clear_one_bit mc v) t1 (mode_bits t1).

Lemma disabled_update t1 : disabled t1 = foldl (fun v '(ts, mc) => update_bit ((fun _ => false) ts) mc v) t1 (mode_bits t1).
Proof. done. Qed.

(** Both change the mode bits only. *)
Lemma modes_only (f : Z -> bool) t1 : word_ok t1 ->
  let r := foldl (fun v '(ts, mc) => update_bit (f ts) mc v) t1 (mode_bits t1) in
  word_ok r /\ mode_bits r = mode_bits t1 /\ (guest t1 -> guest r) /\
  (forall ts mc, (ts, mc) ∈ mode_bits t1 -> Z.testbit r mc = f ts) /\ (forall i, i ∉ (mode_bits t1).*2 -> Z.testbit r i = Z.testbit t1 i).
Proof.
  intros Hw. destruct (mode_bits_ok t1) as (H1 & H2 & _ & _ & H3).
  destruct (foldl_update f (mode_bits t1) t1 H1 H2 Hw) as (Ha & Hb & Hc). set (r := foldl _ _ _) in *.
  assert (TDATA1_GET_TYPE r = TDATA1_GET_TYPE t1) as Et.
  { apply type_ext. intros i Hi. apply Hc, H3. right. unfold MC_DMODE. lia. }
  split_and!; try done.
  - unfold mode_bits. by rewrite Et.
  - intros (Hg1 & Hg2 & Hg3). unfold guest. rewrite Et, !Hc by (apply H3; unfold MC_M, MC_DMODE; lia). done.
Qed.

Lemma word_ext (l : list (Z * Z)) a b : (forall ts mc, (ts, mc) ∈ l -> Z.testbit a mc = Z.testbit b mc) ->
  (forall i, i ∉ l.*2 -> Z.testbit a i = Z.testbit b i) -> a = b.
Proof.
  intros H1 H2. apply Z.bits_inj'. intros i _. destruct (decide (i ∈ l.*2)) as [Hi|Hi]; [|by apply H2].
  apply list_elem_of_fmap in Hi as ([ts mc] & -> & Hin). by apply (H1 ts).
Qed.

(** Enabling a disabled trigger gives what enabling it at once gives. *)
Lemma enabled_disabled st t1 : word_ok t1 -> enabled st (disabled t1) = enabled st t1.
Proof.
  intros Hw. destruct (modes_only (fun _ => false) t1 Hw) as (Hw1 & Hm1 & _ & _ & Ho1). rewrite <- disabled_update in Hw1, Hm1, Ho1.
  destruct (modes_only (Z.testbit st) (disabled t1) Hw1) as (_ & _ & _ & Hb2 & Ho2).
  destruct (modes_only (Z.testbit st) t1 Hw) as (_ & _ & _ & Hb3 & Ho3). unfold enabled. apply (word_ext (mode_bits t1)).
  - intros ts mc Hin. rewrite (Hb2 ts mc), (Hb3 ts mc) by (by rewrite ?Hm1). done.
  - intros i Hi. rewrite Ho2, Ho3, Ho1 by (by rewrite ?Hm1). done.
Qed.

(** The state of an installed trigger. *)
Definition setup_state (idx t1 : Z) : Z :=
  foldl (fun st '(ts, mc) => if Z.testbit t1 mc then set_one ts st else st) (SET_TRIG_HW_INDEX (set_one TS_MAPPED 0) idx) (mode_bits t1).

Lemma foldl_set (l : list (Z * Z)) t1 v : Forall (fun p : Z * Z => 0 < p.1 < 5) l -> NoDup l.*1 ->
  let r := foldl (fun st '(ts, mc) => if Z.testbit t1 mc then set_one ts st else st) v l in
  (forall ts mc, (ts, mc) ∈ l -> Z.testbit r ts = Z.testbit v ts || Z.testbit t1 mc) /\ (forall i, i ∉ l.*1 -> Z.testbit r i = Z.testbit v i).
Proof.
  intros Hl. revert v. induction Hl as [|[ts mc] l Hts Hl IH]; intros v Hnd; cbn [foldl fst] in *.
  { split; [|done]. intros ts mc Hin. by apply elem_of_nil in Hin. }
  rewrite fmap_cons in Hnd. apply NoDup_cons in Hnd as [Hni Hnd]. cbn [fst] in Hni. set (v1 := if Z.testbit t1 mc then set_one ts v else v).
  assert (forall i, Z.testbit v1 i = Z.testbit v i || (i =? ts) && Z.testbit t1 mc) as Hb.
  { intros i. unfold v1. destruct (Z.testbit t1 mc); [rewrite set_one_bit by lia; by rewrite andb_true_r|by rewrite andb_false_r, orb_false_r]. }
  destruct (IH v1 Hnd) as (H2 & H3). split.
  - intros ts' mc' Hin. apply elem_of_cons in Hin as [[= -> ->]|Hin]; [by rewrite H3, Hb, Z.eqb_refl by done|].
    rewrite (H2 ts' mc' Hin), Hb. assert (ts' <> ts) as Hn%Z.eqb_neq; [|by rewrite Hn, orb_false_r].
    intros ->. apply Hni, list_elem_of_fmap. by exists (ts, mc').
  - intros i Hi. rewrite fmap_cons, not_elem_of_cons in Hi. destruct Hi as [Hi1 Hi2]. cbn [fst] in Hi1.
    rewrite H3, Hb by done. by rewrite (proj2 (Z.eqb_neq _ _) Hi1), orb_false_r.
Qed.

(** The first word of a state: mapped, and no mode. *)
Lemma hw_index_low idx i : 0 <= i < 8 -> Z.testbit (SET_TRIG_HW_INDEX (set_one TS_MAPPED 0) idx) i = (i =? 0).
Proof.
  intros Hi. unfold SET_TRIG_HW_INDEX, TS_HW_IDX. rewrite Z.lor_spec, !Z.land_spec, not64_bits, (Z.shiftl_spec_low (2 ^ 55 - 1)) by lia.
  rewrite andb_false_r, orb_false_r. cbn [negb]. change (set_one TS_MAPPED 0) with 1. destruct (Z.eqb_spec i 0) as [-> |]; [done|].
  rewrite (bits_above 1 1 i) by lia. done.
Qed.

Lemma setup_state_spec idx t1 : Z.testbit (setup_state idx t1) TS_MAPPED = true /\ (word_ok t1 -> enabled (setup_state idx t1) t1 = t1).
Proof.
  destruct (mode_bits_ok t1) as (_ & _ & Hnd & Hts & _).
  destruct (foldl_set (mode_bits t1) t1 (SET_TRIG_HW_INDEX (set_one TS_MAPPED 0) idx) Hts Hnd) as (H1 & H2). fold (setup_state idx t1) in H1, H2.
  assert (forall ts mc, (ts, mc) ∈ mode_bits t1 -> 0 < ts < 5) as Hr.
  { intros ts mc Hin. rewrite List.Forall_forall in Hts. by apply (Hts (ts, mc)), list_elem_of_In. }
  split.
  - rewrite H2; [by rewrite hw_index_low|]. intros Hi. apply list_elem_of_fmap in Hi as ([ts mc] & E & Hin). apply Hr in Hin. cbn in E. unfold TS_MAPPED in E. lia.
  - intros Hw. destruct (modes_only (Z.testbit (setup_state idx t1)) t1 Hw) as (_ & _ & _ & Hb & Ho). apply (word_ext (mode_bits t1)).
    + intros ts mc Hin. unfold enabled. rewrite (Hb ts mc Hin), (H1 ts mc Hin). pose proof (Hr ts mc Hin). rewrite hw_index_low by lia.
      rewrite (proj2 (Z.eqb_neq ts 0)) by lia. done.
    + intros i Hi. by apply Ho.
Qed.

(** ** The invariant of a hart *)

Definition free_count (l : list sbi_dbtr_trigger) : Z := Z.of_nat (length (filter (fun t => is_mapped t = false) l)).

Lemma free_count_cons t l : free_count (t :: l) = Z.b2z (negb (is_mapped t)) + free_count l.
Proof. unfold free_count. rewrite filter_cons. destruct (decide _) as [E|E]; destruct (is_mapped t); try done; cbn [length negb Z.b2z]; lia. Qed.

Lemma free_count_insert l i t t' : l !! i = Some t ->
  free_count (<[i := t']> l) = free_count l + Z.b2z (is_mapped t) - Z.b2z (is_mapped t').
Proof.
  revert i. induction l as [|x l IH]; intros [|i] Hi; try done.
  - injection Hi as ->. change (<[0%nat := t']> (t :: l)) with (t' :: l). rewrite !free_count_cons. destruct (is_mapped t), (is_mapped t'); cbn; lia.
  - change (<[S i := t']> (x :: l)) with (x :: <[i := t']> l). rewrite !free_count_cons, (IH i Hi). lia.
Qed.

Lemma free_count_bounds l : 0 <= free_count l <= Z.of_nat (length l).
Proof. unfold free_count. pose proof (length_filter (fun t => is_mapped t = false) l). lia. Qed.

(** The hardware has values the firmware did not write ([h0]) or harmless ones. *)
Definition harmless (h0 h : gmap Z Z) : Prop := forall i, h !! i = h0 !! i \/ exists v, h !! i = Some v /\ (v = 0 \/ guest v).

Record trigger_ok (h : gmap Z Z) (i : Z) (t : sbi_dbtr_trigger) : Prop := {
  tr_index : t_index t = i;
  tr_mapped : is_mapped t = true -> word_ok (tdata1 t) /\ guest (tdata1 t) /\ h !! i = Some (tdata1 t) }.

Record dbtr_ok (h0 : gmap Z Z) (s : sbi_dbtr_hart_triggers_state) (h : gmap Z Z) : Prop := {
  ok_length : length (triggers s) = 32%nat;
  ok_total : 0 <= total_trigs s <= 32;
  ok_available : available_trigs s = free_count (take (Z.to_nat (total_trigs s)) (triggers s));
  ok_trigger i t : 0 <= i < total_trigs s -> triggers s !! Z.to_nat i = Some t -> trigger_ok h i t;
  ok_hw : harmless h0 h }.

Definition world_ok (h0 : gmap Z Z) (w : dbtr_world) : Prop :=
  mem_ok (db_mem w) /\ exists s, hs w = Some s /\ dbtr_ok h0 s (hw_tdata1 (db_hw w)).

Lemma trigger_in h0 s h i : dbtr_ok h0 s h -> 0 <= i < total_trigs s -> exists t, triggers s !! Z.to_nat i = Some t /\ trigger_ok h i t.
Proof.
  intros Hok Hi. destruct (lookup_lt_is_Some_2 (triggers s) (Z.to_nat i)) as [t Ht].
  - rewrite (ok_length _ _ _ Hok). pose proof (ok_total _ _ _ Hok). lia.
  - exists t. split; [done|]. by apply (ok_trigger _ _ _ Hok).
Qed.

Lemma take_insert_lt' (l : list sbi_dbtr_trigger) n i t : (i < n)%nat -> take n (<[i := t]> l) = <[i := t]> (take n l).
Proof. revert n i. induction l as [|x l IH]; intros [|n] [|i] Hi; cbn; try done; try lia. rewrite <- IH by lia. done. Qed.

(** Changing one trigger and its registers. *)
Lemma dbtr_ok_update h0 s h i t t' av h' :
  dbtr_ok h0 s h -> 0 <= i < total_trigs s -> triggers s !! Z.to_nat i = Some t -> trigger_ok h' i t' ->
  (forall j, j <> i -> h' !! j = h !! j) -> (h' !! i = h !! i \/ exists v, h' !! i = Some v /\ (v = 0 \/ guest v)) ->
  av = available_trigs s + Z.b2z (is_mapped t) - Z.b2z (is_mapped t') ->
  dbtr_ok h0 (set_counts (total_trigs s) av (set_triggers (<[Z.to_nat i := t']> (triggers s)) s)) h'.
Proof.
  intros Hok Hi Ht Ht' Hsame Hhw ->. pose proof Hok as [Hl Htot Hav Htr Hh]. split; cbn [triggers total_trigs available_trigs set_counts set_triggers].
  - by rewrite length_insert.
  - done.
  - rewrite take_insert_lt', (free_count_insert _ _ t), Hav; [done| |lia]. rewrite lookup_take_lt; [done|lia].
  - intros j u Hj. destruct (Z.eq_dec j i) as [-> |Hn].
    + rewrite list_lookup_insert_eq by lia. by intros [= <-].
    + rewrite list_lookup_insert_ne by lia. intros Hu. destruct (Htr j u Hj Hu) as [Hix Hm]. split; [done|].
      intros Hmap. rewrite Hsame by done. by apply Hm.
  - intros j. destruct (Z.eq_dec j i) as [-> |Hn]; [|rewrite Hsame by done; apply Hh].
    destruct Hhw as [-> |Hv]; [apply Hh|by right].
Qed.

Lemma trig_at_in w s i : hs w = Some s -> trig_at i w = triggers s !! Z.to_nat i.
Proof. intros E. unfold trig_at. by rewrite E, some_bind. Qed.

Lemma put_trig_in w s i t : hs w = Some s -> put_trig i t w = Some (put_hs (set_triggers (<[Z.to_nat i := t]> (triggers s)) s) w).
Proof. intros E. unfold put_trig. by rewrite E, some_bind. Qed.

(** ** What the operations on one trigger do *)

Section OneTrigger.
Variables (w : dbtr_world) (s : sbi_dbtr_hart_triggers_state) (i : Z) (t : sbi_dbtr_trigger).
Hypotheses (Es : hs w = Some s) (Et : triggers s !! Z.to_nat i = Some t).

(** The world after trigger [i] became [t'] and its registers [v1], and [v2] if given. *)
Definition programmed (t' : sbi_dbtr_trigger) (v1 : Z) (v2 : option Z) : dbtr_world :=
  mkDb (Some (set_triggers (<[Z.to_nat i := t']> (triggers s)) s)) (db_mem w) (db_pmp w)
    (mkTr i (<[i := v1]> (hw_tdata1 (db_hw w))) (match v2 with Some v => <[i := v]> (hw_tdata2 (db_hw w)) | None => hw_tdata2 (db_hw w) end)).

Lemma enable_eq : is_mapped t = true -> t_index t = i ->
  dbtr_trigger_enable i w = Some (programmed (set_tdata1 (enabled (t_state t) (tdata1 t)) t) (enabled (t_state t) (tdata1 t)) (Some (tdata2 t))).
Proof.
  intros Hm Hi. unfold dbtr_trigger_enable. rewrite (trig_at_in w s), Et, some_bind, Hm by done. cbn [negb].
  fold (enabled (t_state t) (tdata1 t)). rewrite (put_trig_in w s), some_bind, Hi by done.
  unfold csr_write_tdata1, csr_write_tdata2, csr_write_tselect, programmed, put_hw, put_hs. cbn. by rewrite insert_insert_eq.
Qed.

Lemma disable_eq : is_mapped t = true -> t_index t = i ->
  dbtr_trigger_disable i w = Some (programmed (set_tdata1 (disabled (tdata1 t)) t) (disabled (tdata1 t)) None).
Proof.
  intros Hm Hi. unfold dbtr_trigger_disable. rewrite (trig_at_in w s), Et, some_bind, Hm by done. cbn [negb].
  fold (disabled (tdata1 t)). by rewrite (put_trig_in w s), some_bind, Hi by done.
Qed.

(** Clearing and freeing. *)
Lemma release_eq : is_mapped t = true -> t_index t = i ->
  (w1 ← dbtr_trigger_clear i w; sbi_free_trigger i w1)
  = Some (mkDb (Some (set_counts (total_trigs s) (u32 (available_trigs s + 1))
                       (set_triggers (<[Z.to_nat i := mkTrig i (type_mask t) 0 0 0 0]> (triggers s)) s)))
            (db_mem w) (db_pmp w) (mkTr i (<[i := 0]> (hw_tdata1 (db_hw w))) (<[i := 0]> (hw_tdata2 (db_hw w))))).
Proof.
  intros Hm Hi. unfold dbtr_trigger_clear. rewrite (trig_at_in w s), Et, some_bind, Hm by done. cbn [negb].
  unfold sbi_free_trigger. rewrite some_bind, (trig_at_in _ s), Et, some_bind by done. rewrite (put_trig_in _ s), some_bind by done.
  by rewrite Hi.
Qed.

Lemma skip_unmapped : is_mapped t = false -> dbtr_trigger_enable i w = Some w /\ dbtr_trigger_disable i w = Some w.
Proof.
  intros Hm. unfold dbtr_trigger_enable, dbtr_trigger_disable. rewrite (trig_at_in w s), Et, !some_bind, Hm by done. done.
Qed.

End OneTrigger.

(** ** Calls on installed triggers *)

Section Installed.
Variable h0 : gmap Z Z.

(** The world is as it was but for the triggers. *)
Definition same_frame (w w' : dbtr_world) : Prop :=
  db_mem w' = db_mem w /\ db_pmp w' = db_pmp w /\
  forall s, hs w = Some s -> exists s', hs w' = Some s' /\ total_trigs s' = total_trigs s /\ phys_lo s' = phys_lo s /\ phys_hi s' = phys_hi s.

Lemma same_frame_refl w : same_frame w w.
Proof. split_and!; try done. intros s E. by exists s. Qed.

Lemma same_frame_trans w1 w2 w3 : same_frame w1 w2 -> same_frame w2 w3 -> same_frame w1 w3.
Proof.
  intros (A1 & B1 & C1) (A2 & B2 & C2). split_and!; try congruence. intros s E.
  destruct (C1 s E) as (s1 & E1 & ? & ? & ?). destruct (C2 s1 E1) as (s2 & E2 & ? & ? & ?). exists s2. split_and!; congruence.
Qed.

(** Reprogramming a mapped trigger with a value the supervisor may have. *)
Lemma programmed_ok w s i t t' v2 : world_ok h0 w -> hs w = Some s -> 0 <= i < total_trigs s -> triggers s !! Z.to_nat i = Some t ->
  is_mapped t = is_mapped t' -> t_index t' = i -> word_ok (tdata1 t') -> guest (tdata1 t') ->
  world_ok h0 (programmed w s i t' (tdata1 t') v2) /\ same_frame w (programmed w s i t' (tdata1 t') v2).
Proof.
  intros [Hm (s0 & E0 & Hok)] Es Hi Ht Hmap Hix Hw Hg. rewrite Es in E0. injection E0 as <-. split.
  - split; [done|]. eexists. split; [reflexivity|]. unfold programmed. cbn [db_hw hw_tdata1].
    apply (dbtr_ok_update h0 s (hw_tdata1 (db_hw w)) i t t' (available_trigs s) (<[i := tdata1 t']> (hw_tdata1 (db_hw w)))) in Hok as Hok'.
    + exact Hok'.
    + done.
    + done.
    + split; [done|]. intros _. by rewrite lookup_insert_eq.
    + intros j Hj. by rewrite lookup_insert_ne.
    + right. exists (tdata1 t'). rewrite lookup_insert_eq. auto.
    + rewrite Hmap. lia.
  - split_and!; try done. intros s1 E1. rewrite Es in E1. injection E1 as <-. by eexists.
Qed.

Lemma enable_ok w s i : world_ok h0 w -> hs w = Some s -> 0 <= i < total_trigs s ->
  exists w', dbtr_trigger_enable i w = Some w' /\ world_ok h0 w' /\ same_frame w w'.
Proof.
  intros Hw Es Hi. pose proof Hw as [_ (s0 & E0 & Hok)]. rewrite Es in E0. injection E0 as <-.
  destruct (trigger_in _ _ _ _ Hok Hi) as (t & Et & [Hix Hm]). destruct (is_mapped t) eqn:Em.
  - destruct (Hm eq_refl) as (H1 & H2 & H3). destruct (modes_only (Z.testbit (t_state t)) (tdata1 t) H1) as (A & _ & B & _).
    fold (enabled (t_state t) (tdata1 t)) in A, B. rewrite (enable_eq w s i t Es Et Em Hix). eexists. split; [reflexivity|].
    by apply (programmed_ok w s i t); try (by apply B).
  - rewrite (proj1 (skip_unmapped w s i t Es Et Em)). exists w. split_and!; try done. apply same_frame_refl.
Qed.

Lemma disable_ok w s i : world_ok h0 w -> hs w = Some s -> 0 <= i < total_trigs s ->
  exists w', dbtr_trigger_disable i w = Some w' /\ world_ok h0 w' /\ same_frame w w'.
Proof.
  intros Hw Es Hi. pose proof Hw as [_ (s0 & E0 & Hok)]. rewrite Es in E0. injection E0 as <-.
  destruct (trigger_in _ _ _ _ Hok Hi) as (t & Et & [Hix Hm]). destruct (is_mapped t) eqn:Em.
  - destruct (Hm eq_refl) as (H1 & H2 & H3). destruct (modes_only (fun _ => false) (tdata1 t) H1) as (A & _ & B & _).
    rewrite <- disabled_update in A, B. rewrite (disable_eq w s i t Es Et Em Hix). eexists. split; [reflexivity|].
    by apply (programmed_ok w s i t); try (by apply B).
  - rewrite (proj2 (skip_unmapped w s i t Es Et Em)). exists w. split_and!; try done. apply same_frame_refl.
Qed.

Lemma each_trigger_ok f l w s : (forall w s i, world_ok h0 w -> hs w = Some s -> 0 <= i < total_trigs s ->
    exists w', f i w = Some w' /\ world_ok h0 w' /\ same_frame w w') ->
  world_ok h0 w -> hs w = Some s -> Forall (fun i => 0 <= i < total_trigs s) l ->
  exists w', each_trigger f l w = Some w' /\ world_ok h0 w' /\ same_frame w w'.
Proof.
  intros Hf. revert w s. induction l as [|i l IH]; intros w s Hw Es Hl; cbn [each_trigger]; [by exists w; split_and!; try apply same_frame_refl|].
  apply Forall_cons in Hl as [Hi Hl]. destruct (Hf w s i Hw Es Hi) as (w1 & -> & Hw1 & Hs1). rewrite some_bind.
  destruct (proj2 (proj2 Hs1) s Es) as (s1 & E1 & Et1 & _). destruct (IH w1 s1 Hw1 E1) as (w2 & -> & Hw2 & Hs2); [by rewrite Et1|].
  exists w2. split_and!; try done. by eapply same_frame_trans.
Qed.

Lemma update_loop_ok l w s uidx base : world_ok h0 w -> hs w = Some s -> Forall (fun i => 0 <= i < total_trigs s) l ->
  exists ret w', update_loop l uidx base w = Some (ret, w') /\ world_ok h0 w' /\ same_frame w w'.
Proof.
  revert w s uidx. induction l as [|i l IH]; intros w s uidx Hw Es Hl; cbn [update_loop].
  { eexists _, w. split_and!; try done. apply same_frame_refl. }
  apply Forall_cons in Hl as [Hi Hl]. pose proof Hw as [Hmem (s0 & E0 & Hok)]. rewrite Es in E0. injection E0 as <-.
  destruct (trigger_in _ _ _ _ Hok Hi) as (t & Et & [Hix Hm]). rewrite (trig_at_in w s), Et, some_bind by done.
  destruct (is_mapped t) eqn:Em; cbn [negb]; [|eexists _, w; split_and!; try done; apply same_frame_refl].
  rewrite (put_trig_in w s), some_bind by done. set (t1 := set_tdata2 _ t). set (w1 := put_hs _ w).
  assert (world_ok h0 w1 /\ same_frame w w1) as [Hw1 Hs1].
  { split; [|split_and!; try done; intros s1 E1; rewrite Es in E1; injection E1 as <-; by eexists]. split; [done|].
    eexists. split; [reflexivity|].
    apply (dbtr_ok_update h0 s (hw_tdata1 (db_hw w)) i t t1 (available_trigs s) (hw_tdata1 (db_hw w))) in Hok as Hok'; [exact Hok'|done|done|..].
    - split; [exact Hix|]. intros _. exact (Hm eq_refl).
    - done.
    - by left.
    - change (is_mapped t1) with (is_mapped t). lia. }
  destruct (proj2 (proj2 Hs1) s Es) as (s1 & E1 & Et1 & _).
  destruct (enable_ok w1 s1 i Hw1 E1) as (w2 & -> & Hw2 & Hs2); [by rewrite Et1|]. rewrite some_bind.
  destruct (proj2 (proj2 Hs2) s1 E1) as (s2 & E2 & Et2 & _).
  destruct (IH w2 s2 (uidx + 1) Hw2 E2) as (ret & w3 & -> & Hw3 & Hs3); [by rewrite Et2, Et1|].
  exists ret, w3. split_and!; try done. eapply same_frame_trans; [done|]. by eapply same_frame_trans.
Qed.

Lemma uninstall_loop_ok l w s : world_ok h0 w -> hs w = Some s -> Forall (fun i => 0 <= i < total_trigs s) l ->
  exists ret w', uninstall_loop l w = Some (ret, w') /\ world_ok h0 w' /\ same_frame w w'.
Proof.
  revert w s. induction l as [|i l IH]; intros w s Hw Es Hl; cbn [uninstall_loop].
  { eexists _, w. split_and!; try done. apply same_frame_refl. }
  apply Forall_cons in Hl as [Hi Hl]. pose proof Hw as [Hmem (s0 & E0 & Hok)]. rewrite Es in E0. injection E0 as <-.
  destruct (trigger_in _ _ _ _ Hok Hi) as (t & Et & [Hix Hm]). rewrite (trig_at_in w s), Et, some_bind by done.
  destruct (is_mapped t) eqn:Em; cbn [negb]; [|eexists _, w; split_and!; try done; apply same_frame_refl].
  pose proof (release_eq w s i t Es Et Em Hix) as Hrel. destruct (dbtr_trigger_clear i w) as [w0|]; [|done].
  cbn [mbind option_bind] in Hrel |- *. rewrite Hrel. cbn [mbind option_bind]. set (w1 := mkDb _ _ _ _).
  assert (u32 (available_trigs s + 1) = available_trigs s + 1) as Eav.
  { apply wrap_small. rewrite (ok_available _ _ _ Hok). pose proof (free_count_bounds (take (Z.to_nat (total_trigs s)) (triggers s))) as Hb.
    rewrite length_take, (ok_length _ _ _ Hok) in Hb. lia. }
  assert (world_ok h0 w1 /\ same_frame w w1) as [Hw1 Hs1].
  { split; [|split_and!; try done; intros s1 E1; rewrite Es in E1; injection E1 as <-; by eexists]. split; [done|].
    eexists. split; [reflexivity|]. cbn [w1 db_hw hw_tdata1].
    apply (dbtr_ok_update h0 s (hw_tdata1 (db_hw w)) i t (mkTrig i (type_mask t) 0 0 0 0)); try done.
    - intros j Hj. by rewrite lookup_insert_ne.
    - right. exists 0. rewrite lookup_insert_eq. auto.
    - rewrite Em, Eav. cbn. lia. }
  destruct (IH w1 _ Hw1 eq_refl Hl) as (ret & w2 & -> & Hw2 & Hs2). exists ret, w2. split_and!; try done. by eapply same_frame_trans.
Qed.

Lemma trig_bits_ok s base mask : 0 <= base < 64 -> 0 <= total_trigs s <= 32 ->
  exists l, trig_bits base mask s = Some l /\ Forall (fun i => 0 <= i < total_trigs s) l.
Proof.
  intros Hb Ht. unfold trig_bits. rewrite (proj2 (Z.leb_gt 64 base)) by lia. rewrite each_from_spec; [|by apply wrap_range|lia|lia].
  eexists. split; [reflexivity|]. apply List.Forall_forall. intros i Hi%list_elem_of_In. apply list_elem_of_filter in Hi as [_ Hi].
  apply elem_of_seqZ in Hi. lia.
Qed.

End Installed.

(** ** Entries in shared memory *)

Lemma word_range m a k : mem_ok m -> word_ok (word_at m a k).
Proof. intros H. exact (load_le_range m (a + 8 * k) 8 H). Qed.

Section Entries.
Variables (feat : sbi_hart_features) (bits : Z) (h0 : gmap Z Z).

(** An entry is accessed in a window of the PMP that is closed afterwards. *)
Lemma with_mapped_entry_eq {A} a w (k : dbtr_world -> option (A * dbtr_world)) x w' :
  (forall p, k (put_pmp p w) = Some (x, put_pmp p w')) -> exists p, with_mapped_entry feat bits a w k = Some (x, put_pmp p w').
Proof.
  intros Hk. unfold with_mapped_entry. destruct (map_saddr_total bits feat a 40 (db_pmp w)) as ([rc p] & ->). rewrite some_bind.
  cbv beta iota. rewrite Hk, some_bind. cbv beta iota. destruct (sbi_hart_unmap_saddr bits feat _) as [rc' p']. by exists p'.
Qed.

(** Reading triggers changes memory only. *)
Lemma read_loop_ok n idx base tb w s : world_ok h0 w -> hs w = Some s -> 0 <= idx -> 0 <= tb -> idx + Z.of_nat n + tb <= total_trigs s ->
  exists w', read_loop feat bits n idx base tb w = Some w' /\ world_ok h0 w' /\ hs w' = hs w /\ db_hw w' = db_hw w.
Proof.
  revert idx w. induction n as [|n IH]; intros idx w Hw Es Hi Ht Hn; cbn [read_loop]; [by exists w|].
  pose proof Hw as [Hm (s0 & E0 & Hok)]. rewrite Es in E0. injection E0 as <-. pose proof (ok_total _ _ _ Hok) as Htot.
  rewrite (proj2 (Z.leb_gt (2 ^ 31) idx)) by lia. assert (u64 (idx + tb) = idx + tb) as -> by (apply wrap_small; lia).
  destruct (trigger_in h0 s _ (idx + tb) Hok ltac:(lia)) as (t & Et & _).
  set (a := base + 40 * idx). set (m1 := store_le (store_le (store_le (store_le (db_mem w) a 8 (t_state t)) (a + 8) 8 (tdata1 t)) (a + 16) 8 (tdata2 t)) (a + 24) 8 (tdata3 t)).
  edestruct (with_mapped_entry_eq a w (fun w0 => t ← trig_at (idx + tb) w0;
      Some (tt, put_mem (store_le (store_le (store_le (store_le (db_mem w0) a 8 (t_state t)) (a + 8) 8 (tdata1 t)) (a + 16) 8 (tdata2 t)) (a + 24) 8 (tdata3 t)) w0))
      tt (put_mem m1 w)) as [p Hp].
  { intros p. unfold trig_at. cbn [hs put_pmp]. by rewrite Es, some_bind, Et, some_bind. }
  cbv zeta. rewrite Hp, some_bind. cbv beta iota.
  destruct (IH (idx + 1) (put_pmp p (put_mem m1 w))) as (w' & -> & Hw' & E1 & E2); [|done|lia|done|lia|].
  - split; [by repeat apply store_le_ok|]. by exists s.
  - by exists w'.
Qed.

Definition entry_tdata1 (m : mem) (base k : Z) : Z := word_at m (base + 40 * k) 1.

Lemma valid_guest t1 : dbtr_trigger_supported (TDATA1_GET_TYPE t1) = true -> dbtr_trigger_valid (TDATA1_GET_TYPE t1) t1 = true -> guest t1.
Proof.
  unfold dbtr_trigger_valid, guest. intros Hs. rewrite Hs. cbn [andb]. intros [Hd%negb_true_iff Hm%negb_true_iff]%andb_true_iff.
  split; [|done]. unfold dbtr_trigger_supported in Hs. apply orb_true_iff in Hs as [->%Z.eqb_eq | ->%Z.eqb_eq]; auto.
Qed.

Lemma guest_valid t1 : guest t1 -> dbtr_trigger_supported (TDATA1_GET_TYPE t1) = true /\ dbtr_trigger_valid (TDATA1_GET_TYPE t1) t1 = true.
Proof.
  intros ([E|E] & Hd & Hm); unfold dbtr_trigger_valid, dbtr_trigger_supported; rewrite E, Hd, Hm; done.
Qed.

(** The first pass finds the first entry the supervisor may not have. *)
Lemma check_loop_spec n idx base w : 0 <= idx -> idx + Z.of_nat n <= 2 ^ 31 ->
  exists r p, check_loop feat bits n idx base w = Some (r, put_pmp p w) /\
    match r with
    | inl _ => forall k, idx <= k < idx + Z.of_nat n -> guest (entry_tdata1 (db_mem w) base k)
    | inr j => idx <= j < idx + Z.of_nat n /\ ~ guest (entry_tdata1 (db_mem w) base j) /\
        forall k, idx <= k < j -> guest (entry_tdata1 (db_mem w) base k)
    end.
Proof.
  revert idx w. induction n as [|n IH]; intros idx w Hi Hn; cbn [check_loop].
  { exists (inl tt), (db_pmp w). split; [by destruct w|lia]. }
  rewrite (proj2 (Z.leb_gt (2 ^ 31) idx)) by lia. cbv zeta.
  destruct (with_mapped_entry_eq (base + 40 * idx) w (fun w => Some (word_at (db_mem w) (base + 40 * idx) 1, w)) (entry_tdata1 (db_mem w) base idx) w ltac:(done)) as [p ->].
  rewrite some_bind. cbv beta iota. set (t1 := entry_tdata1 (db_mem w) base idx).
  destruct (dbtr_trigger_supported (TDATA1_GET_TYPE t1)) eqn:E1; cbn [negb];
    [destruct (dbtr_trigger_valid (TDATA1_GET_TYPE t1) t1) eqn:E2; cbn [negb]|].
  - destruct (IH (idx + 1) (put_pmp p w)) as (r & p' & -> & Hr); [lia..|]. exists r, p'. split; [done|].
    assert (guest t1) as Hg by (by apply valid_guest). destruct r as [u|j].
    + intros k Hk. destruct (Z.eq_dec k idx) as [-> |]; [done|]. apply Hr. lia.
    + destruct Hr as (Hj & Hb & Hk). split_and!; try lia; try done. intros k Hr. destruct (Z.eq_dec k idx) as [-> |]; [done|]. apply Hk. lia.
  - exists (inr idx), p. split; [done|]. split_and!; try lia. intros [_ Hv]%guest_valid. fold t1 in Hv. congruence.
  - exists (inr idx), p. split; [done|]. split_and!; try lia. intros [Hv _]%guest_valid. fold t1 in Hv. congruence.
Qed.

(** ** Allocation *)

Lemma find_free_spec w s n i : hs w = Some s -> 0 <= i -> i + Z.of_nat n <= Z.of_nat (length (triggers s)) ->
  exists r, find_free n i w = Some r /\
    match r with
    | Some j => i <= j < i + Z.of_nat n /\ exists t, triggers s !! Z.to_nat j = Some t /\ is_mapped t = false
    | None => free_count (take n (drop (Z.to_nat i) (triggers s))) = 0
    end.
Proof.
  intros Es. revert i. induction n as [|n IH]; intros i Hi Hn; cbn [find_free]; [by exists None|].
  destruct (lookup_lt_is_Some_2 (triggers s) (Z.to_nat i)) as [t Et]; [lia|]. rewrite (trig_at_in w s), Et, some_bind by done.
  destruct (is_mapped t) eqn:Em.
  - destruct (IH (i + 1)) as (r & -> & Hr); [lia..|]. exists r. split; [done|]. destruct r as [j|].
    + destruct Hr as (Hj & Hr). split; [lia|done].
    + rewrite (drop_S _ t) by done. cbn [take]. rewrite free_count_cons, Em. replace (Z.to_nat (i + 1)) with (S (Z.to_nat i)) in Hr by lia. rewrite Hr. done.
  - exists (Some i). split; [done|]. split; [lia|]. by exists t.
Qed.

(** The trigger installed at [i] from the entry at [a]. *)
Definition installed (m : mem) (a i mask : Z) : sbi_dbtr_trigger :=
  mkTrig i mask (setup_state i (word_at m a 1)) (word_at m a 1) (word_at m a 2) (word_at m a 3).

Definition install_body (a : Z) (w : dbtr_world) : option dbtr_world :=
  '(trig, w) ← sbi_alloc_trigger w;
  i ← trig;
  '(_, w) ← with_mapped_entry feat bits a w (fun w =>
    w ← dbtr_trigger_setup i a w;
    w ← dbtr_trigger_enable i w;
    t ← trig_at i w;
    Some (tt, put_mem (store_le (db_mem w) (a + 32) 8 (t_index t)) w));
  Some w.

Lemma install_body_spec a w s : world_ok h0 w -> hs w = Some s -> 0 < available_trigs s ->
  exists i t p, 0 <= i < total_trigs s /\ triggers s !! Z.to_nat i = Some t /\ is_mapped t = false /\
    install_body a w = Some (mkDb
      (Some (set_counts (total_trigs s) (available_trigs s - 1) (set_triggers (<[Z.to_nat i := installed (db_mem w) a i (type_mask t)]> (triggers s)) s)))
      (store_le (db_mem w) (a + 32) 8 i) p
      (mkTr i (<[i := word_at (db_mem w) a 1]> (hw_tdata1 (db_hw w))) (<[i := word_at (db_mem w) a 2]> (hw_tdata2 (db_hw w))))).
Proof.
  intros [Hm (s0 & E0 & Hok)] Es Hav. rewrite Es in E0. injection E0 as <-. pose proof (ok_total _ _ _ Hok) as Htot.
  destruct (find_free_spec w s (Z.to_nat (total_trigs s)) 0 Es) as (r & Ef & Hr); [lia|rewrite (ok_length _ _ _ Hok); lia|].
  destruct r as [i|]; [|rewrite drop_0, <- (ok_available _ _ _ Hok) in Hr; lia].
  destruct Hr as (Hi & t & Et & Em). rewrite Z.add_0_l, Z2Nat.id in Hi by lia. destruct (ok_trigger _ _ _ Hok i t Hi Et) as [Hix _].
  assert (u32 (available_trigs s - 1) = available_trigs s - 1) as Eav.
  { apply wrap_small. rewrite (ok_available _ _ _ Hok) in *. pose proof (free_count_bounds (take (Z.to_nat (total_trigs s)) (triggers s))) as Hb.
    rewrite length_take, (ok_length _ _ _ Hok) in Hb. lia. }
  assert (Z.to_nat i < length (triggers s))%nat as Hlen by (rewrite (ok_length _ _ _ Hok); lia).
  pose proof (setup_state_spec i (word_at (db_mem w) a 1)) as [Hmap Hen]. specialize (Hen (word_range _ _ _ Hm)).
  unfold install_body, sbi_alloc_trigger. rewrite Es, (proj2 (Z.leb_gt _ _)), Ef, some_bind, Eav by lia.
  rewrite (trig_at_in _ (set_counts (total_trigs s) (available_trigs s - 1) s)) by done. cbn [triggers set_counts]. rewrite Et, some_bind.
  rewrite (put_trig_in _ (set_counts (total_trigs s) (available_trigs s - 1) s)), !some_bind by done.
  match goal with |- context [with_mapped_entry feat bits a ?x ?k] => set (w1 := x); set (body := k) end.
  set (w2 := mkDb (Some (set_counts (total_trigs s) (available_trigs s - 1) (set_triggers (<[Z.to_nat i := installed (db_mem w) a i (type_mask t)]> (triggers s)) s)))
      (store_le (db_mem w) (a + 32) 8 i) (db_pmp w)
      (mkTr i (<[i := word_at (db_mem w) a 1]> (hw_tdata1 (db_hw w))) (<[i := word_at (db_mem w) a 2]> (hw_tdata2 (db_hw w))))).
  destruct (with_mapped_entry_eq a w1 body tt w2) as [p Hp].
  - intros p. unfold body, dbtr_trigger_setup. cbv zeta.
    change (trig_at i (put_pmp p w1)) with (<[Z.to_nat i := set_state (set_one TS_MAPPED (t_state t)) t]> (triggers s) !! Z.to_nat i).
    rewrite list_lookup_insert_eq, some_bind by done. cbn [t_index set_state type_mask]. rewrite Hix.
    change (db_mem (put_pmp p w1)) with (db_mem w). fold (setup_state i (word_at (db_mem w) a 1)). fold (installed (db_mem w) a i (type_mask t)).
    set (s1 := set_triggers (<[Z.to_nat i := set_state (set_one TS_MAPPED (t_state t)) t]> (triggers s)) (set_counts (total_trigs s) (available_trigs s - 1) s)).
    rewrite (put_trig_in _ s1), some_bind by done. cbn [triggers s1 set_triggers]. rewrite list_insert_insert_eq.
    set (s2 := set_triggers _ s1). rewrite (enable_eq _ s2 i (installed (db_mem w) a i (type_mask t))); [|done|by apply list_lookup_insert_eq|done|done].
    rewrite some_bind. cbn [t_state tdata1 installed]. rewrite Hen. cbn [triggers s2 s1 set_triggers tdata2 installed].
    unfold programmed at 1. cbn [triggers s2 s1 set_triggers]. rewrite list_insert_insert_eq.
    unfold trig_at. cbn [hs programmed s2 s1 set_triggers triggers]. rewrite some_bind. cbn [triggers set_triggers]. rewrite list_lookup_insert_eq, some_bind by (by rewrite ?length_insert).
    unfold programmed. change (triggers s2) with (<[Z.to_nat i := installed (db_mem w) a i (type_mask t)]> (triggers s)).
    by rewrite list_insert_insert_eq.
  - rewrite Hp, some_bind. exists i, t, p. done.
Qed.

End Entries.

(** ** Installing *)

Section Install.
Variables (feat : sbi_hart_features) (bits : Z) (h0 : gmap Z Z).

Lemma install_loop_S n idx base w : install_loop feat bits (S n) idx base w
  = if 2 ^ 31 <=? idx then None else (w ← install_body feat bits (base + 40 * idx) w; install_loop feat bits n (idx + 1) base w).
Proof.
  cbn [install_loop]. destruct (2 ^ 31 <=? idx); [done|]. unfold install_body.
  destruct (sbi_alloc_trigger w) as [[[i|] w1]|]; [|done|done]. rewrite !some_bind.
  by destruct (with_mapped_entry feat bits _ _ _) as [[u w2]|].
Qed.

(** Trigger [i] of [w'] was installed from entry [k]: the firmware's copy, the
    registers of the hart, and the index written back. *)
Record from_entry (w w' : dbtr_world) (base k i : Z) : Prop := {
  fe_was : exists t, trig_at i w = Some t /\ is_mapped t = false /\
    trig_at i w' = Some (installed (db_mem w) (base + 40 * k) i (type_mask t));
  fe_tdata1 : hw_tdata1 (db_hw w') !! i = Some (word_at (db_mem w) (base + 40 * k) 1);
  fe_tdata2 : hw_tdata2 (db_hw w') !! i = Some (word_at (db_mem w) (base + 40 * k) 2);
  fe_index : word_at (db_mem w') (base + 40 * k) 4 = i }.

(** Trigger [j] and its registers are as they were. *)
Definition untouched (w w' : dbtr_world) (j : Z) : Prop :=
  trig_at j w' = trig_at j w /\ hw_tdata1 (db_hw w') !! j = hw_tdata1 (db_hw w) !! j /\ hw_tdata2 (db_hw w') !! j = hw_tdata2 (db_hw w) !! j.

Lemma word_stored m a v x k : 0 <= v < 2 ^ 64 -> (a + 8 * k = x \/ a + 8 * k + 8 <= x \/ x + 8 <= a + 8 * k) ->
  word_at (store_le m x 8 v) a k = if a + 8 * k =? x then v else word_at m a k.
Proof.
  intros Hv Hx. unfold word_at. destruct (Z.eqb_spec (a + 8 * k) x) as [-> |Hn]; [by apply load_store_le|].
  apply load_le_ext. intros i Hi. apply store_le_other. lia.
Qed.

(** One step of the second pass. *)
Lemma install_one k base w s : world_ok h0 w -> hs w = Some s -> 0 < available_trigs s -> guest (entry_tdata1 (db_mem w) base k) ->
  exists i w', install_body feat bits (base + 40 * k) w = Some w' /\ world_ok h0 w' /\ 0 <= i < total_trigs s /\ from_entry w w' base k i /\
    (forall j, 0 <= j -> j <> i -> untouched w w' j) /\
    (forall j e, (j <> k -> word_at (db_mem w') (base + 40 * j) e = word_at (db_mem w) (base + 40 * j) e) \/ ~ 0 <= e <= 4) /\
    (forall e, 0 <= e <= 3 -> word_at (db_mem w') (base + 40 * k) e = word_at (db_mem w) (base + 40 * k) e) /\
    exists s', hs w' = Some s' /\ total_trigs s' = total_trigs s /\ available_trigs s' = available_trigs s - 1 /\
      phys_lo s' = phys_lo s /\ phys_hi s' = phys_hi s.
Proof.
  intros Hw Es Hav Hg. pose proof Hw as [Hm (s0 & E0 & Hok)]. rewrite Es in E0. injection E0 as <-.
  destruct (install_body_spec feat bits h0 (base + 40 * k) w s Hw Es Hav) as (i & t & p & Hi & Et & Em & Eb).
  eexists i, _. split; [exact Eb|]. pose proof (ok_total _ _ _ Hok) as Htot.
  assert (Z.to_nat i < length (triggers s))%nat as Hlen by (rewrite (ok_length _ _ _ Hok); lia).
  pose proof (proj1 (setup_state_spec i (word_at (db_mem w) (base + 40 * k) 1))) as Hmap.
  split; [split; [by apply store_le_ok|]; eexists; split; [reflexivity|]|].
  { apply (dbtr_ok_update h0 s (hw_tdata1 (db_hw w)) i t); try done.
    - split; [done|]. intros _. cbn. split; [by apply word_range|]. split; [done|]. by rewrite lookup_insert_eq.
    - intros j Hj. cbn. by rewrite lookup_insert_ne.
    - right. eexists. cbn. rewrite lookup_insert_eq. auto.
    - rewrite Em. change (is_mapped (installed (db_mem w) (base + 40 * k) i (type_mask t))) with (Z.testbit (setup_state i (word_at (db_mem w) (base + 40 * k) 1)) TS_MAPPED).
      rewrite Hmap. cbn. lia. }
  split; [done|]. split.
  { split; cbn [db_hw db_mem hw_tdata1 hw_tdata2].
    - exists t. rewrite (trig_at_in w s) by done. split; [done|]. split; [done|]. unfold trig_at. cbn [hs]. rewrite some_bind. by apply list_lookup_insert_eq.
    - apply lookup_insert_eq.
    - apply lookup_insert_eq.
    - rewrite word_stored by lia. rewrite (proj2 (Z.eqb_eq _ _)) by lia. done. }
  split; [|split; [|split]].
  - intros j Hj Hn. unfold untouched. cbn [db_hw hw_tdata1 hw_tdata2]. rewrite !lookup_insert_ne by done. split; [|done].
    rewrite (trig_at_in w s) by done. unfold trig_at. cbn [hs]. rewrite some_bind. cbn [triggers set_counts set_triggers]. apply list_lookup_insert_ne. lia.
  - intros j e. destruct (decide (0 <= e <= 4)) as [He|]; [left|by right]. intros Hn. cbn [db_mem]. rewrite word_stored by lia.
    rewrite (proj2 (Z.eqb_neq _ _)) by lia. done.
  - intros e He. cbn [db_mem]. rewrite word_stored by lia. by rewrite (proj2 (Z.eqb_neq _ _)) by lia.
  - by eexists.
Qed.

(** All of them: the entries go to distinct free triggers. *)
Lemma install_loop_spec n idx base w s : 0 <= idx -> idx + Z.of_nat n <= 2 ^ 31 -> world_ok h0 w -> hs w = Some s ->
  Z.of_nat n <= available_trigs s -> (forall k, idx <= k < idx + Z.of_nat n -> guest (entry_tdata1 (db_mem w) base k)) ->
  exists ids w', install_loop feat bits n idx base w = Some w' /\ world_ok h0 w' /\ length ids = n /\ NoDup ids /\
    (forall k i, ids !! k = Some i -> 0 <= i < total_trigs s /\ from_entry w w' base (idx + Z.of_nat k) i) /\
    (forall j, 0 <= j -> j ∉ ids -> untouched w w' j) /\
    (forall j e, 0 <= e <= 4 -> j < idx \/ idx + Z.of_nat n <= j \/ e <= 3 -> word_at (db_mem w') (base + 40 * j) e = word_at (db_mem w) (base + 40 * j) e) /\
    exists s', hs w' = Some s' /\ total_trigs s' = total_trigs s /\ available_trigs s' = available_trigs s - Z.of_nat n /\
      phys_lo s' = phys_lo s /\ phys_hi s' = phys_hi s.
Proof.
  revert idx w s. induction n as [|n IH]; intros idx w s Hi Hn Hw Es Hav Hg.
  { exists [], w. split_and!; try done; [constructor|]. exists s. split_and!; try done. lia. }
  rewrite install_loop_S, (proj2 (Z.leb_gt (2 ^ 31) idx)) by lia.
  destruct (install_one idx base w s Hw Es ltac:(lia) (Hg idx ltac:(lia))) as (i & w1 & -> & Hw1 & Hir & Hfe & Hun & Hoth & Hown & s1 & Es1 & Et1 & Ea1 & El1 & Eh1).
  rewrite some_bind.
  assert (forall j e, 0 <= e <= 3 -> word_at (db_mem w1) (base + 40 * j) e = word_at (db_mem w) (base + 40 * j) e) as Hdata.
  { intros j e He. destruct (Z.eq_dec j idx) as [-> |Hj]; [by apply Hown|]. destruct (Hoth j e) as [H|H]; [by apply H|lia]. }
  destruct (IH (idx + 1) w1 s1) as (ids & w' & -> & Hw' & Hlen & Hnd & Hfes & Hun' & Hmem & s' & Es' & Et' & Ea' & El' & Eh'); [lia|lia|done|done|lia|..].
  { intros k Hk. unfold entry_tdata1. rewrite Hdata by lia. apply Hg. lia. }
  destruct (fe_was _ _ _ _ _ Hfe) as (t & Ht & Htm & Ht1).
  assert (i ∉ ids) as Hni.
  { intros Hin. apply list_elem_of_lookup in Hin as [k Hk]. destruct (Hfes k i Hk) as [_ Hfe']. destruct (fe_was _ _ _ _ _ Hfe') as (t' & Ht' & Hm' & _).
    rewrite Ht1 in Ht'. injection Ht' as <-. pose proof (proj1 (setup_state_spec i (word_at (db_mem w) (base + 40 * idx) 1))) as Hset.
    change (Z.testbit (setup_state i (word_at (db_mem w) (base + 40 * idx) 1)) TS_MAPPED = false) in Hm'. congruence. }
  exists (i :: ids), w'. split_and!; try done; [cbn; by rewrite Hlen|by constructor|..].
  - intros [|k] j Hk; [injection Hk as <-|].
    + split; [done|]. rewrite Z.add_0_r. destruct (Hun' i ltac:(lia) Hni) as (U1 & U2 & U3). destruct Hfe as [_ F1 F2 F3]. split.
      * exists t. rewrite U1. done.
      * by rewrite U2.
      * by rewrite U3.
      * rewrite Hmem by lia. done.
    + change (ids !! k = Some j) in Hk. destruct (Hfes k j Hk) as [Hj [F0 F1 F2 F3]]. split; [lia|]. assert (j <> i) as Hji by (intros ->; apply Hni; by eapply list_elem_of_lookup_2).
      destruct (Hun j ltac:(lia) Hji) as (U1 & _ & _). replace (idx + Z.of_nat (S k)) with (idx + 1 + Z.of_nat k) by lia.
      split; [|rewrite F1; f_equal; apply Hdata; lia|rewrite F2; f_equal; apply Hdata; lia|done].
      destruct F0 as (t0 & T1 & T2 & T3). exists t0. rewrite <- U1. split; [done|]. split; [done|]. rewrite T3. unfold installed. by rewrite !Hdata by lia.
  - intros j Hj Hn'. apply not_elem_of_cons in Hn' as [N1 N2]. destruct (Hun j Hj N1) as (U1 & U2 & U3), (Hun' j Hj N2) as (V1 & V2 & V3).
    split_and!; congruence.
  - intros j e He Hcase. rewrite Hmem by lia. destruct (Z.eq_dec j idx) as [-> |Hj]; [apply Hown; lia|]. destruct (Hoth j e) as [H|H]; [by apply H|lia].
  - exists s'. split_and!; try congruence. lia.
Qed.

End Install.

(** ** The calls *)

Section Calls.
Variables (feat : sbi_hart_features) (bits : Z) (h0 : gmap Z Z) (other_harts : mem -> mem).
Hypothesis quiet : forall m, other_harts m = m.

(** What an installation may end with. *)
Definition installs (w w' : dbtr_world) (s : sbi_dbtr_hart_triggers_state) (count : Z) : Prop :=
  count <= available_trigs s /\ (forall k, 0 <= k < count -> guest (entry_tdata1 (db_mem w) (phys_lo s) k)) /\
  exists ids, Z.of_nat (length ids) = count /\ NoDup ids /\
    (forall k i, ids !! k = Some i -> 0 <= i < total_trigs s /\ from_entry w w' (phys_lo s) (Z.of_nat k) i) /\
    (forall j, 0 <= j -> j ∉ ids -> untouched w w' j).

Definition refuses (w w' : dbtr_world) (s : sbi_dbtr_hart_triggers_state) (count k : Z) : Prop :=
  hs w' = hs w /\ db_hw w' = db_hw w /\ db_mem w' = db_mem w /\
  ((0 <= k < count /\ ~ guest (entry_tdata1 (db_mem w) (phys_lo s) k) /\ forall j, 0 <= j < k -> guest (entry_tdata1 (db_mem w) (phys_lo s) j)) \/
   (k = available_trigs s /\ k < count /\ forall j, 0 <= j < count -> guest (entry_tdata1 (db_mem w) (phys_lo s) j))).

Lemma install_call_spec w s count : world_ok h0 w -> hs w = Some s -> sbi_dbtr_shmem_disabled s = false -> 0 <= count < 2 ^ 31 ->
  exists ret out w', sbi_dbtr_install_trig feat bits other_harts count w = Some (ret, out, w') /\ world_ok h0 w' /\
    ((ret = SBI_OK /\ installs w w' s count) \/ (ret = SBI_ERR_FAILED /\ exists k, out = Some k /\ refuses w w' s count k)).
Proof.
  intros Hw Es Hsh Hc. unfold sbi_dbtr_install_trig, hart_shmem_base. rewrite Es, Hsh.
  destruct (check_loop_spec feat bits (Z.to_nat count) 0 (phys_lo s) w) as (r & p & -> & Hr); [lia..|]. rewrite some_bind. cbv beta iota.
  assert (world_ok h0 (put_pmp p w)) as Hw1 by (destruct Hw as [Hm Hs]; by split).
  destruct r as [u|j]; [|eexists _, _, _; split; [reflexivity|]; split; [done|]; right; split; [done|]; exists j; unfold refuses; split_and!; try done; left; destruct Hr as (Hj & Hb & Hk); by split_and!; try lia].
  destruct (Z.ltb_spec (available_trigs s) count) as [Hlt|Hge].
  - eexists _, _, _. split; [reflexivity|]. split; [done|]. right. split; [done|]. exists (available_trigs s). unfold refuses. split_and!; try done. right. split_and!; try lia. intros; apply Hr; lia.
  - rewrite quiet. change (put_mem (db_mem (put_pmp p w)) (put_pmp p w)) with (put_pmp p w).
    destruct (install_loop_spec feat bits h0 (Z.to_nat count) 0 (phys_lo s) (put_pmp p w) s) as (ids & w' & -> & Hw' & Hlen & Hnd & Hfe & Hun & _); [lia|lia|done|done|lia|exact Hr|].
    rewrite some_bind. eexists _, _, _. split; [reflexivity|]. split; [done|]. left. split; [done|]. split; [lia|]. split; [intros; apply Hr; lia|].
    exists ids. split_and!; [lia|done| |exact Hun]. intros k i Hk. destruct (Hfe k i Hk) as [Hi [F0 F1 F2 F3]]. split; [exact Hi|]. by split.
Qed.

(** Arguments for which the calls are defined; see below for the others. *)
Definition sane (funcid a0 a1 : Z) : Prop :=
  0 <= a0 < 2 ^ 64 /\ 0 <= a1 < 2 ^ 64 /\ (funcid = 2 -> a0 + a1 < 2 ^ 64) /\ (funcid = 3 -> a0 < 2 ^ 31) /\ (4 <= funcid <= 7 -> a0 < 64).

Lemma count_type_ok n i type w s : hs w = Some s -> 0 <= i -> i + Z.of_nat n <= Z.of_nat (length (triggers s)) -> exists c, count_type n i type w = Some c.
Proof.
  intros Es. revert i. induction n as [|n IH]; intros i Hi Hn; cbn [count_type]; [by eexists|].
  destruct (lookup_lt_is_Some_2 (triggers s) (Z.to_nat i)) as [t Et]; [lia|]. rewrite (trig_at_in w s), Et, some_bind by done.
  destruct (IH (i + 1)) as [c ->]; [lia..|]. by eexists.
Qed.

Lemma set_shmem_ok s h lo hi : dbtr_ok h0 s h -> dbtr_ok h0 (set_shmem lo hi s) h.
Proof. by intros []. Qed.

Lemma setup_shmem_ok dom assigned smode lo hi w : world_ok h0 w -> world_ok h0 (sbi_dbtr_setup_shmem dom assigned smode lo hi w).2.
Proof.
  intros Hw. unfold sbi_dbtr_setup_shmem. pose proof Hw as [Hm (s & -> & Hok)].
  repeat case_match; try done; (split; [done|]); eexists; (split; [reflexivity|]); by apply set_shmem_ok.
Qed.

Lemma handler_ok dom assigned smode funcid a0 a1 value w : world_ok h0 w -> sane funcid a0 a1 ->
  exists ret out w', sbi_ecall_dbtr_handler feat bits other_harts dom assigned smode funcid a0 a1 value w = Some (ret, out, w') /\ world_ok h0 w'.
Proof.
  intros Hw (Ha0 & Ha1 & Hread & Hinst & Hmask). pose proof Hw as [Hm (s & Es & Hok)]. pose proof (ok_total _ _ _ Hok) as Htot.
  unfold sbi_ecall_dbtr_handler.
  destruct (Z.eqb_spec funcid 0).
  { unfold sbi_dbtr_num_trig. rewrite Es. destruct (a0 =? 0); [rewrite some_bind; by eexists _, _, _|].
    destruct (count_type_ok (Z.to_nat (total_trigs s)) 0 (TDATA1_GET_TYPE a0) w s Es) as [c ->]; [lia|rewrite (ok_length _ _ _ Hok); lia|].
    rewrite !some_bind. by eexists _, _, _. }
  destruct (Z.eqb_spec funcid 1).
  { pose proof (setup_shmem_ok dom assigned smode a0 a1 w Hw). destruct (sbi_dbtr_setup_shmem _ _ _ _ _ _). by eexists _, _, _. }
  destruct (Z.eqb_spec funcid 2) as [E|].
  { unfold sbi_dbtr_read_trig. rewrite Es. destruct ((total_trigs s <=? a0) || _) eqn:Eb; [rewrite some_bind; by eexists _, _, _|].
    apply orb_false_iff in Eb as [E1%Z.leb_gt E2%Z.leb_gt]. rewrite wrap_small in E2 by lia.
    destruct (sbi_dbtr_shmem_disabled s); [rewrite some_bind; by eexists _, _, _|].
    destruct (read_loop_ok feat bits h0 (Z.to_nat a1) 0 (hart_shmem_base s) a0 w s) as (w' & -> & Hw' & _); [done|done|lia..|].
    rewrite !some_bind. by eexists _, _, _. }
  destruct (Z.eqb_spec funcid 3).
  { destruct (sbi_dbtr_shmem_disabled s) eqn:Ed; [unfold sbi_dbtr_install_trig; rewrite Es, Ed, some_bind; by eexists _, _, _|].
    destruct (install_call_spec w s a0 Hw Es Ed) as (ret & out & w' & -> & Hw' & _); [lia|]. rewrite some_bind. by eexists _, _, _. }
  destruct (Z.eqb_spec funcid 5).
  { unfold sbi_dbtr_uninstall_trig. rewrite Es. destruct (trig_bits_ok s a0 a1) as (l & -> & Hl); [lia..|]. rewrite some_bind.
    destruct (uninstall_loop_ok h0 l w s Hw Es Hl) as (ret & w' & -> & Hw' & _). rewrite some_bind. by eexists _, _, _. }
  destruct (Z.eqb_spec funcid 6).
  { unfold sbi_dbtr_enable_trig. rewrite Es. destruct (trig_bits_ok s a0 a1) as (l & -> & Hl); [lia..|]. rewrite some_bind.
    destruct (each_trigger_ok h0 dbtr_trigger_enable l w s (enable_ok h0) Hw Es Hl) as (w' & -> & Hw' & _). rewrite !some_bind. by eexists _, _, _. }
  destruct (Z.eqb_spec funcid 4).
  { unfold sbi_dbtr_update_trig. rewrite Es. destruct (sbi_dbtr_shmem_disabled s); [rewrite some_bind; by eexists _, _, _|].
    destruct (trig_bits_ok s a0 a1) as (l & -> & Hl); [lia..|]. rewrite some_bind.
    destruct (update_loop_ok h0 l w s 0 (hart_shmem_base s) Hw Es Hl) as (ret & w' & -> & Hw' & _). rewrite some_bind. by eexists _, _, _. }
  destruct (Z.eqb_spec funcid 7); [|by eexists _, _, _].
  unfold sbi_dbtr_disable_trig. rewrite Es. destruct (trig_bits_ok s a0 a1) as (l & -> & Hl); [lia..|]. rewrite some_bind.
  destruct (each_trigger_ok h0 dbtr_trigger_disable l w s (disable_ok h0) Hw Es Hl) as (w' & -> & Hw' & _). rewrite !some_bind. by eexists _, _, _.
Qed.

(** Calls by the supervisor, which writes its memory in between. *)
Fixpoint dbtr_run (dom : option sbi_domain) (assigned : bool) (smode : Z) (calls : list (mem * (Z * Z * Z))) (w : dbtr_world) : option dbtr_world :=
  match calls with
  | [] => Some w
  | (m, (funcid, a0, a1)) :: calls =>
      '(_, _, w) ← sbi_ecall_dbtr_handler feat bits other_harts dom assigned smode funcid a0 a1 0 (put_mem m w);
      dbtr_run dom assigned smode calls w
  end.

Lemma dbtr_run_ok dom assigned smode calls w : world_ok h0 w -> Forall (fun c => mem_ok c.1 /\ sane c.2.1.1 c.2.1.2 c.2.2) calls ->
  exists w', dbtr_run dom assigned smode calls w = Some w' /\ world_ok h0 w'.
Proof.
  intros Hw Hc. revert w Hw. induction Hc as [|[m [[funcid a0] a1]] calls [Hm Hs] Hc IH]; intros w Hw; cbn [dbtr_run]; [by exists w|].
  destruct (handler_ok dom assigned smode funcid a0 a1 0 (put_mem m w)) as (ret & out & w' & -> & Hw'); [destruct Hw; by split|done|].
  rewrite some_bind. by apply IH.
Qed.

End Calls.

(** ** Set-up *)

(** Probing from [w] finds triggers that are free and numbered. *)
Definition probed_ok (s : sbi_dbtr_hart_triggers_state) : Prop :=
  length (triggers s) = 32%nat /\ 0 <= total_trigs s <= 32 /\
  forall j t, 0 <= j < total_trigs s -> triggers s !! Z.to_nat j = Some t -> t_index t = j /\ t_state t = 0.

Definition probes_from (w : dbtr_world) (r : option dbtr_world) : Prop :=
  exists w' s', r = Some w' /\ hs w' = Some s' /\ probed_ok s' /\ db_mem w' = db_mem w /\ hw_tdata1 (db_hw w') = hw_tdata1 (db_hw w).

Lemma probe_loop_ok pr n i w s : hs w = Some s -> probed_ok s -> total_trigs s = i -> i + Z.of_nat n = 32 ->
  probes_from w (probe_loop pr n i w).
Proof.
  revert i w s. induction n as [|n IH]; intros i w s Es Hs Ht Hn; cbn [probe_loop]; [by exists w, s|].
  assert (probes_from w (Some w)) as Hstop by (by exists w, s).
  assert (probes_from w (Some (csr_write_tselect i w))) as Hstop1 by (by exists (csr_write_tselect i w), s).
  destruct Hs as (Hl & Hr & Hinv).
  assert (forall mask, probes_from w (w0 ← put_trig i (sbi_trigger_init mask i) (csr_write_tselect i w); s0 ← hs w0;
      probe_loop pr n (i + 1) (put_hs (set_counts (u32 (total_trigs s0 + 1)) (available_trigs s0) s0) w0))) as Hfound.
  { intros mask. rewrite (put_trig_in _ s) by done. cbn [mbind option_bind hs put_hs total_trigs available_trigs set_triggers].
    rewrite Ht. assert (u32 (i + 1) = i + 1) as -> by (apply wrap_small; lia).
    match goal with |- probes_from _ (probe_loop _ _ _ ?x) => set (w1 := x) end.
    destruct (IH (i + 1) w1 _ eq_refl) as (w' & s' & E & Hr'); [|done|lia|by exists w', s'].
    split; [cbn; by rewrite length_insert|]. split; [cbn; lia|]. intros j t Hj. cbn [triggers set_counts set_triggers total_trigs] in *.
    destruct (Z.eq_dec j i) as [-> |Hji].
    - rewrite list_lookup_insert_eq by (rewrite Hl; lia). by intros [= <-].
    - rewrite list_lookup_insert_ne by lia. apply Hinv. lia. }
  destruct (negb (p_select pr i)); [done|]. cbv zeta. destruct (p_tselect pr i) as [val|]; [|done]. destruct (negb (val =? i)); [done|].
  destruct (p_tinfo pr i) as [v|]; [destruct (v =? 1); [done|apply Hfound]|].
  destruct (p_tdata1 pr i) as [t1|]; [|done]. destruct (_ =? 0); [done|apply Hfound].
Qed.

Lemma all_free l : Forall (fun t => is_mapped t = false) l -> free_count l = Z.of_nat (length l).
Proof. induction 1 as [|t l Ht _ IH]; [done|]. rewrite free_count_cons, Ht, IH. cbn [negb Z.b2z length]. lia. Qed.

(** The first set-up of a hart. *)
Lemma init_ok feat pr hartid w : sbi_hart_has_extension feat SBI_HART_EXT_SDTRIG = true -> mem_ok (db_mem w) ->
  exists w', sbi_dbtr_init feat pr hartid true true true w = Some (SBI_OK, w') /\ world_ok (hw_tdata1 (db_hw w)) w'.
Proof.
  intros Hext Hm. unfold sbi_dbtr_init. rewrite Hext. cbn [negb andb hs]. cbn [probed].
  set (w0 := put_hs _ _).
  destruct (probe_loop_ok pr (Z.to_nat RV_MAX_TRIGGERS) 0 w0 (sbi_dbtr_disable_shmem (mkHs (replicate 32 zero_trigger) 0 0 0 0 hartid false)))
    as (w1 & s1 & -> & Es1 & (Hl & Htot & Hinv) & Hmem & Hhw); [done| |done|done|].
  { split; [done|]. split; [cbn; lia|]. cbn. lia. }
  rewrite some_bind, Es1, !some_bind. cbn [hs put_hs]. rewrite some_bind. eexists. split; [reflexivity|].
  split; [cbn; rewrite Hmem; exact Hm|]. eexists. split; [reflexivity|]. cbn [db_hw put_hs]. rewrite Hhw. split; cbn [triggers total_trigs available_trigs set_counts].
    + done.
    + done.
    + rewrite all_free; [rewrite length_take; lia|]. apply Forall_lookup. intros k t Hk. apply lookup_take_Some in Hk as [Hk Hlt].
      destruct (Hinv (Z.of_nat k) t) as [_ Hz]; [lia|by rewrite Nat2Z.id|]. unfold is_mapped. rewrite Hz. apply Z.bits_0.
    + intros i t Hi Ht. destruct (Hinv i t Hi Ht) as [Hix Hz]. split; [done|]. unfold is_mapped. rewrite Hz, Z.bits_0. done.
    + intros i. by left.
Qed.

(** ** Correctness *)

(** C8: debug triggers cannot reach the firmware, as long as no other hart writes the
    shared memory while a call runs ([install_double_fetch] shows the check can be
    bypassed otherwise).  On a hart with the trigger extension, after its set-up and any
    sequence of calls with arguments in range (64 bits, a range of triggers that does
    not wrap, fewer than [2^31] entries to install, a base below 64 for the masks) and
    any memory contents between the calls, every call has returned, the number of free
    triggers is exact, the firmware's copy of a trigger in use is what the hart has, and
    no value the firmware wrote to a trigger matches in machine mode or belongs to the
    debugger. *)
Theorem dbtr_calls_safe feat bits other_harts pr hartid dom assigned smode w0 calls :
  (forall m, other_harts m = m) -> sbi_hart_has_extension feat SBI_HART_EXT_SDTRIG = true -> mem_ok (db_mem w0) ->
  Forall (fun c => mem_ok c.1 /\ sane c.2.1.1 c.2.1.2 c.2.2) calls ->
  exists w1 w2, sbi_dbtr_init feat pr hartid true true true w0 = Some (SBI_OK, w1) /\
    dbtr_run feat bits other_harts dom assigned smode calls w1 = Some w2 /\
    (exists s, hs w2 = Some s /\ available_trigs s = free_count (take (Z.to_nat (total_trigs s)) (triggers s)) /\
      forall i t, 0 <= i < total_trigs s -> triggers s !! Z.to_nat i = Some t -> t_index t = i /\
        (is_mapped t = true -> guest (tdata1 t) /\ hw_tdata1 (db_hw w2) !! i = Some (tdata1 t))) /\
    (forall i v, hw_tdata1 (db_hw w2) !! i = Some v -> hw_tdata1 (db_hw w0) !! i = Some v \/ v = 0 \/ guest v).
Proof.
  intros Hq Hext Hm Hc. destruct (init_ok feat pr hartid w0 Hext Hm) as (w1 & E1 & Hw1).
  destruct (dbtr_run_ok feat bits _ other_harts Hq dom assigned smode calls w1 Hw1 Hc) as (w2 & E2 & Hm2 & s & Es & [Hl Htot Hav Htr Hhw]).
  exists w1, w2. split; [done|]. split; [done|]. split.
  - exists s. split; [done|]. split; [done|]. intros i t Hi Ht. destruct (Htr i t Hi Ht) as [Hix Hmap]. split; [done|].
    intros Hmp. by destruct (Hmap Hmp) as (_ & ? & ?).
  - intros i v Hv. destruct (Hhw i) as [E|(v' & E & Hv')]; [left; by rewrite <- E|]. right. rewrite Hv in E. by injection E as ->.
Qed.

(** C30: installing is all or nothing, as long as no other hart writes the shared memory
    while the call runs ([install_double_fetch]).  For fewer than [2^31] entries and a
    shared memory that has been set up: either every entry is allowed and enough
    triggers are free, and each entry is programmed into a free trigger of its own, the
    index of which is written back, with all other triggers untouched; or the call fails
    with the first entry that is not allowed, or with the number of free triggers, and
    nothing has changed. *)
Theorem install_all_or_nothing feat bits h0 other_harts w s count :
  (forall m, other_harts m = m) -> world_ok h0 w -> hs w = Some s -> sbi_dbtr_shmem_disabled s = false -> 0 <= count < 2 ^ 31 ->
  exists ret out w', sbi_dbtr_install_trig feat bits other_harts count w = Some (ret, out, w') /\
    ((ret = SBI_OK /\ installs w w' s count) \/ (ret = SBI_ERR_FAILED /\ exists k, out = Some k /\ refuses w w' s count k)).
Proof.
  intros Hq Hw Es Hsh Hc. destruct (install_call_spec feat bits h0 other_harts Hq w s count Hw Es Hsh Hc) as (ret & out & w' & E & _ & H).
  by exists ret, out, w'.
Qed.

(** Disabling a trigger stops it in every mode; enabling it again restores what
    enabling it would have written before. *)
Lemma disable_enable_restores h0 w s i t : world_ok h0 w -> hs w = Some s -> 0 <= i < total_trigs s ->
  triggers s !! Z.to_nat i = Some t -> is_mapped t = true ->
  exists w1 w2, dbtr_trigger_disable i w = Some w1 /\ hw_tdata1 (db_hw w1) !! i = Some (disabled (tdata1 t)) /\
    (forall ts mc, (ts, mc) ∈ mode_bits (tdata1 t) -> Z.testbit (disabled (tdata1 t)) mc = false) /\
    dbtr_trigger_enable i w1 = Some w2 /\ hw_tdata1 (db_hw w2) !! i = Some (enabled (t_state t) (tdata1 t)).
Proof.
  intros [Hm (s0 & E0 & Hok)] Es Hi Et Em. rewrite Es in E0. injection E0 as <-. destruct (ok_trigger _ _ _ Hok i t Hi Et) as [Hix Hmap].
  destruct (Hmap Em) as (Hw & Hg & Hh). destruct (modes_only (fun _ => false) (tdata1 t) Hw) as (Hw1 & _ & _ & Hb & _).
  rewrite <- disabled_update in Hw1, Hb. pose proof (disable_eq w s i t Es Et Em Hix) as Ed.
  set (t1 := set_tdata1 (disabled (tdata1 t)) t) in *. set (w1 := programmed w s i t1 _ _) in *.
  assert (Z.to_nat i < length (triggers s))%nat as Hlen by (by eapply lookup_lt_Some).
  pose proof (enable_eq w1 _ i t1 eq_refl (list_lookup_insert_eq _ _ _ Hlen) Em Hix) as Ee.
  eexists w1, _. split; [exact Ed|]. split; [apply lookup_insert_eq|]. split; [exact Hb|]. split; [exact Ee|].
  cbn [programmed db_hw hw_tdata1]. rewrite lookup_insert_eq. cbn [t1 t_state tdata1 set_tdata1]. by rewrite enabled_disabled.
Qed.

(** ** Where the calls go wrong *)

(** Reading [2 ^ 64 - 1] triggers from the second one passes the check, and the
    loop leaves the array of triggers. *)
Lemma read_trig_leaves_array feat bits h0 w s : world_ok h0 w -> hs w = Some s -> 2 <= total_trigs s -> sbi_dbtr_shmem_disabled s = false ->
  sbi_dbtr_read_trig feat bits 1 (2 ^ 64 - 1) w = None.
Proof.
  intros [Hm (s0 & E0 & Hok)] Es Ht Hsh. rewrite Es in E0. injection E0 as <-. pose proof (ok_length _ _ _ Hok) as Hl. clear Hm Hok.
  unfold sbi_dbtr_read_trig. rewrite Es, (proj2 (Z.leb_gt _ _)) by lia. change (u64 (1 + (2 ^ 64 - 1))) with 0. rewrite (proj2 (Z.leb_gt _ _)), Hsh by lia. cbn [orb].
  assert (forall n idx w, hs w = Some s -> 0 <= idx <= 31 -> 31 < idx + Z.of_nat n -> read_loop feat bits n idx (hart_shmem_base s) 1 w = None) as Hloop.
  { clear w Es. induction n as [|n IH]; intros idx w Es Hi Hn; [lia|]. cbn [read_loop]. rewrite (proj2 (Z.leb_gt (2 ^ 31) idx)) by lia.
    assert (u64 (idx + 1) = idx + 1) as -> by (apply wrap_small; lia). cbv zeta. unfold with_mapped_entry at 1.
    destruct (map_saddr_total bits feat (hart_shmem_base s + 40 * idx) 40 (db_pmp w)) as ([rc p] & ->). rewrite some_bind. cbv beta iota.
    rewrite (trig_at_in _ s) by done. destruct (triggers s !! Z.to_nat (idx + 1)) as [t|] eqn:Et; [|done].
    rewrite !some_bind. cbv beta iota. destruct (sbi_hart_unmap_saddr bits feat _) as [rc' p']. rewrite some_bind. cbv beta iota.
    apply lookup_lt_Some in Et. apply IH; [done|lia|lia]. }
  rewrite Hloop; [done|done|lia|]. lia.
Qed.

(** The last trigger cannot be read. *)
Lemma read_trig_last feat bits w s : hs w = Some s -> 0 < total_trigs s < 2 ^ 32 -> sbi_dbtr_read_trig feat bits (total_trigs s - 1) 1 w = Some (SBI_ERR_PARAM, w).
Proof.
  intros Es Ht. unfold sbi_dbtr_read_trig. rewrite Es. replace (total_trigs s - 1 + 1) with (total_trigs s) by lia.
  rewrite (wrap_small 64) by lia. by rewrite Z.leb_refl, orb_true_r.
Qed.

(** What is installed is read after the check: another hart may put any value in a
    checked entry. *)
Lemma install_double_fetch feat bits h0 other_harts w s : (forall m, mem_ok m -> mem_ok (other_harts m)) ->
  world_ok h0 w -> hs w = Some s -> sbi_dbtr_shmem_disabled s = false -> 0 < available_trigs s -> guest (entry_tdata1 (db_mem w) (phys_lo s) 0) ->
  exists i w', sbi_dbtr_install_trig feat bits other_harts 1 w = Some (SBI_OK, None, w') /\
    hw_tdata1 (db_hw w') !! i = Some (entry_tdata1 (other_harts (db_mem w)) (phys_lo s) 0).
Proof.
  intros Hot [Hm Hs] Es Hsh Hav Hg. unfold sbi_dbtr_install_trig, hart_shmem_base. rewrite Es, Hsh. change (Z.to_nat 1) with 1%nat.
  destruct (check_loop_spec feat bits 1 0 (phys_lo s) w) as (r & p & -> & Hr); [lia..|]. rewrite some_bind. cbv beta iota.
  destruct r as [u|j]; [|destruct Hr as (Hj & Hb & _); replace j with 0 in Hb by lia; contradiction].
  rewrite (proj2 (Z.ltb_ge _ _)) by lia. cbn [put_pmp db_mem]. set (w1 := put_mem _ _).
  destruct (install_body_spec feat bits h0 (phys_lo s + 40 * 0) w1 s) as (i & t & p' & _ & _ & _ & Eb); [by split; [apply Hot|]|done|done|].
  rewrite install_loop_S, Eb, some_bind. cbn [install_loop Z.leb Z.compare]. eexists i, _. split; [reflexivity|]. apply lookup_insert_eq.
Qed.

(** Starting a hart again counts all its triggers as free, the ones in use too. *)
Lemma reinit_forgets_mapped feat pr hartid w s : sbi_hart_has_extension feat SBI_HART_EXT_SDTRIG = true -> hs w = Some s -> probed s = true ->
  exists w' s', sbi_dbtr_init feat pr hartid false true true w = Some (SBI_OK, w') /\ hs w' = Some s' /\
    triggers s' = triggers s /\ available_trigs s' = total_trigs s.
Proof. intros Hext Es Hp. unfold sbi_dbtr_init. rewrite Hext. cbn [negb andb]. rewrite Es, Hp. cbn. by eexists _, _. Qed.

(** Then an installation finds no trigger and follows a null pointer. *)
Lemma install_null feat bits base w s : hs w = Some s -> 0 < available_trigs s -> Z.of_nat (length (triggers s)) = 32 -> 0 <= total_trigs s <= 32 ->
  (forall i t, triggers s !! i = Some t -> is_mapped t = true) -> install_loop feat bits 1 0 base w = None.
Proof.
  intros Es Hav Hl Ht Hmap. cbn [install_loop]. destruct (2 ^ 31 <=? 0); [done|]. unfold sbi_alloc_trigger.
  rewrite Es, (proj2 (Z.leb_gt (available_trigs s) 0)) by done.
  destruct (find_free_spec w s (Z.to_nat (total_trigs s)) 0 Es) as (r & -> & Hr); [lia|lia|]. rewrite some_bind.
  destruct r as [j|]; [|reflexivity]. destruct Hr as (_ & t & Et & Em). rewrite (Hmap _ _ Et) in Em. done.
Qed.

(** ** A hart with two triggers *)

Definition demo_dbtr_feat : sbi_hart_features := mkFeat true SBI_HART_PRIV_VER_1_12 [2 ^ 13] 16 54 12 0 0.

Definition demo_probes : probes :=
  mkProbes (fun _ => true) (fun i => Some (Z.min i 1)) (fun _ => Some 64) (fun _ => None).

(** An execution breakpoint for user mode, in an entry at 0x1000. *)
Definition demo_tdata1 : Z := Z.lor (Z.shiftl 6 60) 0xc.
Definition demo_entries : mem := store_le (store_le (fun _ => 0) 0x1008 8 demo_tdata1) 0x1010 8 0x80400000.

Definition demo_dbtr0 : dbtr_world := mkDb None (fun _ => 0) (Hw.mkPmp (fun _ => 0) (fun _ => 0) 0) (mkTr 0 ∅ ∅).

Lemma demo_entries_ok : mem_ok demo_entries.
Proof. do 2 apply store_le_ok. intros a. cbn. lia. Qed.

Lemma dbtr_calls_safe_witness :
  exists w1 w2, sbi_dbtr_init demo_dbtr_feat demo_probes 0 true true true demo_dbtr0 = Some (SBI_OK, w1) /\
    dbtr_run demo_dbtr_feat 54 (fun m => m) None false 1
      [(demo_entries, (1, 0x1000, 0)); (demo_entries, (3, 1, 0)); (demo_entries, (7, 0, 1)); (demo_entries, (5, 0, 1))] w1 = Some w2 /\
    exists s, hs w2 = Some s /\ available_trigs s = free_count (take (Z.to_nat (total_trigs s)) (triggers s)).
Proof.
  destruct (dbtr_calls_safe demo_dbtr_feat 54 (fun m => m) demo_probes 0 None false 1 demo_dbtr0
    [(demo_entries, (1, 0x1000, 0)); (demo_entries, (3, 1, 0)); (demo_entries, (7, 0, 1)); (demo_entries, (5, 0, 1))])
    as (w1 & w2 & E1 & E2 & (s & Es & Ha & _) & _).
  - reflexivity.
  - reflexivity.
  - intros a. cbn. lia.
  - repeat (apply Forall_cons_2; [split; [exact demo_entries_ok|unfold sane; cbn; lia]|]). apply Forall_nil_2.
  - exists w1, w2. split; [exact E1|]. split; [exact E2|]. exists s. split; [exact Es|exact Ha].
Defined.

Definition demo_hs : sbi_dbtr_hart_triggers_state :=
  mkHs (mkTrig 0 64 0 0 0 0 :: replicate 31 zero_trigger) 0x1000 0 1 1 0 true.

Definition demo_dbtr : dbtr_world := mkDb (Some demo_hs) demo_entries (Hw.mkPmp (fun _ => 0) (fun _ => 0) 0) (mkTr 0 ∅ ∅).

Lemma demo_dbtr_ok : world_ok ∅ demo_dbtr.
Proof.
  split; [exact demo_entries_ok|]. exists demo_hs. split; [done|]. split; try done.
  - intros i t Hi. cbn in Hi. assert (i = 0) as -> by lia. intros [= <-]. split; [done|]. by intros Hm.
  - intros i. by left.
Qed.

Lemma install_all_or_nothing_witness :
  exists w', sbi_dbtr_install_trig demo_dbtr_feat 54 (fun m => m) 1 demo_dbtr = Some (SBI_OK, None, w') /\ installs demo_dbtr w' demo_hs 1.
Proof.
  destruct (install_all_or_nothing demo_dbtr_feat 54 ∅ (fun m => m) demo_dbtr demo_hs 1) as (ret & out & w' & E & [[-> Hi]|[_ (k & _ & _ & _ & _ & [(Hk & Hb & _)|(-> & Hk & _)])]]).
  - reflexivity.
  - exact demo_dbtr_ok.
  - reflexivity.
  - reflexivity.
  - lia.
  - assert (out = None) as ->; [|by exists w'].
    assert (snd <$> (fst <$> sbi_dbtr_install_trig demo_dbtr_feat 54 (fun m => m) 1 demo_dbtr) = Some None) as Ho by (by vm_compute).
    rewrite E in Ho. by injection Ho.
  - assert (k = 0) as -> by lia. destruct Hb. split; [right; by vm_compute|]. split; by vm_compute.
  - cbn in Hk. lia.
Defined.
