(* ===== verification/SbiMpxy.v ===== *)
(** * The message proxy (lib/sbi/sbi_mpxy.c, lib/sbi/sbi_ecall_mpxy.c)

    Channels of message protocol drivers, which the supervisor uses through memory
    it shares with the firmware.  Drivers are records of optional callbacks on a
    state of their own. *)

From S2P Require Import Prelude SbiBitops SbiScratch SbiHartmask SbiMemregion SbiDomain SbiHsm SbiHart SbiPmp SbiPmpRoot.

Definition MPXY_PAGE_SIZE : Z := 4096.

(** [-1U], compared with an [unsigned long]. *)
Definition INVALID_ADDR : Z := 2 ^ 32 - 1.
Definition ATTR_SIZE : Z := 4.

(** Attributes, by their numbers. *)
Definition SBI_MPXY_ATTR_MSG_MAX_LEN : Z := 2.
Definition SBI_MPXY_ATTR_CHANNEL_CAPABILITY : Z := 5.
Definition SBI_MPXY_ATTR_MSI_CONTROL : Z := 7.
Definition SBI_MPXY_ATTR_MSI_ADDR_LO : Z := 8.
Definition SBI_MPXY_ATTR_MSI_ADDR_HI : Z := 9.
Definition SBI_MPXY_ATTR_MSI_DATA : Z := 10.
Definition SBI_MPXY_ATTR_EVENTS_STATE_CONTROL : Z := 11.
Definition SBI_MPXY_ATTR_STD_ATTR_MAX_IDX : Z := 12.
Definition SBI_MPXY_ATTR_MSGPROTO_ATTR_START : Z := 0x80000000.
Definition SBI_MPXY_ATTR_MSGPROTO_ATTR_END : Z := 0xffffffff.

Section Mpxy.
Context {D : Type}.

(** What a callback returns, memory and the driver's state. *)
Definition effect : Type := Z * mem * D.

(** The attributes are the words of their structure, at the offsets the source
    asserts; callbacks are [None] for NULL.  Buffers are addresses. *)
Record sbi_mpxy_channel := mkCh {
  channel_id : Z; attrs : list Z;
  read_attributes : option (Z -> Z -> Z -> mem -> D -> effect);
  write_attributes : option (Z -> Z -> Z -> mem -> D -> effect);
  send_message_with_response : option (Z -> Z -> Z -> Z -> Z -> mem -> D -> effect * option Z);
  send_message_without_response : option (Z -> Z -> Z -> mem -> D -> effect);
  get_notification_events : option (Z -> Z -> mem -> D -> effect * option Z);
  switch_eventsstate : option (Z -> D -> D) }.

Record mpxy_state := mkMs { msi_avail : bool; sse_avail : bool; shmem_addr_lo : Z; shmem_addr_hi : Z }.

(** The size of the shared memories, the channels, the state of the hart, memory,
    the PMP of the hart, the state of the drivers. *)
Record mpxy_world := mkMx {
  mpxy_shmem_size : Z; mpxy_channel_list : list sbi_mpxy_channel; mx_state : mpxy_state; mx_mem : mem; mx_pmp : Hw.pmp; drivers : D }.

Definition put_ms (s : mpxy_state) (w : mpxy_world) : mpxy_world :=
  mkMx (mpxy_shmem_size w) (mpxy_channel_list w) s (mx_mem w) (mx_pmp w) (drivers w).
Definition put_mx (m : mem) (w : mpxy_world) : mpxy_world :=
  mkMx (mpxy_shmem_size w) (mpxy_channel_list w) (mx_state w) m (mx_pmp w) (drivers w).
Definition put_mx_pmp (p : Hw.pmp) (w : mpxy_world) : mpxy_world :=
  mkMx (mpxy_shmem_size w) (mpxy_channel_list w) (mx_state w) (mx_mem w) p (drivers w).
Definition put_drivers (m : mem) (d : D) (w : mpxy_world) : mpxy_world :=
  mkMx (mpxy_shmem_size w) (mpxy_channel_list w) (mx_state w) m (mx_pmp w) d.
Definition put_channel (i : nat) (c : sbi_mpxy_channel) (w : mpxy_world) : mpxy_world :=
  mkMx (mpxy_shmem_size w) (<[i := c]> (mpxy_channel_list w)) (mx_state w) (mx_mem w) (mx_pmp w) (drivers w).

Definition set_mpxy_attrs (l : list Z) (c : sbi_mpxy_channel) : sbi_mpxy_channel :=
  mkCh (channel_id c) l (read_attributes c) (write_attributes c) (send_message_with_response c) (send_message_without_response c)
    (get_notification_events c) (switch_eventsstate c).
Definition set_attr (i v : Z) (c : sbi_mpxy_channel) : sbi_mpxy_channel := set_mpxy_attrs (<[Z.to_nat i := v]> (attrs c)) c.
Definition attr (i : Z) (c : sbi_mpxy_channel) : Z := default 0 (attrs c !! Z.to_nat i).

Definition sbi_mpxy_shmem_disable (s : mpxy_state) : mpxy_state := mkMs (msi_avail s) (sse_avail s) INVALID_ADDR INVALID_ADDR.
Definition mpxy_shmem_enabled (s : mpxy_state) : bool := negb ((shmem_addr_lo s =? INVALID_ADDR) && (shmem_addr_hi s =? INVALID_ADDR)).
Definition mpxy_shmem_base (s : mpxy_state) : Z := shmem_addr_lo s.
Definition mpxy_is_std_attr (attr_id : Z) : bool := Z.shiftr attr_id 31 =? 0.

(** The index of the channel in the list. *)
Fixpoint find_loop (l : list sbi_mpxy_channel) (i : nat) (id : Z) : option nat :=
  match l with
  | [] => None
  | c :: l => if channel_id c =? id then Some i else find_loop l (S i) id
  end.

Definition mpxy_find_channel (id : Z) (w : mpxy_world) : option nat := find_loop (mpxy_channel_list w) 0 id.

(** [outmem] and [inmem] are arrays of 32-bit words. *)
Fixpoint mpxy_copy_std_attrs (n : nat) (idx outmem : Z) (inmem : list Z) (base : Z) (m : mem) : option mem :=
  match n with
  | O => Some m
  | S n =>
      v ← inmem !! Z.to_nat (base + idx);
      mpxy_copy_std_attrs n (idx + 1) outmem inmem base (store_le m (outmem + 4 * idx) 4 v)
  end.

Definition sbi_mpxy_channel_available (w : mpxy_world) : bool := negb (bool_decide (mpxy_channel_list w = [])).

Definition mpxy_std_attrs_init (s : mpxy_state) (c : sbi_mpxy_channel) : sbi_mpxy_channel :=
  let c := set_attr SBI_MPXY_ATTR_MSI_CONTROL 0 c in
  let c := set_attr SBI_MPXY_ATTR_MSI_DATA 0 c in
  let c := set_attr SBI_MPXY_ATTR_MSI_ADDR_LO 0 c in
  let c := set_attr SBI_MPXY_ATTR_MSI_ADDR_HI 0 c in
  let c := set_attr SBI_MPXY_ATTR_CHANNEL_CAPABILITY 0 c in
  let c := set_attr SBI_MPXY_ATTR_EVENTS_STATE_CONTROL 0 c in
  let capability := 0 in
  let capability := if send_message_with_response c then Z.lor capability 8 else capability in
  let capability := if send_message_without_response c then Z.lor capability 16 else capability in
  let capability :=
    if get_notification_events c then
      let capability := Z.lor capability 32 in
      let capability := if msi_avail s then Z.lor capability 1 else if sse_avail s then Z.lor capability 2 else capability in
      if switch_eventsstate c then Z.lor capability 4 else capability
    else capability in
  set_attr SBI_MPXY_ATTR_CHANNEL_CAPABILITY capability c.

(** [None] for the channel is a NULL pointer. *)
Definition sbi_mpxy_register_channel (channel : option sbi_mpxy_channel) (w : mpxy_world) : Z * mpxy_world :=
  match channel with
  | None => (SBI_EINVAL, w)
  | Some c =>
      match mpxy_find_channel (channel_id c) w with
      | Some _ => (SBI_EALREADY, w)
      | None =>
          let c := mpxy_std_attrs_init (mx_state w) c in
          let size :=
            if mpxy_shmem_size w <? attr SBI_MPXY_ATTR_MSG_MAX_LEN c
            then u64 (attr SBI_MPXY_ATTR_MSG_MAX_LEN c + (MPXY_PAGE_SIZE - 1)) / MPXY_PAGE_SIZE else mpxy_shmem_size w in
          (SBI_OK, mkMx size (mpxy_channel_list w ++ [c]) (mx_state w) (mx_mem w) (mx_pmp w) (drivers w))
      end
  end.

(** The platform registers its channels last. *)
Definition sbi_mpxy_init (offset_ok : bool) (sbi_platform_mpxy_init : mpxy_world -> Z * mpxy_world) (w : mpxy_world) : Z * mpxy_world :=
  if negb offset_ok then (SBI_ENOMEM, w)
  else sbi_platform_mpxy_init (put_ms (sbi_mpxy_shmem_disable (mkMs false false 0 0)) w).

Definition sbi_mpxy_get_shmem_size (w : mpxy_world) : Z := mpxy_shmem_size w.

(** The hart and its domain. *)
Variables (feat : sbi_hart_features) (bits : Z) (dom : option sbi_domain).

(** The part of a call between the map and the unmap of [addr]. *)
Definition with_window {A} (addr : Z) (w : mpxy_world) (k : mpxy_world -> option (A * mpxy_world)) : option (A * mpxy_world) :=
  '(_, p) ← sbi_hart_map_saddr bits feat addr (mpxy_shmem_size w) (mx_pmp w);
  '(x, w) ← k (put_mx_pmp p w);
  let '(_, p) := sbi_hart_unmap_saddr bits feat (mx_pmp w) in
  Some (x, put_mx_pmp p w).

Definition sbi_mpxy_set_shmem (lo hi flags : Z) (w : mpxy_world) : option (Z * mpxy_world) :=
  let s := mx_state w in
  if (lo =? INVALID_ADDR) && (hi =? INVALID_ADDR) then Some (SBI_OK, put_ms (sbi_mpxy_shmem_disable s) w)
  else if 2 <=? flags then Some (SBI_EINVAL, w)
  else if negb (Z.land lo (MPXY_PAGE_SIZE - 1) =? 0) then Some (SBI_EINVAL, w)
  else
    ok ← sbi_domain_check_addr_range dom lo (mpxy_shmem_size w) PRV_S (Z.lor SBI_DOMAIN_READ SBI_DOMAIN_WRITE);
    if negb ok then Some (SBI_EINVALID_ADDR, w)
    else
      '(_, w) ← (if flags =? 1
                 then with_window lo w (fun w =>
                        let m := store_le (mx_mem w) lo 8 (shmem_addr_lo s) in
                        let m := store_le m (lo + 8) 8 (shmem_addr_hi s) in
                        Some (tt, put_mx m w))
                 else Some (tt, w));
      Some (SBI_OK, put_ms (mkMs (msi_avail s) (sse_avail s) lo hi) w).

(** [l] are the channels from the one with number [node_index] on. *)
Fixpoint ids_loop (l : list sbi_mpxy_channel) (node_index node_ret start_index returned base : Z) (m : mem) : mem :=
  match l with
  | [] => m
  | c :: l =>
      if (start_index <=? node_index) && (node_index <? u32 (start_index + returned))
      then ids_loop l (u32 (node_index + 1)) (u32 (node_ret + 1)) start_index returned base
             (store_le m (base + 4 * u32 (2 + node_ret)) 4 (channel_id c))
      else ids_loop l (u32 (node_index + 1)) node_ret start_index returned base m
  end.

Definition sbi_mpxy_get_channel_ids (start_index : Z) (w : mpxy_world) : option (Z * mpxy_world) :=
  if negb (mpxy_shmem_enabled (mx_state w)) then Some (SBI_ENO_SHMEM, w)
  else
    let channels_count := u32 (Z.of_nat (length (mpxy_channel_list w))) in
    if channels_count <? start_index then Some (SBI_EINVAL, w)
    else
      let base := mpxy_shmem_base (mx_state w) in
      with_window base w (fun w =>
        let max_channelids := u32 (mpxy_shmem_size w / 4 - 2) in
        let remaining := u32 (channels_count - start_index) in
        let returned := if max_channelids <? remaining then max_channelids else remaining in
        let m := ids_loop (mpxy_channel_list w) 0 0 start_index returned base (mx_mem w) in
        let remaining := u32 (channels_count - u32 (start_index + returned)) in
        let m := store_le m base 4 remaining in
        let m := store_le m (base + 4) 4 returned in
        Some (SBI_OK, put_mx m w)).

(** The checks [read_attrs] and [write_std_attrs] start with: an error or the channel. *)
Definition attrs_check (id base_attr_id attr_count : Z) (w : mpxy_world) : Z + nat :=
  if negb (mpxy_shmem_enabled (mx_state w)) then inl SBI_ENO_SHMEM
  else
    match mpxy_find_channel id w with
    | None => inl SBI_ENOTSUPP
    | Some i =>
        if (SBI_MPXY_ATTR_STD_ATTR_MAX_IDX <=? base_attr_id) && (base_attr_id <? SBI_MPXY_ATTR_MSGPROTO_ATTR_START) then inl SBI_EINVAL
        else if (attr_count =? 0) || (mpxy_shmem_size w / ATTR_SIZE <? attr_count) then inl SBI_EINVAL
        else inr i
    end.

Definition sbi_mpxy_read_attrs (id base_attr_id attr_count : Z) (w : mpxy_world) : option (Z * mpxy_world) :=
  match attrs_check id base_attr_id attr_count w with
  | inl ret => Some (ret, w)
  | inr i =>
      c ← mpxy_channel_list w !! i;
      let base := mpxy_shmem_base (mx_state w) in
      let end_id := u32 (base_attr_id + attr_count - 1) in
      with_window base w (fun w =>
        if mpxy_is_std_attr base_attr_id then
          if SBI_MPXY_ATTR_STD_ATTR_MAX_IDX <=? end_id then Some (SBI_EBAD_RANGE, w)
          else m ← mpxy_copy_std_attrs (Z.to_nat attr_count) 0 base (attrs c) base_attr_id (mx_mem w); Some (SBI_OK, put_mx m w)
        else
          match read_attributes c with
          | Some f =>
              if SBI_MPXY_ATTR_MSGPROTO_ATTR_END <? end_id then Some (SBI_EBAD_RANGE, w)
              else let '(ret, m, d) := f base base_attr_id attr_count (mx_mem w) (drivers w) in Some (ret, put_drivers m d w)
          | None => Some (SBI_EBAD_RANGE, w)
          end)
  end.

Definition mpxy_check_write_std_attr (c : sbi_mpxy_channel) (attr_id attr_val : Z) : Z :=
  if attr_id =? SBI_MPXY_ATTR_MSI_CONTROL then
    let ret := if 1 <? attr_val then SBI_EINVAL else SBI_OK in
    if (attr_val =? 1) && (attr SBI_MPXY_ATTR_MSI_ADDR_LO c =? INVALID_ADDR) && (attr SBI_MPXY_ATTR_MSI_ADDR_HI c =? INVALID_ADDR)
    then SBI_EDENIED else ret
  else if (attr_id =? SBI_MPXY_ATTR_MSI_ADDR_LO) || (attr_id =? SBI_MPXY_ATTR_MSI_ADDR_HI) || (attr_id =? SBI_MPXY_ATTR_MSI_DATA) then SBI_OK
  else if attr_id =? SBI_MPXY_ATTR_EVENTS_STATE_CONTROL then (if 1 <? attr_val then SBI_EINVAL else SBI_OK)
  else SBI_EBAD_RANGE.

Definition mpxy_write_std_attr (s : mpxy_state) (attr_id attr_val : Z) (c : sbi_mpxy_channel) (d : D) : sbi_mpxy_channel * D :=
  if attr_id =? SBI_MPXY_ATTR_MSI_CONTROL then
    (if msi_avail s && (attr_val <=? 1) then set_attr attr_id attr_val c else c, d)
  else if (attr_id =? SBI_MPXY_ATTR_MSI_ADDR_LO) || (attr_id =? SBI_MPXY_ATTR_MSI_ADDR_HI) || (attr_id =? SBI_MPXY_ATTR_MSI_DATA) then
    (if msi_avail s then set_attr attr_id attr_val c else c, d)
  else if attr_id =? SBI_MPXY_ATTR_EVENTS_STATE_CONTROL then
    match switch_eventsstate c with
    | Some f => if attr_val <=? 1 then (set_attr attr_id attr_val c, f attr_val d) else (c, d)
    | None => (c, d)
    end
  else (c, d).

(** The two passes over the attributes [attr_id ..], with their values in memory. *)
Fixpoint check_std_attrs (n : nat) (attr_id mem_ptr : Z) (c : sbi_mpxy_channel) (m : mem) : Z :=
  match n with
  | O => SBI_OK
  | S n =>
      let ret := mpxy_check_write_std_attr c attr_id (load_le m mem_ptr 4) in
      if negb (ret =? 0) then ret else check_std_attrs n (attr_id + 1) (mem_ptr + 4) c m
  end.

Fixpoint write_std_attrs (s : mpxy_state) (n : nat) (attr_id mem_ptr : Z) (m : mem) (c : sbi_mpxy_channel) (d : D) : sbi_mpxy_channel * D :=
  match n with
  | O => (c, d)
  | S n =>
      let '(c, d) := mpxy_write_std_attr s attr_id (load_le m mem_ptr 4) c d in
      write_std_attrs s n (attr_id + 1) (mem_ptr + 4) m c d
  end.

(** [later] is the memory as the second pass reads it: other harts may write the
    shared memory between the passes. *)
Definition sbi_mpxy_write_attrs (later : mem) (id base_attr_id attr_count : Z) (w : mpxy_world) : option (Z * mpxy_world) :=
  match attrs_check id base_attr_id attr_count w with
  | inl ret => Some (ret, w)
  | inr i =>
      c ← mpxy_channel_list w !! i;
      let base := mpxy_shmem_base (mx_state w) in
      let end_id := u32 (base_attr_id + attr_count - 1) in
      with_window base w (fun w =>
        if mpxy_is_std_attr base_attr_id then
          if SBI_MPXY_ATTR_STD_ATTR_MAX_IDX <=? end_id then Some (SBI_EBAD_RANGE, w)
          else
            let n := Z.to_nat (end_id - base_attr_id + 1) in
            let ret := check_std_attrs n base_attr_id base c (mx_mem w) in
            if negb (ret =? 0) then Some (ret, w)
            else
              let '(c, d) := write_std_attrs (mx_state w) n base_attr_id base later c (drivers w) in
              Some (ret, put_channel i c (put_drivers (mx_mem w) d w))
        else
          match write_attributes c with
          | Some f =>
              if SBI_MPXY_ATTR_MSGPROTO_ATTR_END <? end_id then Some (SBI_EBAD_RANGE, w)
              else let '(ret, m, d) := f base base_attr_id attr_count (mx_mem w) (drivers w) in Some (ret, put_drivers m d w)
          | None => Some (SBI_EBAD_RANGE, w)
          end)
  end.

(** [resp_data_len] is [None] for NULL and its value before the call otherwise; the
    second result is its value afterwards. *)
Definition sbi_mpxy_send_message (id msg_id msg_data_len : Z) (resp_data_len : option Z) (w : mpxy_world) : option (Z * option Z * mpxy_world) :=
  if negb (mpxy_shmem_enabled (mx_state w)) then Some (SBI_ENO_SHMEM, resp_data_len, w)
  else
    match mpxy_find_channel id w with
    | None => Some (SBI_ENOTSUPP, resp_data_len, w)
    | Some i =>
        c ← mpxy_channel_list w !! i;
        match (match resp_data_len with
               | Some old => (fun f buf m d => f msg_id buf (u32 msg_data_len) buf (u32 (mpxy_shmem_size w)) m d) <$> send_message_with_response c
               | None => (fun f buf m d => (f msg_id buf (u32 msg_data_len) m d, None)) <$> send_message_without_response c
               end) with
        | None => Some (SBI_ENOTSUPP, resp_data_len, w)
        | Some f =>
            if (mpxy_shmem_size w <? msg_data_len) || (attr SBI_MPXY_ATTR_MSG_MAX_LEN c <? msg_data_len) then Some (SBI_EINVAL, resp_data_len, w)
            else
              let base := mpxy_shmem_base (mx_state w) in
              '(ret, len, w) ← with_window base w (fun w =>
                let '(ret, m, d, len) := f base (mx_mem w) (drivers w) in
                Some (ret, match resp_data_len with Some old => Some (default old len) | None => None end, put_drivers m d w));
              if (ret =? SBI_ETIMEOUT) || (ret =? SBI_EIO) then Some (ret, len, w)
              else if negb (ret =? 0) then Some (SBI_EFAIL, len, w)
              else
                match len with
                | Some n => if (mpxy_shmem_size w <? n) || (attr SBI_MPXY_ATTR_MSG_MAX_LEN c <? n) then Some (SBI_EFAIL, len, w) else Some (SBI_OK, len, w)
                | None => Some (SBI_OK, len, w)
                end
        end
    end.

Definition sbi_mpxy_get_notification_events (id events_len : Z) (w : mpxy_world) : option (Z * Z * mpxy_world) :=
  if negb (mpxy_shmem_enabled (mx_state w)) then Some (SBI_ENO_SHMEM, events_len, w)
  else
    match mpxy_find_channel id w with
    | None => Some (SBI_ENOTSUPP, events_len, w)
    | Some i =>
        c ← mpxy_channel_list w !! i;
        match get_notification_events c with
        | None => Some (SBI_ENOTSUPP, events_len, w)
        | Some f =>
            let base := mpxy_shmem_base (mx_state w) in
            '(ret, len, w) ← with_window base w (fun w =>
              let '(ret, m, d, len) := f base (u32 (mpxy_shmem_size w)) (mx_mem w) (drivers w) in
              Some (ret, default events_len len, put_drivers m d w));
            if negb (ret =? 0) then Some (ret, len, w)
            else if u64 (mpxy_shmem_size w - 16) <? len then Some (SBI_EFAIL, len, w)
            else Some (SBI_OK, len, w)
        end
    end.

(** [value] is [out->value]. *)
Definition sbi_ecall_mpxy_handler (later : mem) (funcid a0 a1 a2 value : Z) (w : mpxy_world) : option (Z * Z * mpxy_world) :=
  let plain r := '(ret, w) ← r; Some (ret, value, w) in
  if funcid =? 0 then Some (0, sbi_mpxy_get_shmem_size w, w)
  else if funcid =? 1 then plain (sbi_mpxy_set_shmem a0 a1 a2 w)
  else if funcid =? 2 then plain (sbi_mpxy_get_channel_ids (u32 a0) w)
  else if funcid =? 3 then plain (sbi_mpxy_read_attrs (u32 a0) (u32 a1) (u32 a2) w)
  else if funcid =? 4 then plain (sbi_mpxy_write_attrs later (u32 a0) (u32 a1) (u32 a2) w)
  else if funcid =? 5 then '(ret, len, w) ← sbi_mpxy_send_message (u32 a0) (u8 a1) a2 (Some value) w; Some (ret, default value len, w)
  else if funcid =? 6 then '(ret, _, w) ← sbi_mpxy_send_message (u32 a0) (u8 a1) a2 None w; Some (ret, value, w)
  else if funcid =? 7 then sbi_mpxy_get_notification_events (u32 a0) value w
  else Some (SBI_ENOTSUPP, value, w).

End Mpxy.

(** ** The drivers and the state *)

Section Correctness.
Context {D : Type}.
Variables (feat : sbi_hart_features) (bits : Z) (d : sbi_domain).
Notation channel := (@sbi_mpxy_channel D).
Notation world := (@mpxy_world D).

Definition same_but (a n : Z) (m m' : mem) : Prop := forall x, ~ (a <= x < a + n) -> m' x = m x.

Lemma same_but_refl a n m : same_but a n m m.
Proof. done. Qed.

Lemma same_but_trans a n m1 m2 m3 : same_but a n m1 m2 -> same_but a n m2 m3 -> same_but a n m1 m3.
Proof. intros H1 H2 x Hx. by rewrite H2, H1. Qed.

Lemma same_but_store a n m p k v : a <= p -> p + Z.of_nat k <= a + n -> same_but a n m (store_le m p k v).
Proof. intros H1 H2 x Hx. apply store_le_other. lia. Qed.

(** What a driver promises: it writes to the buffer it is given only. *)
Record channel_ok (c : channel) : Prop := {
  ch_id : 0 <= channel_id c < 2 ^ 32;
  ch_attrs : length (attrs c) = 12%nat;
  ch_read f buf base n m s : read_attributes c = Some f -> same_but buf (4 * n) m (f buf base n m s).1.2;
  ch_write f buf base n m s : write_attributes c = Some f -> same_but buf (4 * n) m (f buf base n m s).1.2;
  ch_send f id buf len resp max m s : send_message_with_response c = Some f -> same_but resp max m (f id buf len resp max m s).1.1.2;
  ch_post f id buf len m s : send_message_without_response c = Some f -> same_but buf len m (f id buf len m s).1.2;
  ch_events f buf max m s : get_notification_events c = Some f -> same_but buf max m (f buf max m s).1.1.2 }.

(** The supervisor may read and write the byte. *)
Definition shared (x : Z) : Prop := sbi_domain_check_addr (Some d) x PRV_S (Z.lor SBI_DOMAIN_READ SBI_DOMAIN_WRITE) = true.

Record mx_ok (w : world) : Prop := {
  mx_size : 16 <= mpxy_shmem_size w < 2 ^ 32;
  mx_count : Z.of_nat (length (mpxy_channel_list w)) < 2 ^ 32;
  mx_channels : Forall channel_ok (mpxy_channel_list w);
  mx_shmem : mpxy_shmem_enabled (mx_state w) = true ->
    forall x, shmem_addr_lo (mx_state w) <= x < shmem_addr_lo (mx_state w) + mpxy_shmem_size w -> shared x }.

Lemma mx_ok_mem w m s p : mx_ok w -> mx_ok (mkMx (mpxy_shmem_size w) (mpxy_channel_list w) (mx_state w) m p s).
Proof. by intros []. Qed.

Lemma find_loop_spec (l : list channel) i id k : find_loop l i id = Some k -> exists c, (i <= k)%nat /\ l !! (k - i)%nat = Some c /\ channel_id c = id.
Proof.
  revert i. induction l as [|c l IH]; intros i; cbn [find_loop]; [done|]. destruct (Z.eqb_spec (channel_id c) id) as [E|E].
  - intros [= <-]. exists c. rewrite Nat.sub_diag. done.
  - intros Hk. destruct (IH (S i) Hk) as (c' & Hle & Hl & Hid). exists c'. split; [lia|]. split; [|done].
    by replace (k - i)%nat with (S (k - S i)) by lia.
Qed.

Lemma found w id i : mx_ok w -> mpxy_find_channel id w = Some i -> exists c, mpxy_channel_list w !! i = Some c /\ channel_ok c /\ channel_id c = id.
Proof.
  intros Hw Hf. destruct (find_loop_spec _ _ _ _ Hf) as (c & _ & Hc & Hid). rewrite Nat.sub_0_r in Hc. exists c. split; [done|]. split; [|done].
  pose proof (mx_channels _ Hw) as Hch. rewrite List.Forall_forall in Hch. apply Hch, list_elem_of_In. by eapply list_elem_of_lookup_2.
Qed.

(** A call runs in a window of the PMP. *)
Lemma with_window_eq {A} a w (k : world -> option (A * world)) x w' :
  (forall p, k (put_mx_pmp p w) = Some (x, put_mx_pmp p w')) -> exists p, with_window feat bits a w k = Some (x, put_mx_pmp p w').
Proof.
  intros Hk. unfold with_window. destruct (map_saddr_total bits feat a (mpxy_shmem_size w) (mx_pmp w)) as ([rc p] & ->). rewrite some_bind.
  cbv beta iota. rewrite Hk, some_bind. cbv beta iota. destruct (sbi_hart_unmap_saddr bits feat _) as [rc' p']. by exists p'.
Qed.

(** ** Copying *)

Lemma copy_std_attrs_spec n idx out l base m : 0 <= idx -> 0 <= base -> base + idx + Z.of_nat n <= Z.of_nat (length l) ->
  exists m', mpxy_copy_std_attrs n idx out l base m = Some m' /\
    same_but (out + 4 * idx) (4 * Z.of_nat n) m m' /\
    forall k, 0 <= k < Z.of_nat n -> Forall (fun v => 0 <= v < 2 ^ 32) l -> Some (load_le m' (out + 4 * (idx + k)) 4) = l !! Z.to_nat (base + idx + k).
Proof.
  revert idx m. induction n as [|n IH]; intros idx m Hi Hb Hl; cbn [mpxy_copy_std_attrs]; [exists m; split_and!; try done; lia|].
  destruct (lookup_lt_is_Some_2 l (Z.to_nat (base + idx))) as [v Hv]; [lia|]. rewrite Hv, some_bind.
  destruct (IH (idx + 1) (store_le m (out + 4 * idx) 4 v)) as (m' & -> & Hs & Hk); [lia..|]. exists m'. split; [done|]. split.
  - intros x Hx. rewrite Hs by lia. apply store_le_other. lia.
  - intros k Hkn Hf. destruct (Z.eq_dec k 0) as [-> |Hk0].
    + rewrite !Z.add_0_r, Hv. f_equal. rewrite (load_le_ext m' (store_le m (out + 4 * idx) 4 v) _ (out + 4 * idx)).
      * apply load_store_le. rewrite List.Forall_forall in Hf. apply Hf, list_elem_of_In. by eapply list_elem_of_lookup_2.
      * intros i Hi'. apply Hs. lia.
    + specialize (Hk (k - 1) ltac:(lia) Hf). replace (idx + 1 + (k - 1)) with (idx + k) in Hk by lia.
      replace (base + (idx + 1) + (k - 1)) with (base + idx + k) in Hk by lia. done.
Qed.

(** The segment of the channels that is returned. *)
Lemma ids_loop_spec (l : list channel) i r start ret base m :
  Forall channel_ok l -> 0 <= i -> 0 <= start -> 0 <= ret -> start + ret < 2 ^ 32 -> i + Z.of_nat (length l) < 2 ^ 32 -> ret + 2 < 2 ^ 32 ->
  r = Z.min ret (Z.max 0 (i - start)) ->
  let m' := ids_loop l i r start ret base m in
  same_but (base + 8 + 4 * r) (4 * (ret - r)) m m' /\
  forall j c, r <= j < ret -> i <= start + j -> l !! Z.to_nat (start + j - i) = Some c -> load_le m' (base + 8 + 4 * j) 4 = channel_id c.
Proof.
  intros Hok Hi Hst Hret Hsr Hlen Hret2. revert i r m Hi Hlen. induction Hok as [|c l Hc Hok IH]; intros i r m Hi Hlen Hr; cbn [ids_loop].
  { split; [done|]. intros j c _ _. by rewrite lookup_nil. }
  cbn [length] in Hlen. assert (u32 (i + 1) = i + 1) as -> by (apply wrap_small; lia). assert (u32 (start + ret) = start + ret) as -> by (apply wrap_small; lia).
  destruct ((start <=? i) && (i <? start + ret)) eqn:E.
  - apply andb_true_iff in E as [E1%Z.leb_le E2%Z.ltb_lt]. assert (r = i - start) as -> by lia.
    assert (u32 (2 + (i - start)) = 2 + (i - start)) as -> by (apply wrap_small; lia). assert (u32 (i - start + 1) = i - start + 1) as -> by (apply wrap_small; lia).
    set (m1 := store_le m _ 4 (channel_id c)).
    destruct (IH (i + 1) (i - start + 1) m1) as [Hs Hj]; [lia|lia|lia|]. split.
    + intros x Hx. rewrite Hs by lia. apply store_le_other. lia.
    + intros j c' Hj1 Hj2 Hc'. destruct (Z.eq_dec j (i - start)) as [-> |Hn].
      * replace (Z.to_nat (start + (i - start) - i)) with 0%nat in Hc' by lia. injection Hc' as <-.
        rewrite (load_le_ext _ m1 _ (base + 4 * (2 + (i - start)))); [apply load_store_le, Hc|]. intros k Hk. rewrite Hs by lia. f_equal. lia.
      * apply Hj; [lia|lia|]. replace (Z.to_nat (start + j - i)) with (S (Z.to_nat (start + j - (i + 1)))) in Hc' by lia. done.
  - assert (r = Z.min ret (Z.max 0 (i + 1 - start))) as Hr'.
    { apply andb_false_iff in E as [E%Z.leb_gt|E%Z.ltb_ge]; lia. }
    destruct (IH (i + 1) r m) as [Hs Hj]; [lia|lia|done|]. split; [done|]. intros j c' Hj1 Hj2 Hc'.
    assert (i < start + j) by (apply andb_false_iff in E as [E%Z.leb_gt|E%Z.ltb_ge]; lia).
    apply Hj; [lia|lia|]. replace (Z.to_nat (start + j - i)) with (S (Z.to_nat (start + j - (i + 1)))) in Hc' by lia. done.
Qed.

(** ** What the calls change *)

(** The state stays as it should be, and only shared memory has changed. *)
Definition confined (w w' : world) : Prop := mx_ok w' /\ forall x, mx_mem w' x <> mx_mem w x -> shared x.

Lemma confined_refl w : mx_ok w -> confined w w.
Proof. by split. Qed.

Lemma in_shmem w m' s' p : mx_ok w -> mpxy_shmem_enabled (mx_state w) = true ->
  same_but (shmem_addr_lo (mx_state w)) (mpxy_shmem_size w) (mx_mem w) m' ->
  confined w (mkMx (mpxy_shmem_size w) (mpxy_channel_list w) (mx_state w) m' p s').
Proof.
  intros Hw He Hs. split; [by apply mx_ok_mem|]. intros x Hx. apply (mx_shmem _ Hw He).
  destruct (decide (shmem_addr_lo (mx_state w) <= x < shmem_addr_lo (mx_state w) + mpxy_shmem_size w)) as [|Hn]; [done|].
  destruct Hx. by apply Hs.
Qed.

(** The result of a part of a call that runs in a window and keeps the channels. *)
Lemma window_call {A} w (k : world -> option (A * world)) x m' s' : mx_ok w -> mpxy_shmem_enabled (mx_state w) = true ->
  same_but (shmem_addr_lo (mx_state w)) (mpxy_shmem_size w) (mx_mem w) m' ->
  (forall p, k (put_mx_pmp p w) = Some (x, put_drivers m' s' (put_mx_pmp p w))) ->
  exists w', with_window feat bits (mpxy_shmem_base (mx_state w)) w k = Some (x, w') /\ confined w w' /\ mx_mem w' = m' /\ drivers w' = s' /\
    mpxy_channel_list w' = mpxy_channel_list w.
Proof.
  intros Hw He Hs Hk. destruct (with_window_eq (mpxy_shmem_base (mx_state w)) w k x (put_drivers m' s' w)) as [p ->]; [exact Hk|].
  eexists. split; [reflexivity|]. split; [exact (in_shmem w m' s' p Hw He Hs)|done].
Qed.

Ltac in_window x m' s' := lazymatch goal with |- context [with_window _ _ _ ?w ?k] =>
  let w' := fresh "w'" in let Hcf := fresh "Hcf" in let Hm := fresh "Hm" in let Hd := fresh "Hd" in let Hl := fresh "Hl" in
  destruct (window_call w k x m' s') as (w' & -> & Hcf & Hm & Hd & Hl); [assumption|assumption| | |] end.

Hypotheses (Hsane : dom_sane d) (Htop : Forall (fun r => base r + 2 ^ order r < 2 ^ 64) (dom_regions d)).

Lemma mpxy_set_shmem_ok lo hi flags w : mx_ok w -> 0 <= lo -> lo + mpxy_shmem_size w < 2 ^ 64 ->
  exists ret w', sbi_mpxy_set_shmem feat bits (Some d) lo hi flags w = Some (ret, w') /\ confined w w'.
Proof.
  intros Hw Hlo Hmax. pose proof (mx_size _ Hw) as Hsz. unfold sbi_mpxy_set_shmem.
  destruct ((lo =? INVALID_ADDR) && (hi =? INVALID_ADDR)) eqn:Einv.
  { eexists _, _. split; [reflexivity|]. split; [|done]. destruct Hw as [H1 H2 H3 H4]. split; try done. }
  destruct (2 <=? flags); [by eexists _, _; split; [|apply confined_refl]|].
  destruct (negb (Z.land lo _ =? 0)); [by eexists _, _; split; [|apply confined_refl]|].
  destruct (check_addr_range_correct d lo (mpxy_shmem_size w) PRV_S (Z.lor SBI_DOMAIN_READ SBI_DOMAIN_WRITE) Hsane Htop) as (b & -> & Hb); [lia..|].
  rewrite some_bind. destruct b; cbn [negb]; [|by eexists _, _; split; [|apply confined_refl]].
  assert (forall x, lo <= x < lo + mpxy_shmem_size w -> shared x) as Hsh by (intros x Hx; by apply (proj1 Hb eq_refl)).
  assert (forall m p, same_but lo 16 (mx_mem w) m -> confined w (put_ms (mkMs (msi_avail (mx_state w)) (sse_avail (mx_state w)) lo hi) (put_mx m (put_mx_pmp p w)))) as Hnew.
  { intros m p Hm. split; [destruct Hw as [H1 H2 H3 H4]; by split|]. intros x Hx. apply Hsh.
    destruct (decide (lo <= x < lo + 16)) as [|Hn]; [lia|]. destruct Hx. by apply Hm. }
  destruct (flags =? 1).
  - set (m1 := store_le (store_le (mx_mem w) lo 8 (shmem_addr_lo (mx_state w))) (lo + 8) 8 (shmem_addr_hi (mx_state w))).
    edestruct (with_window_eq lo w (fun w0 => Some (tt, put_mx (store_le (store_le (mx_mem w0) lo 8 (shmem_addr_lo (mx_state w))) (lo + 8) 8 (shmem_addr_hi (mx_state w))) w0)) tt (put_mx m1 w)) as [p ->]; [done|].
    rewrite some_bind. eexists _, _. split; [reflexivity|]. apply (Hnew m1 p).
    apply (same_but_trans _ _ _ (store_le (mx_mem w) lo 8 (shmem_addr_lo (mx_state w)))); apply same_but_store; lia.
  - rewrite some_bind. eexists _, _. split; [reflexivity|]. by apply (Hnew (mx_mem w) (mx_pmp w)).
Qed.

(** The identifiers of the channels from [start] on, as many as there is room for. *)
Definition listed (w w' : world) (start : Z) : Prop :=
  let count := Z.of_nat (length (mpxy_channel_list w)) in
  let base := shmem_addr_lo (mx_state w) in
  let returned := Z.min (count - start) (mpxy_shmem_size w / 4 - 2) in
  load_le (mx_mem w') base 4 = count - start - returned /\ load_le (mx_mem w') (base + 4) 4 = returned /\
  forall j c, 0 <= j < returned -> mpxy_channel_list w !! Z.to_nat (start + j) = Some c -> load_le (mx_mem w') (base + 8 + 4 * j) 4 = channel_id c.

Lemma get_channel_ids_spec start w : mx_ok w -> mpxy_shmem_enabled (mx_state w) = true -> 0 <= start <= Z.of_nat (length (mpxy_channel_list w)) ->
  exists w', sbi_mpxy_get_channel_ids feat bits start w = Some (SBI_OK, w') /\ confined w w' /\ listed w w' start.
Proof.
  intros Hw He [Hst Hge]. pose proof (mx_size _ Hw) as Hsz. pose proof (mx_count _ Hw) as Hcnt. unfold sbi_mpxy_get_channel_ids.
  rewrite He. cbn [negb]. set (n := Z.of_nat (length (mpxy_channel_list w))) in *. assert (u32 n = n) as -> by (apply wrap_small; lia).
  replace (n <? start) with false by lia.
  assert (4 <= mpxy_shmem_size w / 4 < 2 ^ 30) as Hq by (split; [apply Z.div_le_lower_bound|apply Z.div_lt_upper_bound]; lia).
  assert (4 * (mpxy_shmem_size w / 4) <= mpxy_shmem_size w) as Hq4 by (apply Z.mul_div_le; lia).
  set (q := mpxy_shmem_size w / 4) in *. set (ret := Z.min (n - start) (q - 2)). set (lo := shmem_addr_lo (mx_state w)).
  set (m1 := ids_loop (mpxy_channel_list w) 0 0 start ret lo (mx_mem w)).
  destruct (ids_loop_spec (mpxy_channel_list w) 0 0 start ret lo (mx_mem w)) as [Hs1 Hids]; [apply Hw|lia..|]. fold m1 in Hs1, Hids.
  set (m2 := store_le m1 lo 4 (n - start - ret)). set (m3 := store_le m2 (lo + 4) 4 ret).
  in_window SBI_OK m3 (drivers w).
  - apply (same_but_trans _ _ _ m2); [apply (same_but_trans _ _ _ m1)|apply same_but_store; fold lo; lia].
    + intros x Hx. apply Hs1. fold lo in Hx. lia.
    + apply same_but_store; fold lo; lia.
  - intros p. cbn [mpxy_shmem_size put_mx_pmp mpxy_channel_list mx_mem]. fold q.
    rewrite (wrap_small 32 (q - 2)), (wrap_small 32 (n - start)) by lia.
    assert ((if q - 2 <? n - start then q - 2 else n - start) = ret) as -> by (unfold ret; zcases; lia).
    change (mpxy_shmem_base (mx_state w)) with lo. fold m1. rewrite (wrap_small 32 (start + ret)), (wrap_small 32 (n - (start + ret))) by lia.
    replace (n - (start + ret)) with (n - start - ret) by lia. reflexivity.
  - exists w'. split; [reflexivity|]. split; [exact Hcf|].
    unfold listed. fold n lo q ret. rewrite Hm.
    assert (forall a, lo + 8 <= a -> load_le m3 a 4 = load_le m1 a 4) as Hfar.
    { intros a Ha. apply load_le_ext. intros k Hk. unfold m3, m2. rewrite !store_le_other by lia. done. }
    split_and!.
    + rewrite (load_le_ext m3 m2 lo lo); [apply load_store_le; lia|]. intros k Hk. apply store_le_other. lia.
    + apply load_store_le. lia.
    + intros j c Hj Hcj. rewrite Hfar by lia. apply Hids; [lia|lia|]. by rewrite Z.sub_0_r.
Qed.

Lemma get_channel_ids_ok start w : mx_ok w -> 0 <= start ->
  exists ret w', sbi_mpxy_get_channel_ids feat bits start w = Some (ret, w') /\ confined w w'.
Proof.
  intros Hw Hst. pose proof (mx_count _ Hw).
  destruct (decide (mpxy_shmem_enabled (mx_state w) = true /\ start <= Z.of_nat (length (mpxy_channel_list w)))) as [[He Hle]|Hno].
  { destruct (get_channel_ids_spec start w Hw He ltac:(lia)) as (w' & E & Hcf & _). by eexists _, _. }
  unfold sbi_mpxy_get_channel_ids. destruct (mpxy_shmem_enabled (mx_state w)) eqn:He; cbn [negb]; [|by eexists _, _; split; [|apply confined_refl]].
  rewrite (wrap_small 32) by lia. assert (Z.of_nat (length (mpxy_channel_list w)) <? start = true) as -> by (apply Z.ltb_lt; destruct (Z.le_gt_cases start (Z.of_nat (length (mpxy_channel_list w)))); [by destruct Hno|done]).
  by eexists _, _; split; [|apply confined_refl].
Qed.

(** The common checks. *)
Lemma attrs_check_spec id base n w : mx_ok w -> 0 <= n ->
  match attrs_check id base n w with
  | inl ret => True
  | inr i => mpxy_shmem_enabled (mx_state w) = true /\ (exists c, mpxy_channel_list w !! i = Some c /\ channel_ok c /\ channel_id c = id) /\
      (base < 12 \/ 2 ^ 31 <= base) /\ 0 < n /\ 4 * n <= mpxy_shmem_size w
  end.
Proof.
  intros Hw Hn. unfold attrs_check. destruct (mpxy_shmem_enabled (mx_state w)) eqn:He; [|done]. cbn [negb].
  destruct (mpxy_find_channel id w) as [i|] eqn:Ef; [|done]. destruct (_ && _) eqn:E1; [done|]. destruct (_ || _) eqn:E2; [done|].
  apply orb_false_iff in E2 as [E2%Z.eqb_neq E3%Z.ltb_ge]. split; [done|]. split; [by apply found|]. split.
  - unfold SBI_MPXY_ATTR_STD_ATTR_MAX_IDX, SBI_MPXY_ATTR_MSGPROTO_ATTR_START in E1. apply andb_false_iff in E1 as [E1%Z.leb_gt|E1%Z.ltb_ge]; lia.
  - unfold ATTR_SIZE in E3. pose proof (Z.mul_div_le (mpxy_shmem_size w) 4). lia.
Qed.

Lemma std_attr base : 0 <= base < 2 ^ 32 -> mpxy_is_std_attr base = (base <? 2 ^ 31).
Proof.
  intros Hb. unfold mpxy_is_std_attr. rewrite Z.shiftr_div_pow2 by lia. destruct (Z.ltb_spec base (2 ^ 31)).
  - by rewrite Z.div_small by lia.
  - apply Z.eqb_neq. pose proof (Z.div_le_lower_bound base (2 ^ 31) 1). lia.
Qed.

(** *** Writing the standard attributes *)

(** When the value [v] of the attribute [k] is stored, and what the driver is told. *)
Definition stored (s : mpxy_state) (c : channel) (k v : Z) : bool :=
  if k =? 7 then msi_avail s && (v <=? 1) else if (8 <=? k) && (k <=? 10) then msi_avail s
  else (k =? 11) && (v <=? 1) && (if switch_eventsstate c then true else false).

Definition notified (s : mpxy_state) (c : channel) (k v : Z) (x : D) : D :=
  match switch_eventsstate c with Some f => if (k =? 11) && (v <=? 1) then f v x else x | None => x end.

Lemma write_std_attr_eq s k v c x : mpxy_write_std_attr s k v c x = (if stored s c k v then set_attr k v c else c, notified s c k v x).
Proof.
  unfold mpxy_write_std_attr, stored, notified, SBI_MPXY_ATTR_MSI_CONTROL, SBI_MPXY_ATTR_MSI_ADDR_LO, SBI_MPXY_ATTR_MSI_ADDR_HI, SBI_MPXY_ATTR_MSI_DATA,
    SBI_MPXY_ATTR_EVENTS_STATE_CONTROL.
  destruct (switch_eventsstate c) as [f|]; destruct (Z.eqb_spec k 7); [|destruct ((k =? 8) || (k =? 9) || (k =? 10)) eqn:E| |destruct ((k =? 8) || (k =? 9) || (k =? 10)) eqn:E].
  1,4: replace (k =? 11) with false by (symmetry; apply Z.eqb_neq; lia); done.
  1,3: replace ((8 <=? k) && (k <=? 10)) with true by lia; replace (k =? 11) with false by lia; done.
  1,2: replace ((8 <=? k) && (k <=? 10)) with false by lia; destruct (k =? 11); [|done]; destruct (v <=? 1); done.
Qed.

Lemma check_attrs_spec n a p (c : channel) m :
  (check_std_attrs n a p c m = 0 /\ forall k, 0 <= k < Z.of_nat n -> mpxy_check_write_std_attr c (a + k) (load_le m (p + 4 * k) 4) = 0) \/
  (exists k, 0 <= k < Z.of_nat n /\ check_std_attrs n a p c m = mpxy_check_write_std_attr c (a + k) (load_le m (p + 4 * k) 4) /\ check_std_attrs n a p c m <> 0 /\
    forall j, 0 <= j < k -> mpxy_check_write_std_attr c (a + j) (load_le m (p + 4 * j) 4) = 0).
Proof.
  revert a p. induction n as [|n IH]; intros a p; cbn [check_std_attrs]; [left; split; [done|lia]|].
  assert (forall k, a + 1 + k = a + (k + 1)) as Ha by (intros; lia). assert (forall k, p + 4 + 4 * k = p + 4 * (k + 1)) as Hp by (intros; lia).
  destruct (Z.eqb_spec (mpxy_check_write_std_attr c a (load_le m p 4)) 0) as [E|E]; cbn [negb].
  - assert (forall k, 0 <= k -> (k = 0 \/ 0 <= k - 1 /\ mpxy_check_write_std_attr c (a + (k - 1 + 1)) (load_le m (p + 4 * (k - 1 + 1)) 4) = 0) ->
      mpxy_check_write_std_attr c (a + k) (load_le m (p + 4 * k) 4) = 0) as Hshift.
    { intros k Hk [-> |[_ H]]; [by rewrite Z.mul_0_r, !Z.add_0_r|]. by replace (k - 1 + 1) with k in H by lia. }
    destruct (IH (a + 1) (p + 4)) as [[-> H]|(k & Hk & H & Hne & Hj)].
    + left. split; [done|]. intros k Hk. apply Hshift; [lia|]. destruct (Z.eq_dec k 0) as [|Hk0]; [by left|right]. split; [lia|].
      specialize (H (k - 1) ltac:(lia)). by rewrite Ha, Hp in H.
    + right. exists (k + 1). rewrite <- Ha, <- Hp. split; [lia|]. split; [done|]. split; [done|]. intros j Hj1. apply Hshift; [lia|].
      destruct (Z.eq_dec j 0) as [|Hk0]; [by left|right]. split; [lia|]. specialize (Hj (j - 1) ltac:(lia)). by rewrite Ha, Hp in Hj.
  - right. exists 0. rewrite Z.mul_0_r, !Z.add_0_r. split_and!; [lia|lia|done|done|lia].
Qed.

Lemma write_attrs_spec s n a p m (c : channel) x : 0 <= a -> a + Z.of_nat n <= Z.of_nat (length (attrs c)) -> a + Z.of_nat n <= 12 ->
  exists l, write_std_attrs s n a p m c x =
      (set_mpxy_attrs l c, if (a <=? 11) && (11 <? a + Z.of_nat n) then notified s c 11 (load_le m (p + 4 * (11 - a)) 4) x else x) /\
    length l = length (attrs c) /\
    forall k, 0 <= k -> l !! Z.to_nat k =
      if (a <=? k) && (k <? a + Z.of_nat n) && stored s c k (load_le m (p + 4 * (k - a)) 4) then Some (load_le m (p + 4 * (k - a)) 4) else attrs c !! Z.to_nat k.
Proof.
  revert a p c x. induction n as [|n IH]; intros a p c x Ha Hl H12; cbn [write_std_attrs].
  { exists (attrs c). split; [|split; [done|]].
    - rewrite Z.add_0_r. replace ((a <=? 11) && (11 <? a)) with false by lia. by destruct c.
    - intros k Hk. rewrite Z.add_0_r. replace ((a <=? k) && (k <? a)) with false by lia. done. }
  rewrite write_std_attr_eq. set (v := load_le m p 4). set (c1 := if stored s c a v then set_attr a v c else c).
  assert (c1 = set_mpxy_attrs (attrs c1) c) as Hc1 by (unfold c1; destruct (stored s c a v); [done|by destruct c]).
  assert (length (attrs c1) = length (attrs c)) as Hl1 by (unfold c1; destruct (stored s c a v); [by apply length_insert|done]).
  assert (switch_eventsstate c1 = switch_eventsstate c) as Hsw by (by rewrite Hc1).
  assert (forall k u, stored s c1 k u = stored s c k u) as Hst by (intros; unfold stored; by rewrite Hsw).
  destruct (IH (a + 1) (p + 4) c1 (notified s c a v x)) as (l & -> & Hll & Hk); [lia..|].
  exists l. split; [|split; [by rewrite Hll|]].
  - f_equal; [by rewrite Hc1|]. unfold notified. rewrite Hsw. destruct (Z.eq_dec a 11) as [-> |Hn].
    + assert (n = 0%nat) as -> by lia. replace (p + 4 * (11 - 11)) with p by lia. fold v. by destruct (switch_eventsstate c).
    + replace (a + 1 <=? 11) with (a <=? 11) by lia. replace (a + 1 + Z.of_nat n) with (a + Z.of_nat (S n)) by lia.
      replace (p + 4 + 4 * (11 - (a + 1))) with (p + 4 * (11 - a)) by lia. destruct (switch_eventsstate c); [|done].
      replace (a =? 11) with false by lia. done.
  - intros k Hk0. rewrite Hk, Hst by done. replace (p + 4 + 4 * (k - (a + 1))) with (p + 4 * (k - a)) by lia.
    replace (a + 1 + Z.of_nat n) with (a + Z.of_nat (S n)) by lia. destruct (Z.eq_dec k a) as [-> |Hn].
    + replace (a + 1 <=? a) with false by lia. assert (a <? a + Z.of_nat (S n) = true) as -> by (apply Z.ltb_lt; lia). rewrite Z.leb_refl.
      rewrite Z.sub_diag, Z.mul_0_r, Z.add_0_r. fold v. cbn [andb]. unfold c1. destruct (stored s c a v); [|done].
      cbn [set_attr set_mpxy_attrs attrs]. apply list_lookup_insert_eq. lia.
    + replace (a + 1 <=? k) with (a <=? k) by lia. destruct (_ && _ && _); [done|]. unfold c1. destruct (stored s c a v); [|done].
      cbn [set_attr set_mpxy_attrs attrs]. apply list_lookup_insert_ne. lia.
Qed.

Lemma read_attrs_ok id base n w : mx_ok w -> 0 <= base < 2 ^ 32 -> 0 <= n < 2 ^ 32 ->
  exists ret w', sbi_mpxy_read_attrs feat bits id base n w = Some (ret, w') /\ confined w w'.
Proof.
  intros Hw Hb Hn. pose proof (attrs_check_spec id base n w Hw ltac:(lia)) as Hchk. unfold sbi_mpxy_read_attrs.
  destruct (attrs_check id base n w) as [ret|i]; [by eexists _, _; split; [|apply confined_refl]|].
  destruct Hchk as (He & (c & Hc & Hok & _) & Hbr & Hn0 & Hn4). rewrite Hc, some_bind. rewrite std_attr by done. cbv zeta.
  set (lo := shmem_addr_lo (mx_state w)). pose proof (ch_attrs _ Hok) as Hlen.
  assert (forall ret, exists w', with_window feat bits (mpxy_shmem_base (mx_state w)) w (fun w0 => Some (ret : Z, w0)) = Some (ret, w') /\ confined w w') as Hret.
  { intros ret. in_window ret (mx_mem w) (drivers w); [done..|by exists w']. }
  destruct (Z.ltb_spec base (2 ^ 31)) as [Hstd|Hmsg].
  - destruct (Z.leb_spec SBI_MPXY_ATTR_STD_ATTR_MAX_IDX (u32 (base + n - 1))) as [Hbig|Hsmall].
    { destruct (Hret SBI_EBAD_RANGE) as (w' & -> & Hcf). by eexists _, _. }
    unfold SBI_MPXY_ATTR_STD_ATTR_MAX_IDX in Hsmall. pose proof (mx_size _ Hw). rewrite wrap_small in Hsmall by lia.
    destruct (copy_std_attrs_spec (Z.to_nat n) 0 lo (attrs c) base (mx_mem w)) as (m' & Em & Hs & _); [lia..|].
    in_window SBI_OK m' (drivers w); [| |by eexists _, _].
    + intros x Hx. apply Hs. fold lo in Hx. lia.
    + intros p. cbn [mx_mem put_mx_pmp]. change (mpxy_shmem_base (mx_state w)) with lo. by rewrite Em.
  - destruct (read_attributes c) as [f|] eqn:Ef; [|destruct (Hret SBI_EBAD_RANGE) as (w' & -> & Hcf); by eexists _, _].
    destruct (SBI_MPXY_ATTR_MSGPROTO_ATTR_END <? u32 (base + n - 1)); [destruct (Hret SBI_EBAD_RANGE) as (w' & -> & Hcf); by eexists _, _|].
    pose proof (ch_read _ Hok f lo base n (mx_mem w) (drivers w) Ef) as Hf. destruct (f lo base n (mx_mem w) (drivers w)) as [[ret m'] s'] eqn:Er.
    in_window ret m' s'; [| |by eexists _, _].
    + intros x Hx. apply Hf. fold lo in Hx. lia.
    + intros p. cbn [mx_mem put_mx_pmp drivers]. change (mpxy_shmem_base (mx_state w)) with lo. by rewrite Er.
Qed.

Lemma channel_ok_attrs l (c : channel) : channel_ok c -> length l = length (attrs c) -> channel_ok (set_mpxy_attrs l c).
Proof. intros [] Hl. split; try done. cbn. congruence. Qed.

(** The value for the [k]-th attribute in the memory [m], and what the check says of it. *)
Definition value (w : world) (m : mem) (k : Z) : Z := load_le m (shmem_addr_lo (mx_state w) + 4 * k) 4.
Definition checked (w : world) (c : channel) (base k : Z) : Z := mpxy_check_write_std_attr c (base + k) (value w (mx_mem w) k).

(** Every value found by the first pass is allowed, and the values found by the second
    one are stored where the platform supports the attribute. *)
Definition attrs_written (later : mem) (w w' : world) (i : nat) (c : channel) (base n : Z) : Prop :=
  (forall k, 0 <= k < n -> checked w c base k = 0) /\
  drivers w' = (if (base <=? 11) && (11 <? base + n) then notified (mx_state w) c 11 (value w later (11 - base)) (drivers w) else drivers w) /\
  exists l, mpxy_channel_list w' = <[i := set_mpxy_attrs l c]> (mpxy_channel_list w) /\ length l = length (attrs c) /\
    forall k, 0 <= k -> l !! Z.to_nat k =
      if (base <=? k) && (k <? base + n) && stored (mx_state w) c k (value w later (k - base)) then Some (value w later (k - base)) else attrs c !! Z.to_nat k.

(** A value the check refuses decides, and nothing changes. *)
Definition attrs_refused (w w' : world) (ret : Z) (c : channel) (base n : Z) : Prop :=
  ret <> 0 /\ mpxy_channel_list w' = mpxy_channel_list w /\ drivers w' = drivers w /\
  exists k, 0 <= k < n /\ ret = checked w c base k /\ forall j, 0 <= j < k -> checked w c base j = 0.

Lemma write_std later id base n w i c : mx_ok w -> attrs_check id base n w = inr i -> mpxy_shmem_enabled (mx_state w) = true ->
  mpxy_channel_list w !! i = Some c -> channel_ok c -> 0 <= base -> 0 < n -> base + n <= 12 ->
  exists ret w', sbi_mpxy_write_attrs feat bits later id base n w = Some (ret, w') /\ confined w w' /\ mx_mem w' = mx_mem w /\
    (attrs_refused w w' ret c base n \/ (ret = 0 /\ attrs_written later w w' i c base n)).
Proof.
  intros Hw Hchk He Hc Hok Hb Hn H12. unfold sbi_mpxy_write_attrs. rewrite Hchk, Hc, some_bind, std_attr by lia. cbv zeta.
  replace (base <? 2 ^ 31) with true by lia. rewrite (wrap_small 32 (base + n - 1)) by lia. unfold SBI_MPXY_ATTR_STD_ATTR_MAX_IDX.
  replace (12 <=? base + n - 1) with false by lia. replace (base + n - 1 - base + 1) with n by lia.
  assert (Z.of_nat (Z.to_nat n) = n) as Hzn by lia.
  destruct (check_attrs_spec (Z.to_nat n) base (shmem_addr_lo (mx_state w)) c (mx_mem w)) as [[E Hall]|(k & Hk & E & Hne & Hj)]; rewrite Hzn in *.
  - destruct (write_attrs_spec (mx_state w) (Z.to_nat n) base (shmem_addr_lo (mx_state w)) later c (drivers w)) as (l & El & Hl & Hlk).
    1-3: rewrite ?(ch_attrs _ Hok); lia. rewrite Hzn in El, Hlk.
    change (mpxy_shmem_base (mx_state w)) with (shmem_addr_lo (mx_state w)). lazymatch goal with |- context [with_window _ _ _ _ ?f] =>
      destruct (with_window_eq (shmem_addr_lo (mx_state w)) w f 0 (put_channel i (set_mpxy_attrs l c)
        (put_drivers (mx_mem w) (if (base <=? 11) && (11 <? base + n) then notified (mx_state w) c 11 (value w later (11 - base)) (drivers w) else drivers w) w))) as [p ->] end.
    { intros p. cbn [mx_mem put_mx_pmp mx_state drivers]. rewrite E, El. reflexivity. }
    eexists _, _. split; [reflexivity|]. split; [|split; [done|right; split; [done|split_and!; [exact Hall|done|by exists l]]]].
    split; [|done]. destruct Hw as [H1 H2 H3 H4]. split; [done| | |exact H4].
    + cbn. by rewrite length_insert.
    + cbn. apply Forall_insert; [done|]. by apply channel_ok_attrs.
  - in_window (check_std_attrs (Z.to_nat n) base (shmem_addr_lo (mx_state w)) c (mx_mem w)) (mx_mem w) (drivers w); [done| |].
    + intros p. cbn [mx_mem put_mx_pmp]. change (mpxy_shmem_base (mx_state w)) with (shmem_addr_lo (mx_state w)). by rewrite (proj2 (Z.eqb_neq _ _) Hne).
    + eexists _, w'. split; [reflexivity|]. split_and!; try done. left. split_and!; try done. by exists k.
Qed.

Lemma mpxy_write_attrs_ok later id base n w : mx_ok w -> 0 <= base < 2 ^ 32 -> 0 <= n < 2 ^ 32 ->
  exists ret w', sbi_mpxy_write_attrs feat bits later id base n w = Some (ret, w') /\ confined w w'.
Proof.
  intros Hw Hb Hn. pose proof (attrs_check_spec id base n w Hw ltac:(lia)) as Hchk. destruct (attrs_check id base n w) as [ret|i] eqn:Echk.
  { unfold sbi_mpxy_write_attrs. rewrite Echk. by eexists _, _; split; [|apply confined_refl]. }
  destruct Hchk as (He & (c & Hc & Hok & _) & Hbr & Hn0 & Hn4). pose proof (mx_size _ Hw).
  destruct (decide (base < 12 /\ base + n <= 12)) as [[_ H12]|Hno].
  { destruct (write_std later id base n w i c) as (ret & w' & E & Hcf & _); try done; [lia|]. by eexists _, _. }
  unfold sbi_mpxy_write_attrs. rewrite Echk, Hc, some_bind, std_attr by done. cbv zeta.
  assert (forall ret, exists w', with_window feat bits (mpxy_shmem_base (mx_state w)) w (fun w0 => Some (ret : Z, w0)) = Some (ret, w') /\ confined w w') as Hret.
  { intros ret. in_window ret (mx_mem w) (drivers w); [done..|by exists w']. }
  destruct (Z.ltb_spec base (2 ^ 31)) as [Hstd|Hmsg].
  - rewrite (wrap_small 32 (base + n - 1)) by lia. unfold SBI_MPXY_ATTR_STD_ATTR_MAX_IDX. replace (12 <=? base + n - 1) with true by lia.
    destruct (Hret SBI_EBAD_RANGE) as (w' & -> & Hcf). by eexists _, _.
  - destruct (write_attributes c) as [f|] eqn:Ef; [|destruct (Hret SBI_EBAD_RANGE) as (w' & -> & Hcf); by eexists _, _].
    destruct (SBI_MPXY_ATTR_MSGPROTO_ATTR_END <? u32 (base + n - 1)); [destruct (Hret SBI_EBAD_RANGE) as (w' & -> & Hcf); by eexists _, _|].
    pose proof (ch_write _ Hok f (mpxy_shmem_base (mx_state w)) base n (mx_mem w) (drivers w) Ef) as Hf. destruct (f (mpxy_shmem_base (mx_state w)) base n (mx_mem w) (drivers w)) as [[ret m'] s'] eqn:Er.
    in_window ret m' s'; [| |by eexists _, _].
    + intros x Hx. apply Hf. unfold mpxy_shmem_base. lia.
    + intros p. cbn [mx_mem put_mx_pmp drivers]. by rewrite Er.
Qed.

Lemma send_message_ok id msg len resp w : mx_ok w -> 0 <= len ->
  exists ret out w', sbi_mpxy_send_message feat bits id msg len resp w = Some (ret, out, w') /\ confined w w'.
Proof.
  intros Hw Hlen. pose proof (mx_size _ Hw) as Hsz. unfold sbi_mpxy_send_message.
  assert (forall ret out, exists ret' out' w', Some (ret, out, w) = Some (ret' : Z, out' : option Z, w' : world) /\ confined w w') as Hsame.
  { intros. by eexists _, _, _; split; [|apply confined_refl]. }
  destruct (mpxy_shmem_enabled (mx_state w)) eqn:He; cbn [negb]; [|apply Hsame].
  destruct (mpxy_find_channel id w) as [i|] eqn:Ef; [|apply Hsame]. destruct (found w id i Hw Ef) as (c & Hc & Hok & _). rewrite Hc, some_bind.
  set (call := match resp with Some _ => _ | None => _ end). destruct call as [f|] eqn:Ecall; [|apply Hsame].
  destruct ((mpxy_shmem_size w <? len) || _) eqn:Elen; [apply Hsame|]. apply orb_false_iff in Elen as [E1%Z.ltb_ge E2%Z.ltb_ge].
  destruct (f (mpxy_shmem_base (mx_state w)) (mx_mem w) (drivers w)) as [[[ret m'] s'] out] eqn:Er.
  assert (same_but (mpxy_shmem_base (mx_state w)) (mpxy_shmem_size w) (mx_mem w) m') as Hs.
  { unfold call in Ecall. destruct resp as [old|]; [destruct (send_message_with_response c) as [g|] eqn:Eg|destruct (send_message_without_response c) as [g|] eqn:Eg]; try done;
      injection Ecall as <-; rewrite !(wrap_small 32) in Er by lia.
    - pose proof (ch_send _ Hok g msg (mpxy_shmem_base (mx_state w)) len (mpxy_shmem_base (mx_state w)) (mpxy_shmem_size w) (mx_mem w) (drivers w) Eg) as Hg. by rewrite Er in Hg.
    - pose proof (ch_post _ Hok g msg (mpxy_shmem_base (mx_state w)) len (mx_mem w) (drivers w) Eg) as Hg. injection Er as Er _. rewrite Er in Hg. intros x Hx. apply Hg. lia. }
  in_window (ret, match resp with Some old => Some (default old out) | None => None end) m' s'; [exact Hs|intros p; cbn [mx_mem put_mx_pmp drivers]; by rewrite Er|].
  rewrite some_bind. cbv beta iota. destruct (_ || _); [by eexists _, _, _|]. destruct (negb _); [by eexists _, _, _|].
  destruct resp; [destruct (_ || _)|]; by eexists _, _, _.
Qed.

Lemma notification_ok id len w : mx_ok w ->
  exists ret out w', sbi_mpxy_get_notification_events feat bits id len w = Some (ret, out, w') /\ confined w w'.
Proof.
  intros Hw. pose proof (mx_size _ Hw) as Hsz. unfold sbi_mpxy_get_notification_events.
  assert (forall ret out, exists ret' out' w', Some (ret, out, w) = Some (ret' : Z, out' : Z, w' : world) /\ confined w w') as Hsame.
  { intros. by eexists _, _, _; split; [|apply confined_refl]. }
  destruct (mpxy_shmem_enabled (mx_state w)) eqn:He; cbn [negb]; [|apply Hsame].
  destruct (mpxy_find_channel id w) as [i|] eqn:Ef; [|apply Hsame]. destruct (found w id i Hw Ef) as (c & Hc & Hok & _). rewrite Hc, some_bind.
  destruct (get_notification_events c) as [f|] eqn:Eg; [|apply Hsame].
  pose proof (ch_events _ Hok f (mpxy_shmem_base (mx_state w)) (mpxy_shmem_size w) (mx_mem w) (drivers w) Eg) as Hg.
  destruct (f (mpxy_shmem_base (mx_state w)) (mpxy_shmem_size w) (mx_mem w) (drivers w)) as [[[ret m'] s'] out] eqn:Er.
  in_window (ret, default len out) m' s'; [exact Hg|intros p; cbn [mx_mem mpxy_shmem_size put_mx_pmp drivers]; rewrite (wrap_small 32) by lia; by rewrite Er|].
  rewrite some_bind. cbv beta iota. destruct (negb _); [by eexists _, _, _|]. destruct (_ <? _); by eexists _, _, _.
Qed.


(** C35: writing a range of standard attributes checks everything before it changes
    anything.  For a well-formed channel and a range of standard attributes that fits the
    shared memory: either the first value that the check refuses decides the error, and the
    channel, the driver and memory are as they were; or every value passed, the call
    returns success, and of the attributes of the range those that the platform supports
    (the MSI attributes when MSIs are available, the events state when the driver can
    switch it) hold the values that were in shared memory when the second pass read it,
    a control value above 1 excepted; the others keep their value although the call
    succeeds, all attributes outside the range are unchanged, and the driver has been told
    of a new events state. *)
Theorem mpxy_write_atomic later id base n (w : world) i c : mx_ok w -> mpxy_shmem_enabled (mx_state w) = true ->
  mpxy_find_channel id w = Some i -> mpxy_channel_list w !! i = Some c -> 0 <= base -> 0 < n -> base + n <= 12 -> 4 * n <= mpxy_shmem_size w ->
  exists ret w', sbi_mpxy_write_attrs feat bits later id base n w = Some (ret, w') /\ mx_mem w' = mx_mem w /\
    (attrs_refused w w' ret c base n \/ (ret = 0 /\ attrs_written later w w' i c base n)).
Proof.
  intros Hw He Hf Hc Hb Hn H12 H4. destruct (found w id i Hw Hf) as (c' & Hc' & Hok & _). rewrite Hc in Hc'. injection Hc' as <-.
  destruct (write_std later id base n w i c) as (ret & w' & E & _ & Hm & Hr); try done; [|by eexists _, _].
  unfold attrs_check. rewrite He, Hf. cbn [negb]. unfold SBI_MPXY_ATTR_STD_ATTR_MAX_IDX, ATTR_SIZE. replace (12 <=? base) with false by lia.
  replace (n =? 0) with false by lia. pose proof (Z.div_le_lower_bound (mpxy_shmem_size w) 4 n ltac:(lia) ltac:(lia)).
  by replace (mpxy_shmem_size w / 4 <? n) with false by lia.
Qed.

(** The channel identifiers come in pages: from the given index on, as many as
    the shared memory has room for behind its two counters, in the order of
    registration; the counters say how many there are and how many remain, so that a
    supervisor that continues behind the last one sees every channel. *)
Lemma mpxy_ids_paged start (w : world) : mx_ok w -> mpxy_shmem_enabled (mx_state w) = true -> 0 <= start <= Z.of_nat (length (mpxy_channel_list w)) ->
  exists w', sbi_mpxy_get_channel_ids feat bits start w = Some (SBI_OK, w') /\ listed w w' start.
Proof.
  intros Hw He Hst. destruct (get_channel_ids_spec start w Hw He Hst) as (w' & E & _ & Hl). by exists w'.
Qed.

End Correctness.


(** ** A channel that answers with the length of the message *)

Definition demo_read : Z -> Z -> Z -> mem -> Z -> effect := fun buf base n m s => (0, if 0 <? n then store_le m buf 4 base else m, s).
Definition demo_send : Z -> Z -> Z -> Z -> Z -> mem -> Z -> @effect Z * option Z :=
  fun id buf len resp max m s => (0, if 4 <=? max then store_le m resp 4 len else m, s + 1, Some 4).
Definition demo_channel : sbi_mpxy_channel :=
  mkCh 7 [0; 1; 64; 0; 0; 0; 0; 0; 0; 0; 0; 0] (Some demo_read) None (Some demo_send) None None (Some (fun v _ => v)).

(** Page [0x80002000] is shared; its first words are 1, 16, 0, 5, 1. *)
Definition demo_shared : mem := fun a =>
  if a =? 0x80002000 then 1 else if a =? 0x80002004 then 16 else if a =? 0x8000200c then 5 else if a =? 0x80002010 then 1 else 0.
Definition demo_mpxy : mpxy_world :=
  mkMx 4096 [mpxy_std_attrs_init (mkMs true false 0 0) demo_channel] (mkMs true false 0x80002000 0) demo_shared (Hw.mkPmp (fun _ => 0) (fun _ => 0) 5) 0.
Definition demo_mpxy_feat : sbi_hart_features := mkFeat true 3 [0] 16 54 2 0 64.

Lemma demo_top : Forall (fun r => base r + 2 ^ order r < 2 ^ 64) (dom_regions demo_layout).
Proof. repeat apply Forall_cons_2; try apply Forall_nil_2; cbn; lia. Qed.

Lemma demo_channel_ok : channel_ok (mpxy_std_attrs_init (mkMs true false 0 0) demo_channel).
Proof.
  split; try done.
  - intros f buf base n m s [= <-]. unfold demo_read. cbn [fst snd]. zcases; [apply same_but_store; lia|done].
  - intros f id buf len resp max m s [= <-]. unfold demo_send. cbn [fst snd]. zcases; [apply same_but_store; lia|done].
Qed.

Lemma demo_mpxy_ok : mx_ok demo_layout demo_mpxy.
Proof.
  split; [cbn; lia|cbn; lia|repeat constructor; apply demo_channel_ok|]. intros _ x Hx.
  destruct (check_addr_range_correct demo_layout 0x80002000 4096 PRV_S (Z.lor SBI_DOMAIN_READ SBI_DOMAIN_WRITE) demo_layout_sane demo_top) as (b & E & Hb); [lia..|].
  vm_compute in E. injection E as <-. by apply (proj1 Hb eq_refl).
Qed.


(** Turning notification by MSI on, with an address and data. *)
Lemma mpxy_write_atomic_witness : exists c, mpxy_channel_list demo_mpxy !! 0%nat = Some c /\
  exists ret w', sbi_mpxy_write_attrs demo_mpxy_feat 54 demo_shared 7 7 5 demo_mpxy = Some (ret, w') /\ mx_mem w' = mx_mem demo_mpxy /\
    (attrs_refused demo_mpxy w' ret c 7 5 \/ (ret = 0 /\ attrs_written demo_shared demo_mpxy w' 0 c 7 5)).
Proof.
  eexists. split; [reflexivity|].
  apply (mpxy_write_atomic demo_mpxy_feat 54 demo_layout demo_shared 7 7 5 demo_mpxy 0 _ demo_mpxy_ok); [reflexivity|reflexivity|reflexivity|lia|lia|lia|cbn; lia].
Defined.

Lemma mpxy_ids_paged_witness : exists w', sbi_mpxy_get_channel_ids demo_mpxy_feat 54 0 demo_mpxy = Some (SBI_OK, w') /\ listed demo_mpxy w' 0.
Proof. apply (mpxy_ids_paged demo_mpxy_feat 54 demo_layout 0 demo_mpxy demo_mpxy_ok); [reflexivity|cbn; lia]. Defined.

(** A reply of four bytes; the attributes as they are after the write above. *)
Example demo_send_reply :
  option_map (fun '(ret, out, w) => (ret, out, load_le (mx_mem w) 0x80002000 4, drivers w))
    (sbi_ecall_mpxy_handler demo_mpxy_feat 54 (Some demo_layout) demo_shared 5 7 1 3 0 demo_mpxy) = Some (0, 4, 3, 1).
Proof. vm_compute. reflexivity. Qed.

Example demo_write_attrs :
  option_map (fun '(ret, w) => (ret, map (fun c => attrs c) (mpxy_channel_list w), drivers w))
    (sbi_mpxy_write_attrs demo_mpxy_feat 54 demo_shared 7 7 5 demo_mpxy) = Some (0, [[0; 1; 64; 0; 0; 8; 0; 1; 16; 0; 5; 1]], 1).
Proof. vm_compute. reflexivity. Qed.

(** ** Boundaries of the code *)

(** The value that was checked need not be the one that is stored: MSI notification is
    turned on without an address although the check would deny it. *)
Lemma write_attrs_double_fetch :
  let on := fun a : Z => if a =? 0x80002000 then 1 else 0 in
  let c := set_mpxy_attrs [0; 1; 64; 0; 0; 8; 0; 0; INVALID_ADDR; INVALID_ADDR; 0; 0] demo_channel in
  let w := put_channel 0 c (put_mx (fun _ => 0) demo_mpxy) in
  fst <$> sbi_mpxy_write_attrs demo_mpxy_feat 54 on 7 7 1 (put_mx on w) = Some SBI_EDENIED /\
  (fun '(ret, w') => (ret, (fun c => attr SBI_MPXY_ATTR_MSI_CONTROL c) <$> mpxy_channel_list w')) <$>
    sbi_mpxy_write_attrs demo_mpxy_feat 54 on 7 7 1 w = Some (SBI_OK, [1]).
Proof. split; vm_compute; reflexivity. Qed.

(** Attributes the platform does not support are dropped without an error. *)
Lemma unsupported_attrs_dropped :
  let w := mkMx 4096 [demo_channel] (mkMs false false 0x80002000 0) demo_shared (Hw.mkPmp (fun _ => 0) (fun _ => 0) 5) 0 in
  (fun '(ret, w') => (ret, attrs <$> mpxy_channel_list w')) <$> sbi_mpxy_write_attrs demo_mpxy_feat 54 demo_shared 7 8 3 w
  = Some (SBI_OK, [attrs demo_channel]).
Proof. vm_compute. reflexivity. Qed.

(** A longer message makes the shared memory as long as its number of pages, which is
    no longer enough for its length, and no attribute can be read. *)
Definition demo_long : sbi_mpxy_channel := mkCh 8 [0; 1; 0x2000; 0; 0; 0; 0; 0; 0; 0; 0; 0] (Some demo_read) None (Some demo_send) None None None.

Lemma register_shrinks_shmem : mpxy_shmem_size (sbi_mpxy_register_channel (Some demo_long) demo_mpxy).2 = 2 /\
  attrs_check 7 0 1 (sbi_mpxy_register_channel (Some demo_long) demo_mpxy).2 = inl SBI_EINVAL.
Proof. split; vm_compute; reflexivity. Qed.

(** The documented request to disable the shared memory, all ones, is refused; an
    address of 32 ones does it. *)
Lemma all_ones_does_not_disable {D} feat bits dom (w : @mpxy_world D) :
  sbi_mpxy_set_shmem feat bits dom (2 ^ 64 - 1) (2 ^ 64 - 1) 0 w = Some (SBI_EINVAL, w) /\
  exists w', sbi_mpxy_set_shmem feat bits dom (2 ^ 32 - 1) (2 ^ 32 - 1) 0 w = Some (SBI_OK, w') /\ mpxy_shmem_enabled (mx_state w') = false.
Proof. split; [reflexivity|]. eexists. split; reflexivity. Qed.

(** The state of a hart that [sbi_mpxy_init] did not run on counts as set up, at 0. *)
Lemma other_harts_enabled : mpxy_shmem_enabled (mkMs false false 0 0) = true /\ mpxy_shmem_base (mkMs false false 0 0) = 0.
Proof. done. Qed.

(** The upper word of the address is accepted whatever it is. *)
Lemma shmem_hi_ignored {D} feat bits dom lo hi (w : @mpxy_world D) : hi <> INVALID_ADDR -> lo <> INVALID_ADDR ->
  option_map fst (sbi_mpxy_set_shmem feat bits dom lo hi 0 w) = option_map fst (sbi_mpxy_set_shmem feat bits dom lo 0 0 w).
Proof.
  intros Hhi Hlo. unfold sbi_mpxy_set_shmem. rewrite (proj2 (Z.eqb_neq lo INVALID_ADDR) Hlo). cbn [andb].
  destruct (2 <=? 0); [done|]. destruct (negb (Z.land lo _ =? 0)); [done|]. destruct (sbi_domain_check_addr_range dom lo _ _ _) as [b|]; [|done].
  rewrite !some_bind. destruct b; [|done]. done.
Qed.

(** The end of a range of protocol attributes wraps, and the check never fails. *)
Lemma msgproto_end_unchecked base n : SBI_MPXY_ATTR_MSGPROTO_ATTR_END <? u32 (base + n - 1) = false.
Proof. apply Z.ltb_ge. pose proof (wrap_range 32 (base + n - 1) ltac:(lia)). unfold SBI_MPXY_ATTR_MSGPROTO_ATTR_END. lia. Qed.
