(* ===== verification/SbiConsole.v ===== *)
(** * The console and formatted output (lib/sbi/sbi_console.c)

    Characters are bytes (a [char] is unsigned).  Strings that are printed are the
    lists of their characters without the terminating zero; buffers that are written
    are addresses.  The lock around each call is not part of the model: it makes the
    calls one step each.  [None] is undefined behaviour or, in [nputs_all], a loop
    that has not ended. *)

From Stdlib Require Import String.
From S2P Require Import Prelude SbiString SbiFifo.

(** The characters of a literal. *)
Definition text (s : String.string) : list Z := (fun a => Z.of_N (Ascii.N_of_ascii a)) <$> String.list_ascii_of_string s.

Definition CONSOLE_TBUF_MAX : Z := 256.
Definition PAD_RIGHT : Z := 1.
Definition PAD_ZERO : Z := 2.
Definition PAD_ALTERNATE : Z := 4.
Definition PAD_SIGN : Z := 8.
Definition USE_TBUF : Z := 16.
Definition PRINT_BUF_LEN : nat := 64.

(** An argument of [print] that is not named: a register slot or a string. *)
Inductive va_value := VInt (z : Z) | VStr (s : option (list Z)).

Definition sbi_isprintable (c : Z) : bool :=
  ((31 <? c) && (c <? 127)) || (c =? 12) || (c =? 13) || (c =? 10) || (c =? 9).

Section Console.
(** The state of the device and the early buffer; [tbuf] is the address of
    [console_tbuf]. *)
Context {D F : Type} `{!BoundedQueue F Z}.
Variable tbuf : Z.

Record sbi_console_device := mkCdev {
  console_putc : option (Z -> D -> D);
  console_puts : option (list Z -> D -> Z * D);
  console_getc : option (D -> Z * D) }.

Record console := mkCon { console_dev : option sbi_console_device; console_early_fifo : F; dev_state : D; con_mem : mem }.

Definition put_dev (d : D) (s : console) : console := mkCon (console_dev s) (console_early_fifo s) d (con_mem s).
Definition put_early (f : F) (s : console) : console := mkCon (console_dev s) f (dev_state s) (con_mem s).
Definition put_cmem (m : mem) (s : console) : console := mkCon (console_dev s) (console_early_fifo s) (dev_state s) m.

Definition sbi_getc (s : console) : Z * console :=
  match console_dev s with
  | Some dev => match console_getc dev with Some f => let '(ch, d) := f (dev_state s) in (ch, put_dev d s) | None => (-1, s) end
  | None => (-1, s)
  end.

Fixpoint putc_loop (f : Z -> D -> D) (str : list Z) (d : D) : D :=
  match str with
  | [] => d
  | c :: str => let d := if c =? 10 then f 13 d else d in putc_loop f str (f c d)
  end.

Fixpoint early_loop (str : list Z) (q : F) : F :=
  match str with
  | [] => q
  | ch :: str => let '(_, q) := bq_enqueue q ch true in early_loop str q
  end.

(** [str] are the [len] characters. *)
Definition nputs (str : list Z) (s : console) : Z * console :=
  let len := Z.of_nat (length str) in
  match console_dev s with
  | Some dev =>
      match console_puts dev with
      | Some f => let '(n, d) := f str (dev_state s) in (n, put_dev d s)
      | None => (len, match console_putc dev with Some f => put_dev (putc_loop f str (dev_state s)) s | None => s end)
      end
  | None => (len, put_early (early_loop str (console_early_fifo s)) s)
  end.

Fixpoint nputs_all_loop (fuel : nat) (p : Z) (str : list Z) (s : console) : option console :=
  if p <? Z.of_nat (length str) then
    match fuel with
    | O => None
    | S fuel => let '(n, s) := nputs (drop (Z.to_nat p) str) s in nputs_all_loop fuel (u64 (p + n)) str s
    end
  else Some s.

Definition nputs_all (str : list Z) (s : console) : option console := nputs_all_loop (length str) 0 str s.

Definition sbi_putc (ch : Z) (s : console) : option console := nputs_all [u8 ch] s.

Definition sbi_puts (fuel : nat) (str : Z) (s : console) : option console :=
  len ← sbi_strlen fuel (con_mem s) str; nputs_all (bytes (con_mem s) str (Z.to_nat len)) s.

Definition sbi_nputs (str len : Z) (s : console) : Z * console := nputs (bytes (con_mem s) str (Z.to_nat len)) s.

(** The width runs down to 1. *)
Fixpoint gets_loop (n : nat) (retval endchar : Z) (s : console) : console :=
  let '(ch, s) := sbi_getc s in
  match n with
  | S n =>
      if negb (ch =? endchar) && (0 <=? ch) then gets_loop n (retval + 1) endchar (put_cmem (store8 (con_mem s) retval ch) s)
      else put_cmem (store8 (con_mem s) retval 0) s
  | O => put_cmem (store8 (con_mem s) retval 0) s
  end.

Definition sbi_gets (str maxwidth endchar : Z) (s : console) : console := gets_loop (Z.to_nat (maxwidth - 1)) str endchar s.

Fixpoint ngets_loop (n : nat) (i str : Z) (s : console) : Z * console :=
  match n with
  | O => (i, s)
  | S n =>
      let '(ch, s) := sbi_getc s in
      if ch <? 0 then (i, s) else ngets_loop n (i + 1) str (put_cmem (store8 (con_mem s) (str + i) ch) s)
  end.

Definition sbi_ngets (str len : Z) (s : console) : Z * console := ngets_loop (Z.to_nat len) 0 str s.

(** ** Formatted output

    Where the output goes: [*out], and [*out_len] unless [out_len] is NULL.  [out]
    itself is not NULL in [printc] and its callers, since [print] replaces it. *)
Record printer := mkPr { out : Z; out_len : option Z; con : console }.

Definition flag_set (flags mask : Z) : bool := negb (Z.land flags mask =? 0).

Definition printc (flags ch : Z) (st : printer) : option printer :=
  if match out_len st with None => true | Some n => 1 <? n end then
    let s := put_cmem (store8 (store8 (con_mem (con st)) (out st) ch) (out st + 1) 0) (con st) in
    match out_len st with
    | None => Some (mkPr (out st + 1) None s)
    | Some n =>
        let n := u32 (n - 1) in
        if flag_set flags USE_TBUF && (n =? 1) then
          s ← nputs_all (bytes (con_mem s) tbuf (Z.to_nat (CONSOLE_TBUF_MAX - n))) s;
          Some (mkPr tbuf (Some CONSOLE_TBUF_MAX) s)
        else Some (mkPr (out st + 1) (Some n) s)
    end
  else Some st.

Fixpoint pad_loop (n : nat) (flags ch : Z) (st : printer) : option printer :=
  match n with
  | O => Some st
  | S n => st ← printc flags ch st; pad_loop n flags ch st
  end.

Fixpoint string_loop (string : list Z) (flags : Z) (st : printer) : option printer :=
  match string with
  | [] => Some st
  | c :: string => st ← printc flags c st; string_loop string flags st
  end.

(** The results are the count of characters and where the output goes. *)
Definition prints (string : list Z) (width flags : Z) (st : printer) : option (Z * printer) :=
  let width := width - Z.of_nat (length string) in
  let left := if flag_set flags PAD_RIGHT then 0%nat else Z.to_nat width in
  st ← pad_loop left flags (if flag_set flags PAD_ZERO then 48 else 32) st;
  let width := width - Z.of_nat left in
  st ← string_loop string flags st;
  st ← pad_loop (Z.to_nat width) flags 32 st;
  Some (Z.of_nat left + Z.of_nat (length string) + Z.of_nat (Z.to_nat width), st).

(** [*--s = c] in [print_buf], of which the last byte is 0. *)
Definition push_char (c : Z) (s : list Z) : option (list Z) := if (PRINT_BUF_LEN - 1 <=? length s)%nat then None else Some (u8 c :: s).

Fixpoint digit_loop (fuel : nat) (u b letbase : Z) (s : list Z) : option (list Z) :=
  if u =? 0 then Some s
  else
    match fuel with
    | O => None
    | S fuel =>
        let t := u mod b in
        let u := u / b in
        let t := if 10 <=? t then t + letbase - 48 - 10 else t in
        s ← push_char (t + 48) s;
        digit_loop fuel u b letbase s
    end.

(** The types by their characters: o is 111, x 120, X 88, p 112, P 80, i 105, d 100. *)
Definition printi (i width flags type : Z) (st : printer) : option (Z * printer) :=
  let '(b, letbase) :=
    if type =? 111 then (8, 97)
    else if (type =? 120) || (type =? 88) || (type =? 112) || (type =? 80) then (16, Z.lor (Z.land 97 (Z.lnot 0x20)) (Z.land type 0x20))
    else (10, 97) in
  let u := u64 i in
  let '(sign, u) :=
    if (type =? 105) || (type =? 100) then
      if i <? 0 then (45, u64 (- i)) else (if flag_set flags PAD_SIGN && (0 <? i) then 43 else 0, u)
    else (0, u) in
  s ← (if u =? 0 then push_char 48 [] else digit_loop PRINT_BUF_LEN u b letbase []);
  let alternate := negb (i =? 0) && flag_set flags PAD_ALTERNATE in
  if flag_set flags PAD_ZERO then
    let pre1 := if negb (sign =? 0) then [sign] else [] in
    let pre2 := if alternate && ((b =? 16) || (b =? 8)) then [48] else [] in
    let pre3 := if alternate && (b =? 16) then [120 - 97 + letbase] else [] in
    let pre := pre1 ++ pre2 ++ pre3 in
    st ← string_loop pre flags st;
    '(pc, st) ← prints s (width - Z.of_nat (length pre)) flags st;
    Some (Z.of_nat (length pre) + pc, st)
  else
    s ← (if alternate && (b =? 16) then push_char (120 - 97 + letbase) s else Some s);
    s ← (if alternate && ((b =? 16) || (b =? 8)) then push_char 48 s else Some s);
    s ← (if negb (sign =? 0) then push_char sign s else Some s);
    prints s width flags st.

(** ** [print]

    The characters of a format that are left. *)
Fixpoint get_flags (format : list Z) (flags : Z) : Z * list Z :=
  match format with
  | c :: f =>
      if c =? 45 then get_flags f (Z.lor flags PAD_RIGHT)
      else if c =? 43 then get_flags f (Z.lor flags PAD_SIGN)
      else if c =? 35 then get_flags f (Z.lor flags PAD_ALTERNATE)
      else if c =? 48 then get_flags f (Z.lor flags PAD_ZERO)
      else if (c =? 32) || (c =? 39) then get_flags f flags
      else (flags, format)
  | [] => (flags, [])
  end.

Fixpoint get_width (format : list Z) (width : Z) : option (Z * list Z) :=
  match format with
  | c :: f =>
      if (48 <=? c) && (c <=? 57) then
        let width := width * 10 + (c - 48) in
        if width <? 2 ^ 31 then get_width f width else None
      else Some (width, format)
  | [] => Some (width, [])
  end.

(** [va_arg] of an integer type of [w] bits. *)
Definition va_int (is_signed : bool) (w : Z) (args : list va_value) : option (Z * list va_value) :=
  match args with
  | VInt z :: args => Some (if is_signed then signed w (wrap w z) else wrap w z, args)
  | _ => None
  end.

Definition va_str (args : list va_value) : option (option (list Z) * list va_value) :=
  match args with VStr s :: args => Some (s, args) | _ => None end.

(** The types that may follow a length: u, o, d, i, x, X. *)
Definition length_type (c : Z) : bool := (c =? 117) || (c =? 111) || (c =? 100) || (c =? 105) || (c =? 120) || (c =? 88).

Definition null_string : list Z := [40; 110; 117; 108; 108; 41].

(** A conversion, from its type on: the count of characters, the arguments and
    the format left for the next round of the loop. *)
Definition convert (width flags : Z) (format : list Z) (args : list va_value) (st : printer) : option (Z * printer * list va_value * list Z) :=
  match format with
  | [] => None
  | t :: f =>
      if t =? 115 then
        '(s, args) ← va_str args; '(pc, st) ← prints (default null_string s) width flags st; Some (pc, st, args, f)
      else if (t =? 100) || (t =? 105) then
        '(i, args) ← va_int true 32 args; '(pc, st) ← printi i width flags t st; Some (pc, st, args, f)
      else if (t =? 117) || (t =? 111) || (t =? 120) || (t =? 88) then
        '(i, args) ← va_int false 32 args; '(pc, st) ← printi i width flags t st; Some (pc, st, args, f)
      else if (t =? 112) || (t =? 80) then
        '(i, args) ← va_int false 64 args; '(pc, st) ← printi (signed 64 i) width flags t st; Some (pc, st, args, f)
      else if t =? 108 then
        let '(longlong, f) := match f with c :: f' => if c =? 108 then (true, f') else (false, f) | [] => (false, f) end in
        let '(type, f) := match f with c :: f' => if length_type c then (c, f') else (105, f) | [] => (105, f) end in
        if (longlong : bool) || (type =? 100) || (type =? 105) then
          '(i, args) ← va_int true 64 args; '(pc, st) ← printi i width flags type st; Some (pc, st, args, f)
        else
          '(i, args) ← va_int false 64 args; '(pc, st) ← printi (signed 64 i) width flags type st; Some (pc, st, args, f)
      else if t =? 99 then
        '(i, args) ← va_int true 32 args;
        '(pc, st) ← prints (if u8 i =? 0 then [] else [u8 i]) width flags st; Some (pc, st, args, f)
      else Some (0, st, args, f)
  end.

(** The count [pc] is an integer; the [int] of the source would overflow only after an
    output of 2^31 characters. *)
Fixpoint print_loop (fuel : nat) (use_tbuf : bool) (format : list Z) (args : list va_value) (pc : Z) (st : printer) : option (Z * printer) :=
  match fuel with
  | O => None
  | S fuel =>
      let flags := if use_tbuf then USE_TBUF else 0 in
      match format with
      | [] => Some (pc, st)
      | c :: f =>
          if c =? 37 then
            match f with
            | [] => Some (pc, st)
            | c' :: f' =>
                if c' =? 37 then st ← printc flags c' st; print_loop fuel use_tbuf f' args (pc + 1) st
                else
                  let '(flags, f) := get_flags f flags in
                  let flags := if flag_set flags PAD_RIGHT then Z.land flags (Z.lnot PAD_ZERO) else flags in
                  '(width, f) ← get_width f 0;
                  '(n, st, args, f) ← convert width flags f args st;
                  print_loop fuel use_tbuf f args (pc + n) st
            end
          else st ← printc flags c st; print_loop fuel use_tbuf f args (pc + 1) st
      end
  end.

(** [o] is [out] and [out_len], or [None] for NULL. *)
Definition print (o : option (Z * option Z)) (format : list Z) (args : list va_value) (s : console) : option (Z * console) :=
  let use_tbuf := match o with None => true | Some _ => false end in
  let '(o, len) := default (tbuf, Some CONSOLE_TBUF_MAX) o in
  let s := if match len with None => true | Some n => negb (n =? 0) end then put_cmem (store8 (con_mem s) o 0) s else s in
  '(pc, st) ← print_loop (S (length format)) use_tbuf format args 0 (mkPr o len s);
  match out_len st with
  | Some n =>
      if use_tbuf && (n <? CONSOLE_TBUF_MAX) then
        s ← nputs_all (bytes (con_mem (con st)) tbuf (Z.to_nat (CONSOLE_TBUF_MAX - n))) (con st); Some (pc, s)
      else Some (pc, con st)
  | None => Some (pc, con st)
  end.

(** How a call ends: it returns a value, or the hart hangs. *)
Inductive print_end := Returns (pc : Z) (s : console) | Hangs (s : console).

Definition sbi_panic (format : list Z) (args : list va_value) (s : console) : option print_end :=
  '(_, s) ← print None format args s; Some (Hangs s).

Definition sprintf_msg : list Z := text "sbi_sprintf called with NULL output string" ++ [10].
Definition snprintf_msg : list Z := text "sbi_snprintf called with NULL output string and output size is not zero" ++ [10].

Definition sbi_sprintf (o : Z) (format : list Z) (args : list va_value) (s : console) : option print_end :=
  if o =? 0 then sbi_panic sprintf_msg [] s
  else '(pc, s) ← print (Some (o, None)) format args s; Some (Returns pc s).

Definition sbi_snprintf (o out_sz : Z) (format : list Z) (args : list va_value) (s : console) : option print_end :=
  if (o =? 0) && negb (out_sz =? 0) then sbi_panic snprintf_msg [] s
  else '(pc, s) ← print (Some (o, Some out_sz)) format args s; Some (Returns pc s).

Definition sbi_printf (format : list Z) (args : list va_value) (s : console) : option (Z * console) := print None format args s.

Definition sbi_dprintf (debug_prints : bool) (format : list Z) (args : list va_value) (s : console) : option (Z * console) :=
  if debug_prints then print None format args s else Some (0, s).

Definition sbi_console_get_device (s : console) : option sbi_console_device := console_dev s.

Fixpoint flush_loop (fuel : nat) (s : console) : option console :=
  match fuel with
  | O => None
  | S fuel =>
      let '(rc, ch, q) := bq_dequeue (console_early_fifo s) in
      let s := put_early q s in
      if rc =? 0 then s ← sbi_putc (default 0 ch) s; flush_loop fuel s else Some s
  end.

Definition sbi_console_set_device (dev : option sbi_console_device) (s : console) : option console :=
  match dev with
  | None => Some s
  | Some dev =>
      let flush_early_fifo := match console_dev s with None => true | Some _ => false end in
      let s := mkCon (Some dev) (console_early_fifo s) (dev_state s) (con_mem s) in
      if flush_early_fifo then flush_loop (S (bq_cap (console_early_fifo s))) s else Some s
  end.

End Console.
