(* ===== verification/SbiFormat.v ===== *)
(** * Formatted output: what a format means

    The grammar of formats and the text each stands for, independent of the loops
    and buffers of lib/sbi/sbi_console.c; [print_loop_shows] leads from these to the
    text, [emit_buffer] from the text to a buffer in memory, and [strtol_field] from
    the text of a number back to the number. *)

From S2P Require Import Prelude SbiString SbiFifo SbiConsole.

(** ** What a format means

    The grammar of the formats, and the text each directive stands for, following
    the C standard for the conversions the source has. *)

Inductive flag := FLeft | FPlus | FAlt | FZero | FSpace | FQuote.
Inductive int_size := SInt | SLong | SLongLong.
Inductive int_type := Td | Ti | Tu | To | Tx | TX.
Inductive conversion := CInt (sz : int_size) (t : int_type) | CPtr (upper : bool) | CStr | CChr.
Inductive directive := Lit (c : Z) | Conv (fs : list flag) (w : option Z) (cv : conversion).

#[global] Instance flag_eq_dec : EqDecision flag.
Proof. solve_decision. Defined.

(** The digits of [u] in base [b], the most significant first. *)
Fixpoint digits_acc (fuel : nat) (b u : Z) (acc : list Z) : list Z :=
  if u =? 0 then acc else match fuel with O => acc | S fuel => digits_acc fuel b (u / b) (u mod b :: acc) end.

Definition digits (b u : Z) : list Z := if u =? 0 then [0] else digits_acc 64 b u [].

Definition digit_char (upper : bool) (d : Z) : Z := if d <? 10 then 48 + d else (if upper then 55 else 87) + d.

Definition numeral (upper : bool) (b u : Z) : list Z := digit_char upper <$> digits b u.

Definition value_of (b : Z) (l : list Z) : Z := fold_left (fun a d => a * b + d) l 0.

Definition flag_char (f : flag) : Z := match f with FLeft => 45 | FPlus => 43 | FAlt => 35 | FZero => 48 | FSpace => 32 | FQuote => 39 end.
Definition size_chars (sz : int_size) : list Z := match sz with SInt => [] | SLong => [108] | SLongLong => [108; 108] end.
Definition type_char (t : int_type) : Z := match t with Td => 100 | Ti => 105 | Tu => 117 | To => 111 | Tx => 120 | TX => 88 end.
Definition conv_chars (cv : conversion) : list Z :=
  match cv with
  | CInt sz t => size_chars sz ++ [type_char t]
  | CPtr upper => [if upper then 80 else 112]
  | CStr => [115]
  | CChr => [99]
  end.

Definition show (d : directive) : list Z :=
  match d with
  | Lit c => if c =? 37 then [37; 37] else [c]
  | Conv fs w cv => 37 :: (flag_char <$> fs) ++ default [] (numeral false 10 <$> w) ++ conv_chars cv
  end.

Definition directive_ok (d : directive) : Prop :=
  match d with
  | Lit c => 0 < c < 2 ^ 8
  | Conv fs w cv => match w with Some w => 0 < w < 2 ^ 31 | None => True end
  end.

(** ** The text *)

Definition pad (n : Z) (c : Z) : list Z := replicate (Z.to_nat n) c.

Definition padded (left zero : bool) (width : Z) (l : list Z) : list Z :=
  let n := width - Z.of_nat (length l) in
  if left then l ++ pad n 32 else pad n (if zero then 48 else 32) ++ l.

(** A sign or prefix stays before the zeros. *)
Definition padded_number (left zero : bool) (width : Z) (pre l : list Z) : list Z :=
  if zero then pre ++ padded left true (width - Z.of_nat (length pre)) l else padded left false width (pre ++ l).

Definition size_bits (sz : int_size) : Z := match sz with SInt => 32 | _ => 64 end.
Definition type_signed (t : int_type) : bool := match t with Td | Ti => true | _ => false end.
Definition type_base (t : int_type) : Z := match t with To => 8 | Tx | TX => 16 | _ => 10 end.
Definition type_upper (t : int_type) : bool := match t with TX => true | _ => false end.

(** What stands before the digits of [i]. *)
Definition before (plus alt : bool) (t : int_type) (i : Z) : list Z :=
  (if type_signed t then if i <? 0 then [45] else if plus && (0 <? i) then [43] else [] else []) ++
  (if alt && negb (i =? 0) then match t with To => [48] | Tx => [48; 120] | TX => [48; 88] | _ => [] end else []).

Definition field (fs : list flag) (w : option Z) (cv : conversion) (args : list va_value) : option (list Z * list va_value) :=
  let left := bool_decide (FLeft ∈ fs) in
  let zero := bool_decide (FZero ∈ fs) && negb left in
  let plus := bool_decide (FPlus ∈ fs) in
  let alt := bool_decide (FAlt ∈ fs) in
  let width := default 0 w in
  let number t i := padded_number left zero width (before plus alt t i) (numeral (type_upper t) (type_base t) (Z.abs i)) in
  match cv with
  | CInt sz t => '(i, args) ← va_int (type_signed t) (size_bits sz) args; Some (number t i, args)
  | CPtr upper => '(i, args) ← va_int false 64 args; Some (number (if upper then TX else Tx) i, args)
  | CStr => '(s, args) ← va_str args; Some (padded left zero width (default null_string s), args)
  | CChr => '(i, args) ← va_int true 32 args; Some (padded left zero width (if u8 i =? 0 then [] else [u8 i]), args)
  end.

Fixpoint render (ds : list directive) (args : list va_value) : option (list Z) :=
  match ds with
  | [] => Some []
  | Lit c :: ds => l ← render ds args; Some (c :: l)
  | Conv fs w cv :: ds => '(l, args) ← field fs w cv args; l' ← render ds args; Some (l ++ l')
  end.

Definition show_format (ds : list directive) : list Z := concat (show <$> ds).

(** Strings hold bytes. *)
Definition value_ok (v : va_value) : Prop := match v with VStr (Some s) => Forall (fun c => 0 < c < 2 ^ 8) s | _ => True end.

(** ** Digits *)

Lemma digits_acc_app fuel b u acc : digits_acc fuel b u acc = digits_acc fuel b u [] ++ acc.
Proof.
  revert u acc. induction fuel as [|fuel IH]; intros u acc; cbn [digits_acc]; [by destruct (u =? 0)|].
  destruct (u =? 0); [done|]. rewrite IH, (IH _ [_]), <- app_assoc. done.
Qed.

Lemma digits_acc_value fuel b u : 2 <= b -> 0 <= u < b ^ Z.of_nat fuel -> value_of b (digits_acc fuel b u []) = u.
Proof.
  intros Hb. revert u. induction fuel as [|fuel IH]; intros u Hu; cbn [digits_acc]; [replace u with 0 by lia; done|].
  destruct (Z.eqb_spec u 0) as [-> |Hn]; [done|]. rewrite digits_acc_app. unfold value_of. rewrite fold_left_app. cbn [fold_left].
  fold (value_of b (digits_acc fuel b (u / b) [])). rewrite IH.
  - pose proof (Z.div_mod u b). lia.
  - split; [apply Z.div_pos; lia|]. apply Z.div_lt_upper_bound; [lia|]. rewrite Nat2Z.inj_succ, Z.pow_succ_r in Hu by lia. lia.
Qed.

Lemma digits_acc_range fuel b u : 0 < b -> Forall (fun d => 0 <= d < b) (digits_acc fuel b u []).
Proof.
  intros Hb. revert u. induction fuel as [|fuel IH]; intros u; cbn [digits_acc]; destruct (u =? 0); try constructor.
  rewrite digits_acc_app. apply Forall_app. split; [apply IH|]. constructor; [by apply Z.mod_pos_bound|constructor].
Qed.

Lemma digits_acc_length fuel b u k : 2 <= b -> 0 <= u < b ^ Z.of_nat k -> (length (digits_acc fuel b u []) <= k)%nat.
Proof.
  intros Hb. revert u k. induction fuel as [|fuel IH]; intros u k Hu; cbn [digits_acc]; destruct (Z.eqb_spec u 0) as [E|E]; cbn; try lia.
  rewrite digits_acc_app, length_app. cbn [length]. destruct k as [|k]; [cbn in Hu; lia|].
  assert (length (digits_acc fuel b (u / b) []) <= k)%nat; [|lia]. apply IH.
  split; [apply Z.div_pos; lia|]. apply Z.div_lt_upper_bound; [lia|]. rewrite Nat2Z.inj_succ, Z.pow_succ_r in Hu by lia. lia.
Qed.

Lemma digits_acc_head fuel b u : 2 <= b -> 0 < u < b ^ Z.of_nat fuel -> exists d l, digits_acc fuel b u [] = d :: l /\ d <> 0.
Proof.
  intros Hb. revert u. induction fuel as [|fuel IH]; intros u Hu; cbn [digits_acc]; [cbn in Hu; lia|].
  replace (u =? 0) with false by lia. rewrite digits_acc_app. rewrite Nat2Z.inj_succ, Z.pow_succ_r in Hu by lia.
  destruct (Z.eq_dec (u / b) 0) as [E|E].
  - rewrite E. exists (u mod b), []. split; [by destruct fuel|]. pose proof (Z.div_mod u b). lia.
  - destruct (IH (u / b)) as (d & l & -> & Hd); [|by exists d, (l ++ [u mod b])].
    split; [pose proof (Z.div_pos u b); lia|]. apply Z.div_lt_upper_bound; lia.
Qed.

Lemma pow_fuel b : 2 <= b -> 2 ^ 64 <= b ^ Z.of_nat 64.
Proof. intros. change (Z.of_nat 64) with 64. apply Z.pow_le_mono_l. lia. Qed.

Lemma digits_value b u : 2 <= b -> 0 <= u < 2 ^ 64 -> value_of b (digits b u) = u.
Proof.
  intros Hb Hu. unfold digits. destruct (Z.eqb_spec u 0) as [-> |Hn]; [done|]. apply digits_acc_value; [done|]. pose proof (pow_fuel b Hb). lia.
Qed.

Lemma digits_range b u : 2 <= b -> Forall (fun d => 0 <= d < b) (digits b u).
Proof. intros. unfold digits. destruct (u =? 0); [repeat constructor; lia|]. apply digits_acc_range. lia. Qed.

(** ** From the loops of the code to the text *)

Lemma flag_set_lor a b k : flag_set (Z.lor a b) k = flag_set a k || flag_set b k.
Proof.
  unfold flag_set. rewrite Z.land_lor_distr_l. destruct (Z.eqb_spec (Z.lor (Z.land a k) (Z.land b k)) 0) as [E|E].
  - apply Z.lor_eq_0_iff in E as [-> ->]. done.
  - destruct (Z.eqb_spec (Z.land a k) 0) as [E1|]; [|done]. destruct (Z.eqb_spec (Z.land b k) 0) as [E2|]; [|done]. by rewrite E1, E2 in E.
Qed.

Lemma flag_set_clear a b k : Z.land (Z.lnot b) k = k -> flag_set (Z.land a (Z.lnot b)) k = flag_set a k.
Proof. intros H. unfold flag_set. by rewrite <- Z.land_assoc, H. Qed.

Section Text.
Context {D F : Type} `{!BoundedQueue F Z}.
Variable tbuf : Z.
Notation printer := (@printer D F).
Notation emit := (@string_loop D F _ tbuf).

Lemma emit_app l1 l2 fl (st : printer) : emit (l1 ++ l2) fl st = emit l1 fl st ≫= emit l2 fl.
Proof.
  revert st. induction l1 as [|c l1 IH]; intros st; cbn [string_loop app]; [by rewrite some_bind|].
  destruct (printc tbuf fl c st) as [st'|]; [|done]. rewrite !some_bind. apply IH.
Qed.

Lemma printc_flags f1 f2 c (st : printer) : flag_set f1 USE_TBUF = flag_set f2 USE_TBUF -> printc tbuf f1 c st = printc tbuf f2 c st.
Proof. intros H. unfold printc. by rewrite H. Qed.

Lemma emit_flags f1 f2 l (st : printer) : flag_set f1 USE_TBUF = flag_set f2 USE_TBUF -> emit l f1 st = emit l f2 st.
Proof.
  intros H. revert st. induction l as [|c l IH]; intros st; cbn [string_loop]; [done|]. rewrite (printc_flags f1 f2) by done.
  destruct (printc tbuf f2 c st); [|done]. rewrite !some_bind. apply IH.
Qed.

Lemma pad_loop_emit n fl c (st : printer) : pad_loop tbuf n fl c st = emit (replicate n c) fl st.
Proof.
  revert st. induction n as [|n IH]; intros st; cbn [pad_loop replicate string_loop]; [done|].
  destruct (printc tbuf fl c st); [|done]. rewrite !some_bind. apply IH.
Qed.

(** A part of the output with the count of its characters. *)
Definition emits (l : list Z) (fl : Z) (st : printer) : option (Z * printer) := st ← emit l fl st; Some (Z.of_nat (length l), st).

Lemma emits_app l1 l2 fl (st : printer) : emits (l1 ++ l2) fl st = (st ← emit l1 fl st; '(n, st) ← emits l2 fl st; Some (Z.of_nat (length l1) + n, st)).
Proof.
  unfold emits. rewrite emit_app. destruct (emit l1 fl st) as [st1|]; [|done]. rewrite !some_bind. destruct (emit l2 fl st1) as [st2|]; [|done].
  rewrite !some_bind. cbv beta iota. rewrite length_app. do 2 f_equal. lia.
Qed.

Lemma prints_emits l width fl (st : printer) : prints tbuf l width fl st = emits (padded (flag_set fl PAD_RIGHT) (flag_set fl PAD_ZERO) width l) fl st.
Proof.
  unfold prints, padded, emits, pad. rewrite !pad_loop_emit. set (n := width - Z.of_nat (length l)).
  destruct (flag_set fl PAD_RIGHT).
  - cbn [replicate string_loop]. rewrite some_bind, Z.sub_0_r, emit_app. destruct (emit l fl st) as [st1|]; [|done]. rewrite !some_bind, pad_loop_emit.
    destruct (emit _ fl st1); [|done]. rewrite !some_bind, length_app, length_replicate. do 2 f_equal. lia.
  - rewrite emit_app. destruct (emit (replicate _ _) fl st) as [st1|]; [|done]. rewrite !some_bind. destruct (emit l fl st1) as [st2|]; [|done].
    rewrite !some_bind. replace (Z.to_nat (n - Z.of_nat (Z.to_nat n))) with 0%nat by lia. cbn [pad_loop].
    rewrite some_bind, length_app, length_replicate. do 2 f_equal. lia.
Qed.

(** ** Numbers *)

Lemma digit_char_code (upper : bool) d : 0 <= d < 16 ->
  u8 ((if 10 <=? d then d + (if upper then 65 else 97) - 48 - 10 else d) + 48) = digit_char upper d.
Proof. intros. unfold digit_char. rewrite wrap_small; destruct upper; zcases; lia. Qed.

Lemma digit_loop_spec fuel u b (upper : bool) s : 2 <= b <= 16 -> 0 <= u < b ^ Z.of_nat fuel -> (length (digits_acc fuel b u []) + length s <= 63)%nat ->
  digit_loop fuel u b (if upper then 65 else 97) s = Some ((digit_char upper <$> digits_acc fuel b u []) ++ s).
Proof.
  intros Hb. revert u s. induction fuel as [|fuel IH]; intros u s Hu Hl; cbn [digit_loop digits_acc] in *; destruct (Z.eqb_spec u 0) as [E|E]; try done.
  { cbn in Hu. lia. }
  rewrite digits_acc_app in Hl |- *. rewrite length_app in Hl. cbn [length] in Hl.
  unfold push_char. replace (PRINT_BUF_LEN - 1 <=? length s)%nat with false by (symmetry; apply Nat.leb_gt; unfold PRINT_BUF_LEN; lia).
  rewrite some_bind, digit_char_code by (pose proof (Z.mod_pos_bound u b); lia). rewrite IH.
  - by rewrite fmap_app, <- app_assoc.
  - split; [apply Z.div_pos; lia|]. apply Z.div_lt_upper_bound; [lia|]. rewrite Nat2Z.inj_succ, Z.pow_succ_r in Hu by lia. lia.
  - cbn [length]. lia.
Qed.

Lemma numeral_loop u b (upper : bool) : 8 <= b <= 16 -> 0 <= u < 2 ^ 64 ->
  (if u =? 0 then push_char 48 [] else digit_loop PRINT_BUF_LEN u b (if upper then 65 else 97) []) = Some (numeral upper b u) /\
  (length (numeral upper b u) <= 22)%nat.
Proof.
  intros Hb Hu. unfold numeral, digits. rewrite length_fmap. destruct (Z.eqb_spec u 0) as [->|Hn]; [split; [by destruct upper|cbn; lia]|].
  assert (length (digits_acc 64 b u []) <= 22)%nat as Hl.
  { apply digits_acc_length; [lia|]. split; [lia|]. apply Z.lt_le_trans with (2 ^ 64); [lia|]. transitivity (8 ^ 22); [by apply Z.leb_le|]. apply (Z.pow_le_mono_l 8 b 22). lia. }
  split; [|done]. unfold PRINT_BUF_LEN. rewrite digit_loop_spec; [by rewrite app_nil_r|lia| |cbn [length]; lia].
  pose proof (pow_fuel b ltac:(lia)). lia.
Qed.

Lemma push_char_ok c s : 0 <= c < 256 -> (length s <= 62)%nat -> push_char c s = Some (c :: s).
Proof. intros. unfold push_char. replace (PRINT_BUF_LEN - 1 <=? length s)%nat with false by (symmetry; apply Nat.leb_gt; unfold PRINT_BUF_LEN; lia). by rewrite wrap_small. Qed.

(** [i] as the text of its type, whatever [long long] it was passed as. *)
Lemma printi_emits i j width fl t (st : printer) : u64 i = u64 j ->
  (if type_signed t then i = j /\ - 2 ^ 63 <= i < 2 ^ 63 else 0 <= j < 2 ^ 64) -> (i = 0 <-> j = 0) ->
  printi tbuf i width fl (type_char t) st =
  emits (padded_number (flag_set fl PAD_RIGHT) (flag_set fl PAD_ZERO) width (before (flag_set fl PAD_SIGN) (flag_set fl PAD_ALTERNATE) t j)
    (numeral (type_upper t) (type_base t) (Z.abs j))) fl st.
Proof.
  intros Hu Hr H0. unfold printi.
  set (alt := flag_set fl PAD_ALTERNATE). set (plus := flag_set fl PAD_SIGN). set (left := flag_set fl PAD_RIGHT).
  assert ((if type_char t =? 111 then (8, 97)
    else if (type_char t =? 120) || (type_char t =? 88) || (type_char t =? 112) || (type_char t =? 80)
      then (16, Z.lor (Z.land 97 (Z.lnot 0x20)) (Z.land (type_char t) 0x20)) else (10, 97)) = (type_base t, if type_upper t then 65 else 97)) as -> by by destruct t.
  cbv beta iota zeta.
  set (sg := if type_signed t then if j <? 0 then 45 else if plus && (0 <? j) then 43 else 0 else 0).
  assert ((if (type_char t =? 105) || (type_char t =? 100) then
      if i <? 0 then (45, u64 (- i)) else (if plus && (0 <? i) then 43 else 0, u64 i) else (0, u64 i)) = (sg, Z.abs j)) as ->.
  { unfold sg. destruct (type_signed t) eqn:Et.
    - destruct Hr as [-> Hr]. destruct t; try done; cbn [type_char]; cbn [Z.eqb Pos.eqb orb]; destruct (Z.ltb_spec j 0); f_equal; rewrite wrap_small; lia.
    - rewrite Hu, (wrap_small 64 j) by lia. rewrite Z.abs_eq by lia. by destruct t. }
  cbv beta iota zeta.
  destruct (numeral_loop (Z.abs j) (type_base t) (type_upper t)) as [-> Hlen]; [by destruct t|destruct (type_signed t); lia|].
  rewrite some_bind. set (num := numeral _ _ _) in *. replace (i =? 0) with (j =? 0) by (apply eq_true_iff_eq; rewrite !Z.eqb_eq; tauto).
  set (a := negb (j =? 0) && alt).
  assert (before plus alt t j = (if negb (sg =? 0) then [sg] else []) ++ (if a && ((type_base t =? 16) || (type_base t =? 8)) then [48] else []) ++
     (if a && (type_base t =? 16) then [120 - 97 + (if type_upper t then 65 else 97)] else [])) as Hb.
  { unfold before, sg. f_equal.
    - destruct (type_signed t); [|done]. destruct (j <? 0); [done|]. by destruct (plus && (0 <? j)).
    - unfold a. rewrite (andb_comm alt). destruct (negb (j =? 0) && alt); by destruct t. }
  rewrite Hb. unfold padded_number. destruct (flag_set fl PAD_ZERO) eqn:Ez.
  - rewrite emits_app. destruct (emit _ fl st) as [st1|]; [|done]. rewrite !some_bind, prints_emits, Ez. done.
  - transitivity (prints tbuf ((if negb (sg =? 0) then [sg] else []) ++ (if a && ((type_base t =? 16) || (type_base t =? 8)) then [48] else []) ++
      (if a && (type_base t =? 16) then [120 - 97 + (if type_upper t then 65 else 97)] else []) ++ num) width fl st).
    + assert (0 <= sg < 256) as Hsg by (unfold sg; destruct (type_signed t), (j <? 0), (plus && (0 <? j)); lia).
      assert (0 <= 120 - 97 + (if type_upper t then 65 else 97) < 256) as Hx by (destruct (type_upper t); lia).
      destruct (a && (type_base t =? 16)) eqn:E16, (a && ((type_base t =? 16) || (type_base t =? 8))) eqn:E8, (negb (sg =? 0));
        repeat (first [rewrite push_char_ok by (first [assumption | lia | cbn [length app]; lia]) | rewrite some_bind]); done.
    + rewrite prints_emits, Ez, !app_assoc. done.
Qed.

(** ** Formats *)

Definition flag_bit (f : flag) : Z := match f with FLeft => PAD_RIGHT | FPlus => PAD_SIGN | FAlt => PAD_ALTERNATE | FZero => PAD_ZERO | _ => 0 end.
Definition flags_of (fs : list flag) (base : Z) : Z := fold_left (fun a f => Z.lor a (flag_bit f)) fs base.

Definition plain (l : list Z) : Prop := match l with c :: _ => 49 <= c | [] => True end.

Lemma get_flags_show fs rest base : plain rest -> get_flags ((flag_char <$> fs) ++ rest) base = (flags_of fs base, rest).
Proof.
  intros Hr. revert base. induction fs as [|f fs IH]; intros base; cbn [fmap list_fmap app flags_of fold_left].
  - destruct rest as [|c rest]; [done|]. cbn in Hr. cbn [get_flags].
    by rewrite !(proj2 (Z.eqb_neq c _)) by lia.
  - cbn [get_flags]. destruct f; cbn [flag_char Z.eqb Pos.eqb orb]; rewrite IH; cbn [flag_bit]; rewrite ?Z.lor_0_r; done.
Qed.

Lemma flags_of_set fs base k f : flag_bit f = k -> k <> 0 -> (forall g, g <> f -> Z.land (flag_bit g) k = 0) ->
  flag_set (flags_of fs base) k = flag_set base k || bool_decide (f ∈ fs).
Proof.
  intros Hf Hk Hg. revert base. induction fs as [|g fs IH]; intros base; cbn [flags_of fold_left].
  - rewrite bool_decide_eq_false_2 by apply not_elem_of_nil. by rewrite orb_false_r.
  - fold (flags_of fs (Z.lor base (flag_bit g))). rewrite IH, flag_set_lor, <- orb_assoc. f_equal. destruct (decide (g = f)) as [->|Hn].
    + rewrite (bool_decide_eq_true_2 (f ∈ f :: fs)) by left. unfold flag_set. rewrite Hf, Z.land_diag. by rewrite (proj2 (Z.eqb_neq k 0)).
    + unfold flag_set. rewrite Hg by done. apply bool_decide_ext. rewrite elem_of_cons. naive_solver.
Qed.

Lemma fold_digits_mono l a : Forall (fun d => 0 <= d < 10) l -> 0 <= a -> a <= fold_left (fun a d => a * 10 + d) l a.
Proof.
  intros Hl. revert a. induction Hl as [|d l Hd Hl IH]; intros a Ha; cbn [fold_left]; [lia|]. pose proof (IH (a * 10 + d) ltac:(lia)). lia.
Qed.

Lemma get_width_digits l rest acc : Forall (fun d => 0 <= d < 10) l -> 0 <= acc -> fold_left (fun a d => a * 10 + d) l acc < 2 ^ 31 ->
  get_width ((digit_char false <$> l) ++ rest) acc = get_width rest (fold_left (fun a d => a * 10 + d) l acc).
Proof.
  intros Hl. revert acc. induction Hl as [|d l Hd Hl IH]; intros acc Ha Hv; cbn [fmap list_fmap app fold_left get_width] in *; [done|].
  assert (digit_char false d = 48 + d) as -> by (unfold digit_char; by replace (d <? 10) with true by lia). replace ((48 <=? 48 + d) && (48 + d <=? 57)) with true by lia.
  replace (acc * 10 + (48 + d - 48)) with (acc * 10 + d) by lia.
  pose proof (fold_digits_mono l (acc * 10 + d) Hl ltac:(lia)).
  replace (acc * 10 + d <? 2 ^ 31) with true by lia. apply IH; lia.
Qed.

Lemma get_width_stop rest w : match rest with c :: _ => 57 < c | [] => True end -> get_width rest w = Some (w, rest).
Proof. destruct rest as [|c rest]; [done|]. intros Hc. cbn [get_width]. by replace ((48 <=? c) && (c <=? 57)) with false by lia. Qed.

Lemma conv_head cv : exists c l, conv_chars cv = c :: l /\ 57 < c.
Proof. destruct cv as [[] []|[]| |]; eexists _, _; split; try reflexivity; cbn; lia. Qed.

Lemma width_shown w rest : 0 < w < 2 ^ 31 -> match rest with c :: _ => 57 < c | [] => True end ->
  plain (numeral false 10 w ++ rest) /\ get_width (numeral false 10 w ++ rest) 0 = Some (w, rest).
Proof.
  intros Hw Hr. unfold numeral. split.
  - unfold digits. replace (w =? 0) with false by lia. destruct (digits_acc_head 64 10 w) as (d & l & E & Hd); [lia|pose proof (pow_fuel 10 ltac:(lia)); lia|].
    pose proof (digits_acc_range 64 10 w ltac:(lia)) as Hf. rewrite E in Hf |- *. inversion Hf as [|? ? Hd' _]; subst. cbn.
    unfold digit_char. replace (d <? 10) with true by lia. lia.
  - pose proof (digits_value 10 w ltac:(lia) ltac:(lia)) as Hv. unfold value_of in Hv.
    rewrite get_width_digits; [|by apply digits_range|lia|rewrite Hv; lia]. rewrite Hv. by apply get_width_stop.
Qed.

(** The flags as [convert] sees them. *)
Record flags_agree (fs : list flag) (fl : Z) : Prop := {
  fa_left : flag_set fl PAD_RIGHT = bool_decide (FLeft ∈ fs);
  fa_zero : flag_set fl PAD_ZERO = bool_decide (FZero ∈ fs) && negb (bool_decide (FLeft ∈ fs));
  fa_plus : flag_set fl PAD_SIGN = bool_decide (FPlus ∈ fs);
  fa_alt : flag_set fl PAD_ALTERNATE = bool_decide (FAlt ∈ fs) }.

Lemma flags_parsed fs (b : bool) : let fl := flags_of fs (if b then USE_TBUF else 0) in
  let fl := if flag_set fl PAD_RIGHT then Z.land fl (Z.lnot PAD_ZERO) else fl in
  flags_agree fs fl /\ flag_set fl USE_TBUF = flag_set (if b then USE_TBUF else 0) USE_TBUF.
Proof.
  cbv zeta. set (base := if b then USE_TBUF else 0).
  assert (forall f, flag_bit f <> 0 -> flag_set (flags_of fs base) (flag_bit f) = bool_decide (f ∈ fs)) as Hf.
  { intros f Hn. rewrite (flags_of_set fs base (flag_bit f) f eq_refl Hn); [by unfold base; destruct b, f|]. intros g Hg. by destruct f, g. }
  assert (flag_set (flags_of fs base) USE_TBUF = flag_set base USE_TBUF) as Ht.
  { clear. generalize base. induction fs as [|f fs IH]; intros c; cbn [flags_of fold_left]; [done|]. etransitivity; [apply IH|].
    rewrite flag_set_lor. destruct f; cbn [flag_bit]; by rewrite orb_false_r. }
  change PAD_RIGHT with (flag_bit FLeft) in *. pose proof (Hf FLeft ltac:(done)) as HL. rewrite HL. destruct (bool_decide (FLeft ∈ fs)) eqn:E.
  - split; [|by rewrite flag_set_clear]. split; rewrite ?E.
    + by rewrite flag_set_clear.
    + unfold flag_set. rewrite <- Z.land_assoc. by rewrite andb_false_r, Z.land_0_r.
    + rewrite flag_set_clear by done. by apply (Hf FPlus).
    + rewrite flag_set_clear by done. by apply (Hf FAlt).
  - split; [|done]. split; rewrite ?E; [done|rewrite andb_true_r; by apply (Hf FZero)|by apply (Hf FPlus)|by apply (Hf FAlt)].
Qed.

Lemma signed_range w z : 0 < w -> - 2 ^ (w - 1) <= signed w (wrap w z) < 2 ^ (w - 1).
Proof.
  intros Hw. pose proof (wrap_range w z ltac:(lia)). unfold signed. assert (2 ^ w = 2 * 2 ^ (w - 1)) by (rewrite <- Z.pow_succ_r by lia; f_equal; lia).
  zcases; lia.
Qed.

Lemma u64_signed z : u64 (signed 64 (u64 z)) = u64 (u64 z) /\ (signed 64 (u64 z) = 0 <-> u64 z = 0).
Proof.
  pose proof (wrap_range 64 z ltac:(lia)). unfold signed. destruct (Z.ltb_spec (u64 z) (2 ^ (64 - 1))); [done|]. split; [|lia].
  unfold wrap. rewrite Zminus_mod, Z_mod_same_full, Z.sub_0_r, Zmod_mod. by rewrite Zmod_mod.
Qed.

(** A conversion puts out its field. *)
Lemma convert_field fs w cv args l args' width fl rest st : field fs w cv args = Some (l, args') -> flags_agree fs fl -> width = default 0 w ->
  convert tbuf width fl (conv_chars cv ++ rest) args st = '(n, st) ← emits l fl st; Some (n, st, args', rest).
Proof.
  intros Hf [Hl Hz Hp Ha] ->. unfold field in Hf. rewrite <- Hz, <- Hl, <- Hp, <- Ha in Hf. destruct cv as [sz t|upper| |].
  - assert (exists i j, (if type_signed t then i = j /\ - 2 ^ 63 <= i < 2 ^ 63 else 0 <= j < 2 ^ 64) /\ u64 i = u64 j /\ (i = 0 <-> j = 0) /\
      va_int (type_signed t) (size_bits sz) args = Some (j, args') /\
      convert tbuf (default 0 w) fl (conv_chars (CInt sz t) ++ rest) args st = '(n, st) ← printi tbuf i (default 0 w) fl (type_char t) st; Some (n, st, args', rest))
      as (i & j & Hr & Hu & H0 & Hva & ->).
    + destruct args as [|[z|] args]; try done. cbn [va_int] in Hf |- *. rewrite some_bind in Hf. injection Hf as _ <-.
      destruct (type_signed t) eqn:Et.
      * exists (signed (size_bits sz) (wrap (size_bits sz) z)), (signed (size_bits sz) (wrap (size_bits sz) z)).
        pose proof (signed_range (size_bits sz) z) as Hs. split; [split; [done|]|split; [done|split; [done|split; [done|]]]].
        { destruct sz; cbn [size_bits] in *; specialize (Hs ltac:(lia)); lia. }
        by destruct sz, t.
      * destruct sz.
        -- exists (u32 z), (u32 z). pose proof (wrap_range 32 z). split; [lia|]. split; [done|]. split; [done|]. split; [done|]. by destruct t.
        -- exists (signed 64 (u64 z)), (u64 z). destruct (u64_signed z). pose proof (wrap_range 64 z). split; [lia|]. do 3 (split; [done|]). by destruct t.
        -- exists (signed 64 (u64 z)), (u64 z). destruct (u64_signed z). pose proof (wrap_range 64 z). split; [lia|]. do 3 (split; [done|]). by destruct t.
    + rewrite Hva, some_bind in Hf. injection Hf as <-. by rewrite (printi_emits i j) by done.
  - destruct args as [|[z|] args]; try done. cbn [va_int] in Hf. rewrite some_bind in Hf. injection Hf as <- <-. destruct (u64_signed z).
    pose proof (wrap_range 64 z ltac:(lia)).
    transitivity ('(n, st) ← printi tbuf (signed 64 (u64 z)) (default 0 w) fl (type_char (if upper then TX else Tx)) st; Some (n, st, args, rest)); [by destruct upper|].
    by rewrite (printi_emits (signed 64 (u64 z)) (u64 z)) by (try done; by destruct upper).
  - destruct (va_str args) as [[s args1]|] eqn:Es; [|done]. rewrite some_bind in Hf. injection Hf as <- <-. cbn [convert conv_chars app Z.eqb Pos.eqb].
    by rewrite Es, some_bind, prints_emits.
  - destruct (va_int true 32 args) as [[i args1]|] eqn:Es; [|done]. rewrite some_bind in Hf. injection Hf as <- <-. cbn [convert conv_chars app Z.eqb Pos.eqb orb].
    by rewrite Es, some_bind, prints_emits.
Qed.

(** The loop over a format puts out its text. *)
Lemma print_loop_shows ds args l : Forall directive_ok ds -> render ds args = Some l ->
  forall fuel b pc st, (length (show_format ds) < fuel)%nat ->
    print_loop tbuf fuel b (show_format ds) args pc st = st' ← emit l (if b : bool then USE_TBUF else 0) st; Some (pc + Z.of_nat (length l), st').
Proof.
  intros Hok. revert args l. induction Hok as [|d ds Hd Hok IH]; intros args l Hr fuel b pc st Hfuel; (destruct fuel as [|fuel]; [lia|]).
  { injection Hr as <-. cbn. by rewrite Z.add_0_r. }
  change (show_format (d :: ds)) with (show d ++ show_format ds) in *. destruct d as [c|fs w cv]; cbn [render] in Hr.
  - destruct (render ds args) as [l'|] eqn:Er; [|done]. rewrite some_bind in Hr. injection Hr as <-. rewrite length_app in Hfuel.
    transitivity (st1 ← printc tbuf (if b then USE_TBUF else 0) c st; print_loop tbuf fuel b (show_format ds) args (pc + 1) st1).
    + cbn [show]. destruct (Z.eqb_spec c 37) as [->|Hn]; cbn [app print_loop]; [done|]. by rewrite (proj2 (Z.eqb_neq c 37)).
    + cbn [string_loop]. destruct (printc tbuf _ c st) as [st1|]; [|done]. rewrite !some_bind. rewrite (IH args l' Er).
      * destruct (emit l' _ st1); [|done]. rewrite !some_bind. cbn [length]. do 2 f_equal. lia.
      * cbn [show] in Hfuel. destruct (c =? 37); cbn [length] in Hfuel; lia.
  - destruct (field fs w cv args) as [[l1 args']|] eqn:Ef; [|done]. rewrite some_bind in Hr. cbv beta iota in Hr.
    destruct (render ds args') as [l2|] eqn:Er; [|done]. rewrite some_bind in Hr. injection Hr as <-.
    destruct (conv_head cv) as (c0 & cl & Ecv & Hc0). rewrite length_app in Hfuel. cbn [show length] in Hfuel.
    set (rest := conv_chars cv ++ show_format ds).
    assert (plain (default [] (numeral false 10 <$> w) ++ rest) /\ get_width (default [] (numeral false 10 <$> w) ++ rest) 0 = Some (default 0 w, rest)) as [Hplain Hwidth].
    { assert (match rest with c :: _ => 57 < c | [] => True end) by (unfold rest; by rewrite Ecv). destruct w as [w|]; [by apply width_shown|]. split; [|by apply get_width_stop].
      unfold rest in *. rewrite Ecv in *. cbn in *. lia. }
    destruct (flags_parsed fs b) as [Hfa Hft].
    assert (print_loop tbuf (S fuel) b (show (Conv fs w cv) ++ show_format ds) args pc st =
      ('(n, st, args, f) ← convert tbuf (default 0 w) (let fl := flags_of fs (if b then USE_TBUF else 0) in if flag_set fl PAD_RIGHT then Z.land fl (Z.lnot PAD_ZERO) else fl) rest args st;
       print_loop tbuf fuel b f args (pc + n) st)) as ->.
    { cbn [show app print_loop Z.eqb Pos.eqb]. rewrite <- !app_assoc. fold rest.
      pose proof (get_flags_show fs (default [] (numeral false 10 <$> w) ++ rest) (if b then USE_TBUF else 0) Hplain) as Eg.
      destruct ((flag_char <$> fs) ++ default [] (numeral false 10 <$> w) ++ rest) as [|c' f'] eqn:El.
      { exfalso. apply app_eq_nil in El as [_ El]. apply app_eq_nil in El as [_ El]. unfold rest in El. by rewrite Ecv in El. }
      destruct (Z.eqb_spec c' 37) as [->|_]; [exfalso|].
      - destruct fs as [|[] fs]; try done. cbn [fmap list_fmap app] in El. rewrite El in Hplain. cbn in Hplain. lia.
      - rewrite Eg. cbv beta iota zeta. rewrite Hwidth, some_bind. done. }
    unfold rest. rewrite (convert_field fs w cv args l1 args') by done. cbv zeta. set (fl := if flag_set _ _ then _ else _) in *. unfold emits.
    rewrite (emit_flags fl (if b then USE_TBUF else 0)) by exact Hft. rewrite emit_app. destruct (emit l1 _ st) as [st1|]; [|done].
    repeat (rewrite some_bind; cbv beta iota). rewrite (IH args' l2 Er).
    + destruct (emit l2 _ st1); [|done]. rewrite !some_bind, length_app. do 2 f_equal. lia.
    + lia.
Qed.

End Text.

(** ** Output into a buffer *)

Definition byte_list (l : list Z) : Prop := Forall (fun c => 0 <= c < 2 ^ 8) l.

Lemma pad_bytes n c : 0 <= c < 2 ^ 8 -> byte_list (pad n c).
Proof. intros Hc. by apply Forall_replicate. Qed.

Lemma padded_bytes left zero width l : byte_list l -> byte_list (padded left zero width l).
Proof. intros Hl. unfold padded. destruct left; apply Forall_app; split; try done; apply pad_bytes; destruct zero; lia. Qed.

Lemma numeral_bytes upper b u : 2 <= b <= 16 -> byte_list (numeral upper b u).
Proof.
  intros Hb. unfold numeral. apply Forall_fmap. eapply Forall_impl; [apply digits_range; lia|]. intros d Hd. unfold compose. cbv beta in *.
  unfold digit_char. destruct (d <? 10), upper; lia.
Qed.

Lemma field_bytes fs w cv args l args' : field fs w cv args = Some (l, args') -> Forall value_ok args -> byte_list l /\ Forall value_ok args'.
Proof.
  intros Hf Ha.
  assert (forall t i a b c w, byte_list (padded_number a b w (before c (bool_decide (FAlt ∈ fs)) t i) (numeral (type_upper t) (type_base t) (Z.abs i)))) as Hnum.
  { intros t i a b c w'. assert (byte_list (before c (bool_decide (FAlt ∈ fs)) t i)) as Hb.
    { unfold before. apply Forall_app; split; [destruct (type_signed t), (i <? 0), (c && (0 <? i))|destruct (bool_decide (FAlt ∈ fs) && negb (i =? 0)), t]; repeat constructor; lia. }
    assert (byte_list (numeral (type_upper t) (type_base t) (Z.abs i))) by (apply numeral_bytes; destruct t; cbn; lia).
    unfold padded_number. destruct b; [apply Forall_app; split; [done|by apply padded_bytes]|apply padded_bytes, Forall_app; by split]. }
  unfold field in Hf. destruct cv as [sz t|upper| |]; (destruct args as [|[z|s] args]; try done; cbn [va_int va_str] in Hf; rewrite some_bind in Hf; injection Hf as <- <-);
    (split; [|by inversion Ha]); try apply Hnum.
  - apply padded_bytes. destruct s as [s|]; cbn; [|repeat constructor; lia]. inversion Ha as [|? ? Hs]; subst. cbn in Hs. eapply Forall_impl; [exact Hs|]. cbn. lia.
  - apply padded_bytes. destruct (_ =? 0); [constructor|]. constructor; [by apply wrap_range|constructor].
Qed.

Lemma render_bytes ds args l : Forall directive_ok ds -> Forall value_ok args -> render ds args = Some l -> byte_list l.
Proof.
  intros Hok. revert args l. induction Hok as [|d ds Hd Hok IH]; intros args l Ha Hr; [injection Hr as <-; constructor|]. destruct d as [c|fs w cv]; cbn [render] in Hr.
  - destruct (render ds args) as [l'|] eqn:E; [|done]. injection Hr as <-. constructor; [cbn in Hd; lia|by eapply IH].
  - destruct (field fs w cv args) as [[l1 args']|] eqn:Ef; [|done]. rewrite some_bind in Hr. cbv beta iota in Hr.
    destruct (render ds args') as [l2|] eqn:E; [|done]. injection Hr as <-. destruct (field_bytes _ _ _ _ _ _ Ef Ha). apply Forall_app. split; [done|by eapply IH].
Qed.

Lemma bytes_snoc m a n : bytes m a (S n) = bytes m a n ++ [m (a + Z.of_nat n)].
Proof. unfold bytes. by rewrite seq_S, fmap_app. Qed.

Lemma bytes_S m a n : bytes m a (S n) = m a :: bytes m (a + 1) n.
Proof.
  unfold bytes. cbn [seq fmap list_fmap]. rewrite Z.add_0_r. f_equal. rewrite <- fmap_S_seq, <- list_fmap_compose. apply list_fmap_ext. intros i x _. cbn. f_equal. lia.
Qed.

Section Buffer.
Context {D F : Type} `{!BoundedQueue F Z}.
Variable tbuf : Z.
Notation console := (@console D F).
Notation emit := (@string_loop D F _ tbuf).

(** How many of [n] characters there is room for before the terminating zero. *)
Definition room (len : option Z) (n : nat) : nat := match len with None => n | Some sz => Nat.min n (Z.to_nat (sz - 1)) end.

(** [l] has been written at [o] as far as there is room, and nothing else. *)
Definition wrote (o : Z) (len : option Z) (l : list Z) (m m' : mem) : Prop :=
  let k := room len (length l) in
  bytes m' o k = take k l /\ m' (o + Z.of_nat k) = 0 /\ forall a, ~ (o <= a <= o + Z.of_nat k) -> m' a = m a.

Lemma emit_buffer l fl o len (s : console) : byte_list l -> flag_set fl USE_TBUF = false -> con_mem s o = 0 ->
  (match len with Some n => 0 < n < 2 ^ 32 | None => True end) ->
  exists m' len', emit l fl (mkPr o len s) = Some (mkPr (o + Z.of_nat (room len (length l))) len' (put_cmem m' s)) /\ wrote o len l (con_mem s) m'.
Proof.
  intros Hl Hfl. revert o len s. induction Hl as [|c l Hc Hl IH]; intros o len s H0 Hlen; cbn [string_loop].
  - exists (con_mem s), len. assert (room len (length (A := Z) []) = 0%nat) as E by (by destruct len). unfold wrote. rewrite E, Z.add_0_r. split; [by destruct s|done].
  - unfold printc. cbn [out_len con out]. rewrite Hfl. cbn [andb].
    set (m1 := store8 (store8 (con_mem s) o c) (o + 1) 0).
    assert (m1 o = c) as Hm1 by (unfold m1; rewrite store8_other, store8_same by lia; by apply wrap_small).
    assert (forall a, a <> o -> a <> o + 1 -> m1 a = con_mem s a) as Hm2 by (intros; unfold m1; by rewrite !store8_other).
    assert (forall len', (match len' with Some n => 0 < n < 2 ^ 32 | None => True end) -> room len (length (c :: l)) = S (room len' (length l)) ->
      exists m' len'', emit l fl (mkPr (o + 1) len' (put_cmem m1 s)) = Some (mkPr (o + Z.of_nat (room len (length (c :: l)))) len'' (put_cmem m' s)) /\
        wrote o len (c :: l) (con_mem s) m') as Hstep.
    { intros len' Hlen' Hroom. destruct (IH (o + 1) len' (put_cmem m1 s)) as (m' & len'' & -> & Hb & Hz & Hout); [apply store8_same|done|].
      exists m', len''. unfold wrote. rewrite Hroom. split; [do 2 f_equal; lia|]. split_and!.
      - rewrite bytes_S. cbn [take]. rewrite Hb. f_equal. rewrite Hout by lia. exact Hm1.
      - rewrite <- Hz. f_equal. lia.
      - intros a Ha. rewrite Hout by lia. apply Hm2; lia. }
    destruct len as [n|]; [|apply (Hstep None); done]. destruct (Z.ltb_spec 1 n) as [H1|H1].
    + rewrite wrap_small by lia. apply (Hstep (Some (n - 1))); [lia|]. cbn [room length]. lia.
    + rewrite some_bind. assert (n = 1) as -> by lia. exists (con_mem s), (Some 1).
      assert (forall k, room (Some 1) k = 0%nat) as E by (intros [|k]; done). unfold wrote. rewrite E, Z.add_0_r. split; [|done].
      clear -Hfl. assert (forall st : printer, out_len st = Some 1 -> emit l fl st = Some st) as Hskip; [|by rewrite Hskip by done; destruct s].
      intros st Hst. induction l as [|c l IH]; cbn [string_loop]; [done|]. unfold printc. rewrite Hst. cbn [Z.ltb Z.compare Pos.compare Pos.compare_cont]. rewrite some_bind. apply IH.
Qed.

Lemma emit_none l fl o (s : console) : emit l fl (mkPr o (Some 0) s) = Some (mkPr o (Some 0) s).
Proof. induction l as [|c l IH]; [done|]. exact IH. Qed.

End Buffer.

Lemma snprintf_text {D F : Type} `{!BoundedQueue F Z} tbuf ds args l o sz (s : @console D F) :
  Forall directive_ok ds -> Forall value_ok args -> render ds args = Some l -> 0 <= sz < 2 ^ 32 ->
  exists m', print tbuf (Some (o, Some sz)) (show_format ds) args s = Some (Z.of_nat (length l), put_cmem m' s) /\
    if sz =? 0 then m' = con_mem s
    else let k := Nat.min (length l) (Z.to_nat (sz - 1)) in
      bytes m' o k = take k l /\ m' (o + Z.of_nat k) = 0 /\ forall a, ~ (o <= a <= o + Z.of_nat k) -> m' a = con_mem s a.
Proof.
  intros Hds Ha Hr Hsz. pose proof (render_bytes ds args l Hds Ha Hr) as Hb. unfold print.
  cbv beta iota zeta delta [default from_option id]. destruct (Z.eqb_spec sz 0) as [->|Hn]; cbn [negb].
  - rewrite (print_loop_shows tbuf ds args l Hds Hr) by lia. rewrite emit_none, !some_bind. cbv beta iota. exists (con_mem s). split; [|done].
    cbn [out_len andb con]. by destruct s.
  - rewrite (print_loop_shows tbuf ds args l Hds Hr) by lia.
    destruct (emit_buffer tbuf l 0 o (Some sz) (put_cmem (store8 (con_mem s) o 0) s) Hb eq_refl) as (m' & len' & -> & H1 & H2 & H3); [apply store8_same|lia|].
    rewrite !some_bind. cbv beta iota. exists m'. cbn [room] in *. split; [by destruct len'|]. split_and!; [done|done|]. intros a Hout. rewrite H3 by done. cbn. apply store8_other. lia.
Qed.

(** ** Reading numbers back

    As C's [strtol]: spaces, a sign, [0x] in base 16, and the digits. *)
Definition digit_val (c : Z) : option Z :=
  if (48 <=? c) && (c <=? 57) then Some (c - 48) else if (97 <=? c) && (c <=? 102) then Some (c - 87)
  else if (65 <=? c) && (c <=? 70) then Some (c - 55) else None.

Fixpoint read_digits (b acc : Z) (l : list Z) : Z :=
  match l with
  | c :: l => match digit_val c with Some d => if d <? b then read_digits b (acc * b + d) l else acc | None => acc end
  | [] => acc
  end.

Fixpoint skip_spaces (l : list Z) : list Z := match l with c :: l' => if c =? 32 then skip_spaces l' else l | [] => [] end.

Definition skip_prefix (b : Z) (l : list Z) : list Z :=
  match l with c :: x :: l' => if (b =? 16) && (c =? 48) && ((x =? 120) || (x =? 88)) then l' else l | _ => l end.

Definition strtol (b : Z) (l : list Z) : Z :=
  match skip_spaces l with
  | c :: l => if c =? 45 then - read_digits b 0 (skip_prefix b l) else if c =? 43 then read_digits b 0 (skip_prefix b l)
              else read_digits b 0 (skip_prefix b (c :: l))
  | [] => 0
  end.

Lemma skip_spaces_pad n l : skip_spaces (replicate n 32 ++ l) = skip_spaces l.
Proof. induction n as [|n IH]; [done|exact IH]. Qed.

Lemma digit_val_char upper d : 0 <= d < 16 -> digit_val (digit_char upper d) = Some d.
Proof. intros Hd. unfold digit_val, digit_char. destruct upper; zcases; cbn [andb]; try lia; f_equal; lia. Qed.

Lemma read_digits_app b upper ds acc n : 2 <= b <= 16 -> Forall (fun d => 0 <= d < b) ds ->
  read_digits b acc ((digit_char upper <$> ds) ++ replicate n 32) = fold_left (fun a d => a * b + d) ds acc.
Proof.
  intros Hb Hds. revert acc. induction Hds as [|d ds Hd Hds IH]; intros acc; cbn [fmap list_fmap app read_digits fold_left].
  - by destruct n.
  - rewrite digit_val_char by lia. replace (d <? b) with true by lia. apply IH.
Qed.

Lemma fold_zeros b k l : fold_left (fun a d => a * b + d) (replicate k 0 ++ l) 0 = fold_left (fun a d => a * b + d) l 0.
Proof. induction k as [|k IH]; [done|]. exact IH. Qed.

Lemma digits_cons b u : 2 <= b -> 0 <= u < 2 ^ 64 -> digits b u <> [].
Proof.
  intros Hb Hu. unfold digits. destruct (Z.eqb_spec u 0); [done|]. destruct (digits_acc_head 64 b u Hb) as (d & l & -> & _); [|done].
  pose proof (pow_fuel b Hb). lia.
Qed.

(** The digits with the zeros before them, as the text has them. *)
Lemma strtol_digits b upper k u n : 2 <= b <= 16 -> 0 <= u < 2 ^ 64 ->
  let l := replicate k 48 ++ numeral upper b u ++ replicate n 32 in
  read_digits b 0 l = u /\ read_digits b 0 (skip_prefix b l) = u /\
  exists c l', l = c :: l' /\ c <> 32 /\ c <> 45 /\ c <> 43.
Proof.
  intros Hb Hu l.
  assert (l = (digit_char upper <$> (replicate k 0 ++ digits b u)) ++ replicate n 32) as El.
  { unfold l, numeral. rewrite fmap_app, fmap_replicate, <- app_assoc. done. }
  clearbody l.
  assert (Forall (fun d => 0 <= d < b) (replicate k 0 ++ digits b u)) as Hds by (apply Forall_app; split; [apply Forall_replicate; lia|apply digits_range; lia]).
  assert (read_digits b 0 l = u) as Hread.
  { rewrite El, read_digits_app by done. rewrite fold_zeros. apply digits_value; lia. }
  assert (forall d, 0 <= d < b -> 48 <= digit_char upper d <= 57 \/ 65 <= digit_char upper d <= 70 \/ 97 <= digit_char upper d <= 102) as Hch.
  { intros d Hd. unfold digit_char. destruct upper; zcases; lia. }
  assert (replicate k 0 ++ digits b u <> []) as Hne by (intros [_ E]%app_eq_nil; revert E; by apply digits_cons; lia).
  destruct (replicate k 0 ++ digits b u) as [|d ds]; [done|]. apply Forall_cons in Hds as [Hd Hds']. split; [done|].
  rewrite El in Hread |- *. cbn [fmap list_fmap app] in *. split; [|eexists _, _; split; [reflexivity|]; specialize (Hch d Hd); lia].
  destruct (((digit_char upper <$> ds)) ++ replicate n 32) as [|x l'] eqn:E2; [done|]. cbn [skip_prefix].
  assert (x <> 120 /\ x <> 88) as [H1 H2].
  { destruct Hds' as [|d' ds'' Hd' _]; cbn in E2; [destruct n; [done|]; injection E2 as <- _; done|]. injection E2 as <- _. specialize (Hch d' Hd'). lia. }
  rewrite (proj2 (Z.eqb_neq x 120) H1), (proj2 (Z.eqb_neq x 88) H2), andb_false_r. exact Hread.
Qed.

Lemma padded_number_shape left zero width pre l : zero && left = false ->
  exists a k n, padded_number left zero width pre l = replicate a 32 ++ pre ++ replicate k 48 ++ l ++ replicate n 32.
Proof.
  intros Hz. unfold padded_number, padded, pad. destruct zero, left; try done.
  - eexists 0%nat, _, 0%nat. cbn [replicate app]. rewrite app_nil_r. done.
  - eexists 0%nat, 0%nat, _. cbn [replicate app]. by rewrite app_assoc.
  - eexists _, 0%nat, 0%nat. cbn [replicate app]. by rewrite app_nil_r.
Qed.

Lemma strtol_field left zero width plus alt t i : zero && left = false -> (if type_signed t then - 2 ^ 63 <= i < 2 ^ 63 else 0 <= i < 2 ^ 64) ->
  strtol (type_base t) (padded_number left zero width (before plus alt t i) (numeral (type_upper t) (type_base t) (Z.abs i))) = i.
Proof.
  intros Hz Hi. destruct (padded_number_shape left zero width (before plus alt t i) (numeral (type_upper t) (type_base t) (Z.abs i)) Hz) as (a & k & n & ->).
  unfold strtol. rewrite skip_spaces_pad.
  destruct (strtol_digits (type_base t) (type_upper t) k (Z.abs i) n) as (H1 & H2 & c & l' & El & Hc1 & Hc2 & Hc3); [destruct t; cbn; lia|destruct (type_signed t); lia|].
  set (l := replicate k 48 ++ _) in *.
  assert (match skip_spaces l with
    | c :: l => if c =? 45 then - read_digits (type_base t) 0 (skip_prefix (type_base t) l) else if c =? 43 then read_digits (type_base t) 0 (skip_prefix (type_base t) l)
                else read_digits (type_base t) 0 (skip_prefix (type_base t) (c :: l))
    | [] => 0 end = Z.abs i) as Hplain.
  { rewrite <- H2, El. cbn [skip_spaces]. rewrite (proj2 (Z.eqb_neq c 32) Hc1). by rewrite (proj2 (Z.eqb_neq c 45) Hc2), (proj2 (Z.eqb_neq c 43) Hc3). }
  unfold before. destruct t; cbn [type_signed type_base] in *.
  1, 2: rewrite app_assoc_reverse; destruct (Z.ltb_spec i 0); [|destruct (plus && (0 <? i))]; destruct (alt && negb (i =? 0)); cbn [app skip_spaces Z.eqb Pos.eqb]; rewrite ?H2, ?Hplain; lia.
  1: destruct (alt && negb (i =? 0)); cbn [app]; rewrite Hplain; lia.
  all: destruct (alt && negb (i =? 0)); cbn [app]; [|rewrite Hplain; lia].
  - cbn [skip_spaces Z.eqb Pos.eqb skip_prefix]. destruct l as [|x l0]; [done|]. cbn [andb]. cbn [read_digits digit_val]. 
    transitivity (read_digits 8 0 (x :: l0)); [done|]. rewrite H1. lia.
  - cbn [skip_spaces Z.eqb Pos.eqb skip_prefix andb orb]. rewrite H1. lia.
  - cbn [skip_spaces Z.eqb Pos.eqb skip_prefix andb orb]. rewrite H1. lia.
Qed.
