(* ===== verification/SbiConsoleOut.v ===== *)
(** * The console: output, input, and the messages before there is a device

    The devices are records of callbacks that promise to show what they consume; the
    early buffer is any [BoundedQueue].  The unit tests of the console hold in the
    model. *)

From Stdlib Require Import String.
From S2P Require Import Prelude SbiString SbiFifo SbiConsole SbiFormat.

(** ** Output to the device *)

(** The last [n] elements. *)
Definition lastn {A} (n : nat) (l : list A) : list A := drop (length l - n) l.

Lemma lastn_length {A} n (l : list A) : length (lastn n l) = Nat.min n (length l).
Proof. unfold lastn. rewrite length_drop. lia. Qed.

Lemma lastn_all {A} n (l : list A) : (length l <= n)%nat -> lastn n l = l.
Proof. intros. unfold lastn. by replace (length l - n)%nat with 0%nat by lia. Qed.

Lemma lastn_app {A} n (a b : list A) : lastn n (lastn n a ++ b) = lastn n (a ++ b).
Proof.
  unfold lastn. replace (a ++ b) with (take (length a - n) a ++ drop (length a - n) a ++ b) by (by rewrite app_assoc, take_drop).
  rewrite (drop_app_ge (take (length a - n) a)) by (rewrite length_app, length_take, length_app, length_drop; lia).
  f_equal. rewrite !length_app, length_take, length_drop. lia.
Qed.

(** What a device without [console_puts] shows for the characters. *)
Definition cook (l : list Z) : list Z := concat ((fun c => if c =? 10 then [13; 10] else [c]) <$> l).

Lemma cook_app a b : cook (a ++ b) = cook a ++ cook b.
Proof. unfold cook. by rewrite fmap_app, concat_app. Qed.

Section Device.
Context {D F : Type} `{!BoundedQueue F Z}.
Variables (tbuf : Z) (shown : D -> list Z).
Notation device := (@sbi_console_device D).
Notation console := (@console D F).
Notation emit := (@string_loop D F _ tbuf).

(** The promise of a device, on the characters it has [shown]: a string is consumed
    from its start, at least one character at a time. *)
Record device_ok (dev : device) : Prop := {
  dv_puts f l d : console_puts dev = Some f ->
    0 <= (f l d).1 <= Z.of_nat (length l) /\ (l <> [] -> 1 <= (f l d).1) /\ shown (f l d).2 = shown d ++ take (Z.to_nat (f l d).1) l;
  dv_putc f c d : console_putc dev = Some f -> shown (f c d) = shown d ++ [c] }.

Record con_ok (s : console) : Prop := {
  co_dev dev : console_dev s = Some dev -> device_ok dev;
  co_inv : bq_inv (console_early_fifo s);
  co_cap : (0 < bq_cap (console_early_fifo s))%nat;
  co_len : (length (bq_abs (console_early_fifo s)) <= bq_cap (console_early_fifo s))%nat }.

(** The text the console holds, and what it is after [l] is printed: a device shows
    everything, the early buffer keeps the end. *)
Definition console_text (s : console) : list Z :=
  match console_dev s with Some _ => shown (dev_state s) | None => bq_abs (console_early_fifo s) end.

Definition printed (dev : option device) (cap : nat) (t l : list Z) : list Z :=
  match dev with
  | Some dev =>
      match console_puts dev with
      | Some _ => t ++ l
      | None => match console_putc dev with Some _ => t ++ cook l | None => t end
      end
  | None => lastn cap (t ++ l)
  end.

Definition con_cap (s : console) : nat := bq_cap (console_early_fifo s).

Lemma printed_app dev cap t l1 l2 : printed dev cap (printed dev cap t l1) l2 = printed dev cap t (l1 ++ l2).
Proof.
  unfold printed. destruct dev as [dev|]; [|by rewrite lastn_app, app_assoc].
  destruct (console_puts dev); [by rewrite app_assoc|]. destruct (console_putc dev); [|done]. by rewrite cook_app, app_assoc.
Qed.

(** Another state of the same console that holds the text [t]. *)
Definition continues (s s' : console) (t : list Z) : Prop :=
  con_ok s' /\ console_dev s' = console_dev s /\ con_cap s' = con_cap s /\ con_mem s' = con_mem s /\ (is_Some (console_dev s) -> console_early_fifo s' = console_early_fifo s) /\
  console_text s' = t.

Hypothesis bytes_valid : forall c, 0 <= c < 2 ^ 8 -> bq_valid c.

Lemma early_loop_ok l (q : F) : byte_list l -> bq_inv q -> (0 < bq_cap q)%nat -> (length (bq_abs q) <= bq_cap q)%nat ->
  bq_inv (early_loop l q) /\ bq_cap (early_loop l q) = bq_cap q /\ bq_abs (early_loop l q) = lastn (bq_cap q) (bq_abs q ++ l).
Proof.
  intros Hl. revert q. induction Hl as [|c l Hc Hl IH]; intros q Hi Hcap Hlen; cbn [early_loop]; [by rewrite app_nil_r, lastn_all|].
  pose proof (bq_enqueue_ok q c true Hi (bytes_valid c Hc)) as He. destruct (bq_enqueue q c true) as [rc q']. destruct He as (Hi' & Hcap' & He).
  assert (bq_abs q' = lastn (bq_cap q) (bq_abs q ++ [c])) as Habs.
  { unfold Queue.enqueue in He. unfold lastn. rewrite length_app. cbn [length]. destruct (Nat.ltb_spec (length (bq_abs q)) (bq_cap q)) as [Hlt|Hge]; injection He as _ ->.
    - by replace (length (bq_abs q) + 1 - bq_cap q)%nat with 0%nat by lia.
    - replace (length (bq_abs q) + 1 - bq_cap q)%nat with 1%nat by lia. by destruct (bq_abs q); [cbn in Hge; lia|]. }
  destruct (IH q' Hi') as (H1 & H2 & H3); [lia| |].
  - rewrite Habs, lastn_length. lia.
  - rewrite H3, H2, Habs, Hcap', lastn_app, <- app_assoc. done.
Qed.

Lemma putc_loop_ok f dev l d : console_putc dev = Some f -> device_ok dev -> shown (putc_loop f l d) = shown d ++ cook l.
Proof.
  intros Hf Hd. revert d. induction l as [|c l IH]; intros d; cbn [putc_loop]; [by rewrite app_nil_r|]. rewrite IH.
  unfold cook. cbn [fmap list_fmap concat]. rewrite (dv_putc _ Hd f c _ Hf). destruct (Z.eqb_spec c 10) as [->|]; [rewrite (dv_putc _ Hd f 13 _ Hf)|]; by rewrite <- !app_assoc.
Qed.

Lemma nputs_ok l s : con_ok s -> byte_list l ->
  exists n s', nputs l s = (n, s') /\ 0 <= n <= Z.of_nat (length l) /\ (l <> [] -> 1 <= n) /\
    continues s s' (printed (console_dev s) (con_cap s) (console_text s) (take (Z.to_nat n) l)).
Proof.
  intros [Hdev Hi Hcap Hlen] Hl. unfold nputs, printed, console_text.
  assert (l <> [] -> 1 <= Z.of_nat (length l)) by (destruct l; [done|cbn; lia]). assert (take (Z.to_nat (Z.of_nat (length l))) l = l) as Hall by (rewrite Nat2Z.id; apply take_ge; lia).
  destruct (console_dev s) as [dev|] eqn:Ed.
  - specialize (Hdev dev eq_refl).
    assert (forall d t, shown d = t -> continues s (put_dev d s) t) as Hput.
    { intros d t Ht. split; [split; try done; intros dev' Hd'; cbn in Hd'; by rewrite Ed in Hd'; injection Hd' as <-|]. unfold console_text. cbn. by rewrite Ed. }
    destruct (console_puts dev) as [f|] eqn:Ef.
    + destruct (dv_puts _ Hdev f l (dev_state s) Ef) as (Hn & Hn1 & Hs). destruct (f l (dev_state s)) as [n d]. eexists n, _. do 3 (split; [done|]). by apply Hput.
    + eexists _, _. split; [reflexivity|]. split; [lia|]. split; [done|]. rewrite Hall. destruct (console_putc dev) as [f|] eqn:Ep; [by apply Hput, (putc_loop_ok f dev)|].
      split; [split; try done; by rewrite Ed; intros ? [= <-]|]. unfold console_text. rewrite Ed. done.
  - eexists _, _. split; [reflexivity|]. split; [lia|]. split; [done|]. rewrite Hall. destruct (early_loop_ok l (console_early_fifo s) Hl Hi Hcap Hlen) as (H1 & H2 & H3).
    split; [split; cbn; [by rewrite Ed|done|by rewrite H2|rewrite H2, H3, lastn_length; lia]|]. unfold console_text. cbn. rewrite Ed. by split_and!; [| | |intros []|].
Qed.

Lemma nputs_all_loop_ok fuel p l s : con_ok s -> byte_list l -> Z.of_nat (length l) < 2 ^ 64 -> 0 <= p <= Z.of_nat (length l) -> Z.of_nat (length l) - p <= Z.of_nat fuel ->
  exists s', nputs_all_loop fuel p l s = Some s' /\
    continues s s' (printed (console_dev s) (con_cap s) (console_text s) (drop (Z.to_nat p) l)).
Proof.
  intros Hok Hl H64. revert p s Hok. induction fuel as [|fuel IH]; intros p s Hok Hp Hfuel; cbn [nputs_all_loop]; destruct (Z.ltb_spec p (Z.of_nat (length l))) as [Hlt|Hge]; try lia.
  1, 3: exists s; split; [done|]; rewrite drop_ge by lia; split; [done|]; split_and!; try done; unfold printed, console_text; destruct (console_dev s) as [dev|];
    [by destruct (console_puts dev), (console_putc dev); rewrite ?app_nil_r|rewrite app_nil_r; symmetry; apply lastn_all, Hok].
  destruct (nputs_ok (drop (Z.to_nat p) l) s Hok) as (n & s1 & -> & Hn & Hn1 & Hok1 & Hd1 & Hc1 & Hm1 & He1 & Ht1).
  { by apply Forall_drop. }
  assert (1 <= n).
  { apply Hn1. intros E. apply (f_equal length) in E. rewrite length_drop in E. cbn in E. lia. }
  rewrite length_drop in Hn. rewrite wrap_small by lia.
  destruct (IH (p + n) s1 Hok1) as (s' & -> & Hok' & Hd' & Hc' & Hm' & He' & Ht'); [lia|lia|]. exists s'. split; [done|].
  split; [done|]. rewrite Hd', Hc', Hm', Hd1, Hc1. split_and!; try done. { intros Hs. rewrite He' by (by rewrite Hd1). by apply He1. } rewrite Ht', Ht1, Hd1, Hc1, printed_app. f_equal.
  replace (Z.to_nat (p + n)) with (Z.to_nat p + Z.to_nat n)%nat by lia. rewrite <- drop_drop. apply take_drop.
Qed.

Lemma nputs_all_ok l s : con_ok s -> byte_list l -> Z.of_nat (length l) < 2 ^ 64 ->
  exists s', nputs_all l s = Some s' /\ continues s s' (printed (console_dev s) (con_cap s) (console_text s) l).
Proof. intros Hok Hl H64. unfold nputs_all. destruct (nputs_all_loop_ok (length l) 0 l s) as (s' & E & H); try done; [lia|lia|]. by exists s'. Qed.

(** ** The buffer of [sbi_printf]

    [k] characters wait in [console_tbuf]. *)
Lemma emit_tbuf l s k : con_ok s -> byte_list l -> mem_ok (con_mem s) -> (k < 255)%nat ->
  exists s' k', emit l USE_TBUF (mkPr (tbuf + Z.of_nat k) (Some (256 - Z.of_nat k)) s) = Some (mkPr (tbuf + Z.of_nat k') (Some (256 - Z.of_nat k')) s') /\
    (k' < 255)%nat /\ con_ok s' /\ console_dev s' = console_dev s /\ con_cap s' = con_cap s /\ mem_ok (con_mem s') /\
    (forall a, ~ (tbuf <= a < tbuf + 256) -> con_mem s' a = con_mem s a) /\
    printed (console_dev s) (con_cap s) (console_text s') (bytes (con_mem s') tbuf k') =
    printed (console_dev s) (con_cap s) (console_text s) (bytes (con_mem s) tbuf k ++ l).
Proof.
  intros Hok Hl. revert s k Hok. induction Hl as [|c l Hc Hl IH]; intros s k Hok Hm Hk; cbn [string_loop].
  { exists s, k. rewrite app_nil_r. split_and!; done. }
  unfold printc. cbn [out_len con out]. replace (1 <? 256 - Z.of_nat k) with true by lia.
  set (m1 := store8 (store8 (con_mem s) (tbuf + Z.of_nat k) c) (tbuf + Z.of_nat k + 1) 0).
  assert (mem_ok m1) as Hm1 by (unfold m1; by auto with sbi).
  assert (bytes m1 tbuf (S k) = bytes (con_mem s) tbuf k ++ [c]) as Hb1.
  { rewrite bytes_snoc. f_equal.
    - apply bytes_ext. intros i Hi. unfold m1. by rewrite !store8_other by lia.
    - f_equal. unfold m1. rewrite store8_other, store8_same by lia. by apply wrap_small. }
  assert (forall a, ~ (tbuf <= a < tbuf + 256) -> m1 a = con_mem s a) as Hout by (intros a Ha; unfold m1; rewrite !store8_other by lia; done).
  assert (con_ok (put_cmem m1 s)) as Hok1 by (destruct Hok; by split).
  rewrite (wrap_small 32) by lia. change (flag_set USE_TBUF USE_TBUF) with true. cbn [andb]. destruct (Z.eqb_spec (256 - Z.of_nat k - 1) 1) as [E|E].
  - assert (k = 254%nat) as -> by lia.
    replace (Z.to_nat (CONSOLE_TBUF_MAX - (256 - Z.of_nat 254 - 1))) with 255%nat by (unfold CONSOLE_TBUF_MAX; lia). cbn [con_mem put_cmem].
    destruct (nputs_all_ok (bytes m1 tbuf 255) (put_cmem m1 s) Hok1) as (s2 & -> & Hok2 & Hd2 & Hc2 & Hm2 & _ & Ht2).
    { apply Forall_fmap, Forall_true. intros i. apply Hm1. } { rewrite bytes_length. lia. }
    rewrite !some_bind. unfold CONSOLE_TBUF_MAX. destruct (IH s2 0%nat Hok2) as (s' & k' & E' & Hk' & Hok' & Hd' & Hc' & Hm' & Ho' & Ht'); [by rewrite Hm2|lia|].
    rewrite Z.add_0_r in E'. exists s', k'. split; [exact E'|]. split; [done|]. split; [done|]. rewrite Hd', Hc', Hd2, Hc2. split_and!; try done.
    + intros a Ha. rewrite Ho', Hm2 by done. by apply Hout.
    + rewrite Hd2, Hc2 in Ht'. unfold con_cap in Ht' |- *. cbn [console_dev console_early_fifo put_cmem] in *. rewrite Ht', Ht2. cbn [console_dev con_cap put_cmem].
      unfold con_cap. cbn [console_early_fifo put_cmem]. change (bytes (con_mem s2) tbuf 0) with (@nil Z). rewrite printed_app, Hb1, <- app_assoc. done.
  - rewrite !some_bind. destruct (IH (put_cmem m1 s) (S k) Hok1 Hm1) as (s' & k' & E' & Hk' & Hok' & Hd' & Hc' & Hm' & Ho' & Ht'); [lia|].
    replace (tbuf + Z.of_nat (S k)) with (tbuf + Z.of_nat k + 1) in E' by lia. replace (256 - Z.of_nat (S k)) with (256 - Z.of_nat k - 1) in E' by lia.
    exists s', k'. split; [exact E'|]. do 5 (split; [done|]). split.
    + intros a Ha. rewrite Ho' by done. by apply Hout.
    + cbn [con_mem put_cmem] in Ht'. rewrite Hb1, <- app_assoc in Ht'. exact Ht'.
Qed.

Lemma print_ok ds args l s : con_ok s -> mem_ok (con_mem s) -> Forall directive_ok ds -> Forall value_ok args -> render ds args = Some l ->
  exists s', print tbuf None (show_format ds) args s = Some (Z.of_nat (length l), s') /\
    con_ok s' /\ console_dev s' = console_dev s /\ con_cap s' = con_cap s /\ mem_ok (con_mem s') /\
    (forall a, ~ (tbuf <= a < tbuf + 256) -> con_mem s' a = con_mem s a) /\
    console_text s' = printed (console_dev s) (con_cap s) (console_text s) l.
Proof.
  intros Hok Hm Hds Ha Hr. pose proof (render_bytes ds args l Hds Ha Hr) as Hb. unfold print.
  cbv beta iota zeta delta [default from_option CONSOLE_TBUF_MAX]. cbn [Z.eqb negb].
  rewrite (print_loop_shows tbuf ds args l Hds Hr) by lia.
  set (s0 := put_cmem (store8 (con_mem s) tbuf 0) s). assert (con_ok s0) as Hok0 by (destruct Hok; by split).
  destruct (emit_tbuf l s0 0 Hok0 Hb) as (s1 & k & E & Hk & Hok1 & Hd1 & Hc1 & Hm1 & Ho1 & Ht1); [unfold s0; cbn; by auto with sbi|lia|].
  rewrite Z.add_0_r, Z.sub_0_r in E. rewrite E, !some_bind. cbv beta iota. cbn [out_len con andb].
  change (console_dev s0) with (console_dev s) in *. change (con_cap s0) with (con_cap s) in *. change (console_text s0) with (console_text s) in *.
  change (bytes (con_mem s0) tbuf 0 ++ l) with l in Ht1.
  assert (forall a, ~ (tbuf <= a < tbuf + 256) -> con_mem s1 a = con_mem s a) as Ho by (intros a Hout; rewrite Ho1 by done; apply store8_other; lia).
  destruct (Z.ltb_spec (256 - Z.of_nat k) 256) as [Hlt|Hge].
  - replace (Z.to_nat (256 - (256 - Z.of_nat k))) with k by lia.
    destruct (nputs_all_ok (bytes (con_mem s1) tbuf k) s1 Hok1) as (s2 & -> & Hok2 & Hd2 & Hc2 & Hm2 & _ & Ht2).
    { apply Forall_fmap, Forall_true. intros i. apply Hm1. } { rewrite bytes_length. lia. }
    rewrite some_bind. exists s2. rewrite Hm2, Hd2, Hc2, Hd1, Hc1. split_and!; try done. by rewrite Ht2, Hd1, Hc1, Ht1.
  - assert (k = 0%nat) as -> by lia. exists s1. split_and!; try done. rewrite <- Ht1. change (bytes (con_mem s1) tbuf 0) with (@nil Z).
    unfold printed, console_text. rewrite Hd1. destruct (console_dev s) as [dev|]; [by destruct (console_puts dev), (console_putc dev); rewrite ?app_nil_r|].
    rewrite app_nil_r, lastn_all; [done|]. rewrite <- Hc1. apply Hok1.
Qed.

(** ** The early buffer *)

Lemma flush_ok fuel s dev : con_ok s -> console_dev s = Some dev -> Forall (fun c => 0 <= c < 2 ^ 8) (bq_abs (console_early_fifo s)) ->
  (length (bq_abs (console_early_fifo s)) < fuel)%nat ->
  exists s', flush_loop fuel s = Some s' /\ con_ok s' /\ console_dev s' = Some dev /\ con_mem s' = con_mem s /\ bq_abs (console_early_fifo s') = [] /\
    shown (dev_state s') = printed (Some dev) 0 (shown (dev_state s)) (bq_abs (console_early_fifo s)).
Proof.
  revert s. induction fuel as [|fuel IH]; intros s Hok Hd Hb Hfuel; [lia|]. cbn [flush_loop].
  pose proof (bq_dequeue_ok (console_early_fifo s) (co_inv _ Hok)) as Hq. destruct (bq_dequeue (console_early_fifo s)) as [[rc ch] q]. destruct Hq as (Hi & Hcap & Hq).
  destruct (bq_abs (console_early_fifo s)) as [|c l] eqn:El; cbn in Hq; injection Hq as -> -> Eq.
  - cbn. exists (put_early q s). split; [done|]. split; [destruct Hok; split; cbn; try done; rewrite ?Hcap, ?Eq; cbn; try done; lia|].
    split_and!; try done. unfold printed. by destruct (console_puts dev), (console_putc dev); rewrite ?app_nil_r.
  - inversion Hb as [|? ? Hc Hb']; subst.
    assert (con_ok (put_early q s)) as Hok1.
    { destruct Hok as [H1 H2 H3 H4]. rewrite El in H4. cbn in H4. split; cbn; rewrite ?Hcap; try done. lia. }
    cbn [Z.eqb default from_option id]. unfold sbi_putc. rewrite wrap_small by done.
    destruct (nputs_all_ok [c] (put_early q s) Hok1) as (s1 & -> & Hok2 & Hd2 & Hc2 & Hm2 & He2 & Ht2); [by apply Forall_singleton|cbn; lia|].
    cbn [console_dev put_early console_early_fifo con_mem] in *. specialize (He2 ltac:(by rewrite Hd)). unfold console_text in Ht2. rewrite Hd2 in Ht2. rewrite Hd in *. cbn [console_dev put_early dev_state] in Ht2. rewrite Hd in Ht2.
    rewrite some_bind. destruct (IH s1 Hok2) as (s' & -> & Hok' & Hd' & Hm' & He' & Ht'); [done|by rewrite He2|rewrite He2; cbn in Hfuel; lia|].
    exists s'. rewrite Hm', Hm2. split_and!; try done. rewrite Ht', He2, Ht2. exact (printed_app (Some dev) 0 (shown (dev_state s)) [c] (bq_abs q)).
Qed.

End Device.

(** The buffer of [sz] bytes at [o] holds as much of the text as fits, and a zero. *)
Definition fills (o sz : Z) (l : list Z) (m m' : mem) : Prop :=
  if sz =? 0 then m' = m
  else let k := Nat.min (length l) (Z.to_nat (sz - 1)) in
    bytes m' o k = take k l /\ m' (o + Z.of_nat k) = 0 /\ forall a, ~ (o <= a <= o + Z.of_nat k) -> m' a = m a.

(** C11: [sbi_snprintf] writes the text of the format and nothing else: for every
    format of the grammar with arguments of its types, it returns the length of the
    whole text; the buffer holds as much of the text as fits before the terminating
    zero, which is always written; no byte behind that is touched, and none at all
    when the size is 0. *)
Theorem snprintf_writes {D F : Type} `{!BoundedQueue F Z} tbuf ds args l o sz (s : @console D F) :
  Forall directive_ok ds -> Forall value_ok args -> render ds args = Some l -> 0 <= sz < 2 ^ 32 -> (sz = 0 \/ o <> 0) ->
  exists m', sbi_snprintf tbuf o sz (show_format ds) args s = Some (Returns (Z.of_nat (length l)) (put_cmem m' s)) /\ fills o sz l (con_mem s) m'.
Proof.
  intros Hds Ha Hr Hsz Ho. unfold sbi_snprintf. replace ((o =? 0) && negb (sz =? 0)) with false by lia.
  destruct (snprintf_text tbuf ds args l o sz s) as (m' & -> & Hm); try done. by exists m'.
Qed.

(** C10: [sbi_printf] shows exactly the text of the format: for every format of the
    grammar with arguments of its types, and whatever pieces the device takes at a
    time, the call returns the length of the text, what the console held is followed
    by the whole text, in order and once (with carriage returns where the device
    takes single characters; without a device the early buffer keeps the end), and
    no memory changes but [console_tbuf]. *)
Theorem printf_shows {D F : Type} `{!BoundedQueue F Z} tbuf (shown : D -> list Z) ds args l (s : @console D F) :
  (forall c, 0 <= c < 2 ^ 8 -> bq_valid (F := F) c) -> con_ok shown s -> mem_ok (con_mem s) ->
  Forall directive_ok ds -> Forall value_ok args -> render ds args = Some l ->
  exists s', sbi_printf tbuf (show_format ds) args s = Some (Z.of_nat (length l), s') /\ con_ok shown s' /\
    console_text shown s' = printed (console_dev s) (con_cap s) (console_text shown s) l /\
    forall a, ~ (tbuf <= a < tbuf + 256) -> con_mem s' a = con_mem s a.
Proof.
  intros Hv Hok Hm Hds Ha Hr. destruct (print_ok tbuf shown Hv ds args l s) as (s' & E & Hok' & _ & _ & _ & Ho & Ht); try done. by exists s'.
Qed.

(** Several calls, one after the other. *)
Fixpoint printfs {D F : Type} `{!BoundedQueue F Z} (tbuf : Z) (calls : list (list directive * list va_value)) (s : @console D F) : option console :=
  match calls with
  | [] => Some s
  | (ds, args) :: calls => '(_, s) ← sbi_printf tbuf (show_format ds) args s; printfs tbuf calls s
  end.

Definition call_ok (c : list directive * list va_value) (l : list Z) : Prop :=
  Forall directive_ok c.1 /\ Forall value_ok c.2 /\ render c.1 c.2 = Some l.

Lemma lastn_bytes n l : byte_list l -> byte_list (lastn n l).
Proof. intros. by apply Forall_drop. Qed.

(** Nothing that is printed before there is a console device gets lost but what
    the early buffer has no room for: after any calls of [sbi_printf], setting the
    first device shows the end of everything they printed, as long as the buffer, in
    order, and leaves the buffer empty. *)
Lemma early_messages_shown {D F : Type} `{!BoundedQueue F Z} tbuf (shown : D -> list Z) calls texts dev (s : @console D F) :
  (forall c, 0 <= c < 2 ^ 8 -> bq_valid (F := F) c) -> con_ok shown s -> mem_ok (con_mem s) -> console_dev s = None ->
  bq_abs (console_early_fifo s) = [] -> device_ok shown dev -> Forall2 call_ok calls texts ->
  exists s1 s2, printfs tbuf calls s = Some s1 /\ sbi_console_set_device (Some dev) s1 = Some s2 /\ con_ok shown s2 /\
    sbi_console_get_device s2 = Some dev /\ bq_abs (console_early_fifo s2) = [] /\
    shown (dev_state s2) = printed (Some dev) 0 (shown (dev_state s1)) (lastn (con_cap s) (concat texts)).
Proof.
  intros Hv Hok Hm Hnone Hempty Hdev Hcalls.
  assert (forall t, bq_abs (console_early_fifo s) = t -> byte_list t -> exists s1, printfs tbuf calls s = Some s1 /\ con_ok shown s1 /\ console_dev s1 = None /\ con_cap s1 = con_cap s /\
    bq_abs (console_early_fifo s1) = lastn (con_cap s) (t ++ concat texts) /\ byte_list (t ++ concat texts)) as Hrun.
  { clear Hempty. revert s Hok Hm Hnone. induction Hcalls as [|[ds args] l calls texts (Hds & Ha & Hr) Hcalls IH]; intros s Hok Hm Hnone t Ht Hb; cbn [printfs concat].
    - exists s. rewrite app_nil_r. split_and!; try done. rewrite lastn_all by (rewrite <- Ht; apply Hok). done.
    - cbn [fst snd] in *. destruct (print_ok tbuf shown Hv ds args l s) as (s' & E & Hok' & Hd' & Hc' & Hm' & _ & Ht'); try done.
      unfold sbi_printf. rewrite E, some_bind. cbv beta iota. pose proof (render_bytes ds args l Hds Ha Hr).
      unfold console_text, printed in Ht'. rewrite Hd', Hnone in Ht'.
      destruct (IH s' Hok' Hm' ltac:(by rewrite Hd') _ Ht') as (s1 & -> & Hok1 & Hd1 & Hc1 & Ha1 & Hb1).
      { apply lastn_bytes, Forall_app. by rewrite Ht. }
      exists s1. rewrite Hc1, Hc', Ha1, Hc', lastn_app, Ht, app_assoc. split_and!; try done.
      apply Forall_app. split; [by apply Forall_app|]. by apply Forall_app in Hb1 as [_ ?]. }
  destruct (Hrun [] Hempty ltac:(constructor)) as (s1 & E1 & [_ Hi Hcap Hlen] & Hd1 & Hc1 & Ha1 & Hb1). exists s1. unfold sbi_console_set_device. rewrite Hd1. cbv zeta.
  cbn [app] in Ha1, Hb1.
  set (s1' := mkCon (Some dev) (console_early_fifo s1) (dev_state s1) (con_mem s1)).
  destruct (flush_ok shown Hv (S (bq_cap (console_early_fifo s1))) s1' dev) as (s2 & E2 & Hok2 & Hd2 & _ & He2 & Ht2); [by split; cbn; [intros ? [= <-]|..]|done| |cbn; lia|].
  - cbn. rewrite Ha1. by apply lastn_bytes.
  - exists s2. unfold sbi_console_get_device. split_and!; try done. rewrite Ht2. cbn [console_early_fifo dev_state s1']. by rewrite Ha1.
Qed.

(** The argument as a value of the type of its conversion. *)
Definition arg_as (sz : int_size) (t : int_type) (z : Z) : Z :=
  if type_signed t then signed (size_bits sz) (wrap (size_bits sz) z) else wrap (size_bits sz) z.

(** C36: numbers survive printing: whatever flags and width a conversion of an
    integer has, when the buffer has room for it the text that [sbi_snprintf] leaves
    there reads back, as by C's [strtol] in the base of the conversion, as the
    argument converted to the type of the conversion. *)
Theorem printed_number_reads_back {D F : Type} `{!BoundedQueue F Z} tbuf fs w sz t z o size (s : @console D F) :
  (match w with Some w => 0 < w < 2 ^ 31 | None => True end) -> 0 <= size < 2 ^ 32 -> o <> 0 ->
  exists n m', sbi_snprintf tbuf o size (show_format [Conv fs w (CInt sz t)]) [VInt z] s = Some (Returns n (put_cmem m' s)) /\
    (n < size -> strtol (type_base t) (bytes m' o (Z.to_nat n)) = arg_as sz t z).
Proof.
  intros Hw Hsz Ho. unfold arg_as. set (i := if type_signed t then _ else _).
  destruct (field fs w (CInt sz t) [VInt z]) as [[l args']|] eqn:Ef; [|done].
  assert (strtol (type_base t) l = i) as Hl.
  { unfold field in Ef. cbn [va_int] in Ef. fold i in Ef. rewrite some_bind in Ef. injection Ef as <- _. apply strtol_field.
    - destruct (bool_decide (FLeft ∈ fs)), (bool_decide (FZero ∈ fs)); done.
    - unfold i. destruct (type_signed t); [|destruct sz; cbn; pose proof (wrap_range 32 z ltac:(lia)); pose proof (wrap_range 64 z ltac:(lia)); lia].
      pose proof (signed_range (size_bits sz) z). destruct sz; cbn [size_bits] in *; lia. }
  assert (render [Conv fs w (CInt sz t)] [VInt z] = Some l) as Hr by (cbn [render]; rewrite Ef, some_bind; cbn; by rewrite app_nil_r).
  unfold sbi_snprintf. replace (o =? 0) with false by lia. cbn [andb].
  assert (Forall directive_ok [Conv fs w (CInt sz t)]) as Hds by (by apply Forall_singleton).
  assert (Forall value_ok [VInt z]) as Ha by (by apply Forall_singleton).
  destruct (snprintf_text tbuf [Conv fs w (CInt sz t)] [VInt z] l o size s Hds Ha Hr Hsz) as (m' & E & Hm). rewrite E, some_bind. cbv beta iota.
  eexists _, m'. split; [reflexivity|]. intros Hn. destruct (Z.eqb_spec size 0) as [->|Hs0]; [lia|]. destruct Hm as (Hb & _).
  rewrite Nat2Z.id. replace (Nat.min (length l) (Z.to_nat (size - 1))) with (length l) in Hb by lia. rewrite firstn_all in Hb. by rewrite Hb.
Qed.

(** ** Input *)

Section Input.
Context {D F : Type} `{!BoundedQueue F Z}.
Notation console := (@console D F).

(** Only memory in the range and the state of the device have changed. *)
Definition reads_into (a n : Z) (s s' : console) : Prop :=
  console_dev s' = console_dev s /\ console_early_fifo s' = console_early_fifo s /\ forall x, ~ (a <= x < a + n) -> con_mem s' x = con_mem s x.

Lemma getc_reads s : reads_into 0 0 s (sbi_getc s).2 /\ con_mem (sbi_getc s).2 = con_mem s.
Proof. unfold sbi_getc. destruct (console_dev s) as [dev|] eqn:E; [destruct (console_getc dev) as [f|]; [destruct (f (dev_state s)) as [ch d]|]|]; cbn; by rewrite ?E. Qed.

Lemma ngets_loop_reads n i str s : 0 <= i ->
  i <= (ngets_loop n i str s).1 <= i + Z.of_nat n /\ reads_into (str + i) (Z.of_nat n) s (ngets_loop n i str s).2.
Proof.
  revert i s. induction n as [|n IH]; intros i s Hi; cbn [ngets_loop]; [split; [cbn; lia|done]|].
  destruct (getc_reads s) as [(Hd & He & _) Hm]. destruct (sbi_getc s) as [ch s1]. cbn [snd] in *. destruct (ch <? 0).
  - split; [cbn; lia|]. split_and!; try done. intros x _. by rewrite <- Hm.
  - destruct (IH (i + 1) (put_cmem (store8 (con_mem s1) (str + i) ch) s1) ltac:(lia)) as [Hn (Hd' & He' & Hx)]. split; [lia|].
    split; [by rewrite Hd', <- Hd|]. split; [by rewrite He', <- He|]. intros x Hout. rewrite Hx by lia. cbn. rewrite store8_other by lia. by rewrite Hm.
Qed.

Lemma ngets_reads str len s : 0 <= len -> 0 <= (sbi_ngets str len s).1 <= len /\ reads_into str len s (sbi_ngets str len s).2.
Proof. intros. pose proof (ngets_loop_reads (Z.to_nat len) 0 str s). rewrite Z.add_0_r, Z2Nat.id in *; by auto with lia. Qed.

(** A line never takes more than [maxwidth] bytes, the terminating zero included. *)
Lemma gets_reads str maxwidth endchar s : reads_into str (Z.max 1 maxwidth) s (sbi_gets str maxwidth endchar s).
Proof.
  unfold sbi_gets. replace (Z.max 1 maxwidth) with (Z.of_nat (Z.to_nat (maxwidth - 1)) + 1) by lia. generalize (Z.to_nat (maxwidth - 1)). intros n.
  revert str s. induction n as [|n IH]; intros str s; cbn [gets_loop]; destruct (getc_reads s) as [(Hd & He & _) Hm]; destruct (sbi_getc s) as [ch s1]; cbn [snd] in *.
  - split_and!; [done|done|]. intros x Hx. cbn. rewrite store8_other by lia. by rewrite Hm.
  - destruct (_ && _).
    + destruct (IH (str + 1) (put_cmem (store8 (con_mem s1) str ch) s1)) as (Hd' & He' & Hx). split; [by rewrite Hd', <- Hd|]. split; [by rewrite He', <- He|].
      intros x Hout. rewrite Hx by lia. cbn. rewrite store8_other by lia. by rewrite Hm.
    + split_and!; [done|done|]. intros x Hx. cbn. rewrite store8_other by lia. by rewrite Hm.
Qed.

End Input.

(** ** A console of the ring buffer and lists

    The device keeps what it was sent and what it will receive. *)

#[local] Instance char_codec : EntryCodec Z.
Proof.
  refine {| enc := fun c => [c]; dec := fun bs => default 0 (head bs); esize := 1; evalid := fun c => 0 <= c < 2 ^ 8 |}.
  - done.
  - intros c Hc. by apply Forall_singleton.
  - done.
  - intros [|c [|]] Hl Hb; try discriminate. exact (proj1 (Forall_singleton _ c) Hb).
Defined.

Definition demo_wire : Type := list Z * list Z.
Definition wire_getc (d : demo_wire) : Z * demo_wire := match d.2 with c :: l => (c, (d.1, l)) | [] => (-1, d) end.

(** It takes up to three characters at a time; the other takes single ones. *)
Definition demo_puts (l : list Z) (d : demo_wire) : Z * demo_wire := (Z.min 3 (Z.of_nat (length l)), (d.1 ++ take 3 l, d.2)).
Definition demo_puts_dev : sbi_console_device := mkCdev None (Some demo_puts) (Some wire_getc).
Definition demo_putc_dev : sbi_console_device := mkCdev (Some (fun c (d : demo_wire) => (d.1 ++ [c], d.2))) None (Some wire_getc).

Definition demo_early : ring := mkRing (mk_fifo 0x9000 1 256 0 0) (fun _ => 0) 0x8000.
Definition demo_console (dev : option (@sbi_console_device demo_wire)) (input : list Z) : console := mkCon dev demo_early ([], input) (fun _ => 7).

Lemma demo_puts_ok : device_ok fst demo_puts_dev.
Proof.
  split; [|done]. intros f l d [= <-]. unfold demo_puts. cbn [fst snd]. split; [lia|]. split; [intros Hl; destruct l; [done|cbn; lia]|].
  f_equal. destruct (Z.le_gt_cases 3 (Z.of_nat (length l))); [by replace (Z.to_nat (Z.min 3 (Z.of_nat (length l)))) with 3%nat by lia|]. rewrite !firstn_all2 by lia. done.
Qed.

Lemma demo_putc_ok : device_ok fst demo_putc_dev.
Proof. split; [done|]. by intros f c d [= <-]. Qed.

Lemma demo_early_inv : ring_inv demo_early.
Proof. split; [split; cbn; lia|]. split; [by intros a; cbn|]. split; [done|]. split; [done|]. split; [left; cbn; lia|]. by exists []. Qed.

Lemma demo_con_ok dev input : dev = None \/ dev = Some demo_puts_dev \/ dev = Some demo_putc_dev -> con_ok fst (demo_console dev input).
Proof.
  intros Hd. split; [|exact demo_early_inv|by apply Nat.ltb_lt|by apply Nat.leb_le]. intros dev' E. cbn in E.
  destruct Hd as [->|[->| ->]]; [done| |]; injection E as <-; [apply demo_puts_ok|apply demo_putc_ok].
Qed.

Lemma demo_bytes c : 0 <= c < 2 ^ 8 -> bq_valid (F := ring) c.
Proof. done. Qed.

Lemma demo_mem7 dev input : mem_ok (con_mem (demo_console dev input)).
Proof. intros a. cbn. lia. Qed.

(** The format "[%-6s|%+05d|%#lx]" in brackets. *)
Definition demo_directives : list directive :=
  [Lit 91; Conv [FLeft] (Some 6) CStr; Lit 124; Conv [FPlus; FZero] (Some 5) (CInt SInt Td); Lit 124; Conv [FAlt] None (CInt SLong Tx); Lit 93].
Definition demo_args : list va_value := [VStr (Some (text "hart")); VInt 42; VInt 0x80000000].

Example demo_format : show_format demo_directives = text "[%-6s|%+05d|%#lx]".
Proof. vm_compute. reflexivity. Qed.

Example demo_render : render demo_directives demo_args = Some (text "[hart  |+0042|0x80000000]").
Proof. vm_compute. reflexivity. Qed.

Lemma demo_directives_ok : Forall directive_ok demo_directives.
Proof. repeat (apply Forall_cons; split; [cbn; lia|]). apply Forall_nil_2. Qed.

Lemma demo_args_ok : Forall value_ok demo_args.
Proof. apply Forall_cons; split; [cbn; repeat (apply Forall_cons; split; [lia|]); apply Forall_nil_2|]. by repeat (apply Forall_cons; split; [done|]). Qed.

Lemma snprintf_writes_witness : exists m',
  sbi_snprintf 0x4000 0x5000 10 (show_format demo_directives) demo_args (demo_console None []) =
    Some (Returns (Z.of_nat (length (text "[hart  |+0042|0x80000000]"))) (put_cmem m' (demo_console None []))) /\
  fills 0x5000 10 (text "[hart  |+0042|0x80000000]") (con_mem (demo_console None [])) m'.
Proof.
  apply (snprintf_writes 0x4000 demo_directives demo_args (text "[hart  |+0042|0x80000000]") 0x5000 10 (demo_console None []) demo_directives_ok demo_args_ok);
    [vm_compute; reflexivity|lia|right; lia].
Defined.

Lemma printf_shows_witness : exists s',
  sbi_printf 0x4000 (show_format demo_directives) demo_args (demo_console (Some demo_puts_dev) []) = Some (Z.of_nat (length (text "[hart  |+0042|0x80000000]")), s') /\
  con_ok fst s' /\
  console_text fst s' = printed (Some demo_puts_dev) (con_cap (demo_console (Some demo_puts_dev) [])) [] (text "[hart  |+0042|0x80000000]") /\
  forall a, ~ (0x4000 <= a < 0x4000 + 256) -> con_mem s' a = con_mem (demo_console (Some demo_puts_dev) []) a.
Proof.
  apply (printf_shows 0x4000 fst demo_directives demo_args (text "[hart  |+0042|0x80000000]") (demo_console (Some demo_puts_dev) []) demo_bytes);
    [apply demo_con_ok; by auto|apply demo_mem7|apply demo_directives_ok|apply demo_args_ok|vm_compute; reflexivity].
Defined.

Lemma early_messages_shown_witness : exists s1 s2,
  printfs 0x4000 [(demo_directives, demo_args); ([Lit 33], [])] (demo_console None []) = Some s1 /\ sbi_console_set_device (Some demo_putc_dev) s1 = Some s2 /\
  con_ok fst s2 /\ sbi_console_get_device s2 = Some demo_putc_dev /\ bq_abs (console_early_fifo s2) = [] /\
  (dev_state s2).1 = printed (Some demo_putc_dev) 0 (dev_state s1).1
    (lastn (con_cap (demo_console None [])) (concat [text "[hart  |+0042|0x80000000]"; [33]])).
Proof.
  apply (early_messages_shown 0x4000 fst [(demo_directives, demo_args); ([Lit 33], [])] [text "[hart  |+0042|0x80000000]"; [33]] demo_putc_dev (demo_console None []) demo_bytes);
    [apply demo_con_ok; by auto|apply demo_mem7|reflexivity|reflexivity|apply demo_putc_ok|].
  repeat constructor; try (cbn; lia); try (vm_compute; reflexivity); apply demo_args_ok.
Defined.

Lemma printed_number_reads_back_witness : exists n m',
  sbi_snprintf 0x4000 0x5000 40 (show_format [Conv [FPlus; FAlt; FZero] (Some 12) (CInt SLongLong TX)]) [VInt (-255)] (demo_console None []) =
    Some (Returns n (put_cmem m' (demo_console None []))) /\
  (n < 40 -> strtol 16 (bytes m' 0x5000 (Z.to_nat n)) = arg_as SLongLong TX (-255)).
Proof.
  apply (printed_number_reads_back 0x4000 [FPlus; FAlt; FZero] (Some 12) SLongLong TX (-255) 0x5000 40 (demo_console None [])); [cbn; lia|lia|lia].
Defined.

(** ** The unit tests of the console (lib/sbi/tests/sbi_console_test.c) *)

Definition shows (s : option (Z * @console demo_wire ring)) : option (Z * list Z) := '(n, s) ← s; Some (n, (dev_state s).1).
Definition test_printf (format : string) (args : list va_value) : option (Z * list Z) :=
  shows (sbi_printf 0x4000 (text format) args (demo_console (Some demo_putc_dev) [])).
Definition expect (s : string) : option (Z * list Z) := Some (Z.of_nat (length (text s)), text s).

Example printf_test :
  test_printf "Hello" [] = expect "Hello" /\
  test_printf "%d %d %d" [VInt 3; VInt 5; VInt 7] = expect "3 5 7" /\
  test_printf "%s" [VStr (Some (text "Hello"))] = expect "Hello" /\
  test_printf "%d" [VInt (-1)] = expect "-1" /\
  test_printf "%X" [VInt 255] = expect "FF" /\
  test_printf "%x" [VInt 255] = expect "ff" /\
  test_printf "%c" [VInt 65] = expect "A" /\
  test_printf "%p" [VInt 0x1fe] = expect "1fe" /\
  test_printf "%u" [VInt 4294967295] = expect "4294967295" /\
  test_printf "%ld" [VInt (-2147483647)] = expect "-2147483647" /\
  test_printf "%lld" [VInt (-9223372036854775807)] = expect "-9223372036854775807" /\
  test_printf "%llu" [VInt 18446744073709551615] = expect "18446744073709551615".
Proof. split_and!; vm_compute; reflexivity. Qed.

Example puts_test :
  let s := demo_console (Some demo_putc_dev) [] in
  (s ← sbi_putc 97 s; Some (dev_state s).1) = Some [97] /\
  (s ← sbi_puts 20 0x5000 (put_cmem (mem_of 0x5000 (text "Hello," ++ [10] ++ text "OpenSBI!" ++ [0])) s); Some (dev_state s).1) =
    Some (text "Hello," ++ [13; 10] ++ text "OpenSBI!").
Proof. split; vm_compute; reflexivity. Qed.

(** ** Boundaries of the code *)

(** A format that ends within a conversion makes [print] read on behind its end. *)
Lemma format_ends_in_conversion {D F : Type} `{!BoundedQueue F Z} tbuf o args (s : @console D F) : print tbuf o [37; 45] args s = None.
Proof. destruct o as [[a [n|]]|]; reflexivity. Qed.

(** [sbi_gets] takes the character behind a full line from the device and drops it. *)
Lemma gets_drops_a_character :
  let s := sbi_gets 0x5000 3 10 (demo_console (Some demo_puts_dev) (text "abcd")) in
  bytes (con_mem s) 0x5000 3 = text "ab" ++ [0] /\ (dev_state s).2 = text "d".
Proof. vm_compute. split; reflexivity. Qed.
