(* ===== verification/SbiDbcn.v ===== *)
(** * The debug console calls (lib/sbi/sbi_ecall_dbcn.c)

    The supervisor prints from and reads into its own memory through the console of
    the firmware. *)

From Stdlib Require Import String.
From S2P Require Import Prelude SbiString SbiFifo SbiBitops SbiScratch SbiHartmask SbiMemregion SbiDomain SbiHsm SbiHart SbiPmp SbiPmpRoot SbiConsole SbiFormat SbiConsoleOut.

Section Dbcn.
Context {D F : Type} `{!BoundedQueue F Z}.
Variables (feat : sbi_hart_features) (bits : Z) (dom : option sbi_domain).
Notation console := (@console D F).

(** [smode] is the previous privilege of [mstatus]; [value] is [out->value]. *)
Definition sbi_ecall_dbcn_handler (smode funcid a0 a1 a2 value : Z) (w : console * Hw.pmp) : option (Z * Z * (console * Hw.pmp)) :=
  let '(s, p) := w in
  if (funcid =? 0) || (funcid =? 1) then
    if negb (a2 =? 0) then Some (SBI_EFAIL, value, w)
    else
      ok ← sbi_domain_check_addr_range dom a1 a0 smode (Z.lor SBI_DOMAIN_READ SBI_DOMAIN_WRITE);
      if negb ok then Some (SBI_EINVAL, value, w)
      else
        '(_, p) ← sbi_hart_map_saddr bits feat a1 a0 p;
        let '(value, s) := if funcid =? 0 then sbi_nputs a1 a0 s else sbi_ngets a1 a0 s in
        let '(_, p) := sbi_hart_unmap_saddr bits feat p in
        Some (0, value, (s, p))
  else if funcid =? 2 then s ← sbi_putc a0 s; Some (0, value, (s, p))
  else Some (SBI_ENOTSUPP, value, w).

(** The extension is there when there is a device. *)
Definition sbi_ecall_dbcn_register_extensions (register : Z) (s : console) : Z :=
  match sbi_console_get_device s with None => 0 | Some _ => register end.

End Dbcn.

Lemma bytes_take m a n k : (k <= n)%nat -> take k (bytes m a n) = bytes m a k.
Proof.
  intros Hk. unfold bytes. rewrite <- fmap_take, take_seq. by replace (Nat.min k n) with k by lia.
Qed.

(** C37: the calls of the debug console work on the supervisor's own memory.  For a
    domain that is sane and whose regions all end below [2^64] (so not the root domain,
    whose last region is the whole address space, [check_addr_range_catch_all]), a
    buffer that does not wrap around the address space ([check_addr_range_wraps]), and a
    console that keeps its promises, every call returns; a write shows a beginning of
    the string in memory, as long as the result says, and changes no memory; a read
    changes no byte outside the buffer; both are refused, with nothing changed, unless
    the domain lets the caller read and write every byte of the buffer. *)
Theorem dbcn_calls_confined {D F : Type} `{!BoundedQueue F Z} (shown : D -> list Z) feat bits d smode funcid a0 a1 a2 v (s : @console D F) p :
  (forall c, 0 <= c < 2 ^ 8 -> bq_valid (F := F) c) -> con_ok shown s -> mem_ok (con_mem s) ->
  dom_sane d -> Forall (fun r => base r + 2 ^ order r < 2 ^ 64) (dom_regions d) -> 0 <= a0 -> 0 <= a1 -> a1 + a0 < 2 ^ 64 ->
  exists rc v' s' p', sbi_ecall_dbcn_handler feat bits (Some d) smode funcid a0 a1 a2 v (s, p) = Some (rc, v', (s', p')) /\
    (rc = 0 -> funcid <> 2 ->
      (forall x, a1 <= x < a1 + a0 -> sbi_domain_check_addr (Some d) x smode (Z.lor SBI_DOMAIN_READ SBI_DOMAIN_WRITE) = true) /\ 0 <= v' <= a0) /\
    (rc = 0 -> funcid = 0 -> con_mem s' = con_mem s /\
      console_text shown s' = printed (console_dev s) (con_cap s) (console_text shown s) (bytes (con_mem s) a1 (Z.to_nat v'))) /\
    (rc = 0 -> funcid = 1 -> forall x, ~ (a1 <= x < a1 + a0) -> con_mem s' x = con_mem s x) /\
    (rc = 0 -> funcid = 2 -> con_mem s' = con_mem s /\ console_text shown s' = printed (console_dev s) (con_cap s) (console_text shown s) [u8 a0]) /\
    (rc <> 0 -> s' = s /\ p' = p /\ v' = v).
Proof.
  intros Hv Hok Hm Hsane Htop H0 H1 Hmax. unfold sbi_ecall_dbcn_handler.
  assert (forall rc, rc <> 0 -> exists rc' v' s' p', Some (rc, v, (s, p)) = Some (rc' : Z, v' : Z, (s' : console, p' : Hw.pmp)) /\
    (rc' = 0 -> funcid <> 2 -> (forall x, a1 <= x < a1 + a0 -> sbi_domain_check_addr (Some d) x smode (Z.lor SBI_DOMAIN_READ SBI_DOMAIN_WRITE) = true) /\ 0 <= v' <= a0) /\
    (rc' = 0 -> funcid = 0 -> con_mem s' = con_mem s /\
      console_text shown s' = printed (console_dev s) (con_cap s) (console_text shown s) (bytes (con_mem s) a1 (Z.to_nat v'))) /\
    (rc' = 0 -> funcid = 1 -> forall x, ~ (a1 <= x < a1 + a0) -> con_mem s' x = con_mem s x) /\
    (rc' = 0 -> funcid = 2 -> con_mem s' = con_mem s /\ console_text shown s' = printed (console_dev s) (con_cap s) (console_text shown s) [u8 a0]) /\
    (rc' <> 0 -> s' = s /\ p' = p /\ v' = v)) as Herr.
  { intros rc Hrc. exists rc, v, s, p. split; [done|]. by split_and!. }
  destruct ((funcid =? 0) || (funcid =? 1)) eqn:Ef.
  - destruct (negb (a2 =? 0)); [by apply Herr|].
    destruct (check_addr_range_correct d a1 a0 smode (Z.lor SBI_DOMAIN_READ SBI_DOMAIN_WRITE) Hsane Htop) as (b & -> & Hb); [lia..|].
    rewrite some_bind. destruct b; cbn [negb]; [|by apply Herr].
    destruct (map_saddr_total bits feat a1 a0 p) as ([rc1 p1] & ->). rewrite some_bind. cbv beta iota.
    assert (forall x, a1 <= x < a1 + a0 -> sbi_domain_check_addr (Some d) x smode (Z.lor SBI_DOMAIN_READ SBI_DOMAIN_WRITE) = true) as Hsh by (intros x Hx; by apply (proj1 Hb eq_refl)).
    destruct (Z.eqb_spec funcid 0) as [->|Hn0].
    + destruct (nputs_ok shown Hv (bytes (con_mem s) a1 (Z.to_nat a0)) s Hok) as (n & s' & E & Hn & _ & _ & _ & _ & Hm' & _ & Ht).
      { apply Forall_fmap, Forall_true. intros i. apply Hm. }
      rewrite bytes_length in Hn. unfold sbi_nputs. rewrite E. destruct (sbi_hart_unmap_saddr bits feat p1) as [rc2 p2].
      eexists _, _, _, _. split; [reflexivity|]. split_and!; try done; [by intros _ _; split; [|lia]|].
      intros _ _. split; [done|]. rewrite Ht. f_equal. apply bytes_take. lia.
    + assert (funcid = 1) as -> by lia. destruct (ngets_reads a1 a0 s H0) as [Hn (_ & _ & Hx)]. destruct (sbi_ngets a1 a0 s) as [n s']. cbn [fst snd] in *.
      destruct (sbi_hart_unmap_saddr bits feat p1) as [rc2 p2]. eexists _, _, _, _. split; [reflexivity|]. split_and!; try done.
  - apply orb_false_iff in Ef as [E0%Z.eqb_neq E1%Z.eqb_neq]. destruct (Z.eqb_spec funcid 2) as [->|Hn2]; [|by apply Herr].
    unfold sbi_putc. destruct (nputs_all_ok shown Hv [u8 a0] s Hok) as (s' & -> & _ & _ & _ & Hm' & _ & Ht); [by apply Forall_singleton, wrap_range|cbn; lia|].
    rewrite some_bind. eexists _, _, _, _. split; [reflexivity|]. by split_and!.
Qed.

#[local] Existing Instance char_codec.

(** "ok!" in the supervisor's memory, written out three characters at a time at most. *)
Definition demo_dbcn : @console demo_wire ring := put_cmem (mem_of 0x80002000 (text "ok!")) (demo_console (Some demo_puts_dev) []).

Definition demo_dbcn_feat : sbi_hart_features := mkFeat true 3 [0] 16 54 2 0 64.

Lemma demo_dbcn_top : Forall (fun r => base r + 2 ^ order r < 2 ^ 64) (dom_regions demo_layout).
Proof. repeat apply Forall_cons_2; try apply Forall_nil_2; cbn; lia. Qed.

Lemma demo_dbcn_mem : mem_ok (con_mem demo_dbcn).
Proof. by apply mem_of_small_ok. Qed.

Lemma demo_dbcn_ok : con_ok fst demo_dbcn.
Proof. destruct (demo_con_ok (Some demo_puts_dev) []) as [H1 H2 H3 H4]; [by auto|]. by split. Qed.

Lemma dbcn_calls_confined_witness :
  exists rc v' s' p', sbi_ecall_dbcn_handler demo_dbcn_feat 54 (Some demo_layout) PRV_S 0 3 0x80002000 0 0 (demo_dbcn, Hw.mkPmp (fun _ => 0) (fun _ => 0) 5) = Some (rc, v', (s', p')) /\
    (rc = 0 -> 0 <> 2 ->
      (forall x, 0x80002000 <= x < 0x80002000 + 3 -> sbi_domain_check_addr (Some demo_layout) x PRV_S (Z.lor SBI_DOMAIN_READ SBI_DOMAIN_WRITE) = true) /\ 0 <= v' <= 3) /\
    (rc = 0 -> 0 = 0 -> con_mem s' = con_mem demo_dbcn /\
      console_text fst s' = printed (Some demo_puts_dev) (con_cap demo_dbcn) [] (bytes (con_mem demo_dbcn) 0x80002000 (Z.to_nat v'))) /\
    (rc = 0 -> 0 = 1 -> forall x, ~ (0x80002000 <= x < 0x80002000 + 3) -> con_mem s' x = con_mem demo_dbcn x) /\
    (rc = 0 -> 0 = 2 -> con_mem s' = con_mem demo_dbcn /\ console_text fst s' = printed (Some demo_puts_dev) (con_cap demo_dbcn) [] [u8 3]) /\
    (rc <> 0 -> s' = demo_dbcn /\ p' = Hw.mkPmp (fun _ => 0) (fun _ => 0) 5 /\ v' = 0).
Proof.
  refine (dbcn_calls_confined fst demo_dbcn_feat 54 demo_layout PRV_S 0 3 0x80002000 0 0 demo_dbcn _ demo_bytes demo_dbcn_ok demo_dbcn_mem demo_layout_sane demo_dbcn_top _ _ _); lia.
Defined.

Example demo_dbcn_shows :
  option_map (fun '(rc, v, (s, p)) => (rc, v, (dev_state s).1))
    (sbi_ecall_dbcn_handler demo_dbcn_feat 54 (Some demo_layout) PRV_S 0 3 0x80002000 0 0 (demo_dbcn, Hw.mkPmp (fun _ => 0) (fun _ => 0) 5)) =
  Some (0, 3, text "ok!").
Proof. vm_compute. reflexivity. Qed.
