(* ===== verification/SbiHartInit.v ===== *)
(** * Hart set-up (lib/sbi/sbi_hart.c, misa in riscv_asm.c)

    The features of a hart are found by accessing registers that may not exist; then
    its registers are set up and it enters the next stage.  A hart is which registers
    it has and what a write leaves in them ([csr_impl]), its state their values; an
    access to a missing register is [None], a trap.  [mie] and its supervisor views are
    registers of their own. *)

From S2P Require Import Prelude SbiBitops SbiHart.

#[local] Set Default Proof Using "Type".

Module Csr.
Definition UIE : Z := 0x004.
Definition UTVEC : Z := 0x005.
Definition FCSR : Z := 0x003.
Definition USCRATCH : Z := 0x040.
Definition SIE : Z := 0x104.
Definition STVEC : Z := 0x105.
Definition SCOUNTEREN : Z := 0x106.
Definition SSCRATCH : Z := 0x140.
Definition STIMECMP : Z := 0x14d.
Definition SATP : Z := 0x180.
Definition VSIE : Z := 0x204.
Definition VSTVEC : Z := 0x205.
Definition VSSCRATCH : Z := 0x240.
Definition VSATP : Z := 0x280.
Definition MSTATUS : Z := 0x300.
Definition MISA : Z := 0x301.
Definition MEDELEG : Z := 0x302.
Definition MIDELEG : Z := 0x303.
Definition MIE : Z := 0x304.
Definition MCOUNTEREN : Z := 0x306.
Definition MENVCFG : Z := 0x30a.
Definition MSTATEEN0 : Z := 0x30c.
Definition MCOUNTINHIBIT : Z := 0x320.
Definition MCYCLECFG : Z := 0x321.
Definition MHPMEVENT3 : Z := 0x323.
Definition MEPC : Z := 0x341.
Definition MIP : Z := 0x344.
Definition PMPCFG0 : Z := 0x3a0.
Definition PMPADDR0 : Z := 0x3b0.
Definition MSECCFG : Z := 0x747.
Definition TSELECT : Z := 0x7a0.
Definition MCYCLE : Z := 0xb00.
Definition MHPMCOUNTER3 : Z := 0xb03.
Definition TIME : Z := 0xc01.
Definition SCOUNTOVF : Z := 0xda0.
Definition MTOPI : Z := 0xfb0.
(** The floating-point registers are numbered behind the CSRs. *)
Definition F0 : Z := 0x1000.
End Csr.

(** Which registers there are, and what they hold after a write. *)
Record csr_impl := mkImpl { csr_present : Z -> bool; csr_legal : Z -> Z -> Z }.

Definition regs := Z -> Z.

Section HartInit.
Variables (hw : csr_impl).
(** The platform's answers for a zero misa, [sbi_platform_extensions_init],
    [sbi_platform_has_mfaults_delegation]; [sbi_pmu_irq_mask]. *)
Variables (platform_misa_extension : Z -> Z) (platform_extensions_init : sbi_hart_features -> Z * sbi_hart_features)
  (mfaults_delegation : bool) (pmu_irq_mask : Z).

Definition csr_read_allowed (c : Z) (r : regs) : option Z := if csr_present hw c then Some (r c) else None.

Definition csr_write_allowed (c v : Z) (r : regs) : option regs :=
  if csr_present hw c then Some (fun c' => if c' =? c then csr_legal hw c v else r c') else None.

(** Outside of detection a trap is the end. *)
Definition hart_csr_write := csr_write_allowed.
Definition csr_swap (c v : Z) (r : regs) : option (Z * regs) := old ← csr_read_allowed c r; r ← hart_csr_write c v r; Some (old, r).
Definition hart_csr_set (c v : Z) (r : regs) : option regs := old ← csr_read_allowed c r; hart_csr_write c (Z.lor old v) r.
Definition hart_csr_clear (c v : Z) (r : regs) : option regs := old ← csr_read_allowed c r; hart_csr_write c (Z.land old (not64 v)) r.
Definition only_if (b : bool) (k : regs -> option regs) (r : regs) : option regs := if b then k r else Some r.

(** ** misa *)

Definition misa_extension_imp (ext : Z) (r : regs) : Z :=
  let misa := r Csr.MISA in
  if negb (misa =? 0) then
    if (65 <=? ext) && (ext <=? 90) then Z.land misa (Z.shiftl 1 (ext - 65))
    else if (97 <=? ext) && (ext <=? 122) then Z.land misa (Z.shiftl 1 (ext - 97))
    else 0
  else platform_misa_extension ext.

Definition misa_extension (ext : Z) (r : regs) : bool := negb (misa_extension_imp ext r =? 0).

(** ** Detection *)

Definition set_pmp_count (n : Z) (f : sbi_hart_features) : sbi_hart_features :=
  mkFeat (detected f) (priv_version f) (extensions f) n (pmp_addr_bits f) (pmp_log2gran f) (mhpm_mask f) (mhpm_bits f).

Definition set_mhpm_mask (m : Z) (f : sbi_hart_features) : sbi_hart_features :=
  mkFeat (detected f) (priv_version f) (extensions f) (pmp_count f) (pmp_addr_bits f) (pmp_log2gran f) m (mhpm_bits f).

Definition set_priv_version (v : Z) (f : sbi_hart_features) : sbi_hart_features :=
  mkFeat (detected f) v (extensions f) (pmp_count f) (pmp_addr_bits f) (pmp_log2gran f) (mhpm_mask f) (mhpm_bits f).

Definition PMP_ADDR_MASK : Z := 2 ^ 54 - 1.

Definition hart_pmp_get_allowed_addr (r : regs) : Z * regs :=
  match csr_write_allowed Csr.PMPCFG0 0 r with
  | None => (0, r)
  | Some r =>
      match csr_write_allowed Csr.PMPADDR0 PMP_ADDR_MASK r with
      | None => (0, r)
      | Some r => (default 0 (csr_read_allowed Csr.PMPADDR0 r), r)
      end
  end.

Definition hart_mhpm_get_allowed_bits (r : regs) : Z * regs :=
  match csr_write_allowed Csr.MHPMCOUNTER3 ULONG_MAX r with
  | None => (sbi_fls ULONG_MAX + 1, r)
  | Some r =>
      match csr_read_allowed Csr.MHPMCOUNTER3 r with
      | None => (0, r)
      | Some val => (sbi_fls val + 1, r)
      end
  end.

(** [n] registers from [c] on, until one does not hold [val]. *)
Fixpoint check_csrs (n : nat) (c val : Z) (f : sbi_hart_features) (r : regs) : option (sbi_hart_features * regs) :=
  match n with
  | O => Some (f, r)
  | S n =>
      match csr_read_allowed c r with
      | None => Some (f, r)
      | Some oldval =>
          match csr_write_allowed c val r with
          | None => Some (f, r)
          | Some r =>
              '(v, r) ← csr_swap c oldval r;
              if Z.land v val =? val then check_csrs n (c + 1) val (set_pmp_count (u32 (pmp_count f + 1)) f) r else Some (f, r)
          end
      end
  end.

Definition check_hpm_csr (c : Z) (f : sbi_hart_features) (r : regs) : option (sbi_hart_features * regs) :=
  match csr_read_allowed c r with
  | None => Some (f, r)
  | Some oldval =>
      match csr_write_allowed c 1 r with
      | None => Some (f, r)
      | Some r =>
          '(v, r) ← csr_swap c oldval r;
          Some (if v =? 1 then set_mhpm_mask (Z.lor (mhpm_mask f) (u32 (Z.shiftl 1 (c - Csr.MCYCLE)))) f else f, r)
      end
  end.

Fixpoint check_hpm_csrs (n : nat) (c : Z) (f : sbi_hart_features) (r : regs) : option (sbi_hart_features * regs) :=
  match n with
  | O => Some (f, r)
  | S n => '(f, r) ← check_hpm_csr c f r; check_hpm_csrs n (c + 1) f r
  end.

Definition check_priv (c base_priv priv : Z) (r : regs) (f : sbi_hart_features) : sbi_hart_features :=
  match csr_read_allowed c r with
  | Some _ => if base_priv <=? priv_version f then set_priv_version priv f else f
  | None => f
  end.

Definition check_ext_csr (base_priv c : Z) (ext : sbi_hart_extensions) (r : regs) (f : sbi_hart_features) : sbi_hart_features :=
  if base_priv <=? priv_version f then
    match csr_read_allowed c r with
    | Some _ => sbi_hart_update_extension f ext true
    | None => f
    end
  else f.

(** The extensions that are found by a register, in order. *)
Definition ext_csrs : list (Z * Z * sbi_hart_extensions) :=
  [(SBI_HART_PRIV_VER_1_11, Csr.SCOUNTOVF, SBI_HART_EXT_SSCOFPMF); (SBI_HART_PRIV_VER_UNKNOWN, Csr.TIME, SBI_HART_EXT_ZICNTR);
   (SBI_HART_PRIV_VER_UNKNOWN, Csr.MTOPI, SBI_HART_EXT_SMAIA); (SBI_HART_PRIV_VER_1_12, Csr.STIMECMP, SBI_HART_EXT_SSTC);
   (SBI_HART_PRIV_VER_1_12, Csr.MSTATEEN0, SBI_HART_EXT_SMSTATEEN); (SBI_HART_PRIV_VER_1_12, Csr.MCYCLECFG, SBI_HART_EXT_SMCNTRPMF);
   (SBI_HART_PRIV_VER_UNKNOWN, Csr.TSELECT, SBI_HART_EXT_SDTRIG)].

Definition check_ext_csrs (r : regs) (f : sbi_hart_features) : sbi_hart_features :=
  fold_left (fun f '(base_priv, c, ext) => check_ext_csr base_priv c ext r f) ext_csrs f.

Definition hart_detect_features (f : sbi_hart_features) (r : regs) : option (Z * sbi_hart_features * regs) :=
  if detected f then Some (0, f, r)
  else
    let f := mkFeat (detected f) SBI_HART_PRIV_VER_UNKNOWN (repeat 0 (length (extensions f))) 0 (pmp_addr_bits f) (pmp_log2gran f) 0 (mhpm_bits f) in
    let '(val, r) := hart_pmp_get_allowed_addr r in
    '(f, r) ← (if negb (val =? 0) then
        check_csrs 64 Csr.PMPADDR0 val
          (mkFeat (detected f) (priv_version f) (extensions f) (pmp_count f) (sbi_fls val + 1) (sbi_ffs val + 2) (mhpm_mask f) (mhpm_bits f)) r
      else Some (f, r));
    '(f, r) ← check_hpm_csr Csr.MHPMCOUNTER3 f r;
    let '(bits, r) := hart_mhpm_get_allowed_bits r in
    let f := mkFeat (detected f) (priv_version f) (extensions f) (pmp_count f) (pmp_addr_bits f) (pmp_log2gran f) (mhpm_mask f) bits in
    '(f, r) ← check_hpm_csrs 28 (Csr.MHPMCOUNTER3 + 1) f r;
    let f := check_priv Csr.MCOUNTEREN SBI_HART_PRIV_VER_UNKNOWN SBI_HART_PRIV_VER_1_10 r f in
    let f := check_priv Csr.MCOUNTINHIBIT SBI_HART_PRIV_VER_1_10 SBI_HART_PRIV_VER_1_11 r f in
    let f := check_priv Csr.MENVCFG SBI_HART_PRIV_VER_1_11 SBI_HART_PRIV_VER_1_12 r f in
    let f := check_ext_csrs r f in
    let has_zicntr := sbi_hart_has_extension f SBI_HART_EXT_ZICNTR in
    let '(rc, f) := platform_extensions_init f in
    if negb (rc =? 0) then Some (rc, f, r)
    else
      let f := sbi_hart_update_extension f SBI_HART_EXT_ZICNTR has_zicntr in
      let f := if negb (mhpm_mask f =? 0) then sbi_hart_update_extension f SBI_HART_EXT_ZIHPM true else f in
      let f := mkFeat true (priv_version f) (extensions f) (pmp_count f) (pmp_addr_bits f) (pmp_log2gran f) (mhpm_mask f) (mhpm_bits f) in
      if sbi_hart_has_extension f SBI_HART_EXT_SMEPMP then
        mseccfg ← csr_read_allowed Csr.MSECCFG r;
        Some (if negb (Z.land mseccfg 1 =? 0) then SBI_EILL else 0, f, r)
      else Some (0, f, r).

(** ** Registers *)

Definition FS_MASK : Z := 0x6000.
Definition VS_MASK : Z := 0x600.
Definition MPIE_MASK : Z := 0x80.
Definition MPP_MASK : Z := 0x1800.
Definition MPV_MASK : Z := 2 ^ 39.
Definition SMSTATEEN_STATEN : Z := 2 ^ 63.
Definition SMSTATEEN0_CONTEXT : Z := 2 ^ 57.
Definition SMSTATEEN0_HSENVCFG : Z := 2 ^ 62.
Definition SMSTATEEN0_AIA : Z := 2 ^ 59.
Definition SMSTATEEN0_IMSIC : Z := 2 ^ 58.
Definition SMSTATEEN0_SVSLCT : Z := 2 ^ 60.
Definition MSECCFG_USEED : Z := 2 ^ 8.
Definition MSECCFG_SSEED : Z := 2 ^ 9.
Definition ENVCFG_STCE : Z := 2 ^ 63.
Definition ENVCFG_PBMTE : Z := 2 ^ 62.
Definition ENVCFG_ADUE : Z := 2 ^ 61.
Definition ENVCFG_CDE : Z := 2 ^ 60.
Definition ENVCFG_DTE : Z := 2 ^ 59.
Definition ENVCFG_CBZE : Z := 2 ^ 7.
Definition ENVCFG_CBCFE : Z := 2 ^ 6.
Definition ENVCFG_CBIE_INV : Z := Z.shiftl 3 4.
Definition MHPMEVENT_INIT : Z := Z.lor (2 ^ 63) (2 ^ 62).

(** The loop over the events of the counters there are. *)
Fixpoint mhpmevents_init (n : nat) (cidx mhpm_mask : Z) (r : regs) : option regs :=
  match n with
  | O => Some r
  | S n =>
      r ← only_if (negb (Z.land mhpm_mask (u32 (Z.shiftl 1 (cidx + 3))) =? 0)) (hart_csr_write (Csr.MHPMEVENT3 + cidx) MHPMEVENT_INIT) r;
      mhpmevents_init n (cidx + 1) mhpm_mask r
  end.

Definition mstateen_val (f : sbi_hart_features) (v : Z) : Z :=
  let has := sbi_hart_has_extension f in
  let v := Z.lor (Z.lor (Z.lor v SMSTATEEN_STATEN) SMSTATEEN0_CONTEXT) SMSTATEEN0_HSENVCFG in
  let aia := Z.lor SMSTATEEN0_AIA SMSTATEEN0_IMSIC in
  let v := if has SBI_HART_EXT_SMAIA then Z.lor v aia else Z.land v (not64 aia) in
  if has SBI_HART_EXT_SMAIA || has SBI_HART_EXT_SMCSRIND then Z.lor v SMSTATEEN0_SVSLCT else Z.land v (not64 SMSTATEEN0_SVSLCT).

Definition menvcfg_val (f : sbi_hart_features) (v : Z) : Z :=
  let set_ext ext bits v := if sbi_hart_has_extension f ext then Z.lor v bits else v in
  let v := Z.land v (not64 ENVCFG_DTE) in
  let v := set_ext SBI_HART_EXT_ZICBOZ ENVCFG_CBZE v in
  let v := set_ext SBI_HART_EXT_ZICBOM ENVCFG_CBCFE v in
  let v := set_ext SBI_HART_EXT_ZICBOM ENVCFG_CBIE_INV v in
  let v := set_ext SBI_HART_EXT_SVPBMT ENVCFG_PBMTE v in
  let v := set_ext SBI_HART_EXT_SSTC ENVCFG_STCE v in
  let v := set_ext SBI_HART_EXT_SMCDELEG ENVCFG_CDE v in
  let v := set_ext SBI_HART_EXT_SVADU ENVCFG_ADUE v in
  if sbi_hart_has_extension f SBI_HART_EXT_SVADE then Z.land v (not64 ENVCFG_ADUE) else v.

(** Read, change, write. *)
Definition csr_update (c : Z) (g : Z -> Z) (r : regs) : option regs := v ← csr_read_allowed c r; hart_csr_write c (g v) r.

Definition mstatus_init (f : sbi_hart_features) (r : regs) : option regs :=
  let mstatus_val := if misa_extension 68 r || misa_extension 70 r then FS_MASK else 0 in
  let mstatus_val := if misa_extension 86 r then Z.lor mstatus_val VS_MASK else mstatus_val in
  r ← hart_csr_write Csr.MSTATUS mstatus_val r;
  r ← only_if (misa_extension 83 r && (SBI_HART_PRIV_VER_1_10 <=? priv_version f)) (hart_csr_write Csr.SCOUNTEREN 7) r;
  r ← only_if (SBI_HART_PRIV_VER_1_10 <=? priv_version f) (hart_csr_write Csr.MCOUNTEREN ULONG_MAX) r;
  r ← only_if (SBI_HART_PRIV_VER_1_11 <=? priv_version f) (hart_csr_write Csr.MCOUNTINHIBIT 0xFFFFFFF8) r;
  r ← mhpmevents_init 29 0 (mhpm_mask f) r;
  r ← only_if (sbi_hart_has_extension f SBI_HART_EXT_SMSTATEEN) (csr_update Csr.MSTATEEN0 (mstateen_val f)) r;
  r ← only_if (SBI_HART_PRIV_VER_1_12 <=? priv_version f) (fun r =>
    r ← csr_update Csr.MENVCFG (menvcfg_val f) r;
    only_if (sbi_hart_has_extension f SBI_HART_EXT_ZKR) (fun r => r ← hart_csr_set Csr.MSECCFG MSECCFG_SSEED r; hart_csr_clear Csr.MSECCFG MSECCFG_USEED r) r) r;
  r ← hart_csr_write Csr.MIE 0 r;
  only_if (misa_extension 83 r) (hart_csr_write Csr.SATP 0) r.

Fixpoint init_fp_regs (n : nat) (i : Z) (r : regs) : option regs :=
  match n with O => Some r | S n => r ← hart_csr_write (Csr.F0 + i) 0 r; init_fp_regs n (i + 1) r end.

Definition fp_init (r : regs) : option (Z * regs) :=
  if negb (misa_extension 68 r) && negb (misa_extension 70 r) then Some (0, r)
  else
    mstatus ← csr_read_allowed Csr.MSTATUS r;
    if Z.land mstatus FS_MASK =? 0 then Some (SBI_EINVAL, r)
    else r ← init_fp_regs 32 0 r; r ← hart_csr_write Csr.FCSR 0 r; Some (0, r).

(** [1U << cause] for each. *)
Definition causes (l : list Z) : Z := fold_left (fun e c => Z.lor e (Z.shiftl 1 c)) l 0.

Definition delegate_traps (r : regs) : option (Z * regs) :=
  if negb (misa_extension 83 r) then Some (0, r)
  else
    let interrupts := Z.lor (causes [1; 5; 9]) pmu_irq_mask in
    let exceptions := causes [0; 3; 8] in
    let exceptions := if mfaults_delegation then Z.lor exceptions (causes [12; 13; 15; 18]) else exceptions in
    let exceptions := if misa_extension 72 r then Z.lor exceptions (causes [10; 20; 21; 22; 23]) else exceptions in
    r ← hart_csr_write Csr.MIDELEG interrupts r;
    r ← hart_csr_write Csr.MEDELEG exceptions r;
    Some (0, r).

Definition sbi_hart_reinit (f : sbi_hart_features) (r : regs) : option (Z * regs) :=
  r ← mstatus_init f r;
  '(rc, r) ← fp_init r;
  if negb (rc =? 0) then Some (rc, r)
  else
    '(rc, r) ← delegate_traps r;
    if negb (rc =? 0) then Some (rc, r) else Some (0, r).

(** [sbi_hart_expected_trap] with its variant for the hypervisor, and
    [hart_features_offset]. *)
Record hart_globals := mkHG { expected_trap_hext : bool; hart_features_offset : Z }.

(** [offset] is what [sbi_scratch_alloc_offset] returns on the cold boot. *)
Definition sbi_hart_init (offset : Z) (cold_boot : bool) (g : hart_globals) (f : sbi_hart_features) (r : regs) : option (Z * hart_globals * sbi_hart_features * regs) :=
  r ← hart_csr_write Csr.MIP 0 r;
  let g := if cold_boot then mkHG (expected_trap_hext g || misa_extension 72 r) offset else g in
  if cold_boot && (offset =? 0) then Some (SBI_ENOMEM, g, f, r)
  else
    '(rc, f, r) ← hart_detect_features f r;
    if negb (rc =? 0) then Some (rc, g, f, r)
    else '(rc, r) ← sbi_hart_reinit f r; Some (rc, g, f, r).

(** ** The next stage *)

(** [mret] with its arguments in a0 and a1, or no way on. *)
Inductive next_stage :=
  | HartHang
  | Mret (a0 a1 : Z) (r : regs).

Definition sbi_hart_switch_mode (arg0 arg1 next_addr next_mode : Z) (next_virt : bool) (r : regs) : option next_stage :=
  let supported :=
    if next_mode =? 3 then true
    else if next_mode =? 1 then misa_extension 83 r
    else if next_mode =? 0 then misa_extension 85 r
    else false in
  if negb supported then Some HartHang
  else
    val ← csr_read_allowed Csr.MSTATUS r;
    let val := INSERT_FIELD val MPP_MASK next_mode in
    let val := INSERT_FIELD val MPIE_MASK 0 in
    let val := if misa_extension 72 r then INSERT_FIELD val MPV_MASK (Z.b2z next_virt) else val in
    r ← hart_csr_write Csr.MSTATUS val r;
    r ← hart_csr_write Csr.MEPC next_addr r;
    r ← (if next_mode =? 1 then
           if next_virt then
             r ← hart_csr_write Csr.VSTVEC next_addr r; r ← hart_csr_write Csr.VSSCRATCH 0 r; r ← hart_csr_write Csr.VSIE 0 r; hart_csr_write Csr.VSATP 0 r
           else
             r ← hart_csr_write Csr.STVEC next_addr r; r ← hart_csr_write Csr.SSCRATCH 0 r; r ← hart_csr_write Csr.SIE 0 r; hart_csr_write Csr.SATP 0 r
         else if next_mode =? 0 then
           only_if (misa_extension 78 r) (fun r => r ← hart_csr_write Csr.UTVEC next_addr r; r ← hart_csr_write Csr.USCRATCH 0 r; hart_csr_write Csr.UIE 0 r) r
         else Some r);
    Some (Mret arg0 arg1 r).

(** ** What detection finds *)

(** Writes leave legal values, which are kept when written again. *)
Record csr_laws : Prop := {
  legal_again : forall c v, csr_legal hw c (csr_legal hw c v) = csr_legal hw c v;
  legal_word : forall c v, word_ok (csr_legal hw c v) }.

(** The registers of detection hold legal values. *)
Definition settled (r : regs) : Prop := forall c, csr_present hw c = true -> csr_legal hw c (r c) = r c.

(** Two states alike but for the registers in [l]. *)
Definition alike (l : list Z) (r r' : regs) : Prop := forall c, c ∉ l -> r' c = r c.

(** A register there is that can hold all of [v]. *)
Definition holds_all (v c : Z) : bool := csr_present hw c && (Z.land (csr_legal hw c v) v =? v).

(** A counter there is that can count. *)
Definition counts (c : Z) : bool := csr_present hw c && (csr_legal hw c 1 =? 1).

Lemma write_read c v r : csr_present hw c = true ->
  csr_write_allowed c v r = Some (fun c' => if c' =? c then csr_legal hw c v else r c').
Proof. intros H. unfold csr_write_allowed. by rewrite H. Qed.

Lemma settled_write c v r r' : csr_laws -> settled r -> csr_write_allowed c v r = Some r' -> settled r'.
Proof.
  intros [L _] Hs. unfold csr_write_allowed. destruct (csr_present hw c) eqn:E; [|done]. intros [= <-] c' Hc'.
  destruct (Z.eqb_spec c' c) as [->|Hn]; [apply L|by apply Hs].
Qed.

(** Probing a register leaves it as it was. *)
Lemma probe_restores c v r : settled r -> csr_present hw c = true ->
  exists r1 r2, csr_write_allowed c v r = Some r1 /\ csr_swap c (r c) r1 = Some (csr_legal hw c v, r2) /\ alike [] r r2.
Proof.
  intros Hs Hc. rewrite (write_read c v r Hc). eexists _, _. split; [reflexivity|]. unfold csr_swap, csr_read_allowed, hart_csr_write. rewrite Hc. cbn [mbind option_bind].
  rewrite write_read by done. cbn. split; [by rewrite Z.eqb_refl|]. intros c' _. destruct (Z.eqb_spec c' c) as [->|]; [by apply Hs|done].
Qed.

Lemma settled_alike l r r' : settled r -> alike l r r' -> (forall c, c ∈ l -> csr_present hw c = true -> csr_legal hw c (r' c) = r' c) -> settled r'.
Proof.
  intros Hs Ha Hl c Hc. destruct (decide (c ∈ l)); [by apply Hl|]. rewrite Ha by done. by apply Hs.
Qed.

Lemma alike_trans l r1 r2 r3 : alike l r1 r2 -> alike l r2 r3 -> alike l r1 r3.
Proof. intros H1 H2 c Hc. by rewrite H2, H1. Qed.

Lemma check_csrs_spec n c val f r : settled r -> 0 <= pmp_count f -> pmp_count f + Z.of_nat n < 2 ^ 32 ->
  exists r' k, check_csrs n c val f r = Some (set_pmp_count (pmp_count f + Z.of_nat k) f, r') /\ alike [] r r' /\ (k <= n)%nat /\
    (forall i, (i < k)%nat -> holds_all val (c + Z.of_nat i) = true) /\ (k = n \/ holds_all val (c + Z.of_nat k) = false).
Proof.
  intros Hs Hf. revert c f r Hs Hf. induction n as [|n IH]; intros c f r Hs Hf Hn; cbn [check_csrs].
  { exists r, 0%nat. rewrite Z.add_0_r. split_and!; try done; [by destruct f|lia|by left]. }
  assert (holds_all val c = false -> exists r' k, Some (f, r) = Some (set_pmp_count (pmp_count f + Z.of_nat k) f, r') /\ alike [] r r' /\ (k <= S n)%nat /\
    (forall i, (i < k)%nat -> holds_all val (c + Z.of_nat i) = true) /\ (k = S n \/ holds_all val (c + Z.of_nat k) = false)) as Hstop.
  { intros H. exists r, 0%nat. rewrite !Z.add_0_r. split_and!; try done; [by destruct f|lia|lia|by right]. }
  unfold csr_read_allowed. destruct (csr_present hw c) eqn:Ec; [|apply Hstop; unfold holds_all; by rewrite Ec].
  destruct (probe_restores c val r Hs Ec) as (r1 & r2 & -> & -> & Ha). cbn [mbind option_bind].
  destruct (Z.land (csr_legal hw c val) val =? val) eqn:Ev.
  - destruct (IH (c + 1) (set_pmp_count (u32 (pmp_count f + 1)) f) r2) as (r' & k & E & Ha' & Hk & Hall & Hend).
    + by eapply settled_alike; [exact Hs|exact Ha|intros ? H; by apply elem_of_nil in H].
    + cbn. rewrite wrap_small by lia. lia.
    + cbn. rewrite wrap_small by lia. lia.
    + exists r', (S k). rewrite E. cbn [pmp_count set_pmp_count]. rewrite wrap_small by lia. split_and!.
      * do 2 f_equal. unfold set_pmp_count. cbn. f_equal. lia.
      * by eapply alike_trans.
      * lia.
      * intros [|i] Hi; [rewrite Z.add_0_r; unfold holds_all; by rewrite Ec, Ev|]. replace (c + Z.of_nat (S i)) with (c + 1 + Z.of_nat i) by lia. apply Hall. lia.
      * replace (c + Z.of_nat (S k)) with (c + 1 + Z.of_nat k) by lia. destruct Hend as [->|H]; [by left|by right].
  - exists r2, 0%nat. rewrite !Z.add_0_r. split_and!; try done; [by destruct f|lia|lia|]. right. unfold holds_all. by rewrite Ec, Ev.
Qed.

Definition counter_bit (c : Z) : Z := if counts c then u32 (Z.shiftl 1 (c - Csr.MCYCLE)) else 0.

Lemma check_hpm_csr_spec c f r : settled r ->
  exists r', check_hpm_csr c f r = Some (set_mhpm_mask (Z.lor (mhpm_mask f) (counter_bit c)) f, r') /\ alike [] r r'.
Proof.
  intros Hs. unfold check_hpm_csr, csr_read_allowed, counter_bit, counts. destruct (csr_present hw c) eqn:Ec; cbn [andb].
  - destruct (probe_restores c 1 r Hs Ec) as (r1 & r2 & -> & -> & Ha). cbn [mbind option_bind]. exists r2. split; [|done].
    destruct (_ =? 1); [done|]. rewrite Z.lor_0_r. by destruct f.
  - exists r. split; [|done]. rewrite Z.lor_0_r. by destruct f.
Qed.

Fixpoint counter_bits (n : nat) (c : Z) : Z := match n with O => 0 | S n => Z.lor (counter_bit c) (counter_bits n (c + 1)) end.

Lemma check_hpm_csrs_spec n c f r : settled r ->
  exists r', check_hpm_csrs n c f r = Some (set_mhpm_mask (Z.lor (mhpm_mask f) (counter_bits n c)) f, r') /\ alike [] r r'.
Proof.
  revert c f r. induction n as [|n IH]; intros c f r Hs; cbn [check_hpm_csrs counter_bits].
  { exists r. rewrite Z.lor_0_r. split; [by destruct f|done]. }
  destruct (check_hpm_csr_spec c f r Hs) as (r1 & -> & Ha). cbn [mbind option_bind].
  destruct (IH (c + 1) (set_mhpm_mask (Z.lor (mhpm_mask f) (counter_bit c)) f) r1) as (r2 & -> & Ha2).
  { by eapply settled_alike; [exact Hs|exact Ha|intros ? H; by apply elem_of_nil in H]. }
  exists r2. split; [|by eapply alike_trans]. cbn [mhpm_mask set_mhpm_mask]. by rewrite Z.lor_assoc.
Qed.

Lemma counter_bits_spec n c i : Csr.MCYCLE <= c -> c + Z.of_nat n <= Csr.MCYCLE + 32 -> 0 <= i ->
  Z.testbit (counter_bits n c) i = bool_decide (c <= Csr.MCYCLE + i < c + Z.of_nat n) && counts (Csr.MCYCLE + i).
Proof.
  revert c. induction n as [|n IH]; intros c Hc Hn Hi; cbn [counter_bits]; [rewrite bool_decide_eq_false_2 by lia; apply Z.bits_0|].
  rewrite Z.lor_spec, IH by lia. assert (Z.testbit (counter_bit c) i = bool_decide (Csr.MCYCLE + i = c) && counts (Csr.MCYCLE + i)) as ->.
  { unfold counter_bit. destruct (bool_decide_reflect (Csr.MCYCLE + i = c)) as [<-|Hne].
    - destruct (counts _); [|by rewrite Z.bits_0]. replace (Csr.MCYCLE + i - Csr.MCYCLE) with i by lia.
      unfold wrap. rewrite Z.mod_pow2_bits_low by lia. rewrite Z.shiftl_spec by lia. by rewrite Z.sub_diag.
    - destruct (counts c); [|apply Z.bits_0]. unfold wrap. destruct (Z.ltb_spec i 32); [|by rewrite Z.mod_pow2_bits_high by lia].
      rewrite Z.mod_pow2_bits_low by lia. rewrite Z.shiftl_1_l, Z.pow2_bits_false by lia. done. }
  destruct (counts (Csr.MCYCLE + i)); rewrite ?andb_false_r; [|done]. rewrite !andb_true_r. rewrite <- bool_decide_or. apply bool_decide_ext. lia.
Qed.

(** ** Extensions *)

Lemma has_update f e b e' : length (extensions f) = 1%nat ->
  sbi_hart_has_extension (sbi_hart_update_extension f e b) e' = if bool_decide (e' = e) then b else sbi_hart_has_extension f e'.
Proof.
  intros Hl. unfold sbi_hart_has_extension, sbi_hart_update_extension. cbn [extensions].
  pose proof (ext_id_range e) as He. pose proof (ext_id_range e') as He'. rewrite !test_bit_spec by lia.
  assert ((ext_id e' =? ext_id e) = bool_decide (e' = e)) as Eb.
  { destruct (bool_decide_reflect (e' = e)) as [->|Hn]; [apply Z.eqb_refl|]. apply Z.eqb_neq. by intros H%ext_id_inj. }
  destruct b; rewrite ?bit_at_set, ?bit_at_clear by (rewrite ?Hl; lia); rewrite Eb; case_bool_decide; cbn; try done; by destruct (bit_at (extensions f) (ext_id e')).
Qed.

Lemma update_length f e b : length (extensions (sbi_hart_update_extension f e b)) = length (extensions f).
Proof. destruct b; [apply set_bit_length|apply clear_bit_length]. Qed.

(** The version of the privileged architecture, by the registers it brought. *)
Definition found_version : Z :=
  if csr_present hw Csr.MCOUNTEREN then
    if csr_present hw Csr.MCOUNTINHIBIT then
      if csr_present hw Csr.MENVCFG then SBI_HART_PRIV_VER_1_12 else SBI_HART_PRIV_VER_1_11
    else SBI_HART_PRIV_VER_1_10
  else SBI_HART_PRIV_VER_UNKNOWN.

(** The extensions found by a register, from the version that defines it on. *)
Definition found_ext (e : sbi_hart_extensions) : bool :=
  match e with
  | SBI_HART_EXT_SSCOFPMF => (SBI_HART_PRIV_VER_1_11 <=? found_version) && csr_present hw Csr.SCOUNTOVF
  | SBI_HART_EXT_ZICNTR => csr_present hw Csr.TIME
  | SBI_HART_EXT_SMAIA => csr_present hw Csr.MTOPI
  | SBI_HART_EXT_SSTC => (SBI_HART_PRIV_VER_1_12 <=? found_version) && csr_present hw Csr.STIMECMP
  | SBI_HART_EXT_SMSTATEEN => (SBI_HART_PRIV_VER_1_12 <=? found_version) && csr_present hw Csr.MSTATEEN0
  | SBI_HART_EXT_SMCNTRPMF => (SBI_HART_PRIV_VER_1_12 <=? found_version) && csr_present hw Csr.MCYCLECFG
  | SBI_HART_EXT_SDTRIG => csr_present hw Csr.TSELECT
  | _ => false
  end.

Lemma check_privs_spec r f : priv_version f = SBI_HART_PRIV_VER_UNKNOWN ->
  check_priv Csr.MENVCFG SBI_HART_PRIV_VER_1_11 SBI_HART_PRIV_VER_1_12 r
    (check_priv Csr.MCOUNTINHIBIT SBI_HART_PRIV_VER_1_10 SBI_HART_PRIV_VER_1_11 r
      (check_priv Csr.MCOUNTEREN SBI_HART_PRIV_VER_UNKNOWN SBI_HART_PRIV_VER_1_10 r f)) = set_priv_version found_version f.
Proof.
  intros Hv. destruct f as [d v x pc pa pg mm mb]. cbn in Hv. subst v. unfold check_priv, found_version, csr_read_allowed.
  by destruct (csr_present hw Csr.MCOUNTEREN), (csr_present hw Csr.MCOUNTINHIBIT), (csr_present hw Csr.MENVCFG).
Qed.

(** The fields a function on extensions leaves alone. *)
Definition same_rest (f f' : sbi_hart_features) : Prop :=
  priv_version f' = priv_version f /\ pmp_count f' = pmp_count f /\ pmp_addr_bits f' = pmp_addr_bits f /\ pmp_log2gran f' = pmp_log2gran f /\
  mhpm_mask f' = mhpm_mask f /\ mhpm_bits f' = mhpm_bits f /\ length (extensions f') = length (extensions f).

Lemma same_rest_trans f1 f2 f3 : same_rest f1 f2 -> same_rest f2 f3 -> same_rest f1 f3.
Proof. intros (? & ? & ? & ? & ? & ? & ?) (? & ? & ? & ? & ? & ? & ?). split_and!; etrans; eassumption. Qed.

Lemma same_rest_refl f : same_rest f f.
Proof. done. Qed.

(** The extensions a list of checks finds. *)
Definition found_in (l : list (Z * Z * sbi_hart_extensions)) (v : Z) (e : sbi_hart_extensions) : bool :=
  existsb (fun '(base, c, ext) => bool_decide (e = ext) && (base <=? v) && csr_present hw c) l.

Lemma check_ext_spec base c ext r f : length (extensions f) = 1%nat ->
  same_rest f (check_ext_csr base c ext r f) /\
  forall e, sbi_hart_has_extension (check_ext_csr base c ext r f) e = found_in [(base, c, ext)] (priv_version f) e || sbi_hart_has_extension f e.
Proof.
  intros Hl. unfold check_ext_csr, csr_read_allowed, found_in. cbn [existsb]. destruct (base <=? priv_version f), (csr_present hw c).
  2-4: split; [apply same_rest_refl|intros e; by rewrite ?andb_false_r].
  split; [unfold same_rest; by rewrite update_length|]. intros e. rewrite has_update by done. by case_bool_decide.
Qed.

Lemma check_exts_fold l r f : length (extensions f) = 1%nat ->
  let f' := fold_left (fun f '(base_priv, c, ext) => check_ext_csr base_priv c ext r f) l f in
  same_rest f f' /\ forall e, sbi_hart_has_extension f' e = found_in l (priv_version f) e || sbi_hart_has_extension f e.
Proof.
  revert f. induction l as [|[[base c] ext] l IH]; intros f Hl; cbn [fold_left]; [split; [apply same_rest_refl|done]|].
  destruct (check_ext_spec base c ext r f Hl) as [Hs He]. pose proof Hs as (Hv & _ & _ & _ & _ & _ & Hl').
  destruct (IH (check_ext_csr base c ext r f)) as [Hs' He']; [by rewrite Hl'|]. split; [by eapply same_rest_trans|].
  intros e. rewrite He', He, Hv. unfold found_in. cbn [existsb]. rewrite orb_false_r. by destruct (existsb _ l), (_ && _ && _).
Qed.

Lemma check_exts_spec r f : length (extensions f) = 1%nat -> (forall e, sbi_hart_has_extension f e = false) -> priv_version f = found_version ->
  same_rest f (check_ext_csrs r f) /\ forall e, sbi_hart_has_extension (check_ext_csrs r f) e = found_ext e.
Proof.
  intros Hl Hno Hv. destruct (check_exts_fold ext_csrs r f Hl) as [Hs He]. split; [exact Hs|]. intros e. etrans; [apply He|]. rewrite Hno, Hv, orb_false_r.
  assert (SBI_HART_PRIV_VER_UNKNOWN <=? found_version = true) as Hpos by (unfold found_version; by repeat destruct (csr_present _ _)).
  unfold found_in, ext_csrs. destruct e; cbn [existsb]; rewrite ?Hpos;
    repeat match goal with |- context [bool_decide ?P] => first [rewrite (bool_decide_eq_true_2 P) by done|rewrite (bool_decide_eq_false_2 P) by done] end;
    by cbn; rewrite ?orb_false_r.
Qed.

(** What the first address register holds of all ones. *)
Definition pmp_val : Z := if csr_present hw Csr.PMPCFG0 && csr_present hw Csr.PMPADDR0 then csr_legal hw Csr.PMPADDR0 PMP_ADDR_MASK else 0.

(** Registers that detection does not restore. *)
Definition clobbered : list Z := [Csr.PMPCFG0; Csr.PMPADDR0; Csr.MHPMCOUNTER3].

Lemma pmp_get_spec r : csr_laws -> settled r ->
  exists r', hart_pmp_get_allowed_addr r = (pmp_val, r') /\ alike clobbered r r' /\ settled r'.
Proof.
  intros L Hs. unfold hart_pmp_get_allowed_addr, pmp_val, csr_write_allowed at 1. destruct (csr_present hw Csr.PMPCFG0) eqn:E0; cbn [andb]; [|by exists r].
  set (r1 := fun c' => if c' =? Csr.PMPCFG0 then _ else _). assert (settled r1) as Hs1 by (apply (settled_write Csr.PMPCFG0 0 r); [done|done|by apply write_read]).
  assert (alike clobbered r r1) as Ha1.
  { intros c Hc. unfold r1. destruct (Z.eqb_spec c Csr.PMPCFG0) as [->|]; [|done]. destruct Hc. by left. }
  unfold csr_write_allowed. destruct (csr_present hw Csr.PMPADDR0) eqn:E1; [|by exists r1].
  unfold csr_read_allowed. rewrite E1. cbn [default]. eexists. split; [reflexivity|]. split; [|by apply (settled_write Csr.PMPADDR0 PMP_ADDR_MASK r1); [| |apply write_read]].
  intros c Hc. rewrite <- Ha1 by done. destruct (Z.eqb_spec c Csr.PMPADDR0) as [->|]; [|done]. destruct Hc. right. by left.
Qed.

Lemma mhpm_bits_spec r : csr_laws -> settled r -> exists bits r', hart_mhpm_get_allowed_bits r = (bits, r') /\ alike clobbered r r' /\ settled r' /\
  bits = sbi_fls (if csr_present hw Csr.MHPMCOUNTER3 then csr_legal hw Csr.MHPMCOUNTER3 ULONG_MAX else ULONG_MAX) + 1.
Proof.
  intros L Hs. unfold hart_mhpm_get_allowed_bits, csr_write_allowed, csr_read_allowed. destruct (csr_present hw Csr.MHPMCOUNTER3) eqn:E; [|by eexists _, r].
  eexists _, _. split; [reflexivity|]. split; [|split; [by apply (settled_write Csr.MHPMCOUNTER3 ULONG_MAX r); [| |apply write_read]|done]].
  intros c Hc. destruct (Z.eqb_spec c Csr.MHPMCOUNTER3) as [->|]; [|done]. destruct Hc. right. right. by left.
Qed.

(** Counter 3 is left full. *)
Lemma counter3_left_full r : csr_present hw Csr.MHPMCOUNTER3 = true -> (hart_mhpm_get_allowed_bits r).2 Csr.MHPMCOUNTER3 = csr_legal hw Csr.MHPMCOUNTER3 ULONG_MAX.
Proof. intros H. unfold hart_mhpm_get_allowed_bits, csr_read_allowed. rewrite write_read by done. by rewrite H. Qed.

(** What is known of a hart afterwards; [f2] has the extensions the platform left. *)
Record hart_found (f2 f' : sbi_hart_features) : Prop := {
  hf_detected : detected f' = true;
  hf_version : priv_version f' = found_version;
  hf_ext : forall e, sbi_hart_has_extension f' e =
    match e with
    | SBI_HART_EXT_ZICNTR => csr_present hw Csr.TIME
    | SBI_HART_EXT_ZIHPM => negb (mhpm_mask f' =? 0) || sbi_hart_has_extension f2 e
    | _ => sbi_hart_has_extension f2 e
    end;
  hf_pmp : 0 <= pmp_count f' <= 64 /\ (pmp_val = 0 -> pmp_count f' = 0) /\
    (pmp_val <> 0 -> (forall i, 0 <= i < pmp_count f' -> holds_all pmp_val (Csr.PMPADDR0 + i) = true) /\
       (pmp_count f' = 64 \/ holds_all pmp_val (Csr.PMPADDR0 + pmp_count f') = false) /\
       least_bit pmp_val (pmp_log2gran f' - 2) /\ greatest_bit pmp_val (pmp_addr_bits f' - 1));
  hf_counters : forall i, 0 <= i -> Z.testbit (mhpm_mask f') i = bool_decide (3 <= i < 32) && counts (Csr.MCYCLE + i);
  hf_bits : mhpm_bits f' = sbi_fls (if csr_present hw Csr.MHPMCOUNTER3 then csr_legal hw Csr.MHPMCOUNTER3 ULONG_MAX else ULONG_MAX) + 1 }.

(** The probes. *)
Lemma pmp_probed f r : csr_laws -> settled r -> pmp_count f = 0 ->
  exists f' r', (if negb (pmp_val =? 0) then
        check_csrs 64 Csr.PMPADDR0 pmp_val
          (mkFeat (detected f) (priv_version f) (extensions f) (pmp_count f) (sbi_fls pmp_val + 1) (sbi_ffs pmp_val + 2) (mhpm_mask f) (mhpm_bits f)) r
      else Some (f, r)) = Some (f', r') /\ alike [] r r' /\
    f' = mkFeat (detected f) (priv_version f) (extensions f) (pmp_count f') (pmp_addr_bits f') (pmp_log2gran f') (mhpm_mask f) (mhpm_bits f) /\
    0 <= pmp_count f' <= 64 /\ (pmp_val = 0 -> pmp_count f' = 0) /\
    (pmp_val <> 0 -> (forall i, 0 <= i < pmp_count f' -> holds_all pmp_val (Csr.PMPADDR0 + i) = true) /\
       (pmp_count f' = 64 \/ holds_all pmp_val (Csr.PMPADDR0 + pmp_count f') = false) /\
       least_bit pmp_val (pmp_log2gran f' - 2) /\ greatest_bit pmp_val (pmp_addr_bits f' - 1)).
Proof.
  intros L Hs H0. destruct (Z.eqb_spec pmp_val 0) as [E|E]; cbn [negb].
  { exists f, r. rewrite H0. split_and!; try done. by destruct f; cbn in *; subst. }
  set (f0 := mkFeat _ _ _ _ _ _ _ _). destruct (check_csrs_spec 64 Csr.PMPADDR0 pmp_val f0 r Hs) as (r' & k & -> & Ha & Hk & Hall & Hend); [cbn; lia|cbn; lia|].
  assert (word_ok pmp_val) as Hw by (unfold pmp_val; destruct (_ && _); [apply L|done]).
  exists (set_pmp_count (pmp_count f0 + Z.of_nat k) f0), r'. cbn [pmp_count set_pmp_count f0 pmp_log2gran pmp_addr_bits]. rewrite H0. split_and!; try done; try lia.
  intros _. split_and!.
  - intros i Hi. replace i with (Z.of_nat (Z.to_nat i)) by lia. apply Hall. lia.
  - destruct Hend as [->|Hend]; [by left|by right].
  - destruct (least_bit_exists pmp_val) as [n Hn]; [unfold word_ok in Hw; lia|]. rewrite (ffs_spec _ n Hw Hn). by replace (n + 2 - 2) with n by lia.
  - assert (greatest_bit pmp_val (Z.log2 pmp_val)) as Hg by (apply greatest_bit_log2; unfold word_ok in Hw; lia).
    rewrite (fls_spec _ _ Hg). by replace (Z.log2 pmp_val + 1 - 1) with (Z.log2 pmp_val) by lia.
Qed.

Lemma land_one_bit v : negb (Z.land v 1 =? 0) = Z.testbit v 0.
Proof.
  change 1 with (Z.ones 1). rewrite Z.land_ones by lia. change (2 ^ 1) with 2. rewrite Zmod_odd, Z.bit0_odd. by destruct (Z.odd v).
Qed.

Lemma no_extensions f e : extensions f = [0] -> sbi_hart_has_extension f e = false.
Proof.
  intros H. unfold sbi_hart_has_extension. rewrite H. by destruct e.
Qed.

(** The features once all registers are probed. *)
Lemma probes_detect f r : csr_laws -> settled r -> length (extensions f) = 1%nat ->
  exists f1 r', (let f := mkFeat (detected f) SBI_HART_PRIV_VER_UNKNOWN (repeat 0 (length (extensions f))) 0 (pmp_addr_bits f) (pmp_log2gran f) 0 (mhpm_bits f) in
    let '(val, r) := hart_pmp_get_allowed_addr r in
    '(f, r) ← (if negb (val =? 0) then
        check_csrs 64 Csr.PMPADDR0 val
          (mkFeat (detected f) (priv_version f) (extensions f) (pmp_count f) (sbi_fls val + 1) (sbi_ffs val + 2) (mhpm_mask f) (mhpm_bits f)) r
      else Some (f, r));
    '(f, r) ← check_hpm_csr Csr.MHPMCOUNTER3 f r;
    let '(bits, r) := hart_mhpm_get_allowed_bits r in
    let f := mkFeat (detected f) (priv_version f) (extensions f) (pmp_count f) (pmp_addr_bits f) (pmp_log2gran f) (mhpm_mask f) bits in
    check_hpm_csrs 28 (Csr.MHPMCOUNTER3 + 1) f r) = Some (f1, r') /\ alike clobbered r r' /\ extensions f1 = [0] /\ priv_version f1 = SBI_HART_PRIV_VER_UNKNOWN /\
    forall f' f2, detected f' = true -> priv_version f' = found_version -> pmp_count f' = pmp_count f1 -> pmp_addr_bits f' = pmp_addr_bits f1 ->
      pmp_log2gran f' = pmp_log2gran f1 -> mhpm_mask f' = mhpm_mask f1 -> mhpm_bits f' = mhpm_bits f1 ->
      (forall e, sbi_hart_has_extension f' e = match e with SBI_HART_EXT_ZICNTR => csr_present hw Csr.TIME
         | SBI_HART_EXT_ZIHPM => negb (mhpm_mask f1 =? 0) || sbi_hart_has_extension f2 e | _ => sbi_hart_has_extension f2 e end) -> hart_found f2 f'.
Proof.
  intros L Hs Hl. cbv zeta. rewrite Hl. change (repeat 0 1) with [0].
  set (f0 := mkFeat (detected f) SBI_HART_PRIV_VER_UNKNOWN [0] 0 (pmp_addr_bits f) (pmp_log2gran f) 0 (mhpm_bits f)).
  destruct (pmp_get_spec r L Hs) as (r1 & -> & A1 & S1).
  destruct (pmp_probed f0 r1 L S1 eq_refl) as (fa & r2 & E & A2 & Ea & Hpmp). rewrite E. clear E. cbn [mbind option_bind].
  assert (settled r2) as S2 by (eapply settled_alike; [exact S1|exact A2|intros ? H; by apply elem_of_nil in H]).
  destruct (check_hpm_csr_spec Csr.MHPMCOUNTER3 fa r2 S2) as (r3 & -> & A3). cbn [mbind option_bind].
  assert (settled r3) as S3 by (eapply settled_alike; [exact S2|exact A3|intros ? H; by apply elem_of_nil in H]).
  destruct (mhpm_bits_spec r3 L S3) as (bits & r4 & -> & A4 & S4 & Hbits). cbv iota beta.
  set (fb := mkFeat _ _ _ _ _ _ _ bits). destruct (check_hpm_csrs_spec 28 (Csr.MHPMCOUNTER3 + 1) fb r4 S4) as (r5 & -> & A5).
  eexists _, r5. split; [reflexivity|]. split.
  { intros c Hc. rewrite A5, A4, A3, A2, A1 by (done || apply not_elem_of_nil). done. }
  assert (extensions fa = [0] /\ priv_version fa = 0 /\ mhpm_mask fa = 0) as (Ex & Ev & Em) by (rewrite Ea; done).
  split; [exact Ex|]. split; [exact Ev|]. intros f' f2 Hd Hv Hp1 Hp2 Hp3 Hm Hb He. split; try done.
  - rewrite Hm. exact He.
  - cbn in Hp1, Hp2, Hp3. rewrite Hp1, Hp2, Hp3. exact Hpmp.
  - intros i Hi. rewrite Hm. cbn [mhpm_mask set_mhpm_mask fb]. rewrite Em, Z.lor_0_l.
    change (Z.lor (counter_bit Csr.MHPMCOUNTER3) (counter_bits 28 (Csr.MHPMCOUNTER3 + 1))) with (counter_bits 29 Csr.MHPMCOUNTER3).
    rewrite counter_bits_spec by (done || (unfold Csr.MHPMCOUNTER3, Csr.MCYCLE; lia)). f_equal. apply bool_decide_ext. unfold Csr.MHPMCOUNTER3, Csr.MCYCLE. lia.
  - rewrite Hb. cbn. exact Hbits.
Qed.

Lemma features_detected f r : csr_laws -> settled r -> detected f = false -> length (extensions f) = 1%nat ->
  (forall f, same_rest f (platform_extensions_init f).2) ->
  (forall f, (forall e, sbi_hart_has_extension f e = found_ext e) ->
     sbi_hart_has_extension (platform_extensions_init f).2 SBI_HART_EXT_SMEPMP = true -> csr_present hw Csr.MSECCFG = true) ->
  exists rc f' r' f1, hart_detect_features f r = Some (rc, f', r') /\ alike clobbered r r' /\ (forall e, sbi_hart_has_extension f1 e = found_ext e) /\
    let '(prc, f2) := platform_extensions_init f1 in
    if prc =? 0 then
      rc = (if sbi_hart_has_extension f2 SBI_HART_EXT_SMEPMP && Z.testbit (r' Csr.MSECCFG) 0 then SBI_EILL else 0) /\ hart_found f2 f'
    else rc = prc /\ f' = f2.
Proof.
  intros L Hs Hd Hl Hplat Hsm. destruct (probes_detect f r L Hs Hl) as (fa & r' & E & Ha & Hx & Hv & Hfound).
  unfold hart_detect_features. rewrite Hd. cbv zeta in E. rewrite Hd in E. cbv zeta. destruct (hart_pmp_get_allowed_addr r) as [val r1].
  destruct (if negb (val =? 0) then _ else _) as [[fb r2]|]; [|done]. cbn [mbind option_bind] in *.
  destruct (check_hpm_csr Csr.MHPMCOUNTER3 fb r2) as [[fc r3]|]; [|done]. cbn [mbind option_bind] in *.
  destruct (hart_mhpm_get_allowed_bits r3) as [bits r4]. rewrite E. cbn [mbind option_bind]. clear E.
  rewrite check_privs_spec by done. destruct (check_exts_spec r' (set_priv_version found_version fa)) as [Hrest Hext]; [by cbn; rewrite Hx|intros e; by apply no_extensions|done|].
  set (f1 := check_ext_csrs r' (set_priv_version found_version fa)) in *. rewrite Hext. cbn [found_ext].
  specialize (Hplat f1). specialize (Hsm f1 Hext). destruct (platform_extensions_init f1) as [prc f2] eqn:Ep. cbn in Hplat, Hsm.
  destruct (Z.eqb_spec prc 0) as [->|Hp]; cbn [negb Z.eqb].
  2:{ exists prc, f2, r', f1. rewrite Ep, (proj2 (Z.eqb_neq prc 0)) by done. done. }
  pose proof (same_rest_trans _ _ _ Hrest Hplat) as (Hv2 & Hc2 & Hab2 & Hg2 & Hm2 & Hb2 & Hl2). cbn in Hv2, Hc2, Hab2, Hg2, Hm2, Hb2, Hl2. rewrite Hx in Hl2. cbn in Hl2.
  set (f3 := if negb (mhpm_mask (sbi_hart_update_extension f2 _ _) =? 0) then _ else _). cbn [mhpm_mask sbi_hart_update_extension] in f3.
  assert (forall e, sbi_hart_has_extension f3 e = match e with SBI_HART_EXT_ZICNTR => csr_present hw Csr.TIME
         | SBI_HART_EXT_ZIHPM => negb (mhpm_mask fa =? 0) || sbi_hart_has_extension f2 e | _ => sbi_hart_has_extension f2 e end) as He3.
  { intros e. unfold f3. rewrite Hm2. destruct (negb (mhpm_mask fa =? 0)); rewrite ?has_update by (rewrite ?update_length; done); destruct e; try done; by rewrite ?orb_true_l, ?orb_false_l. }
  set (f4 := mkFeat true _ _ _ _ _ _ _).
  assert (hart_found f2 f4) as Hf.
  { apply Hfound; try done; cbn; unfold f3; destruct (negb (mhpm_mask f2 =? 0)); try done. }
  assert (sbi_hart_has_extension f4 SBI_HART_EXT_SMEPMP = sbi_hart_has_extension f2 SBI_HART_EXT_SMEPMP) as Es by (etrans; [apply (hf_ext f2 f4 Hf)|done]).
  rewrite Es. destruct (sbi_hart_has_extension f2 SBI_HART_EXT_SMEPMP) eqn:Esm.
  - unfold csr_read_allowed. rewrite Hsm by done. cbn [mbind option_bind].
    rewrite land_one_bit.
    exists (if Z.testbit (r' Csr.MSECCFG) 0 then SBI_EILL else 0), f4, r', f1. split; [done|]. split; [done|]. split; [done|]. rewrite Ep. cbn. by rewrite Esm.
  - exists 0, f4, r', f1. split; [done|]. split; [done|]. split; [done|]. rewrite Ep. cbn. by rewrite Esm.
Qed.

(** ** Set-up without traps *)

(** The registers a hart has by the architecture, given its misa and what is claimed
    for it: a counter comes with its event register, an extension with its registers;
    and the fields that must be writable. *)
Record has_csrs (f : sbi_hart_features) (r : regs) : Prop := {
  hc_always : forall c, c ∈ [Csr.MSTATUS; Csr.MIE; Csr.MIP; Csr.MEPC] -> csr_present hw c = true;
  hc_s : misa_extension 83 r = true -> forall c, c ∈ [Csr.SCOUNTEREN; Csr.SATP; Csr.MIDELEG; Csr.MEDELEG; Csr.STVEC; Csr.SSCRATCH; Csr.SIE] -> csr_present hw c = true;
  hc_fp : misa_extension 68 r || misa_extension 70 r = true -> csr_present hw Csr.FCSR = true /\ (forall i, 0 <= i < 32 -> csr_present hw (Csr.F0 + i) = true) /\
    forall v, Z.land v FS_MASK = FS_MASK -> Z.land (csr_legal hw Csr.MSTATUS v) FS_MASK <> 0;
  hc_version : (SBI_HART_PRIV_VER_1_10 <= priv_version f -> csr_present hw Csr.MCOUNTEREN = true) /\
    (SBI_HART_PRIV_VER_1_11 <= priv_version f -> csr_present hw Csr.MCOUNTINHIBIT = true) /\
    (SBI_HART_PRIV_VER_1_12 <= priv_version f -> csr_present hw Csr.MENVCFG = true);
  hc_events : forall i, 0 <= i < 29 -> Z.testbit (mhpm_mask f) (i + 3) = true -> csr_present hw (Csr.MHPMEVENT3 + i) = true;
  hc_ext : (sbi_hart_has_extension f SBI_HART_EXT_SMSTATEEN = true -> csr_present hw Csr.MSTATEEN0 = true) /\
    (sbi_hart_has_extension f SBI_HART_EXT_ZKR = true -> csr_present hw Csr.MSECCFG = true);
  hc_zero : forall c, c ∈ [Csr.MIE; Csr.SATP; Csr.SIE] -> csr_legal hw c 0 = 0 }.

(** The run does not trap, and ends as told. *)
Definition reaches (o : option regs) (Q : regs -> Prop) : Prop := exists r, o = Some r /\ Q r.

Lemma reaches_bind o k (Q1 Q : regs -> Prop) : reaches o Q1 -> (forall r, Q1 r -> reaches (k r) Q) -> reaches (o ≫= k) Q.
Proof. intros (r & -> & H1) H. by apply H. Qed.

Lemma reaches_weaken o (Q1 Q : regs -> Prop) : reaches o Q1 -> (forall r, Q1 r -> Q r) -> reaches o Q.
Proof. intros (r & -> & H1) H. exists r. split; [done|by apply H]. Qed.

(** One register is written. *)
Definition wrote_csr (c v : Z) (r r' : regs) : Prop := alike [c] r r' /\ r' c = csr_legal hw c v.

Lemma reaches_write c v r : csr_present hw c = true -> reaches (hart_csr_write c v r) (wrote_csr c v r).
Proof.
  intros H. unfold reaches, hart_csr_write. rewrite write_read by done. eexists. split; [reflexivity|]. split; [|by rewrite Z.eqb_refl].
  intros c' Hc. destruct (Z.eqb_spec c' c) as [->|]; [|done]. destruct Hc. by left.
Qed.

Lemma reaches_update c g r : csr_present hw c = true -> reaches (csr_update c g r) (alike [c] r).
Proof.
  intros H. unfold csr_update, csr_read_allowed. rewrite H. cbn [mbind option_bind]. eapply reaches_weaken; [by apply reaches_write|]. by intros ? [? _].
Qed.

Lemma reaches_if b l k r : (b = true -> reaches (k r) (alike l r)) -> reaches (only_if b k r) (alike l r).
Proof. intros H. destruct b; [by apply H|by exists r]. Qed.

Lemma alike_sub l l' r r' : alike l r r' -> (forall c, c ∈ l -> c ∈ l') -> alike l' r r'.
Proof. intros H Hl c Hc. apply H. intros Hc'. by apply Hc, Hl. Qed.

Definition event_csrs : list Z := seqZ Csr.MHPMEVENT3 29.

Lemma events_reach n cidx m r : 0 <= cidx -> cidx + Z.of_nat n <= 29 ->
  (forall i, 0 <= i < 29 -> Z.testbit m (i + 3) = true -> csr_present hw (Csr.MHPMEVENT3 + i) = true) -> reaches (mhpmevents_init n cidx m r) (alike event_csrs r).
Proof.
  intros Hc Hn H. revert cidx r Hc Hn. induction n as [|n IH]; intros cidx r Hc Hn; cbn [mhpmevents_init]; [by exists r|].
  apply (reaches_bind _ _ (alike [Csr.MHPMEVENT3 + cidx] r)).
  - apply reaches_if. intros Hb. eapply reaches_weaken; [apply reaches_write, H; [lia|]|by intros ? [? _]].
    unfold wrap in Hb. rewrite Z.shiftl_1_l, Z.mod_small in Hb by (split; [apply Z.pow_nonneg; lia|apply Z.pow_lt_mono_r; lia]).
    destruct (Z.testbit m (cidx + 3)) eqn:E; [done|]. destruct (Z.eqb_spec (Z.land m (2 ^ (cidx + 3))) 0) as [|Hne]; [done|]. destruct Hne.
    apply Z.bits_inj_iff'. intros j Hj. rewrite Z.land_spec, Z.bits_0, Z.pow2_bits_eqb by lia. destruct (Z.eqb_spec (cidx + 3) j) as [<-|]; [by rewrite E|by rewrite andb_false_r].
  - intros r' Ha. eapply reaches_weaken; [apply IH; lia|]. intros r2 H2. eapply alike_trans; [|exact H2]. eapply alike_sub; [exact Ha|].
    intros c ->%list_elem_of_singleton. apply elem_of_seqZ. unfold Csr.MHPMEVENT3. lia.
Qed.

Definition set_up_csrs : list Z :=
  [Csr.MSTATUS; Csr.SCOUNTEREN; Csr.MCOUNTEREN; Csr.MCOUNTINHIBIT; Csr.MSTATEEN0; Csr.MENVCFG; Csr.MSECCFG; Csr.MIE; Csr.SATP] ++ event_csrs.

Lemma misa_alike e l r r' : alike l r r' -> bool_decide (Csr.MISA ∈ l) = false -> misa_extension e r' = misa_extension e r.
Proof. intros H Hl%bool_decide_eq_false. unfold misa_extension, misa_extension_imp. by rewrite H. Qed.

(** The state between the write of [mstatus] and the end. *)
Definition midway (v : Z) (r r' : regs) : Prop := alike set_up_csrs r r' /\ r' Csr.MSTATUS = v.

Lemma midway_next v l r r1 o : midway v r r1 -> reaches o (alike l r1) ->
  bool_decide (Forall (fun c => c ∈ set_up_csrs /\ c <> Csr.MSTATUS) l) = true -> reaches o (midway v r).
Proof.
  intros [Ha Hv] Ho Hl%bool_decide_eq_true. rewrite Forall_forall in Hl. eapply reaches_weaken; [exact Ho|]. intros r2 H2. split.
  - eapply alike_trans; [exact Ha|]. eapply alike_sub; [exact H2|]. intros c Hc. by apply Hl.
  - rewrite H2; [done|]. intros Hc. by apply Hl in Hc as [_ ?].
Qed.

Lemma mstatus_init_reaches f r : has_csrs f r -> reaches (mstatus_init f r) (fun r' => alike set_up_csrs r r' /\ r' Csr.MIE = 0 /\
  (misa_extension 83 r = true -> r' Csr.SATP = 0) /\
  (misa_extension 68 r || misa_extension 70 r = true -> Z.land (r' Csr.MSTATUS) FS_MASK <> 0)).
Proof.
  intros H. unfold mstatus_init. set (mval := if misa_extension 86 r then _ else _).
  assert (misa_extension 68 r || misa_extension 70 r = true -> Z.land (csr_legal hw Csr.MSTATUS mval) FS_MASK <> 0) as Hfs.
  { intros Hfp. destruct (hc_fp f r H Hfp) as (_ & _ & Hl). apply Hl. unfold mval. rewrite Hfp. by destruct (misa_extension 86 r). }
  assert (forall r', midway (csr_legal hw Csr.MSTATUS mval) r r' -> misa_extension 83 r' = misa_extension 83 r) as Hs by (intros r' [Ha _]; by apply (misa_alike _ _ _ _ Ha)).
  destruct (hc_version f r H) as (V1 & V2 & V3), (hc_ext f r H) as (X1 & X2).
  eapply reaches_bind.
  { eapply reaches_weaken; [apply reaches_write, (hc_always f r H); by left|]. intros r1 [Ha Hv].
    assert (midway (csr_legal hw Csr.MSTATUS mval) r r1) as Hm by (split; [eapply alike_sub; [exact Ha|intros c ->%list_elem_of_singleton; by left]|exact Hv]). exact Hm. }
  intros r1 M1. eapply reaches_bind.
  { apply (midway_next _ [Csr.SCOUNTEREN] r r1 _ M1); [|done]. apply reaches_if. rewrite (Hs r1 M1). intros [S83 _]%andb_true_iff.
    eapply reaches_weaken; [apply reaches_write, (hc_s f r H S83); by left|by intros ? [? _]]. }
  intros r2 M2. eapply reaches_bind.
  { apply (midway_next _ [Csr.MCOUNTEREN] r r2 _ M2); [|done]. apply reaches_if. intros ?%Z.leb_le. eapply reaches_weaken; [by apply reaches_write, V1|by intros ? [? _]]. }
  intros r3 M3. eapply reaches_bind.
  { apply (midway_next _ [Csr.MCOUNTINHIBIT] r r3 _ M3); [|done]. apply reaches_if. intros ?%Z.leb_le. eapply reaches_weaken; [by apply reaches_write, V2|by intros ? [? _]]. }
  intros r4 M4. eapply reaches_bind.
  { apply (midway_next _ event_csrs r r4 _ M4); [|by vm_compute]. apply events_reach; [done|done|apply H]. }
  intros r5 M5. eapply reaches_bind.
  { apply (midway_next _ [Csr.MSTATEEN0] r r5 _ M5); [|done]. apply reaches_if. intros ?. by apply reaches_update, X1. }
  intros r6 M6. eapply reaches_bind.
  { apply (midway_next _ [Csr.MENVCFG; Csr.MSECCFG] r r6 _ M6); [|done]. apply reaches_if. intros ?%Z.leb_le. eapply reaches_bind; [by apply reaches_update, V3|].
    intros r' Ha. apply (reaches_weaken _ (alike [Csr.MSECCFG] r')).
    - apply reaches_if. intros Hz. eapply reaches_bind; [apply (reaches_update _ (fun v => Z.lor v MSECCFG_SSEED)); by apply X2|].
      intros r'' Ha'. eapply reaches_weaken; [apply (reaches_update _ (fun v => Z.land v (not64 MSECCFG_USEED))); by apply X2|]. intros r3' Ha3. by eapply alike_trans.
    - intros r'' Ha'. eapply alike_trans; eapply alike_sub; [exact Ha| |exact Ha'|]; intros c ->%list_elem_of_singleton; [by left|by right; left]. }
  intros r7 M7. eapply reaches_bind; [apply reaches_write, (hc_always f r H); by right; left|].
  intros r8 [A8 E8]. assert (midway (csr_legal hw Csr.MSTATUS mval) r r8) as M8.
  { destruct (midway_next _ [Csr.MIE] r r7 (Some r8) M7) as (r' & [= <-] & ?); [by exists r8|done|done]. }
  rewrite (hc_zero f r H) in E8 by by left. rewrite (Hs r8 M8). destruct M8 as [A E]. destruct (misa_extension 83 r) eqn:S83; cbn [only_if].
  - eapply reaches_weaken; [apply reaches_write, (hc_s f r H S83); by right; left|]. intros r9 [A9 E9]. rewrite (hc_zero f r H) in E9 by by right; left.
    split; [|split; [|split; [done|]]].
    + eapply alike_trans; [exact A|]. eapply alike_sub; [exact A9|]. intros c ->%list_elem_of_singleton. apply (bool_decide_unpack _). by vm_compute.
    + rewrite A9; [done|]. by intros H9%list_elem_of_singleton.
    + rewrite A9; [by rewrite E|]. by intros H9%list_elem_of_singleton.
  - exists r8. split; [done|]. split; [exact A|]. split; [exact E8|]. split; [done|]. by rewrite E.
Qed.

Lemma init_fp_reach n i r : 0 <= i -> i + Z.of_nat n <= 32 -> (forall i, 0 <= i < 32 -> csr_present hw (Csr.F0 + i) = true) ->
  reaches (init_fp_regs n i r) (alike (seqZ Csr.F0 32) r).
Proof.
  intros Hi Hn H. revert i r Hi Hn. induction n as [|n IH]; intros i r Hi Hn; cbn [init_fp_regs]; [by exists r|].
  eapply reaches_bind; [apply reaches_write, H; lia|]. intros r1 [Ha _]. eapply reaches_weaken; [apply IH; lia|]. intros r2 H2. eapply alike_trans; [|exact H2].
  eapply alike_sub; [exact Ha|]. intros c ->%list_elem_of_singleton. apply elem_of_seqZ. unfold Csr.F0. lia.
Qed.

Definition fp_csrs : list Z := Csr.FCSR :: seqZ Csr.F0 32.

Lemma fp_init_reach f r0 r : has_csrs f r0 -> (forall e, misa_extension e r = misa_extension e r0) ->
  (misa_extension 68 r || misa_extension 70 r = true -> Z.land (r Csr.MSTATUS) FS_MASK <> 0) ->
  exists r', fp_init r = Some (0, r') /\ alike fp_csrs r r'.
Proof.
  intros H Hm Hfs. unfold fp_init. destruct (misa_extension 68 r || misa_extension 70 r) eqn:E.
  2:{ apply orb_false_iff in E as [-> ->]. by exists r. }
  rewrite <- negb_orb, E. cbn [negb]. unfold csr_read_allowed. rewrite (hc_always f r0 H) by by left. cbn [mbind option_bind].
  rewrite (proj2 (Z.eqb_neq _ _)) by by apply Hfs. rewrite !Hm in E. destruct (hc_fp f r0 H E) as (P1 & P2 & _).
  destruct (init_fp_reach 32 0 r) as (r1 & -> & A1); [done|done|exact P2|]. cbn [mbind option_bind].
  destruct (reaches_write Csr.FCSR 0 r1 P1) as (r2 & -> & A2 & _). exists r2. split; [done|].
  eapply alike_trans; eapply alike_sub; [exact A1| |exact A2|]; [intros c Hc; by right|intros c ->%list_elem_of_singleton; by left].
Qed.

Lemma delegate_reach f r0 r : has_csrs f r0 -> (forall e, misa_extension e r = misa_extension e r0) ->
  exists r' v, delegate_traps r = Some (0, r') /\ alike [Csr.MIDELEG; Csr.MEDELEG] r r' /\
    (misa_extension 83 r = true -> r' Csr.MEDELEG = csr_legal hw Csr.MEDELEG v /\ (exists i, r' Csr.MIDELEG = csr_legal hw Csr.MIDELEG i) /\
       (forall i, i ∈ [1; 2; 4; 5; 6; 7; 9; 11; 16; 19] -> Z.testbit v i = false) /\ forall i, i ∈ [0; 3; 8] -> Z.testbit v i = true).
Proof.
  intros H Hm. unfold delegate_traps. destruct (misa_extension 83 r) eqn:E; cbn [negb]; [|by exists r, 0]. rewrite Hm in E.
  set (v := if misa_extension 72 r then _ else _). destruct (reaches_write Csr.MIDELEG (Z.lor (causes [1; 5; 9]) pmu_irq_mask) r) as (r1 & -> & A1 & E1); [apply (hc_s f r0 H E); by right; right; left|].
  cbn [mbind option_bind]. destruct (reaches_write Csr.MEDELEG v r1) as (r2 & -> & A2 & E2); [apply (hc_s f r0 H E); by do 3 right; left|]. cbn [mbind option_bind].
  exists r2, v. split; [done|]. split.
  { eapply alike_trans; eapply alike_sub; [exact A1| |exact A2|]; intros c ->%list_elem_of_singleton; [by left|by right; left]. }
  intros _. split; [done|]. split; [eexists; rewrite A2; [exact E1|by intros Hx%list_elem_of_singleton]|].
  assert (forall b1 b2 : bool, let v := if b2 then Z.lor (if b1 then Z.lor (causes [0; 3; 8]) (causes [12; 13; 15; 18]) else causes [0; 3; 8]) (causes [10; 20; 21; 22; 23])
     else if b1 then Z.lor (causes [0; 3; 8]) (causes [12; 13; 15; 18]) else causes [0; 3; 8] in
     Forall (fun i => Z.testbit v i = false) [1; 2; 4; 5; 6; 7; 9; 11; 16; 19] /\ Forall (fun i => Z.testbit v i = true) [0; 3; 8]) as Hv.
  { intros [] []; split; repeat constructor. }
  destruct (Hv mfaults_delegation (misa_extension 72 r)) as [V1 V2]. rewrite Forall_forall in V1, V2. by split.
Qed.

Lemma reinit_reach f r : has_csrs f r -> exists r' v, sbi_hart_reinit f r = Some (0, r') /\ (forall e, misa_extension e r' = misa_extension e r) /\
  r' Csr.MIE = 0 /\ (misa_extension 83 r = true -> r' Csr.SATP = 0 /\ r' Csr.MEDELEG = csr_legal hw Csr.MEDELEG v /\ (exists i, r' Csr.MIDELEG = csr_legal hw Csr.MIDELEG i) /\
       (forall i, i ∈ [1; 2; 4; 5; 6; 7; 9; 11; 16; 19] -> Z.testbit v i = false) /\ forall i, i ∈ [0; 3; 8] -> Z.testbit v i = true).
Proof.
  intros H. unfold sbi_hart_reinit. destruct (mstatus_init_reaches f r H) as (r1 & -> & A1 & Emie & Esatp & Efs). cbn [mbind option_bind].
  assert (forall e, misa_extension e r1 = misa_extension e r) as M1 by (intros e; by apply (misa_alike _ _ _ _ A1)).
  destruct (fp_init_reach f r r1 H M1) as (r2 & -> & A2); [rewrite !M1; exact Efs|]. cbn [mbind option_bind negb Z.eqb].
  assert (forall e, misa_extension e r2 = misa_extension e r) as M2 by (intros e; rewrite <- M1; by apply (misa_alike _ _ _ _ A2)).
  destruct (delegate_reach f r r2 H M2) as (r3 & v & -> & A3 & Hd). cbn [mbind option_bind negb Z.eqb]. exists r3, v. split; [done|]. split; [|split].
  - intros e. rewrite <- M2. by apply (misa_alike _ _ _ _ A3).
  - rewrite A3, A2; [exact Emie|..]; apply (bool_decide_unpack _); by vm_compute.
  - rewrite M2 in Hd. intros S83. split; [|by apply Hd]. rewrite A3, A2; [by apply Esatp|..]; apply (bool_decide_unpack _); by vm_compute.
Qed.

(** ** Handing over *)

(** The registers of the architecture, before anything is detected. *)
Record arch_csrs (r : regs) : Prop := {
  ac_always : forall c, c ∈ [Csr.MSTATUS; Csr.MIE; Csr.MIP; Csr.MEPC] -> csr_present hw c = true;
  ac_s : misa_extension 83 r = true -> forall c, c ∈ [Csr.SCOUNTEREN; Csr.SATP; Csr.MIDELEG; Csr.MEDELEG; Csr.STVEC; Csr.SSCRATCH; Csr.SIE] -> csr_present hw c = true;
  ac_fp : misa_extension 68 r || misa_extension 70 r = true -> csr_present hw Csr.FCSR = true /\ (forall i, 0 <= i < 32 -> csr_present hw (Csr.F0 + i) = true) /\
    forall v, Z.land v FS_MASK = FS_MASK -> Z.land (csr_legal hw Csr.MSTATUS v) FS_MASK <> 0;
  ac_n : misa_extension 78 r = true -> forall c, c ∈ [Csr.UTVEC; Csr.USCRATCH; Csr.UIE] -> csr_present hw c = true;
  ac_events : forall i, 0 <= i < 29 -> csr_present hw (Csr.MHPMCOUNTER3 + i) = true -> csr_present hw (Csr.MHPMEVENT3 + i) = true;
  ac_zero : forall c, c ∈ [Csr.MIE; Csr.SATP; Csr.SIE] -> csr_legal hw c 0 = 0;
  (** No bit of medeleg is read-only one, no machine interrupt can be delegated, and
      mstatus holds every mode the hart has. *)
  ac_medeleg : forall v i, Z.testbit (csr_legal hw Csr.MEDELEG v) i = true -> Z.testbit v i = true;
  ac_mideleg : forall v i, i ∈ [3; 7; 11] -> Z.testbit (csr_legal hw Csr.MIDELEG v) i = false;
  ac_mpp : forall v m, m = 3 \/ (m = 1 /\ misa_extension 83 r = true) \/ (m = 0 /\ misa_extension 85 r = true) ->
    Z.land v MPP_MASK = Z.shiftl m 11 -> Z.land (csr_legal hw Csr.MSTATUS v) MPP_MASK = Z.shiftl m 11;
  ac_mpie : forall v, Z.testbit v 7 = false -> Z.testbit (csr_legal hw Csr.MSTATUS v) 7 = false }.

(** The platform claims extensions only, and only such whose registers exist. *)
Record platform_ok : Prop := {
  po_rest : forall f, same_rest f (platform_extensions_init f).2;
  po_claims : forall f, (forall e, sbi_hart_has_extension f e = found_ext e) -> forall e c, (e, c) ∈ [(SBI_HART_EXT_SMEPMP, Csr.MSECCFG); (SBI_HART_EXT_ZKR, Csr.MSECCFG); (SBI_HART_EXT_SMSTATEEN, Csr.MSTATEEN0)] ->
    sbi_hart_has_extension (platform_extensions_init f).2 e = true -> csr_present hw c = true }.

Lemma found_has_csrs r f1 f' : arch_csrs r -> platform_ok -> (forall e, sbi_hart_has_extension f1 e = found_ext e) -> hart_found (platform_extensions_init f1).2 f' -> has_csrs f' r.
Proof.
  intros A P Hf1 F. split; try apply A.
  - rewrite (hf_version _ _ F). unfold found_version. destruct (csr_present hw Csr.MCOUNTEREN), (csr_present hw Csr.MCOUNTINHIBIT), (csr_present hw Csr.MENVCFG); by split_and!.
  - intros i Hi Hb. apply (ac_events r A i Hi). rewrite (hf_counters _ _ F) in Hb by lia. apply andb_true_iff in Hb as [_ Hb]. unfold counts in Hb.
    apply andb_true_iff in Hb as [Hb _]. by replace (Csr.MHPMCOUNTER3 + i) with (Csr.MCYCLE + (i + 3)) by (unfold Csr.MHPMCOUNTER3, Csr.MCYCLE; lia).
  - rewrite !(hf_ext _ _ F). split; intros H; eapply (po_claims P f1 Hf1); [|exact H| |exact H]; set_solver.
Qed.

(** Whether the hart has a mode. *)
Definition has_mode (m : Z) (r : regs) : bool := (m =? 3) || ((m =? 1) && misa_extension 83 r) || ((m =? 0) && misa_extension 85 r).

Lemma insert_bits val m (h v : bool) : m = 3 \/ m = 1 \/ m = 0 ->
  let x := INSERT_FIELD (INSERT_FIELD val MPP_MASK m) MPIE_MASK 0 in
  let x := if h then INSERT_FIELD x MPV_MASK (Z.b2z v) else x in
  Z.land x MPP_MASK = Z.shiftl m 11 /\ Z.testbit x 7 = false.
Proof.
  intros Hm x x'. split.
  - apply Z.bits_inj_iff'. intros i Hi. rewrite Z.land_spec. destruct (decide (i = 11 \/ i = 12)) as [Hi'|Hi'].
    + assert (Z.testbit MPP_MASK i = true) as -> by (by destruct Hi' as [-> | ->]). rewrite andb_true_r. unfold x', x, INSERT_FIELD.
      destruct Hi' as [-> | ->], Hm as [->|[->| ->]], h, v; rewrite ?Z.lor_spec, ?Z.land_spec, ?Z.lor_spec, ?Z.land_spec, ?Z.lor_spec, ?Z.land_spec;
        match goal with |- context [Z.testbit val ?k] => generalize (Z.testbit val k) end; intros []; by vm_compute.
    + assert (Z.testbit MPP_MASK i = false) as ->.
      { change MPP_MASK with (Z.shiftl (Z.ones 2) 11). rewrite Z.shiftl_spec by done. destruct (Z.ltb_spec i 11); [by rewrite Z.testbit_neg_r by lia|].
        apply Z.ones_spec_high. lia. }
      rewrite andb_false_r, Z.shiftl_spec by done. destruct (Z.ltb_spec i 11); [by rewrite Z.testbit_neg_r by lia|].
      symmetry. destruct Hm as [->|[->| ->]]; [apply (Z.ones_spec_high 2)|apply (Z.ones_spec_high 1)|apply Z.bits_0]; lia.
  - unfold x', x, INSERT_FIELD. destruct Hm as [->|[->| ->]], h, v; rewrite ?Z.lor_spec, ?Z.land_spec, ?Z.lor_spec, ?Z.land_spec, ?Z.lor_spec, ?Z.land_spec;
        generalize (Z.testbit val 7); intros []; by vm_compute.
Qed.

(** What the next stage finds when it is entered. *)
Record stage_entered (next_addr m : Z) (r : regs) : Prop := {
  en_pc : r Csr.MEPC = csr_legal hw Csr.MEPC next_addr;
  en_mode : Z.land (r Csr.MSTATUS) MPP_MASK = Z.shiftl m 11;
  en_irq : Z.testbit (r Csr.MSTATUS) 7 = false;
  en_s : m = 1 -> r Csr.SATP = 0 /\ r Csr.SIE = 0 /\ r Csr.STVEC = csr_legal hw Csr.STVEC next_addr }.

Definition switch_csrs : list Z := [Csr.MSTATUS; Csr.MEPC; Csr.STVEC; Csr.SSCRATCH; Csr.SIE; Csr.SATP; Csr.UTVEC; Csr.USCRATCH; Csr.UIE].

(** The state once mstatus and mepc are written. *)
Definition leaving (l : list Z) (next_addr m : Z) (r r' : regs) : Prop :=
  alike l r r' /\ r' Csr.MEPC = csr_legal hw Csr.MEPC next_addr /\ Z.land (r' Csr.MSTATUS) MPP_MASK = Z.shiftl m 11 /\ Z.testbit (r' Csr.MSTATUS) 7 = false.

Lemma leaving_write l addr m r r1 c v r2 : leaving l addr m r r1 -> wrote_csr c v r1 r2 -> bool_decide (c ∈ l /\ c <> Csr.MSTATUS /\ c <> Csr.MEPC) = true -> leaving l addr m r r2.
Proof.
  intros (Ha & He & Hm & Hi) [Hw _] (Hc & N1 & N2)%bool_decide_eq_true. split; [|split; [|split]].
  - eapply alike_trans; [exact Ha|]. eapply alike_sub; [exact Hw|]. by intros x ->%list_elem_of_singleton.
  - rewrite Hw; [done|]. by rewrite list_elem_of_singleton.
  - rewrite Hw; [done|]. by rewrite list_elem_of_singleton.
  - rewrite Hw; [done|]. by rewrite list_elem_of_singleton.
Qed.

Definition user_csrs : list Z := [Csr.MSTATUS; Csr.MEPC; Csr.UTVEC; Csr.USCRATCH; Csr.UIE].

Lemma leaving_start l r0 r addr m (h : bool) val : arch_csrs r0 -> bool_decide (Csr.MSTATUS ∈ l /\ Csr.MEPC ∈ l) = true -> has_mode m r0 = true ->
  val = (let x := INSERT_FIELD (INSERT_FIELD (r Csr.MSTATUS) MPP_MASK m) MPIE_MASK 0 in if h then INSERT_FIELD x MPV_MASK (Z.b2z false) else x) ->
  reaches (r1 ← hart_csr_write Csr.MSTATUS val r; hart_csr_write Csr.MEPC addr r1) (leaving l addr m r).
Proof.
  intros A (I1 & I2)%bool_decide_eq_true Hm ->. assert (m = 3 \/ (m = 1 /\ misa_extension 83 r0 = true) \/ (m = 0 /\ misa_extension 85 r0 = true)) as Hm'.
  { unfold has_mode in Hm. apply orb_true_iff in Hm as [[?%Z.eqb_eq|[?%Z.eqb_eq ?]%andb_true_iff]%orb_true_iff|[?%Z.eqb_eq ?]%andb_true_iff]; auto. }
  destruct (insert_bits (r Csr.MSTATUS) m h false) as [B1 B2]; [by destruct Hm' as [?|[[? _]|[? _]]]; auto|]. set (val := if h then _ else _) in *.
  eapply reaches_bind; [apply reaches_write, (ac_always r0 A); by left|]. intros r1 [A1 E1].
  eapply reaches_weaken; [apply reaches_write, (ac_always r0 A); by do 3 right; left|]. intros r2 [A2 E2].
  assert (r2 Csr.MSTATUS = csr_legal hw Csr.MSTATUS val) as E3 by (rewrite A2; [exact E1|by rewrite list_elem_of_singleton]). split; [|split; [done|rewrite E3; split]].
  - eapply alike_trans; eapply alike_sub; [exact A1| |exact A2|]; by intros c ->%list_elem_of_singleton.
  - by apply (ac_mpp r0 A).
  - by apply (ac_mpie r0 A).
Qed.

Lemma switch_mode_spec r0 r a0 a1 addr m : arch_csrs r0 -> (forall e, misa_extension e r = misa_extension e r0) ->
  if has_mode m r0 then exists r', sbi_hart_switch_mode a0 a1 addr m false r = Some (Mret a0 a1 r') /\ alike switch_csrs r r' /\ stage_entered addr m r' /\ (m <> 1 -> r' Csr.SATP = r Csr.SATP)
  else sbi_hart_switch_mode a0 a1 addr m false r = Some HartHang.
Proof.
  intros A HM. unfold sbi_hart_switch_mode. rewrite !HM.
  assert ((if m =? 3 then true else if m =? 1 then misa_extension 83 r0 else if m =? 0 then misa_extension 85 r0 else false) = has_mode m r0) as ->.
  { unfold has_mode. destruct (Z.eqb_spec m 3) as [->|]; [done|]. destruct (Z.eqb_spec m 1) as [->|]; [by rewrite orb_false_r|]. by destruct (Z.eqb_spec m 0). }
  destruct (has_mode m r0) eqn:Em; cbn [negb]; [|done]. unfold csr_read_allowed at 1. rewrite (ac_always r0 A) by by left. cbn [mbind option_bind]. cbv zeta.
  set (l := if m =? 1 then switch_csrs else user_csrs).
  destruct (leaving_start l r0 r addr m (misa_extension 72 r0) _ A ltac:(unfold l; by destruct (m =? 1)) Em eq_refl) as (r2 & E & L2). cbv zeta in E.
  destruct (hart_csr_write Csr.MSTATUS _ r) as [r1|]; [|done]. cbn [mbind option_bind] in E |- *. rewrite E. cbn [mbind option_bind].
  assert (forall r', leaving l addr m r r' -> (m = 1 -> r' Csr.SATP = 0 /\ r' Csr.SIE = 0 /\ r' Csr.STVEC = csr_legal hw Csr.STVEC addr) ->
    alike switch_csrs r r' /\ stage_entered addr m r' /\ (m <> 1 -> r' Csr.SATP = r Csr.SATP)) as Hent.
  { intros r' (Ha & ? & ? & ?) ?. split; [|split; [done|]].
    - unfold l in Ha. destruct (m =? 1); [done|]. eapply alike_sub; [exact Ha|]. intros c Hc. unfold user_csrs, switch_csrs in *. set_solver.
    - intros Hm. apply Ha. unfold l. rewrite (proj2 (Z.eqb_neq _ _) Hm). apply (bool_decide_unpack _). by vm_compute. }
  destruct (Z.eqb_spec m 1) as [->|N1].
  - assert (misa_extension 83 r0 = true) as S83 by (unfold has_mode in Em; cbn in Em; by rewrite orb_false_r in Em). pose proof (ac_s r0 A S83) as P.
    destruct (reaches_write Csr.STVEC addr r2) as (r3 & -> & W3); [apply P; set_solver|]. cbn [mbind option_bind].
    destruct (reaches_write Csr.SSCRATCH 0 r3) as (r4 & -> & W4); [apply P; set_solver|]. cbn [mbind option_bind].
    destruct (reaches_write Csr.SIE 0 r4) as (r5 & -> & W5); [apply P; set_solver|]. cbn [mbind option_bind].
    destruct (reaches_write Csr.SATP 0 r5) as (r6 & -> & W6); [apply P; set_solver|]. cbn [mbind option_bind].
    exists r6. split; [done|].
    assert (leaving l addr 1 r r6) as L6 by (eapply leaving_write; [eapply leaving_write; [eapply leaving_write; [eapply leaving_write; [exact L2|exact W3|done]|exact W4|done]|exact W5|done]|exact W6|done]).
    apply Hent; [exact L6|]. intros _. destruct W3 as [_ E3], W4 as [A4 _], W5 as [A5 E5], W6 as [A6 E6].
    split; [rewrite E6; apply (ac_zero r0 A); set_solver|]. split; [rewrite A6, E5 by (by rewrite list_elem_of_singleton); apply (ac_zero r0 A); set_solver|].
    by rewrite A6, A5, A4 by (by rewrite list_elem_of_singleton).
  - destruct (Z.eqb_spec m 0) as [->|N0]; [|exists r2; split; [done|by apply Hent]].
    rewrite (misa_alike _ _ _ _ (proj1 L2)), HM by done. destruct (misa_extension 78 r0) eqn:E78; cbn [only_if]; [|exists r2; split; [done|by apply Hent]].
    pose proof (ac_n r0 A E78) as P.
    destruct (reaches_write Csr.UTVEC addr r2) as (r3 & -> & W3); [apply P; set_solver|]. cbn [mbind option_bind].
    destruct (reaches_write Csr.USCRATCH 0 r3) as (r4 & -> & W4); [apply P; set_solver|]. cbn [mbind option_bind].
    destruct (reaches_write Csr.UIE 0 r4) as (r5 & -> & W5); [apply P; set_solver|]. cbn [mbind option_bind]. exists r5. split; [done|].
    assert (leaving l addr 0 r r5) as L5 by (eapply leaving_write; [eapply leaving_write; [eapply leaving_write; [exact L2|exact W3|done]|exact W4|done]|exact W5|done]).
    by apply Hent.
Qed.

Lemma arch_alike l r r' : arch_csrs r -> alike l r r' -> bool_decide (Csr.MISA ∈ l) = false -> arch_csrs r'.
Proof.
  intros A Ha Hl. assert (forall e, misa_extension e r' = misa_extension e r) as HM by (intros e; by apply (misa_alike _ _ _ _ Ha)).
  destruct A as [A1 A2 A3 A4 A5 A6 A7 A8 A9 A10]. split; rewrite ?HM; try done.
Qed.

(** What the supervisor's stage may rely on, and the firmware: paging off, the traps
    the firmware serves not delegated. *)
Record handed_over (r : regs) : Prop := {
  hd_mie : r Csr.MIE = 0;
  hd_s : misa_extension 83 r = true -> r Csr.SATP = 0 /\ (forall i, i ∈ [1; 2; 4; 5; 6; 7; 9; 11; 16; 19] -> Z.testbit (r Csr.MEDELEG) i = false) /\
    forall i, i ∈ [3; 7; 11] -> Z.testbit (r Csr.MIDELEG) i = false }.

(** C14: a hart is set up without a trap and handed over: with the registers the
    architecture gives it, whatever it lacks besides, the initialisation touches no
    missing register; when it succeeds machine interrupts are off, paging is off, and
    no trap the firmware serves (calls, illegal instructions, misaligned and denied
    accesses, machine interrupts) is delegated.  Then the next stage is entered at
    its address, in its mode, with its arguments, interrupts disabled and paging off,
    and with all that still in place; a mode the hart lacks makes it hang. *)
Theorem hart_hands_over offset cold g f r a0 a1 addr m : csr_laws -> settled r -> arch_csrs r -> platform_ok -> detected f = false -> length (extensions f) = 1%nat ->
  exists rc g' f' r', sbi_hart_init offset cold g f r = Some (rc, g', f', r') /\
    (rc = 0 -> handed_over r' /\
       if has_mode m r then exists r2, sbi_hart_switch_mode a0 a1 addr m false r' = Some (Mret a0 a1 r2) /\ stage_entered addr m r2 /\ handed_over r2
       else sbi_hart_switch_mode a0 a1 addr m false r' = Some HartHang).
Proof.
  intros L Hs A P Hd Hl. unfold sbi_hart_init. destruct (reaches_write Csr.MIP 0 r) as (r1 & E & W); [apply (ac_always r A); set_solver|].
  assert (settled r1) as S1 by (by eapply settled_write). rewrite E. cbn [mbind option_bind].
  destruct (cold && (offset =? 0)); [eexists _, _, _, _; split; [reflexivity|done]|]. set (g' := if cold then _ else _).
  assert (arch_csrs r1) as A1 by (eapply arch_alike; [exact A|apply W|done]).
  destruct (features_detected f r1 L S1 Hd Hl (po_rest P)) as (rc & f' & r2 & f1 & -> & A2 & Hf1 & Hres).
  { intros f0 H0. apply (po_claims P f0 H0 SBI_HART_EXT_SMEPMP). by left. }
  cbn [mbind option_bind]. destruct (Z.eqb_spec rc 0) as [->|Hrc]; cbn [negb]; [|by eexists _, _, _, _].
  assert (arch_csrs r2) as AA2 by (eapply arch_alike; [exact A1|exact A2|done]).
  assert (has_csrs f' r2) as HC.
  { destruct (platform_extensions_init f1) as [prc f2] eqn:Ep. pose proof (found_has_csrs r2 f1 f' AA2 P Hf1) as Hf. rewrite Ep in Hf. cbn in Hf.
    destruct (Z.eqb_spec prc 0) as [|Hp]; [by apply Hf, Hres|]. by destruct Hres as [<- _]. }
  destruct (reinit_reach f' r2 HC) as (r3 & v & -> & HM & Emie & Hsup). cbn [mbind option_bind]. exists 0, g', f', r3. split; [done|]. intros _.
  assert (handed_over r3) as H3.
  { split; [done|]. rewrite HM. intros S83. destruct (Hsup S83) as (? & Em & (i & Ei) & Hb & _). split; [done|]. split.
    - intros k Hk. destruct (Z.testbit (r3 Csr.MEDELEG) k) eqn:Eb; [|done]. rewrite Em in Eb. apply (ac_medeleg r A) in Eb. by rewrite Hb in Eb.
    - intros k Hk. rewrite Ei. by apply (ac_mideleg r A). }
  split; [exact H3|]. assert (forall e, misa_extension e r3 = misa_extension e r) as HM3.
  { intros e. rewrite HM. rewrite (misa_alike _ _ _ _ A2) by done. by apply (misa_alike _ _ _ _ (proj1 W)). }
  pose proof (switch_mode_spec r r3 a0 a1 addr m A HM3) as Hsw. destruct (has_mode m r) eqn:Em; [|exact Hsw].
  destruct Hsw as (r4 & -> & A4 & He & Hsa). exists r4. split; [done|]. split; [done|]. destruct H3 as [H31 H32].
  assert (Csr.MIE ∉ switch_csrs /\ Csr.MEDELEG ∉ switch_csrs /\ Csr.MIDELEG ∉ switch_csrs) as (N1 & N2 & N3) by (split_and!; apply (bool_decide_unpack _); by vm_compute).
  split; [by rewrite A4|]. rewrite (misa_alike _ _ _ _ A4), (A4 Csr.MEDELEG), (A4 Csr.MIDELEG) by done. intros S83. destruct (H32 S83) as (Hsatp & ? & ?). split; [|done].
  destruct (decide (m = 1)) as [->|Hm]; [by apply (en_s _ _ _ He)|by rewrite Hsa].
Qed.

(** C33: detection finds what the hart has, and never traps: it counts the protection
    registers up to the first that is missing or cannot hold what the first one can,
    with its granularity and width; it lists exactly the performance counters that
    count, the version by the registers it brought and the extensions by theirs, to
    which the platform adds the ones without registers; the time counter is believed
    only when it can be read.  All registers are left as they were except the three
    it clobbers.  A hart with machine-mode lockdown already on is refused. *)
Theorem hart_features_detected f r : csr_laws -> settled r -> detected f = false -> length (extensions f) = 1%nat ->
  (forall f, same_rest f (platform_extensions_init f).2) ->
  (forall f, (forall e, sbi_hart_has_extension f e = found_ext e) ->
     sbi_hart_has_extension (platform_extensions_init f).2 SBI_HART_EXT_SMEPMP = true -> csr_present hw Csr.MSECCFG = true) ->
  exists rc f' r' f1, hart_detect_features f r = Some (rc, f', r') /\ alike clobbered r r' /\ (forall e, sbi_hart_has_extension f1 e = found_ext e) /\
    let '(prc, f2) := platform_extensions_init f1 in
    if prc =? 0 then
      rc = (if sbi_hart_has_extension f2 SBI_HART_EXT_SMEPMP && Z.testbit (r' Csr.MSECCFG) 0 then SBI_EILL else 0) /\ hart_found f2 f'
    else rc = prc /\ f' = f2.
Proof. apply features_detected. Qed.


End HartInit.

(** ** A hart *)

(** A 64-bit hart with modes S and U and floating point, sixteen protection registers
    of granularity 4096, four counters, a time counter and version 1.12. *)
Definition demo_present (c : Z) : bool :=
  bool_decide (c ∈ [Csr.FCSR; Csr.SIE; Csr.STVEC; Csr.SCOUNTEREN; Csr.SSCRATCH; Csr.SATP; Csr.MSTATUS; Csr.MISA; Csr.MEDELEG; Csr.MIDELEG; Csr.MIE; Csr.MCOUNTEREN;
    Csr.MENVCFG; Csr.MCOUNTINHIBIT; Csr.MEPC; Csr.MIP; Csr.PMPCFG0; Csr.TIME; Csr.MCYCLE]) ||
  ((Csr.PMPADDR0 <=? c) && (c <? Csr.PMPADDR0 + 16)) || ((Csr.MHPMCOUNTER3 <=? c) && (c <? Csr.MHPMCOUNTER3 + 4)) ||
  ((Csr.MHPMEVENT3 <=? c) && (c <? Csr.MHPMEVENT3 + 4)) || ((Csr.F0 <=? c) && (c <? Csr.F0 + 32)).

Definition demo_mask (c : Z) : Z :=
  if (Csr.PMPADDR0 <=? c) && (c <? Csr.PMPADDR0 + 16) then 2 ^ 54 - 2 ^ 10
  else if c =? Csr.MIDELEG then 0x222 else 2 ^ 64 - 1.

Definition demo_csrs : csr_impl := mkImpl demo_present (fun c v => Z.land v (demo_mask c)).

(** All registers zero, IMAFDC with S and U in misa. *)
Definition demo_hart_regs : regs := fun c => if c =? Csr.MISA then 0x14112d else 0.
Definition demo_hart_features : sbi_hart_features := mkFeat false 0 [0] 0 0 0 0 0.
Definition demo_platform (f : sbi_hart_features) : Z * sbi_hart_features := (0, f).

Lemma demo_wmask_ok c : word_ok (demo_mask c).
Proof. unfold demo_mask, word_ok. destruct (_ && _); [lia|]. destruct (_ =? _); lia. Qed.

Lemma demo_land_word v m : word_ok m -> word_ok (Z.land v m).
Proof.
  intros [H1 H2]. split; [apply Z.land_nonneg; by right|]. rewrite <- (Z.mod_small m (2 ^ 64)) by lia. rewrite <- Z.land_ones by lia.
  rewrite Z.land_assoc, Z.land_ones by lia. by apply Z.mod_pos_bound.
Qed.

Lemma demo_laws : csr_laws demo_csrs.
Proof. split; intros c v; cbn [csr_legal demo_csrs]; [by rewrite <- Z.land_assoc, Z.land_diag|apply demo_land_word, demo_wmask_ok]. Qed.

Lemma demo_settled : settled demo_csrs demo_hart_regs.
Proof.
  intros c _. cbn [csr_legal demo_csrs]. unfold demo_hart_regs. destruct (Z.eqb_spec c Csr.MISA) as [->|]; [by vm_compute|apply Z.land_0_l].
Qed.

(** Membership in a list of registers, one by one. *)
Ltac each_csr H := repeat (apply elem_of_cons in H as [->|H]; [by vm_compute|]); by apply elem_of_nil in H.

Lemma demo_mstatus v : csr_legal demo_csrs Csr.MSTATUS v = Z.land v (2 ^ 64 - 1).
Proof. done. Qed.

Lemma demo_arch : arch_csrs demo_csrs (fun _ => 0) demo_hart_regs.
Proof.
  split.
  - intros c H. each_csr H.
  - intros _ c H. each_csr H.
  - intros _. split; [by vm_compute|]. split.
    + intros i Hi. cbn [csr_present demo_csrs]. unfold demo_present. apply orb_true_iff. right. unfold Csr.F0. lia.
    + intros v Hv. rewrite demo_mstatus, <- Z.land_assoc. change (Z.land (2 ^ 64 - 1) FS_MASK) with FS_MASK. by rewrite Hv.
  - by vm_compute.
  - intros i Hi. cbn [csr_present demo_csrs]. assert (i < 4 \/ 4 <= i) as [H|H] by lia.
    + intros _. unfold demo_present. rewrite orb_true_iff. left. rewrite orb_true_iff. right. apply andb_true_iff. split; [apply Z.leb_le|apply Z.ltb_lt]; lia.
    + intros Hp. assert (demo_present (Csr.MHPMCOUNTER3 + i) = false) as E; [|congruence]. unfold demo_present. rewrite bool_decide_eq_false_2; [unfold Csr.PMPADDR0, Csr.MHPMCOUNTER3, Csr.MHPMEVENT3, Csr.F0; lia|].
      intros Hin. assert (Forall (fun x => x < Csr.MHPMCOUNTER3 + 4 \/ Csr.MHPMCOUNTER3 + 29 <= x) [Csr.FCSR; Csr.SIE; Csr.STVEC; Csr.SCOUNTEREN; Csr.SSCRATCH; Csr.SATP; Csr.MSTATUS; Csr.MISA;
        Csr.MEDELEG; Csr.MIDELEG; Csr.MIE; Csr.MCOUNTEREN; Csr.MENVCFG; Csr.MCOUNTINHIBIT; Csr.MEPC; Csr.MIP; Csr.PMPCFG0; Csr.TIME; Csr.MCYCLE]) as Hf.
      { apply (bool_decide_unpack _). by vm_compute. }
      rewrite Forall_forall in Hf. specialize (Hf _ Hin). lia.
  - intros c H. each_csr H.
  - intros v i. cbn [csr_legal demo_csrs]. rewrite Z.land_spec. by intros [? _]%andb_true_iff.
  - intros v i H. cbn [csr_legal demo_csrs]. rewrite Z.land_spec. assert (Z.testbit (demo_mask Csr.MIDELEG) i = false) as ->; [|apply andb_false_r]. each_csr H.
  - intros v m _ H. by rewrite demo_mstatus, <- Z.land_assoc.
  - intros v H. rewrite demo_mstatus, Z.land_spec. by rewrite H.
Qed.

Lemma demo_platform_ok : platform_ok demo_csrs demo_platform.
Proof.
  split; [done|]. intros f Hf e c H Hc. cbn in Hc. rewrite Hf in Hc.
  repeat (apply elem_of_cons in H as [[= -> ->]|H]; [vm_compute in Hc; done|]); by apply elem_of_nil in H.
Qed.

(** Sixteen protection registers of 54 bits and granularity 4096, counters 3 to 6. *)
Lemma hart_features_detected_witness : exists f' r', hart_detect_features demo_csrs demo_platform demo_hart_features demo_hart_regs = Some (0, f', r') /\
  alike clobbered demo_hart_regs r' /\ pmp_count f' = 16 /\ pmp_log2gran f' = 12 /\ mhpm_mask f' = 0x78 /\ priv_version f' = SBI_HART_PRIV_VER_1_12.
Proof.
  destruct (hart_features_detected demo_csrs demo_platform demo_hart_features demo_hart_regs demo_laws demo_settled eq_refl eq_refl (po_rest _ _ demo_platform_ok)
    (fun f Hf => po_claims _ _ demo_platform_ok f Hf _ _ (list_elem_of_here _ _))) as (rc & f' & r' & f1 & E & Ha & _ & _).
  exists f', r'. assert (rc = 0 /\ pmp_count f' = 16 /\ pmp_log2gran f' = 12 /\ mhpm_mask f' = 0x78 /\ priv_version f' = SBI_HART_PRIV_VER_1_12) as (-> & H).
  { vm_compute in E. injection E as <- <- _. vm_compute. done. }
  split; [exact E|]. split; [exact Ha|exact H].
Defined.

(** It enters the supervisor at 0x80200000. *)
Lemma hart_hands_over_witness : exists g' f' r' r2, sbi_hart_init demo_csrs (fun _ => 0) demo_platform false 0 0x100 true (mkHG false 0) demo_hart_features demo_hart_regs = Some (0, g', f', r') /\
  sbi_hart_switch_mode demo_csrs (fun _ => 0) 0 7 0x80200000 1 false r' = Some (Mret 0 7 r2) /\ stage_entered demo_csrs 0x80200000 1 r2 /\ r2 Csr.SATP = 0.
Proof.
  destruct (hart_hands_over demo_csrs (fun _ => 0) demo_platform false 0 0x100 true (mkHG false 0) demo_hart_features demo_hart_regs 0 7 0x80200000 1
    demo_laws demo_settled demo_arch demo_platform_ok eq_refl eq_refl) as (rc & g' & f' & r' & E & H).
  assert (rc = 0) as -> by (vm_compute in E; by injection E as <-). destruct (H eq_refl) as [_ (r2 & Hsw & He & _)].
  exists g', f', r', r2. split; [exact E|]. split; [exact Hsw|]. split; [exact He|apply (en_s _ _ _ _ He eq_refl)].
Defined.
