(* ===== verification/SbiSystem.v ===== *)
(** * System reset and suspend, performance control, the interrupt controllers
    (lib/sbi/sbi_system.c, sbi_cppc.c, sbi_irqchip.c and their calls)

    Devices are records of callbacks; a NULL callback is [None].  What a reset does is
    the list of its calls, each of which may not return. *)

From S2P Require Import Prelude SbiBitops SbiScratch SbiHartmask SbiMemregion SbiDomain SbiHsm SbiTrap.

(** ** Reset *)

(** A device by its address and its check. *)
Record sbi_system_reset_device := mkRd { rd_addr : Z; system_reset_check : option (Z -> Z -> Z) }.

Fixpoint reset_loop (l : list sbi_system_reset_device) (reset_type reset_reason : Z) (reset_dev : option sbi_system_reset_device) (priority : Z)
    : option sbi_system_reset_device :=
  match l with
  | [] => reset_dev
  | dev :: l =>
      match system_reset_check dev with
      | Some check =>
          let status := check reset_type reset_reason in
          if status =? 0 then reset_loop l reset_type reset_reason reset_dev priority
          else if priority <? status then reset_loop l reset_type reset_reason (Some dev) status
          else reset_loop l reset_type reset_reason reset_dev priority
      | None => reset_loop l reset_type reset_reason reset_dev priority
      end
  end.

Definition sbi_system_reset_get_device (l : list sbi_system_reset_device) (reset_type reset_reason : Z) : option sbi_system_reset_device :=
  reset_loop l reset_type reset_reason None 0.

Definition sbi_system_reset_add_device (dev : option sbi_system_reset_device) (l : list sbi_system_reset_device) : list sbi_system_reset_device :=
  match dev with
  | Some dev => match system_reset_check dev with Some _ => dev :: l | None => l end
  | None => l
  end.

Definition sbi_system_reset_supported (l : list sbi_system_reset_device) (reset_type reset_reason : Z) : bool :=
  bool_decide (is_Some (sbi_system_reset_get_device l reset_type reset_reason)).

Inductive reset_event :=
  | EvHaltOthers (hmask hbase : Z)
  | EvDevice (dev : Z) (reset_type reset_reason : Z)
  | EvExit.

(** [d] is the domain of the hart, at [thisdom]. *)
Definition sbi_system_reset (l : list sbi_system_reset_device) (thisdom : Z) (d : sbi_domain) (reset_type reset_reason : Z) (h : hart) : list reset_event * hart :=
  let h := (sbi_hsm_hart_stop thisdom false h).2 in
  ([EvHaltOthers 0 ULONG_MAX] ++
   (if system_reset_allowed d then
      match sbi_system_reset_get_device l reset_type reset_reason with
      | Some dev => [EvDevice (rd_addr dev) reset_type reset_reason]
      | None => []
      end
    else []) ++ [EvExit], h).

(** The calls of a reset, or what the handler returns. *)
Definition sbi_ecall_srst_handler (l : list sbi_system_reset_device) (thisdom : Z) (d : sbi_domain) (funcid a0 a1 : Z) (h : hart) : (list reset_event + Z) * hart :=
  if funcid =? 0 then
    if (2 ^ 32 - 1 <=? a0) || (2 ^ 32 - 1 <=? a1) then (inr SBI_EINVAL, h)
    else if negb ((a0 =? 0) || (a0 =? 1) || (a0 =? 2)) then (inr SBI_EINVAL, h)
    else if negb ((a1 =? 0) || (a1 =? 1)) then (inr SBI_EINVAL, h)
    else if sbi_system_reset_supported l (u32 a0) (u32 a1) then
      let '(evs, h) := sbi_system_reset l thisdom d (u32 a0) (u32 a1) h in (inl evs, h)
    else (inr SBI_ENOTSUPP, h)
  else (inr SBI_ENOTSUPP, h).

(** The types 0 to 2. *)
Definition srst_available (l : list sbi_system_reset_device) : bool :=
  sbi_system_reset_supported l 0 0 || sbi_system_reset_supported l 1 0 || sbi_system_reset_supported l 2 0.

(** ** Suspend *)

(** [system_suspend] is [None] when the call does not return. *)
Record sbi_system_suspend_device := mkSd {
  system_suspend_check : option (Z -> Z);
  system_suspend : option (Z -> Z -> option Z) }.

Definition sbi_system_suspend_set_device (dev suspend_dev : option sbi_system_suspend_device) : option sbi_system_suspend_device :=
  match dev, suspend_dev with
  | Some _, None => dev
  | _, _ => suspend_dev
  end.

Definition sbi_system_suspend_test_check (sleep_type : Z) : Z := if sleep_type =? 0 then 0 else SBI_EINVAL.

(** It waits five seconds and for an interrupt. *)
Definition sbi_system_suspend_test_suspend (sleep_type mmode_resume_addr : Z) : option Z :=
  if negb (sleep_type =? 0) then Some SBI_EINVAL else Some SBI_OK.

Definition sbi_system_suspend_test : sbi_system_suspend_device :=
  mkSd (Some sbi_system_suspend_test_check) (Some sbi_system_suspend_test_suspend).

Definition sbi_system_suspend_test_enable (suspend_dev : option sbi_system_suspend_device) : option sbi_system_suspend_device :=
  sbi_system_suspend_set_device (Some sbi_system_suspend_test) suspend_dev.

Definition sbi_system_suspend_supported (suspend_dev : option sbi_system_suspend_device) (sleep_type : Z) : bool :=
  match suspend_dev with
  | Some dev => match system_suspend_check dev with Some check => check sleep_type =? 0 | None => false end
  | None => false
  end.

(** The loop over the assigned harts: whether all others are stopped. *)
Fixpoint others_stopped (w : hsm_world) (hartindex : Z) (l : list Z) : bool :=
  match l with
  | [] => true
  | i :: l =>
      if i =? hartindex then others_stopped w hartindex l
      else if negb (hsm_hart_get_state w i =? SBI_HSM_STATE_STOPPED) then false
      else others_stopped w hartindex l
  end.

Section Suspend.
Variables (priv_1_12 : bool) (suspend_dev : option sbi_system_suspend_device) (ds : domain_state) (w : hsm_world) (hartindex thisdom : Z).

Definition sbi_system_suspend (mstatus sleep_type resume_addr opaque : Z) (h : hart) : option (outcome * hart) :=
  match domains ds !! thisdom with
  | None => Some (ORet SBI_EFAIL, h)
  | Some dom =>
      if negb (system_suspend_allowed dom) then Some (ORet SBI_EFAIL, h)
      else
        match suspend_dev with
        | Some (mkSd (Some check) (Some suspend)) =>
            let ret := check sleep_type in
            if negb (ret =? SBI_OK) then Some (ORet ret, h)
            else
              let prev_mode := sbi_mstatus_prev_mode mstatus in
              if negb (prev_mode =? PRV_S) && negb (prev_mode =? PRV_U) then Some (ORet SBI_EFAIL, h)
              else
                harts ← sbi_hartmask_for_each_hartindex (assigned_harts dom);
                if negb (others_stopped w hartindex harts) then Some (ORet SBI_EDENIED, h)
                else if negb (sbi_domain_check_addr (Some dom) resume_addr prev_mode SBI_DOMAIN_EXECUTE) then Some (ORet SBI_EINVALID_ADDR, h)
                else
                  let '(ok, h) := sbi_hsm_hart_change_state SBI_HSM_STATE_STARTED SBI_HSM_STATE_SUSPENDED h in
                  if negb ok then Some (ORet SBI_EFAIL, h)
                  else
                    let h := set_next opaque resume_addr prev_mode h in
                    let h := hsm_suspend_non_ret_save priv_1_12 h in
                    match suspend sleep_type (warmboot_addr h) with
                    | None => Some (OWarmboot (warmboot_addr h), h)
                    | Some ret =>
                        if negb (ret =? SBI_OK) then
                          let '(ok, h) := sbi_hsm_hart_change_state SBI_HSM_STATE_SUSPENDED SBI_HSM_STATE_STARTED h in
                          if negb ok then Some (OHang, h) else Some (ORet ret, h)
                        else Some (OWarmboot (warmboot_addr h), h)
                    end
        | _ => Some (ORet SBI_EFAIL, h)
        end
  end.

(** Where the hart goes, or the code and [out->value] returned. *)
Definition sbi_ecall_susp_handler (mstatus funcid a0 a1 a2 value : Z) (h : hart) : option ((outcome + Z * Z) * hart) :=
  '(o, h) ← (if funcid =? 0 then sbi_system_suspend mstatus (u32 a0) a1 a2 h else Some (ORet SBI_ENOTSUPP, h));
  match o with
  | ORet ret => Some (inr (if 0 <=? ret then (0, ret) else (ret, value)), h)
  | o => Some (inl o, h)
  end.

End Suspend.

Definition susp_available (suspend_dev : option sbi_system_suspend_device) : bool := sbi_system_suspend_supported suspend_dev 0.

(** ** Collaborative performance control *)

Section Cppc.
(** The state of the device, and [int] and [uint64_t] results. *)
Context {D : Type}.

Record sbi_cppc_device := mkCppc {
  cppc_probe : option (Z -> D -> Z);
  cppc_read : option (Z -> D -> Z * option Z * D);
  cppc_write : option (Z -> Z -> D -> Z * D) }.

Definition SBI_CPPC_ACPI_LAST : Z := 0x14.
Definition SBI_CPPC_TRANSITION_LATENCY : Z := 0x80000000.
Definition SBI_CPPC_NON_ACPI_LAST : Z := SBI_CPPC_TRANSITION_LATENCY.

Definition sbi_cppc_set_device (dev cppc_dev : option sbi_cppc_device) : option sbi_cppc_device :=
  match dev, cppc_dev with
  | Some _, None => dev
  | _, _ => cppc_dev
  end.

Definition sbi_cppc_is_reserved (reg : Z) : bool :=
  ((SBI_CPPC_ACPI_LAST <? reg) && (reg <? SBI_CPPC_TRANSITION_LATENCY)) || (SBI_CPPC_NON_ACPI_LAST <? reg).

Definition sbi_cppc_readable (reg : Z) : bool := true.

(** The registers that are read only. *)
Definition sbi_cppc_writable (reg : Z) : bool :=
  negb (bool_decide (reg ∈ [0x00; 0x01; 0x02; 0x03; 0x04; 0x0A; 0x0B; 0x0C; 0x12; 0x13; 0x14; SBI_CPPC_TRANSITION_LATENCY])).

Variable cppc_dev : option sbi_cppc_device.

Definition sbi_cppc_probe (reg : Z) (s : D) : Z :=
  match cppc_dev with
  | Some (mkCppc (Some probe) _ _) => if sbi_cppc_is_reserved reg then SBI_EINVAL else probe reg s
  | _ => SBI_EFAIL
  end.

(** The second result is what is stored in [*val], if anything. *)
Definition sbi_cppc_read (reg : Z) (s : D) : Z * option Z * D :=
  match cppc_dev with
  | Some (mkCppc _ (Some read) _) =>
      let ret := sbi_cppc_probe reg s in
      if ret <=? 0 then (SBI_ENOTSUPP, None, s)
      else if negb (sbi_cppc_readable reg) then (SBI_EDENIED, None, s)
      else read reg s
  | _ => (SBI_EFAIL, None, s)
  end.

Definition sbi_cppc_write (reg val : Z) (s : D) : Z * D :=
  match cppc_dev with
  | Some (mkCppc _ _ (Some write)) =>
      let ret := sbi_cppc_probe reg s in
      if ret <=? 0 then (SBI_ENOTSUPP, s)
      else if negb (sbi_cppc_writable reg) then (SBI_EDENIED, s)
      else write reg val s
  | _ => (SBI_EFAIL, s)
  end.

(** [temp] is what the variable of that name holds before it is written. *)
Definition sbi_ecall_cppc_handler (temp funcid a0 a1 value : Z) (s : D) : Z * Z * D :=
  if funcid =? 1 then let '(ret, v, s) := sbi_cppc_read a0 s in (ret, default temp v, s)
  else if funcid =? 2 then (0, 0, s)
  else if funcid =? 3 then let '(ret, s) := sbi_cppc_write a0 a1 s in (ret, value, s)
  else if funcid =? 0 then let ret := sbi_cppc_probe a0 s in if 0 <=? ret then (0, ret, s) else (ret, value, s)
  else (SBI_ENOTSUPP, value, s).

End Cppc.

(** ** Interrupt controllers *)

Section Irqchip.
(** The state of the devices, on which [irq_handle] and [warm_init] work. *)
Context {D : Type}.

Record sbi_irqchip_device := mkIrq { warm_init : option (D -> Z * D); irq_handle : option (D -> Z * D) }.

(** [None] for the handler is [default_irqfn]; [irq_mie] is the register mie. *)
Record irqchips := mkChips { irqchip_list : list sbi_irqchip_device; ext_irqfn : option (D -> Z * D); irq_mie : Z; irq_dev : D }.

Definition sbi_irqchip_process (s : irqchips) : Z * irqchips :=
  match ext_irqfn s with
  | None => (SBI_ENODEV, s)
  | Some f => let '(rc, d) := f (irq_dev s) in (rc, mkChips (irqchip_list s) (ext_irqfn s) (irq_mie s) d)
  end.

Definition sbi_irqchip_add_device (dev : sbi_irqchip_device) (s : irqchips) : irqchips :=
  mkChips (irqchip_list s ++ [dev]) (match irq_handle dev with Some f => Some f | None => ext_irqfn s end) (irq_mie s) (irq_dev s).

Fixpoint warm_loop (l : list sbi_irqchip_device) (d : D) : Z * D :=
  match l with
  | [] => (0, d)
  | dev :: l =>
      match warm_init dev with
      | None => warm_loop l d
      | Some f => let '(rc, d) := f d in if negb (rc =? 0) then (rc, d) else warm_loop l d
      end
  end.

(** The platform adds its devices on the cold boot. *)
Definition sbi_irqchip_init (sbi_platform_irqchip_init : irqchips -> Z * irqchips) (cold_boot : bool) (s : irqchips) : Z * irqchips :=
  let '(rc, s) := if cold_boot then sbi_platform_irqchip_init s else (0, s) in
  if negb (rc =? 0) then (rc, s)
  else
    let '(rc, d) := warm_loop (irqchip_list s) (irq_dev s) in
    let s := mkChips (irqchip_list s) (ext_irqfn s) (irq_mie s) d in
    if negb (rc =? 0) then (rc, s)
    else (0, mkChips (irqchip_list s) (ext_irqfn s) (match ext_irqfn s with Some _ => Z.lor (irq_mie s) MIP_MEIP | None => irq_mie s end) (irq_dev s)).

Definition sbi_irqchip_exit (s : irqchips) : irqchips :=
  mkChips (irqchip_list s) (ext_irqfn s) (match ext_irqfn s with Some _ => Z.land (irq_mie s) (not64 MIP_MEIP) | None => irq_mie s end) (irq_dev s).

End Irqchip.

(** ** Reset: the device with the highest priority *)

Definition priority_of (reset_type reset_reason : Z) (dev : sbi_system_reset_device) : Z :=
  match system_reset_check dev with Some check => check reset_type reset_reason | None => 0 end.

Lemma reset_loop_spec l t r best p : 0 <= p ->
  (forall d, best = Some d -> priority_of t r d = p) ->
  match reset_loop l t r best p with
  | Some dev => (best = Some dev /\ forall d, d ∈ l -> priority_of t r d <= p) \/
      (exists pre post, l = pre ++ dev :: post /\ p < priority_of t r dev /\
        (forall d, d ∈ pre -> priority_of t r d < priority_of t r dev) /\ forall d, d ∈ post -> priority_of t r d <= priority_of t r dev)
  | None => best = None /\ forall d, d ∈ l -> priority_of t r d <= p
  end.
Proof.
  intros Hp. revert best p Hp. induction l as [|dev l IH]; intros best p Hp Hb; cbn [reset_loop].
  { destruct best as [d|]; [left|]; split; try done; intros d' H; by apply elem_of_nil in H. }
  assert (forall best' p', 0 <= p' -> (forall d, best' = Some d -> priority_of t r d = p') ->
    (best' = best /\ p' = p /\ priority_of t r dev <= p) \/ (best' = Some dev /\ p < p' /\ p' = priority_of t r dev) ->
    match reset_loop l t r best' p' with
    | Some dev' => (best = Some dev' /\ forall d, d ∈ dev :: l -> priority_of t r d <= p) \/
        (exists pre post, dev :: l = pre ++ dev' :: post /\ p < priority_of t r dev' /\
          (forall d, d ∈ pre -> priority_of t r d < priority_of t r dev') /\ forall d, d ∈ post -> priority_of t r d <= priority_of t r dev')
    | None => best = None /\ forall d, d ∈ dev :: l -> priority_of t r d <= p
    end) as Hstep.
  { intros best' p' Hp' Hb' Hcase. specialize (IH best' p' Hp' Hb'). destruct (reset_loop l t r best' p') as [dev'|].
    - destruct IH as [[E Hall]|(pre & post & -> & Hlt & Hpre & Hpost)].
      + destruct Hcase as [(-> & -> & Hle)|(-> & Hlt & ->)].
        * left. split; [done|]. intros d [->|Hd]%elem_of_cons; [done|by apply Hall].
        * injection E as <-. right. exists [], l. split_and!; try done. intros d Hd. by apply elem_of_nil in Hd.
      + right. exists (dev :: pre), post. split; [done|]. destruct Hcase as [(-> & -> & Hle)|(-> & Hlt' & Ep)].
        * split; [done|]. split; [|done]. intros d [->|Hd]%elem_of_cons; [lia|by apply Hpre].
        * split; [lia|]. split; [|done]. intros d [->|Hd]%elem_of_cons; [lia|by apply Hpre].
    - destruct IH as [E Hall]. destruct Hcase as [(-> & -> & Hle)|(-> & _)]; [|done]. split; [done|]. intros d [->|Hd]%elem_of_cons; [done|by apply Hall]. }
  destruct (system_reset_check dev) as [check|] eqn:Ec; [|apply Hstep; [done|done|left; split_and!; [done|done|unfold priority_of; rewrite Ec; lia]]].
  assert (priority_of t r dev = check t r) as Epr by (unfold priority_of; by rewrite Ec).
  destruct (Z.eqb_spec (check t r) 0) as [E0|E0]; [apply Hstep; [done|done|left; split_and!; [done|done|lia]]|].
  destruct (Z.ltb_spec p (check t r)); apply Hstep; try done; try lia; [by intros d [= <-]|right; split_and!; [done|lia|done]|left; split_and!; [done|done|lia]].
Qed.

(** A reset is done by the first of the devices with the highest priority, and is
    supported when one has a positive priority at all. *)
Lemma reset_device_best l t r :
  match sbi_system_reset_get_device l t r with
  | Some dev => dev ∈ l /\ 0 < priority_of t r dev /\ forall d, d ∈ l -> priority_of t r d <= priority_of t r dev
  | None => forall d, d ∈ l -> priority_of t r d <= 0
  end.
Proof.
  pose proof (reset_loop_spec l t r None 0 ltac:(lia) ltac:(done)) as H. unfold sbi_system_reset_get_device.
  destruct (reset_loop l t r None 0) as [dev|]; [|apply H]. destruct H as [[? _]|(pre & post & -> & Hlt & Hpre & Hpost)]; [done|].
  split; [apply elem_of_app; right; left|]. split; [done|]. intros d [Hd|[->|Hd]%elem_of_cons]%elem_of_app; [specialize (Hpre d Hd); lia|lia|by apply Hpost].
Qed.

(** ** Suspend *)

Lemma others_stopped_spec w self l : others_stopped w self l = true <-> forall i, i ∈ l -> i <> self -> hsm_hart_get_state w i = SBI_HSM_STATE_STOPPED.
Proof.
  induction l as [|i l IH]; cbn [others_stopped]; [split; [intros _ i Hi; by apply elem_of_nil in Hi|done]|].
  destruct (Z.eqb_spec i self) as [->|Hn].
  - rewrite IH. split; intros H j; [intros [->|Hj]%elem_of_cons Hs; [done|by apply H]|intros Hj; apply H; by right].
  - destruct (Z.eqb_spec (hsm_hart_get_state w i) SBI_HSM_STATE_STOPPED) as [E|E]; cbn [negb].
    + rewrite IH. split; intros H j; [intros [->|Hj]%elem_of_cons Hs; [done|by apply H]|intros Hj; apply H; by right].
    + split; [done|]. intros H. destruct E. apply H; [left|done].
Qed.

Section SuspendSpec.
Variables (priv : bool) (sd : option sbi_system_suspend_device) (ds : domain_state) (w : hsm_world) (self thisdom : Z).

(** What a suspend needs: the domain, the device, the mode, every other hart of the
    domain stopped, and an address the supervisor may execute. *)
Record susp_allowed (mstatus sleep_type resume_addr : Z) (dom : sbi_domain) (suspend : Z -> Z -> option Z) : Prop := {
  sa_dom : domains ds !! thisdom = Some dom /\ system_suspend_allowed dom = true;
  sa_dev : exists check, sd = Some (mkSd (Some check) (Some suspend)) /\ check sleep_type = 0;
  sa_mode : sbi_mstatus_prev_mode mstatus = PRV_S \/ sbi_mstatus_prev_mode mstatus = PRV_U;
  sa_others : forall i, mask_has (assigned_harts dom) i = true -> i <> self -> hsm_hart_get_state w i = SBI_HSM_STATE_STOPPED;
  sa_addr : sbi_domain_check_addr (Some dom) resume_addr (sbi_mstatus_prev_mode mstatus) SBI_DOMAIN_EXECUTE = true }.

(** The device sleeps: it does not return, or returns success. *)
Definition sleeps (r : option Z) : Prop := r = None \/ r = Some 0.

Definition suspended_hart (mstatus resume_addr opaque : Z) (h : hart) : hart :=
  hsm_suspend_non_ret_save priv (set_next opaque resume_addr (sbi_mstatus_prev_mode mstatus) (set_state SBI_HSM_STATE_SUSPENDED h)).

Lemma suspended_resumes mstatus resume_addr opaque hartid h c2 :
  let h1 := suspended_hart mstatus resume_addr opaque h in
  exists h2 h3, sbi_hsm_hart_resume_start (mkHart (hdata h1) (h_arg1 h1) (h_addr h1) (h_mode h1) (warmboot_addr h1) c2) = (None, h2) /\
    sbi_hsm_hart_resume_finish priv hartid h2 = (OSwitch hartid opaque resume_addr (sbi_mstatus_prev_mode mstatus), h3) /\
    hstate h3 = SBI_HSM_STATE_STARTED /\ ticket h3 = ticket h /\ mie (h_csrs h3) = mie (h_csrs h) /\ medeleg (h_csrs h3) = medeleg (h_csrs h).
Proof. eexists _, _. split; [reflexivity|]. split; [reflexivity|]. done. Qed.

Lemma suspend_cases mstatus st addr opaque h :
  (forall dom, domains ds !! thisdom = Some dom -> mask_ok (assigned_harts dom)) ->
  (exists dom suspend, susp_allowed mstatus st addr dom suspend /\ hstate h = SBI_HSM_STATE_STARTED /\ sleeps (suspend st (warmboot_addr h)) /\
     sbi_system_suspend priv sd ds w self thisdom mstatus st addr opaque h = Some (OWarmboot (warmboot_addr h), suspended_hart mstatus addr opaque h)) \/
  (~ (exists dom suspend, susp_allowed mstatus st addr dom suspend /\ hstate h = SBI_HSM_STATE_STARTED /\ sleeps (suspend st (warmboot_addr h))) /\
     exists rc h', sbi_system_suspend priv sd ds w self thisdom mstatus st addr opaque h = Some (ORet rc, h') /\ rc <> 0 /\
       hstate h' = hstate h /\ ticket h' = ticket h /\ h_csrs h' = h_csrs h).
Proof.
  intros Hmask. unfold sbi_system_suspend.
  assert (forall rc, rc <> 0 -> ~ (exists dom suspend, susp_allowed mstatus st addr dom suspend /\ hstate h = SBI_HSM_STATE_STARTED /\ sleeps (suspend st (warmboot_addr h))) ->
    ~ (exists dom suspend, susp_allowed mstatus st addr dom suspend /\ hstate h = SBI_HSM_STATE_STARTED /\ sleeps (suspend st (warmboot_addr h))) /\
    exists rc' h', Some (ORet rc, h) = Some (ORet rc', h') /\ rc' <> 0 /\ hstate h' = hstate h /\ ticket h' = ticket h /\ h_csrs h' = h_csrs h) as Herr.
  { intros rc Hrc Hno. split; [done|]. by eexists _, _. }
  destruct (domains ds !! thisdom) as [dom|] eqn:Ed.
  2:{ right. apply Herr; [done|]. intros (dom & s & [[? _] _ _ _ _] & _). congruence. }
  destruct (system_suspend_allowed dom) eqn:Ea; cbn [negb].
  2:{ right. apply Herr; [done|]. intros (dom' & s & [[? ?] _ _ _ _] & _). congruence. }
  destruct sd as [[[check|] [suspend|]]|] eqn:Esd.
  2-5: right; apply Herr; [done|]; intros (dom' & s & [_ (check' & E & _) _ _ _] & _); congruence.
  destruct (Z.eqb_spec (check st) SBI_OK) as [Ec|Ec]; cbn [negb].
  2:{ right. apply Herr; [done|]. intros (dom' & s & [_ (check' & E & Hc) _ _ _] & _). rewrite Esd in E. injection E as <- <-. done. }
  set (mode := sbi_mstatus_prev_mode mstatus). destruct (negb (mode =? PRV_S) && negb (mode =? PRV_U)) eqn:Em.
  { right. apply Herr; [done|]. intros (dom' & s & [_ _ Hm _ _] & _). fold mode in Hm. destruct Hm as [E|E]; rewrite E in Em; done. }
  rewrite for_each_members by by apply Hmask. rewrite some_bind.
  destruct (others_stopped w self (members (assigned_harts dom))) eqn:Eo; cbn [negb].
  2:{ right. apply Herr; [done|]. intros (dom' & s & [[Hd _] _ _ Ho _] & _). assert (dom' = dom) as -> by congruence.
      apply not_true_iff_false in Eo. destruct Eo. apply others_stopped_spec. intros i Hi Hs. apply Ho; [|done]. by apply elem_of_members. }
  destruct (sbi_domain_check_addr (Some dom) addr mode SBI_DOMAIN_EXECUTE) eqn:Ex; cbn [negb].
  2:{ right. apply Herr; [done|]. intros (dom' & s & [[Hd _] _ _ _ Hx] & _). fold mode in Hx. congruence. }
  unfold sbi_hsm_hart_change_state. destruct (Z.eqb_spec (state (hdata h)) SBI_HSM_STATE_STARTED) as [Es|Es]; cbv beta iota; cbn [negb].
  2:{ right. apply Herr; [done|]. by intros (dom' & s & _ & Hs & _). }
  assert (susp_allowed mstatus st addr dom suspend) as Hok.
  { split; [by split|by exists check| | |done].
    - fold mode. destruct (Z.eqb_spec mode PRV_S); [by left|]. destruct (Z.eqb_spec mode PRV_U); [by right|]. done.
    - intros i Hi Hs. apply (proj1 (others_stopped_spec w self _) Eo); [|done]. by apply elem_of_members. }
  change (hsm_suspend_non_ret_save priv (set_next opaque addr mode (set_state SBI_HSM_STATE_SUSPENDED h))) with (suspended_hart mstatus addr opaque h).
  change (warmboot_addr (suspended_hart mstatus addr opaque h)) with (warmboot_addr h).
  destruct (suspend st (warmboot_addr h)) as [ret|] eqn:Er; [|left; exists dom, suspend; split_and!; try done; by left].
  destruct (Z.eqb_spec ret SBI_OK) as [->|Hr]; cbn [negb]; [left; exists dom, suspend; split_and!; try done; by right|].
  right. split.
  { intros (dom' & s & [_ (check' & E & _) _ _ _] & _ & Hsl). rewrite Esd in E. injection E as _ <-. rewrite Er in Hsl. destruct Hsl as [?|[= ?]]; done. }
  cbn. eexists _, _. split; [reflexivity|]. split; [done|]. split; [by unfold hstate; rewrite Es|]. done.
Qed.

End SuspendSpec.

(** C34: the system is suspended by the last running hart of a domain that may do so,
    and by no other: a call suspends exactly when the domain allows it, the device
    supports the type, the caller is the supervisor, all other harts of the domain
    are stopped, the hart is started and may execute the resume address; then the
    warm boot that follows resumes the supervisor there with its argument and its
    interrupt enables and delegation.  Otherwise the call returns an error and the
    hart keeps its state, ticket and registers. *)
Theorem system_suspend_alone priv sd ds w self thisdom mstatus st addr opaque h :
  (forall dom, domains ds !! thisdom = Some dom -> mask_ok (assigned_harts dom)) ->
  exists o h', sbi_system_suspend priv sd ds w self thisdom mstatus st addr opaque h = Some (o, h') /\
    ((exists dom suspend, susp_allowed sd ds w self thisdom mstatus st addr dom suspend /\ hstate h = SBI_HSM_STATE_STARTED /\ sleeps (suspend st (warmboot_addr h))) ->
      o = OWarmboot (warmboot_addr h) /\ hstate h' = SBI_HSM_STATE_SUSPENDED /\
      forall hartid c2, exists h2 h3,
        sbi_hsm_hart_resume_start (mkHart (hdata h') (h_arg1 h') (h_addr h') (h_mode h') (warmboot_addr h') c2) = (None, h2) /\
        sbi_hsm_hart_resume_finish priv hartid h2 = (OSwitch hartid opaque addr (sbi_mstatus_prev_mode mstatus), h3) /\
        hstate h3 = SBI_HSM_STATE_STARTED /\ ticket h3 = ticket h /\ mie (h_csrs h3) = mie (h_csrs h) /\ medeleg (h_csrs h3) = medeleg (h_csrs h)) /\
    (~ (exists dom suspend, susp_allowed sd ds w self thisdom mstatus st addr dom suspend /\ hstate h = SBI_HSM_STATE_STARTED /\ sleeps (suspend st (warmboot_addr h))) ->
      exists rc, o = ORet rc /\ rc <> 0 /\ hstate h' = hstate h /\ ticket h' = ticket h /\ h_csrs h' = h_csrs h).
Proof.
  intros Hmask. destruct (suspend_cases priv sd ds w self thisdom mstatus st addr opaque h Hmask) as [(dom & s & Hok & Hs & Hsl & ->)|(Hno & rc & h' & -> & Hrc)].
  - eexists _, _. split; [reflexivity|]. split; [|intros Hno; destruct Hno; by exists dom, s].
    intros _. split; [done|]. split; [done|]. intros hartid c2. apply suspended_resumes.
  - eexists _, _. split; [reflexivity|]. split; [done|]. intros _. by exists rc.
Qed.

Definition demo_susp_world : hsm_world := SbiHsm.demo_world SBI_HSM_STATE_STOPPED.

(** Hart 0 of the two of the demonstration suspends; hart 1 is stopped. *)
Lemma system_suspend_alone_witness :
  exists o h', sbi_system_suspend true (Some sbi_system_suspend_test) SbiHsm.demo_domains demo_susp_world 0 4096 0x800 0 0x80300000 7 (SbiHsm.demo_hart SBI_HSM_STATE_STARTED) = Some (o, h') /\
    o = OWarmboot 0x80000000 /\ hstate h' = SBI_HSM_STATE_SUSPENDED.
Proof.
  destruct (system_suspend_alone true (Some sbi_system_suspend_test) SbiHsm.demo_domains demo_susp_world 0 4096 0x800 0 0x80300000 7 (SbiHsm.demo_hart SBI_HSM_STATE_STARTED)) as (o & h' & E & Hyes & _).
  - intros dom Hd. vm_compute in Hd. injection Hd as <-. split; [by repeat constructor|done].
  - exists o, h'. split; [exact E|]. destruct Hyes as (Ho & Hs & _); [|by split].
    eexists _, sbi_system_suspend_test_suspend. split; [split|split; [reflexivity|right; reflexivity]].
    + split; [vm_compute; reflexivity|reflexivity].
    + eexists. split; reflexivity.
    + left. vm_compute. reflexivity.
    + intros i Hi Hn. change (mask_has (mkMask [3; 0]) i = true) in Hi. apply elem_of_members in Hi.
      assert (members (mkMask [3; 0]) = [0; 1]) as E' by (vm_compute; reflexivity). rewrite E' in Hi.
      apply elem_of_cons in Hi as [Hi|Hi%list_elem_of_singleton]; [destruct (Hn Hi)|]. rewrite Hi. vm_compute. reflexivity.
    + vm_compute. reflexivity.
Defined.

(** ** Performance control *)

(** The device is written only where the register exists, is not reserved and not
    read only. *)
Lemma cppc_write_guarded {D} (dev : @sbi_cppc_device D) reg val s : (sbi_cppc_write (Some dev) reg val s).2 <> s ->
  sbi_cppc_is_reserved reg = false /\ sbi_cppc_writable reg = true /\ 0 < sbi_cppc_probe (Some dev) reg s /\
  exists write, cppc_write dev = Some write /\ sbi_cppc_write (Some dev) reg val s = write reg val s.
Proof.
  unfold sbi_cppc_write. destruct dev as [probe read [write|]]; [|done]. destruct (Z.leb_spec (sbi_cppc_probe (Some (mkCppc probe read (Some write))) reg s) 0) as [|Hp]; [done|].
  destruct (sbi_cppc_writable reg) eqn:Ew; [|done]. cbn [negb]. intros _. split; [|split; [done|split; [done|by exists write]]].
  unfold sbi_cppc_probe in Hp. destruct probe as [probe|]; [|done]. destruct (sbi_cppc_is_reserved reg); done.
Qed.

(** A read that fails returns what the stack held. *)
Lemma cppc_read_returns_stack {D} temp a0 value (s : D) : sbi_ecall_cppc_handler None temp 1 a0 0 value s = (SBI_EFAIL, temp, s).
Proof. done. Qed.

(** ** Interrupt controllers *)

(** After a successful set-up external interrupts are enabled when there is a
    handler for them, and [sbi_irqchip_exit] disables them again. *)
Lemma irqchip_init_enables {D} plat cold (s s' : @irqchips D) : sbi_irqchip_init plat cold s = (0, s') ->
  (is_Some (ext_irqfn s') -> Z.testbit (irq_mie s') 11 = true /\ Z.testbit (irq_mie (sbi_irqchip_exit s')) 11 = false).
Proof.
  unfold sbi_irqchip_init. destruct (if cold then plat s else (0, s)) as [rc s1]. destruct (negb (rc =? 0)) eqn:E1; [intros [= E3 _]; by rewrite E3 in E1|].
  destruct (warm_loop (irqchip_list s1) (irq_dev s1)) as [rc2 d]. destruct (negb (rc2 =? 0)) eqn:E2; [intros [= E3 _]; by rewrite E3 in E2|].
  intros [= <-]. unfold sbi_irqchip_exit. cbn [ext_irqfn irq_mie]. intros [f ->]. rewrite Z.land_spec, Z.lor_spec. by rewrite orb_true_r, andb_false_r.
Qed.
