(* ===== verification/SbiInit.v ===== *)
(** * The boot of the harts (lib/sbi/sbi_init.c)

    Every hart enters [sbi_init]; one wins the lottery and boots the firmware, the
    others wait for it and for somebody to start them.  The functions that are called
    are named; what they do is modelled elsewhere, here each returns any code.  A hart
    takes one call at a time, the harts interleave. *)

From S2P Require Import Prelude SbiHsm.

Inductive boot_path := Cold | Warm | Resume | Exit.

(** The calls of the paths, [sbi_exit] the last. *)
Inductive init_op :=
  | ScratchInit | HeapInit | DomainInit | AllocEntryCount | AllocInitCount | CountEntry | HsmInit | WakeColdbootHarts
  | PlatformEarlyInit | HartInit | PmuInit | DbtrInit | PrintBanner | DoubleTrapInit | IrqchipInit | IpiInit | TlbInit
  | TimerInit | FwftInit | MpxyInit | DomainFinalize | PlatformFinalInit | SseInit | EcallInit | PrintGeneral | PrintDomains
  | PrintHart | RunTests | DomainStartup | PmpConfigure | CountInit | StartFinish | ResumeStart | HartReinit | ResumeFinish | IpiRawClear
  | HartidValid | PlatformEarlyExit | SseExit | PmuExit | TimerExit | IpiExit | IrqchipExit | PlatformFinalExit | HsmExit.

#[global] Instance init_op_eq_dec : EqDecision init_op.
Proof. solve_decision. Defined.
#[global] Instance boot_path_eq_dec : EqDecision boot_path.
Proof. solve_decision. Defined.

Definition init_coldboot : list init_op :=
  [ScratchInit; HeapInit; DomainInit; AllocEntryCount; AllocInitCount; CountEntry; HsmInit; WakeColdbootHarts; PlatformEarlyInit; HartInit;
   PmuInit; DbtrInit; PrintBanner; DoubleTrapInit; IrqchipInit; IpiInit; TlbInit; TimerInit; FwftInit; MpxyInit; DomainFinalize;
   PlatformFinalInit; SseInit; EcallInit; PrintGeneral; PrintDomains; PrintHart; RunTests; DomainStartup; PmpConfigure; CountInit; StartFinish].

Definition init_warm_startup : list init_op :=
  [IpiRawClear; CountEntry; HsmInit; PlatformEarlyInit; HartInit; PmuInit; DbtrInit; IrqchipInit; IpiInit; TlbInit; TimerInit; FwftInit; PlatformFinalInit;
   SseInit; PmpConfigure; CountInit; StartFinish].

Definition init_warm_resume : list init_op := [ResumeStart; HartReinit; PmpConfigure; ResumeFinish].

Definition sbi_exit : list init_op := [HartidValid; PlatformEarlyExit; SseExit; PmuExit; TimerExit; IpiExit; IrqchipExit; PlatformFinalExit; HsmExit].

Definition path_ops (p : boot_path) : list init_op :=
  match p with Cold => init_coldboot | Warm => init_warm_startup | Resume => init_warm_resume | Exit => sbi_exit end.

(** Whether the hart hangs when the call fails: the code tests what it returns, or
    it hangs itself. *)
Definition checked_op (op : init_op) : bool :=
  match op with
  | CountEntry | WakeColdbootHarts | PrintBanner | DoubleTrapInit | PrintGeneral | PrintDomains | RunTests | CountInit | IpiRawClear
  | PlatformEarlyExit | SseExit | PmuExit | TimerExit | IpiExit | IrqchipExit | PlatformFinalExit => false
  | _ => true
  end.

Inductive boot_phase :=
  | PEntry
  | PNascent (coldboot : bool)
  | PWait
  | PRun (p : boot_path) (rest : list init_op)
  | PHang
  | PNext.

(** The globals of the file, the two counters in the scratch areas, where each hart
    is, whether it may leave [sbi_hsm_init] and whether it is suspended, and what has
    been called. *)
Record boot := mkBoot {
  coldboot_lottery : Z; coldboot_done : Z; entry_count_offset : Z; init_count_offset : Z;
  entry_count : Z -> Z; init_count : Z -> Z; phase : Z -> boot_phase; start_pending : Z -> bool; suspended : Z -> bool;
  calls : list (Z * boot_path * init_op) }.

Definition fupd {A} (f : Z -> A) (i : Z) (v : A) : Z -> A := fun j => if j =? i then v else f j.

Definition set_phase (i : Z) (p : boot_phase) (b : boot) : boot :=
  mkBoot (coldboot_lottery b) (coldboot_done b) (entry_count_offset b) (init_count_offset b) (entry_count b) (init_count b)
    (fupd (phase b) i p) (start_pending b) (suspended b) (calls b).

(** The effect of a call that does not fail, on the state of this file, and the end of
    [sbi_hsm_exit], from which on the hart is stopped and can be started again. *)
Definition run_op (i : Z) (op : init_op) (rc : Z) (b : boot) : boot :=
  match op with
  | AllocEntryCount => mkBoot (coldboot_lottery b) (coldboot_done b) rc (init_count_offset b) (entry_count b) (init_count b) (phase b) (start_pending b) (suspended b) (calls b)
  | AllocInitCount => mkBoot (coldboot_lottery b) (coldboot_done b) (entry_count_offset b) rc (entry_count b) (init_count b) (phase b) (start_pending b) (suspended b) (calls b)
  | WakeColdbootHarts => mkBoot (coldboot_lottery b) 1 (entry_count_offset b) (init_count_offset b) (entry_count b) (init_count b) (phase b) (start_pending b) (suspended b) (calls b)
  | CountEntry => mkBoot (coldboot_lottery b) (coldboot_done b) (entry_count_offset b) (init_count_offset b)
      (fupd (entry_count b) i (u64 (entry_count b i + 1))) (init_count b) (phase b) (start_pending b) (suspended b) (calls b)
  | CountInit => mkBoot (coldboot_lottery b) (coldboot_done b) (entry_count_offset b) (init_count_offset b)
      (entry_count b) (fupd (init_count b) i (u64 (init_count b i + 1))) (phase b) (start_pending b) (suspended b) (calls b)
  | HsmExit => mkBoot (coldboot_lottery b) (coldboot_done b) (entry_count_offset b) (init_count_offset b) (entry_count b) (init_count b)
      (phase b) (fupd (start_pending b) i false) (suspended b) (calls b)
  | _ => b
  end.

Definition boot_log_call (i : Z) (p : boot_path) (op : init_op) (b : boot) : boot :=
  mkBoot (coldboot_lottery b) (coldboot_done b) (entry_count_offset b) (init_count_offset b) (entry_count b) (init_count b)
    (phase b) (start_pending b) (suspended b) ((i, p, op) :: calls b).

(** The allocators return an offset, of which 0 is the failure; a warm start hangs
    when there are no offsets. *)
Definition op_fails (p : boot_path) (op : init_op) (rc : Z) (b : boot) : bool :=
  match op with
  | AllocEntryCount | AllocInitCount => rc =? 0
  | CountEntry => bool_decide (p = Warm) && ((entry_count_offset b =? 0) || (init_count_offset b =? 0))
  | _ => checked_op op && negb (rc =? 0)
  end.

(** [sbi_hsm_hart_start] for hart [i], by the firmware in [sbi_domain_startup] or for
    a supervisor. *)
Definition start_hart (i : Z) (b : boot) : boot :=
  mkBoot (coldboot_lottery b) (coldboot_done b) (entry_count_offset b) (init_count_offset b) (entry_count b) (init_count b)
    (phase b) (fupd (start_pending b) i true) (suspended b) (calls b).

(** A hart that stopped or suspended jumps to the warm boot address. *)
Definition reenter (i : Z) (susp : bool) (b : boot) : boot :=
  mkBoot (coldboot_lottery b) (coldboot_done b) (entry_count_offset b) (init_count_offset b) (entry_count b) (init_count b)
    (fupd (phase b) i PEntry) (start_pending b) (fupd (suspended b) i susp) (calls b).

Section Boot.
(** Whether a hart supports the mode of the next stage, [None] for a bad one, and
    [sbi_platform_cold_boot_allowed]. *)
Variables (next_mode_supported : Z -> option bool) (cold_boot_allowed : Z -> bool).

(** The next action of hart [i]; [rc] is what its call returns.  [None]: it waits. *)
Definition hart_step (i rc : Z) (b : boot) : option boot :=
  match phase b i with
  | PEntry =>
      match next_mode_supported i with
      | None => Some (set_phase i PHang b)
      | Some supported =>
          if cold_boot_allowed i && supported then
            let old := coldboot_lottery b in
            let b := mkBoot 1 (coldboot_done b) (entry_count_offset b) (init_count_offset b) (entry_count b) (init_count b) (phase b) (start_pending b) (suspended b) (calls b) in
            Some (set_phase i (PNascent (old =? 0)) b)
          else Some (set_phase i (PNascent false) b)
      end
  | PNascent coldboot =>
      if negb (rc =? 0) then Some (set_phase i PHang b)
      else if coldboot then Some (set_phase i (PRun Cold init_coldboot) b) else Some (set_phase i PWait b)
  | PWait =>
      if coldboot_done b =? 0 then None
      else if rc <? 0 then Some (set_phase i PHang b)
      else if suspended b i then Some (set_phase i (PRun Resume init_warm_resume) b)
      else Some (set_phase i (PRun Warm init_warm_startup) b)
  | PRun p [] => Some (if bool_decide (p = Exit) then reenter i false b else set_phase i PNext b)
  | PRun p (op :: rest) =>
      if bool_decide (op = HsmInit) && bool_decide (p = Warm) && negb (start_pending b i) then None
      else if op_fails p op rc b then Some (set_phase i PHang b)
      else Some (boot_log_call i p op (set_phase i (PRun p rest) (run_op i op rc b)))
  | PHang | PNext => None
  end.

Inductive boot_step (b : boot) : boot -> Prop :=
  | step_hart i rc b' : hart_step i rc b = Some b' -> boot_step b b'
  | step_domain_startup j rest i : phase b j = PRun Cold (DomainStartup :: rest) -> boot_step b (start_hart i b)
  | step_supervisor j i : phase b j = PNext -> boot_step b (start_hart i b)
  | step_exit i : phase b i = PNext -> boot_step b (set_phase i (PRun Exit sbi_exit) b)
  | step_suspend i : phase b i = PNext -> boot_step b (reenter i true b).

Definition boot_initial (b : boot) : Prop :=
  coldboot_lottery b = 0 /\ coldboot_done b = 0 /\ entry_count_offset b = 0 /\ init_count_offset b = 0 /\ calls b = [] /\
  forall i, phase b i = PEntry /\ start_pending b i = false /\ suspended b i = false /\ entry_count b i = init_count b i.

Definition boot_reachable (b : boot) : Prop := exists b0, boot_initial b0 /\ rtc boot_step b0 b.

(** ** What a step does *)

Definition win (b : boot) : boot :=
  mkBoot 1 (coldboot_done b) (entry_count_offset b) (init_count_offset b) (entry_count b) (init_count b) (phase b) (start_pending b) (suspended b) (calls b).

Inductive boot_effect (i : Z) (b : boot) : boot -> Prop :=
  | e_hang : phase b i <> PNext -> boot_effect i b (set_phase i PHang b)
  | e_lottery : phase b i = PEntry -> boot_effect i b (set_phase i (PNascent (coldboot_lottery b =? 0)) (win b))
  | e_refrain : phase b i = PEntry -> boot_effect i b (set_phase i (PNascent false) b)
  | e_cold : phase b i = PNascent true -> boot_effect i b (set_phase i (PRun Cold init_coldboot) b)
  | e_wait : phase b i = PNascent false -> boot_effect i b (set_phase i PWait b)
  | e_warm p : phase b i = PWait -> coldboot_done b <> 0 -> (p = Resume /\ suspended b i = true \/ p = Warm) -> boot_effect i b (set_phase i (PRun p (path_ops p)) b)
  | e_op p op rest rc : phase b i = PRun p (op :: rest) -> (op = HsmInit -> p = Warm -> start_pending b i = true) -> op_fails p op rc b = false ->
      boot_effect i b (boot_log_call i p op (set_phase i (PRun p rest) (run_op i op rc b)))
  | e_next p : p <> Exit -> phase b i = PRun p [] -> boot_effect i b (set_phase i PNext b)
  | e_exit : phase b i = PNext -> boot_effect i b (set_phase i (PRun Exit sbi_exit) b)
  | e_back susp : phase b i = PRun Exit [] \/ phase b i = PNext -> (susp = true -> phase b i = PNext) -> boot_effect i b (reenter i susp b).

Lemma hart_step_effect i rc b b' : hart_step i rc b = Some b' -> boot_effect i b b'.
Proof.
  unfold hart_step. destruct (phase b i) as [|[]| |p [|op rest]| |] eqn:E; try done.
  - destruct (next_mode_supported i) as [sup|]; [|intros [= <-]; apply e_hang; congruence].
    destruct (cold_boot_allowed i && sup); intros [= <-]; [by apply e_lottery|by apply e_refrain].
  - destruct (negb (rc =? 0)); intros [= <-]; [apply e_hang; congruence|by apply e_cold].
  - destruct (negb (rc =? 0)); intros [= <-]; [apply e_hang; congruence|by apply e_wait].
  - destruct (Z.eqb_spec (coldboot_done b) 0) as [|Hd]; [done|]. destruct (rc <? 0); [intros [= <-]; apply e_hang; congruence|].
    destruct (suspended b i) eqn:Es; intros [= <-]; [apply (e_warm _ _ Resume)|apply (e_warm _ _ Warm)]; auto.
  - destruct (bool_decide_reflect (p = Exit)) as [->|Hx]; intros [= <-]; [apply e_back; [by left|discriminate]|by apply (e_next _ _ p)].
  - destruct (bool_decide (op = HsmInit) && bool_decide (p = Warm) && negb (start_pending b i)) eqn:Ew; [done|].
    destruct (op_fails p op rc b) eqn:Ef; intros [= <-]; [apply e_hang; congruence|]. apply e_op; [done| |done]. intros -> ->.
    rewrite !bool_decide_eq_true_2 in Ew by done. by destruct (start_pending b i).
Qed.

(** Somebody who may start a hart. *)
Definition may_start (b : boot) : Prop := exists j, phase b j = PNext \/ exists rest, phase b j = PRun Cold (DomainStartup :: rest).

Lemma boot_step_effect b b' : boot_step b b' -> (exists i, boot_effect i b b') \/ exists i, b' = start_hart i b /\ may_start b.
Proof.
  intros [i rc b1 H%hart_step_effect|j rest i H|j i H|i H|i H]; [left; by exists i|right; exists i; split; [done|]; exists j; eauto..| |];
    left; exists i; [by apply e_exit|by apply e_back; [right|]].
Qed.

Lemma fupd_eq {A} (f : Z -> A) i v : fupd f i v i = v.
Proof. unfold fupd. by rewrite Z.eqb_refl. Qed.

Lemma fupd_ne {A} (f : Z -> A) i v j : j <> i -> fupd f i v j = f j.
Proof. intros. unfold fupd. by destruct (Z.eqb_spec j i). Qed.

Lemma run_op_same i op rc b : coldboot_lottery (run_op i op rc b) = coldboot_lottery b /\ phase (run_op i op rc b) = phase b /\
  suspended (run_op i op rc b) = suspended b /\ calls (run_op i op rc b) = calls b.
Proof. by destruct op. Qed.

(** Only the end of [sbi_hsm_exit] forgets that a hart was started. *)
Lemma run_op_pending i op rc b j : start_pending (run_op i op rc b) j = start_pending b j && negb (bool_decide (op = HsmExit) && (j =? i)).
Proof.
  destruct op; cbn; rewrite ?andb_true_r; try done. unfold fupd. destruct (j =? i); by rewrite ?andb_false_r, ?andb_true_r.
Qed.

Lemma run_op_counts i op rc b j : j <> i -> entry_count (run_op i op rc b) j = entry_count b j /\ init_count (run_op i op rc b) j = init_count b j.
Proof. intros Hj. destruct op; cbn; rewrite ?fupd_ne by done; done. Qed.

Definition calls_of (i : Z) (b : boot) : list (boot_path * init_op) := omap (fun '(j, p, op) => if j =? i then Some (p, op) else None) (calls b).

(** A hart leaves the others alone. *)
Lemma effect_others i b b' j : boot_effect i b b' -> j <> i ->
  phase b' j = phase b j /\ calls_of j b' = calls_of j b /\ entry_count b' j = entry_count b j /\ init_count b' j = init_count b j /\
  start_pending b' j = start_pending b j /\ suspended b' j = suspended b j.
Proof.
  intros [| | | | | |p op rest rc Hp _ _| | |] Hn; cbn [phase start_pending suspended set_phase boot_log_call reenter win entry_count init_count]; rewrite ?fupd_ne by done; try done.
  rewrite run_op_pending, (proj2 (Z.eqb_neq _ _) Hn), andb_false_r, andb_true_r.
  destruct (run_op_same i op rc b) as (_ & -> & -> & E), (run_op_counts i op rc b j Hn) as [-> ->].
  split; [done|]. split; [|done]. unfold calls_of. cbn [calls boot_log_call set_phase]. rewrite E. cbn. destruct (Z.eqb_spec i j); [congruence|done].
Qed.

(** ** The runs of a hart *)

(** Since it entered, the hart has made the calls of its path up to what is left. *)
Definition ran (i : Z) (p : boot_path) (rest : list init_op) (b : boot) : Prop :=
  exists now older, path_ops p = now ++ rest /\ calls_of i b = rev (pair p <$> now) ++ older.

Definition run_ok (i : Z) (b : boot) : Prop :=
  match phase b i with
  | PRun p rest => ran i p rest b
  | PNext => exists p, p <> Exit /\ ran i p [] b
  | _ => True
  end.

Lemma run_ok_step b b' : boot_step b b' -> (forall i, run_ok i b) -> forall i, run_ok i b'.
Proof.
  intros Hst Hok i. specialize (Hok i). revert Hok. destruct (boot_step_effect _ _ Hst) as [(j & Heff)|(j & -> & _)]; [|done].
  destruct (decide (i = j)) as [->|Hn]; [|destruct (effect_others _ _ _ _ Heff Hn) as (Ep & Ec & _); unfold run_ok, ran; by rewrite Ep, Ec].
  destruct Heff as [| | | | | |p op rest rc' Hp _ _|p Hx Hp| |]; unfold run_ok; cbn [phase set_phase boot_log_call reenter]; rewrite ?fupd_eq; try done.
  - intros _. by exists [], (calls_of j b).
  - intros _. by exists [], (calls_of j b).
  - rewrite Hp. intros (now & older & E & Hc). exists (now ++ [op]), older. rewrite <- app_assoc. split; [done|].
    unfold calls_of. cbn [calls boot_log_call set_phase]. rewrite (proj2 (proj2 (proj2 (run_op_same j op rc' b)))). cbn. rewrite Z.eqb_refl.
    unfold calls_of in Hc. by rewrite Hc, fmap_app, rev_app_distr.
  - rewrite Hp. intros H. by exists p.
  - intros _. by exists [], (calls_of j b).
Qed.

(** A check on every call of a path together with those after it. *)
Fixpoint every_tail (f : init_op -> list init_op -> bool) (l : list init_op) : bool :=
  match l with [] => true | op :: rest => f op rest && every_tail f rest end.

Lemma every_tail_path f p now op rest : every_tail f (path_ops p) = true -> path_ops p = now ++ op :: rest -> f op rest = true.
Proof.
  intros H E. rewrite E in H. clear E. induction now as [|o now IH]; cbn [app every_tail] in H; apply andb_true_iff in H as [H H']; [done|by apply IH].
Qed.

(** ** The counters *)

(** While a hart initialises the first count is one ahead. *)
Definition counts_ok (i : Z) (b : boot) : Prop :=
  match phase b i with
  | PRun _ rest => entry_count b i = if bool_decide (CountInit ∈ rest) && negb (bool_decide (CountEntry ∈ rest)) then u64 (init_count b i + 1) else init_count b i
  | PHang => entry_count b i = init_count b i \/ entry_count b i = u64 (init_count b i + 1)
  | _ => entry_count b i = init_count b i
  end.

(** What the next call of a path does to the counts. *)
Definition count_step (op : init_op) (rest : list init_op) : bool :=
  let ahead l := bool_decide (CountInit ∈ l) && negb (bool_decide (CountEntry ∈ l)) in
  match op with
  | CountEntry => negb (ahead (op :: rest)) && ahead rest
  | CountInit => ahead (op :: rest) && negb (ahead rest)
  | _ => eqb (ahead (op :: rest)) (ahead rest)
  end.

Lemma path_count_step p now op rest : path_ops p = now ++ op :: rest -> count_step op rest = true.
Proof. apply every_tail_path. by destruct p; vm_compute. Qed.

Lemma counts_ok_step b b' : boot_step b b' -> (forall i, run_ok i b) -> (forall i, counts_ok i b) -> forall i, counts_ok i b'.
Proof.
  intros Hst Hrun Hok i. specialize (Hok i). specialize (Hrun i). revert Hrun Hok. destruct (boot_step_effect _ _ Hst) as [(j & Heff)|(j & -> & _)]; [|done].
  destruct (decide (i = j)) as [->|Hn]; [|destruct (effect_others _ _ _ _ Heff Hn) as (Ep & _ & Ee & Ei & _); unfold counts_ok; by rewrite Ep, Ee, Ei].
  intros Hrun Hok. unfold counts_ok in *. destruct Heff as [Hp|Hp|Hp|Hp|Hp|p Hp _ Hps|p op rest rc' Hp _ _|p Hx Hp|Hp|susp Hp _]; cbn [phase set_phase boot_log_call reenter]; rewrite ?fupd_eq;
    cbn [entry_count init_count set_phase boot_log_call reenter win].
  all: try by rewrite Hp in Hok.
  - destruct (phase b j); auto. destruct (_ && _); auto.
  - rewrite Hp in Hok. destruct Hps as [[-> _]| ->]; exact Hok.
  - rewrite Hp in Hok. unfold run_ok in Hrun. rewrite Hp in Hrun. destruct Hrun as (now & _ & E & _). apply path_count_step in E. unfold count_step in E.
    set (a := bool_decide (CountInit ∈ op :: rest) && _) in *. set (a' := bool_decide (CountInit ∈ rest) && _) in *.
    destruct op; cbn [run_op entry_count init_count]; rewrite ?fupd_eq; try (apply eqb_prop in E; rewrite <- E; exact Hok);
      destruct a, a'; try done; by rewrite Hok.
  - destruct Hp as [Hp|Hp]; rewrite Hp in Hok; exact Hok.
Qed.

(** ** The order of the calls *)

(** The calls of the cold boot in a log, the first one first. *)
Definition cold_of (l : list (Z * boot_path * init_op)) : list init_op := rev (omap (fun '(_, p, op) => if bool_decide (p = Cold) then Some op else None) l).

#[local] Arguments cold_of : simpl never.

(** What precedes the start of the domains. *)
Definition before_startup : list init_op := take 28 init_coldboot.

Definition announced (l : list (Z * boot_path * init_op)) : Prop := WakeColdbootHarts ∈ cold_of l.
Definition set_up (l : list (Z * boot_path * init_op)) : Prop := before_startup `prefix_of` cold_of l.

Fixpoint log_ordered (l : list (Z * boot_path * init_op)) : Prop :=
  match l with
  | [] => True
  | (_, p, op) :: l => log_ordered l /\ (p <> Cold -> announced l /\ (op ∉ [IpiRawClear; CountEntry] -> set_up l))
  end.

Definition is_cold (ph : boot_phase) : bool :=
  match ph with PNascent c => c | PRun Cold _ => true | _ => false end.

(** The phases a hart reaches only when it is started. *)
Definition past (ph : boot_phase) : Prop :=
  match ph with PNext | PRun Resume _ | PRun Exit _ => True | PRun Warm rest => HsmInit ∉ rest | _ => False end.

Definition phase_ok (log : list (Z * boot_path * init_op)) (ph : boot_phase) : Prop :=
  match ph with
  | PNascent true => cold_of log = []
  | PRun Cold rest => cold_of log ++ rest = init_coldboot
  | PRun _ _ => announced log
  | _ => True
  end.

Record ordered (b : boot) : Prop := {
  or_one : exists w, (forall i, is_cold (phase b i) = true -> i = w) /\ forall i op, (i, Cold, op) ∈ calls b -> i = w;
  or_lottery : coldboot_lottery b = 0 -> (forall i, is_cold (phase b i) = false) /\ cold_of (calls b) = [];
  or_prefix : cold_of (calls b) `prefix_of` init_coldboot;
  or_phase : forall i, phase_ok (calls b) (phase b i);
  or_done : coldboot_done b <> 0 -> announced (calls b);
  or_started : forall i, start_pending b i = true \/ suspended b i = true \/ past (phase b i) -> set_up (calls b);
  or_log : log_ordered (calls b) }.

Lemma cold_of_cons i p op l : cold_of ((i, p, op) :: l) = cold_of l ++ (if bool_decide (p = Cold) then [op] else []).
Proof. unfold cold_of. cbn. case_bool_decide; [done|by rewrite app_nil_r]. Qed.

Lemma cold_of_nil l i op : cold_of l = [] -> (i, Cold, op) ∉ l.
Proof.
  intros E Hin. assert (op ∈ cold_of l) as H; [|rewrite E in H; by apply elem_of_nil in H].
  unfold cold_of. apply list_elem_of_In, in_rev. rewrite rev_involutive. apply list_elem_of_In, list_elem_of_omap.
  exists (i, Cold, op). by rewrite bool_decide_eq_true_2.
Qed.

Lemma announced_cons x l : announced l -> announced (x :: l).
Proof. destruct x as [[i p] op]. unfold announced. rewrite cold_of_cons. intros. apply elem_of_app. by left. Qed.

Lemma set_up_cons x l : set_up l -> set_up (x :: l).
Proof. destruct x as [[i p] op]. unfold set_up. rewrite cold_of_cons. intros. by apply prefix_app_r. Qed.

Lemma startup_position l rest : l ++ DomainStartup :: rest = init_coldboot -> l = before_startup.
Proof.
  intros E. assert (init_coldboot !! length l = Some DomainStartup) as H by by rewrite <- E, list_lookup_middle.
  assert (length l = 28%nat) as E'.
  { apply (NoDup_lookup init_coldboot _ _ DomainStartup); [apply (bool_decide_unpack _); vm_compute; exact I|done|reflexivity]. }
  unfold before_startup. rewrite <- E, <- E'. by rewrite take_app_length.
Qed.

Lemma warm_position now op rest : init_warm_startup = now ++ op :: rest ->
  op = HsmInit \/ (op ∈ [IpiRawClear; CountEntry] /\ HsmInit ∈ rest) \/ HsmInit ∉ op :: rest.
Proof.
  intros E. pose proof (every_tail_path (fun op rest => bool_decide (op = HsmInit \/ (op ∈ [IpiRawClear; CountEntry] /\ HsmInit ∈ rest) \/ HsmInit ∉ op :: rest)) Warm now op rest ltac:(by vm_compute) E) as H.
  by apply bool_decide_eq_true in H.
Qed.

Lemma may_start_set_up b : ordered b -> may_start b -> set_up (calls b).
Proof.
  intros [_ _ _ Hph _ Hst _] (j & [Hj|(rest & Hj)]).
  - apply (Hst j). rewrite Hj. by right; right.
  - specialize (Hph j). rewrite Hj in Hph. cbn in Hph. unfold set_up. by rewrite (startup_position _ _ Hph).
Qed.

(** A step of hart [i] that makes no call of a path. *)
Lemma ordered_quiet i b b' : ordered b -> calls b' = calls b -> coldboot_done b' = coldboot_done b -> (coldboot_lottery b' = 0 -> coldboot_lottery b = 0) ->
  (forall j, j <> i -> phase b' j = phase b j /\ start_pending b' j = start_pending b j /\ suspended b' j = suspended b j) ->
  (is_cold (phase b' i) = true -> is_cold (phase b i) = true) -> phase_ok (calls b) (phase b' i) ->
  (start_pending b' i = true \/ suspended b' i = true \/ past (phase b' i) -> set_up (calls b)) -> ordered b'.
Proof.
  intros [(w & Hw & Hcw) Hlot Hpre Hph Hd Hst Hlog] Ec Ed El Hj Hcold Hok Hset.
  assert (forall j, is_cold (phase b' j) = true -> is_cold (phase b j) = true) as Hc.
  { intros j. destruct (decide (j = i)) as [->|Hn]; [done|by destruct (Hj j Hn) as [-> _]]. }
  split; rewrite ?Ec, ?Ed; try done.
  - exists w. split; [|done]. intros j H. by apply Hw, Hc.
  - intros E%El. destruct (Hlot E) as [H1 H2]. split; [|done]. intros j. destruct (is_cold (phase b' j)) eqn:E'; [|done]. specialize (Hc j E'). by rewrite H1 in Hc.
  - intros j. destruct (decide (j = i)) as [->|Hn]; [done|]. destruct (Hj j Hn) as [-> _]. apply Hph.
  - intros j. destruct (decide (j = i)) as [->|Hn]; [done|]. destruct (Hj j Hn) as (-> & -> & ->). apply Hst.
Qed.

(** The call of a path that hart [i] makes. *)
Lemma op_in_order i p op rest b : run_ok i b -> ordered b -> phase b i = PRun p (op :: rest) -> (op = HsmInit -> p = Warm -> start_pending b i = true) -> p <> Cold ->
  announced (calls b) /\ (op ∉ [IpiRawClear; CountEntry] -> set_up (calls b)) /\ (past (PRun p rest) -> set_up (calls b)).
Proof.
  intros Hrun [_ _ _ Hph _ Hst _] Hp Hpend Hc. specialize (Hph i). rewrite Hp in Hph. unfold run_ok in Hrun. rewrite Hp in Hrun. destruct Hrun as (now & _ & E & _).
  destruct p; [done| | |].
  - split; [exact Hph|]. apply warm_position in E as [->|[[Ho Hin]|Hno]].
    + assert (set_up (calls b)) as H by (apply (Hst i); left; by apply Hpend). done.
    + split; [done|]. cbn. done.
    + assert (set_up (calls b)) as H by (apply (Hst i); right; right; rewrite Hp; exact Hno). done.
  - assert (set_up (calls b)) as H by (apply (Hst i); right; right; by rewrite Hp). done.
  - assert (set_up (calls b)) as H by (apply (Hst i); right; right; by rewrite Hp). done.
Qed.

Lemma ordered_op i p op rest rc b : run_ok i b -> ordered b -> phase b i = PRun p (op :: rest) -> (op = HsmInit -> p = Warm -> start_pending b i = true) ->
  ordered (boot_log_call i p op (set_phase i (PRun p rest) (run_op i op rc b))).
Proof.
  intros Hrun Hord Hp Hpend. pose proof (op_in_order i p op rest b Hrun Hord Hp Hpend) as Hop.
  destruct Hord as [(w & Hw & Hcw) Hlot Hpre Hph Hd Hst Hlog]. pose proof (Hph i) as Hphi. rewrite Hp in Hphi.
  pose proof (run_op_same i op rc b) as (El & Ep & Eu & Ec).
  assert (p = Cold -> i = w) as Hiw by (intros ->; apply Hw; by rewrite Hp).
  assert (forall P : _ -> Prop, (forall x l, P l -> P (x :: l)) -> P (calls b) -> P ((i, p, op) :: calls b)) as Hcons by auto.
  split; cbn [calls coldboot_lottery coldboot_done phase start_pending suspended boot_log_call set_phase]; rewrite ?El, ?Ep, ?Eu, ?Ec.
  - exists w. split.
    + intros j. destruct (decide (j = i)) as [->|Hn]; [rewrite fupd_eq; intros H; apply Hw; by rewrite Hp|]. rewrite fupd_ne by done. apply Hw.
    + intros j o [[= -> <- ->]|H]%elem_of_cons; [by apply Hiw|by eapply Hcw].
  - intros E. destruct (Hlot E) as [H1 H2]. destruct p; [specialize (H1 i); by rewrite Hp in H1| | |].
    all: split; [|by rewrite cold_of_cons, bool_decide_eq_false_2, app_nil_r].
    all: intros j; destruct (decide (j = i)) as [->|Hn]; [by rewrite fupd_eq|rewrite fupd_ne by done; apply H1].
  - rewrite cold_of_cons. case_bool_decide as Hc; [|by rewrite app_nil_r]. subst p. cbn in Hphi. exists rest. by rewrite <- app_assoc.
  - intros j. destruct (decide (j = i)) as [->|Hn].
    + rewrite fupd_eq. destruct p; [|by apply announced_cons, Hop..]. cbn. rewrite cold_of_cons, bool_decide_eq_true_2, <- app_assoc by done. exact Hphi.
    + rewrite fupd_ne by done. specialize (Hph j). destruct (phase b j) as [|[]| |q l| |] eqn:Ej; try done.
      * destruct (decide (p = Cold)) as [Hc|Hc]; [destruct Hn; rewrite (Hiw Hc); apply Hw; by rewrite Ej|]. cbn in *. by rewrite cold_of_cons, bool_decide_eq_false_2, app_nil_r.
      * destruct q; [|by apply announced_cons..].
        destruct (decide (p = Cold)) as [Hc|Hc]; [destruct Hn; rewrite (Hiw Hc); apply Hw; by rewrite Ej|]. cbn in *. by rewrite cold_of_cons, bool_decide_eq_false_2, app_nil_r.
  - destruct (decide (p = Cold)) as [->|Hc]; [|intros _; by apply announced_cons, Hop].
    destruct op; cbn [run_op coldboot_done]; try (intros H; by apply announced_cons, Hd).
    intros _. unfold announced. rewrite cold_of_cons. apply elem_of_app. right. by left.
  - intros j. rewrite run_op_pending, andb_true_iff. intros Hj. apply set_up_cons. destruct (decide (j = i)) as [->|Hn]; [|rewrite fupd_ne in Hj by done; by apply (Hst j); tauto].
    rewrite fupd_eq in Hj. destruct Hj as [[H _]|[H|H]]; [apply (Hst i); auto..|]. destruct (decide (p = Cold)) as [->|Hc]; [done|by apply Hop].
  - cbn. split; [done|]. intros Hc. by destruct (Hop Hc) as (? & ? & _).
Qed.

Lemma ordered_lottery i b : ordered b -> phase b i = PEntry -> ordered (set_phase i (PNascent (coldboot_lottery b =? 0)) (win b)).
Proof.
  intros Hord Hp. destruct (Z.eqb_spec (coldboot_lottery b) 0) as [E|E].
  2:{ apply (ordered_quiet i b); cbn; rewrite ?fupd_eq; try done; [intros j Hj; by rewrite fupd_ne|]. intros [H|[H|[]]]; apply (or_started b Hord i); auto. }
  destruct Hord as [(w & Hw & Hcw) Hlot Hpre Hph Hd Hst Hlog]. destruct (Hlot E) as [Hno Hnil].
  split; cbn [calls coldboot_lottery coldboot_done phase start_pending suspended set_phase win]; try done.
  - exists i. split.
    + intros j. destruct (decide (j = i)) as [->|Hn]; [done|]. rewrite fupd_ne by done. by rewrite Hno.
    + intros j op H. by apply cold_of_nil with (i := j) (op := op) in Hnil.
  - intros j. destruct (decide (j = i)) as [->|Hn]; [by rewrite fupd_eq|]. rewrite fupd_ne by done. apply Hph.
  - intros j. destruct (decide (j = i)) as [->|Hn]; [rewrite fupd_eq|rewrite fupd_ne by done; apply Hst]. intros [H|[H|[]]]; apply (Hst i); auto.
Qed.

Lemma ordered_step b b' : boot_step b b' -> (forall i, run_ok i b) -> ordered b -> ordered b'.
Proof.
  intros Hst Hrun Hord. destruct (boot_step_effect _ _ Hst) as [(i & Heff)|(i & -> & Hms)].
  2:{ apply (ordered_quiet i b); cbn; try done.
      - intros j Hj. by rewrite fupd_ne.
      - apply Hord.
      - intros _. by apply may_start_set_up. }
  pose proof (or_phase b Hord i) as Hph. pose proof (or_started b Hord i) as Hset.
  destruct Heff as [Hp|Hp|Hp|Hp|Hp|p Hp Hd Hps|p op rest rc Hp Hpend _|p Hx Hp|Hp|susp Hp Hs]; [|by apply ordered_lottery| | | | |by apply ordered_op| | |].
  all: apply (ordered_quiet i b); cbn; rewrite ?fupd_eq; try done; try (intros j Hj; by rewrite !fupd_ne).
  all: try (intros [H|[H|[]]]; apply Hset; auto; fail).
  - by rewrite Hp.
  - cbn. rewrite Hp in Hph. cbn in Hph. by rewrite Hph.
  - destruct Hps as [[-> _]| ->]; done.
  - apply (or_done b Hord) in Hd. by destruct Hps as [[-> _]| ->].
  - intros [H|[H|H]]; [apply Hset; auto..|]. destruct Hps as [[-> Hs]| ->]; [apply Hset; auto|]. destruct H. vm_compute. set_solver.
  - intros _. rewrite Hp in Hph, Hset. destruct p; [|apply Hset; right; right|apply Hset; right; right|]; try done.
    + cbn in Hph. rewrite app_nil_r in Hph. unfold set_up. rewrite Hph. apply prefix_take.
    + cbn. apply not_elem_of_nil.
  - rewrite Hp in Hset. assert (set_up (calls b)) as [l H] by (apply Hset; right; by right). cbn. unfold announced. rewrite H.
    apply elem_of_app. left. apply (bool_decide_unpack _). vm_compute. exact I.
  - rewrite Hp in Hset. intros _. apply Hset. right; by right.
  - intros [H|[H|[]]]; [apply Hset; auto|]. rewrite (Hs H) in Hset. apply Hset. right; by right.
Qed.

(** ** The theorem *)

Lemma log_ordered_at l later i p op older : log_ordered l -> l = later ++ (i, p, op) :: older -> p <> Cold ->
  announced older /\ (op ∉ [IpiRawClear; CountEntry] -> set_up older).
Proof.
  intros H -> Hp. induction later as [|[[j q] o] later IH]; cbn in H; destruct H as [H1 H2]; [by apply H2|by apply IH].
Qed.

Lemma boot_invariant b : boot_reachable b -> (forall i, run_ok i b) /\ (forall i, counts_ok i b) /\ ordered b.
Proof.
  intros (b0 & (El & Ed & _ & _ & Ec & Hi) & Hrtc).
  assert ((forall i, run_ok i b0) /\ (forall i, counts_ok i b0) /\ ordered b0) as H0.
  { split; [|split].
    - intros i. unfold run_ok. by destruct (Hi i) as (-> & _).
    - intros i. unfold counts_ok. by destruct (Hi i) as (-> & _ & _ & ->).
    - split; rewrite ?Ec; try done.
      + exists 0. split; [|intros i op H; by apply elem_of_nil in H]. intros i. by destruct (Hi i) as (-> & _).
      + intros _. split; [|done]. intros i. by destruct (Hi i) as (-> & _).
      + apply prefix_nil.
      + intros i. by destruct (Hi i) as (-> & _).
      + intros i. destruct (Hi i) as (-> & -> & -> & _). by intros [|[|[]]]. }
  clear -H0 Hrtc. induction Hrtc as [|b0 b1 b Hst _ IH]; [done|]. apply IH. destruct H0 as (H1 & H2 & H3).
  split; [by eapply run_ok_step|]. split; [by eapply counts_ok_step|by eapply ordered_step].
Qed.

(** C13: the harts boot in order, under every interleaving, with every call failing
    or not: the calls of the cold boot are made by one hart, in their order; every
    call of another path comes after the cold boot has announced itself, and after
    the whole set-up, the finalized domains included, but for the two that precede
    the wait for a start; a hart that is in its next stage came there by the calls
    of one path, all of them and in their order, and has as many
    initialisations as entries counted. *)
Theorem boot_in_order b : boot_reachable b ->
  (exists w, forall i op, (i, Cold, op) ∈ calls b -> i = w) /\ cold_of (calls b) `prefix_of` init_coldboot /\
  (forall later i p op older, calls b = later ++ (i, p, op) :: older -> p <> Cold ->
     WakeColdbootHarts ∈ cold_of older /\ (op ∉ [IpiRawClear; CountEntry] -> before_startup `prefix_of` cold_of older)) /\
  forall i, phase b i = PNext -> entry_count b i = init_count b i /\ before_startup `prefix_of` cold_of (calls b) /\
    exists p older, p <> Exit /\ calls_of i b = rev (pair p <$> path_ops p) ++ older.
Proof.
  intros (Hrun & Hcnt & Hord)%boot_invariant. split_and!.
  - destruct (or_one b Hord) as (w & _ & H). by exists w.
  - apply Hord.
  - intros later i p op older E Hp. eapply log_ordered_at; [apply (or_log b Hord)|exact E|done].
  - intros i Hi. specialize (Hrun i). specialize (Hcnt i). unfold run_ok in Hrun. unfold counts_ok in Hcnt. rewrite Hi in Hrun, Hcnt. split; [done|].
    split; [apply (or_started b Hord i); rewrite Hi; by right; right|]. destruct Hrun as (p & Hp & now & older & E & Hc). exists p, older. split; [done|].
    by rewrite E, app_nil_r.
Qed.

(** ** Booting to the end *)

(** The code a call returns when it succeeds. *)
Definition success (op : init_op) : Z := match op with AllocEntryCount | AllocInitCount => 8 | _ => 0 end.

Definition stuck_free (p : boot_path) (b : boot) : Prop :=
  p <> Warm \/ (entry_count_offset b <> 0 /\ init_count_offset b <> 0).

(** A path whose calls succeed is run to its end, except that a warm start waits. *)
Lemma run_completes i p rest b : phase b i = PRun p rest -> stuck_free p b -> (p = Warm -> HsmExit ∉ rest /\ (HsmInit ∈ rest -> start_pending b i = true)) ->
  exists b', rtc boot_step b b' /\ phase b' i = PRun p [] /\ forall j, j <> i -> phase b' j = phase b j.
Proof.
  revert b. induction rest as [|op rest IH]; intros b Hp Hs Hpend; [by exists b|].
  set (b1 := boot_log_call i p op (set_phase i (PRun p rest) (run_op i op (success op) b))).
  assert (hart_step i (success op) b = Some b1) as Hst.
  { unfold hart_step. rewrite Hp. assert (bool_decide (op = HsmInit) && bool_decide (p = Warm) && negb (start_pending b i) = false) as ->.
    { destruct (bool_decide_reflect (op = HsmInit)) as [->|]; [|done]. destruct (bool_decide_reflect (p = Warm)) as [->|]; [|done]. by rewrite (proj2 (Hpend eq_refl)) by left. }
    assert (op_fails p op (success op) b = false) as ->; [|done]. destruct op; try done. cbn. destruct (bool_decide_reflect (p = Warm)) as [->|]; [|done].
    destruct Hs as [?|[? ?]]; [done|]. by rewrite !(proj2 (Z.eqb_neq _ _)). }
  destruct (IH b1) as (b' & Hrtc & Hp' & Ho).
  - cbn. apply fupd_eq.
  - destruct Hs as [?|[? ?]]; [by left|]. right. by destruct op.
  - intros Hw. destruct (Hpend Hw) as [Hx Hin]. apply not_elem_of_cons in Hx as [Hx1 Hx2]. split; [done|]. intros Hi.
    cbn. rewrite run_op_pending, Hin by (by right). by rewrite bool_decide_eq_false_2 by congruence.
  - exists b'. split; [by eapply rtc_l; [eapply step_hart|]|]. split; [done|]. intros j Hj. rewrite Ho by done. cbn. rewrite fupd_ne by done.
    by destruct (run_op_same i op (success op) b) as (_ & -> & _).
Qed.

End Boot.

(** ** Two harts *)

(** A schedule: a hart runs with the code its call returns, or the cold hart starts
    another one. *)
Definition demo_step (x : Z * Z + Z * Z) (b : boot) : option boot :=
  match x with
  | inl (i, rc) => hart_step (fun _ => Some true) (fun _ => true) i rc b
  | inr (j, i) => match phase b j with PRun Cold (DomainStartup :: _) => Some (start_hart i b) | _ => None end
  end.

Fixpoint demo_run (l : list (Z * Z + Z * Z)) (b : boot) : option boot :=
  match l with [] => Some b | x :: l => b ← demo_step x b; demo_run l b end.

Definition demo_boot : boot := mkBoot 0 0 0 0 (fun _ => 0) (fun _ => 0) (fun _ => PEntry) (fun _ => false) (fun _ => false) [].

Definition ops_of (i : Z) (l : list init_op) : list (Z * Z + Z * Z) := (fun op => inl (i, success op)) <$> l.

(** Hart 1 loses the lottery and waits while hart 0 sets up. *)
Definition demo_schedule : list (Z * Z + Z * Z) :=
  [inl (0, 0); inl (1, 0); inl (1, 0); inl (0, 0)] ++ ops_of 0 (take 8 init_coldboot) ++ [inl (1, 0); inl (1, 0); inl (1, 0)] ++
  ops_of 0 (take 20 (drop 8 init_coldboot)) ++ [inr (0, 1)] ++ ops_of 1 (drop 2 init_warm_startup) ++ ops_of 0 (drop 28 init_coldboot) ++ [inl (0, 0); inl (1, 0)].

Lemma demo_run_reachable l b b' : demo_run l b = Some b' -> rtc (boot_step (fun _ => Some true) (fun _ => true)) b b'.
Proof.
  revert b. induction l as [|x l IH]; intros b; cbn [demo_run]; [by intros [= ->]|]. intros (b1 & E & H)%bind_Some. eapply rtc_l; [|by apply IH].
  destruct x as [[i rc]|[j i]]; cbn [demo_step] in E; [by eapply step_hart|].
  destruct (phase b j) as [| | |[| | |] [|[] rest]| |] eqn:Ej; try done. injection E as <-. by eapply step_domain_startup.
Qed.

Definition demo_end : boot := default demo_boot (demo_run demo_schedule demo_boot).

(** Both harts are in their next stage, hart 0 by the cold boot and hart 1 by the warm
    one, which began before the cold boot was over. *)
Lemma boot_in_order_witness :
  phase demo_end 0 = PNext /\ phase demo_end 1 = PNext /\ coldboot_lottery demo_end = 1 /\ calls_of 1 demo_end = rev (pair Warm <$> init_warm_startup) /\
  entry_count demo_end 0 = 1 /\ init_count demo_end 0 = 1 /\ cold_of (calls demo_end) `prefix_of` init_coldboot.
Proof.
  split_and!; try (vm_compute; reflexivity). eapply (boot_in_order (fun _ => Some true) (fun _ => true) demo_end).
  exists demo_boot. split; [split_and!; try reflexivity; intros i; split_and!; reflexivity|]. apply (demo_run_reachable demo_schedule). vm_compute. reflexivity.
Defined.
