(* ===== verification/AclintMtimer.v ===== *)
(** * The ACLINT machine timer and software interrupts
    (lib/utils/timer/aclint_mtimer.c, lib/utils/ipi/aclint_mswi.c)

    Drivers that implement the timer and interrupt devices.  The registers of 64 bits
    are values by address; on a bus of 32 bits they are read and written in halves
    while the time goes on. *)

From S2P Require Import Prelude SbiBitops SbiHart SbiTimer.

(** ** Access in halves *)

Section Halves.
(** The time at the [k]th access to the device. *)
Variable clock : nat -> Z.

Definition mtimer_time_rd64 (k : nat) : Z := clock k.

(** The value and the number of the next access.  The register has 64 bits, so the
    high half is what is left of the clock after a shift; no truncation is written. *)
Fixpoint mtimer_time_rd32 (fuel k : nat) : option (Z * nat) :=
  match fuel with
  | O => None
  | S fuel =>
      let hi := Z.shiftr (clock k) 32 in
      let lo := u32 (clock (k + 1)%nat) in
      if negb (hi =? Z.shiftr (clock (k + 2)%nat) 32) then mtimer_time_rd32 fuel (k + 3)
      else Some (Z.lor (Z.shiftl hi 32) lo, (k + 3)%nat)
  end.

End Halves.

(** The halves of a register. *)
Definition put_lo (v r : Z) : Z := Z.lor (Z.shiftl (Z.shiftr r 32) 32) (u32 v).
Definition put_hi (v r : Z) : Z := Z.lor (Z.shiftl (u32 v) 32) (u32 r).

Definition mtimer_time_wr64 (timecmp : bool) (value r : Z) : list Z := [value].

(** What a register [r] that nobody else changes holds after each write. *)
Definition mtimer_time_wr32 (timecmp : bool) (value r : Z) : list Z :=
  let r1 := put_lo (if timecmp then 2 ^ 32 - 1 else 0) r in
  let r2 := put_hi (Z.shiftr value 32) r1 in
  [r1; r2; put_lo value r2].

(** ** The timer *)

Record aclint_mtimer_data := mkMt {
  mtime_freq : Z; mtime_addr : Z; mtime_size : Z; mtimecmp_addr : Z; mtimecmp_size : Z; mt_first_hartid : Z; mt_hart_count : Z;
  has_64bit_mmio : bool; has_shared_mtime : bool; time_delta_reference : Z; time_delta_computed : Z }.

Definition ACLINT_MTIMER_ALIGN : Z := 0x8.
Definition ACLINT_MTIMER_MAX_HARTS : Z := 4095.
Definition MTIMER_REGION_ALIGN : Z := 0x1000.

(** The values a compare register goes through, by the accessor of the device. *)
Definition mt_time_wr (mt : aclint_mtimer_data) : bool -> Z -> Z -> list Z :=
  if has_64bit_mmio mt then mtimer_time_wr64 else mtimer_time_wr32.

(** The compare register of a hart. *)
Definition mtimecmp_of (mt : aclint_mtimer_data) (target_hart : Z) : Z := mtimecmp_addr mt + 8 * u32 (target_hart - mt_first_hartid mt).

(** Compare registers by address; the pointer in the scratch area may be NULL. *)
Definition write_cmp (mt : aclint_mtimer_data) (target_hart v : Z) (cmp : Z -> Z) : Z -> Z :=
  let a := mtimecmp_of mt target_hart in
  fun a' => if a' =? a then List.last (mt_time_wr mt true v (cmp a)) 0 else cmp a'.

Definition mtimer_event_stop (ptr : option aclint_mtimer_data) (target_hart : Z) (cmp : Z -> Z) : Z -> Z :=
  match ptr with None => cmp | Some mt => write_cmp mt target_hart ULONG_MAX cmp end.

Definition mtimer_event_start (ptr : option aclint_mtimer_data) (target_hart next_event : Z) (cmp : Z -> Z) : Z -> Z :=
  match ptr with None => cmp | Some mt => write_cmp mt target_hart next_event cmp end.

(** [mtimer_value] at the access [k]. *)
Definition mtimer_value (ptr : option aclint_mtimer_data) (clock : nat -> Z) (fuel k : nat) : option (Z * nat) :=
  match ptr with
  | None => Some (0, k)
  | Some mt => if has_64bit_mmio mt then Some (mtimer_time_rd64 clock k, S k) else mtimer_time_rd32 clock fuel k
  end.

(** The device with its flag exchanged, what is written to the time register, and the
    access of the last write; the reference device has the clock [ref_clock]. *)
Definition aclint_mtimer_sync (mt ref : aclint_mtimer_data) (clock ref_clock : nat -> Z) (fuel k : nat) : option (aclint_mtimer_data * option Z * nat) :=
  if has_shared_mtime mt || (time_delta_reference mt =? 0) then Some (mt, None, k)
  else
    let computed := negb (time_delta_computed mt =? 0) in
    let mt := mkMt (mtime_freq mt) (mtime_addr mt) (mtime_size mt) (mtimecmp_addr mt) (mtimecmp_size mt) (mt_first_hartid mt) (mt_hart_count mt)
                (has_64bit_mmio mt) (has_shared_mtime mt) (time_delta_reference mt) 1 in
    if computed then Some (mt, None, k)
    else
      '(v1, k) ← mtimer_value (Some mt) clock fuel k;
      '(mv, k) ← mtimer_value (Some ref) ref_clock fuel k;
      '(v2, k) ← mtimer_value (Some mt) clock fuel k;
      let delta := u64 (mv - u64 (v1 / 2 + v2 / 2)) in
      '(v3, k) ← mtimer_value (Some mt) clock fuel k;
      Some (mt, Some (u64 (v3 + delta)), if has_64bit_mmio mt then k else (k + 2)%nat).

(** The result, the device, what is written to the time register and the compare
    registers. *)
Definition aclint_mtimer_warm_init (ptr : option aclint_mtimer_data) (ref : aclint_mtimer_data) (clock ref_clock : nat -> Z) (fuel k : nat) (target_hart : Z) (cmp : Z -> Z)
    : option (Z * option aclint_mtimer_data * option Z * (Z -> Z)) :=
  match ptr with
  | None => Some (SBI_ENODEV, None, None, cmp)
  | Some mt =>
      '(mt, time, _) ← aclint_mtimer_sync mt ref clock ref_clock fuel k;
      Some (0, Some mt, time, write_cmp mt target_hart ULONG_MAX cmp)
  end.

(** The devices by address, the pointers in the scratch areas by hart id, whether
    [mtimer.timer_value] and the timer device are set. *)
Record mtimers {W : Type} := mkMts {
  mtimer_ptr_offset : Z; mt_at : Z -> aclint_mtimer_data; hart_mt : Z -> Z; can_read : bool; registered : bool; mt_root : W }.
Arguments mtimers : clear implicits.

Section ColdInit.
Context {W : Type}.
(** [sbi_hartid_to_scratch] gives a pointer; [sbi_domain_root_add_memrange]. *)
Variables (has_scratch : Z -> bool) (root_add_memrange : Z -> Z -> Z -> Z -> W -> Z * W).

Definition put_mt (a : Z) (d : aclint_mtimer_data) (w : mtimers W) : mtimers W :=
  mkMts W (mtimer_ptr_offset w) (fun a' => if a' =? a then d else mt_at w a') (hart_mt w) (can_read w) (registered w) (mt_root w).

Definition aclint_mtimer_set_reference (mt ref : Z) (w : mtimers W) : mtimers W :=
  if (mt =? 0) || (ref =? 0) || (mt =? ref) then w
  else
    let d := mt_at w mt in
    put_mt mt (mkMt (mtime_freq d) (mtime_addr d) (mtime_size d) (mtimecmp_addr d) (mtimecmp_size d) (mt_first_hartid d) (mt_hart_count d)
                 (has_64bit_mmio d) (has_shared_mtime d) ref 0) w.

Fixpoint set_hart_ptrs (n : nat) (hartid mt : Z) (w : mtimers W) : mtimers W :=
  match n with
  | O => w
  | S n =>
      set_hart_ptrs n (u32 (hartid + 1)) mt
        (if has_scratch hartid then
           mkMts W (mtimer_ptr_offset w) (mt_at w) (fun h => if h =? hartid then mt else hart_mt w h) (can_read w) (registered w) (mt_root w)
         else w)
  end.

Definition MTIMER_FLAGS : Z := Z.lor (2 ^ 31) (Z.lor 1 2).

Definition add_range (addr size : Z) (w : mtimers W) : Z * mtimers W :=
  let '(rc, r) := root_add_memrange addr size MTIMER_REGION_ALIGN MTIMER_FLAGS (mt_root w) in
  (rc, mkMts W (mtimer_ptr_offset w) (mt_at w) (hart_mt w) (can_read w) (registered w) r).

Definition bad_mtimer (d : aclint_mtimer_data) : bool :=
  let low x := negb (Z.land x (ACLINT_MTIMER_ALIGN - 1) =? 0) in
  (negb (mt_hart_count d =? 0) && (mtimecmp_size d =? 0)) || (negb (mtime_size d =? 0) && low (mtime_addr d)) ||
  (negb (mtime_size d =? 0) && low (mtime_size d)) || low (mtimecmp_addr d) || low (mtimecmp_size d) || (ACLINT_MTIMER_MAX_HARTS <? mt_hart_count d).

(** The regions of the device are added to the root domain, as one where they touch. *)
Definition add_ranges (d : aclint_mtimer_data) (w : mtimers W) : Z * mtimers W :=
  if mtime_addr d =? u64 (mtimecmp_addr d + mtimecmp_size d) then add_range (mtimecmp_addr d) (u64 (mtime_size d + mtimecmp_size d)) w
  else if mtimecmp_addr d =? u64 (mtime_addr d + mtime_size d) then add_range (mtime_addr d) (u64 (mtime_size d + mtimecmp_size d)) w
  else
    let '(rc, w) := add_range (mtime_addr d) (mtime_size d) w in
    if negb (rc =? 0) then (rc, w) else add_range (mtimecmp_addr d) (mtimecmp_size d) w.

(** [alloc] is what the allocator of scratch offsets returns. *)
Definition aclint_mtimer_cold_init (alloc mt reference : Z) (w : mtimers W) : Z * mtimers W :=
  if (mt =? 0) || bad_mtimer (mt_at w mt) then (SBI_EINVAL, w)
  else if negb (reference =? 0) && negb (mtime_freq (mt_at w mt) =? mtime_freq (mt_at w reference)) then (SBI_EINVAL, w)
  else
    let off := if mtimer_ptr_offset w =? 0 then alloc else mtimer_ptr_offset w in
    let w := mkMts W off (mt_at w) (hart_mt w) (can_read w) (registered w) (mt_root w) in
    if off =? 0 then (SBI_ENOMEM, w)
    else
      let w := aclint_mtimer_set_reference mt reference w in
      let d := mt_at w mt in
      let w := set_hart_ptrs (Z.to_nat (mt_hart_count d)) (mt_first_hartid d) mt w in
      let w := if mtime_size d =? 0 then mkMts W (mtimer_ptr_offset w) (mt_at w) (hart_mt w) false (registered w) (mt_root w) else w in
      let '(rc, w) := add_ranges d w in
      if negb (rc =? 0) then (rc, w)
      else (0, mkMts W (mtimer_ptr_offset w) (mt_at w) (hart_mt w) (can_read w) true (mt_root w)).

End ColdInit.

(** ** Halves *)

Lemma halves v : Z.lor (Z.shiftl (Z.shiftr v 32) 32) (u32 v) = v.
Proof.
  apply Z.bits_inj_iff'. intros i Hi. unfold wrap. rewrite Z.lor_spec, Z.shiftl_spec by done. destruct (Z.ltb_spec i 32).
  - rewrite (Z.testbit_neg_r _ (i - 32)) by lia. by rewrite Z.mod_pow2_bits_low by lia.
  - rewrite Z.shiftr_spec by lia. rewrite Z.mod_pow2_bits_high by lia. rewrite orb_false_r. f_equal. lia.
Qed.

Lemma halves_add h l : 0 <= l < 2 ^ 32 -> Z.lor (Z.shiftl h 32) l = 2 ^ 32 * h + l.
Proof.
  intros Hl. rewrite <- (halves (2 ^ 32 * h + l)). rewrite Z.shiftr_div_pow2 by lia. unfold wrap.
  rewrite Z.mul_comm, Z.div_add_l, Z.div_small, Z.add_0_r by lia. rewrite Z.add_comm, Z.mod_add, Z.mod_small by lia. done.
Qed.

Lemma put_lo_value v r : put_lo v r = 2 ^ 32 * (r / 2 ^ 32) + u32 v.
Proof. unfold put_lo. rewrite halves_add by (pose proof (wrap_range 32 v); lia). by rewrite Z.shiftr_div_pow2. Qed.

Lemma put_hi_value v r : put_hi v r = 2 ^ 32 * u32 v + u32 r.
Proof. unfold put_hi. by rewrite halves_add by (pose proof (wrap_range 32 r); lia). Qed.

(** While the two high halves agree, so does the one between. *)
Lemma between_high a b c : a <= b <= c -> Z.shiftr a 32 = Z.shiftr c 32 -> Z.shiftr b 32 = Z.shiftr a 32.
Proof.
  intros H E. rewrite !Z.shiftr_div_pow2 in * by lia. pose proof (Z.div_le_mono a b (2 ^ 32)). pose proof (Z.div_le_mono b c (2 ^ 32)). lia.
Qed.

(** Never going back. *)
Definition forward (clock : nat -> Z) : Prop := forall k, clock k <= clock (S k).

Lemma forward_le clock j k : forward clock -> (j <= k)%nat -> clock j <= clock k.
Proof. intros H. induction 1 as [|m ? IH]; [lia|]. specialize (H m). lia. Qed.

Lemma rd32_exact clock fuel k v k' : forward clock -> mtimer_time_rd32 clock fuel k = Some (v, k') -> exists j, (k <= j < k')%nat /\ v = clock j.
Proof.
  intros Hf. revert k. induction fuel as [|fuel IH]; intros k; cbn [mtimer_time_rd32]; [done|].
  destruct (Z.eqb_spec (Z.shiftr (clock k) 32) (Z.shiftr (clock (k + 2)%nat) 32)) as [E|E]; cbn [negb].
  - intros [= <- <-]. exists (k + 1)%nat. split; [lia|]. rewrite <- (halves (clock (k + 1)%nat)) at 2. do 2 f_equal. symmetry.
    apply (between_high _ _ (clock (k + 2)%nat)); [|done]. split; apply forward_le; (done || lia).
  - intros H. destruct (IH _ H) as (j & Hj & ->). exists j. split; [lia|done].
Qed.

(** Two rounds are enough while the time moves less than one high half. *)
Lemma rd32_returns clock k fuel : forward clock -> clock (k + 5)%nat < clock k + 2 ^ 32 -> exists v k', mtimer_time_rd32 clock (S (S fuel)) k = Some (v, k') /\ (k' <= k + 6)%nat.
Proof.
  intros Hf Hc. cbn [mtimer_time_rd32]. destruct (Z.eqb_spec (Z.shiftr (clock k) 32) (Z.shiftr (clock (k + 2)%nat) 32)) as [E|E]; cbn [negb]; [eexists _, _; split; [reflexivity|lia]|].
  assert (Z.shiftr (clock (k + 3)%nat) 32 = Z.shiftr (clock (k + 3 + 2)%nat) 32) as ->; [|rewrite Z.eqb_refl; cbn [negb]; eexists _, _; split; [reflexivity|lia]].
  rewrite !Z.shiftr_div_pow2 in * by lia. replace (k + 3 + 2)%nat with (k + 5)%nat by lia.
  pose proof (forward_le clock k (k + 2) Hf ltac:(lia)). pose proof (forward_le clock (k + 2) (k + 3) Hf ltac:(lia)). pose proof (forward_le clock (k + 3) (k + 5) Hf ltac:(lia)).
  pose proof (Z.div_le_mono (clock k) (clock (k + 2)%nat) (2 ^ 32)). pose proof (Z.div_le_mono (clock (k + 2)%nat) (clock (k + 3)%nat) (2 ^ 32)).
  pose proof (Z.div_le_mono (clock (k + 3)%nat) (clock (k + 5)%nat) (2 ^ 32)). pose proof (Z.div_le_mono (clock (k + 5)%nat) (clock k + 1 * 2 ^ 32) (2 ^ 32)).
  rewrite Z.div_add in * by lia. lia.
Qed.

(** ** Writing *)

Lemma div_high v : word_ok v -> 0 <= v / 2 ^ 32 < 2 ^ 32.
Proof. intros [? ?]. split; [apply Z.div_pos; lia|apply Z.div_lt_upper_bound; lia]. Qed.

Lemma high_of h l : 0 <= l < 2 ^ 32 -> (2 ^ 32 * h + l) / 2 ^ 32 = h.
Proof. intros. rewrite (Z.mul_comm (2 ^ 32)), Z.div_add_l, Z.div_small by lia. lia. Qed.

Lemma low_of h l : 0 <= l < 2 ^ 32 -> u32 (2 ^ 32 * h + l) = l.
Proof. intros. unfold wrap. rewrite Z.add_comm, (Z.mul_comm (2 ^ 32)), Z.mod_add, Z.mod_small by lia. done. Qed.

Lemma parts v : v = 2 ^ 32 * (v / 2 ^ 32) + u32 v.
Proof. apply Z.div_mod. lia. Qed.

(** The compare register ends with the value. *)
Lemma wr_last mt b v r : word_ok v -> List.last (mt_time_wr mt b v r) 0 = v.
Proof.
  intros Hv. unfold mt_time_wr. destruct (has_64bit_mmio mt); [done|]. unfold mtimer_time_wr32. cbv zeta. cbn [List.last].
  pose proof (div_high v Hv). rewrite put_lo_value, put_hi_value, Z.shiftr_div_pow2, (wrap_small 32 (v / 2 ^ 32)) by lia.
  rewrite high_of by (apply wrap_range; lia). symmetry. apply parts.
Qed.

(** It is never below both its old and its new value. *)
Lemma wr_compare mt v r : word_ok v -> word_ok r -> Forall (fun x => Z.min r v <= x) (mt_time_wr mt true v r).
Proof.
  intros Hv Hr. pose proof (wr_last mt true v r Hv) as Hl. unfold mt_time_wr in *. destruct (has_64bit_mmio mt); [apply Forall_singleton; lia|].
  unfold mtimer_time_wr32 in *. cbv zeta in *. cbn [List.last] in Hl. rewrite Hl. clear Hl. pose proof (div_high v Hv). rewrite Z.shiftr_div_pow2 by lia.
  rewrite put_hi_value, put_lo_value, (wrap_small 32 (v / 2 ^ 32)), low_of, (wrap_small 32 (2 ^ 32 - 1)) by (rewrite ?wrap_small by lia; lia).
  pose proof (parts v). pose proof (parts r). pose proof (wrap_range 32 v). pose proof (wrap_range 32 r).
  repeat (apply Forall_cons; split; [lia|]). apply Forall_nil_2.
Qed.

(** The time register goes on between the writes; its low half starts at zero, so
    that nothing is carried into the high one. *)
Lemma wr_time_running v r d1 d2 : word_ok v -> 0 <= d1 -> 0 <= d2 -> d1 + d2 < 2 ^ 32 ->
  put_lo v (put_hi (Z.shiftr v 32) (put_lo 0 r + d1) + d2) = v.
Proof.
  intros Hv H1 H2 H12. pose proof (div_high v Hv) as Hvh. rewrite Z.shiftr_div_pow2, put_hi_value, !put_lo_value, (wrap_small 32 (v / 2 ^ 32)) by lia.
  rewrite (wrap_small 32 0), Z.add_0_r, low_of, <- Z.add_assoc, high_of by lia. symmetry. apply parts.
Qed.

(** ** The driver is a timer device *)

Section Driver.
Variables (mt : aclint_mtimer_data) (hart : Z).

Lemma mtimer_start_irq n cmp now : 0 <= n < 2 ^ 64 -> (mtimer_event_start (Some mt) hart n cmp (mtimecmp_of mt hart) <=? now) = (n <=? now).
Proof. intros Hn. unfold mtimer_event_start, write_cmp. by rewrite Z.eqb_refl, wr_last. Qed.

Lemma mtimer_stop_irq cmp now : 0 <= now < 2 ^ 64 - 1 -> (mtimer_event_stop (Some mt) hart cmp (mtimecmp_of mt hart) <=? now) = false.
Proof. intros Hnow. unfold mtimer_event_stop, write_cmp. rewrite Z.eqb_refl, wr_last by done. unfold ULONG_MAX. lia. Qed.

Definition mtimer_device : TimerDevice (Z -> Z) := {|
  timer_freq := mtime_freq mt;
  has_timer_value := negb (mtime_size mt =? 0);
  has_event_start := true;
  has_event_stop := true;
  has_warm_init := true;
  timer_event_start := mtimer_event_start (Some mt) hart;
  timer_event_stop := mtimer_event_stop (Some mt) hart;
  warm_init cmp := (0, write_cmp mt hart ULONG_MAX cmp);
  timer_irq cmp now := cmp (mtimecmp_of mt hart) <=? now;
  timer_start_irq := mtimer_start_irq;
  timer_stop_irq := mtimer_stop_irq;
|}.

End Driver.

(** Different harts have different registers. *)
Lemma mtimecmp_inj mt h1 h2 : mt_first_hartid mt <= h1 < mt_first_hartid mt + 2 ^ 32 -> mt_first_hartid mt <= h2 < mt_first_hartid mt + 2 ^ 32 ->
  mtimecmp_of mt h1 = mtimecmp_of mt h2 -> h1 = h2.
Proof. intros H1 H2 H. unfold mtimecmp_of in H. rewrite !wrap_small in H by lia. lia. Qed.

(** ** Synchronising *)

(** A reading is the time of one of its accesses. *)
Lemma value_exact mt clock fuel k v k' : forward clock -> mtimer_value (Some mt) clock fuel k = Some (v, k') -> exists j, (k <= j < k')%nat /\ v = clock j.
Proof.
  intros Hf. cbn [mtimer_value]. destruct (has_64bit_mmio mt); [|by apply rd32_exact]. intros [= <- <-]. exists k. split; [lia|done].
Qed.

(** The time register is set so close to the reference as the synchronisation is
    short. *)
Lemma sync_close mt mt' ref clock ref_clock off fuel k v k' : forward clock -> (forall j, ref_clock j = clock j + off) -> (forall j, word_ok (clock j)) ->
  clock k' - clock k < ref_clock k -> ref_clock k' + (clock k' - clock k) + 1 < 2 ^ 64 ->
  aclint_mtimer_sync mt ref clock ref_clock fuel k = Some (mt', Some v, k') -> time_delta_computed mt' = 1 /\ Z.abs (v - ref_clock k') <= clock k' - clock k + 1.
Proof.
  intros Hf Href Hw Hlo Hhi. unfold aclint_mtimer_sync. destruct (_ || _); [done|]. destruct (negb _); [done|].
  set (mt1 := mkMt _ _ _ _ _ _ _ _ _ _ _).
  assert (forward ref_clock) as Hfr by (intros j; rewrite !Href; specialize (Hf j); lia).
  destruct (mtimer_value (Some mt1) clock fuel k) as [[v1 k1]|] eqn:E1; [|done]. cbn [mbind option_bind].
  destruct (mtimer_value (Some ref) ref_clock fuel k1) as [[mv k2]|] eqn:E2; [|done]. cbn [mbind option_bind].
  destruct (mtimer_value (Some mt1) clock fuel k2) as [[v2 k3]|] eqn:E3; [|done]. cbn [mbind option_bind].
  destruct (mtimer_value (Some mt1) clock fuel k3) as [[v3 k4]|] eqn:E4; [|done]. cbn [mbind option_bind]. intros [= <- Ev Ek]. split; [done|].
  destruct (value_exact _ _ _ _ _ _ Hf E1) as (j1 & J1 & ->), (value_exact _ _ _ _ _ _ Hfr E2) as (j2 & J2 & ->), (value_exact _ _ _ _ _ _ Hf E3) as (j3 & J3 & ->), (value_exact _ _ _ _ _ _ Hf E4) as (j4 & J4 & ->).
  rewrite !Href in *. assert (k4 <= k')%nat by (rewrite <- Ek; destruct (has_64bit_mmio mt); lia).
  pose proof (forward_le clock k j1 Hf ltac:(lia)). pose proof (forward_le clock j1 j2 Hf ltac:(lia)). pose proof (forward_le clock j2 j3 Hf ltac:(lia)).
  pose proof (forward_le clock j3 j4 Hf ltac:(lia)). pose proof (forward_le clock j4 k' Hf ltac:(lia)).
  pose proof (Hw j1). pose proof (Hw j3). unfold word_ok in *.
  pose proof (Z.div_mod (clock j1) 2 ltac:(lia)). pose proof (Z.mod_pos_bound (clock j1) 2 ltac:(lia)). pose proof (Z.div_mod (clock j3) 2 ltac:(lia)). pose proof (Z.mod_pos_bound (clock j3) 2 ltac:(lia)).
  assert (v = clock j4 + (clock j2 + off - (clock j1 / 2 + clock j3 / 2))) as ->; [|lia].
  rewrite <- Ev. rewrite (wrap_small 64 (clock j1 / 2 + clock j3 / 2)) by lia. rewrite wrap_add_r. apply wrap_small. lia.
Qed.

(** Whether the time is synchronised or not, the compare register of the hart is
    cleared. *)
Lemma warm_init_clears mt ref clock ref_clock fuel k hart cmp rc mt' time cmp' :
  aclint_mtimer_warm_init (Some mt) ref clock ref_clock fuel k hart cmp = Some (rc, mt', time, cmp') -> (rc, cmp') = warm_init (TimerDevice := mtimer_device mt hart) cmp.
Proof.
  cbn [aclint_mtimer_warm_init warm_init mtimer_device]. destruct (aclint_mtimer_sync mt ref clock ref_clock fuel k) as [[[mt1 t] k1]|] eqn:E; [|done]. cbn [mbind option_bind].
  intros [= <- _ _ <-]. f_equal. revert E. unfold aclint_mtimer_sync. destruct (_ || _); [by intros [= <- _ _]|]. destruct (negb _); [by intros [= <- _ _]|].
  set (mt2 := mkMt _ _ _ _ _ _ _ _ _ _ _). intros E. assert (mt1 = mt2) as ->; [|done]. revert E.
  destruct (mtimer_value (Some mt2) clock fuel k) as [[v1 k1']|]; [|done]. cbn [mbind option_bind].
  destruct (mtimer_value (Some ref) ref_clock fuel k1') as [[mv k2]|]; [|done]. cbn [mbind option_bind].
  destruct (mtimer_value (Some mt2) clock fuel k2) as [[v2 k3]|]; [|done]. cbn [mbind option_bind].
  destruct (mtimer_value (Some mt2) clock fuel k3) as [[v3 k4]|]; [|done]. cbn [mbind option_bind]. by intros [= <- _ _].
Qed.

(** ** The regions *)

Definition in_range (a size x : Z) : Prop := a <= x < a + size.

(** The ranges given to the root domain are those of the registers. *)
Lemma mtimer_ranges d (w : mtimers (list (Z * Z))) rc w' : 0 <= mtime_addr d -> 0 <= mtimecmp_addr d -> 0 <= mtime_size d -> 0 <= mtimecmp_size d ->
  mtime_addr d + mtime_size d < 2 ^ 64 -> mtimecmp_addr d + mtimecmp_size d < 2 ^ 64 -> mt_root w = [] -> mtime_size d + mtimecmp_size d < 2 ^ 64 ->
  add_ranges (fun a s _ _ l => (0, (a, s) :: l)) d w = (rc, w') ->
  rc = 0 /\ forall x, (exists a s, (a, s) ∈ mt_root w' /\ in_range a s x) <-> in_range (mtime_addr d) (mtime_size d) x \/ in_range (mtimecmp_addr d) (mtimecmp_size d) x.
Proof.
  intros Ha Hc Hs1 Hs2 E1 E2 Hw Hs. unfold add_ranges, add_range. rewrite !Hw, !wrap_small by lia.
  assert (forall a s x, (exists a' s', (a', s') ∈ [(a, s)] /\ in_range a' s' x) <-> in_range a s x) as Hone.
  { intros a s x. split; [intros (a' & s' & [= -> ->]%list_elem_of_singleton & ?); done|]. intros H. exists a, s. split; [by left|done]. }
  destruct (Z.eqb_spec (mtime_addr d) (mtimecmp_addr d + mtimecmp_size d)) as [E|E]; [intros [= <- <-]; split; [done|]; intros x; cbn [mt_root]; rewrite Hone; unfold in_range; lia|].
  destruct (Z.eqb_spec (mtimecmp_addr d) (mtime_addr d + mtime_size d)) as [E'|E']; [intros [= <- <-]; split; [done|]; intros x; cbn [mt_root]; rewrite Hone; unfold in_range; lia|].
  cbn [negb Z.eqb mt_root]. intros [= <- <-]. split; [done|]. intros x. cbn [mt_root]. split.
  - intros (a & s & [[= -> ->]|[= -> ->]%list_elem_of_singleton]%elem_of_cons & Hx); [by right|by left].
  - intros [Hx|Hx]; eexists _, _; (split; [|exact Hx]); [right; left|left].
Qed.

(** ** Software interrupts *)

Record aclint_mswi_data := mkMswi { mswi_addr : Z; mswi_size : Z; mswi_first_hartid : Z; mswi_hart_count : Z }.

Definition ACLINT_MSWI_ALIGN : Z := 0x1000.
Definition ACLINT_MSWI_MAX_HARTS : Z := 4095.

(** The register of a hart. *)
Definition msip_of (d : aclint_mswi_data) (hartid : Z) : Z := mswi_addr d + 4 * u32 (hartid - mswi_first_hartid d).

Definition write_msip (a v : Z) (msip : Z -> Z) : Z -> Z := fun a' => if a' =? a then v else msip a'.

Section Mswi.
(** [sbi_hartindex_to_scratch] gives a pointer, [sbi_hartindex_to_hartid], and the
    pointers in the scratch areas by hart id. *)
Variables (has_scratch : Z -> bool) (hartid_of : Z -> Z) (hart_mswi : Z -> option aclint_mswi_data).

Definition mswi_ipi_send (hart_index : Z) (msip : Z -> Z) : Z -> Z :=
  if negb (has_scratch hart_index) then msip
  else
    match hart_mswi (hartid_of hart_index) with
    | None => msip
    | Some d => write_msip (msip_of d (hartid_of hart_index)) 1 msip
    end.

Definition mswi_ipi_clear (current_hartid : Z) (msip : Z -> Z) : Z -> Z :=
  match hart_mswi current_hartid with
  | None => msip
  | Some d => write_msip (msip_of d current_hartid) 0 msip
  end.

End Mswi.

Fixpoint set_mswi_ptrs (has_scratch : Z -> bool) (n : nat) (hartid : Z) (d : aclint_mswi_data) (ptrs : Z -> option aclint_mswi_data) : Z -> option aclint_mswi_data :=
  match n with
  | O => ptrs
  | S n => set_mswi_ptrs has_scratch n (u32 (hartid + 1)) d (if has_scratch hartid then fun h => if h =? hartid then Some d else ptrs h else ptrs)
  end.

(** The pointers are set, the region is added to the root domain; the last result is
    whether the device is registered. *)
Definition aclint_mswi_cold_init {W : Type} (has_scratch : Z -> bool) (root_add_memrange : Z -> Z -> Z -> Z -> W -> Z * W) (alloc : Z)
    (d : option aclint_mswi_data) (off : Z) (ptrs : Z -> option aclint_mswi_data) (root : W) : Z * (Z * (Z -> option aclint_mswi_data) * W * bool) :=
  match d with
  | None => (SBI_EINVAL, (off, ptrs, root, false))
  | Some m =>
      if negb (Z.land (mswi_addr m) (ACLINT_MSWI_ALIGN - 1) =? 0) || (mswi_size m <? mswi_hart_count m * 4) ||
         (mswi_hart_count m =? 0) || (ACLINT_MSWI_MAX_HARTS <? mswi_hart_count m) then (SBI_EINVAL, (off, ptrs, root, false))
      else
        let off := if off =? 0 then alloc else off in
        if off =? 0 then (SBI_ENOMEM, (off, ptrs, root, false))
        else
          let ptrs := set_mswi_ptrs has_scratch (Z.to_nat (mswi_hart_count m)) (mswi_first_hartid m) m ptrs in
          let '(rc, root) := root_add_memrange (mswi_addr m) (mswi_size m) ACLINT_MSWI_ALIGN MTIMER_FLAGS root in
          (rc, (off, ptrs, root, rc =? 0))
  end.

(** An interrupt is raised for the hart it is sent to and for no other of the device,
    and taken back by that hart. *)
Lemma mswi_one_hart has_scratch hartid_of ptrs d idx msip h : has_scratch idx = true -> ptrs (hartid_of idx) = Some d ->
  mswi_first_hartid d <= hartid_of idx < mswi_first_hartid d + 2 ^ 32 -> mswi_first_hartid d <= h < mswi_first_hartid d + 2 ^ 32 ->
  let msip1 := mswi_ipi_send has_scratch hartid_of ptrs idx msip in
  msip1 (msip_of d h) = (if h =? hartid_of idx then 1 else msip (msip_of d h)) /\
  mswi_ipi_clear ptrs (hartid_of idx) msip1 (msip_of d h) = if h =? hartid_of idx then 0 else msip (msip_of d h).
Proof.
  intros Hs Hp H1 H2. cbv zeta. unfold mswi_ipi_send, mswi_ipi_clear, write_msip. rewrite Hs, Hp. cbn [negb].
  assert ((msip_of d h =? msip_of d (hartid_of idx)) = (h =? hartid_of idx)) as ->.
  { unfold msip_of. rewrite !wrap_small by lia. destruct (Z.eqb_spec h (hartid_of idx)) as [->|]; [apply Z.eqb_refl|]. apply Z.eqb_neq. lia. }
  by destruct (h =? hartid_of idx).
Qed.

(** Every hart of the device that has a scratch area gets the pointer. *)
Lemma mswi_ptrs_set has_scratch n first d ptrs i : 0 <= first -> first + Z.of_nat n <= 2 ^ 32 -> first <= i < first + Z.of_nat n -> has_scratch i = true ->
  set_mswi_ptrs has_scratch n first d ptrs i = Some d.
Proof.
  intros H0 Hn Hi Hs. assert (forall n first ptrs, (first = 2 ^ 32 -> n = 0%nat) -> 0 <= first -> first + Z.of_nat n <= 2 ^ 32 ->
    ptrs i = Some d \/ first <= i < first + Z.of_nat n -> set_mswi_ptrs has_scratch n first d ptrs i = Some d) as H; [|apply H; [lia|lia|lia|by right]].
  clear -Hs. induction n as [|n IH]; intros first ptrs Hz H0 Hn Hi; cbn [set_mswi_ptrs]; [destruct Hi; [done|lia]|].
  destruct (Z.eqb_spec (first + 1) (2 ^ 32)) as [E|E].
  - assert (n = 0%nat) as -> by lia. cbn [set_mswi_ptrs]. destruct Hi as [Hi|Hi]; [destruct (has_scratch first); [|done]; by destruct (i =? first)|].
    assert (i = first) as -> by lia. by rewrite Hs, Z.eqb_refl.
  - rewrite wrap_small by lia. apply IH; [lia|lia|lia|]. destruct Hi as [Hi|Hi].
    + left. destruct (has_scratch first); [|done]. by destruct (i =? first).
    + destruct (Z.eqb_spec i first) as [->|]; [left; by rewrite Hs, Z.eqb_refl|right; lia].
Qed.

(** ** The theorem *)

(** C31: the driver keeps time exactly, also on a bus of 32 bits: a reading is the time
    of one of its accesses, though the counter runs on between the halves; setting a
    deadline leaves it in the register of the hart and changes no other hart's, and
    meanwhile the register is never below both the old and the new deadline, so that
    no interrupt is raised that neither of them asks for; the time register can be
    set while it runs. *)
Theorem mtimer_exact mt hart cmp n clock k : word_ok n -> (forall a, word_ok (cmp a)) -> forward clock -> clock (k + 5)%nat < clock k + 2 ^ 32 ->
  (exists v k', mtimer_value (Some mt) clock 2 k = Some (v, k') /\ (k' <= k + 6)%nat /\ exists j, (k <= j < k')%nat /\ v = clock j) /\
  mtimer_event_start (Some mt) hart n cmp (mtimecmp_of mt hart) = n /\
  (forall h, mt_first_hartid mt <= h < mt_first_hartid mt + 2 ^ 32 -> mt_first_hartid mt <= hart < mt_first_hartid mt + 2 ^ 32 -> h <> hart ->
     mtimer_event_start (Some mt) hart n cmp (mtimecmp_of mt h) = cmp (mtimecmp_of mt h)) /\
  Forall (fun x => Z.min (cmp (mtimecmp_of mt hart)) n <= x) (mt_time_wr mt true n (cmp (mtimecmp_of mt hart))) /\
  forall r d1 d2, 0 <= d1 -> 0 <= d2 -> d1 + d2 < 2 ^ 32 -> put_lo n (put_hi (Z.shiftr n 32) (put_lo 0 r + d1) + d2) = n.
Proof.
  intros Hn Hc Hf Hk. split; [|split; [|split; [|split]]].
  - assert (exists v k', mtimer_value (Some mt) clock 2 k = Some (v, k') /\ (k' <= k + 6)%nat) as (v & k' & E & Hk').
    { cbn [mtimer_value]. destruct (has_64bit_mmio mt); [eexists _, _; split; [reflexivity|lia]|]. by apply rd32_returns. }
    exists v, k'. split; [done|]. split; [done|]. by apply (value_exact mt clock 2).
  - unfold mtimer_event_start, write_cmp. by rewrite Z.eqb_refl, wr_last.
  - intros h H1 H2 Hne. unfold mtimer_event_start, write_cmp. destruct (Z.eqb_spec (mtimecmp_of mt h) (mtimecmp_of mt hart)) as [E|]; [|done].
    by apply mtimecmp_inj in E.
  - by apply wr_compare.
  - intros. by apply wr_time_running.
Qed.

Definition demo_mt : aclint_mtimer_data := mkMt 10000000 0x200bff8 8 0x2004000 0x7ff8 0 4 false true 0 0.

(** A reading across a carry, and a deadline whose high half grows. *)
Lemma mtimer_exact_witness :
  let clock k := 2 ^ 32 - 1 + Z.of_nat k in
  (exists v k', mtimer_value (Some demo_mt) clock 2 0 = Some (v, k') /\ (k' <= 6)%nat /\ exists j, (0 <= j < k')%nat /\ v = clock j) /\
  mtimer_event_start (Some demo_mt) 1 (2 ^ 33 + 5) (fun _ => 2 ^ 32 + 7) 0x2004008 = 2 ^ 33 + 5.
Proof.
  intros clock. destruct (mtimer_exact demo_mt 1 (fun _ => 2 ^ 32 + 7) (2 ^ 33 + 5) clock 0) as (H1 & H2 & _).
  - split; reflexivity || discriminate.
  - intros a. split; reflexivity || discriminate.
  - intros k. unfold clock. lia.
  - reflexivity.
  - split; [exact H1|exact H2].
Defined.

(** The supervisor's timer on this device keeps its contract. *)
Lemma mtimer_timer_contract mt hart feat (s0 : timer) n0 now0 s d now : let _ := mtimer_device mt hart in
  sbi_hart_has_extension feat SBI_HART_EXT_SSTC = false -> timer_dev s0 = true -> 0 <= n0 < 2 ^ 64 ->
  tsteps feat (sbi_timer_event_start feat n0 s0, n0, now0) (s, d, now) ->
  (Z.testbit (mip s) 5 = true -> d <= now) /\
  (d <= now -> Z.testbit (mip s) 5 = true \/ (Z.testbit (mie s) 7 = true /\ dev s (mtimecmp_of mt hart) <= now /\ Z.testbit (mip (sbi_timer_process feat s)) 5 = true)).
Proof.
  intros I Hs Hd Hn Hst. destruct (@timer_contract _ (mtimer_device mt hart) feat s0 n0 now0 s d now Hs eq_refl Hd Hn Hst) as [H1 H2]. split; [done|]. intros Hle.
  destruct (H2 Hle) as [|(Hm & Hi & _ & Hp)]; [by left|]. right. split; [done|]. split; [by apply Z.leb_le|done].
Qed.
