(* ===== verification/Plic.v ===== *)
(** * The platform-level interrupt controller (lib/utils/irqchip/plic.c)

    A driver: its registers are words of 32 bits by address.  The contexts of the harts
    are set up, and saved to memory and restored around a system suspend. *)

From S2P Require Import Prelude SbiBitops SbiHeap.

(** Addresses are computed in 32 bits and added to the pointer. *)
Record plic_data := mkPlic { plic_addr : Z; plic_size : Z; num_src : Z; plic_flags : Z; pm_data : Z; context_map : Z -> Z * Z }.

Definition PLIC_FLAG_ARIANE_BUG : Z := 1.
Definition PLIC_FLAG_THEAD_DELEGATION : Z := 2.
Definition PLIC_FLAG_ENABLE_PM : Z := 4.
Definition PLIC_PRIORITY_BASE : Z := 0.
Definition PLIC_ENABLE_BASE : Z := 0x2000.
Definition PLIC_ENABLE_STRIDE : Z := 0x80.
Definition PLIC_CONTEXT_BASE : Z := 0x200000.
Definition PLIC_CONTEXT_STRIDE : Z := 0x1000.
Definition THEAD_PLIC_CTRL_REG : Z := 0x1ffffc.

Definition PLIC_IE_WORDS (plic : plic_data) : Z := num_src plic / 32 + 1.

Definition mmio := Z -> Z.
Definition writel (v a : Z) (r : mmio) : mmio := fun a' => if a' =? a then u32 v else r a'.

Definition priority_addr (plic : plic_data) (source : Z) : Z := plic_addr plic + PLIC_PRIORITY_BASE + u32 (4 * source).
Definition thresh_addr (plic : plic_data) (cntxid : Z) : Z := plic_addr plic + PLIC_CONTEXT_BASE + u32 (PLIC_CONTEXT_STRIDE * cntxid).
Definition ie_addr (plic : plic_data) (cntxid word_index : Z) : Z := plic_addr plic + PLIC_ENABLE_BASE + u32 (PLIC_ENABLE_STRIDE * cntxid) + u32 (4 * word_index).

Definition plic_get_priority (plic : plic_data) (source : Z) (r : mmio) : Z := r (priority_addr plic source).
Definition plic_set_priority (plic : plic_data) (source val : Z) (r : mmio) : mmio := writel val (priority_addr plic source) r.
Definition plic_get_thresh (plic : plic_data) (cntxid : Z) (r : mmio) : Z := r (thresh_addr plic cntxid).
Definition plic_set_thresh (plic : plic_data) (cntxid val : Z) (r : mmio) : mmio := writel val (thresh_addr plic cntxid) r.
Definition plic_get_ie (plic : plic_data) (cntxid word_index : Z) (r : mmio) : Z := r (ie_addr plic cntxid word_index).
Definition plic_set_ie (plic : plic_data) (cntxid word_index val : Z) (r : mmio) : mmio := writel val (ie_addr plic cntxid word_index) r.

Definition plic_delegate (plic : plic_data) (r : mmio) : mmio :=
  if negb (Z.land (plic_flags plic) PLIC_FLAG_THEAD_DELEGATION =? 0) then writel 1 (plic_addr plic + THEAD_PLIC_CTRL_REG) r else r.

Fixpoint ie_init_loop (plic : plic_data) (n : nat) (context_id i ie_value : Z) (r : mmio) : mmio :=
  match n with O => r | S n => ie_init_loop plic n context_id (i + 1) ie_value (plic_set_ie plic (u32 context_id) i ie_value r) end.

Definition plic_context_init (plic : plic_data) (context_id : Z) (enable : bool) (threshold : Z) (r : mmio) : Z * mmio :=
  if context_id <? 0 then (SBI_EINVAL, r)
  else
    let ie_words := u32 (PLIC_IE_WORDS plic) in
    let ie_value := if enable then 2 ^ 32 - 1 else 0 in
    let r := ie_init_loop plic (Z.to_nat ie_words) context_id 0 ie_value r in
    (0, plic_set_thresh plic (u32 context_id) threshold r).

(** ** Suspend and resume *)

Section Power.
Variable plic : plic_data.

(** [*data_word++] for the enable bits of a context; memory and the pointer. *)
Fixpoint save_ies (n : nat) (context_id i : Z) (r : mmio) (m : mem) (p : Z) : mem * Z :=
  match n with
  | O => (m, p)
  | S n => save_ies n context_id (i + 1) r (store_le m p 4 (plic_get_ie plic context_id i r)) (p + 4)
  end.

(** The harts from [h] on.  [context_id] is unsigned. *)
Fixpoint save_harts (n : nat) (h : Z) (r : mmio) (m : mem) (p : Z) : mem * Z :=
  match n with
  | O => (m, p)
  | S n =>
      let context_id := u32 (context_map plic h).2 in
      if context_id <? 0 then save_harts n (h + 1) r m p
      else
        let '(m, p) := save_ies (Z.to_nat (u32 (PLIC_IE_WORDS plic))) context_id 0 r m p in
        save_harts n (h + 1) r (store_le m p 4 (plic_get_thresh plic context_id r)) (p + 4)
  end.

Fixpoint save_priorities (n : nat) (i : Z) (r : mmio) (m : mem) (p : Z) : mem * Z :=
  match n with
  | O => (m, p)
  | S n => save_priorities n (i + 1) r (store8 m p (plic_get_priority plic i r)) (p + 1)
  end.

(** Memory, and where the saved data ends. *)
Definition plic_suspend (last_hartindex : Z) (r : mmio) (m : mem) : mem * Z :=
  if pm_data plic =? 0 then (m, pm_data plic)
  else
    let '(m, p) := save_harts (Z.to_nat (last_hartindex + 1)) 0 r m (pm_data plic) in
    save_priorities (Z.to_nat (num_src plic)) 1 r m p.

Fixpoint restore_ies (n : nat) (context_id i : Z) (m : mem) (p : Z) (r : mmio) : mmio * Z :=
  match n with
  | O => (r, p)
  | S n => restore_ies n context_id (i + 1) m (p + 4) (plic_set_ie plic context_id i (load_le m p 4) r)
  end.

Fixpoint restore_harts (n : nat) (h : Z) (m : mem) (p : Z) (r : mmio) : mmio * Z :=
  match n with
  | O => (r, p)
  | S n =>
      let context_id := u32 (context_map plic h).2 in
      if context_id <? 0 then restore_harts n (h + 1) m p r
      else
        let '(r, p) := restore_ies (Z.to_nat (u32 (PLIC_IE_WORDS plic))) context_id 0 m p r in
        restore_harts n (h + 1) m (p + 4) (plic_set_thresh plic context_id (load_le m p 4) r)
  end.

Fixpoint restore_priorities (n : nat) (i : Z) (m : mem) (p : Z) (r : mmio) : mmio :=
  match n with
  | O => r
  | S n => restore_priorities n (i + 1) m (p + 1) (plic_set_priority plic i (m p) r)
  end.

Definition plic_resume (last_hartindex : Z) (m : mem) (r : mmio) : mmio :=
  if pm_data plic =? 0 then r
  else
    let '(r, p) := restore_harts (Z.to_nat (last_hartindex + 1)) 0 m (pm_data plic) r in
    plic_delegate plic (restore_priorities (Z.to_nat (num_src plic)) 1 m p r).

(** ** Set-up *)

Definition plic_warm_irqchip_init (hartindex : Z) (r : mmio) : Z * mmio :=
  let '(m_cntx_id, s_cntx_id) := context_map plic hartindex in
  let enable := negb (Z.land (plic_flags plic) PLIC_FLAG_ARIANE_BUG =? 0) in
  let '(ret, r) := if -1 <? m_cntx_id then plic_context_init plic m_cntx_id enable 7 r else (0, r) in
  if negb (ret =? 0) then (ret, r)
  else
    let '(ret, r) := if -1 <? s_cntx_id then plic_context_init plic s_cntx_id enable 7 r else (0, r) in
    if negb (ret =? 0) then (ret, r) else (0, r).

(** The bytes allocated for the saved data: harts without a context do not count. *)
Fixpoint pm_size_loop (n : nat) (i data_size : Z) : Z :=
  match n with
  | O => data_size
  | S n => pm_size_loop n (i + 1) (if (context_map plic i).2 <? 0 then data_size else u64 (data_size + (num_src plic / 32 + 1) * 4 + 4))
  end.

Definition pm_data_size (last_hartindex : Z) : Z := u64 (pm_size_loop (Z.to_nat (last_hartindex + 1)) 0 0 + num_src plic).

Fixpoint priorities_init (n : nat) (i : Z) (r : mmio) : mmio :=
  match n with O => r | S n => priorities_init n (i + 1) (plic_set_priority plic i 0 r) end.

End Power.

(** ** Cold boot *)

(** The pointers in the scratch areas by hart index. *)
Record plic_world {W : Type} := mkPw { plic_ptr_offset : Z; hart_plic : Z -> option plic_data; plic_root : W; plic_regs : mmio; plic_chips : list plic_data }.
Arguments plic_world : clear implicits.

(** The controller of a hart. *)
Definition plic_get {W : Type} (hartindex : Z) (w : plic_world W) : option plic_data := hart_plic w hartindex.

Section Cold.
Context {W : Type}.
(** [sbi_malloc] on the sizes it is asked for, [sbi_domain_root_add_memrange]. *)
Variables (malloc : Z -> Z) (root_add_memrange : Z -> Z -> Z -> Z -> W -> Z * W) (last_hartindex : Z).

(** [SBI_DOMAIN_MEMREGION_MMIO] and [_SHARED_SURW_MRW]. *)
Definition PLIC_REGION_FLAGS : Z := Z.lor (2 ^ 31) 0x1b.

Fixpoint plic_ptrs_loop (plic : plic_data) (n : nat) (i : Z) (ptrs : Z -> option plic_data) : Z -> option plic_data :=
  match n with
  | O => ptrs
  | S n =>
      let '(mc, sc) := context_map plic i in
      plic_ptrs_loop plic n (i + 1) (if (mc <? 0) && (sc <? 0) then ptrs else fun h => if h =? i then Some plic else ptrs h)
  end.

Definition plic_cold_irqchip_init (alloc : Z) (plic : option plic_data) (w : plic_world W) : Z * plic_world W :=
  match plic with
  | None => (SBI_EINVAL, w)
  | Some plic =>
      let off := if plic_ptr_offset w =? 0 then alloc else plic_ptr_offset w in
      let w := mkPw W off (hart_plic w) (plic_root w) (plic_regs w) (plic_chips w) in
      if off =? 0 then (SBI_ENOMEM, w)
      else
        let pm := negb (Z.land (plic_flags plic) PLIC_FLAG_ENABLE_PM =? 0) in
        let plic :=
          if pm then mkPlic (plic_addr plic) (plic_size plic) (num_src plic) (plic_flags plic) (malloc (pm_data_size plic last_hartindex)) (context_map plic)
          else plic in
        if pm && (pm_data plic =? 0) then (SBI_ENOMEM, w)
        else
          let r := plic_delegate plic (priorities_init plic (Z.to_nat (num_src plic)) 1 (plic_regs w)) in
          let '(ret, root) := root_add_memrange (plic_addr plic) (plic_size plic) (2 ^ 20) PLIC_REGION_FLAGS (plic_root w) in
          let w := mkPw W off (hart_plic w) root r (plic_chips w) in
          if negb (ret =? 0) then (ret, w)
          else (0, mkPw W off (plic_ptrs_loop plic (Z.to_nat (last_hartindex + 1)) 0 (hart_plic w)) root r (plic_chips w ++ [plic]))
  end.

End Cold.

(** ** The loops as lists of registers *)

Fixpoint save_list (l : list Z) (r : mmio) (m : mem) (p : Z) : mem * Z :=
  match l with [] => (m, p) | a :: l => save_list l r (store_le m p 4 (r a)) (p + 4) end.

Fixpoint restore_list (l : list Z) (m : mem) (p : Z) (r : mmio) : mmio * Z :=
  match l with [] => (r, p) | a :: l => restore_list l m (p + 4) (writel (load_le m p 4) a r) end.

Lemma save_list_app l1 l2 r m p : save_list (l1 ++ l2) r m p = let '(m, p) := save_list l1 r m p in save_list l2 r m p.
Proof. revert m p. induction l1 as [|a l1 IH]; intros m p; [done|]. cbn [app save_list]. apply IH. Qed.

Lemma restore_list_app l1 l2 m p r : restore_list (l1 ++ l2) m p r = let '(r, p) := restore_list l1 m p r in restore_list l2 m p r.
Proof. revert p r. induction l1 as [|a l1 IH]; intros p r; [done|]. cbn [app restore_list]. apply IH. Qed.

Section Lists.
Variable plic : plic_data.

Definition ie_words : nat := Z.to_nat (u32 (PLIC_IE_WORDS plic)).
Definition context_of (h : Z) : Z := u32 (context_map plic h).2.
Definition context_regs (h : Z) : list Z := (ie_addr plic (context_of h) <$> seqZ 0 (Z.of_nat ie_words)) ++ [thresh_addr plic (context_of h)].
Definition hart_regs (n : nat) (h : Z) : list Z := concat (context_regs <$> seqZ h (Z.of_nat n)).

Lemma seqZ_S h n : seqZ h (Z.of_nat (S n)) = h :: seqZ (h + 1) (Z.of_nat n).
Proof. rewrite seqZ_cons by lia. f_equal. f_equal; lia. Qed.

Lemma save_ies_list n c i r m p : save_ies plic n c i r m p = save_list (ie_addr plic c <$> seqZ i (Z.of_nat n)) r m p.
Proof. revert i m p. induction n as [|n IH]; intros i m p; [done|]. rewrite seqZ_S. cbn [save_ies fmap list_fmap save_list]. by rewrite IH. Qed.

Lemma restore_ies_list n c i m p r : restore_ies plic n c i m p r = restore_list (ie_addr plic c <$> seqZ i (Z.of_nat n)) m p r.
Proof. revert i p r. induction n as [|n IH]; intros i p r; [done|]. rewrite seqZ_S. cbn [restore_ies fmap list_fmap restore_list]. by rewrite IH. Qed.

Lemma save_harts_list n h r m p : save_harts plic n h r m p = save_list (hart_regs n h) r m p.
Proof.
  revert h m p. induction n as [|n IH]; intros h m p; [done|]. unfold hart_regs. rewrite seqZ_S. cbn [save_harts fmap list_fmap concat].
  fold (context_of h). destruct (Z.ltb_spec (context_of h) 0) as [H|_]; [unfold context_of in H; pose proof (wrap_range 32 (context_map plic h).2); lia|].
  rewrite save_ies_list. fold ie_words. unfold context_regs at 1. rewrite <- app_assoc, save_list_app. destruct (save_list _ r m p) as [m1 p1]. cbn [app save_list]. apply IH.
Qed.

Lemma restore_harts_list n h m p r : restore_harts plic n h m p r = restore_list (hart_regs n h) m p r.
Proof.
  revert h p r. induction n as [|n IH]; intros h p r; [done|]. unfold hart_regs. rewrite seqZ_S. cbn [restore_harts fmap list_fmap concat].
  fold (context_of h). destruct (Z.ltb_spec (context_of h) 0) as [H|_]; [unfold context_of in H; pose proof (wrap_range 32 (context_map plic h).2); lia|].
  rewrite restore_ies_list. fold ie_words. unfold context_regs at 1. rewrite <- app_assoc, restore_list_app. destruct (restore_list _ m p r) as [r1 p1]. cbn [app restore_list]. apply IH.
Qed.

Lemma hart_regs_length n h : Z.of_nat (length (hart_regs n h)) = Z.of_nat n * (Z.of_nat ie_words + 1).
Proof.
  revert h. induction n as [|n IH]; intros h; [done|]. unfold hart_regs. rewrite seqZ_S. cbn [fmap list_fmap concat]. rewrite length_app, Nat2Z.inj_add. 
  fold (hart_regs n (h + 1)). rewrite IH. unfold context_regs. rewrite length_app, length_fmap, length_seqZ. cbn [length]. lia.
Qed.

End Lists.

(** ** Saved and restored *)

Lemma save_list_end l r m p : (save_list l r m p).2 = p + 4 * Z.of_nat (length l).
Proof. revert m p. induction l as [|a l IH]; intros m p; cbn [save_list snd length]; [lia|]. rewrite IH. lia. Qed.

Lemma save_list_other l r m p x : x < p \/ p + 4 * Z.of_nat (length l) <= x -> (save_list l r m p).1 x = m x.
Proof.
  revert m p. induction l as [|a l IH]; intros m p Hx; [done|]. cbn [save_list length] in *. rewrite IH by lia. apply store_le_other. lia.
Qed.

Lemma saved l r m p j a : (forall a, 0 <= r a < 2 ^ 32) -> l !! j = Some a -> load_le (save_list l r m p).1 (p + 4 * Z.of_nat j) 4 = r a.
Proof.
  intros Hr. revert m p j. induction l as [|b l IH]; intros m p j Hj; [done|]. cbn [save_list]. destruct j as [|j].
  - injection Hj as ->. rewrite Z.add_0_r. etrans; [|apply (load_store_le m p 4 (r a)); apply Hr]. apply load_le_ext. intros i Hi. apply save_list_other. lia.
  - replace (p + 4 * Z.of_nat (S j)) with (p + 4 + 4 * Z.of_nat j) by lia. by apply IH.
Qed.

Lemma restored l v m p r : (forall a, 0 <= v a < 2 ^ 32) -> (forall j a, l !! j = Some a -> load_le m (p + 4 * Z.of_nat j) 4 = v a) ->
  (restore_list l m p r).2 = p + 4 * Z.of_nat (length l) /\ forall a, (restore_list l m p r).1 a = if bool_decide (a ∈ l) then v a else r a.
Proof.
  intros Hv. revert p r. induction l as [|b l IH]; intros p r Hl; cbn [restore_list length]; [split; [cbn; lia|done]|].
  pose proof (Hl 0%nat b eq_refl) as H0. rewrite Z.add_0_r in H0. destruct (IH (p + 4) (writel (load_le m p 4) b r)) as [H1 H2].
  { intros j a Hj. rewrite <- (Hl (S j) a Hj). f_equal. lia. }
  split; [rewrite H1; lia|]. intros a. rewrite H2. destruct (bool_decide_reflect (a ∈ l)) as [Ha|Ha].
  - by rewrite bool_decide_eq_true_2 by (by right).
  - unfold writel. destruct (Z.eqb_spec a b) as [->|Hn].
    + rewrite bool_decide_eq_true_2 by (by left). rewrite H0. apply wrap_small, Hv.
    + rewrite bool_decide_eq_false_2; [done|]. by intros [|]%elem_of_cons.
Qed.

Section Priorities.
Variable plic : plic_data.

Lemma save_priorities_end n i r m p : (save_priorities plic n i r m p).2 = p + Z.of_nat n.
Proof. revert i m p. induction n as [|n IH]; intros i m p; cbn [save_priorities snd]; [lia|]. rewrite IH. lia. Qed.

Lemma save_priorities_other n i r m p x : x < p \/ p + Z.of_nat n <= x -> (save_priorities plic n i r m p).1 x = m x.
Proof. revert i m p. induction n as [|n IH]; intros i m p Hx; [done|]. cbn [save_priorities]. rewrite IH by lia. apply store8_other. lia. Qed.

Lemma saved_priority n i r m p k : (k < n)%nat -> (save_priorities plic n i r m p).1 (p + Z.of_nat k) = u8 (plic_get_priority plic (i + Z.of_nat k) r).
Proof.
  revert i m p k. induction n as [|n IH]; intros i m p k Hk; [lia|]. cbn [save_priorities]. destruct k as [|k].
  - rewrite save_priorities_other, !Z.add_0_r by lia. apply store8_same.
  - replace (p + Z.of_nat (S k)) with (p + 1 + Z.of_nat k) by lia. rewrite IH by lia. do 2 f_equal. lia.
Qed.

Lemma restored_priorities n i v m p r : 0 <= i -> 4 * (i + Z.of_nat n) < 2 ^ 32 -> (forall k, 0 <= k < Z.of_nat n -> m (p + k) = v (i + k) /\ 0 <= v (i + k) < 2 ^ 8) ->
  forall a, restore_priorities plic n i m p r a = 
    if bool_decide (a ∈ priority_addr plic <$> seqZ i (Z.of_nat n)) then v ((a - plic_addr plic) / 4) else r a.
Proof.
  revert i p r. induction n as [|n IH]; intros i p r Hi Hb Hm a; [done|]. cbn [restore_priorities].
  rewrite IH; [|lia|lia|intros k Hk; destruct (Hm (k + 1)) as [E1 E2]; [lia|]; replace (p + 1 + k) with (p + (k + 1)) by lia; replace (i + 1 + k) with (i + (k + 1)) by lia; done].
  rewrite seqZ_S. cbn [fmap list_fmap]. destruct (bool_decide_reflect (a ∈ priority_addr plic <$> seqZ (i + 1) (Z.of_nat n))) as [Ha|Ha].
  - by rewrite bool_decide_eq_true_2 by (by right).
  - unfold plic_set_priority, writel. destruct (Z.eqb_spec a (priority_addr plic i)) as [->|Hn].
    + rewrite bool_decide_eq_true_2 by (by left). destruct (Hm 0) as [E1 E2]; [lia|]. rewrite Z.add_0_r in E1. rewrite E1, Z.add_0_r in *.
      unfold priority_addr, PLIC_PRIORITY_BASE. rewrite (wrap_small 32 (4 * i)) by lia. replace (plic_addr plic + 0 + 4 * i - plic_addr plic) with (i * 4) by lia.
      rewrite Z.div_mul by lia. apply wrap_small. lia.
    + rewrite bool_decide_eq_false_2; [done|]. by intros [|]%elem_of_cons.
Qed.

(** What a suspend writes is as long as if every hart had a context. *)
Lemma suspend_end last r m : pm_data plic <> 0 -> 0 <= last -> 0 <= num_src plic ->
  (plic_suspend plic last r m).2 = pm_data plic + 4 * ((last + 1) * (Z.of_nat (ie_words plic) + 1)) + num_src plic.
Proof.
  intros Hp Hl Hs. unfold plic_suspend. rewrite (proj2 (Z.eqb_neq _ _) Hp), save_harts_list. destruct (save_list _ r m _) as [m1 p1] eqn:E.
  rewrite save_priorities_end. assert (p1 = (save_list (hart_regs plic (Z.to_nat (last + 1)) 0) r m (pm_data plic)).2) as -> by by rewrite E.
  rewrite save_list_end, hart_regs_length. lia.
Qed.

Lemma suspend_other last r m x : pm_data plic <> 0 -> 0 <= last -> 0 <= num_src plic ->
  x < pm_data plic \/ (plic_suspend plic last r m).2 <= x -> (plic_suspend plic last r m).1 x = m x.
Proof.
  intros Hp Hl Hs. rewrite suspend_end by done. unfold plic_suspend. rewrite (proj2 (Z.eqb_neq _ _) Hp), save_harts_list. destruct (save_list _ r m _) as [m1 p1] eqn:E. intros Hx.
  pose proof (save_list_end (hart_regs plic (Z.to_nat (last + 1)) 0) r m (pm_data plic)) as Ee. pose proof (fun H => save_list_other (hart_regs plic (Z.to_nat (last + 1)) 0) r m (pm_data plic) x H) as Eo.
  rewrite E in Ee, Eo. cbn [fst snd] in Ee, Eo. rewrite hart_regs_length in Ee, Eo. rewrite save_priorities_other by lia. apply Eo. lia.
Qed.

(** The harts that are counted for the allocation. *)
Definition with_context (n : nat) (i : Z) : nat := length (filter (fun h => 0 <= (context_map plic h).2) (seqZ i (Z.of_nat n))).

Lemma pm_size n i s : 0 <= s -> 0 <= num_src plic < 2 ^ 16 -> s + Z.of_nat n * 2 ^ 20 < 2 ^ 63 ->
  pm_size_loop plic n i s = s + 4 * (Z.of_nat (with_context n i) * (num_src plic / 32 + 2)).
Proof.
  intros Hs Hn. revert i s Hs. induction n as [|n IH]; intros i s Hs Hb; cbn [pm_size_loop]; [unfold with_context; rewrite seqZ_nil by lia; change (length (filter _ [])) with 0%nat; lia|].
  pose proof (Z.div_pos (num_src plic) 32 ltac:(lia) ltac:(lia)). pose proof (Z.div_le_upper_bound (num_src plic) 32 (2 ^ 16) ltac:(lia) ltac:(lia)).
  unfold with_context. rewrite seqZ_S. destruct (Z.ltb_spec (context_map plic i).2 0) as [Hc|Hc].
  - rewrite filter_cons_False by lia. rewrite IH by lia. done.
  - rewrite filter_cons_True by lia. cbn [length]. rewrite wrap_small by lia. rewrite IH by lia. fold (with_context n (i + 1)). lia.
Qed.

End Priorities.

(** A controller whose harts, up to [last], all have a supervisor context, with room
    for the saved data. *)
Record plic_ok (plic : plic_data) (last : Z) : Prop := {
  po_pm : pm_data plic <> 0;
  po_src : 0 <= num_src plic <= 1023;
  po_last : 0 <= last < 128;
  po_ctx : forall h, 0 <= h <= last -> 0 <= (context_map plic h).2 < 15872 }.

Section Roundtrip.
Variables (plic : plic_data) (last : Z).
Hypothesis Hok : plic_ok plic last.

Lemma ie_words_value : Z.of_nat (ie_words plic) = num_src plic / 32 + 1 /\ 1 <= num_src plic / 32 + 1 <= 32.
Proof.
  destruct Hok as [_ Hs _ _]. pose proof (Z.div_pos (num_src plic) 32 ltac:(lia) ltac:(lia)). pose proof (Z.div_lt_upper_bound (num_src plic) 32 32 ltac:(lia) ltac:(lia)).
  unfold ie_words, PLIC_IE_WORDS. rewrite wrap_small by lia. lia.
Qed.

Lemma context_value h : 0 <= h <= last -> context_of plic h = (context_map plic h).2 /\ 0 <= context_of plic h < 15872.
Proof. intros Hh. pose proof (po_ctx _ _ Hok h Hh). unfold context_of. rewrite wrap_small by lia. lia. Qed.

(** The kinds of registers do not meet. *)
Lemma hart_regs_range a : a ∈ hart_regs plic (Z.to_nat (last + 1)) 0 -> plic_addr plic + 0x2000 <= a /\ a <> plic_addr plic + THEAD_PLIC_CTRL_REG.
Proof.
  destruct ie_words_value as [Hw Hw2]. pose proof (po_last _ _ Hok). unfold hart_regs. intros Ha. apply list_elem_of_In, in_concat in Ha as (l & Hl & Ha).
  apply list_elem_of_In, list_elem_of_fmap in Hl as (h & -> & Hh%elem_of_seqZ). destruct (context_value h ltac:(lia)) as [_ Hc]. apply list_elem_of_In in Ha.
  unfold context_regs in Ha. apply elem_of_app in Ha as [Ha|Ha%list_elem_of_singleton].
  - apply list_elem_of_fmap in Ha as (i & -> & Hi%elem_of_seqZ). unfold ie_addr, PLIC_ENABLE_BASE, PLIC_ENABLE_STRIDE, THEAD_PLIC_CTRL_REG. rewrite !wrap_small by lia. lia.
  - subst a. unfold thresh_addr, PLIC_CONTEXT_BASE, PLIC_CONTEXT_STRIDE, THEAD_PLIC_CTRL_REG. rewrite wrap_small by lia. lia.
Qed.

Lemma priority_range a : a ∈ priority_addr plic <$> seqZ 1 (num_src plic) -> plic_addr plic + 4 <= a < plic_addr plic + 0x1000.
Proof.
  pose proof (po_src _ _ Hok). intros (i & -> & Hi%elem_of_seqZ)%list_elem_of_fmap. unfold priority_addr, PLIC_PRIORITY_BASE. rewrite wrap_small by lia. lia.
Qed.

Lemma ie_in h i : 0 <= h <= last -> 0 <= i < PLIC_IE_WORDS plic -> ie_addr plic (context_of plic h) i ∈ hart_regs plic (Z.to_nat (last + 1)) 0.
Proof.
  intros Hh Hi. destruct ie_words_value as [Hw _]. unfold PLIC_IE_WORDS in Hi. apply list_elem_of_In, in_concat. exists (context_regs plic h). split.
  - apply list_elem_of_In, list_elem_of_fmap. exists h. split; [done|]. apply elem_of_seqZ. lia.
  - apply list_elem_of_In, elem_of_app. left. apply list_elem_of_fmap. exists i. split; [done|]. apply elem_of_seqZ. lia.
Qed.

Lemma thresh_in h : 0 <= h <= last -> thresh_addr plic (context_of plic h) ∈ hart_regs plic (Z.to_nat (last + 1)) 0.
Proof.
  intros Hh. apply list_elem_of_In, in_concat. exists (context_regs plic h). split.
  - apply list_elem_of_In, list_elem_of_fmap. exists h. split; [done|]. apply elem_of_seqZ. lia.
  - apply list_elem_of_In, elem_of_app. right. by left.
Qed.

Lemma all_have_context n i : 0 <= i -> i + Z.of_nat n <= last + 1 -> with_context plic n i = n.
Proof.
  revert i. induction n as [|n IH]; intros i Hi Hn; [unfold with_context; by rewrite seqZ_nil|].
  unfold with_context. rewrite seqZ_S, filter_cons_True by (pose proof (po_ctx _ _ Hok i ltac:(lia)); lia). cbn [length]. f_equal. apply IH; lia.
Qed.

(** Registers after a suspend, anything, and a resume. *)
Lemma resumed r m r2 a : (forall a, 0 <= r a < 2 ^ 32) -> (forall i, 1 <= i <= num_src plic -> plic_get_priority plic i r < 2 ^ 8) -> a <> plic_addr plic + THEAD_PLIC_CTRL_REG ->
  plic_resume plic last (plic_suspend plic last r m).1 r2 a =
    if bool_decide (a ∈ hart_regs plic (Z.to_nat (last + 1)) 0) || bool_decide (a ∈ priority_addr plic <$> seqZ 1 (num_src plic)) then r a else r2 a.
Proof.
  intros Hr Hp Ha. pose proof (po_src _ _ Hok) as Hs. unfold plic_resume, plic_suspend. rewrite (proj2 (Z.eqb_neq _ _) (po_pm _ _ Hok)), save_harts_list, restore_harts_list.
  set (l := hart_regs plic (Z.to_nat (last + 1)) 0). destruct (save_list l r m (pm_data plic)) as [m1 p1] eqn:E1.
  assert (p1 = pm_data plic + 4 * Z.of_nat (length l)) as Hp1 by (rewrite <- (save_list_end l r m (pm_data plic)); by rewrite E1).
  set (m2 := (save_priorities plic (Z.to_nat (num_src plic)) 1 r m1 p1).1).
  destruct (restored l r m2 (pm_data plic) r2 Hr) as [Hend Hval].
  { intros j b Hj. rewrite <- (saved l r m (pm_data plic) j b Hr Hj). rewrite E1. cbn [fst]. apply load_le_ext. intros k Hk. apply save_priorities_other.
    apply lookup_lt_Some in Hj. lia. }
  destruct (restore_list l m2 (pm_data plic) r2) as [r3 p3]. cbn [fst snd] in Hend, Hval.
  assert (restore_priorities plic (Z.to_nat (num_src plic)) 1 m2 p3 r3 a = if bool_decide (a ∈ l) || bool_decide (a ∈ priority_addr plic <$> seqZ 1 (num_src plic)) then r a else r2 a) as Hfin.
  { rewrite (restored_priorities plic _ 1 (fun i => plic_get_priority plic i r) m2 p3 r3); [|lia|lia|].
    - rewrite Z2Nat.id by lia. rewrite Hval. destruct (bool_decide_reflect (a ∈ priority_addr plic <$> seqZ 1 (num_src plic))) as [Hin|_]; [|by rewrite orb_false_r].
      rewrite orb_true_r. apply list_elem_of_fmap in Hin as (i & -> & Hi%elem_of_seqZ). unfold plic_get_priority. f_equal. unfold priority_addr, PLIC_PRIORITY_BASE.
      rewrite (wrap_small 32 (4 * i)) by lia. replace (plic_addr plic + 0 + 4 * i - plic_addr plic) with (i * 4) by lia. rewrite Z.div_mul by lia. rewrite wrap_small by lia. lia.
    - intros k Hk. rewrite Hend, <- Hp1. replace k with (Z.of_nat (Z.to_nat k)) at 1 by lia. unfold m2. rewrite saved_priority by lia. replace (1 + Z.of_nat (Z.to_nat k)) with (1 + k) by lia.
      specialize (Hp (1 + k) ltac:(lia)). unfold plic_get_priority in *. pose proof (Hr (priority_addr plic (1 + k))). rewrite wrap_small by lia. split; [done|lia]. }
  unfold plic_delegate. destruct (negb _); [|exact Hfin]. unfold writel. by rewrite (proj2 (Z.eqb_neq _ _) Ha).
Qed.

End Roundtrip.

(** C32: take a controller with at most 1023 sources and fewer than 128 harts, memory
    allocated for what a suspend saves, and a supervisor context within the register
    range of the device for every hart up to the last (a hart without one makes the
    saved data overflow its memory, [suspend_overflows]), and priorities that fit 8
    bits.  Then suspend writes only the memory allocated for the saved data, and resume
    restores the enable bits and threshold of every context and the priority of every
    source, whatever the registers hold by then, and changes no other register but the
    delegation. *)
Theorem plic_suspend_resume plic last r m r2 : plic_ok plic last -> (forall a, 0 <= r a < 2 ^ 32) ->
  (forall i, 1 <= i <= num_src plic -> plic_get_priority plic i r < 2 ^ 8) ->
  let m' := (plic_suspend plic last r m).1 in let r' := plic_resume plic last m' r2 in
  (forall x, ~ (pm_data plic <= x < pm_data plic + pm_data_size plic last) -> m' x = m x) /\
  (forall h, 0 <= h <= last -> let c := (context_map plic h).2 in
     (forall i, 0 <= i < PLIC_IE_WORDS plic -> plic_get_ie plic c i r' = plic_get_ie plic c i r) /\ plic_get_thresh plic c r' = plic_get_thresh plic c r) /\
  (forall i, 1 <= i <= num_src plic -> plic_get_priority plic i r' = plic_get_priority plic i r) /\
  forall a, a ∉ hart_regs plic (Z.to_nat (last + 1)) 0 -> a ∉ priority_addr plic <$> seqZ 1 (num_src plic) -> a <> plic_addr plic + THEAD_PLIC_CTRL_REG -> r' a = r2 a.
Proof.
  intros Hok Hr Hp m' r'. pose proof (po_src _ _ Hok) as Hs. pose proof (po_last _ _ Hok) as Hl. split; [|split; [|split]].
  - intros x Hx. apply suspend_other; [apply Hok|lia|lia|]. rewrite suspend_end by (apply Hok || lia). unfold pm_data_size in Hx. rewrite pm_size in Hx by lia.
    rewrite (all_have_context plic last Hok) in Hx by lia. destruct (ie_words_value plic last Hok) as [Hw Hw2].
    rewrite Z2Nat.id in Hx by lia. rewrite Hw. assert (0 <= (last + 1) * (num_src plic / 32 + 2) <= 128 * 34) by nia. rewrite wrap_small in Hx by lia. lia.
  - intros h Hh c. destruct (context_value plic last Hok h Hh) as [Ec Hc]. fold c in Ec. rewrite <- Ec. split.
    + intros i Hi. unfold plic_get_ie, r', m'. pose proof (ie_in plic last Hok h i Hh Hi) as Hin. pose proof (hart_regs_range plic last Hok _ Hin) as [_ Hne]. rewrite resumed by done.
      by rewrite bool_decide_eq_true_2.
    + unfold plic_get_thresh, r', m'. pose proof (thresh_in plic last h Hh) as Hin. pose proof (hart_regs_range plic last Hok _ Hin) as [_ Hne]. rewrite resumed by done. by rewrite bool_decide_eq_true_2.
  - intros i Hi. unfold plic_get_priority, r', m'. assert (priority_addr plic i ∈ priority_addr plic <$> seqZ 1 (num_src plic)) as Hin.
    { apply list_elem_of_fmap. exists i. split; [done|]. apply elem_of_seqZ. lia. }
    pose proof (priority_range plic last Hok _ Hin). rewrite resumed by (done || (unfold THEAD_PLIC_CTRL_REG; lia)). by rewrite (bool_decide_eq_true_2 _ Hin), orb_true_r.
  - intros a H1 H2 H3. unfold r', m'. rewrite resumed by done. by rewrite !bool_decide_eq_false_2.
Qed.

(** [context_id] is unsigned, so that the test for a hart without a context never
    holds: the saved data leaves its allocation as soon as there is one. *)
Lemma suspend_overflows plic last r m h : pm_data plic <> 0 -> 0 <= num_src plic <= 1023 -> 0 <= h <= last -> last < 128 -> (context_map plic h).2 < 0 ->
  pm_data plic + pm_data_size plic last < (plic_suspend plic last r m).2.
Proof.
  intros Hp Hs Hh Hl Hc. rewrite suspend_end by lia. unfold pm_data_size. rewrite pm_size by lia.
  assert (with_context plic (Z.to_nat (last + 1)) 0 < Z.to_nat (last + 1))%nat as Hlt.
  { unfold with_context. pose proof (length_filter_lt (fun h => 0 <= (context_map plic h).2) (seqZ 0 (Z.of_nat (Z.to_nat (last + 1)))) h) as Hf.
    rewrite length_seqZ in Hf. rewrite Z2Nat.id in * by lia. apply Hf; [apply elem_of_seqZ; lia|lia]. }
  pose proof (Z.div_pos (num_src plic) 32 ltac:(lia) ltac:(lia)). pose proof (Z.div_lt_upper_bound (num_src plic) 32 32 ltac:(lia) ltac:(lia)).
  assert (Z.of_nat (ie_words plic) = num_src plic / 32 + 1) as -> by (unfold ie_words, PLIC_IE_WORDS; rewrite wrap_small by lia; lia).
  set (w := Z.of_nat (with_context plic (Z.to_nat (last + 1)) 0)) in *. assert (0 <= w <= last) by lia. set (q := num_src plic / 32) in *.
  assert (0 <= w * (q + 2) <= 128 * 34) by nia. assert (w * (q + 2) + (q + 2) <= (last + 1) * (q + 2)) by nia. rewrite wrap_small by lia. lia.
Qed.

(** ** A controller *)

(** Two harts with contexts 1 and 3, forty sources. *)
Definition demo_plic : plic_data := mkPlic 0xc000000 0x4000000 40 0 0x80040000 (fun h => (2 * h, 2 * h + 1)).

Definition demo_plic_regs : mmio := fun a => a mod 200.

Lemma plic_suspend_resume_witness :
  let m' := (plic_suspend demo_plic 1 demo_plic_regs (fun _ => 0)).1 in
  plic_get_ie demo_plic 3 1 (plic_resume demo_plic 1 m' (fun _ => 0)) = plic_get_ie demo_plic 3 1 demo_plic_regs /\
  plic_get_priority demo_plic 40 (plic_resume demo_plic 1 m' (fun _ => 0)) = plic_get_priority demo_plic 40 demo_plic_regs.
Proof.
  assert (forall a, 0 <= demo_plic_regs a < 200) as Hb by (intros a; apply Z.mod_pos_bound; reflexivity).
  destruct (plic_suspend_resume demo_plic 1 demo_plic_regs (fun _ => 0) (fun _ => 0)) as (_ & H1 & H2 & _).
  - split; cbn; lia.
  - intros a. specialize (Hb a). lia.
  - intros i _. unfold plic_get_priority. specialize (Hb (priority_addr demo_plic i)). lia.
  - assert (0 <= 1 < PLIC_IE_WORDS demo_plic) as Hi by (vm_compute; split; congruence).
    assert (0 <= 1 <= 1) as Hh by lia. assert (1 <= 40 <= num_src demo_plic) as Hk by (vm_compute; split; congruence).
    split; [exact (proj1 (H1 1 Hh) 1 Hi)|exact (H2 40 Hk)].
Defined.
