(* ===== verification/RpmiQueue.v ===== *)
(** * Message queues in shared memory
    (lib/utils/mailbox/fdt_mailbox_rpmi_shmem.c, include/sbi_utils/mailbox/)

    The transport to the platform's microcontroller: ring buffers of slots of one
    size, whose head and tail are words of the same memory.  A queue is a list of
    slots; what the driver sends is appended, what it receives is the first message
    that matches, wherever it is in the queue. *)

From S2P Require Import Prelude SbiString.

(** ** Messages *)

Definition RPMI_MSG_HDR_SIZE : Z := 8.
Definition RPMI_MSG_FLAGS_OFFSET : Z := 0x3.
Definition RPMI_MSG_SERVICE_ID_OFFSET : Z := 0x2.
Definition RPMI_MSG_SERVICEGROUP_ID_OFFSET : Z := 0x0.
Definition RPMI_MSG_TOKEN_MASK : Z := 0xffff.
Definition RPMI_MSG_DATA_SIZE (slot_size : Z) : Z := u32 (slot_size - RPMI_MSG_HDR_SIZE).
Definition RPMI_SLOT_SIZE_MIN : Z := 64.

Definition RPMI_MSG_NORMAL_REQUEST : Z := 0.
Definition RPMI_MSG_POSTED_REQUEST : Z := 1.
Definition RPMI_MSG_ACKNOWLDGEMENT : Z := 2.

Definition RPMI_MSG_FLAGS_NO_TX : Z := 1.
Definition RPMI_MSG_FLAGS_NO_RX : Z := 2.
Definition RPMI_MSG_FLAGS_NO_RX_TOKEN : Z := 4.

Record rpmi_message_header := mkHeader { servicegroup_id : Z; hdr_service_id : Z; hdr_flags : Z; datalen : Z; token : Z }.

(** The layout of the packed struct in memory. *)
Definition put_header (h : rpmi_message_header) (a : Z) (m : mem) : mem :=
  let m := store_le m a 2 (servicegroup_id h) in
  let m := store8 m (a + 2) (hdr_service_id h) in
  let m := store8 m (a + 3) (hdr_flags h) in
  let m := store_le m (a + 4) 2 (datalen h) in
  store_le m (a + 6) 2 (token h).

Record rpmi_message_args := mkArgs {
  arg_flags : Z; arg_type : Z; arg_service_id : Z; tx_endian_words : Z; rx_endian_words : Z; rx_token : Z; rx_data_len : Z }.

(** [rx] and [tx] are addresses, 0 for NULL. *)
Record mbox_xfer := mkXfer {
  xfer_flags : Z; xfer_args : rpmi_message_args; xfer_seq : Z; tx : Z; tx_len : Z; tx_timeout : Z; rx : Z; rx_len : Z; rx_timeout : Z }.

Definition set_xfer_args (a : rpmi_message_args) (x : mbox_xfer) : mbox_xfer :=
  mkXfer (xfer_flags x) a (xfer_seq x) (tx x) (tx_len x) (tx_timeout x) (rx x) (rx_len x) (rx_timeout x).

Definition GET_TOKEN (msg : Z) (m : mem) : Z := load_le m (msg + 6) 2.
Definition GET_DLEN (msg : Z) (m : mem) : Z := load_le m (msg + 4) 2.

Definition GET_MESSAGE_ID (msg : Z) (m : mem) : Z :=
  Z.lor (Z.lor (u32 (Z.shiftl (m (msg + 3)) (RPMI_MSG_FLAGS_OFFSET * 8))) (u32 (Z.shiftl (m (msg + 2)) (RPMI_MSG_SERVICE_ID_OFFSET * 8)))) (load_le m msg 2).

Definition MAKE_MESSAGE_ID (group_id service_id flags : Z) : Z :=
  let ret := Z.lor 0 (u32 (Z.shiftl (u32 group_id) (RPMI_MSG_SERVICEGROUP_ID_OFFSET * 8))) in
  let ret := Z.lor ret (u32 (Z.shiftl (u32 service_id) (RPMI_MSG_SERVICE_ID_OFFSET * 8))) in
  Z.lor ret (u32 (Z.shiftl (u32 flags) (RPMI_MSG_FLAGS_OFFSET * 8))).

(** ** A queue *)

Definition load32 (m : mem) (a : Z) : Z := load_le m a 4.
Definition store32 (m : mem) (a v : Z) : mem := store_le m a 4 v.

(** [queue_name] is what is copied to the field of 16 characters. *)
Record smq_queue_ctx := mkQctx { queue_id : Z; num_slots : Z; headptr : Z; tailptr : Z; buffer : Z; queue_name : list Z }.

(** The words at [src] are copied to [dst]. *)
Fixpoint copy_words (n : nat) (dst src : Z) (m : mem) : mem :=
  match n with
  | O => m
  | S n => copy_words n (dst + 4) (src + 4) (store32 m dst (load32 m src))
  end.

Fixpoint swap_words (n : nat) (dst src : Z) (m : mem) : mem :=
  match n with
  | O => m
  | S n =>
      let tmp := load32 m dst in
      swap_words n (dst + 4) (src + 4) (store32 (store32 m dst (load32 m src)) src tmp)
  end.

Section Queue.
Variables (slot_size : Z) (qctx : smq_queue_ctx).

Definition __smq_queue_full (m : mem) : bool :=
  u32 (load32 m (tailptr qctx) + 1) mod num_slots qctx =? load32 m (headptr qctx).

Definition __smq_queue_empty (m : mem) : bool := load32 m (headptr qctx) =? load32 m (tailptr qctx).

Definition slot_addr (pos : Z) : Z := buffer qctx + u32 (pos * slot_size).

Definition next_slot (pos : Z) : Z := u32 (pos + 1) mod num_slots qctx.

(** [None] when the fuel does not suffice to come to the tail. *)
Fixpoint find_slot (fuel : nat) (matches : Z -> bool) (pos tailidx : Z) : option Z :=
  if pos =? tailidx then Some pos
  else
    match fuel with
    | O => None
    | S fuel => if matches pos then Some pos else find_slot fuel matches (next_slot pos) tailidx
    end.

Definition rx_matches (no_rx_token : bool) (msgidn seq : Z) (m : mem) (src : Z) : bool :=
  (no_rx_token && (GET_MESSAGE_ID src m =? msgidn)) || (GET_TOKEN src m =? Z.land seq RPMI_MSG_TOKEN_MASK).

Definition __smq_rx (service_group_id : Z) (xfer : mbox_xfer) (m : mem) : option (Z * mbox_xfer * mem) :=
  let args := xfer_args xfer in
  let no_rx_token := negb (Z.land (arg_flags args) RPMI_MSG_FLAGS_NO_RX_TOKEN =? 0) in
  if slot_size - RPMI_MSG_HDR_SIZE <? 4 * rx_endian_words args then Some (SBI_EINVAL, xfer, m)
  else if rx_len xfer <? 4 * rx_endian_words args then Some (SBI_EINVAL, xfer, m)
  else if __smq_queue_empty m then Some (SBI_ENOENT, xfer, m)
  else
    let headidx := load32 m (headptr qctx) in
    let tailidx := load32 m (tailptr qctx) in
    let msgidn := MAKE_MESSAGE_ID service_group_id (arg_service_id args) (arg_type args) in
    pos ← find_slot (Z.to_nat (num_slots qctx)) (fun pos => rx_matches no_rx_token msgidn (xfer_seq xfer) m (slot_addr pos)) headidx tailidx;
    if pos =? tailidx then Some (SBI_ENOENT, xfer, m)
    else
      let m := if negb (pos =? headidx) then swap_words (Z.to_nat (slot_size / 4)) (slot_addr headidx) (slot_addr pos) m else m in
      let msg := slot_addr headidx in
      let args :=
        if no_rx_token then
          mkArgs (arg_flags args) (arg_type args) (arg_service_id args) (tx_endian_words args) (rx_endian_words args) (GET_TOKEN msg m) (rx_data_len args)
        else args in
      let '(args, m) :=
        if negb (rx xfer =? 0) then
          let dlen := GET_DLEN msg m in
          let args := mkArgs (arg_flags args) (arg_type args) (arg_service_id args) (tx_endian_words args) (rx_endian_words args) (rx_token args) dlen in
          let src := msg + RPMI_MSG_HDR_SIZE in
          let dst := rx xfer in
          let m := copy_words (Z.to_nat (rx_endian_words args)) dst src m in
          let k := 4 * rx_endian_words args in
          (args, (sbi_memcpy m (dst + k) (src + k) (rx_len xfer - k)).1)
        else (args, m) in
      Some (SBI_OK, set_xfer_args args xfer, store32 m (headptr qctx) (next_slot headidx)).

Definition __smq_tx (mb_regs service_group_id : Z) (xfer : mbox_xfer) (m : mem) : Z * mem :=
  let args := xfer_args xfer in
  if slot_size - RPMI_MSG_HDR_SIZE <? 4 * tx_endian_words args then (SBI_EINVAL, m)
  else if tx_len xfer <? 4 * tx_endian_words args then (SBI_EINVAL, m)
  else if __smq_queue_full m then (SBI_ENOMEM, m)
  else
    let tailidx := load32 m (tailptr qctx) in
    let header := mkHeader (u16 service_group_id) (u8 (arg_service_id args)) (u8 (arg_type args)) (u16 (tx_len xfer)) (u16 (xfer_seq xfer)) in
    let dst := slot_addr tailidx in
    let m := put_header header dst m in
    let dst := dst + RPMI_MSG_HDR_SIZE in
    let m :=
      if negb (tx xfer =? 0) then
        let m := copy_words (Z.to_nat (tx_endian_words args)) dst (tx xfer) m in
        let k := 4 * tx_endian_words args in
        (sbi_memcpy m (dst + k) (tx xfer + k) (tx_len xfer - k)).1
      else m in
    let m := store32 m (tailptr qctx) (next_slot tailidx) in
    let m := if negb (mb_regs =? 0) then store32 m mb_regs 1 else m in
    (SBI_OK, m).

End Queue.

(** ** Copying and swapping words *)

(** Case analysis on comparisons that drops impossible cases at once. *)
Ltac range_cases :=
  repeat (match goal with
  | |- context [Z.leb ?a ?b] => destruct (Z.leb_spec a b)
  | |- context [Z.ltb ?a ?b] => destruct (Z.ltb_spec a b)
  end; cbn [andb]; try (exfalso; lia)); cbn [andb].

(** The word at [a] is the one at [s] of [m0]. *)
Lemma stored_word m0 m a s x : mem_ok m0 -> store32 m a (load32 m0 s) x = if (a <=? x) && (x <? a + 4) then m0 (s + (x - a)) else m x.
Proof.
  intros H. unfold store32, load32. destruct (Z.leb_spec a x), (Z.ltb_spec x (a + 4)); cbn [andb]; try (apply store_le_other; lia).
  apply store_load_le; [done|lia].
Qed.

Lemma copy_words_spec n d s m x : mem_ok m -> d + 4 * Z.of_nat n <= s \/ s + 4 * Z.of_nat n <= d ->
  copy_words n d s m x = copied m d s (4 * Z.of_nat n) x.
Proof.
  revert d s m. induction n as [|n IH]; intros d s m Hm Hd; cbn [copy_words]; [by rewrite copied_out by lia|].
  rewrite IH by (apply store_le_ok || lia; done). unfold copied. rewrite !stored_word by done.
  range_cases; try done; f_equal; lia.
Qed.

Lemma copy_words_ok n d s m : mem_ok m -> mem_ok (copy_words n d s m).
Proof. revert d s m. induction n as [|n IH]; intros d s m H; cbn [copy_words]; [done|]. by apply IH, store_le_ok. Qed.

(** Words first, the rest of the bytes then. *)
Lemma copy_rest n d s m len x : mem_ok m -> 4 * Z.of_nat n <= len -> d + len <= s \/ s + len <= d ->
  (sbi_memcpy (copy_words n d s m) (d + 4 * Z.of_nat n) (s + 4 * Z.of_nat n) (len - 4 * Z.of_nat n)).1 x = copied m d s len x.
Proof.
  intros Hm Hn Hd. rewrite memcpy_spec by (apply copy_words_ok || lia; done). unfold copied. rewrite !copy_words_spec by (done || lia). unfold copied.
  range_cases; try done; f_equal; lia.
Qed.

Lemma swap_words_spec n d s m x : mem_ok m -> d + 4 * Z.of_nat n <= s \/ s + 4 * Z.of_nat n <= d ->
  swap_words n d s m x =
    if (d <=? x) && (x <? d + 4 * Z.of_nat n) then m (s + (x - d)) else if (s <=? x) && (x <? s + 4 * Z.of_nat n) then m (d + (x - s)) else m x.
Proof.
  revert d s m. induction n as [|n IH]; intros d s m Hm Hd; cbn [swap_words]; [zcases; cbn [andb]; (done || lia)|].
  rewrite IH by (apply store_le_ok, store_le_ok || lia; done). rewrite !stored_word by done.
  range_cases; try done; f_equal; lia.
Qed.

Lemma swap_words_ok n d s m : mem_ok m -> mem_ok (swap_words n d s m).
Proof. revert d s m. induction n as [|n IH]; intros d s m H; cbn [swap_words]; [done|]. by apply IH, store_le_ok, store_le_ok. Qed.

(** ** Queues as lists of slots *)

(** The memory a queue lies in, and memory beside it. *)
Definition in_queue (s : Z) (q : smq_queue_ctx) (x : Z) : Prop :=
  headptr q <= x < headptr q + 4 \/ tailptr q <= x < tailptr q + 4 \/ buffer q <= x < buffer q + num_slots q * s.

Definition beside (s : Z) (q : smq_queue_ctx) (a len : Z) : Prop := forall x, a <= x < a + len -> ~ in_queue s q x.

Record q_ok (s : Z) (q : smq_queue_ctx) : Prop := {
  qo_slots : 0 < num_slots q;
  qo_size : RPMI_SLOT_SIZE_MIN <= s;
  qo_words : s mod 4 = 0;
  qo_fits : num_slots q * s < 2 ^ 32;
  qo_head : headptr q + 4 <= tailptr q;
  qo_tail : tailptr q + 4 <= buffer q }.

(** The slots from the head to the tail. *)
Definition rep (s : Z) (q : smq_queue_ctx) (m : mem) (l : list (list Z)) : Prop :=
  exists h, 0 <= h < num_slots q /\ load32 m (headptr q) = h /\ load32 m (tailptr q) = (h + Z.of_nat (length l)) mod num_slots q /\
    Z.of_nat (length l) < num_slots q /\
    forall k x, l !! k = Some x -> bytes m (slot_addr s q ((h + Z.of_nat k) mod num_slots q)) (Z.to_nat s) = x.

(** What the header of a slot says, and its data. *)
Record rpmi_msg := mkMsg { msg_group : Z; msg_service : Z; msg_flags : Z; msg_token : Z; msg_data : list Z }.

Definition decode (x : list Z) : rpmi_msg :=
  let m := mem_of 0 x in mkMsg (load_le m 0 2) (m 2) (m 3) (GET_TOKEN 0 m) (bytes m 8 (Z.to_nat (GET_DLEN 0 m))).

(** The position of the first element that satisfies [f], the length if there is none. *)
Fixpoint first {A} (f : A -> bool) (l : list A) : nat :=
  match l with [] => O | x :: l => if f x then O else S (first f l) end.

(** The queue without its [k]th element, whose place the first one takes. *)
Definition take_out {A} (k : nat) (l : list A) : list A :=
  match l with [] => [] | x :: l => match k with O => l | S k => <[k := x]> l end end.

Lemma first_le {A} (f : A -> bool) l : (first f l <= length l)%nat.
Proof. induction l as [|x l IH]; cbn; [lia|]. destruct (f x); lia. Qed.

Lemma first_found {A} (f : A -> bool) l x : l !! first f l = Some x -> f x = true.
Proof. induction l as [|y l IH]; cbn; [done|]. destruct (f y) eqn:E; [by intros [= ->]|apply IH]. Qed.

Lemma first_none {A} (f : A -> bool) l : first f l = length l -> forall x, x ∈ l -> f x = false.
Proof.
  induction l as [|y l IH]; cbn; [by intros _ x ?%elem_of_nil|]. destruct (f y) eqn:E; [done|].
  intros [= H] x [->|Hx]%elem_of_cons; [done|by apply IH].
Qed.

Lemma take_out_length {A} k (l : list A) : (k < length l)%nat -> length (take_out k l) = pred (length l).
Proof. destruct l as [|x l]; [cbn; lia|]. destruct k; cbn [take_out length]; [lia|]. rewrite length_insert. lia. Qed.

Lemma take_out_perm {A} k (l : list A) x : l !! k = Some x -> l ≡ₚ x :: take_out k l.
Proof.
  destruct l as [|y l]; [done|]. destruct k as [|k]; cbn; [by intros [= ->]|]. intros H.
  rewrite (insert_take_drop l k y) by (by apply lookup_lt_Some in H). rewrite <- (take_drop_middle l k x H) at 1.
  rewrite <- !Permutation_middle. apply perm_swap.
Qed.

Lemma take_out_lookup {A} k (l : list A) x0 j : l !! O = Some x0 ->
  take_out k l !! j = if decide (S j = k) then (if decide (S j < length l)%nat then Some x0 else None) else l !! S j.
Proof.
  destruct l as [|y l]; [done|]. intros [= ->]. destruct k as [|k]; cbn [take_out]; [by rewrite decide_False by lia|]. cbn [length lookup list_lookup].
  destruct (decide (S j = S k)) as [[= ->]|Hn].
  - destruct (decide (S k < S (length l))%nat); [by rewrite list_lookup_insert_eq by lia|]. rewrite list_insert_ge by lia. apply lookup_ge_None_2. lia.
  - rewrite list_lookup_insert_ne by congruence. done.
Qed.

(** The fields read from a slot depend on its bytes only. *)
Lemma mem_of_slot m a n x i : bytes m a n = x -> 0 <= i < Z.of_nat n -> mem_of 0 x i = m (a + i).
Proof.
  intros <- Hi. unfold mem_of. rewrite (proj2 (Z.leb_le 0 i)) by lia. rewrite bytes_lookup by lia. cbn [default]. unfold default, id. f_equal. lia.
Qed.

Section Rep.
Variables (s : Z) (q : smq_queue_ctx).
Hypothesis Hq : q_ok s q.
Let n := num_slots q.

Lemma slots_range : 0 < n < 2 ^ 26.
Proof. pose proof (qo_slots _ _ Hq). pose proof (qo_size _ _ Hq). pose proof (qo_fits _ _ Hq). unfold n, RPMI_SLOT_SIZE_MIN in *. nia. Qed.

Lemma slot_addr_value i : 0 <= i < n -> slot_addr s q i = buffer q + i * s.
Proof. intros Hi. pose proof (qo_size _ _ Hq). pose proof (qo_fits _ _ Hq). unfold slot_addr, n, RPMI_SLOT_SIZE_MIN in *. rewrite wrap_small by nia. done. Qed.

Lemma next_slot_value h k : next_slot q ((h + k) mod n) = (h + (k + 1)) mod n.
Proof.
  pose proof slots_range. pose proof (Z.mod_pos_bound (h + k) n ltac:(lia)). unfold next_slot. fold n. rewrite wrap_small by lia.
  rewrite Zplus_mod_idemp_l. f_equal. lia.
Qed.

(** Different places are different slots. *)
Lemma place_inj h j k : 0 <= j < n -> 0 <= k < n -> (h + j) mod n = (h + k) mod n -> j = k.
Proof.
  intros Hj Hk H. pose proof (Z.div_mod (h + j) n ltac:(lia)). pose proof (Z.div_mod (h + k) n ltac:(lia)). rewrite H in *.
  assert (n * ((h + j) / n - (h + k) / n) = j - k) by lia. assert ((h + j) / n - (h + k) / n = 0) by nia. lia.
Qed.

Lemma slots_apart i j x : 0 <= i < n -> 0 <= j < n -> i <> j -> slot_addr s q i <= x < slot_addr s q i + s -> x < slot_addr s q j \/ slot_addr s q j + s <= x.
Proof. intros Hi Hj Hn Hx. rewrite !slot_addr_value in * by done. pose proof (qo_size _ _ Hq). unfold RPMI_SLOT_SIZE_MIN in *. nia. Qed.

Lemma slot_in_queue i x : 0 <= i < n -> slot_addr s q i <= x < slot_addr s q i + s -> in_queue s q x.
Proof. intros Hi Hx. rewrite slot_addr_value in Hx by done. pose proof (qo_size _ _ Hq). right. right. fold n. unfold RPMI_SLOT_SIZE_MIN in *. nia. Qed.

Lemma slot_behind i : 0 <= i < n -> buffer q <= slot_addr s q i.
Proof. intros Hi. rewrite slot_addr_value by done. pose proof (qo_size _ _ Hq). unfold RPMI_SLOT_SIZE_MIN in *. nia. Qed.

(** A queue is unchanged as long as its memory is. *)
Lemma rep_frame m m' l : (forall x, in_queue s q x -> m' x = m x) -> rep s q m l -> rep s q m' l.
Proof.
  intros Hm (h & Hh & E1 & E2 & Hl & Hs). exists h. split; [done|]. split; [|split; [|split; [done|]]].
  - rewrite <- E1. apply load_le_ext. intros i Hi. apply Hm. left. lia.
  - rewrite <- E2. apply load_le_ext. intros i Hi. apply Hm. right. left. lia.
  - intros k x Hk. rewrite <- (Hs k x Hk). apply bytes_ext. intros i Hi. pose proof (qo_size _ _ Hq). unfold RPMI_SLOT_SIZE_MIN in *. apply Hm, (slot_in_queue ((h + Z.of_nat k) mod n)); [apply Z.mod_pos_bound, slots_range|]. fold n. lia.
Qed.

Lemma full_spec m l : rep s q m l -> __smq_queue_full q m = (Z.of_nat (length l) =? n - 1).
Proof.
  intros (h & Hh & E1 & E2 & Hl & _). unfold __smq_queue_full. rewrite E1, E2. change (u32 ((h + Z.of_nat (length l)) mod num_slots q + 1) mod num_slots q) with (next_slot q ((h + Z.of_nat (length l)) mod n)).
  rewrite next_slot_value. fold n in Hh, Hl. destruct (Z.eqb_spec (Z.of_nat (length l)) (n - 1)) as [E|E].
  - apply Z.eqb_eq. rewrite E. replace (h + (n - 1 + 1)) with (h + 1 * n) by lia. rewrite Z.mod_add by lia. by apply Z.mod_small.
  - apply Z.eqb_neq. intros H. rewrite <- (Z.mod_small h n) in H at 2 by done. rewrite <- (Z.add_0_r h) in H at 2. apply place_inj in H; lia.
Qed.

Lemma empty_spec m l : rep s q m l -> __smq_queue_empty q m = bool_decide (l = []).
Proof.
  intros (h & Hh & E1 & E2 & Hl & _). unfold __smq_queue_empty. rewrite E1, E2. fold n in Hh, Hl |- *. destruct l as [|x l].
  - cbn [length]. rewrite Z.add_0_r, Z.mod_small by done. by rewrite Z.eqb_refl.
  - apply Z.eqb_neq. intros H. rewrite <- (Z.mod_small h n) in H at 1 by done. rewrite <- (Z.add_0_r h) in H at 1. apply place_inj in H; cbn [length] in *; lia.
Qed.

Lemma find_slot_spec {A} (f : A -> bool) mt l h fuel : 0 <= h < n -> Z.of_nat (length l) < n -> (length l <= fuel)%nat ->
  (forall k x, l !! k = Some x -> mt ((h + Z.of_nat k) mod n) = f x) ->
  find_slot q fuel mt h ((h + Z.of_nat (length l)) mod n) = Some ((h + Z.of_nat (first f l)) mod n).
Proof.
  revert h fuel. induction l as [|x l IH]; intros h fuel Hh Hl Hf Hm.
  - cbn [length first]. rewrite Z.add_0_r, Z.mod_small by done. destruct fuel; cbn [find_slot]; by rewrite Z.eqb_refl.
  - cbn [length] in *. destruct fuel as [|fuel]; [lia|]. cbn [find_slot]. destruct (Z.eqb_spec h ((h + Z.of_nat (S (length l))) mod n)) as [E|_].
    { rewrite <- (Z.mod_small h n) in E at 1 by done. rewrite <- (Z.add_0_r h) in E at 1. apply place_inj in E; lia. }
    pose proof (Hm 0%nat x eq_refl) as H0. rewrite Z.add_0_r, Z.mod_small in H0 by done. rewrite H0. cbn [first]. destruct (f x); [by rewrite Z.add_0_r, Z.mod_small|].
    assert (next_slot q h = (h + 1) mod n) as -> by (rewrite <- (Z.mod_small h n) at 1 by done; rewrite <- (Z.add_0_r h) at 1; apply (next_slot_value h 0)).
    replace ((h + Z.of_nat (S (length l))) mod n) with (((h + 1) mod n + Z.of_nat (length l)) mod n) by (rewrite Zplus_mod_idemp_l; f_equal; lia).
    rewrite IH; [rewrite Zplus_mod_idemp_l; do 2 f_equal; lia|apply Z.mod_pos_bound; lia|lia|lia|].
    intros k y Hk. rewrite Zplus_mod_idemp_l. replace (h + 1 + Z.of_nat k) with (h + Z.of_nat (S k)) by lia. by apply Hm.
Qed.

End Rep.

(** ** Headers *)

Lemma put_header_other h a m x : x < a \/ a + 8 <= x -> put_header h a m x = m x.
Proof.
  intros Hx. unfold put_header. cbv zeta. rewrite store_le_other, store_le_other, !store8_other, store_le_other by lia. done.
Qed.

Lemma put_header_ok h a m : mem_ok m -> mem_ok (put_header h a m).
Proof. intros H. unfold put_header. cbv zeta. apply store_le_ok, store_le_ok, store8_ok, store8_ok, store_le_ok, H. Qed.

Definition header_ok (h : rpmi_message_header) : Prop :=
  0 <= servicegroup_id h < 2 ^ 16 /\ 0 <= hdr_service_id h < 2 ^ 8 /\ 0 <= hdr_flags h < 2 ^ 8 /\ 0 <= datalen h < 2 ^ 16 /\ 0 <= token h < 2 ^ 16.

Lemma header_fields h a m : header_ok h -> let m' := put_header h a m in
  load_le m' a 2 = servicegroup_id h /\ m' (a + 2) = hdr_service_id h /\ m' (a + 3) = hdr_flags h /\ GET_DLEN a m' = datalen h /\ GET_TOKEN a m' = token h.
Proof.
  intros (H1 & H2 & H3 & H4 & H5) m'. unfold m', put_header, GET_DLEN, GET_TOKEN. cbv zeta.
  set (m1 := store_le m a 2 _). set (m2 := store8 m1 _ _). set (m3 := store8 m2 _ _). set (m4 := store_le m3 _ _ _). split; [|split; [|split; [|split]]].
  - etrans; [|apply (load_store_le m a 2); exact H1]. apply load_le_ext. intros i Hi.
    unfold m4, m3, m2. rewrite store_le_other, store_le_other, !store8_other by lia. done.
  - unfold m4, m3, m2. rewrite store_le_other, store_le_other, store8_other, store8_same by lia. by apply wrap_small.
  - unfold m4, m3. rewrite store_le_other, store_le_other, store8_same by lia. by apply wrap_small.
  - etrans; [|apply (load_store_le m3 (a + 4) 2); exact H4]. apply load_le_ext. intros i Hi. apply store_le_other. lia.
  - apply load_store_le. exact H5.
Qed.

Lemma decode_slot s m a x : bytes m a (Z.to_nat s) = x -> 8 <= s -> GET_DLEN a m <= s - 8 ->
  decode x = mkMsg (load_le m a 2) (m (a + 2)) (m (a + 3)) (GET_TOKEN a m) (bytes m (a + 8) (Z.to_nat (GET_DLEN a m))).
Proof.
  intros Hx Hs Hd. pose proof (fun i => mem_of_slot m a (Z.to_nat s) x i Hx) as Hb. unfold decode, GET_TOKEN, GET_DLEN in *. rewrite !Hb by lia.
  assert (forall k b, 0 <= k -> k + Z.of_nat b <= s -> load_le (mem_of 0 x) k b = load_le m (a + k) b) as Hl.
  { intros k b Hk Hkb. apply load_le_ext. intros i Hi. rewrite Hb by lia. f_equal. lia. }
  rewrite (Hl 0), (Hl (0 + 6)), (Hl (0 + 4)), Z.add_0_r by lia. cbn [Z.add]. f_equal.
  apply bytes_ext. intros i Hi. rewrite Hb by lia. f_equal. lia.
Qed.

(** ** Sending *)

(** What a message in [xfer] is once it is in a slot. *)
Definition sent_msg (sg : Z) (xfer : mbox_xfer) (m : mem) : rpmi_msg :=
  mkMsg (u16 sg) (u8 (arg_service_id (xfer_args xfer))) (u8 (arg_type (xfer_args xfer))) (u16 (xfer_seq xfer)) (bytes m (tx xfer) (Z.to_nat (tx_len xfer))).

Record tx_ok (s : Z) (q : smq_queue_ctx) (mb : Z) (xfer : mbox_xfer) : Prop := {
  to_words : 0 <= 4 * tx_endian_words (xfer_args xfer) <= tx_len xfer;
  to_len : tx_len xfer <= s - RPMI_MSG_HDR_SIZE;
  to_short : tx_len xfer < 2 ^ 16;
  to_data : tx xfer = 0 -> tx_len xfer = 0;
  to_beside : beside s q (tx xfer) (tx_len xfer);
  to_bell : mb = 0 \/ beside s q mb 4 }.

Section Tx.
Variables (s : Z) (q : smq_queue_ctx) (mb sg : Z) (xfer : mbox_xfer).
Hypotheses (Hq : q_ok s q) (Htx : tx_ok s q mb xfer).

(** The slot after the header and the data are written. *)
Lemma tx_slot m i : mem_ok m -> 0 <= i < num_slots q -> let a := slot_addr s q i in
  let args := xfer_args xfer in
  let m1 := put_header (mkHeader (u16 sg) (u8 (arg_service_id args)) (u8 (arg_type args)) (u16 (tx_len xfer)) (u16 (xfer_seq xfer))) a m in
  let k := 4 * tx_endian_words args in
  let m2 := if negb (tx xfer =? 0) then (sbi_memcpy (copy_words (Z.to_nat (tx_endian_words args)) (a + 8) (tx xfer) m1) (a + 8 + k) (tx xfer + k) (tx_len xfer - k)).1 else m1 in
  decode (bytes m2 a (Z.to_nat s)) = sent_msg sg xfer m /\ (forall x, x < a \/ a + s <= x -> m2 x = m x) /\ mem_ok m2.
Proof.
  intros Hm Hi a args m1 k m2. pose proof (qo_size _ _ Hq) as Hs. unfold RPMI_SLOT_SIZE_MIN in Hs. destruct Htx as [Hw Hl Hsh Hd Hb _]. unfold RPMI_MSG_HDR_SIZE in Hl.
  set (hd := mkHeader _ _ _ _ _) in m1. assert (header_ok hd) as Hhd by (repeat split; apply wrap_range; lia).
  destruct (header_fields hd a m Hhd) as (F1 & F2 & F3 & F4 & F5). fold m1 in F1, F2, F3, F4, F5. assert (GET_DLEN a m1 = tx_len xfer) as F4' by (rewrite F4; apply wrap_small; lia).
  assert (mem_ok m1) as Hm1 by by apply put_header_ok.
  assert (forall x, m2 x = if negb (tx xfer =? 0) then copied m1 (a + 8) (tx xfer) (tx_len xfer) x else m1 x) as H2.
  { intros x. unfold m2. destruct (Z.eqb_spec (tx xfer) 0) as [|Hne]; cbn [negb]; [done|]. unfold k. rewrite <- (Z2Nat.id (tx_endian_words args)) at 2 3 4 by (unfold args; lia).
    apply copy_rest; [done|unfold args; lia|]. destruct (Z.le_gt_cases (tx_len xfer) 0); [lia|].
    assert (forall y, in_queue s q y -> y < tx xfer \/ tx xfer + tx_len xfer <= y) as Ho by (intros y Hy; specialize (Hb y); destruct (Z.lt_ge_cases y (tx xfer)), (Z.le_gt_cases (tx xfer + tx_len xfer) y); auto; lia || (exfalso; apply Hb; [lia|done])).
    pose proof (Ho (a + 8) ltac:(apply (slot_in_queue s q Hq i); [done|fold a; lia])). pose proof (Ho (a + 8 + tx_len xfer - 1) ltac:(apply (slot_in_queue s q Hq i); [done|fold a; lia])).
    destruct (Z.lt_ge_cases (tx xfer) (a + 8)) as [Hlt|Hge]; [|lia]. right.
    destruct (Z.le_gt_cases (tx xfer + tx_len xfer) (a + 8)); [done|]. lia. }
  assert (forall x, x < a + 8 \/ a + 8 + tx_len xfer <= x -> m2 x = m1 x) as Hout.
  { intros x Hx. rewrite H2. destruct (negb _); [by apply copied_out|done]. }
  split; [|split].
  - assert (GET_DLEN a m2 = tx_len xfer) as Ed by (rewrite <- F4'; apply load_le_ext; intros j Hj; apply Hout; lia).
    rewrite (decode_slot s m2 a _ eq_refl) by lia. unfold sent_msg. rewrite Ed. f_equal.
    + etrans; [|exact F1]. apply load_le_ext. intros j Hj. apply Hout. lia.
    + etrans; [|exact F2]. apply Hout. lia.
    + etrans; [|exact F3]. apply Hout. lia.
    + etrans; [|exact F5]. apply load_le_ext. intros j Hj. apply Hout. lia.
    + apply bytes_ext. intros j Hj. rewrite H2. destruct (Z.eqb_spec (tx xfer) 0) as [E|Hne]; [apply Hd in E; lia|]. cbn [negb].
      rewrite copied_in by lia. replace (a + 8 + j - (a + 8)) with j by lia. apply put_header_other.
      destruct (Z.lt_ge_cases (tx xfer + j) a); [by left|]. right. destruct (Z.le_gt_cases (a + 8) (tx xfer + j)); [done|]. exfalso.
      apply (Hb (tx xfer + j)); [lia|]. apply (slot_in_queue s q Hq i); [done|fold a; lia].
  - intros x Hx. rewrite Hout by lia. apply put_header_other. lia.
  - intros x. unfold m2. destruct (negb _); [|apply Hm1]. by apply memcpy_ok, copy_words_ok.
Qed.

(** Sending fails on a full queue, and appends the message otherwise. *)
Lemma tx_refines m l : mem_ok m -> rep s q m l ->
  let '(ret, m') := __smq_tx s q mb sg xfer m in
  if Z.of_nat (length l) =? num_slots q - 1 then ret = SBI_ENOMEM /\ m' = m
  else ret = SBI_OK /\ mem_ok m' /\ (exists x, rep s q m' (l ++ [x]) /\ decode x = sent_msg sg xfer m) /\
    forall x, ~ in_queue s q x -> ~ (mb <> 0 /\ mb <= x < mb + 4) -> m' x = m x.
Proof.
  intros Hm Hrep. unfold __smq_tx. pose proof (full_spec s q Hq m l Hrep) as Hfull. pose proof Htx as [Hw Hl Hsh Hd Hb Hbell].
  rewrite (proj2 (Z.ltb_ge _ _)) by lia. rewrite (proj2 (Z.ltb_ge (tx_len xfer) _)) by lia. rewrite Hfull. destruct (Z.eqb_spec (Z.of_nat (length l)) (num_slots q - 1)) as [E|E]; [done|].
  destruct Hrep as (h & Hh & E1 & E2 & Hlen & Hs). rewrite E2. set (t := (h + Z.of_nat (length l)) mod num_slots q).
  assert (0 <= t < num_slots q) as Ht by (apply Z.mod_pos_bound, (slots_range s q Hq)). pose proof (qo_size _ _ Hq) as Hs64. unfold RPMI_SLOT_SIZE_MIN in Hs64.
  destruct (tx_slot m t Hm Ht) as (Hdec & Hother & Hok). unfold RPMI_MSG_HDR_SIZE.
  set (m2 := if negb (tx xfer =? 0) then _ else _) in *. set (a := slot_addr s q t) in *.
  set (m3 := store32 m2 (tailptr q) (next_slot q t)). set (m4 := if negb (mb =? 0) then _ else _).
  pose proof (slot_behind s q Hq t Ht) as Hba. fold a in Hba. pose proof (qo_head _ _ Hq). pose proof (qo_tail _ _ Hq).
  assert (forall x, in_queue s q x -> m4 x = m3 x) as H43.
  { intros x Hx. unfold m4. destruct (Z.eqb_spec mb 0) as [|Hne]; cbn [negb]; [done|]. destruct Hbell as [|Hbell]; [done|]. apply store_le_other.
    destruct (Z.lt_ge_cases x mb); [lia|]. destruct (Z.le_gt_cases (mb + 4) x); [lia|]. exfalso. by apply (Hbell x); [lia|]. }
  assert (forall x, x < tailptr q \/ tailptr q + 4 <= x -> m3 x = m2 x) as H32 by (intros x Hx; apply store_le_other; lia).
  split; [done|]. split; [unfold m4; destruct (negb (mb =? 0)); [apply store_le_ok|]; apply store_le_ok, Hok|]. split.
  - exists (bytes m2 a (Z.to_nat s)). split; [|done]. apply (rep_frame s q Hq m3); [done|]. exists h. split; [done|]. split; [|split; [|split]].
    + rewrite <- E1. apply load_le_ext. intros i Hi. rewrite H32, Hother by lia. done.
    + unfold load32, m3, store32. pose proof (slots_range s q Hq). rewrite load_store_le.
      * unfold t. rewrite (next_slot_value s q Hq). rewrite length_app. cbn [length]. f_equal. lia.
      * unfold next_slot. pose proof (Z.mod_pos_bound (u32 (t + 1)) (num_slots q) ltac:(lia)). lia.
    + rewrite length_app. cbn [length]. lia.
    + intros k x Hk. destruct (decide (k < length l)%nat) as [Hkl|Hkl].
      * rewrite lookup_app_l in Hk by done. rewrite <- (Hs k x Hk). set (i := (h + Z.of_nat k) mod num_slots q).
        assert (0 <= i < num_slots q) as Hi by (apply Z.mod_pos_bound, (slots_range s q Hq)). pose proof (slot_behind s q Hq i Hi).
        apply bytes_ext. intros j Hj. rewrite H32 by lia. apply Hother. apply (slots_apart s q Hq i t); [done|done| |lia].
        intros Heq. unfold i, t in Heq. apply (place_inj q) in Heq; lia.
      * rewrite lookup_app_r in Hk by lia. apply list_lookup_singleton_Some in Hk as [Hk <-]. assert (k = length l) as -> by lia. fold t. fold a.
        apply bytes_ext. intros j Hj. rewrite H32 by lia. done.
  - intros x Hx Hxb. unfold m4. assert (m3 x = m x) as E3.
    { assert (x < a \/ a + s <= x) as Hxa.
      { destruct (Z.lt_ge_cases x a); [by left|]. destruct (Z.le_gt_cases (a + s) x); [by right|]. exfalso. apply Hx, (slot_in_queue s q Hq t); [done|fold a; lia]. }
      unfold in_queue in Hx. rewrite H32 by lia. by apply Hother. }
    destruct (Z.eqb_spec mb 0); cbn [negb]; [done|]. rewrite <- E3. apply store_le_other. lia.
Qed.

End Tx.

(** ** Receiving *)

Definition no_rx_token (xfer : mbox_xfer) : bool := negb (Z.land (arg_flags (xfer_args xfer)) RPMI_MSG_FLAGS_NO_RX_TOKEN =? 0).

(** The slots a receive looks for. *)
Definition wanted (sg : Z) (xfer : mbox_xfer) (x : list Z) : bool :=
  rx_matches (no_rx_token xfer) (MAKE_MESSAGE_ID sg (arg_service_id (xfer_args xfer)) (arg_type (xfer_args xfer))) (xfer_seq xfer) (mem_of 0 x) 0.

(** The arguments after slot [x] is received. *)
Definition received (x : list Z) (xfer : mbox_xfer) : mbox_xfer :=
  let a := xfer_args xfer in
  set_xfer_args (mkArgs (arg_flags a) (arg_type a) (arg_service_id a) (tx_endian_words a) (rx_endian_words a)
    (if no_rx_token xfer then GET_TOKEN 0 (mem_of 0 x) else rx_token a) (if negb (rx xfer =? 0) then GET_DLEN 0 (mem_of 0 x) else rx_data_len a)) xfer.

Record rx_ok (s : Z) (q : smq_queue_ctx) (xfer : mbox_xfer) : Prop := {
  ro_words : 0 <= 4 * rx_endian_words (xfer_args xfer) <= rx_len xfer;
  ro_len : rx_len xfer <= s - RPMI_MSG_HDR_SIZE;
  ro_beside : beside s q (rx xfer) (rx_len xfer) }.

Section Rx.
Variables (s : Z) (q : smq_queue_ctx) (sg : Z) (xfer : mbox_xfer).
Hypotheses (Hq : q_ok s q) (Hrx : rx_ok s q xfer).
Let n := num_slots q.

Lemma matches_slot m a x nt id seq : bytes m a (Z.to_nat s) = x -> rx_matches nt id seq m a = rx_matches nt id seq (mem_of 0 x) 0.
Proof.
  intros Hx. pose proof (qo_size _ _ Hq). unfold RPMI_SLOT_SIZE_MIN in *. pose proof (fun i => mem_of_slot m a (Z.to_nat s) x i Hx) as Hb.
  unfold rx_matches, GET_MESSAGE_ID, GET_TOKEN. rewrite !Hb by lia.
  assert (forall k b, 0 <= k -> k + Z.of_nat b <= s -> load_le (mem_of 0 x) k b = load_le m (a + k) b) as Hl.
  { intros k b Hk Hkb. apply load_le_ext. intros i Hi. rewrite Hb by lia. f_equal. lia. }
  rewrite (Hl 0), (Hl (0 + 6)), Z.add_0_r by lia. done.
Qed.

(** The first slot after the swap holds what was found, its place what was first. *)
Lemma swapped_slots m h k x0 x l : mem_ok m -> 0 <= h < n -> Z.of_nat (length l) < n -> l !! O = Some x0 -> l !! k = Some x ->
  (forall j y, l !! j = Some y -> bytes m (slot_addr s q ((h + Z.of_nat j) mod n)) (Z.to_nat s) = y) ->
  let pos := (h + Z.of_nat k) mod n in
  let m1 := if negb (pos =? h) then swap_words (Z.to_nat (s / 4)) (slot_addr s q h) (slot_addr s q pos) m else m in
  bytes m1 (slot_addr s q h) (Z.to_nat s) = x /\
  (forall j y, take_out k l !! j = Some y -> bytes m1 (slot_addr s q ((h + 1 + Z.of_nat j) mod n)) (Z.to_nat s) = y) /\
  (forall z, z < buffer q \/ buffer q + n * s <= z -> m1 z = m z) /\ mem_ok m1.
Proof.
  intros Hm Hh Hlen H0 Hk Hs pos m1. pose proof (qo_size _ _ Hq) as Hs64. pose proof (slots_range s q Hq) as Hn. fold n in Hn. unfold RPMI_SLOT_SIZE_MIN in Hs64.
  pose proof (lookup_lt_Some _ _ _ Hk) as Hkl.
  assert (slot_addr s q h = slot_addr s q ((h + Z.of_nat 0) mod n)) as Eh by (cbn [Z.of_nat]; by rewrite Z.add_0_r, Z.mod_small).
  assert (k = O -> m1 = m) as Hz by (intros ->; unfold m1, pos; cbn [Z.of_nat]; rewrite Z.add_0_r, Z.mod_small, Z.eqb_refl by done; done).
  destruct (decide (k = O)) as [->|Hk0].
  { rewrite (Hz eq_refl). assert (x = x0) as -> by congruence. split; [rewrite Eh; by apply Hs|]. split; [|done]. intros j y Hj. rewrite (take_out_lookup 0 l x0 j H0) in Hj. 
    rewrite decide_False in Hj by lia. rewrite <- (Hs _ _ Hj). do 3 f_equal. lia. }
  assert (pos <> h) as Hne. { intros E. unfold pos in E. rewrite <- (Z.mod_small h n) in E at 2 by done. rewrite <- (Z.add_0_r h) in E at 2. apply (place_inj q) in E; fold n; lia. }
  unfold m1. rewrite (proj2 (Z.eqb_neq _ _) Hne). cbn [negb]. clear m1 Hz.
  assert (0 <= pos < n) as Hpos by (apply Z.mod_pos_bound; lia). set (a := slot_addr s q h). set (b := slot_addr s q pos).
  assert (4 * Z.of_nat (Z.to_nat (s / 4)) = s) as E4. { pose proof (qo_words _ _ Hq). pose proof (Z.div_mod s 4 ltac:(lia)). pose proof (Z.div_pos s 4 ltac:(lia) ltac:(lia)). lia. }
  assert (a + s <= b \/ b + s <= a) as Hab by (pose proof (slots_apart s q Hq h pos a Hh Hpos ltac:(congruence) ltac:(fold a; lia)); pose proof (slots_apart s q Hq h pos (a + s - 1) Hh Hpos ltac:(congruence) ltac:(fold a; lia)); unfold b; lia).
  assert (forall z, swap_words (Z.to_nat (s / 4)) a b m z = if (a <=? z) && (z <? a + s) then m (b + (z - a)) else if (b <=? z) && (z <? b + s) then m (a + (z - b)) else m z) as Hsw.
  { intros z. rewrite swap_words_spec by (done || lia). by rewrite E4. }
  split; [|split; [|split]].
  - rewrite <- (Hs k x Hk). fold pos. fold b. apply bytes_ext. intros i Hi. rewrite Hsw, (proj2 (Z.leb_le _ _)), (proj2 (Z.ltb_lt _ _)) by lia. cbn [andb]. f_equal. lia.
  - intros j y Hj. rewrite (take_out_lookup k l x0 j H0) in Hj. destruct (decide (S j = k)) as [<-|Hjk].
    + rewrite decide_True in Hj by done. injection Hj as <-. replace (h + 1 + Z.of_nat j) with (h + Z.of_nat (S j)) by lia. fold pos. fold b.
      rewrite <- (Hs 0%nat x0 H0), <- Eh. fold a. apply bytes_ext. intros i Hi. rewrite Hsw. range_cases; try (f_equal; lia); lia.
    + replace (h + 1 + Z.of_nat j) with (h + Z.of_nat (S j)) by lia. rewrite <- (Hs _ _ Hj). pose proof (lookup_lt_Some _ _ _ Hj). set (i := (h + Z.of_nat (S j)) mod n).
      assert (0 <= i < n) as Hi by (apply Z.mod_pos_bound; lia).
      assert (i <> h) as Hih. { intros E. unfold i in E. rewrite <- (Z.mod_small h n) in E at 2 by done. rewrite <- (Z.add_0_r h) in E at 2. apply (place_inj q) in E; fold n; lia. }
      assert (i <> pos) as Hip. { intros E. apply (place_inj q) in E; fold n; lia. }
      apply bytes_ext. intros z Hz. rewrite Hsw. pose proof (slots_apart s q Hq i h (slot_addr s q i + z) Hi Hh Hih ltac:(lia)). pose proof (slots_apart s q Hq i pos (slot_addr s q i + z) Hi Hpos Hip ltac:(lia)).
      fold a in H1. fold b in H2. range_cases; done.
  - intros z Hz. rewrite Hsw. unfold a, b. rewrite !(slot_addr_value s q Hq) by (fold n; lia). fold n. assert (h * s + s <= n * s) by nia. assert (pos * s + s <= n * s) by nia. assert (0 <= h * s) by nia. assert (0 <= pos * s) by nia. range_cases; done.
  - by apply swap_words_ok.
Qed.

(** Receiving fails when no message matches; otherwise it takes the first match out,
    copies its data and leaves the rest of the queue. *)
Lemma rx_refines m l : mem_ok m -> rep s q m l ->
  exists ret xfer' m', __smq_rx s q sg xfer m = Some (ret, xfer', m') /\
    match l !! first (wanted sg xfer) l with
    | None => ret = SBI_ENOENT /\ xfer' = xfer /\ m' = m
    | Some x =>
        ret = SBI_OK /\ xfer' = received x xfer /\ mem_ok m' /\ rep s q m' (take_out (first (wanted sg xfer) l) l) /\
        (rx xfer <> 0 -> bytes m' (rx xfer) (Z.to_nat (rx_len xfer)) = bytes (mem_of 0 x) 8 (Z.to_nat (rx_len xfer))) /\
        forall z, ~ in_queue s q z -> ~ (rx xfer <= z < rx xfer + rx_len xfer /\ rx xfer <> 0) -> m' z = m z
    end.
Proof.
  intros Hm Hrep. unfold __smq_rx. pose proof Hrx as [Hw Hl Hb]. rewrite (proj2 (Z.ltb_ge _ _)) by lia. rewrite (proj2 (Z.ltb_ge (rx_len xfer) _)) by lia.
  rewrite (empty_spec s q m l Hrep). destruct (bool_decide_reflect (l = [])) as [->|Hne]; [by eexists _, _, _|].
  pose proof Hrep as (h & Hh & E1 & E2 & Hlen & Hs). rewrite E1, E2. pose proof (slots_range s q Hq) as Hn. fold n in Hn, Hh, Hlen. set (f := wanted sg xfer). fold (no_rx_token xfer).
  rewrite (find_slot_spec s q Hq f); [|done|done|fold n; lia|].
  2: { intros k x Hk. exact (matches_slot m _ x _ _ _ (Hs k x Hk)). }
  cbn [mbind option_bind]. fold n. pose proof (first_le f l) as Hf. set (k := first f l) in *. set (pos := (h + Z.of_nat k) mod n).
  destruct (l !! k) as [x|] eqn:Hk.
  2: { apply lookup_ge_None in Hk. assert (k = length l) as Ek by lia. unfold pos. rewrite Ek, Z.eqb_refl. by eexists _, _, _. }
  pose proof (lookup_lt_Some _ _ _ Hk) as Hkl. destruct (Z.eqb_spec pos ((h + Z.of_nat (length l)) mod n)) as [E|_]; [apply (place_inj q) in E; fold n; lia|].
  destruct (l !! O) as [x0|] eqn:H0; [|apply lookup_ge_None in H0; lia].
  destruct (swapped_slots m h k x0 x l Hm Hh Hlen H0 Hk Hs) as (Hx & Hrest & Hout & Hok1). fold n in Hrest, Hout. fold pos in Hx, Hrest, Hout, Hok1. 
  set (m1 := if negb (pos =? h) then _ else _) in *. set (a := slot_addr s q h) in *. pose proof (qo_size _ _ Hq) as Hs64. pose proof (qo_head _ _ Hq). pose proof (qo_tail _ _ Hq). unfold RPMI_SLOT_SIZE_MIN in Hs64.
  pose proof (fun i => mem_of_slot m1 a (Z.to_nat s) x i Hx) as Hmx. unfold RPMI_MSG_HDR_SIZE in *.
  assert (GET_TOKEN a m1 = GET_TOKEN 0 (mem_of 0 x) /\ GET_DLEN a m1 = GET_DLEN 0 (mem_of 0 x)) as [-> ->].
  { split; apply load_le_ext; intros i Hi; rewrite Hmx by lia; f_equal; lia. }
  match goal with |- context [rx_endian_words (if ?b then ?u else ?v)] =>
    assert (rx_endian_words (if b then u else v) = rx_endian_words (xfer_args xfer)) as -> by (by destruct b) end. cbn [rx_endian_words].
  set (m2 := (sbi_memcpy _ _ _ _).1). pose proof (slot_behind s q Hq h Hh) as Hba. fold a in Hba.
  assert (forall z, in_queue s q z -> z < rx xfer \/ rx xfer + rx_len xfer <= z) as Hbo.
  { intros z Hz. destruct (Z.lt_ge_cases z (rx xfer)); [by left|]. destruct (Z.le_gt_cases (rx xfer + rx_len xfer) z); [by right|]. exfalso. by apply (Hb z); [lia|]. }
  assert (forall z, m2 z = copied m1 (rx xfer) (a + 8) (rx_len xfer) z) as H2.
  { intros z. unfold m2. rewrite <- (Z2Nat.id (rx_endian_words (xfer_args xfer))) at 2 3 4 by lia. apply copy_rest; [done|lia|].
    destruct (Z.le_gt_cases (rx_len xfer) 0); [lia|].
    pose proof (Hbo (a + 8) ltac:(apply (slot_in_queue s q Hq h); [done|fold a; lia])). pose proof (Hbo (a + 8 + rx_len xfer - 1) ltac:(apply (slot_in_queue s q Hq h); [done|fold a; lia])).
    destruct (Z.le_gt_cases (rx xfer + rx_len xfer) (a + 8)); [by left|]. right.
    destruct (Z.le_gt_cases (a + 8 + rx_len xfer) (rx xfer)); [done|]. lia. }
  assert (mem_ok m2) as Hok2 by (by apply memcpy_ok, copy_words_ok).
  set (m3 := if negb (rx xfer =? 0) then m2 else m1).
  assert (forall z, in_queue s q z -> m3 z = m1 z) as H31.
  { intros z Hz. unfold m3. destruct (rx xfer =? 0); cbn [negb]; [done|]. rewrite H2. apply copied_out. by apply Hbo. }
  assert (mem_ok m3) as Hok3 by (unfold m3; by destruct (rx xfer =? 0)).
  exists SBI_OK, (received x xfer), (store32 m3 (headptr q) (next_slot q h)). split.
  { unfold received, m3. destruct (rx xfer =? 0), (no_rx_token xfer); try reflexivity. by destruct (xfer_args xfer). }
  split; [done|]. split; [done|]. split; [by apply store_le_ok|]. 
  assert (forall z, z < headptr q \/ headptr q + 4 <= z -> store32 m3 (headptr q) (next_slot q h) z = m3 z) as H43 by (intros z Hz; apply store_le_other; lia).
  assert (next_slot q h = (h + 1) mod n) as Enext by (rewrite <- (Z.mod_small h n) at 1 by done; rewrite <- (Z.add_0_r h) at 1; apply (next_slot_value s q Hq h 0)).
  pose proof (Z.mod_pos_bound (h + 1) n ltac:(lia)). split; [|split].
  - exists ((h + 1) mod n). split; [done|]. split; [|split; [|split]].
    + rewrite Enext. apply load_store_le. lia.
    + rewrite (take_out_length k l Hkl). fold n. rewrite Zplus_mod_idemp_l. replace (h + 1 + Z.of_nat (Nat.pred (length l))) with (h + Z.of_nat (length l)) by lia. fold n in E2. rewrite <- E2.
      apply load_le_ext. intros i Hi. rewrite H43, H31 by (lia || (right; left; lia)). apply Hout. lia.
    + rewrite (take_out_length k l Hkl). fold n. lia.
    + intros j y Hj. fold n. rewrite Zplus_mod_idemp_l. rewrite <- (Hrest j y Hj). set (i := (h + 1 + Z.of_nat j) mod n). assert (0 <= i < n) as Hi by (apply Z.mod_pos_bound; lia).
      pose proof (slot_behind s q Hq i Hi). apply bytes_ext. intros z Hz. rewrite H43 by lia. apply H31, (slot_in_queue s q Hq i); [done|lia].
  - intros Hrx0. apply bytes_ext. intros i Hi. rewrite H43.
    + unfold m3. rewrite (proj2 (Z.eqb_neq _ _) Hrx0). cbn [negb]. rewrite H2, copied_in by lia. rewrite Hmx by lia. f_equal. lia.
    + destruct (Z.lt_ge_cases (rx xfer + i) (headptr q)); [by left|]. right. destruct (Z.le_gt_cases (headptr q + 4) (rx xfer + i)); [done|]. exfalso. apply (Hb (rx xfer + i)); [lia|left; lia].
  - intros z Hz Hzr. unfold in_queue in Hz. rewrite H43 by lia. unfold m3. destruct (Z.eqb_spec (rx xfer) 0) as [E|E]; cbn [negb]; [apply Hout; fold n in Hz; lia|].
    rewrite H2, copied_out by lia. apply Hout. fold n in Hz. lia.
Qed.

End Rx.
