(* ===== verification/RpmiMailbox.v ===== *)
(** * Mailboxes and requests to the platform's microcontroller
    (lib/utils/mailbox/fdt_mailbox_rpmi_shmem.c, mailbox.c, rpmi_mailbox.c)

    The transfer of messages with retries over the queues of [RpmiQueue], the
    framework of controllers and channels above it, and requests that wait for an
    answer with a status. *)

From S2P Require Import Prelude SbiString RpmiQueue.

(** ** The transport *)

Definition RPMI_QUEUE_IDX_A2P_REQ : Z := 0.
Definition RPMI_QUEUE_IDX_P2A_ACK : Z := 1.
Definition RPMI_QUEUE_IDX_P2A_REQ : Z := 2.
Definition RPMI_QUEUE_IDX_A2P_ACK : Z := 3.

Record rpmi_shmem_mbox_controller := mkMctl {
  mctl_slot_size : Z; queue_count : Z; mb_regs : Z; queue_ctx_tbl : Z -> smq_queue_ctx; impl_version : Z; impl_id : Z; spec_version : Z;
  plat_info_len : Z; plat_info : Z; f0_priv_level : Z; f0_ev_notif_en : bool }.

(** Memory, and whatever else moves on while the firmware waits. *)
Record machine {R : Type} := mkMachine { m_mem : mem; m_rest : R }.
Arguments machine : clear implicits.

Section Transport.
Context {R : Type}.
(** [sbi_timer_mdelay(1)]: other harts and the microcontroller run. *)
Variable mdelay : machine R -> machine R.
Variable mctl : rpmi_shmem_mbox_controller.

Definition put_mem (m : mem) (w : machine R) : machine R := mkMachine R m (m_rest w).

(** [n] attempts, of which each takes the lock of the queue. *)
Fixpoint rx_loop (n : nat) (qctx : smq_queue_ctx) (service_group_id : Z) (xfer : mbox_xfer) (w : machine R) : option (Z * mbox_xfer * machine R) :=
  match n with
  | O => Some (SBI_ETIMEOUT, xfer, w)
  | S n =>
      '(ret, xfer', m) ← __smq_rx (mctl_slot_size mctl) qctx service_group_id xfer (m_mem w);
      if ret =? 0 then Some (0, xfer', put_mem m w) else rx_loop n qctx service_group_id xfer' (mdelay (put_mem m w))
  end.

(** The body runs once before the time-out is looked at. *)
Definition attempts (timeout : Z) : nat := Z.to_nat (Z.max 1 timeout).

Definition smq_rx (queue_id service_group_id : Z) (xfer : mbox_xfer) (w : machine R) : option (Z * mbox_xfer * machine R) :=
  if queue_count mctl <? queue_id then Some (SBI_EINVAL, xfer, w)
  else rx_loop (attempts (rx_timeout xfer)) (queue_ctx_tbl mctl queue_id) service_group_id xfer w.

Fixpoint tx_loop (n : nat) (qctx : smq_queue_ctx) (service_group_id : Z) (xfer : mbox_xfer) (w : machine R) : Z * machine R :=
  match n with
  | O => (SBI_ETIMEOUT, w)
  | S n =>
      let '(ret, m) := __smq_tx (mctl_slot_size mctl) qctx (mb_regs mctl) service_group_id xfer (m_mem w) in
      if ret =? 0 then (0, put_mem m w) else tx_loop n qctx service_group_id xfer (mdelay (put_mem m w))
  end.

Definition smq_tx (queue_id service_group_id : Z) (xfer : mbox_xfer) (w : machine R) : Z * machine R :=
  if queue_count mctl <? queue_id then (SBI_EINVAL, w)
  else tx_loop (attempts (tx_timeout xfer)) (queue_ctx_tbl mctl queue_id) service_group_id xfer w.

(** The queues of a transfer, or the error. *)
Definition xfer_queues (type : Z) (do_tx do_rx : bool) : Z + Z * Z :=
  if type =? RPMI_MSG_NORMAL_REQUEST then
    inr (if do_tx && do_rx then (RPMI_QUEUE_IDX_A2P_REQ, RPMI_QUEUE_IDX_P2A_ACK)
         else if do_tx then (RPMI_QUEUE_IDX_A2P_REQ, 0)
         else if do_rx then (0, RPMI_QUEUE_IDX_P2A_REQ)
         else (0, 0))
  else if type =? RPMI_MSG_POSTED_REQUEST then
    if do_tx && do_rx then inl SBI_EINVAL
    else inr (if do_tx then (RPMI_QUEUE_IDX_A2P_REQ, 0) else (0, RPMI_QUEUE_IDX_P2A_REQ))
  else if type =? RPMI_MSG_ACKNOWLDGEMENT then
    if do_tx && do_rx then inl SBI_EINVAL
    else inr (if do_tx then (RPMI_QUEUE_IDX_A2P_ACK, 0) else (0, RPMI_QUEUE_IDX_P2A_ACK))
  else inl SBI_ENOTSUPP.

Definition rpmi_shmem_mbox_xfer (servicegroup_id : Z) (xfer : mbox_xfer) (w : machine R) : option (Z * mbox_xfer * machine R) :=
  let args := xfer_args xfer in
  let do_tx := Z.land (arg_flags args) RPMI_MSG_FLAGS_NO_TX =? 0 in
  let do_rx := Z.land (arg_flags args) RPMI_MSG_FLAGS_NO_RX =? 0 in
  if negb do_tx && negb do_rx then Some (SBI_EINVAL, xfer, w)
  else
    match xfer_queues (arg_type args) do_tx do_rx with
    | inl err => Some (err, xfer, w)
    | inr (tx_qid, rx_qid) =>
        let '(ret, w) := if do_tx then smq_tx tx_qid servicegroup_id xfer w else (0, w) in
        if negb (ret =? 0) then Some (ret, xfer, w)
        else if do_rx then smq_rx rx_qid servicegroup_id xfer w
        else Some (0, xfer, w)
    end.

End Transport.

(** ** Attributes of a channel *)

Definition RPMI_CHANNEL_ATTR_PROTOCOL_VERSION : Z := 0.
Definition RPMI_CHANNEL_ATTR_MAX_DATA_LEN : Z := 1.
Definition RPMI_CHANNEL_ATTR_TX_TIMEOUT : Z := 2.
Definition RPMI_CHANNEL_ATTR_RX_TIMEOUT : Z := 3.
Definition RPMI_CHANNEL_ATTR_SERVICEGROUP_ID : Z := 4.
Definition RPMI_CHANNEL_ATTR_SERVICEGROUP_VERSION : Z := 5.
Definition RPMI_DEF_TX_TIMEOUT : Z := 20.
Definition RPMI_DEF_RX_TIMEOUT : Z := 20.

(** The value is written where [out_value] points. *)
Definition rpmi_shmem_mbox_get_attribute (mctl : rpmi_shmem_mbox_controller) (servicegroup_id servicegroup_version attr_id out_value : Z) (m : mem) : Z * mem :=
  if attr_id =? RPMI_CHANNEL_ATTR_PROTOCOL_VERSION then (0, store32 m out_value (spec_version mctl))
  else if attr_id =? RPMI_CHANNEL_ATTR_MAX_DATA_LEN then (0, store32 m out_value (RPMI_MSG_DATA_SIZE (mctl_slot_size mctl)))
  else if attr_id =? RPMI_CHANNEL_ATTR_TX_TIMEOUT then (0, store32 m out_value RPMI_DEF_TX_TIMEOUT)
  else if attr_id =? RPMI_CHANNEL_ATTR_RX_TIMEOUT then (0, store32 m out_value RPMI_DEF_RX_TIMEOUT)
  else if attr_id =? RPMI_CHANNEL_ATTR_SERVICEGROUP_ID then (0, store32 m out_value servicegroup_id)
  else if attr_id =? RPMI_CHANNEL_ATTR_SERVICEGROUP_VERSION then (0, store32 m out_value servicegroup_version)
  else (SBI_ENOTSUPP, m).

(** ** Controllers and channels *)

Definition MBOX_XFER_SEQ : Z := 1.

Record mbox_chan := mkChan { chan_mbox : Z; chan_args : Z * Z }.
Record mbox_controller := mkMbox { mbox_id : Z; max_xfer_len : Z; xfer_next_seq : Z; chan_list : list Z }.

(** The registered controllers, controllers and channels by address, and the state of
    the drivers. *)
Record mailboxes {W : Type} := mkMb { mbox_list : list Z; mbox_at : Z -> mbox_controller; chan_at : Z -> mbox_chan; mb_dev : W }.
Arguments mailboxes : clear implicits.

Definition mbox_xfer_set_sequence (x : mbox_xfer) (seq : Z) : mbox_xfer :=
  mkXfer (Z.lor (xfer_flags x) MBOX_XFER_SEQ) (xfer_args x) seq (tx x) (tx_len x) (tx_timeout x) (rx x) (rx_len x) (rx_timeout x).

Section Framework.
Context {W : Type}.
(** The memory of the driver's world, and its callbacks; [None] where it has none. *)
Variables (dev_mem : W -> mem) (cb_request_chan : option (Z -> Z -> mailboxes W -> option (Z * mailboxes W)))
  (cb_free_chan : option (Z -> Z -> mailboxes W -> mailboxes W))
  (cb_xfer : option (Z -> mbox_xfer -> mailboxes W -> option (Z * mbox_xfer * mailboxes W)))
  (cb_get_attribute cb_set_attribute : option (Z -> Z -> Z -> mailboxes W -> Z * mailboxes W)).

Definition put_mbox (a : Z) (c : mbox_controller) (w : mailboxes W) : mailboxes W :=
  mkMb W (mbox_list w) (fun a' => if a' =? a then c else mbox_at w a') (chan_at w) (mb_dev w).
Definition put_chan (a : Z) (c : mbox_chan) (w : mailboxes W) : mailboxes W :=
  mkMb W (mbox_list w) (mbox_at w) (fun a' => if a' =? a then c else chan_at w a') (mb_dev w).
Definition put_chans (a : Z) (l : list Z) (w : mailboxes W) : mailboxes W :=
  let c := mbox_at w a in put_mbox a (mkMbox (mbox_id c) (max_xfer_len c) (xfer_next_seq c) l) w.
Definition put_mbox_list (l : list Z) (w : mailboxes W) : mailboxes W := mkMb W l (mbox_at w) (chan_at w) (mb_dev w).

Definition mbox_controller_find (id : Z) (w : mailboxes W) : Z :=
  match list_find (fun a => mbox_id (mbox_at w a) = id) (mbox_list w) with Some (_, a) => a | None => 0 end.

Definition mbox_controller_add (mbox : Z) (w : mailboxes W) : Z * mailboxes W :=
  if (mbox =? 0) || (max_xfer_len (mbox_at w mbox) =? 0) then (SBI_EINVAL, w)
  else if negb (mbox_controller_find (mbox_id (mbox_at w mbox)) w =? 0) then (SBI_EALREADY, w)
  else
    let c := mbox_at w mbox in
    let w := put_mbox mbox (mkMbox (mbox_id c) (max_xfer_len c) 0 []) w in
    (0, put_mbox_list (mbox :: mbox_list w) w).

(** The [while] loop, with the number of channels as fuel; [list_del] of the first
    channel of the list. *)
Fixpoint free_chans (n : nat) (mbox : Z) (w : mailboxes W) : mailboxes W :=
  match n, chan_list (mbox_at w mbox) with
  | S n, chan :: _ =>
      let w := match cb_free_chan with Some f => f mbox chan w | None => w end in
      free_chans n mbox (put_chans mbox (filter (fun a => a <> chan) (chan_list (mbox_at w mbox))) w)
  | _, _ => w
  end.

Definition mbox_controller_remove (mbox : Z) (w : mailboxes W) : mailboxes W :=
  if mbox =? 0 then w
  else
    let w := free_chans (length (chan_list (mbox_at w mbox))) mbox w in
    put_mbox_list (filter (fun a => a <> mbox) (mbox_list w)) w.

(** The two words at [p]. *)
Definition args_at (p : Z) (w : mailboxes W) : Z * Z := (load32 (dev_mem (mb_dev w)) p, load32 (dev_mem (mb_dev w)) (p + 4)).

Definition mbox_controller_request_chan (mbox p : Z) (w : mailboxes W) : option (Z * mailboxes W) :=
  match cb_request_chan with
  | None => Some (0, w)
  | Some request_chan =>
      if (p =? 0) || (mbox =? 0) then Some (0, w)
      else
        let args := args_at p w in
        match list_find (fun a => chan_args (chan_at w a) = args) (chan_list (mbox_at w mbox)) with
        | Some (_, a) => Some (a, w)
        | None =>
            '(ret, w) ← request_chan mbox p w;
            if ret =? 0 then Some (0, w)
            else
              let w := put_chan ret (mkChan mbox (args_at p w)) w in
              Some (ret, put_chans mbox (ret :: chan_list (mbox_at w mbox)) w)
        end
  end.

Definition mbox_controller_free_chan (chan : Z) (w : mailboxes W) : mailboxes W :=
  let mbox := chan_mbox (chan_at w chan) in
  if (chan =? 0) || (mbox =? 0) then w
  else
    let w := match cb_free_chan with Some f => f mbox chan w | None => w end in
    put_chans mbox (filter (fun a => a <> chan) (chan_list (mbox_at w mbox))) w.

Definition mbox_chan_xfer (chan : Z) (xfer : mbox_xfer) (w : mailboxes W) : option (Z * mbox_xfer * mailboxes W) :=
  let mbox := chan_mbox (chan_at w chan) in
  match cb_xfer with
  | None => Some (SBI_EINVAL, xfer, w)
  | Some f =>
      let c := mbox_at w mbox in
      if (chan =? 0) || (mbox =? 0) then Some (SBI_EINVAL, xfer, w)
      else if negb (tx xfer =? 0) && (max_xfer_len c <? tx_len xfer) then Some (SBI_EINVAL, xfer, w)
      else if negb (rx xfer =? 0) && (max_xfer_len c <? rx_len xfer) then Some (SBI_EINVAL, xfer, w)
      else if Z.land (xfer_flags xfer) MBOX_XFER_SEQ =? 0 then
        let seq := u64 (xfer_next_seq c + 1) in
        f chan (mbox_xfer_set_sequence xfer seq) (put_mbox mbox (mkMbox (mbox_id c) (max_xfer_len c) seq (chan_list c)) w)
      else f chan xfer w
  end.

Definition mbox_chan_get_attribute (chan attr_id out_value : Z) (w : mailboxes W) : Z * mailboxes W :=
  if (chan =? 0) || (chan_mbox (chan_at w chan) =? 0) || (out_value =? 0) then (SBI_EINVAL, w)
  else match cb_get_attribute with None => (SBI_ENOTSUPP, w) | Some f => f chan attr_id out_value w end.

Definition mbox_chan_set_attribute (chan attr_id new_value : Z) (w : mailboxes W) : Z * mailboxes W :=
  if (chan =? 0) || (chan_mbox (chan_at w chan) =? 0) || (new_value =? 0) then (SBI_EINVAL, w)
  else match cb_set_attribute with None => (SBI_ENOTSUPP, w) | Some f => f chan attr_id new_value w end.

End Framework.

(** ** Requests *)

Definition rpmi_xlate_error (error : Z) : Z :=
  match error with
  | 0 => SBI_OK
  | -1 => SBI_EFAIL
  | -2 => SBI_ENOTSUPP
  | -3 => SBI_EINVAL
  | -4 => SBI_EDENIED
  | -5 => SBI_EINVALID_ADDR
  | -6 => SBI_EALREADY
  | -7 => SBI_EFAIL
  | -8 => SBI_EIO
  | -9 => SBI_EFAIL
  | -10 => SBI_EINVALID_STATE
  | -11 => SBI_EBAD_RANGE
  | -12 => SBI_ETIMEOUT
  | -13 => SBI_EIO
  | -14 => SBI_EFAIL
  | _ => SBI_EUNKNOWN
  end.

(** The driver's state: memory and what runs beside the firmware, and group and
    version of a channel. *)
Record rpmi_dev {R : Type} := mkDev { dev_machine : machine R; srvgrp_at : Z -> Z * Z }.
Arguments rpmi_dev : clear implicits.

Section Requests.
Context {R : Type}.
Variables (mdelay : machine R -> machine R) (mctl : rpmi_shmem_mbox_controller).
Notation world := (mailboxes (rpmi_dev R)).

Definition mem_of_world (w : world) : mem := m_mem (dev_machine (mb_dev w)).

Definition put_machine (m : machine R) (w : world) : world :=
  mkMb (rpmi_dev R) (mbox_list w) (mbox_at w) (chan_at w) (mkDev R m (srvgrp_at (mb_dev w))).

(** [rpmi_shmem_mbox_xfer] as callback: the group is that of the channel. *)
Definition shmem_xfer (chan : Z) (xfer : mbox_xfer) (w : world) : option (Z * mbox_xfer * world) :=
  '(ret, xfer, m) ← rpmi_shmem_mbox_xfer mdelay mctl (srvgrp_at (mb_dev w) chan).1 xfer (dev_machine (mb_dev w));
  Some (ret, xfer, put_machine m w).

Definition rpmi_normal_request_with_status (chan service_id req req_words req_endian_words resp resp_words resp_endian_words : Z) (w : world) : option (Z * world) :=
  let args := mkArgs 0 RPMI_MSG_NORMAL_REQUEST (u8 service_id) req_endian_words resp_endian_words 0 0 in
  let xfer := mkXfer 0 args 0 req (4 * req_words) RPMI_DEF_TX_TIMEOUT resp (4 * resp_words) RPMI_DEF_RX_TIMEOUT in
  '(ret, _, w) ← mbox_chan_xfer (Some shmem_xfer) chan xfer w;
  if negb (ret =? 0) then Some (ret, w) else Some (rpmi_xlate_error (signed 32 (load32 (mem_of_world w) resp)), w).

Definition rpmi_posted_request (chan service_id req req_words req_endian_words : Z) (w : world) : option (Z * world) :=
  let args := mkArgs RPMI_MSG_FLAGS_NO_RX RPMI_MSG_POSTED_REQUEST (u8 service_id) req_endian_words 0 0 0 in
  let xfer := mkXfer 0 args 0 req (4 * req_words) RPMI_DEF_TX_TIMEOUT 0 0 0 in
  '(ret, _, w) ← mbox_chan_xfer (Some shmem_xfer) chan xfer w;
  Some (ret, w).

End Requests.

(** ** Set-up *)

Definition RPMI_SRVGRP_BASE : Z := 1.
Definition RPMI_SRVGRP_ID_MAX_COUNT : Z := 9.
Definition RPMI_SRVGRP_RESERVE_END : Z := 0x7fff.
Definition RPMI_BASE_SRV_GET_IMPLEMENTATION_VERSION : Z := 2.
Definition RPMI_BASE_SRV_GET_IMPLEMENTATION_IDN : Z := 3.
Definition RPMI_BASE_SRV_GET_SPEC_VERSION : Z := 4.
Definition RPMI_BASE_SRV_GET_PLATFORM_INFO : Z := 5.
Definition RPMI_BASE_SRV_PROBE_SERVICE_GROUP : Z := 6.
Definition RPMI_BASE_SRV_GET_ATTRIBUTES : Z := 7.
Definition RPMI_VERSION (major minor : Z) : Z := Z.lor (Z.shiftl major 16) minor.
Definition RPMI_BASE_VERSION_MIN : Z := RPMI_VERSION 1 0.
Definition RPMI_BASE_FLAGS_F0_PRIVILEGE : Z := 2.
Definition RPMI_BASE_FLAGS_F0_EV_NOTIFY : Z := 1.
Definition RPMI_QUEUE_HEAD_SLOT : Z := 0.
Definition RPMI_QUEUE_TAIL_SLOT : Z := 1.
Definition RPMI_QUEUE_HEADER_SLOTS : Z := 2.
Definition RPMI_QUEUE_IDX_MAX_COUNT : Z := 4.
Definition RPMI_REG_IDX_MAX_COUNT : Z := 1.

Section Setup.
Context {R : Type}.
Notation world := (mailboxes (rpmi_dev R)).
(** [sbi_timer_mdelay(1)], [sbi_zalloc], [sbi_free] and [sbi_domain_root_add_memrange]. *)
Variables (mdelay : machine R -> machine R) (zalloc : Z -> world -> Z * world) (sbi_free : Z -> world -> world)
  (root_add_memrange : Z -> Z -> Z -> world -> Z * world).
(** [sizeof(struct rpmi_srvgrp_chan)] and of the controller. *)
Variables (sizeof_srvgrp_chan sizeof_mctl : Z).

(** What the driver asks of the node in the device tree: the result of the comparison of
    its name, the slot size, the number of names, the ranges and the names. *)
Record mbox_node := mkNode {
  nd_compatible : Z; nd_slot_size : option Z; nd_count : Z; nd_reg : Z -> Z * Z * Z; nd_name : Z -> option (list Z) * Z; nd_db_name : list Z -> bool }.

Variable node : mbox_node.

Definition put_queue (i : Z) (qctx : smq_queue_ctx) (t : Z -> smq_queue_ctx) : Z -> smq_queue_ctx := fun j => if j =? i then qctx else t j.

Definition queue_at (qid slot_size reg_addr reg_size : Z) (name : list Z) : smq_queue_ctx :=
  mkQctx qid (u32 (u64 (reg_size - u32 (slot_size * RPMI_QUEUE_HEADER_SLOTS)) / slot_size))
    (reg_addr + u32 (RPMI_QUEUE_HEAD_SLOT * slot_size)) (reg_addr + u32 (RPMI_QUEUE_TAIL_SLOT * slot_size)) (reg_addr + u32 (RPMI_QUEUE_HEADER_SLOTS * slot_size)) name.

Fixpoint init_queues (n : nat) (qid slot_size : Z) (t : Z -> smq_queue_ctx) (w : world) : Z * (Z -> smq_queue_ctx) * world :=
  match n with
  | O => (0, t, w)
  | S n =>
      let '(ret, reg_addr, reg_size) := nd_reg node qid in
      if (ret <? 0) || (reg_addr =? 0) || (reg_size =? 0) then (SBI_ENOENT, t, w)
      else
        let '(ret, w) := root_add_memrange reg_addr reg_size reg_size w in
        if negb (ret =? 0) then (ret, t, w)
        else
          let qctx := queue_at qid slot_size reg_addr reg_size [] in
          match nd_name node qid with
          | (None, len) => (len, put_queue qid qctx t, w)
          | (Some name, len) =>
              if len <? 0 then (len, put_queue qid qctx t, w)
              else init_queues n (qid + 1) slot_size (put_queue qid (queue_at qid slot_size reg_addr reg_size name) t) w
          end
  end.

Definition no_queue : smq_queue_ctx := mkQctx 0 0 0 0 0 [].

(** A controller fresh from [sbi_zalloc] with the tables of the transport. *)
Definition mctl_of (slot_size count regs : Z) (t : Z -> smq_queue_ctx) : rpmi_shmem_mbox_controller := mkMctl slot_size count regs t 0 0 0 0 0 0 false.

Definition rpmi_shmem_transport_init (w : world) : Z * rpmi_shmem_mbox_controller * world :=
  if negb (nd_compatible node =? 0) then (nd_compatible node, mctl_of 0 0 0 (fun _ => no_queue), w)
  else
    match nd_slot_size node with
    | None => (SBI_ENOENT, mctl_of 0 0 0 (fun _ => no_queue), w)
    | Some sz =>
        let slot_size := if u32 sz <? RPMI_SLOT_SIZE_MIN then RPMI_SLOT_SIZE_MIN else u32 sz in
        let count := nd_count node in
        if (count <? 0) || (RPMI_QUEUE_IDX_MAX_COUNT + RPMI_REG_IDX_MAX_COUNT <? count) then (SBI_EINVAL, mctl_of slot_size 0 0 (fun _ => no_queue), w)
        else
          let queue_count := u32 (count - RPMI_REG_IDX_MAX_COUNT) in
          let '(ret, t, w) := init_queues (Z.to_nat queue_count) 0 slot_size (fun _ => no_queue) w in
          if negb (ret =? 0) then (ret, mctl_of slot_size queue_count 0 t, w)
          else
            match nd_name node queue_count with
            | (None, len) => (len, mctl_of slot_size queue_count 0 t, w)
            | (Some name, len) =>
                if len <? 0 then (len, mctl_of slot_size queue_count 0 t, w)
                else
                  let '(ret, reg_addr, reg_size) := nd_reg node queue_count in
                  if (ret =? 0) && nd_db_name node name then
                    let '(ret, w) := root_add_memrange reg_addr reg_size reg_size w in
                    (ret, mctl_of slot_size queue_count reg_addr t, w)
                  else (0, mctl_of slot_size queue_count 0 t, w)
            end
    end.

Definition word32_at (w : world) (a k : Z) : Z := load32 (mem_of_world w) (a + 4 * k).
Definition put_word (a k v : Z) (w : world) : world := put_machine (put_mem (store32 (mem_of_world w) (a + 4 * k) v) (dev_machine (mb_dev w))) w.

Definition smq_base_get_two_u32 (mctl : rpmi_shmem_mbox_controller) (base_chan service_id inarg outvals : Z) (w : world) : option (Z * world) :=
  let n := if inarg =? 0 then 0 else 1 in rpmi_normal_request_with_status mdelay mctl base_chan service_id inarg n n outvals 2 2 w.

(** [tval] is the array on the stack. *)
Definition rpmi_shmem_mbox_request_chan (mctl : rpmi_shmem_mbox_controller) (base_chan tval mbox chan_args : Z) (w : world) : option (Z * world) :=
  let w := put_word tval 1 0 (put_word tval 0 0 w) in
  let id := word32_at w chan_args 0 in
  if (RPMI_SRVGRP_ID_MAX_COUNT <=? id) && (id <=? RPMI_SRVGRP_RESERVE_END) then Some (0, w)
  else
    '(ok, w) ← (if id =? RPMI_SRVGRP_BASE then Some (true, w)
                else
                  '(ret, w) ← smq_base_get_two_u32 mctl base_chan RPMI_BASE_SRV_PROBE_SERVICE_GROUP chan_args tval w;
                  Some (negb (negb (ret =? 0) || (word32_at w tval 1 =? 0)), w));
    if negb ok then Some (0, w)
    else
      let '(chan, w) := zalloc sizeof_srvgrp_chan w in
      if chan =? 0 then Some (0, w)
      else
        let v := (word32_at w chan_args 0, word32_at w tval 1) in
        Some (chan, mkMb (rpmi_dev R) (mbox_list w) (mbox_at w) (chan_at w)
                      (mkDev R (dev_machine (mb_dev w)) (fun a => if a =? chan then v else srvgrp_at (mb_dev w) a))).

Definition rpmi_shmem_mbox_free_chan (mbox chan : Z) (w : world) : world := sbi_free chan w.

(** The string is copied as far as its length says; what is left of the result is
    ignored by the caller. *)
Definition rpmi_get_platform_info (mctl : rpmi_shmem_mbox_controller) (base_chan : Z) (w : world) : option (Z * rpmi_shmem_mbox_controller * world) :=
  let size := RPMI_MSG_DATA_SIZE (mctl_slot_size mctl) in
  let '(resp, w) := zalloc size w in
  if resp =? 0 then Some (SBI_ENOMEM, mctl, w)
  else
    '(ret, w) ← rpmi_normal_request_with_status mdelay mctl base_chan RPMI_BASE_SRV_GET_PLATFORM_INFO 0 0 0 resp (size / 4) (size / 4) w;
    if negb (ret =? 0) then Some (ret, mctl, sbi_free resp w)
    else
      let len := word32_at w resp 1 in
      let '(info, w) := zalloc len w in
      let mctl := mkMctl (mctl_slot_size mctl) (queue_count mctl) (mb_regs mctl) (queue_ctx_tbl mctl) (impl_version mctl) (impl_id mctl) (spec_version mctl) len info (f0_priv_level mctl) (f0_ev_notif_en mctl) in
      if info =? 0 then Some (SBI_ENOMEM, mctl, sbi_free resp w)
      else
        let m := (sbi_strncpy (mem_of_world w) info (resp + 8) len).1 in
        Some (ret, mctl, sbi_free resp (put_machine (put_mem m (dev_machine (mb_dev w))) w)).

(** The stack of [rpmi_shmem_mbox_init]: [tval], [args] and [resp], and [tval] of
    [rpmi_shmem_mbox_request_chan]. *)
Record init_stack := mkStack { st_tval : Z; st_args : Z; st_resp : Z; st_req_tval : Z }.

(** Versions, then the flags, as they are read. *)
Definition set_versions (iv ii sv : Z) (c : rpmi_shmem_mbox_controller) : rpmi_shmem_mbox_controller :=
  mkMctl (mctl_slot_size c) (queue_count c) (mb_regs c) (queue_ctx_tbl c) iv ii sv (plat_info_len c) (plat_info c) (f0_priv_level c) (f0_ev_notif_en c).
Definition set_flags (f0 : Z) (c : rpmi_shmem_mbox_controller) : rpmi_shmem_mbox_controller :=
  mkMctl (mctl_slot_size c) (queue_count c) (mb_regs c) (queue_ctx_tbl c) (impl_version c) (impl_id c) (spec_version c) (plat_info_len c) (plat_info c)
    (if negb (Z.land f0 RPMI_BASE_FLAGS_F0_PRIVILEGE =? 0) then 1 else 0) (negb (Z.land f0 RPMI_BASE_FLAGS_F0_EV_NOTIFY =? 0)).

Definition put_group_version (chan v : Z) (w : world) : world :=
  mkMb (rpmi_dev R) (mbox_list w) (mbox_at w) (chan_at w)
    (mkDev R (dev_machine (mb_dev w)) (fun a => if a =? chan then ((srvgrp_at (mb_dev w) chan).1, v) else srvgrp_at (mb_dev w) a)).

(** The versions and flags are asked for one by one; the first error ends it. *)
Definition rpmi_base_setup (st : init_stack) (c : rpmi_shmem_mbox_controller) (base_chan : Z) (w : world) : option (Z * rpmi_shmem_mbox_controller * world) :=
  let get service_id inarg w := smq_base_get_two_u32 c base_chan service_id inarg (st_tval st) w in
  let w := put_word (st_args st) 0 RPMI_SRVGRP_BASE w in
  '(ret, w) ← get RPMI_BASE_SRV_PROBE_SERVICE_GROUP (st_args st) w;
  if negb (ret =? 0) then Some (ret, c, w)
  else
    let version := word32_at w (st_tval st) 1 in
    let w := put_group_version base_chan version w in
    if version <? RPMI_BASE_VERSION_MIN then Some (SBI_EINVAL, c, w)
    else
      '(ret, w) ← get RPMI_BASE_SRV_GET_IMPLEMENTATION_VERSION 0 w;
      if negb (ret =? 0) then Some (ret, c, w)
      else
        let iv := word32_at w (st_tval st) 1 in
        '(ret, w) ← get RPMI_BASE_SRV_GET_IMPLEMENTATION_IDN 0 w;
        if negb (ret =? 0) then Some (ret, set_versions iv 0 0 c, w)
        else
          let ii := word32_at w (st_tval st) 1 in
          '(ret, w) ← get RPMI_BASE_SRV_GET_SPEC_VERSION 0 w;
          if negb (ret =? 0) then Some (ret, set_versions iv ii 0 c, w)
          else
            let sv := word32_at w (st_tval st) 1 in
            let c := set_versions iv ii sv c in
            if (sv <? RPMI_BASE_VERSION_MIN) || negb (sv =? version) then Some (SBI_EINVAL, c, w)
            else
              '(ret, w) ← rpmi_normal_request_with_status mdelay c base_chan RPMI_BASE_SRV_GET_ATTRIBUTES 0 0 0 (st_resp st) 5 5 w;
              if negb (ret =? 0) then Some (ret, c, w)
              else
                let c := set_flags (word32_at w (st_resp st) 1) c in
                if f0_priv_level c =? 0 then Some (SBI_ENODEV, c, w) else Some (0, c, w).

Definition rpmi_shmem_mbox_init (st : init_stack) (nodeoff : Z) (w : world) : option (Z * rpmi_shmem_mbox_controller * world) :=
  let '(mbox, w) := zalloc sizeof_mctl w in
  if mbox =? 0 then Some (SBI_ENOMEM, mctl_of 0 0 0 (fun _ => no_queue), w)
  else
    let '(ret, c, w) := rpmi_shmem_transport_init w in
    if negb (ret =? 0) then Some (ret, c, sbi_free mbox w)
    else
      let w := put_mbox mbox (mkMbox (u32 nodeoff) (u32 (mctl_slot_size c - RPMI_MSG_HDR_SIZE)) 0 []) w in
      let '(ret, w) := mbox_controller_add mbox w in
      if negb (ret =? 0) then Some (ret, c, sbi_free mbox w)
      else
        let remove := mbox_controller_remove (Some rpmi_shmem_mbox_free_chan) mbox in
        let w := put_word (st_tval st) 0 RPMI_SRVGRP_BASE w in
        '(base_chan, w) ← mbox_controller_request_chan (fun d => m_mem (dev_machine d)) (Some (rpmi_shmem_mbox_request_chan c 0 (st_req_tval st))) mbox (st_tval st) w;
        if base_chan =? 0 then Some (SBI_ENOENT, c, sbi_free mbox (remove w))
        else
          '(ret, c, w) ← rpmi_base_setup st c base_chan w;
          if negb (ret =? 0) then Some (ret, c, sbi_free mbox (remove (mbox_controller_free_chan (Some rpmi_shmem_mbox_free_chan) base_chan w)))
          else
            '(_, c, w) ← rpmi_get_platform_info c base_chan w;
            Some (0, c, w).

End Setup.

(** ** What a transfer does to the queues *)

Section Spec.
Context {R : Type}.
Variables (mdelay : machine R -> machine R) (mctl : rpmi_shmem_mbox_controller).
Let s := mctl_slot_size mctl.
Let q := queue_ctx_tbl mctl.

Definition valid_queue (i : Z) : Prop := 0 <= i < queue_count mctl.
Definition queued (i : Z) (w : machine R) (l : list (list Z)) : Prop := rep s (q i) (m_mem w) l.
Definition at_bell (x : Z) : Prop := mb_regs mctl <> 0 /\ mb_regs mctl <= x < mb_regs mctl + 4.

(** Memory that is neither a queue nor the doorbell. *)
Definition private (x : Z) : Prop := (forall i, valid_queue i -> ~ in_queue s (q i) x) /\ ~ at_bell x.

Record transport_ok : Prop := {
  tr_queue : forall i, valid_queue i -> q_ok s (q i);
  tr_apart : forall i j x, valid_queue i -> valid_queue j -> i <> j -> in_queue s (q i) x -> ~ in_queue s (q j) x;
  tr_bell : forall i x, valid_queue i -> at_bell x -> ~ in_queue s (q i) x }.

(** Bytes in memory, every queue well-formed. *)
Definition well_formed (w : machine R) : Prop := mem_ok (m_mem w) /\ forall i, valid_queue i -> exists l, queued i w l.

(** While the firmware waits, messages come and go, but nothing else changes. *)
Record delay_ok : Prop := {
  dl_wf : forall w, well_formed w -> well_formed (mdelay w);
  dl_private : forall w x, private x -> m_mem (mdelay w) x = m_mem w x }.

(** Only queue [i], the doorbell and [len] bytes at [a] change. *)
Definition only_queue (i a len : Z) (w w' : machine R) : Prop :=
  m_rest w' = m_rest w /\ forall x, ~ in_queue s (q i) x -> ~ at_bell x -> ~ (a <= x < a + len) -> m_mem w' x = m_mem w x.

(** At most [n] attempts to append a message. *)
Inductive sends (i : Z) (msg : rpmi_msg) : nat -> machine R -> Z -> machine R -> Prop :=
  | sends_appends n w w' l x : queued i w l -> Z.of_nat (length l) < num_slots (q i) - 1 ->
      queued i w' (l ++ [x]) -> decode x = msg -> only_queue i 0 0 w w' -> sends i msg (S n) w SBI_OK w'
  | sends_full n w l ret w' : queued i w l -> Z.of_nat (length l) = num_slots (q i) - 1 -> sends i msg n (mdelay w) ret w' -> sends i msg (S n) w ret w'
  | sends_timeout w : sends i msg O w SBI_ETIMEOUT w.

(** At most [n] attempts to find a message that [f] accepts; its payload goes to [a]. *)
Inductive receives (i : Z) (f : list Z -> bool) (a len : Z) : nat -> machine R -> option (list Z) -> machine R -> Prop :=
  | receives_first n w w' l x : queued i w l -> l !! first f l = Some x -> queued i w' (take_out (first f l) l) ->
      (a <> 0 -> bytes (m_mem w') a (Z.to_nat len) = bytes (mem_of 0 x) 8 (Z.to_nat len)) -> only_queue i a (if a =? 0 then 0 else len) w w' ->
      receives i f a len (S n) w (Some x) w'
  | receives_none n w l o w' : queued i w l -> (forall x, x ∈ l -> f x = false) -> receives i f a len n (mdelay w) o w' -> receives i f a len (S n) w o w'
  | receives_timeout w : receives i f a len O w None w.

Hypotheses (Htr : transport_ok) (Hdl : delay_ok).

Lemma well_formed_after i a len w w' l : valid_queue i -> (forall x, a <= x < a + len -> private x) -> only_queue i a len w w' -> mem_ok (m_mem w') -> queued i w' l ->
  well_formed w -> well_formed w'.
Proof.
  intros Hi Ha [_ Hsame] Hok Hl [_ Hwf]. split; [done|]. intros j Hj. destruct (Z.eq_dec i j) as [->|Hne]; [by exists l|].
  destruct (Hwf j Hj) as [l' Hl']. exists l'. apply (rep_frame s (q j) (tr_queue Htr j Hj) (m_mem w)); [|done]. intros x Hx. apply Hsame.
  - intros Hx'. by apply (tr_apart Htr i j x).
  - intros Hb. by apply (tr_bell Htr j x).
  - intros Hr. by apply (proj1 (Ha x Hr) j).
Qed.

Lemma private_beside a len i : valid_queue i -> (forall x, a <= x < a + len -> private x) -> beside s (q i) a len.
Proof. intros Hi Ha x Hx. by apply (proj1 (Ha x Hx)). Qed.

Lemma tx_sends n i sg xfer w : valid_queue i -> tx_ok s (q i) (mb_regs mctl) xfer -> (forall x, tx xfer <= x < tx xfer + tx_len xfer -> private x) -> well_formed w ->
  let '(ret, w') := tx_loop mdelay mctl n (q i) sg xfer w in sends i (sent_msg sg xfer (m_mem w)) n w ret w' /\ well_formed w'.
Proof.
  intros Hi Htx Hpr. revert w. induction n as [|n IH]; intros w Hwf; cbn [tx_loop]; [split; [constructor|done]|].
  pose proof (proj2 Hwf i Hi) as [l Hl]. pose proof (tx_refines s (q i) (mb_regs mctl) sg xfer (tr_queue Htr i Hi) Htx (m_mem w) l (proj1 Hwf) Hl) as Href.
  unfold s in *. destruct (__smq_tx _ _ _ _ _ _) as [ret m']. destruct (Z.eqb_spec (Z.of_nat (length l)) (num_slots (q i) - 1)) as [E|E].
  - destruct Href as [-> ->]. cbn [Z.eqb SBI_ENOMEM]. change (SBI_ENOMEM =? 0) with false. cbn iota. specialize (IH (mdelay (put_mem (m_mem w) w))).
    replace (put_mem (m_mem w) w) with w in * by (by destruct w). specialize (IH (dl_wf Hdl w Hwf)). destruct (tx_loop _ _ _ _ _ _ _) as [ret' w'].
    destruct IH as [IH Hwf']. split; [|done]. apply (sends_full i _ n w l); [done|done|].
    replace (sent_msg sg xfer (m_mem w)) with (sent_msg sg xfer (m_mem (mdelay w))); [done|]. unfold sent_msg. f_equal. apply bytes_ext. intros k Hk. apply (dl_private Hdl), Hpr. lia.
  - destruct Href as (-> & Hok & (x & Hx & Hdec) & Hsame). change (SBI_OK =? 0) with true. cbn iota.
    assert (only_queue i 0 0 w (put_mem m' w)) as Honly.
    { split; [done|]. intros y Hy Hb _. by apply Hsame. }
    split; [|apply (well_formed_after i 0 0 w _ (l ++ [x])); (done || lia)].
    apply (sends_appends i _ n w _ l x); [done| |done|done|done]. destruct Hl as (h & _ & _ & _ & Hlen & _). unfold q in *. lia.
Qed.

Lemma rx_receives n i sg xfer w : valid_queue i -> rx_ok s (q i) xfer -> (rx xfer <> 0 -> forall x, rx xfer <= x < rx xfer + rx_len xfer -> private x) -> well_formed w ->
  exists o w', receives i (wanted sg xfer) (rx xfer) (rx_len xfer) n w o w' /\ well_formed w' /\
    rx_loop mdelay mctl n (q i) sg xfer w = Some (match o with Some x => (SBI_OK, received x xfer, w') | None => (SBI_ETIMEOUT, xfer, w') end).
Proof.
  intros Hi Hrx Hpr. revert w. induction n as [|n IH]; intros w Hwf; cbn [rx_loop]; [exists None, w; split; [constructor|done]|].
  pose proof (proj2 Hwf i Hi) as [l Hl]. destruct (rx_refines s (q i) sg xfer (tr_queue Htr i Hi) Hrx (m_mem w) l (proj1 Hwf) Hl) as (ret & xfer' & m' & E & Href).
  fold s. rewrite E. cbn [mbind option_bind]. destruct (l !! first (wanted sg xfer) l) as [x|] eqn:Ex.
  - destruct Href as (-> & -> & Hok & Hl' & Hdata & Hsame). change (SBI_OK =? 0) with true. cbn iota. exists (Some x), (put_mem m' w).
    assert (only_queue i (rx xfer) (if rx xfer =? 0 then 0 else rx_len xfer) w (put_mem m' w)) as Honly.
    { split; [done|]. intros y Hy Hb Hr. apply Hsame; [done|]. intros [Hr1 Hr2]. by rewrite (proj2 (Z.eqb_neq _ _) Hr2) in Hr. }
    split; [by apply (receives_first i _ _ _ n w _ l)|]. split; [|done]. eapply (well_formed_after i _ _ w _ _ Hi); [|exact Honly|done|exact Hl'|done].
    intros y. destruct (Z.eqb_spec (rx xfer) 0); [lia|]. by apply Hpr.
  - destruct Href as (-> & -> & ->). change (SBI_ENOENT =? 0) with false. cbn iota. replace (put_mem (m_mem w) w) with w by (by destruct w).
    destruct (IH (mdelay w) (dl_wf Hdl w Hwf)) as (o & w' & Ho & Hwf' & Eo). exists o, w'. split; [|done]. apply (receives_none i _ _ _ n w l); [done| |done].
    apply first_none. apply lookup_ge_None in Ex. pose proof (first_le (wanted sg xfer) l). lia.
Qed.

End Spec.

(** A transfer that sends and waits for an answer. *)
Section Exchange.
Context {R : Type}.
Variables (mdelay : machine R -> machine R) (mctl : rpmi_shmem_mbox_controller).
Hypotheses (Htr : transport_ok mctl) (Hdl : delay_ok mdelay mctl) (Hcount : 2 <= queue_count mctl).
Let s := mctl_slot_size mctl.
Let q := queue_ctx_tbl mctl.

Lemma exchange sg xfer w : Z.land (arg_flags (xfer_args xfer)) (Z.lor RPMI_MSG_FLAGS_NO_TX RPMI_MSG_FLAGS_NO_RX) = 0 -> arg_type (xfer_args xfer) = RPMI_MSG_NORMAL_REQUEST ->
  tx_ok s (q 0) (mb_regs mctl) xfer -> rx_ok s (q 1) xfer ->
  (forall x, tx xfer <= x < tx xfer + tx_len xfer -> private mctl x) -> (rx xfer <> 0 -> forall x, rx xfer <= x < rx xfer + rx_len xfer -> private mctl x) -> well_formed mctl w ->
  exists ret xfer' w', rpmi_shmem_mbox_xfer mdelay mctl sg xfer w = Some (ret, xfer', w') /\ well_formed mctl w' /\
  exists r1 w1, sends mdelay mctl 0 (sent_msg sg xfer (m_mem w)) (attempts (tx_timeout xfer)) w r1 w1 /\
    if r1 =? 0 then exists o, receives mdelay mctl 1 (wanted sg xfer) (rx xfer) (rx_len xfer) (attempts (rx_timeout xfer)) w1 o w' /\
      match o with Some x => ret = SBI_OK /\ xfer' = received x xfer | None => ret = SBI_ETIMEOUT /\ xfer' = xfer end
    else ret = r1 /\ xfer' = xfer /\ w' = w1.
Proof.
  intros Hf Ht Htx Hrx Hpt Hpr Hwf. unfold rpmi_shmem_mbox_xfer.
  assert (forall b, Z.land b (Z.lor RPMI_MSG_FLAGS_NO_TX RPMI_MSG_FLAGS_NO_RX) = 0 -> Z.land b RPMI_MSG_FLAGS_NO_TX = 0 /\ Z.land b RPMI_MSG_FLAGS_NO_RX = 0) as Hland.
  { intros b. rewrite Z.land_lor_distr_r. intros H. by apply Z.lor_eq_0_iff in H. }
  destruct (Hland _ Hf) as [-> ->]. cbn [Z.eqb negb andb]. rewrite Ht. unfold xfer_queues. cbn [Z.eqb RPMI_MSG_NORMAL_REQUEST andb].
  change (RPMI_MSG_NORMAL_REQUEST =? RPMI_MSG_NORMAL_REQUEST) with true. cbn iota. unfold smq_tx, smq_rx, RPMI_QUEUE_IDX_A2P_REQ, RPMI_QUEUE_IDX_P2A_ACK. rewrite !(proj2 (Z.ltb_ge _ _)) by lia.
  pose proof (tx_sends mdelay mctl Htr Hdl (attempts (tx_timeout xfer)) 0 sg xfer w ltac:(unfold valid_queue; lia) Htx Hpt Hwf) as Hs. destruct (tx_loop _ _ _ _ _ _ _) as [r1 w1]. destruct Hs as [Hs Hwf1].
  destruct (Z.eqb_spec r1 0) as [->|Hr1]; cbn [negb].
  - destruct (rx_receives mdelay mctl Htr Hdl (attempts (rx_timeout xfer)) 1 sg xfer w1 ltac:(unfold valid_queue; lia) Hrx Hpr Hwf1) as (o & w' & Ho & Hwf' & E). rewrite E.
    destruct o as [x|]; eexists _, _, w'; (split; [reflexivity|]); (split; [done|]); exists 0, w1; (split; [done|]); cbn [Z.eqb]; [exists (Some x)|exists None]; done.
  - eexists r1, xfer, w1. split; [done|]. split; [done|]. exists r1, w1. split; [done|]. by rewrite (proj2 (Z.eqb_neq _ _) Hr1).
Qed.

End Exchange.

Lemma first_ext {A} (f g : A -> bool) l : (forall x, f x = g x) -> first f l = first g l.
Proof. intros H. induction l as [|x l IH]; cbn; [done|]. by rewrite H, IH. Qed.

Lemma receives_ext {R} (mdelay : machine R -> machine R) mctl i f g a len n w o w' : (forall x, f x = g x) -> receives mdelay mctl i f a len n w o w' -> receives mdelay mctl i g a len n w o w'.
Proof.
  intros H. induction 1 as [n w w' l x Hl Hx Hl' Hd Ho|n w l o w' Hl Hn _ IH|w].
  - rewrite (first_ext f g l H) in *. by apply (receives_first _ _ _ _ _ _ n w w' l).
  - apply (receives_none _ _ _ _ _ _ n w l); [done| |done]. intros x Hx. rewrite <- H. by apply Hn.
  - constructor.
Qed.

Lemma sends_result {R} (mdelay : machine R -> machine R) mctl i msg n w ret w' : sends mdelay mctl i msg n w ret w' -> ret = SBI_OK \/ ret = SBI_ETIMEOUT.
Proof. induction 1; auto. Qed.

Section Answered.
Context {R : Type}.
Variables (mdelay : machine R -> machine R) (mctl : rpmi_shmem_mbox_controller).
Let s := mctl_slot_size mctl.
Let q := queue_ctx_tbl mctl.

(** A channel of a controller on working queues, and buffers of the firmware for a request
    and its answer. *)
Record request_ok (chan req req_words req_endian_words resp resp_words resp_endian_words : Z) (w : mailboxes (rpmi_dev R)) : Prop := {
  rq_transport : transport_ok mctl;
  rq_queues : 2 <= queue_count mctl;
  rq_delay : delay_ok mdelay mctl;
  rq_chan : chan <> 0 /\ chan_mbox (chan_at w chan) <> 0;
  rq_len : max_xfer_len (mbox_at w (chan_mbox (chan_at w chan))) = s - RPMI_MSG_HDR_SIZE;
  rq_words : 0 <= req_endian_words <= req_words /\ 4 * req_words <= s - RPMI_MSG_HDR_SIZE /\ 4 * req_words < 2 ^ 16;
  rq_resp_words : 0 <= resp_endian_words <= resp_words /\ 0 < resp_words /\ 4 * resp_words <= s - RPMI_MSG_HDR_SIZE;
  rq_null : (req = 0 -> req_words = 0) /\ resp <> 0;
  rq_req : forall x, req <= x < req + 4 * req_words -> private mctl x;
  rq_resp : forall x, resp <= x < resp + 4 * resp_words -> private mctl x;
  rq_wf : well_formed mctl (dev_machine (mb_dev w)) }.

(** The token of the next transfer, and the request as a message. *)
Definition next_token (chan : Z) (w : mailboxes (rpmi_dev R)) : Z := u16 (xfer_next_seq (mbox_at w (chan_mbox (chan_at w chan))) + 1).

Definition request_msg (chan service_id req req_words : Z) (w : mailboxes (rpmi_dev R)) : rpmi_msg :=
  mkMsg (u16 (srvgrp_at (mb_dev w) chan).1) (u8 service_id) RPMI_MSG_NORMAL_REQUEST (next_token chan w) (bytes (mem_of_world w) req (Z.to_nat (4 * req_words))).

Definition has_token (t : Z) (x : list Z) : bool := msg_token (decode x) =? t.

(** The status an answer starts with. *)
Definition answer_status (x : list Z) : Z := rpmi_xlate_error (signed 32 (load32 (mem_of 0 x) 8)).

Lemma token_of_seq n : u16 (u64 n) = u16 n.
Proof. unfold wrap. rewrite <- Znumtheory.Zmod_div_mod; [done|lia|lia|]. exists (2 ^ 48). done. Qed.

(** A request to the microcontroller appears in the queue exactly once, as one
    message with a fresh token, or not at all when the queue stays full; the answer
    is the first message with that token, whatever other messages come and go
    meanwhile: its data is in the caller's buffer, its status is the result, and it
    is the only message that leaves the queue; without it the result is a time-out.
    No other memory of the firmware changes. *)
Lemma rpmi_request_answered chan service_id req req_words req_endian_words resp resp_words resp_endian_words w :
  request_ok chan req req_words req_endian_words resp resp_words resp_endian_words w ->
  exists ret w', rpmi_normal_request_with_status mdelay mctl chan service_id req req_words req_endian_words resp resp_words resp_endian_words w = Some (ret, w') /\
    well_formed mctl (dev_machine (mb_dev w')) /\
  exists rs w1, sends mdelay mctl 0 (request_msg chan service_id req req_words w) 20 (dev_machine (mb_dev w)) rs w1 /\
    if rs =? 0 then exists o, receives mdelay mctl 1 (has_token (next_token chan w)) resp (4 * resp_words) 20 w1 o (dev_machine (mb_dev w')) /\
      ret = match o with Some x => answer_status x | None => SBI_ETIMEOUT end
    else ret = SBI_ETIMEOUT /\ dev_machine (mb_dev w') = w1.
Proof.
  intros [Htr Hcount Hdl [Hc Hm] Hlen Hw Hrw [Hn1 Hn2] Hreq Hresp Hwf]. unfold rpmi_normal_request_with_status, mbox_chan_xfer.
  set (c := mbox_at w (chan_mbox (chan_at w chan))) in *. rewrite (proj2 (Z.eqb_neq _ _) Hc), (proj2 (Z.eqb_neq _ _) Hm). cbn [orb tx rx tx_len rx_len xfer_flags].
  rewrite Hlen, !(proj2 (Z.ltb_ge _ _)), !andb_false_r by lia. change (Z.land 0 MBOX_XFER_SEQ =? 0) with true. cbn iota.
  set (seq := u64 (xfer_next_seq c + 1)). set (xfer := mbox_xfer_set_sequence _ seq). set (w0 := put_mbox _ _ w). unfold shmem_xfer.
  change (dev_machine (mb_dev w0)) with (dev_machine (mb_dev w)). change (srvgrp_at (mb_dev w0) chan) with (srvgrp_at (mb_dev w) chan). set (sg := (srvgrp_at (mb_dev w) chan).1).
  destruct (exchange mdelay mctl Htr Hdl Hcount sg xfer (dev_machine (mb_dev w))) as (ret & xfer' & w' & E & Hwf' & rs & w1 & Hs & Hr); try done.
  { split; cbn; fold s; try lia; [by apply private_beside with (i := 0); [unfold valid_queue; lia|]|].
    destruct (Z.eq_dec (mb_regs mctl) 0); [by left|]. right. intros x Hx. by apply (tr_bell mctl Htr 0 x); [unfold valid_queue; lia|]. }
  { split; cbn; fold s; try lia. apply private_beside with (i := 1); [unfold valid_queue; lia|done]. }
  rewrite E. cbn [mbind option_bind].
  assert (sent_msg sg xfer (m_mem (dev_machine (mb_dev w))) = request_msg chan service_id req req_words w) as Emsg.
  { unfold sent_msg, request_msg, next_token. cbn [xfer mbox_xfer_set_sequence xfer_args arg_service_id arg_type xfer_seq tx tx_len]. unfold seq. rewrite token_of_seq, wrap_wrap by lia. done. }
  rewrite Emsg in Hs. change (attempts (tx_timeout xfer)) with 20%nat in Hs. change (attempts (rx_timeout xfer)) with 20%nat in Hr.
  assert (forall x, wanted sg xfer x = has_token (next_token chan w) x) as Hwant.
  { intros x. unfold wanted, rx_matches, has_token, next_token. cbn. change (Z.land seq RPMI_MSG_TOKEN_MASK) with (Z.land seq (Z.ones 16)). rewrite Z.land_ones by lia.
    change (seq mod 2 ^ 16) with (u16 seq). unfold seq. by rewrite token_of_seq. }
  destruct (Z.eqb_spec rs 0) as [->|Hrs].
  - destruct Hr as (o & Ho & Hres). destruct o as [x|].
    + destruct Hres as [-> ->]. cbn [Z.eqb negb]. eexists _, _. split; [reflexivity|]. split; [done|]. exists 0, w1. split; [done|]. cbn [Z.eqb].
      exists (Some x). split; [exact (receives_ext _ _ _ _ _ _ _ _ _ _ _ Hwant Ho)|].
      assert (forall n w1 o w', receives mdelay mctl 1 (wanted sg xfer) (rx xfer) (rx_len xfer) n w1 o w' -> forall x, o = Some x -> bytes (m_mem w') resp (Z.to_nat (4 * resp_words)) = bytes (mem_of 0 x) 8 (Z.to_nat (4 * resp_words))) as Hdata.
      { clear -Hn2. induction 1 as [n1 u u' l y Hl Hy Hl' Hd _|n1 u l o1 u' _ _ _ IH|u]; [|done|done]. intros z [= ->]. by apply Hd. }
      specialize (Hdata _ _ _ _ Ho x eq_refl). unfold answer_status, mem_of_world. cbn [put_machine mb_dev dev_machine]. do 2 f_equal. apply load_le_ext. intros i Hi.
      assert (forall m a k, 0 <= k < 4 * resp_words -> bytes m a (Z.to_nat (4 * resp_words)) !! Z.to_nat k = Some (m (a + k))) as Hb by (intros m a k Hk; rewrite bytes_lookup by lia; do 3 f_equal; lia).
      assert (Some (m_mem w' (resp + i)) = Some (mem_of 0 x (8 + i))) as [= ->]; [|done]. rewrite <- !Hb by lia. by rewrite Hdata.
    + destruct Hres as [-> ->]. change (SBI_ETIMEOUT =? 0) with false. cbn [negb]. eexists _, _. split; [reflexivity|]. split; [done|]. exists 0, w1. split; [done|]. cbn [Z.eqb].
      exists None. split; [exact (receives_ext _ _ _ _ _ _ _ _ _ _ _ Hwant Ho)|done].
  - destruct Hr as (-> & -> & ->). rewrite (proj2 (Z.eqb_neq _ _) Hrs). cbn [negb]. eexists _, _. split; [reflexivity|]. split; [done|]. exists rs, w1. split; [done|].
    rewrite (proj2 (Z.eqb_neq _ _) Hrs). split; [|done]. destruct (sends_result _ _ _ _ _ _ _ _ Hs) as [->| ->]; [|done]. by destruct Hrs.
Qed.

End Answered.

(** ** The queues of the set-up *)

(** A range for at least one slot makes a well-formed queue inside it. *)
Lemma queue_at_ok qid s a size name : RPMI_SLOT_SIZE_MIN <= s -> s mod 4 = 0 -> 3 * s <= size < 2 ^ 32 ->
  let q := queue_at qid s a size name in q_ok s q /\ forall x, in_queue s q x -> a <= x < a + size.
Proof.
  unfold RPMI_SLOT_SIZE_MIN. intros Hs Hm Hsize. unfold queue_at, RPMI_QUEUE_HEADER_SLOTS, RPMI_QUEUE_HEAD_SLOT, RPMI_QUEUE_TAIL_SLOT.
  rewrite (wrap_small 32 (s * 2)), (wrap_small 32 (0 * s)), (wrap_small 32 (1 * s)), (wrap_small 32 (2 * s)), (wrap_small 64) by lia.
  pose proof (Z.div_mod (size - s * 2) s ltac:(lia)). pose proof (Z.mod_pos_bound (size - s * 2) s ltac:(lia)). set (n := (size - s * 2) / s) in *.
  assert (1 <= n) by nia. assert (n * s + 2 * s <= size) by nia. rewrite (wrap_small 32 n) by nia. split; [split; cbn [num_slots headptr tailptr buffer]; unfold RPMI_SLOT_SIZE_MIN; lia|].
  intros x. unfold in_queue. cbn [num_slots headptr tailptr buffer]. lia.
Qed.

(** The check of the queue's number lets the number of queues pass: with the two
    queues of a minimal platform, waiting for a notification uses a queue that was
    never set up, whose indices are at address 0. *)
Lemma queue_check_too_weak {R} (mdelay : machine R -> machine R) mctl qid sg xfer w : queue_count mctl = qid ->
  smq_rx mdelay mctl qid sg xfer w = rx_loop mdelay mctl (attempts (rx_timeout xfer)) (queue_ctx_tbl mctl qid) sg xfer w.
Proof. intros <-. unfold smq_rx. by rewrite Z.ltb_irrefl. Qed.

(** A tail behind the last slot, which only the other side can write, keeps the search
    from ending, with the lock of the queue held. *)
Lemma bad_tail_never_ends q mt h t fuel : 0 <= h < num_slots q -> num_slots q <= t -> (forall i, 0 <= i < num_slots q -> mt i = false) -> find_slot q fuel mt h t = None.
Proof.
  intros Hh Ht Hm. revert h Hh. induction fuel as [|fuel IH]; intros h Hh; cbn [find_slot]; rewrite (proj2 (Z.eqb_neq _ _)) by lia; [done|].
  rewrite Hm by done. apply IH. unfold next_slot. apply Z.mod_pos_bound. lia.
Qed.

(** ** A request *)

Definition demo_mctl : rpmi_shmem_mbox_controller :=
  mctl_of 64 2 0 (fun i => if i =? 0 then queue_at 0 64 0x1000 0x180 [] else if i =? 1 then queue_at 1 64 0x2000 0x180 [] else no_queue).

Definition demo_slot (tok value : Z) : list Z := [1; 0; 6; 0; 8; 0; tok; 0; 0; 0; 0; 0; value; 0; 0; 0] ++ replicate 48 0.

(** An old message and the answer are in the queue of answers. *)
Definition demo_mem : mem := mem_of 0x2000 (replicate 64 0 ++ [2] ++ replicate 63 0 ++ demo_slot 7 9 ++ demo_slot 1 5).

Definition demo_world : mailboxes (rpmi_dev unit) :=
  mkMb _ [6] (fun _ => mkMbox 0 56 0 [5]) (fun _ => mkChan 6 (1, 0)) (mkDev _ (mkMachine _ demo_mem ()) (fun _ => (1, 0))).

Lemma demo_valid i : valid_queue demo_mctl i -> i = 0 \/ i = 1.
Proof. unfold valid_queue. cbn. lia. Qed.

Lemma demo_queues i x : valid_queue demo_mctl i -> in_queue 64 (queue_ctx_tbl demo_mctl i) x -> (i = 0 -> 0x1000 <= x < 0x1180) /\ (i = 1 -> 0x2000 <= x < 0x2180).
Proof. intros [->| ->]%demo_valid; unfold in_queue; vm_compute num_slots; vm_compute headptr; vm_compute tailptr; vm_compute buffer; lia. Qed.

Lemma demo_private x : x < 0x1000 -> private demo_mctl x.
Proof. intros Hx. split; [|intros [H _]; by apply H]. intros i Hi Hq. destruct (demo_queues i x Hi Hq). destruct (demo_valid i Hi); lia. Qed.

Lemma demo_ok : transport_ok demo_mctl /\ well_formed demo_mctl (dev_machine (mb_dev demo_world)).
Proof.
  split; split.
  - intros i [->| ->]%demo_valid; split; vm_compute; congruence.
  - intros i j x Hi Hj Hne Hx Hy. destruct (demo_queues i x Hi Hx), (demo_queues j x Hj Hy). destruct (demo_valid i Hi), (demo_valid j Hj); lia.
  - intros i x _ [H _]. by destruct H.
  - apply mem_of_small_ok. reflexivity.
  - intros i [->| ->]%demo_valid.
    + exists [], 0. split; [vm_compute; split; congruence|]. split; [reflexivity|]. split; [reflexivity|]. split; [reflexivity|]. by intros [].
    + exists [demo_slot 7 9; demo_slot 1 5], 0. split; [vm_compute; split; congruence|]. split; [reflexivity|]. split; [reflexivity|]. split; [reflexivity|].
      intros [|[|k]] x Hx; [injection Hx as <-; vm_compute; reflexivity|injection Hx as <-; vm_compute; reflexivity|done].
Qed.

Lemma rpmi_request_answered_witness :
  exists ret w', rpmi_normal_request_with_status id demo_mctl 5 6 0x100 1 1 0x200 2 2 demo_world = Some (ret, w') /\
  exists rs w1, sends id demo_mctl 0 (request_msg 5 6 0x100 1 demo_world) 20 (dev_machine (mb_dev demo_world)) rs w1.
Proof.
  destruct (rpmi_request_answered id demo_mctl 5 6 0x100 1 1 0x200 2 2 demo_world) as (ret & w' & E & _ & rs & w1 & H & _).
  - destruct demo_ok as [H1 H2]. split; [exact H1|discriminate| |vm_compute; split; congruence|reflexivity|vm_compute; repeat split; congruence|vm_compute; repeat split; congruence|split; discriminate| | |exact H2].
    + split; [done|]. intros w x _. reflexivity.
    + intros x Hx. apply demo_private. lia.
    + intros x Hx. apply demo_private. lia.
  - exists ret, w'. split; [exact E|]. exists rs, w1. exact H.
Defined.

(** It finds its answer behind the old message, which stays in the queue. *)
Example demo_request : 
  match rpmi_normal_request_with_status id demo_mctl 5 6 0x100 1 1 0x200 2 2 demo_world with
  | Some (ret, w) => (ret, word32_at w 0x200 1, load32 (mem_of_world w) 0x2000, (mem_of_world w) (0x20c6))
  | None => (1, 0, 0, 0)
  end = (0, 5, 1, 7).
Proof. vm_compute. reflexivity. Qed.
