(* ===== verification/Hanoi.v ===== *)
(** * The towers of Hanoi without recursion (course_2/hanoi-nr)

    Three C programs for the same function: the recursion of [hanoi-r.c], the
    interpreter of its stack frames in [hanoi-nr.c] and the loop of
    [hanoi_forloop.c].  A line printed is a pair of peg names.  [None] is
    undefined behaviour (overflow of an [int], a frame outside the stack array, a
    failed assertion) or a call that does not return within the fuel. *)

From S2P Require Import Prelude.

Definition int_min : Z := - 2 ^ 31.
Definition int_max : Z := 2 ^ 31 - 1.

(** Signed arithmetic that overflows is undefined. *)
Definition int_val (z : Z) : option Z :=
  if (int_min <=? z) && (z <=? int_max) then Some z else None.

Definition move : Type := Z * Z.

(** ** hanoi-r.c *)

Fixpoint hanoi_r (fuel : nat) (n from to via : Z) : option (list move * Z) :=
  match fuel with
  | O => None
  | S fuel =>
      if n =? 1 then Some ([(from, to)], 1)
      else
        n' ← int_val (n - 1);
        '(o1, c1) ← hanoi_r fuel n' from via to;
        '(o2, _) ← hanoi_r fuel 1 from to via;
        '(o3, c2) ← hanoi_r fuel n' via to from;
        c ← int_val (c1 + c2);
        r ← int_val (c + 1);
        Some (o1 ++ o2 ++ o3, r)
  end.

(** ** hanoi-nr.c *)

Module Nr.

Record Frame := mkFrame { pc : Z; n : Z; from : Z; to : Z; via : Z; c1 : Z; c2 : Z }.

(** The local variables of [hanoi] and what it printed; [top] is an index, -1
    for [stk - 1]. *)
Record state := mkState { stk : list Frame; top : Z; retval : Z; out : list move }.

Definition put (i : Z) (f : Frame) (s : state) : option state :=
  if (0 <=? i) && (i <? Z.of_nat (length (stk s)))
  then Some (mkState (<[Z.to_nat i := f]> (stk s)) (top s) (retval s) (out s)) else None.

(** The macros [call] and [ret]. *)
Definition call (n from to via : Z) (s : state) : option state :=
  s' ← put (top s + 1) (mkFrame 0 n from to via 0 0) s;
  Some (mkState (stk s') (top s + 1) (retval s') (out s')).

Definition ret (val : Z) (s : state) : state := mkState (stk s) (top s - 1) val (out s).

Definition print (m : move) (s : state) : state :=
  mkState (stk s) (top s) (retval s) (out s ++ [m]).

Definition set_c1 (v : Z) (f : Frame) : Frame := mkFrame (pc f) (n f) (from f) (to f) (via f) v (c2 f).
Definition set_c2 (v : Z) (f : Frame) : Frame := mkFrame (pc f) (n f) (from f) (to f) (via f) (c1 f) v.
Definition set_pc (v : Z) (f : Frame) : Frame := mkFrame v (n f) (from f) (to f) (via f) (c1 f) (c2 f).

Definition frame_at (s : state) (i : Z) : option Frame :=
  if i <? 0 then None else stk s !! Z.to_nat i.

(** The switch on the program counter of the top frame, at index [i]. *)
Definition exec (i : Z) (f : Frame) (s : state) : option state :=
  match pc f with
  | 0 => if n f =? 1 then Some (ret 1 (print (from f, to f) s)) else Some s
  | 1 => n' ← int_val (n f - 1); call n' (from f) (via f) (to f) s
  | 2 => put i (set_c1 (retval s) f) s
  | 3 => call 1 (from f) (to f) (via f) s
  | 4 => n' ← int_val (n f - 1); call n' (via f) (to f) (from f) s
  | 5 => put i (set_c2 (retval s) f) s
  | 6 => c ← int_val (c1 f + c2 f); r ← int_val (c + 1); Some (ret r s)
  | _ => None
  end.

(** One round of the loop: [f] still points to the frame that was on top. *)
Definition step (s : state) : option state :=
  let i := top s in
  f ← frame_at s i;
  next_pc ← int_val (pc f + 1);
  s ← exec i f s;
  f ← frame_at s i;
  put i (set_pc next_pc f) s.

Fixpoint run (fuel : nat) (s : state) : option state :=
  if top s <? 0 then Some s
  else match fuel with O => None | S fuel => s ← step s; run fuel s end.

(** The array starts with whatever the stack holds. *)
Definition hanoi (fuel : nat) (stk0 : list Frame) (n from to via : Z) : option (list move * Z) :=
  s ← call n from to via (mkState stk0 (-1) 0 []);
  s ← run fuel s;
  Some (out s, retval s).

End Nr.

(** ** hanoi_forloop.c *)

Module Loop.

Definition MAX_STACK_DEEP : nat := 1024.

Record Frame := mkFrame { n : Z; from : Z; to : Z; tmp : Z; stage : Z }.

Record state := mkState { stack : list Frame; top : Z; count : Z; out : list move }.

Definition put (i : Z) (f : Frame) (s : state) : option state :=
  if (0 <=? i) && (i <? Z.of_nat (length (stack s)))
  then Some (mkState (<[Z.to_nat i := f]> (stack s)) (top s) (count s) (out s)) else None.

Definition push (f : Frame) (s : state) : option state :=
  s' ← put (top s + 1) f s;
  Some (mkState (stack s') (top s + 1) (count s') (out s')).

Definition set_stage (v : Z) (f : Frame) : Frame := mkFrame (n f) (from f) (to f) (tmp f) v.

(** [printf] and [count++] *)
Definition move_disk (f : Frame) (s : state) : option state :=
  c ← int_val (count s + 1);
  Some (mkState (stack s) (top s) c (out s ++ [(from f, to f)])).

Definition pop (s : state) : state := mkState (stack s) (top s - 1) (count s) (out s).

Definition step (s : state) : option state :=
  cur ← (if top s <? 0 then None else stack s !! Z.to_nat (top s));
  let i := top s in
  if n cur =? 1 then s ← move_disk cur s; Some (pop s)
  else if stage cur =? 0 then
    n' ← int_val (n cur - 1);
    s ← push (mkFrame n' (from cur) (tmp cur) (to cur) 0) s; put i (set_stage 1 cur) s
  else if stage cur =? 1 then s ← move_disk cur s; put i (set_stage 2 cur) s
  else if stage cur =? 2 then
    n' ← int_val (n cur - 1);
    s ← push (mkFrame n' (tmp cur) (to cur) (from cur) 0) s; put i (set_stage 3 cur) s
  else if stage cur =? 3 then Some (pop s)
  else Some s.

Fixpoint run (fuel : nat) (s : state) : option state :=
  if top s <? 0 then Some s
  else match fuel with O => None | S fuel => s ← step s; run fuel s end.

Definition hanoi_for_loop (fuel : nat) (stack0 : list Frame) (n from to tmp : Z)
    : option (list move * Z) :=
  if n <=? 0 then Some ([], 0)
  else
    s ← push (mkFrame n from to tmp 0) (mkState stack0 (-1) 0 []);
    s ← run fuel s;
    Some (out s, count s).

End Loop.

(** ** The reference: the list of moves *)

Fixpoint moves (n : nat) (from to via : Z) : list move :=
  match n with
  | O => []
  | S n => moves n from via to ++ (from, to) :: moves n via to from
  end.

Lemma moves_length n from to via : Z.of_nat (length (moves n from to via)) = 2 ^ Z.of_nat n - 1.
Proof.
  revert from to via. induction n as [|n IH]; intros; [done|].
  cbn [moves]. rewrite length_app. cbn [length].
  rewrite Nat2Z.inj_succ, Z.pow_succ_r, Nat2Z.inj_add, Nat2Z.inj_succ, !IH by lia. lia.
Qed.

Lemma int_val_ok z : int_min <= z <= int_max -> int_val z = Some z.
Proof. intros. unfold int_val. by zcases; try lia. Qed.

(** Counts of up to 31 disks are [int]s. *)
Lemma pow_int m : 0 <= m <= 30 -> 1 <= 2 ^ m <= 2 ^ 30.
Proof.
  intros. pose proof (Z.pow_le_mono_r 2 0 m). pose proof (Z.pow_le_mono_r 2 m 30).
  change (2 ^ 0) with 1 in *. lia.
Qed.

Lemma pow_S (m : nat) : 2 ^ Z.of_nat (S m) = 2 * 2 ^ Z.of_nat m.
Proof. rewrite Nat2Z.inj_succ. apply Z.pow_succ_r. lia. Qed.

Ltac int_ok := rewrite int_val_ok by (unfold int_min, int_max; lia); rewrite some_bind.

Lemma hanoi_r_spec fuel m from to via :
  (0 < m <= 31)%nat -> (m <= fuel)%nat ->
  hanoi_r fuel (Z.of_nat m) from to via = Some (moves m from to via, 2 ^ Z.of_nat m - 1).
Proof.
  revert m from to via. induction fuel as [|fuel IH]; intros m from to via Hm Hf; [lia|].
  cbn [hanoi_r]. destruct (Z.eqb_spec (Z.of_nat m) 1) as [E|Hne].
  { assert (m = 1%nat) as -> by lia. done. }
  destruct m as [|m]; [lia|]. pose proof (pow_int (Z.of_nat m)). rewrite pow_S.
  int_ok. replace (Z.of_nat (S m) - 1) with (Z.of_nat m) by lia.
  rewrite (IH m from via to), some_bind by lia.
  pose proof (IH 1%nat from to via ltac:(lia) ltac:(lia)) as H1. change (Z.of_nat 1) with 1 in H1.
  rewrite H1, some_bind.
  rewrite (IH m via to from), some_bind by lia. int_ok. int_ok. cbn [moves]. do 2 f_equal. lia.
Qed.

(** ** The frame machine *)

Module NrSpec.
Import Nr.

Fixpoint steps (m : nat) : nat :=
  match m with O => 0 | S m => match m with O => 1 | _ => 8 + 2 * steps m end end.

Definition stk_upd (i : nat) (f : Frame) (l : list Frame) : list Frame := <[i := f]> l.

Lemma put_ok (i : nat) f s : (i < length (stk s))%nat ->
  put (Z.of_nat i) f s = Some (mkState (<[i := f]> (stk s)) (top s) (retval s) (out s)).
Proof. intros. unfold put. rewrite Nat2Z.id. by zcases; try lia. Qed.

Lemma call_ok (i : nat) n from to via s : top s + 1 = Z.of_nat i -> (i < length (stk s))%nat ->
  call n from to via s =
    Some (mkState (<[i := mkFrame 0 n from to via 0 0]> (stk s)) (Z.of_nat i) (retval s) (out s)).
Proof. intros E Hi. unfold call. rewrite E, put_ok, some_bind by done. done. Qed.

Lemma run_step fuel (i : nat) f l r o s1 f1 :
  l !! i = Some f -> 0 <= pc f <= 6 ->
  exec (Z.of_nat i) f (mkState l (Z.of_nat i) r o) = Some s1 -> stk s1 !! i = Some f1 ->
  run (S fuel) (mkState l (Z.of_nat i) r o) =
    run fuel (mkState (<[i := set_pc (pc f + 1) f1]> (stk s1)) (top s1) (retval s1) (out s1)).
Proof.
  intros Hf Hpc He Hf1. cbn [run top]. destruct (Z.ltb_spec (Z.of_nat i) 0); [lia|].
  unfold step, frame_at. cbn [top stk]. destruct (Z.ltb_spec (Z.of_nat i) 0); [lia|].
  rewrite Nat2Z.id, Hf, some_bind. int_ok. rewrite He, some_bind, Hf1, some_bind.
  rewrite put_ok by (by eapply lookup_lt_Some). by rewrite some_bind.
Qed.

(** The frame at index [i] as the code advances through it. *)
Definition frame (pc n from to via c1 c2 : Z) : Frame := mkFrame pc n from to via c1 c2.

Definition agree (i : nat) (l l' : list Frame) : Prop :=
  length l' = length l /\ forall j, (j < i)%nat -> l' !! j = l !! j.

Lemma agree_trans i l1 l2 l3 : agree i l1 l2 -> agree i l2 l3 -> agree i l1 l3.
Proof. intros [L1 A1] [L2 A2]. split; [congruence|]. intros j Hj. by rewrite A2, A1. Qed.

Lemma agree_insert i j f l : (i <= j)%nat -> agree i l (<[j := f]> l).
Proof.
  intros Hj. split; [apply length_insert|]. intros k Hk. apply list_lookup_insert_ne. lia.
Qed.

Lemma agree_weaken i j l l' : (i <= j)%nat -> agree j l l' -> agree i l l'.
Proof. intros Hj [L A]. split; [done|]. intros k Hk. apply A. lia. Qed.

(** A step that stays in the frame. *)
Lemma step_local fuel (i : nat) l r o f f1 :
  l !! i = Some f -> 0 <= pc f <= 6 ->
  exec (Z.of_nat i) f (mkState l (Z.of_nat i) r o) = Some (mkState (<[i := f1]> l) (Z.of_nat i) r o) ->
  exists l', agree i l l' /\ l' !! i = Some (set_pc (pc f + 1) f1) /\
    run (S fuel) (mkState l (Z.of_nat i) r o) = run fuel (mkState l' (Z.of_nat i) r o).
Proof.
  intros Hf Hpc He. assert (i < length l)%nat as Hi by (by eapply lookup_lt_Some).
  exists (<[i := set_pc (pc f + 1) f1]> (<[i := f1]> l)). split; [|split].
  - eapply agree_trans; by apply agree_insert.
  - apply list_lookup_insert_eq. by rewrite length_insert.
  - rewrite (run_step fuel i f l r o _ f1 Hf Hpc He); [done|]. by apply list_lookup_insert_eq.
Qed.

(** A step that calls, and the call. *)
Definition runs_call (m : nat) : Prop := forall (i : nat) l r o from to via fuel,
  (i + m <= length l)%nat -> l !! i = Some (mkFrame 0 (Z.of_nat m) from to via 0 0) ->
  exists l', agree i l l' /\
    run (steps m + fuel) (mkState l (Z.of_nat i) r o) =
    run fuel (mkState l' (Z.of_nat i - 1) (2 ^ Z.of_nat m - 1) (o ++ moves m from to via)).

Lemma step_call m fuel (i : nat) l r o f from to via :
  runs_call m -> l !! i = Some f -> 0 <= pc f <= 6 -> (i + 1 + m <= length l)%nat ->
  exec (Z.of_nat i) f (mkState l (Z.of_nat i) r o) =
    (if (0 <? m)%nat then call (Z.of_nat m) from to via (mkState l (Z.of_nat i) r o) else None) ->
  (0 < m)%nat ->
  exists l', agree i l l' /\ l' !! i = Some (set_pc (pc f + 1) f) /\
    run (S (steps m + fuel)) (mkState l (Z.of_nat i) r o) =
    run fuel (mkState l' (Z.of_nat i) (2 ^ Z.of_nat m - 1) (o ++ moves m from to via)).
Proof.
  intros IH Hf Hpc Hlen He Hm. destruct (Nat.ltb_spec 0 m); [|lia].
  rewrite (call_ok (S i)) in He by (cbn; lia). cbn [stk retval out] in He.
  set (l1 := <[S i := mkFrame 0 (Z.of_nat m) from to via 0 0]> l) in *.
  assert (l1 !! i = Some f) as Hf1 by (unfold l1; by rewrite list_lookup_insert_ne by lia).
  set (l2 := <[i := set_pc (pc f + 1) f]> l1).
  assert (i < length l)%nat by (by eapply lookup_lt_Some).
  assert (length l2 = length l) as L2 by (unfold l2, l1; by rewrite !length_insert).
  assert (l2 !! S i = Some (mkFrame 0 (Z.of_nat m) from to via 0 0)) as Hc.
  { unfold l2, l1. rewrite list_lookup_insert_ne by lia. apply list_lookup_insert_eq. lia. }
  destruct (IH (S i) l2 r o from to via fuel) as (l3 & [L3 A3] & Hrun); [lia|done|].
  exists l3. split; [|split].
  - eapply agree_trans; [|apply (agree_weaken i (S i)); [lia|by split]]. unfold l2, l1.
    eapply agree_trans; apply agree_insert; lia.
  - rewrite A3 by lia. apply list_lookup_insert_eq. unfold l1. by rewrite length_insert.
  - rewrite (run_step _ i f l r o _ f Hf Hpc He Hf1). cbn [stk top retval out]. fold l2.
    rewrite Hrun. by replace (Z.of_nat (S i) - 1) with (Z.of_nat i) by lia.
Qed.

Lemma runs_call_1 : runs_call 1.
Proof.
  intros i l r o from to via fuel Hi Hl.
  assert (i < length l)%nat as Hlt by (by eapply lookup_lt_Some).
  exists (<[i := set_pc 1 (mkFrame 0 1 from to via 0 0)]> l). split; [by apply agree_insert|].
  cbn [steps Nat.add]. by rewrite (run_step fuel i _ l r o _ _ Hl ltac:(cbn; lia) eq_refl Hl).
Qed.

(** Running a fresh frame of [m] disks at index [i] pops it, prints its moves
    and leaves the frames below as they are. *)
Lemma runs_call_S m : (0 < m < 31)%nat -> runs_call m -> runs_call (S m).
Proof.
  intros Hm IH i l r o from to via fuel Hi Hl. pose proof (pow_int (Z.of_nat m)) as Hp.
  destruct m as [|m']; [lia|]. remember (S m') as m eqn:Em.
  assert (steps (S m) + fuel = S (S (steps m + S (S (steps 1 + S (steps m + S (S fuel)))))))%nat as ->.
  { rewrite Em. cbn [steps]. lia. }
  assert (int_val (Z.of_nat (S m) - 1) = Some (Z.of_nat m)) as Hn.
  { rewrite int_val_ok by (unfold int_min, int_max; lia). f_equal. lia. }
  set (fr := fun p a b => mkFrame p (Z.of_nat (S m)) from to via a b). set (P := 2 ^ Z.of_nat m - 1).
  destruct (step_local (S (steps m + S (S (steps 1 + S (steps m + S (S fuel)))))) i l r o
    (fr 0 0 0) (fr 0 0 0) Hl) as (l1 & A1 & H1 & ->); [cbn; lia| |].
  { cbn [exec fr pc n]. destruct (Z.eqb_spec (Z.of_nat (S m)) 1); [lia|]. by rewrite list_insert_id. }
  destruct (step_call m (S (S (steps 1 + S (steps m + S (S fuel))))) i l1 r o (fr 1 0 0) from via to IH H1)
    as (l2 & A2 & H2 & ->); [cbn; lia|destruct A1; lia| |lia|].
  { cbn [exec fr pc n Nr.from Nr.to Nr.via]. rewrite Hn, some_bind. by subst m. }
  fold P. set (o1 := o ++ _).
  destruct (step_local (S (steps 1 + S (steps m + S (S fuel)))) i l2 P o1 (fr 2 0 0) (fr 2 P 0) H2)
    as (l3 & A3 & H3 & ->); [cbn; lia| |].
  { cbn [exec fr pc]. apply put_ok. by eapply lookup_lt_Some. }
  assert (length l3 = length l) as L3 by (destruct A1, A2, A3; congruence).
  destruct (step_call 1 (S (steps m + S (S fuel))) i l3 P o1 (fr 3 P 0) from to via runs_call_1 H3)
    as (l4 & A4 & H4 & ->); [cbn; lia|lia|done|lia|].
  change (2 ^ Z.of_nat 1 - 1) with 1. set (o2 := o1 ++ _).
  destruct (step_call m (S (S fuel)) i l4 1 o2 (fr 4 P 0) via to from IH H4)
    as (l5 & A5 & H5 & ->); [cbn; lia|destruct A4; lia| |lia|].
  { cbn [exec fr pc n Nr.from Nr.to Nr.via]. rewrite Hn, some_bind. by subst m. }
  fold P. set (o3 := o2 ++ _).
  destruct (step_local (S fuel) i l5 P o3 (fr 5 P 0) (fr 5 P P) H5) as (l6 & A6 & H6 & ->); [cbn; lia| |].
  { cbn [exec fr pc]. apply put_ok. by eapply lookup_lt_Some. }
  assert (exec (Z.of_nat i) (fr 6 P P) (mkState l6 (Z.of_nat i) P o3) =
    Some (ret (P + P + 1) (mkState l6 (Z.of_nat i) P o3))) as E6.
  { cbn [exec fr pc c1 c2]. unfold P. int_ok. by int_ok. }
  rewrite (run_step fuel i (fr 6 P P) l6 P o3 _ (fr 6 P P) H6 ltac:(cbn; lia) E6 H6).
  cbn [ret stk top retval out]. eexists. split; [|f_equal; f_equal].
  - do 5 (eapply agree_trans; [eassumption|]). eapply agree_trans; [eassumption|by apply agree_insert].
  - rewrite pow_S. unfold P. lia.
  - unfold o3, o2, o1. cbn [moves]. by rewrite <- !app_assoc.
Qed.

Lemma runs_calls m : (0 < m <= 31)%nat -> runs_call m.
Proof.
  induction m as [|m IH]; intros Hm; [lia|]. destruct m as [|m]; [exact runs_call_1|].
  apply runs_call_S; [lia|]. apply IH. lia.
Qed.

End NrSpec.

(** ** The loop *)

Module LoopSpec.
Import Loop.

Fixpoint steps (m : nat) : nat :=
  match m with O => 0 | S m => match m with O => 1 | _ => 4 + 2 * steps m end end.

Definition agree (i : nat) (l l' : list Frame) : Prop :=
  length l' = length l /\ forall j, (j < i)%nat -> l' !! j = l !! j.

Lemma loop_agree_insert i j f l : (i <= j)%nat -> agree i l (<[j := f]> l).
Proof.
  intros Hj. split; [apply length_insert|]. intros k Hk. apply list_lookup_insert_ne. lia.
Qed.

Lemma loop_agree_trans i j l1 l2 l3 : (i <= j)%nat -> agree i l1 l2 -> agree j l2 l3 -> agree i l1 l3.
Proof. intros Hj [L1 A1] [L2 A2]. split; [congruence|]. intros k Hk. by rewrite A2, A1 by lia. Qed.

Lemma loop_put_ok (i : nat) f s : (i < length (stack s))%nat ->
  put (Z.of_nat i) f s = Some (mkState (<[i := f]> (stack s)) (top s) (count s) (out s)).
Proof. intros. unfold put. rewrite Nat2Z.id. by zcases; try lia. Qed.

Lemma push_ok (i : nat) f s : top s + 1 = Z.of_nat i -> (i < length (stack s))%nat ->
  push f s = Some (mkState (<[i := f]> (stack s)) (Z.of_nat i) (count s) (out s)).
Proof. intros E Hi. unfold push. rewrite E, loop_put_ok, some_bind by done. done. Qed.

Lemma loop_run_step fuel (i : nat) l c o f s1 :
  l !! i = Some f -> step (mkState l (Z.of_nat i) c o) = Some s1 ->
  run (S fuel) (mkState l (Z.of_nat i) c o) = run fuel s1.
Proof.
  intros Hf He. cbn [run top]. destruct (Z.ltb_spec (Z.of_nat i) 0); [lia|]. by rewrite He, some_bind.
Qed.

(** The frame the step works on. *)
Lemma step_frame (i : nat) l c o f : l !! i = Some f ->
  (if top (mkState l (Z.of_nat i) c o) <? 0 then None
   else stack (mkState l (Z.of_nat i) c o) !! Z.to_nat (top (mkState l (Z.of_nat i) c o))) = Some f.
Proof. intros Hf. cbn. destruct (Z.ltb_spec (Z.of_nat i) 0); [lia|]. by rewrite Nat2Z.id. Qed.

Definition runs_frame (m : nat) : Prop := forall (i : nat) l c o from to tmp fuel,
  (i + m <= length l)%nat -> 0 <= c -> c + 2 ^ Z.of_nat m - 1 <= int_max ->
  l !! i = Some (mkFrame (Z.of_nat m) from to tmp 0) ->
  exists l', agree i l l' /\
    run (steps m + fuel) (mkState l (Z.of_nat i) c o) =
    run fuel (mkState l' (Z.of_nat i - 1) (c + (2 ^ Z.of_nat m - 1)) (o ++ moves m from to tmp)).

Lemma runs_frame_1 : runs_frame 1.
Proof.
  intros i l c o from to tmp fuel Hi H0 Hc Hl. exists l. split; [done|]. cbn [steps Nat.add].
  erewrite (loop_run_step fuel i l c o _ _ Hl); [done|].
  unfold step. rewrite (step_frame i l c o _ Hl), some_bind. cbn [n].
  change (Z.of_nat 1 =? 1) with true. cbv iota. unfold move_disk. cbn [count stack top out].
  rewrite int_val_ok by (unfold int_min, int_max in *; lia). done.
Qed.

(** A stage that pushes a frame of [m] disks, and that frame. *)
Lemma stage_call m fuel (i : nat) l c o f st from to tmp :
  runs_frame m -> (0 < m)%nat -> l !! i = Some f -> (i + 1 + m <= length l)%nat ->
  0 <= c -> c + 2 ^ Z.of_nat m - 1 <= int_max ->
  step (mkState l (Z.of_nat i) c o) =
    (s ← push (mkFrame (Z.of_nat m) from to tmp 0) (mkState l (Z.of_nat i) c o);
     put (Z.of_nat i) (set_stage st f) s) ->
  exists l', agree i l l' /\ l' !! i = Some (set_stage st f) /\
    run (S (steps m + fuel)) (mkState l (Z.of_nat i) c o) =
    run fuel (mkState l' (Z.of_nat i) (c + (2 ^ Z.of_nat m - 1)) (o ++ moves m from to tmp)).
Proof.
  intros IH Hm Hf Hlen Hc0 Hc He. assert (i < length l)%nat by (by eapply lookup_lt_Some).
  rewrite (push_ok (S i)) in He by (cbn; lia). rewrite some_bind in He. cbn [stack count out] in He.
  rewrite loop_put_ok in He by (cbn [stack]; rewrite length_insert; lia). cbn [stack top count out] in He.
  set (g := mkFrame _ _ _ _ _) in *. set (l2 := <[i := set_stage st f]> _) in He.
  assert (length l2 = length l) as L2 by (unfold l2; by rewrite !length_insert).
  destruct (IH (S i) l2 c o from to tmp fuel) as (l3 & A3 & Hrun); [lia|done|done| |].
  { unfold l2. rewrite list_lookup_insert_ne by lia. apply list_lookup_insert_eq. lia. }
  exists l3. split; [|split].
  - apply (loop_agree_trans i (S i) l l2 l3); [lia| |done]. unfold l2.
    apply (loop_agree_trans i i _ (<[S i := g]> l)); [lia|apply loop_agree_insert; lia|by apply loop_agree_insert].
  - rewrite (proj2 A3) by lia. apply list_lookup_insert_eq. by rewrite length_insert.
  - rewrite (loop_run_step _ i l c o f _ Hf He), Hrun.
    by replace (Z.of_nat (S i) - 1) with (Z.of_nat i) by lia.
Qed.

Lemma runs_frame_S m : (0 < m < 31)%nat -> runs_frame m -> runs_frame (S m).
Proof.
  intros Hm IH i l c o from to tmp fuel Hi H0 Hc Hl. pose proof (pow_int (Z.of_nat m) ltac:(lia)) as Hp.
  rewrite pow_S in Hc |- *. assert (i < length l)%nat as Hlt by (by eapply lookup_lt_Some).
  assert (steps (S m) + fuel = S (steps m + S (S (steps m + S fuel))))%nat as ->.
  { destruct m; [lia|]. cbn [steps]. lia. }
  assert (int_val (Z.of_nat (S m) - 1) = Some (Z.of_nat m)) as Hn.
  { rewrite int_val_ok by (unfold int_min, int_max; lia). f_equal. lia. }
  assert (Z.of_nat (S m) =? 1 = false) as H1 by (apply Z.eqb_neq; lia).
  set (P := 2 ^ Z.of_nat m - 1). set (fr := mkFrame (Z.of_nat (S m)) from to tmp).
  destruct (stage_call m (S (S (steps m + S fuel))) i l c o (fr 0) 1 from tmp to IH ltac:(lia) Hl)
    as (l1 & A1 & F1 & ->); [lia|done|lia| |].
  { unfold step. rewrite (step_frame i l c o _ Hl), some_bind. cbn [fr n stage Loop.from Loop.to Loop.tmp top].
    rewrite H1, Hn. cbn [Z.eqb]. by rewrite some_bind. }
  fold P. set (o1 := o ++ _). set (c1 := c + P).
  assert (step (mkState l1 (Z.of_nat i) c1 o1) =
    Some (mkState (<[i := fr 2]> l1) (Z.of_nat i) (c1 + 1) (o1 ++ [(from, to)]))) as E2.
  { unfold step. rewrite (step_frame i l1 c1 o1 _ F1), some_bind. cbn [set_stage fr n stage Loop.from Loop.to Loop.tmp top].
    rewrite H1. cbn [Z.eqb Pos.eqb]. unfold move_disk. cbn [count stack top out].
    rewrite int_val_ok by (unfold int_min, int_max, c1, P in *; lia). rewrite !some_bind.
    apply (loop_put_ok i _ (mkState l1 _ _ _)). cbn. destruct A1; lia. }
  rewrite (loop_run_step _ i l1 c1 o1 _ _ F1 E2). set (l2 := <[i := fr 2]> l1). set (o2 := o1 ++ _).
  assert (l2 !! i = Some (fr 2)) as F2 by (apply list_lookup_insert_eq; destruct A1; lia).
  assert (agree i l l2) as A2.
  { apply (loop_agree_trans i i l l1 l2); [lia|done|by apply loop_agree_insert]. }
  destruct (stage_call m (S fuel) i l2 (c1 + 1) o2 (fr 2) 3 tmp to from IH ltac:(lia) F2)
    as (l3 & A3 & F3 & ->); [destruct A2; lia|unfold c1, P; lia|unfold c1, P; lia| |].
  { unfold step. rewrite (step_frame i l2 _ o2 _ F2), some_bind. cbn [fr n stage Loop.from Loop.to Loop.tmp top].
    rewrite H1, Hn. cbn [Z.eqb Pos.eqb]. by rewrite some_bind. }
  fold P. set (o3 := o2 ++ _).
  erewrite (loop_run_step fuel i l3 _ o3 _ _ F3); cycle 1.
  { unfold step. rewrite (step_frame i l3 _ o3 _ F3), some_bind. cbn [set_stage fr n stage]. by rewrite H1. }
  unfold pop. cbn [stack top count out]. exists l3. split; [|f_equal; f_equal].
  - by apply (loop_agree_trans i i l l2 l3).
  - unfold c1, P. lia.
  - unfold o3, o2, o1. cbn [moves]. by rewrite <- !app_assoc.
Qed.

Lemma runs_frames m : (0 < m <= 31)%nat -> runs_frame m.
Proof.
  induction m as [|m IH]; intros Hm; [lia|]. destruct m as [|m]; [exact runs_frame_1|].
  apply runs_frame_S; [lia|]. apply IH. lia.
Qed.

End LoopSpec.

(** C40: for 1 to 31 disks, the most whose count of moves is an [int], the three
    programs return and print the same: the recursion, the interpreter of its
    frames in an array of 64 and the loop over an array of 1024 all print the
    moves of the reference and return their number, 2^n - 1, without leaving
    their arrays and without overflow. *)
Theorem hanoi_programs_agree n from to via stk0 stack0 :
  1 <= n <= 31 -> length stk0 = 64%nat -> length stack0 = Loop.MAX_STACK_DEEP ->
  exists fuel0, forall fuel, (fuel0 <= fuel)%nat ->
    let result := Some (moves (Z.to_nat n) from to via, 2 ^ n - 1) in
    hanoi_r fuel n from to via = result /\
    Nr.hanoi fuel stk0 n from to via = result /\
    Loop.hanoi_for_loop fuel stack0 n from to via = result.
Proof.
  intros Hn Hs Hk. assert (exists m, n = Z.of_nat m) as [m ->] by (exists (Z.to_nat n); lia). rewrite Nat2Z.id.
  exists (m + NrSpec.steps m + LoopSpec.steps m)%nat. intros fuel Hf. cbn zeta. split; [|split].
  - apply hanoi_r_spec; lia.
  - unfold Nr.hanoi. rewrite (NrSpec.call_ok 0%nat), some_bind by (cbn; lia). cbn [Nr.stk Nr.retval Nr.out].
    destruct (NrSpec.runs_calls m ltac:(lia) 0%nat (<[0%nat := Nr.mkFrame 0 (Z.of_nat m) from to via 0 0]> stk0) 0 []
      from to via (fuel - NrSpec.steps m)%nat) as (l' & _ & Hrun).
    { rewrite length_insert. lia. }
    { apply list_lookup_insert_eq. lia. }
    replace (NrSpec.steps m + (fuel - NrSpec.steps m))%nat with fuel in Hrun by lia. rewrite Hrun.
    by destruct (fuel - NrSpec.steps m)%nat.
  - unfold Loop.hanoi_for_loop. destruct (Z.leb_spec (Z.of_nat m) 0); [lia|]. unfold Loop.MAX_STACK_DEEP in Hk.
    rewrite (LoopSpec.push_ok 0%nat), some_bind by (cbn; lia). cbn [Loop.stack Loop.count Loop.out].
    pose proof (pow_int (Z.of_nat m - 1) ltac:(lia)) as Hp.
    assert (2 ^ Z.of_nat m = 2 * 2 ^ (Z.of_nat m - 1)) as E2 by (rewrite <- Z.pow_succ_r by lia; f_equal; lia).
    destruct (LoopSpec.runs_frames m ltac:(lia) 0%nat (<[0%nat := Loop.mkFrame (Z.of_nat m) from to via 0]> stack0) 0 []
      from to via (fuel - LoopSpec.steps m)%nat) as (l' & _ & Hrun).
    { rewrite length_insert. lia. }
    { lia. }
    { unfold int_max. lia. }
    { apply list_lookup_insert_eq. lia. }
    replace (LoopSpec.steps m + (fuel - LoopSpec.steps m))%nat with fuel in Hrun by lia. rewrite Hrun.
    by destruct (fuel - LoopSpec.steps m)%nat.
Qed.

Lemma hanoi_programs_agree_witness :
  exists fuel0, Nr.hanoi fuel0 (replicate 64 (Nr.mkFrame 0 0 0 0 0 0 0)) 2 65 66 67 =
    Some ([(65, 67); (65, 66); (67, 66)], 3).
Proof.
  destruct (hanoi_programs_agree 2 65 66 67 (replicate 64 (Nr.mkFrame 0 0 0 0 0 0 0))
    (replicate 1024 (Loop.mkFrame 0 0 0 0 0))) as (fuel0 & H); [lia|reflexivity|apply length_replicate|].
  exists fuel0. exact (proj1 (proj2 (H fuel0 (le_n fuel0)))).
Defined.

(** ** The moves solve the puzzle *)

(** The disks on each peg, the uppermost first. *)
Definition pegs : Type := Z -> list Z.

Definition set_peg (p : Z) (l : list Z) (s : pegs) : pegs := fun q => if q =? p then l else s q.

(** A disk may be put on a larger one only. *)
Definition do_move (m : move) (s : pegs) : option pegs :=
  match s m.1 with
  | [] => None
  | d :: rest =>
      match s m.2 with
      | [] => Some (set_peg m.2 [d] (set_peg m.1 rest s))
      | e :: l => if d <? e then Some (set_peg m.2 (d :: e :: l) (set_peg m.1 rest s)) else None
      end
  end.

Fixpoint do_moves (l : list move) (s : pegs) : option pegs :=
  match l with
  | [] => Some s
  | m :: l => s ← do_move m s; do_moves l s
  end.

Lemma do_moves_app l1 l2 s : do_moves (l1 ++ l2) s = (do_moves l1 s ≫= do_moves l2).
Proof.
  revert s. induction l1 as [|m l1 IH]; intros s; cbn; [done|].
  destruct (do_move m s) as [s'|]; [|done]. rewrite !some_bind. apply IH.
Qed.

(** A tower of [n] disks. *)
Definition tower (n : nat) : list Z := Z.of_nat <$> seq 1 n.

Lemma tower_S n : tower (S n) = tower n ++ [Z.of_nat (S n)].
Proof. unfold tower. by rewrite seq_S, fmap_app. Qed.

Definition larger (n : nat) (l : list Z) : Prop := Forall (fun d => Z.of_nat n < d) l.

Lemma larger_le n m l : (n <= m)%nat -> larger m l -> larger n l.
Proof. intros H Hl. eapply Forall_impl; [exact Hl|]. intros d. cbn. lia. Qed.

Lemma moves_solve n a b c s rest :
  a <> b -> b <> c -> a <> c -> s a = tower n ++ rest ->
  larger n rest -> larger n (s b) -> larger n (s c) ->
  exists s', do_moves (moves n a b c) s = Some s' /\ s' a = rest /\ s' b = tower n ++ s b /\
    forall p, p <> a -> p <> b -> s' p = s p.
Proof.
  revert a b c s rest. induction n as [|n IH]; intros a b c s rest Hab Hbc Hac Ha Hr Hb Hc.
  { exists s. by split_and!. }
  set (d := Z.of_nat (S n)) in *. rewrite tower_S, <- app_assoc in Ha. cbn in Ha. fold d in Ha.
  destruct (IH a c b s (d :: rest)) as (s1 & E1 & A1 & C1 & O1); try done.
  { constructor; [unfold d; lia|]. eapply larger_le; [|done]. lia. }
  { eapply larger_le; [|done]. lia. }
  { eapply larger_le; [|done]. lia. }
  cbn [moves]. rewrite do_moves_app, E1, some_bind. cbn [do_moves].
  assert (s1 b = s b) as B1 by (apply O1; congruence).
  set (s2 := set_peg b (d :: s b) (set_peg a rest s1)).
  assert (do_move (a, b) s1 = Some s2) as ->.
  { unfold do_move. cbn [fst snd]. rewrite A1, B1. unfold s2. destruct (s b) as [|e l] eqn:Eb; [done|].
    assert (d < e) as ->%Z.ltb_lt; [|done]. by apply Forall_inv in Hb. }
  rewrite some_bind.
  assert (s2 c = tower n ++ s c) as C2.
  { unfold s2, set_peg. zcases; try congruence. }
  assert (s2 b = d :: s b) as B2 by (unfold s2, set_peg; zcases; congruence).
  assert (s2 a = rest) as A2 by (unfold s2, set_peg; zcases; congruence).
  destruct (IH c b a s2 (s c)) as (s3 & E3 & C3 & B3 & O3); try done.
  { eapply larger_le; [|done]. lia. }
  { rewrite B2. constructor; [unfold d; lia|]. eapply larger_le; [|done]. lia. }
  { rewrite A2. eapply larger_le; [|done]. lia. }
  exists s3. split; [done|]. split; [by rewrite O3|]. split.
  - rewrite B3, B2, tower_S, <- app_assoc. done.
  - intros p Hpa Hpb. destruct (decide (p = c)) as [-> |]; [done|]. rewrite O3 by done.
    unfold s2, set_peg. zcases; try congruence. by apply O1.
Qed.

(** What the interpreter of frames prints solves the puzzle: executed on
    three pegs the moves are legal, they bring the n disks on top of the first
    peg to the second in order and leave every other disk where it was. *)
Lemma hanoi_solves n from to via stk0 s rest :
  1 <= n <= 31 -> length stk0 = 64%nat ->
  from <> to -> to <> via -> from <> via ->
  s from = tower (Z.to_nat n) ++ rest ->
  larger (Z.to_nat n) rest -> larger (Z.to_nat n) (s to) -> larger (Z.to_nat n) (s via) ->
  exists fuel l s', Nr.hanoi fuel stk0 n from to via = Some (l, 2 ^ n - 1) /\
    do_moves l s = Some s' /\ s' from = rest /\ s' to = tower (Z.to_nat n) ++ s to /\
    forall p, p <> from -> p <> to -> s' p = s p.
Proof.
  intros Hn Hs Hft Htv Hfv Hf Hr Ht Hv. 
  assert (exists m, n = Z.of_nat m) as [m ->] by (exists (Z.to_nat n); lia). rewrite Nat2Z.id in *.
  destruct (moves_solve m from to via s rest) as (s' & E & H); try done.
  exists (NrSpec.steps m + 0)%nat, (moves m from to via), s'. split; [|by split].
  unfold Nr.hanoi. rewrite (NrSpec.call_ok 0%nat), some_bind by (cbn; lia). cbn [Nr.stk Nr.retval Nr.out].
  destruct (NrSpec.runs_calls m ltac:(lia) 0%nat (<[0%nat := Nr.mkFrame 0 (Z.of_nat m) from to via 0 0]> stk0) 0 []
      from to via 0%nat) as (l' & _ & ->); [rewrite length_insert; lia|apply list_lookup_insert_eq; lia|done].
Qed.

Lemma hanoi_solves_witness :
  exists fuel l s', Nr.hanoi fuel (replicate 64 (Nr.mkFrame 0 0 0 0 0 0 0)) 3 65 66 67 = Some (l, 7) /\
    do_moves l (set_peg 65 [1; 2; 3; 9] (fun _ => [])) = Some s' /\ s' 66 = [1; 2; 3].
Proof.
  destruct (hanoi_solves 3 65 66 67 (replicate 64 (Nr.mkFrame 0 0 0 0 0 0 0))
    (set_peg 65 [1; 2; 3; 9] (fun _ => [])) [9]) as (fuel & l & s' & E & H & _ & H66 & _);
    [lia|reflexivity|lia|lia|lia|reflexivity| | | |].
  - apply Forall_cons_2; [|apply Forall_nil_2]. vm_compute. reflexivity.
  - apply Forall_nil_2.
  - apply Forall_nil_2.
  - exists fuel, l, s'. split; [exact E|]. split; [exact H|exact H66].
Defined.
