(* ===== verification/Rv32ima.v ===== *)
(** * The RV32IMA emulator (course_2/mini-rv32ima/mini-rv32ima.h)

    [rv32ima_step] runs one instruction of an emulated hart; course_5/crazy-os
    has the same file.  The array [csrs] is indexed by its enumerators only, so
    it is a record with one field for each of them.  The memory of the machine is
    the host's bytes at [mem]; an access outside [mem_size] is undefined ([None]).
    Accesses to unaligned addresses are taken to work, as they do on the hosts
    the program runs on. *)

From S2P Require Import Prelude.

(** [enum RV32IMA_CSR] *)
Record csr_file := mkCsr {
  PC : Z; MSTATUS : Z; CYCLEL : Z; CYCLEH : Z; TIMERL : Z; TIMERH : Z; TIMERMATCHL : Z;
  TIMERMATCHH : Z; MSCRATCH : Z; MTVEC : Z; MIE : Z; MIP : Z; MEPC : Z; MTVAL : Z; MCAUSE : Z;
  EXTRAFLAGS : Z }.

Record CPUState := mkCPU {
  regs : list Z; csrs : csr_file; mem_bytes : mem; mem_offset : Z; mem_size : Z }.

(** ** Access *)

Definition REG (s : CPUState) (i : Z) : Z := nth (Z.to_nat i) (regs s) 0.

Definition set_REG (i v : Z) (s : CPUState) : CPUState :=
  mkCPU (<[Z.to_nat i := v]> (regs s)) (csrs s) (mem_bytes s) (mem_offset s) (mem_size s).

Definition on_csrs (f : csr_file -> csr_file) (s : CPUState) : CPUState :=
  mkCPU (regs s) (f (csrs s)) (mem_bytes s) (mem_offset s) (mem_size s).

Section SetCsr.
Variables (v : Z) (c : csr_file).
Definition set_PC := mkCsr v (MSTATUS c) (CYCLEL c) (CYCLEH c) (TIMERL c) (TIMERH c) (TIMERMATCHL c) (TIMERMATCHH c) (MSCRATCH c) (MTVEC c) (MIE c) (MIP c) (MEPC c) (MTVAL c) (MCAUSE c) (EXTRAFLAGS c).
Definition set_MSTATUS := mkCsr (PC c) v (CYCLEL c) (CYCLEH c) (TIMERL c) (TIMERH c) (TIMERMATCHL c) (TIMERMATCHH c) (MSCRATCH c) (MTVEC c) (MIE c) (MIP c) (MEPC c) (MTVAL c) (MCAUSE c) (EXTRAFLAGS c).
Definition set_CYCLEL := mkCsr (PC c) (MSTATUS c) v (CYCLEH c) (TIMERL c) (TIMERH c) (TIMERMATCHL c) (TIMERMATCHH c) (MSCRATCH c) (MTVEC c) (MIE c) (MIP c) (MEPC c) (MTVAL c) (MCAUSE c) (EXTRAFLAGS c).
Definition set_CYCLEH := mkCsr (PC c) (MSTATUS c) (CYCLEL c) v (TIMERL c) (TIMERH c) (TIMERMATCHL c) (TIMERMATCHH c) (MSCRATCH c) (MTVEC c) (MIE c) (MIP c) (MEPC c) (MTVAL c) (MCAUSE c) (EXTRAFLAGS c).
Definition set_TIMERL := mkCsr (PC c) (MSTATUS c) (CYCLEL c) (CYCLEH c) v (TIMERH c) (TIMERMATCHL c) (TIMERMATCHH c) (MSCRATCH c) (MTVEC c) (MIE c) (MIP c) (MEPC c) (MTVAL c) (MCAUSE c) (EXTRAFLAGS c).
Definition set_TIMERH := mkCsr (PC c) (MSTATUS c) (CYCLEL c) (CYCLEH c) (TIMERL c) v (TIMERMATCHL c) (TIMERMATCHH c) (MSCRATCH c) (MTVEC c) (MIE c) (MIP c) (MEPC c) (MTVAL c) (MCAUSE c) (EXTRAFLAGS c).
Definition set_TIMERMATCHL := mkCsr (PC c) (MSTATUS c) (CYCLEL c) (CYCLEH c) (TIMERL c) (TIMERH c) v (TIMERMATCHH c) (MSCRATCH c) (MTVEC c) (MIE c) (MIP c) (MEPC c) (MTVAL c) (MCAUSE c) (EXTRAFLAGS c).
Definition set_TIMERMATCHH := mkCsr (PC c) (MSTATUS c) (CYCLEL c) (CYCLEH c) (TIMERL c) (TIMERH c) (TIMERMATCHL c) v (MSCRATCH c) (MTVEC c) (MIE c) (MIP c) (MEPC c) (MTVAL c) (MCAUSE c) (EXTRAFLAGS c).
Definition set_MSCRATCH := mkCsr (PC c) (MSTATUS c) (CYCLEL c) (CYCLEH c) (TIMERL c) (TIMERH c) (TIMERMATCHL c) (TIMERMATCHH c) v (MTVEC c) (MIE c) (MIP c) (MEPC c) (MTVAL c) (MCAUSE c) (EXTRAFLAGS c).
Definition set_MTVEC := mkCsr (PC c) (MSTATUS c) (CYCLEL c) (CYCLEH c) (TIMERL c) (TIMERH c) (TIMERMATCHL c) (TIMERMATCHH c) (MSCRATCH c) v (MIE c) (MIP c) (MEPC c) (MTVAL c) (MCAUSE c) (EXTRAFLAGS c).
Definition set_MIE := mkCsr (PC c) (MSTATUS c) (CYCLEL c) (CYCLEH c) (TIMERL c) (TIMERH c) (TIMERMATCHL c) (TIMERMATCHH c) (MSCRATCH c) (MTVEC c) v (MIP c) (MEPC c) (MTVAL c) (MCAUSE c) (EXTRAFLAGS c).
Definition set_MIP := mkCsr (PC c) (MSTATUS c) (CYCLEL c) (CYCLEH c) (TIMERL c) (TIMERH c) (TIMERMATCHL c) (TIMERMATCHH c) (MSCRATCH c) (MTVEC c) (MIE c) v (MEPC c) (MTVAL c) (MCAUSE c) (EXTRAFLAGS c).
Definition set_MEPC := mkCsr (PC c) (MSTATUS c) (CYCLEL c) (CYCLEH c) (TIMERL c) (TIMERH c) (TIMERMATCHL c) (TIMERMATCHH c) (MSCRATCH c) (MTVEC c) (MIE c) (MIP c) v (MTVAL c) (MCAUSE c) (EXTRAFLAGS c).
Definition set_MTVAL := mkCsr (PC c) (MSTATUS c) (CYCLEL c) (CYCLEH c) (TIMERL c) (TIMERH c) (TIMERMATCHL c) (TIMERMATCHH c) (MSCRATCH c) (MTVEC c) (MIE c) (MIP c) (MEPC c) v (MCAUSE c) (EXTRAFLAGS c).
Definition set_MCAUSE := mkCsr (PC c) (MSTATUS c) (CYCLEL c) (CYCLEH c) (TIMERL c) (TIMERH c) (TIMERMATCHL c) (TIMERMATCHH c) (MSCRATCH c) (MTVEC c) (MIE c) (MIP c) (MEPC c) (MTVAL c) v (EXTRAFLAGS c).
Definition set_EXTRAFLAGS := mkCsr (PC c) (MSTATUS c) (CYCLEL c) (CYCLEH c) (TIMERL c) (TIMERH c) (TIMERMATCHL c) (TIMERMATCHH c) (MSCRATCH c) (MTVEC c) (MIE c) (MIP c) (MEPC c) (MTVAL c) (MCAUSE c) v.
End SetCsr.

Definition not32 (x : Z) : Z := u32 (Z.lnot x).

(** [x & mask] as a condition. *)
Definition test (x mask : Z) : bool := negb (Z.land x mask =? 0).

Definition load (s : CPUState) (ofs : Z) (n : nat) : option Z :=
  if (0 <=? ofs) && (ofs + Z.of_nat n <=? mem_size s) then Some (load_le (mem_bytes s) ofs n) else None.

Definition store (ofs : Z) (n : nat) (v : Z) (s : CPUState) : option CPUState :=
  if (0 <=? ofs) && (ofs + Z.of_nat n <=? mem_size s)
  then Some (mkCPU (regs s) (csrs s) (store_le (mem_bytes s) ofs n v) (mem_offset s) (mem_size s))
  else None.

(** ** The instructions

    What the [switch] leaves in the local variables, or an early [return]. *)

Record locals := mkL { l_st : CPUState; rdid : Z; rval : Z; pc : Z; trap : Z }.

Inductive outcome :=
  | Go (l : locals)
  | Ret (s : CPUState) (r : Z).

Section Step.
(** The instruction word, [pc] before it and [cycle]. *)
Variables (ir pc0 cycle : Z).

Definition rd_field : Z := Z.land (Z.shiftr ir 7) 0x1f.
Definition rs1_field : Z := Z.land (Z.shiftr ir 15) 0x1f.
Definition rs2_field : Z := Z.land (Z.shiftr ir 20) 0x1f.
Definition funct3 : Z := Z.land (Z.shiftr ir 12) 0x7.

(** The sign-extended immediate of loads, JALR and register-immediate operations. *)
Definition imm_i : Z :=
  let imm := Z.shiftr ir 20 in Z.lor imm (if test imm 0x800 then 0xfffff000 else 0).

Definition op_jal (s : CPUState) : locals :=
  let reladdy := Z.lor (Z.lor (Z.lor (Z.shiftr (Z.land ir 0x80000000) 11) (Z.shiftr (Z.land ir 0x7fe00000) 20))
                   (Z.shiftr (Z.land ir 0x00100000) 9)) (Z.land ir 0x000ff000) in
  let reladdy := if test reladdy 0x00100000 then Z.lor reladdy 0xffe00000 else reladdy in
  mkL s rd_field (u32 (pc0 + 4)) (u32 (pc0 + reladdy - 4)) 0.

Definition op_jalr (s : CPUState) : locals :=
  mkL s rd_field (u32 (pc0 + 4)) (u32 (Z.land (u32 (REG s rs1_field + imm_i)) (not32 1) - 4)) 0.

Definition op_branch (s : CPUState) : locals :=
  let immm4 := Z.lor (Z.lor (Z.lor (Z.shiftr (Z.land ir 0xf00) 7) (Z.shiftr (Z.land ir 0x7e000000) 20))
                 (u32 (Z.shiftl (Z.land ir 0x80) 4))) (u32 (Z.shiftl (Z.shiftr ir 31) 12)) in
  let immm4 := if test immm4 0x1000 then Z.lor immm4 0xffffe000 else immm4 in
  let rs1 := REG s rs1_field in
  let rs2 := REG s rs2_field in
  let immm4 := u32 (pc0 + immm4 - 4) in
  let go (b : bool) := mkL s 0 0 (if b then immm4 else pc0) 0 in
  match funct3 with
  | 0 => go (rs1 =? rs2)
  | 1 => go (negb (rs1 =? rs2))
  | 4 => go (signed 32 rs1 <? signed 32 rs2)
  | 5 => go (signed 32 rs2 <=? signed 32 rs1)
  | 6 => go (rs1 <? rs2)
  | 7 => go (rs2 <=? rs1)
  | _ => mkL s 0 0 pc0 (2 + 1)
  end.

Definition op_load (s : CPUState) : option locals :=
  let rs1 := REG s rs1_field in
  let rsval := u32 (rs1 + imm_i) in
  let rsval := u32 (rsval - mem_offset s) in
  if u32 (mem_size s - 3) <=? rsval then
    let rsval := u32 (rsval + mem_offset s) in
    if (0x10000000 <=? rsval) && (rsval <? 0x12000000) then
      Some (mkL s rd_field (if rsval =? 0x1100bffc then TIMERH (csrs s)
                            else if rsval =? 0x1100bff8 then TIMERL (csrs s) else 0) pc0 0)
    else Some (mkL s rd_field rsval pc0 (5 + 1))
  else
    match funct3 with
    | 0 => v ← load s rsval 1; Some (mkL s rd_field (u32 (signed 8 v)) pc0 0)
    | 1 => v ← load s rsval 2; Some (mkL s rd_field (u32 (signed 16 v)) pc0 0)
    | 2 => v ← load s rsval 4; Some (mkL s rd_field v pc0 0)
    | 4 => v ← load s rsval 1; Some (mkL s rd_field v pc0 0)
    | 5 => v ← load s rsval 2; Some (mkL s rd_field v pc0 0)
    | _ => Some (mkL s rd_field 0 pc0 (2 + 1))
    end.

Definition op_store (s : CPUState) : option outcome :=
  let rs1 := REG s rs1_field in
  let rs2 := REG s rs2_field in
  let addy := Z.lor (Z.land (Z.shiftr ir 7) 0x1f) (Z.shiftr (Z.land ir 0xfe000000) 20) in
  let addy := if test addy 0x800 then Z.lor addy 0xfffff000 else addy in
  let addy := u32 (addy + u32 (rs1 - mem_offset s)) in
  if u32 (mem_size s - 3) <=? addy then
    let addy := u32 (addy + mem_offset s) in
    if (0x10000000 <=? addy) && (addy <? 0x12000000) then
      if addy =? 0x11004004 then Some (Go (mkL (on_csrs (set_TIMERMATCHH rs2) s) 0 0 pc0 0))
      else if addy =? 0x11004000 then Some (Go (mkL (on_csrs (set_TIMERMATCHL rs2) s) 0 0 pc0 0))
      else if addy =? 0x11100000 then Some (Ret (on_csrs (set_PC (u32 (pc0 + 4))) s) (signed 32 rs2))
      else Some (Go (mkL s 0 0 pc0 0))
    else Some (Go (mkL s 0 addy pc0 (7 + 1)))
  else
    match funct3 with
    | 0 => s ← store addy 1 rs2 s; Some (Go (mkL s 0 0 pc0 0))
    | 1 => s ← store addy 2 rs2 s; Some (Go (mkL s 0 0 pc0 0))
    | 2 => s ← store addy 4 rs2 s; Some (Go (mkL s 0 0 pc0 0))
    | _ => Some (Go (mkL s 0 0 pc0 (2 + 1)))
    end.

Definition INT32_MIN : Z := - 2 ^ 31.

(** The RV32M operations. *)
Definition muldiv (rs1 rs2 : Z) : Z :=
  let s1 := signed 32 rs1 in
  let s2 := signed 32 rs2 in
  match funct3 with
  | 0 => u32 (rs1 * rs2)
  | 1 => u32 (Z.shiftr (s1 * s2) 32)
  | 2 => u32 (Z.shiftr (u64 (s1 * rs2)) 32)
  | 3 => u32 (Z.shiftr (u64 (rs1 * rs2)) 32)
  | 4 => if rs2 =? 0 then u32 (-1)
         else if (s1 =? INT32_MIN) && (s2 =? -1) then rs1 else u32 (Z.quot s1 s2)
  | 5 => if rs2 =? 0 then 0xffffffff else rs1 / rs2
  | 6 => if rs2 =? 0 then rs1
         else if (s1 =? INT32_MIN) && (s2 =? -1) then 0 else u32 (Z.rem s1 s2)
  | _ => if rs2 =? 0 then rs1 else rs1 mod rs2
  end.

Definition arith (is_reg : bool) (rs1 rs2 : Z) : Z :=
  let s1 := signed 32 rs1 in
  let s2 := signed 32 rs2 in
  let sh := Z.land rs2 0x1f in
  match funct3 with
  | 0 => if is_reg && test ir 0x40000000 then u32 (rs1 - rs2) else u32 (rs1 + rs2)
  | 1 => u32 (Z.shiftl rs1 sh)
  | 2 => Z.b2z (s1 <? s2)
  | 3 => Z.b2z (rs1 <? rs2)
  | 4 => Z.lxor rs1 rs2
  | 5 => if test ir 0x40000000 then u32 (Z.shiftr s1 sh) else Z.shiftr rs1 sh
  | 6 => Z.lor rs1 rs2
  | _ => Z.land rs1 rs2
  end.

Definition op_alu (s : CPUState) : locals :=
  let imm := imm_i in
  let rs1 := REG s rs1_field in
  let is_reg := test ir 0x20 in
  let rs2 := if is_reg then REG s (Z.land imm 0x1f) else imm in
  mkL s rd_field (if is_reg && test ir 0x02000000 then muldiv rs1 rs2 else arith is_reg rs1 rs2) pc0 0.

(** *** Control and status registers *)

Definition csr_value (c : csr_file) (csrno : Z) : Z :=
  match csrno with
  | 0x340 => MSCRATCH c
  | 0x305 => MTVEC c
  | 0x304 => MIE c
  | 0xC00 => cycle
  | 0x344 => MIP c
  | 0x341 => MEPC c
  | 0x300 => MSTATUS c
  | 0x342 => MCAUSE c
  | 0x343 => MTVAL c
  | 0xf11 => 0xff0ff0ff
  | 0x301 => 0x40401101
  | _ => 0
  end.

Definition csr_assign (csrno writeval : Z) (c : csr_file) : csr_file :=
  match csrno with
  | 0x340 => set_MSCRATCH writeval c
  | 0x305 => set_MTVEC writeval c
  | 0x304 => set_MIE writeval c
  | 0x344 => set_MIP writeval c
  | 0x341 => set_MEPC writeval c
  | 0x300 => set_MSTATUS writeval c
  | 0x342 => set_MCAUSE writeval c
  | 0x343 => set_MTVAL writeval c
  | _ => c
  end.

Definition op_csr (csrno microop : Z) (s : CPUState) : locals :=
  let rs1imm := rs1_field in
  let rs1 := REG s rs1imm in
  let rval := csr_value (csrs s) csrno in
  let writeval :=
    match microop with
    | 1 => rs1
    | 2 => Z.lor rval rs1
    | 3 => Z.land rval (not32 rs1)
    | 5 => rs1imm
    | 6 => Z.lor rval rs1imm
    | 7 => Z.land rval (not32 rs1imm)
    | _ => rs1
    end in
  mkL (on_csrs (csr_assign csrno writeval) s) rd_field rval pc0 0.

(** What MRET does to [MSTATUS] and [EXTRAFLAGS]. *)
Definition mret_csrs (c : csr_file) : csr_file :=
  let startmstatus := MSTATUS c in
  let startextraflags := EXTRAFLAGS c in
  let c := set_MSTATUS (Z.lor (Z.lor (Z.shiftr (Z.land startmstatus 0x80) 4)
             (u32 (Z.shiftl (Z.land startextraflags 3) 11))) 0x80) c in
  set_EXTRAFLAGS (Z.lor (Z.land startextraflags (not32 3)) (Z.land (Z.shiftr startmstatus 11) 3)) c.

Definition op_system (s : CPUState) : outcome :=
  let csrno := Z.shiftr ir 20 in
  let microop := funct3 in
  if test microop 3 then Go (op_csr csrno microop s)
  else if microop =? 0 then
    if csrno =? 0x105 then
      Ret (on_csrs (fun c => set_PC (u32 (pc0 + 4))
             (set_EXTRAFLAGS (Z.lor (EXTRAFLAGS c) 4) (set_MSTATUS (Z.lor (MSTATUS c) 8) c))) s) 1
    else if Z.land csrno 0xff =? 0x02 then
      Go (mkL (on_csrs mret_csrs s) 0 0 (u32 (MEPC (csrs s) - 4)) 0)
    else
      Go (mkL s 0 0 pc0
        match csrno with
        | 0 => if test (EXTRAFLAGS (csrs s)) 3 then 11 + 1 else 8 + 1
        | 1 => 3 + 1
        | _ => 2 + 1
        end)
  else Go (mkL s rd_field 0 pc0 (2 + 1)).

(** *** RV32A *)

(** The value to write and whether to write it; the trap; [rval]; the
    reservation kept in [EXTRAFLAGS]. *)
Definition amo_op (irmid rs1 rs2 rval : Z) (s : CPUState) : CPUState * Z * Z * bool * Z :=
  match irmid with
  | 2 => (on_csrs (fun c => set_EXTRAFLAGS
            (Z.lor (Z.land (EXTRAFLAGS c) 0x07) (u32 (Z.shiftl rs1 3))) c) s, rval, rs2, false, 0)
  | 3 =>
      let fail := negb (Z.shiftr (EXTRAFLAGS (csrs s)) 3 =? Z.land rs1 0x1fffffff) in
      (s, Z.b2z fail, rs2, negb fail, 0)
  | 1 => (s, rval, rs2, true, 0)
  | 0 => (s, rval, u32 (rs2 + rval), true, 0)
  | 4 => (s, rval, Z.lxor rs2 rval, true, 0)
  | 12 => (s, rval, Z.land rs2 rval, true, 0)
  | 8 => (s, rval, Z.lor rs2 rval, true, 0)
  | 16 => (s, rval, if signed 32 rs2 <? signed 32 rval then rs2 else rval, true, 0)
  | 20 => (s, rval, if signed 32 rval <? signed 32 rs2 then rs2 else rval, true, 0)
  | 24 => (s, rval, if rs2 <? rval then rs2 else rval, true, 0)
  | 28 => (s, rval, if rval <? rs2 then rs2 else rval, true, 0)
  | _ => (s, rval, rs2, false, 2 + 1)
  end.

Definition op_amo (s : CPUState) : option locals :=
  let rs1 := REG s rs1_field in
  let rs2 := REG s rs2_field in
  let irmid := Z.land (Z.shiftr ir 27) 0x1f in
  let rs1 := u32 (rs1 - mem_offset s) in
  if u32 (mem_size s - 3) <=? rs1 then
    Some (mkL s rd_field (u32 (rs1 + mem_offset s)) pc0 (7 + 1))
  else
    rval ← load s rs1 4;
    let '(s, rval, rs2, dowrite, trap) := amo_op irmid rs1 rs2 rval s in
    s ← (if dowrite : bool then store rs1 4 rs2 s else Some s);
    Some (mkL s rd_field rval pc0 trap).

(** The [switch] on the opcode. *)
Definition execute (s : CPUState) : option outcome :=
  match Z.land ir 0x7f with
  | 0x37 => Some (Go (mkL s rd_field (Z.land ir 0xfffff000) pc0 0))
  | 0x17 => Some (Go (mkL s rd_field (u32 (pc0 + Z.land ir 0xfffff000)) pc0 0))
  | 0x6f => Some (Go (op_jal s))
  | 0x67 => Some (Go (op_jalr s))
  | 0x63 => Some (Go (op_branch s))
  | 0x03 => l ← op_load s; Some (Go l)
  | 0x23 => op_store s
  | 0x13 => Some (Go (op_alu s))
  | 0x33 => Some (Go (op_alu s))
  | 0x0f => Some (Go (mkL s 0 0 pc0 0))
  | 0x73 => Some (op_system s)
  | 0x2f => l ← op_amo s; Some (Go l)
  | _ => Some (Go (mkL s rd_field 0 pc0 (2 + 1)))
  end.

End Step.

(** ** One step *)

(** The counter and the comparison with [timermatch]. *)
Definition timer_tick (elapsedUs : Z) (c : csr_file) : csr_file :=
  let new_timer := u32 (TIMERL c + elapsedUs) in
  let c := if new_timer <? TIMERL c then set_TIMERH (u32 (TIMERH c + 1)) c else c in
  let c := set_TIMERL new_timer c in
  let timer := Z.lor (u64 (Z.shiftl (TIMERH c) 32)) (TIMERL c) in
  let timermatch := Z.lor (u64 (Z.shiftl (TIMERMATCHH c) 32)) (TIMERMATCHL c) in
  if (negb (TIMERMATCHH c =? 0) || negb (TIMERMATCHL c =? 0)) && (timermatch <? timer)
  then set_MIP (Z.lor (MIP c) (Z.shiftl 1 7)) (set_EXTRAFLAGS (Z.land (EXTRAFLAGS c) (not32 4)) c)
  else set_MIP (Z.land (MIP c) (not32 (Z.shiftl 1 7))) c.

(** From the label [cycle_end]. *)
Definition take_trap (trap rval pc : Z) (c : csr_file) : Z * csr_file :=
  if trap =? 0 then (pc, c)
  else
    let '(pc, c) :=
      if test trap 0x80000000 then (u32 (pc + 4), set_MTVAL 0 (set_MCAUSE trap c))
      else (pc, set_MTVAL (if (5 <? trap) && (trap <=? 8) then rval else pc)
                  (set_MCAUSE (u32 (trap - 1)) c)) in
    let c := set_MEPC pc c in
    let c := set_MSTATUS (Z.lor (u32 (Z.shiftl (Z.land (MSTATUS c) 0x08) 4))
               (u32 (Z.shiftl (Z.land (EXTRAFLAGS c) 3) 11))) c in
    let pc := u32 (MTVEC c - 4) in
    let c := set_EXTRAFLAGS (Z.lor (EXTRAFLAGS c) 3) c in
    (u32 (pc + 4), c).

Definition cycle_end (trap rval pc cycle : Z) (s : CPUState) : CPUState * Z :=
  let '(pc, c) := take_trap trap rval pc (csrs s) in
  let c := if cycle <? CYCLEL c then set_CYCLEH (u32 (CYCLEH c + 1)) c else c in
  (on_csrs (fun _ => set_PC pc (set_CYCLEL cycle c)) s, 0).

(** After the [switch]. *)
Definition writeback (cycle : Z) (l : locals) : CPUState * Z :=
  if negb (trap l =? 0) then cycle_end (trap l) (rval l) (pc l) cycle (l_st l)
  else
    let s := if negb (rdid l =? 0) then set_REG (rdid l) (rval l) (l_st l) else l_st l in
    cycle_end 0 (rval l) (u32 (pc l + 4)) cycle s.

Definition rv32ima_step (s : CPUState) (elapsedUs : Z) : option (CPUState * Z) :=
  let s := on_csrs (timer_tick elapsedUs) s in
  let c := csrs s in
  if test (EXTRAFLAGS c) 4 then Some (s, 1)
  else
    let pc := PC c in
    let cycle := CYCLEL c in
    if test (MIP c) (Z.shiftl 1 7) && test (MIE c) (Z.shiftl 1 7) && test (MSTATUS c) 0x8 then
      Some (cycle_end 0x80000007 0 (u32 (pc - 4)) cycle s)
    else
      let cycle := u32 (cycle + 1) in
      let ofs_pc := u32 (pc - mem_offset s) in
      if mem_size s <=? ofs_pc then Some (cycle_end (1 + 1) 0 pc cycle s)
      else if test ofs_pc 3 then Some (cycle_end (1 + 0) 0 pc cycle s)
      else
        ir ← load s ofs_pc 4;
        o ← execute ir pc cycle s;
        match o with
        | Ret s r => Some (s, r)
        | Go l => Some (writeback cycle l)
        end.
