(* ===== verification/Rv32imaSafe.v ===== *)
(** * The emulator stays inside its machine

    Types of the emulated state and the proof that a step of any instruction
    word, legal or not, keeps them and touches no memory of the host but the
    machine's. *)

From S2P Require Import Prelude Rv32ima.

(** ** Words *)

Definition word (z : Z) : Prop := 0 <= z < 2 ^ 32.

Lemma word_wrap z : word (u32 z).
Proof. apply wrap_range. lia. Qed.

Lemma word_bits z : 0 <= z -> (forall i, 32 <= i -> Z.testbit z i = false) -> word z.
Proof.
  intros Hz Hb. split; [done|]. destruct (decide (z = 0)) as [-> |Hne]; [done|].
  apply Z.log2_lt_pow2; [lia|]. destruct (Z_lt_le_dec (Z.log2 z) 32) as [|H]; [done|].
  specialize (Hb _ H). by rewrite Z.bit_log2 in Hb by lia.
Qed.

Lemma word_high z i : word z -> 32 <= i -> Z.testbit z i = false.
Proof. apply bits_above. Qed.

Lemma word_lor x y : word x -> word y -> word (Z.lor x y).
Proof.
  intros Hx Hy. apply word_bits; [apply Z.lor_nonneg; unfold word in *; lia|].
  intros i Hi. by rewrite Z.lor_spec, !word_high.
Qed.

Lemma word_lxor x y : word x -> word y -> word (Z.lxor x y).
Proof.
  intros Hx Hy. apply word_bits; [apply Z.lxor_nonneg; unfold word in *; lia|].
  intros i Hi. by rewrite Z.lxor_spec, !word_high.
Qed.

Lemma word_land_l x y : word x -> word (Z.land x y).
Proof.
  intros Hx. apply word_bits; [apply Z.land_nonneg; unfold word in *; lia|].
  intros i Hi. by rewrite Z.land_spec, word_high.
Qed.

Lemma word_land_r x y : word y -> word (Z.land x y).
Proof. intros. rewrite Z.land_comm. by apply word_land_l. Qed.

Lemma word_shiftr x k : 0 <= k -> word x -> word (Z.shiftr x k).
Proof.
  intros Hk Hx. apply word_bits; [apply Z.shiftr_nonneg; unfold word in *; lia|].
  intros i Hi. rewrite Z.shiftr_spec by lia. apply word_high; [done|lia].
Qed.

Lemma word_b2z b : word (Z.b2z b).
Proof. by destruct b. Qed.

Lemma word_div x y : word x -> 0 < y -> word (x / y).
Proof.
  unfold word. intros Hx Hy. split; [apply Z.div_pos; lia|].
  apply Z.le_lt_trans with x; [|lia]. apply Z.div_le_upper_bound; [lia|]. nia.
Qed.

Lemma word_mod x y : word y -> 0 < y -> word (x mod y).
Proof. unfold word. intros Hx Hy. pose proof (Z.mod_pos_bound x y). lia. Qed.

Lemma word_if (b : bool) x y : word x -> word y -> word (if b then x else y).
Proof. by destruct b. Qed.

Create HintDb rv discriminated.
#[export] Hint Resolve word_wrap word_lor word_lxor word_land_r word_land_l word_shiftr word_b2z word_if : rv.
#[export] Hint Extern 2 (word (Zpos _)) => (unfold word; lia) : rv.
#[export] Hint Extern 2 (word Z0) => (unfold word; lia) : rv.
#[export] Hint Extern 2 (word (Zpos _ + Zpos _)) => (unfold word; lia) : rv.
#[export] Hint Extern 2 (word (Zpos _ + Z0)) => (unfold word; lia) : rv.
#[export] Hint Extern 2 (0 <= _) => lia : rv.

Lemma word_signed z : word z -> - 2 ^ 31 <= signed 32 z < 2 ^ 31.
Proof. unfold word, signed. intros. change (32 - 1) with 31. zcases; lia. Qed.

(** ** The types of the state *)

Definition csr_list (c : csr_file) : list Z :=
  [PC c; MSTATUS c; CYCLEL c; CYCLEH c; TIMERL c; TIMERH c; TIMERMATCHL c; TIMERMATCHH c; MSCRATCH c;
   MTVEC c; MIE c; MIP c; MEPC c; MTVAL c; MCAUSE c; EXTRAFLAGS c].

Definition csr_ok (c : csr_file) : Prop := Forall word (csr_list c).

Record cpu_ok (s : CPUState) : Prop := {
  ok_len : length (regs s) = 32%nat;
  ok_regs : Forall word (regs s);
  ok_zero : REG s 0 = 0;
  ok_csr : csr_ok (csrs s);
  ok_mem : mem_ok (mem_bytes s);
  ok_offset : word (mem_offset s);
  ok_size : 4 <= mem_size s < 2 ^ 32;
  ok_align : mem_size s mod 4 = 0;
}.

(** Only the bytes of the machine change, and it stays where it is. *)
Definition frame (s s' : CPUState) : Prop :=
  mem_offset s' = mem_offset s /\ mem_size s' = mem_size s /\
  forall a, a < 0 \/ mem_size s <= a -> mem_bytes s' a = mem_bytes s a.

Definition keeps (s s' : CPUState) : Prop := cpu_ok s' /\ frame s s'.

Lemma frame_trans s1 s2 s3 : frame s1 s2 -> frame s2 s3 -> frame s1 s3.
Proof.
  intros (O1 & S1 & M1) (O2 & S2 & M2). split_and!; [congruence|congruence|].
  intros a Ha. rewrite M2, M1; [done|done|by rewrite S1].
Qed.

Lemma keeps_refl s : cpu_ok s -> keeps s s.
Proof. by split. Qed.

Lemma keeps_trans s1 s2 s3 : keeps s1 s2 -> keeps s2 s3 -> keeps s1 s3.
Proof. intros [_ F1] [C2 F2]. split; [done|by eapply frame_trans]. Qed.

Lemma csr_ok_iff c : csr_ok c <-> word (PC c) /\ word (MSTATUS c) /\ word (CYCLEL c) /\ word (CYCLEH c) /\
  word (TIMERL c) /\ word (TIMERH c) /\ word (TIMERMATCHL c) /\ word (TIMERMATCHH c) /\ word (MSCRATCH c) /\
  word (MTVEC c) /\ word (MIE c) /\ word (MIP c) /\ word (MEPC c) /\ word (MTVAL c) /\ word (MCAUSE c) /\
  word (EXTRAFLAGS c).
Proof. unfold csr_ok, csr_list. rewrite !Forall_cons, Forall_nil. tauto. Qed.

(** Solve [csr_ok] of an updated record from that of the original. *)
Ltac csr_solve :=
  repeat match goal with H : csr_ok _ |- _ => apply csr_ok_iff in H as (?&?&?&?&?&?&?&?&?&?&?&?&?&?&?&?) end;
  apply csr_ok_iff; cbn; split_and!; eauto with rv.

Lemma keeps_csrs f s : cpu_ok s -> (csr_ok (csrs s) -> csr_ok (f (csrs s))) -> keeps s (on_csrs f s).
Proof. intros [] H. split; [split; cbn; auto|done]. Qed.

Lemma reg_word s i : cpu_ok s -> word (REG s i).
Proof.
  intros C. unfold REG. destruct (lt_dec (Z.to_nat i) (length (regs s))) as [H|H].
  - apply (Forall_nth word 0 (regs s)) in H; [done|]. apply C.
  - rewrite nth_overflow by lia. done.
Qed.

#[export] Hint Resolve reg_word : rv.

Lemma nth_insert (l : list Z) i j v d :
  nth j (<[i := v]> l) d = if decide (i = j /\ (j < length l)%nat) then v else nth j l d.
Proof.
  rewrite !nth_lookup. case_decide as H.
  - destruct H as [-> H]. by rewrite list_lookup_insert_eq.
  - destruct (decide (i = j)) as [-> |]; [|by rewrite list_lookup_insert_ne].
    by rewrite list_insert_ge by lia.
Qed.

Lemma keeps_REG i v s : cpu_ok s -> 0 < i < 32 -> word v -> keeps s (set_REG i v s).
Proof.
  intros [] Hi Hv. split; [|done]. split; cbn; try done.
  - by rewrite length_insert.
  - by apply Forall_insert.
  - unfold REG in *. cbn [regs set_REG]. rewrite nth_insert. case_decide as H; [lia|done].
Qed.

(** ** Memory *)

Lemma load_ok s ofs n : cpu_ok s -> 0 <= ofs -> ofs + Z.of_nat n <= mem_size s ->
  exists v, load s ofs n = Some v /\ 0 <= v < 2 ^ (8 * Z.of_nat n).
Proof.
  intros C H0 Hn. unfold load. eexists. split; [by zcases; try lia|]. apply load_le_range, C.
Qed.

Lemma store_ok s ofs n v : cpu_ok s -> 0 <= ofs -> ofs + Z.of_nat n <= mem_size s ->
  exists s', store ofs n v s = Some s' /\ keeps s s' /\ csrs s' = csrs s /\ regs s' = regs s.
Proof.
  intros [] H0 Hn. unfold store. eexists. split; [by zcases; try lia|]. split; [|done].
  split; [split; cbn; try done; by apply store_le_ok|].
  split_and!; try done. intros a Ha. apply store_le_other. lia.
Qed.

(** The bound of the emulator leaves room for four bytes. *)
Lemma in_ram s ofs : cpu_ok s -> word ofs -> (u32 (mem_size s - 3) <=? ofs) = false ->
  0 <= ofs /\ ofs + 4 <= mem_size s.
Proof.
  intros C Hofs Hb. pose proof (ok_size s C). unfold word in *. rewrite wrap_small in Hb by lia.
  apply Z.leb_gt in Hb. lia.
Qed.

(** ** Instructions *)

(** The local variables after the [switch]. *)
Definition locals_ok (s : CPUState) (l : locals) : Prop :=
  keeps s (l_st l) /\ 0 <= rdid l < 32 /\ word (rval l) /\ word (pc l) /\ word (trap l).

Definition outcome_ok (s : CPUState) (o : outcome) : Prop :=
  match o with Go l => locals_ok s l | Ret s' r => keeps s s' /\ - 2 ^ 31 <= r < 2 ^ 31 end.

Lemma five_bits x : 0 <= x -> 0 <= Z.land x 0x1f < 32.
Proof.
  intros Hx. change 0x1f with (Z.ones 5). rewrite Z.land_ones by lia. by apply Z.mod_pos_bound.
Qed.

Section Instr.
Variables (ir pc0 cycle : Z) (s : CPUState).
Hypothesis C : cpu_ok s.
Hypothesis Hir : word ir.
Hypothesis Hpc : word pc0.
Hypothesis Hcy : word cycle.

Lemma rd_field_ok : 0 <= rd_field ir < 32.
Proof. apply five_bits, Z.shiftr_nonneg. unfold word in *. lia. Qed.

Lemma imm_i_word : word (imm_i ir).
Proof. unfold imm_i. auto 6 with rv. Qed.

Ltac local_solve := split_and!; cbn [l_st rdid rval pc trap];
  first [by apply keeps_refl | apply rd_field_ok | lia | solve [auto 6 with rv] | idtac].

Lemma branch_ok : locals_ok s (op_branch ir pc0 s).
Proof. unfold op_branch. cbv zeta. repeat case_match; local_solve. Qed.

Lemma jal_ok : locals_ok s (op_jal ir pc0 s).
Proof. unfold op_jal. local_solve. Qed.

Lemma jalr_ok : locals_ok s (op_jalr ir pc0 s).
Proof. unfold op_jalr. local_solve. Qed.

Lemma csr_field_word (f : csr_file -> Z) : In f [TIMERH; TIMERL] -> word (f (csrs s)).
Proof.
  pose proof (ok_csr s C) as H. apply csr_ok_iff in H as (?&?&?&?&?&?&?&?&?&?&?&?&?&?&?&?).
  cbn. intros [<- |[<- |[]]]; done.
Qed.

Lemma load_instr_ok : exists l, op_load ir pc0 s = Some l /\ locals_ok s l.
Proof.
  unfold op_load. cbv zeta. set (a := u32 (u32 (REG s (rs1_field ir) + imm_i ir) - mem_offset s)).
  destruct (u32 (mem_size s - 3) <=? a) eqn:Eb.
  - destruct (_ && _); eexists; (split; [done|]); local_solve.
    repeat case_match; auto with rv; apply csr_field_word; cbn; auto.
  - destruct (in_ram s a C (word_wrap _) Eb) as [H0 H4].
    assert (forall n, (n <= 4)%nat -> exists v, load s a n = Some v /\ 0 <= v < 2 ^ (8 * Z.of_nat n)) as Hl.
    { intros n Hn. apply load_ok; [done|done|lia]. }
    repeat case_match; try (eexists; split; [done|]; local_solve).
    all: match goal with |- context [load _ _ ?n] => destruct (Hl n) as (v & -> & Hv); [lia|] end;
      rewrite some_bind; eexists; (split; [done|]); local_solve.
    all: unfold word; change (8 * Z.of_nat 4) with 32 in *; change (8 * Z.of_nat 1) with 8 in *;
      change (8 * Z.of_nat 2) with 16 in *; lia.
Qed.

Lemma store_instr_ok : exists o, op_store ir pc0 s = Some o /\ outcome_ok s o.
Proof.
  unfold op_store. cbv zeta. set (a := u32 (_ + u32 (REG s (rs1_field ir) - mem_offset s))).
  assert (word (REG s (rs2_field ir))) as H2 by auto with rv.
  destruct (u32 (mem_size s - 3) <=? a) eqn:Eb.
  - repeat case_match; eexists; (split; [done|]); cbn [outcome_ok]; try local_solve.
    all: try (apply keeps_csrs; [done|]; intros; csr_solve).
    all: by apply word_signed.
  - destruct (in_ram s a C (word_wrap _) Eb) as [H0 H4].
    repeat case_match; try (eexists; split; [done|]; local_solve).
    all: match goal with |- context [store ?a ?n ?v ?s] =>
      destruct (store_ok s a n v) as (s' & -> & Hk & _); [done|done|lia|] end;
      rewrite some_bind; eexists; (split; [done|]); local_solve.
Qed.

Lemma muldiv_word f x y : word x -> word y -> word (muldiv f x y).
Proof.
  intros Hx Hy. unfold muldiv. cbv zeta.
  repeat case_match; auto with rv; try (apply word_div || apply word_mod); try done; unfold word in *;
    match goal with H : (_ =? 0) = false |- _ => apply Z.eqb_neq in H | _ => idtac end; try lia.
Qed.

Lemma arith_word b x y : word x -> word y -> word (arith ir b x y).
Proof.
  intros Hx Hy. unfold arith. cbv zeta. assert (0 <= Z.land y 31) by (apply Z.land_nonneg; lia).
  repeat case_match; auto with rv.
Qed.

Lemma alu_ok : locals_ok s (op_alu ir pc0 s).
Proof.
  unfold op_alu. cbv zeta. pose proof imm_i_word. local_solve.
  destruct (_ && _); [apply muldiv_word|apply arith_word]; auto with rv.
Qed.

Lemma csr_value_word n : word (csr_value cycle (csrs s) n).
Proof.
  pose proof (ok_csr s C) as H. apply csr_ok_iff in H as (?&?&?&?&?&?&?&?&?&?&?&?&?&?&?&?).
  unfold csr_value. repeat case_match; auto with rv.
Qed.

Lemma csr_assign_ok n v c : word v -> csr_ok c -> csr_ok (csr_assign n v c).
Proof. intros Hv Hc. unfold csr_assign. repeat case_match; try done; csr_solve. Qed.

Lemma csr_instr_ok n m : locals_ok s (op_csr ir pc0 cycle n m s).
Proof.
  unfold op_csr. cbv zeta. pose proof (csr_value_word n) as Hr.
  assert (word (rs1_field ir)) as Hi by (unfold rs1_field; auto with rv).
  local_solve. apply keeps_csrs; [done|]. intros Hc. apply csr_assign_ok; [|done].
  unfold not32. repeat case_match; auto with rv.
Qed.

Lemma mret_ok c : csr_ok c -> csr_ok (mret_csrs c).
Proof. intros Hc. unfold mret_csrs, not32. csr_solve. Qed.

Lemma system_ok : outcome_ok s (op_system ir pc0 cycle s).
Proof.
  unfold op_system. cbv zeta. destruct (test _ _); [apply csr_instr_ok|].
  destruct (_ =? 0); [|cbn; local_solve]. destruct (_ =? _).
  - split; [|lia]. apply keeps_csrs; [done|]. intros Hc. csr_solve.
  - destruct (_ =? _); cbn [outcome_ok].
    + local_solve. apply keeps_csrs; [done|]. apply mret_ok.
    + local_solve. repeat case_match; auto with rv.
Qed.

Lemma amo_op_ok id a b v : word a -> word b -> word v ->
  let '(s', v', b', w, t) := amo_op id a b v s in keeps s s' /\ word v' /\ word b' /\ word t.
Proof.
  intros Ha Hb Hv. unfold amo_op. cbv zeta.
  repeat case_match; simplify_eq; split_and!; try (by apply keeps_refl); auto with rv.
  all: apply keeps_csrs; [done|]; intros Hc; csr_solve.
Qed.

Lemma amo_ok : exists l, op_amo ir pc0 s = Some l /\ locals_ok s l.
Proof.
  unfold op_amo. cbv zeta. set (a := u32 (REG s (rs1_field ir) - mem_offset s)).
  destruct (u32 (mem_size s - 3) <=? a) eqn:Eb; [eexists; split; [done|]; local_solve|].
  destruct (in_ram s a C (word_wrap _) Eb) as [H0 H4].
  destruct (load_ok s a 4) as (v & -> & Hv); [done|done|lia|]. rewrite some_bind.
  pose proof (amo_op_ok (Z.land (Z.shiftr ir 27) 0x1f) a (REG s (rs2_field ir)) v (word_wrap _)
    (reg_word s _ C) Hv) as H.
  destruct (amo_op _ _ _ _ _) as [[[[s' v'] b'] w] t]. destruct H as (Hk & Hv' & Hb & Ht).
  assert (exists s2, (if w then store a 4 b' s' else Some s') = Some s2 /\ keeps s s2) as (s2 & -> & Hk2).
  { destruct w; [|by exists s']. destruct Hk as [C' F].
    destruct (store_ok s' a 4 b') as (s2 & -> & K & _); [done|done|destruct F as (_ & -> & _); lia|].
    exists s2. split; [done|]. by apply (keeps_trans s s'). }
  rewrite some_bind. eexists. split; [done|]. local_solve.
Qed.

Lemma execute_ok : exists o, execute ir pc0 cycle s = Some o /\ outcome_ok s o.
Proof.
  assert (forall o, (exists l, o = Some l /\ locals_ok s l) ->
    exists o', (l ← o; Some (Go l)) = Some o' /\ outcome_ok s o') as Hgo.
  { intros o (l & -> & Hl). by exists (Go l). }
  unfold execute. repeat case_match.
  all: match goal with
    | |- context [op_store] => exact store_instr_ok
    | |- context [op_load] => apply Hgo, load_instr_ok
    | |- context [op_amo] => apply Hgo, amo_ok
    | |- _ => eexists; split; [done|]
    end.
  all: match goal with
    | |- context [op_jal] => apply jal_ok
    | |- context [op_jalr] => apply jalr_ok
    | |- context [op_branch] => apply branch_ok
    | |- context [op_alu] => apply alu_ok
    | |- context [op_system] => apply system_ok
    | |- _ => cbn [outcome_ok]; local_solve
    end.
Qed.

End Instr.

(** ** Steps *)

Lemma timer_ok e c : word e -> csr_ok c -> csr_ok (timer_tick e c).
Proof.
  intros He Hc. unfold timer_tick, not32. cbv zeta. repeat case_match; csr_solve.
  all: apply word_lor; [done|by vm_compute].
Qed.

Lemma cycle_end_ok t r p cy s : cpu_ok s -> word t -> word r -> word p -> word cy ->
  keeps s (cycle_end t r p cy s).1 /\ (cycle_end t r p cy s).2 = 0.
Proof.
  intros C Ht Hr Hp Hcy. unfold cycle_end.
  assert (word (take_trap t r p (csrs s)).1 /\ csr_ok (take_trap t r p (csrs s)).2) as [Hw Hc].
  { pose proof (ok_csr s C) as Hc. unfold take_trap. cbv zeta.
    destruct (t =? 0); [done|]. destruct (test t _); cbn [fst snd].
    all: split; [auto with rv|]; csr_solve. }
  destruct (take_trap t r p (csrs s)) as [p' c]. cbn [fst snd] in *. split; [|done].
  apply keeps_csrs; [done|]. intros _. destruct (_ <? _); csr_solve.
Qed.

Lemma writeback_ok s l cy : locals_ok s l -> word cy ->
  keeps s (writeback cy l).1 /\ (writeback cy l).2 = 0.
Proof.
  intros (Hk & Hrd & Hv & Hp & Ht) Hcy. unfold writeback. destruct Hk as [C F].
  destruct (negb (trap l =? 0)).
  { destruct (cycle_end_ok (trap l) (rval l) (pc l) cy (l_st l)) as [K E]; try done.
    split; [|done]. by apply (keeps_trans s (l_st l)). }
  set (s1 := if negb (rdid l =? 0) then _ else _).
  assert (keeps (l_st l) s1) as K1.
  { unfold s1. destruct (Z.eqb_spec (rdid l) 0); [by apply keeps_refl|]. apply keeps_REG; [done|lia|done]. }
  destruct (cycle_end_ok 0 (rval l) (u32 (pc l + 4)) cy s1) as [K E]; auto with rv; [apply K1|].
  split; [|done]. apply (keeps_trans s (l_st l)); [done|]. by apply (keeps_trans _ s1).
Qed.

Lemma step_keeps s e : cpu_ok s -> word e ->
  exists s' r, rv32ima_step s e = Some (s', r) /\ keeps s s' /\ - 2 ^ 31 <= r < 2 ^ 31.
Proof.
  intros C0 He. unfold rv32ima_step. cbv zeta. set (s1 := on_csrs (timer_tick e) s).
  assert (keeps s s1) as K1 by (apply keeps_csrs; [done|]; by apply timer_ok).
  destruct K1 as [C F]. pose proof (ok_csr s1 C) as Hc.
  apply csr_ok_iff in Hc as (Hpc&?&Hcy&?&?&?&?&?&?&?&?&?&?&?&?&?).
  assert (forall o : CPUState * Z, keeps s1 o.1 /\ o.2 = 0 ->
    exists s' r, Some o = Some (s', r) /\ keeps s s' /\ - 2 ^ 31 <= r < 2 ^ 31) as Hend.
  { intros [s' r] [K E]. cbn in *. exists s', r. split; [done|]. split; [by apply (keeps_trans s s1)|lia]. }
  destruct (test _ 4); [exists s1, 1; split; [done|]; split; [by split|lia]|].
  destruct (_ && _); [apply Hend, cycle_end_ok; auto with rv|].
  destruct (Z.leb_spec (mem_size s1) (u32 (PC (csrs s1) - mem_offset s1))) as [|Hlt];
    [apply Hend, cycle_end_ok; auto with rv|].
  destruct (test _ 3) eqn:E3; [apply Hend, cycle_end_ok; auto with rv|].
  set (ofs := u32 (PC (csrs s1) - mem_offset s1)) in *. assert (word ofs) as Hofs by apply word_wrap.
  assert (ofs + 4 <= mem_size s1) as Hin.
  { unfold test in E3. rewrite negb_false_iff, Z.eqb_eq in E3. change 3 with (Z.ones 2) in E3.
    rewrite Z.land_ones in E3 by lia. change (2 ^ 2) with 4 in E3. pose proof (ok_align s1 C).
    pose proof (Z.div_mod ofs 4). pose proof (Z.div_mod (mem_size s1) 4). lia. }
  destruct (load_ok s1 ofs 4) as (ir & -> & Hir); [done|unfold word in Hofs; lia|done|]. rewrite some_bind.
  destruct (execute_ok ir (PC (csrs s1)) (u32 (CYCLEL (csrs s1) + 1)) s1) as (o & -> & Ho); auto with rv.
  rewrite some_bind. destruct o as [l|s' r].
  - apply Hend, writeback_ok; auto with rv.
  - destruct Ho as [K Hr]. exists s', r. split; [done|]. split; [by apply (keeps_trans s s1)|done].
Qed.

(** C20: one step of the emulator on any memory image, be the next word an
    instruction or not, returns; the registers and control registers stay 32-bit
    words and [x0] stays 0, every access to the memory of the host lies inside
    the machine's memory, which is all that changes, and the result is an [int]. *)
Theorem rv32ima_step_safe s elapsedUs :
  cpu_ok s -> word elapsedUs ->
  exists s' r, rv32ima_step s elapsedUs = Some (s', r) /\ cpu_ok s' /\
    mem_offset s' = mem_offset s /\ mem_size s' = mem_size s /\
    (forall a, a < 0 \/ mem_size s <= a -> mem_bytes s' a = mem_bytes s a) /\
    - 2 ^ 31 <= r < 2 ^ 31.
Proof.
  intros C He. destruct (step_keeps s elapsedUs C He) as (s' & r & E & [C' (Fo & Fs & Fm)] & Hr).
  exists s', r. do 4 (split; [done|]). by split.
Qed.

(** A machine of 64 bytes whose first word is [sw x1, 0(x2)] with [x2] beyond its
    end. *)
Definition demo_cpu : CPUState :=
  mkCPU (0 :: 7 :: 0x80001000 :: replicate 29 0) (mkCsr 0x80000000 0 0 0 0 0 0 0 0 0x80000020 0 0 0 0 0 0)
    (store_le (fun _ => 0) 0 4 0x00112023) 0x80000000 64.

Lemma demo_cpu_ok : cpu_ok demo_cpu.
Proof.
  assert (forall l, bool_decide (Forall (fun z => 0 <= z < 2 ^ 32) l) = true -> Forall word l) as Hw.
  { intros l. apply bool_decide_eq_true_1. }
  split.
  - reflexivity.
  - apply Hw. vm_compute. reflexivity.
  - reflexivity.
  - apply Hw. vm_compute. reflexivity.
  - apply store_le_ok. intros a. cbn. lia.
  - unfold word. cbn. lia.
  - cbn. lia.
  - reflexivity.
Qed.

Lemma rv32ima_step_safe_witness :
  exists s', rv32ima_step demo_cpu 1 = Some (s', 0) /\ cpu_ok s' /\ MCAUSE (csrs s') = 7.
Proof.
  destruct (rv32ima_step_safe demo_cpu 1 demo_cpu_ok) as (s' & r & E & C & _).
  - vm_compute. split; [discriminate|reflexivity].
  - exists s'. pose proof (f_equal (option_map (fun o => (o.2, MCAUSE (csrs o.1)))) E) as H.
    vm_compute in H. injection H as H1 H2. rewrite <- H1 in E. split; [exact E|]. split; [exact C|].
    symmetry. exact H2.
Defined.
