(* ===== verification/Rv32imaIsa.v ===== *)
(** * The emulator implements RV32IMA

    [instr] is the syntax of the instructions of RV32IMA with Zicsr, Zifencei, [mret]
    and [wfi], [encode] their words as the RISC-V manual lays them out, [isa_exec] what
    they do on this machine, and [isa_step] what a hart does in a step: it sleeps, takes
    the timer interrupt, faults on the fetch, or executes the instruction it fetches.
    The definitions share with the emulator's only the state and the setters of its
    registers.  The theorem at the end says that [rv32ima_step] does what [isa_step] does.

    Where the manual leaves choices (the devices, the value of [mtval], the control
    registers that exist) [isa_exec] takes the machine's.  Where the machine departs
    from the manual it follows the machine: a store-conditional keeps the reservation; a
    jump to an address that is not a multiple of 4 faults when the target is fetched; a
    load-reserved outside the RAM faults like a store; accesses need not be aligned, and
    none may start in the last three bytes of the RAM; no privilege is needed for control
    registers or [mret], and registers that do not exist read as zero; [mret] leaves the
    old mode in [MPP]; entering and leaving a trap clears the other bits of [MSTATUS];
    [wfi] enables interrupts. *)

From S2P Require Import Prelude RvBits Rv32ima Rv32imaSafe.

(** ** Syntax *)

Inductive bcond := BEQ | BNE | BLT | BGE | BLTU | BGEU.
Inductive lwidth := LB | LH | LW | LBU | LHU.
Inductive swidth := SB | SH | SW.
Inductive iop := ADDI | SLTI | SLTIU | XORI | ORI | ANDI.
Inductive shop := SLLI | SRLI | SRAI.
Inductive rop := ADD | SUB | SLL | SLT | SLTU | XOR | SRL | SRA | OR | AND.
Inductive mop := MUL | MULH | MULHSU | MULHU | DIV | DIVU | REM | REMU.
Inductive aop := AMOSWAP | AMOADD | AMOXOR | AMOAND | AMOOR | AMOMIN | AMOMAX | AMOMINU | AMOMAXU.
Inductive cop := CSRRW | CSRRS | CSRRC | CSRRWI | CSRRSI | CSRRCI.

Inductive instr :=
  | Lui (rd imm : Z)
  | Auipc (rd imm : Z)
  | Jal (rd ofs : Z)
  | Jalr (rd rs1 ofs : Z)
  | Branch (o : bcond) (rs1 rs2 ofs : Z)
  | Load (w : lwidth) (rd rs1 ofs : Z)
  | Store (w : swidth) (rs1 rs2 ofs : Z)
  | OpImm (o : iop) (rd rs1 imm : Z)
  | ShImm (o : shop) (rd rs1 shamt : Z)
  | Op (o : rop) (rd rs1 rs2 : Z)
  | MulDiv (o : mop) (rd rs1 rs2 : Z)
  | Amo (o : aop) (aqrl rd rs1 rs2 : Z)
  | LoadReserved (aqrl rd rs1 : Z)
  | StoreCond (aqrl rd rs1 rs2 : Z)
  | Fence (fm rd rs1 : Z)
  | FenceI (imm rd rs1 : Z)
  | Csr (o : cop) (csr rd rs1 : Z)
  | Ecall
  | Ebreak
  | Mret
  | Wfi.

(** ** Encoding *)

Definition enc_u (opcode rd imm20 : Z) : Z :=
  pack opcode rd (imm20 mod 8) (imm20 / 8 mod 32) (imm20 / 2 ^ 8 mod 32) (imm20 / 2 ^ 13).

(** imm[20|10:1|11|19:12] *)
Definition enc_j (opcode rd ofs : Z) : Z :=
  let u := ofs mod 2 ^ 21 in
  enc_u opcode rd (u / 2 ^ 12 mod 2 ^ 8 + 2 ^ 8 * (u / 2 ^ 11 mod 2) + 2 ^ 9 * (u / 2 mod 2 ^ 10)
                   + 2 ^ 19 * (u / 2 ^ 20)).

(** imm[12|10:5] and imm[4:1|11] *)
Definition enc_b (opcode funct3 rs1 rs2 imm : Z) : Z :=
  let u := imm mod 2 ^ 13 in
  pack opcode (u / 2 ^ 11 mod 2 + 2 * (u / 2 mod 16)) funct3 rs1 rs2 (u / 2 ^ 5 mod 64 + 64 * (u / 2 ^ 12)).

Definition bcond_f3 (o : bcond) : Z :=
  match o with BEQ => 0 | BNE => 1 | BLT => 4 | BGE => 5 | BLTU => 6 | BGEU => 7 end.
Definition lwidth_f3 (w : lwidth) : Z := match w with LB => 0 | LH => 1 | LW => 2 | LBU => 4 | LHU => 5 end.
Definition swidth_f3 (w : swidth) : Z := match w with SB => 0 | SH => 1 | SW => 2 end.
Definition iop_f3 (o : iop) : Z :=
  match o with ADDI => 0 | SLTI => 2 | SLTIU => 3 | XORI => 4 | ORI => 6 | ANDI => 7 end.
Definition shop_f3 (o : shop) : Z := match o with SLLI => 1 | SRLI | SRAI => 5 end.
Definition shop_f7 (o : shop) : Z := match o with SRAI => 32 | _ => 0 end.
Definition rop_f3 (o : rop) : Z :=
  match o with ADD | SUB => 0 | SLL => 1 | SLT => 2 | SLTU => 3 | XOR => 4 | SRL | SRA => 5 | OR => 6 | AND => 7 end.
Definition rop_f7 (o : rop) : Z := match o with SUB | SRA => 32 | _ => 0 end.
Definition mop_f3 (o : mop) : Z :=
  match o with MUL => 0 | MULH => 1 | MULHSU => 2 | MULHU => 3 | DIV => 4 | DIVU => 5 | REM => 6 | REMU => 7 end.
Definition aop_f5 (o : aop) : Z :=
  match o with AMOSWAP => 1 | AMOADD => 0 | AMOXOR => 4 | AMOAND => 12 | AMOOR => 8 | AMOMIN => 16
             | AMOMAX => 20 | AMOMINU => 24 | AMOMAXU => 28 end.
Definition cop_f3 (o : cop) : Z :=
  match o with CSRRW => 1 | CSRRS => 2 | CSRRC => 3 | CSRRWI => 5 | CSRRSI => 6 | CSRRCI => 7 end.

Definition encode (i : instr) : Z :=
  match i with
  | Lui rd imm => enc_u 0x37 rd imm
  | Auipc rd imm => enc_u 0x17 rd imm
  | Jal rd ofs => enc_j 0x6f rd ofs
  | Jalr rd rs1 ofs => enc_i 0x67 rd 0 rs1 ofs
  | Branch o rs1 rs2 ofs => enc_b 0x63 (bcond_f3 o) rs1 rs2 ofs
  | Load w rd rs1 ofs => enc_i 0x03 rd (lwidth_f3 w) rs1 ofs
  | Store w rs1 rs2 ofs => enc_s 0x23 (swidth_f3 w) rs1 rs2 ofs
  | OpImm o rd rs1 imm => enc_i 0x13 rd (iop_f3 o) rs1 imm
  | ShImm o rd rs1 shamt => pack 0x13 rd (shop_f3 o) rs1 shamt (shop_f7 o)
  | Op o rd rs1 rs2 => pack 0x33 rd (rop_f3 o) rs1 rs2 (rop_f7 o)
  | MulDiv o rd rs1 rs2 => pack 0x33 rd (mop_f3 o) rs1 rs2 1
  | Amo o aqrl rd rs1 rs2 => pack 0x2f rd 2 rs1 rs2 (4 * aop_f5 o + aqrl)
  | LoadReserved aqrl rd rs1 => pack 0x2f rd 2 rs1 0 (4 * 2 + aqrl)
  | StoreCond aqrl rd rs1 rs2 => pack 0x2f rd 2 rs1 rs2 (4 * 3 + aqrl)
  | Fence fm rd rs1 => enc_i 0x0f rd 0 rs1 fm
  | FenceI imm rd rs1 => enc_i 0x0f rd 1 rs1 imm
  | Csr o csr rd rs1 => enc_i 0x73 rd (cop_f3 o) rs1 csr
  | Ecall => enc_i 0x73 0 0 0 0
  | Ebreak => enc_i 0x73 0 0 0 1
  | Mret => enc_i 0x73 0 0 0 0x302
  | Wfi => enc_i 0x73 0 0 0 0x105
  end.

Definition reg_ok (r : Z) : Prop := 0 <= r < 32.
Definition imm12_ok (z : Z) : Prop := - 2 ^ 11 <= z < 2 ^ 11.

Definition instr_ok (i : instr) : Prop :=
  match i with
  | Lui rd imm | Auipc rd imm => reg_ok rd /\ 0 <= imm < 2 ^ 20
  | Jal rd ofs => reg_ok rd /\ - 2 ^ 20 <= ofs < 2 ^ 20 /\ ofs mod 2 = 0
  | Jalr rd rs1 ofs => reg_ok rd /\ reg_ok rs1 /\ imm12_ok ofs
  | Branch _ rs1 rs2 ofs => reg_ok rs1 /\ reg_ok rs2 /\ - 2 ^ 12 <= ofs < 2 ^ 12 /\ ofs mod 2 = 0
  | Load _ rd rs1 ofs => reg_ok rd /\ reg_ok rs1 /\ imm12_ok ofs
  | Store _ rs1 rs2 ofs => reg_ok rs1 /\ reg_ok rs2 /\ imm12_ok ofs
  | OpImm _ rd rs1 imm => reg_ok rd /\ reg_ok rs1 /\ imm12_ok imm
  | ShImm _ rd rs1 shamt => reg_ok rd /\ reg_ok rs1 /\ 0 <= shamt < 32
  | Op _ rd rs1 rs2 | MulDiv _ rd rs1 rs2 => reg_ok rd /\ reg_ok rs1 /\ reg_ok rs2
  | Amo _ aqrl rd rs1 rs2 | StoreCond aqrl rd rs1 rs2 =>
      reg_ok rd /\ reg_ok rs1 /\ reg_ok rs2 /\ 0 <= aqrl < 4
  | LoadReserved aqrl rd rs1 => reg_ok rd /\ reg_ok rs1 /\ 0 <= aqrl < 4
  | Fence fm rd rs1 | FenceI fm rd rs1 => reg_ok rd /\ reg_ok rs1 /\ imm12_ok fm
  | Csr _ csr rd rs1 => reg_ok rd /\ reg_ok rs1 /\ 0 <= csr < 2 ^ 12
  | Ecall | Ebreak | Mret | Wfi => True
  end.

(** ** Semantics *)

Definition write_reg (rd v : Z) (s : CPUState) : CPUState := if rd =? 0 then s else set_REG rd v s.

Definition rop_val (o : rop) (x y : Z) : Z :=
  match o with
  | ADD => u32 (x + y)
  | SUB => u32 (x - y)
  | SLL => u32 (x * 2 ^ (y mod 32))
  | SLT => Z.b2z (signed 32 x <? signed 32 y)
  | SLTU => Z.b2z (x <? y)
  | XOR => Z.lxor x y
  | SRL => x / 2 ^ (y mod 32)
  | SRA => u32 (signed 32 x / 2 ^ (y mod 32))
  | OR => Z.lor x y
  | AND => Z.land x y
  end.

(** The register-immediate operations are the register-register ones on the
    sign-extended immediate. *)
Definition iop_rop (o : iop) : rop :=
  match o with ADDI => ADD | SLTI => SLT | SLTIU => SLTU | XORI => XOR | ORI => OR | ANDI => AND end.
Definition shop_rop (o : shop) : rop := match o with SLLI => SLL | SRLI => SRL | SRAI => SRA end.

(** Division rounds towards zero; by zero it gives all ones and the dividend. *)
Definition mop_val (o : mop) (x y : Z) : Z :=
  match o with
  | MUL => u32 (x * y)
  | MULH => u32 (signed 32 x * signed 32 y / 2 ^ 32)
  | MULHSU => u32 (signed 32 x * y / 2 ^ 32)
  | MULHU => u32 (x * y / 2 ^ 32)
  | DIV => if y =? 0 then 2 ^ 32 - 1 else u32 (Z.quot (signed 32 x) (signed 32 y))
  | DIVU => if y =? 0 then 2 ^ 32 - 1 else x / y
  | REM => if y =? 0 then x else u32 (Z.rem (signed 32 x) (signed 32 y))
  | REMU => if y =? 0 then x else x mod y
  end.

Definition aop_val (o : aop) (old y : Z) : Z :=
  match o with
  | AMOSWAP => y
  | AMOADD => u32 (old + y)
  | AMOXOR => Z.lxor old y
  | AMOAND => Z.land old y
  | AMOOR => Z.lor old y
  | AMOMIN => if signed 32 old <=? signed 32 y then old else y
  | AMOMAX => if signed 32 y <=? signed 32 old then old else y
  | AMOMINU => Z.min old y
  | AMOMAXU => Z.max old y
  end.

Definition taken (o : bcond) (x y : Z) : bool :=
  match o with
  | BEQ => x =? y
  | BNE => negb (x =? y)
  | BLT => signed 32 x <? signed 32 y
  | BGE => signed 32 y <=? signed 32 x
  | BLTU => x <? y
  | BGEU => y <=? x
  end.

(** Memory: the RAM, where an access may start up to four bytes before the end,
    and the devices. *)
Definition ram (s : CPUState) (a : Z) : option Z :=
  let ofs := u32 (a - mem_offset s) in if ofs <=? mem_size s - 4 then Some ofs else None.

Definition device (a : Z) : bool := (0x10000000 <=? a) && (a <? 0x12000000).

Definition device_read (s : CPUState) (a : Z) : Z :=
  if a =? 0x1100bffc then TIMERH (csrs s) else if a =? 0x1100bff8 then TIMERL (csrs s) else 0.

Definition lwidth_val (w : lwidth) (s : CPUState) (ofs : Z) : Z :=
  match w with
  | LB => u32 (signed 8 (load_le (mem_bytes s) ofs 1))
  | LH => u32 (signed 16 (load_le (mem_bytes s) ofs 2))
  | LW => load_le (mem_bytes s) ofs 4
  | LBU => load_le (mem_bytes s) ofs 1
  | LHU => load_le (mem_bytes s) ofs 2
  end.

Definition swidth_bytes (w : swidth) : nat := match w with SB => 1 | SH => 2 | SW => 4 end.

Definition write_ram (ofs : Z) (n : nat) (v : Z) (s : CPUState) : CPUState :=
  mkCPU (regs s) (csrs s) (store_le (mem_bytes s) ofs n v) (mem_offset s) (mem_size s).

(** The privilege mode and the reservation are kept in [EXTRAFLAGS]. *)
Definition mode (c : csr_file) : Z := EXTRAFLAGS c mod 4.
Definition reservation (c : csr_file) : Z := EXTRAFLAGS c / 8.

(** The control and status registers by number, with [misa] as 32 bits of width and the
    letters of the extensions; the ones that do not exist read as zero. *)
Definition misa_letters (l : list Z) : Z := 2 ^ 30 + foldr (fun k v => 2 ^ k + v) 0 l.

Definition csr_space (cycle : Z) (c : csr_file) : list (Z * Z) :=
  [(0x300, MSTATUS c); (0x301, misa_letters [0; 8; 12; 22]); (0x304, MIE c); (0x305, MTVEC c); (0x340, MSCRATCH c); (0x341, MEPC c); (0x342, MCAUSE c);
   (0x343, MTVAL c); (0x344, MIP c); (0xc00, cycle); (0xf11, 0xff0ff0ff)].

Fixpoint csr_lookup (n : Z) (l : list (Z * Z)) : Z :=
  match l with [] => 0 | (k, v) :: l => if n =? k then v else csr_lookup n l end.

(** A write changes the register with that number, if it can be written. *)
Definition csr_write (n v : Z) (c : csr_file) : csr_file :=
  let put k old := if n =? k then v else old in
  mkCsr (PC c) (put 0x300 (MSTATUS c)) (CYCLEL c) (CYCLEH c) (TIMERL c) (TIMERH c) (TIMERMATCHL c) (TIMERMATCHH c) (put 0x340 (MSCRATCH c))
    (put 0x305 (MTVEC c)) (put 0x304 (MIE c)) (put 0x344 (MIP c)) (put 0x341 (MEPC c)) (put 0x343 (MTVAL c)) (put 0x342 (MCAUSE c)) (EXTRAFLAGS c).

(** Returning from a trap: the interrupt enable comes back from [MPIE], which is set,
    the mode from [MPP], where this machine leaves the old mode. *)
Definition trap_return (c : csr_file) : csr_file :=
  let mie := MSTATUS c / 2 ^ 7 mod 2 in
  let mpp := MSTATUS c / 2 ^ 11 mod 4 in
  set_EXTRAFLAGS (EXTRAFLAGS c - mode c + mpp) (set_MSTATUS (2 ^ 3 * mie + 2 ^ 7 + 2 ^ 11 * mode c) c).

(** Waiting for an interrupt, for which this machine enables them. *)
Definition sleeping (c : csr_file) : bool := EXTRAFLAGS c / 4 mod 2 =? 1.

Definition fall_asleep (npc : Z) (c : csr_file) : csr_file :=
  set_PC npc (set_EXTRAFLAGS (EXTRAFLAGS c + (if sleeping c then 0 else 4)) (set_MSTATUS (MSTATUS c + (if MSTATUS c / 8 mod 2 =? 1 then 0 else 8)) c)).

Definition cop_val (o : cop) (old x rs1 : Z) : Z :=
  match o with
  | CSRRW => x
  | CSRRS => Z.lor old x
  | CSRRC => Z.ldiff old x
  | CSRRWI => rs1
  | CSRRSI => Z.lor old rs1
  | CSRRCI => Z.ldiff old rs1
  end.

Inductive isa_result :=
  | Done (s : CPUState) (npc : Z)
  | Exn (cause tval : Z)
  | Halt (s : CPUState) (code : Z).

Section Exec.
Variables (pc0 cycle : Z).

Definition isa_load (w : lwidth) (rd a : Z) (s : CPUState) : isa_result :=
  match ram s a with
  | Some ofs => Done (write_reg rd (lwidth_val w s ofs) s) (u32 (pc0 + 4))
  | None => if device a then Done (write_reg rd (device_read s a) s) (u32 (pc0 + 4)) else Exn 5 a
  end.

Definition isa_store (w : swidth) (a v : Z) (s : CPUState) : isa_result :=
  match ram s a with
  | Some ofs => Done (write_ram ofs (swidth_bytes w) v s) (u32 (pc0 + 4))
  | None =>
      if device a then
        if a =? 0x11004004 then Done (on_csrs (set_TIMERMATCHH v) s) (u32 (pc0 + 4))
        else if a =? 0x11004000 then Done (on_csrs (set_TIMERMATCHL v) s) (u32 (pc0 + 4))
        else if a =? 0x11100000 then Halt (on_csrs (set_PC (u32 (pc0 + 4))) s) (signed 32 v)
        else Done s (u32 (pc0 + 4))
      else Exn 7 a
  end.

Definition isa_amo (rd a : Z) (f : Z -> Z -> CPUState -> CPUState) (s : CPUState) : isa_result :=
  match ram s a with
  | Some ofs => Done (f ofs (load_le (mem_bytes s) ofs 4) s) (u32 (pc0 + 4))
  | None => Exn 7 a
  end.

Definition isa_exec (i : instr) (s : CPUState) : isa_result :=
  let next := u32 (pc0 + 4) in
  match i with
  | Lui rd imm => Done (write_reg rd (2 ^ 12 * imm) s) next
  | Auipc rd imm => Done (write_reg rd (u32 (pc0 + 2 ^ 12 * imm)) s) next
  | Jal rd ofs => Done (write_reg rd next s) (u32 (pc0 + ofs))
  | Jalr rd rs1 ofs =>
      let t := u32 (REG s rs1 + ofs) in Done (write_reg rd next s) (t - t mod 2)
  | Branch o rs1 rs2 ofs => Done s (if taken o (REG s rs1) (REG s rs2) then u32 (pc0 + ofs) else next)
  | Load w rd rs1 ofs => isa_load w rd (u32 (REG s rs1 + ofs)) s
  | Store w rs1 rs2 ofs => isa_store w (u32 (REG s rs1 + ofs)) (REG s rs2) s
  | OpImm o rd rs1 imm => Done (write_reg rd (rop_val (iop_rop o) (REG s rs1) (u32 imm)) s) next
  | ShImm o rd rs1 shamt => Done (write_reg rd (rop_val (shop_rop o) (REG s rs1) shamt) s) next
  | Op o rd rs1 rs2 => Done (write_reg rd (rop_val o (REG s rs1) (REG s rs2)) s) next
  | MulDiv o rd rs1 rs2 => Done (write_reg rd (mop_val o (REG s rs1) (REG s rs2)) s) next
  | Amo o _ rd rs1 rs2 =>
      isa_amo rd (REG s rs1) (fun ofs old s =>
        write_reg rd old (write_ram ofs 4 (aop_val o old (REG s rs2)) s)) s
  | LoadReserved _ rd rs1 =>
      isa_amo rd (REG s rs1) (fun ofs old s =>
        write_reg rd old (on_csrs (fun c => set_EXTRAFLAGS (EXTRAFLAGS c mod 8 + 8 * (ofs mod 2 ^ 29)) c) s)) s
  | StoreCond _ rd rs1 rs2 =>
      isa_amo rd (REG s rs1) (fun ofs old s =>
        if reservation (csrs s) =? ofs mod 2 ^ 29
        then write_reg rd 0 (write_ram ofs 4 (REG s rs2) s) else write_reg rd 1 s) s
  | Fence _ _ _ | FenceI _ _ _ => Done s next
  | Csr o csr rd rs1 =>
      let old := csr_lookup csr (csr_space cycle (csrs s)) in
      Done (write_reg rd old (on_csrs (csr_write csr (cop_val o old (REG s rs1) rs1)) s)) next
  | Ecall => Exn (if mode (csrs s) =? 0 then 8 else 11) pc0
  | Ebreak => Exn 3 pc0
  | Mret => Done (on_csrs trap_return s) (MEPC (csrs s))
  | Wfi => Halt (on_csrs (fall_asleep next) s) 1
  end.

(** Entering the trap handler: the interrupt enable and the mode move to the
    previous fields of [MSTATUS], and the mode becomes machine mode. *)
Definition trap_entry (cause tval : Z) (c : csr_file) : csr_file :=
  mkCsr (PC c) (2 ^ 7 * (MSTATUS c / 8 mod 2) + 2 ^ 11 * mode c) (CYCLEL c) (CYCLEH c) (TIMERL c) (TIMERH c)
    (TIMERMATCHL c) (TIMERMATCHH c) (MSCRATCH c) (MTVEC c) (MIE c) (MIP c) pc0 tval cause
    (EXTRAFLAGS c - mode c + 3).

(** The end of the cycle: the cycle counter and the next [PC]. *)
Definition finish (npc : Z) (c : csr_file) : csr_file :=
  let c := if cycle <? CYCLEL c then set_CYCLEH (u32 (CYCLEH c + 1)) c else c in
  set_PC npc (set_CYCLEL cycle c).

Definition retire (s : CPUState) (r : isa_result) : CPUState * Z :=
  match r with
  | Done s npc => (on_csrs (finish npc) s, 0)
  | Exn cause tval => (on_csrs (fun c => finish (MTVEC c) (trap_entry cause tval c)) s, 0)
  | Halt s code => (s, code)
  end.

End Exec.

(** ** The machine *)

(** The timer counts microseconds in 64 bits; its interrupt is pending when a compare
    value is set and has passed, which also ends the sleep. *)
Definition timer_isa (e : Z) (c : csr_file) : csr_file :=
  let now := (2 ^ 32 * TIMERH c + TIMERL c + e) mod 2 ^ 64 in
  let limit := 2 ^ 32 * TIMERMATCHH c + TIMERMATCHL c in
  let due := negb (limit =? 0) && (limit <? now) in
  mkCsr (PC c) (MSTATUS c) (CYCLEL c) (CYCLEH c) (now mod 2 ^ 32) (now / 2 ^ 32) (TIMERMATCHL c) (TIMERMATCHH c)
    (MSCRATCH c) (MTVEC c) (MIE c) (MIP c - 2 ^ 7 * (MIP c / 2 ^ 7 mod 2) + (if due then 2 ^ 7 else 0))
    (MEPC c) (MTVAL c) (MCAUSE c) (if due && sleeping c then EXTRAFLAGS c - 4 else EXTRAFLAGS c).

(** The timer interrupt is pending and enabled. *)
Definition interrupted (c : csr_file) : bool :=
  (MIP c / 2 ^ 7 mod 2 =? 1) && (MIE c / 2 ^ 7 mod 2 =? 1) && (MSTATUS c / 2 ^ 3 mod 2 =? 1).

(** The word at [PC] is that of [i]. *)
Definition fetches (s : CPUState) (i : instr) : Prop :=
  let ofs := u32 (PC (csrs s) - mem_offset s) in
  ofs < mem_size s /\ ofs mod 4 = 0 /\ load_le (mem_bytes s) ofs 4 = encode i.

(** What a hart does after the timer has advanced: it sleeps, takes the interrupt,
    faults on the fetch, or executes the instruction it fetches, which counts a cycle. *)
Inductive isa_action (s : CPUState) : CPUState * Z -> Prop :=
  | Sleeps : sleeping (csrs s) = true -> isa_action s (s, 1)
  | Interrupt : sleeping (csrs s) = false -> interrupted (csrs s) = true ->
      isa_action s (retire (PC (csrs s)) (CYCLEL (csrs s)) s (Exn 0x80000007 0))
  | FetchFault : sleeping (csrs s) = false -> interrupted (csrs s) = false ->
      mem_size s <= u32 (PC (csrs s) - mem_offset s) ->
      isa_action s (retire (PC (csrs s)) (u32 (CYCLEL (csrs s) + 1)) s (Exn 1 (PC (csrs s))))
  | Misaligned : sleeping (csrs s) = false -> interrupted (csrs s) = false ->
      u32 (PC (csrs s) - mem_offset s) < mem_size s -> u32 (PC (csrs s) - mem_offset s) mod 4 <> 0 ->
      isa_action s (retire (PC (csrs s)) (u32 (CYCLEL (csrs s) + 1)) s (Exn 0 (PC (csrs s))))
  | Executes i : sleeping (csrs s) = false -> interrupted (csrs s) = false -> instr_ok i -> fetches s i ->
      let cycle := u32 (CYCLEL (csrs s) + 1) in
      isa_action s (retire (PC (csrs s)) cycle s (isa_exec (PC (csrs s)) cycle i s)).

Definition isa_step (s : CPUState) (elapsedUs : Z) (r : CPUState * Z) : Prop :=
  isa_action (on_csrs (timer_isa elapsedUs) s) r.

(** ** Bit fields *)

Lemma test_mod x k : 0 <= k -> test x (2 ^ k) = (x / 2 ^ k mod 2 =? 1).
Proof.
  intros Hk. unfold test. rewrite <- (Z.mul_1_l (2 ^ k)) at 1.
  change 1 with (2 ^ 1 - 1) at 1. rewrite mask_mod by lia. change (2 ^ 1) with 2.
  pose proof (Z.mod_pos_bound (x / 2 ^ k) 2). pose proof (Z.pow_pos_nonneg 2 k).
  destruct (Z.eqb_spec (x / 2 ^ k mod 2) 1) as [-> |];
    [destruct (Z.eqb_spec (1 * 2 ^ k) 0); [lia|done]|].
  assert (x / 2 ^ k mod 2 = 0) as -> by lia. done.
Qed.

(** Sign extension of [w] bits. *)
Lemma sext_lor w u : 0 < w < 32 -> 0 <= u < 2 ^ w ->
  (if test u (2 ^ (w - 1)) then Z.lor u (2 ^ 32 - 2 ^ w) else u) = u32 (signed w u).
Proof.
  intros Hw Hu. rewrite test_mod by lia. unfold signed.
  assert (2 ^ w = 2 * 2 ^ (w - 1)) as E by (rewrite <- Z.pow_succ_r by lia; f_equal; lia).
  pose proof (Z.pow_pos_nonneg 2 (w - 1)) as Hp.
  assert (2 ^ 32 mod 2 ^ w = 0) as E32.
  { replace 32 with (32 - w + w) by lia. rewrite Z.pow_add_r by lia. apply Z.mod_mul. lia. }
  assert (2 ^ w < 2 ^ 32) by (apply Z.pow_lt_mono_r; lia).
  destruct (Z.ltb_spec u (2 ^ (w - 1))) as [Hlt|Hge].
  - rewrite Z.div_small by lia. cbn [Z.eqb Z.modulo]. change (0 mod 2 =? 1) with false. cbv iota.
    rewrite wrap_small by lia. done.
  - assert (u / 2 ^ (w - 1) = 1) as -> by (symmetry; apply Z.div_unique with (u - 2 ^ (w - 1)); lia).
    change (1 mod 2 =? 1) with true. cbv iota.
    rewrite (lor_add u _ w); [|lia|lia|].
    + unfold wrap. apply Z.mod_unique with (-1); lia.
    + rewrite Zminus_mod, E32, Z.mod_same by lia. done.
Qed.

(** ** The fields of a word *)

Section Pack.
Variables (opc rd f3 rs1 rs2 f7 : Z).
Hypothesis Hopc : 0 <= opc < 128.
Hypothesis Hrd : 0 <= rd < 32.
Hypothesis Hf3 : 0 <= f3 < 8.
Hypothesis Hrs1 : 0 <= rs1 < 32.
Hypothesis Hrs2 : 0 <= rs2 < 32.
Hypothesis Hf7 : 0 <= f7 < 128.
Let ir := pack opc rd f3 rs1 rs2 f7.

Lemma pack_rd : rd_field ir = rd.
Proof.
  unfold rd_field, ir. change 0x1f with (2 ^ 5 - 1). rewrite field_mod, pack_div7 by lia.
  symmetry. apply Z.mod_unique with (f3 + 2 ^ 3 * rs1 + 2 ^ 8 * rs2 + 2 ^ 13 * f7); lia.
Qed.

Lemma pack_f3 : funct3 ir = f3.
Proof.
  unfold funct3, ir. change 0x7 with (2 ^ 3 - 1). rewrite field_mod, pack_div12 by lia.
  symmetry. apply Z.mod_unique with (rs1 + 2 ^ 5 * rs2 + 2 ^ 10 * f7); lia.
Qed.

Lemma pack_rs1 : rs1_field ir = rs1.
Proof.
  unfold rs1_field, ir. change 0x1f with (2 ^ 5 - 1). rewrite field_mod, pack_div15 by lia.
  symmetry. apply Z.mod_unique with (rs2 + 2 ^ 5 * f7); lia.
Qed.

Lemma pack_rs2 : rs2_field ir = rs2.
Proof.
  unfold rs2_field, ir. change 0x1f with (2 ^ 5 - 1). rewrite field_mod, pack_div20 by lia.
  symmetry. apply Z.mod_unique with f7; lia.
Qed.

Lemma pack_shr20 : Z.shiftr ir 20 = rs2 + 32 * f7.
Proof. unfold ir. rewrite Z.shiftr_div_pow2, pack_div20 by lia. done. Qed.

(** A bit above 25 is a bit of [f7]. *)
Lemma pack_bit k : 0 <= k -> test ir (2 ^ (25 + k)) = (f7 / 2 ^ k mod 2 =? 1).
Proof.
  intros Hk. rewrite test_mod by lia. rewrite Z.pow_add_r by lia.
  rewrite <- Z.div_div by (pose proof (Z.pow_pos_nonneg 2 k); lia). unfold ir. by rewrite pack_div25.
Qed.

(** A bit of the opcode. *)
Lemma pack_bit5 : test ir 0x20 = (opc / 32 mod 2 =? 1).
Proof.
  change 0x20 with (2 ^ 5). rewrite test_mod by lia. f_equal. unfold ir, pack.
  assert ((opc + 2 ^ 7 * rd + 2 ^ 12 * f3 + 2 ^ 15 * rs1 + 2 ^ 20 * rs2 + 2 ^ 25 * f7) / 2 ^ 5 =
    opc / 32 + (2 ^ 1 * rd + 2 ^ 6 * f3 + 2 ^ 9 * rs1 + 2 ^ 14 * rs2 + 2 ^ 19 * f7) * 2) as ->.
  { symmetry. apply Z.div_unique with (opc mod 32); [left; apply Z.mod_pos_bound; lia|].
    pose proof (Z.div_mod opc 32). lia. }
  by rewrite Z.mod_add by lia.
Qed.

End Pack.

(** ** Immediates *)

Lemma sext12 u : 0 <= u < 2 ^ 12 -> Z.lor u (if test u 0x800 then 0xfffff000 else 0) = u32 (signed 12 u).
Proof.
  intros Hu. rewrite <- (sext_lor 12) by lia. change (2 ^ (12 - 1)) with 0x800.
  change (2 ^ 32 - 2 ^ 12) with 0xfffff000. destruct (test u 0x800); [done|apply Z.lor_0_r].
Qed.

Lemma enc_i_imm opc rd f3 rs1 imm :
  0 <= opc < 128 -> reg_ok rd -> 0 <= f3 < 8 -> reg_ok rs1 -> imm12_ok imm ->
  imm_i (enc_i opc rd f3 rs1 imm) = u32 imm.
Proof.
  intros Ho Hrd Hf Hrs Hi. unfold imm_i, enc_i. cbv zeta. pose proof (mod_range imm 12 ltac:(lia)) as Hu.
  destruct (split5 _ Hu) as (E & H1 & H2). rewrite pack_shr20, E by done.
  rewrite sext12 by done. by rewrite signed_mod by (unfold imm12_ok in *; lia).
Qed.

Lemma shr_mask x k w c : 0 <= c <= k -> 0 <= w ->
  Z.shiftr (Z.land x ((2 ^ w - 1) * 2 ^ k)) c = x / 2 ^ k mod 2 ^ w * 2 ^ (k - c).
Proof.
  intros Hc Hw. rewrite mask_mod, Z.shiftr_div_pow2 by lia.
  replace (2 ^ k) with (2 ^ (k - c) * 2 ^ c) at 2 by (rewrite <- Z.pow_add_r by lia; f_equal; lia).
  rewrite Z.mul_assoc, Z.div_mul; [done|]. pose proof (Z.pow_pos_nonneg 2 c). lia.
Qed.

Lemma enc_s_imm opc f3 rs1 rs2 imm :
  0 <= opc < 128 -> 0 <= f3 < 8 -> reg_ok rs1 -> reg_ok rs2 -> imm12_ok imm ->
  let ir := enc_s opc f3 rs1 rs2 imm in
  let addy := Z.lor (Z.land (Z.shiftr ir 7) 0x1f) (Z.shiftr (Z.land ir 0xfe000000) 20) in
  (if test addy 0x800 then Z.lor addy 0xfffff000 else addy) = u32 imm.
Proof.
  intros Ho Hf Hr1 Hr2 Hi ir addy. pose proof (mod_range imm 12 ltac:(lia)) as Hu.
  destruct (split5 _ Hu) as (E & H1 & H2).
  assert (addy = imm mod 2 ^ 12) as ->.
  { unfold addy. change (Z.land (Z.shiftr ir 7) 0x1f) with (rd_field ir).
    change 0xfe000000 with ((2 ^ 7 - 1) * 2 ^ 25). rewrite shr_mask by lia.
    unfold ir, enc_s. cbv zeta. rewrite pack_rd, pack_div25 by done.
    rewrite (Z.mod_small _ (2 ^ 7)) by lia. change (2 ^ (25 - 20)) with 32.
    rewrite (lor_add _ _ 5) by (try apply Z.mod_mul; lia). lia. }
  etransitivity; [exact (sext_lor 12 _ ltac:(lia) Hu)|].
  by rewrite signed_mod by (unfold imm12_ok in *; lia).
Qed.

Lemma even_half z : z mod 2 = 0 -> z = 2 * (z / 2).
Proof. intros H. pose proof (Z.div_mod z 2). lia. Qed.

Lemma enc_b_imm opc f3 rs1 rs2 imm :
  0 <= opc < 128 -> 0 <= f3 < 8 -> reg_ok rs1 -> reg_ok rs2 -> - 2 ^ 12 <= imm < 2 ^ 12 -> imm mod 2 = 0 ->
  let ir := enc_b opc f3 rs1 rs2 imm in
  let immm4 := Z.lor (Z.lor (Z.lor (Z.shiftr (Z.land ir 0xf00) 7) (Z.shiftr (Z.land ir 0x7e000000) 20))
                 (u32 (Z.shiftl (Z.land ir 0x80) 4))) (u32 (Z.shiftl (Z.shiftr ir 31) 12)) in
  (if test immm4 0x1000 then Z.lor immm4 0xffffe000 else immm4) = u32 imm.
Proof.
  intros Ho Hf Hr1 Hr2 Hi He ir immm4. pose proof (mod_range imm 13 ltac:(lia)) as Hu.
  set (u := imm mod 2 ^ 13) in *.
  assert (u mod 2 = 0) as Hev.
  { unfold u. change (2 ^ 13) with (2 * 2 ^ 12). rewrite <- Znumtheory.Zmod_div_mod; [done|lia|lia|].
    by exists (2 ^ 12). }
  set (lo := u / 2 ^ 11 mod 2 + 2 * (u / 2 mod 16)). set (hi := u / 2 ^ 5 mod 64 + 64 * (u / 2 ^ 12)).
  assert (0 <= lo < 32 /\ 0 <= hi < 128) as [Hlo Hhi] by (unfold lo, hi; divlia).
  assert (immm4 = u) as ->.
  2: { etransitivity; [exact (sext_lor 13 u ltac:(lia) Hu)|]. unfold u. by rewrite signed_mod by lia. }
  unfold immm4. change 0xf00 with ((2 ^ 4 - 1) * 2 ^ 8). change 0x7e000000 with ((2 ^ 6 - 1) * 2 ^ 25).
  change 0x80 with ((2 ^ 1 - 1) * 2 ^ 7). rewrite !shr_mask, mask_mod by lia.
  rewrite !Z.shiftl_mul_pow2, Z.shiftr_div_pow2 by lia.
  assert (ir / 2 ^ 7 = lo + 2 ^ 5 * (f3 + 2 ^ 3 * rs1 + 2 ^ 8 * rs2 + 2 ^ 13 * hi)) as E7.
  { unfold ir, enc_b. cbv zeta. fold u lo hi. rewrite pack_div7 by done. lia. }
  assert (ir / 2 ^ 25 = hi) as E25.
  { unfold ir, enc_b. cbv zeta. fold u lo hi. by rewrite pack_div25. }
  assert (ir / 2 ^ 8 mod 2 ^ 4 = u / 2 mod 16) as ->.
  { change (2 ^ 8) with (2 ^ 7 * 2). rewrite <- Z.div_div, E7 by lia. unfold lo. divlia. }
  assert (ir / 2 ^ 7 mod 2 ^ 1 = u / 2 ^ 11 mod 2) as ->.
  { rewrite E7. unfold lo. divlia. }
  assert (ir / 2 ^ 31 = u / 2 ^ 12) as ->.
  { change (2 ^ 31) with (2 ^ 25 * 2 ^ 6). rewrite <- Z.div_div, E25 by lia. unfold hi. divlia. }
  rewrite E25. assert (hi mod 2 ^ 6 = u / 2 ^ 5 mod 64) as -> by (unfold hi; divlia).
  change (8 - 7) with 1. change (25 - 20) with 5. rewrite !wrap_small by divlia.
  rewrite (lor_add (u / 2 mod 16 * _) _ 5), (lor_add (_ + _) _ 11), (lor_add _ _ 12) by divlia. divlia.
Qed.

Lemma lor_rotate a b c d : Z.lor (Z.lor (Z.lor a b) c) d = Z.lor (Z.lor (Z.lor b c) d) a.
Proof. rewrite (Z.lor_comm a b), <- !Z.lor_assoc, (Z.lor_comm c), (Z.lor_comm a), <- !Z.lor_assoc.
  f_equal. rewrite (Z.lor_comm d). by rewrite <- !Z.lor_assoc, (Z.lor_comm a d). Qed.

Lemma enc_j_imm opc rd ofs :
  0 <= opc < 128 -> reg_ok rd -> - 2 ^ 20 <= ofs < 2 ^ 20 -> ofs mod 2 = 0 ->
  let ir := enc_j opc rd ofs in
  let reladdy := Z.lor (Z.lor (Z.lor (Z.shiftr (Z.land ir 0x80000000) 11) (Z.shiftr (Z.land ir 0x7fe00000) 20))
                   (Z.shiftr (Z.land ir 0x00100000) 9)) (Z.land ir 0x000ff000) in
  (if test reladdy 0x00100000 then Z.lor reladdy 0xffe00000 else reladdy) = u32 ofs.
Proof.
  intros Ho Hrd Hi He ir r. pose proof (mod_range ofs 21 ltac:(lia)) as Hu.
  set (u := ofs mod 2 ^ 21) in *.
  assert (u mod 2 = 0) as Hev.
  { unfold u. change (2 ^ 21) with (2 * 2 ^ 20). rewrite <- Znumtheory.Zmod_div_mod; [done|lia|lia|].
    by exists (2 ^ 20). }
  set (j := u / 2 ^ 12 mod 2 ^ 8 + 2 ^ 8 * (u / 2 ^ 11 mod 2) + 2 ^ 9 * (u / 2 mod 2 ^ 10) + 2 ^ 19 * (u / 2 ^ 20)).
  assert (0 <= j < 2 ^ 20) as Hj by (unfold j; divlia).
  assert (r = u) as ->.
  2: { etransitivity; [exact (sext_lor 21 u ltac:(lia) Hu)|]. unfold u. by rewrite signed_mod by lia. }
  assert (ir / 2 ^ 12 = j) as E12.
  { unfold ir, enc_j, enc_u. cbv zeta. fold u j. rewrite pack_div12 by (unfold reg_ok in *; divlia). divlia. }
  unfold r. change 0x80000000 with ((2 ^ 1 - 1) * 2 ^ 31). change 0x7fe00000 with ((2 ^ 10 - 1) * 2 ^ 21).
  change 0x00100000 with ((2 ^ 1 - 1) * 2 ^ 20). change 0x000ff000 with ((2 ^ 8 - 1) * 2 ^ 12).
  rewrite !shr_mask, mask_mod, E12 by lia.
  assert (ir / 2 ^ 31 = j / 2 ^ 19) as ->.
  { change (2 ^ 31) with (2 ^ 12 * 2 ^ 19). by rewrite <- Z.div_div, E12 by lia. }
  assert (ir / 2 ^ 21 = j / 2 ^ 9) as ->.
  { change (2 ^ 21) with (2 ^ 12 * 2 ^ 9). by rewrite <- Z.div_div, E12 by lia. }
  assert (ir / 2 ^ 20 = j / 2 ^ 8) as ->.
  { change (2 ^ 20) with (2 ^ 12 * 2 ^ 8). by rewrite <- Z.div_div, E12 by lia. }
  assert (j / 2 ^ 19 mod 2 ^ 1 = u / 2 ^ 20) as -> by (unfold j; divlia).
  assert (j / 2 ^ 9 mod 2 ^ 10 = u / 2 mod 2 ^ 10) as -> by (unfold j; divlia).
  assert (j / 2 ^ 8 mod 2 ^ 1 = u / 2 ^ 11 mod 2) as -> by (unfold j; divlia).
  assert (j mod 2 ^ 8 = u / 2 ^ 12 mod 2 ^ 8) as -> by (unfold j; divlia).
  change (31 - 11) with 20. change (21 - 20) with 1. change (20 - 9) with 11.
  rewrite lor_rotate, (lor_add (u / 2 mod _ * _) _ 11), (lor_add (_ + _) _ 12), (lor_add _ _ 20) by divlia. divlia.
Qed.

(** ** The end of a step *)

Definition finish_outcome (cycle : Z) (o : outcome) : CPUState * Z :=
  match o with Ret s r => (s, r) | Go l => writeback cycle l end.

Lemma done_ok cycle s rd v p : finish_outcome cycle (Go (mkL s rd v p 0)) =
  (on_csrs (finish cycle (u32 (p + 4))) (write_reg rd v s), 0).
Proof.
  cbn [finish_outcome writeback trap Z.eqb negb rdid rval pc l_st]. unfold write_reg.
  by destruct (rd =? 0).
Qed.

Lemma trap_mstatus ms ef : word ms -> word ef ->
  Z.lor (u32 (Z.shiftl (Z.land ms 0x08) 4)) (u32 (Z.shiftl (Z.land ef 3) 11)) =
  2 ^ 7 * (ms / 8 mod 2) + 2 ^ 11 * (ef mod 4).
Proof.
  unfold word. intros Hm He.
  replace (Z.land ms 8) with (ms / 2 ^ 3 mod 2 ^ 1 * 2 ^ 3) by (symmetry; by apply (mask_mod ms 3 1)).
  replace (Z.land ef 3) with (ef mod 2 ^ 2) by (symmetry; by apply (land_ones_mod ef 2)).
  rewrite !Z.shiftl_mul_pow2, !wrap_small by divlia. rewrite (lor_add _ _ 11) by divlia. divlia.
Qed.

Lemma trap_extraflags ef : word ef -> Z.lor ef 3 = ef - ef mod 4 + 3.
Proof.
  intros He. unfold word in He. assert (ef = ef mod 4 + 4 * (ef / 4)) as E by divlia.
  assert (Z.lor ef 3 = Z.lor (ef mod 4) 3 + 4 * (ef / 4)) as ->.
  { rewrite E at 1. rewrite <- (lor_add (ef mod 4) (4 * (ef / 4)) 2) by divlia.
    rewrite <- Z.lor_assoc, (Z.lor_comm _ 3), Z.lor_assoc. apply (lor_add _ _ 2); [lia| |divlia].
    assert (ef mod 4 = 0 \/ ef mod 4 = 1 \/ ef mod 4 = 2 \/ ef mod 4 = 3) as [-> |[-> |[-> | ->]]] by divlia;
      by vm_compute. }
  assert (Z.lor (ef mod 4) 3 = 3) as ->; [|divlia].
  assert (ef mod 4 = 0 \/ ef mod 4 = 1 \/ ef mod 4 = 2 \/ ef mod 4 = 3) as [-> |[-> |[-> | ->]]] by divlia; done.
Qed.

Lemma ret_mstatus ms ef : word ms -> word ef ->
  Z.lor (Z.lor (Z.shiftr (Z.land ms 0x80) 4) (u32 (Z.shiftl (Z.land ef 3) 11))) 0x80 =
  2 ^ 3 * (ms / 2 ^ 7 mod 2) + 2 ^ 7 + 2 ^ 11 * (ef mod 4).
Proof.
  unfold word. intros Hm He.
  replace (Z.land ms 0x80) with (ms / 2 ^ 7 mod 2 ^ 1 * 2 ^ 7) by (symmetry; by apply (mask_mod ms 7 1)).
  replace (Z.land ef 3) with (ef mod 2 ^ 2) by (symmetry; by apply (land_ones_mod ef 2)).
  rewrite Z.shiftr_div_pow2, Z.shiftl_mul_pow2, wrap_small by divlia.
  rewrite <- Z.lor_assoc, (Z.lor_comm _ 0x80), (lor_add 0x80 _ 11) by divlia.
  rewrite (lor_add _ _ 7) by divlia. divlia.
Qed.

Lemma ret_extraflags ms ef : word ms -> word ef ->
  Z.lor (Z.land ef (not32 3)) (Z.land (Z.shiftr ms 11) 3) = ef - ef mod 4 + ms / 2 ^ 11 mod 4.
Proof.
  unfold word. intros Hm He. change (not32 3) with ((2 ^ 30 - 1) * 2 ^ 2).
  rewrite mask_mod by lia. change 3 with (2 ^ 2 - 1). rewrite field_mod by lia.
  rewrite Z.lor_comm, (lor_add _ _ 2) by divlia. divlia.
Qed.

(** Setting a bit adds it when it is clear. *)
Lemma lor_bit x k : 0 <= k -> Z.lor x (2 ^ k) = x + (if x / 2 ^ k mod 2 =? 1 then 0 else 2 ^ k).
Proof.
  intros Hk. rewrite <- test_mod by done. unfold test.
  assert (Z.land x (2 ^ k) = 0 \/ Z.land x (2 ^ k) = 2 ^ k) as Hl.
  { pose proof (mask_mod x k 1 Hk ltac:(lia)) as E. change (2 ^ 1 - 1) with 1 in E. rewrite Z.mul_1_l in E. rewrite E.
    destruct (mod_range (x / 2 ^ k) 1 ltac:(lia)) as [??].
    assert (x / 2 ^ k mod 2 ^ 1 = 0 \/ x / 2 ^ k mod 2 ^ 1 = 1) as [-> | ->] by lia; lia. }
  destruct (Z.eqb_spec (Z.land x (2 ^ k)) 0) as [E|E]; cbn [negb].
  - by rewrite Z.add_nocarry_lxor, Z.lxor_lor.
  - destruct Hl as [|Hl]; [done|]. rewrite Z.add_0_r. apply Z.bits_inj'. intros i _.
    rewrite Z.lor_spec. rewrite <- Hl, Z.land_spec. by destruct (Z.testbit x i).
Qed.

Lemma exn_ok cycle s rd v p t : cpu_ok s -> 0 < t < 2 ^ 31 ->
  finish_outcome cycle (Go (mkL s rd v p t)) =
  (on_csrs (fun c => finish cycle (MTVEC c)
     (trap_entry p (t - 1) (if (5 <? t) && (t <=? 8) then v else p) c)) s, 0).
Proof.
  intros C Ht. unfold finish_outcome, writeback. cbn [trap rval pc l_st].
  rewrite (proj2 (Z.eqb_neq t 0)) by lia. cbn [negb]. unfold cycle_end, take_trap. rewrite (proj2 (Z.eqb_neq t 0)) by lia.
  assert (test t 0x80000000 = false) as ->.
  { change 0x80000000 with (2 ^ 31). rewrite test_mod by lia. rewrite Z.div_small by lia. done. }
  pose proof (ok_csr s C) as Hc. apply csr_ok_iff in Hc as (?&Hms&?&?&?&?&?&?&?&Hmt&?&?&?&?&?&Hef).
  cbv zeta. cbn [MSTATUS EXTRAFLAGS MTVEC set_MEPC set_MTVAL set_MCAUSE set_MSTATUS].
  rewrite trap_mstatus, trap_extraflags by done. rewrite (wrap_small 32 (t - 1)) by lia.
  rewrite wrap_add_l. replace (MTVEC (csrs s) - 4 + 4) with (MTVEC (csrs s)) by lia.
  rewrite (wrap_small 32 (MTVEC (csrs s))) by done. reflexivity.
Qed.

(** ** Arithmetic *)

Lemma land31 y : Z.land y 0x1f = y mod 32.
Proof. change 0x1f with (2 ^ 5 - 1). by rewrite land_ones_mod. Qed.

(** The function field and bit 30 select the operation. *)
Lemma arith_rop ir b o x y :
  word x -> word y -> funct3 ir = rop_f3 o ->
  (o = SUB \/ o = ADD -> b && test ir 0x40000000 = (rop_f7 o =? 32)) ->
  (o = SRL \/ o = SRA -> test ir 0x40000000 = (rop_f7 o =? 32)) ->
  arith ir b x y = rop_val o x y.
Proof.
  intros Hx Hy Hf Ha Hs. unfold arith. rewrite Hf. cbv zeta.
  assert (0 <= y mod 32 < 32) by divlia. unfold word in *.
  destruct o; cbn [rop_f3 rop_val]; try done.
  - by rewrite Ha by auto.
  - by rewrite Ha by auto.
  - by rewrite land31, Z.shiftl_mul_pow2 by lia.
  - rewrite Hs by auto. cbn. by rewrite land31, Z.shiftr_div_pow2 by lia.
  - rewrite Hs by auto. cbn. by rewrite land31, Z.shiftr_div_pow2 by lia.
Qed.

Lemma muldiv_mop ir o x y : word x -> word y -> funct3 ir = mop_f3 o -> muldiv ir x y = mop_val o x y.
Proof.
  intros Hx Hy Hf. unfold muldiv. rewrite Hf. cbv zeta.
  pose proof (word_signed x Hx). pose proof (word_signed y Hy). unfold word in *.
  assert (forall z, u32 (Z.shiftr (u64 z) 32) = u32 (z / 2 ^ 32)) as Hhi.
  { intros z. rewrite Z.shiftr_div_pow2 by lia. unfold wrap. change (2 ^ 64) with (2 ^ 32 * 2 ^ 32).
    rewrite Z.rem_mul_r by lia. rewrite Z.mul_comm, Z.div_add by lia.
    rewrite Z.div_small by (apply Z.mod_pos_bound; lia). by rewrite Z.add_0_l, Z.mod_mod by lia. }
  destruct o; cbn [mop_f3 mop_val]; try done.
  - by rewrite Z.shiftr_div_pow2 by lia.
  - destruct (Z.eqb_spec y 0); [done|]. destruct (Z.eqb_spec (signed 32 x) INT32_MIN) as [E1|]; [|done].
    destruct (Z.eqb_spec (signed 32 y) (-1)) as [E2|]; [|done]. cbn [andb]. rewrite E1, E2.
    unfold signed, INT32_MIN in *. change (32 - 1) with 31 in *. zcases_in E1; try lia.
    assert (x = 2 ^ 31) as -> by lia. done.
  - destruct (Z.eqb_spec y 0); [done|]. destruct (Z.eqb_spec (signed 32 x) INT32_MIN) as [E1|]; [|done].
    destruct (Z.eqb_spec (signed 32 y) (-1)) as [E2|]; [|done]. cbn [andb]. by rewrite E1, E2.
Qed.

(** ** Decoding *)

Record fields (ir opc rd f3 rs1 rs2 f7 : Z) : Prop := {
  f_opcode : Z.land ir 0x7f = opc;
  f_rd : rd_field ir = rd;
  f_f3 : funct3 ir = f3;
  f_rs1 : rs1_field ir = rs1;
  f_rs2 : rs2_field ir = rs2;
  f_shr20 : Z.shiftr ir 20 = rs2 + 32 * f7;
  f_div12 : ir / 2 ^ 12 = f3 + 2 ^ 3 * rs1 + 2 ^ 8 * rs2 + 2 ^ 13 * f7;
  f_bit25 : test ir 0x02000000 = (f7 mod 2 =? 1);
  f_bit30 : test ir 0x40000000 = (f7 / 32 mod 2 =? 1);
  f_bit5 : test ir 0x20 = (opc / 32 mod 2 =? 1);
  f_irmid : Z.land (Z.shiftr ir 27) 0x1f = f7 / 4;
}.

Lemma pack_fields opc rd f3 rs1 rs2 f7 :
  0 <= opc < 128 -> reg_ok rd -> 0 <= f3 < 8 -> reg_ok rs1 -> reg_ok rs2 -> 0 <= f7 < 128 ->
  fields (pack opc rd f3 rs1 rs2 f7) opc rd f3 rs1 rs2 f7.
Proof.
  unfold reg_ok. intros. split.
  - by apply pack_opcode.
  - by apply pack_rd.
  - by apply pack_f3.
  - by apply pack_rs1.
  - by apply pack_rs2.
  - by apply pack_shr20.
  - by apply pack_div12.
  - change 0x02000000 with (2 ^ (25 + 0)). rewrite pack_bit by done. by rewrite Z.pow_0_r, Z.div_1_r.
  - change 0x40000000 with (2 ^ (25 + 5)). by rewrite pack_bit by done.
  - by apply pack_bit5.
  - change 0x1f with (2 ^ 5 - 1). rewrite field_mod by lia. change (2 ^ 27) with (2 ^ 25 * 4).
    rewrite <- Z.div_div, pack_div25 by (done || lia). apply Z.mod_small. divlia.
Qed.

Lemma enc_i_fields opc rd f3 rs1 imm :
  0 <= opc < 128 -> reg_ok rd -> 0 <= f3 < 8 -> reg_ok rs1 ->
  fields (enc_i opc rd f3 rs1 imm) opc rd f3 rs1 (imm mod 2 ^ 12 mod 32) (imm mod 2 ^ 12 / 32).
Proof.
  intros. destruct (split5 _ (mod_range imm 12 ltac:(lia))) as (_ & Hl & Hh). by apply pack_fields.
Qed.

Lemma enc_u_fields opc rd imm : 0 <= opc < 128 -> reg_ok rd -> 0 <= imm < 2 ^ 20 ->
  fields (enc_u opc rd imm) opc rd (imm mod 8) (imm / 8 mod 32) (imm / 2 ^ 8 mod 32) (imm / 2 ^ 13).
Proof. intros. apply pack_fields; unfold reg_ok; try done; divlia. Qed.

Lemma enc_s_fields opc f3 rs1 rs2 imm :
  0 <= opc < 128 -> 0 <= f3 < 8 -> reg_ok rs1 -> reg_ok rs2 ->
  fields (enc_s opc f3 rs1 rs2 imm) opc (imm mod 2 ^ 12 mod 32) f3 rs1 rs2 (imm mod 2 ^ 12 / 32).
Proof.
  intros. destruct (split5 _ (mod_range imm 12 ltac:(lia))) as (_ & Hl & Hh). by apply pack_fields.
Qed.

Lemma enc_b_fields opc f3 rs1 rs2 imm :
  0 <= opc < 128 -> 0 <= f3 < 8 -> reg_ok rs1 -> reg_ok rs2 ->
  exists rd f7, fields (enc_b opc f3 rs1 rs2 imm) opc rd f3 rs1 rs2 f7.
Proof.
  intros. pose proof (mod_range imm 13 ltac:(lia)). unfold enc_b. cbv zeta. eexists _, _.
  apply pack_fields; try done; unfold reg_ok; divlia.
Qed.

Lemma enc_j_fields opc rd ofs : 0 <= opc < 128 -> reg_ok rd ->
  exists f3 rs1 rs2 f7, fields (enc_j opc rd ofs) opc rd f3 rs1 rs2 f7.
Proof.
  intros. pose proof (mod_range ofs 21 ltac:(lia)). unfold enc_j. cbv zeta. eexists _, _, _, _.
  apply enc_u_fields; try done. divlia.
Qed.

(** The upper immediate. *)
Lemma u_imm opc rd imm : 0 <= opc < 128 -> reg_ok rd -> 0 <= imm < 2 ^ 20 ->
  Z.land (enc_u opc rd imm) 0xfffff000 = 2 ^ 12 * imm.
Proof.
  intros Ho Hr Hi. change 0xfffff000 with ((2 ^ 20 - 1) * 2 ^ 12). rewrite mask_mod by lia.
  rewrite (f_div12 _ _ _ _ _ _ _ (enc_u_fields opc rd imm Ho Hr Hi)). divlia.
Qed.

Lemma imm_low ir : Z.land (imm_i ir) 0x1f = rs2_field ir.
Proof.
  unfold imm_i, rs2_field. cbv zeta. rewrite Z.land_lor_distr_l.
  destruct (test _ _); [change (Z.land 0xfffff000 0x1f) with 0|change (Z.land 0 0x1f) with 0]; apply Z.lor_0_r.
Qed.

Section ExecSpec.
Variables (pc0 cycle : Z) (s : CPUState).
Hypothesis C : cpu_ok s.
Hypothesis Hpc : word pc0.

Definition exec_as (i : instr) : Prop :=
  exists o, execute (encode i) pc0 cycle s = Some o /\
    finish_outcome cycle o = retire pc0 cycle s (isa_exec pc0 cycle i s).

(** Reduce [execute] on a word with known opcode. *)
Lemma exec_go i l : execute (encode i) pc0 cycle s = Some (Go l) -> trap l = 0 ->
  (on_csrs (finish cycle (u32 (pc l + 4))) (write_reg (rdid l) (rval l) (l_st l)), 0) =
    retire pc0 cycle s (isa_exec pc0 cycle i s) -> exec_as i.
Proof. intros E Ht R. exists (Go l). split; [done|]. destruct l as [st rd v p t]. cbn [trap pc rdid rval l_st] in *. subst. by rewrite done_ok. Qed.

Lemma sub4 z : u32 (u32 (z - 4) + 4) = u32 z.
Proof. rewrite wrap_add_l. f_equal. lia. Qed.

Lemma exec_lui rd imm : reg_ok rd -> 0 <= imm < 2 ^ 20 -> exec_as (Lui rd imm).
Proof.
  intros Hr Hi. eapply exec_go.
  - cbn [encode]. unfold execute. by rewrite (f_opcode _ _ _ _ _ _ _ (enc_u_fields 0x37 rd imm ltac:(lia) Hr Hi)).
  - done.
  - cbn [l_st rdid rval pc]. rewrite u_imm by (done || lia).
    by rewrite (f_rd _ _ _ _ _ _ _ (enc_u_fields 0x37 rd imm ltac:(lia) Hr Hi)).
Qed.

Lemma exec_auipc rd imm : reg_ok rd -> 0 <= imm < 2 ^ 20 -> exec_as (Auipc rd imm).
Proof.
  intros Hr Hi. eapply exec_go.
  - cbn [encode]. unfold execute. by rewrite (f_opcode _ _ _ _ _ _ _ (enc_u_fields 0x17 rd imm ltac:(lia) Hr Hi)).
  - done.
  - cbn [l_st rdid rval pc]. rewrite u_imm by (done || lia).
    by rewrite (f_rd _ _ _ _ _ _ _ (enc_u_fields 0x17 rd imm ltac:(lia) Hr Hi)).
Qed.

Lemma exec_jal rd ofs : reg_ok rd -> - 2 ^ 20 <= ofs < 2 ^ 20 -> ofs mod 2 = 0 -> exec_as (Jal rd ofs).
Proof.
  intros Hr Hi He. destruct (enc_j_fields 0x6f rd ofs ltac:(lia) Hr) as (f3 & r1 & r2 & f7 & F).
  pose proof (enc_j_imm 0x6f rd ofs ltac:(lia) Hr Hi He) as Hj. cbv zeta in Hj.
  eapply exec_go.
  - cbn [encode]. unfold execute. by rewrite (f_opcode _ _ _ _ _ _ _ F).
  - done.
  - unfold op_jal. cbv zeta. rewrite Hj. cbn [l_st rdid rval pc]. rewrite (f_rd _ _ _ _ _ _ _ F).
    rewrite sub4. by rewrite wrap_add_r.
Qed.

Lemma clear_bit0 z : word z -> Z.land z (not32 1) = z - z mod 2.
Proof.
  unfold word. intros Hz. change (not32 1) with ((2 ^ 31 - 1) * 2 ^ 1). rewrite mask_mod by lia.
  rewrite Z.mod_small by divlia. divlia.
Qed.

Lemma exec_jalr rd rs1 ofs : reg_ok rd -> reg_ok rs1 -> imm12_ok ofs -> exec_as (Jalr rd rs1 ofs).
Proof.
  intros Hr Hr1 Hi. pose proof (enc_i_fields 0x67 rd 0 rs1 ofs ltac:(lia) Hr ltac:(lia) Hr1) as F.
  eapply exec_go.
  - cbn [encode]. unfold execute. by rewrite (f_opcode _ _ _ _ _ _ _ F).
  - done.
  - unfold op_jalr. cbn [l_st rdid rval pc isa_exec retire].
    rewrite (f_rd _ _ _ _ _ _ _ F), (f_rs1 _ _ _ _ _ _ _ F), sub4.
    rewrite enc_i_imm by (done || lia). rewrite wrap_add_r, clear_bit0 by apply word_wrap.
    pose proof (word_wrap (REG s rs1 + ofs)) as Hw. unfold word in Hw.
    rewrite (wrap_small 32 (_ - _ mod 2)) by divlia. done.
Qed.

Lemma exec_branch o rs1 rs2 ofs :
  reg_ok rs1 -> reg_ok rs2 -> - 2 ^ 12 <= ofs < 2 ^ 12 -> ofs mod 2 = 0 -> exec_as (Branch o rs1 rs2 ofs).
Proof.
  intros H1 H2 Hi He. assert (0 <= bcond_f3 o < 8) as Ho by (destruct o; cbn; lia).
  destruct (enc_b_fields 0x63 (bcond_f3 o) rs1 rs2 ofs ltac:(lia) Ho H1 H2) as (rd & f7 & F).
  pose proof (enc_b_imm 0x63 (bcond_f3 o) rs1 rs2 ofs ltac:(lia) Ho H1 H2 Hi He) as Hj. cbv zeta in Hj.
  eapply exec_go.
  - cbn [encode]. unfold execute. by rewrite (f_opcode _ _ _ _ _ _ _ F).
  - unfold op_branch. cbv zeta. rewrite (f_f3 _ _ _ _ _ _ _ F). by destruct o.
  - unfold op_branch. cbv zeta. rewrite Hj, (f_f3 _ _ _ _ _ _ _ F), (f_rs1 _ _ _ _ _ _ _ F), (f_rs2 _ _ _ _ _ _ _ F).
    assert (forall b : bool, u32 ((if b then u32 (pc0 + u32 ofs - 4) else pc0) + 4) =
      (if b then u32 (pc0 + ofs) else u32 (pc0 + 4))) as Hb.
    { intros []; [|done]. by rewrite sub4, wrap_add_r. }
    destruct o; cbn [bcond_f3 l_st rdid rval pc isa_exec retire taken]; by rewrite Hb.
Qed.

(** The bound of the emulator is the end of the RAM. *)
Lemma ram_spec a : ram s a = if u32 (mem_size s - 3) <=? u32 (a - mem_offset s) then None
  else Some (u32 (a - mem_offset s)).
Proof.
  pose proof (ok_size s C). unfold ram. cbv zeta. rewrite (wrap_small 32 (mem_size s - 3)) by lia.
  zcases; try done; lia.
Qed.

Lemma back_to_addr a : word a -> u32 (u32 (a - mem_offset s) + mem_offset s) = a.
Proof. intros Ha. rewrite wrap_add_l. rewrite Z.sub_add. by apply wrap_small. Qed.

Lemma load_ram ofs n : (n <= 4)%nat -> (u32 (mem_size s - 3) <=? u32 ofs) = false ->
  load s (u32 ofs) n = Some (load_le (mem_bytes s) (u32 ofs) n).
Proof.
  intros Hn Hb. destruct (in_ram s (u32 ofs) C (word_wrap _) Hb) as [H0 H4]. unfold load. zcases; try lia. done.
Qed.

Lemma store_ram ofs n v (s' : CPUState) : mem_size s' = mem_size s -> (n <= 4)%nat ->
  (u32 (mem_size s - 3) <=? u32 ofs) = false -> store (u32 ofs) n v s' = Some (write_ram (u32 ofs) n v s').
Proof.
  intros Hs Hn Hb. destruct (in_ram s (u32 ofs) C (word_wrap _) Hb) as [H0 H4].
  unfold store. rewrite <- Hs in H4. zcases; try lia. done.
Qed.

Lemma exec_exn i rd v t : execute (encode i) pc0 cycle s = Some (Go (mkL s rd v pc0 t)) -> 0 < t < 2 ^ 31 ->
  isa_exec pc0 cycle i s = Exn (t - 1) (if (5 <? t) && (t <=? 8) then v else pc0) -> exec_as i.
Proof. intros E Ht R. eexists. split; [exact E|]. rewrite exn_ok by done. by rewrite R. Qed.

Lemma exec_load w rd rs1 ofs : reg_ok rd -> reg_ok rs1 -> imm12_ok ofs -> exec_as (Load w rd rs1 ofs).
Proof.
  intros Hr H1 Hi. assert (0 <= lwidth_f3 w < 8) as Hw by (destruct w; cbn; lia).
  pose proof (enc_i_fields 0x03 rd (lwidth_f3 w) rs1 ofs ltac:(lia) Hr Hw H1) as F.
  set (a := u32 (REG s rs1 + ofs)).
  assert (execute (encode (Load w rd rs1 ofs)) pc0 cycle s =
    (l ← op_load (enc_i 0x03 rd (lwidth_f3 w) rs1 ofs) pc0 s; Some (Go l))) as E.
  { cbn [encode]. unfold execute. by rewrite (f_opcode _ _ _ _ _ _ _ F). }
  unfold op_load in E. cbv zeta in E. rewrite (f_rd _ _ _ _ _ _ _ F), (f_rs1 _ _ _ _ _ _ _ F), (f_f3 _ _ _ _ _ _ _ F) in E.
  rewrite enc_i_imm in E by (done || lia). rewrite (wrap_add_r 32 (REG s rs1) ofs) in E. fold a in E.
  pose proof (ram_spec a) as Hram. assert (word a) as Ha by apply word_wrap.
  destruct (u32 (mem_size s - 3) <=? u32 (a - mem_offset s)) eqn:Eb.
  - rewrite back_to_addr in E by done. fold (device a) in E. destruct (device a) eqn:Ed; rewrite some_bind in E.
    + eapply exec_go; [exact E|done|]. cbn [l_st rdid rval pc isa_exec]. unfold isa_load. fold a.
      by rewrite Hram, Ed.
    + eapply exec_exn; [exact E|lia|]. cbn [isa_exec]. unfold isa_load. fold a. by rewrite Hram, Ed.
  - destruct w; cbn [lwidth_f3] in E; rewrite load_ram, !some_bind in E by (done || lia);
      (eapply exec_go; [exact E|done|]); cbn [l_st rdid rval pc isa_exec]; unfold isa_load; fold a;
      by rewrite Hram.
Qed.

Lemma exec_store w rs1 rs2 ofs : reg_ok rs1 -> reg_ok rs2 -> imm12_ok ofs -> exec_as (Store w rs1 rs2 ofs).
Proof.
  intros H1 H2 Hi. assert (0 <= swidth_f3 w < 8) as Hw by (destruct w; cbn; lia).
  pose proof (enc_s_fields 0x23 (swidth_f3 w) rs1 rs2 ofs ltac:(lia) Hw H1 H2) as F.
  pose proof (enc_s_imm 0x23 (swidth_f3 w) rs1 rs2 ofs ltac:(lia) Hw H1 H2 Hi) as Hj. cbv zeta in Hj.
  set (a := u32 (REG s rs1 + ofs)).
  assert (execute (encode (Store w rs1 rs2 ofs)) pc0 cycle s =
    op_store (enc_s 0x23 (swidth_f3 w) rs1 rs2 ofs) pc0 s) as E.
  { cbn [encode]. unfold execute. by rewrite (f_opcode _ _ _ _ _ _ _ F). }
  unfold op_store in E. cbv zeta in E. rewrite Hj, (f_rs1 _ _ _ _ _ _ _ F), (f_rs2 _ _ _ _ _ _ _ F), (f_f3 _ _ _ _ _ _ _ F) in E.
  assert (u32 (u32 ofs + u32 (REG s rs1 - mem_offset s)) = u32 (a - mem_offset s)) as Ea.
  { unfold a. rewrite wrap_add_l, wrap_add_r, wrap_sub_l. f_equal. lia. }
  rewrite Ea in E. pose proof (ram_spec a) as Hram. assert (word a) as Ha by apply word_wrap.
  destruct (u32 (mem_size s - 3) <=? u32 (a - mem_offset s)) eqn:Eb.
  - rewrite back_to_addr in E by done. fold (device a) in E.
    assert (isa_exec pc0 cycle (Store w rs1 rs2 ofs) s = isa_store pc0 w a (REG s rs2) s) as R by done.
    unfold isa_store in R. rewrite Hram in R. destruct (device a); [|by eapply exec_exn; [exact E|lia|]].
    destruct (a =? 0x11004004); [eapply exec_go; [exact E|done|]; by rewrite R|].
    destruct (a =? 0x11004000); [eapply exec_go; [exact E|done|]; by rewrite R|].
    destruct (a =? 0x11100000); [|eapply exec_go; [exact E|done|]; by rewrite R].
    eexists. split; [exact E|]. by rewrite R.
  - destruct w; cbn [swidth_f3] in E; rewrite store_ram, !some_bind in E by (done || lia);
      (eapply exec_go; [exact E|done|]); cbn [l_st rdid rval pc isa_exec]; unfold isa_store; fold a;
      by rewrite Hram.
Qed.

Lemma exec_opimm o rd rs1 imm : reg_ok rd -> reg_ok rs1 -> imm12_ok imm -> exec_as (OpImm o rd rs1 imm).
Proof.
  intros Hr H1 Hi. assert (0 <= iop_f3 o < 8) as Ho by (destruct o; cbn; lia).
  pose proof (enc_i_fields 0x13 rd (iop_f3 o) rs1 imm ltac:(lia) Hr Ho H1) as F.
  eapply exec_go.
  - cbn [encode]. unfold execute. by rewrite (f_opcode _ _ _ _ _ _ _ F).
  - done.
  - unfold op_alu. cbv zeta. cbn [l_st rdid rval pc isa_exec retire].
    rewrite (f_bit5 _ _ _ _ _ _ _ F). change (0x13 / 32 mod 2 =? 1) with false. cbn [andb].
    rewrite (f_rd _ _ _ _ _ _ _ F), (f_rs1 _ _ _ _ _ _ _ F), enc_i_imm by (done || lia).
    rewrite (arith_rop _ _ (iop_rop o)); [done|by apply reg_word|apply word_wrap| | |].
    + rewrite (f_f3 _ _ _ _ _ _ _ F). by destruct o.
    + by destruct o.
    + by destruct o as [| | | | |]; intros [H|H].
Qed.

Lemma shift_amount o x y : (o = SLL \/ o = SRL \/ o = SRA) ->
  rop_val o x y = rop_val o x (y mod 32).
Proof. intros [-> |[-> | ->]]; cbn [rop_val]; by rewrite Z.mod_mod. Qed.

Lemma exec_shimm o rd rs1 shamt : reg_ok rd -> reg_ok rs1 -> 0 <= shamt < 32 -> exec_as (ShImm o rd rs1 shamt).
Proof.
  intros Hr H1 Hs. assert (0 <= shop_f3 o < 8) as Ho by (destruct o; cbn; lia).
  assert (0 <= shop_f7 o < 128) as H7 by (destruct o; cbn; lia).
  pose proof (pack_fields 0x13 rd (shop_f3 o) rs1 shamt (shop_f7 o) ltac:(lia) Hr Ho H1 Hs H7) as F.
  assert (word (imm_i (pack 0x13 rd (shop_f3 o) rs1 shamt (shop_f7 o)))) as Hw.
  { unfold imm_i. cbv zeta. rewrite (f_shr20 _ _ _ _ _ _ _ F). apply word_lor; [unfold word; lia|].
    destruct (test _ _); unfold word; lia. }
  eapply exec_go.
  - cbn [encode]. unfold execute. by rewrite (f_opcode _ _ _ _ _ _ _ F).
  - done.
  - unfold op_alu. cbv zeta. cbn [l_st rdid rval pc isa_exec retire].
    rewrite (f_bit5 _ _ _ _ _ _ _ F). change (0x13 / 32 mod 2 =? 1) with false. cbn [andb].
    rewrite (f_rd _ _ _ _ _ _ _ F), (f_rs1 _ _ _ _ _ _ _ F).
    rewrite (arith_rop _ _ (shop_rop o)); [|by apply reg_word|done| | |].
    + rewrite shift_amount by (destruct o; auto). rewrite <- land31, imm_low, (f_rs2 _ _ _ _ _ _ _ F). done.
    + rewrite (f_f3 _ _ _ _ _ _ _ F). by destruct o.
    + by destruct o; intros [H|H].
    + intros _. rewrite (f_bit30 _ _ _ _ _ _ _ F). by destruct o.
Qed.

Lemma exec_op o rd rs1 rs2 : reg_ok rd -> reg_ok rs1 -> reg_ok rs2 -> exec_as (Op o rd rs1 rs2).
Proof.
  intros Hr H1 H2. assert (0 <= rop_f3 o < 8) as Ho by (destruct o; cbn; lia).
  assert (0 <= rop_f7 o < 128) as H7 by (destruct o; cbn; lia).
  pose proof (pack_fields 0x33 rd (rop_f3 o) rs1 rs2 (rop_f7 o) ltac:(lia) Hr Ho H1 H2 H7) as F.
  eapply exec_go.
  - cbn [encode]. unfold execute. by rewrite (f_opcode _ _ _ _ _ _ _ F).
  - done.
  - unfold op_alu. cbv zeta. cbn [l_st rdid rval pc isa_exec retire].
    rewrite (f_bit5 _ _ _ _ _ _ _ F). change (0x33 / 32 mod 2 =? 1) with true. cbn [andb].
    rewrite imm_low, (f_rd _ _ _ _ _ _ _ F), (f_rs1 _ _ _ _ _ _ _ F), (f_rs2 _ _ _ _ _ _ _ F).
    assert (test (pack 0x33 rd (rop_f3 o) rs1 rs2 (rop_f7 o)) 0x02000000 = false) as ->.
    { rewrite (f_bit25 _ _ _ _ _ _ _ F). by destruct o. }
    rewrite (arith_rop _ _ o); [done|by apply reg_word|by apply reg_word|by rewrite (f_f3 _ _ _ _ _ _ _ F)| |].
    all: intros _; cbn [andb]; rewrite (f_bit30 _ _ _ _ _ _ _ F); by destruct o.
Qed.

Lemma exec_muldiv o rd rs1 rs2 : reg_ok rd -> reg_ok rs1 -> reg_ok rs2 -> exec_as (MulDiv o rd rs1 rs2).
Proof.
  intros Hr H1 H2. assert (0 <= mop_f3 o < 8) as Ho by (destruct o; cbn; lia).
  pose proof (pack_fields 0x33 rd (mop_f3 o) rs1 rs2 1 ltac:(lia) Hr Ho H1 H2 ltac:(lia)) as F.
  eapply exec_go.
  - cbn [encode]. unfold execute. by rewrite (f_opcode _ _ _ _ _ _ _ F).
  - done.
  - unfold op_alu. cbv zeta. cbn [l_st rdid rval pc isa_exec retire].
    rewrite (f_bit5 _ _ _ _ _ _ _ F). change (0x33 / 32 mod 2 =? 1) with true. cbn [andb].
    rewrite imm_low, (f_rd _ _ _ _ _ _ _ F), (f_rs1 _ _ _ _ _ _ _ F), (f_rs2 _ _ _ _ _ _ _ F).
    rewrite (f_bit25 _ _ _ _ _ _ _ F). change (1 mod 2 =? 1) with true. cbv iota.
    rewrite (muldiv_mop _ o); [done|by apply reg_word|by apply reg_word|by apply F].
Qed.

(** RV32A: the check of the address and the load are common. *)
Lemma exec_amo_like i f5 aqrl rd rs1 rs2 f :
  encode i = pack 0x2f rd 2 rs1 rs2 (4 * f5 + aqrl) ->
  isa_exec pc0 cycle i s = isa_amo pc0 rd (REG s rs1) f s ->
  reg_ok rd -> reg_ok rs1 -> reg_ok rs2 -> 0 <= aqrl < 4 -> 0 <= f5 < 32 ->
  (forall ofs, (u32 (mem_size s - 3) <=? u32 ofs) = false ->
     let '(s', v, y, w, t) := amo_op f5 (u32 ofs) (REG s rs2) (load_le (mem_bytes s) (u32 ofs) 4) s in
     t = 0 /\ mem_size s' = mem_size s /\
     write_reg rd v (if w then write_ram (u32 ofs) 4 y s' else s') = f (u32 ofs) (load_le (mem_bytes s) (u32 ofs) 4) s) ->
  exec_as i.
Proof.
  intros Ei Er Hr H1 H2 Haq H5 Hf.
  pose proof (pack_fields 0x2f rd 2 rs1 rs2 (4 * f5 + aqrl) ltac:(lia) Hr ltac:(lia) H1 H2 ltac:(lia)) as F.
  assert (execute (encode i) pc0 cycle s = (l ← op_amo (pack 0x2f rd 2 rs1 rs2 (4 * f5 + aqrl)) pc0 s; Some (Go l))) as E.
  { rewrite Ei. unfold execute. by rewrite (f_opcode _ _ _ _ _ _ _ F). }
  unfold op_amo in E. cbv zeta in E.
  rewrite (f_rd _ _ _ _ _ _ _ F), (f_rs1 _ _ _ _ _ _ _ F), (f_rs2 _ _ _ _ _ _ _ F), (f_irmid _ _ _ _ _ _ _ F) in E.
  replace ((4 * f5 + aqrl) / 4) with f5 in E by divlia.
  pose proof (ram_spec (REG s rs1)) as Hram. unfold isa_amo in Er. rewrite Hram in Er.
  assert (word (REG s rs1)) as Hw by (by apply reg_word).
  destruct (u32 (mem_size s - 3) <=? u32 (REG s rs1 - mem_offset s)) eqn:Eb.
  - rewrite back_to_addr, some_bind in E by done. by eapply exec_exn; [exact E|lia|].
  - rewrite load_ram, some_bind in E by (done || lia). specialize (Hf _ Eb).
    destruct (amo_op _ _ _ _ _) as [[[[s' v] y] w] t]. destruct Hf as (-> & Hs & Hf).
    destruct w; [rewrite store_ram in E by (done || lia)|]; rewrite !some_bind in E.
    all: eapply exec_go; [exact E|done|]; cbn [l_st rdid rval pc]; rewrite Er; cbn [retire]; by rewrite <- Hf.
Qed.

Lemma exec_amo o aqrl rd rs1 rs2 : reg_ok rd -> reg_ok rs1 -> reg_ok rs2 -> 0 <= aqrl < 4 ->
  exec_as (Amo o aqrl rd rs1 rs2).
Proof.
  intros Hr H1 H2 Ha. eapply (exec_amo_like _ (aop_f5 o)); [done|done|done|done|done|done|by destruct o|].
  intros ofs Hb. destruct o; cbn [aop_f5 amo_op aop_val]; split_and!; try done; f_equal; f_equal.
  all: rewrite ?(Z.add_comm (REG s rs2)), ?(Z.lxor_comm (REG s rs2)), ?(Z.land_comm (REG s rs2)), ?(Z.lor_comm (REG s rs2)); try done.
  all: zcases; lia.
Qed.

Lemma reserve_flags ef ofs : word ef -> word ofs ->
  Z.lor (Z.land ef 0x07) (u32 (Z.shiftl ofs 3)) = ef mod 8 + 8 * (ofs mod 2 ^ 29).
Proof.
  unfold word. intros He Ho. replace (Z.land ef 7) with (ef mod 2 ^ 3) by (symmetry; by apply (land_ones_mod ef 3)).
  rewrite Z.shiftl_mul_pow2 by lia. unfold wrap. rewrite (lor_add _ _ 3) by divlia. divlia.
Qed.

Lemma csr_extraflags : word (EXTRAFLAGS (csrs s)).
Proof. pose proof (ok_csr s C) as Hc. apply csr_ok_iff in Hc. tauto. Qed.

Lemma exec_lr aqrl rd rs1 : reg_ok rd -> reg_ok rs1 -> 0 <= aqrl < 4 -> exec_as (LoadReserved aqrl rd rs1).
Proof.
  intros Hr H1 Ha. eapply (exec_amo_like _ 2 aqrl rd rs1 0); [done|done|done|done|done|done|lia|].
  intros ofs Hb. cbn [amo_op]. split_and!; try done. f_equal.
  unfold on_csrs. cbv beta. by rewrite reserve_flags by (apply csr_extraflags || apply word_wrap).
Qed.

Lemma exec_sc aqrl rd rs1 rs2 : reg_ok rd -> reg_ok rs1 -> reg_ok rs2 -> 0 <= aqrl < 4 ->
  exec_as (StoreCond aqrl rd rs1 rs2).
Proof.
  intros Hr H1 H2 Ha. eapply (exec_amo_like _ 3 aqrl rd rs1 rs2); [done|done|done|done|done|done|lia|].
  intros ofs Hb. cbn [amo_op]. split_and!; try done. unfold reservation.
  rewrite Z.shiftr_div_pow2 by lia. change (2 ^ 3) with 8. change 0x1fffffff with (2 ^ 29 - 1).
  rewrite land_ones_mod by lia. by destruct (_ =? _).
Qed.

Lemma exec_fence_i imm rd rs1 : reg_ok rd -> reg_ok rs1 -> exec_as (FenceI imm rd rs1).
Proof.
  intros Hr H1. pose proof (enc_i_fields 0x0f rd 1 rs1 imm ltac:(lia) Hr ltac:(lia) H1) as F.
  eapply exec_go; [cbn [encode]; unfold execute; by rewrite (f_opcode _ _ _ _ _ _ _ F)|done|done].
Qed.

Lemma exec_fence fm rd rs1 : reg_ok rd -> reg_ok rs1 -> exec_as (Fence fm rd rs1).
Proof.
  intros Hr H1. pose proof (enc_i_fields 0x0f rd 0 rs1 fm ltac:(lia) Hr ltac:(lia) H1) as F.
  eapply exec_go; [cbn [encode]; unfold execute; by rewrite (f_opcode _ _ _ _ _ _ _ F)|done|done].
Qed.

Lemma land_not32 old x : word old -> Z.land old (not32 x) = Z.ldiff old x.
Proof.
  intros Ho. apply Z.bits_inj'. intros i Hi. rewrite Z.ldiff_spec, Z.land_spec. unfold not32.
  rewrite wrap_bits by lia. destruct (Z_lt_le_dec i 32).
  - rewrite Z.lnot_spec by done. by zcases; try lia.
  - by rewrite (word_high old i).
Qed.

Lemma sys_opcode i f3 imm rd rs1 : encode i = enc_i 0x73 rd f3 rs1 imm ->
  reg_ok rd -> 0 <= f3 < 8 -> reg_ok rs1 -> 0 <= imm < 2 ^ 12 ->
  execute (encode i) pc0 cycle s = Some (op_system (encode i) pc0 cycle s) /\
  Z.shiftr (encode i) 20 = imm /\ funct3 (encode i) = f3 /\ rs1_field (encode i) = rs1 /\ rd_field (encode i) = rd.
Proof.
  intros E Hr Hf H1 Hi. pose proof (enc_i_fields 0x73 rd f3 rs1 imm ltac:(lia) Hr Hf H1) as F. rewrite E.
  split; [unfold execute; by rewrite (f_opcode _ _ _ _ _ _ _ F)|].
  split; [|by destruct F]. rewrite (f_shr20 _ _ _ _ _ _ _ F), (Z.mod_small imm) by done. divlia.
Qed.

(** The emulator's [switch] is the table. *)
Lemma csr_value_lookup c n : csr_value cycle c n = csr_lookup n (csr_space cycle c).
Proof.
  unfold csr_value, csr_space, csr_lookup.
  repeat match goal with
  | |- match ?p with _ => _ end = _ => is_var p; destruct p; try reflexivity
  end.
Qed.

Lemma csr_assign_write c n v : csr_assign n v c = csr_write n v c.
Proof.
  unfold csr_assign, csr_write.
  repeat match goal with
  | |- match ?p with _ => _ end = _ => is_var p; destruct p; try (destruct c; reflexivity)
  end.
Qed.

Lemma exec_csr o csr rd rs1 : reg_ok rd -> reg_ok rs1 -> 0 <= csr < 2 ^ 12 -> word cycle -> exec_as (Csr o csr rd rs1).
Proof.
  intros Hr H1 Hc Hcy. assert (0 <= cop_f3 o < 8) as Ho by (destruct o; cbn; lia).
  destruct (sys_opcode (Csr o csr rd rs1) (cop_f3 o) csr rd rs1) as (E & Ecsr & Ef & E1 & Erd); try done.
  unfold op_system in E. cbv zeta in E. rewrite Ecsr, Ef in E.
  assert (test (cop_f3 o) 3 = true) as Ht by (by destruct o). rewrite Ht in E.
  pose proof (csr_value_word cycle s C Hcy csr) as Hv.
  eapply exec_go; [exact E|done|]. unfold op_csr. cbv zeta. cbn [l_st rdid rval pc isa_exec retire].
  rewrite E1, Erd, <- csr_value_lookup. unfold on_csrs. rewrite <- csr_assign_write. destruct o; cbn [cop_f3 cop_val]; by rewrite ?land_not32.
Qed.

Lemma exec_ecall : exec_as Ecall.
Proof.
  destruct (sys_opcode Ecall 0 0 0 0) as (E & Ecsr & Ef & _); try (by unfold reg_ok; (lia || done)).
  unfold op_system in E. cbv zeta in E. rewrite Ecsr, Ef in E. cbn [Z.eqb] in E.
  change (test 0 3) with false in E. change (Z.land 0 0xff =? 2) with false in E. cbv iota in E.
  eapply exec_exn; [exact E|destruct (test _ _); lia|]. cbn [isa_exec].
  assert (test (EXTRAFLAGS (csrs s)) 3 = negb (mode (csrs s) =? 0)) as ->.
  { unfold test, mode. by rewrite (land_ones_mod _ 2 : 0 <= 2 -> Z.land _ 3 = _ mod 4). }
  by destruct (mode (csrs s) =? 0).
Qed.

Lemma exec_ebreak : exec_as Ebreak.
Proof.
  destruct (sys_opcode Ebreak 0 1 0 0) as (E & Ecsr & Ef & _); try (by unfold reg_ok; (lia || done)).
  unfold op_system in E. cbv zeta in E. rewrite Ecsr, Ef in E. change (test 0 3) with false in E.
  eapply exec_exn; [exact E|lia|done].
Qed.

Lemma exec_mret : exec_as Mret.
Proof.
  destruct (sys_opcode Mret 0 0x302 0 0) as (E & Ecsr & Ef & _); try (by unfold reg_ok; (lia || done)).
  unfold op_system in E. cbv zeta in E. rewrite Ecsr, Ef in E. change (test 0 3) with false in E.
  change (Z.land 0x302 0xff =? 2) with true in E. change (0x302 =? 0x105) with false in E. cbn [Z.eqb] in E.
  eapply exec_go; [exact E|done|]. cbn [l_st rdid rval pc isa_exec retire]. 
  pose proof (ok_csr s C) as Hc. apply csr_ok_iff in Hc as (?&?&?&?&?&?&?&?&?&?&?&?&?&?).
  rewrite sub4, wrap_small by done. unfold mret_csrs, trap_return, on_csrs, mode. cbv zeta.
  by rewrite ret_mstatus, ret_extraflags by (done || apply csr_extraflags).
Qed.

Lemma exec_wfi : exec_as Wfi.
Proof.
  destruct (sys_opcode Wfi 0 0x105 0 0) as (E & Ecsr & Ef & _); try (by unfold reg_ok; (lia || done)).
  unfold op_system in E. cbv zeta in E. rewrite Ecsr, Ef in E. change (test 0 3) with false in E.
  eexists. split; [exact E|]. cbn [finish_outcome isa_exec retire]. unfold fall_asleep, sleeping, on_csrs.
  change (Z.lor (MSTATUS (csrs s)) 8) with (Z.lor (MSTATUS (csrs s)) (2 ^ 3)).
  change (Z.lor (EXTRAFLAGS (csrs s)) 4) with (Z.lor (EXTRAFLAGS (csrs s)) (2 ^ 2)).
  by rewrite !lor_bit.
Qed.

Lemma exec_all i : instr_ok i -> word cycle -> exec_as i.
Proof.
  intros Hi Hcy. destruct i; cbn in Hi.
  - apply exec_lui; tauto.
  - apply exec_auipc; tauto.
  - apply exec_jal; tauto.
  - apply exec_jalr; tauto.
  - apply exec_branch; tauto.
  - apply exec_load; tauto.
  - apply exec_store; tauto.
  - apply exec_opimm; tauto.
  - apply exec_shimm; tauto.
  - apply exec_op; tauto.
  - apply exec_muldiv; tauto.
  - apply exec_amo; tauto.
  - apply exec_lr; tauto.
  - apply exec_sc; tauto.
  - apply exec_fence; tauto.
  - apply exec_fence_i; tauto.
  - apply exec_csr; tauto.
  - exact exec_ecall.
  - exact exec_ebreak.
  - exact exec_mret.
  - exact exec_wfi.
Qed.

End ExecSpec.

(** ** One step *)

(** The state in which the instruction of a step is executed. *)
Definition ticked (s : CPUState) (elapsedUs : Z) : CPUState := on_csrs (timer_tick elapsedUs) s.

(** The hart is awake and takes no interrupt. *)
Definition awake (c : csr_file) : Prop :=
  test (EXTRAFLAGS c) 4 = false /\
  test (MIP c) (Z.shiftl 1 7) && test (MIE c) (Z.shiftl 1 7) && test (MSTATUS c) 0x8 = false.

Lemma ticked_ok s e : cpu_ok s -> word e -> cpu_ok (ticked s e).
Proof. intros C He. apply (keeps_csrs (timer_tick e) s C). by apply timer_ok. Qed.

Lemma step_isa s e i :
  cpu_ok s -> word e -> instr_ok i ->
  let t := ticked s e in
  awake (csrs t) -> fetches t i ->
  let cycle := u32 (CYCLEL (csrs t) + 1) in
  rv32ima_step s e = Some (retire (PC (csrs t)) cycle t (isa_exec (PC (csrs t)) cycle i t)).
Proof.
  intros Cs He Hi t [Hw Hint] (Hlt & Hal & Hload) cycle.
  assert (cpu_ok t) as C by (by apply ticked_ok).
  pose proof (ok_csr t C) as Hc. apply csr_ok_iff in Hc as (Hpc&?).
  unfold rv32ima_step. cbv zeta. fold (ticked s e). fold t. rewrite Hw, Hint.
  set (ofs := u32 (PC (csrs t) - mem_offset t)) in *.
  assert (0 <= ofs) as H0 by apply wrap_range, Z.leb_le, eq_refl.
  destruct (Z.leb_spec (mem_size t) ofs); [lia|].
  assert (test ofs 3 = false) as ->.
  { unfold test. by rewrite (land_ones_mod ofs 2 : 0 <= 2 -> Z.land ofs 3 = ofs mod 4), Hal. }
  assert (load t ofs 4 = Some (encode i)) as ->.
  { assert (ofs + 4 <= mem_size t) as Hin by (pose proof (ok_align t C); divlia).
    unfold load. rewrite Hload. zcases; try done; lia. }
  rewrite some_bind. fold cycle.
  destruct (exec_all (PC (csrs t)) cycle t C i Hi (word_wrap _)) as (o & -> & Ho). rewrite some_bind.
  rewrite <- Ho. by destruct o.
Qed.

Lemma clear_bit x k : word x -> 0 <= k < 32 -> Z.land x (not32 (2 ^ k)) = x - 2 ^ k * (x / 2 ^ k mod 2).
Proof.
  intros Hx Hk. rewrite land_not32 by done.
  pose proof (mask_mod x k 1 ltac:(lia) ltac:(lia)) as E. change (2 ^ 1 - 1) with 1 in E. rewrite Z.mul_1_l in E. change (2 ^ 1) with 2 in E.
  rewrite Z.mul_comm, <- E. rewrite Z.sub_nocarry_ldiff; apply Z.bits_inj'; intros i Hi;
    rewrite ?Z.ldiff_spec, ?Z.land_spec, ?Z.ldiff_spec, ?Z.bits_0; by destruct (Z.testbit x i), (Z.testbit (2 ^ k) i).
Qed.

Lemma two_words h l : word h -> word l -> Z.lor (u64 (Z.shiftl h 32)) l = 2 ^ 32 * h + l.
Proof.
  unfold word. intros Hh Hl. rewrite Z.shiftl_mul_pow2, wrap_small by lia.
  rewrite Z.lor_comm, (lor_add _ _ 32) by divlia. lia.
Qed.

(** [timer_tick] with the new value of the timer given. *)
Definition timer_set (h l : Z) (c : csr_file) : csr_file :=
  let c := set_TIMERL l (set_TIMERH h c) in
  if (negb (TIMERMATCHH c =? 0) || negb (TIMERMATCHL c =? 0)) &&
     (Z.lor (u64 (Z.shiftl (TIMERMATCHH c) 32)) (TIMERMATCHL c) <? Z.lor (u64 (Z.shiftl h 32)) l)
  then set_MIP (Z.lor (MIP c) (Z.shiftl 1 7)) (set_EXTRAFLAGS (Z.land (EXTRAFLAGS c) (not32 4)) c)
  else set_MIP (Z.land (MIP c) (not32 (Z.shiftl 1 7))) c.

(** The two words of the timer are its 64-bit value. *)
Lemma timer_isa_tick e c : word e -> csr_ok c -> timer_isa e c = timer_tick e c.
Proof.
  intros He Hc. apply csr_ok_iff in Hc as (?&?&?&?&?&?&?&?&?&?&?&?&?&?&?&?).
  set (now := (2 ^ 32 * TIMERH c + TIMERL c + e) mod 2 ^ 64).
  assert (u32 (TIMERL c + e) = now mod 2 ^ 32) as El by (unfold wrap, now; unfold word in *; divlia).
  assert ((if now mod 2 ^ 32 <? TIMERL c then u32 (TIMERH c + 1) else TIMERH c) = now / 2 ^ 32) as Eh.
  { unfold wrap, now. unfold word in *. zcases; divlia. }
  assert (word (now / 2 ^ 32) /\ word (now mod 2 ^ 32)) as [Wh Wl] by (unfold word, now; divlia).
  assert (timer_tick e c = timer_set (now / 2 ^ 32) (now mod 2 ^ 32) c) as ->.
  { unfold timer_tick, timer_set. rewrite El, <- Eh. cbv zeta. by destruct (_ <? TIMERL c). }
  unfold timer_isa, timer_set, set_MIP, set_EXTRAFLAGS, set_TIMERL, set_TIMERH. fold now. cbv zeta.
  cbn [PC MSTATUS CYCLEL CYCLEH TIMERL TIMERH TIMERMATCHL TIMERMATCHH MSCRATCH MTVEC MIE MIP MEPC MTVAL MCAUSE EXTRAFLAGS].
  assert ((negb (TIMERMATCHH c =? 0) || negb (TIMERMATCHL c =? 0)) =
    negb (2 ^ 32 * TIMERMATCHH c + TIMERMATCHL c =? 0)) as ->.
  { unfold word in *. zcases; cbn; lia. }
  rewrite !two_words by done. replace (2 ^ 32 * (now / 2 ^ 32) + now mod 2 ^ 32) with now by divlia.
  change (Z.shiftl 1 7) with (2 ^ 7). change (not32 4) with (not32 (2 ^ 2)). rewrite !clear_bit by (done || lia).
  destruct (_ && _); cbn [andb]; [|by rewrite Z.add_0_r].
  rewrite lor_bit by lia. f_equal; [zcases; divlia|]. unfold sleeping. zcases; divlia.
Qed.

(** Entering the handler of the timer interrupt. *)
Lemma interrupt_taken s : cpu_ok s ->
  cycle_end 0x80000007 0 (u32 (PC (csrs s) - 4)) (CYCLEL (csrs s)) s =
  retire (PC (csrs s)) (CYCLEL (csrs s)) s (Exn 0x80000007 0).
Proof.
  intros C. pose proof (ok_csr s C) as Hc. apply csr_ok_iff in Hc as (?&?&?&?&?&?&?&?&?&?&?&?&?&?&?&?).
  unfold cycle_end, take_trap, retire, on_csrs. change (0x80000007 =? 0) with false.
  change (test 0x80000007 0x80000000) with true. cbv iota zeta. unfold trap_entry, finish, mode.
  cbn [MSTATUS EXTRAFLAGS MTVEC set_MEPC set_MTVAL set_MCAUSE set_MSTATUS].
  rewrite trap_mstatus, trap_extraflags, !sub4, !wrap_small by done. reflexivity.
Qed.

(** A fault of the fetch. *)
Lemma fetch_fault_taken s t : cpu_ok s -> t = 0 \/ t = 1 ->
  cycle_end (1 + t) 0 (PC (csrs s)) (u32 (CYCLEL (csrs s) + 1)) s =
  retire (PC (csrs s)) (u32 (CYCLEL (csrs s) + 1)) s (Exn t (PC (csrs s))).
Proof.
  intros C Ht. pose proof (exn_ok (u32 (CYCLEL (csrs s) + 1)) s 0 0 (PC (csrs s)) (1 + t) C ltac:(lia)) as E.
  replace (1 + t - 1) with t in E by lia. destruct Ht; subst; exact E.
Qed.

Lemma sleeping_test c : test (EXTRAFLAGS c) 4 = sleeping c.
Proof. exact (test_mod (EXTRAFLAGS c) 2 ltac:(lia)). Qed.

Lemma interrupted_test c :
  test (MIP c) (Z.shiftl 1 7) && test (MIE c) (Z.shiftl 1 7) && test (MSTATUS c) 0x8 = interrupted c.
Proof.
  unfold interrupted. change (Z.shiftl 1 7) with (2 ^ 7). change 0x8 with (2 ^ 3). by rewrite !test_mod by lia.
Qed.


(** The manual lets every store-conditional end the reservation; here it lasts, so
    a second one succeeds without a load-reserved in between. *)
Lemma sc_keeps_reservation pc0 cycle aqrl rd rs1 rs2 s s' npc :
  isa_exec pc0 cycle (StoreCond aqrl rd rs1 rs2) s = Done s' npc ->
  reservation (csrs s') = reservation (csrs s).
Proof.
  cbn [isa_exec]. unfold isa_amo. destruct (ram s (REG s rs1)) as [ofs|]; [|done].
  unfold write_reg. by destruct (_ =? ofs mod _), (rd =? 0); intros [= <- _].
Qed.

(** [mulhsu x3, x1, x2] with [x1 = -2] and [x2 = 2^32 - 1]. *)
Definition demo_mul : CPUState :=
  mkCPU (0 :: 0xfffffffe :: 0xffffffff :: replicate 29 0) (csrs demo_cpu)
    (store_le (fun _ => 0) 0 4 (encode (MulDiv MULHSU 3 1 2))) 0x80000000 64.

Lemma demo_mul_ok : cpu_ok demo_mul.
Proof.
  pose proof demo_cpu_ok as [H1 H2 H3 H4 H5 H6 H7 H8]. split.
  - exact H1.
  - assert (forall l, bool_decide (Forall (fun z => 0 <= z < 2 ^ 32) l) = true -> Forall word l) as Hw.
    { intros l. apply bool_decide_eq_true_1. }
    apply Hw. vm_compute. reflexivity.
  - reflexivity.
  - exact H4.
  - apply store_le_ok. intros a. cbn. lia.
  - exact H6.
  - exact H7.
  - exact H8.
Qed.

