(* ===== verification/CrazyOs.v ===== *)
(** * A round-robin operating system over the emulator (course_5/crazy-os)

    [crazy-os.c] runs one machine of [Rv32ima] for each process, one instruction
    at a time, and serves the system call that prints a character.  [stdout] is
    the list of the blocks [fwrite] was given, each with the number of the process
    that wrote it (which the program does not keep).  [None] is undefined
    behaviour: an access outside the buffer or the array of processes. *)

From S2P Require Import Prelude RvBits Rv32ima Rv32imaSafe Rv32imaIsa.

Definition MEM_SIZE : Z := 2 ^ 20.
Definition MEM_OFFSET : Z := 0x80000000.
Definition STACK_TOP : Z := MEM_OFFSET + MEM_SIZE.

Definition SP : Z := 2.
Definition A0 : Z := 10.
Definition A7 : Z := 17.

Record proc := mkProc { cpu : CPUState; buf : list Z; buf_len : Z }.

Definition csr_zero : csr_file := mkCsr 0 0 0 0 0 0 0 0 0 0 0 0 0 0 0 0.

(** The image is read into zeroed memory; at most [MEM_SIZE] bytes of it. *)
Definition proc_init (image : list Z) : proc :=
  mkProc (set_REG SP STACK_TOP (on_csrs (set_PC MEM_OFFSET)
            (mkCPU (replicate 32 0) csr_zero (mem_of 0 (take (Z.to_nat MEM_SIZE) image)) MEM_OFFSET MEM_SIZE)))
    (replicate 256 0) 0.

Definition newline : Z := 10.

(** What the call prints, if it empties the buffer. *)
Definition sys_putchar (p : proc) (ch : Z) : option (proc * option (list Z)) :=
  if (0 <=? buf_len p) && (buf_len p <? Z.of_nat (length (buf p))) then
    let b := <[Z.to_nat (buf_len p) := ch]> (buf p) in
    let n := buf_len p + 1 in
    if (ch =? newline) || (n =? 256 - 1)
    then Some (mkProc (cpu p) b 0, Some (take (Z.to_nat n) b))
    else Some (mkProc (cpu p) b n, None)
  else None.

Definition set_cpu (c : CPUState) (p : proc) : proc := mkProc c (buf p) (buf_len p).

(** What it does to the control registers is what MRET does, and more. *)
Definition ecall_return (c : csr_file) : csr_file :=
  let ms := MSTATUS c in
  let ef := EXTRAFLAGS c in
  let c := set_MSTATUS (Z.lor (Z.lor (Z.shiftr (Z.land ms 0x80) 4) (u32 (Z.shiftl (Z.land ef 3) 11))) 0x80) c in
  let c := set_EXTRAFLAGS (Z.lor (Z.land ef (not32 3)) (Z.land (Z.shiftr ms 11) 3)) c in
  let c := set_PC (u32 (MEPC c + 4)) c in
  set_MCAUSE 0 c.

Definition handle_ecall (p : proc) : option (proc * option (list Z)) :=
  '(ret, (p, o)) ← (if REG (cpu p) A7 =? 42
                    then po ← sys_putchar p (u8 (REG (cpu p) A0)); Some (0, po)
                    else Some (-1, (p, None)));
  let c := set_REG A0 (u32 ret) (cpu p) in
  Some (set_cpu (on_csrs ecall_return c) p, o).

(** One round of the loop for one process. *)
Definition proc_step (p : proc) : option (proc * option (list Z)) :=
  '(c, _) ← rv32ima_step (cpu p) 1;
  let p := set_cpu c p in
  if MCAUSE (csrs c) =? 8 then handle_ecall p else Some (p, None).

Record os := mkOs { procs : list proc; cur : nat; stdout : list (nat * list Z) }.

Definition os_step (w : os) : option os :=
  p ← procs w !! cur w;
  '(p, o) ← proc_step p;
  let out := match o with Some b => [(cur w, b)] | None => [] end in
  Some (mkOs (<[cur w := p]> (procs w)) (S (cur w) mod length (procs w)) (stdout w ++ out)).

Fixpoint os_run (k : nat) (w : os) : option os :=
  match k with
  | O => Some w
  | S k => w ← os_step w; os_run k w
  end.

Definition os_init (images : list (list Z)) : os := mkOs (proc_init <$> images) 0 [].

(** ** Safety *)

Definition byte_ok (b : Z) : Prop := 0 <= b < 2 ^ 8.

Record proc_ok (p : proc) : Prop := {
  pok_cpu : cpu_ok (cpu p);
  pok_offset : mem_offset (cpu p) = MEM_OFFSET;
  pok_size : mem_size (cpu p) = MEM_SIZE;
  pok_buf : length (buf p) = 256%nat;
  pok_bytes : Forall byte_ok (buf p);
  pok_len : 0 <= buf_len p < 255;
}.

(** What one [fwrite] gets: the last character, and only that one, is the reason
    to write. *)
Definition block_ok (b : list Z) : Prop :=
  Forall byte_ok b /\ b <> [] /\ (length b <= 255)%nat /\ (last b = Some newline \/ length b = 255%nat).

(** The characters a process has handed over and the program has not written. *)
Definition pending (p : proc) : list Z := take (Z.to_nat (buf_len p)) (buf p).

Definition printed (o : option (list Z)) : list Z := default [] o.

Lemma word_small v : (0 <=? v) && (v <? 2 ^ 32) = true -> word v.
Proof. unfold word. rewrite andb_true_iff, Z.leb_le, Z.ltb_lt. done. Qed.

Lemma mem_of_bytes a l : Forall byte_ok l -> mem_ok (mem_of a l).
Proof.
  intros H. apply mem_of_small_ok. apply forallb_forall. intros b Hb.
  rewrite andb_true_iff, Z.leb_le, Z.ltb_lt. apply (proj1 (List.Forall_forall byte_ok l) H b Hb).
Qed.

Lemma proc_init_ok image : Forall byte_ok image -> proc_ok (proc_init image).
Proof.
  intros Hi. split; [|done|done|done|by apply Forall_replicate|done]. split; [done| |done| | |by apply word_small|done|done].
  - cbn [cpu proc_init regs set_REG on_csrs]. apply Forall_insert; [by apply Forall_replicate|by apply word_small].
  - apply csr_ok_iff. cbn. split_and!; by apply word_small.
  - cbn [cpu proc_init mem_bytes set_REG on_csrs]. apply mem_of_bytes. by apply Forall_take.
Qed.

(** The buffer takes the character; when it is full or the line has ended, all of
    it goes out. *)
Lemma putchar_spec p ch : proc_ok p -> byte_ok ch ->
  exists p' o, sys_putchar p ch = Some (p', o) /\ proc_ok p' /\ cpu p' = cpu p /\
    printed o ++ pending p' = pending p ++ [ch] /\ (forall b, o = Some b -> block_ok b).
Proof.
  intros [Hc Ho Hs Hb Hby Hl] Hch. unfold sys_putchar.
  assert ((0 <=? buf_len p) && (buf_len p <? Z.of_nat (length (buf p))) = true) as ->.
  { rewrite Hb, andb_true_iff, Z.leb_le, Z.ltb_lt. lia. }
  set (n := Z.to_nat (buf_len p)). set (b := <[n := ch]> (buf p)).
  assert (Forall byte_ok b) as Hb' by (by apply Forall_insert).
  assert (take (Z.to_nat (buf_len p + 1)) b = pending p ++ [ch]) as Ht.
  { replace (Z.to_nat (buf_len p + 1)) with (S n) by lia. unfold b.
    rewrite (take_S_r _ _ ch) by (apply list_lookup_insert_eq; lia). by rewrite take_insert_ge. }
  assert (length b = 256%nat) as Hlen by (unfold b; by rewrite length_insert).
  assert (length (pending p ++ [ch]) = S n) as Hpl.
  { rewrite length_app. unfold pending. rewrite length_take. fold n. cbn. lia. }
  destruct (_ || _) eqn:E; (eexists _, _; split; [reflexivity|]; split_and!; cbn).
  - by split.
  - done.
  - by rewrite Ht, app_nil_r.
  - intros ? [= <-]. rewrite Ht. unfold block_ok. rewrite Hpl. split_and!.
    + rewrite <- Ht. by apply Forall_take.
    + by destruct (pending p).
    + lia.
    + apply orb_true_iff in E as [E|E]; apply Z.eqb_eq in E; [left; by rewrite last_snoc, E|right; lia].
  - apply orb_false_iff in E as [_ E]. apply Z.eqb_neq in E. split; cbn; try done. lia.
  - done.
  - done.
  - done.
Qed.

Lemma ecall_return_ok c : csr_ok c -> csr_ok (ecall_return c).
Proof. intros H. unfold ecall_return. csr_solve; repeat apply word_lor; eauto with rv. Qed.

Lemma char_byte z : byte_ok (u8 z).
Proof. apply wrap_range. done. Qed.

(** The handler: the call served, the result in [a0], the state the trap saved. *)
Lemma handle_ecall_spec p : proc_ok p ->
  exists p' o, handle_ecall p = Some (p', o) /\ proc_ok p' /\ frame (cpu p) (cpu p') /\
    (forall b, o = Some b -> block_ok b) /\
    cpu p' = on_csrs ecall_return (set_REG A0 (if REG (cpu p) A7 =? 42 then 0 else u32 (-1)) (cpu p)) /\
    printed o ++ pending p' =
      pending p ++ (if REG (cpu p) A7 =? 42 then [u8 (REG (cpu p) A0)] else []).
Proof.
  intros P. unfold handle_ecall.
  assert (forall q r, proc_ok q -> cpu q = cpu p -> word (u32 r) ->
    let c := on_csrs ecall_return (set_REG A0 (u32 r) (cpu q)) in
    proc_ok (set_cpu c q) /\ frame (cpu p) c) as Hq.
  { intros q r [Hc Ho Hs Hb Hby Hl] E Hr c.
    assert (keeps (cpu q) c) as [C F].
    { apply (keeps_trans _ (set_REG A0 (u32 r) (cpu q))); [by apply keeps_REG|].
      apply keeps_csrs; [by apply keeps_REG|apply ecall_return_ok]. }
    rewrite <- E. split; [|done]. destruct F as (F1 & F2 & _). split; cbn; try done; congruence. }
  destruct (_ =? 42).
  - destruct (putchar_spec p (u8 (REG (cpu p) A0)) P (char_byte _)) as (q & o & -> & Pq & Ec & Eo & Hbl).
    rewrite some_bind. destruct (Hq q 0 Pq Ec (word_wrap _)) as [H1 H2].
    eexists _, _. split; [reflexivity|]. split_and!; [done|done|done| |done].
    cbn [cpu set_cpu]. by rewrite Ec.
  - rewrite some_bind. destruct (Hq p (-1) P eq_refl (word_wrap _)) as [H1 H2].
    eexists _, _. split; [reflexivity|]. split_and!; [done|done|done|done|]. cbn. by rewrite app_nil_r.
Qed.

(** One slice of a process: it always ends, and only what its emulated machine
    owns changes. *)
Lemma proc_step_ok p : proc_ok p ->
  exists p' o, proc_step p = Some (p', o) /\ proc_ok p' /\ (forall b, o = Some b -> block_ok b).
Proof.
  intros [Hc Ho Hs Hb Hby Hl]. unfold proc_step.
  destruct (step_keeps (cpu p) 1 Hc) as (c & r & -> & [C (F1 & F2 & F3)] & _); [by apply word_small|].
  rewrite some_bind. assert (proc_ok (set_cpu c p)) as P by (split; cbn; try done; congruence).
  destruct (_ =? 8).
  - destruct (handle_ecall_spec _ P) as (p' & o & E & P' & _ & Hbl & _). by exists p', o.
  - by exists (set_cpu c p), None.
Qed.

Record os_ok (w : os) : Prop := {
  wok_procs : Forall proc_ok (procs w);
  wok_cur : (cur w < length (procs w))%nat;
  wok_out : Forall (fun b => block_ok b.2) (stdout w);
}.

Lemma os_init_ok images : images <> [] -> Forall (Forall byte_ok) images -> os_ok (os_init images).
Proof.
  intros Hn Hi. split; cbn; [|rewrite length_fmap; by destruct images; cbn; [|lia]|by apply Forall_nil].
  apply Forall_fmap. apply (Forall_impl _ _ _ Hi), proc_init_ok.
Qed.

(** One round: the process whose turn it is takes its slice. *)
Lemma os_step_spec w : os_ok w -> exists w' p p' o,
  os_step w = Some w' /\ os_ok w' /\ procs w !! cur w = Some p /\ proc_step p = Some (p', o) /\
  procs w' = <[cur w := p']> (procs w) /\ cur w' = (S (cur w) mod length (procs w))%nat /\
  stdout w' = stdout w ++ match o with Some b => [(cur w, b)] | None => [] end.
Proof.
  intros [Hp Hc Ho]. unfold os_step. destruct (lookup_lt_is_Some_2 _ _ Hc) as [p E]. rewrite E, some_bind.
  destruct (proc_step_ok p) as (p' & o & Es & P' & Hb); [by eapply Forall_lookup_1|].
  rewrite Es, some_bind. eexists _, p, p', o. split; [reflexivity|]. split_and!; try done.
  split; cbn.
  - by apply Forall_insert.
  - rewrite length_insert. apply Nat.mod_upper_bound. lia.
  - apply Forall_app. split; [done|]. destruct o; [|by apply Forall_nil]. apply Forall_singleton. by apply Hb.
Qed.

Lemma os_run_add j k w : os_run (j + k) w = w ← os_run j w; os_run k w.
Proof.
  revert w. induction j as [|j IH]; intros w; [done|]. cbn. destruct (os_step w); [|done]. cbn. apply IH.
Qed.

Lemma os_run_S k w : os_run (S k) w = w ← os_run k w; os_step w.
Proof.
  rewrite <- Nat.add_1_r, os_run_add. destruct (os_run k w) as [v|]; [|done]. cbn. by destruct (os_step v).
Qed.

Lemma os_run_ok w k : os_ok w -> cur w = 0%nat ->
  exists w', os_run k w = Some w' /\ os_ok w' /\ length (procs w') = length (procs w) /\
    cur w' = (k mod length (procs w))%nat.
Proof.
  intros W H0. pose proof (wok_cur w W) as Hn. induction k as [|k (w1 & E & W1 & L & C)].
  - exists w. by rewrite Nat.mod_0_l by lia.
  - rewrite os_run_S, E, some_bind. destruct (os_step_spec w1 W1) as (w' & p & p' & o & Es & W' & _ & _ & Ep & Ec & _).
    exists w'. split; [done|]. split; [done|]. rewrite Ep, length_insert, L. split; [done|].
    rewrite Ec, L, C. rewrite <- !Nat.add_1_l. by rewrite Nat.Div0.add_mod_idemp_r.
Qed.

(** ** Isolation *)

(** What a process does when it has a machine for itself: its state after [m]
    instructions, and what was written. *)
Fixpoint proc_run (m : nat) (p : proc) : option (proc * list Z) :=
  match m with
  | O => Some (p, [])
  | S m => '(p, out) ← proc_run m p; '(p, o) ← proc_step p; Some (p, out ++ printed o)
  end.

(** The turns process [i] of [n] gets in the first [k] rounds. *)
Definition turns (n i k : nat) : nat := (k / n + if i <? k mod n then 1 else 0)%nat.

(** What process [i] wrote. *)
Definition output_of (i : nat) (w : os) : list Z :=
  concat (snd <$> filter (fun b => b.1 = i) (stdout w)).

Lemma turns_0 n i : turns n i 0 = 0%nat.
Proof. unfold turns. destruct n; [done|]. by rewrite Nat.Div0.div_0_l, Nat.Div0.mod_0_l. Qed.

Lemma turns_S n i k : (i < n)%nat ->
  turns n i (S k) = (turns n i k + if decide (i = k mod n) then 1 else 0)%nat.
Proof.
  intros Hi. unfold turns. pose proof (Nat.div_mod k n). pose proof (Nat.mod_upper_bound k n).
  pose proof (Nat.div_mod (S k) n). pose proof (Nat.mod_upper_bound (S k) n).
  set (q := (k / n)%nat) in *. set (r := (k mod n)%nat) in *.
  destruct (decide (S r = n)) as [E|E].
  - assert (S k / n = S q)%nat as -> by (symmetry; apply (Nat.div_unique _ _ _ 0); lia).
    assert (S k mod n = 0)%nat as -> by (symmetry; apply (Nat.mod_unique _ _ (S q)); lia).
    case_decide; destruct (Nat.ltb_spec i r), (Nat.ltb_spec i 0); lia.
  - assert (S k / n = q)%nat as -> by (symmetry; apply (Nat.div_unique _ _ _ (S r)); lia).
    assert (S k mod n = S r)%nat as -> by (symmetry; apply (Nat.mod_unique _ _ q); lia).
    case_decide; destruct (Nat.ltb_spec i r), (Nat.ltb_spec i (S r)); lia.
Qed.

Lemma turns_rounds n i m : (i < n)%nat -> turns n i (m * n) = m.
Proof. intros Hi. unfold turns. rewrite Nat.div_mul, Nat.Div0.mod_mul by lia. cbn. lia. Qed.

Lemma output_of_app i w out l : stdout w = out ++ l ->
  output_of i w = concat (snd <$> filter (fun b => b.1 = i) out) ++
                  concat (snd <$> filter (fun b => b.1 = i) l).
Proof. intros E. unfold output_of. by rewrite E, filter_app, fmap_app, concat_app. Qed.

Lemma output_one (i j : nat) o :
  concat (snd <$> filter (fun b => b.1 = i) match o with Some b => [(j, b)] | None => [] end) =
  if decide (i = j) then printed o else ([] : list Z).
Proof.
  destruct o as [b|]; [|by case_decide]. case_decide as D.
  - rewrite filter_cons_True by done. cbn. by rewrite app_nil_r.
  - by rewrite filter_cons_False by (cbn; congruence).
Qed.

(** The simulation: after [k] rounds each process is where it would be on its
    own after its turns. *)
Lemma os_simulates images k : images <> [] -> Forall (Forall byte_ok) images ->
  exists w, os_run k (os_init images) = Some w /\ os_ok w /\
    length (procs w) = length images /\ cur w = (k mod length images)%nat /\
    forall i image, images !! i = Some image -> exists p,
      procs w !! i = Some p /\
      proc_run (turns (length images) i k) (proc_init image) = Some (p, output_of i w).
Proof.
  intros Hn Hi. pose proof (os_init_ok images Hn Hi) as W0.
  assert (length (procs (os_init images)) = length images) as L0 by (cbn; by rewrite length_fmap).
  induction k as [|k (w & E & W & L & C & IH)].
  - exists (os_init images). split; [done|]. split; [done|]. split; [done|].
    split; [symmetry; by rewrite Nat.Div0.mod_0_l|]. intros i image Hl. exists (proc_init image).
    rewrite turns_0. split; [|done]. cbn. by rewrite list_lookup_fmap, Hl.
  - rewrite os_run_S, E, some_bind.
    destruct (os_step_spec w W) as (w' & p & p' & o & Es & W' & Ecur & Eps & Ep & Ec & Eo).
    exists w'. split; [done|]. split; [done|]. rewrite Ep, length_insert. split; [done|].
    split. { rewrite Ec, L, C, <- !(Nat.add_1_l (_ mod _)), Nat.Div0.add_mod_idemp_r. done. }
    intros i image Hl. destruct (IH i image Hl) as (q & Eq & Er).
    pose proof (lookup_lt_Some _ _ _ Hl) as Hlt. rewrite turns_S by done. rewrite (output_of_app i w' _ _ Eo).
    fold (output_of i w). rewrite C in *. case_decide as D.
    + subst i. assert (q = p) as -> by congruence. exists p'.
      split; [apply list_lookup_insert_eq; rewrite L; lia|].
      rewrite Nat.add_1_r, output_one, decide_True by done. cbn [proc_run].
      rewrite Er, some_bind. cbn. by rewrite Eps.
    + exists q. split; [by rewrite list_lookup_insert_ne|]. by rewrite Nat.add_0_r, Er, output_one, decide_False, app_nil_r.
Qed.

(** From any programs, the loop never leaves the buffers, the arrays or the
    memory of a machine: after any number of rounds it is running, each process's
    machine is well formed and in its own memory, the buffer has room for the
    next character, and each [fwrite] so far had a complete line or 255
    characters. *)
Lemma crazy_os_safe images k :
  images <> [] -> Forall (Forall byte_ok) images ->
  exists w, os_run k (os_init images) = Some w /\ length (procs w) = length images /\ os_ok w.
Proof.
  intros Hn Hi. destruct (os_simulates images k Hn Hi) as (w & E & W & L & _). by exists w.
Qed.

(** C21: the processes are isolated: after [k] rounds each is in the state, and has
    written what, its program would have alone on a machine after as many
    instructions as it had turns, whatever the other programs are; and the turns
    of two processes differ by one at most. *)
Theorem crazy_os_isolates images k :
  images <> [] -> Forall (Forall byte_ok) images ->
  exists w, os_run k (os_init images) = Some w /\
    (forall i image, images !! i = Some image -> exists p,
       procs w !! i = Some p /\
       proc_run (turns (length images) i k) (proc_init image) = Some (p, output_of i w)) /\
    (forall i j, (turns (length images) i k <= S (turns (length images) j k))%nat).
Proof.
  intros Hn Hi. destruct (os_simulates images k Hn Hi) as (w & E & W & _ & _ & H). exists w. split; [done|].
  split; [done|]. intros i j. unfold turns. destruct (i <? _)%nat, (j <? _)%nat; lia.
Qed.

(** No process can hold up another: what a program alone would have written
    after [m] instructions, the system has written for it after [m] rounds of all
    the processes. *)
Lemma crazy_os_progress images i image m :
  Forall (Forall byte_ok) images -> images !! i = Some image ->
  exists w p out, os_run (m * length images) (os_init images) = Some w /\
    proc_run m (proc_init image) = Some (p, out) /\ output_of i w = out.
Proof.
  intros Hi Hl. assert (images <> []) as Hn by (by intros ->).
  destruct (os_simulates images (m * length images) Hn Hi) as (w & E & W & _ & _ & H).
  destruct (H i image Hl) as (p & Ep & Er). rewrite turns_rounds in Er by (by eapply lookup_lt_Some).
  by exists w, p, (output_of i w).
Qed.

(** ** The system call *)

(** What the handler restores is what the trap saved. *)
Lemma ecall_return_trap pc0 cycle tval c : csr_ok c -> mode c = 0 ->
  let c' := ecall_return (finish cycle (MTVEC c) (trap_entry pc0 8 tval c)) in
  PC c' = u32 (pc0 + 4) /\ MCAUSE c' = 0 /\ EXTRAFLAGS c' = EXTRAFLAGS c /\
  MSTATUS c' / 8 mod 2 = MSTATUS c / 8 mod 2.
Proof.
  intros Hc Hm. apply csr_ok_iff in Hc as (_&_&_&_&_&_&_&_&_&_&_&_&_&_&_&[He1 He2]).
  unfold mode in Hm.
  assert (forall x, EXTRAFLAGS (ecall_return (finish cycle (MTVEC c) x)) = EXTRAFLAGS (ecall_return x) /\
    MSTATUS (ecall_return (finish cycle (MTVEC c) x)) = MSTATUS (ecall_return x) /\
    PC (ecall_return (finish cycle (MTVEC c) x)) = PC (ecall_return x)) as Hf.
  { intros x. unfold finish. by destruct (_ <? _). }
  cbv zeta. destruct (Hf (trap_entry pc0 8 tval c)) as (-> & -> & ->). clear Hf.
  split; [done|]. split; [done|]. cbn. unfold mode. rewrite Hm, Z.mul_0_r, Z.add_0_r, Z.sub_0_r.
  set (b := MSTATUS c / 8 mod 2). assert (b = 0 \/ b = 1) as Hb by (unfold b; pose proof (Z.mod_pos_bound (MSTATUS c / 8) 2); lia).
  split.
  - change (not32 3) with ((2 ^ 30 - 1) * 2 ^ 2). rewrite mask_mod by lia.
    assert (Z.land (Z.shiftr (2 ^ 7 * b) 11) 3 = 0) as -> by (destruct Hb as [-> | ->]; reflexivity).
    rewrite Z.lor_0_r. change (2 ^ 2) with 4. rewrite Z.mod_small; [|pose proof (Z.div_mod (EXTRAFLAGS c + 3) 4)]; divlia.
  - change 3 with (2 ^ 2 - 1) at 2. rewrite land_ones_mod by lia.
    replace ((EXTRAFLAGS c + 3) mod 2 ^ 2) with 3 by divlia.
    destruct Hb as [-> | ->]; reflexivity.
Qed.

(** A program's [ecall] is served in the slice it is made in: call 42 adds the
    character in [a0] to what the process has printed (written or still in its
    buffer) and returns 0, any other call prints nothing and returns -1; the
    program goes on at the next instruction, in user mode and with the interrupt
    enable it had, with all its other registers and its memory unchanged. *)
Lemma crazy_os_ecall p :
  proc_ok p ->
  let t := ticked (cpu p) 1 in
  awake (csrs t) -> fetches t Ecall -> mode (csrs t) = 0 ->
  exists p' o, proc_step p = Some (p', o) /\
    printed o ++ pending p' =
      pending p ++ (if REG (cpu p) A7 =? 42 then [u8 (REG (cpu p) A0)] else []) /\
    regs (cpu p') = <[10%nat := if REG (cpu p) A7 =? 42 then 0 else 2 ^ 32 - 1]> (regs (cpu p)) /\
    (forall a, mem_bytes (cpu p') a = mem_bytes (cpu p) a) /\
    PC (csrs (cpu p')) = u32 (PC (csrs (cpu p)) + 4) /\ mode (csrs (cpu p')) = 0 /\
    MCAUSE (csrs (cpu p')) = 0 /\
    MSTATUS (csrs (cpu p')) / 8 mod 2 = MSTATUS (csrs (cpu p)) / 8 mod 2.
Proof.
  intros P t Ha Hf Hm. pose proof (pok_cpu p P) as C. assert (word 1) as H1 by (by apply word_small).
  assert (csr_ok (csrs t)) as Ht by apply (ok_csr t), (ticked_ok _ _ C H1).
  pose proof (step_isa (cpu p) 1 Ecall C H1 I Ha Hf) as E. cbv zeta in E. fold t in E.
  destruct (step_keeps (cpu p) 1 C H1) as (c & r & E' & [C' (F1 & F2 & _)] & _).
  cbn [isa_exec retire] in E. rewrite Hm in E. cbn [Z.eqb] in E.
  unfold proc_step. rewrite E' in E |- *. injection E as -> ->. rewrite some_bind.
  set (c := on_csrs _ t) in *. assert (MCAUSE (csrs c) = 8) as ->.
  { unfold c, finish. cbn. by destruct (_ <? _). }
  assert (proc_ok (set_cpu c p)) as Pc by (destruct P; split; cbn; try done; congruence).
  destruct (handle_ecall_spec _ Pc) as (p' & o & -> & _ & _ & _ & Ec & Eo). exists p', o. split; [done|].
  cbn [cpu set_cpu] in Ec, Eo. rewrite Ec.
  destruct (ecall_return_trap (PC (csrs t)) (u32 (CYCLEL (csrs t) + 1)) (PC (csrs t)) (csrs t) Ht Hm) as (Epc & Emc & Eef & Ems).
  split; [done|]. split; [done|]. split; [done|].
  assert (PC (csrs t) = PC (csrs (cpu p)) /\ MSTATUS (csrs t) = MSTATUS (csrs (cpu p))) as [Tp Tm].
  { unfold t, ticked, timer_tick. cbn. by destruct (_ <? _), (_ && _). }
  cbn [csrs on_csrs set_REG c]. split_and!.
  - by rewrite <- Tp.
  - rewrite <- Hm. exact (f_equal (fun e => e mod 4) Eef).
  - done.
  - rewrite <- Tm. exact Ems.
Qed.

(** ** Two programs *)

(** [li a7, 42; li a0, c; ecall; li a0, '\n'; ecall; j .] *)
Definition demo_image (ch : Z) : list Z :=
  concat ((fun i => (fun k => Z.shiftr (encode i) (8 * k) mod 2 ^ 8) <$> [0; 1; 2; 3]) <$>
    [OpImm ADDI 17 0 42; OpImm ADDI 10 0 ch; Ecall; OpImm ADDI 10 0 10; Ecall; Jal 0 0]).

Definition demo_images : list (list Z) := [demo_image 65; demo_image 66; demo_image 67].

Lemma demo_images_ok : Forall (Forall byte_ok) demo_images.
Proof.
  assert (bool_decide (Forall (Forall (fun b => 0 <= b < 2 ^ 8)) demo_images) = true) as H
    by (vm_compute; reflexivity).
  exact (bool_decide_eq_true_1 _ H).
Qed.

Lemma crazy_os_safe_witness :
  exists w, os_run 40 (os_init demo_images) = Some w /\ length (procs w) = 3%nat /\ os_ok w.
Proof. apply (crazy_os_safe demo_images 40); [discriminate|exact demo_images_ok]. Defined.

(** The second of three programs, after six of its instructions. *)
Lemma crazy_os_isolates_witness :
  exists w, os_run 18 (os_init demo_images) = Some w /\ output_of 1 w = [66; 10].
Proof.
  destruct (crazy_os_isolates demo_images 18) as (w & E & H & _); [discriminate|exact demo_images_ok|].
  exists w. split; [exact E|]. destruct (H 1%nat (demo_image 66) eq_refl) as (p & _ & Er).
  pose proof (f_equal (option_map snd) Er) as Eo. vm_compute in Eo. injection Eo as Eo.
  unfold output_of. symmetry. exact Eo.
Defined.

Lemma crazy_os_progress_witness :
  exists w, os_run (6 * 3) (os_init demo_images) = Some w /\ output_of 2 w = [67; 10].
Proof.
  destruct (crazy_os_progress demo_images 2 (demo_image 67) 6 demo_images_ok eq_refl) as (w & p & out & E & Er & Eo).
  exists w. split; [exact E|]. rewrite Eo. pose proof (f_equal (option_map snd) Er) as H.
  vm_compute in H. injection H as H. symmetry. exact H.
Defined.

(** The first program, at its first [ecall]. *)
Definition demo_at_ecall : proc := from_option fst (proc_init []) (proc_run 2 (proc_init (demo_image 65))).

Lemma proc_run_ok m p : proc_ok p -> exists p' out, proc_run m p = Some (p', out) /\ proc_ok p'.
Proof.
  intros P. induction m as [|m (q & out & E & Q)]; [by exists p, []|]. cbn. rewrite E, some_bind.
  destruct (proc_step_ok q Q) as (p' & o & -> & P' & _). rewrite some_bind. by eexists _, _.
Qed.

Lemma demo_at_ecall_ok : proc_ok demo_at_ecall.
Proof.
  unfold demo_at_ecall. destruct (proc_run_ok 2 (proc_init (demo_image 65))) as (p & out & -> & P); [|done].
  apply proc_init_ok. exact (Forall_inv demo_images_ok).
Qed.

Lemma crazy_os_ecall_witness :
  exists p' o, proc_step demo_at_ecall = Some (p', o) /\ printed o ++ pending p' = [65] /\
    REG (cpu p') A0 = 0 /\ PC (csrs (cpu p')) = 0x8000000c.
Proof.
  destruct (crazy_os_ecall demo_at_ecall demo_at_ecall_ok) as (p' & o & E & Ep & Er & _ & Epc & _).
  - split; vm_compute; reflexivity.
  - split; [|split]; vm_compute; reflexivity.
  - vm_compute. reflexivity.
  - exists p', o. split; [exact E|]. rewrite Ep, Epc. unfold REG. rewrite Er. split; [|split]; vm_compute; reflexivity.
Defined.
