(* ===== verification/Rv32imaMain.v ===== *)
(** * The command line of the emulator (course_2/mini-rv32ima/main.c)

    The program loads an image, hands up to four integers to it on its stack and
    steps the machine of [Rv32ima].  Strings are lists of [char] values without
    their terminator; [None] is undefined behaviour.  [atoi] is the C library's,
    and a parameter here; reading the image file is its content. *)

From S2P Require Import Prelude RvBits Rv32ima Rv32imaSafe Rv32imaIsa Hanoi CrazyOs.

Definition RAM_SIZE : Z := 64 * 1024 * 1024.
Definition RAM_TEXT_START : Z := 0.
Definition RAM_STACK_START : Z := RAM_SIZE / 2.
Definition RAM_TEXT_END : Z := RAM_STACK_START.
Definition RAM_STACK_END : Z := RAM_SIZE.
Definition MAX_MAINARGS : Z := 4.

Definition chr_0 : Z := 48.
Definition chr_a : Z := 97.
Definition chr_f : Z := 102.
Definition chr_x : Z := 120.

(** The loop of [xtoi], over the characters after the prefix.  In the first
    branch the code has [=+], an assignment. *)
Fixpoint xtoi_loop (s : list Z) (res : Z) : option Z :=
  match s with
  | [] => Some res
  | c :: s =>
      res ← int_val (res * 16);
      res ← (if (chr_a <=? c) && (c <=? chr_f) then Some (c - chr_a) else int_val (res + (c - chr_0)));
      xtoi_loop s res
  end.

Definition xtoi (s : list Z) : option Z := xtoi_loop (drop 2 s) 0.

Section Main.
Variable atoi : list Z -> option Z.

Definition mainarg (s : list Z) : option Z :=
  match s with
  | c0 :: c1 :: _ => if (c0 =? chr_0) && (c1 =? chr_x) then xtoi s else atoi s
  | _ => atoi s
  end.

Definition A1 : Z := 11.

(** [memcpy] of an array of [int]s. *)
Fixpoint put_words (m : mem) (a : Z) (l : list Z) : mem :=
  match l with
  | [] => m
  | v :: l => put_words (store_le m a 4 (u32 v)) (a + 4) l
  end.

(** The machine before its first step; the image has been found short enough. *)
Definition main_init (image margs : list Z) : CPUState :=
  let sp := u32 (RAM_STACK_END - Z.of_nat (length margs) * 4) in
  let s := mkCPU (replicate 32 0) csr_zero (put_words (mem_of 0 image) sp margs) RAM_TEXT_START RAM_SIZE in
  set_REG A1 sp (set_REG A0 (u32 (Z.of_nat (length margs))) (set_REG SP sp s)).

(** The [do] loop: the counter stops it after [debug_climit] rounds.  [true] is
    the error message. *)
Fixpoint emulate (debug_climit : nat) (s : CPUState) : option (CPUState * Z * bool) :=
  '(s, ret) ← rv32ima_step s 1;
  match debug_climit with
  | O | S O => Some (s, ret, true)
  | S climit => if (ret =? 0) && negb (PC (csrs s) =? 0) then emulate climit s else Some (s, ret, false)
  end.

Inductive main_result :=
  | ImageTooBig
  | LoadFailed
  | Emulated (s : CPUState) (ret : Z) (climit_exceeded : bool).

(** [fread] of one item of no bytes returns 0. *)
Definition main (image : list Z) (args : list (list Z)) : option main_result :=
  if RAM_TEXT_END - RAM_TEXT_START <? Z.of_nat (length image) then Some ImageTooBig
  else if Z.of_nat (length image) =? 0 then Some LoadFailed
  else
    margs ← mapM mainarg (take (Z.to_nat MAX_MAINARGS) args);
    '(s, ret, e) ← emulate (Z.to_nat 10000) (main_init image margs);
    Some (Emulated s ret e).

End Main.

(** ** The arguments *)

Definition hex_digit (c : Z) : option Z :=
  if (chr_0 <=? c) && (c <? chr_0 + 10) then Some (c - chr_0)
  else if (chr_a <=? c) && (c <=? chr_f) then Some (c - chr_a + 10) else None.

(** The number a string of hexadecimal digits denotes. *)
Fixpoint hex_value (s : list Z) (acc : Z) : option Z :=
  match s with
  | [] => Some acc
  | c :: s => d ← hex_digit c; hex_value s (acc * 16 + d)
  end.

(** A letter discards all that came before it, and counts from 0. *)
Lemma xtoi_letter_resets s c res v : chr_a <= c <= chr_f ->
  xtoi_loop (s ++ [c]) res = Some v -> v = c - chr_a.
Proof.
  intros Hc. revert res. induction s as [|d s IH]; intros res.
  - cbn [xtoi_loop app]. destruct (int_val (res * 16)); [|done]. cbn.
    assert ((chr_a <=? c) && (c <=? chr_f) = true) as -> by (rewrite andb_true_iff, !Z.leb_le; lia).
    cbn. by intros [= <-].
  - cbn [xtoi_loop app]. destruct (int_val (res * 16)) as [r|]; [|done]. cbn.
    destruct (_ && _); [apply IH|]. destruct (int_val (r + _)); [apply IH|done].
Qed.

(** [0x1f] is read as 5. *)
Lemma xtoi_example : xtoi [48; 120; 49; 102] = Some 5 /\ hex_value [49; 102] 0 = Some 31.
Proof. split; reflexivity. Qed.

Lemma hex_value_ge s acc v : 0 <= acc -> hex_value s acc = Some v -> acc <= v.
Proof.
  revert acc. induction s as [|c s IH]; cbn; intros acc Ha; [intros [= ->]; lia|].
  destruct (hex_digit c) as [d|] eqn:E; [|done]. cbn. unfold hex_digit in E. intros H.
  assert (0 <= d) by (unfold chr_0, chr_a, chr_f in E; destruct (_ && _) eqn:E1 in E; [|destruct (_ && _) eqn:E2 in E; [|done]];
    injection E as <-; try apply andb_true_iff in E1 as [?%Z.leb_le _]; try apply andb_true_iff in E2 as [?%Z.leb_le _]; lia).
  apply IH in H; lia.
Qed.

Definition decimal (c : Z) : Prop := chr_0 <= c < chr_0 + 10.

(** On digits below ten it is right, as long as the number fits. *)
Lemma xtoi_decimal_digits s acc v : Forall decimal s -> 0 <= acc ->
  hex_value s acc = Some v -> v <= int_max -> xtoi_loop s acc = Some v.
Proof.
  revert acc. induction s as [|c s IH]; cbn [hex_value xtoi_loop]; intros acc Hs Ha Hv Hm; [done|].
  apply Forall_cons in Hs as [Hc Hs]. unfold decimal, chr_0 in Hc.
  assert (hex_digit c = Some (c - chr_0)) as E.
  { unfold hex_digit, chr_0. destruct (Z.leb_spec 48 c), (Z.ltb_spec c (48 + 10)); try lia. done. }
  rewrite E, some_bind in Hv. 
  assert (acc * 16 + (c - 48) <= v) as Hle by (apply (hex_value_ge s); [lia|done]).
  assert (forall z, 0 <= z <= v -> int_val z = Some z) as Hi.
  { intros z Hz. unfold int_val, int_min, int_max in *. destruct (Z.leb_spec (-2 ^ 31) z), (Z.leb_spec z (2 ^ 31 - 1)); try lia. done. }
  rewrite (Hi (acc * 16)) by lia. cbn.
  assert ((chr_a <=? c) && (c <=? chr_f) = false) as ->.
  { unfold chr_a. destruct (Z.leb_spec 97 c); [lia|done]. }
  rewrite Hi by (unfold chr_0; lia). cbn. apply IH; [done|unfold chr_0; lia|done|done].
Qed.

(** ** The machine *)

Lemma put_words_ok m a l : mem_ok m -> mem_ok (put_words m a l).
Proof. revert m a. induction l as [|v l IH]; intros m a H; cbn [put_words]; [done|]. by apply IH, store_le_ok. Qed.

Lemma put_words_other m a l x : x < a -> put_words m a l x = m x.
Proof.
  revert m a. induction l as [|v l IH]; intros m a H; cbn [put_words]; [done|].
  rewrite IH by lia. apply store_le_other. lia.
Qed.

Lemma main_init_ok image margs : Forall byte_ok image -> (length margs <= 4)%nat ->
  cpu_ok (main_init image margs).
Proof.
  intros Hi Hl. unfold main_init.
  assert (forall i v s, cpu_ok s -> 0 < i < 32 -> word v -> cpu_ok (set_REG i v s)) as Hset
    by (intros i v s C Hr Hv; by apply keeps_REG).
  do 3 (apply Hset; [|by unfold A1, A0, SP|apply word_wrap]). split; cbn [regs csrs mem_bytes mem_offset mem_size]; try done.
  - by apply Forall_replicate.
  - apply csr_ok_iff. cbn. split_and!; by apply word_small.
  - by apply put_words_ok, mem_of_bytes.
Qed.

Lemma emulate_ends k s : cpu_ok s ->
  exists s' ret e, emulate k s = Some (s', ret, e) /\ cpu_ok s' /\
    (e = false -> ret <> 0 \/ PC (csrs s') = 0).
Proof.
  revert s. induction k as [|k IH]; intros s C; cbn [emulate];
    destruct (step_keeps s 1 C (word_small 1 eq_refl)) as (s1 & r & -> & [C1 _] & _); rewrite some_bind.
  - by exists s1, r, true.
  - destruct k as [|k]; [by exists s1, r, true|]. destruct (_ && _) eqn:E; [by apply IH|].
    exists s1, r, false. split; [done|]. split; [done|]. intros _.
    apply andb_false_iff in E as [E|E]; [left; by apply Z.eqb_neq in E|right].
    apply negb_false_iff, Z.eqb_eq in E. done.
Qed.

(** Reading back the [i]th word. *)
Lemma put_words_read m a l i v : mem_ok m -> l !! i = Some v ->
  load_le (put_words m a l) (a + 4 * Z.of_nat i) 4 = u32 v.
Proof.
  revert m a i. induction l as [|w l IH]; intros m a i Hm Hi; [done|]. destruct i as [|i].
  - injection Hi as ->. cbn [put_words]. rewrite Z.mul_0_r, Z.add_0_r.
    rewrite (load_le_ext _ (store_le m a 4 (u32 v)) a a 4); [|intros; by rewrite put_words_other by lia].
    apply load_store_le, wrap_range. done.
  - cbn [put_words]. replace (a + 4 * Z.of_nat (S i)) with (a + 4 + 4 * Z.of_nat i) by lia.
    apply IH; [by apply store_le_ok|done].
Qed.

(** A program started with up to four integers finds their number in [a0] and
    the integers, in order, at the address in [a1], which is also its stack
    pointer; its image is in memory from 0, and the emulation ends, after at most
    10000 instructions, with a reason. *)
Lemma emulator_runs_program image margs :
  Forall byte_ok image -> Z.of_nat (length image) <= RAM_TEXT_END -> (length margs <= 4)%nat ->
  let s := main_init image margs in
  REG s A0 = Z.of_nat (length margs) /\ REG s A1 = REG s SP /\ PC (csrs s) = 0 /\
  (forall i v, margs !! i = Some v -> load s (REG s A1 + 4 * Z.of_nat i) 4 = Some (u32 v)) /\
  (forall i b, image !! i = Some b -> load s (Z.of_nat i) 1 = Some b) /\
  exists s' ret e, emulate (Z.to_nat 10000) s = Some (s', ret, e) /\ cpu_ok s' /\
  (e = false -> ret <> 0 \/ PC (csrs s') = 0).
Proof.
  intros Hi Hlen Hl. pose proof (main_init_ok image margs Hi Hl) as C. cbv zeta.
  set (n := Z.of_nat (length margs)). assert (0 <= n <= 4) as Hn by (unfold n; lia).
  assert (u32 (RAM_STACK_END - n * 4) = RAM_SIZE - 4 * n) as Esp.
  { unfold RAM_STACK_END. rewrite wrap_small; [lia|]. unfold RAM_SIZE. lia. }
  assert (u32 n = n) as En by (apply wrap_small; lia).
  split_and!; [exact En|done|done| | |by apply emulate_ends].
  - intros i v Hv. pose proof (lookup_lt_Some _ _ _ Hv).
    change (REG (main_init image margs) A1) with (u32 (RAM_STACK_END - n * 4)).
    unfold load, main_init. cbn [mem_size mem_bytes set_REG]. fold n. rewrite Esp.
    assert ((0 <=? RAM_SIZE - 4 * n + 4 * Z.of_nat i) && (RAM_SIZE - 4 * n + 4 * Z.of_nat i + Z.of_nat 4 <=? RAM_SIZE) = true) as ->.
    { rewrite andb_true_iff, !Z.leb_le. unfold RAM_SIZE. lia. }
    f_equal. apply put_words_read; [by apply mem_of_bytes|done].
  - intros i b Hb. pose proof (lookup_lt_Some _ _ _ Hb).
    unfold load, main_init. cbn [mem_size mem_bytes set_REG]. fold n. rewrite Esp. cbn [load_le].
    unfold RAM_TEXT_END, RAM_STACK_START, RAM_SIZE in *. change (64 * 1024 * 1024 / 2) with 33554432 in Hlen.
    assert ((0 <=? Z.of_nat i) && (Z.of_nat i + Z.of_nat 1 <=? 64 * 1024 * 1024) = true) as ->.
    { rewrite andb_true_iff, !Z.leb_le. lia. }
    rewrite put_words_other by lia. f_equal. unfold mem_of. destruct (Z.leb_spec 0 (Z.of_nat i)); [|lia].
    rewrite Z.sub_0_r, Nat2Z.id, Hb. cbn. lia.
Qed.

(** The arguments 7 and -1. *)
Lemma emulator_runs_program_witness :
  let s := main_init (demo_image 65) [7; -1] in
  REG s A0 = 2 /\ load s (REG s A1 + 4) 4 = Some 0xffffffff.
Proof.
  destruct (emulator_runs_program (demo_image 65) [7; -1]) as (E & _ & _ & H & _).
  - exact (Forall_inv demo_images_ok).
  - vm_compute. discriminate.
  - vm_compute. repeat constructor.
  - split; [exact E|]. exact (H 1%nat (-1) eq_refl).
Defined.
